(* ===== verification/_CoqProject ===== *)
-Q . S2P
Prelude.v
BlackList.v
Roots.v
RootsOk.v
FinTable.v
FinTableOk.v
Links.v
FinSample.v
LinksOk.v
Toggle.v
Finalize.v
FinalizeOk.v
Scratch.v
Hblk.v
Headers.v
HeadersNav.v
HdrCache.v
HdrIface.v
MarkBits.v
ObjMap.v
Mark.v
MarkSpec.v
MarkVisit.v
MarkInv.v
MarkSample.v
MarkFrom.v
MarkPush.v
MarkSome.v
Typed.v
TypedOk.v
NewHblk.v
Sweep.v
FreeList.v
Allchblk.v
HeapInv.v
AllchblkFree.v
AllchblkTake.v
AllchblkSearch.v
AllchblkAlloc.v
Reclaim.v
ReclaimOk.v
ReclaimBlock.v
SizeMap.v
Malloc.v
MallocInv.v
MallocOk.v
HeapGrow.v
HeapGrowOk.v
Cord.v
CordSem.v
CordCat.v
CordBalance.v
CordOps.v
CordPos.v
CordXtra.v
CordXtraOk.v
CordStr.v
CordFile.v
