(* ===== verification/Prelude.v ===== *)
(** * gcutil: a verification library for the collector's core

    The repository is the Boehm-Demers-Weiser conservative collector as packaged
    for embedding, with its [cord] string library.  This library models parts of it
    and proves them correct: the management of heap blocks, on which allocation,
    marking and sweeping rest, the marker, sweeping, the allocation of objects, heap
    growth, the tables of static roots, finalization, and cords.

    ** The program

    The heap is a set of 4096-byte blocks.  [headers.c] keeps a two-level tree
    from block addresses to headers, whose storage comes from a bump allocator,
    with a small cache in front.  A block inside a large object has a forwarding
    count instead of a header.  [allchblk.c] keeps free blocks on lists by size,
    splits and coalesces them, and consults [blacklst.c], the tables of block
    addresses that were mistaken for pointers.  [mark_rts.c] keeps the ranges of
    static data to be scanned, and those to be left out of them.  [finalize.c] keeps
    hash tables of disappearing links and of finalizable objects, clears the links
    to objects that were not marked and queues finalizers.  [mark.c] and
    [new_hblk.c] keep the mark bits and the object maps of a block, and cut new blocks into free lists of
    objects.  Marking ([mark.c], [gc_pmark.h]) runs from a stack of address ranges
    with descriptors: it looks for pointers in them, marks the objects they point to
    and pushes these; when the stack overflows, entries are dropped and a state
    machine scans the heap again for marked objects.  [reclaim.c] sweeps: blocks without marks go back to [allchblk.c], the
    unmarked objects of other blocks go to free lists.  [malloc.c] and
    [mallocx.c] hand out objects from the free lists and large ones from blocks of
    their own, [typd_mlc.c] describes their layout to the marker, and [alloc.c] decides
    between collecting and growing the heap.  The cord library ([cord/]) builds
    immutable strings as trees of concatenations over strings and functions, and
    rebalances them; it uses the collector for allocation only.

    ** Files

    - [Prelude] (this file): 64-bit words, block arithmetic, arrays that read as
      zero, the [loop] combinator with its total-correctness rules, bit tables,
      address ranges, tactics and hint databases.
    - [BlackList]: [blacklst.c].  Four table pointers over a store of tables.
    - [Roots]: the tables of roots and exclusions of [mark_rts.c], proved in
      [RootsOk].
    - [FinTable]: the hash tables of [finalize.c] as arrays of chains, with their
      growth; [FinTableOk] proves that they are finite maps.  [Links]:
      disappearing links, with the class [Collector] of what finalization asks of
      the marker and its laws [CollectorLaws]; [FinSample] is an instance.
      [Toggle]: toggle-refs.  [Finalize]: finalizers and the finalizer queue.
      [LinksOk] and [FinalizeOk] prove them.
    - [Scratch]: [GC_scratch_alloc] of [headers.c].
    - [Hblk], [Headers], [HeadersNav], [HdrCache]: [headers.c] and the macros of
      [gc_hdrs.h]: header record, tree, installing and removing headers and
      counts, navigation between blocks, the cache.  [HdrIface] is the interface
      the allocator is proved against: the class [HeaderTable] with its laws
      [HeaderTableLaws], and the instance the tree provides.
    - [MarkBits]: the mark bits of [mark.c]; [ObjMap]: object maps of [new_hblk.c].
    - [Mark]: the sequential marker of [mark.c] and [gc_pmark.h].  [MarkSpec] says
      what an object, a reference and reachability are, without the marker;
      [MarkVisit] proves what looking at one value does, [MarkInv] the marking
      invariant, [MarkFrom] marking from the stack, [MarkPush] the pushing of ranges,
      roots and marked objects, [MarkSome] the mark state machine; [MarkSample] is a
      concrete heap.
    - [Typed]: descriptors and mark procedures of [typd_mlc.c], proved in [TypedOk]
      against [MarkSpec].
    - [NewHblk]: the free list of a new block, [GC_build_fl] of [new_hblk.c], on a
      memory of words; [Sweep]: the sweep of one block of [reclaim.c] on the same
      memory.
    - [FreeList]: the free lists of [allchblk.c] as linked lists through headers.
    - [Allchblk]: the rest of [allchblk.c]: [GC_allochblk_nth] and its steps,
      [GC_freehblk], unmapping and merging.  [HeapInv] is the heap invariant (a
      tiling of the heap sections by blocks, with the free lists and counts that
      belong to it); [AllchblkFree], [AllchblkTake], [AllchblkSearch] and
      [AllchblkAlloc] prove deallocation and allocation.
    - [Reclaim]: the rest of [reclaim.c], on the heap of [Allchblk], the memory and
      the lists of small objects: the decision about each block, the reclaim
      lists, leak reports.  [ReclaimOk] proves the sweeps of the reclaim lists,
      [ReclaimBlock] the decision, the leak check and the dropping of free lists.
    - [SizeMap]: the table of size classes ([misc.c], [malloc.c]).  [Malloc]: the
      allocation, deallocation and reallocation of objects ([malloc.c], [mallocx.c],
      [GC_allocobj], [GC_new_hblk]) over the record [block_ops] of what it asks of
      block allocation and collections.  [MallocInv]: the invariant of the free
      lists and of the objects clients hold, and the laws [BlockLaws] of
      [block_ops].  [MallocOk] proves allocation against these laws.
    - [HeapGrow]: heap sections, heap growth and the decisions when to collect
      ([alloc.c]), proved in [HeapGrowOk].
    - [Cord]: [cordbscs.c] without positions.  [CordSem]: the characters a cord
      denotes and well-formed cords; [CordCat], [CordBalance]: concatenation and
      balancing; [CordOps]: substrings and iterators.  [CordPos]: positions
      ([cord_pos.h]).  [CordXtra]: [cordxtra.c] and [ec.h], proved in
      [CordXtraOk], [CordStr] and [CordFile].

    ** State, operations and failure

    Each definition has the name of the function or macro it translates; the parts
    of a long function that have a definition of their own say so.  State is passed
    explicitly: [bl_state], [rt_state], [hashtbl], [fstate],
    [scratch_state], [hdr_state], [mk_state], [ty_state], [fl_state], [heap], [gc], [al]
    and [grow] for the collector, [CORD_pos], [CORD_ec] and [lf_state] for cords.  Words are
    integers with their wrap-around written where it can happen.  [option] is used
    for the failures the source reports and, in cords, for [abort], accesses out of
    bounds, reads of indeterminate memory and [NULL] dereferences, so a theorem
    that gives [Some] excludes them.

    The build modelled is 64-bit Linux: [HASH_TL] header tree, 4096-byte blocks,
    16-byte granules, [USE_MUNMAP], no threads, no
    assertions, signed [char].  The system's memory requests, the collector's
    decision procedures in [alloc.c], the disclaim procedures of object kinds and
    the client functions of function cords are parameters.

    ** What is proved

    - Allocation and deallocation of blocks keep the heap invariant: an allocated
      range is fresh, aligned, large enough and disjoint from every block in use,
      a freed block is coalesced with its free neighbours, and the accounting of
      free bytes stays exact.  The searches terminate and find what they should.
    - The header tree behaves as a finite map with forwarding counts, the cache in
      front of it is transparent, navigation returns nearest blocks, and scratch
      areas never overlap.
    - The word-at-a-time black-list search equals the block-by-block one, and
      registered false hits are reported.
    - Adding and removing roots keeps the root table, its hash index and its byte
      count right, exclusions stay sorted and disjoint, and the ranges handed to
      the marker are the registered roots less the excluded ranges.
    - The tables of links and finalizers refine finite maps, growth included.
      After a collection exactly the links that must go are cleared; exactly the
      unreachable finalizable objects are queued, once each, in the order the
      client asked for, and everything they need is marked.  The capacity of the
      toggle-ref array goes wrong when it is doubled past [2^31].
    - Mark-bit operations and mark counts agree; object maps are right.
    - Marking from the stack ends and marks exactly the objects reachable from it
      through unmarked objects, for every kind of descriptor, pointer offset and
      interior pointer, unless the stack overflowed, which the mark state records.
      Each step of the state machine [GC_mark_some] keeps the marking invariant, and
      when it reports completion every object reachable from the roots is marked.
    - A typed descriptor makes the marker look at exactly the words of its bitmap;
      the sizes of typed arrays are checked for overflow, and their mark procedure
      never overruns the mark stack.
    - Every size class has room for the sizes it serves.  Allocation ends and
      hands out an object of the right kind, size and alignment that overlaps nothing
      a client holds, whatever mixture of sweeping, new blocks, collections and heap
      growth it takes; freeing and reallocating keep the invariant and the contents
      of other objects; freeing a large object removes it from the mark stack.
      These theorems assume the laws [BlockLaws]: block allocation, collections and
      finalizers keep the invariant and the contents of the client's objects, and
      only finitely many rounds of collecting or expanding report success.
    - Adding memory to the heap keeps the heap invariant and makes the memory a listed
      free block inside the plausible heap bounds; expansions respect the limit of the
      client and ask for enough blocks without overflow.
    - A new block becomes the list of exactly the objects that fit, whichever
      routine builds it.  A sweep adds exactly the unmarked objects to the free
      list of their kind and size, clears them if it should, counts them, and
      touches nothing else; the loops over the reclaim lists end and sweep the
      right blocks; blocks are freed, queued or left alone as they should be, with
      the invariants of the block allocator and of the reclaim lists kept.  With a
      disclaim procedure that leaves other unmarked objects alone, what it keeps is
      marked and the rest reclaimed.  Leak detection reclaims nothing.
    - Every cord operation computes on the characters a cord denotes: [CORD_cat],
      [CORD_substr], [CORD_balance] (with a logarithmic depth bound, and no access
      outside the initialised part of its forest), the iterators, positions,
      comparison, searching, conversion, and file reading through a cache.
    - Concrete runs show the behaviours listed as defects in the manifest: a free
      block lost when header memory runs out, a stale function buffer after
      [CORD_prev], searching a cord for NUL, the sign of comparisons of bytes above
      127, and the overflow in [CORD_substr].  General theorems show that a sweep
      that ignores old blocks sweeps none after 65,536 collections, that the
      last smashed object of an overflowing table is not reported, that
      [GC_reallocf] with size zero makes a free list cyclic, and that uncollectable
      objects are not counted as they should.

    ** Bounds and fuel

    [loop] runs a C loop for at most 2^64 rounds, more than a 64-bit counter can
    distinguish; its rules [loop_spec] and [loop_spec_rel] give termination within
    that from a measure, so no theorem assumes it.  Recursion on trees and lists is
    structural.  The loops of the balancing forest have fuel 49, one more than the
    size of the tables they index, and fail on an index out of range in any case.
    [CORD_balance] and [CORD_cat] call each other; the knot is tied 48 deep, and
    [CORD_balance_correct] shows that no nested call happens for cords shorter than
    [CORD_LIMIT] = [min_len[46]] = 4,807,526,976 characters.  From [min_len[47]] on
    the code aborts, which is [CORD_balance_too_long]; the lengths between are
    modelled, but no theorem is stated for them.

    ** Not modelled

    The course of a collection ([GC_try_to_collect_inner], [GC_stopped_mark] and
    [GC_finish_collection] of [alloc.c]), the stacks and registers of [mark_rts.c],
    start-up ([misc.c]), the other kinds of objects ([gcj_mlc.c], [fnlz_mlc.c]), string
    duplication and typed arrays as allocated by [GC_calloc_do_explicitly_typed] are not
    modelled.  Of marking, the parallel marker, compressed pointers and the client
    procedure for an empty stack are left out; that the loop over [GC_mark_some] ends
    is not proved, and no theorem is stated for the state [MS_PUSH_RESCUERS].
    [GC_generic_malloc_many], [GC_realloc] of large objects and [GC_memalign] are
    modelled, but no theorem is stated for them.
    Finalization in Java mode is modelled, but no theorem is stated for it, and the
    theorems on running finalizers are for finalizers that do not register others.
    Of sweeping, the walk of [GC_start_reclaim] over all blocks, which frees blocks
    under the walk, is not modelled; the
    theorems on the reclaim lists are for kinds without a disclaim procedure.  Threads, signals, virtual dirty bits and system
    calls ([os_dep.c], [pthread_support.c] and others) are platform code whose
    effects are outside the model.  Debugging variants, the C++ wrappers, the
    formatted output of cords ([cordprnt.c]) and printing are left out.  Within the
    block allocator, [GC_unmap_old], [GC_merge_unmapped] and [GC_allochblk] itself
    are modelled, but their preservation of the heap invariant is not proved (it fails
    for [GC_allochblk] when header memory runs out), so that [BlockLaws] is not
    discharged for them. *)

From Stdlib Require Import ZArith Lia.
From stdpp Require Import base gmap list fin_maps.

Declare Scope gc_scope.
Delimit Scope gc_scope with gc.
#[global] Open Scope Z_scope.

(** ** Machine words

    The modelled build is LP64: [word], [size_t] and pointers are 64 bits.
    Addresses and sizes are integers; an operation that may leave the 64-bit
    range in the source is written with its wrap-around or saturation. *)

Definition CPP_WORDSZ : Z := 64.
Definition W64 : Z := 2 ^ 64.
Definition GC_SIZE_MAX : Z := 2 ^ 64 - 1.
Definition SIZET_SIGNB : Z := Z.lxor GC_SIZE_MAX (Z.shiftr GC_SIZE_MAX 1).
Definition wrap64 (z : Z) : Z := z mod W64.

Definition SIZET_SAT_ADD (a b : Z) : Z :=
  if a <? GC_SIZE_MAX - b then a + b else GC_SIZE_MAX.

Definition modWORDSZ (n : Z) : Z := Z.land n (CPP_WORDSZ - 1).
Definition divWORDSZ (n : Z) : Z := n / CPP_WORDSZ.

(** ** Heap blocks *)

Definition LOG_HBLKSIZE : Z := 12.
Definition HBLKSIZE : Z := Z.shiftl 1 LOG_HBLKSIZE.
Definition divHBLKSZ (n : Z) : Z := Z.shiftr n LOG_HBLKSIZE.
Definition modHBLKSZ (n : Z) : Z := Z.land n (HBLKSIZE - 1).
Definition PTR_ALIGN_DOWN (p a : Z) : Z := Z.land p (Z.lnot (a - 1)).
Definition PTR_ALIGN_UP (p a : Z) : Z := PTR_ALIGN_DOWN (p + a - 1) a.
Definition ALIGNMENT : Z := 8.
Definition HBLKPTR (p : Z) : Z := PTR_ALIGN_DOWN p HBLKSIZE.
Definition OBJ_SZ_TO_BLOCKS (lb : Z) : Z := divHBLKSZ (wrap64 (lb + HBLKSIZE - 1)).
Definition OBJ_SZ_TO_BLOCKS_CHECKED (lb : Z) : Z :=
  divHBLKSZ (SIZET_SAT_ADD lb (HBLKSIZE - 1)).
Definition GC_GRANULE_BYTES : Z := 16.
Definition BYTES_TO_GRANULES (lb : Z) : Z := lb / GC_GRANULE_BYTES.
Definition ROUNDUP_GRANULE_SIZE (lb : Z) : Z :=
  Z.land (SIZET_SAT_ADD lb (GC_GRANULE_BYTES - 1)) (Z.lnot (GC_GRANULE_BYTES - 1)).
Definition MAXOBJBYTES : Z := Z.shiftr HBLKSIZE 1.
Definition MAXOBJGRANULES : Z := BYTES_TO_GRANULES MAXOBJBYTES.
Definition GRANULES_TO_BYTES (lg : Z) : Z := lg * GC_GRANULE_BYTES.
Definition MINHINCR : Z := 16.
Definition MAXHINCR : Z := 2048.

Notation "'NULL'" := 0 : gc_scope.
#[global] Open Scope gc_scope.

(** ** Integer and bit lemmas *)

Create HintDb gc discriminated.
Create Rewrite HintDb gc_arith.

Lemma land_low_mask (a n : Z) : 0 <= n -> Z.land a (2 ^ n - 1) = a mod 2 ^ n.
Proof. intros. rewrite <- Z.land_ones by lia. f_equal. rewrite Z.ones_equiv. lia. Qed.

Lemma land_high_mask (a n : Z) :
  0 <= n -> Z.land a (Z.lnot (2 ^ n - 1)) = a - a mod 2 ^ n.
Proof.
  intros Hn. rewrite <- Z.ldiff_land.
  replace (2 ^ n - 1) with (Z.ones n) by (rewrite Z.ones_equiv; lia).
  rewrite Z.ldiff_ones_r, Z.shiftr_div_pow2, Z.shiftl_mul_pow2 by lia.
  pose proof (Z.div_mod a (2 ^ n)). lia.
Qed.

Lemma HBLKSIZE_eq : HBLKSIZE = 4096.
Proof. reflexivity. Qed.

Lemma divHBLKSZ_div (n : Z) : divHBLKSZ n = n / 4096.
Proof. unfold divHBLKSZ, LOG_HBLKSIZE. rewrite Z.shiftr_div_pow2 by lia. reflexivity. Qed.

Lemma modHBLKSZ_mod (n : Z) : modHBLKSZ n = n mod 4096.
Proof. unfold modHBLKSZ. change (HBLKSIZE - 1) with (2 ^ 12 - 1). apply land_low_mask. lia. Qed.

Lemma modWORDSZ_mod (n : Z) : modWORDSZ n = n mod 64.
Proof. unfold modWORDSZ. change (CPP_WORDSZ - 1) with (2 ^ 6 - 1). apply land_low_mask. lia. Qed.

Lemma PTR_ALIGN_DOWN_hblk (p : Z) : HBLKPTR p = p - p mod 4096.
Proof.
  unfold HBLKPTR, PTR_ALIGN_DOWN. change (HBLKSIZE - 1) with (2 ^ 12 - 1).
  rewrite land_high_mask by lia. reflexivity.
Qed.

Lemma align_down_8 (p : Z) : PTR_ALIGN_DOWN p ALIGNMENT = p - p mod 8.
Proof. exact (land_high_mask p 3 ltac:(lia)). Qed.

Lemma align_up_8 (p : Z) : PTR_ALIGN_UP p ALIGNMENT = p + 7 - (p + 7) mod 8.
Proof. unfold PTR_ALIGN_UP. rewrite align_down_8. unfold ALIGNMENT. by replace (p + 8 - 1) with (p + 7) by lia. Qed.

#[export] Hint Rewrite divHBLKSZ_div modHBLKSZ_mod modWORDSZ_mod HBLKSIZE_eq
  PTR_ALIGN_DOWN_hblk : gc_arith.

(** Turn the source's shifts and masks into [/] and [mod] by constants. *)
Ltac gc_arith := autorewrite with gc_arith in *.

(** Linear arithmetic over constant divisions and remainders. *)
Ltac dlia := Z.div_mod_to_equations; lia.

(** Case analysis on a boolean comparison in the goal or a hypothesis. *)
Ltac bcase :=
  match goal with
  | |- context [?a <? ?b] => destruct (Z.ltb_spec a b)
  | |- context [?a <=? ?b] => destruct (Z.leb_spec a b)
  | |- context [?a =? ?b] => destruct (Z.eqb_spec a b)
  | H : context [?a <? ?b] |- _ => destruct (Z.ltb_spec a b)
  | H : context [?a <=? ?b] |- _ => destruct (Z.leb_spec a b)
  | H : context [?a =? ?b] |- _ => destruct (Z.eqb_spec a b)
  end.

(** ** Zero-initialised arrays

    An array the source clears with [BZERO] is a finite map from indices to
    words in which an absent entry reads as 0. *)

Definition aget (m : gmap Z Z) (i : Z) : Z := default 0 (m !! i).

Lemma aget_empty (i : Z) : aget ∅ i = 0.
Proof. unfold aget. by rewrite lookup_empty. Qed.

Lemma aget_insert (m : gmap Z Z) (i j v : Z) :
  aget (<[i := v]> m) j = if decide (i = j) then v else aget m j.
Proof. unfold aget. rewrite lookup_insert. by case_decide. Qed.

#[export] Hint Rewrite aget_empty aget_insert : gc_arith.

(** The monad's left unit, to step past a [loop] without unfolding it. *)
Lemma some_bind {A B : Type} (a : A) (k : A -> option B) : (Some a ≫= k) = k a.
Proof. reflexivity. Qed.

(** ** Loops

    A C loop is a body that either continues with new loop variables ([inl]) or
    leaves the loop with a result ([inr]).  [loop] runs it for at most 2^64
    iterations, more than a 64-bit machine can count, by halving the budget so
    that it still evaluates; [loop_spec] is the total-correctness rule: an
    invariant and a decreasing 64-bit measure give a result. *)

Section Loops.
Context {A R : Type}.

Fixpoint loop_pos (body : A -> A + R) (p : positive) (s : A) : A + R :=
  match p with
  | xH => body s
  | xO p =>
    match loop_pos body p s with inl s => loop_pos body p s | inr r => inr r end
  | xI p =>
    match body s with
    | inl s =>
      match loop_pos body p s with inl s => loop_pos body p s | inr r => inr r end
    | inr r => inr r
    end
  end.

Definition loop (body : A -> A + R) (s : A) : option R :=
  match loop_pos body 18446744073709551616%positive s with
  | inl _ => None
  | inr r => Some r
  end.

(** [n] iterations, counted in unary: only used in proofs. *)
Fixpoint loop_nat (body : A -> A + R) (n : nat) (s : A) : A + R :=
  match n with
  | O => inl s
  | S n => match body s with inl s => loop_nat body n s | inr r => inr r end
  end.

Lemma loop_nat_add (body : A -> A + R) (n m : nat) (s : A) :
  loop_nat body (n + m) s
  = match loop_nat body n s with inl s => loop_nat body m s | inr r => inr r end.
Proof. revert s. induction n as [|n IH]; intros s; cbn; [done|]. destruct (body s); auto. Qed.

Lemma loop_pos_nat (body : A -> A + R) (p : positive) (s : A) :
  loop_pos body p s = loop_nat body (Pos.to_nat p) s.
Proof.
  revert s. induction p as [p IH|p IH|]; intros s; cbn [loop_pos].
  - replace (Pos.to_nat p~1) with (1 + (Pos.to_nat p + Pos.to_nat p))%nat by lia.
    rewrite loop_nat_add. cbn [loop_nat]. destruct (body s); [|done].
    rewrite loop_nat_add, IH. destruct (loop_nat _ _ _); [apply IH|done].
  - replace (Pos.to_nat p~0) with (Pos.to_nat p + Pos.to_nat p)%nat by lia.
    rewrite loop_nat_add, IH. destruct (loop_nat _ _ _); [apply IH|done].
  - change (Pos.to_nat 1) with 1%nat. cbn. by destruct (body s).
Qed.

Lemma loop_nat_spec (I : A -> Prop) (Q : R -> Prop) (m : A -> Z) (body : A -> A + R)
    (n : nat) (s : A) :
  (forall s, I s -> match body s with
                    | inl s' => I s' /\ 0 <= m s' < m s
                    | inr r => Q r
                    end) ->
  I s -> 0 <= m s < Z.of_nat n ->
  exists r, loop_nat body n s = inr r /\ Q r.
Proof.
  intros Hb. revert s. induction n as [|n IH]; intros s HI Hm; [lia|].
  cbn. specialize (Hb s HI). destruct (body s) as [s'|r]; [|eauto].
  destruct Hb as [HI' ?]. apply IH; [done|lia].
Qed.

(** The rule with the measure in the invariant: [I n s] bounds by [n] the number
    of iterations left. *)
Lemma loop_spec_rel (I : nat -> A -> Prop) (Q : R -> Prop) (body : A -> A + R) (n : nat) (s : A) :
  (forall n s, I n s -> match body s with
                        | inl s' => exists n', (n' < n)%nat /\ I n' s'
                        | inr r => Q r
                        end) ->
  I n s -> Z.of_nat n < W64 ->
  exists r, loop body s = Some r /\ Q r.
Proof.
  intros Hb HI Hn. unfold loop. rewrite loop_pos_nat.
  assert (H : forall k n s, (n < k)%nat -> I n s -> exists r, loop_nat body k s = inr r /\ Q r).
  { induction k as [|k IH]; intros n' s' Hk HI'; [lia|]. cbn.
    specialize (Hb n' s' HI'). destruct (body s') as [s''|r]; [|eauto].
    destruct Hb as (n'' & ? & ?). apply (IH n''); [lia|done]. }
  destruct (H (Pos.to_nat 18446744073709551616) n s) as (r & -> & HQ); [|done|eauto].
  unfold W64 in Hn. lia.
Qed.

Lemma loop_spec (I : A -> Prop) (Q : R -> Prop) (m : A -> Z) (body : A -> A + R) (s : A) :
  (forall s, I s -> match body s with
                    | inl s' => I s' /\ 0 <= m s' < m s
                    | inr r => Q r
                    end) ->
  I s -> 0 <= m s < W64 ->
  exists r, loop body s = Some r /\ Q r.
Proof.
  intros Hb HI Hm. unfold loop. rewrite loop_pos_nat.
  destruct (loop_nat_spec I Q m body (Pos.to_nat 18446744073709551616) s Hb HI)
    as (r & -> & HQ); [|eauto].
  rewrite positive_nat_Z. exact Hm.
Qed.

(** Partial correctness, for a loop known to have ended. *)
Lemma loop_partial (I : A -> Prop) (Q : R -> Prop) (body : A -> A + R) (s : A) (r : R) :
  (forall s, I s -> match body s with inl s' => I s' | inr r => Q r end) -> I s -> loop body s = Some r -> Q r.
Proof.
  intros Hb Hs. unfold loop. rewrite loop_pos_nat. generalize (Pos.to_nat 18446744073709551616). intros n. revert s Hs.
  induction n as [|n IH]; intros s Hs; cbn [loop_nat]; [done|].
  specialize (Hb s Hs). destruct (body s) as [s'|r']; [by apply IH|by intros [= <-]].
Qed.

Lemma loop_ext (f g : A -> A + R) (s : A) : (forall s, f s = g s) -> loop f s = loop g s.
Proof.
  intros H. unfold loop. rewrite !loop_pos_nat.
  generalize (Pos.to_nat 18446744073709551616). intros n. f_equal.
  assert (E : loop_nat f n s = loop_nat g n s); [|by rewrite E].
  revert s. induction n as [|n IH]; intros s; cbn; [done|].
  rewrite H. destruct (g s); auto.
Qed.

(** The form for loops whose result is a function [F] of the loop variables. *)
Lemma loop_eq (I : A -> Prop) (F : A -> R) (m : A -> Z) (body : A -> A + R) (s : A) :
  (forall s, I s -> match body s with
                    | inl s' => I s' /\ F s' = F s /\ 0 <= m s' < m s
                    | inr r => r = F s
                    end) ->
  I s -> 0 <= m s < W64 ->
  loop body s = Some (F s).
Proof.
  intros Hb HI Hm.
  destruct (loop_spec (fun s' => I s' /\ F s' = F s) (fun r => r = F s) m body s)
    as (r & -> & ->); [|auto..].
  intros s' [HI' HF]. specialize (Hb s' HI').
  destruct (body s') as [s''|r]; [|congruence].
  destruct Hb as (? & ? & ?). split; [split; [done|congruence]|lia].
Qed.

(** A loop of [n] rounds. *)
Lemma loop_count (J : nat -> A -> Prop) (Q : R -> Prop) (body : A -> A + R) (n : nat) (s : A) :
  Z.of_nat n < W64 ->
  (forall k s, (k < n)%nat -> J k s -> exists s', body s = inl s' /\ J (S k) s') ->
  (forall s, J n s -> exists r, body s = inr r /\ Q r) ->
  J 0%nat s -> exists r, loop body s = Some r /\ Q r.
Proof.
  intros Hn Hstep Hend H0.
  apply (loop_spec_rel (fun i s => (i <= n)%nat /\ J (n - i)%nat s) Q body n s); [|by rewrite Nat.sub_diag|done].
  intros i s' [Hi HJ]. destruct (decide (i = 0%nat)) as [->|Hne].
  - rewrite Nat.sub_0_r in HJ. by destruct (Hend s' HJ) as (r & -> & HQ).
  - destruct (Hstep (n - i)%nat s') as (s'' & -> & HJ'); [lia|done|]. exists (i - 1)%nat.
    replace (n - (i - 1))%nat with (S (n - i)) by lia. split; [lia|]. split; [lia|done].
Qed.
End Loops.

#[global] Opaque loop.

(** ** Bit tables

    The source tests a bit of a word array with a shift and a mask, and sets or
    clears it in place. *)

Lemma shiftr_land_1 (w n : Z) : 0 <= n -> negb (Z.land (Z.shiftr w n) 1 =? 0) = Z.testbit w n.
Proof.
  intros Hn. rewrite Z.testbit_odd, (Z.land_ones _ 1), Zodd_mod by lia. change (2 ^ 1) with 2.
  pose proof (Z.mod_pos_bound (Z.shiftr w n) 2).
  destruct (Z.eqb_spec (Z.shiftr w n mod 2) 0) as [->|?]; [done|].
  by replace (Z.shiftr w n mod 2) with 1 by lia.
Qed.

Lemma bit_set_word (m : gmap Z Z) (n k : Z) :
  Z.testbit (aget (<[n / 64 := Z.lor (aget m (n / 64)) (Z.shiftl 1 (n mod 64))]> m) (k / 64)) (k mod 64)
  = bool_decide (n = k) || Z.testbit (aget m (k / 64)) (k mod 64).
Proof.
  rewrite aget_insert. case_decide as Hw.
  - rewrite Hw, Z.lor_spec, Z.shiftl_1_l, Z.pow2_bits_eqb by dlia. rewrite orb_comm. f_equal.
    case_bool_decide; [subst; apply Z.eqb_refl|]. apply Z.eqb_neq. dlia.
  - rewrite bool_decide_false; [done|]. by intros ->.
Qed.

Lemma bit_clear_word (m : gmap Z Z) (n k : Z) :
  Z.testbit (aget (<[n / 64 := Z.land (aget m (n / 64)) (Z.lxor GC_SIZE_MAX (Z.shiftl 1 (n mod 64)))]> m)
               (k / 64)) (k mod 64)
  = negb (bool_decide (n = k)) && Z.testbit (aget m (k / 64)) (k mod 64).
Proof.
  rewrite aget_insert. case_decide as Hw.
  - rewrite Hw, Z.land_spec, Z.lxor_spec, Z.shiftl_1_l, Z.pow2_bits_eqb by dlia.
    change GC_SIZE_MAX with (Z.ones 64). rewrite Z.ones_spec_low by dlia. rewrite andb_comm. f_equal.
    case_bool_decide as E; [subst; by rewrite Z.eqb_refl|].
    rewrite (proj2 (Z.eqb_neq _ _)); [done|]. dlia.
  - rewrite bool_decide_false; [done|]. by intros ->.
Qed.

(** ** Address ranges *)

(** A range is its first address with its size in bytes. *)
Definition disjoint_ranges (a b : Z * Z) : Prop := a.1 + a.2 <= b.1 \/ b.1 + b.2 <= a.1.
Definition range_in (a b : Z * Z) : Prop := b.1 <= a.1 /\ a.1 + a.2 <= b.1 + b.2.

Lemma disjoint_ranges_sym (a b : Z * Z) : disjoint_ranges a b -> disjoint_ranges b a.
Proof. unfold disjoint_ranges. lia. Qed.

Lemma disjoint_ranges_in (a b b' : Z * Z) :
  disjoint_ranges a b -> range_in b' b -> disjoint_ranges a b'.
Proof. unfold disjoint_ranges, range_in. lia. Qed.

#[export] Hint Resolve disjoint_ranges_sym disjoint_ranges_in : gc.

(** Rounding up to a power of two with the source's saturating idiom. *)
Lemma round_up_pow2 (lb k : Z) :
  0 <= k -> 0 <= lb < GC_SIZE_MAX - (2 ^ k - 1) ->
  let r := Z.land (SIZET_SAT_ADD lb (2 ^ k - 1)) (Z.lnot (2 ^ k - 1)) in
  lb <= r < lb + 2 ^ k /\ r mod 2 ^ k = 0.
Proof.
  intros Hk Hlb. cbn zeta. unfold SIZET_SAT_ADD. bcase; [|lia].
  rewrite land_high_mask by done. assert (0 < 2 ^ k) by lia.
  pose proof (Z.mod_pos_bound (lb + (2 ^ k - 1)) (2 ^ k)). split; [lia|].
  rewrite Zminus_mod, Z.mod_mod, Z.sub_diag by lia. by apply Z.mod_0_l; lia.
Qed.

(** A 64-bit word read as a signed one. *)
Definition signed64 (z : Z) : Z := if z <? 2 ^ 63 then z else z - 2 ^ 64.
