(* ===== verification/BlackList.v ===== *)
(** * Black-listing of heap blocks (blacklst.c)

    The collector keeps hash tables of block addresses that have had false
    pointer hits, and the block allocator avoids placing pointerful objects
    there.  The tables live behind four pointers which
    [GC_promote_black_lists] rotates, so the model keeps a store of tables and
    the four pointers rather than four table values. *)

From Stdlib Require Import ZArith Lia.
From stdpp Require Import base gmap list.
From S2P Require Import Prelude.

Module BlackList.

Definition LOG_PHT_ENTRIES : Z := 18.
Definition PHT_ENTRIES : Z := Z.shiftl 1 LOG_PHT_ENTRIES.
Definition PHT_SIZE : Z := PHT_ENTRIES / CPP_WORDSZ.
Abbreviation page_hash_table := (gmap Z Z) (only parsing).

Definition PHT_HASH (p : Z) : Z := Z.land (Z.shiftr p LOG_HBLKSIZE) (PHT_ENTRIES - 1).

Definition get_pht_entry_from_index (bl : page_hash_table) (index : Z) : bool :=
  negb (Z.land (Z.shiftr (aget bl (divWORDSZ index)) (modWORDSZ index)) 1 =? 0).

Definition set_pht_entry_from_index (bl : page_hash_table) (index : Z) : page_hash_table :=
  <[divWORDSZ index :=
      Z.lor (aget bl (divWORDSZ index)) (Z.shiftl 1 (modWORDSZ index))]> bl.

(** The black-list variables of [GC_arrays], the store of tables, and the
    collector variables [blacklst.c] reads. *)
Record bl_state := BlState {
  bl_tables : gmap Z page_hash_table;
  GC_old_normal_bl : Z;
  GC_incomplete_normal_bl : Z;
  GC_old_stack_bl : Z;
  GC_incomplete_stack_bl : Z;
  GC_black_list_spacing : Z;
  GC_all_interior_pointers : bool;
  GC_heap_sects : list (Z * Z);      (* hs_start, hs_bytes *)
  GC_heapsize : Z;
  GC_modws_valid_offsets : Z -> bool
}.

Definition table (st : bl_state) (p : Z) : page_hash_table := default ∅ (bl_tables st !! p).

Definition set_tables (ts : gmap Z page_hash_table) (st : bl_state) : bl_state :=
  BlState ts (GC_old_normal_bl st) (GC_incomplete_normal_bl st) (GC_old_stack_bl st)
    (GC_incomplete_stack_bl st) (GC_black_list_spacing st) (GC_all_interior_pointers st)
    (GC_heap_sects st) (GC_heapsize st) (GC_modws_valid_offsets st).

Definition set_bls (on inn os ins : Z) (st : bl_state) : bl_state :=
  BlState (bl_tables st) on inn os ins (GC_black_list_spacing st)
    (GC_all_interior_pointers st) (GC_heap_sects st) (GC_heapsize st)
    (GC_modws_valid_offsets st).

Definition set_spacing (n : Z) (st : bl_state) : bl_state :=
  BlState (bl_tables st) (GC_old_normal_bl st) (GC_incomplete_normal_bl st)
    (GC_old_stack_bl st) (GC_incomplete_stack_bl st) n (GC_all_interior_pointers st)
    (GC_heap_sects st) (GC_heapsize st) (GC_modws_valid_offsets st).

Definition GC_clear_bl (bl : Z) (st : bl_state) : bl_state :=
  set_tables (<[bl := ∅]> (bl_tables st)) st.

Definition GC_copy_bl (old dest : Z) (st : bl_state) : bl_state :=
  set_tables (<[dest := table st old]> (bl_tables st)) st.

(** [GC_scratch_alloc] hands out fresh tables: [t1 .. t4] are its results, [0]
    being a failure, on which the source exits. *)
Definition GC_bl_init_no_interiors (t1 t2 : Z) (st : bl_state) : option bl_state :=
  if GC_incomplete_normal_bl st =? NULL then
    if (t1 =? NULL) || (t2 =? NULL) then None
    else Some (GC_clear_bl t2 (GC_clear_bl t1
           (set_bls t1 t2 (GC_old_stack_bl st) (GC_incomplete_stack_bl st) st)))
  else Some st.

Definition GC_bl_init (t1 t2 t3 t4 : Z) (st : bl_state) : option bl_state :=
  let st := set_spacing (MINHINCR * HBLKSIZE) st in
  st' ← (if negb (GC_all_interior_pointers st)
         then GC_bl_init_no_interiors t1 t2 st else Some st);
  if (t3 =? NULL) || (t4 =? NULL) then None
  else Some (GC_clear_bl t4 (GC_clear_bl t3
         (set_bls (GC_old_normal_bl st') (GC_incomplete_normal_bl st') t3 t4 st'))).

(** *** Queries *)

Definition old_stack_listed (st : bl_state) (p : Z) : bool :=
  get_pht_entry_from_index (table st (GC_old_stack_bl st)) (PHT_HASH p).
Definition incomplete_stack_listed (st : bl_state) (p : Z) : bool :=
  get_pht_entry_from_index (table st (GC_incomplete_stack_bl st)) (PHT_HASH p).
Definition stack_listed (st : bl_state) (p : Z) : bool :=
  old_stack_listed st p || incomplete_stack_listed st p.
Definition normal_listed (st : bl_state) (p : Z) : bool :=
  get_pht_entry_from_index (table st (GC_old_normal_bl st)) (PHT_HASH p)
  || get_pht_entry_from_index (table st (GC_incomplete_normal_bl st)) (PHT_HASH p).

(** The loop of [GC_is_black_listed]; the fuel is an upper bound on the number
    of blocks still to test, each iteration advancing [i] by at least one. *)
Fixpoint is_black_listed_loop (fuel : nat) (st : bl_state) (h nblocks i index : Z)
    : option Z :=
  match fuel with
  | O => None
  | S fuel =>
    let w := divWORDSZ index in
    let step i :=
      if nblocks <=? i then Some NULL
      else is_black_listed_loop fuel st h nblocks i (PHT_HASH (h + i * HBLKSIZE)) in
    if (aget (table st (GC_old_stack_bl st)) w =? 0)
       && (aget (table st (GC_incomplete_stack_bl st)) w =? 0)
    then step (i + (CPP_WORDSZ - modWORDSZ index))
    else if get_pht_entry_from_index (table st (GC_old_stack_bl st)) index
            || get_pht_entry_from_index (table st (GC_incomplete_stack_bl st)) index
    then Some (h + (i + 1) * HBLKSIZE)
    else step (i + 1)
  end.

Definition GC_is_black_listed (st : bl_state) (h len : Z) : option Z :=
  let index := PHT_HASH h in
  if negb (GC_all_interior_pointers st)
     && (get_pht_entry_from_index (table st (GC_old_normal_bl st)) index
         || get_pht_entry_from_index (table st (GC_incomplete_normal_bl st)) index)
  then Some (h + HBLKSIZE)
  else
    let nblocks := divHBLKSZ len in
    is_black_listed_loop (S (Z.to_nat nblocks)) st h nblocks 0 index.

(** *** Statistics over the heap sections *)

Fixpoint number_stack_loop (fuel : nat) (st : bl_state) (h endp1 result : Z) : Z :=
  match fuel with
  | O => result
  | S fuel =>
    if h <? endp1
    then number_stack_loop fuel st (h + HBLKSIZE) endp1
           (if old_stack_listed st h then result + 1 else result)
    else result
  end.

Definition GC_number_stack_black_listed (st : bl_state) (start endp1 : Z) : Z :=
  number_stack_loop (Z.to_nat (divHBLKSZ (endp1 - start + HBLKSIZE - 1))) st start endp1 0.

Definition compute_total_stack_black_listed (st : bl_state) : Z :=
  foldl (fun total '(start, bytes) =>
           total + GC_number_stack_black_listed st start (start + divHBLKSZ bytes * HBLKSIZE))
        0 (GC_heap_sects st) * HBLKSIZE.

(** *** Phase changes *)

Definition adjust_spacing (total : Z) (st : bl_state) : bl_state :=
  let st := if negb (total =? 0)
            then set_spacing (HBLKSIZE * (GC_heapsize st / total)) st else st in
  let st := if GC_black_list_spacing st <? 3 * HBLKSIZE
            then set_spacing (3 * HBLKSIZE) st else st in
  if MAXHINCR * HBLKSIZE <? GC_black_list_spacing st
  then set_spacing (MAXHINCR * HBLKSIZE) st else st.

Definition GC_promote_black_lists (st : bl_state) : bl_state :=
  let very_old_normal_bl := GC_old_normal_bl st in
  let very_old_stack_bl := GC_old_stack_bl st in
  let st := set_bls (GC_incomplete_normal_bl st) (GC_incomplete_normal_bl st)
              (GC_incomplete_stack_bl st) (GC_incomplete_stack_bl st) st in
  let st := if negb (GC_all_interior_pointers st)
            then GC_clear_bl very_old_normal_bl st else st in
  let st := GC_clear_bl very_old_stack_bl st in
  let st := set_bls (GC_old_normal_bl st) very_old_normal_bl
              (GC_old_stack_bl st) very_old_stack_bl st in
  adjust_spacing (compute_total_stack_black_listed st) st.

Definition GC_unpromote_black_lists (st : bl_state) : bl_state :=
  let st := if negb (GC_all_interior_pointers st)
            then GC_copy_bl (GC_old_normal_bl st) (GC_incomplete_normal_bl st) st else st in
  GC_copy_bl (GC_old_stack_bl st) (GC_incomplete_stack_bl st) st.

(** *** Registration of false hits

    [hdr_null] is the test [NULL == HDR(p)] of the header table. *)
Section Registration.
Context (hdr_null : Z -> bool).

Definition GC_add_to_black_list_normal (p : Z) (st : bl_state) : bl_state :=
  if GC_modws_valid_offsets st (Z.land p (8 - 1)) then
    let index := PHT_HASH p in
    if hdr_null p || get_pht_entry_from_index (table st (GC_old_normal_bl st)) index
    then set_tables
           (<[GC_incomplete_normal_bl st :=
               set_pht_entry_from_index (table st (GC_incomplete_normal_bl st)) index]>
             (bl_tables st)) st
    else st
  else st.

Definition GC_add_to_black_list_stack (p : Z) (st : bl_state) : bl_state :=
  let index := PHT_HASH p in
  if hdr_null p || get_pht_entry_from_index (table st (GC_old_stack_bl st)) index
  then set_tables
         (<[GC_incomplete_stack_bl st :=
             set_pht_entry_from_index (table st (GC_incomplete_stack_bl st)) index]>
           (bl_tables st)) st
  else st.

Definition GC_ADD_TO_BLACK_LIST_NORMAL (p : Z) (st : bl_state) : bl_state :=
  if GC_all_interior_pointers st
  then GC_add_to_black_list_stack p st
  else GC_add_to_black_list_normal p st.

End Registration.

(** ** Bit tables *)

Lemma get_pht_testbit (bl : page_hash_table) (index : Z) :
  get_pht_entry_from_index bl index = Z.testbit (aget bl (index / 64)) (index mod 64).
Proof.
  unfold get_pht_entry_from_index, divWORDSZ, CPP_WORDSZ. gc_arith. apply shiftr_land_1. dlia.
Qed.

Lemma get_pht_set (bl : page_hash_table) (i j : Z) :
  get_pht_entry_from_index (set_pht_entry_from_index bl i) j
  = bool_decide (i = j) || get_pht_entry_from_index bl j.
Proof.
  rewrite !get_pht_testbit. unfold set_pht_entry_from_index, divWORDSZ, CPP_WORDSZ.
  rewrite modWORDSZ_mod. apply bit_set_word.
Qed.

Lemma get_pht_empty (i : Z) : get_pht_entry_from_index ∅ i = false.
Proof. rewrite get_pht_testbit, aget_empty. apply Z.testbit_0_l. Qed.

Lemma get_pht_zero_word (bl : page_hash_table) (i : Z) :
  aget bl (divWORDSZ i) = 0 -> get_pht_entry_from_index bl i = false.
Proof.
  unfold divWORDSZ, CPP_WORDSZ. intros H. rewrite get_pht_testbit, H. apply Z.testbit_0_l.
Qed.

Lemma PHT_HASH_mod (p : Z) : PHT_HASH p = p / 4096 mod 262144.
Proof.
  unfold PHT_HASH, LOG_HBLKSIZE. change (PHT_ENTRIES - 1) with (2 ^ 18 - 1).
  rewrite land_low_mask, Z.shiftr_div_pow2 by lia. reflexivity.
Qed.

(** Hashing never leaves the table. *)
Lemma PHT_HASH_bound (p : Z) : 0 <= PHT_HASH p < PHT_ENTRIES /\ divWORDSZ (PHT_HASH p) < PHT_SIZE.
Proof.
  rewrite PHT_HASH_mod. change PHT_ENTRIES with 262144. change PHT_SIZE with 4096.
  unfold divWORDSZ, CPP_WORDSZ. dlia.
Qed.

(** Blocks in the rest of the current table word hash to consecutive bits. *)
Lemma PHT_HASH_same_word (p k : Z) :
  0 <= k < 64 - PHT_HASH p mod 64 ->
  PHT_HASH (p + k * HBLKSIZE) / 64 = PHT_HASH p / 64.
Proof.
  rewrite !PHT_HASH_mod, HBLKSIZE_eq, Z.div_add by lia. intros H.
  set (q := p / 4096) in *. clearbody q. dlia.
Qed.

(** ** What [GC_is_black_listed] computes *)

(** Reference: test the blocks one at a time and report the block after the
    first listed one. *)
Fixpoint first_listed (n : nat) (st : bl_state) (h : Z) : Z :=
  match n with
  | O => NULL
  | S n => if stack_listed st h then h + HBLKSIZE else first_listed n st (h + HBLKSIZE)
  end.

Lemma first_listed_skip (k n : nat) (st : bl_state) (h : Z) :
  (forall j, 0 <= j < Z.of_nat k -> stack_listed st (h + j * HBLKSIZE) = false) ->
  first_listed n st h = first_listed (n - k) st (h + Z.of_nat k * HBLKSIZE).
Proof.
  revert n h. induction k as [|k IH]; intros n h Hall.
  - rewrite Nat.sub_0_r. f_equal. lia.
  - destruct n as [|n]; [done|]. cbn [first_listed Nat.sub].
    pose proof (Hall 0) as H0. rewrite Z.mul_0_l, Z.add_0_r in H0. rewrite H0 by lia.
    rewrite IH; [f_equal; lia|]. intros j Hj.
    replace (h + HBLKSIZE + j * HBLKSIZE) with (h + (j + 1) * HBLKSIZE) by lia.
    apply Hall. lia.
Qed.

Lemma zero_words_not_listed (st : bl_state) (p k : Z) :
  aget (table st (GC_old_stack_bl st)) (divWORDSZ (PHT_HASH p)) = 0 ->
  aget (table st (GC_incomplete_stack_bl st)) (divWORDSZ (PHT_HASH p)) = 0 ->
  0 <= k < 64 - modWORDSZ (PHT_HASH p) ->
  stack_listed st (p + k * HBLKSIZE) = false.
Proof.
  rewrite modWORDSZ_mod. intros Ho Hi Hk. unfold stack_listed, old_stack_listed,
    incomplete_stack_listed. rewrite !get_pht_zero_word; [done|..];
  unfold divWORDSZ, CPP_WORDSZ in *; by rewrite PHT_HASH_same_word.
Qed.

Lemma is_black_listed_loop_spec (fuel n : nat) (st : bl_state) (h i : Z) :
  (n <= fuel)%nat -> (0 < fuel)%nat ->
  is_black_listed_loop fuel st h (i + Z.of_nat n) i (PHT_HASH (h + i * HBLKSIZE))
  = Some (first_listed (Nat.max 1 n) st (h + i * HBLKSIZE)).
Proof.
  revert n i. induction fuel as [|fuel IH]; intros n i Hn Hf; [lia|].
  cbn [is_black_listed_loop].
  set (p := h + i * HBLKSIZE).
  assert (Hgo : forall d, 1 <= d ->
    (forall j, 0 <= j < d -> stack_listed st (p + j * HBLKSIZE) = false) ->
    (if i + Z.of_nat n <=? i + d then Some 0
     else is_black_listed_loop fuel st h (i + Z.of_nat n) (i + d)
            (PHT_HASH (h + (i + d) * HBLKSIZE)))
    = Some (first_listed (Nat.max 1 n) st p)).
  { intros d Hd Hall. rewrite (first_listed_skip (Z.to_nat d));
      [|intros j Hj; apply Hall; lia].
    bcase.
    - replace (Nat.max 1 n - Z.to_nat d)%nat with 0%nat by lia. done.
    - replace (i + Z.of_nat n) with (i + d + Z.of_nat (n - Z.to_nat d)) by lia.
      rewrite IH by lia. f_equal. unfold p. f_equal; lia. }
  destruct (aget (table st (GC_old_stack_bl st)) (divWORDSZ (PHT_HASH p)) =? 0) eqn:Ho,
    (aget (table st (GC_incomplete_stack_bl st)) (divWORDSZ (PHT_HASH p)) =? 0) eqn:Hi;
    cbn [andb].
  { apply Z.eqb_eq in Ho, Hi. apply Hgo.
    - rewrite modWORDSZ_mod. unfold CPP_WORDSZ. dlia.
    - intros j Hj. by apply zero_words_not_listed. }
  all: fold (old_stack_listed st p); fold (incomplete_stack_listed st p);
    change (old_stack_listed st p || incomplete_stack_listed st p) with (stack_listed st p);
    destruct (stack_listed st p) eqn:Hs.
  all: try (apply Hgo; [lia|]; intros j Hj; replace j with 0 by lia;
    by rewrite Z.mul_0_l, Z.add_0_r).
  all: destruct n as [|n]; cbn [Nat.max first_listed]; rewrite Hs; f_equal; unfold p; lia.
Qed.

(** [GC_is_black_listed] as a specification: the normal list matters only for
    the first block and only without interior pointers; then the stack lists are
    searched block by block (at least one block). *)
Definition black_listed_spec (st : bl_state) (h len : Z) : Z :=
  if negb (GC_all_interior_pointers st) && normal_listed st h then h + HBLKSIZE
  else first_listed (Nat.max 1 (Z.to_nat (len / HBLKSIZE))) st h.

Lemma is_black_listed_eq (st : bl_state) (h len : Z) :
  0 <= len -> GC_is_black_listed st h len = Some (black_listed_spec st h len).
Proof.
  intros Hlen.
  unfold GC_is_black_listed, black_listed_spec, normal_listed.
  destruct (negb _ && _); [done|].
  pose proof (is_black_listed_loop_spec (S (Z.to_nat (divHBLKSZ len)))
    (Z.to_nat (divHBLKSZ len)) st h 0) as H.
  rewrite Z.mul_0_l, Z.add_0_r, Z.add_0_l in H.
  rewrite divHBLKSZ_div, HBLKSIZE_eq in *. rewrite Z2Nat.id in H by dlia.
  apply H; lia.
Qed.

(** C38: [GC_is_black_listed] always terminates within one iteration per block
    and, for a length that is not negative, returns exactly what testing every
    block of the range one by one would return: the word-at-a-time skipping of
    empty table words never misses a listed block. *)
Theorem GC_is_black_listed_correct (st : bl_state) (h len : Z) (Hlen : 0 <= len) :
  GC_is_black_listed st h len = Some (black_listed_spec st h len).
Proof. by apply is_black_listed_eq. Qed.

Lemma GC_is_black_listed_correct_witness :
  let st := GC_add_to_black_list_stack (fun _ => true) 8192
    (BlState {[1 := ∅; 2 := ∅]} 0 0 1 2 65536 true [] 0 (fun _ => true)) in
  0 <= 16384 /\ GC_is_black_listed st 0 16384 = Some 12288.
Proof.
  split; [lia|]. rewrite (GC_is_black_listed_correct _ 0 16384) by lia. vm_compute. reflexivity.
Defined.

(** ** The table pointers *)

Definition live_bls (st : bl_state) : list Z :=
  (if GC_all_interior_pointers st then [] else [GC_old_normal_bl st; GC_incomplete_normal_bl st])
  ++ [GC_old_stack_bl st; GC_incomplete_stack_bl st].

(** The tables in use are allocated and pairwise distinct; without interior
    pointers that includes the two normal lists. *)
Definition bl_wf (st : bl_state) : Prop := NoDup (live_bls st) /\ NULL ∉ live_bls st.

Ltac bl_wf_cases H st :=
  unfold bl_wf, live_bls in H; destruct (GC_all_interior_pointers st) eqn:?; cbn in H;
  destruct H as [H ?]; rewrite ?NoDup_cons in H; destruct_and?.

Lemma adjust_spacing_fields (total : Z) (st : bl_state) :
  let st' := adjust_spacing total st in
  bl_tables st' = bl_tables st /\ live_bls st' = live_bls st
  /\ GC_all_interior_pointers st' = GC_all_interior_pointers st
  /\ GC_old_normal_bl st' = GC_old_normal_bl st
  /\ GC_incomplete_normal_bl st' = GC_incomplete_normal_bl st
  /\ GC_old_stack_bl st' = GC_old_stack_bl st
  /\ GC_incomplete_stack_bl st' = GC_incomplete_stack_bl st
  /\ 3 * HBLKSIZE <= GC_black_list_spacing st' <= MAXHINCR * HBLKSIZE.
Proof.
  unfold adjust_spacing. rewrite HBLKSIZE_eq. unfold MAXHINCR.
  destruct (negb (total =? 0)); cbn -[Z.mul Z.div]; repeat bcase; cbn -[Z.mul Z.div];
    repeat split; try done; lia.
Qed.

Lemma table_insert (st : bl_state) (q p : Z) (t : page_hash_table) :
  table (set_tables (<[q := t]> (bl_tables st)) st) p = if decide (q = p) then t else table st p.
Proof. unfold table. cbn. rewrite lookup_insert. by case_decide. Qed.

Lemma promote_tables (st : bl_state) (Hwf : bl_wf st) :
  let st' := GC_promote_black_lists st in
  GC_old_stack_bl st' = GC_incomplete_stack_bl st
  /\ GC_incomplete_stack_bl st' = GC_old_stack_bl st
  /\ GC_old_normal_bl st' = GC_incomplete_normal_bl st
  /\ GC_incomplete_normal_bl st' = GC_old_normal_bl st
  /\ GC_all_interior_pointers st' = GC_all_interior_pointers st
  /\ table st' (GC_old_stack_bl st') = table st (GC_incomplete_stack_bl st)
  /\ table st' (GC_incomplete_stack_bl st') = ∅
  /\ (GC_all_interior_pointers st = false ->
      table st' (GC_old_normal_bl st') = table st (GC_incomplete_normal_bl st)
      /\ table st' (GC_incomplete_normal_bl st') = ∅).
Proof.
  cbn zeta. unfold GC_promote_black_lists.
  match goal with |- context [adjust_spacing ?t ?s] =>
    destruct (adjust_spacing_fields t s) as (Ht & _ & -> & -> & -> & -> & -> & _);
    set (tot := t) in * end.
  unfold table. rewrite Ht. clear Ht tot.
  bl_wf_cases Hwf st; cbn; rewrite ?Heqb; cbn;
    repeat split; try done; intros; try discriminate;
    rewrite ?lookup_insert; repeat case_decide; set_solver.
Qed.

(** A promotion turns exactly the hits recorded since the previous one into
    the current lists and starts empty incomplete lists: what is listed after it
    is what was incomplete before it, for the stack lists always and for the
    normal lists when interior pointers are not recognised. *)
Theorem GC_promote_black_lists_spec (st : bl_state) (p : Z) (Hwf : bl_wf st) :
  let st' := GC_promote_black_lists st in
  stack_listed st' p = incomplete_stack_listed st p
  /\ incomplete_stack_listed st' p = false
  /\ (GC_all_interior_pointers st = false ->
      normal_listed st' p
      = get_pht_entry_from_index (table st (GC_incomplete_normal_bl st)) (PHT_HASH p)).
Proof.
  cbn zeta. destruct (promote_tables st Hwf) as (? & ? & ? & ? & ? & Ho & Hi & Hn).
  unfold stack_listed, old_stack_listed, incomplete_stack_listed, normal_listed.
  rewrite Ho, Hi, get_pht_empty, orb_false_r. repeat split; auto.
  intros Hf. destruct (Hn Hf) as [-> ->]. by rewrite get_pht_empty, orb_false_r.
Qed.

Lemma GC_promote_black_lists_spec_witness :
  let st := BlState {[1 := ∅; 2 := {[0 := 1]}]} 0 0 1 2 65536 true [] 0 (fun _ => true) in
  bl_wf st /\ stack_listed (GC_promote_black_lists st) 0 = incomplete_stack_listed st 0.
Proof.
  cbn zeta. assert (H : bl_wf (BlState {[1 := ∅; 2 := {[0 := 1]}]} 0 0 1 2 65536 true [] 0
    (fun _ => true))).
  { split; [apply (bool_decide_unpack _); vm_compute; exact I|set_solver]. }
  split; [exact H|]. exact (proj1 (GC_promote_black_lists_spec _ 0 H)).
Defined.

(** ** Registered hits are reported and age out *)

Lemma stack_listed_add (hdr_null : Z -> bool) (st : bl_state) (p q : Z) :
  bl_wf st ->
  stack_listed (GC_add_to_black_list_stack hdr_null p st) q
  = stack_listed st q
    || bool_decide (PHT_HASH p = PHT_HASH q) && (hdr_null p || old_stack_listed st p).
Proof.
  intros Hwf. unfold GC_add_to_black_list_stack, stack_listed, old_stack_listed,
    incomplete_stack_listed.
  destruct (hdr_null p || _) eqn:E; [|by rewrite andb_false_r, orb_false_r].
  cbn [GC_old_stack_bl GC_incomplete_stack_bl set_tables].
  fold (set_tables (<[GC_incomplete_stack_bl st := set_pht_entry_from_index
    (table st (GC_incomplete_stack_bl st)) (PHT_HASH p)]> (bl_tables st)) st).
  assert (GC_incomplete_stack_bl st <> GC_old_stack_bl st) by (bl_wf_cases Hwf st; set_solver).
  rewrite !table_insert, decide_False, decide_True, get_pht_set by done.
  rewrite andb_true_r, orb_assoc, (orb_comm _ (bool_decide _)), <- orb_assoc, orb_comm.
  done.
Qed.

Lemma first_listed_hit (n : nat) (st : bl_state) (h p : Z) :
  h mod HBLKSIZE = 0 -> h <= p < h + Z.of_nat n * HBLKSIZE ->
  stack_listed st (HBLKPTR p) = true ->
  h < first_listed n st h <= HBLKPTR p + HBLKSIZE.
Proof.
  revert h. induction n as [|n IH]; intros h Hal Hp Hl; [lia|]. cbn [first_listed].
  rewrite PTR_ALIGN_DOWN_hblk, HBLKSIZE_eq in *.
  destruct (stack_listed st h) eqn:E; [dlia|].
  assert (p - p mod 4096 <> h) by congruence.
  specialize (IH (h + 4096) ltac:(dlia) ltac:(dlia) Hl). lia.
Qed.

(** Once a false hit on an address with no header has been registered on the
    stack list, a later query of any block-aligned range that contains the
    address is refused, and the reported restart point lies after the start of
    the range and not beyond the block that follows the hit. *)
Theorem registered_hit_is_reported (hdr_null : Z -> bool) (st : bl_state) (p h len : Z)
    (Hwf : bl_wf st) (Hnull : hdr_null p = true)
    (Hh : h mod HBLKSIZE = 0) (Hlen : len mod HBLKSIZE = 0) (Hin : h <= p < h + len) :
  exists r, GC_is_black_listed (GC_add_to_black_list_stack hdr_null p st) h len = Some r
    /\ h < r <= HBLKPTR p + HBLKSIZE.
Proof.
  rewrite is_black_listed_eq by lia. eexists; split; [done|].
  assert (Hl : stack_listed (GC_add_to_black_list_stack hdr_null p st) (HBLKPTR p) = true).
  { rewrite stack_listed_add, Hnull by done. apply orb_true_iff. right.
    apply andb_true_iff. split; [|done]. apply bool_decide_eq_true_2.
    rewrite !PHT_HASH_mod, PTR_ALIGN_DOWN_hblk. f_equal. dlia. }
  unfold black_listed_spec. destruct (negb _ && _).
  - rewrite PTR_ALIGN_DOWN_hblk, HBLKSIZE_eq in *. dlia.
  - apply first_listed_hit; [done| |done]. rewrite HBLKSIZE_eq in *.
    assert (0 < len / 4096) by dlia. rewrite Nat.max_r by lia. rewrite Z2Nat.id by lia. dlia.
Qed.

Lemma registered_hit_is_reported_witness :
  let st := BlState {[1 := ∅; 2 := ∅]} 0 0 1 2 65536 true [] 0 (fun _ => true) in
  bl_wf st /\ exists r,
    GC_is_black_listed (GC_add_to_black_list_stack (fun _ => true) 8200 st) 4096 8192 = Some r
    /\ 4096 < r <= HBLKPTR 8200 + HBLKSIZE.
Proof.
  cbn zeta. assert (H : bl_wf (BlState {[1 := ∅; 2 := ∅]} 0 0 1 2 65536 true [] 0
    (fun _ => true))).
  { split; [apply (bool_decide_unpack _); vm_compute; exact I|set_solver]. }
  split; [exact H|].
  apply (registered_hit_is_reported (fun _ => true) _ 8200 4096 8192 H);
    [reflexivity..|vm_compute; split; congruence].
Defined.

(** ** Reachable states *)

Inductive bl_step (hdr_null : Z -> bool) : bl_state -> bl_state -> Prop :=
  | bl_step_normal p st :
      bl_step hdr_null st (GC_ADD_TO_BLACK_LIST_NORMAL hdr_null p st)
  | bl_step_stack p st :
      bl_step hdr_null st (GC_add_to_black_list_stack hdr_null p st)
  | bl_step_promote st : bl_step hdr_null st (GC_promote_black_lists st)
  | bl_step_unpromote st : bl_step hdr_null st (GC_unpromote_black_lists st).

Lemma bl_wf_live (st st' : bl_state) :
  live_bls st' ≡ₚ live_bls st -> bl_wf st -> bl_wf st'.
Proof. intros Hp [? ?]. split; by rewrite Hp. Qed.

Lemma bl_step_wf (hdr_null : Z -> bool) (st st' : bl_state) :
  bl_step hdr_null st st' -> bl_wf st -> bl_wf st'.
Proof.
  intros Hs Hwf. revert Hwf. destruct Hs as [p st|p st|st|st]; intros Hwf.
  - apply (bl_wf_live st); [|done]. unfold GC_ADD_TO_BLACK_LIST_NORMAL,
      GC_add_to_black_list_stack, GC_add_to_black_list_normal. by repeat case_match.
  - apply (bl_wf_live st); [|done]. unfold GC_add_to_black_list_stack. by case_match.
  - apply (bl_wf_live st); [|done].
    destruct (promote_tables st Hwf) as (Ho & Hi & Hn & Hm & Ha & _).
    unfold live_bls. rewrite Ho, Hi, Hn, Hm, Ha.
    destruct (GC_all_interior_pointers st); cbn; [constructor|].
    etrans; [apply perm_swap|]. by do 2 constructor; constructor.
  - apply (bl_wf_live st); [|done]. unfold GC_unpromote_black_lists, GC_copy_bl.
    by case_match.
Qed.

Lemma GC_bl_init_wf (t1 t2 t3 t4 : Z) (st st' : bl_state) :
  NoDup [t1; t2; t3; t4] -> GC_incomplete_normal_bl st = NULL ->
  GC_bl_init t1 t2 t3 t4 st = Some st' -> bl_wf st'.
Proof.
  intros Hd Hn. unfold GC_bl_init, GC_bl_init_no_interiors, bl_wf, live_bls.
  cbn -[Z.mul]. rewrite Hn. rewrite !NoDup_cons in Hd. destruct_and?.
  destruct (GC_all_interior_pointers st) eqn:Ei; cbn -[Z.mul].
  - destruct (Z.eqb_spec t3 0), (Z.eqb_spec t4 0); cbn; intros; simplify_eq; cbn.
    rewrite Ei. cbn. rewrite !NoDup_cons. set_solver.
  - destruct (Z.eqb_spec t1 0), (Z.eqb_spec t2 0), (Z.eqb_spec t3 0), (Z.eqb_spec t4 0);
      cbn; intros; simplify_eq; cbn. rewrite Ei. cbn. rewrite !NoDup_cons. set_solver.
Qed.

(** From the state [GC_bl_init] builds out of four distinct scratch areas,
    every sequence of registrations, promotions and un-promotions keeps the
    table pointers allocated and distinct, so that no list is ever cleared or
    overwritten through another one's pointer. *)
Theorem black_lists_never_alias (hdr_null : Z -> bool) (t1 t2 t3 t4 : Z)
    (st0 st1 st : bl_state)
    (Hd : NoDup [t1; t2; t3; t4]) (Hn : GC_incomplete_normal_bl st0 = NULL)
    (Hi : GC_bl_init t1 t2 t3 t4 st0 = Some st1)
    (Hr : rtc (bl_step hdr_null) st1 st) :
  bl_wf st.
Proof.
  assert (Hw : bl_wf st1) by (by eapply GC_bl_init_wf).
  clear Hi. induction Hr; eauto using bl_step_wf.
Qed.

Lemma black_lists_never_alias_witness :
  let st0 := BlState ∅ 0 0 0 0 0 false [] 0 (fun _ => true) in
  exists st1, GC_bl_init 16 32 48 64 st0 = Some st1
    /\ bl_wf (GC_promote_black_lists st1).
Proof.
  eexists; split; [reflexivity|].
  eapply (black_lists_never_alias (fun _ => true) 16 32 48 64
    (BlState ∅ 0 0 0 0 0 false [] 0 (fun _ => true)));
    [apply (bool_decide_unpack _); vm_compute; exact I|reflexivity|reflexivity|].
  apply rtc_once, bl_step_promote.
Defined.

End BlackList.
