(* ===== verification/Roots.v ===== *)
(** * Static roots and their exclusions (mark_rts.c)

    The table of root ranges, with a hash index that finds a root by its start,
    the sorted table of excluded ranges, and the enumeration of the ranges that are
    to be scanned.  The model is the build without Windows' merging of overlapping
    roots.  The table is the list of its live entries, [n_root_sets] is its length,
    and a pointer to an entry is its position.  [None] is an abort or an access
    outside the table. *)

From Stdlib Require Import ZArith Lia.
From stdpp Require Import base gmap list.
From S2P Require Import Prelude.

Module Roots.

Definition MAX_ROOT_SETS : nat := 2048.
Definition MAX_EXCLUSIONS : nat := MAX_ROOT_SETS / 4.
Definition LOG_RT_SIZE : Z := 6.
Definition RT_SIZE : Z := Z.shiftl 1 LOG_RT_SIZE.

Record roots := Root {
  r_start : Z;
  r_end : Z;
  r_next : option nat;
  r_tmp : bool
}.

Record exclusion := Exclusion { e_start : Z; e_end : Z }.

Record rt_state := RtState {
  GC_static_roots : list roots;
  GC_root_index : gmap Z nat;           (* absent: [NULL] *)
  GC_root_size : Z;
  GC_last_root_set : nat;
  GC_excl_table : list exclusion
}.

Definition n_root_sets (s : rt_state) : nat := length (GC_static_roots s).

Definition set_roots (l : list roots) (s : rt_state) : rt_state :=
  RtState l (GC_root_index s) (GC_root_size s) (GC_last_root_set s) (GC_excl_table s).
Definition set_index (ix : gmap Z nat) (s : rt_state) : rt_state :=
  RtState (GC_static_roots s) ix (GC_root_size s) (GC_last_root_set s) (GC_excl_table s).
Definition set_size (n : Z) (s : rt_state) : rt_state :=
  RtState (GC_static_roots s) (GC_root_index s) n (GC_last_root_set s) (GC_excl_table s).
Definition set_last (i : nat) (s : rt_state) : rt_state :=
  RtState (GC_static_roots s) (GC_root_index s) (GC_root_size s) i (GC_excl_table s).
Definition set_excl (l : list exclusion) (s : rt_state) : rt_state :=
  RtState (GC_static_roots s) (GC_root_index s) (GC_root_size s) (GC_last_root_set s) l.
Definition upd_root (i : nat) (f : roots -> roots) (s : rt_state) : rt_state :=
  set_roots (alter f i (GC_static_roots s)) s.

Definition GC_compute_root_size (s : rt_state) : Z :=
  foldl (fun size r => wrap64 (size + wrap64 (r_end r - r_start r))) 0 (GC_static_roots s).

Definition rt_hash (addr : Z) : Z :=
  let val := addr in
  let val := Z.lxor val (Z.shiftr val (8 * LOG_RT_SIZE)) in
  let val := Z.lxor val (Z.shiftr val (4 * LOG_RT_SIZE)) in
  let val := Z.lxor val (Z.shiftr val (2 * LOG_RT_SIZE)) in
  Z.land (Z.lxor (Z.shiftr val LOG_RT_SIZE) val) (RT_SIZE - 1).

(** The inner [option] is the answer, [None] for [NULL]. *)
Definition present_body (s : rt_state) (b : Z) (p : option nat) : option nat + option (option nat) :=
  match p with
  | None => inr (Some None)
  | Some i => match GC_static_roots s !! i with
              | None => inr None
              | Some r => if r_start r =? b then inr (Some (Some i)) else inl (r_next r)
              end
  end.

Definition GC_roots_present (b : Z) (s : rt_state) : option (option nat) :=
  mjoin (loop (present_body s b) (GC_root_index s !! rt_hash b)).

Definition add_roots_to_index (i : nat) (s : rt_state) : rt_state :=
  match GC_static_roots s !! i with
  | None => s
  | Some r =>
    let h := rt_hash (r_start r) in
    let s := upd_root i (fun r => Root (r_start r) (r_end r) (GC_root_index s !! h) (r_tmp r)) s in
    set_index (<[h := i]> (GC_root_index s)) s
  end.

Definition new_root (b e : Z) (tmp : bool) (s : rt_state) : option rt_state :=
  let n := n_root_sets s in
  if (n =? MAX_ROOT_SETS)%nat then None
  else
    let s := set_roots (GC_static_roots s ++ [Root b e None tmp]) s in
    let s := add_roots_to_index n s in
    Some (set_size (wrap64 (GC_root_size s + wrap64 (e - b))) s).

Definition GC_add_roots_inner (b e : Z) (tmp : bool) (s : rt_state) : option rt_state :=
  let b := PTR_ALIGN_UP b ALIGNMENT in
  let e := PTR_ALIGN_DOWN e ALIGNMENT in
  if e <=? b then Some s
  else
    old ← GC_roots_present b s;
    match old with
    | None => new_root b e tmp s
    | Some i =>
      old ← GC_static_roots s !! i;
      if e <=? r_end old then
        Some (upd_root i (fun r => Root (r_start r) (r_end r) (r_next r) (r_tmp r && tmp)) s)
      else if eqb (r_tmp old) tmp || negb tmp then
        let s := set_size (wrap64 (GC_root_size s + wrap64 (e - r_end old))) s in
        Some (upd_root i (fun r => Root (r_start r) e (r_next r) tmp) s)
      else new_root (r_end old) e tmp s
    end.

Definition GC_clear_roots (s : rt_state) : rt_state := RtState [] ∅ 0 (GC_last_root_set s) (GC_excl_table s).

(** The last entry is copied, but for [r_next], over the one removed. *)
Definition GC_remove_root_at_pos (i : nat) (s : rt_state) : option rt_state :=
  r ← GC_static_roots s !! i;
  lst ← GC_static_roots s !! (n_root_sets s - 1)%nat;
  let s := set_size (wrap64 (GC_root_size s - wrap64 (r_end r - r_start r))) s in
  let l := <[i := Root (r_start lst) (r_end lst) (r_next r) (r_tmp lst)]> (GC_static_roots s) in
  Some (set_roots (take (n_root_sets s - 1) l) s).

Definition GC_rebuild_root_index (s : rt_state) : rt_state :=
  foldl (fun s i => add_roots_to_index i s) (set_index ∅ s) (seq 0 (n_root_sets s)).

(** The loop that [GC_remove_tmp_roots] and [GC_remove_roots_inner] share. *)
Definition remove_body (drop : roots -> bool) (st : nat * rt_state) : (nat * rt_state) + option rt_state :=
  let '(i, s) := st in
  match GC_static_roots s !! i with
  | None => inr (Some s)
  | Some r =>
    if drop r then
      match GC_remove_root_at_pos i s with Some s => inl (i, s) | None => inr None end
    else inl (S i, s)
  end.

Definition remove_where (drop : roots -> bool) (s : rt_state) : option rt_state :=
  let old_n_roots := n_root_sets s in
  s ← mjoin (loop (remove_body drop) (0%nat, s));
  Some (if (n_root_sets s <? old_n_roots)%nat then GC_rebuild_root_index s else s).

Definition GC_remove_tmp_roots (s : rt_state) : option rt_state := remove_where r_tmp s.

Definition GC_remove_roots_inner (b e : Z) (s : rt_state) : option rt_state :=
  remove_where (fun r => (b <=? r_start r) && (r_end r <=? e)) s.

Definition GC_remove_roots (b e : Z) (s : rt_state) : option rt_state :=
  if PTR_ALIGN_DOWN e ALIGNMENT <=? PTR_ALIGN_UP b ALIGNMENT then Some s
  else GC_remove_roots_inner b e s.

Definition ADDR_INSIDE (p : Z) (r : roots) : bool := (r_start r <=? p) && (p <? r_end r).

(** The position of the first root that has [p]. *)
Fixpoint find_root (p : Z) (l : list roots) (i : nat) : option (nat * roots) :=
  match l with
  | [] => None
  | r :: l => if ADDR_INSIDE p r then Some (i, r) else find_root p l (S i)
  end.

Definition GC_is_tmp_root (p : Z) (s : rt_state) : bool * rt_state :=
  match GC_static_roots s !! GC_last_root_set s with
  | Some r => if ADDR_INSIDE p r then (r_tmp r, s)
              else match find_root p (GC_static_roots s) 0 with
                   | Some (i, r) => (r_tmp r, set_last i s)
                   | None => (false, s)
                   end
  | None => match find_root p (GC_static_roots s) 0 with
            | Some (i, r) => (r_tmp r, set_last i s)
            | None => (false, s)
            end
  end.

(** ** Exclusions *)

Definition GC_clear_exclusion_table (s : rt_state) : rt_state := set_excl [] s.

(** Binary search; the state is [low, high]. *)
Definition next_exclusion_body (tbl : list exclusion) (start_addr : Z) (st : nat * nat)
    : (nat * nat) + option nat :=
  let '(low, high) := st in
  if (low <? high)%nat then
    let mid := Nat.div2 (low + high) in
    match tbl !! mid with
    | None => inr None
    | Some x => if e_end x <=? start_addr then inl (S mid, high) else inl (low, mid)
    end
  else inr (Some low).

Definition GC_next_exclusion (start_addr : Z) (s : rt_state) : option (option nat) :=
  let tbl := GC_excl_table s in
  if (length tbl =? 0)%nat then Some None
  else
    low ← mjoin (loop (next_exclusion_body tbl start_addr) (0%nat, (length tbl - 1)%nat));
    x ← tbl !! low;
    Some (if e_end x <=? start_addr then None else Some low).

(** The later entries move up by one. *)
Definition insert_at {A : Type} (i : nat) (x : A) (l : list A) : list A := take i l ++ x :: drop i l.

Definition GC_exclude_static_roots_inner (start finish : Z) (s : rt_state) : option rt_state :=
  let tbl := GC_excl_table s in
  let insert i :=
    if (MAX_EXCLUSIONS <=? length tbl)%nat then None
    else Some (set_excl (insert_at i (Exclusion start finish) tbl) s) in
  next ← GC_next_exclusion start s;
  match next with
  | None => insert (length tbl)
  | Some i =>
    x ← tbl !! i;
    if e_start x <? finish then None
    else if e_start x =? finish then Some (set_excl (<[i := Exclusion start (e_end x)]> tbl) s)
    else insert i
  end.

(** [e] is only rounded up when that does not overflow. *)
Definition GC_exclude_static_roots (b e : Z) (s : rt_state) : option rt_state :=
  if b =? e then Some s
  else
    let b := PTR_ALIGN_DOWN b ALIGNMENT in
    let e := if Z.lxor GC_SIZE_MAX (ALIGNMENT - 1) <? e then PTR_ALIGN_DOWN e ALIGNMENT else PTR_ALIGN_UP e ALIGNMENT in
    GC_exclude_static_roots_inner b e s.

(** The calls of [GC_PUSH_CONDITIONAL], in order. *)
Definition push_body (s : rt_state) (top : Z) (st : Z * list (Z * Z)) : (Z * list (Z * Z)) + option (list (Z * Z)) :=
  let '(bottom, pushed) := st in
  if bottom <? top then
    match GC_next_exclusion bottom s with
    | None => inr None
    | Some next =>
      let next := x ← (i ← next; GC_excl_table s !! i); if top <=? e_start x then None else Some x in
      let excl_start := match next with Some x => e_start x | None => top end in
      let pushed := if bottom <? excl_start then pushed ++ [(bottom, excl_start)] else pushed in
      match next with
      | None => inr (Some pushed)
      | Some x => inl (e_end x, pushed)
      end
    end
  else inr (Some pushed).

Definition GC_push_conditional_with_exclusions (bottom top : Z) (s : rt_state) : option (list (Z * Z)) :=
  mjoin (loop (push_body s top) (bottom, [])).

(** The static data part of [GC_push_roots]. *)
Fixpoint push_static (rs : list roots) (s : rt_state) : option (list (Z * Z)) :=
  match rs with
  | [] => Some []
  | r :: rs =>
    l ← GC_push_conditional_with_exclusions (r_start r) (r_end r) s;
    l' ← push_static rs s;
    Some (l ++ l')
  end.

Definition push_static_roots (s : rt_state) : option (list (Z * Z)) := push_static (GC_static_roots s) s.

End Roots.
