(* ===== verification/RootsOk.v ===== *)
(** * Correctness of the static roots (mark_rts.c)

    The exclusion table stays sorted and disjoint, its binary search finds the
    first range that ends after an address, and the ranges pushed for scanning are
    the roots without the exclusions.  The hash index finds every root by its start
    through additions and removals, and [GC_root_size] is the sum of the sizes. *)

From Stdlib Require Import ZArith Lia.
From stdpp Require Import base gmap list.
From S2P Require Import Prelude Roots.

Module RootsOk.
Import Roots.

(** ** The exclusion table *)

Record excl_ok (tbl : list exclusion) : Prop := {
  xo_proper : forall i x, tbl !! i = Some x -> e_start x < e_end x;
  xo_sorted : forall i j x y, (i < j)%nat -> tbl !! i = Some x -> tbl !! j = Some y -> e_end x <= e_start y;
  xo_length : (length tbl <= MAX_EXCLUSIONS)%nat
}.

(** [a] is excluded from scanning. *)
Definition excluded (tbl : list exclusion) (a : Z) : Prop := exists x, x ∈ tbl /\ e_start x <= a < e_end x.

Lemma MAX_EXCLUSIONS_eq : MAX_EXCLUSIONS = 512%nat.
Proof. reflexivity. Qed.

(** Position [i] is the first whose range ends after [a]. *)
Definition first_after (tbl : list exclusion) (a : Z) (r : option nat) : Prop :=
  match r with
  | None => forall x, x ∈ tbl -> e_end x <= a
  | Some i => (exists x, tbl !! i = Some x /\ a < e_end x)
              /\ forall j y, (j < i)%nat -> tbl !! j = Some y -> e_end y <= a
  end.

Lemma ends_mono (tbl : list exclusion) (i j : nat) (x y : exclusion) :
  excl_ok tbl -> (i <= j)%nat -> tbl !! i = Some x -> tbl !! j = Some y -> e_end x <= e_end y.
Proof.
  intros K Hij Hx Hy. destruct (decide (i = j)) as [->|]; [by simplify_eq|].
  pose proof (xo_sorted _ K i j x y ltac:(lia) Hx Hy). pose proof (xo_proper _ K j y Hy). lia.
Qed.

Lemma next_exclusion_spec (s : rt_state) (a : Z) :
  excl_ok (GC_excl_table s) -> exists r, GC_next_exclusion a s = Some r /\ first_after (GC_excl_table s) a r.
Proof.
  intros K. unfold GC_next_exclusion. set (tbl := GC_excl_table s) in *.
  destruct (Nat.eqb_spec (length tbl) 0) as [E|E].
  { exists None. split; [done|]. apply nil_length_inv in E. rewrite E. by intros x Hx%elem_of_nil. }
  destruct (loop_spec_rel
    (fun n st => n = (st.2 - st.1)%nat /\ (st.1 <= st.2 < length tbl)%nat
       /\ (forall j y, (j < st.1)%nat -> tbl !! j = Some y -> e_end y <= a)
       /\ (st.2 = (length tbl - 1)%nat \/ exists x, tbl !! st.2 = Some x /\ a < e_end x))
    (fun r => exists low, r = Some low /\ (low < length tbl)%nat
       /\ (forall j y, (j < low)%nat -> tbl !! j = Some y -> e_end y <= a)
       /\ (low = (length tbl - 1)%nat \/ exists x, tbl !! low = Some x /\ a < e_end x))
    (next_exclusion_body tbl a) (length tbl - 1)%nat (0%nat, (length tbl - 1)%nat)) as (r & -> & low & -> & Hl & Hlow & Hhi).
  - intros n [low high] (-> & Hr & Hlow & Hhi). cbn [fst snd] in *. unfold next_exclusion_body.
    destruct (Nat.ltb_spec low high) as [Hlt|Hge].
    + pose proof (Nat.div2_odd (low + high)) as Ho. assert (Nat.b2n (Nat.odd (low + high)) <= 1)%nat by (destruct Nat.odd; cbn; lia).
      set (mid := Nat.div2 (low + high)) in *. destruct (tbl !! mid) as [x|] eqn:Ex.
      2:{ apply lookup_ge_None in Ex. lia. }
      destruct (Z.leb_spec (e_end x) a).
      * exists (high - S mid)%nat. split; [lia|]. cbn [fst snd]. split_and!; [done|lia|lia| |done].
        intros j y Hj Hy. pose proof (ends_mono tbl j mid y x K ltac:(lia) Hy Ex). lia.
      * exists (mid - low)%nat. split; [lia|]. cbn [fst snd]. split_and!; [done|lia|lia|done|]. right. by exists x.
    + exists low. assert (high = low) as -> by lia. split_and!; [done|lia|done|done].
  - cbn [fst snd]. split_and!; [lia|lia|lia|intros; lia|by left].
  - pose proof (xo_length _ K). rewrite MAX_EXCLUSIONS_eq in *. unfold W64. lia.
  - cbn [mjoin option_join mbind option_bind]. destruct (tbl !! low) as [x|] eqn:Ex.
    2:{ apply lookup_ge_None in Ex. lia. }
    eexists. split; [done|]. destruct (Z.leb_spec (e_end x) a) as [Hle|Hgt].
    + cbn. destruct Hhi as [->|(x' & Ex' & Hgt)]; [|simplify_eq; lia].
      intros y (j & Hy)%list_elem_of_lookup. pose proof (lookup_lt_Some _ _ _ Hy).
      pose proof (ends_mono tbl j (length tbl - 1) y x K ltac:(lia) Hy Ex). lia.
    + split; [by exists x|done].
Qed.

(** [GC_next_exclusion] ends and returns the first range of a sorted table
    that reaches beyond the address, and [NULL] only if there is none. *)
Theorem GC_next_exclusion_correct (s : rt_state) (a : Z) (K : excl_ok (GC_excl_table s)) :
  exists r, GC_next_exclusion a s = Some r /\ first_after (GC_excl_table s) a r.
Proof. by apply next_exclusion_spec. Qed.

(** Inserting a range that ends before the next one starts. *)
Lemma insert_excl_ok (tbl : list exclusion) (i : nat) (x : exclusion) :
  excl_ok tbl -> (length tbl < MAX_EXCLUSIONS)%nat -> (i <= length tbl)%nat -> e_start x < e_end x ->
  (forall j y, (j < i)%nat -> tbl !! j = Some y -> e_end y <= e_start x) ->
  (forall j y, (i <= j)%nat -> tbl !! j = Some y -> e_end x <= e_start y) ->
  excl_ok (insert_at i x tbl).
Proof.
  intros K Hl Hi Hx Hb Ha. unfold insert_at.
  assert (Hlk : forall j y, (take i tbl ++ x :: drop i tbl) !! j = Some y ->
    (j < i /\ tbl !! j = Some y)%nat \/ (j = i /\ y = x) \/ (i < j /\ tbl !! (j - 1) = Some y)%nat).
  { intros j y. destruct (decide (j < i)%nat).
    - rewrite lookup_app_l, lookup_take_lt by (rewrite ?length_take; lia). by left.
    - rewrite lookup_app_r, length_take by (rewrite ?length_take; lia). replace (i `min` length tbl)%nat with i by lia.
      destruct (decide (j = i)) as [->|]; [rewrite Nat.sub_diag; intros [= <-]; by right; left|].
      replace (j - i)%nat with (S (j - i - 1)) by lia. change ((x :: drop i tbl) !! S (j - i - 1)) with (drop i tbl !! (j - i - 1)%nat). rewrite lookup_drop.
      replace (i + (j - i - 1))%nat with (j - 1)%nat by lia. intros Hy. right. right. split; [lia|done]. }
  split.
  - intros j y Hy. destruct (Hlk j y Hy) as [[_ Hy']|[[_ ->]|[_ Hy']]]; [by eapply xo_proper|done|by eapply xo_proper].
  - intros j k y z Hjk Hy Hz. destruct (Hlk j y Hy) as [[Hj Hy']|[[-> ->]|[Hj Hy']]];
      destruct (Hlk k z Hz) as [[Hk Hz']|[[-> ->]|[Hk Hz']]]; try lia.
    + by apply (xo_sorted _ K j k).
    + by apply (Hb j).
    + apply (xo_sorted _ K j (k - 1)); [lia|done|done].
    + apply (Ha (k - 1)%nat); [lia|done].
    + apply (xo_sorted _ K (j - 1) (k - 1)); [lia|done|done].
  - rewrite length_app. cbn [length]. rewrite length_take, length_drop. lia.
Qed.

Lemma excluded_insert_at (tbl : list exclusion) (i : nat) (x : exclusion) (a : Z) :
  excluded (insert_at i x tbl) a <-> excluded tbl a \/ e_start x <= a < e_end x.
Proof.
  unfold excluded, insert_at. split.
  - intros (y & [Hy|[->|Hy]%elem_of_cons]%elem_of_app & Ha); [left|by right|left]; exists y; (split; [|done]).
    + rewrite <- (take_drop i tbl). apply elem_of_app. by left.
    + rewrite <- (take_drop i tbl). apply elem_of_app. by right.
  - intros [(y & Hy & Ha)|Ha].
    + exists y. split; [|done]. rewrite <- (take_drop i tbl) in Hy. apply elem_of_app in Hy as [Hy|Hy]; apply elem_of_app;
        [by left|right; by right].
    + exists x. split; [|done]. apply elem_of_app. right. by left.
Qed.

(** The first range that reaches beyond [start] parts the table. *)
Lemma parted (tbl : list exclusion) (i : nat) (x : exclusion) (start : Z) :
  excl_ok tbl -> tbl !! i = Some x -> (forall j y, (j < i)%nat -> tbl !! j = Some y -> e_end y <= start) ->
  forall j y, tbl !! j = Some y -> ((j < i)%nat /\ e_end y <= start) \/ ((i <= j)%nat /\ e_start x <= e_start y).
Proof.
  intros K Hx Hlow j y Hy. destruct (decide (j < i)%nat); [left; split; [done|by apply (Hlow j)]|right].
  split; [lia|]. destruct (decide (j = i)) as [->|]; [simplify_eq; lia|].
  pose proof (xo_sorted _ K i j x y ltac:(lia) Hx Hy). pose proof (xo_proper _ K i x Hx). lia.
Qed.

(** Extending a range backwards. *)
Lemma extend_excl_ok (tbl : list exclusion) (i : nat) (x : exclusion) (start : Z) :
  excl_ok tbl -> tbl !! i = Some x -> start < e_start x ->
  (forall j y, (j < i)%nat -> tbl !! j = Some y -> e_end y <= start) ->
  excl_ok (<[i := Exclusion start (e_end x)]> tbl)
  /\ forall a, excluded (<[i := Exclusion start (e_end x)]> tbl) a <-> excluded tbl a \/ start <= a < e_start x.
Proof.
  intros K Ex Hs Hlow. assert (Hi : (i < length tbl)%nat) by (by eapply lookup_lt_Some).
  pose proof (xo_proper _ K i x Ex) as Hp.
  assert (Hlk : forall j y, <[i:=Exclusion start (e_end x)]> tbl !! j = Some y ->
    (j = i /\ y = Exclusion start (e_end x)) \/ (j <> i /\ tbl !! j = Some y)).
  { intros j y. destruct (decide (j = i)) as [->|Hne].
    - rewrite list_lookup_insert_eq by done. intros [= <-]. by left.
    - rewrite list_lookup_insert_ne by done. by right. }
  assert (Hnew : Exclusion start (e_end x) ∈ <[i:=Exclusion start (e_end x)]> tbl).
  { eapply (list_elem_of_lookup_2 _ i). by apply list_lookup_insert_eq. }
  split; [split|].
  - intros j y Hy. destruct (Hlk j y Hy) as [[-> ->]|[_ Hy']]; [cbn; lia|by eapply xo_proper].
  - intros j k y z Hjk Hy Hz. destruct (Hlk j y Hy) as [[-> ->]|[Hj Hy']], (Hlk k z Hz) as [[-> ->]|[Hk Hz']]; try lia; cbn.
    + by apply (xo_sorted _ K i k).
    + by apply (Hlow j).
    + by apply (xo_sorted _ K j k).
  - rewrite length_insert. apply K.
  - intros a. split.
    + intros (y & (j & Hy)%list_elem_of_lookup & Ha). destruct (Hlk j y Hy) as [[-> ->]|[_ Hy']].
      * cbn in Ha. destruct (decide (a < e_start x)); [right; lia|]. left. exists x. split; [by eapply list_elem_of_lookup_2|lia].
      * left. exists y. split; [by eapply list_elem_of_lookup_2|done].
    + intros [(y & (j & Hy)%list_elem_of_lookup & Ha)|Ha]; [|eexists; split; [exact Hnew|cbn; lia]].
      destruct (decide (j = i)) as [->|Hne]; [simplify_eq; eexists; split; [exact Hnew|cbn; lia]|].
      exists y. split; [|done]. eapply (list_elem_of_lookup_2 _ j). by rewrite list_lookup_insert_ne.
Qed.

Definition overlaps (tbl : list exclusion) (start finish : Z) : Prop :=
  exists x, x ∈ tbl /\ e_start x < finish /\ start < e_end x.

(** There is no room, and no range to extend. *)
Definition excl_full (tbl : list exclusion) (finish : Z) : Prop :=
  length tbl = MAX_EXCLUSIONS /\ forall x, x ∈ tbl -> e_start x <> finish.

(** The new entry fits in front of position [i]. *)
Lemma exclude_insert (s : rt_state) (i : nat) (start finish : Z) :
  excl_ok (GC_excl_table s) -> start < finish -> (i <= length (GC_excl_table s))%nat ->
  (forall j y, GC_excl_table s !! j = Some y -> ((j < i)%nat /\ e_end y <= start) \/ ((i <= j)%nat /\ finish < e_start y)) ->
  match (if (MAX_EXCLUSIONS <=? length (GC_excl_table s))%nat then None
         else Some (set_excl (insert_at i (Exclusion start finish) (GC_excl_table s)) s)) with
  | None => excl_full (GC_excl_table s) finish
  | Some s' => exists tbl', s' = set_excl tbl' s /\ excl_ok tbl'
               /\ forall a, excluded tbl' a <-> excluded (GC_excl_table s) a \/ start <= a < finish
  end.
Proof.
  intros K Hr Hi Hp. pose proof (xo_length _ K) as Hlen.
  destruct (Nat.leb_spec MAX_EXCLUSIONS (length (GC_excl_table s))) as [Hf|Hf].
  - split; [lia|]. intros y (j & Hy)%list_elem_of_lookup E. pose proof (xo_proper _ K j y Hy).
    destruct (Hp j y Hy); lia.
  - eexists. split; [done|]. split; [|intros a; apply excluded_insert_at]. apply insert_excl_ok; try done.
    + intros j y Hj Hy. destruct (Hp j y Hy) as [[_ ?]|[? _]]; [done|lia].
    + intros j y Hj Hy. destruct (Hp j y Hy) as [[? _]|[_ ?]]; [lia|cbn; lia].
Qed.

(** With a sorted table, excluding a range aborts only when it overlaps an
    excluded range or when the table is full and the range does not end where
    another one starts; it succeeds only without an overlap, and then the table
    stays sorted and disjoint, and exactly the addresses of the range are excluded
    in addition. *)
Theorem GC_exclude_static_roots_inner_correct (s : rt_state) (start finish : Z)
    (K : excl_ok (GC_excl_table s)) (Hr : start < finish) :
  let tbl := GC_excl_table s in
  match GC_exclude_static_roots_inner start finish s with
  | None => overlaps tbl start finish \/ excl_full tbl finish
  | Some s' => ~ overlaps tbl start finish /\ exists tbl', s' = set_excl tbl' s
       /\ excl_ok tbl' /\ forall a, excluded tbl' a <-> excluded tbl a \/ start <= a < finish
  end.
Proof.
  cbn zeta. unfold GC_exclude_static_roots_inner.
  destruct (next_exclusion_spec s start K) as (r & -> & Hfa). cbn [mbind option_bind]. destruct r as [i|].
  - destruct Hfa as [(x & Ex & Hx) Hlow]. rewrite Ex. cbn [mbind option_bind].
    assert (Hin : x ∈ GC_excl_table s) by (by eapply list_elem_of_lookup_2).
    pose proof (parted _ i x start K Ex Hlow) as Hp.
    destruct (Z.ltb_spec (e_start x) finish) as [Hlt|Hge]; [left; by exists x|].
    assert (Hno : ~ overlaps (GC_excl_table s) start finish).
    { intros (y & (j & Hy)%list_elem_of_lookup & H1 & H2). destruct (Hp j y Hy); lia. }
    destruct (Z.eqb_spec (e_start x) finish) as [<-|Hs].
    + split; [done|]. eexists. split; [done|]. by apply extend_excl_ok.
    + pose proof (exclude_insert s i start finish K Hr) as HI. destruct (MAX_EXCLUSIONS <=? _)%nat;
        [right|split; [done|]]; apply HI; try (apply Nat.lt_le_incl; by eapply lookup_lt_Some);
        (intros j y Hy; destruct (Hp j y Hy) as [?|[? ?]]; [by left|right; split; [done|lia]]).
  - cbn in Hfa. assert (Hno : ~ overlaps (GC_excl_table s) start finish).
    { intros (y & Hy & H1 & H2). specialize (Hfa y Hy). lia. }
    pose proof (exclude_insert s (length (GC_excl_table s)) start finish K Hr) as HI. destruct (MAX_EXCLUSIONS <=? _)%nat;
      [right|split; [done|]]; apply HI; try done;
      (intros j y Hy; left; split; [by eapply lookup_lt_Some|apply Hfa; by eapply list_elem_of_lookup_2]).
Qed.

(** ** Ranges to scan *)

Definition in_ranges (l : list (Z * Z)) (a : Z) : Prop := exists p, p ∈ l /\ p.1 <= a < p.2.

Lemma in_ranges_app (l l' : list (Z * Z)) (a : Z) : in_ranges (l ++ l') a <-> in_ranges l a \/ in_ranges l' a.
Proof. unfold in_ranges. split; [intros (p & [?|?]%elem_of_app & ?); eauto|intros [(p & ? & ?)|(p & ? & ?)]; exists p; rewrite elem_of_app; auto]. Qed.

Lemma in_ranges_push (l : list (Z * Z)) (b e a : Z) :
  in_ranges (if b <? e then l ++ [(b, e)] else l) a <-> in_ranges l a \/ b <= a < e.
Proof.
  destruct (Z.ltb_spec b e); [|split; [by left|intros [?|?]; [done|lia]]].
  rewrite in_ranges_app. split; (intros [Hl|Hr]; [by left|right]).
  - destruct Hr as (p & ->%list_elem_of_singleton & Ha). exact Ha.
  - exists (b, e). split; [by left|exact Hr].
Qed.

Lemma push_conditional_spec (s : rt_state) (bottom top : Z) :
  excl_ok (GC_excl_table s) -> top - bottom < W64 ->
  exists l, GC_push_conditional_with_exclusions bottom top s = Some l
    /\ forall a, in_ranges l a <-> bottom <= a < top /\ ~ excluded (GC_excl_table s) a.
Proof.
  intros K Hw. unfold GC_push_conditional_with_exclusions.
  destruct (loop_spec
    (fun st => bottom <= st.1 /\ forall a, in_ranges st.2 a <-> bottom <= a < Z.min st.1 top /\ ~ excluded (GC_excl_table s) a)
    (fun r => exists l, r = Some l /\ forall a, in_ranges l a <-> bottom <= a < top /\ ~ excluded (GC_excl_table s) a)
    (fun st => Z.max 0 (top - st.1)) (push_body s top) (bottom, [])) as (r & -> & l & -> & Hl); [| | |by exists l].
  - intros [b l] [Hb Hl]. cbn [fst snd] in *. unfold push_body. destruct (Z.ltb_spec b top) as [Hlt|Hge].
    2:{ exists l. split; [done|]. by rewrite Z.min_r in Hl. }
    rewrite Z.min_l in Hl by lia. destruct (next_exclusion_spec s b K) as (r & -> & Hfa).
    destruct r as [i|]; cbn [mbind option_bind].
    + destruct Hfa as [(x & Ex & Hx) Hlow]. rewrite Ex. cbn [mbind option_bind].
      pose proof (parted _ i x b K Ex Hlow) as Hp. pose proof (xo_proper _ K i x Ex).
      assert (Hfree : forall a, b <= a < e_start x -> ~ excluded (GC_excl_table s) a).
      { intros a Ha (y & (j & Hy)%list_elem_of_lookup & Hya). destruct (Hp j y Hy); lia. }
      destruct (Z.leb_spec top (e_start x)).
      * eexists. split; [done|]. intros a. rewrite in_ranges_push, Hl. split.
        -- intros [[? ?]|?]; [split; [lia|done]|]. split; [lia|]. apply Hfree. lia.
        -- intros [? ?]. destruct (decide (a < b)); [left; split; [lia|done]|right; lia].
      * cbn [fst snd]. split; [|lia]. split; [lia|]. intros a. rewrite in_ranges_push, Hl. split.
        -- intros [[? ?]|?]; [split; [lia|done]|]. split; [lia|]. by apply Hfree.
        -- intros [? Hn]. destruct (decide (a < b)); [left; split; [lia|done]|right]. split; [lia|].
           destruct (decide (a < e_start x)); [done|]. exfalso. apply Hn. exists x. split; [by eapply list_elem_of_lookup_2|lia].
    + cbn in Hfa. eexists. split; [done|]. intros a. rewrite in_ranges_push, Hl. split.
      * intros [[? ?]|?]; [split; [lia|done]|]. split; [lia|]. intros (y & Hy & ?). specialize (Hfa y Hy). lia.
      * intros [? ?]. destruct (decide (a < b)); [left; split; [lia|done]|right; lia].
  - cbn [fst snd]. split; [lia|]. intros a. split; [by intros (p & ?%elem_of_nil & _)|intros [? _]; lia].
  - cbn [fst]. unfold W64 in *. lia.
Qed.

(** ** The hash index *)

(** The chain of the index that starts at [p]. *)
Fixpoint rchain (l : list roots) (p : option nat) (c : list nat) : Prop :=
  match c with
  | [] => p = None
  | i :: c => p = Some i /\ exists r, l !! i = Some r /\ rchain l (r_next r) c
  end.

(** The index has exactly the roots at the positions of [P], each in the chain of
    its hash. *)
Definition idx_ok (P : nat -> Prop) (s : rt_state) : Prop :=
  forall h, exists c, rchain (GC_static_roots s) (GC_root_index s !! h) c /\ NoDup c
    /\ forall i, i ∈ c <-> P i /\ exists r, GC_static_roots s !! i = Some r /\ rt_hash (r_start r) = h.

Lemma rchain_ext (l l' : list roots) (p : option nat) (c : list nat) :
  (forall i r, i ∈ c -> l !! i = Some r -> exists r', l' !! i = Some r' /\ r_next r' = r_next r) ->
  rchain l p c -> rchain l' p c.
Proof.
  revert p. induction c as [|i c IH]; intros p Hl; cbn [rchain]; [done|].
  intros [-> (r & Hr & Hc)]. split; [done|]. destruct (Hl i r) as (r' & Hr' & En); [by left|done|].
  exists r'. split; [done|]. rewrite En. apply IH; [|done]. intros j x Hj. apply Hl. by right.
Qed.

(** Changes to a root that keep its start and its link. *)
Lemma idx_ok_alter (P : nat -> Prop) (s : rt_state) (i : nat) (f : roots -> roots) :
  (forall r, r_start (f r) = r_start r /\ r_next (f r) = r_next r) -> idx_ok P s -> idx_ok P (upd_root i f s).
Proof.
  intros Hf K h. destruct (K h) as (c & Hc & Hn & Hi). exists c.
  assert (Hlk : forall j r', alter f i (GC_static_roots s) !! j = Some r' <->
    exists r, GC_static_roots s !! j = Some r /\ r' = if decide (i = j) then f r else r).
  { intros j r'. destruct (decide (i = j)) as [->|Hne].
    - rewrite list_lookup_alter_eq. destruct (GC_static_roots s !! j) as [r|]; cbn; [|split; [done|by intros (? & ? & _)]].
      split; [intros [= <-]; by exists r|intros (? & [= <-] & ->); done].
    - rewrite list_lookup_alter_ne by done. split; [intros E; by exists r'|by intros (? & ? & ->)]. }
  cbn [GC_static_roots GC_root_index upd_root set_roots]. split; [|split; [done|]].
  - eapply rchain_ext; [|exact Hc]. intros j r _ Hr. eexists. split; [by apply Hlk; exists r|]. case_decide; [apply Hf|done].
  - intros j. rewrite Hi. split; intros [HP (r & Hr & Hh)]; (split; [done|]).
    + eexists. split; [by apply Hlk; exists r|]. case_decide; [by rewrite (proj1 (Hf r))|done].
    + apply Hlk in Hr as (r0 & Hr0 & ->). exists r0. split; [done|]. revert Hh. case_decide; [by rewrite (proj1 (Hf r0))|done].
Qed.

Lemma add_to_index_spec (P : nat -> Prop) (s : rt_state) (i : nat) (r : roots) :
  idx_ok P s -> ~ P i -> GC_static_roots s !! i = Some r -> idx_ok (fun j => j = i \/ P j) (add_roots_to_index i s).
Proof.
  intros K Hi Hr h. unfold add_roots_to_index. rewrite Hr. cbn [GC_static_roots GC_root_index upd_root set_roots set_index].
  set (g := fun r0 : roots => Root (r_start r0) (r_end r0) (GC_root_index s !! rt_hash (r_start r)) (r_tmp r0)).
  assert (Hle : alter g i (GC_static_roots s) !! i = Some (g r)) by (by rewrite list_lookup_alter_eq, Hr).
  assert (Hln : forall j, j <> i -> alter g i (GC_static_roots s) !! j = GC_static_roots s !! j)
    by (intros j Hj; by apply list_lookup_alter_ne).
  assert (Hext : forall p c, i ∉ c -> rchain (GC_static_roots s) p c -> rchain (alter g i (GC_static_roots s)) p c).
  { intros p c Hni. apply rchain_ext. intros j x Hj Hx. exists x. split; [|done]. rewrite Hln; [done|]. by intros ->. }
  destruct (K h) as (c & Hc & Hn & Hel). assert (Hic : i ∉ c) by (intros [? _]%Hel; done).
  destruct (decide (rt_hash (r_start r) = h)) as [<-|Hne].
  - exists (i :: c). rewrite lookup_insert_eq. split; [split; [done|]; exists (g r); split; [done|by apply Hext]|].
    split; [by apply NoDup_cons|]. intros j. rewrite elem_of_cons, Hel. destruct (decide (j = i)) as [->|Hj].
    + split; [|by left]. intros _. split; [by left|]. by exists (g r).
    + rewrite Hln by done. split; [intros [?|[? ?]]; [done|]; split; [by right|done]|intros [[?|?] ?]; [done|by right]].
  - exists c. rewrite lookup_insert_ne by done. split; [by apply Hext|]. split; [done|]. intros j. rewrite Hel.
    destruct (decide (j = i)) as [->|Hj].
    + split; [intros [? _]; done|]. intros [_ (x & Hx & Hh)]. rewrite Hle in Hx. injection Hx as <-. done.
    + rewrite Hln by done. split; [intros [? ?]; split; [by right|done]|intros [[?|?] ?]; done].
Qed.

Lemma NoDup_nat_length (c : list nat) (n : nat) : NoDup c -> (forall i, i ∈ c -> (i < n)%nat) -> (length c <= n)%nat.
Proof.
  intros Hn Hb. rewrite <- (length_seq n 0). apply submseteq_length, NoDup_submseteq; [done|].
  intros i Hi. apply elem_of_seq. specialize (Hb i Hi). lia.
Qed.

(** Looking up a root by its start. *)
Lemma roots_present_spec (s : rt_state) (b : Z) :
  idx_ok (fun _ => True) s -> (n_root_sets s <= MAX_ROOT_SETS)%nat ->
  exists r, GC_roots_present b s = Some r /\
    match r with
    | Some i => exists x, GC_static_roots s !! i = Some x /\ r_start x = b
    | None => forall x, x ∈ GC_static_roots s -> r_start x <> b
    end.
Proof.
  intros K Hmax. unfold GC_roots_present. destruct (K (rt_hash b)) as (c & Hc & Hn & Hel).
  destruct (loop_spec_rel
    (fun n p => exists dn rest, c = dn ++ rest /\ n = length rest /\ rchain (GC_static_roots s) p rest
       /\ forall i x, i ∈ dn -> GC_static_roots s !! i = Some x -> r_start x <> b)
    (fun r => match r with
      | Some (Some i) => exists x, GC_static_roots s !! i = Some x /\ r_start x = b
      | Some None => forall x, x ∈ GC_static_roots s -> r_start x <> b
      | None => False end)
    (present_body s b) (length c) (GC_root_index s !! rt_hash b)) as (r & -> & HR).
  - intros n p (dn & rest & Ec & -> & Hch & Hdn). unfold present_body. destruct rest as [|i rest]; cbn [rchain] in Hch.
    + subst p. intros x (j & Hx)%list_elem_of_lookup E. rewrite app_nil_r in Ec. subst dn.
      apply (Hdn j x); [|done|done]. apply Hel. split; [done|]. exists x. by rewrite E.
    + destruct Hch as [-> (x & Hx & Hch)]. rewrite Hx. destruct (Z.eqb_spec (r_start x) b) as [E|E]; [by exists x|].
      exists (length rest). split; [cbn; lia|]. exists (dn ++ [i]), rest. split_and!; [by rewrite <- app_assoc|done|done|].
      intros j y [Hj|Hj]%elem_of_app Hy; [by apply (Hdn j)|]. apply list_elem_of_singleton in Hj as ->. by simplify_eq.
  - exists [], c. split_and!; try done. by intros i x Hi%elem_of_nil.
  - assert (length c <= n_root_sets s)%nat.
    { apply NoDup_nat_length; [done|]. intros i [_ (x & Hx & _)]%Hel. by eapply lookup_lt_Some. }
    unfold W64. change MAX_ROOT_SETS with 2048%nat in Hmax. lia.
  - destruct r as [[i|]|]; [|by exists None|done]. by exists (Some i).
Qed.

(** ** The invariant of the roots table *)

Definition root_bytes (l : list roots) : Z := foldr (fun r n => r_end r - r_start r + n) 0 l.

Definition proper_root (r : roots) : Prop :=
  0 <= r_start r < r_end r /\ r_end r < W64 /\ r_start r mod ALIGNMENT = 0 /\ r_end r mod ALIGNMENT = 0.

Record roots_ok (s : rt_state) : Prop := {
  ro_index : idx_ok (fun _ => True) s;
  ro_proper : Forall proper_root (GC_static_roots s);
  ro_size : GC_root_size s = wrap64 (root_bytes (GC_static_roots s));
  ro_max : (n_root_sets s <= MAX_ROOT_SETS)%nat
}.

(** Address [a] is in a root, in a permanent root. *)
Definition covered (s : rt_state) (a : Z) : Prop := exists r, r ∈ GC_static_roots s /\ r_start r <= a < r_end r.
Definition permanent (s : rt_state) (a : Z) : Prop :=
  exists r, r ∈ GC_static_roots s /\ r_tmp r = false /\ r_start r <= a < r_end r.

Lemma root_bytes_app (l l' : list roots) : root_bytes (l ++ l') = root_bytes l + root_bytes l'.
Proof.
  induction l as [|r l IH]; [done|]. cbn [app]. unfold root_bytes in *. cbn [foldr]. rewrite IH. lia.
Qed.

Lemma root_bytes_alter (l : list roots) (i : nat) (f : roots -> roots) (r : roots) :
  l !! i = Some r ->
  root_bytes (alter f i l) = root_bytes l - (r_end r - r_start r) + (r_end (f r) - r_start (f r)).
Proof.
  revert i. induction l as [|x l IH]; intros [|i] Hi; cbn in Hi; [done|done| |].
  - injection Hi as ->. cbn. lia.
  - change (alter f (S i) (x :: l)) with (x :: alter f i l). cbn [root_bytes foldr]. fold (root_bytes (alter f i l)) (root_bytes l).
    rewrite (IH i Hi). lia.
Qed.

Lemma root_bytes_core (l l' : list roots) :
  ((fun r => (r_start r, r_end r)) <$> l) = ((fun r => (r_start r, r_end r)) <$> l') -> root_bytes l = root_bytes l'.
Proof.
  revert l'. induction l as [|r l IH]; intros [|r' l'] E; cbn in E; try done. injection E as E1 E2 E3.
  cbn. fold (root_bytes l) (root_bytes l'). rewrite E1, E2, (IH l' E3). done.
Qed.

Lemma wrap64_add (a b : Z) : wrap64 (wrap64 a + wrap64 b) = wrap64 (a + b).
Proof. unfold wrap64. by rewrite <- Zplus_mod. Qed.

(** Membership after a change at one position. *)
Lemma elem_of_alter (l : list roots) (i : nat) (f : roots -> roots) (r x : roots) :
  l !! i = Some r -> x ∈ alter f i l -> x = f r \/ x ∈ l.
Proof.
  intros Hr (j & Hx)%list_elem_of_lookup. destruct (decide (i = j)) as [->|Hne].
  - rewrite list_lookup_alter_eq, Hr in Hx. injection Hx as <-. by left.
  - rewrite list_lookup_alter_ne in Hx by done. right. by eapply list_elem_of_lookup_2.
Qed.

Lemma elem_of_alter_2 (l : list roots) (i : nat) (f : roots -> roots) (r x : roots) :
  l !! i = Some r -> x ∈ l -> x = r \/ x ∈ alter f i l.
Proof.
  intros Hr (j & Hx)%list_elem_of_lookup. destruct (decide (i = j)) as [->|Hne]; [simplify_eq; by left|].
  right. apply (list_elem_of_lookup_2 _ j). by rewrite list_lookup_alter_ne.
Qed.

Lemma elem_of_alter_eq (l : list roots) (i : nat) (f : roots -> roots) (r : roots) :
  l !! i = Some r -> f r ∈ alter f i l.
Proof. intros Hr. apply (list_elem_of_lookup_2 _ i). by rewrite list_lookup_alter_eq, Hr. Qed.

(** Rewriting one root in place. *)
Lemma upd_root_ok (s : rt_state) (i : nat) (f : roots -> roots) (r : roots) (n : Z) :
  roots_ok s -> GC_static_roots s !! i = Some r ->
  (forall r, r_start (f r) = r_start r /\ r_next (f r) = r_next r) -> proper_root (f r) ->
  n = wrap64 (GC_root_size s + wrap64 (r_end (f r) - r_end r)) ->
  roots_ok (upd_root i f (set_size n s)).
Proof.
  intros [KI KP KS KM] Hr Hf Hp ->. split.
  - apply (idx_ok_alter _ (set_size _ s)); [done|]. exact KI.
  - apply Forall_forall. intros x Hx. destruct (elem_of_alter _ _ _ _ _ Hr Hx) as [->|Hin]; [done|].
    rewrite Forall_forall in KP. by apply KP.
  - cbn [GC_root_size GC_static_roots upd_root set_roots set_size]. rewrite (root_bytes_alter _ i f r Hr), (proj1 (Hf r)), KS.
    rewrite wrap64_add. f_equal. lia.
  - unfold n_root_sets. cbn [GC_static_roots upd_root set_roots set_size]. rewrite length_alter. exact KM.
Qed.

Lemma set_size_id (s : rt_state) : set_size (GC_root_size s) s = s.
Proof. by destruct s. Qed.

(** A new root at the end of the table. *)
Lemma new_root_ok (s : rt_state) (b e : Z) (tmp : bool) :
  roots_ok s -> proper_root (Root b e None tmp) ->
  match new_root b e tmp s with
  | None => n_root_sets s = MAX_ROOT_SETS
  | Some s' => roots_ok s' /\ GC_excl_table s' = GC_excl_table s
      /\ exists nx, GC_static_roots s' = GC_static_roots s ++ [Root b e nx tmp]
  end.
Proof.
  intros [KI KP KS KM] Hp. unfold new_root. destruct (Nat.eqb_spec (n_root_sets s) MAX_ROOT_SETS) as [E|E]; [done|].
  set (s1 := set_roots (GC_static_roots s ++ [Root b e None tmp]) s).
  assert (Hr : GC_static_roots s1 !! n_root_sets s = Some (Root b e None tmp)).
  { cbn. rewrite lookup_app_r by (unfold n_root_sets; lia). unfold n_root_sets. by rewrite Nat.sub_diag. }
  assert (K1 : idx_ok (fun j => (j < n_root_sets s)%nat) s1).
  { intros h. destruct (KI h) as (c & Hc & Hn & Hel). exists c.
    assert (Hold : forall j x, GC_static_roots s !! j = Some x -> GC_static_roots s1 !! j = Some x)
      by (intros; cbn; by apply lookup_app_l_Some).
    split; [eapply rchain_ext; [|exact Hc]; intros j x _ Hx; exists x; split; [by apply Hold|done]|].
    split; [done|]. intros j. rewrite Hel. split.
    - intros [_ (x & Hx & Hh)]. split; [by eapply lookup_lt_Some|]. exists x. split; [by apply Hold|done].
    - intros [Hj (x & Hx & Hh)]. split; [done|]. exists x. split; [|done]. cbn in Hx. by rewrite lookup_app_l in Hx. }
  pose proof (add_to_index_spec _ s1 (n_root_sets s) _ K1 (Nat.lt_irrefl _) Hr) as K2.
  assert (El : exists nx, GC_static_roots (add_roots_to_index (n_root_sets s) s1) = GC_static_roots s ++ [Root b e nx tmp]).
  { unfold add_roots_to_index. rewrite Hr. eexists. cbn [GC_static_roots set_index upd_root set_roots s1].
    unfold n_root_sets. rewrite alter_app_r_alt by (cbn; lia). cbn [GC_static_roots set_roots]. rewrite Nat.sub_diag. reflexivity. }
  destruct El as (nx & El). cbn zeta. split.
  - split.
    + intros h. destruct (K2 h) as (c & Hc & Hn & Hel). exists c. split; [exact Hc|]. split; [done|].
      intros j. rewrite Hel. split; [intros [_ ?]; by split|]. intros [_ (x & Hx & Hh)]. split; [|by exists x].
      cbn [GC_static_roots set_size] in Hx. rewrite El in Hx. apply lookup_lt_Some in Hx. rewrite length_app in Hx. cbn in Hx.
      unfold n_root_sets. lia.
    + cbn [GC_static_roots set_size]. rewrite El. apply Forall_app. split; [done|]. by apply Forall_singleton.
    + cbn [GC_static_roots GC_root_size set_size]. rewrite El, root_bytes_app. cbn [root_bytes foldr r_end r_start].
      assert (Es : GC_root_size (add_roots_to_index (n_root_sets s) s1) = GC_root_size s)
        by (unfold add_roots_to_index; by rewrite Hr). rewrite Es, KS, wrap64_add. f_equal. lia.
    + unfold n_root_sets in *. cbn [GC_static_roots set_size]. rewrite El, length_app. cbn [length]. lia.
  - split; [unfold add_roots_to_index; by rewrite Hr|]. by exists nx.
Qed.

(** ** Adding roots *)

(** What an addition of [b, e) achieves. *)
Record roots_added (s : rt_state) (b e : Z) (tmp : bool) (s' : rt_state) : Prop := {
  ra_ok : roots_ok s';
  ra_excl : GC_excl_table s' = GC_excl_table s;
  ra_covered : forall a, covered s' a <-> covered s a \/ b <= a < e;
  ra_permanent : forall a, permanent s a \/ tmp = false /\ b <= a < e -> permanent s' a
}.

(** The root [r] at [i] is turned into [f r]. *)
Lemma roots_added_upd (s : rt_state) (i : nat) (r : roots) (f : roots -> roots) (n b e : Z) (tmp : bool) :
  roots_ok s -> GC_static_roots s !! i = Some r -> r_start r = b -> b < e ->
  (forall r, r_start (f r) = r_start r /\ r_next (f r) = r_next r) ->
  r_end (f r) = Z.max e (r_end r) -> e mod ALIGNMENT = 0 -> e < W64 ->
  r_tmp (f r) = r_tmp r && tmp -> n = wrap64 (GC_root_size s + wrap64 (r_end (f r) - r_end r)) ->
  roots_added s b e tmp (upd_root i f (set_size n s)).
Proof.
  intros K Hr Hb Hbe Hf He Hal Hw Ht Hn. destruct (Hf r) as [Hs _].
  assert (Hp : proper_root r).
  { pose proof (ro_proper _ K) as KP. rewrite Forall_forall in KP. apply KP. by eapply list_elem_of_lookup_2. }
  destruct Hp as (Hp1 & Hp2 & Hp3 & Hp4). split.
  - eapply upd_root_ok; try done. unfold proper_root. rewrite Hs, He. split; [lia|]. split; [lia|]. split; [done|].
    destruct (Z.max_spec e (r_end r)) as [[_ ->]|[_ ->]]; done.
  - done.
  - intros a. split.
    + intros (x & Hx & Ha). destruct (elem_of_alter _ _ _ _ _ Hr Hx) as [->|Hin]; [|left; by exists x].
      rewrite Hs, He in Ha. destruct (decide (a < r_end r)); [|right; lia]. left. exists r. split; [by eapply list_elem_of_lookup_2|lia].
    + intros Ha. assert (Hnew : r_start r <= a < Z.max e (r_end r) -> covered (upd_root i f (set_size n s)) a).
      { intros Hin. exists (f r). rewrite Hs, He. split; [by eapply elem_of_alter_eq|done]. }
      destruct Ha as [(x & Hx & Ha)|Ha]; [|apply Hnew; lia].
      destruct (elem_of_alter_2 _ _ f _ _ Hr Hx) as [->|Hin]; [apply Hnew; lia|by exists x].
  - intros a Ha. assert (Hnew : r_tmp r && tmp = false -> r_start r <= a < Z.max e (r_end r) -> permanent (upd_root i f (set_size n s)) a).
    { intros Hf' Hin. exists (f r). rewrite Hs, He, Ht. split; [by eapply elem_of_alter_eq|done]. }
    destruct Ha as [(x & Hx & Hxt & Ha)|[-> Ha]]; [|apply Hnew; [apply andb_false_r|lia]].
    destruct (elem_of_alter_2 _ _ f _ _ Hr Hx) as [->|Hin]; [apply Hnew; [by rewrite Hxt|lia]|by exists x].
Qed.

(** A new entry for the part [b', e) that is not in a root yet. *)
Lemma roots_added_new (s s' : rt_state) (b b' e : Z) (tmp : bool) (nx : option nat) :
  roots_ok s' -> GC_excl_table s' = GC_excl_table s -> GC_static_roots s' = GC_static_roots s ++ [Root b' e nx tmp] ->
  b <= b' -> (forall a, b <= a < b' -> covered s a) -> (tmp = false -> b' = b) -> roots_added s b e tmp s'.
Proof.
  intros K Ex El Hb Hc Ht. split; [done|done| |].
  - intros a. unfold covered. rewrite El. split.
    + intros (x & [Hx|Hx]%elem_of_app & Ha); [left; by exists x|]. apply list_elem_of_singleton in Hx as ->.
      cbn in Ha. right. lia.
    + assert (Hold : covered s a -> exists x, x ∈ GC_static_roots s ++ [Root b' e nx tmp] /\ r_start x <= a < r_end x).
      { intros (x & Hx & Ha). exists x. split; [apply elem_of_app; by left|done]. }
      intros [?|Ha]; [by apply Hold|]. destruct (decide (a < b')); [apply Hold, Hc; lia|].
      exists (Root b' e nx tmp). split; [apply elem_of_app; right; by left|cbn; lia].
  - intros a. unfold permanent. rewrite El. intros [(x & Hx & ?)|[-> Ha]].
    + exists x. split; [apply elem_of_app; by left|done].
    + exists (Root b' e nx false). rewrite (Ht eq_refl) in *. split; [apply elem_of_app; right; by left|done].
Qed.

(** C28: adding a root range aborts only when the table is full.  Otherwise the
    table stays in order, its index finds every root, [GC_root_size] is the sum of
    the sizes, exactly the whole words of the range are covered in addition, and
    what was or is to be permanent is in a permanent root. *)
Theorem GC_add_roots_inner_correct (s : rt_state) (b e : Z) (tmp : bool)
    (K : roots_ok s) (Hb : 0 <= b) (He : e < W64) :
  match GC_add_roots_inner b e tmp s with
  | None => n_root_sets s = MAX_ROOT_SETS
  | Some s' => roots_added s (PTR_ALIGN_UP b ALIGNMENT) (PTR_ALIGN_DOWN e ALIGNMENT) tmp s'
  end.
Proof.
  unfold GC_add_roots_inner. rewrite align_up_8, align_down_8. cbn zeta.
  set (b0 := b + 7 - (b + 7) mod 8). set (e0 := e - e mod 8).
  assert (Ab : b0 mod 8 = 0 /\ 0 <= b0) by (unfold b0; dlia). assert (Ae : e0 mod 8 = 0 /\ e0 < W64) by (unfold e0, W64 in *; dlia).
  destruct (Z.leb_spec e0 b0) as [Hle|Hlt].
  { split; [done|done| |]; intros a; [split; [by left|intros [?|?]; [done|lia]]|intros [?|[_ ?]]; [done|lia]]. }
  assert (Hnew : forall b', b0 <= b' < e0 -> b' mod 8 = 0 -> (forall a, b0 <= a < b' -> covered s a) -> (tmp = false -> b' = b0) ->
    match new_root b' e0 tmp s with None => n_root_sets s = MAX_ROOT_SETS | Some s' => roots_added s b0 e0 tmp s' end).
  { intros b' Hb' Hal Hc Ht. pose proof (new_root_ok s b' e0 tmp K) as HN. destruct (new_root b' e0 tmp s).
    - destruct HN as (K' & Ex & nx & El); [unfold proper_root, ALIGNMENT; cbn; lia|]. eapply roots_added_new; try done. lia.
    - apply HN. unfold proper_root, ALIGNMENT. cbn. lia. }
  destruct (roots_present_spec s b0 (ro_index _ K) (ro_max _ K)) as (r & -> & Hr). cbn [mbind option_bind].
  destruct r as [i|]; [|apply Hnew; [lia|lia|intros; lia|done]].
  destruct Hr as (x & Hx & Hs). rewrite Hx. cbn [mbind option_bind].
  assert (Hp : proper_root x).
  { pose proof (ro_proper _ K) as KP. rewrite Forall_forall in KP. apply KP. by eapply list_elem_of_lookup_2. }
  destruct (Z.leb_spec e0 (r_end x)) as [Hin|Hout].
  { rewrite <- (set_size_id s) at 2. eapply roots_added_upd; try done; try (cbn; lia); [apply Ae|].
    cbn. rewrite Z.sub_diag, (ro_size _ K), wrap64_add. by rewrite Z.add_0_r. }
  destruct (eqb (r_tmp x) tmp || negb tmp) eqn:Et.
  - eapply roots_added_upd; try done; try (cbn; lia); [apply Ae|]. cbn.
    destruct (r_tmp x), tmp; cbn in Et; done.
  - destruct Hp as (Hp1 & Hp2 & Hp3 & Hp4). apply Hnew; [lia|exact Hp4| |].
    + intros a Ha. exists x. split; [by eapply list_elem_of_lookup_2|lia].
    + intros ->. rewrite orb_true_r in Et. done.
Qed.

(** ** Removing roots *)

(** A root without its link. *)
Definition core (r : roots) : Z * Z * bool := (r_start r, r_end r, r_tmp r).

Lemma add_to_index_core (i : nat) (s : rt_state) :
  core <$> GC_static_roots (add_roots_to_index i s) = core <$> GC_static_roots s
  /\ GC_root_size (add_roots_to_index i s) = GC_root_size s /\ GC_excl_table (add_roots_to_index i s) = GC_excl_table s.
Proof.
  unfold add_roots_to_index. destruct (GC_static_roots s !! i) as [r|]; [|done].
  cbn [GC_static_roots GC_root_size GC_excl_table set_index upd_root set_roots]. split; [|done].
  rewrite (list_fmap_alter core _ id); [by rewrite list_alter_id|]. apply Forall_forall. by intros.
Qed.

(** The rebuilt index has all roots. *)
Lemma rebuild_spec (s : rt_state) :
  idx_ok (fun _ => True) (GC_rebuild_root_index s)
  /\ core <$> GC_static_roots (GC_rebuild_root_index s) = core <$> GC_static_roots s
  /\ GC_root_size (GC_rebuild_root_index s) = GC_root_size s
  /\ GC_excl_table (GC_rebuild_root_index s) = GC_excl_table s.
Proof.
  unfold GC_rebuild_root_index.
  assert (HI : forall k, (k <= n_root_sets s)%nat ->
    let s' := foldl (fun s i => add_roots_to_index i s) (set_index ∅ s) (seq 0 k) in
    idx_ok (fun j => (j < k)%nat) s' /\ core <$> GC_static_roots s' = core <$> GC_static_roots s
    /\ GC_root_size s' = GC_root_size s /\ GC_excl_table s' = GC_excl_table s).
  { induction k as [|k IH]; intros Hk; cbn zeta.
    - split; [|done]. intros h. exists []. cbn. split; [apply lookup_empty|]. split; [constructor|].
      intros i. rewrite elem_of_nil. split; [done|]. intros [? _]. lia.
    - rewrite seq_S, foldl_snoc. destruct IH as (K & Ec & Es & Ex); [lia|]. cbn [Nat.add].
      set (s' := foldl _ _ (seq 0 k)) in *. destruct (add_to_index_core k s') as (Ec' & Es' & Ex').
      rewrite Ec', Es', Ex'. split; [|done].
      assert (Hr : exists r, GC_static_roots s' !! k = Some r).
      { apply lookup_lt_is_Some. rewrite <- (length_fmap core), Ec, length_fmap. exact Hk. }
      destruct Hr as (r & Hr). pose proof (add_to_index_spec _ s' k r K (Nat.lt_irrefl _) Hr) as K'.
      intros h. destruct (K' h) as (c & Hc & Hn & Hel). exists c. split; [done|]. split; [done|]. intros j. rewrite Hel.
      split; (intros [? ?]; split; [lia|done]). }
  destruct (HI (n_root_sets s) (le_n _)) as (K & Ec & Es & Ex). split; [|done].
  intros h. destruct (K h) as (c & Hc & Hn & Hel). exists c. split; [done|]. split; [done|]. intros j. rewrite Hel.
  split; intros [? (x & Hx & Hh)]; (split; [|by exists x]); [done|].
  apply lookup_lt_Some in Hx. rewrite <- (length_fmap core), Ec, length_fmap in Hx. exact Hx.
Qed.

(** Overwriting an element by the last one and dropping that removes the element. *)
Lemma swap_remove_perm {A : Type} (l : list A) (i : nat) (a x : A) :
  l !! i = Some a -> l !! (length l - 1)%nat = Some x -> l ≡ₚ a :: take (length l - 1) (<[i := x]> l).
Proof.
  intros Ha Hx. pose proof (lookup_lt_Some _ _ _ Ha) as Hi.
  assert (Hl : l = take (length l - 1) l ++ [x]).
  { rewrite <- (take_S_r _ _ _ Hx). symmetry. apply take_ge. lia. }
  set (l0 := take (length l - 1) l) in *. clearbody l0. subst l. rewrite length_app in *. cbn [length] in *. replace (length l0 + 1 - 1)%nat with (length l0) in * by lia.
  destruct (decide (i = length l0)) as [->|Hne].
  - rewrite lookup_app_r, Nat.sub_diag in Ha by lia. injection Ha as <-.
    rewrite take_insert_ge, take_app_length by lia. symmetry. apply Permutation_cons_append.
  - rewrite insert_app_l, take_app_le, take_ge by (rewrite ?length_insert; lia). rewrite lookup_app_l in Ha by lia.
    rewrite <- Permutation_cons_append, insert_take_drop by lia.
    rewrite (delete_Permutation l0 i a Ha) at 1. rewrite delete_take_drop. solve_Permutation.
Qed.

(** Removing position [i] removes that root, up to the order of the others. *)
Lemma remove_at_spec (s : rt_state) (i : nat) (r : roots) :
  GC_static_roots s !! i = Some r ->
  exists s', GC_remove_root_at_pos i s = Some s'
    /\ core <$> GC_static_roots s ≡ₚ core r :: (core <$> GC_static_roots s')
    /\ take i (core <$> GC_static_roots s') = take i (core <$> GC_static_roots s)
    /\ GC_root_size s' = wrap64 (GC_root_size s - wrap64 (r_end r - r_start r)) /\ GC_excl_table s' = GC_excl_table s
    /\ S (n_root_sets s') = n_root_sets s.
Proof.
  intros Hr. unfold GC_remove_root_at_pos, n_root_sets. rewrite Hr. cbn [mbind option_bind].
  pose proof (lookup_lt_Some _ _ _ Hr) as Hi. set (l := GC_static_roots s) in *.
  destruct (lookup_lt_is_Some_2 l (length l - 1)) as (x & Hx); [lia|]. rewrite Hx. cbn [mbind option_bind].
  eexists. split; [done|]. cbn [GC_static_roots GC_root_size GC_excl_table set_roots set_size].
  fold l. set (y := Root (r_start x) (r_end x) (r_next r) (r_tmp x)).
  assert (Ey : core y = core x) by done.
  split; [|split; [|split; [done|split; [done|rewrite length_take, length_insert; lia]]]].
  - rewrite fmap_take, list_fmap_insert, Ey. set (cl := core <$> l).
    replace (length l) with (length cl) by (unfold cl; by rewrite length_fmap). apply swap_remove_perm.
    + unfold cl. by rewrite list_lookup_fmap, Hr.
    + unfold cl. by rewrite length_fmap, list_lookup_fmap, Hx.
  - rewrite !fmap_take, list_fmap_insert, take_take. replace (i `min` (length l - 1))%nat with i by lia.
    by rewrite take_insert_ge by lia.
Qed.

Lemma root_bytes_perm (l l' : list roots) : core <$> l ≡ₚ core <$> l' -> root_bytes l = root_bytes l'.
Proof.
  intros Hp. assert (E : forall k, root_bytes k = foldr (fun c n => c.1.2 - c.1.1 + n) 0 (core <$> k)).
  { induction k as [|r k IH]; [done|]. cbn. fold (root_bytes k). by rewrite IH. }
  rewrite !E. clear E. induction Hp; cbn [foldr]; lia.
Qed.

Lemma proper_root_core (r r' : roots) : core r = core r' -> proper_root r -> proper_root r'.
Proof. unfold core, proper_root. intros [= E1 E2 _]. by rewrite E1, E2. Qed.

(** The state of a table whose index may be out of date. *)
Definition table_ok (s : rt_state) : Prop :=
  (forall c, c ∈ core <$> GC_static_roots s -> exists r, core r = c /\ proper_root r)
  /\ GC_root_size s = wrap64 (root_bytes (GC_static_roots s)) /\ (n_root_sets s <= MAX_ROOT_SETS)%nat.

Lemma table_roots_ok (s : rt_state) : table_ok s -> idx_ok (fun _ => True) s -> roots_ok s.
Proof.
  intros (HP & HS & HM) HI. split; [done| |done|done]. apply Forall_forall. intros r Hr.
  destruct (HP (core r)) as (r' & E & Hr'); [by apply list_elem_of_fmap_2|]. by eapply proper_root_core.
Qed.

Lemma filter_all {A : Type} (P : A -> Prop) `{!forall x, Decision (P x)} (l : list A) : Forall P l -> filter P l = l.
Proof. induction 1 as [|x l Hx _ IH]; [done|]. by rewrite filter_cons_True, IH. Qed.

Section Remove.
Variable drop : roots -> bool.
Hypothesis drop_core : forall r r', core r = core r' -> drop r = drop r'.

(** Whether a root with these fields stays. *)
Definition stays (c : Z * Z * bool) : Prop := drop (Root c.1.1 c.1.2 None c.2) = false.

Lemma stays_core (r : roots) : stays (core r) <-> drop r = false.
Proof. unfold stays. by rewrite (drop_core _ r). Qed.

#[local] Instance stays_dec (c : Z * Z * bool) : Decision (stays c).
Proof. unfold stays. apply _. Defined.

Definition remove_inv (s0 : rt_state) (st : nat * rt_state) : Prop :=
  (st.1 <= n_root_sets st.2)%nat /\ table_ok st.2 /\ GC_excl_table st.2 = GC_excl_table s0
  /\ Forall stays (take st.1 (core <$> GC_static_roots st.2))
  /\ filter stays (core <$> GC_static_roots st.2) ≡ₚ filter stays (core <$> GC_static_roots s0)
  /\ (n_root_sets st.2 <= n_root_sets s0)%nat /\ (n_root_sets st.2 = n_root_sets s0 -> st.2 = s0).

Lemma remove_step (s0 : rt_state) (i : nat) (s : rt_state) (r : roots) :
  remove_inv s0 (i, s) -> GC_static_roots s !! i = Some r ->
  if drop r then exists s', GC_remove_root_at_pos i s = Some s' /\ remove_inv s0 (i, s') /\ S (n_root_sets s') = n_root_sets s
  else remove_inv s0 (S i, s).
Proof.
  intros (Hi & (HP & HS & HM) & Hx & Hst & Hf & Hn & He) Hr. cbn [fst snd] in *.
  pose proof (lookup_lt_Some _ _ _ Hr) as Hlt. destruct (drop r) eqn:Ed.
  - destruct (remove_at_spec s i r Hr) as (s' & E & Hp & Ht & Es & Ex & En). exists s'. split; [done|]. split; [|done].
    unfold remove_inv. cbn [fst snd]. split; [unfold n_root_sets in *; lia|]. split; [|split; [by rewrite Ex|split; [by rewrite Ht|]]].
    + split; [|split; [|lia]].
      * intros c Hc. apply HP. rewrite Hp. by right.
      * assert (Eb : root_bytes (GC_static_roots s) = r_end r - r_start r + root_bytes (GC_static_roots s')).
        { rewrite (root_bytes_perm _ (r :: GC_static_roots s') Hp). done. }
        rewrite Es, HS, Eb. unfold wrap64. rewrite Zminus_mod_idemp_l, Zminus_mod_idemp_r. f_equal. lia.
    + split; [|split; [lia|intros ?; lia]]. rewrite <- Hf, Hp, filter_cons_False; [done|]. by rewrite stays_core, Ed.
  - unfold remove_inv. cbn [fst snd]. split; [exact Hlt|]. split; [done|]. split; [done|]. split; [|done].
    rewrite (take_S_r _ _ (core r)) by (by rewrite list_lookup_fmap, Hr).
    apply Forall_app. split; [done|]. apply Forall_singleton. by apply stays_core.
Qed.

Lemma remove_where_spec (s : rt_state) :
  roots_ok s -> exists s', remove_where drop s = Some s' /\ roots_ok s' /\ GC_excl_table s' = GC_excl_table s
    /\ core <$> GC_static_roots s' ≡ₚ filter stays (core <$> GC_static_roots s).
Proof.
  intros K. unfold remove_where.
  destruct (loop_spec (remove_inv s)
    (fun r => exists s', r = Some s' /\ remove_inv s (n_root_sets s', s'))
    (fun st => Z.of_nat (n_root_sets st.2) - Z.of_nat st.1) (remove_body drop) (0%nat, s)) as (r & -> & s1 & -> & HI).
  - intros [i s1] HI. unfold remove_body. destruct (GC_static_roots s1 !! i) as [r|] eqn:Er.
    + pose proof (remove_step s i s1 r HI Er) as Hs. pose proof (lookup_lt_Some _ _ _ Er) as Hlt.
      destruct (drop r).
      * destruct Hs as (s' & -> & HI' & En). split; [done|]. cbn [fst snd]. destruct HI' as (? & _). cbn in *. unfold n_root_sets in *. lia.
      * split; [done|]. cbn [fst snd]. unfold n_root_sets in *. lia.
    + apply lookup_ge_None in Er. exists s1. split; [done|]. destruct HI as (Hi & ?). cbn [fst snd] in *.
      assert (i = n_root_sets s1) as -> by (unfold n_root_sets in *; lia). by split.
  - split; [cbn; lia|]. cbn [fst snd]. destruct K as [KI KP KS KM]. split; [|done].
    split; [|done]. intros c (r & -> & Hr)%list_elem_of_fmap. exists r. split; [done|]. rewrite Forall_forall in KP. by apply KP.
  - cbn [fst snd]. pose proof (ro_max _ K) as Hm. change MAX_ROOT_SETS with 2048%nat in Hm. unfold W64. lia.
  - cbn [mjoin option_join mbind option_bind]. destruct HI as (_ & HT & Hx & Hst & Hf & Hn & He). cbn [fst snd] in *.
    rewrite take_ge in Hst by (rewrite length_fmap; done). rewrite (filter_all stays _ Hst) in Hf. eexists. split; [done|].
    destruct (Nat.ltb_spec (n_root_sets s1) (n_root_sets s)) as [Hlt|Hge].
    + destruct (rebuild_spec s1) as (HI & Ec & Es & Ex). rewrite Ec, Ex. split; [|by split].
      apply table_roots_ok; [|done]. destruct HT as (H1 & H2 & H3). split; [by rewrite Ec|]. split.
      * rewrite Es, H2. f_equal. apply root_bytes_perm. by rewrite Ec.
      * unfold n_root_sets in *. by rewrite <- (length_fmap core), Ec, length_fmap.
    + rewrite (He ltac:(lia)) in *. by split.
Qed.
End Remove.

(** C29: removing the roots inside a range ends, removes exactly the roots that lie
    in it as a whole, keeps all others as they are up to their order, and leaves
    the table, its index and [GC_root_size] in order. *)
Theorem GC_remove_roots_inner_correct (s : rt_state) (b e : Z) (K : roots_ok s) :
  exists s', GC_remove_roots_inner b e s = Some s' /\ roots_ok s' /\ GC_excl_table s' = GC_excl_table s
    /\ core <$> GC_static_roots s' ≡ₚ filter (fun c => ~ (b <= c.1.1 /\ c.1.2 <= e)) (core <$> GC_static_roots s).
Proof.
  unfold GC_remove_roots_inner. set (drop := fun r => (b <=? r_start r) && (r_end r <=? e)).
  destruct (remove_where_spec drop) with (s := s) as (s' & E & K' & Ex & Hp); [|done|].
  { unfold core, drop. by intros r r' [= -> -> _]. }
  exists s'. split_and!; try done. rewrite Hp. erewrite list_filter_iff; [reflexivity|]. intros c. unfold stays, drop. cbn.
  rewrite andb_false_iff, Z.leb_gt, Z.leb_gt. lia.
Qed.

(** Likewise for the temporary roots. *)
Theorem GC_remove_tmp_roots_correct (s : rt_state) (K : roots_ok s) :
  exists s', GC_remove_tmp_roots s = Some s' /\ roots_ok s' /\ GC_excl_table s' = GC_excl_table s
    /\ core <$> GC_static_roots s' ≡ₚ filter (fun c => c.2 = false) (core <$> GC_static_roots s).
Proof. apply (remove_where_spec r_tmp); [|done]. unfold core. by intros r r' [= _ _ ->]. Qed.

Lemma push_static_spec (s : rt_state) (rs : list roots) :
  excl_ok (GC_excl_table s) -> Forall proper_root rs ->
  exists l, push_static rs s = Some l
    /\ forall a, in_ranges l a <-> (exists r, r ∈ rs /\ r_start r <= a < r_end r) /\ ~ excluded (GC_excl_table s) a.
Proof.
  intros K. induction 1 as [|r rs (Hr & Hw & _) _ (l' & E' & Hl')]; cbn [push_static].
  { exists []. split; [done|]. intros a. split; [by intros (p & ?%elem_of_nil & _)|by intros [(r & ?%elem_of_nil & _) _]]. }
  destruct (push_conditional_spec s (r_start r) (r_end r) K) as (l & -> & Hl); [lia|]. rewrite E'. cbn [mbind option_bind].
  exists (l ++ l'). split; [done|]. intros a. rewrite in_ranges_app, Hl, Hl'. split.
  - intros [[? ?]|[(x & ? & ?) ?]]; (split; [|done]); [exists r; split; [by left|done]|exists x; split; [by right|done]].
  - intros [(x & [->|Hx]%elem_of_cons & Ha) Hn]; [by left|right]. split; [by exists x|done].
Qed.

(** C30: the ranges of static data handed to the marker are, address for address,
    the roots without the exclusions. *)
Theorem push_static_roots_correct (s : rt_state) (K : roots_ok s) (Kx : excl_ok (GC_excl_table s)) :
  exists l, push_static_roots s = Some l
    /\ forall a, in_ranges l a <-> covered s a /\ ~ excluded (GC_excl_table s) a.
Proof. apply (push_static_spec s (GC_static_roots s) Kx). apply K. Qed.

(** The cached answer of [GC_is_tmp_root] is that of some root with the address. *)
Theorem GC_is_tmp_root_correct (s : rt_state) (p : Z) :
  let (res, s') := GC_is_tmp_root p s in
  ((~ covered s p /\ res = false) \/ exists r, r ∈ GC_static_roots s /\ r_start r <= p < r_end r /\ r_tmp r = res)
  /\ GC_static_roots s' = GC_static_roots s.
Proof.
  assert (Hin : forall r, ADDR_INSIDE p r = true <-> r_start r <= p < r_end r).
  { intros r. unfold ADDR_INSIDE. rewrite andb_true_iff, Z.leb_le, Z.ltb_lt. done. }
  assert (Hfind : forall l k, match find_root p l k with
    | Some (i, r) => r ∈ l /\ r_start r <= p < r_end r | None => forall r, r ∈ l -> ~ r_start r <= p < r_end r end).
  { induction l as [|r l IH]; intros k; cbn [find_root]; [by intros r Hr%elem_of_nil|].
    destruct (ADDR_INSIDE p r) eqn:E; [split; [by left|by apply Hin]|]. specialize (IH (S k)).
    destruct (find_root p l (S k)) as [[i x]|]; [split; [right; apply IH|apply IH]|].
    intros x [->|Hx]%elem_of_cons; [|by apply IH]. intros Hp%Hin. congruence. }
  specialize (Hfind (GC_static_roots s) 0%nat). unfold GC_is_tmp_root.
  destruct (GC_static_roots s !! GC_last_root_set s) as [r|] eqn:Er; [destruct (ADDR_INSIDE p r) eqn:E|].
  1: { split; [|done]. right. exists r. split; [by eapply list_elem_of_lookup_2|]. split; [by apply Hin|done]. }
  all: destruct (find_root p (GC_static_roots s) 0) as [[i x]|]; (split; [|done]);
    [right; exists x; by destruct Hfind|left; split; [|done]; intros (x & Hx & Ha); by apply (Hfind x)].
Qed.

(** ** Witnesses *)

Definition sample_rt : rt_state := RtState [] ∅ 0 0 [Exclusion 4096 4128; Exclusion 4160 4200].

Lemma sample_rt_ok : roots_ok sample_rt /\ excl_ok (GC_excl_table sample_rt).
Proof.
  split.
  - split; [|constructor|done|by vm_compute; lia]. intros h. exists []. cbn. split; [apply lookup_empty|].
    split; [constructor|]. intros i. rewrite elem_of_nil. split; [done|]. by intros [_ (r & Hr & _)].
  - split.
    + intros [|[|i]] x Hx; cbn in Hx; [| |done]; injection Hx as <-; cbn; lia.
    + intros [|[|i]] [|[|j]] x y Hij Hx Hy; cbn in Hx, Hy; try done; try lia; simplify_eq; cbn; lia.
    + by vm_compute; lia.
Qed.

(** The same with a root. *)
Definition sample_rt1 : rt_state := default sample_rt (new_root 4008 5000 false sample_rt).

Lemma sample_rt1_ok : roots_ok sample_rt1 /\ excl_ok (GC_excl_table sample_rt1) /\ covered sample_rt1 4200.
Proof.
  destruct sample_rt_ok as [K Kx]. pose proof (new_root_ok sample_rt 4008 5000 false K) as HN.
  unfold sample_rt1. destruct (new_root 4008 5000 false sample_rt) as [s'|] eqn:E; [|vm_compute in E; discriminate].
  destruct HN as (K' & Ex & nx & El); [repeat split; by vm_compute|]. cbn. split; [done|].
  split; [by rewrite Ex|]. exists (Root 4008 5000 nx false). rewrite El. split; [by left|cbn; lia].
Qed.

Lemma GC_add_roots_inner_correct_witness :
  match GC_add_roots_inner 4001 5007 false sample_rt with
  | None => n_root_sets sample_rt = MAX_ROOT_SETS
  | Some s' => roots_added sample_rt 4008 5000 false s' /\ permanent s' 4990
  end.
Proof.
  destruct sample_rt_ok as [K _].
  pose proof (GC_add_roots_inner_correct sample_rt 4001 5007 false K ltac:(lia) ltac:(unfold W64; lia)) as HA.
  change (PTR_ALIGN_UP 4001 ALIGNMENT) with 4008 in HA. change (PTR_ALIGN_DOWN 5007 ALIGNMENT) with 5000 in HA.
  destruct (GC_add_roots_inner 4001 5007 false sample_rt); [|exact HA]. split; [exact HA|].
  apply (ra_permanent _ _ _ _ _ HA). right. split; [done|lia].
Defined.

Lemma GC_remove_roots_inner_correct_witness :
  exists s', GC_remove_roots_inner 4000 5000 sample_rt1 = Some s' /\ roots_ok s' /\ GC_static_roots s' = [].
Proof.
  destruct (GC_remove_roots_inner_correct sample_rt1 4000 5000) as (s' & E & K' & _); [apply sample_rt1_ok|].
  exists s'. split; [exact E|]. split; [exact K'|]. vm_compute in E. by injection E as <-.
Defined.

Lemma GC_next_exclusion_correct_witness :
  exists r, GC_next_exclusion 4128 sample_rt = Some r /\ r = Some 1%nat /\ first_after (GC_excl_table sample_rt) 4128 r.
Proof.
  destruct (GC_next_exclusion_correct sample_rt 4128) as (r & E & F); [apply sample_rt_ok|].
  exists r. split; [exact E|]. split; [|exact F]. vm_compute in E. by injection E as <-.
Defined.

Lemma GC_exclude_static_roots_inner_correct_witness :
  match GC_exclude_static_roots_inner 4128 4160 sample_rt with
  | None => False
  | Some s' => excl_ok (GC_excl_table s') /\ length (GC_excl_table s') = 2%nat /\ excluded (GC_excl_table s') 4130
  end.
Proof.
  pose proof (GC_exclude_static_roots_inner_correct sample_rt 4128 4160 (proj2 sample_rt_ok) ltac:(lia)) as HX.
  cbn zeta in HX. destruct (GC_exclude_static_roots_inner 4128 4160 sample_rt) as [s'|] eqn:E; [|vm_compute in E; discriminate].
  destruct HX as [_ (tbl' & -> & K & Hex)]. split; [exact K|].
  split; [vm_compute in E; injection E as <-; reflexivity|]. apply Hex. right. lia.
Defined.

Lemma push_static_roots_correct_witness :
  exists l, push_static_roots sample_rt1 = Some l /\ l = [(4008, 4096); (4128, 4160); (4200, 5000)] /\ in_ranges l 4200.
Proof.
  destruct (push_static_roots_correct sample_rt1) as (l & E & Hl); [apply sample_rt1_ok|apply sample_rt1_ok|].
  exists l. split; [exact E|]. assert (El : l = [(4008, 4096); (4128, 4160); (4200, 5000)]).
  { vm_compute in E. by injection E as <-. }
  split; [exact El|]. apply Hl. split; [apply sample_rt1_ok|]. change (GC_excl_table sample_rt1) with [Exclusion 4096 4128; Exclusion 4160 4200].
  intros (x & [->|[->|Hx%elem_of_nil]%elem_of_cons]%elem_of_cons & Ha); cbn in *; lia.
Defined.

End RootsOk.
