(* ===== verification/FinTable.v ===== *)
(** * Hash tables of finalization (finalize.c)

    Disappearing links and finalizable objects are kept in hash tables of chains
    whose entries start with the same two fields, [struct hash_chain_entry].  A
    table has its array of chain heads ([None] before the first growth), its
    logarithmic size, its entry count, and the entries that were allocated for it,
    by address.  The functions that both kinds of table share are here: searching,
    unlinking and linking an entry, and [GC_grow_table].  [None] is an abort or an
    access to something that is not there. *)

From Stdlib Require Import ZArith Lia.
From stdpp Require Import base gmap list fin_maps.
From S2P Require Import Prelude.

Module FinTable.

Definition GC_HIDE_POINTER (p : Z) : Z := Z.lxor p GC_SIZE_MAX.
Definition GC_REVEAL_POINTER (p : Z) : Z := GC_HIDE_POINTER p.

Definition HASH3 (addr size log_size : Z) : Z :=
  Z.land (Z.lxor (Z.shiftr addr 3) (Z.shiftr addr (3 + log_size))) (size - 1).
Definition HASH2 (addr log_size : Z) : Z := HASH3 addr (Z.shiftl 1 log_size) log_size.

Definition GC_ON_GROW_LOG_SIZE_MIN : Z := LOG_HBLKSIZE.

(** An entry: the two fields of [struct hash_chain_entry], then the fields of the
    structure it is part of. *)
Record entry (P : Type) := Entry { hidden_key : Z; next : Z; rest : P }.
Arguments Entry {P} _ _ _.
Arguments hidden_key {P} _.
Arguments next {P} _.
Arguments rest {P} _.

(** The table of finalizable objects has, next to its heads, the queue of the
    objects whose finalizers are to run; it stays [NULL] in tables of links. *)
Record hashtbl (P : Type) := HashTbl {
  head : option (list Z);
  finalize_now : Z;
  entries : Z;
  log_size : Z;
  nodes : gmap Z (entry P)
}.
Arguments HashTbl {P} _ _ _ _ _.
Arguments head {P} _.
Arguments finalize_now {P} _.
Arguments entries {P} _.
Arguments log_size {P} _.
Arguments nodes {P} _.

Section Ops.
Context {P : Type}.

Definition set_next (n : Z) (e : entry P) : entry P := Entry (hidden_key e) n (rest e).
Definition set_head (h : list Z) (t : hashtbl P) : hashtbl P := HashTbl (Some h) (finalize_now t) (entries t) (log_size t) (nodes t).
Definition set_entries (n : Z) (t : hashtbl P) : hashtbl P := HashTbl (head t) (finalize_now t) n (log_size t) (nodes t).
Definition set_nodes (m : gmap Z (entry P)) (t : hashtbl P) : hashtbl P := HashTbl (head t) (finalize_now t) (entries t) (log_size t) m.
Definition set_finalize_now (p : Z) (t : hashtbl P) : hashtbl P := HashTbl (head t) p (entries t) (log_size t) (nodes t).

(** The first entry of a chain with a given key, with the entry before it: [(prev,
    curr)], either of which may be [NULL]. *)
Definition find_body (m : gmap Z (entry P)) (key : Z) (st : Z * Z) : (Z * Z) + option (Z * Z) :=
  let '(prev, curr) := st in
  if curr =? NULL then inr (Some (prev, curr))
  else match m !! curr with
       | None => inr None
       | Some e => if hidden_key e =? key then inr (Some (prev, curr)) else inl (curr, next e)
       end.

Definition find_entry (index : Z) (key : Z) (t : hashtbl P) : option (Z * Z) :=
  hs ← head t;
  p ← hs !! Z.to_nat index;
  mjoin (loop (find_body (nodes t) key) (NULL, p)).

(** What follows [prev] (or the head of the chain) becomes [n]. *)
Definition relink (index prev n : Z) (t : hashtbl P) : option (hashtbl P) :=
  if prev =? NULL then
    hs ← head t;
    Some (set_head (<[Z.to_nat index := n]> hs) t)
  else Some (set_nodes (alter (set_next n) prev (nodes t)) t).

(** A new first entry of a chain. *)
Definition push_entry (index a key : Z) (r : P) (t : hashtbl P) : option (hashtbl P) :=
  hs ← head t;
  p ← hs !! Z.to_nat index;
  Some (HashTbl (Some (<[Z.to_nat index := a]> hs)) (finalize_now t) (entries t) (log_size t)
          (<[a := Entry key p r]> (nodes t))).

(** [GC_grow_table]: the entries of one old chain move to the new table; the state
    is [(p, nodes, new_table)]. *)
Definition move_body (log_new_size : Z) (st : Z * gmap Z (entry P) * list Z)
    : (Z * gmap Z (entry P) * list Z) + option (gmap Z (entry P) * list Z) :=
  let '(p, m, new_table) := st in
  if p =? NULL then inr (Some (m, new_table))
  else match m !! p with
       | None => inr None
       | Some e =>
         let real_key := GC_REVEAL_POINTER (hidden_key e) in
         let new_hash := HASH3 real_key (Z.shiftl 1 log_new_size) log_new_size in
         match new_table !! Z.to_nat new_hash with
         | None => inr None
         | Some q => inl (next e, <[p := set_next q e]> m, <[Z.to_nat new_hash := p]> new_table)
         end
       end.

Fixpoint move_chains (log_new_size : Z) (hs : list Z) (m : gmap Z (entry P)) (new_table : list Z)
    : option (gmap Z (entry P) * list Z) :=
  match hs with
  | [] => Some (m, new_table)
  | p :: hs =>
    '(m, new_table) ← mjoin (loop (move_body log_new_size) (p, m, new_table));
    move_chains log_new_size hs m new_table
  end.

(** The rest of the collector, as [GC_grow_table] and the registration functions
    see it: the mode, whether a collection is due, what a collection does to the
    table, and the answers of the allocator, each with what a collection it may
    have started does to the table. *)
Record env := Env {
  GC_incremental : bool;
  GC_dont_gc : bool;
  GC_should_collect : bool;
  GC_gcollect_inner : hashtbl P -> hashtbl P;
  malloc_table : hashtbl P -> bool * hashtbl P;      (* [false]: [NULL] *)
  GC_INTERNAL_MALLOC : hashtbl P -> Z * hashtbl P;
  GC_oom_fn : hashtbl P -> Z * hashtbl P
}.

Definition GC_grow_table (E : env) (t : hashtbl P) : option (hashtbl P) :=
  let log_old_size := log_size t in
  let log_new_size := log_old_size + 1 in
  let due := (GC_ON_GROW_LOG_SIZE_MIN <=? log_old_size)
             && negb (GC_incremental E) && negb (GC_dont_gc E) && GC_should_collect E in
  let t := if due then GC_gcollect_inner E t else t in
  if due && (entries t <? wrap64 (Z.shiftl 1 log_old_size - Z.shiftr (entries t) 2)) then Some t
  else
    let '(ok, t) := malloc_table E t in
    if ok then
      '(m, new_table) ← move_chains log_new_size (default [] (head t)) (nodes t)
                          (replicate (Z.to_nat (Z.shiftl 1 log_new_size)) NULL);
      Some (HashTbl (Some new_table) (finalize_now t) (entries t) log_new_size m)
    else match head t with None => None | Some _ => Some t end.

(** The test in front of a registration. *)
Definition grow_if_full (E : env) (t : hashtbl P) : option (hashtbl P) :=
  if match head t with None => true | Some _ => false end || (Z.shiftl 1 (log_size t) <? entries t)
  then GC_grow_table E t
  else Some t.
End Ops.
Arguments env P : clear implicits.

End FinTable.
