(* ===== verification/FinTableOk.v ===== *)
(** * Correctness of the hash tables of finalization

    [rep t cs] says that [t] represents the chains [cs], given as lists of cells:
    the address of an entry, its revealed key and its other fields.  [contents cs] is
    the finite map the table stands for.  The lemmas describe searching, unlinking,
    linking and growth in these terms. *)

From Stdlib Require Import ZArith Lia.
From stdpp Require Import base gmap list fin_maps.
From S2P Require Import Prelude FinTable.
Import FinTable.

Module FinTableOk.

Lemma hide_hide (p : Z) : GC_HIDE_POINTER (GC_HIDE_POINTER p) = p.
Proof. unfold GC_HIDE_POINTER. by rewrite Z.lxor_assoc, Z.lxor_nilpotent, Z.lxor_0_r. Qed.

Lemma reveal_hide (p : Z) : GC_REVEAL_POINTER (GC_HIDE_POINTER p) = p.
Proof. apply hide_hide. Qed.

Lemma hide_inj (p q : Z) : GC_HIDE_POINTER p = GC_HIDE_POINTER q -> p = q.
Proof. intros H. by rewrite <- (hide_hide p), H, hide_hide. Qed.

Lemma HASH2_range (a lg : Z) : 0 <= lg -> 0 <= HASH2 a lg < 2 ^ lg.
Proof.
  intros H. unfold HASH2, HASH3. rewrite Z.shiftl_1_l, land_low_mask by done.
  apply Z.mod_pos_bound. lia.
Qed.

Lemma NoDup_Z_length (l : list Z) (n : Z) :
  NoDup l -> (forall z, z ∈ l -> 0 <= z < n) -> Z.of_nat (length l) <= Z.max 0 n.
Proof.
  intros HN H.
  assert (S : l ⊆+ seqZ 0 n).
  { apply NoDup_submseteq; [done|]. intros z Hz. apply elem_of_seqZ. specialize (H z Hz). lia. }
  apply submseteq_length in S. rewrite length_seqZ in S. lia.
Qed.

Lemma elem_of_concat {B : Type} (ls : list (list B)) (x : B) : x ∈ concat ls <-> exists i l, ls !! i = Some l /\ x ∈ l.
Proof.
  rewrite list_elem_of_In, in_concat. split.
  - intros (l & Hl & Hx). apply list_elem_of_In, list_elem_of_lookup in Hl as (i & Hi). exists i, l.
    by rewrite list_elem_of_In.
  - intros (i & l & Hl & Hx). exists l. rewrite <- !list_elem_of_In. split; [by eapply list_elem_of_lookup_2|done].
Qed.

Lemma concat_lookup {B : Type} (ls : list (list B)) (i : nat) (l : list B) :
  ls !! i = Some l ->
  exists A D, concat ls = A ++ l ++ D /\ (forall l' : list B, concat (<[i := l']> ls) = A ++ l' ++ D)
  /\ forall j y x, ls !! j = Some y -> i <> j -> x ∈ y -> x ∈ A \/ x ∈ D.
Proof.
  intros H. exists (concat (take i ls)), (concat (drop (S i) ls)). split_and!.
  - rewrite <- (take_drop_middle ls i l H) at 1. by rewrite concat_app.
  - intros l'. apply lookup_lt_Some in H as Hlt. rewrite insert_take_drop by done.
    by rewrite concat_app.
  - intros j y x Hj Hne Hx. rewrite !elem_of_concat. destruct (decide (j < i)%nat).
    + left. exists j, y. by rewrite lookup_take_lt.
    + right. exists (j - S i)%nat, y. rewrite lookup_drop. by replace (S i + (j - S i))%nat with j by lia.
Qed.

Lemma exists_last_or_nil {B : Type} (l : list B) : (exists l' c, l = l' ++ [c]) \/ l = [].
Proof. destruct l as [|c l _] using rev_ind; [by right|left; eauto]. Qed.

Section Rep.
Context {P : Type}.
Notation cell := (Z * (Z * P))%type.
Implicit Types (m : gmap Z (entry P)) (l : list cell) (cs : list (list cell)) (t : hashtbl P).

(** From [p], the entries of [l], then [q]; the keys are stored as [enc] says,
    hidden in tables and plain in the queue of objects to finalize. *)
Fixpoint seg (enc : Z -> Z) m (p : Z) l (q : Z) : Prop :=
  match l with
  | [] => p = q
  | (a, (k, v)) :: l =>
    p = a /\ a <> NULL /\ exists n, m !! a = Some (Entry (enc k) n v) /\ seg enc m n l q
  end.
Notation chain m p l := (seg GC_HIDE_POINTER m p l NULL).

Definition addrs l : list Z := fst <$> l.
Definition keys l : list Z := (fun c => c.2.1) <$> l.
Definition last_addr (d : Z) l : Z := default d (fst <$> last l).

Lemma seg_app (enc : Z -> Z) m (p q : Z) l l' :
  seg enc m p (l ++ l') q <-> exists r, seg enc m p l r /\ seg enc m r l' q.
Proof.
  revert p. induction l as [|[a [k v]] l IH]; intros p; cbn.
  - split; [by eexists|by intros (? & -> & ?)].
  - setoid_rewrite IH. naive_solver.
Qed.

Lemma seg_frame (enc : Z -> Z) m m' (p q : Z) l :
  (forall a, a ∈ addrs l -> m' !! a = m !! a) -> seg enc m p l q -> seg enc m' p l q.
Proof.
  revert p. induction l as [|[a [k v]] l IH]; intros p H; cbn; [done|].
  intros (-> & ? & n & E & ?). split_and!; [done..|]. exists n. split.
  - rewrite <- E. apply H. by left.
  - apply IH; [|done]. intros b Hb. apply H. by right.
Qed.

Lemma seg_insert (enc : Z -> Z) m (p q b : Z) (e : entry P) l :
  b ∉ addrs l -> seg enc m p l q -> seg enc (<[b := e]> m) p l q.
Proof. intros H. apply seg_frame. intros a Ha. apply lookup_insert_ne. set_solver. Qed.

Lemma seg_alter (enc : Z -> Z) m (p q b : Z) (f : entry P -> entry P) l :
  b ∉ addrs l -> seg enc m p l q -> seg enc (alter f b m) p l q.
Proof. intros H. apply seg_frame. intros a Ha. apply lookup_alter_ne. set_solver. Qed.

Lemma last_addr_cons (d : Z) (c : cell) l : last_addr d (c :: l) = last_addr c.1 l.
Proof. unfold last_addr. destruct l as [|c' l]; [done|]. change (last (c :: c' :: l)) with (last (c' :: l)).
  destruct (last (c' :: l)) eqn:E; [done|]. by apply last_None in E. Qed.

Lemma last_addr_snoc (d : Z) (c : cell) l : last_addr d (l ++ [c]) = c.1.
Proof. unfold last_addr. by rewrite last_snoc. Qed.

Definition first_addr l : Z := match l with [] => NULL | c :: _ => c.1 end.

Lemma seg_first (enc : Z -> Z) m (p : Z) l : seg enc m p l NULL -> p = first_addr l.
Proof. destruct l as [|[a [k v]] l]; cbn; [done|]. by intros [-> _]. Qed.

(** The node before the end of a segment can be made to point elsewhere. *)
Lemma seg_redirect (enc : Z -> Z) m (p q q' : Z) (c : cell) l :
  seg enc m p (l ++ [c]) q -> c.1 ∉ addrs l -> seg enc (alter (set_next q') c.1 m) p (l ++ [c]) q'.
Proof.
  intros H Hn. apply seg_app in H as (r & H1 & H2). apply seg_app. exists r. split; [by apply seg_alter|].
  destruct c as [a [k v]]. cbn in H2 |- *. destruct H2 as (-> & ? & n & E & ->). split_and!; [done..|].
  exists q'. split; [|done]. rewrite lookup_alter_eq, E. done.
Qed.

(** ** Searching *)

Lemma find_spec m (k prev p : Z) l :
  chain m p l -> Z.of_nat (length l) < W64 ->
  exists r, loop (find_body m (GC_HIDE_POINTER k)) (prev, p) = Some (Some r)
  /\ (r.2 = NULL /\ k ∉ keys l
      \/ exists l1 v a l2, l = l1 ++ (a, (k, v)) :: l2 /\ k ∉ keys l1 /\ r = (last_addr prev l1, a)).
Proof.
  intros Hc Hl.
  destruct (loop_spec_rel
    (fun n st => exists l1 l2, l = l1 ++ l2 /\ n = length l2 /\ k ∉ keys l1 /\ st.1 = last_addr prev l1 /\ chain m st.2 l2)
    (fun o => exists r, o = Some r /\ (r.2 = NULL /\ k ∉ keys l
      \/ exists l1 v a l2, l = l1 ++ (a, (k, v)) :: l2 /\ k ∉ keys l1 /\ r = (last_addr prev l1, a)))
    (find_body m (GC_HIDE_POINTER k)) (length l) (prev, p)) as (o & E & r & -> & HQ); [| |done|by exists r].
  - intros n [pr cu] (l1 & l2 & -> & -> & Hk & Hp & Hs). cbn in Hp, Hs. subst pr. cbn [find_body].
    destruct l2 as [|[a [k' v]] l2].
    + cbn in Hs. subst cu. cbn. eexists. split; [done|]. left. by rewrite app_nil_r.
    + destruct Hs as (-> & Ha & n & Em & Hs). rewrite (proj2 (Z.eqb_neq _ _) Ha), Em. cbn [hidden_key next].
      destruct (Z.eqb_spec (GC_HIDE_POINTER k') (GC_HIDE_POINTER k)) as [Hkk|Hkk].
      * apply hide_inj in Hkk. subst k'. eexists. split; [done|]. right. by exists l1, v, a, l2.
      * exists (length l2). cbn [length]. split; [lia|]. exists (l1 ++ [(a, (k', v))]), l2. split_and!.
        -- by rewrite <- app_assoc.
        -- done.
        -- unfold keys. rewrite fmap_app. cbn. set_solver.
        -- cbn. by rewrite last_addr_snoc.
        -- exact Hs.
  - exists [], l. by split_and!; [..|apply not_elem_of_nil| |].
Qed.

(** ** Tables *)

Definition rep t cs : Prop :=
  0 <= log_size t
  /\ match head t with
     | None => cs = [] /\ log_size t = 0
     | Some hs => Z.of_nat (length hs) = 2 ^ log_size t /\ Forall2 (fun p l => chain (nodes t) p l) hs cs
     end
  /\ NoDup (addrs (concat cs)) /\ NoDup (keys (concat cs))
  /\ (forall i l c, cs !! i = Some l -> c ∈ l -> HASH2 c.2.1 (log_size t) = Z.of_nat i)
  /\ (forall a, a ∈ addrs (concat cs) -> 0 < a < W64)
  /\ entries t = Z.of_nat (length (concat cs)).

Definition contents cs : gmap Z P := list_to_map (snd <$> concat cs).

Lemma contents_fst cs : (snd <$> concat cs).*1 = keys (concat cs).
Proof. unfold keys. rewrite <- list_fmap_compose. done. Qed.

Lemma contents_Some t cs (k : Z) (v : P) :
  rep t cs -> contents cs !! k = Some v <-> exists a, (a, (k, v)) ∈ concat cs.
Proof.
  intros (_ & _ & _ & Hk & _). unfold contents.
  rewrite <- elem_of_list_to_map by (rewrite contents_fst; exact Hk).
  rewrite list_elem_of_fmap. split.
  - intros ([a y] & -> & H). by exists a.
  - intros (a & H). by exists (a, (k, v)).
Qed.

Lemma contents_None t cs (k : Z) : rep t cs -> contents cs !! k = None <-> k ∉ keys (concat cs).
Proof. intros _. unfold contents. by rewrite <- not_elem_of_list_to_map, contents_fst. Qed.

Lemma contents_perm t cs cs' :
  rep t cs -> concat cs ≡ₚ concat cs' -> contents cs = contents cs'.
Proof.
  intros (_ & _ & _ & Hk & _) Hp. unfold contents. apply list_to_map_proper; [by rewrite contents_fst|].
  by rewrite Hp.
Qed.

Lemma rep_length t cs : rep t cs -> Z.of_nat (length (concat cs)) < W64.
Proof.
  intros (_ & _ & Hn & _ & _ & Ha & _).
  assert (E : length (concat cs) = length ((fun a => a - 1) <$> addrs (concat cs))) by (unfold addrs; by rewrite !length_fmap).
  rewrite E. assert (0 < W64) by (unfold W64; lia).
  assert (Z.of_nat (length ((fun a => a - 1) <$> addrs (concat cs))) <= Z.max 0 (W64 - 1)); [|lia].
  apply NoDup_Z_length.
  - apply NoDup_fmap_2; [|done]. intros x y. lia.
  - intros z (a & -> & Hin)%list_elem_of_fmap. specialize (Ha a Hin). lia.
Qed.

Lemma rep_bucket t cs (k : Z) :
  rep t cs -> head t <> None ->
  exists hs i p l, head t = Some hs /\ i = Z.to_nat (HASH2 k (log_size t))
  /\ hs !! i = Some p /\ cs !! i = Some l /\ chain (nodes t) p l
  /\ (k ∈ keys (concat cs) -> k ∈ keys l).
Proof.
  intros (Hlg & Hh & _ & _ & Hb & _). destruct (head t) as [hs|]; [|done]. intros _.
  destruct Hh as [Hlen HF]. pose proof (HASH2_range k _ Hlg) as Hr.
  destruct (lookup_lt_is_Some_2 hs (Z.to_nat (HASH2 k (log_size t)))) as [p Hp]; [lia|].
  destruct (Forall2_lookup_l _ _ _ _ _ HF Hp) as (l & Hl & Hc).
  eexists hs, _, p, l. split_and!; [done..|].
  intros (c & -> & Hc')%list_elem_of_fmap. apply list_elem_of_fmap. exists c. split; [done|].
  apply elem_of_concat in Hc' as (j & l' & Hj & Hin).
  pose proof (Hb j l' c Hj Hin) as E. rewrite E, Nat2Z.id in Hl. congruence.
Qed.

(** A chain is replaced by another, with new contents for its entries. *)
Lemma rep_replace t cs (hs : list Z) (i : nat) l l' (p' n' : Z) m' :
  rep t cs -> head t = Some hs -> cs !! i = Some l -> chain m' p' l' ->
  (forall a, a ∈ addrs (concat cs) -> a ∉ addrs l -> m' !! a = nodes t !! a) ->
  (forall a, a ∈ addrs l' -> a ∉ addrs l -> a ∉ addrs (concat cs) /\ 0 < a < W64) ->
  (forall k, k ∈ keys l' -> k ∉ keys l -> k ∉ keys (concat cs)) ->
  (forall k, k ∈ keys l' -> HASH2 k (log_size t) = Z.of_nat i) ->
  NoDup (addrs l') -> NoDup (keys l') ->
  n' = Z.of_nat (length (concat (<[i := l']> cs))) ->
  rep (HashTbl (Some (<[i := p']> hs)) (finalize_now t) n' (log_size t) m') (<[i := l']> cs).
Proof.
  intros (Hlg & Hh & Hna & Hnk & Hb & Har & He) Eh Hl Hc Hfr Hfa Hfk Hhash Hda Hdk ->. rewrite Eh in Hh. destruct Hh as [Hlen HF].
  destruct (concat_lookup cs i l Hl) as (A & D & E & E' & Eo). specialize (E' l').
  unfold addrs, keys in Hna, Hnk. rewrite E, !fmap_app in Hna, Hnk.
  apply NoDup_app in Hna as (HnA & HA & HnlD). apply NoDup_app in Hnk as (HkA & HAk & HklD).
  apply NoDup_app in HnlD as (_ & HlD & HnD). apply NoDup_app in HklD as (_ & HlDk & HkD).
  assert (Hca : forall a, a ∈ addrs A \/ a ∈ addrs D -> a ∈ addrs (concat cs) /\ a ∉ addrs l).
  { intros a Ha. rewrite E. unfold addrs in *. rewrite !fmap_app. set_solver. }
  assert (Hck : forall a, a ∈ keys A \/ a ∈ keys D -> a ∈ keys (concat cs) /\ a ∉ keys l).
  { intros a Ha. rewrite E. unfold keys in *. rewrite !fmap_app. set_solver. }
  assert (HA' : forall a, a ∈ addrs l' -> a ∉ addrs A /\ a ∉ addrs D).
  { intros a Ha. split; intros Hin; destruct (Hca a) as [H1 H2]; try tauto; by destruct (Hfa a Ha H2). }
  assert (HK' : forall a, a ∈ keys l' -> a ∉ keys A /\ a ∉ keys D).
  { intros a Ha. split; intros Hin; destruct (Hck a) as [H1 H2]; try tauto; by destruct (Hfk a Ha H2). }
  split; [done|]. cbn [head finalize_now entries log_size nodes]. split_and!.
  - by rewrite length_insert.
  - apply Forall2_same_length_lookup_2.
    { rewrite !length_insert. by eapply Forall2_length. }
    intros j x y Hx Hy. destruct (decide (i = j)) as [<-|Hne].
    + apply lookup_lt_Some in Hx as Hi. rewrite length_insert in Hi.
      apply lookup_lt_Some in Hy as Hi'. rewrite length_insert in Hi'.
      rewrite list_lookup_insert_eq in Hx by done. rewrite list_lookup_insert_eq in Hy by done. by simplify_eq.
    + rewrite list_lookup_insert_ne in Hx by done. rewrite list_lookup_insert_ne in Hy by done. pose proof (Forall2_lookup_lr _ _ _ _ _ _ HF Hx Hy) as Hxy.
      eapply seg_frame; [|exact Hxy]. intros a (c & -> & Hin)%list_elem_of_fmap. apply Hfr; apply (Hca c.1);
        destruct (Eo j y c Hy Hne Hin); [left|right|left|right]; by apply list_elem_of_fmap_2.
  - rewrite E'. unfold addrs in *. rewrite !fmap_app, !NoDup_app. split_and!; [done| |done| |done]; set_solver.
  - rewrite E'. unfold keys in *. rewrite !fmap_app, !NoDup_app. split_and!; [done| |done| |done]; set_solver.
  - intros j y c Hy Hin. destruct (decide (i = j)) as [<-|Hne].
    + apply lookup_lt_Some in Hl as Hi. rewrite list_lookup_insert_eq in Hy by done. simplify_eq.
      apply Hhash. by apply (list_elem_of_fmap_2 (fun c => c.2.1)).
    + rewrite list_lookup_insert_ne in Hy by done. by eapply Hb.
  - rewrite E'. unfold addrs. rewrite !fmap_app. intros a [Ha|[Ha|Ha]%elem_of_app]%elem_of_app.
    + apply Har, Hca. by left.
    + destruct (decide (a ∈ addrs l)) as [Hal|Hal]; [|by apply Hfa].
      apply Har. rewrite E. unfold addrs in *. rewrite !fmap_app. set_solver.
    + apply Har, Hca. by right.
  - done.
Qed.
(** ** Searching, unlinking and linking in a table *)

(** The entry for [k] is at [a], after [l1] and before [l2] in its chain [i]. *)
Definition found t cs (k : Z) (i : nat) l1 (a : Z) (v : P) l2 : Prop :=
  i = Z.to_nat (HASH2 k (log_size t)) /\ cs !! i = Some (l1 ++ (a, (k, v)) :: l2).

Lemma found_in t cs (k a : Z) (i : nat) (v : P) l1 l2 :
  found t cs k i l1 a v l2 -> (a, (k, v)) ∈ concat cs.
Proof. intros [_ H]. apply elem_of_concat. eexists _, _. split; [exact H|set_solver]. Qed.

Lemma found_contents t cs (k a : Z) (i : nat) (v : P) l1 l2 :
  rep t cs -> found t cs k i l1 a v l2 -> contents cs !! k = Some v.
Proof. intros R F. apply (contents_Some t); [done|]. exists a. by eapply found_in. Qed.

Lemma rep_find t cs (k : Z) :
  rep t cs -> head t <> None ->
  exists r, find_entry (HASH2 k (log_size t)) (GC_HIDE_POINTER k) t = Some r
  /\ (r.2 = NULL /\ contents cs !! k = None
      \/ exists i l1 a v l2, found t cs k i l1 a v l2 /\ a <> NULL /\ r = (last_addr NULL l1, a)).
Proof.
  intros R Hh. destruct (rep_bucket t cs k R Hh) as (hs & i & p & l & Eh & Ei & Hp & Hl & Hc & Hk).
  pose proof (rep_length t cs R) as HW. destruct (concat_lookup cs i l Hl) as (A & D & E & _).
  destruct (find_spec (nodes t) k NULL p l Hc) as (r & Er & Hr).
  { rewrite E, !length_app in HW. lia. }
  exists r. split.
  { unfold find_entry. rewrite Eh. cbn [mbind option_bind]. rewrite <- Ei, Hp. cbn [mbind option_bind]. by rewrite Er. }
  destruct Hr as [[? Hn]|(l1 & v & a & l2 & -> & _ & ->)].
  - left. split; [done|]. apply (contents_None t); [done|]. tauto.
  - right. exists i, l1, a, v, l2. split; [done|]. split; [|done].
    apply seg_app in Hc as (q & _ & Hc). cbn in Hc. tauto.
Qed.

Lemma rep_bucket_chain t cs (hs : list Z) (i : nat) l :
  rep t cs -> head t = Some hs -> cs !! i = Some l ->
  exists p, hs !! i = Some p /\ chain (nodes t) p l.
Proof.
  intros (_ & Hh & _) Eh Hl. rewrite Eh in Hh. destruct Hh as [_ HF].
  destruct (Forall2_lookup_r _ _ _ _ _ HF Hl) as (p & ? & ?). eauto.
Qed.

Lemma rep_head t cs (i : nat) l : rep t cs -> cs !! i = Some l -> exists hs, head t = Some hs.
Proof. intros (_ & Hh & _) Hl. destruct (head t) as [hs|]; [by exists hs|]. by destruct Hh as [-> _]. Qed.

Lemma found_node t cs (k a : Z) (i : nat) (v : P) l1 l2 :
  rep t cs -> found t cs k i l1 a v l2 ->
  exists n, nodes t !! a = Some (Entry (GC_HIDE_POINTER k) n v) /\ chain (nodes t) n l2.
Proof.
  intros R [_ Hl]. destruct (rep_head t cs i _ R Hl) as [hs Eh].
  destruct (rep_bucket_chain t cs hs i _ R Eh Hl) as (p & _ & Hc).
  apply seg_app in Hc as (q & _ & Hc). cbn in Hc. naive_solver.
Qed.

Lemma NoDup_bucket t cs (i : nat) l : rep t cs -> cs !! i = Some l -> NoDup (addrs l) /\ NoDup (keys l).
Proof.
  intros (_ & _ & Hna & Hnk & _) Hl. destruct (concat_lookup cs i l Hl) as (A & D & E & _).
  unfold addrs, keys in *. rewrite E, !fmap_app in Hna, Hnk.
  split; [apply NoDup_app in Hna as (_ & _ & H)|apply NoDup_app in Hnk as (_ & _ & H)]; by apply NoDup_app in H as (? & _).
Qed.

Lemma bucket_hash t cs (i : nat) l (k : Z) : rep t cs -> cs !! i = Some l -> k ∈ keys l -> HASH2 k (log_size t) = Z.of_nat i.
Proof. intros (_ & _ & _ & _ & Hb & _) Hl (c & -> & Hc)%list_elem_of_fmap. by eapply Hb. Qed.

Lemma contents_unlink t cs (k a : Z) (i : nat) (v : P) l1 l2 :
  rep t cs -> found t cs k i l1 a v l2 ->
  concat cs ≡ₚ (a, (k, v)) :: concat (<[i := l1 ++ l2]> cs)
  /\ contents (<[i := l1 ++ l2]> cs) = delete k (contents cs).
Proof.
  intros R [_ Hl]. destruct (concat_lookup cs i _ Hl) as (A & D & E & E' & _). specialize (E' (l1 ++ l2)).
  assert (Hp : concat cs ≡ₚ (a, (k, v)) :: concat (<[i := l1 ++ l2]> cs)) by (rewrite E, E'; solve_Permutation).
  split; [done|]. unfold contents at 2.
  assert (Hnk : NoDup (snd <$> concat cs).*1) by (rewrite contents_fst; apply R).
  rewrite (list_to_map_proper (M:=gmap Z) _ (snd <$> (a, (k, v)) :: concat (<[i := l1 ++ l2]> cs)) Hnk) by (by rewrite Hp).
  cbn. rewrite delete_insert_id; [done|].
  apply not_elem_of_list_to_map_1. rewrite Hp in Hnk. cbn in Hnk. by apply NoDup_cons in Hnk as [? _].
Qed.

Lemma rep_unlink t cs (k a : Z) (i : nat) (v : P) l1 l2 (e : entry P) :
  rep t cs -> found t cs k i l1 a v l2 -> nodes t !! a = Some e ->
  exists t', relink (HASH2 k (log_size t)) (last_addr NULL l1) (next e) t = Some t'
  /\ rep (set_entries (entries t - 1) t') (<[i := l1 ++ l2]> cs)
  /\ entries t' = entries t /\ log_size t' = log_size t /\ finalize_now t' = finalize_now t
  /\ (forall b, b ∉ addrs (concat cs) \/ b = a -> nodes t' !! b = nodes t !! b).
Proof.
  intros R F Ea. pose proof F as [Hi Hl]. destruct (rep_head t cs i _ R Hl) as [hs Eh].
  destruct (rep_bucket_chain t cs hs i _ R Eh Hl) as (p & Hp & Hc).
  destruct (NoDup_bucket t cs i _ R Hl) as [Hna Hnk].
  destruct (contents_unlink t cs k a i v l1 l2 R F) as [Hperm _].
  apply seg_app in Hc as (q & Hc1 & Hc2). cbn in Hc2. destruct Hc2 as (-> & Ha & n & En & Hc2).
  rewrite Ea in En. injection En as ->. cbn [next].
  assert (Hlen : entries t - 1 = Z.of_nat (length (concat (<[i := l1 ++ l2]> cs)))).
  { replace (entries t) with (Z.of_nat (length (concat cs))) by (symmetry; apply R).
    rewrite Hperm. cbn [length]. lia. }
  unfold addrs, keys in Hna, Hnk. rewrite fmap_app, fmap_cons in Hna, Hnk. cbn [fst snd] in Hna, Hnk.
  apply NoDup_app in Hna as (Hn1 & Hn12 & Hn2). apply NoDup_cons in Hn2 as [Hna2 Hn2].
  apply NoDup_app in Hnk as (Hk1 & Hk12 & Hk2). apply NoDup_cons in Hk2 as [Hka2 Hk2].
  assert (Hrep : forall p' m', chain m' p' (l1 ++ l2) ->
    (forall b, b ∉ addrs l1 -> m' !! b = nodes t !! b) ->
    rep (HashTbl (Some (<[i := p']> hs)) (finalize_now t) (entries t - 1) (log_size t) m') (<[i := l1 ++ l2]> cs)).
  { intros p' m' Hc' Hm'. apply (rep_replace t cs hs i (l1 ++ (a, (k, v)) :: l2)); try done.
    - intros b _ Hb. apply Hm'. unfold addrs in *. rewrite fmap_app in Hb. set_solver.
    - intros b Hb Hb'. exfalso. unfold addrs in *. rewrite fmap_app in Hb. rewrite fmap_app, fmap_cons in Hb'. set_solver.
    - intros b Hb Hb'. exfalso. unfold keys in *. rewrite fmap_app in Hb. rewrite fmap_app, fmap_cons in Hb'. set_solver.
    - intros b Hb. eapply bucket_hash; [done..|]. unfold keys in *. rewrite fmap_app in *. set_solver.
    - unfold addrs. rewrite fmap_app. apply NoDup_app. split_and!; [done| |done]. set_solver.
    - unfold keys. rewrite fmap_app. apply NoDup_app. split_and!; [done| |done]. set_solver. }
  unfold relink. rewrite Eh. destruct (exists_last_or_nil l1) as [(l1' & c & ->)| ->].
  - rewrite last_addr_snoc. apply seg_app in Hc1 as Hc1'. destruct Hc1' as (r & Hr1 & Hr2).
    unfold addrs in Hn1. rewrite fmap_app, NoDup_app in Hn1. destruct Hn1 as (_ & Hn1 & _).
    assert (Hcl : c.1 ∉ addrs l1') by (intros H; by apply (Hn1 _ H), list_elem_of_here).
    assert (Hc0 : c.1 <> NULL) by (destruct c as [? [? ?]]; cbn in Hr2; tauto).
    assert (Hin : c.1 ∈ fst <$> l1' ++ [c]) by (rewrite fmap_app; set_solver).
    rewrite (proj2 (Z.eqb_neq _ _) Hc0). eexists. split; [done|].
    unfold set_entries, set_nodes. cbn [head finalize_now entries log_size nodes].
    split_and!; [|done..|].
    + rewrite Eh, <- (list_insert_id hs i p Hp). apply Hrep.
      * apply seg_app. exists n. split; [by eapply seg_redirect|].
        apply seg_alter; [|done]. intros H. apply (Hn12 _ Hin). by right.
      * intros b Hb. apply lookup_alter_ne. intros <-. done.
    + intros b Hb. apply lookup_alter_ne. intros <-. destruct Hb as [Hb|Hb].
      2: { apply (Hn12 _ Hin). rewrite Hb. by left. }
      apply Hb. apply list_elem_of_fmap in Hin as (c' & E & Hin). rewrite E. apply list_elem_of_fmap_2.
      apply elem_of_concat. eexists _, _. split; [exact Hl|]. set_solver.
  - change (last_addr NULL []) with NULL. cbn [mbind option_bind]. rewrite Z.eqb_refl. eexists. split; [done|].
    unfold set_entries, set_head. cbn [head finalize_now entries log_size nodes]. rewrite <- Hi. split_and!; [|done..].
    by apply Hrep.
Qed.

Lemma rep_push t cs (k a : Z) (v : P) (i : nat) l :
  rep t cs -> i = Z.to_nat (HASH2 k (log_size t)) -> cs !! i = Some l ->
  contents cs !! k = None -> a ∉ addrs (concat cs) -> 0 < a < W64 ->
  exists t', push_entry (HASH2 k (log_size t)) a (GC_HIDE_POINTER k) v t = Some t'
  /\ rep (set_entries (entries t + 1) t') (<[i := (a, (k, v)) :: l]> cs)
  /\ concat (<[i := (a, (k, v)) :: l]> cs) ≡ₚ (a, (k, v)) :: concat cs
  /\ contents (<[i := (a, (k, v)) :: l]> cs) = <[k := v]> (contents cs)
  /\ entries t' = entries t /\ log_size t' = log_size t /\ finalize_now t' = finalize_now t
  /\ exists n, nodes t' = <[a := Entry (GC_HIDE_POINTER k) n v]> (nodes t).
Proof.
  intros R Hi Hl Hk Ha Ha0. destruct (rep_head t cs i _ R Hl) as [hs Eh].
  destruct (rep_bucket_chain t cs hs i _ R Eh Hl) as (p & Hp & Hc).
  destruct (NoDup_bucket t cs i _ R Hl) as [Hna Hnk]. apply (contents_None t) in Hk; [|done].
  destruct (concat_lookup cs i _ Hl) as (A & D & E & E' & _). specialize (E' ((a, (k, v)) :: l)).
  assert (Hperm : concat (<[i := (a, (k, v)) :: l]> cs) ≡ₚ (a, (k, v)) :: concat cs) by (rewrite E, E'; solve_Permutation).
  assert (Hla : a ∉ addrs l) by (unfold addrs in *; rewrite E, !fmap_app in Ha; set_solver).
  assert (Hlk : k ∉ keys l) by (unfold keys in *; rewrite E, !fmap_app in Hk; set_solver).
  assert (Hrep : rep (HashTbl (Some (<[i := a]> hs)) (finalize_now t) (entries t + 1) (log_size t)
                        (<[a := Entry (GC_HIDE_POINTER k) p v]> (nodes t))) (<[i := (a, (k, v)) :: l]> cs)).
  { apply (rep_replace t cs hs i l); try done.
    - cbn. split_and!; [done|lia|]. exists p. rewrite lookup_insert_eq. split; [done|by apply seg_insert].
    - intros b Hb _. apply lookup_insert_ne. set_solver.
    - intros b Hb Hb'. unfold addrs in *. cbn in Hb. apply elem_of_cons in Hb as [->|?]; [|done]. done.
    - intros b Hb Hb'. unfold keys in *. cbn in Hb. apply elem_of_cons in Hb as [->|?]; [|done]. done.
    - intros b Hb. unfold keys in *. cbn in Hb. apply elem_of_cons in Hb as [->|Hb].
      + rewrite Hi, Z2Nat.id; [done|]. apply HASH2_range. apply R.
      + by eapply bucket_hash.
    - cbn. by apply NoDup_cons.
    - cbn. by apply NoDup_cons.
    - rewrite Hperm. cbn [length]. replace (entries t) with (Z.of_nat (length (concat cs))) by (symmetry; apply R). lia. }
  exists (HashTbl (Some (<[i := a]> hs)) (finalize_now t) (entries t) (log_size t) (<[a := Entry (GC_HIDE_POINTER k) p v]> (nodes t))).
  unfold push_entry. rewrite Eh. cbn [mbind option_bind]. rewrite <- Hi, Hp. cbn [mbind option_bind].
  split_and!; [done|exact Hrep|done| |done..|by exists p].
  rewrite (contents_perm _ _ ([(a, (k, v))] :: cs) Hrep); [done|]. by rewrite Hperm.
Qed.
(** Overwriting the fields after the prolog. *)
Lemma rep_set_rest t cs (k a : Z) (i : nat) (v v' : P) l1 l2 :
  rep t cs -> found t cs k i l1 a v l2 ->
  let cs' := <[i := l1 ++ (a, (k, v')) :: l2]> cs in
  rep (set_nodes (alter (fun e => Entry (hidden_key e) (next e) v') a (nodes t)) t) cs'
  /\ contents cs' = <[k := v']> (contents cs)
  /\ addrs (concat cs') = addrs (concat cs).
Proof.
  intros R F. cbn zeta. pose proof F as [Hi Hl]. destruct (rep_head t cs i _ R Hl) as [hs Eh].
  destruct (rep_bucket_chain t cs hs i _ R Eh Hl) as (p & Hp & Hc).
  destruct (NoDup_bucket t cs i _ R Hl) as [Hna Hnk].
  destruct (concat_lookup cs i _ Hl) as (A & D & E & E' & _). specialize (E' (l1 ++ (a, (k, v')) :: l2)).
  assert (Hla : addrs (l1 ++ (a, (k, v')) :: l2) = addrs (l1 ++ (a, (k, v)) :: l2)) by (unfold addrs; by rewrite !fmap_app).
  assert (Hlk : keys (l1 ++ (a, (k, v')) :: l2) = keys (l1 ++ (a, (k, v)) :: l2)) by (unfold keys; by rewrite !fmap_app).
  assert (Hr : rep (set_nodes (alter (fun e => Entry (hidden_key e) (next e) v') a (nodes t)) t)
                 (<[i := l1 ++ (a, (k, v')) :: l2]> cs)).
  { unfold set_nodes. rewrite Eh, <- (list_insert_id hs i p Hp).
    apply (rep_replace t cs hs i (l1 ++ (a, (k, v)) :: l2)); try done.
    - apply seg_app in Hc as (q & Hc1 & Hc2). apply seg_app. exists q. unfold addrs in Hna. rewrite fmap_app in Hna.
      apply NoDup_app in Hna as (_ & Hna1 & Hna2). apply NoDup_cons in Hna2 as [Hna2 _]. split.
      + apply seg_alter; [|done]. intros H. apply (Hna1 _ H). by left.
      + destruct Hc2 as (-> & Ha & n & En & Hc2). split_and!; [done..|]. exists n. split; [by rewrite lookup_alter_eq, En|].
        by apply seg_alter.
    - intros b _ Hb. apply lookup_alter_ne. intros <-. apply Hb. unfold addrs. rewrite fmap_app. set_solver.
    - intros b. rewrite Hla. done.
    - intros b. rewrite Hlk. done.
    - intros b. rewrite Hlk. by eapply bucket_hash.
    - by rewrite Hla.
    - by rewrite Hlk.
    - rewrite E'. replace (entries t) with (Z.of_nat (length (concat cs))) by (symmetry; apply R).
      rewrite E, !length_app. cbn [length]. lia. }
  split_and!; [done| |].
  - destruct (contents_unlink t cs k a i v l1 l2 R F) as [Hperm Hdel].
    rewrite (contents_perm _ _ ([(a, (k, v'))] :: <[i := l1 ++ l2]> cs) Hr).
    + change (<[k := v']> (contents (<[i := l1 ++ l2]> cs)) = <[k := v']> (contents cs)).
      rewrite Hdel. apply insert_delete_eq.
    + rewrite E'. cbn. destruct (concat_lookup cs i _ Hl) as (A2 & D2 & E2 & E2' & _).
      assert (Hc2 : concat (<[i := l1 ++ l2]> cs) = A2 ++ (l1 ++ l2) ++ D2) by apply E2'.
      specialize (E2' (l1 ++ (a, (k, v')) :: l2)). rewrite Hc2, <- E', E2'. solve_Permutation.
  - rewrite E, E'. unfold addrs. by rewrite !fmap_app.
Qed.

(** ** Growth *)

(** The new table while entries move into it. *)
Definition part (lg : Z) m (nt : list Z) cs : Prop :=
  rep (HashTbl (Some nt) NULL (Z.of_nat (length (concat cs))) lg m) cs.

Lemma addrs_app l l' : addrs (l ++ l') = addrs l ++ addrs l'.
Proof. apply fmap_app. Qed.

Lemma keys_app l l' : keys (l ++ l') = keys l ++ keys l'.
Proof. apply fmap_app. Qed.

Lemma NoDup_app_l {B : Type} (x y : list B) : NoDup (x ++ y) -> NoDup x.
Proof. by intros (? & _)%NoDup_app. Qed.

Lemma move_step (lg : Z) m (nt : list Z) cs (a k p : Z) (v : P) l :
  part lg m nt cs -> chain m p ((a, (k, v)) :: l) -> 0 < a < W64 ->
  NoDup (addrs (concat cs ++ (a, (k, v)) :: l)) -> NoDup (keys (concat cs ++ (a, (k, v)) :: l)) ->
  exists n m' nt' cs', move_body lg (p, m, nt) = inl (n, m', nt')
  /\ part lg m' nt' cs' /\ chain m' n l /\ concat cs' ≡ₚ (a, (k, v)) :: concat cs
  /\ (forall b, b <> a -> m' !! b = m !! b).
Proof.
  intros Hpart Hc Ha Hna Hnk. rewrite addrs_app in Hna. rewrite keys_app in Hnk.
  apply NoDup_app in Hna as (_ & Hna & Hna2), Hnk as (_ & Hnk & _).
  destruct Hc as (-> & Ha0 & n & En & Hc).
  destruct (rep_bucket _ cs k Hpart) as (hs & i & q & l' & Eh & Ei & Hq & Hl' & _); [done|].
  cbn [head log_size] in Eh, Ei. injection Eh as <-.
  destruct (rep_push _ cs k a v i l' Hpart Ei Hl') as (t' & Et & Rt & Hp & _ & He & Hlg & _ & n' & Hn').
  - apply (contents_None _ _ _ Hpart). intros H. apply (Hnk _ H). by left.
  - intros H. apply (Hna _ H). by left.
  - done.
  - unfold push_entry in Et. cbn [head finalize_now entries log_size nodes mbind option_bind] in Et. rewrite <- Ei, Hq in Et.
    cbn [mbind option_bind] in Et. injection Et as <-. cbn [nodes entries] in Hn', Rt.
    exists n, (<[a := Entry (GC_HIDE_POINTER k) q v]> m), (<[i := a]> nt), (<[i := (a, (k, v)) :: l']> cs).
    cbn [move_body]. rewrite (proj2 (Z.eqb_neq _ _) Ha0), En. cbn [hidden_key next]. rewrite reveal_hide.
    unfold HASH2 in Ei. rewrite <- Ei, Hq. split_and!; [done| | |done|].
    + unfold part. rewrite Hp. cbn [length].
      replace (Z.of_nat (S (length (concat cs)))) with (Z.of_nat (length (concat cs)) + 1) by lia. exact Rt.
    + apply seg_insert; [|done]. by apply NoDup_cons in Hna2 as [? _].
    + intros b Hb. by apply lookup_insert_ne.
Qed.

Lemma move_chain_spec (lg p : Z) m (nt : list Z) cs l :
  part lg m nt cs -> chain m p l -> (forall a, a ∈ addrs l -> 0 < a < W64) -> Z.of_nat (length l) < W64 ->
  NoDup (addrs (concat cs ++ l)) -> NoDup (keys (concat cs ++ l)) ->
  exists m' nt' cs', loop (move_body lg) (p, m, nt) = Some (Some (m', nt'))
  /\ part lg m' nt' cs' /\ concat cs' ≡ₚ concat cs ++ l
  /\ (forall b, b ∉ addrs l -> m' !! b = m !! b).
Proof.
  intros Hp Hc Hr Hlen Hna Hnk.
  destruct (loop_spec_rel
    (fun k '(p', m', nt') => exists cs' l1 l2, l = l1 ++ l2 /\ k = length l2 /\ part lg m' nt' cs' /\ chain m' p' l2
       /\ concat cs' ≡ₚ concat cs ++ l1 /\ (forall b, b ∉ addrs l -> m' !! b = m !! b))
    (fun o => exists m' nt' cs', o = Some (m', nt') /\ part lg m' nt' cs' /\ concat cs' ≡ₚ concat cs ++ l
       /\ (forall b, b ∉ addrs l -> m' !! b = m !! b))
    (move_body lg) (length l) (p, m, nt)) as (o & E & m' & nt' & cs' & -> & H); [| |done|by exists m', nt', cs'].
  - intros k [[p' m'] nt'] (cs' & l1 & l2 & -> & -> & Hp' & Hc' & Hperm & Hfr).
    destruct l2 as [|[a [x v]] l2].
    + cbn in Hc'. subst p'. rewrite app_nil_r in *. cbn [move_body]. rewrite Z.eqb_refl. by exists m', nt', cs'.
    + assert (HE : concat cs' ++ (a, (x, v)) :: l2 ≡ₚ concat cs ++ l1 ++ (a, (x, v)) :: l2) by (rewrite Hperm; by rewrite app_assoc).
      destruct (move_step lg m' nt' cs' a x p' v l2) as (n & m2 & nt2 & cs2 & -> & Hp2 & Hc2 & Hperm2 & Hfr2); try done.
      * apply Hr. rewrite addrs_app. set_solver.
      * unfold addrs in *. by rewrite HE.
      * unfold keys in *. by rewrite HE.
      * exists (length l2). cbn [length]. split; [lia|].
        exists cs2, (l1 ++ [(a, (x, v))]), l2. split_and!; [by rewrite <- app_assoc|done..| |].
        -- rewrite Hperm2, Hperm. solve_Permutation.
        -- intros b Hb. rewrite <- Hfr by done. apply Hfr2. intros ->. apply Hb. rewrite addrs_app. set_solver.
  - exists cs, [], l. by rewrite app_nil_r.
Qed.

Lemma move_chains_spec (lg : Z) (hs : list Z) (rs : list (list cell)) m (nt : list Z) cs :
  part lg m nt cs -> Forall2 (fun p l => chain m p l) hs rs ->
  (forall a, a ∈ addrs (concat rs) -> 0 < a < W64) -> Z.of_nat (length (concat rs)) < W64 ->
  NoDup (addrs (concat cs ++ concat rs)) -> NoDup (keys (concat cs ++ concat rs)) ->
  exists m' nt' cs', move_chains lg hs m nt = Some (m', nt')
  /\ part lg m' nt' cs' /\ concat cs' ≡ₚ concat cs ++ concat rs
  /\ (forall b, b ∉ addrs (concat rs) -> m' !! b = m !! b).
Proof.
  intros Hp HF. revert m nt cs Hp HF. induction hs as [|p hs IH] in rs |- *; intros m nt cs Hp HF Hr Hlen Hna Hnk.
  - inversion HF; subst. exists m, nt, cs. split_and!; [done..| |done]. cbn. by rewrite app_nil_r.
  - inversion HF as [|? l ? rs' Hc HF' Ehs Ers]; subst. cbn [concat] in *. rewrite addrs_app in Hr. rewrite length_app in Hlen.
    rewrite app_assoc in Hna, Hnk.
    destruct (move_chain_spec lg p m nt cs l) as (m1 & nt1 & cs1 & E1 & Hp1 & Hperm1 & Hfr1); try done.
    { intros a Ha. apply Hr. set_solver. }
    { lia. }
    { rewrite addrs_app in Hna. by apply NoDup_app_l in Hna. }
    { rewrite keys_app in Hnk. by apply NoDup_app_l in Hnk. }
    assert (HE : concat cs1 ++ concat rs' ≡ₚ (concat cs ++ l) ++ concat rs') by (by rewrite Hperm1).
    assert (Hdisj : forall a, a ∈ addrs (concat rs') -> a ∉ addrs l).
    { rewrite !addrs_app in Hna. apply NoDup_app in Hna as (_ & Hna & _). intros a Ha Hl. by apply (Hna a); [set_solver|]. }
    destruct (IH rs' m1 nt1 cs1) as (m2 & nt2 & cs2 & E2 & Hp2 & Hperm2 & Hfr2); try done.
    { apply Forall2_same_length_lookup_2; [by eapply Forall2_length|]. intros i x y Hx Hy.
      eapply seg_frame; [|by eapply (Forall2_lookup_lr _ _ _ _ _ _ HF')].
      intros a (c & -> & Hin)%list_elem_of_fmap. apply Hfr1, Hdisj, list_elem_of_fmap_2, elem_of_concat. eauto. }
    { intros a Ha. apply Hr. set_solver. }
    { lia. }
    { unfold addrs in *. by rewrite HE. }
    { unfold keys in *. by rewrite HE. }
    exists m2, nt2, cs2. cbn [move_chains]. rewrite E1. cbn [mjoin option_join mbind option_bind]. split_and!; [done..| |].
    + rewrite Hperm2, HE. by rewrite app_assoc.
    + intros b Hb. rewrite addrs_app in Hb. rewrite Hfr2 by set_solver. apply Hfr1. set_solver.
Qed.

Lemma concat_nils (n : nat) : concat (replicate n ([] : list cell)) = [].
Proof. by induction n. Qed.

Lemma part_empty (lg : Z) m : 0 <= lg -> part lg m (replicate (Z.to_nat (Z.shiftl 1 lg)) NULL)
  (replicate (Z.to_nat (2 ^ lg)) []).
Proof.
  intros Hlg. unfold part. rewrite Z.shiftl_1_l.
  split; [done|]. cbn [head finalize_now entries log_size nodes]. rewrite !concat_nils. split_and!.
  - rewrite length_replicate. lia.
  - apply Forall2_replicate. done.
  - constructor.
  - constructor.
  - intros i l c Hl Hc. apply lookup_replicate in Hl as [-> _]. by apply not_elem_of_nil in Hc.
  - intros a Ha. by apply not_elem_of_nil in Ha.
  - done.
Qed.

(** ** The queue next to a table *)

Definition frep t cs (ql : list cell) : Prop :=
  rep t cs /\ seg id (nodes t) (finalize_now t) ql NULL
  /\ NoDup (addrs (ql ++ concat cs)) /\ forall a, a ∈ addrs ql -> 0 < a < W64.

(** Entries are gone; some of them may have moved to the queue. *)
Definition shrunk cs ql cs' ql' : Prop :=
  exists gone q, concat cs ≡ₚ gone ++ concat cs' /\ q ⊆+ gone /\ ql' = q ++ ql.

(** What a collection may do to a table. *)
Definition collected t cs ql t' cs' ql' : Prop :=
  frep t' cs' ql' /\ log_size t' = log_size t /\ (head t = None <-> head t' = None) /\ shrunk cs ql cs' ql'.

Definition fresh_answer (a : Z) cs ql : Prop := a <> NULL -> a ∉ addrs (ql ++ concat cs) /\ 0 < a < W64.

(** What a table relies on from the rest of the collector. *)
Record env_ok (E : env P) : Prop := EnvOk {
  gcollect_ok t cs ql : frep t cs ql -> exists cs' ql', collected t cs ql (GC_gcollect_inner E t) cs' ql';
  malloc_table_ok t cs ql : frep t cs ql -> exists cs' ql', collected t cs ql (malloc_table E t).2 cs' ql';
  malloc_ok t cs ql : frep t cs ql ->
    exists cs' ql', collected t cs ql (GC_INTERNAL_MALLOC E t).2 cs' ql' /\ fresh_answer (GC_INTERNAL_MALLOC E t).1 cs' ql';
  oom_ok t cs ql : frep t cs ql ->
    exists cs' ql', collected t cs ql (GC_oom_fn E t).2 cs' ql' /\ fresh_answer (GC_oom_fn E t).1 cs' ql'
}.

Lemma shrunk_refl cs ql : shrunk cs ql cs ql.
Proof. by exists [], []. Qed.

Lemma shrunk_perm cs ql cs' : concat cs ≡ₚ concat cs' -> shrunk cs ql cs' ql.
Proof. by exists [], []. Qed.

Lemma shrunk_trans cs ql cs1 ql1 cs2 ql2 :
  shrunk cs ql cs1 ql1 -> shrunk cs1 ql1 cs2 ql2 -> shrunk cs ql cs2 ql2.
Proof.
  intros (g & q & Hg & Hq & ->) (g2 & q2 & Hg2 & Hq2 & ->). exists (g ++ g2), (q2 ++ q). split_and!.
  - rewrite Hg, Hg2. by rewrite app_assoc.
  - rewrite (comm (++) q2 q). by apply submseteq_app.
  - by rewrite app_assoc.
Qed.

Lemma shrunk_contents t cs ql t' cs' ql' :
  rep t cs -> rep t' cs' -> shrunk cs ql cs' ql' -> contents cs' ⊆ contents cs.
Proof.
  intros R R' (g & q & Hg & _). apply map_subseteq_spec. intros k v.
  rewrite (contents_Some _ _ _ _ R), (contents_Some _ _ _ _ R'). intros (a & Ha). exists a. rewrite Hg. set_solver.
Qed.

(** The queue does not notice changes to entries of the table. *)
Lemma frep_frame t cs ql t' cs' :
  frep t cs ql -> rep t' cs' -> concat cs' ⊆+ concat cs -> finalize_now t' = finalize_now t ->
  (forall b, b ∉ addrs (concat cs) -> nodes t' !! b = nodes t !! b) -> frep t' cs' ql.
Proof.
  intros (R & Hq & Hn & Ha) R' Hs Ef Hfr. unfold frep. rewrite addrs_app in *. pose proof Hn as (Hn1 & Hn2 & Hn3)%NoDup_app. split_and!.
  - done.
  - rewrite Ef. eapply seg_frame; [|exact Hq]. intros b Hb. by apply Hfr, Hn2.
  - apply NoDup_app. split_and!; [done| |apply R']. intros a Ha' Hc. apply (Hn2 a Ha').
    apply list_elem_of_fmap in Hc as (c & -> & Hc). apply list_elem_of_fmap_2. by eapply elem_of_submseteq.
  - done.
Qed.

(** Only the entries of the chains matter to a table. *)
Lemma rep_nodes t cs m' :
  rep t cs -> (forall b, b ∈ addrs (concat cs) -> m' !! b = nodes t !! b) -> rep (set_nodes m' t) cs.
Proof.
  intros (Hlg & Hh & Hrest) Hm. split; [done|]. split; [|exact Hrest]. cbn [head set_nodes log_size nodes].
  destruct (head t) as [hs|]; [|done]. destruct Hh as [Hlen HF]. split; [done|].
  apply Forall2_same_length_lookup_2; [by eapply Forall2_length|]. intros i p l Hp Hl.
  eapply seg_frame; [|by eapply (Forall2_lookup_lr _ _ _ _ _ _ HF)].
  intros a (c & -> & Hin)%list_elem_of_fmap. apply Hm, list_elem_of_fmap_2, elem_of_concat. eauto.
Qed.

Lemma frep_nodes t cs ql m' :
  frep t cs ql -> (forall b, b ∈ addrs (ql ++ concat cs) -> m' !! b = nodes t !! b) -> frep (set_nodes m' t) cs ql.
Proof.
  intros (R & Hq & Hn & Ha) Hm. rewrite addrs_app in Hm. split_and!; [|  |done..].
  - apply rep_nodes; [done|]. intros b Hb. apply Hm. set_solver.
  - cbn. eapply seg_frame; [|exact Hq]. intros b Hb. apply Hm. set_solver.
Qed.

Lemma frep_found_fresh t cs ql (k a : Z) (i : nat) (v : P) l1 l2 :
  frep t cs ql -> found t cs k i l1 a v l2 -> a ∈ addrs (concat cs) /\ a ∉ addrs ql /\ 0 < a < W64.
Proof.
  intros (R & _ & Hn & _) F. apply found_in in F. assert (Ha : a ∈ addrs (concat cs)) by by apply (list_elem_of_fmap_2 fst) in F.
  split_and!; [done| |by apply R..]. intros H. rewrite addrs_app in Hn. apply NoDup_app in Hn as (_ & Hn & _). by apply (Hn a).
Qed.

Lemma frep_unlink t cs ql (k a : Z) (i : nat) (v : P) l1 l2 (e : entry P) :
  frep t cs ql -> found t cs k i l1 a v l2 -> nodes t !! a = Some e ->
  exists t', relink (HASH2 k (log_size t)) (last_addr NULL l1) (next e) t = Some t'
  /\ frep (set_entries (wrap64 (entries t' - 1)) t') (<[i := l1 ++ l2]> cs) ql
  /\ concat cs ≡ₚ (a, (k, v)) :: concat (<[i := l1 ++ l2]> cs)
  /\ contents (<[i := l1 ++ l2]> cs) = delete k (contents cs)
  /\ log_size t' = log_size t /\ head t' <> None /\ nodes t' !! a = Some e
  /\ rep (set_entries (entries t' - 1) t') (<[i := l1 ++ l2]> cs).
Proof.
  intros F Fo Ea. pose proof F as (R & _). destruct (rep_unlink t cs k a i v l1 l2 e R Fo Ea) as (t' & E & R' & He & Hlg & Hf & Hfr).
  destruct (contents_unlink t cs k a i v l1 l2 R Fo) as [Hp Hc].
  assert (Ew : wrap64 (entries t' - 1) = entries t - 1).
  { rewrite He. unfold wrap64. apply Z.mod_small. pose proof (rep_length _ _ R').
    assert (entries t - 1 = Z.of_nat (length (concat (<[i := l1 ++ l2]> cs)))) by apply R'. lia. }
  exists t'. rewrite Ew. split_and!; try done.
  - apply (frep_frame t cs ql); [done..| |done|].
    + rewrite Hp. by apply submseteq_cons.
    + intros b Hb. apply Hfr. by left.
  - destruct R' as (_ & H & _). cbn in H. intros Eh. rewrite Eh in H. destruct H as [H _]. destruct Fo as [_ Hl].
    assert (Hl' : <[i := l1 ++ l2]> cs !! i = Some (l1 ++ l2)) by (apply list_lookup_insert_eq; by eapply lookup_lt_Some).
    by rewrite H in Hl'.
  - rewrite <- Ea. apply Hfr. by right.
  - by rewrite He.
Qed.

Lemma frep_push t cs ql (k a : Z) (v : P) :
  frep t cs ql -> head t <> None -> contents cs !! k = None -> a ∉ addrs (ql ++ concat cs) -> 0 < a < W64 ->
  exists t' cs', push_entry (HASH2 k (log_size t)) a (GC_HIDE_POINTER k) v t = Some t'
  /\ frep (set_entries (wrap64 (entries t' + 1)) t') cs' ql
  /\ contents cs' = <[k := v]> (contents cs) /\ concat cs' ≡ₚ (a, (k, v)) :: concat cs
  /\ entries t' = entries t /\ log_size t' = log_size t /\ finalize_now t' = finalize_now t
  /\ rep (set_entries (entries t + 1) t') cs'
  /\ exists n, nodes t' = <[a := Entry (GC_HIDE_POINTER k) n v]> (nodes t).
Proof.
  intros F Hh Hk Ha Ha0. pose proof F as (R & Hq & Hn & Har). rewrite addrs_app in Ha.
  destruct (rep_bucket t cs k R Hh) as (hs & i & p & l & Eh & Ei & Hp & Hl & _).
  destruct (rep_push t cs k a v i l R Ei Hl Hk) as (t' & E & R' & Hperm & Hc & He & Hlg & Hf & n & Hnodes); [set_solver|done|].
  exists t', (<[i := (a, (k, v)) :: l]> cs).
  assert (Ew : wrap64 (entries t' + 1) = entries t + 1).
  { rewrite He. unfold wrap64. apply Z.mod_small. pose proof (rep_length _ _ R').
    assert (entries t + 1 = Z.of_nat (length (concat (<[i := (a, (k, v)) :: l]> cs)))) by apply R'. lia. }
  rewrite Ew. split_and!; try done; [|by exists n]. unfold frep. cbn [nodes finalize_now set_entries]. split_and!; [done| | |done].
  - rewrite Hf, Hnodes. apply seg_insert; [set_solver|done].
  - rewrite addrs_app in *. unfold addrs in *. rewrite Hperm. cbn. rewrite <- Permutation_middle. apply NoDup_cons. set_solver.
Qed.

Lemma frep_set_rest t cs ql (k a : Z) (i : nat) (v v' : P) l1 l2 :
  frep t cs ql -> found t cs k i l1 a v l2 ->
  let cs' := <[i := l1 ++ (a, (k, v')) :: l2]> cs in
  frep (set_nodes (alter (fun e => Entry (hidden_key e) (next e) v') a (nodes t)) t) cs' ql
  /\ contents cs' = <[k := v']> (contents cs).
Proof.
  intros F Fo. cbn zeta. destruct (frep_found_fresh t cs ql k a i v l1 l2 F Fo) as (Ha & Haq & _). destruct F as (R & Hq & Hn & Har).
  destruct (rep_set_rest t cs k a i v v' l1 l2 R Fo) as (R' & Hc & Hadd). cbn zeta in *.
  split; [|done]. unfold frep. cbn [nodes finalize_now set_nodes]. split_and!; [done| |by rewrite addrs_app in *; rewrite Hadd|done].
  by apply seg_alter.
Qed.

(** An entry that is in no chain joins the queue. *)
Lemma frep_enqueue t cs ql (k a : Z) (v : P) :
  frep t cs ql -> a ∉ addrs (ql ++ concat cs) -> 0 < a < W64 ->
  frep (set_finalize_now a (set_nodes (<[a := Entry k (finalize_now t) v]> (nodes t)) t)) cs ((a, (k, v)) :: ql).
Proof.
  intros (R & Hq & Hn & Ha) Hfr Ha0. rewrite addrs_app in *. split_and!.
  - apply (rep_nodes t cs (<[a := Entry k (finalize_now t) v]> (nodes t))) in R as (Hlg & Hh & Hrest); [done|].
    intros b Hb. apply lookup_insert_ne. set_solver.
  - cbn. split_and!; [done|lia|]. exists (finalize_now t). rewrite lookup_insert_eq. split; [done|].
    apply seg_insert; [set_solver|done].
  - rewrite addrs_app in *. cbn. by apply NoDup_cons.
  - intros b. cbn. intros [->|Hb]%elem_of_cons; [done|by apply Ha].
Qed.

Lemma frep_dequeue t cs ql (a k : Z) (v : P) :
  frep t cs ((a, (k, v)) :: ql) ->
  exists n, finalize_now t = a /\ a <> NULL /\ nodes t !! a = Some (Entry k n v)
  /\ frep (set_finalize_now n t) cs ql /\ a ∉ addrs (ql ++ concat cs).
Proof.
  intros (R & Hq & Hn & Ha). cbn in Hq. destruct Hq as (Ef & Ha0 & n & En & Hq). exists n.
  cbn in Hn. apply NoDup_cons in Hn as [Hna Hn]. split_and!; try done. split_and!; try done.
  intros b Hb. apply Ha. by right.
Qed.

Lemma grow_spec (E : env P) t cs ql :
  env_ok E -> frep t cs ql ->
  match GC_grow_table E t with
  | None => head t = None /\ (malloc_table E t).1 = false
  | Some t' => exists cs' ql', frep t' cs' ql' /\ head t' <> None /\ shrunk cs ql cs' ql'
  end.
Proof.
  intros HE F. unfold GC_grow_table.
  set (due := (GC_ON_GROW_LOG_SIZE_MIN <=? log_size t) && _ && _ && _).
  assert (Hdue : due = true -> head t <> None).
  { intros Hd Hh. destruct F as ((_ & H & _) & _). rewrite Hh in H. destruct H as [_ H].
    subst due. by rewrite H in Hd. }
  set (t0 := if due then GC_gcollect_inner E t else t).
  assert (H0 : exists cs0 ql0, collected t cs ql t0 cs0 ql0).
  { subst t0. destruct due; [by apply (gcollect_ok E HE)|]. exists cs, ql. split_and!; [done..|apply shrunk_refl]. }
  destruct H0 as (cs0 & ql0 & F0 & L0 & Hh0 & S0).
  destruct (due && _) eqn:Ed.
  { apply andb_true_iff in Ed as [Ed _]. exists cs0, ql0. split_and!; [done| |done]. specialize (Hdue Ed). tauto. }
  destruct (malloc_table_ok E HE t0 cs0 ql0 F0) as (cs1 & ql1 & F1 & L1 & Hh1 & S1).
  destruct (malloc_table E t0) as [ok t1] eqn:Em. cbn [snd] in F1, L1, Hh1.
  destruct ok.
  - pose proof F1 as ((Hlg & Hh & Hna & Hnk & Hb & Har & He) & _).
    assert (Hlg' : 0 <= log_size t + 1) by (rewrite <- L0, <- L1; lia).
    pose proof (rep_length t1 cs1 (proj1 F1)) as HW.
    destruct (move_chains_spec (log_size t + 1) (default [] (head t1)) cs1 (nodes t1)
      (replicate (Z.to_nat (Z.shiftl 1 (log_size t + 1))) NULL) (replicate (Z.to_nat (2 ^ (log_size t + 1))) []))
      as (m' & nt' & cs' & -> & Hp' & Hperm & Hfr).
    + by apply part_empty.
    + destruct (head t1) as [hs|]; [apply Hh|]. destruct Hh as [-> _]. constructor.
    + done.
    + done.
    + rewrite concat_nils. done.
    + rewrite concat_nils. done.
    + rewrite concat_nils in Hperm. cbn [mbind option_bind]. exists cs', ql1. split_and!; [|done|].
      * apply (frep_frame t1 cs1); [done| |by rewrite Hperm|done|done].
        unfold part in Hp'. rewrite Hperm in Hp'. cbn [app] in Hp'. rewrite He. exact Hp'.
      * apply (shrunk_trans cs ql cs0 ql0); [done|]. apply (shrunk_trans cs0 ql0 cs1 ql1); [done|]. by apply shrunk_perm.
  - destruct (head t1) as [hs|] eqn:Eh1.
    + exists cs1, ql1. split_and!; [done|by rewrite Eh1|]. by apply (shrunk_trans cs ql cs0 ql0).
    + assert (Eh : head t = None) by tauto. split; [done|].
      assert (due = false) by (destruct due; [by specialize (Hdue eq_refl)|done]).
      subst t0. destruct due; [done|]. by rewrite Em.
Qed.

Lemma grow_if_full_spec (E : env P) t cs ql :
  env_ok E -> frep t cs ql ->
  match grow_if_full E t with
  | None => head t = None /\ (malloc_table E t).1 = false
  | Some t' => exists cs' ql', frep t' cs' ql' /\ head t' <> None /\ shrunk cs ql cs' ql'
  end.
Proof.
  intros HE F. unfold grow_if_full. destruct (head t) as [hs|] eqn:Eh; cbn [orb].
  - destruct (_ <? _).
    + pose proof (grow_spec E t cs ql HE F) as H. rewrite Eh in H. exact H.
    + exists cs, ql. rewrite Eh. split_and!; [done..|apply shrunk_refl].
  - pose proof (grow_spec E t cs ql HE F) as H. rewrite Eh in H. exact H.
Qed.

(** ** Examples *)

Definition empty_table : hashtbl P := HashTbl None NULL 0 0 ∅.

Lemma frep_empty : frep empty_table [] [].
Proof.
  assert (Hn : forall a : Z, a ∈ addrs ([] : list cell) -> 0 < a < W64) by (intros a Ha; by apply not_elem_of_nil in Ha).
  split; [|split_and!; [done|constructor|done]]. split; [done|]. cbn. split_and!; [done..|constructor|constructor|done|done|done].
Qed.

Definition one_entry (a k : Z) (v : P) : hashtbl P :=
  HashTbl (Some [a; NULL]) NULL 1 1 {[ a := Entry (GC_HIDE_POINTER k) NULL v ]}.

Lemma frep_one (a k : Z) (v : P) :
  HASH2 k 1 = 0 -> 0 < a < W64 -> frep (one_entry a k v) [[(a, (k, v))]; []] [].
Proof.
  intros Hh Ha. split; [|split_and!; cbn; [done|by apply NoDup_singleton|intros b Hb; by apply not_elem_of_nil in Hb]].
  split; [done|]. cbn. split_and!; try done.
  - constructor; [|by repeat constructor]. cbn. split_and!; [done|lia|]. exists NULL. split; [by rewrite lookup_singleton_eq|done].
  - by apply NoDup_singleton.
  - by apply NoDup_singleton.
  - intros i l c Hl Hc. destruct i as [|[|i]]; cbn in Hl; simplify_eq; [|by apply not_elem_of_nil in Hc].
    apply list_elem_of_singleton in Hc. by subst c.
  - intros b Hb. apply list_elem_of_singleton in Hb. by subst b.
Qed.

Lemma seg_dom (enc : Z -> Z) m (p q a : Z) l : seg enc m p l q -> a ∈ addrs l -> m !! a <> None.
Proof.
  revert p. induction l as [|[b [k v]] l IH]; intros p Hs Ha; [by apply not_elem_of_nil in Ha|].
  destruct Hs as (-> & _ & n & En & Hs). unfold addrs in Ha. cbn in Ha. apply elem_of_cons in Ha as [->|Ha]; [by rewrite En|].
  by apply (IH n).
Qed.

Lemma frep_dom t cs ql (a : Z) : frep t cs ql -> a ∈ addrs (ql ++ concat cs) -> nodes t !! a <> None.
Proof.
  intros (R & Hq & _) Ha. rewrite addrs_app in Ha. apply elem_of_app in Ha as [Ha|Ha]; [by eapply seg_dom|].
  apply list_elem_of_fmap in Ha as (c & -> & Hc). apply elem_of_concat in Hc as (i & l & Hl & Hc).
  destruct (rep_head t cs i l R Hl) as [hs Eh]. destruct (rep_bucket_chain t cs hs i l R Eh Hl) as (p & _ & Hs).
  eapply seg_dom; [exact Hs|]. by apply list_elem_of_fmap_2.
Qed.

(** A collector that never collects and has memory for one more entry, at 65536. *)
Definition sample_env : env P :=
  Env false false false (fun t => t) (fun t => (true, t))
    (fun t => (match nodes t !! 65536 with None => 65536 | Some _ => NULL end, t)) (fun t => (NULL, t)).

Lemma sample_env_ok : env_ok sample_env.
Proof.
  assert (Hr : forall t cs ql, frep t cs ql -> collected t cs ql t cs ql).
  { intros t cs ql F. split_and!; [done..|apply shrunk_refl]. }
  split; intros t cs ql F; exists cs, ql; [by apply Hr|by apply Hr| |].
  - split; [by apply Hr|]. unfold fresh_answer. cbn. destruct (nodes t !! 65536) eqn:E; [done|]. intros _. split; [|unfold W64; lia].
    intros Ha. by apply (frep_dom t cs ql _ F Ha).
  - split; [by apply Hr|]. unfold fresh_answer. cbn. done.
Qed.
End Rep.
End FinTableOk.
