(* ===== verification/Links.v ===== *)
(** * Disappearing links and toggle-refs (finalize.c)

    Registration, removal and moving of disappearing links in one table, clearing of
    the links whose object is unmarked, and the array of toggle-refs.  The class
    [Collector] is what finalization uses of the marker, the headers and the
    heap's memory. *)

From Stdlib Require Import ZArith Lia.
From stdpp Require Import base gmap list fin_maps.
From S2P Require Import Prelude FinTable.
Import FinTable.

(** ** The collector, as finalization sees it *)

Inductive finalization_mark_proc :=
  GC_normal_finalize_mark_proc | GC_ignore_self_finalize_mark_proc
| GC_null_finalize_mark_proc | GC_unreachable_finalize_mark_proc.

#[global] Instance finalization_mark_proc_eq_dec : EqDecision finalization_mark_proc.
Proof. solve_decision. Defined.

(** [mark_fo] runs a mark procedure on an object and empties the mark stack;
    [store_null] clears the pointer at an address; [obj_base] is [NULL] for an
    address outside the heap. *)
Class Collector (W : Type) := {
  is_marked : Z -> W -> bool;
  set_mark_bit : Z -> W -> W;
  clear_mark_bit : Z -> W -> W;
  obj_base : Z -> W -> Z;
  mark_fo : Z -> finalization_mark_proc -> W -> W;
  complete_collection : W -> W;
  load : Z -> W -> Z;
  store_null : Z -> W -> W
}.

(** [obj w p]: [p] is the start of an object. *)
Class CollectorLaws (W : Type) `{Collector W} := {
  obj : W -> Z -> Prop;
  obj_set_mark p q w : obj (set_mark_bit p w) q <-> obj w q;
  obj_clear_mark p q w : obj (clear_mark_bit p w) q <-> obj w q;
  obj_mark_fo p r q w : obj (mark_fo p r w) q <-> obj w q;
  obj_store p q w : obj (store_null p w) q <-> obj w q;
  obj_complete q w : obj (complete_collection w) q <-> obj w q;
  marked_complete_mono q w : obj w q -> is_marked q w = true -> is_marked q (complete_collection w) = true;
  base_complete q w : obj_base q (complete_collection w) = obj_base q w;
  load_complete q w : load q (complete_collection w) = load q w;
  marked_set p q w : obj w p -> obj w q -> is_marked q (set_mark_bit p w) = bool_decide (p = q) || is_marked q w;
  marked_clear p q w : obj w p -> obj w q -> is_marked q (clear_mark_bit p w) = negb (bool_decide (p = q)) && is_marked q w;
  marked_store p q w : is_marked q (store_null p w) = is_marked q w;
  marked_fo_mono p r q w : obj w p -> obj w q -> is_marked q w = true -> is_marked q (mark_fo p r w) = true;
  base_set p q w : obj_base q (set_mark_bit p w) = obj_base q w;
  base_clear p q w : obj_base q (clear_mark_bit p w) = obj_base q w;
  base_store p q w : obj_base q (store_null p w) = obj_base q w;
  base_mark_fo p r q w : obj_base q (mark_fo p r w) = obj_base q w;
  base_obj p w : obj_base p w <> NULL -> obj w (obj_base p w);
  load_set p q w : load q (set_mark_bit p w) = load q w;
  load_clear p q w : load q (clear_mark_bit p w) = load q w;
  load_mark_fo p r q w : load q (mark_fo p r w) = load q w;
  load_store p q w : p mod ALIGNMENT = 0 -> q mod ALIGNMENT = 0 -> load q (store_null p w) = if decide (p = q) then NULL else load q w
}.

Module Links.

Definition GC_SUCCESS : Z := 0.
Definition GC_DUPLICATE : Z := 1.
Definition GC_NO_MEMORY : Z := 2.
Definition GC_UNIMPLEMENTED : Z := 3.
Definition GC_NOT_FOUND : Z := 4.

(** The field of [struct disappearing_link] after the prolog is [dl_hidden_obj]. *)
Notation disappearing_link := (entry Z).
Notation dl_hashtbl_s := (hashtbl Z).

Definition misaligned (link : Z) : bool := negb (Z.land link (ALIGNMENT - 1) =? 0).

Section Links.
Context (E : env Z).

(** The entry that is already there gets the new object. *)
Definition set_obj (curr obj : Z) (t : dl_hashtbl_s) : dl_hashtbl_s :=
  set_nodes (alter (fun e => Entry (hidden_key e) (next e) (GC_HIDE_POINTER obj)) curr (nodes t)) t.

Definition add_link (index new_dl link obj : Z) (t : dl_hashtbl_s) : option (Z * dl_hashtbl_s) :=
  t ← push_entry index new_dl (GC_HIDE_POINTER link) (GC_HIDE_POINTER obj) t;
  Some (GC_SUCCESS, set_entries (wrap64 (entries t + 1)) t).

Definition GC_register_disappearing_link_inner (GC_find_leak_inner : bool) (link obj : Z) (t : dl_hashtbl_s)
    : option (Z * dl_hashtbl_s) :=
  if GC_find_leak_inner then Some (GC_UNIMPLEMENTED, t)
  else
    t ← grow_if_full E t;
    let index := HASH2 link (log_size t) in
    '(_, curr_dl) ← find_entry index (GC_HIDE_POINTER link) t;
    if negb (curr_dl =? NULL) then Some (GC_DUPLICATE, set_obj curr_dl obj t)
    else
      let '(new_dl, t) := GC_INTERNAL_MALLOC E t in
      if negb (new_dl =? NULL) then add_link index new_dl link obj t
      else
        let '(new_dl, t) := GC_oom_fn E t in
        if new_dl =? NULL then Some (GC_NO_MEMORY, t)
        else
          let index := HASH2 link (log_size t) in
          '(_, curr_dl) ← find_entry index (GC_HIDE_POINTER link) t;
          if negb (curr_dl =? NULL) then Some (GC_DUPLICATE, set_obj curr_dl obj t)
          else add_link index new_dl link obj t.

Definition GC_general_register_disappearing_link (GC_find_leak_inner : bool) (link obj : Z) (t : dl_hashtbl_s)
    : option (Z * dl_hashtbl_s) :=
  if misaligned link || (link =? NULL) then None
  else GC_register_disappearing_link_inner GC_find_leak_inner link obj t.

(** On [GC_ll_hashtbl]. *)
Definition GC_register_long_link (GC_find_leak_inner : bool) (link obj : Z) (t : dl_hashtbl_s)
    : option (Z * dl_hashtbl_s) :=
  if misaligned link || (link =? NULL) then None
  else GC_register_disappearing_link_inner GC_find_leak_inner link obj t.
End Links.

Definition GC_register_disappearing_link {W : Type} `{Collector W} (E : env Z) (w : W) (GC_find_leak_inner : bool)
    (link : Z) (t : dl_hashtbl_s) : option (Z * dl_hashtbl_s) :=
  let base := obj_base link w in
  if base =? NULL then None
  else GC_general_register_disappearing_link E GC_find_leak_inner link base t.

(** The entry found, or [NULL]. *)
Definition GC_unregister_disappearing_link_inner (link : Z) (t : dl_hashtbl_s) : option (Z * dl_hashtbl_s) :=
  match head t with
  | None => Some (NULL, t)
  | Some _ =>
    let index := HASH2 link (log_size t) in
    '(prev_dl, curr_dl) ← find_entry index (GC_HIDE_POINTER link) t;
    if curr_dl =? NULL then Some (curr_dl, t)
    else
      e ← nodes t !! curr_dl;
      t ← relink index prev_dl (next e) t;
      Some (curr_dl, set_entries (wrap64 (entries t - 1)) t)
  end.

(** The entry is freed. *)
Definition GC_unregister_disappearing_link (link : Z) (t : dl_hashtbl_s) : option (Z * dl_hashtbl_s) :=
  if misaligned link then Some (0, t)
  else
    '(curr_dl, t) ← GC_unregister_disappearing_link_inner link t;
    if curr_dl =? NULL then Some (0, t)
    else Some (1, set_nodes (delete curr_dl (nodes t)) t).

(** On [GC_ll_hashtbl]. *)
Definition GC_unregister_long_link (link : Z) (t : dl_hashtbl_s) : option (Z * dl_hashtbl_s) :=
  if misaligned link then Some (0, t)
  else
    '(curr_dl, t) ← GC_unregister_disappearing_link_inner link t;
    if curr_dl =? NULL then Some (0, t)
    else Some (1, set_nodes (delete curr_dl (nodes t)) t).

Definition GC_move_disappearing_link_inner (link new_link : Z) (t : dl_hashtbl_s) : option (Z * dl_hashtbl_s) :=
  match head t with
  | None => Some (GC_NOT_FOUND, t)
  | Some _ =>
    let curr_index := HASH2 link (log_size t) in
    '(prev_dl, curr_dl) ← find_entry curr_index (GC_HIDE_POINTER link) t;
    if curr_dl =? NULL then Some (GC_NOT_FOUND, t)
    else if link =? new_link then Some (GC_SUCCESS, t)
    else
      let new_index := HASH2 new_link (log_size t) in
      '(_, new_dl) ← find_entry new_index (GC_HIDE_POINTER new_link) t;
      if negb (new_dl =? NULL) then Some (GC_DUPLICATE, t)
      else
        e ← nodes t !! curr_dl;
        t ← relink curr_index prev_dl (next e) t;
        t ← push_entry new_index curr_dl (GC_HIDE_POINTER new_link) (rest e) t;
        Some (GC_SUCCESS, t)
  end.

Definition GC_move_disappearing_link (link new_link : Z) (t : dl_hashtbl_s) : option (Z * dl_hashtbl_s) :=
  if misaligned new_link || (new_link =? NULL) then None
  else if misaligned link then Some (GC_NOT_FOUND, t)
  else GC_move_disappearing_link_inner link new_link t.

(** On [GC_ll_hashtbl]. *)
Definition GC_move_long_link (link new_link : Z) (t : dl_hashtbl_s) : option (Z * dl_hashtbl_s) :=
  if misaligned new_link || (new_link =? NULL) then None
  else if misaligned link then Some (GC_NOT_FOUND, t)
  else GC_move_disappearing_link_inner link new_link t.

(** ** Making links disappear *)

Section Disappear.
Context {W : Type} `{Collector W}.

(** Whether an entry stays, with the effect on its link. *)
Definition keep_link (is_remove_dangling : bool) (e : disappearing_link) (w : W) : bool * W :=
  if is_remove_dangling then
    let real_link := obj_base (GC_REVEAL_POINTER (hidden_key e)) w in
    ((real_link =? NULL) || is_marked real_link w, w)
  else if is_marked (GC_REVEAL_POINTER (rest e)) w then (true, w)
  else (false, store_null (GC_REVEAL_POINTER (hidden_key e)) w).

(** One chain; the state is [(prev_dl, curr_dl, table, world)]. *)
Definition disappear_body (dangling : bool) (i : nat) (st : Z * Z * dl_hashtbl_s * W)
    : (Z * Z * dl_hashtbl_s * W) + option (dl_hashtbl_s * W) :=
  let '(prev_dl, curr_dl, t, w) := st in
  if curr_dl =? NULL then inr (Some (t, w))
  else match nodes t !! curr_dl with
       | None => inr None
       | Some e =>
         let next_dl := next e in
         let '(keep, w) := keep_link dangling e w in
         if keep then inl (curr_dl, next_dl, t, w)
         else match relink (Z.of_nat i) prev_dl next_dl t with
              | None => inr None
              | Some t =>
                let w := clear_mark_bit curr_dl w in
                inl (prev_dl, next_dl, set_entries (wrap64 (entries t - 1)) t, w)
              end
       end.

Definition disappear_chain (dangling : bool) (i : nat) (t : dl_hashtbl_s) (w : W) : option (dl_hashtbl_s * W) :=
  hs ← head t;
  p ← hs !! i;
  mjoin (loop (disappear_body dangling i) (NULL, p, t, w)).

Fixpoint disappear_chains (dangling : bool) (i n : nat) (t : dl_hashtbl_s) (w : W) : option (dl_hashtbl_s * W) :=
  match n with
  | O => Some (t, w)
  | S n => '(t, w) ← disappear_chain dangling i t w; disappear_chains dangling (S i) n t w
  end.

Definition GC_make_disappearing_links_disappear (is_remove_dangling : bool) (t : dl_hashtbl_s) (w : W)
    : option (dl_hashtbl_s * W) :=
  match head t with
  | None => Some (t, w)
  | Some _ => disappear_chains is_remove_dangling 0 (Z.to_nat (Z.shiftl 1 (log_size t))) t w
  end.
End Disappear.

End Links.
