(* ===== verification/FinSample.v ===== *)
(** * A small heap for finalization

    An instance of the interface [Collector] with its laws: objects with a start and a
    size, the set of marked objects, and a memory of words.  Marking follows the words
    of an object that are starts of objects.  It shows that the laws can be met, and the
    theorems on finalization are applied to it. *)

From Stdlib Require Import ZArith Lia.
From stdpp Require Import base gmap list fin_maps.
From S2P Require Import Prelude Links.

Module FinSample.

Record sheap := SHeap { objs : list (Z * Z); marked : gset Z; mem : gmap Z Z }.

Definition sload (p : Z) (w : sheap) : Z := default 0 (mem w !! p).
Definition contains (p : Z) (o : Z * Z) : bool := (o.1 <=? p) && (p <? o.1 + o.2).
Definition sbase (p : Z) (w : sheap) : Z := match filter (fun o => contains p o = true) (objs w) with [] => NULL | o :: _ => o.1 end.
Definition smark (q : Z) (w : sheap) : sheap := SHeap (objs w) ({[q]} ∪ marked w) (mem w).

(** The objects [p] points to. *)
Definition children (p : Z) (w : sheap) : list Z :=
  o ← filter (fun o => o.1 = p) (objs w);
  filter (fun q => q ∈ (objs w).*1) ((fun i => sload (o.1 + 8 * i) w) <$> seqZ 0 (o.2 / 8)).

Fixpoint trace (fuel : nat) (work : list Z) (w : sheap) : sheap :=
  match fuel, work with
  | S fuel, q :: work =>
    if decide (q ∈ marked w) then trace fuel work w else trace fuel (children q w ++ work) (smark q w)
  | _, _ => w
  end.

Definition strace (p : Z) (r : finalization_mark_proc) (w : sheap) : sheap :=
  match r with
  | GC_null_finalize_mark_proc => w
  | GC_ignore_self_finalize_mark_proc => trace 64 (filter (fun q => q <> p) (children p w)) w
  | _ => trace 64 (children p w) w
  end.

#[export] Instance sheap_collector : Collector sheap := {
  is_marked q w := bool_decide (q ∈ marked w);
  set_mark_bit := smark;
  clear_mark_bit q w := SHeap (objs w) (marked w ∖ {[q]}) (mem w);
  obj_base := sbase;
  mark_fo := strace;
  complete_collection w := w;
  load := sload;
  store_null p w := SHeap (objs w) (marked w) (<[p := 0]> (mem w))
}.

Lemma trace_frame (fuel : nat) (work : list Z) (w : sheap) :
  objs (trace fuel work w) = objs w /\ mem (trace fuel work w) = mem w /\ marked w ⊆ marked (trace fuel work w).
Proof.
  revert work w. induction fuel as [|fuel IH]; intros work w; [done|]. destruct work as [|q work]; [done|]. cbn.
  destruct (decide (q ∈ marked w)); [apply IH|]. destruct (IH (children q w ++ work) (smark q w)) as (-> & -> & H).
  split_and!; [done..|]. cbn in H. set_solver.
Qed.

Lemma strace_frame (p : Z) (r : finalization_mark_proc) (w : sheap) :
  objs (strace p r w) = objs w /\ mem (strace p r w) = mem w /\ marked w ⊆ marked (strace p r w).
Proof. destruct r; [apply trace_frame..|done|apply trace_frame]. Qed.

#[export] Instance sheap_laws : CollectorLaws sheap.
Proof.
  refine {| obj w p := p ∈ (objs w).*1 |}; intros; cbn; try done.
  - by rewrite (proj1 (strace_frame p r w)).
  - rewrite <- bool_decide_or. apply bool_decide_ext. set_solver.
  - rewrite <- bool_decide_not, <- bool_decide_and. apply bool_decide_ext. set_solver.
  - match goal with H : is_marked q w = true |- _ => apply bool_decide_eq_true in H end. apply bool_decide_eq_true. by apply strace_frame.
  - unfold sbase. by rewrite (proj1 (strace_frame p r w)).
  - match goal with H : obj_base p w <> NULL |- _ => cbn in H; revert H end. unfold sbase.
    destruct (filter _ (objs w)) as [|o l] eqn:E; [done|]. intros _. apply list_elem_of_fmap_2.
    assert (Ho : o ∈ o :: l) by by left. rewrite <- E in Ho. by apply list_elem_of_filter in Ho as [_ ?].
  - unfold sload. by rewrite (proj1 (proj2 (strace_frame p r w))).
  - unfold sload. cbn. rewrite lookup_insert. by destruct (decide (p = q)).
Defined.

End FinSample.
