(* ===== verification/LinksOk.v ===== *)
(** * Correctness of disappearing links

    [links cs] is the finite map from registered links to their objects.  Registration,
    removal and moving are the operations of this map, with the entry count kept exact;
    making links disappear filters the map by the marks and clears exactly the links
    it removes. *)

From Stdlib Require Import ZArith Lia.
From stdpp Require Import base gmap list fin_maps.
From S2P Require Import Prelude FinTable FinTableOk Links FinSample.
Import FinTable FinTableOk Links FinSample.

Module LinksOk.

Notation cell := (Z * (Z * Z))%type.
Notation chains := (list (list cell)).

Definition links (cs : chains) : gmap Z Z := GC_REVEAL_POINTER <$> contents cs.

Lemma links_None (cs : chains) (k : Z) : links cs !! k = None <-> contents cs !! k = None.
Proof. unfold links. rewrite lookup_fmap. destruct (contents cs !! k); done. Qed.


Lemma links_delete (cs cs' : chains) (k : Z) :
  contents cs' = delete k (contents cs) -> links cs' = delete k (links cs).
Proof. intros H. unfold links. by rewrite H, fmap_delete. Qed.





Lemma unregister_inner_spec (link : Z) (t : hashtbl Z) (cs : chains) (ql : list cell) :
  frep t cs ql ->
  exists a t' cs', GC_unregister_disappearing_link_inner link t = Some (a, t')
  /\ frep t' cs' ql /\ links cs' = delete link (links cs)
  /\ (a = NULL <-> links cs !! link = None) /\ a ∉ addrs (ql ++ concat cs').
Proof.
  intros F. unfold GC_unregister_disappearing_link_inner. destruct (head t) as [hs|] eqn:Eh.
  2: { pose proof F as ((_ & Hh & _ & _ & _ & Har & _) & _ & _ & Harq). rewrite Eh in Hh. destruct Hh as [-> _].
       exists NULL, t, []. split_and!; [done..|]. intros H. rewrite app_nil_r in H. specialize (Harq _ H). lia. }
  destruct (rep_find t cs link (proj1 F)) as ([pr cu] & -> & Hr); [by rewrite Eh|]. cbn [mbind option_bind].
  destruct Hr as [[Hcu Hk]|(i & l1 & a & v & l2 & Fo & Ha & Hpc)].
  - cbn in Hcu. subst cu. rewrite Z.eqb_refl. exists NULL, t, cs. apply links_None in Hk. split_and!; [done..| |done|].
    + by rewrite delete_id.
    + intros H. rewrite addrs_app in H. pose proof F as ((_ & _ & _ & _ & _ & Har & _) & _ & _ & Harq).
      apply elem_of_app in H as [H|H]; [specialize (Harq _ H)|specialize (Har _ H)]; lia.
  - injection Hpc as -> ->. rewrite (proj2 (Z.eqb_neq _ _) Ha).
    destruct (found_node t cs link a i v l1 l2 (proj1 F) Fo) as (n & En & _). rewrite En. cbn [mbind option_bind].
    destruct (frep_unlink t cs ql link a i v l1 l2 _ F Fo En) as (t' & -> & F' & Hp & Hc & _). cbn [mbind option_bind].
    eexists a, _, _. split_and!; [done|exact F'|by apply links_delete| |].
    + split; [done|]. rewrite links_None, (found_contents t cs link a i v l1 l2 (proj1 F) Fo). done.
    + destruct F as (_ & _ & Hn & _). rewrite addrs_app in *. unfold addrs in *. rewrite Hp in Hn. cbn in Hn.
      rewrite <- Permutation_middle in Hn. by apply NoDup_cons in Hn as [? _].
Qed.

Lemma frep_delete (t : hashtbl Z) (cs : chains) (ql : list cell) (a : Z) :
  frep t cs ql -> a ∉ addrs (ql ++ concat cs) -> frep (set_nodes (delete a (nodes t)) t) cs ql.
Proof. intros F Ha. apply frep_nodes; [done|]. intros b Hb. apply lookup_delete_ne. by intros ->. Qed.

Lemma misaligned_false (p : Z) : misaligned p = false <-> p mod 8 = 0.
Proof.
  unfold misaligned. change (ALIGNMENT - 1) with (2 ^ 3 - 1). rewrite land_low_mask by lia. change (2 ^ 3) with 8.
  destruct (Z.eqb_spec (p mod 8) 0); cbn; split; done.
Qed.

Lemma unregister_spec (link : Z) (t : hashtbl Z) (cs : chains) (ql : list cell) :
  frep t cs ql -> link mod 8 = 0 ->
  exists r t' cs', GC_unregister_disappearing_link link t = Some (r, t')
  /\ frep t' cs' ql /\ links cs' = delete link (links cs)
  /\ r = if decide (links cs !! link = None) then 0 else 1.
Proof.
  intros F Hal. unfold GC_unregister_disappearing_link. rewrite (proj2 (misaligned_false link) Hal).
  destruct (unregister_inner_spec link t cs ql F) as (a & t' & cs' & -> & F' & Hl & Hn & Ha). cbn [mbind option_bind].
  destruct (Z.eqb_spec a NULL) as [->|Hne].
  - exists 0, t', cs'. split_and!; [done..|]. rewrite decide_True by tauto. done.
  - eexists 1, _, cs'. split_and!; [done|by apply frep_delete|done|]. rewrite decide_False by tauto. done.
Qed.

Lemma move_spec (link new_link : Z) (t : hashtbl Z) (cs : chains) (ql : list cell) :
  frep t cs ql ->
  exists r t' cs', GC_move_disappearing_link_inner link new_link t = Some (r, t') /\ frep t' cs' ql
  /\ match links cs !! link with
     | None => r = GC_NOT_FOUND /\ cs' = cs
     | Some obj =>
       if decide (link = new_link) then r = GC_SUCCESS /\ cs' = cs
       else if decide (links cs !! new_link = None)
       then r = GC_SUCCESS /\ links cs' = <[new_link := obj]> (delete link (links cs))
       else r = GC_DUPLICATE /\ cs' = cs
     end.
Proof.
  intros F. unfold GC_move_disappearing_link_inner. destruct (head t) as [hs|] eqn:Eh.
  2: { pose proof F as ((_ & Hh & _) & _). rewrite Eh in Hh. destruct Hh as [-> _].
       by exists GC_NOT_FOUND, t, []. }
  assert (Hh : head t <> None) by by rewrite Eh.
  destruct (rep_find t cs link (proj1 F) Hh) as ([pr cu] & -> & Hr). cbn [mbind option_bind].
  destruct Hr as [[Hcu Hk]|(i & l1 & a & v & l2 & Fo & Ha & Hpc)].
  { cbn in Hcu. subst cu. rewrite Z.eqb_refl. exists GC_NOT_FOUND, t, cs. apply links_None in Hk. by rewrite Hk. }
  injection Hpc as -> ->. rewrite (proj2 (Z.eqb_neq _ _) Ha).
  assert (Hc : contents cs !! link = Some v) by (eapply found_contents; [apply F|done]).
  assert (Hl : links cs !! link = Some (GC_REVEAL_POINTER v)) by (unfold links; by rewrite lookup_fmap, Hc). rewrite Hl.
  destruct (Z.eqb_spec link new_link) as [->|Hne].
  { exists GC_SUCCESS, t, cs. rewrite decide_True by done. done. }
  destruct (decide (link = new_link)) as [|_]; [done|].
  destruct (rep_find t cs new_link (proj1 F) Hh) as ([pr' cu'] & -> & Hr). cbn [mbind option_bind].
  destruct Hr as [[Hcu Hk]|(i' & l1' & a' & v' & l2' & Fo' & Ha' & Hpc)].
  2: { injection Hpc as -> ->. rewrite (proj2 (Z.eqb_neq _ _) Ha'). cbn [negb]. exists GC_DUPLICATE, t, cs.
       rewrite decide_False; [done|]. rewrite links_None, (found_contents t cs new_link a' i' v' l1' l2' (proj1 F) Fo'). done. }
  cbn in Hcu. subst cu'. rewrite Z.eqb_refl. cbn [negb].
  destruct (decide (links cs !! new_link = None)) as [_|Hno]; [|by destruct Hno; apply links_None].
  destruct (found_node t cs link a i v l1 l2 (proj1 F) Fo) as (n & En & _). rewrite En. cbn [mbind option_bind rest next].
  destruct (frep_unlink t cs ql link a i v l1 l2 _ F Fo En) as (t1 & E1 & F1 & Hp & Hc1 & Hlg & Hh1 & _ & R1).
  cbn [next] in E1. rewrite E1. cbn [mbind option_bind].
  assert (F1' : frep (set_entries (entries t1 - 1) t1) (<[i := l1 ++ l2]> cs) ql).
  { destruct F1 as (_ & ? & ? & ?). by split_and!. }
  destruct (frep_push _ _ ql new_link a v F1') as (t2 & cs2 & E2 & F2 & Hc2 & _ & He2 & _ & Hf2 & R2 & _); [done|..].
  - rewrite Hc1. rewrite lookup_delete_ne by done. done.
  - destruct F as (_ & _ & Hn & _). rewrite addrs_app in *. unfold addrs in *. rewrite Hp in Hn. cbn in Hn.
    rewrite <- Permutation_middle in Hn. by apply NoDup_cons in Hn as [? _].
  - by destruct (frep_found_fresh t cs ql link a i v l1 l2 F Fo) as (_ & _ & ?).
  - unfold push_entry in E2 |- *. cbn [head set_entries log_size nodes finalize_now entries] in E2. rewrite <- Hlg.
    destruct (head t1) as [hs1|]; [|done]. cbn [mbind option_bind] in E2 |- *.
    destruct (hs1 !! _) as [p1|]; [|done]. cbn [mbind option_bind] in E2 |- *. injection E2 as <-.
    cbn [entries set_entries] in R2, He2.
    eexists GC_SUCCESS, _, cs2. split_and!; [done| |done|].
    + destruct F2 as (_ & ? & ? & ?). split_and!; [|done..]. cbn [set_entries head finalize_now entries log_size nodes] in R2.
      replace (entries t1 - 1 + 1) with (entries t1) in R2 by lia. exact R2.
    + unfold links. rewrite Hc2, Hc1, fmap_insert, fmap_delete. done.
Qed.

(** ** Making links disappear *)

Section Disappear.
Context {W : Type} `{CW : Collector W} `{!CollectorLaws W}.
Implicit Types (w : W) (c : cell) (l R : list cell) (cs : chains).

(** Whether the entry [c] stays, by the marks of [w]. *)
Definition keeps (dangling : bool) w c : bool :=
  if dangling then (obj_base c.2.1 w =? NULL) || is_marked (obj_base c.2.1 w) w
  else is_marked (GC_REVEAL_POINTER c.2.2) w.

(** Links are aligned words, and the entries, which are objects of the heap as well,
    are neither objects of links nor contain links. *)
Definition clients w cs : Prop :=
  forall c, c ∈ concat cs -> obj w c.1 /\ obj w (GC_REVEAL_POINTER c.2.2) /\ c.2.1 mod 8 = 0
  /\ GC_REVEAL_POINTER c.2.2 ∉ addrs (concat cs) /\ obj_base c.2.1 w ∉ addrs (concat cs).

(** [w] is [w0] after the entries [R] were removed. *)
Definition removed (dangling : bool) w0 R w : Prop :=
  (forall q, obj w q <-> obj w0 q) /\ (forall q, obj_base q w = obj_base q w0)
  /\ (forall q, obj w0 q -> is_marked q w = is_marked q w0 && negb (bool_decide (q ∈ addrs R)))
  /\ (forall q, q mod 8 = 0 -> load q w = if negb dangling && bool_decide (q ∈ keys R) then NULL else load q w0).

Lemma removed_nil (dangling : bool) w : removed dangling w [] w.
Proof.
  split_and!; [done..| |].
  - intros q _. rewrite bool_decide_false by apply not_elem_of_nil. by rewrite andb_true_r.
  - intros q _. rewrite bool_decide_false by apply not_elem_of_nil. by rewrite andb_false_r.
Qed.

Lemma removed_snoc (dangling : bool) w0 R w c :
  removed dangling w0 R w -> obj w0 c.1 -> c.2.1 mod 8 = 0 ->
  removed dangling w0 (R ++ [c])
    (clear_mark_bit c.1 (if dangling then w else store_null c.2.1 w)).
Proof.
  intros (Ho & Hb & Hm & Hl) Hc Hal. set (w1 := if dangling then w else store_null c.2.1 w).
  assert (Ho1 : forall q, obj w1 q <-> obj w0 q) by (intros q; subst w1; destruct dangling; rewrite ?obj_store; apply Ho).
  split_and!.
  - intros q. by rewrite obj_clear_mark.
  - intros q. rewrite base_clear. subst w1. destruct dangling; rewrite ?base_store; apply Hb.
  - intros q Hq. rewrite marked_clear by by apply Ho1.
    assert (is_marked q w1 = is_marked q w) as -> by (subst w1; destruct dangling; by rewrite ?marked_store).
    rewrite Hm, addrs_app by done.
    assert (bool_decide (q ∈ addrs R ++ addrs [c]) = bool_decide (q ∈ addrs R) || bool_decide (c.1 = q)) as ->.
    { rewrite <- bool_decide_or. apply bool_decide_ext. cbn. set_solver. }
    destruct (bool_decide (c.1 = q)), (is_marked q w0), (bool_decide (q ∈ addrs R)); done.
  - intros q Hq. rewrite load_clear. specialize (Hl q Hq). subst w1. rewrite keys_app.
    assert (bool_decide (q ∈ keys R ++ keys [c]) = bool_decide (q ∈ keys R) || bool_decide (c.2.1 = q)) as ->.
    { rewrite <- bool_decide_or. apply bool_decide_ext. cbn. set_solver. }
    destruct dangling; cbn [negb andb] in *; [done|]. rewrite load_store by done. rewrite Hl.
    destruct (decide (c.2.1 = q)) as [->|Hne].
    + rewrite (bool_decide_true (q = q)) by done. by rewrite orb_true_r.
    + rewrite (bool_decide_false (c.2.1 = q)) by done. by rewrite orb_false_r.
Qed.

Lemma removed_keeps (dangling : bool) w0 R w cs0 c :
  removed dangling w0 R w -> clients w0 cs0 -> c ∈ concat cs0 -> (forall x, x ∈ R -> x ∈ concat cs0) ->
  keeps dangling w c = keeps dangling w0 c.
Proof.
  intros (Ho & Hb & Hm & Hl) Hcl Hc HR. destruct (Hcl c Hc) as (Ho1 & Ho2 & Hal & Hn1 & Hn2).
  assert (HRa : forall q, q ∈ addrs R -> q ∈ addrs (concat cs0)).
  { intros q (x & -> & Hx)%list_elem_of_fmap. by apply list_elem_of_fmap_2, HR. }
  unfold keeps. destruct dangling.
  - rewrite Hb. destruct (Z.eqb_spec (obj_base c.2.1 w0) NULL) as [|Hne]; [done|]. cbn [orb].
    rewrite Hm by by apply base_obj. rewrite bool_decide_false by (intros H; by apply Hn2, HRa). by rewrite andb_true_r.
  - rewrite Hm by done. rewrite bool_decide_false by (intros H; by apply Hn1, HRa). by rewrite andb_true_r.
Qed.

Definition stay (dangling : bool) w l : list cell := filter (fun c => keeps dangling w c = true) l.
Definition gone (dangling : bool) w l : list cell := filter (fun c => keeps dangling w c <> true) l.

Lemma disappear_chain_spec (dangling : bool) w0 cs0 (i : nat) (t : hashtbl Z) w cs ql l R :
  clients w0 cs0 -> frep t cs ql -> cs !! i = Some l -> (forall x, x ∈ l ++ R -> x ∈ concat cs0) ->
  removed dangling w0 R w ->
  exists t' w', disappear_chain dangling i t w = Some (t', w')
  /\ frep t' (<[i := stay dangling w0 l]> cs) ql /\ removed dangling w0 (R ++ gone dangling w0 l) w'
  /\ log_size t' = log_size t /\ head t' <> None.
Proof.
  intros Hcl F Hl Hin HR. destruct (rep_head t cs i l (proj1 F) Hl) as [hs Eh].
  destruct (rep_bucket_chain t cs hs i l (proj1 F) Eh Hl) as (p & Hp & Hc).
  unfold disappear_chain. rewrite Eh. cbn [mbind option_bind]. rewrite Hp. cbn [mbind option_bind].
  apply lookup_lt_Some in Hl as Hi.
  destruct (loop_spec_rel
    (fun n '(pr, cu, t', w') => exists l1 l2, l = l1 ++ l2 /\ n = length l2
       /\ frep t' (<[i := stay dangling w0 l1 ++ l2]> cs) ql /\ pr = last_addr NULL (stay dangling w0 l1)
       /\ cu = first_addr l2 /\ removed dangling w0 (R ++ gone dangling w0 l1) w' /\ log_size t' = log_size t /\ head t' <> None)
    (fun o => exists t' w', o = Some (t', w') /\ frep t' (<[i := stay dangling w0 l]> cs) ql
       /\ removed dangling w0 (R ++ gone dangling w0 l) w' /\ log_size t' = log_size t /\ head t' <> None)
    (disappear_body dangling i) (length l) (NULL, p, t, w)) as (o & -> & t' & w' & -> & H); [| | |by exists t', w'].
  - intros n [[[pr cu] t'] w'] (l1 & l2 & -> & -> & F' & -> & -> & HR' & Hlg & Hh').
    destruct l2 as [|c l2].
    { rewrite !app_nil_r in *. cbn. by exists t', w'. }
    assert (Hl' : <[i := stay dangling w0 l1 ++ c :: l2]> cs !! i = Some (stay dangling w0 l1 ++ c :: l2)) by by apply list_lookup_insert_eq.
    destruct c as [a [k v]]. assert (Hcin : (a, (k, v)) ∈ concat cs0) by (apply Hin; set_solver).
    assert (Hh : HASH2 k (log_size t') = Z.of_nat i).
    { eapply bucket_hash; [apply F'|exact Hl'|]. rewrite keys_app. set_solver. }
    assert (Fo : found t' (<[i := stay dangling w0 l1 ++ (a, (k, v)) :: l2]> cs) k i (stay dangling w0 l1) a v l2).
    { split; [by rewrite Hh, Nat2Z.id|done]. }
    destruct (found_node t' _ k a i v _ l2 (proj1 F') Fo) as (n & En & Hn). apply seg_first in Hn.
    destruct (frep_found_fresh t' _ ql k a i v _ l2 F' Fo) as (_ & _ & Ha).
    assert (Hkeep : keeps dangling w' (a, (k, v)) = keeps dangling w0 (a, (k, v))).
    { eapply removed_keeps; [exact HR'|exact Hcl|done|]. intros x [Hx|Hx]%elem_of_app; [by apply Hin; set_solver|].
      apply list_elem_of_filter in Hx as [_ Hx]. apply Hin. set_solver. }
    destruct (Hcl _ Hcin) as (Ho1 & _ & Hal & _). cbn [fst snd] in Ho1, Hal.
    assert (Hbody : keep_link dangling (Entry (GC_HIDE_POINTER k) n v) w'
      = (keeps dangling w0 (a, (k, v)), if dangling then w' else if keeps dangling w0 (a, (k, v)) then w' else store_null k w')).
    { rewrite <- Hkeep. unfold keep_link, keeps. cbn [hidden_key rest fst snd]. rewrite reveal_hide.
      destruct dangling; [done|]. by destruct (is_marked _ _). }
    cbn [disappear_body first_addr fst]. rewrite (proj2 (Z.eqb_neq a NULL)) by lia. rewrite En, Hbody. cbn [next].
    destruct (keeps dangling w0 (a, (k, v))) eqn:Ek.
    + exists (length l2). cbn [length]. split; [lia|]. exists (l1 ++ [(a, (k, v))]), l2.
      assert (Es : stay dangling w0 (l1 ++ [(a, (k, v))]) = stay dangling w0 l1 ++ [(a, (k, v))]).
      { unfold stay. rewrite filter_app, filter_cons_True by done. done. }
      assert (Eg : gone dangling w0 (l1 ++ [(a, (k, v))]) = gone dangling w0 l1).
      { unfold gone. rewrite filter_app, filter_cons_False by tauto. by rewrite filter_nil, app_nil_r. }
      rewrite Es, Eg, <- !app_assoc, last_addr_snoc. split_and!; try done. by destruct dangling.
    + destruct (frep_unlink t' _ ql k a i v _ l2 _ F' Fo En) as (t2 & E2 & F2 & _ & _ & Hlg2 & Hh2 & _).
      rewrite Hh in E2. cbn [next] in E2. rewrite E2. rewrite list_insert_insert_eq in F2.
      exists (length l2). cbn [length]. split; [lia|]. exists (l1 ++ [(a, (k, v))]), l2.
      assert (Es : stay dangling w0 (l1 ++ [(a, (k, v))]) = stay dangling w0 l1).
      { unfold stay. rewrite filter_app, filter_cons_False by congruence. by rewrite filter_nil, app_nil_r. }
      assert (Eg : gone dangling w0 (l1 ++ [(a, (k, v))]) = gone dangling w0 l1 ++ [(a, (k, v))]).
      { unfold gone. rewrite filter_app, filter_cons_True by congruence. done. }
      rewrite Es, Eg, <- app_assoc, (app_assoc R). cbn [log_size set_entries head]. split_and!; try done; [|congruence].
      apply (removed_snoc dangling w0 _ w' (a, (k, v))) in HR'; [|done..]. by destruct dangling.
  - exists [], l. apply seg_first in Hc. change (stay dangling w0 [] ++ l) with l.
    change (gone dangling w0 []) with (@nil cell). rewrite app_nil_r.
    rewrite (list_insert_id cs i l Hl). split_and!; try done. by rewrite Eh.
  - pose proof (rep_length t cs (proj1 F)) as HW. destruct (concat_lookup cs i l Hl) as (A & D & EE & _).
    rewrite EE, !length_app in HW. lia.
Qed.

Lemma disappear_chains_spec (dangling : bool) w0 cs0 (n i : nat) (t : hashtbl Z) w cs ql R :
  clients w0 cs0 -> frep t cs ql -> (i + n = length cs)%nat -> (forall x, x ∈ concat (drop i cs) ++ R -> x ∈ concat cs0) ->
  removed dangling w0 R w -> head t <> None ->
  exists t' w', disappear_chains dangling i n t w = Some (t', w')
  /\ frep t' (take i cs ++ (stay dangling w0 <$> drop i cs)) ql
  /\ removed dangling w0 (R ++ gone dangling w0 (concat (drop i cs))) w'
  /\ log_size t' = log_size t /\ head t' <> None.
Proof.
  intros Hcl. revert i t w cs R. induction n as [|n IH]; intros i t w cs R F Hn Hin HR Hh.
  - exists t, w. rewrite drop_ge, take_ge by lia. cbn. change (gone dangling w0 []) with (@nil cell). rewrite !app_nil_r. done.
  - destruct (lookup_lt_is_Some_2 cs i) as [l Hl]; [lia|]. rewrite (drop_S cs l i Hl) in *. cbn [concat] in Hin.
    destruct (disappear_chain_spec dangling w0 cs0 i t w cs ql l R) as (t1 & w1 & E1 & F1 & HR1 & Hlg1 & Hh1); try done.
    { intros x Hx. apply Hin. set_solver. }
    destruct (IH (S i) t1 w1 (<[i := stay dangling w0 l]> cs) (R ++ gone dangling w0 l)) as (t2 & w2 & E2 & F2 & HR2 & Hlg2 & Hh2); try done.
    { rewrite length_insert. lia. }
    { rewrite drop_insert_lt by lia. intros x [Hx|[Hx|Hx]%elem_of_app]%elem_of_app; apply Hin; [set_solver..|].
      apply list_elem_of_filter in Hx as [_ Hx]. set_solver. }
    exists t2, w2. cbn [disappear_chains]. rewrite E1. cbn [mbind option_bind]. rewrite E2.
    rewrite drop_insert_lt in F2, HR2 by lia. split_and!; [done| | |congruence|done].
    + erewrite take_S_r in F2 by (apply list_lookup_insert_eq; lia). rewrite take_insert_ge in F2 by lia.
      rewrite <- app_assoc in F2. exact F2.
    + cbn [concat]. unfold gone in *. rewrite filter_app, app_assoc. exact HR2.
Qed.

Lemma concat_stay (dangling : bool) w cs : concat (stay dangling w <$> cs) = stay dangling w (concat cs).
Proof. induction cs as [|l cs IH]; [done|]. cbn. unfold stay in *. by rewrite filter_app, IH. Qed.

(** The links that stay, and what becomes of the world. *)
Lemma disappear_spec (dangling : bool) (t : hashtbl Z) w cs ql :
  frep t cs ql -> clients w cs ->
  exists t' w' cs', GC_make_disappearing_links_disappear dangling t w = Some (t', w')
  /\ frep t' cs' ql /\ concat cs' = stay dangling w (concat cs) /\ removed dangling w (gone dangling w (concat cs)) w'
  /\ log_size t' = log_size t.
Proof.
  intros F Hcl. unfold GC_make_disappearing_links_disappear. pose proof F as ((Hlg & Hh & _) & _).
  destruct (head t) as [hs|] eqn:Eh.
  - destruct Hh as [Hlen HF].
    destruct (disappear_chains_spec dangling w cs (Z.to_nat (Z.shiftl 1 (log_size t))) 0 t w cs ql []) as (t' & w' & E & F' & HR & Hl' & _).
    + done.
    + done.
    + rewrite Z.shiftl_1_l, <- Hlen, Nat2Z.id. cbn. by eapply Forall2_length.
    + intros x. by rewrite drop_0, app_nil_r.
    + apply removed_nil.
    + by rewrite Eh.
    + rewrite drop_0, take_0 in *. exists t', w', (stay dangling w <$> cs). rewrite concat_stay. done.
  - destruct Hh as [-> _]. exists t, w, []. split_and!; try done. apply removed_nil.
Qed.
End Disappear.

(** ** Theorems *)


(** Unregistering removes exactly the given link and says whether it was there. *)
Theorem GC_unregister_disappearing_link_correct (link : Z) (t : hashtbl Z) (cs : chains) (ql : list cell)
    (F : frep t cs ql) (Hal : link mod 8 = 0) :
  exists r t' cs', GC_unregister_disappearing_link link t = Some (r, t')
  /\ frep t' cs' ql /\ links cs' = delete link (links cs)
  /\ r = if decide (links cs !! link = None) then 0 else 1.
Proof. by apply unregister_spec. Qed.

(** Moving a link succeeds exactly when it is registered and the new place is free (or the
    same); then its object is registered under the new link only. *)
Theorem GC_move_disappearing_link_inner_correct (link new_link : Z) (t : hashtbl Z) (cs : chains) (ql : list cell) (F : frep t cs ql) :
  exists r t' cs', GC_move_disappearing_link_inner link new_link t = Some (r, t') /\ frep t' cs' ql
  /\ match links cs !! link with
     | None => r = GC_NOT_FOUND /\ cs' = cs
     | Some obj =>
       if decide (link = new_link) then r = GC_SUCCESS /\ cs' = cs
       else if decide (links cs !! new_link = None)
       then r = GC_SUCCESS /\ links cs' = <[new_link := obj]> (delete link (links cs))
       else r = GC_DUPLICATE /\ cs' = cs
     end.
Proof. by apply move_spec. Qed.

(** Making links disappear ends; the entries left are those whose object is marked (in the
    second pass: whose link is outside the heap or in a marked object), in their old order;
    the links removed in the first pass are cleared, no other aligned word changes, and the
    only marks that change are those of the removed entries. *)
Theorem GC_make_disappearing_links_disappear_correct {W : Type} `{CollectorLaws W} (dangling : bool) (t : hashtbl Z) (w : W)
    (cs : chains) (ql : list cell) (F : frep t cs ql) (Hc : clients w cs) :
  exists t' w' cs', GC_make_disappearing_links_disappear dangling t w = Some (t', w')
  /\ frep t' cs' ql /\ concat cs' = stay dangling w (concat cs) /\ removed dangling w (gone dangling w (concat cs)) w'.
Proof. destruct (disappear_spec dangling t w cs ql F Hc) as (t' & w' & cs' & ? & ? & ? & ? & _). by exists t', w', cs'. Qed.


(** A heap with a marked object at 4128, whose first word is a link to the unmarked object at
    4096; the entry of the link is at 8192. *)
Definition sample_heap : sheap :=
  SHeap [(4096, 32); (4128, 32); (8192, 32)] {[4128; 8192]} {[ 4128 := 4096 ]}.

Lemma GC_make_disappearing_links_disappear_correct_witness :
  exists t' w', GC_make_disappearing_links_disappear false (one_entry 8192 4128 (GC_HIDE_POINTER 4096)) sample_heap = Some (t', w')
  /\ load 4128 w' = NULL /\ is_marked 4128 w' = true.
Proof.
  destruct (GC_make_disappearing_links_disappear_correct false (one_entry 8192 4128 (GC_HIDE_POINTER 4096)) sample_heap
    [[(8192, (4128, GC_HIDE_POINTER 4096))]; []] []) as (t' & w' & cs' & E & F & Hc & _ & _ & Hm & Hl).
  - apply frep_one; [done|unfold W64; lia].
  - intros c Hc. apply list_elem_of_singleton in Hc. subst c. vm_compute. split_and!; try (repeat constructor); try done;
      intros Hx; apply list_elem_of_singleton in Hx; done.
  - exists t', w'. split_and!; [done| |].
    + rewrite (Hl 4128) by done. by vm_compute.
    + rewrite (Hm 4128); [by vm_compute|]. vm_compute. right. left.
Defined.
End LinksOk.
