(* ===== verification/Toggle.v ===== *)
(** * Toggle-refs (finalize.c)

    The array of toggle-refs: words that are either plain (strong) or hidden (weak)
    pointers, told apart by their lowest bit.  [GC_toggleref_arr] is the address of the
    array with its words, [None] before the first use.  [None] as a result is an abort
    or an access outside the array. *)

From Stdlib Require Import ZArith Lia.
From stdpp Require Import base gmap list.
From S2P Require Import Prelude FinTable Links.
Import FinTable Links.

Module Toggle.

Definition GC_TOGGLE_REF_DROP : Z := 0.
Definition GC_TOGGLE_REF_STRONG : Z := 1.
Definition GC_TOGGLE_REF_WEAK : Z := 2.

Record toggle_state := ToggleState {
  GC_toggleref_arr : option (Z * list Z);
  GC_toggleref_array_size : Z;
  GC_toggleref_array_capacity : Z
}.

Definition set_arr (a : option (Z * list Z)) (s : toggle_state) : toggle_state :=
  ToggleState a (GC_toggleref_array_size s) (GC_toggleref_array_capacity s).
Definition set_array_size (n : Z) (s : toggle_state) : toggle_state :=
  ToggleState (GC_toggleref_arr s) n (GC_toggleref_array_capacity s).
Definition set_capacity (n : Z) (s : toggle_state) : toggle_state :=
  ToggleState (GC_toggleref_arr s) (GC_toggleref_array_size s) n.

Definition words (s : toggle_state) : list Z := match GC_toggleref_arr s with Some (_, l) => l | None => [] end.
Definition set_words (l : list Z) (s : toggle_state) : toggle_state :=
  set_arr (match GC_toggleref_arr s with Some (p, _) => Some (p, l) | None => None end) s.

Definition is_hidden (x : Z) : bool := negb (Z.land x 1 =? 0).
Definition ref_obj (x : Z) : Z := if is_hidden x then GC_REVEAL_POINTER x else x.

(** The loop of [GC_process_togglerefs], in place; the state is [(i, new_size, words)]. *)
Definition process_body (callback : Z -> Z) (size : nat) (st : nat * nat * list Z)
    : (nat * nat * list Z) + option (nat * list Z) :=
  let '(i, new_size, ws) := st in
  if (i <? size)%nat then
    match ws !! i with
    | None => inr None
    | Some r =>
      let obj := ref_obj r in
      if obj =? NULL then inl (S i, new_size, ws)
      else
        let status := callback obj in
        if status =? GC_TOGGLE_REF_DROP then inl (S i, new_size, ws)
        else if status =? GC_TOGGLE_REF_STRONG then inl (S i, S new_size, <[new_size := obj]> ws)
        else if status =? GC_TOGGLE_REF_WEAK then inl (S i, S new_size, <[new_size := GC_HIDE_POINTER obj]> ws)
        else inr None
    end
  else inr (Some (new_size, ws)).

Definition GC_process_togglerefs (callback : Z -> Z) (s : toggle_state) : option toggle_state :=
  let size := Z.to_nat (GC_toggleref_array_size s) in
  '(new_size, ws) ← mjoin (loop (process_body callback size) (0%nat, 0%nat, words s));
  if (new_size <? size)%nat then
    let ws := take new_size ws ++ replicate (size - new_size) 0 ++ drop size ws in
    Some (set_array_size (Z.of_nat new_size) (set_words ws s))
  else Some (set_words ws s).

Section Marks.
Context {W : Type} `{Collector W}.

(** The strong references among the first words, marked through. *)
Fixpoint mark_refs (ws : list Z) (w : W) : W :=
  match ws with
  | [] => w
  | obj :: ws =>
    let w := if negb (obj =? NULL) && negb (is_hidden obj) then
               let w := mark_fo obj GC_normal_finalize_mark_proc w in
               let w := set_mark_bit obj w in
               complete_collection w
             else w in
    mark_refs ws w
  end.

Definition GC_mark_togglerefs (s : toggle_state) (w : W) : W :=
  match GC_toggleref_arr s with
  | None => w
  | Some (p, ws) => mark_refs (take (Z.to_nat (GC_toggleref_array_size s)) ws) (set_mark_bit p w)
  end.

Definition clear_ref (w : W) (x : Z) : Z :=
  if is_hidden x && negb (is_marked (GC_REVEAL_POINTER x) w) then 0 else x.

Definition GC_clear_togglerefs (s : toggle_state) (w : W) : toggle_state :=
  let n := Z.to_nat (GC_toggleref_array_size s) in
  set_words ((clear_ref w <$> take n (words s)) ++ drop n (words s)) s.
End Marks.

(** ** Registration *)

Section Add.
(** The allocator: the array for a number of bytes, [NULL] for none, and what a
    collection may have done to the toggle-refs. *)
Context (malloc : Z -> toggle_state -> Z * toggle_state).

Definition capacity_body (needed : Z) (cap : Z) : Z + (bool * Z) :=
  if cap <? needed then
    let cap := wrap64 (cap * 2) in
    if negb (Z.land cap (Z.shiftl 1 63) =? 0) then inr (false, cap) else inl cap
  else inr (true, cap).

Definition new_words (bytes : Z) : list Z := replicate (Z.to_nat (bytes / 8)) 0.

Definition first_array (s : toggle_state) : bool * toggle_state :=
  match GC_toggleref_arr s with
  | Some _ => (true, s)
  | None =>
    let s := set_capacity 32 s in
    let bytes := wrap64 (GC_toggleref_array_capacity s * 8) in
    let '(p, s) := malloc bytes s in
    if p =? NULL then (false, s) else (true, set_arr (Some (p, new_words bytes)) s)
  end.

Definition ensure_toggleref_capacity (capacity_inc : Z) (s : toggle_state) : option (bool * toggle_state) :=
  let '(ok, s) := first_array s in
  if negb ok then Some (false, s)
  else if GC_toggleref_array_capacity s <=? wrap64 (GC_toggleref_array_size s + capacity_inc) then
    '(ok, cap) ← loop (capacity_body (wrap64 (GC_toggleref_array_size s + capacity_inc))) (GC_toggleref_array_capacity s);
    let s := set_capacity cap s in
    if negb ok then Some (false, s)
    else
      let bytes := wrap64 (GC_toggleref_array_capacity s * 8) in
      let '(p, s) := malloc bytes s in
      if p =? NULL then Some (false, s)
      else
        let n := Z.to_nat (GC_toggleref_array_size s) in
        let new_array := new_words bytes in
        if (length new_array <? n)%nat then None
        else Some (true, set_arr (Some (p, take n (words s) ++ drop n new_array)) s)
  else Some (true, s).

Definition GC_toggleref_add (callback : option (Z -> Z)) (obj : Z) (is_strong_ref : bool) (s : toggle_state)
    : option (Z * toggle_state) :=
  match callback with
  | None => Some (GC_SUCCESS, s)
  | Some _ =>
    '(ok, s) ← ensure_toggleref_capacity 1 s;
    if negb ok then Some (GC_NO_MEMORY, s)
    else
      let n := Z.to_nat (GC_toggleref_array_size s) in
      _ ← words s !! n;
      let s := set_words (<[n := if is_strong_ref then obj else GC_HIDE_POINTER obj]> (words s)) s in
      Some (GC_SUCCESS, set_array_size (wrap64 (GC_toggleref_array_size s + 1)) s)
  end.
End Add.

(** ** Correctness *)

(** The reference that replaces [x], if any. *)
Definition processed (callback : Z -> Z) (x : Z) : option Z :=
  let obj := ref_obj x in
  if obj =? NULL then None
  else if callback obj =? GC_TOGGLE_REF_STRONG then Some obj
  else if callback obj =? GC_TOGGLE_REF_WEAK then Some (GC_HIDE_POINTER obj)
  else None.

Definition status_ok (callback : Z -> Z) : Prop :=
  forall p, callback p = GC_TOGGLE_REF_DROP \/ callback p = GC_TOGGLE_REF_STRONG \/ callback p = GC_TOGGLE_REF_WEAK.

(** The array is as long as its capacity says. *)
Definition toggle_ok (s : toggle_state) : Prop :=
  0 <= GC_toggleref_array_size s < 2 ^ 59
  /\ match GC_toggleref_arr s with
     | None => GC_toggleref_array_size s = 0
     | Some (_, ws) => Z.of_nat (length ws) = GC_toggleref_array_capacity s
                       /\ GC_toggleref_array_size s <= GC_toggleref_array_capacity s < 2 ^ 60 /\ 32 <= GC_toggleref_array_capacity s
     end.

Definition refs (s : toggle_state) : list Z := take (Z.to_nat (GC_toggleref_array_size s)) (words s).

Lemma refs_length (s : toggle_state) : toggle_ok s -> length (refs s) = Z.to_nat (GC_toggleref_array_size s).
Proof.
  intros [Hs Ha]. unfold refs, words. rewrite length_take. destruct (GC_toggleref_arr s) as [[p ws]|]; [lia|]. cbn. lia.
Qed.

Lemma omap_length_le {A B : Type} (f : A -> option B) (l : list A) : (length (omap f l) <= length l)%nat.
Proof. induction l as [|x l IH]; cbn; [done|]. destruct (f x); cbn; lia. Qed.

Lemma process_loop (callback : Z -> Z) (size : nat) (ws : list Z) :
  status_ok callback -> (size <= length ws)%nat -> Z.of_nat size < W64 ->
  exists ws', loop (process_body callback size) (0%nat, 0%nat, ws)
              = Some (Some (length (omap (processed callback) (take size ws)), ws'))
  /\ length ws' = length ws /\ drop size ws' = drop size ws
  /\ take (length (omap (processed callback) (take size ws))) ws' = omap (processed callback) (take size ws).
Proof.
  intros Hst Hlen HW. set (f := processed callback).
  destruct (loop_count
    (fun i '(j, k, ws') => j = i /\ k = length (omap f (take i ws)) /\ (k <= i)%nat /\ length ws' = length ws
       /\ drop i ws' = drop i ws /\ take k ws' = omap f (take i ws))
    (fun o => exists ws', o = Some (length (omap f (take size ws)), ws') /\ length ws' = length ws
       /\ drop size ws' = drop size ws /\ take (length (omap f (take size ws))) ws' = omap f (take size ws))
    (process_body callback size) size (0%nat, 0%nat, ws)) as (o & -> & ws' & -> & H); [done| | | |by exists ws'].
  - intros i [[j k] ws'] Hi (-> & -> & Hk & Hl & Hd & Ht). cbn [process_body]. rewrite (proj2 (Nat.ltb_lt _ _) Hi).
    destruct (lookup_lt_is_Some_2 ws i) as [x Hx]; [lia|].
    assert (Hx' : ws' !! i = Some x).
    { rewrite <- (Nat.add_0_r i), <- lookup_drop, Hd, lookup_drop, Nat.add_0_r. done. }
    rewrite Hx'. rewrite (take_S_r ws i x Hx), omap_app. cbn [omap list_omap].
    assert (Hd1 : drop (S i) ws' = drop (S i) ws).
    { assert (HS : forall l : list Z, drop (S i) l = drop 1 (drop i l)) by (intros l; rewrite drop_drop; f_equal; lia).
      by rewrite !HS, Hd. }
    set (k := length (omap f (take i ws))) in *.
    (* the entry is dropped, or goes to position [k] *)
    assert (Hcase : process_body callback size (i, k, ws')
      = inl (S i, (k + length (omap f [x]))%nat, match f x with Some y => <[k := y]> ws' | None => ws' end)).
    { cbn [process_body]. rewrite (proj2 (Nat.ltb_lt _ _) Hi), Hx'. cbn [omap list_omap]. subst f. unfold processed.
      destruct (ref_obj x =? NULL); cbn [length]; [by rewrite Nat.add_0_r|].
      destruct (Hst (ref_obj x)) as [-> |[-> | ->]]; cbn; by rewrite ?Nat.add_0_r, ?Nat.add_1_r. }
    cbn [process_body] in Hcase. rewrite (proj2 (Nat.ltb_lt _ _) Hi), Hx' in Hcase. rewrite Hcase.
    eexists. split; [done|]. rewrite length_app. cbn [omap list_omap] in *. fold k.
    destruct (f x) as [y|]; cbn [length] in *.
    + split_and!; [done..|lia|by rewrite length_insert|by rewrite drop_insert_lt by lia|].
      rewrite Nat.add_1_r. erewrite take_S_r by (apply list_lookup_insert_eq; lia). rewrite take_insert_ge by lia. rewrite Ht. done.
    + rewrite Nat.add_0_r, app_nil_r. split_and!; [done..|lia|done|done|done].
  - intros [[j k] ws'] (-> & -> & Hk & Hl & Hd & Ht). cbn [process_body]. rewrite Nat.ltb_irrefl. eexists. split; [done|]. by exists ws'.
  - rewrite take_0. by split_and!.
Qed.

(** Every reference whose object is still there is passed to the callback, dropped or
    kept as a strong or weak one in the order they had; the freed part is cleared. *)
Lemma process_togglerefs_spec (callback : Z -> Z) (s : toggle_state) :
  toggle_ok s -> status_ok callback ->
  exists s', GC_process_togglerefs callback s = Some s' /\ toggle_ok s'
  /\ refs s' = omap (processed callback) (refs s)
  /\ GC_toggleref_array_size s' = Z.of_nat (length (omap (processed callback) (refs s)))
  /\ GC_toggleref_array_capacity s' = GC_toggleref_array_capacity s.
Proof.
  intros Hok Hst. pose proof Hok as [Hs Ha]. set (n := Z.to_nat (GC_toggleref_array_size s)).
  assert (Hn : (n <= length (words s))%nat).
  { subst n. unfold words. destruct (GC_toggleref_arr s) as [[p ws]|]; cbn; lia. }
  destruct (process_loop callback n (words s) Hst Hn) as (ws' & E & Hl & Hd & Ht); [subst n; unfold W64; lia|].
  fold n in Ht. unfold GC_process_togglerefs. fold n. rewrite E. cbn [mjoin option_join mbind option_bind].
  change (take n (words s)) with (refs s) in *. set (r := omap (processed callback) (refs s)) in *.
  assert (Hr : (length r <= n)%nat).
  { subst r n. rewrite <- (refs_length s Hok). apply omap_length_le. }
  assert (Hws : forall ws, length ws = length (words s) -> words (set_words ws s) = ws).
  { intros ws Hws. unfold words, set_words, set_arr in *. cbn. destruct (GC_toggleref_arr s) as [[p l]|]; [done|]. by destruct ws. }
  assert (Hkeep : forall ws k, length ws = length (words s) -> (k <= n)%nat -> toggle_ok (set_array_size (Z.of_nat k) (set_words ws s))).
  { intros ws k Hws' Hk. unfold toggle_ok, set_array_size, set_words, set_arr, words in *. cbn.
    destruct (GC_toggleref_arr s) as [[p l]|]; cbn; split; try lia; subst n; try rewrite Hws'; lia. }
  destruct (Nat.ltb_spec (length r) n) as [Hlt|Hge].
  - set (ws2 := take (length r) ws' ++ _).
    assert (Hl2 : length ws2 = length (words s)).
    { subst ws2. rewrite !length_app, length_take, length_replicate, length_drop. lia. }
    eexists. split; [done|]. split_and!; [by apply Hkeep| |done..].
    unfold refs at 1. cbn [GC_toggleref_array_size set_array_size]. rewrite Nat2Z.id.
    change (words (set_array_size _ (set_words ws2 s))) with (words (set_words ws2 s)). rewrite Hws by done.
    subst ws2. rewrite take_app_length' by (rewrite length_take; lia). done.
  - assert (Er : length r = n) by lia. eexists. split; [done|]. split_and!.
    + replace (set_words ws' s) with (set_array_size (Z.of_nat n) (set_words ws' s)); [by apply Hkeep|].
      unfold set_array_size, set_words, set_arr. cbn. f_equal. subst n. lia.
    + unfold refs at 1. cbn [GC_toggleref_array_size set_words set_arr]. fold n. rewrite Hws by done. by rewrite <- Ht, <- Er at 1.
    + cbn. subst n. lia.
    + done.
Qed.

(** ** Registration *)

Lemma capacity_loop (cap needed : Z) :
  0 < cap -> cap <= needed <= 2 ^ 60 -> needed <= 2 * cap ->
  loop (capacity_body needed) cap = Some (true, if cap <? needed then cap * 2 else cap).
Proof.
  intros H0 H1 H2.
  assert (Hsmall : forall c, 0 <= c < 2 ^ 62 -> wrap64 c = c /\ (Z.land c (Z.shiftl 1 63) =? 0) = true).
  { intros c Hc. split; [apply Z.mod_small; unfold W64; lia|]. apply Z.eqb_eq. apply Z.bits_inj'. intros k Hk.
    rewrite Z.land_spec, Z.shiftl_1_l, Z.bits_0. destruct (decide (k = 63)) as [->|Hne].
    - rewrite (Z.testbit_eqb c 63) by lia. rewrite Z.div_small by lia. done.
    - rewrite Z.pow2_bits_eqb by lia. rewrite (proj2 (Z.eqb_neq 63 k)) by done. by rewrite andb_false_r. }
  destruct (loop_spec_rel
    (fun k c => k = 1%nat /\ c = cap \/ k = 0%nat /\ c = cap * 2 /\ cap < needed)
    (fun r => r = (true, if cap <? needed then cap * 2 else cap)) (capacity_body needed) 1 cap) as (r & -> & ->); [| |done|done].
  - intros k c [(-> & ->)|(-> & -> & Hlt)]; unfold capacity_body.
    + destruct (Z.ltb_spec cap needed) as [Hlt|Hge]; [|done].
      destruct (Hsmall (cap * 2)) as [-> ->]; [lia|]. cbn [negb]. exists 0%nat. split; [lia|]. right. done.
    + rewrite (proj2 (Z.ltb_ge _ _)) by lia. rewrite (proj2 (Z.ltb_lt cap needed)) by lia. done.
  - by left.
Qed.

Section AddOk.
Context (malloc : Z -> toggle_state -> Z * toggle_state).
(** The allocator leaves the toggle-refs alone. *)
Context (malloc_frame : forall n s, (malloc n s).2 = s).

Lemma new_words_length (n : Z) : 0 <= n < 2 ^ 60 -> Z.of_nat (length (new_words (wrap64 (n * 8)))) = n.
Proof.
  intros Hn. unfold new_words. rewrite length_replicate. unfold wrap64. rewrite Z.mod_small by (unfold W64; lia).
  rewrite Z.div_mul by lia. lia.
Qed.

Lemma first_array_spec (s : toggle_state) :
  toggle_ok s ->
  let '(ok, s') := first_array malloc s in
  refs s' = refs s /\ GC_toggleref_array_size s' = GC_toggleref_array_size s /\ toggle_ok s'
  /\ (ok = true -> GC_toggleref_arr s' <> None) /\ (GC_toggleref_arr s <> None -> (ok, s') = (true, s)).
Proof.
  intros Hok. unfold first_array. pose proof Hok as [Hs Ha]. destruct (GC_toggleref_arr s) as [[p ws]|] eqn:Ea.
  { split_and!; try done. by rewrite Ea. }
  set (s1 := set_capacity 32 s). pose proof (malloc_frame (wrap64 (GC_toggleref_array_capacity s1 * 8)) s1) as Hf.
  destruct (malloc _ s1) as [p s']. cbn in Hf. subst s'. destruct (Z.eqb_spec p NULL) as [->|Hp].
  - split_and!; try done. unfold toggle_ok, s1. cbn. by rewrite Ea.
  - assert (Hr : refs s = []) by (unfold refs, words; by rewrite Ea, take_nil).
    split_and!; try done.
    + rewrite Hr. unfold refs. cbn. by rewrite Ha.
    + unfold toggle_ok. cbn. rewrite Ha. change 32 with (32 : Z) at 1. rewrite new_words_length by lia. lia.
Qed.

Lemma ensure_spec (s : toggle_state) :
  toggle_ok s ->
  exists ok s', ensure_toggleref_capacity malloc 1 s = Some (ok, s') /\ refs s' = refs s
  /\ GC_toggleref_array_size s' = GC_toggleref_array_size s
  /\ (ok = true -> toggle_ok s' /\ GC_toggleref_array_size s' + 1 <= GC_toggleref_array_capacity s' /\ GC_toggleref_arr s' <> None).
Proof.
  intros Hok. unfold ensure_toggleref_capacity. pose proof (first_array_spec s Hok) as Hf.
  destruct (first_array malloc s) as [ok1 s1]. destruct Hf as (Hr & Hsz & Hok1 & Ha & _).
  destruct ok1; cbn [negb]; [|by exists false, s1]. specialize (Ha eq_refl).
  destruct Hok1 as [Hs1 Harr]. destruct (GC_toggleref_arr s1) as [[p ws]|] eqn:Ea; [|done]. destruct Harr as (Hlen & Hcap & H32).
  assert (Hw : wrap64 (GC_toggleref_array_size s1 + 1) = GC_toggleref_array_size s1 + 1) by (apply Z.mod_small; unfold W64; lia).
  rewrite Hw. bcase.
  2: { exists true, s1. split_and!; try done. intros _. split_and!; [|lia|by rewrite Ea]. unfold toggle_ok. rewrite Ea. done. }
  rewrite capacity_loop by lia. cbn [mbind option_bind negb].
  set (cap := if _ <? _ then _ else _). set (s2 := set_capacity cap s1).
  pose proof (malloc_frame (wrap64 (GC_toggleref_array_capacity s2 * 8)) s2) as Hf.
  destruct (malloc _ s2) as [q s3]. cbn in Hf. subst s3. destruct (Z.eqb_spec q NULL) as [->|Hq].
  { exists false, s2. by split_and!. }
  assert (Hc : GC_toggleref_array_size s1 + 1 <= cap < 2 ^ 60 /\ 32 <= cap) by (subst cap; bcase; lia).
  assert (Hnl : Z.of_nat (length (new_words (wrap64 (GC_toggleref_array_capacity s2 * 8)))) = cap).
  { apply new_words_length. change (GC_toggleref_array_capacity s2) with cap. lia. }
  change (GC_toggleref_array_size s2) with (GC_toggleref_array_size s1).
  rewrite (proj2 (Nat.ltb_ge _ _)) by lia. set (n := Z.to_nat (GC_toggleref_array_size s1)).
  assert (Hws : words s2 = ws) by (unfold words, s2; cbn; by rewrite Ea). rewrite Hws.
  generalize dependent (new_words (wrap64 (GC_toggleref_array_capacity s2 * 8))). intros nw Hnl.
  eexists true, _. split; [done|]. split_and!; [|done|].
  - rewrite <- Hr. unfold refs. cbn [GC_toggleref_array_size set_arr]. fold n. change (Z.to_nat (GC_toggleref_array_size s2)) with n.
    unfold words at 1. cbn. rewrite take_app_length' by (rewrite length_take; subst n; lia). unfold words. by rewrite Ea.
  - intros _. unfold toggle_ok. cbn. split_and!; try lia; [|done].
    rewrite length_app, length_take, length_drop. subst n. lia.
Qed.

(** With room for one more reference, or memory for a larger array, the object is added at
    the end; without memory nothing is added. *)
Lemma toggleref_add_spec (callback : Z -> Z) (obj : Z) (strong : bool) (s : toggle_state) :
  toggle_ok s -> GC_toggleref_array_size s + 1 < 2 ^ 59 ->
  exists r s', GC_toggleref_add malloc (Some callback) obj strong s = Some (r, s')
  /\ (r = GC_SUCCESS /\ toggle_ok s' /\ refs s' = refs s ++ [if strong then obj else GC_HIDE_POINTER obj]
      \/ r = GC_NO_MEMORY /\ refs s' = refs s).
Proof.
  intros Hok Hlt. destruct (ensure_spec s Hok) as (ok & s1 & E & Hr & Hsz & H). unfold GC_toggleref_add. rewrite E. cbn [mbind option_bind].
  destruct ok; cbn [negb]; [|by exists GC_NO_MEMORY, s1; split; [|right]].
  destruct (H eq_refl) as (Hok1 & Hc & Hnn). pose proof Hok1 as [Hs1 Ha].
  destruct (GC_toggleref_arr s1) as [[p ws]|] eqn:Ea; [|done]. destruct Ha as (Hlen & Hcap & H32).
  assert (Hws : words s1 = ws) by (unfold words; by rewrite Ea). rewrite Hws.
  destruct (lookup_lt_is_Some_2 ws (Z.to_nat (GC_toggleref_array_size s1))) as [x ->]; [lia|]. cbn [mbind option_bind].
  set (y := if strong then obj else GC_HIDE_POINTER obj). set (n := Z.to_nat (GC_toggleref_array_size s1)).
  assert (Hw : wrap64 (GC_toggleref_array_size s1 + 1) = GC_toggleref_array_size s1 + 1) by (apply Z.mod_small; unfold W64; lia).
  eexists GC_SUCCESS, _. split; [done|]. left. split_and!; [done| |].
  - unfold toggle_ok, set_array_size, set_words, set_arr. cbn. rewrite Ea, Hw, length_insert. lia.
  - rewrite <- Hr. unfold refs. cbn [GC_toggleref_array_size set_array_size set_words set_arr]. rewrite Hw.
    replace (Z.to_nat (GC_toggleref_array_size s1 + 1)) with (S n) by lia.
    unfold words at 1. cbn. rewrite Ea. erewrite take_S_r by (apply list_lookup_insert_eq; lia).
    rewrite take_insert_ge by lia. by rewrite Hws.
Qed.
End AddOk.

(** A full array whose growth failed: the capacity has been doubled although the array has
    not, so the next registration stores behind the array. *)
Lemma toggleref_add_after_failure (malloc malloc' : Z -> toggle_state -> Z * toggle_state) (callback : Z -> Z)
    (obj obj' : Z) (strong strong' : bool) (s : toggle_state) :
  toggle_ok s -> GC_toggleref_arr s <> None -> GC_toggleref_array_size s = GC_toggleref_array_capacity s ->
  (forall n s, malloc n s = (NULL, s)) ->
  exists s', GC_toggleref_add malloc (Some callback) obj strong s = Some (GC_NO_MEMORY, s')
  /\ GC_toggleref_add malloc' (Some callback) obj' strong' s' = None.
Proof.
  intros [Hs Ha] Hn Hfull Hm. destruct (GC_toggleref_arr s) as [[p ws]|] eqn:Ea; [|done]. destruct Ha as (Hlen & Hcap & H32).
  assert (Hw : wrap64 (GC_toggleref_array_size s + 1) = GC_toggleref_array_size s + 1) by (apply Z.mod_small; unfold W64; lia).
  exists (set_capacity (GC_toggleref_array_capacity s * 2) s).
  unfold GC_toggleref_add, ensure_toggleref_capacity, first_array. cbn [GC_toggleref_arr set_capacity]. rewrite Ea. cbn [negb].
  rewrite Hw, (proj2 (Z.leb_le _ _)) by lia. rewrite capacity_loop by lia. rewrite (proj2 (Z.ltb_lt _ _)) by lia.
  cbn [mbind option_bind negb]. rewrite Hm. split; [done|].
  cbn [GC_toggleref_array_size GC_toggleref_array_capacity set_capacity GC_toggleref_arr]. rewrite ?Hw.
  rewrite (proj2 (Z.leb_gt _ _)) by lia. cbn [mbind option_bind negb].
  unfold words. cbn. rewrite ?Ea. rewrite lookup_ge_None_2 by lia. done.
Qed.

(** ** Theorems *)

(** Processing toggle-refs ends; the references afterwards are, in order, those the callback
    wants to keep, strong or weak as it says, and the array stays as long as its capacity. *)
Theorem GC_process_togglerefs_correct (callback : Z -> Z) (s : toggle_state) (Hok : toggle_ok s) (Hst : status_ok callback) :
  exists s', GC_process_togglerefs callback s = Some s' /\ toggle_ok s'
  /\ refs s' = omap (processed callback) (refs s)
  /\ GC_toggleref_array_size s' = Z.of_nat (length (omap (processed callback) (refs s)))
  /\ GC_toggleref_array_capacity s' = GC_toggleref_array_capacity s.
Proof. by apply process_togglerefs_spec. Qed.

(** With an array as long as its capacity, adding a toggle-ref never stores outside of it: the
    object is appended, or there is no memory and nothing is added. *)
Theorem GC_toggleref_add_correct (malloc : Z -> toggle_state -> Z * toggle_state) (callback : Z -> Z) (obj : Z) (strong : bool)
    (s : toggle_state) (Hm : forall n s, (malloc n s).2 = s) (Hok : toggle_ok s) (Hlt : GC_toggleref_array_size s + 1 < 2 ^ 59) :
  exists r s', GC_toggleref_add malloc (Some callback) obj strong s = Some (r, s')
  /\ (r = GC_SUCCESS /\ toggle_ok s' /\ refs s' = refs s ++ [if strong then obj else GC_HIDE_POINTER obj]
      \/ r = GC_NO_MEMORY /\ refs s' = refs s).
Proof. by apply toggleref_add_spec. Qed.

(** C25: after a registration failed for lack of memory to grow a full array, the recorded
    capacity is twice the size of the array, and the next registration, whatever the
    allocator answers, stores behind the end of the array. *)
Theorem GC_toggleref_add_overflow (malloc malloc' : Z -> toggle_state -> Z * toggle_state) (callback : Z -> Z)
    (obj obj' : Z) (strong strong' : bool) (s : toggle_state)
    (Hok : toggle_ok s) (Ha : GC_toggleref_arr s <> None) (Hfull : GC_toggleref_array_size s = GC_toggleref_array_capacity s)
    (Hm : forall n s, malloc n s = (NULL, s)) :
  exists s', GC_toggleref_add malloc (Some callback) obj strong s = Some (GC_NO_MEMORY, s')
  /\ GC_toggleref_add malloc' (Some callback) obj' strong' s' = None.
Proof. by apply toggleref_add_after_failure. Qed.

Definition sample_toggle : toggle_state := ToggleState (Some (4096, [8192; GC_HIDE_POINTER 8208; 8224] ++ replicate 29 0)) 3 32.

Lemma GC_process_togglerefs_correct_witness :
  let callback p := if p =? 8192 then GC_TOGGLE_REF_DROP else GC_TOGGLE_REF_STRONG in
  exists s', GC_process_togglerefs callback sample_toggle = Some s' /\ refs s' = [8208; 8224].
Proof.
  cbn zeta. destruct (GC_process_togglerefs_correct (fun p => if p =? 8192 then GC_TOGGLE_REF_DROP else GC_TOGGLE_REF_STRONG) sample_toggle)
    as (s' & E & _ & Hr & _).
  - unfold toggle_ok. vm_compute. split_and!; done.
  - intros p. destruct (p =? 8192); auto.
  - exists s'. split; [done|]. rewrite Hr. reflexivity.
Defined.

Definition full_toggle : toggle_state := ToggleState (Some (4096, replicate 32 8192)) 32 32.

Lemma GC_toggleref_add_overflow_witness :
  exists s', GC_toggleref_add (fun _ s => (NULL, s)) (Some (fun _ => GC_TOGGLE_REF_STRONG)) 8192 true full_toggle = Some (GC_NO_MEMORY, s')
  /\ GC_toggleref_add (fun _ s => (65536, s)) (Some (fun _ => GC_TOGGLE_REF_STRONG)) 8192 true s' = None.
Proof.
  apply (GC_toggleref_add_overflow (fun _ s => (NULL, s)) (fun _ s => (65536, s)) (fun _ => GC_TOGGLE_REF_STRONG) 8192 8192 true true full_toggle).
  - unfold toggle_ok. vm_compute. split_and!; done.
  - done.
  - done.
  - done.
Defined.
End Toggle.
