(* ===== verification/Finalize.v ===== *)
(** * Finalizers (finalize.c)

    The table of finalizable objects, the pass [GC_finalize] that a collection makes
    over links and finalizable objects, and the running of finalizers.  The queue
    [finalize_now] is threaded through the entries it took over from the table.
    The build has no threads: [GC_free] frees an entry that is unregistered. *)

From Stdlib Require Import ZArith Lia.
From stdpp Require Import base gmap list fin_maps.
From S2P Require Import Prelude FinTable Links Toggle.
Import FinTable Links Toggle.

Module Finalize.

(** The fields of [struct finalizable_object] after the prolog. *)
Record fo_rest := FoRest {
  fo_fn : Z;
  fo_mark_proc : finalization_mark_proc;
  fo_client_data : Z;
  fo_object_sz : Z
}.
Notation finalizable_object := (entry fo_rest).
Notation fnlz_roots_s := (hashtbl fo_rest).

Definition sizeof_finalizable_object : Z := 48.

(** ** Registration *)

Section Register.
Context (E : env fo_rest).

(** [GC_register_finalizer_inner], the entry for the object is there: the old values of
    [*ofn] and [*ocd], and the table. *)
Definition replace_finalizer (index prev_fo curr_fo fn cd : Z) (mp : finalization_mark_proc) (t : fnlz_roots_s)
    : option ((Z * Z) * fnlz_roots_s) :=
  e ← nodes t !! curr_fo;
  let old := (fo_fn (rest e), fo_client_data (rest e)) in
  t ← relink index prev_fo (next e) t;
  if fn =? 0 then
    let t := set_entries (wrap64 (entries t - 1)) t in
    Some (old, set_nodes (delete curr_fo (nodes t)) t)
  else
    let t := set_nodes (alter (fun e => Entry (hidden_key e) (next e) (FoRest fn mp cd (fo_object_sz (rest e))))
                          curr_fo (nodes t)) t in
    t ← relink index prev_fo curr_fo t;
    Some (old, t).

Definition add_finalizer (index new_fo obj fn cd sz : Z) (mp : finalization_mark_proc) (t : fnlz_roots_s)
    : option fnlz_roots_s :=
  t ← push_entry index new_fo (GC_HIDE_POINTER obj) (FoRest fn mp cd sz) t;
  Some (set_entries (wrap64 (entries t + 1)) t).

(** [hb_sz_of] is the object size in the header of an address, if it has one.  The first
    component of the result is what is stored in [*ofn] and [*ocd]; [None]: they are left
    unchanged. *)
Definition register_fo (hb_sz_of : Z -> option Z)
    (obj fn cd : Z) (mp : finalization_mark_proc) (t : fnlz_roots_s) : option (option (Z * Z) * fnlz_roots_s) :=
  t ← grow_if_full E t;
  let index := HASH2 obj (log_size t) in
  '(prev_fo, curr_fo) ← find_entry index (GC_HIDE_POINTER obj) t;
  if negb (curr_fo =? NULL) then '(old, t) ← replace_finalizer index prev_fo curr_fo fn cd mp t; Some (Some old, t)
  else if fn =? 0 then Some (Some (0, NULL), t)
  else match hb_sz_of obj with
       | None => Some (Some (0, NULL), t)
       | Some sz =>
         let '(new_fo, t) := GC_INTERNAL_MALLOC E t in
         if negb (new_fo =? NULL) then t ← add_finalizer index new_fo obj fn cd sz mp t; Some (Some (0, NULL), t)
         else
           let '(new_fo, t) := GC_oom_fn E t in
           if new_fo =? NULL then Some (None, t)
           else
             let index := HASH2 obj (log_size t) in
             '(prev_fo, curr_fo) ← find_entry index (GC_HIDE_POINTER obj) t;
             if negb (curr_fo =? NULL) then '(old, t) ← replace_finalizer index prev_fo curr_fo fn cd mp t; Some (Some old, t)
             else t ← add_finalizer index new_fo obj fn cd sz mp t; Some (Some (0, NULL), t)
       end.

(** The second component is [GC_need_unreachable_finalization]. *)
Definition GC_register_finalizer_inner (GC_find_leak_inner need_unreachable : bool) (hb_sz_of : Z -> option Z)
    (obj fn cd : Z) (mp : finalization_mark_proc) (t : fnlz_roots_s) : option (option (Z * Z) * bool * fnlz_roots_s) :=
  if GC_find_leak_inner then Some (None, need_unreachable, t)
  else
    let need_unreachable := if decide (mp = GC_unreachable_finalize_mark_proc) then true else need_unreachable in
    '(out, t) ← register_fo hb_sz_of obj fn cd mp t;
    Some (out, need_unreachable, t).

Definition GC_register_finalizer (leak need : bool) (hb_sz_of : Z -> option Z) (obj fn cd : Z) (t : fnlz_roots_s) :=
  GC_register_finalizer_inner leak need hb_sz_of obj fn cd GC_normal_finalize_mark_proc t.
Definition GC_register_finalizer_ignore_self (leak need : bool) (hb_sz_of : Z -> option Z) (obj fn cd : Z) (t : fnlz_roots_s) :=
  GC_register_finalizer_inner leak need hb_sz_of obj fn cd GC_ignore_self_finalize_mark_proc t.
Definition GC_register_finalizer_no_order (leak need : bool) (hb_sz_of : Z -> option Z) (obj fn cd : Z) (t : fnlz_roots_s) :=
  GC_register_finalizer_inner leak need hb_sz_of obj fn cd GC_null_finalize_mark_proc t.
Definition GC_register_finalizer_unreachable (leak need : bool) (hb_sz_of : Z -> option Z) (obj fn cd : Z) (t : fnlz_roots_s) :=
  GC_register_finalizer_inner leak need hb_sz_of obj fn cd GC_unreachable_finalize_mark_proc t.
End Register.

(** ** Finding what to finalize *)

Section Pass.
Context {W : Type} `{Collector W}.

(** State of the pass.  [finalized] are the calls of [GC_object_finalized_proc]. *)
Record fstate := FState {
  GC_dl_hashtbl : dl_hashtbl_s;
  GC_ll_hashtbl : dl_hashtbl_s;
  GC_fnlz_roots : fnlz_roots_s;
  GC_togglerefs : toggle_state;
  GC_old_dl_entries : Z;
  GC_old_ll_entries : Z;
  GC_bytes_finalized : Z;
  GC_finalizer_nested : Z;
  finalized : list Z;
  world : W
}.

Definition set_world (w : W) (s : fstate) : fstate :=
  FState (GC_dl_hashtbl s) (GC_ll_hashtbl s) (GC_fnlz_roots s) (GC_togglerefs s) (GC_old_dl_entries s)
    (GC_old_ll_entries s) (GC_bytes_finalized s) (GC_finalizer_nested s) (finalized s) w.
Definition set_dl (t : dl_hashtbl_s) (s : fstate) : fstate :=
  FState t (GC_ll_hashtbl s) (GC_fnlz_roots s) (GC_togglerefs s) (GC_old_dl_entries s)
    (GC_old_ll_entries s) (GC_bytes_finalized s) (GC_finalizer_nested s) (finalized s) (world s).
Definition set_ll (t : dl_hashtbl_s) (s : fstate) : fstate :=
  FState (GC_dl_hashtbl s) t (GC_fnlz_roots s) (GC_togglerefs s) (GC_old_dl_entries s)
    (GC_old_ll_entries s) (GC_bytes_finalized s) (GC_finalizer_nested s) (finalized s) (world s).
Definition set_fo (t : fnlz_roots_s) (s : fstate) : fstate :=
  FState (GC_dl_hashtbl s) (GC_ll_hashtbl s) t (GC_togglerefs s) (GC_old_dl_entries s)
    (GC_old_ll_entries s) (GC_bytes_finalized s) (GC_finalizer_nested s) (finalized s) (world s).
Definition set_togglerefs (t : toggle_state) (s : fstate) : fstate :=
  FState (GC_dl_hashtbl s) (GC_ll_hashtbl s) (GC_fnlz_roots s) t (GC_old_dl_entries s)
    (GC_old_ll_entries s) (GC_bytes_finalized s) (GC_finalizer_nested s) (finalized s) (world s).
Definition set_old_entries (s : fstate) : fstate :=
  FState (GC_dl_hashtbl s) (GC_ll_hashtbl s) (GC_fnlz_roots s) (GC_togglerefs s) (entries (GC_dl_hashtbl s))
    (entries (GC_ll_hashtbl s)) (GC_bytes_finalized s) (GC_finalizer_nested s) (finalized s) (world s).
Definition set_bytes (n : Z) (s : fstate) : fstate :=
  FState (GC_dl_hashtbl s) (GC_ll_hashtbl s) (GC_fnlz_roots s) (GC_togglerefs s) (GC_old_dl_entries s)
    (GC_old_ll_entries s) n (GC_finalizer_nested s) (finalized s) (world s).
Definition set_nested (n : Z) (s : fstate) : fstate :=
  FState (GC_dl_hashtbl s) (GC_ll_hashtbl s) (GC_fnlz_roots s) (GC_togglerefs s) (GC_old_dl_entries s)
    (GC_old_ll_entries s) (GC_bytes_finalized s) n (finalized s) (world s).
Definition set_finalized (l : list Z) (s : fstate) : fstate :=
  FState (GC_dl_hashtbl s) (GC_ll_hashtbl s) (GC_fnlz_roots s) (GC_togglerefs s) (GC_old_dl_entries s)
    (GC_old_ll_entries s) (GC_bytes_finalized s) (GC_finalizer_nested s) l (world s).

Definition fo_size (t : fnlz_roots_s) : nat :=
  match head t with None => 0 | Some _ => Z.to_nat (Z.shiftl 1 (log_size t)) end.

(** [GC_finalize], first loop: everything reachable from unmarked finalizable objects
    is marked. *)
Definition mark_chain_body (t : fnlz_roots_s) (st : Z * W) : (Z * W) + option W :=
  let '(curr_fo, w) := st in
  if curr_fo =? NULL then inr (Some w)
  else match nodes t !! curr_fo with
       | None => inr None
       | Some e =>
         let real_ptr := GC_REVEAL_POINTER (hidden_key e) in
         let w := if negb (is_marked real_ptr w) then mark_fo real_ptr (fo_mark_proc (rest e)) w else w in
         inl (next e, w)
       end.

Definition mark_chain (t : fnlz_roots_s) (i : nat) (w : W) : option W :=
  hs ← head t;
  p ← hs !! i;
  mjoin (loop (mark_chain_body t) (p, w)).

Fixpoint mark_chains (t : fnlz_roots_s) (i n : nat) (w : W) : option W :=
  match n with
  | O => Some w
  | S n => w ← mark_chain t i w; mark_chains t (S i) n w
  end.

(** An unlinked entry joins the queue, its key revealed. *)
Definition enqueue_fo (curr_fo : Z) (s : fstate) : option fstate :=
  let t := GC_fnlz_roots s in
  e ← nodes t !! curr_fo;
  let t := set_nodes (<[curr_fo := Entry (GC_REVEAL_POINTER (hidden_key e)) (finalize_now t) (rest e)]> (nodes t)) t in
  let s := set_fo (set_finalize_now curr_fo t) s in
  Some (set_bytes (wrap64 (GC_bytes_finalized s + (fo_object_sz (rest e) + sizeof_finalizable_object))) s).

(** Second loop, one chain; the state is [(prev_fo, curr_fo, s)]. *)
Definition enqueue_body (GC_java_finalization has_proc : bool) (i : nat) (st : Z * Z * fstate)
    : (Z * Z * fstate) + option fstate :=
  let '(prev_fo, curr_fo, s) := st in
  if curr_fo =? NULL then inr (Some s)
  else match nodes (GC_fnlz_roots s) !! curr_fo with
       | None => inr None
       | Some e =>
         let real_ptr := GC_REVEAL_POINTER (hidden_key e) in
         if negb (is_marked real_ptr (world s)) then
           let s := if GC_java_finalization then s else set_world (set_mark_bit real_ptr (world s)) s in
           let next_fo := next e in
           match relink (Z.of_nat i) prev_fo next_fo (GC_fnlz_roots s) with
           | None => inr None
           | Some t =>
             let s := set_fo (set_entries (wrap64 (entries t - 1)) t) s in
             let s := if has_proc then set_finalized (finalized s ++ [real_ptr]) s else s in
             match enqueue_fo curr_fo s with
             | None => inr None
             | Some s => inl (prev_fo, next_fo, s)
             end
           end
         else inl (curr_fo, next e, s)
       end.

Definition enqueue_chain (java has_proc : bool) (i : nat) (s : fstate) : option fstate :=
  hs ← head (GC_fnlz_roots s);
  p ← hs !! i;
  mjoin (loop (enqueue_body java has_proc i) (NULL, p, s)).

Fixpoint enqueue_chains (java has_proc : bool) (i n : nat) (s : fstate) : option fstate :=
  match n with
  | O => Some s
  | S n => s ← enqueue_chain java has_proc i s; enqueue_chains java has_proc (S i) n s
  end.

(** With [GC_java_finalization]: what the queued objects keep alive is marked. *)
Definition java_mark_body (t : fnlz_roots_s) (st : Z * W) : (Z * W) + option W :=
  let '(curr_fo, w) := st in
  if curr_fo =? NULL then inr (Some w)
  else match nodes t !! curr_fo with
       | None => inr None
       | Some e =>
         let real_ptr := hidden_key e in
         let w :=
           if negb (is_marked real_ptr w) then
             let w := if decide (fo_mark_proc (rest e) = GC_null_finalize_mark_proc)
                      then mark_fo real_ptr GC_normal_finalize_mark_proc w else w in
             if decide (fo_mark_proc (rest e) = GC_unreachable_finalize_mark_proc) then w else set_mark_bit real_ptr w
           else w in
         inl (next e, w)
       end.

(** The entry [curr_fo] goes back from the queue, where it follows [prev_fo], to its chain. *)
Definition revive (prev_fo curr_fo : Z) (e : finalizable_object) (s : fstate) : option fstate :=
  let t := GC_fnlz_roots s in
  let real_ptr := hidden_key e in
  let t := if prev_fo =? NULL then set_finalize_now (next e) t
           else set_nodes (alter (set_next (next e)) prev_fo (nodes t)) t in
  let s := set_bytes (wrap64 (GC_bytes_finalized s - (fo_object_sz (rest e) + sizeof_finalizable_object))) s in
  t ← push_entry (HASH2 real_ptr (log_size t)) curr_fo (GC_HIDE_POINTER real_ptr) (rest e) t;
  Some (set_fo (set_entries (wrap64 (entries t + 1)) t) s).

(** Objects to be finalized when unreachable that have become reachable are revived; the
    state is [(prev_fo, curr_fo, s)]. *)
Definition revive_body (st : Z * Z * fstate) : (Z * Z * fstate) + option fstate :=
  let '(prev_fo, curr_fo, s) := st in
  if curr_fo =? NULL then inr (Some s)
  else match nodes (GC_fnlz_roots s) !! curr_fo with
       | None => inr None
       | Some e =>
         let next_fo := next e in
         if decide (fo_mark_proc (rest e) <> GC_unreachable_finalize_mark_proc) then inl (curr_fo, next_fo, s)
         else
           let real_ptr := hidden_key e in
           if negb (is_marked real_ptr (world s)) then inl (curr_fo, next_fo, set_world (set_mark_bit real_ptr (world s)) s)
           else match revive prev_fo curr_fo e s with
                | None => inr None
                | Some s => inl (prev_fo, next_fo, s)
                end
       end.

Definition java_pass (GC_need_unreachable_finalization : bool) (s : fstate) : option fstate :=
  w ← mjoin (loop (java_mark_body (GC_fnlz_roots s)) (finalize_now (GC_fnlz_roots s), world s));
  let s := set_world w s in
  if GC_need_unreachable_finalization then mjoin (loop revive_body (NULL, finalize_now (GC_fnlz_roots s), s))
  else Some s.

(** Links of one table. *)
Definition disappear_dl (dangling : bool) (s : fstate) : option fstate :=
  '(t, w) ← GC_make_disappearing_links_disappear dangling (GC_dl_hashtbl s) (world s);
  Some (set_world w (set_dl t s)).
Definition disappear_ll (dangling : bool) (s : fstate) : option fstate :=
  '(t, w) ← GC_make_disappearing_links_disappear dangling (GC_ll_hashtbl s) (world s);
  Some (set_world w (set_ll t s)).

(** The two loops over the table of finalizable objects. *)
Definition find_finalizable (java has_proc : bool) (s : fstate) : option fstate :=
  let n := fo_size (GC_fnlz_roots s) in
  w ← mark_chains (GC_fnlz_roots s) 0 n (world s);
  enqueue_chains java has_proc 0 n (set_bytes 0 (set_world w s)).

Definition GC_finalize (java need_unreachable has_proc : bool) (GC_alloc_fail_count : Z) (s : fstate) : option fstate :=
  let s := set_old_entries s in
  let s := set_world (GC_mark_togglerefs (GC_togglerefs s) (world s)) s in
  s ← disappear_dl false s;
  s ← find_finalizable java has_proc s;
  s ← (if java then java_pass need_unreachable s else Some s);
  s ← disappear_dl true s;
  let s := set_togglerefs (GC_clear_togglerefs (GC_togglerefs s) (world s)) s in
  s ← disappear_ll false s;
  s ← disappear_ll true s;
  Some (if 0 <? GC_alloc_fail_count then set_nested 0 s else s).

(** ** Running finalizers *)

(** [GC_enqueue_all_finalizers], one chain that has been taken off its head. *)
Definition enqueue_all_body (st : Z * fstate) : (Z * fstate) + option fstate :=
  let '(curr_fo, s) := st in
  if curr_fo =? NULL then inr (Some s)
  else match nodes (GC_fnlz_roots s) !! curr_fo with
       | None => inr None
       | Some e =>
         let real_ptr := GC_REVEAL_POINTER (hidden_key e) in
         let w := mark_fo real_ptr GC_normal_finalize_mark_proc (world s) in
         let w := set_mark_bit real_ptr w in
         let w := complete_collection w in
         let next_fo := next e in
         match enqueue_fo curr_fo (set_world w s) with
         | None => inr None
         | Some s => inl (next_fo, s)
         end
       end.

Definition enqueue_all_chain (i : nat) (s : fstate) : option fstate :=
  hs ← head (GC_fnlz_roots s);
  curr_fo ← hs !! i;
  let s := set_fo (set_head (<[i := NULL]> hs) (GC_fnlz_roots s)) s in
  mjoin (loop enqueue_all_body (curr_fo, s)).

Fixpoint enqueue_all_chains (i n : nat) (s : fstate) : option fstate :=
  match n with
  | O => Some s
  | S n => s ← enqueue_all_chain i s; enqueue_all_chains (S i) n s
  end.

Definition GC_enqueue_all_finalizers (s : fstate) : option fstate :=
  let s := set_bytes 0 s in
  s ← enqueue_all_chains 0 (fo_size (GC_fnlz_roots s)) s;
  Some (set_fo (set_entries 0 (GC_fnlz_roots s)) s).

Definition GC_should_invoke_finalizers (s : fstate) : bool := negb (finalize_now (GC_fnlz_roots s) =? NULL).

(** A finalizer is client code: [call fn obj cd] is what it does to the state. *)
Context (call : Z -> Z -> Z -> fstate -> fstate).

(** The state is [(count, s)]; [count] is an [int]. *)
Definition invoke_body (GC_interrupt_finalizers : Z) (all : bool) (st : Z * fstate) : (Z * fstate) + option (Z * fstate) :=
  let '(count, s) := st in
  if negb (GC_should_invoke_finalizers s) then inr (Some (count, s))
  else if negb (count =? 0) && negb (GC_interrupt_finalizers =? 0) && negb all && (GC_interrupt_finalizers <=? count)
  then inr (Some (count, s))
  else
    let curr_fo := finalize_now (GC_fnlz_roots s) in
    match nodes (GC_fnlz_roots s) !! curr_fo with
    | None => inr None
    | Some e =>
      let t := set_finalize_now (next e) (GC_fnlz_roots s) in
      let t := set_nodes (alter (set_next NULL) curr_fo (nodes t)) t in
      let s := call (fo_fn (rest e)) (hidden_key e) (fo_client_data (rest e)) (set_fo t s) in
      let t := GC_fnlz_roots s in
      let t := set_nodes (alter (fun e => Entry (hidden_key e) (next e)
                  (FoRest (fo_fn (rest e)) (fo_mark_proc (rest e)) NULL (fo_object_sz (rest e)))) curr_fo (nodes t)) t in
      inl (count + 1, set_fo t s)
    end.

Definition invoke_finalizers_internal (interrupt : Z) (all : bool) (s : fstate) : option (Z * fstate) :=
  mjoin (loop (invoke_body interrupt all) (0, s)).

(** [None]: inside a finalizer already. *)
Definition GC_check_finalizer_nested (s : fstate) : option fstate :=
  if negb (GC_finalizer_nested s =? 0) then None else Some (set_nested 1 s).

Definition GC_invoke_finalizers (interrupt : Z) (s : fstate) : option (Z * fstate) :=
  match GC_check_finalizer_nested s with
  | None => Some (0, s)
  | Some s =>
    '(count, s) ← invoke_finalizers_internal interrupt false s;
    Some (count, set_nested 0 s)
  end.

(** Finalizers are run, or the notifier is called, once per collection: the new value of
    [GC_last_finalizer_notification], and whether the notifier is called. *)
Definition GC_notify_or_invoke_finalizers (interrupt : Z) (GC_finalize_on_demand has_notifier : bool)
    (GC_gc_no GC_last_finalizer_notification : Z) (s : fstate) : option (Z * bool * fstate) :=
  if negb (GC_should_invoke_finalizers s) then Some (GC_last_finalizer_notification, false, s)
  else if negb GC_finalize_on_demand then
    '(_, s) ← GC_invoke_finalizers interrupt s;
    Some (GC_last_finalizer_notification, false, s)
  else if negb (GC_last_finalizer_notification =? GC_gc_no) then Some (GC_gc_no, has_notifier, s)
  else Some (GC_last_finalizer_notification, false, s).

Definition finalize_all_body (s : fstate) : fstate + option fstate :=
  if entries (GC_fnlz_roots s) =? 0 then inr (Some s)
  else match (s ← GC_enqueue_all_finalizers s; invoke_finalizers_internal 0 true s) with
       | None => inr None
       | Some (_, s) => inl s
       end.

Definition GC_finalize_all (s : fstate) : option fstate := mjoin (loop finalize_all_body s).
End Pass.
Arguments fstate W : clear implicits.

End Finalize.
