(* ===== verification/FinalizeOk.v ===== *)
(** * Correctness of finalization

    Registration of finalizers is an update of the finite map from objects to
    finalizers.  [GC_finalize] ends, keeps the tables and the queue, queues exactly the
    finalizable objects that stayed unmarked and marks them, and clears links by the
    marks at the right moments.  Queued finalizers are run once each, in order. *)

From Stdlib Require Import ZArith Lia.
From stdpp Require Import base gmap list fin_maps.
From S2P Require Import Prelude FinTable FinTableOk Links FinSample LinksOk Toggle Finalize.
Import FinTable FinTableOk Links FinSample Toggle Finalize.

Module FinalizeOk.

Notation cell := (Z * (Z * fo_rest))%type.
Notation chains := (list (list cell)).

Lemma filter_ext_in {B : Type} (P1 P2 : B -> Prop) `{!forall x, Decision (P1 x)} `{!forall x, Decision (P2 x)} (l : list B) :
  (forall x, x ∈ l -> P1 x <-> P2 x) -> filter P1 l = filter P2 l.
Proof.
  induction l as [|x l IH]; intros Hx; [done|]. destruct (decide (P1 x)) as [H1|H1].
  - rewrite !filter_cons_True; [|by apply Hx; [left|]|done]. f_equal. apply IH. intros y Hy. apply Hx. by right.
  - rewrite !filter_cons_False; [|by rewrite <- Hx by by left|done]. apply IH. intros y Hy. apply Hx. by right.
Qed.

(** ** Registration *)






(** ** Finding what to finalize *)

Section Pass.
Context {W : Type} `{CW : Collector W} `{!CollectorLaws W}.
Implicit Types (w : W) (c : cell) (l R : list cell) (cs : chains) (s : fstate W).

Definition mark_cell w c : W := if negb (is_marked c.2.1 w) then mark_fo c.2.1 (fo_mark_proc c.2.2) w else w.

Lemma chain_length (t : hashtbl fo_rest) cs (i : nat) l : rep t cs -> cs !! i = Some l -> Z.of_nat (length l) < W64.
Proof.
  intros R Hl. pose proof (rep_length t cs R) as HW. destruct (concat_lookup cs i l Hl) as (A & D & E & _).
  rewrite E, !length_app in HW. lia.
Qed.

Lemma mark_chain_spec (t : hashtbl fo_rest) (p : Z) w l :
  seg GC_HIDE_POINTER (nodes t) p l NULL -> Z.of_nat (length l) < W64 ->
  loop (mark_chain_body t) (p, w) = Some (Some (foldl mark_cell w l)).
Proof.
  intros Hc Hlen.
  destruct (loop_spec_rel
    (fun n '(p', w') => exists l1 l2, l = l1 ++ l2 /\ n = length l2 /\ seg GC_HIDE_POINTER (nodes t) p' l2 NULL /\ w' = foldl mark_cell w l1)
    (fun o => o = Some (foldl mark_cell w l)) (mark_chain_body t) (length l) (p, w)) as (o & -> & ->); [| |done|done].
  - intros n [p' w'] (l1 & l2 & -> & -> & Hs & ->). destruct l2 as [|[a [k v]] l2]; cbn [mark_chain_body].
    + cbn in Hs. subst p'. rewrite Z.eqb_refl. by rewrite app_nil_r.
    + destruct Hs as (-> & Ha & n & En & Hs). rewrite (proj2 (Z.eqb_neq _ _) Ha), En. cbn [hidden_key next rest].
      rewrite reveal_hide. exists (length l2). cbn [length]. split; [lia|]. exists (l1 ++ [(a, (k, v))]), l2.
      split_and!; [by rewrite <- app_assoc|done..|]. by rewrite foldl_app.
  - by exists [], l.
Qed.

Lemma mark_chains_spec (t : hashtbl fo_rest) cs (n i : nat) w :
  rep t cs -> (i + n = length cs)%nat ->
  mark_chains t i n w = Some (foldl mark_cell w (concat (drop i cs))).
Proof.
  intros R. revert i w. induction n as [|n IH]; intros i w Hi.
  - by rewrite drop_ge by lia.
  - destruct (lookup_lt_is_Some_2 cs i) as [l Hl]; [lia|]. destruct (rep_head t cs i l R Hl) as [hs Eh].
    destruct (rep_bucket_chain t cs hs i l R Eh Hl) as (p & Hp & Hc). 
    assert (E : mark_chain t i w = Some (foldl mark_cell w l)).
    { unfold mark_chain. rewrite Eh, some_bind, Hp, some_bind, (mark_chain_spec t p w l Hc); [done|]. by eapply chain_length. }
    cbn [mark_chains]. rewrite E, some_bind, IH by lia. rewrite (drop_S cs l i Hl). cbn [concat]. by rewrite foldl_app.
Qed.

(** Marks set on the objects of [R]. *)
Definition set_all w R : W := foldl (fun w c => set_mark_bit c.2.1 w) w R.

Lemma set_all_obj w R (q : Z) : obj (set_all w R) q <-> obj w q.
Proof. unfold set_all. revert w. induction R as [|c R IH]; intros w; cbn; [done|]. by rewrite IH, obj_set_mark. Qed.

Lemma set_all_base w R (q : Z) : obj_base q (set_all w R) = obj_base q w.
Proof. unfold set_all. revert w. induction R as [|c R IH]; intros w; cbn; [done|]. by rewrite IH, base_set. Qed.

Lemma set_all_load w R (q : Z) : load q (set_all w R) = load q w.
Proof. unfold set_all. revert w. induction R as [|c R IH]; intros w; cbn; [done|]. by rewrite IH, load_set. Qed.

Lemma set_all_marked w R (q : Z) :
  (forall c, c ∈ R -> obj w c.2.1) -> obj w q -> is_marked q (set_all w R) = is_marked q w || bool_decide (q ∈ keys R).
Proof.
  unfold set_all. revert w. induction R as [|c R IH]; intros w HR Hq; cbn [foldl].
  - by rewrite bool_decide_false, orb_false_r by apply not_elem_of_nil.
  - rewrite IH; [|intros c' Hc'; apply obj_set_mark, HR; by right|by apply obj_set_mark].
    rewrite marked_set; [|apply HR; by left|done].
    change (keys (c :: R)) with (c.2.1 :: keys R).
    assert (bool_decide (q ∈ c.2.1 :: keys R) = bool_decide (c.2.1 = q) || bool_decide (q ∈ keys R)) as ->.
    { rewrite <- bool_decide_or. apply bool_decide_ext. set_solver. }
    by destruct (bool_decide (c.2.1 = q)), (is_marked q w).
Qed.

Definition bytes_of (n : Z) R : Z := foldl (fun n c => wrap64 (n + (fo_object_sz c.2.2 + sizeof_finalizable_object))) n R.

(** The state [s] after the entries [R] were queued, with the table [t]. *)
Definition queued (java has_proc : bool) s (t : hashtbl fo_rest) R : fstate W :=
  FState (GC_dl_hashtbl s) (GC_ll_hashtbl s) t (GC_togglerefs s) (GC_old_dl_entries s) (GC_old_ll_entries s)
    (bytes_of (GC_bytes_finalized s) R) (GC_finalizer_nested s)
    (finalized s ++ if has_proc then keys R else []) (if java then world s else set_all (world s) R).

Lemma queued_nil (java has_proc : bool) s : queued java has_proc s (GC_fnlz_roots s) [] = s.
Proof. destruct s. unfold queued. cbn. destruct has_proc, java; by rewrite app_nil_r. Qed.

Definition marked_cells w l : list cell := filter (fun c => is_marked c.2.1 w = true) l.
Definition unmarked_cells w l : list cell := filter (fun c => is_marked c.2.1 w <> true) l.

Lemma enqueue_step (java has_proc : bool) s (t : hashtbl fo_rest) cs ql R (i : nat) (a k : Z) (v : fo_rest) l1 l2 :
  frep t cs ql -> found t cs k i l1 a v l2 -> is_marked k (world (queued java has_proc s t R)) = false ->
  exists t', enqueue_body java has_proc i (last_addr NULL l1, a, queued java has_proc s t R)
             = inl (last_addr NULL l1, first_addr l2, queued java has_proc s t' (R ++ [(a, (k, v))]))
  /\ frep t' (<[i := l1 ++ l2]> cs) ((a, (k, v)) :: ql) /\ log_size t' = log_size t.
Proof.
  intros F Fo Hm. destruct (found_node t cs k a i v l1 l2 (proj1 F) Fo) as (n & En & Hn). apply seg_first in Hn.
  destruct (frep_found_fresh t cs ql k a i v l1 l2 F Fo) as (_ & _ & Ha).
  destruct (frep_unlink t cs ql k a i v l1 l2 _ F Fo En) as (t1 & E1 & F1 & Hp & _ & Hlg & _ & En1 & _).
  assert (Hh : HASH2 k (log_size t) = Z.of_nat i).
  { destruct Fo as [_ Hl]. eapply bucket_hash; [apply F|exact Hl|]. rewrite keys_app. set_solver. }
  rewrite Hh in E1. cbn [next] in E1.
  assert (Hfr : a ∉ addrs (ql ++ concat (<[i := l1 ++ l2]> cs))).
  { destruct F as (_ & _ & Hnd & _). rewrite addrs_app in *. unfold addrs in *. rewrite Hp in Hnd. cbn in Hnd.
    rewrite <- Permutation_middle in Hnd. by apply NoDup_cons in Hnd as [? _]. }
  pose proof (frep_enqueue _ _ _ k a v F1 Hfr Ha) as F2. eexists. split; [|split; [exact F2|exact Hlg]].
  cbn [enqueue_body]. rewrite (proj2 (Z.eqb_neq a NULL)) by lia. cbn [GC_fnlz_roots queued]. rewrite En. cbn [hidden_key next].
  rewrite reveal_hide. change (if java then world s else set_all (world s) R) with (world (queued java has_proc s t R)). rewrite Hm. cbn [negb].
  assert (Efo : GC_fnlz_roots (if java then queued java has_proc s t R
             else set_world (set_mark_bit k (world (queued java has_proc s t R))) (queued java has_proc s t R)) = t) by by destruct java.
  rewrite Efo, E1. unfold enqueue_fo.
  assert (Efo2 : forall x : fstate W, GC_fnlz_roots (if has_proc then set_finalized (finalized x ++ [k]) x else x) = GC_fnlz_roots x) by by destruct has_proc.
  rewrite Efo2. cbn [GC_fnlz_roots set_fo set_entries nodes]. rewrite En1. cbn [mbind option_bind hidden_key next rest].
  rewrite reveal_hide, Hn. f_equal. f_equal. unfold queued, bytes_of, set_all. rewrite !foldl_app. cbn [foldl fst snd].
  destruct java, has_proc; cbn; rewrite ?app_nil_r, ?keys_app, ?app_assoc; done.
Qed.

Lemma enqueue_chain_spec (java has_proc : bool) s (t : hashtbl fo_rest) cs ql R (i : nat) l :
  frep t cs ql -> cs !! i = Some l -> (forall c, c ∈ R ++ l -> obj (world s) c.2.1) -> NoDup (keys (R ++ l)) ->
  exists t', enqueue_chain java has_proc i (queued java has_proc s t R)
             = Some (queued java has_proc s t' (R ++ unmarked_cells (world s) l))
  /\ frep t' (<[i := marked_cells (world s) l]> cs) (reverse (unmarked_cells (world s) l) ++ ql)
  /\ log_size t' = log_size t.
Proof.
  intros F Hl Ho Hnd. destruct (rep_head t cs i l (proj1 F) Hl) as [hs Eh].
  destruct (rep_bucket_chain t cs hs i l (proj1 F) Eh Hl) as (p & Hp & Hc).
  assert (Eu : enqueue_chain java has_proc i (queued java has_proc s t R)
    = mjoin (loop (enqueue_body java has_proc i) (NULL, p, queued java has_proc s t R))).
  { unfold enqueue_chain. change (GC_fnlz_roots (queued java has_proc s t R)) with t. by rewrite Eh, some_bind, Hp, some_bind. }
  rewrite Eu. clear Eu. apply lookup_lt_Some in Hl as Hi. set (w := world s).
  destruct (loop_spec_rel
    (fun n '(pr, cu, s') => exists l1 l2 t', l = l1 ++ l2 /\ n = length l2
       /\ s' = queued java has_proc s t' (R ++ unmarked_cells w l1)
       /\ frep t' (<[i := marked_cells w l1 ++ l2]> cs) (reverse (unmarked_cells w l1) ++ ql)
       /\ pr = last_addr NULL (marked_cells w l1) /\ cu = first_addr l2 /\ log_size t' = log_size t)
    (fun o => exists t', o = Some (queued java has_proc s t' (R ++ unmarked_cells w l))
       /\ frep t' (<[i := marked_cells w l]> cs) (reverse (unmarked_cells w l) ++ ql) /\ log_size t' = log_size t)
    (enqueue_body java has_proc i) (length l) (NULL, p, queued java has_proc s t R)) as (o & Eo & t' & -> & H); [| | |].
  - intros n [[pr cu] s'] (l1 & l2 & t' & -> & -> & -> & F' & -> & -> & Hlg).
    destruct l2 as [|[a [k v]] l2].
    { rewrite !app_nil_r in *. cbn. by exists t'. }
    assert (Fo : found t' (<[i := marked_cells w l1 ++ (a, (k, v)) :: l2]> cs) k i (marked_cells w l1) a v l2).
    { assert (Hl' : <[i := marked_cells w l1 ++ (a, (k, v)) :: l2]> cs !! i = Some (marked_cells w l1 ++ (a, (k, v)) :: l2)) by by apply list_lookup_insert_eq.
      split; [|done]. erewrite bucket_hash; [by rewrite Nat2Z.id|apply F'|exact Hl'|]. rewrite keys_app. set_solver. }
    assert (Hmk : is_marked k (world (queued java has_proc s t' (R ++ unmarked_cells w l1))) = is_marked k w).
    { cbn. destruct java; [done|]. rewrite set_all_marked.
      - rewrite bool_decide_false, orb_false_r; [done|]. rewrite app_assoc, keys_app in Hnd.
        apply NoDup_app in Hnd as (_ & Hnd & _). intros Hin. apply (Hnd k); [|by left]. rewrite keys_app in *.
        apply elem_of_app in Hin as [Hin|Hin]; [set_solver|]. apply elem_of_app. right.
        apply list_elem_of_fmap in Hin as (c & -> & Hin). apply list_elem_of_filter in Hin as [_ Hin]. by apply (list_elem_of_fmap_2 (fun c => c.2.1)).
      - intros c Hc'. apply Ho. apply elem_of_app in Hc' as [?|Hc']; [set_solver|]. apply list_elem_of_filter in Hc' as [_ ?]. set_solver.
      - apply (Ho (a, (k, v))). set_solver. }
    destruct (is_marked k w) eqn:Em.
    + destruct (found_node t' _ k a i v _ l2 (proj1 F') Fo) as (n & En & Hn). apply seg_first in Hn.
      destruct (frep_found_fresh t' _ _ k a i v _ l2 F' Fo) as (_ & _ & Ha).
      cbn [enqueue_body first_addr fst]. rewrite (proj2 (Z.eqb_neq a NULL)) by lia. cbn [GC_fnlz_roots queued world]. rewrite En. cbn [hidden_key next].
      rewrite reveal_hide. cbn [world queued] in Hmk. rewrite Hmk. cbn [negb].
      exists (length l2). cbn [length]. split; [lia|]. exists (l1 ++ [(a, (k, v))]), l2, t'.
      assert (Es : marked_cells w (l1 ++ [(a, (k, v))]) = marked_cells w l1 ++ [(a, (k, v))]).
      { unfold marked_cells. rewrite filter_app, filter_cons_True by done. done. }
      assert (Eg : unmarked_cells w (l1 ++ [(a, (k, v))]) = unmarked_cells w l1).
      { unfold unmarked_cells. rewrite filter_app, filter_cons_False by (cbn; tauto). by rewrite filter_nil, app_nil_r. }
      rewrite Es, Eg, <- !app_assoc, last_addr_snoc. by split_and!.
    + destruct (enqueue_step java has_proc s t' _ _ (R ++ unmarked_cells w l1) i a k v _ l2 F' Fo Hmk) as (t2 & E2 & F2 & Hlg2).
      cbn [first_addr fst]. rewrite E2. rewrite list_insert_insert_eq in F2.
      exists (length l2). cbn [length]. split; [lia|]. exists (l1 ++ [(a, (k, v))]), l2, t2.
      assert (Es : marked_cells w (l1 ++ [(a, (k, v))]) = marked_cells w l1).
      { unfold marked_cells. rewrite filter_app, filter_cons_False by (cbn; congruence). by rewrite filter_nil, app_nil_r. }
      assert (Eg : unmarked_cells w (l1 ++ [(a, (k, v))]) = unmarked_cells w l1 ++ [(a, (k, v))]).
      { unfold unmarked_cells. rewrite filter_app, filter_cons_True by (cbn; congruence). done. }
      rewrite Es, Eg, <- !app_assoc, reverse_snoc. split_and!; try done. congruence.
  - exists [], l, t. apply seg_first in Hc. change (unmarked_cells w []) with (@nil cell). change (marked_cells w [] ++ l) with l.
    rewrite app_nil_r, (list_insert_id cs i l Hl). by split_and!.
  - by eapply chain_length; [apply F|].
  - exists t'. by rewrite Eo.
Qed.

Lemma enqueue_chains_spec (java has_proc : bool) s (n i : nat) (t : hashtbl fo_rest) cs ql R :
  frep t cs ql -> (i + n = length cs)%nat -> (forall c, c ∈ R ++ concat (drop i cs) -> obj (world s) c.2.1) ->
  NoDup (keys (R ++ concat (drop i cs))) ->
  exists t', enqueue_chains java has_proc i n (queued java has_proc s t R)
             = Some (queued java has_proc s t' (R ++ unmarked_cells (world s) (concat (drop i cs))))
  /\ frep t' (take i cs ++ (marked_cells (world s) <$> drop i cs)) (reverse (unmarked_cells (world s) (concat (drop i cs))) ++ ql).
Proof.
  revert i t cs ql R. induction n as [|n IH]; intros i t cs ql R F Hn Ho Hnd.
  - exists t. rewrite drop_ge, take_ge by lia. cbn [concat fmap list_fmap]. change (unmarked_cells (world s) []) with (@nil cell).
    by rewrite !app_nil_r.
  - destruct (lookup_lt_is_Some_2 cs i) as [l Hl]; [lia|]. rewrite (drop_S cs l i Hl) in *. cbn [concat] in Ho, Hnd.
    rewrite app_assoc in Ho, Hnd.
    destruct (enqueue_chain_spec java has_proc s t cs ql R i l F Hl) as (t1 & E1 & F1 & Hlg1).
    { intros c Hc. apply Ho. set_solver. }
    { rewrite keys_app in Hnd. by apply NoDup_app_l in Hnd. }
    set (w := world s) in *.
    assert (HR : forall c, c ∈ R ++ unmarked_cells w l -> c ∈ R ++ l).
    { intros c [Hc|Hc]%elem_of_app; [set_solver|]. apply list_elem_of_filter in Hc as [_ Hc]. set_solver. }
    destruct (IH (S i) t1 (<[i := marked_cells w l]> cs) _ (R ++ unmarked_cells w l) F1) as (t2 & E2 & F2).
    { rewrite length_insert. lia. }
    { rewrite drop_insert_lt by lia. intros c [Hc|Hc]%elem_of_app; apply Ho; [apply HR in Hc|]; set_solver. }
    { rewrite drop_insert_lt by lia. rewrite !keys_app in *. apply NoDup_app in Hnd as (Hnd1 & Hnd2 & Hnd3).
      apply NoDup_app in Hnd1 as (Hnd1 & Hnd4 & Hnd5).
      assert (Hsub : keys (unmarked_cells w l) `sublist_of` keys l).
      { unfold keys, unmarked_cells. apply fmap_sublist, sublist_filter. }
      assert (Hin : forall x, x ∈ keys (unmarked_cells w l) -> x ∈ keys l).
      { intros x Hx. eapply elem_of_submseteq; [exact Hx|by apply sublist_submseteq]. }
      apply NoDup_app. split_and!; [|set_solver|done]. apply NoDup_app. split_and!; [done|set_solver|].
      by apply (sublist_NoDup _ (keys l)). }
    exists t2. cbn [enqueue_chains]. rewrite E1, some_bind, E2. rewrite drop_insert_lt in * by lia. fold w in F2. cbn [concat].
    unfold unmarked_cells at 3 4. rewrite filter_app. fold (unmarked_cells w l) (unmarked_cells w (concat (drop (S i) cs))).
    split; [by rewrite app_assoc|]. erewrite take_S_r in F2 by (apply list_lookup_insert_eq; lia). rewrite take_insert_ge in F2 by lia.
    rewrite <- app_assoc in F2. rewrite reverse_app, <- app_assoc. exact F2.
Qed.

Lemma concat_marked w cs : concat (marked_cells w <$> cs) = marked_cells w (concat cs).
Proof. induction cs as [|l cs IH]; [done|]. cbn. unfold marked_cells in *. by rewrite filter_app, IH. Qed.

Lemma mark_cells_obj w l (q : Z) : obj (foldl mark_cell w l) q <-> obj w q.
Proof.
  revert w. induction l as [|c l IH]; intros w; cbn; [done|]. rewrite IH. unfold mark_cell. destruct (negb _); [apply obj_mark_fo|done].
Qed.

Lemma mark_cells_base w l (q : Z) : obj_base q (foldl mark_cell w l) = obj_base q w.
Proof.
  revert w. induction l as [|c l IH]; intros w; cbn; [done|]. rewrite IH. unfold mark_cell. destruct (negb _); [apply base_mark_fo|done].
Qed.

Lemma mark_cells_load w l (q : Z) : load q (foldl mark_cell w l) = load q w.
Proof.
  revert w. induction l as [|c l IH]; intros w; cbn; [done|]. rewrite IH. unfold mark_cell. destruct (negb _); [apply load_mark_fo|done].
Qed.

Lemma mark_cells_mono w l (q : Z) :
  (forall c, c ∈ l -> obj w c.2.1) -> obj w q -> is_marked q w = true -> is_marked q (foldl mark_cell w l) = true.
Proof.
  revert w. induction l as [|c l IH]; intros w Hl Hq Hm; cbn; [done|]. apply IH.
  - intros c' Hc'. unfold mark_cell. destruct (negb _); [apply obj_mark_fo|]; apply Hl; by right.
  - unfold mark_cell. destruct (negb _); [by apply obj_mark_fo|done].
  - unfold mark_cell. destruct (negb _); [apply marked_fo_mono; [apply Hl; by left|done..]|done].
Qed.

Lemma fo_size_length (t : hashtbl fo_rest) cs : rep t cs -> fo_size t = length cs.
Proof.
  intros (_ & Hh & _). unfold fo_size. destruct (head t) as [hs|]; [|by destruct Hh as [-> _]].
  destruct Hh as [Hlen HF]. rewrite Z.shiftl_1_l, <- Hlen, Nat2Z.id. by eapply Forall2_length.
Qed.

(** Marks after the first loop, and the entries the second one queues. *)
Definition marks1 w cs : W := foldl mark_cell w (concat cs).

Lemma find_finalizable_spec (java has_proc : bool) s cs ql :
  frep (GC_fnlz_roots s) cs ql -> (forall c, c ∈ concat cs -> obj (world s) c.2.1) ->
  let w1 := marks1 (world s) cs in
  let Q := unmarked_cells w1 (concat cs) in
  exists t' cs', find_finalizable java has_proc s = Some (queued java has_proc (set_bytes 0 (set_world w1 s)) t' Q)
  /\ frep t' cs' (reverse Q ++ ql) /\ concat cs' = marked_cells w1 (concat cs).
Proof.
  intros F Ho. cbn zeta. set (w1 := marks1 (world s) cs).
  destruct (enqueue_chains_spec java has_proc (set_bytes 0 (set_world w1 s)) (length cs) 0 (GC_fnlz_roots s) cs ql [] F) as (t' & E & F').
  - done.
  - rewrite drop_0. intros c Hc. apply mark_cells_obj. by apply Ho.
  - rewrite drop_0. apply F.
  - rewrite drop_0, take_0 in *. exists t', (marked_cells w1 <$> cs). split_and!; [|exact F'|by rewrite concat_marked].
    unfold find_finalizable. rewrite (fo_size_length _ cs (proj1 F)).
    rewrite (mark_chains_spec _ cs (length cs) 0 (world s) (proj1 F)) by done. rewrite some_bind, drop_0.
    fold (marks1 (world s) cs). fold w1. 
    pose proof (queued_nil java has_proc (set_bytes 0 (set_world w1 s))) as Hq.
    change (GC_fnlz_roots (set_bytes 0 (set_world w1 s))) with (GC_fnlz_roots s) in Hq. rewrite Hq in E. exact E.
Qed.
End Pass.

(** ** The whole pass *)

Section Whole.
Context {W : Type} `{CW : Collector W} `{!CollectorLaws W}.
Implicit Types (w : W) (s : fstate W).
Notation lcell := (Z * (Z * Z))%type.

Lemma mark_refs_frame (ws : list Z) w :
  (forall q, obj (mark_refs ws w) q <-> obj w q) /\ (forall q, obj_base q (mark_refs ws w) = obj_base q w)
  /\ (forall q, load q (mark_refs ws w) = load q w).
Proof.
  revert w. induction ws as [|x ws IH]; intros w; [done|]. cbn [mark_refs]. destruct (negb _ && negb _); [|apply IH].
  destruct (IH (complete_collection (set_mark_bit x (mark_fo x GC_normal_finalize_mark_proc w)))) as (H1 & H2 & H3). split_and!; intros q.
  - rewrite H1, obj_complete, obj_set_mark. apply obj_mark_fo.
  - rewrite H2, base_complete, base_set. apply base_mark_fo.
  - rewrite H3, load_complete, load_set. apply load_mark_fo.
Qed.

Lemma mark_togglerefs_frame (tg : toggle_state) w :
  (forall q, obj (GC_mark_togglerefs tg w) q <-> obj w q) /\ (forall q, obj_base q (GC_mark_togglerefs tg w) = obj_base q w)
  /\ (forall q, load q (GC_mark_togglerefs tg w) = load q w).
Proof.
  unfold GC_mark_togglerefs. destruct (GC_toggleref_arr tg) as [[p ws]|]; [|done].
  destruct (mark_refs_frame (take (Z.to_nat (GC_toggleref_array_size tg)) ws) (set_mark_bit p w)) as (H1 & H2 & H3). split_and!; intros q.
  - rewrite H1. apply obj_set_mark.
  - rewrite H2. apply base_set.
  - rewrite H3. apply load_set.
Qed.

(** A link entry, where [A] are the addresses of all link entries. *)
Definition link_ok (A : list Z) w (c : lcell) : Prop :=
  c.1 ∈ A /\ obj w c.1 /\ obj w (GC_REVEAL_POINTER c.2.2) /\ c.2.1 mod 8 = 0
  /\ GC_REVEAL_POINTER c.2.2 ∉ A /\ obj_base c.2.1 w ∉ A.

(** [w'] differs from [w] only in memory and in the marks of link entries. *)
Definition same_marks (A : list Z) w w' : Prop :=
  (forall q, obj w' q <-> obj w q) /\ (forall q, obj_base q w' = obj_base q w)
  /\ (forall q, obj w q -> q ∉ A -> is_marked q w' = is_marked q w).

Lemma same_marks_refl (A : list Z) w : same_marks A w w.
Proof. by split_and!. Qed.

Lemma same_marks_trans (A : list Z) w1 w2 w3 : same_marks A w1 w2 -> same_marks A w2 w3 -> same_marks A w1 w3.
Proof.
  intros (H1 & H2 & H3) (G1 & G2 & G3). split_and!.
  - intros q. by rewrite G1.
  - intros q. by rewrite G2.
  - intros q Hq HA. rewrite G3; [by apply H3|by apply H1|done].
Qed.

Lemma same_marks_removed (A : list Z) (d : bool) w (R : list lcell) w' :
  LinksOk.removed d w R w' -> (forall c, c ∈ R -> c.1 ∈ A) -> same_marks A w w'.
Proof.
  intros (H1 & H2 & H3 & _) HR. split_and!; [done..|]. intros q Hq HA. rewrite H3 by done.
  rewrite bool_decide_false; [by rewrite andb_true_r|]. intros (c & -> & Hc)%list_elem_of_fmap. by apply HA, HR.
Qed.

Lemma link_ok_same (A : list Z) w w' (c : lcell) : same_marks A w w' -> link_ok A w c -> link_ok A w' c.
Proof. intros (H1 & H2 & _) (? & ? & ? & ? & ? & ?). unfold link_ok. rewrite !H1, H2. done. Qed.

Lemma keeps_same (A : list Z) (d : bool) w w' (c : lcell) : same_marks A w w' -> link_ok A w c -> LinksOk.keeps d w' c = LinksOk.keeps d w c.
Proof.
  intros (H1 & H2 & H3) (_ & _ & Ho & _ & Hn1 & Hn2). unfold LinksOk.keeps. destruct d; [|by apply H3].
  rewrite H2. destruct (Z.eqb_spec (obj_base c.2.1 w) NULL) as [|Hne]; [done|]. cbn. apply H3; [by apply base_obj|done].
Qed.

Lemma link_ok_clients (A : list Z) w (cs : LinksOk.chains) : (forall c, c ∈ concat cs -> link_ok A w c) -> LinksOk.clients w cs.
Proof.
  intros H c Hc. destruct (H c Hc) as (_ & H1 & H2 & H3 & H4 & H5).
  assert (Hs : forall x, x ∈ addrs (concat cs) -> x ∈ A) by (intros x (c' & -> & Hc')%list_elem_of_fmap; by apply H).
  split_and!; [done..| |]; intros Hin; by apply Hs in Hin.
Qed.

Lemma stay_same (A : list Z) (d : bool) w w' (l : list lcell) :
  same_marks A w w' -> (forall c, c ∈ l -> link_ok A w c) ->
  LinksOk.stay d w' l = LinksOk.stay d w l /\ LinksOk.gone d w' l = LinksOk.gone d w l.
Proof.
  intros Hs Hl. unfold LinksOk.stay, LinksOk.gone. split; apply filter_ext_in; intros c Hc; rewrite (keeps_same A d w w' c Hs); done || by apply Hl.
Qed.

(** The tables and the queue, with the objects they speak about. *)
Definition fin_ok s (csd csl : LinksOk.chains) (csf : chains) (ql : list cell) : Prop :=
  let A := addrs (concat csd) ++ addrs (concat csl) in
  frep (GC_dl_hashtbl s) csd [] /\ frep (GC_ll_hashtbl s) csl [] /\ frep (GC_fnlz_roots s) csf ql
  /\ (forall c, c ∈ concat csd ++ concat csl -> link_ok A (world s) c)
  /\ (forall c, c ∈ concat csf -> obj (world s) c.2.1 /\ c.2.1 ∉ A).

(** One pass over a table of links, relative to marks [w0] that differ from the present
    ones only in link entries. *)
Lemma pass_spec (A : list Z) (d : bool) (t : hashtbl Z) w0 w (cs : LinksOk.chains) :
  frep t cs [] -> same_marks A w0 w -> (forall c, c ∈ concat cs -> link_ok A w0 c) ->
  exists t' w' cs', GC_make_disappearing_links_disappear d t w = Some (t', w')
  /\ frep t' cs' [] /\ concat cs' = LinksOk.stay d w0 (concat cs)
  /\ LinksOk.removed d w (LinksOk.gone d w0 (concat cs)) w' /\ same_marks A w0 w'.
Proof.
  intros F Hs Hl. destruct (stay_same A d w0 w (concat cs) Hs Hl) as [Es Eg].
  destruct (LinksOk.disappear_spec d t w cs [] F) as (t' & w' & cs' & E & F' & Hc & HR & _).
  { apply (link_ok_clients A). intros c Hc. by apply (link_ok_same A w0), Hl. }
  rewrite Es in Hc. rewrite Eg in HR. exists t', w', cs'. split_and!; try done; try apply HR.
  apply (same_marks_trans A w0 w w' Hs). eapply same_marks_removed; [exact HR|].
  intros c Hin. apply list_elem_of_filter in Hin as [_ Hin]. by apply Hl.
Qed.

Lemma link_ok_sub (A A' : list Z) w (c : lcell) :
  link_ok A w c -> c.1 ∈ A' -> (forall x, x ∈ A' -> x ∈ A) -> link_ok A' w c.
Proof. intros (_ & H1 & H2 & H3 & H4 & H5) Hc Hs. split_and!; [done..| |]; intros Hx; by apply Hs in Hx. Qed.

Lemma elem_of_stay (d : bool) w (l : list lcell) (c : lcell) : c ∈ LinksOk.stay d w l -> c ∈ l.
Proof. by intros [_ H]%list_elem_of_filter. Qed.

(** What a pass makes of links and finalizable objects: [w0] are the marks before it, [w1]
    those after marking through finalizable objects, [w2] those at its end. *)
Definition finalize_result (has_proc : bool) s (csd csl : LinksOk.chains) (csf : chains) (ql : list cell) s' : Prop :=
  let A := addrs (concat csd) ++ addrs (concat csl) in
  let w0 := GC_mark_togglerefs (GC_togglerefs s) (world s) in
  exists wd csd' csl' csf',
    let w1 := marks1 wd csf in
    let Q := unmarked_cells w1 (concat csf) in
    let w2 := set_all w1 Q in
    LinksOk.removed false w0 (LinksOk.gone false w0 (concat csd)) wd
    /\ fin_ok s' csd' csl' csf' (reverse Q ++ ql)
    /\ concat csf' = marked_cells w1 (concat csf)
    /\ concat csd' = LinksOk.stay true w2 (LinksOk.stay false w0 (concat csd))
    /\ concat csl' = LinksOk.stay true w2 (LinksOk.stay false w2 (concat csl))
    /\ (forall q, obj (world s) q -> q ∉ A -> is_marked q (world s') = is_marked q w2)
    /\ (forall c, c ∈ Q -> is_marked c.2.1 (world s') = true)
    /\ (forall q, q mod 8 = 0 ->
         load q (world s') = if decide (q ∈ keys (LinksOk.gone false w0 (concat csd)) \/ q ∈ keys (LinksOk.gone false w2 (concat csl)))
                             then NULL else load q (world s))
    /\ GC_bytes_finalized s' = bytes_of 0 Q
    /\ finalized s' = finalized s ++ if has_proc then keys Q else [].

Lemma disappear_dl_eq (d : bool) s (t : hashtbl Z) w :
  GC_make_disappearing_links_disappear d (GC_dl_hashtbl s) (world s) = Some (t, w) -> disappear_dl d s = Some (set_world w (set_dl t s)).
Proof. intros E. unfold disappear_dl. by rewrite E. Qed.

Lemma disappear_ll_eq (d : bool) s (t : hashtbl Z) w :
  GC_make_disappearing_links_disappear d (GC_ll_hashtbl s) (world s) = Some (t, w) -> disappear_ll d s = Some (set_world w (set_ll t s)).
Proof. intros E. unfold disappear_ll. by rewrite E. Qed.

Lemma finalize_spec (need has_proc : bool) (fails : Z) s (csd csl : LinksOk.chains) (csf : chains) (ql : list cell) :
  fin_ok s csd csl csf ql ->
  exists s', GC_finalize false need has_proc fails s = Some s' /\ finalize_result has_proc s csd csl csf ql s'.
Proof.
  intros (Fd & Fl & Ff & Hlk & Hfo). set (A := addrs (concat csd) ++ addrs (concat csl)) in *.
  destruct (mark_togglerefs_frame (GC_togglerefs s) (world s)) as (T1 & T2 & T3).
  set (w0 := GC_mark_togglerefs (GC_togglerefs s) (world s)) in *.
  assert (Hlk0 : forall c, c ∈ concat csd ++ concat csl -> link_ok A w0 c).
  { intros c Hc. destruct (Hlk c Hc) as (? & ? & ? & ? & ? & ?). unfold link_ok. rewrite !T1, T2. done. }
  (* short links *)
  destruct (pass_spec A false (GC_dl_hashtbl s) w0 w0 csd Fd) as (td & wd & csd1 & Ed & Fd1 & Hcd1 & HRd & Hsd).
  { apply same_marks_refl. }
  { intros c Hc. apply Hlk0. set_solver. }
  (* finalizable objects *)
  set (s1 := set_world wd (set_dl td (set_world w0 (set_old_entries s)))).
  destruct (find_finalizable_spec false has_proc s1 csf ql) as (tf & csf' & Ef & Ff' & Hcf).
  { exact Ff. }
  { intros c Hc. apply Hsd, T1. by apply Hfo. }
  cbn zeta in Ef, Ff', Hcf. change (world s1) with wd in *.
  set (w1 := marks1 wd csf) in *. set (Q := unmarked_cells w1 (concat csf)) in *. set (w2 := set_all w1 Q) in *.
  assert (Ho2 : forall q, obj w2 q <-> obj (world s) q).
  { intros q. unfold w2. rewrite set_all_obj. unfold w1, marks1. rewrite mark_cells_obj, (proj1 Hsd). apply T1. }
  assert (Hb2 : forall q, obj_base q w2 = obj_base q (world s)).
  { intros q. unfold w2. rewrite set_all_base. unfold w1, marks1. rewrite mark_cells_base, (proj1 (proj2 Hsd)). apply T2. }
  assert (Hlk2 : forall c, c ∈ concat csd ++ concat csl -> link_ok A w2 c).
  { intros c Hc. destruct (Hlk c Hc) as (? & ? & ? & ? & ? & ?). unfold link_ok. rewrite !Ho2, Hb2. done. }
  set (s2 := queued false has_proc (set_bytes 0 (set_world w1 s1)) tf Q) in *.
  (* dangling short links *)
  destruct (pass_spec A true td w2 w2 csd1 Fd1) as (td2 & w3 & csd2 & Ed2 & Fd2 & Hcd2 & HRd2 & Hsd2).
  { apply same_marks_refl. }
  { intros c Hc. rewrite Hcd1 in Hc. apply elem_of_stay in Hc. apply Hlk2. set_solver. }
  (* long links *)
  destruct (pass_spec A false (GC_ll_hashtbl s) w2 w3 csl Fl Hsd2) as (tl & w4 & csl1 & El & Fl1 & Hcl1 & HRl & Hsl).
  { intros c Hc. apply Hlk2. set_solver. }
  destruct (pass_spec A true tl w2 w4 csl1 Fl1 Hsl) as (tl2 & w5 & csl2 & El2 & Fl2 & Hcl2 & HRl2 & Hsl2).
  { intros c Hc. rewrite Hcl1 in Hc. apply elem_of_stay in Hc. apply Hlk2. set_solver. }
  eexists. split.
  { unfold GC_finalize. cbv zeta. change (world (set_old_entries s)) with (world s). change (GC_togglerefs (set_old_entries s)) with (GC_togglerefs s).
    fold w0. rewrite (disappear_dl_eq false _ td wd) by exact Ed. fold s1. rewrite some_bind, Ef, some_bind, some_bind. fold s2.
    rewrite (disappear_dl_eq true s2 td2 w3) by exact Ed2. rewrite some_bind.
    rewrite (disappear_ll_eq false _ tl w4) by exact El. rewrite some_bind.
    rewrite (disappear_ll_eq true _ tl2 w5) by exact El2. rewrite some_bind. reflexivity. }
  assert (Hw : forall x : fstate W, world (if 0 <? fails then set_nested 0 x else x) = world x) by by destruct (0 <? fails).
  assert (Hsub : forall x, x ∈ addrs (concat csd2) ++ addrs (concat csl2) -> x ∈ A).
  { intros x. subst A. rewrite Hcd2, Hcd1, Hcl2, Hcl1. intros [Hx|Hx]%elem_of_app; apply list_elem_of_fmap in Hx as (c & -> & Hx);
      apply elem_of_stay, elem_of_stay in Hx; apply elem_of_app; [left|right]; by apply list_elem_of_fmap_2. }
  assert (Hlk5 : forall c, c ∈ concat csd2 ++ concat csl2 -> link_ok A w5 c).
  { intros c Hc. apply (link_ok_same A w2); [done|]. apply Hlk2. rewrite Hcd2, Hcd1, Hcl2, Hcl1 in Hc.
    apply elem_of_app in Hc as [Hc|Hc]; apply elem_of_stay, elem_of_stay in Hc; set_solver. }
  assert (HoQ : forall c, c ∈ Q -> obj w1 c.2.1 /\ c.2.1 ∉ A).
  { intros c Hc. apply list_elem_of_filter in Hc as [_ Hc]. split; [|by apply Hfo]. unfold w1, marks1. apply mark_cells_obj, Hsd, T1. by apply Hfo. }
  exists wd, csd2, csl2, csf'. cbn zeta. fold w1. fold Q. fold w2. fold A. rewrite ?Hw. split_and!.
  - exact HRd.
  - unfold fin_ok. rewrite !Hw. cbn [GC_dl_hashtbl GC_ll_hashtbl GC_fnlz_roots].
    assert (Ht : forall x : fstate W, GC_dl_hashtbl (if 0 <? fails then set_nested 0 x else x) = GC_dl_hashtbl x
      /\ GC_ll_hashtbl (if 0 <? fails then set_nested 0 x else x) = GC_ll_hashtbl x
      /\ GC_fnlz_roots (if 0 <? fails then set_nested 0 x else x) = GC_fnlz_roots x) by by destruct (0 <? fails).
    destruct (Ht (set_world w5 (set_ll tl2 (set_world w4 (set_ll tl (set_togglerefs (GC_clear_togglerefs (GC_togglerefs (set_world w3 (set_dl td2 s2)))
       (world (set_world w3 (set_dl td2 s2)))) (set_world w3 (set_dl td2 s2)))))))) as (-> & -> & ->).
    split_and!; [exact Fd2|exact Fl2|exact Ff'| |].
    + intros c Hc. apply (link_ok_sub A); [by apply Hlk5| |done]. unfold addrs. rewrite <- fmap_app. by apply list_elem_of_fmap_2.
    + intros c Hc. rewrite Hcf in Hc. apply list_elem_of_filter in Hc as [_ Hc]. destruct (Hfo c Hc) as [Hc1 Hc2].
      split; [|intros Hx; by apply Hc2, Hsub]. cbn. by apply Hsl2, Ho2.
  - exact Hcf.
  - by rewrite Hcd2, Hcd1.
  - by rewrite Hcl2, Hcl1.
  - intros q Hq HA. cbn. apply Hsl2; [by apply Ho2|done].
  - intros c Hc. destruct (HoQ c Hc) as [Hc1 Hc2]. cbn. rewrite (proj2 (proj2 Hsl2)); [|unfold w2; by apply set_all_obj|done].
    unfold w2. rewrite set_all_marked; [|intros c' Hc'; by apply HoQ|done].
    rewrite (bool_decide_true (c.2.1 ∈ keys Q)) by by apply (list_elem_of_fmap_2 (fun c => c.2.1)). apply orb_true_r.
  - intros q Hq. cbn. destruct HRl2 as (_ & _ & _ & L5). rewrite (L5 q Hq). cbn [negb andb].
    destruct HRl as (_ & _ & _ & L4). rewrite (L4 q Hq). cbn [negb andb].
    destruct HRd2 as (_ & _ & _ & L3). rewrite (L3 q Hq). cbn [negb andb].
    assert (L2 : load q w2 = load q wd) by (unfold w2; rewrite set_all_load; unfold w1, marks1; apply mark_cells_load). rewrite L2.
    destruct HRd as (_ & _ & _ & Ld). rewrite (Ld q Hq), T3. cbn [negb andb].
    destruct (decide (_ \/ _)) as [Hd|Hd].
    + case_bool_decide as H1; [done|]. rewrite bool_decide_true by tauto. done.
    + rewrite !bool_decide_false by tauto. done.
  - by destruct (0 <? fails).
  - by destruct (0 <? fails).
Qed.
End Whole.

(** ** Running finalizers *)

Section Run.
Context {W : Type} `{CW : Collector W}.
Implicit Types (w : W) (s : fstate W) (l ql : list cell) (cs : chains).

(** Finalizers that do not use the finalization interface themselves: their effect is
    one on the heap. *)
Context (act : Z -> Z -> Z -> W -> W).
Definition plain_call (fn o cd : Z) s : fstate W := set_world (act fn o cd (world s)) s.

Definition run_one w (c : cell) : W := act (fo_fn c.2.2) c.2.1 (fo_client_data c.2.2) w.
Definition run_all w l : W := foldl run_one w l.

Lemma invoke_step (interrupt : Z) (all : bool) (count : Z) s cs ql (c : cell) :
  frep (GC_fnlz_roots s) cs (c :: ql) -> (interrupt = 0 \/ all = true \/ count < interrupt) ->
  exists t', invoke_body plain_call interrupt all (count, s) = inl (count + 1, set_fo t' (set_world (run_one (world s) c) s))
  /\ frep t' cs ql.
Proof.
  intros F Hint. destruct c as [a [k v]]. destruct (frep_dequeue _ cs ql a k v F) as (n & Ef & Ha & En & F' & Hfr).
  cbn [invoke_body]. unfold GC_should_invoke_finalizers. rewrite Ef, (proj2 (Z.eqb_neq _ _) Ha). cbn [negb].
  assert ((negb (count =? 0) && negb (interrupt =? 0) && negb all && (interrupt <=? count)) = false) as ->.
  { destruct Hint as [-> |[-> |Hlt]].
    - by rewrite Z.eqb_refl, andb_false_r.
    - by rewrite andb_false_r.
    - rewrite (proj2 (Z.leb_gt _ _)) by lia. apply andb_false_r. }
  rewrite En. cbn [next rest hidden_key]. eexists. split.
  - unfold plain_call, run_one. cbn. reflexivity.
  - cbn. apply (frep_nodes (set_nodes _ (set_finalize_now n (GC_fnlz_roots s)))).
    + apply (frep_nodes (set_finalize_now n (GC_fnlz_roots s))); [done|]. intros b Hb. apply lookup_alter_ne. by intros <-.
    + intros b Hb. apply lookup_alter_ne. by intros <-.
Qed.

(** How many finalizers one call runs. *)
Definition batch (interrupt : Z) (all : bool) (n : nat) : nat :=
  if (interrupt =? 0) || all then n else Nat.min n (Z.to_nat interrupt).

Lemma invoke_spec (interrupt : Z) (all : bool) s cs ql :
  frep (GC_fnlz_roots s) cs ql -> 0 <= interrupt ->
  let k := batch interrupt all (length ql) in
  exists t', invoke_finalizers_internal plain_call interrupt all s
             = Some (Z.of_nat k, set_fo t' (set_world (run_all (world s) (take k ql)) s))
  /\ frep t' cs (drop k ql).
Proof.
  intros F Hi k.
  assert (Hk : (k <= length ql)%nat) by (unfold k, batch; destruct (_ || _); lia).
  assert (HW : Z.of_nat (length ql) < W64).
  { destruct F as (R & _ & Hn & Ha). rewrite addrs_app in Hn. apply NoDup_app_l in Hn.
    assert (E : length ql = length ((fun a => a - 1) <$> addrs ql)) by (unfold addrs; by rewrite !length_fmap).
    rewrite E. assert (0 < W64) by (unfold W64; lia).
    assert (Z.of_nat (length ((fun a => a - 1) <$> addrs ql)) <= Z.max 0 (W64 - 1)); [|lia].
    apply NoDup_Z_length.
    - apply NoDup_fmap_2; [|done]. intros x y. lia.
    - intros z (a & -> & Hin)%list_elem_of_fmap. specialize (Ha a Hin). lia. }
  destruct (loop_count
    (fun j st => exists t', st = (Z.of_nat j, set_fo t' (set_world (run_all (world s) (take j ql)) s)) /\ frep t' cs (drop j ql))
    (fun o => exists t', o = Some (Z.of_nat k, set_fo t' (set_world (run_all (world s) (take k ql)) s)) /\ frep t' cs (drop k ql))
    (invoke_body plain_call interrupt all) k (0, s)) as (o & E & t' & -> & F').
  - lia.
  - intros j st Hj (t' & -> & F'). destruct (lookup_lt_is_Some_2 ql j) as [c Hc]; [lia|]. rewrite (drop_S ql c j Hc) in F'.
    destruct (invoke_step interrupt all (Z.of_nat j) (set_fo t' (set_world (run_all (world s) (take j ql)) s)) cs (drop (S j) ql) c F') as (t2 & E2 & F2).
    { unfold k, batch in Hj. destruct (Z.eqb_spec interrupt 0); [by left|]. destruct all; [by right; left|]. cbn in Hj. right. right. lia. }
    eexists. split; [exact E2|]. exists t2. split; [|done]. rewrite (take_S_r ql j c Hc). unfold run_all. rewrite foldl_app.
    f_equal. lia.
  - intros st (t' & -> & F'). eexists. split; [|by exists t']. cbn [invoke_body]. unfold GC_should_invoke_finalizers.
    change (GC_fnlz_roots (set_fo t' (set_world (run_all (world s) (take k ql)) s))) with t'.
    destruct (decide (k = length ql)) as [Ek|Hne].
    + assert (En : finalize_now t' = NULL) by (rewrite Ek, drop_ge in F' by lia; apply F'). rewrite En. done.
    + assert (Hks : k = Z.to_nat interrupt /\ interrupt <> 0 /\ all = false).
      { unfold k, batch in *. destruct (Z.eqb_spec interrupt 0), all; cbn in *; lia. }
      destruct Hks as (Hks & Hi0 & ->).
      destruct (finalize_now t' =? NULL); [done|]. cbn [negb].
      rewrite (proj2 (Z.eqb_neq _ 0)) by lia. rewrite (proj2 (Z.eqb_neq interrupt 0)) by done.
      rewrite (proj2 (Z.leb_le _ _)) by lia. done.
  - exists (GC_fnlz_roots s). split; [|done]. destruct s. done.
  - exists t'. split; [|done]. unfold invoke_finalizers_internal. by rewrite E.
Qed.

(** A call from inside a finalizer does nothing; otherwise the finalizers are run and the
    nesting flag is reset. *)
Lemma invoke_finalizers_spec (interrupt : Z) s cs ql :
  frep (GC_fnlz_roots s) cs ql -> 0 <= interrupt ->
  if decide (GC_finalizer_nested s = 0) then
    let k := batch interrupt false (length ql) in
    exists t', GC_invoke_finalizers plain_call interrupt s
               = Some (Z.of_nat k, set_nested 0 (set_fo t' (set_world (run_all (world s) (take k ql)) s)))
    /\ frep t' cs (drop k ql)
  else GC_invoke_finalizers plain_call interrupt s = Some (0, s).
Proof.
  intros F Hi. unfold GC_invoke_finalizers, GC_check_finalizer_nested. destruct (decide _) as [->|Hne]; [|by rewrite (proj2 (Z.eqb_neq _ _) Hne)].
  rewrite Z.eqb_refl. cbn [negb]. cbn zeta.
  destruct (invoke_spec interrupt false (set_nested 1 s) cs ql F Hi) as (t' & E & F'). cbn zeta in E. rewrite E, some_bind.
  exists t'. split; [|done]. done.
Qed.

(** ** Running all finalizers *)









End Run.

(** ** Theorems *)


(** C21: the finalization pass of a collection ends and keeps the tables of links, the table of
    finalizable objects and the queue.  It queues exactly the finalizable objects that are
    unmarked after everything reachable from finalizable objects is marked, and marks them,
    so that they survive until their finalizers have run.  Short links disappear by the marks
    before that, long links by the marks after it, exactly their words are cleared, and links
    in unmarked objects are dropped. *)
Theorem GC_finalize_correct {W : Type} `{CollectorLaws W} (need has_proc : bool) (fails : Z) (s : fstate W)
    (csd csl : LinksOk.chains) (csf : chains) (ql : list cell) (F : fin_ok s csd csl csf ql) :
  exists s', GC_finalize false need has_proc fails s = Some s' /\ finalize_result has_proc s csd csl csf ql s'.
Proof. by apply finalize_spec. Qed.

(** Finalizers are taken off the queue one by one and run, in order, up to the interrupt
    limit; a nested call does nothing. *)
Theorem GC_invoke_finalizers_correct {W : Type} `{Collector W} (act : Z -> Z -> Z -> W -> W) (interrupt : Z) (s : fstate W) (cs : chains) (ql : list cell)
    (F : frep (GC_fnlz_roots s) cs ql) (Hi : 0 <= interrupt) :
  if decide (GC_finalizer_nested s = 0) then
    let k := batch interrupt false (length ql) in
    exists t', GC_invoke_finalizers (plain_call act) interrupt s
               = Some (Z.of_nat k, set_nested 0 (set_fo t' (set_world (run_all act (world s) (take k ql)) s)))
    /\ frep t' cs (drop k ql)
  else GC_invoke_finalizers (plain_call act) interrupt s = Some (0, s).
Proof. by apply invoke_finalizers_spec. Qed.



(** The heap of [LinksOk.sample_heap], where the unmarked object has a finalizer. *)
Definition sample_state : fstate sheap :=
  FState (one_entry 8192 4128 (GC_HIDE_POINTER 4096)) empty_table
    (one_entry 8256 4096 (FoRest 7 GC_normal_finalize_mark_proc 9 32)) (ToggleState None 0 0) 0 0 0 0 [] LinksOk.sample_heap.

Definition sample_links : LinksOk.chains := [[(8192, (4128, GC_HIDE_POINTER 4096))]; []].
Definition sample_fos : chains := [[(8256, (4096, FoRest 7 GC_normal_finalize_mark_proc 9 32))]; []].

Lemma sample_state_ok : fin_ok sample_state sample_links [] sample_fos [].
Proof.
  split_and!.
  - apply frep_one; [done|unfold W64; lia].
  - apply frep_empty.
  - apply frep_one; [done|unfold W64; lia].
  - intros c Hc. apply list_elem_of_singleton in Hc. subst c. vm_compute. split_and!; try (repeat constructor); try done;
      intros Hx; apply list_elem_of_singleton in Hx; done.
  - intros c Hc. apply list_elem_of_singleton in Hc. subst c. split; [vm_compute; constructor|].
    intros Hx. vm_compute in Hx. apply list_elem_of_singleton in Hx. done.
Qed.

Lemma GC_finalize_correct_witness :
  exists s', GC_finalize false false true 0 sample_state = Some s' /\ load 4128 (world s') = NULL /\ is_marked 4096 (world s') = true
  /\ finalized s' = [4096].
Proof.
  destruct (GC_finalize_correct false true 0 sample_state sample_links [] sample_fos [] sample_state_ok)
    as (s' & E & wd & csd' & csl' & csf' & HR & _).
  exists s'. split; [done|]. vm_compute in E. injection E as <-. vm_compute. done.
Defined.

End FinalizeOk.
