(* ===== verification/Scratch.v ===== *)
(** * The scratch allocator (headers.c, [GC_scratch_alloc])

    Collector data structures that are never freed come from a bump allocator
    over memory obtained from the operating system.  [GC_os_get_mem] is outside
    the model: [os_results] lists the addresses the system offers to its
    successive calls and [os_log] records the areas obtained with their sizes.
    The documented contract of the call, a block-aligned chunk of memory that is
    not already in use or [NULL], is built in: an offer that breaks it counts as
    a failure, so every behaviour of a system that keeps the contract is some
    list of offers. *)

From Stdlib Require Import ZArith Lia.
From stdpp Require Import base gmap list.
From S2P Require Import Prelude.

Module Scratch.

Record scratch_state := ScratchState {
  GC_scratch_free_ptr : Z;
  GC_scratch_end_addr : Z;
  GC_page_size : Z;
  os_results : list Z;
  os_log : list (Z * Z)
}.

(** An offer of [bytes] bytes at [r] that respects the contract. *)
Definition os_grants (r bytes : Z) (log : list (Z * Z)) : bool :=
  (HBLKSIZE <=? r) && (modHBLKSZ r =? 0) && (0 <=? bytes) && (r + bytes <=? GC_SIZE_MAX)
  && forallb (fun o => (r + bytes <=? o.1) || (o.1 + o.2 <=? r)) log.

(** What [GC_os_get_mem] gives, recorded in the log when it succeeds. *)
Definition os_get_mem (bytes : Z) (st : scratch_state) : Z * scratch_state :=
  let with_log rs log :=
    ScratchState (GC_scratch_free_ptr st) (GC_scratch_end_addr st) (GC_page_size st) rs log in
  match os_results st with
  | [] => (NULL, st)
  | r :: rs =>
    if os_grants r bytes (os_log st)
    then (r, with_log rs ((r, bytes) :: os_log st))
    else (NULL, with_log rs (os_log st))
  end.

Definition ROUNDUP_PAGESIZE (st : scratch_state) (lb : Z) : Z :=
  Z.land (SIZET_SAT_ADD lb (GC_page_size st - 1)) (Z.lnot (GC_page_size st - 1)).

Definition set_scratch (free_ptr end_addr : Z) (st : scratch_state) : scratch_state :=
  ScratchState free_ptr end_addr (GC_page_size st) (os_results st) (os_log st).

(** One pass of the [for (;;)] loop; [result] is the loop's pointer variable. *)
Definition scratch_body (bytes : Z) (s : Z * scratch_state)
    : Z * scratch_state + Z * scratch_state :=
  let '(result, st) := s in
  if bytes <=? GC_scratch_end_addr st - result then
    inr (result, set_scratch (result + bytes) (GC_scratch_end_addr st) st)
  else if MINHINCR * HBLKSIZE <=? bytes then
    inr (os_get_mem (ROUNDUP_PAGESIZE st bytes) st)
  else
    let bytes_to_get := ROUNDUP_PAGESIZE st (MINHINCR * HBLKSIZE) in
    let '(result, st) := os_get_mem bytes_to_get st in
    if result =? NULL then inr (os_get_mem (ROUNDUP_PAGESIZE st bytes) st)
    else inl (result, set_scratch result (result + bytes_to_get) st).

Definition GC_scratch_alloc (bytes : Z) (st : scratch_state) : option (Z * scratch_state) :=
  loop (scratch_body (ROUNDUP_GRANULE_SIZE bytes)) (GC_scratch_free_ptr st, st).

(** ** Properties *)

(** The page size is a power of two that divides the heap increment. *)
Definition page_ok (st : scratch_state) : Prop :=
  exists k, 0 <= k <= 16 /\ GC_page_size st = 2 ^ k.

Lemma ROUNDUP_PAGESIZE_ge (st : scratch_state) (lb : Z) :
  page_ok st -> 0 <= lb <= GC_SIZE_MAX -> ROUNDUP_PAGESIZE st lb < lb ->
  GC_SIZE_MAX - GC_page_size st < lb.
Proof.
  intros (k & Hk & E) Hlb Hr. unfold ROUNDUP_PAGESIZE in Hr. rewrite E in *.
  destruct (Z.lt_ge_cases lb (GC_SIZE_MAX - (2 ^ k - 1))); [|lia].
  destruct (round_up_pow2 lb k) as [? _]; lia.
Qed.

Lemma ROUNDUP_PAGESIZE_incr (st : scratch_state) :
  page_ok st -> ROUNDUP_PAGESIZE st (MINHINCR * HBLKSIZE) = MINHINCR * HBLKSIZE.
Proof.
  intros (k & Hk & E). unfold ROUNDUP_PAGESIZE. rewrite E.
  assert (Hd : (65536 | 65536)) by done.
  change (MINHINCR * HBLKSIZE) with 65536.
  assert (Hp : 65536 = 2 ^ (16 - k) * 2 ^ k)
    by (rewrite <- Z.pow_add_r by lia; replace (16 - k + k) with 16 by lia; done).
  assert (0 < 2 ^ k <= 65536).
  { split; [lia|]. change 65536 with (2 ^ 16). apply Z.pow_le_mono_r; lia. }
  destruct (round_up_pow2 65536 k) as [Hr Hm]; [lia|unfold GC_SIZE_MAX; lia|].
  set (r := Z.land _ _) in *. clearbody r.
  apply Z.mod_divide in Hm; [|lia]. destruct Hm as [q Hq]. subst r. rewrite Hp in *.
  assert (2 ^ (16 - k) <= q) by nia. assert (q < 2 ^ (16 - k) + 1) by nia. f_equal. lia.
Qed.

(** The loop in closed form: it runs at most twice. *)
Definition scratch_alloc_spec (bytes : Z) (st : scratch_state) (result : Z)
    : Z * scratch_state :=
  if bytes <=? GC_scratch_end_addr st - result then
    (result, set_scratch (result + bytes) (GC_scratch_end_addr st) st)
  else if MINHINCR * HBLKSIZE <=? bytes then os_get_mem (ROUNDUP_PAGESIZE st bytes) st
  else
    let '(r, st') := os_get_mem (MINHINCR * HBLKSIZE) st in
    if r =? NULL then os_get_mem (ROUNDUP_PAGESIZE st' bytes) st'
    else (r, set_scratch (r + bytes) (r + MINHINCR * HBLKSIZE) st').

Lemma os_get_mem_page (bytes : Z) (st : scratch_state) :
  GC_page_size (os_get_mem bytes st).2 = GC_page_size st.
Proof. unfold os_get_mem. destruct (os_results st); [done|]. by case_match. Qed.

Lemma GC_scratch_alloc_eq (bytes : Z) (st : scratch_state) :
  page_ok st ->
  GC_scratch_alloc bytes st
  = Some (scratch_alloc_spec (ROUNDUP_GRANULE_SIZE bytes) st (GC_scratch_free_ptr st)).
Proof.
  intros Hp. unfold GC_scratch_alloc. set (b := ROUNDUP_GRANULE_SIZE bytes).
  apply (loop_eq (fun s => page_ok s.2) (fun s => scratch_alloc_spec b s.2 s.1)
    (fun s => if b <=? GC_scratch_end_addr s.2 - s.1 then 0 else 1)
    (scratch_body b) (GC_scratch_free_ptr st, st)); [|done|cbn; by case_match].
  intros [result s] Hs. cbn [fst snd] in *. unfold scratch_body, scratch_alloc_spec.
  destruct (b <=? GC_scratch_end_addr s - result) eqn:E1; [done|].
  destruct (MINHINCR * HBLKSIZE <=? b) eqn:E2; [done|].
  rewrite (ROUNDUP_PAGESIZE_incr _ Hs).
  pose proof (os_get_mem_page (MINHINCR * HBLKSIZE) s) as Hpg.
  destruct (os_get_mem (MINHINCR * HBLKSIZE) s) as [r s'] eqn:Eo. cbn [snd] in Hpg.
  destruct (r =? NULL) eqn:Er; [done|]. cbn [fst snd].
  apply Z.leb_gt in E2.
  assert (E3 : (b <=? GC_scratch_end_addr (set_scratch r (r + MINHINCR * HBLKSIZE) s') - r) = true)
    by (apply Z.leb_le; cbn; lia).
  rewrite E3. repeat split; [|lia..].
  destruct Hs as (k & Hk & E). exists k. split; [done|]. cbn. congruence.
Qed.

(** A run of allocations from [st]; each one that succeeds yields an area. *)
Fixpoint scratch_run (sizes : list Z) (st : scratch_state)
    : option (list (Z * Z) * scratch_state) :=
  match sizes with
  | [] => Some ([], st)
  | b :: sizes =>
    '(r, st) ← GC_scratch_alloc b st;
    '(areas, st) ← scratch_run sizes st;
    Some (if r =? NULL then (areas, st) else ((r, b) :: areas, st))
  end.

Lemma os_grants_spec (r bytes : Z) (log : list (Z * Z)) :
  os_grants r bytes log = true <->
  4096 <= r /\ r mod 4096 = 0 /\ 0 <= bytes /\ r + bytes <= GC_SIZE_MAX
  /\ Forall (disjoint_ranges (r, bytes)) log.
Proof.
  unfold os_grants. rewrite HBLKSIZE_eq, modHBLKSZ_mod.
  rewrite !andb_true_iff, !Z.leb_le, Z.eqb_eq, forallb_forall, List.Forall_forall.
  assert (Hl : (forall x, In x log -> (r + bytes <=? x.1) || (x.1 + x.2 <=? r) = true) <->
    (forall x, In x log -> disjoint_ranges (r, bytes) x)).
  { unfold disjoint_ranges. cbn. split; intros H x Hx; specialize (H x Hx);
      rewrite orb_true_iff, !Z.leb_le in *; done. }
  rewrite Hl. tauto.
Qed.

(** Every area obtained from the system is block-aligned, past the first block,
    and disjoint from the others. *)
Record os_log_ok (log : list (Z * Z)) : Prop := {
  ol_disj : ForallOrdPairs disjoint_ranges log;
  ol_area : Forall (fun o => 4096 <= o.1 /\ o.1 mod 4096 = 0 /\ 0 <= o.2) log
}.

(** Areas in use lie inside memory obtained from the system, do not overlap and
    avoid the unused rest of the current window. *)
Definition window (st : scratch_state) : Z * Z :=
  (GC_scratch_free_ptr st, GC_scratch_end_addr st - GC_scratch_free_ptr st).

Record scratch_inv (used : list (Z * Z)) (st : scratch_state) : Prop := {
  si_page : page_ok st;
  si_log : os_log_ok (os_log st);
  si_in : Forall (fun a => exists o, o ∈ os_log st /\ range_in a o) used;
  si_disj : ForallOrdPairs disjoint_ranges used;
  si_win : window st = (0, 0) \/
    (exists o, o ∈ os_log st /\ range_in (window st) o) /\ Forall (disjoint_ranges (window st)) used
}.

(** The outcomes of a request to the system. *)
Lemma os_get_mem_cases (n : Z) (st : scratch_state) :
  os_log_ok (os_log st) ->
  let '(r, st') := os_get_mem n st in
  GC_page_size st' = GC_page_size st /\ window st' = window st /\ os_log_ok (os_log st')
  /\ ((r = NULL /\ os_log st' = os_log st)
      \/ (4096 <= r /\ os_log st' = (r, n) :: os_log st)).
Proof.
  intros [Hd Ha]. unfold os_get_mem. destruct (os_results st) as [|r rs].
  { repeat split; auto. }
  destruct (os_grants r n (os_log st)) eqn:E; cbn.
  - apply os_grants_spec in E as (? & ? & ? & ? & ?).
    repeat split; [by constructor|by constructor|auto].
  - repeat split; auto.
Qed.

Lemma disjoint_new_region (used log : list (Z * Z)) (o a : Z * Z) :
  ForallOrdPairs disjoint_ranges (o :: log) -> range_in a o ->
  Forall (fun a => exists o, o ∈ log /\ range_in a o) used -> Forall (disjoint_ranges a) used.
Proof.
  intros Hd Ha. inversion Hd as [|? ? Ho _]; subst. rewrite Forall_forall in Ho.
  intros Hin. eapply Forall_impl; [exact Hin|]. intros u (o' & Ho' & Hu).
  eapply disjoint_ranges_in; [|exact Hu]. apply disjoint_ranges_sym.
  eapply disjoint_ranges_in; [|exact Ha]. apply disjoint_ranges_sym. by apply Ho.
Qed.

Lemma Forall_in_cons (used log : list (Z * Z)) (o : Z * Z) :
  Forall (fun a => exists o, o ∈ log /\ range_in a o) used ->
  Forall (fun a => exists o', o' ∈ o :: log /\ range_in a o') used.
Proof.
  intros H. eapply Forall_impl; [exact H|]. intros u (o' & ? & ?). exists o'. by split; [right|].
Qed.

(** Taking memory straight from the system. *)
Lemma scratch_inv_os (used : list (Z * Z)) (st : scratch_state) (n b : Z) :
  scratch_inv used st -> b <= n ->
  let '(r, st') := os_get_mem n st in
  scratch_inv (if r =? NULL then used else (r, b) :: used) st'.
Proof.
  intros [Hp Hl Hin Hd Hw] Hb. pose proof (os_get_mem_cases n st Hl) as Hc.
  destruct (os_get_mem n st) as [r st']. destruct Hc as (Hpg & Hwin & Hl' & Hc).
  assert (Hp' : page_ok st') by (destruct Hp as (k & ? & ?); exists k; split; [done|congruence]).
  destruct Hc as [[-> Hlog]|[Hr Hlog]].
  { cbn. split; rewrite ?Hwin, ?Hlog; auto. }
  destruct (Z.eqb_spec r NULL) as [|_]; [lia|].
  assert (Ha : range_in (r, b) (r, n)) by (unfold range_in; cbn; lia).
  assert (Hld := ol_disj _ Hl'). rewrite Hlog in Hld.
  split; [done|done|..]; rewrite ?Hwin, ?Hlog.
  - constructor; [exists (r, n); split; [by left|done]|]. by apply Forall_in_cons.
  - constructor; [|done]. by eapply disjoint_new_region.
  - destruct Hw as [Hw|[(o & Ho & Hi) Hf]]; [by left|right]. split.
    { exists o. split; [by right|done]. }
    constructor; [|done]. inversion Hld as [|? ? Hr' _]; subst. rewrite Forall_forall in Hr'.
    eapply disjoint_ranges_in; [|exact Ha]. apply disjoint_ranges_sym.
    eapply disjoint_ranges_in; [|exact Hi]. by apply Hr'.
Qed.

Lemma GRANULE_ge (b : Z) : 0 <= b < 2 ^ 63 -> b <= ROUNDUP_GRANULE_SIZE b < b + 16.
Proof.
  intros. destruct (round_up_pow2 b 4) as [Hr _]; [lia|unfold GC_SIZE_MAX; lia|].
  exact Hr.
Qed.

(** Bumping the window. *)
Lemma scratch_inv_bump (used : list (Z * Z)) (st : scratch_state) (b rb : Z) :
  0 <= b <= rb -> rb <= GC_scratch_end_addr st - GC_scratch_free_ptr st ->
  scratch_inv used st ->
  scratch_inv (if GC_scratch_free_ptr st =? NULL then used else (GC_scratch_free_ptr st, b) :: used)
    (set_scratch (GC_scratch_free_ptr st + rb) (GC_scratch_end_addr st) st).
Proof.
  intros Hb Hfit [Hp Hl Hin Hd Hw]. set (f := GC_scratch_free_ptr st) in *.
  set (e := GC_scratch_end_addr st) in *.
  assert (Hw' : window (set_scratch (f + rb) e st) = (f + rb, e - (f + rb))) by done.
  destruct Hw as [[= Hf He]|[(o & Ho & Hi) Hf]].
  { fold f e in Hf, He. destruct (Z.eqb_spec f NULL); [|done].
    split; [done..|]. left. rewrite Hw'. f_equal; lia. }
  assert (Hsub : forall a n, f <= a -> 0 <= n -> a + n <= e -> range_in (a, n) (window st)).
  { intros a n. unfold range_in, window. fold f e. cbn. lia. }
  assert (Hfr : forall a n, f <= a -> 0 <= n -> a + n <= e -> Forall (disjoint_ranges (a, n)) used).
  { intros a n ? ? ?. eapply Forall_impl; [exact Hf|]. intros u Hu.
    eapply disjoint_ranges_sym, disjoint_ranges_in; [by apply disjoint_ranges_sym|].
    by apply Hsub. }
  assert (Hio : forall a n, f <= a -> 0 <= n -> a + n <= e -> range_in (a, n) o).
  { intros a n ? ? ?. pose proof (Hsub a n). unfold range_in in *. cbn in *. lia. }
  assert (Hwn : window (set_scratch (f + rb) e st) = (0, 0) \/
    (exists o, o ∈ os_log st /\ range_in (window (set_scratch (f + rb) e st)) o) /\
    Forall (disjoint_ranges (window (set_scratch (f + rb) e st))) used).
  { right. rewrite Hw'. split; [|apply Hfr; lia]. exists o. split; [done|]. apply Hio; lia. }
  destruct (Z.eqb_spec f NULL); [by split|].
  split; [done|done|..]; cbn [os_log set_scratch].
  - constructor; [|done]. exists o. split; [done|]. apply Hio; lia.
  - constructor; [|done]. apply Hfr; lia.
  - destruct Hwn as [|[? ?]]; [by left|right]. split; [done|]. constructor; [|done].
    rewrite Hw'. unfold disjoint_ranges. cbn. lia.
Qed.

(** Replacing the window by a new area and allocating from its start. *)
Lemma scratch_inv_new_window (used : list (Z * Z)) (st s : scratch_state) (b rb n r : Z) :
  0 <= b <= rb -> rb <= n -> scratch_inv used st -> page_ok s -> os_log_ok (os_log s) ->
  os_log s = (r, n) :: os_log st ->
  scratch_inv ((r, b) :: used) (set_scratch (r + rb) (r + n) s).
Proof.
  intros Hb Hn [_ _ Hin Hd _] Hps Hl Hlog.
  assert (Hsub : forall a m, r <= a -> 0 <= m -> a + m <= r + n -> Forall (disjoint_ranges (a, m)) used).
  { intros a m ? ? ?. eapply (disjoint_new_region used (os_log st) (r, n));
      [rewrite <- Hlog; apply Hl| |done]. unfold range_in. cbn. lia. }
  split; [done|done|..]; cbn [os_log set_scratch]; rewrite ?Hlog.
  - constructor; [exists (r, n); split; [by left|]; unfold range_in; cbn; lia|].
    by apply Forall_in_cons.
  - constructor; [|done]. apply Hsub; lia.
  - right. unfold window; cbn. split.
    + exists (r, n). split; [by left|]. unfold range_in. cbn. lia.
    + constructor; [unfold disjoint_ranges; cbn; lia|]. apply Hsub; lia.
Qed.

Lemma scratch_alloc_step (used : list (Z * Z)) (st : scratch_state) (b : Z) :
  0 <= b < 2 ^ 63 -> scratch_inv used st ->
  exists r st', GC_scratch_alloc b st = Some (r, st')
    /\ scratch_inv (if r =? NULL then used else (r, b) :: used) st'.
Proof.
  intros Hb Hinv. rewrite GC_scratch_alloc_eq by apply Hinv.
  destruct (GRANULE_ge b Hb) as [Hge Hlt]. set (rb := ROUNDUP_GRANULE_SIZE b) in *.
  clearbody rb. unfold scratch_alloc_spec.
  destruct (Z.leb_spec rb (GC_scratch_end_addr st - GC_scratch_free_ptr st)) as [Hfit|Hno].
  { do 2 eexists. split; [done|]. apply scratch_inv_bump; [lia|done..]. }
  assert (Hdirect : forall s, scratch_inv used s ->
    exists r st', Some (os_get_mem (ROUNDUP_PAGESIZE s rb) s) = Some (r, st')
      /\ scratch_inv (if r =? NULL then used else (r, b) :: used) st').
  { intros s Hi. assert (b <= ROUNDUP_PAGESIZE s rb).
    { destruct (Z.le_gt_cases rb (ROUNDUP_PAGESIZE s rb)) as [|Hlt2]; [lia|].
      apply ROUNDUP_PAGESIZE_ge in Hlt2; [|apply Hi|unfold GC_SIZE_MAX; lia].
      destruct (si_page _ _ Hi) as (k & Hk & E). rewrite E in Hlt2. unfold GC_SIZE_MAX in Hlt2.
      assert (2 ^ k <= 2 ^ 16) by (apply Z.pow_le_mono_r; lia). lia. }
    pose proof (scratch_inv_os used s (ROUNDUP_PAGESIZE s rb) b Hi ltac:(lia)) as Hos.
    destruct (os_get_mem (ROUNDUP_PAGESIZE s rb) s) as [r s']. by exists r, s'. }
  destruct (Z.leb_spec (MINHINCR * HBLKSIZE) rb) as [Hbig|Hsmall]; [by apply Hdirect|].
  pose proof (scratch_inv_os used st (MINHINCR * HBLKSIZE) b Hinv ltac:(lia)) as Hos.
  pose proof (os_get_mem_cases (MINHINCR * HBLKSIZE) st (si_log _ _ Hinv)) as Hc.
  destruct (os_get_mem (MINHINCR * HBLKSIZE) st) as [r s'].
  destruct Hc as (Hpg & Hwin & Hl' & Hc).
  destruct (Z.eqb_spec r NULL) as [->|Hr]; [by apply Hdirect|].
  destruct Hc as [[? _]|[Hr' Hlog]]; [done|].
  do 2 eexists. split; [done|]. destruct (Z.eqb_spec r NULL) as [|_]; [done|].
  eapply (scratch_inv_new_window used st s'); [lia|lia|done|apply Hos|done|done].
Qed.

(** An area just handed out avoids the ones in use and the first heap block. *)
Lemma scratch_fresh (used : list (Z * Z)) (st : scratch_state) (r b : Z) :
  scratch_inv ((r, b) :: used) st -> 0 < b ->
  4096 <= r /\ forall p n, 0 < n -> (p, n) ∈ used -> p <> r.
Proof.
  intros [_ Hl Hin Hd _] Hb. split.
  - inversion Hin as [|? ? (o & Ho & Hr) _]; subst. destruct Hl as [_ Ha].
    rewrite Forall_forall in Ha. specialize (Ha o Ho). unfold range_in in Hr. cbn in Hr. lia.
  - intros p n Hn Hp ->. inversion Hd as [|? ? Hf _]; subst. rewrite Forall_forall in Hf.
    specialize (Hf _ Hp). unfold disjoint_ranges in Hf. cbn in Hf. lia.
Qed.

Lemma scratch_run_inv (sizes : list Z) (used : list (Z * Z)) (st : scratch_state) :
  Forall (fun b => 0 <= b < 2 ^ 63) sizes -> scratch_inv used st ->
  exists areas st', scratch_run sizes st = Some (areas, st')
    /\ scratch_inv (reverse areas ++ used) st'.
Proof.
  intros Hs. revert used st. induction Hs as [|b sizes Hb Hs IH]; intros used st Hi.
  { by exists [], st. }
  cbn [scratch_run].
  destruct (scratch_alloc_step used st b Hb Hi) as (r & s & -> & Hstep). cbn.
  destruct (IH _ s Hstep) as (areas & st' & -> & Hfin). cbn.
  exists (if r =? NULL then areas else (r, b) :: areas), st'.
  case_match; [done|]. by rewrite reverse_cons, <- app_assoc.
Qed.

(** The state before the first allocation: no window. *)
Definition scratch_init (page : Z) (results : list Z) : scratch_state :=
  ScratchState 0 0 page results [].

Lemma scratch_init_inv (page k : Z) (results : list Z) :
  0 <= k <= 16 -> page = 2 ^ k -> scratch_inv [] (scratch_init page results).
Proof.
  intros Hk Hp. split; [by exists k|split; constructor|constructor|constructor|by left].
Qed.

(** Whatever memory the operating system offers, a run of scratch allocations
    terminates, the areas returned to the callers do not overlap, and each lies
    inside a chunk obtained from the system. *)
Theorem scratch_areas_disjoint (page : Z) (results sizes : list Z) (k : Z)
    (Hk : 0 <= k <= 16) (Hpage : page = 2 ^ k)
    (Hs : Forall (fun b => 0 <= b < 2 ^ 63) sizes) :
  exists areas st', scratch_run sizes (scratch_init page results) = Some (areas, st')
    /\ ForallOrdPairs disjoint_ranges (reverse areas)
    /\ Forall (fun a => exists o, o ∈ os_log st' /\ range_in a o) areas.
Proof.
  destruct (scratch_run_inv sizes [] (scratch_init page results) Hs) as (areas & st' & Hr & Hi).
  { by eapply scratch_init_inv. }
  exists areas, st'. rewrite app_nil_r in Hi. split; [done|]. split; [apply Hi|].
  by rewrite <- Forall_reverse; apply Hi.
Qed.

Lemma scratch_areas_disjoint_witness :
  exists areas st', scratch_run [100; 70000; 32] (scratch_init 4096 [65536; 65536; 1048576])
      = Some (areas, st')
    /\ areas = [(65536, 100); (65648, 32)]
    /\ ForallOrdPairs disjoint_ranges (reverse areas).
Proof.
  destruct (scratch_areas_disjoint 4096 [65536; 65536; 1048576] [100; 70000; 32] 12)
    as (areas & st' & Hr & Hd & _); [lia|reflexivity|repeat constructor; lia|].
  exists areas, st'. split; [exact Hr|]. split; [|exact Hd].
  vm_compute in Hr. injection Hr as <- <-. reflexivity.
Defined.

End Scratch.
