(* ===== verification/Hblk.v ===== *)
(** * Block headers ([struct hblkhdr], gc_priv.h)

    One record per header, with the fields of the single-threaded build without
    [MARK_BIT_PER_OBJ]: mark bits are words ([hb_marks], absent words are 0).
    [hb_map] is the granule count that indexes [GC_obj_map], 0 for large
    blocks. *)

From Stdlib Require Import ZArith Lia.
From stdpp Require Import base gmap.
From S2P Require Import Prelude.

Record hdr := Hdr {
  hb_next : Z;
  hb_prev : Z;
  hb_block : Z;
  hb_obj_kind : Z;
  hb_flags : Z;
  hb_last_reclaimed : Z;
  hb_sz : Z;
  hb_descr : Z;
  hb_map : option Z;
  hb_n_marks : Z;
  hb_marks : gmap Z Z
}.

Definition IGNORE_OFF_PAGE : Z := 1.
Definition WAS_UNMAPPED : Z := 2.
Definition FREE_BLK : Z := 4.
Definition HAS_DISCLAIM : Z := 8.
Definition MARK_UNCONDITIONALLY : Z := 16.
Definition LARGE_BLOCK : Z := 32.

(** A header whose memory has been zeroed. *)
Definition zero_hdr : hdr := Hdr 0 0 0 0 0 0 0 0 None 0 ∅.

Definition flag_set (flags bit : Z) : bool := negb (Z.land flags bit =? 0).
Definition HBLK_IS_FREE (hhdr : hdr) : bool := flag_set (hb_flags hhdr) FREE_BLK.
Definition IS_MAPPED (hhdr : hdr) : bool := negb (flag_set (hb_flags hhdr) WAS_UNMAPPED).

(** [flags &= (unsigned char)~bit] on the 8-bit field. *)
Definition clear_flag (flags bit : Z) : Z := Z.land flags (Z.lxor 255 bit).

Definition set_hb_next (v : Z) (h : hdr) : hdr :=
  Hdr v (hb_prev h) (hb_block h) (hb_obj_kind h) (hb_flags h) (hb_last_reclaimed h)
    (hb_sz h) (hb_descr h) (hb_map h) (hb_n_marks h) (hb_marks h).
Definition set_hb_prev (v : Z) (h : hdr) : hdr :=
  Hdr (hb_next h) v (hb_block h) (hb_obj_kind h) (hb_flags h) (hb_last_reclaimed h)
    (hb_sz h) (hb_descr h) (hb_map h) (hb_n_marks h) (hb_marks h).
Definition set_hb_block (v : Z) (h : hdr) : hdr :=
  Hdr (hb_next h) (hb_prev h) v (hb_obj_kind h) (hb_flags h) (hb_last_reclaimed h)
    (hb_sz h) (hb_descr h) (hb_map h) (hb_n_marks h) (hb_marks h).
Definition set_hb_obj_kind (v : Z) (h : hdr) : hdr :=
  Hdr (hb_next h) (hb_prev h) (hb_block h) v (hb_flags h) (hb_last_reclaimed h)
    (hb_sz h) (hb_descr h) (hb_map h) (hb_n_marks h) (hb_marks h).
Definition set_hb_flags (v : Z) (h : hdr) : hdr :=
  Hdr (hb_next h) (hb_prev h) (hb_block h) (hb_obj_kind h) v (hb_last_reclaimed h)
    (hb_sz h) (hb_descr h) (hb_map h) (hb_n_marks h) (hb_marks h).
Definition set_hb_last_reclaimed (v : Z) (h : hdr) : hdr :=
  Hdr (hb_next h) (hb_prev h) (hb_block h) (hb_obj_kind h) (hb_flags h) v
    (hb_sz h) (hb_descr h) (hb_map h) (hb_n_marks h) (hb_marks h).
Definition set_hb_sz (v : Z) (h : hdr) : hdr :=
  Hdr (hb_next h) (hb_prev h) (hb_block h) (hb_obj_kind h) (hb_flags h) (hb_last_reclaimed h)
    v (hb_descr h) (hb_map h) (hb_n_marks h) (hb_marks h).
Definition set_hb_descr (v : Z) (h : hdr) : hdr :=
  Hdr (hb_next h) (hb_prev h) (hb_block h) (hb_obj_kind h) (hb_flags h) (hb_last_reclaimed h)
    (hb_sz h) v (hb_map h) (hb_n_marks h) (hb_marks h).
Definition set_hb_map (v : option Z) (h : hdr) : hdr :=
  Hdr (hb_next h) (hb_prev h) (hb_block h) (hb_obj_kind h) (hb_flags h) (hb_last_reclaimed h)
    (hb_sz h) (hb_descr h) v (hb_n_marks h) (hb_marks h).
Definition set_hb_marks (n : Z) (m : gmap Z Z) (h : hdr) : hdr :=
  Hdr (hb_next h) (hb_prev h) (hb_block h) (hb_obj_kind h) (hb_flags h) (hb_last_reclaimed h)
    (hb_sz h) (hb_descr h) (hb_map h) n m.

(** ** Flag bits *)

Lemma flag_set_lor_other (f a b : Z) :
  Z.land a b = 0 -> flag_set (Z.lor f a) b = flag_set f b.
Proof. intros H. unfold flag_set. by rewrite Z.land_lor_distr_l, H, Z.lor_0_r. Qed.

Lemma flag_set_lor_same (f a : Z) : a <> 0 -> flag_set (Z.lor f a) a = true.
Proof.
  intros H. unfold flag_set. rewrite Z.land_lor_distr_l, Z.land_diag.
  destruct (Z.eqb_spec (Z.lor (Z.land f a) a) 0) as [E|]; [|done].
  apply Z.lor_eq_0_iff in E. by destruct E.
Qed.

Lemma HBLK_IS_FREE_set (h : hdr) :
  HBLK_IS_FREE (set_hb_flags (Z.lor (hb_flags h) FREE_BLK) h) = true.
Proof. unfold HBLK_IS_FREE. cbn. by apply flag_set_lor_same. Qed.

(** Setting a one-bit flag that is set changes nothing. *)
Lemma flag_set_lor_id (f : Z) (b : Z) :
  flag_set f b = true -> (b = IGNORE_OFF_PAGE \/ b = WAS_UNMAPPED \/ b = FREE_BLK \/ b = LARGE_BLOCK) ->
  Z.lor f b = f.
Proof.
  unfold flag_set. intros Hf Hb. apply negb_true_iff, Z.eqb_neq in Hf.
  assert (Hk : exists k, 0 <= k /\ b = 2 ^ k).
  { destruct Hb as [->|[->|[->| ->]]]; [exists 0|exists 1|exists 2|exists 5]; by split. }
  destruct Hk as (k & Hk & ->). apply Z.bits_inj'. intros n Hn.
  rewrite Z.lor_spec, Z.pow2_bits_eqb by done. destruct (Z.eqb_spec k n) as [<-|]; [|apply orb_false_r].
  rewrite orb_true_r. symmetry. destruct (Z.testbit f k) eqn:E; [done|]. exfalso. apply Hf.
  apply Z.bits_inj'. intros m Hm. rewrite Z.land_spec, Z.pow2_bits_eqb, Z.bits_0 by done.
  destruct (Z.eqb_spec k m) as [<-|]; [by rewrite E|apply andb_false_r].
Qed.
