(* ===== verification/Headers.v ===== *)
(** * The header table (headers.c, gc_hdrs.h)

    Block headers are found through a two-level tree: the top level is a hash
    table of bottom-level index blocks, each covering 1024 consecutive heap
    blocks.  The model keeps the source's pointer structure: a store of index
    blocks with their hash, ascending and descending links, a store of headers
    with the free-header list, and the shared header cache. *)

From Stdlib Require Import ZArith Lia.
From stdpp Require Import base gmap list sorting.
From S2P Require Import Prelude Scratch Hblk.

Module Headers.
Import Scratch.

Definition LOG_BOTTOM_SZ : Z := 10.
Definition BOTTOM_SZ : Z := Z.shiftl 1 LOG_BOTTOM_SZ.
Definition LOG_TOP_SZ : Z := 11.
Definition TOP_SZ : Z := Z.shiftl 1 LOG_TOP_SZ.
Definition MAX_JUMP : Z := HBLKSIZE - 1.
Definition HDR_CACHE_SIZE : Z := 64.
Definition TL_HASH (hi : Z) : Z := Z.land hi (TOP_SZ - 1).
Definition GC_WORD_MAX : Z := 2 ^ 64 - 1.
Definition sizeof_bottom_index : Z := 8 * BOTTOM_SZ + 32.
Definition sizeof_hdr : Z := 104.

(** [struct bi]: the slots hold 0, a forwarding count, or a header pointer. *)
Record bottom_index := BottomIndex {
  bi_index : gmap Z Z;
  asc_link : Z;
  desc_link : Z;
  key : Z;
  hash_link : Z
}.

Definition zero_bi : bottom_index := BottomIndex ∅ 0 0 0 0.

Record hdr_state := HdrState {
  hs_scratch : scratch_state;
  bis : gmap Z bottom_index;
  GC_top_index : gmap Z Z;      (* absent slots hold [GC_all_nils] *)
  GC_all_nils : Z;
  GC_all_bottom_indices : Z;
  GC_all_bottom_indices_end : Z;
  hdrs : gmap Z hdr;
  GC_hdr_free_list : Z;
  GC_hdr_cache : gmap Z (Z * Z); (* block_addr, hce_hdr; absent is zeroed *)
  GC_gc_no : Z
}.

Definition set_hs_scratch v st := HdrState v (bis st) (GC_top_index st) (GC_all_nils st)
  (GC_all_bottom_indices st) (GC_all_bottom_indices_end st) (hdrs st) (GC_hdr_free_list st)
  (GC_hdr_cache st) (GC_gc_no st).
Definition set_bis v st := HdrState (hs_scratch st) v (GC_top_index st) (GC_all_nils st)
  (GC_all_bottom_indices st) (GC_all_bottom_indices_end st) (hdrs st) (GC_hdr_free_list st)
  (GC_hdr_cache st) (GC_gc_no st).
Definition set_top_index v st := HdrState (hs_scratch st) (bis st) v (GC_all_nils st)
  (GC_all_bottom_indices st) (GC_all_bottom_indices_end st) (hdrs st) (GC_hdr_free_list st)
  (GC_hdr_cache st) (GC_gc_no st).
Definition set_all_nils v st := HdrState (hs_scratch st) (bis st) (GC_top_index st) v
  (GC_all_bottom_indices st) (GC_all_bottom_indices_end st) (hdrs st) (GC_hdr_free_list st)
  (GC_hdr_cache st) (GC_gc_no st).
Definition set_bottom_indices v w st := HdrState (hs_scratch st) (bis st) (GC_top_index st)
  (GC_all_nils st) v w (hdrs st) (GC_hdr_free_list st) (GC_hdr_cache st) (GC_gc_no st).
Definition set_hdrs v st := HdrState (hs_scratch st) (bis st) (GC_top_index st)
  (GC_all_nils st) (GC_all_bottom_indices st) (GC_all_bottom_indices_end st) v
  (GC_hdr_free_list st) (GC_hdr_cache st) (GC_gc_no st).
Definition set_hdr_free_list v st := HdrState (hs_scratch st) (bis st) (GC_top_index st)
  (GC_all_nils st) (GC_all_bottom_indices st) (GC_all_bottom_indices_end st) (hdrs st) v
  (GC_hdr_cache st) (GC_gc_no st).
Definition set_hdr_cache v st := HdrState (hs_scratch st) (bis st) (GC_top_index st)
  (GC_all_nils st) (GC_all_bottom_indices st) (GC_all_bottom_indices_end st) (hdrs st)
  (GC_hdr_free_list st) v (GC_gc_no st).

(** Reading an index block, a slot and a top-level entry. *)
Definition bi_of (st : hdr_state) (b : Z) : bottom_index := default zero_bi (bis st !! b).
Definition top_of (st : hdr_state) (i : Z) : Z := default (GC_all_nils st) (GC_top_index st !! i).
Definition upd_bi (b : Z) (f : bottom_index -> bottom_index) (st : hdr_state) : hdr_state :=
  set_bis (<[b := f (bi_of st b)]> (bis st)) st.

Definition BI_KEY (p : Z) : Z := Z.shiftr p (LOG_BOTTOM_SZ + LOG_HBLKSIZE).
Definition BI_SLOT (p : Z) : Z := Z.land (Z.shiftr p LOG_HBLKSIZE) (BOTTOM_SZ - 1).

(** The search along a hash chain; [None] would be an endless chain. *)
Definition GET_BI (st : hdr_state) (p : Z) : option Z :=
  let hi := BI_KEY p in
  loop (fun b => if negb (key (bi_of st b) =? hi) && negb (b =? GC_all_nils st)
                 then inl (hash_link (bi_of st b)) else inr b)
       (top_of st (TL_HASH hi)).

Definition HDR_FROM_BI (st : hdr_state) (b p : Z) : Z := aget (bi_index (bi_of st b)) (BI_SLOT p).

Definition GET_HDR (st : hdr_state) (p : Z) : option Z :=
  b ← GET_BI st p; Some (HDR_FROM_BI st b p).

Definition SET_HDR (p v : Z) (st : hdr_state) : option hdr_state :=
  b ← GET_BI st p;
  Some (upd_bi b (fun bi => BottomIndex (<[BI_SLOT p := v]> (bi_index bi))
                     (asc_link bi) (desc_link bi) (key bi) (hash_link bi)) st).

Definition GC_find_header (st : hdr_state) (h : Z) : option Z := GET_HDR st h.

Definition IS_FORWARDING_ADDR_OR_NIL (hhdr : Z) : bool := hhdr <=? MAX_JUMP.
Definition FORWARDED_ADDR (h hhdr : Z) : Z := h - hhdr * HBLKSIZE.

Definition GC_INVALIDATE_HDR_CACHE (st : hdr_state) : hdr_state := set_hdr_cache ∅ st.

(** *** Header allocation *)

Definition scratch_alloc (bytes : Z) (st : hdr_state) : option (Z * hdr_state) :=
  '(r, s) ← GC_scratch_alloc bytes (hs_scratch st); Some (r, set_hs_scratch s st).

(** The header is uninitialised: fresh scratch memory reads as zero, a recycled
    header keeps its old contents. *)
Definition alloc_hdr (st : hdr_state) : option (Z * hdr_state) :=
  if GC_hdr_free_list st =? NULL then
    '(r, st) ← scratch_alloc sizeof_hdr st;
    Some (r, if r =? NULL then st else set_hdrs (<[r := zero_hdr]> (hdrs st)) st)
  else
    let result := GC_hdr_free_list st in
    Some (result, set_hdr_free_list (hb_next (default zero_hdr (hdrs st !! result))) st).

Definition free_hdr (hhdr : Z) (st : hdr_state) : hdr_state :=
  set_hdr_free_list hhdr
    (set_hdrs (<[hhdr := set_hb_next (GC_hdr_free_list st)
                           (default zero_hdr (hdrs st !! hhdr))]> (hdrs st)) st).

(** [None] stands for the source's [EXIT()] on exhausted memory. *)
Definition GC_init_headers (st : hdr_state) : option hdr_state :=
  '(r, st) ← scratch_alloc sizeof_bottom_index st;
  if r =? NULL then None
  else Some (set_top_index ∅ (upd_bi r (fun _ => zero_bi) (set_all_nils r st))).

(** *** Adding an index block *)

(** The walk for the insertion point in the ascending list: [(pi, p)] are the
    block before and the block at the current position. *)
Definition find_insertion (st : hdr_state) (hi : Z) : option (Z * Z) :=
  loop (fun '(pi, p) => if negb (p =? NULL) && (key (bi_of st p) <? hi)
                        then inl (p, asc_link (bi_of st p)) else inr (pi, p))
       (NULL, GC_all_bottom_indices st).

Definition set_asc v bi := BottomIndex (bi_index bi) v (desc_link bi) (key bi) (hash_link bi).
Definition set_desc v bi := BottomIndex (bi_index bi) (asc_link bi) v (key bi) (hash_link bi).

(** Linking [r] between [pi] and [p] and into its hash chain. *)
Definition link_index (r pi p i : Z) (st : hdr_state) : hdr_state :=
  let st := upd_bi r (set_desc pi) st in
  let st := if p =? NULL
            then set_bottom_indices (GC_all_bottom_indices st) r st
            else upd_bi p (set_desc r) st in
  let st := upd_bi r (set_asc p) st in
  let st := if pi =? NULL
            then set_bottom_indices r (GC_all_bottom_indices_end st) st
            else upd_bi pi (set_asc r) st in
  set_top_index (<[i := r]> (GC_top_index st)) st.

(** The chain search of [get_index]: whether [hi] has an index block. *)
Definition has_index (st : hdr_state) (hi : Z) : option bool :=
  loop (fun p => if p =? GC_all_nils st then inr false
                 else if key (bi_of st p) =? hi then inr true
                 else inl (hash_link (bi_of st p)))
       (top_of st (TL_HASH hi)).

Definition get_index (addr : Z) (st : hdr_state) : option (bool * hdr_state) :=
  let hi := BI_KEY addr in
  let i := TL_HASH hi in
  found ← has_index st hi;
  if (found : bool) then Some (true, st)
  else
    '(r, st) ← scratch_alloc sizeof_bottom_index st;
    if r =? NULL then Some (false, st)
    else
      let st := upd_bi r (fun _ => BottomIndex ∅ 0 0 hi (top_of st i)) st in
      '(pi, p) ← find_insertion st hi;
      Some (true, link_index r pi p i st).

(** *** Creating and destroying mappings *)

Definition GC_install_header (h : Z) (st : hdr_state) : option (Z * hdr_state) :=
  let st := GC_INVALIDATE_HDR_CACHE st in
  '(ok, st) ← get_index h st;
  if negb ok then Some (NULL, st)
  else
    '(result, st) ← alloc_hdr st;
    if result =? NULL then Some (result, st)
    else
      st ← SET_HDR h result st;
      Some (result,
            set_hdrs (<[result := set_hb_last_reclaimed (GC_gc_no st mod 65536)
                                    (default zero_hdr (hdrs st !! result))]> (hdrs st)) st).

(** First loop of [GC_install_counts]: an index block for every stretch. *)
Definition install_indices (h sz : Z) (st : hdr_state) : option (bool * hdr_state) :=
  '(r : option (bool * hdr_state)) ←
    loop (fun '(hbp, st) =>
      if hbp <? h + sz then
        match get_index hbp st with
        | None => inr None
        | Some (false, st) => inr (Some (false, st))
        | Some (true, st) =>
          if GC_WORD_MAX - BOTTOM_SZ * HBLKSIZE <? hbp then inr (Some (true, st))
          else inl (hbp + BOTTOM_SZ * HBLKSIZE, st)
        end
      else inr (Some (true, st))) (h, st);
  r.

(** Second loop: the forwarding counts. *)
Definition install_forwards (h sz : Z) (st : hdr_state) : option hdr_state :=
  '(r : option hdr_state) ←
    loop (fun '(hbp, st) =>
      if hbp <? h + sz then
        let i := divHBLKSZ (hbp - h) in
        match SET_HDR hbp (if MAX_JUMP <? i then MAX_JUMP else i) st with
        | None => inr None
        | Some st => inl (hbp + HBLKSIZE, st)
        end
      else inr (Some st)) (h + HBLKSIZE, st);
  r.

Definition GC_install_counts (h sz : Z) (st : hdr_state) : option (bool * hdr_state) :=
  let st := GC_INVALIDATE_HDR_CACHE st in
  '(ok, st) ← install_indices h sz st;
  if negb ok then Some (false, st)
  else
    '(ok, st) ← get_index (h + sz - 1) st;
    if negb ok then Some (false, st)
    else st ← install_forwards h sz st; Some (true, st).

Definition GC_remove_header (h : Z) (st : hdr_state) : option hdr_state :=
  let st := GC_INVALIDATE_HDR_CACHE st in
  hhdr ← GET_HDR st h;
  SET_HDR h NULL (free_hdr hhdr st).

Definition GC_remove_counts (h sz : Z) (st : hdr_state) : option hdr_state :=
  let st := GC_INVALIDATE_HDR_CACHE st in
  if sz <=? HBLKSIZE then Some st
  else
    first ← GET_HDR st (h + HBLKSIZE);
    if first =? NULL then Some st
    else
      '(r : option hdr_state) ←
        loop (fun '(hbp, st) =>
          if hbp <? h + sz then
            match SET_HDR hbp NULL st with
            | None => inr None
            | Some st => inl (hbp + HBLKSIZE, st)
            end
          else inr (Some st)) (h + HBLKSIZE, st);
      r.

(** *** Navigation *)

Definition GC_find_starting_hblk (st : hdr_state) (h hhdr : Z) : option (Z * Z) :=
  '(r : option (Z * Z)) ←
    loop (fun '(h, hhdr) =>
      if IS_FORWARDING_ADDR_OR_NIL hhdr then
        let h := FORWARDED_ADDR h hhdr in
        match GET_HDR st h with
        | None => inr None
        | Some hhdr => inl (h, hhdr)
        end
      else inr (Some (h, hhdr))) (h, hhdr);
  r.

Definition hdr_of (st : hdr_state) (p : Z) : hdr := default zero_hdr (hdrs st !! p).

(** Walk up from slot [j] of index block [b]. *)
Definition next_block_body (st : hdr_state) (allow_free : bool) (s : Z * Z) : (Z * Z) + Z :=
  let '(b, j) := s in
  if b =? NULL then inr NULL
  else if j <? BOTTOM_SZ then
    let hhdr := aget (bi_index (bi_of st b)) j in
    if IS_FORWARDING_ADDR_OR_NIL hhdr then inl (b, j + 1)
    else if allow_free || negb (HBLK_IS_FREE (hdr_of st hhdr))
    then inr (hb_block (hdr_of st hhdr))
    else inl (b, j + divHBLKSZ (hb_sz (hdr_of st hhdr)))
  else inl (asc_link (bi_of st b), 0).

Definition GC_next_block (st : hdr_state) (h : Z) (allow_free : bool) : option Z :=
  b ← GET_BI st h;
  '(b, j) ← (if b =? GC_all_nils st then
      b ← loop (fun b => if negb (b =? NULL) && (key (bi_of st b) <? BI_KEY h)
                         then inl (asc_link (bi_of st b)) else inr b)
               (GC_all_bottom_indices st);
      Some (b, 0)
    else Some (b, BI_SLOT h));
  loop (next_block_body st allow_free) (b, j).

Definition prev_block_body (st : hdr_state) (s : Z * Z) : (Z * Z) + Z :=
  let '(b, j) := s in
  if b =? NULL then inr NULL
  else if 0 <=? j then
    let hhdr := aget (bi_index (bi_of st b)) j in
    if hhdr =? NULL then inl (b, j - 1)
    else if IS_FORWARDING_ADDR_OR_NIL hhdr then inl (b, j - hhdr)
    else inr (hb_block (hdr_of st hhdr))
  else inl (desc_link (bi_of st b), BOTTOM_SZ - 1).

Definition GC_prev_block (st : hdr_state) (h : Z) : option Z :=
  b ← GET_BI st h;
  '(b, j) ← (if b =? GC_all_nils st then
      b ← loop (fun b => if negb (b =? NULL) && (BI_KEY h <? key (bi_of st b))
                         then inl (desc_link (bi_of st b)) else inr b)
               (GC_all_bottom_indices_end st);
      Some (b, BOTTOM_SZ - 1)
    else Some (b, BI_SLOT h));
  loop (prev_block_body st) (b, j).

(** The blocks [GC_apply_to_all_blocks] passes to its callback, in order. *)
Definition apply_body (st : hdr_state) (s : Z * Z * list Z) : (Z * Z * list Z) + list Z :=
  let '(b, j, acc) := s in
  if b =? NULL then inr acc
  else if 0 <=? j then
    let hhdr := aget (bi_index (bi_of st b)) j in
    if IS_FORWARDING_ADDR_OR_NIL hhdr
    then inl (b, j - (if hhdr =? NULL then 1 else hhdr), acc)
    else inl (b, j - 1, if HBLK_IS_FREE (hdr_of st hhdr) then acc
                        else acc ++ [hb_block (hdr_of st hhdr)])
  else inl (asc_link (bi_of st b), BOTTOM_SZ - 1, acc).

Definition GC_apply_to_all_blocks (st : hdr_state) : option (list Z) :=
  loop (apply_body st) (GC_all_bottom_indices st, BOTTOM_SZ - 1, []).


(** ** Addresses, keys and slots *)

Lemma BI_KEY_div (p : Z) : BI_KEY p = p / 4194304.
Proof. unfold BI_KEY, LOG_BOTTOM_SZ, LOG_HBLKSIZE. rewrite Z.shiftr_div_pow2 by lia. done. Qed.

Lemma BI_SLOT_mod (p : Z) : BI_SLOT p = p / 4096 mod 1024.
Proof.
  unfold BI_SLOT, LOG_HBLKSIZE. change (BOTTOM_SZ - 1) with (2 ^ 10 - 1).
  rewrite land_low_mask, Z.shiftr_div_pow2 by lia. done.
Qed.

(** Key and slot determine the heap block. *)
Lemma key_slot_block (p q : Z) :
  BI_KEY p = BI_KEY q -> BI_SLOT p = BI_SLOT q -> p / 4096 = q / 4096.
Proof.
  rewrite !BI_KEY_div, !BI_SLOT_mod. intros Hk Hs.
  assert (forall z, z / 4194304 = z / 4096 / 1024) as Hd.
  { intros z. rewrite Z.div_div by lia. done. }
  rewrite !Hd in Hk. set (a := p / 4096) in *. set (b := q / 4096) in *. clearbody a b. dlia.
Qed.

Lemma block_key_slot (p q : Z) :
  p / 4096 = q / 4096 -> BI_KEY p = BI_KEY q /\ BI_SLOT p = BI_SLOT q.
Proof.
  intros H. rewrite !BI_KEY_div, !BI_SLOT_mod, H. split; [|done].
  assert (forall z, z / 4194304 = z / 4096 / 1024) as Hd.
  { intros z. rewrite Z.div_div by lia. done. }
  by rewrite !Hd, H.
Qed.

(** ** The shape of the tree *)

Definition bkey (st : hdr_state) (b : Z) : Z := key (bi_of st b).

(** A hash chain from a pointer to [GC_all_nils]. *)
Inductive hchain (st : hdr_state) : Z -> list Z -> Prop :=
  | hchain_nil : hchain st (GC_all_nils st) []
  | hchain_cons b C :
      b <> GC_all_nils st -> hchain st (hash_link (bi_of st b)) C -> hchain st b (b :: C).

(** The doubly linked list of index blocks after [prev]. *)
Fixpoint dls (st : hdr_state) (prev : Z) (A : list Z) : Prop :=
  match A with
  | [] => True
  | b :: A => desc_link (bi_of st b) = prev /\ asc_link (bi_of st b) = hd NULL A /\ dls st b A
  end.

(** [A] lists the index blocks in ascending key order. *)
Record hrep (st : hdr_state) (A : list Z) : Prop := {
  hr_nils : GC_all_nils st <> NULL;
  hr_nils_empty : bi_index (bi_of st (GC_all_nils st)) = ∅;
  hr_nils_out : GC_all_nils st ∉ A;
  hr_nonnull : NULL ∉ A;
  hr_sorted : StronglySorted Z.lt (bkey st <$> A);
  hr_range : Forall (fun k => 0 <= k < 2 ^ 42) (bkey st <$> A);
  hr_first : GC_all_bottom_indices st = hd NULL A;
  hr_last : GC_all_bottom_indices_end st = List.last A NULL;
  hr_links : dls st NULL A;
  hr_chains : forall s, exists C, hchain st (top_of st s) C /\ NoDup C
    /\ forall b, b ∈ C <-> b ∈ A /\ TL_HASH (bkey st b) = s
}.

Lemma sorted_length (l : list Z) (lo hi : Z) :
  StronglySorted Z.lt l -> Forall (fun k => lo <= k < hi) l -> lo <= hi ->
  lo + Z.of_nat (length l) <= hi.
Proof.
  intros Hs. revert lo. induction Hs as [|k l Hs IH Hk]; intros lo Hf Hlo; cbn; [lia|].
  inversion Hf as [|? ? Hk' Hl]; subst.
  assert (k + 1 + Z.of_nat (length l) <= hi); [|lia].
  apply IH; [|lia]. rewrite Forall_forall in *. intros x Hx.
  specialize (Hk x Hx). specialize (Hl x Hx). lia.
Qed.

Lemma sorted_NoDup (l : list Z) : StronglySorted Z.lt l -> NoDup l.
Proof.
  induction 1 as [|k l Hs IH Hk]; constructor; [|done].
  intros Hin. rewrite Forall_forall in Hk. specialize (Hk k Hin). lia.
Qed.

Lemma hrep_NoDup (st : hdr_state) (A : list Z) : hrep st A -> NoDup A.
Proof. intros H. eapply NoDup_fmap_1, sorted_NoDup, H. Qed.

Lemma hrep_length (st : hdr_state) (A : list Z) : hrep st A -> Z.of_nat (length A) <= 2 ^ 42.
Proof.
  intros H. pose proof (sorted_length (bkey st <$> A) 0 (2 ^ 42) (hr_sorted _ _ H) (hr_range _ _ H)).
  rewrite length_fmap in *. lia.
Qed.

Lemma hrep_key_inj (st : hdr_state) (A : list Z) (b c : Z) :
  hrep st A -> b ∈ A -> c ∈ A -> bkey st b = bkey st c -> b = c.
Proof.
  intros H Hb Hc E. apply list_elem_of_lookup in Hb as [i Hi].
  apply list_elem_of_lookup in Hc as [j Hj].
  assert (i = j) as ->; [|congruence].
  eapply (NoDup_lookup (bkey st <$> A)); [apply sorted_NoDup, H|..];
    rewrite list_lookup_fmap; [by rewrite Hi|rewrite Hj; cbn; by rewrite E].
Qed.

(** The chain search finds the index block of a key, or [GC_all_nils]. *)
Definition bi_at (st : hdr_state) (A : list Z) (k b : Z) : Prop :=
  (b ∈ A /\ bkey st b = k) \/ (b = GC_all_nils st /\ forall x, x ∈ A -> bkey st x <> k).

Lemma bi_at_fun (st : hdr_state) (A : list Z) (k b c : Z) :
  hrep st A -> bi_at st A k b -> bi_at st A k c -> b = c.
Proof.
  intros H [[Hb E]|[-> Hn]] [[Hc E']|[-> Hn']]; try done.
  - eapply hrep_key_inj; eauto. congruence.
  - by destruct (Hn' b).
  - by destruct (Hn c).
Qed.

Lemma chain_search (st : hdr_state) (A : list Z) (k : Z) (R : Type)
    (fnd nfd : Z -> R) :
  hrep st A ->
  exists b, bi_at st A k b /\
    loop (fun b => if decide (b = GC_all_nils st) then inr (nfd b)
                   else if decide (bkey st b = k) then inr (fnd b)
                   else inl (hash_link (bi_of st b))) (top_of st (TL_HASH k))
    = Some (if decide (b = GC_all_nils st) then nfd b else fnd b).
Proof.
  intros H. destruct (hr_chains _ _ H (TL_HASH k)) as (C & HC & Hnd & Hel).
  destruct (loop_spec_rel
    (fun n b => exists C, hchain st b C /\ n = length C
       /\ (forall x, x ∈ C -> x ∈ A) /\ (forall x, x ∈ A -> bkey st x = k -> x ∈ C))
    (fun r => exists b, bi_at st A k b /\ r = if decide (b = GC_all_nils st) then nfd b else fnd b)
    (fun b => if decide (b = GC_all_nils st) then inr (nfd b)
              else if decide (bkey st b = k) then inr (fnd b)
              else inl (hash_link (bi_of st b))) (length C) (top_of st (TL_HASH k)))
    as (r & Hr & b & Hb & ->).
  - clear C HC Hnd Hel. intros n b (C & HC & -> & Hsub & Hsup).
    destruct HC as [|b C Hb HC].
    + rewrite decide_True by done. exists (GC_all_nils st). rewrite decide_True by done.
      split; [|done]. right. split; [done|]. intros x Hx E. specialize (Hsup x Hx E). set_solver.
    + rewrite decide_False by done. case_decide as E.
      * exists b. rewrite decide_False by done. split; [|done]. left. split; [|done].
        apply Hsub. by left.
      * exists (length C). split; [cbn; lia|]. exists C. split; [done|]. split; [done|].
        split; [intros; apply Hsub; by right|].
        intros x Hx Ex. specialize (Hsup x Hx Ex). set_solver.
  - exists C. split; [done|]. split; [done|]. split; [intros x Hx; by apply Hel|].
    intros x Hx Ex. apply Hel. split; [done|congruence].
  - pose proof (hrep_length _ _ H).
    assert (length C <= length A)%nat.
    { apply NoDup_incl_length; [by apply NoDup_ListNoDup|]. intros x. rewrite <- !list_elem_of_In.
      intros Hx. by apply Hel. }
    unfold W64. lia.
  - exists b. split; [done|]. by rewrite Hr.
Qed.


Lemma GET_BI_spec (st : hdr_state) (A : list Z) (p : Z) :
  hrep st A -> exists b, GET_BI st p = Some b /\ bi_at st A (BI_KEY p) b.
Proof.
  intros H. destruct (chain_search st A (BI_KEY p) Z id id H) as (b & Hb & Hl).
  exists b. split; [|done]. unfold GET_BI.
  replace (Some b) with (Some (if decide (b = GC_all_nils st) then id b else id b))
    by (by case_decide).
  rewrite <- Hl. apply loop_ext. intros s. unfold bkey.
  destruct (Z.eqb_spec s (GC_all_nils st)) as [->|].
  - rewrite andb_false_r, decide_True by done. done.
  - rewrite decide_False by done. destruct (Z.eqb_spec (key (bi_of st s)) (BI_KEY p)).
    + by rewrite decide_True.
    + by rewrite decide_False.
Qed.

Lemma has_index_spec (st : hdr_state) (A : list Z) (k : Z) :
  hrep st A -> exists b, bi_at st A k b /\ has_index st k = Some (bool_decide (b <> GC_all_nils st)).
Proof.
  intros H. destruct (chain_search st A k bool (fun _ => true) (fun _ => false) H) as (b & Hb & Hl).
  exists b. split; [done|]. unfold has_index.
  replace (bool_decide (b <> GC_all_nils st)) with (if decide (b = GC_all_nils st) then false else true)
    by (case_decide; case_bool_decide; done).
  rewrite <- Hl. apply loop_ext. intros s. unfold bkey.
  destruct (Z.eqb_spec s (GC_all_nils st)) as [->|]; [by rewrite decide_True|].
  rewrite decide_False by done. destruct (Z.eqb_spec (key (bi_of st s)) k);
    [by rewrite decide_True|by rewrite decide_False].
Qed.

(** ** The table as a function from addresses to slot contents *)

Definition HDRv (st : hdr_state) (p : Z) : Z := default NULL (GET_HDR st p).

Lemma GET_HDR_total (st : hdr_state) (A : list Z) (p : Z) :
  hrep st A -> GET_HDR st p = Some (HDRv st p).
Proof.
  intros H. unfold HDRv, GET_HDR. destruct (GET_BI_spec st A p H) as (b & -> & _). done.
Qed.

Lemma HDRv_at (st : hdr_state) (A : list Z) (p b : Z) :
  hrep st A -> bi_at st A (BI_KEY p) b -> HDRv st p = HDR_FROM_BI st b p.
Proof.
  intros H Hb. unfold HDRv, GET_HDR. destruct (GET_BI_spec st A p H) as (c & -> & Hc).
  by rewrite (bi_at_fun _ _ _ _ _ H Hb Hc).
Qed.

Definition indexed (st : hdr_state) (A : list Z) (p : Z) : Prop :=
  exists b, b ∈ A /\ bkey st b = BI_KEY p.

Lemma HDRv_unindexed (st : hdr_state) (A : list Z) (p : Z) :
  hrep st A -> (forall x, x ∈ A -> bkey st x <> BI_KEY p) -> HDRv st p = NULL.
Proof.
  intros H Hn. rewrite (HDRv_at st A p (GC_all_nils st)); [|done|by right].
  unfold HDR_FROM_BI. rewrite (hr_nils_empty _ _ H). apply aget_empty.
Qed.

Lemma HDRv_nonnull_indexed (st : hdr_state) (A : list Z) (p : Z) :
  hrep st A -> HDRv st p <> NULL -> indexed st A p.
Proof.
  intros H Hne. destruct (GET_BI_spec st A p H) as (b & _ & [[Hb E]|[_ Hn]]); [by exists b|].
  by rewrite (HDRv_unindexed st A) in Hne.
Qed.

(** Addresses of the same heap block share a slot. *)
Lemma HDRv_block (st : hdr_state) (p q : Z) : p / 4096 = q / 4096 -> HDRv st p = HDRv st q.
Proof.
  intros E. destruct (block_key_slot p q E) as [Hk Hs].
  unfold HDRv, GET_HDR, GET_BI, HDR_FROM_BI. by rewrite Hk, Hs.
Qed.

(** The links and keys of the tree are those of another state. *)
Record same_tree (st st' : hdr_state) : Prop := {
  tr_top : GC_top_index st' = GC_top_index st;
  tr_nils : GC_all_nils st' = GC_all_nils st;
  tr_first : GC_all_bottom_indices st' = GC_all_bottom_indices st;
  tr_last : GC_all_bottom_indices_end st' = GC_all_bottom_indices_end st;
  tr_links : forall b, key (bi_of st' b) = key (bi_of st b)
    /\ asc_link (bi_of st' b) = asc_link (bi_of st b)
    /\ desc_link (bi_of st' b) = desc_link (bi_of st b)
    /\ hash_link (bi_of st' b) = hash_link (bi_of st b)
}.

Lemma same_tree_chain (st st' : hdr_state) (b : Z) (C : list Z) :
  same_tree st st' -> hchain st b C -> hchain st' b C.
Proof.
  intros T. induction 1 as [|b C Hb HC IH].
  - rewrite <- (tr_nils _ _ T). constructor.
  - constructor; [by rewrite (tr_nils _ _ T)|].
    destruct (tr_links _ _ T b) as (_ & _ & _ & ->). done.
Qed.

Lemma same_tree_dls (st st' : hdr_state) (prev : Z) (A : list Z) :
  same_tree st st' -> dls st prev A -> dls st' prev A.
Proof.
  intros T. revert prev. induction A as [|b A IH]; intros prev; cbn; [done|].
  destruct (tr_links _ _ T b) as (_ & -> & -> & _). intros (? & ? & ?). auto.
Qed.

Lemma same_tree_bkey (st st' : hdr_state) (b : Z) : same_tree st st' -> bkey st' b = bkey st b.
Proof. intros T. apply (tr_links _ _ T b). Qed.

Lemma same_tree_hrep (st st' : hdr_state) (A : list Z) :
  same_tree st st' -> bi_index (bi_of st' (GC_all_nils st')) = ∅ -> hrep st A -> hrep st' A.
Proof.
  intros T He H. pose proof (tr_nils _ _ T) as En.
  assert (Ek : bkey st' <$> A = bkey st <$> A)
    by (apply list_fmap_ext; intros; by apply same_tree_bkey).
  destruct H. split; rewrite ?En, ?Ek, ?(tr_first _ _ T), ?(tr_last _ _ T); auto.
  - by rewrite <- En.
  - by eapply same_tree_dls.
  - intros s. destruct (hr_chains0 s) as (C & HC & Hnd & Hel). exists C.
    unfold top_of. rewrite (tr_top _ _ T), En. split; [by eapply same_tree_chain|].
    split; [done|]. intros b. by rewrite (same_tree_bkey _ _ _ T).
Qed.

(** Everything but the tree: headers, free headers, scratch memory, cache. *)
Definition same_rest (st st' : hdr_state) : Prop :=
  hs_scratch st' = hs_scratch st /\ hdrs st' = hdrs st
  /\ GC_hdr_free_list st' = GC_hdr_free_list st
  /\ GC_hdr_cache st' = GC_hdr_cache st /\ GC_gc_no st' = GC_gc_no st.

Lemma bi_of_upd (st : hdr_state) (b c : Z) (f : bottom_index -> bottom_index) :
  bi_of (upd_bi b f st) c = if decide (b = c) then f (bi_of st b) else bi_of st c.
Proof. unfold bi_of at 1. cbn. rewrite lookup_insert. by case_decide. Qed.

Lemma SET_HDR_spec (st : hdr_state) (A : list Z) (p v : Z) :
  hrep st A -> indexed st A p ->
  exists st', SET_HDR p v st = Some st' /\ hrep st' A /\ same_rest st st' /\ same_tree st st'
    /\ forall q, HDRv st' q = if decide (q / 4096 = p / 4096) then v else HDRv st q.
Proof.
  intros H (b & Hb & Ek). unfold SET_HDR.
  destruct (GET_BI_spec st A p H) as (c & -> & Hc).
  assert (c = b) as -> by (eapply bi_at_fun; [exact H|exact Hc|by left]). cbn.
  set (f := fun bi => BottomIndex (<[BI_SLOT p := v]> (bi_index bi))
                     (asc_link bi) (desc_link bi) (key bi) (hash_link bi)).
  eexists. split; [done|].
  assert (Hbn : b <> GC_all_nils st) by (intros ->; by apply (hr_nils_out _ _ H)).
  assert (T : same_tree st (upd_bi b f st)).
  { split; try done. intros c. rewrite bi_of_upd. by case_decide; subst. }
  assert (H' : hrep (upd_bi b f st) A).
  { eapply same_tree_hrep; [done| |done]. rewrite bi_of_upd, decide_False by done. apply H. }
  split; [done|]. split; [done|]. split; [done|]. intros q.
  destruct (GET_BI_spec st A q H) as (c & _ & Hc').
  assert (Hc'' : bi_at (upd_bi b f st) A (BI_KEY q) c).
  { destruct Hc' as [[? E]|[-> Hn]]; [left|right].
    { split; [done|]. by rewrite (same_tree_bkey _ _ _ T). }
    split; [done|]. intros x. rewrite (same_tree_bkey _ _ _ T). apply Hn. }
  rewrite (HDRv_at _ _ q c H' Hc''), (HDRv_at _ _ q c H Hc').
  unfold HDR_FROM_BI. rewrite bi_of_upd.
  destruct (decide (b = c)) as [<-|Hne]; cbn.
  - rewrite aget_insert. destruct Hc' as [[_ E]|[-> _]]; [|done].
    destruct (decide (BI_SLOT p = BI_SLOT q)) as [Es|Es],
      (decide (q / 4096 = p / 4096)) as [Ed|Ed]; try done; exfalso.
    + apply Ed. symmetry. apply key_slot_block; [congruence|done].
    + apply Es. symmetry. by apply block_key_slot.
  - rewrite decide_False; [done|]. intros E. apply Hne.
    eapply bi_at_fun; [exact H| |exact Hc']. left. split; [done|].
    rewrite Ek. symmetry. by apply block_key_slot.
Qed.


(** ** Adding an index block *)

Lemma dls_ext (st st' : hdr_state) (prev : Z) (A : list Z) :
  (forall b, b ∈ A -> asc_link (bi_of st' b) = asc_link (bi_of st b)
                      /\ desc_link (bi_of st' b) = desc_link (bi_of st b)) ->
  dls st prev A -> dls st' prev A.
Proof.
  revert prev. induction A as [|b A IH]; intros prev Hb; cbn; [done|].
  destruct (Hb b) as [-> ->]; [by left|]. intros (? & ? & ?). split_and!; try done.
  apply IH; [|done]. intros c Hc. apply Hb. by right.
Qed.

Lemma last_In (A : list Z) (d : Z) : A <> [] -> List.last A d ∈ A.
Proof.
  induction A as [|a A IH]; intros Hne; [done|]. destruct A as [|b A]; [by left|].
  right. apply IH. done.
Qed.

Lemma last_default (a : Z) (A : list Z) (d : Z) : List.last (a :: A) d = List.last A a.
Proof. revert a. induction A as [|b A IH]; intros a; [done|]. cbn in *. destruct A; [done|]. apply IH. Qed.

(** Inserting [r] between [A1] and [A2]. *)
Lemma dls_insert (st st' : hdr_state) (r prev : Z) (A1 A2 : list Z) :
  NoDup (A1 ++ A2) -> r ∉ A1 ++ A2 -> dls st prev (A1 ++ A2) ->
  asc_link (bi_of st' r) = hd NULL A2 -> desc_link (bi_of st' r) = List.last A1 prev ->
  (forall b, b ∈ A1 ++ A2 ->
     asc_link (bi_of st' b)
       = (if decide (A1 <> [] /\ b = List.last A1 prev) then r else asc_link (bi_of st b))
     /\ desc_link (bi_of st' b)
       = (if decide (A2 <> [] /\ b = hd NULL A2) then r else desc_link (bi_of st b))) ->
  dls st' prev (A1 ++ r :: A2).
Proof.
  revert prev. induction A1 as [|a A1 IH]; intros prev Hnd Hr Hd Ha He Hb; cbn [app dls].
  - split_and!; [done|done|]. destruct A2 as [|c A2]; [done|]. cbn [dls] in *.
    destruct Hd as (Hd1 & Hd2 & Hd3). apply NoDup_cons in Hnd as [Hc Hnd].
    destruct (Hb c) as [E1 E2]; [by left|].
    rewrite decide_False in E1 by (by intros [? ?]). rewrite decide_True in E2 by done.
    split_and!; [done|congruence|]. eapply dls_ext; [|exact Hd3].
    intros b Hin. destruct (Hb b) as [E3 E4]; [by right|].
    rewrite decide_False in E3 by (by intros [? ?]). rewrite decide_False in E4; [done|].
    intros [_ ->]. done.
  - cbn [app dls] in Hd. destruct Hd as (Hd1 & Hd2 & Hd3).
    change ((a :: A1) ++ A2) with (a :: (A1 ++ A2)) in *.
    apply NoDup_cons in Hnd as [Hna Hnd].
    destruct (Hb a) as [E1 E2]; [by left|].
    rewrite decide_False in E2.
    2:{ intros [Hne ->]. destruct A2 as [|c A2]; [done|]. cbn in Hna. set_solver. }
    split_and!; [congruence| |].
    + rewrite E1. rewrite last_default. destruct A1 as [|c A1].
      * by rewrite decide_True.
      * rewrite decide_False; [done|]. intros [_ E]. apply Hna.
        pose proof (last_In (c :: A1) a ltac:(done)) as Hl. rewrite <- E in Hl.
        apply elem_of_app. by left.
    + apply IH; [done|set_solver|done|done|by rewrite <- last_default with (d := prev)|].
      intros b Hin. destruct (Hb b) as [E3 E4]; [by right|]. rewrite last_default in E3.
      split; [|done]. rewrite E3. destruct (decide (A1 = [])) as [->|Hne].
      * cbn. rewrite (decide_False (P := _ /\ b = a)) by (intros [_ ->]; cbn in *; done).
        by rewrite decide_False by (by intros [? _]).
      * destruct (decide (b = List.last A1 a)).
        { by rewrite !decide_True. }
        by rewrite !decide_False by (by intros [_ ?]).
Qed.

Lemma find_insertion_spec (st : hdr_state) (A : list Z) (hi : Z) :
  NULL ∉ A -> dls st NULL A -> GC_all_bottom_indices st = hd NULL A ->
  Z.of_nat (length A) < W64 ->
  exists A1 A2, A = A1 ++ A2 /\ find_insertion st hi = Some (List.last A1 NULL, hd NULL A2)
    /\ Forall (fun b => bkey st b < hi) A1
    /\ (A2 <> [] -> hi <= bkey st (hd NULL A2)).
Proof.
  intros Hnn Hd Hf Hlen. unfold find_insertion.
  destruct (loop_spec_rel
    (fun n '(pi, p) => exists A1 A2, A = A1 ++ A2 /\ n = length A2 /\ pi = List.last A1 NULL
       /\ p = hd NULL A2 /\ Forall (fun b => bkey st b < hi) A1 /\ dls st pi A2)
    (fun '(pi, p) => exists A1 A2, A = A1 ++ A2 /\ pi = List.last A1 NULL
       /\ p = hd NULL A2 /\ Forall (fun b => bkey st b < hi) A1
       /\ (A2 <> [] -> hi <= bkey st (hd NULL A2)))
    (fun '(pi, p) => if negb (p =? NULL) && (key (bi_of st p) <? hi)
                        then inl (p, asc_link (bi_of st p)) else inr (pi, p))
    (length A) (NULL, GC_all_bottom_indices st)) as ([pi p] & -> & A1 & A2 & HA & -> & -> & ? & ?).
  - intros n [pi p] (A1 & A2 & HA & -> & -> & -> & Hlt & Hd2). destruct A2 as [|b A2]; cbn [hd].
    + exists A1, []. done.
    + destruct (Z.eqb_spec b NULL) as [->|Hb].
      { exfalso. apply Hnn. rewrite HA. set_solver. }
      cbn [negb andb]. destruct (Z.ltb_spec (key (bi_of st b)) hi) as [Hk|Hk].
      * exists (length A2). split; [cbn; lia|]. exists (A1 ++ [b]), A2.
        cbn [dls] in Hd2. destruct Hd2 as (? & -> & ?).
        rewrite <- app_assoc. split_and!; try done.
        { by rewrite last_last. }
        rewrite Forall_app. split; [done|]. by constructor.
      * exists A1, (b :: A2). done.
  - exists [], A. done.
  - done.
  - exists A1, A2. done.
Qed.

(** The table with the scratch memory it occupies. *)
Record hinv (used : list (Z * Z)) (st : hdr_state) (A : list Z) : Prop := {
  hi_rep : hrep st A;
  hi_scratch : scratch_inv used (hs_scratch st);
  hi_nils : (GC_all_nils st, sizeof_bottom_index) ∈ used;
  hi_bis : forall b, b ∈ A -> (b, sizeof_bottom_index) ∈ used
}.

Lemma scratch_alloc_spec_hs (used : list (Z * Z)) (st : hdr_state) (A : list Z) (n : Z) :
  hinv used st A -> 0 < n < 2 ^ 63 ->
  exists r s, scratch_alloc n st = Some (r, set_hs_scratch s st)
    /\ ((r = NULL /\ hinv used (set_hs_scratch s st) A)
        \/ (4096 <= r /\ (forall p m, 0 < m -> (p, m) ∈ used -> p <> r)
            /\ hinv ((r, n) :: used) (set_hs_scratch s st) A)).
Proof.
  intros [Hr Hs Hn Hb] Hsz. unfold scratch_alloc.
  destruct (scratch_alloc_step used (hs_scratch st) n ltac:(lia) Hs) as (r & s & -> & Hs').
  cbn. exists r, s. split; [done|].
  assert (T : hrep (set_hs_scratch s st) A).
  { eapply same_tree_hrep; [|apply Hr|exact Hr]. by split. }
  destruct (Z.eqb_spec r NULL) as [->|Hne]; [left; split; [done|by split]|right].
  destruct (scratch_fresh _ _ _ _ Hs') as [H1 H2]; [lia|].
  split_and!; [done|done|]. split; [done|done|by right|]. intros b Hin. right. by apply Hb.
Qed.

Lemma StronglySorted_insert (l1 l2 : list Z) (k : Z) :
  StronglySorted Z.lt (l1 ++ l2) -> Forall (fun x => x < k) l1 -> Forall (fun x => k < x) l2 ->
  StronglySorted Z.lt (l1 ++ k :: l2).
Proof.
  intros Hs H1 H2. induction l1 as [|a l1 IH]; cbn in *.
  - by constructor.
  - inversion Hs as [|? ? Hs' Hf]; subst. inversion H1; subst. constructor; [auto|].
    rewrite !Forall_app in *. destruct Hf. split; [done|]. by constructor.
Qed.


Lemma hchain_ext (st st' : hdr_state) (b : Z) (C : list Z) :
  GC_all_nils st' = GC_all_nils st ->
  (forall c, c ∈ C -> hash_link (bi_of st' c) = hash_link (bi_of st c)) ->
  hchain st b C -> hchain st' b C.
Proof.
  intros En Hh HC. induction HC as [|b C Hb HC IH].
  - rewrite <- En. constructor.
  - constructor; [by rewrite En|]. rewrite Hh by (by left). apply IH.
    intros c Hc. apply Hh. by right.
Qed.

(** The links after [r] has been inserted between [pi] and [p]. *)
Record linked_in (st st' : hdr_state) (r pi p hi : Z) : Prop := {
  li_new : bi_of st' r = BottomIndex ∅ p pi hi (top_of st (TL_HASH hi));
  li_old : forall b, b <> r ->
    bi_index (bi_of st' b) = bi_index (bi_of st b) /\ bkey st' b = bkey st b
    /\ hash_link (bi_of st' b) = hash_link (bi_of st b)
    /\ asc_link (bi_of st' b) = (if decide (pi <> NULL /\ b = pi) then r else asc_link (bi_of st b))
    /\ desc_link (bi_of st' b) = (if decide (p <> NULL /\ b = p) then r else desc_link (bi_of st b));
  li_nils : GC_all_nils st' = GC_all_nils st;
  li_first : GC_all_bottom_indices st' = (if decide (pi = NULL) then r else GC_all_bottom_indices st);
  li_last : GC_all_bottom_indices_end st' = (if decide (p = NULL) then r else GC_all_bottom_indices_end st);
  li_top : forall s, top_of st' s = if decide (TL_HASH hi = s) then r else top_of st s
}.

Section Insert.
Context (st st' : hdr_state) (A1 A2 : list Z) (r hi : Z).
Context (H : hrep st (A1 ++ A2)).
Context (Hr : r ∉ A1 ++ A2) (Hrn : r <> GC_all_nils st) (Hr0 : r <> NULL).
Context (Hhi : 0 <= hi < 2 ^ 42).
Context (Hlt : Forall (fun b => bkey st b < hi) A1).
Context (Hgt : Forall (fun b => hi < bkey st b) A2).
Context (L : linked_in st st' r (List.last A1 NULL) (hd NULL A2) hi).

Lemma insert_bkey (b : Z) : b ∈ A1 ++ A2 -> bkey st' b = bkey st b.
Proof. intros Hb. apply (li_old _ _ _ _ _ _ L). by intros ->. Qed.

Lemma insert_bkey_new : bkey st' r = hi.
Proof. unfold bkey. by rewrite (li_new _ _ _ _ _ _ L). Qed.

Lemma insert_keys : bkey st' <$> A1 ++ r :: A2 = (bkey st <$> A1) ++ hi :: (bkey st <$> A2).
Proof.
  rewrite fmap_app, fmap_cons, insert_bkey_new. f_equal; [|f_equal];
    apply list_fmap_ext; intros i x Hx; apply insert_bkey, elem_of_app;
    [left|right]; by eapply list_elem_of_lookup_2.
Qed.

Lemma insert_dls : dls st' NULL (A1 ++ r :: A2).
Proof.
  assert (Hnn := hr_nonnull _ _ H).
  apply (dls_insert st st'); [by eapply hrep_NoDup|done|apply H|..];
    try by rewrite (li_new _ _ _ _ _ _ L).
  intros b Hb. destruct (li_old _ _ _ _ _ _ L b) as (_ & _ & _ & -> & ->); [by intros ->|].
  split.
  - destruct (decide (A1 = [])) as [->|Hne]; cbn.
    { rewrite !decide_False by (by intros [? ?]). done. }
    pose proof (last_In A1 NULL Hne) as Hl. destruct (decide (b = List.last A1 NULL)) as [->|].
    + rewrite !decide_True; [done|done|]. split; [|done]. intros E. rewrite E in Hl.
      apply Hnn, elem_of_app. by left.
    + rewrite !decide_False by (by intros [_ ?]). done.
  - destruct A2 as [|c A2']; cbn.
    { rewrite !decide_False by (by intros [? ?]). done. }
    destruct (decide (b = c)) as [->|].
    + rewrite !decide_True; [done|done|]. split; [|done]. intros ->.
      apply Hnn, elem_of_app. right. by left.
    + rewrite !decide_False by (by intros [_ ?]). done.
Qed.

Lemma insert_chain (s : Z) : exists C, hchain st' (top_of st' s) C /\ NoDup C
  /\ forall b, b ∈ C <-> b ∈ A1 ++ r :: A2 /\ TL_HASH (bkey st' b) = s.
Proof.
  destruct (hr_chains _ _ H s) as (C & HC & Hnd & Hel).
  assert (HrC : r ∉ C) by (intros Hin; apply Hel in Hin as [Hin _]; done).
  assert (HC' : hchain st' (top_of st s) C).
  { eapply hchain_ext; [apply L| |exact HC]. intros c Hc.
    apply (li_old _ _ _ _ _ _ L). by intros ->. }
  rewrite (li_top _ _ _ _ _ _ L). case_decide as Es.
  - subst s. exists (r :: C). split_and!.
    + constructor; [by rewrite (li_nils _ _ _ _ _ _ L)|]. by rewrite (li_new _ _ _ _ _ _ L).
    + by constructor.
    + intros b. rewrite elem_of_cons, Hel, !elem_of_app, elem_of_cons.
      destruct (decide (b = r)) as [->|Hb].
      { rewrite insert_bkey_new. tauto. }
      destruct (li_old _ _ _ _ _ _ L b Hb) as (_ & -> & _). tauto.
  - exists C. split_and!; [done|done|]. intros b. rewrite Hel, !elem_of_app, elem_of_cons.
    destruct (decide (b = r)) as [->|Hb].
    { rewrite insert_bkey_new. split; [|tauto]. intros [Hin _].
      exfalso. by apply Hr, elem_of_app. }
    destruct (li_old _ _ _ _ _ _ L b Hb) as (_ & -> & _). tauto.
Qed.

Lemma insert_hrep : hrep st' (A1 ++ r :: A2).
Proof.
  assert (Hk := hr_sorted _ _ H). assert (Hrg := hr_range _ _ H).
  rewrite fmap_app in Hk, Hrg. destruct (li_old _ _ _ _ _ _ L (GC_all_nils st)) as (Hi & _); [done|].
  pose proof (hr_nils_out _ _ H). pose proof (hr_nonnull _ _ H).
  split; rewrite ?insert_keys, ?(li_nils _ _ _ _ _ _ L).
  - apply H.
  - rewrite Hi. apply H.
  - rewrite elem_of_app, elem_of_cons in *. intuition congruence.
  - rewrite elem_of_app, elem_of_cons in *. intuition congruence.
  - apply StronglySorted_insert; [done|..]; apply Forall_fmap; done.
  - rewrite Forall_app in Hrg. rewrite Forall_app, Forall_cons. tauto.
  - rewrite (li_first _ _ _ _ _ _ L), (hr_first _ _ H). destruct A1 as [|a A1']; [done|].
    rewrite decide_False; [done|]. intros E.
    pose proof (last_In (a :: A1') NULL ltac:(done)) as Hl. rewrite E in Hl.
    apply (hr_nonnull _ _ H), elem_of_app. by left.
  - rewrite (li_last _ _ _ _ _ _ L), (hr_last _ _ H). destruct A2 as [|c A2']; cbn [hd].
    { rewrite decide_True by done. by rewrite last_last. }
    rewrite decide_False.
    2:{ intros ->. apply (hr_nonnull _ _ H), elem_of_app. right. by left. }
    clear. induction A1 as [|a A1' IH]; cbn; [done|].
    destruct (A1' ++ c :: A2') eqn:E1; [by destruct A1'|].
    destruct (A1' ++ r :: c :: A2') eqn:E2; [by destruct A1'|]. done.
  - apply insert_dls.
  - intros s. apply insert_chain.
Qed.

Lemma insert_HDRv (q : Z) : HDRv st' q = HDRv st q.
Proof.
  assert (H' := insert_hrep).
  destruct (decide (BI_KEY q = hi)) as [Eq|Eq].
  - rewrite (HDRv_at st' _ q r H').
    2:{ left. rewrite insert_bkey_new. split; [|done]. apply elem_of_app. right. by left. }
    unfold HDR_FROM_BI. rewrite (li_new _ _ _ _ _ _ L). cbn. rewrite aget_empty.
    symmetry. apply (HDRv_unindexed st (A1 ++ A2)); [done|]. intros x Hx. rewrite Eq.
    rewrite Forall_forall in Hlt, Hgt. apply elem_of_app in Hx as [Hx|Hx];
      [specialize (Hlt x Hx)|specialize (Hgt x Hx)]; cbn in *; lia.
  - destruct (GET_BI_spec st _ q H) as (c & _ & Hc).
    assert (Hcr : c <> r) by (destruct Hc as [[? _]|[-> _]]; [by intros ->|done]).
    rewrite (HDRv_at st _ q c H Hc), (HDRv_at st' _ q c H').
    + unfold HDR_FROM_BI. by destruct (li_old _ _ _ _ _ _ L c Hcr) as (-> & _).
    + destruct Hc as [[Hc E]|[-> Hn]]; [left|right].
      * split; [rewrite elem_of_app, elem_of_cons in *; tauto|]. by rewrite insert_bkey.
      * split; [by rewrite (li_nils _ _ _ _ _ _ L)|]. intros x Hx.
        destruct (decide (x = r)) as [->|]; [by rewrite insert_bkey_new|].
        assert (x ∈ A1 ++ A2) by (rewrite elem_of_app, elem_of_cons in *; tauto).
        rewrite insert_bkey by done. by apply Hn.
Qed.

End Insert.


(** The header memory, the free-header list, the cache and the clock agree. *)
Definition same_headers (st st' : hdr_state) : Prop :=
  hdrs st' = hdrs st /\ GC_hdr_free_list st' = GC_hdr_free_list st
  /\ GC_hdr_cache st' = GC_hdr_cache st /\ GC_gc_no st' = GC_gc_no st.

(** Lookups read only the index blocks and the top level. *)
Lemma HDRv_frame (st st' : hdr_state) (q : Z) :
  bis st' = bis st -> GC_top_index st' = GC_top_index st -> GC_all_nils st' = GC_all_nils st ->
  HDRv st' q = HDRv st q.
Proof.
  intros Eb Et En. unfold HDRv, GET_HDR, GET_BI, HDR_FROM_BI, bi_of, top_of.
  by rewrite Eb, Et, En.
Qed.

Lemma indexed_frame (st st' : hdr_state) (A : list Z) (q : Z) :
  bis st' = bis st -> indexed st A q -> indexed st' A q.
Proof. intros Eb (b & Hb & E). exists b. unfold bkey, bi_of. by rewrite Eb. Qed.

Lemma sizeof_bounds : 0 < sizeof_bottom_index < 2 ^ 63 /\ 0 < sizeof_hdr < 2 ^ 63.
Proof. by vm_compute. Qed.

Lemma BI_KEY_range (p : Z) : 0 <= p < W64 -> 0 <= BI_KEY p < 2 ^ 42.
Proof. rewrite BI_KEY_div. unfold W64. change (2 ^ 64) with 18446744073709551616. dlia. Qed.

Lemma bi_of_set_top (v : gmap Z Z) (st : hdr_state) (b : Z) :
  bi_of (set_top_index v st) b = bi_of st b.
Proof. done. Qed.

Lemma bi_of_set_bottom (v w : Z) (st : hdr_state) (b : Z) :
  bi_of (set_bottom_indices v w st) b = bi_of st b.
Proof. done. Qed.

Lemma link_index_bi (st : hdr_state) (r pi p i c : Z) :
  (p <> NULL -> r <> p) -> (pi <> NULL -> r <> pi) ->
  bi_of (link_index r pi p i st) c
  = if decide (c = r) then set_asc p (set_desc pi (bi_of st r))
    else (if decide (pi <> NULL /\ c = pi) then set_asc r else id)
           ((if decide (p <> NULL /\ c = p) then set_desc r else id) (bi_of st c)).
Proof.
  intros Hp Hpi. unfold link_index. rewrite bi_of_set_top.
  destruct (Z.eqb_spec p NULL) as [Ep|Ep], (Z.eqb_spec pi NULL) as [Epi|Epi];
    try specialize (Hp Ep); try specialize (Hpi Epi);
    repeat (rewrite bi_of_upd || rewrite bi_of_set_bottom);
    repeat (case_decide; destruct_and?; subst; try done).
  all: exfalso; tauto.
Qed.

Lemma link_index_rest (st : hdr_state) (r pi p i : Z) :
  hs_scratch (link_index r pi p i st) = hs_scratch st /\ same_headers st (link_index r pi p i st).
Proof. unfold link_index, same_headers. by do 2 case_match. Qed.

Lemma link_index_linked (st st2 : hdr_state) (r pi p hi : Z) :
  (p <> NULL -> r <> p) -> (pi <> NULL -> r <> pi) ->
  bi_of st2 r = BottomIndex ∅ 0 0 hi (top_of st (TL_HASH hi)) ->
  (forall b, b <> r -> bi_of st2 b = bi_of st b) ->
  GC_all_nils st2 = GC_all_nils st -> GC_top_index st2 = GC_top_index st ->
  GC_all_bottom_indices st2 = GC_all_bottom_indices st ->
  GC_all_bottom_indices_end st2 = GC_all_bottom_indices_end st ->
  linked_in st (link_index r pi p (TL_HASH hi) st2) r pi p hi.
Proof.
  intros Hp Hpi Hnew Hold En Et Ef El. split.
  - rewrite link_index_bi, decide_True, Hnew by done. done.
  - intros b Hb. unfold bkey. rewrite link_index_bi, decide_False, Hold by done.
    do 2 case_decide; done.
  - unfold link_index. by do 2 case_match.
  - unfold link_index. destruct (Z.eqb_spec pi NULL), (Z.eqb_spec p NULL); cbn;
      by case_decide.
  - unfold link_index. destruct (Z.eqb_spec pi NULL), (Z.eqb_spec p NULL); cbn;
      by case_decide.
  - intros s. unfold top_of.
    assert (GC_top_index (link_index r pi p (TL_HASH hi) st2) = <[TL_HASH hi := r]> (GC_top_index st2)
      /\ GC_all_nils (link_index r pi p (TL_HASH hi) st2) = GC_all_nils st2) as [-> ->]
      by (unfold link_index; by do 2 case_match).
    rewrite Et, En, lookup_insert. by case_decide.
Qed.

(** After a successful [get_index] the address has an index block; nothing the
    table maps changes, and no address loses its index block. *)
Lemma get_index_spec (used : list (Z * Z)) (st : hdr_state) (A : list Z) (addr : Z) :
  hinv used st A -> 0 <= addr < W64 ->
  exists ok st' A' used', get_index addr st = Some (ok, st') /\ hinv used' st' A'
    /\ used `suffix_of` used' /\ same_headers st st'
    /\ (ok = true -> indexed st' A' addr)
    /\ (forall q, indexed st A q -> indexed st' A' q)
    /\ (forall q, HDRv st' q = HDRv st q).
Proof.
  intros Hinv Haddr. pose proof (hi_rep _ _ _ Hinv) as H. unfold get_index.
  destruct (has_index_spec st A (BI_KEY addr) H) as (b & Hb & ->). cbn.
  destruct Hb as [[Hb Ek]|[-> Hn]].
  { assert (b <> GC_all_nils st) by (intros ->; by apply (hr_nils_out _ _ H)).
    rewrite bool_decide_eq_true_2 by done. exists true, st, A, used.
    split; [done|]. split; [done|]. split; [done|]. split; [done|].
    split; [intros _; by exists b|]. by split. }
  rewrite bool_decide_eq_false_2 by (intros Hx; by apply Hx).
  destruct (scratch_alloc_spec_hs used st A sizeof_bottom_index Hinv
    (proj1 sizeof_bounds))
    as (r & s & -> & [[-> Hi]|(Hr & Hfr & Hi)]); cbn.
  { exists false, (set_hs_scratch s st), A, used. split; [done|]. split; [done|].
    split; [done|]. split; [done|]. split; [done|]. split; [|intros q; by apply HDRv_frame].
    intros q. by apply indexed_frame. }
  destruct (Z.eqb_spec r NULL) as [|_]; [lia|].
  set (st1 := set_hs_scratch s st) in *.
  set (st2 := upd_bi r _ st1).
  assert (HrA : r ∉ A) by (intros Hin; by eapply (Hfr r sizeof_bottom_index); [|apply Hinv|]).
  assert (Hrn : r <> GC_all_nils st)
    by (intros ->; by eapply (Hfr _ sizeof_bottom_index); [|apply Hinv|]).
  assert (Hst2 : forall b, b ∈ A -> bi_of st2 b = bi_of st b).
  { intros c Hc. unfold st2. rewrite bi_of_upd, decide_False; [done|]. by intros ->. }
  destruct (find_insertion_spec st2 A (BI_KEY addr)) as (A1 & A2 & -> & -> & Hlt & Hge).
  { apply H. }
  { eapply dls_ext; [|apply H]. intros c Hc. by rewrite Hst2. }
  { apply H. }
  { pose proof (hrep_length _ _ H). unfold W64. lia. }
  cbn [mbind option_bind]. eexists true, _, (A1 ++ r :: A2), ((r, sizeof_bottom_index) :: used).
  split; [done|]. set (pi := List.last A1 NULL) in *. set (p := hd NULL A2) in *.
  match goal with |- hinv _ ?s _ /\ _ => set (st7 := s) end.
  assert (L : linked_in st st7 r pi p (BI_KEY addr)).
  { assert (Hpr : p <> NULL -> r <> p).
    { intros Hp ->. apply HrA, elem_of_app. right. unfold p in *. destruct A2; [done|]. by left. }
    assert (Hpir : pi <> NULL -> r <> pi).
    { intros Hp ->. apply HrA, elem_of_app. left. unfold pi in *. destruct A1; [done|].
      by apply last_In. }
    apply link_index_linked; try done; unfold st2, st1.
    - by rewrite bi_of_upd, decide_True.
    - intros c Hc. by rewrite bi_of_upd, decide_False. }
  assert (Hgt : Forall (fun b => BI_KEY addr < bkey st b) A2).
  { destruct A2 as [|c A2]; [done|].
    assert (Hk := hr_sorted _ _ H). rewrite fmap_app in Hk.
    assert (Hc : BI_KEY addr < bkey st c).
    { specialize (Hge ltac:(done)). cbn in Hge. unfold bkey in Hge at 1.
      rewrite Hst2 in Hge by (apply elem_of_app; right; by left).
      pose proof (Hn c). rewrite elem_of_app, elem_of_cons in *. unfold bkey in *. lia. }
    constructor; [done|]. cbn in Hk. apply StronglySorted_app_1_r in Hk.
    inversion Hk as [|? ? _ Hf]; subst. rewrite Forall_fmap in Hf.
    eapply Forall_impl; [exact Hf|]. cbn. lia. }
  assert (Hlt' : Forall (fun b => bkey st b < BI_KEY addr) A1).
  { rewrite Forall_forall in *. intros c Hc. specialize (Hlt c Hc). unfold bkey in *.
    rewrite Hst2 in Hlt; [done|]. apply elem_of_app. by left. }
  assert (Hk := BI_KEY_range addr Haddr).
  assert (H7 : hrep st7 (A1 ++ r :: A2)) by (eapply insert_hrep; eauto; lia).
  split_and!.
  - split; [done| | |].
    + unfold st7. rewrite (proj1 (link_index_rest _ _ _ _ _)). apply Hi.
    + rewrite (li_nils _ _ _ _ _ _ L). right. apply Hinv.
    + intros c Hc. rewrite elem_of_app, elem_of_cons in Hc.
      destruct (decide (c = r)) as [->|]; [by left|]. right. apply Hinv.
      apply elem_of_app. tauto.
  - by apply suffix_cons_r.
  - apply (link_index_rest st2).
  - intros _. exists r. split; [apply elem_of_app; right; by left|].
    by eapply insert_bkey_new.
  - intros q (c & Hc & Eq). exists c.
    rewrite (insert_bkey _ _ _ _ _ _ HrA L) by done. split; [|done].
    rewrite elem_of_app, elem_of_cons in *. tauto.
  - intros q. eapply insert_HDRv; eauto; lia.
Qed.


(** ** Ownership of headers *)

(** The free-header list, linked through [hb_next]. *)
Fixpoint fchain (m : gmap Z hdr) (p : Z) (F : list Z) : Prop :=
  match F with
  | [] => p = NULL
  | v :: F => p = v /\ v <> NULL /\ is_Some (m !! v)
              /\ fchain m (hb_next (default zero_hdr (m !! v))) F
  end.

Lemma fchain_ext (m m' : gmap Z hdr) (p : Z) (F : list Z) :
  (forall v, v ∈ F -> m' !! v = m !! v) -> fchain m p F -> fchain m' p F.
Proof.
  revert p. induction F as [|v F IH]; intros p He; cbn; [done|].
  rewrite He by (by left). intros (? & ? & ? & ?). split_and!; try done.
  apply IH; [|done]. intros w Hw. apply He. by right.
Qed.

(** A slot value is a header pointer rather than 0 or a forwarding count. *)
Definition is_hdr_ptr (v : Z) : bool := MAX_JUMP <? v.

Lemma is_hdr_ptr_forward (v : Z) : is_hdr_ptr v = negb (IS_FORWARDING_ADDR_OR_NIL v).
Proof. unfold is_hdr_ptr, IS_FORWARDING_ADDR_OR_NIL. by rewrite Z.ltb_antisym. Qed.

(** The whole component: the tree, its memory, and the headers: those on the
    free list are never in the table, and no header serves two blocks. *)
Record table_inv (used : list (Z * Z)) (st : hdr_state) (A F : list Z) : Prop := {
  ti_hinv : hinv used st A;
  ti_free : fchain (hdrs st) (GC_hdr_free_list st) F;
  ti_nodup : NoDup F;
  ti_dom : forall v, is_Some (hdrs st !! v) -> 4096 <= v /\ (v, sizeof_hdr) ∈ used;
  ti_live : forall p, is_hdr_ptr (HDRv st p) = true ->
    is_Some (hdrs st !! HDRv st p) /\ HDRv st p ∉ F;
  ti_inj : forall p q, is_hdr_ptr (HDRv st p) = true -> HDRv st p = HDRv st q -> p / 4096 = q / 4096
}.

Lemma hinv_rest (used : list (Z * Z)) (st st' : hdr_state) (A : list Z) :
  hinv used st A -> bis st' = bis st -> GC_top_index st' = GC_top_index st ->
  GC_all_nils st' = GC_all_nils st -> GC_all_bottom_indices st' = GC_all_bottom_indices st ->
  GC_all_bottom_indices_end st' = GC_all_bottom_indices_end st ->
  hs_scratch st' = hs_scratch st -> hinv used st' A.
Proof.
  intros [H1 H2 H3 H4] Eb Et En Ef El Es.
  assert (T : same_tree st st') by (split; try done; intros b; unfold bi_of; by rewrite Eb).
  split; [|by rewrite Es|by rewrite En|done]. eapply same_tree_hrep; [done| |done].
  unfold bi_of. rewrite Eb, En. apply H1.
Qed.

(** [GC_INVALIDATE_HDR_CACHE] touches nothing but the cache. *)
Lemma table_inv_cache (used : list (Z * Z)) (st : hdr_state) (A F : list Z) c :
  table_inv used st A F -> table_inv used (set_hdr_cache c st) A F.
Proof.
  intros [H1 H2 H3 H4 H5 H6]. split; [by eapply hinv_rest|done..].
Qed.

Lemma table_inv_index (used : list (Z * Z)) (st : hdr_state) (A F : list Z) (addr : Z) :
  table_inv used st A F -> 0 <= addr < W64 ->
  exists ok st' A' used', get_index addr st = Some (ok, st') /\ table_inv used' st' A' F
    /\ same_headers st st' /\ (ok = true -> indexed st' A' addr)
    /\ (forall q, indexed st A q -> indexed st' A' q)
    /\ (forall q, HDRv st' q = HDRv st q).
Proof.
  intros [H1 H2 H3 H4 H5 H6] Ha.
  destruct (get_index_spec used st A addr H1 Ha)
    as (ok & st' & A' & used' & Hg & Hi & [k ->] & (Eh & Ef & Ec & Eg) & Hok & Hmono & HE).
  exists ok, st', A', (k ++ used). split; [done|]. split; [|by repeat split].
  split; rewrite ?Eh, ?Ef; auto.
  - intros v Hv. destruct (H4 v Hv). split; [done|]. apply elem_of_app. by right.
  - intros p. rewrite HE. apply H5.
  - intros p q. rewrite !HE. apply H6.
Qed.

(** What [alloc_hdr] may return: nothing, or a header that no block uses. *)
Lemma alloc_hdr_spec (used : list (Z * Z)) (st : hdr_state) (A F : list Z) :
  table_inv used st A F ->
  exists r st' F' used', alloc_hdr st = Some (r, st') /\ table_inv used' st' A F'
    /\ (forall q, HDRv st' q = HDRv st q) /\ bis st' = bis st
    /\ GC_hdr_cache st' = GC_hdr_cache st /\ GC_gc_no st' = GC_gc_no st
    /\ (forall v, is_Some (hdrs st !! v) -> hdrs st' !! v = hdrs st !! v)
    /\ (r <> NULL -> 4096 <= r /\ is_Some (hdrs st' !! r) /\ r ∉ F'
                     /\ forall q, HDRv st q <> r).
Proof.
  intros HT. pose proof HT as [H1 H2 H3 H4 H5 H6]. unfold alloc_hdr.
  destruct (Z.eqb_spec (GC_hdr_free_list st) NULL) as [E0|E0].
  - destruct (scratch_alloc_spec_hs used st A sizeof_hdr H1 (proj2 sizeof_bounds))
      as (r & s & -> & [[-> Hi]|(Hr & Hfr & Hi)]); cbn.
    + exists NULL, (set_hs_scratch s st), F, used.
      assert (E : forall q, HDRv (set_hs_scratch s st) q = HDRv st q)
        by (intros; by apply HDRv_frame).
      split; [done|]. split; [|by repeat split].
      by split.
    + destruct (Z.eqb_spec r NULL) as [|_]; [lia|].
      set (st' := set_hdrs (<[r := zero_hdr]> (hdrs st)) (set_hs_scratch s st)).
      assert (Hnew : hdrs st !! r = None).
      { destruct (hdrs st !! r) eqn:E; [|done]. destruct (H4 r) as [_ Hu]; [by rewrite E|].
        exfalso. by eapply (Hfr r sizeof_hdr). }
      assert (E : forall q, HDRv st' q = HDRv st q) by (intros; by apply HDRv_frame).
      assert (Hne : forall v, is_Some (hdrs st !! v) -> r <> v)
        by (intros v [? Hv] ->; congruence).
      assert (Hnl : forall q, HDRv st q <> r).
      { intros q Eq. destruct (H5 q) as [Hs _].
        { rewrite Eq. unfold is_hdr_ptr. apply Z.ltb_lt. unfold MAX_JUMP. rewrite HBLKSIZE_eq. lia. }
        rewrite Eq, Hnew in Hs. by destruct Hs. }
      destruct F as [|v F]; cbn in H2; [|naive_solver].
      exists r, st', [], ((r, sizeof_hdr) :: used).
      split; [done|]. split; [|repeat split; try done].
      * split; [by eapply hinv_rest|done|done|..].
        { intros v. cbn. rewrite lookup_insert. case_decide as Ev.
          - subst v. intros _. split; [lia|by left].
          - intros Hv. destruct (H4 v Hv). split; [done|by right]. }
        { intros p. rewrite !E. intros Hp. destruct (H5 p Hp) as [Hs ?]. split; [|done].
          cbn. rewrite lookup_insert_ne; [done|auto]. }
        { intros p q. rewrite !E. apply H6. }
      * intros v Hv. cbn. by rewrite lookup_insert_ne by auto.
      * cbn. by rewrite lookup_insert_eq.
      * set_solver.
  - destruct F as [|v F]; cbn in H2; [done|]. destruct H2 as (Ev & Hv0 & Hs & Hc).
    rewrite Ev in *. apply NoDup_cons in H3 as [Hv HF].
    set (st' := set_hdr_free_list _ st).
    assert (E : forall q, HDRv st' q = HDRv st q) by (intros; by apply HDRv_frame).
    exists v, st', F, used. split; [done|]. split; [|repeat split; try done].
    + split; [by eapply hinv_rest|done|done|done| |done].
      intros p. rewrite !E. intros Hp. destruct (H5 p Hp) as [? Hn]. split; [done|]. intros Hin. apply Hn. by right.
    + by destruct (H4 v Hs).
    + intros q Eq. destruct (H4 v Hs). destruct (H5 q) as [_ Hn].
      { rewrite Eq. unfold is_hdr_ptr. apply Z.ltb_lt. unfold MAX_JUMP. rewrite HBLKSIZE_eq. lia. }
      apply Hn. rewrite Eq. by left.
Qed.


(** ** The operations on mappings *)

Definition wf_table (st : hdr_state) : Prop := exists used A F, table_inv used st A F.

Lemma is_hdr_ptr_ge (v : Z) : is_hdr_ptr v = true <-> 4096 <= v.
Proof. unfold is_hdr_ptr, MAX_JUMP. rewrite HBLKSIZE_eq, Z.ltb_lt. lia. Qed.

(** Writing a slot that may hold any value without stealing a header. *)
Lemma table_inv_set (used : list (Z * Z)) (st : hdr_state) (A F : list Z) (p v : Z) :
  table_inv used st A F -> indexed st A p ->
  (4096 <= v -> is_Some (hdrs st !! v) /\ v ∉ F /\ forall q, HDRv st q <> v) ->
  exists st', SET_HDR p v st = Some st' /\ table_inv used st' A F
    /\ (forall q, HDRv st' q = if decide (q / 4096 = p / 4096) then v else HDRv st q)
    /\ hdrs st' = hdrs st /\ GC_hdr_cache st' = GC_hdr_cache st /\ GC_gc_no st' = GC_gc_no st
    /\ GC_hdr_free_list st' = GC_hdr_free_list st
    /\ (forall q, indexed st A q -> indexed st' A q).
Proof.
  intros [H1 H2 H3 H4 H5 H6] Hidx Hv.
  destruct (SET_HDR_spec st A p v (hi_rep _ _ _ H1) Hidx)
    as (st' & -> & Hrep & (Es & Eh & Ef & Ec & Eg) & T & HE).
  exists st'. split; [done|]. split.
  - split; rewrite ?Eh, ?Ef; try done.
    + split; [done|rewrite Es; apply H1|rewrite (tr_nils _ _ T); apply H1|apply H1].
    + intros q. rewrite HE. case_decide; [|apply H5]. rewrite is_hdr_ptr_ge. intros Hv'.
      destruct (Hv Hv') as (? & ? & _). done.
    + intros q r. rewrite !HE, is_hdr_ptr_ge. repeat case_decide; intros Hp Eq.
      * congruence.
      * destruct (Hv Hp) as (_ & _ & Hne). by destruct (Hne r).
      * subst v. destruct (Hv Hp) as (_ & _ & Hne). by destruct (Hne q).
      * apply H6; [by apply is_hdr_ptr_ge|done].
  - split_and!; try done. intros q (b & Hb & Ek). exists b. split; [done|].
    by rewrite (same_tree_bkey _ _ _ T).
Qed.

(** Changing the contents of a header that is not on the free list. *)
Lemma table_inv_hdr (used : list (Z * Z)) (st : hdr_state) (A F : list Z) (v : Z) (x : hdr) :
  table_inv used st A F -> is_Some (hdrs st !! v) -> v ∉ F ->
  table_inv used (set_hdrs (<[v := x]> (hdrs st)) st) A F.
Proof.
  intros [H1 H2 H3 H4 H5 H6] Hv HvF.
  assert (Hs : forall w, is_Some (<[v := x]> (hdrs st) !! w) <-> is_Some (hdrs st !! w)).
  { intros w. rewrite lookup_insert. case_decide; [subst|done]. by split. }
  split; [by eapply hinv_rest|..|done]; cbn.
  - eapply fchain_ext; [|exact H2]. intros w Hw. apply lookup_insert_ne. by intros ->.
  - done.
  - intros w. rewrite Hs. apply H4.
  - intros p Hp. destruct (H5 p Hp). split; [by apply Hs|done].
Qed.

Lemma install_header_spec (st : hdr_state) (h : Z) :
  wf_table st -> 0 <= h < W64 ->
  exists r st', GC_install_header h st = Some (r, st') /\ wf_table st' /\ GC_hdr_cache st' = ∅
    /\ (forall v, is_Some (hdrs st !! v) -> v <> r -> hdrs st' !! v = hdrs st !! v)
    /\ ((r = NULL /\ forall q, HDRv st' q = HDRv st q)
        \/ (4096 <= r /\ is_Some (hdrs st' !! r) /\ (forall q, HDRv st q <> r)
            /\ forall q, HDRv st' q = if decide (q / 4096 = h / 4096) then r else HDRv st q)).
Proof.
  intros (used & A & F & HT) Hh. unfold GC_install_header.
  assert (HT0 := table_inv_cache _ _ _ _ ∅ HT). fold (GC_INVALIDATE_HDR_CACHE st) in HT0.
  assert (E0 : forall q, HDRv (GC_INVALIDATE_HDR_CACHE st) q = HDRv st q)
    by (intros; by apply HDRv_frame).
  destruct (table_inv_index _ _ _ _ h HT0 Hh)
    as (ok & st1 & A1 & used1 & -> & HT1 & (Eh1 & Ef1 & Ec1 & Eg1) & Hok & _ & HE1). cbn.
  destruct ok; cbn.
  2:{ exists NULL, st1. split; [done|]. split; [by exists used1, A1, F|]. split; [done|].
      split; [by intros; rewrite Eh1|]. left. split; [done|]. intros q. by rewrite HE1, E0. }
  destruct (alloc_hdr_spec _ _ _ _ HT1)
    as (r & st2 & F2 & used2 & -> & HT2 & HE2 & Eb2 & Ec2 & _ & Hh2 & Hr). cbn.
  destruct (Z.eqb_spec r NULL) as [->|Hr0].
  { exists NULL, st2. split; [done|]. split; [by exists used2, A1, F2|].
    split; [by rewrite Ec2, Ec1|].
    split; [intros v Hv _; rewrite Hh2, Eh1; [done|by rewrite Eh1]|].
    left. split; [done|]. intros q. by rewrite HE2, HE1, E0. }
  destruct (Hr Hr0) as (Hr1 & Hr2 & Hr3 & Hr4).
  assert (Hidx : indexed st2 A1 h) by (apply (indexed_frame st1); auto).
  destruct (table_inv_set _ _ _ _ h r HT2 Hidx) as (st3 & -> & HT3 & HE3 & Eh3 & Ec3 & _).
  { intros _. split_and!; [done|done|]. intros q. rewrite HE2. apply Hr4. }
  cbn. eexists r, _. split; [done|]. split.
  { exists used2, A1, F2. apply table_inv_hdr; [done| |done]. by rewrite Eh3. }
  split; [cbn; by rewrite Ec3, Ec2, Ec1|]. split.
  { intros v Hv Hne. cbn. rewrite lookup_insert_ne by done. rewrite Eh3, Hh2, Eh1; [done|].
    by rewrite Eh1. }
  right. split; [done|]. split; [cbn; by rewrite lookup_insert_eq|].
  split; [intros q; rewrite <- E0, <- HE1; apply Hr4|].
  intros q. rewrite (HDRv_frame st3) by done. rewrite HE3. case_decide; [done|].
  by rewrite HE2, HE1, E0.
Qed.

Lemma remove_header_spec (st : hdr_state) (h : Z) :
  wf_table st -> is_hdr_ptr (HDRv st h) = true ->
  exists st', GC_remove_header h st = Some st' /\ wf_table st' /\ GC_hdr_cache st' = ∅
    /\ (forall v, v <> HDRv st h -> hdrs st' !! v = hdrs st !! v)
    /\ GC_hdr_free_list st' = HDRv st h
    /\ forall q, HDRv st' q = if decide (q / 4096 = h / 4096) then NULL else HDRv st q.
Proof.
  intros (used & A & F & HT) Hp. unfold GC_remove_header.
  pose proof (table_inv_cache _ _ _ _ ∅ HT) as HT0. fold (GC_INVALIDATE_HDR_CACHE st) in HT0.
  set (st0 := GC_INVALIDATE_HDR_CACHE st) in *.
  assert (E0 : forall q, HDRv st0 q = HDRv st q) by (intros; by apply HDRv_frame).
  rewrite (GET_HDR_total st0 A) by apply HT0. cbn.
  destruct HT0 as [H1 H2 H3 H4 H5 H6]. destruct (H5 h) as [Hs HnF]; [by rewrite E0|].
  assert (Hge : 4096 <= HDRv st0 h) by (by rewrite E0; apply is_hdr_ptr_ge).
  assert (Hidx : indexed st0 A h) by (apply HDRv_nonnull_indexed; [apply H1|lia]).
  (* clear the slot, then put the header on the free list: the slot write comes
     last in the source, but the two touch different memory *)
  destruct (SET_HDR_spec (free_hdr (HDRv st0 h) st0) A h NULL) as
    (st' & Hset & Hrep & (Es & Eh & Ef & Ec & Eg) & T & HE).
  { eapply same_tree_hrep; [|apply H1|apply H1]. by split. }
  { by apply (indexed_frame st0). }
  exists st'. split; [done|]. rewrite E0 in Hs, HnF, Hge, Eh, Ef.
  assert (HE' : forall q, HDRv st' q = if decide (q / 4096 = h / 4096) then NULL else HDRv st q)
    by (intros q; rewrite HE; case_decide; [done|by apply HDRv_frame]).
  split; [|split; [by rewrite Ec|split; [|split; [by rewrite Ef|done]]]].
  2:{ intros v Hv. rewrite Eh. cbn. by rewrite lookup_insert_ne. }
  exists used, A, (HDRv st h :: F). split; rewrite ?Eh, ?Ef; cbn.
  - split; [done|rewrite Es; apply H1|rewrite (tr_nils _ _ T); apply H1|apply H1].
  - split; [done|]. split; [lia|]. rewrite lookup_insert_eq. split; [done|]. cbn.
    eapply fchain_ext; [|exact H2]. intros w Hw. apply lookup_insert_ne. by intros <-.
  - by constructor.
  - intros v. rewrite lookup_insert. case_decide as Ev; [rewrite <- Ev; intros _|]; by apply H4.
  - intros p. rewrite HE'. case_decide as Ed; [done|]. rewrite <- E0. intros Hpp.
    destruct (H5 p Hpp) as [Hs' Hn']. rewrite lookup_insert.
    assert (HDRv st h <> HDRv st0 p).
    { rewrite <- E0. intros E. apply Ed. symmetry. apply H6; [by rewrite E0|done]. }
    rewrite decide_False by done. split; [done|]. rewrite elem_of_cons. intros [?|?]; [|done].
    congruence.
  - intros p q. rewrite !HE'. repeat case_decide; try done.
    + intros Hpp E. by rewrite E in Hpp.
    + rewrite <- !E0. apply H6.
Qed.


(** ** Forwarding counts *)

Definition STRETCH : Z := BOTTOM_SZ * HBLKSIZE.

Lemma STRETCH_eq : STRETCH = 4194304.
Proof. done. Qed.

Lemma install_indices_spec (used : list (Z * Z)) (st : hdr_state) (A F : list Z) (h sz : Z) :
  table_inv used st A F -> 0 <= h -> 0 < sz -> h + sz < W64 ->
  exists ok st' A' used', install_indices h sz st = Some (ok, st') /\ table_inv used' st' A' F
    /\ same_headers st st' /\ (forall q, HDRv st' q = HDRv st q)
    /\ (ok = true -> forall k, 0 <= k -> h + k * STRETCH < h + sz -> indexed st' A' (h + k * STRETCH)).
Proof.
  intros HT Hh Hsz Hend. unfold install_indices.
  match goal with |- context [loop ?f ?s] => destruct (loop_spec
    (fun '(hbp, st1) => exists A1 used1 k, table_inv used1 st1 A1 F /\ same_headers st st1
       /\ (forall q, HDRv st1 q = HDRv st q) /\ hbp = h + k * STRETCH /\ 0 <= k
       /\ (forall j, 0 <= j < k -> indexed st1 A1 (h + j * STRETCH)))
    (fun r : option (bool * hdr_state) => exists ok st' A' used', r = Some (ok, st')
       /\ table_inv used' st' A' F
       /\ same_headers st st' /\ (forall q, HDRv st' q = HDRv st q)
       /\ (ok = true -> forall k, 0 <= k -> h + k * STRETCH < h + sz ->
             indexed st' A' (h + k * STRETCH)))
    (fun '(hbp, _) => Z.max 0 (h + sz - hbp)) f s) as (r & Hr & Hq) end.
  - intros [hbp st1] (A1 & used1 & k & HT1 & HS1 & HE1 & -> & Hk & Hidx).
    destruct (Z.ltb_spec (h + k * STRETCH) (h + sz)) as [Hlt|Hge].
    2:{ eexists true, st1, A1, used1. split; [done|]. split; [done|]. split; [done|].
        split; [done|]. intros _ j Hj Hj'. apply Hidx. split; [done|].
        rewrite STRETCH_eq in *. lia. }
    destruct (table_inv_index _ _ _ _ (h + k * STRETCH) HT1)
      as (ok & st2 & A2 & used2 & -> & HT2 & HS2 & Hok & Hmono & HE2).
    { rewrite STRETCH_eq in *. lia. }
    assert (HS : same_headers st st2).
    { destruct HS1 as (?&?&?&?), HS2 as (?&?&?&?). repeat split; congruence. }
    assert (HE : forall q, HDRv st2 q = HDRv st q) by (intros; by rewrite HE2, HE1).
    destruct ok; [|by eexists false, st2, A2, used2].
    assert (Hidx' : forall j, 0 <= j < k + 1 -> indexed st2 A2 (h + j * STRETCH)).
    { intros j Hj. destruct (decide (j = k)) as [->|]; [by apply Hok|]. apply Hmono, Hidx. lia. }
    destruct (Z.ltb_spec (GC_WORD_MAX - BOTTOM_SZ * HBLKSIZE) (h + k * STRETCH)) as [Hov|Hov].
    + eexists true, st2, A2, used2. split; [done|]. split; [done|]. split; [done|].
      split; [done|]. intros _ j Hj Hj'. apply Hidx'. fold STRETCH in Hov.
      unfold GC_WORD_MAX, W64 in *. rewrite STRETCH_eq in *. lia.
    + split; [|fold STRETCH; rewrite STRETCH_eq in *; lia].
      exists A2, used2, (k + 1). split; [done|]. split; [done|]. split; [done|].
      split; [unfold STRETCH; lia|]. split; [lia|done].
  - exists A, used, 0. split; [done|]. split; [done|]. split; [done|]. split; [lia|].
    split; [lia|]. lia.
  - unfold W64 in *. lia.
  - rewrite Hr. destruct Hq as (ok & st' & A' & used' & -> & Hq). by exists ok, st', A', used'.
Qed.

(** The stretches and the last address cover the whole range. *)
Lemma stretches_cover (st : hdr_state) (A : list Z) (h sz q : Z) :
  0 <= h -> 0 < sz ->
  (forall k, 0 <= k -> h + k * STRETCH < h + sz -> indexed st A (h + k * STRETCH)) ->
  indexed st A (h + sz - 1) -> h <= q < h + sz -> indexed st A q.
Proof.
  intros Hh Hsz Hk Hl Hq. rewrite STRETCH_eq in *.
  set (k := (q - h) / 4194304). assert (Hk0 : 0 <= k) by (unfold k; dlia).
  assert (Hkq : h + k * 4194304 <= q < h + (k + 1) * 4194304) by (unfold k; dlia).
  clearbody k.
  assert (Hsame : forall p, BI_KEY p = BI_KEY q -> indexed st A p -> indexed st A q).
  { intros p E (b & ? & ?). exists b. split; [done|congruence]. }
  destruct (decide (BI_KEY (h + k * 4194304) = BI_KEY q)) as [E|E].
  { eapply Hsame; [exact E|]. apply Hk; lia. }
  rewrite !BI_KEY_div in E.
  destruct (decide (h + (k + 1) * 4194304 < h + sz)) as [E2|E2].
  - eapply (Hsame (h + (k + 1) * 4194304)); [rewrite !BI_KEY_div; dlia|]. apply Hk; lia.
  - eapply (Hsame (h + sz - 1)); [rewrite !BI_KEY_div; dlia|done].
Qed.

(** What a slot of a multi-block object holds: how far to jump back. *)
Definition fwd_count (h q : Z) : Z := Z.min (q / 4096 - h / 4096) MAX_JUMP.

(** A pass over the blocks after the first that stores small values. *)
Lemma set_slots_loop (used : list (Z * Z)) (st : hdr_state) (A F : list Z) (h sz : Z)
    (val : Z -> Z) (body : Z * hdr_state -> (Z * hdr_state) + option hdr_state) :
  (forall hbp st, body (hbp, st)
     = if hbp <? h + sz then
         match SET_HDR hbp (val hbp) st with
         | None => inr None
         | Some st => inl (hbp + HBLKSIZE, st)
         end
       else inr (Some st)) ->
  table_inv used st A F -> h mod 4096 = 0 -> 0 <= h -> 0 < sz -> sz mod 4096 = 0 ->
  h + sz < W64 ->
  (forall q, h + HBLKSIZE <= q < h + sz -> indexed st A q) ->
  (forall p q, p / 4096 = q / 4096 -> h < p -> val p = val q) ->
  (forall p, h < p -> val p < 4096) ->
  exists st', loop body (h + HBLKSIZE, st) = Some (Some st') /\ table_inv used st' A F
    /\ hdrs st' = hdrs st /\ GC_hdr_cache st' = GC_hdr_cache st
    /\ GC_hdr_free_list st' = GC_hdr_free_list st
    /\ forall q, HDRv st' q
       = if decide (h / 4096 < q / 4096 < (h + sz) / 4096) then val q else HDRv st q.
Proof.
  intros Hbody HT Hal Hh Hsz Hszal Hend Hidx Hval Hsm. rewrite HBLKSIZE_eq in *.
  destruct (loop_spec
    (fun '(hbp, st1) => table_inv used st1 A F /\ hdrs st1 = hdrs st
       /\ GC_hdr_cache st1 = GC_hdr_cache st /\ GC_hdr_free_list st1 = GC_hdr_free_list st
       /\ (forall q, h + 4096 <= q < h + sz -> indexed st1 A q)
       /\ hbp mod 4096 = 0 /\ h + 4096 <= hbp <= h + sz
       /\ forall q, HDRv st1 q
          = if decide (h / 4096 < q / 4096 < hbp / 4096) then val q else HDRv st q)
    (fun r => exists st', r = Some st' /\ table_inv used st' A F
       /\ hdrs st' = hdrs st /\ GC_hdr_cache st' = GC_hdr_cache st
       /\ GC_hdr_free_list st' = GC_hdr_free_list st
       /\ forall q, HDRv st' q
          = if decide (h / 4096 < q / 4096 < (h + sz) / 4096) then val q else HDRv st q)
    (fun '(hbp, _) => Z.max 0 (h + sz - hbp)) body (h + 4096, st))
    as (r & -> & st' & -> & ?); [| | |by exists st'].
  - intros [hbp st1] (HT1 & Eh & Ec & Ef & Hi1 & Ha1 & Hr1 & HE1). rewrite Hbody.
    destruct (Z.ltb_spec hbp (h + sz)) as [Hlt|Hge].
    2:{ exists st1. replace (h + sz) with hbp by lia. done. }
    destruct (table_inv_set _ _ _ _ hbp (val hbp) HT1) as (st2 & -> & HT2 & HE2 & Eh2 & Ec2 & _ & Ef2 & Hi2).
    { apply Hi1. lia. }
    { intros Hge. specialize (Hsm hbp). lia. }
    split; [|lia].
    split; [done|]. split; [congruence|]. split; [congruence|]. split; [congruence|].
    split; [auto|]. split; [dlia|]. split; [dlia|].
    intros q. rewrite HE2, HE1. repeat case_decide; try done.
    + rewrite (Hval hbp q); [done|done|lia].
    + exfalso. dlia.
    + exfalso. dlia.
    + exfalso. dlia.
  - split; [done|]. split; [done|]. split; [done|]. split; [done|]. split; [done|].
    split; [dlia|]. split; [dlia|]. intros q. rewrite decide_False; [done|]. dlia.
  - unfold W64 in *. lia.
Qed.

Lemma install_counts_spec (st : hdr_state) (h sz : Z) :
  wf_table st -> h mod 4096 = 0 -> 0 <= h -> 0 < sz -> sz mod 4096 = 0 -> h + sz < W64 ->
  exists ok st', GC_install_counts h sz st = Some (ok, st') /\ wf_table st'
    /\ hdrs st' = hdrs st /\ GC_hdr_cache st' = ∅
    /\ forall q, HDRv st' q
       = if decide (ok = true /\ h / 4096 < q / 4096 < (h + sz) / 4096)
         then fwd_count h q else HDRv st q.
Proof.
  intros (used & A & F & HT) Hal Hh Hsz Hszal Hend. unfold GC_install_counts.
  assert (HT0 := table_inv_cache _ _ _ _ ∅ HT). fold (GC_INVALIDATE_HDR_CACHE st) in HT0.
  assert (E0 : forall q, HDRv (GC_INVALIDATE_HDR_CACHE st) q = HDRv st q)
    by (intros; by apply HDRv_frame).
  destruct (install_indices_spec _ _ _ _ h sz HT0 Hh Hsz Hend)
    as (ok & st1 & A1 & used1 & -> & HT1 & (Eh1 & Ef1 & Ec1 & _) & HE1 & Hok). cbn.
  destruct ok; cbn.
  2:{ exists false, st1. split; [done|]. split; [by exists used1, A1, F|]. split; [done|].
      split; [done|]. intros q. rewrite decide_False by (by intros [? _]). by rewrite HE1, E0. }
  destruct (table_inv_index _ _ _ _ (h + sz - 1) HT1)
    as (ok2 & st2 & A2 & used2 & -> & HT2 & (Eh2 & Ef2 & Ec2 & _) & Hok2 & Hmono & HE2); [lia|]. cbn.
  destruct ok2; cbn.
  2:{ exists false, st2. split; [done|]. split; [by exists used2, A2, F|].
      split; [by rewrite Eh2, Eh1|]. split; [by rewrite Ec2, Ec1|].
      intros q. rewrite decide_False by (by intros [? _]). by rewrite HE2, HE1, E0. }
  unfold install_forwards.
  match goal with |- context [loop ?f (h + HBLKSIZE, st2)] =>
    destruct (set_slots_loop used2 st2 A2 F h sz
      (fun q => if MAX_JUMP <? divHBLKSZ (q - h) then MAX_JUMP else divHBLKSZ (q - h)) f)
      as (st3 & -> & HT3 & Eh3 & Ec3 & _ & HE3); try done end.
  { intros q Hq. eapply (stretches_cover st2 A2 h sz); [done|done| |by apply Hok2|].
    - intros k Hk Hk'. apply Hmono. by apply Hok.
    - rewrite HBLKSIZE_eq in Hq. lia. }
  { intros p q E Hp. rewrite !divHBLKSZ_div. assert ((p - h) / 4096 = (q - h) / 4096) as -> by dlia. done. }
  { intros p Hp. unfold MAX_JUMP. rewrite HBLKSIZE_eq. bcase; lia. }
  cbn. exists true, st3. split; [done|]. split; [by exists used2, A2, F|].
  split; [by rewrite Eh3, Eh2, Eh1|]. split; [by rewrite Ec3, Ec2, Ec1|].
  intros q. rewrite HE3. destruct (decide (h / 4096 < q / 4096 < (h + sz) / 4096)) as [Hd|Hd].
  - rewrite decide_True by done. unfold fwd_count. rewrite divHBLKSZ_div.
    replace ((q - h) / 4096) with (q / 4096 - h / 4096) by dlia. bcase; lia.
  - rewrite decide_False by (by intros [_ ?]). by rewrite HE2, HE1, E0.
Qed.

Lemma remove_counts_spec (st : hdr_state) (h sz : Z) :
  wf_table st -> h mod 4096 = 0 -> 0 <= h -> 0 < sz -> sz mod 4096 = 0 -> h + sz < W64 ->
  (forall q, h / 4096 < q / 4096 < (h + sz) / 4096 ->
     if decide (HDRv st (h + HBLKSIZE) = NULL) then HDRv st q = NULL else HDRv st q <> NULL) ->
  exists st', GC_remove_counts h sz st = Some st' /\ wf_table st'
    /\ hdrs st' = hdrs st /\ GC_hdr_cache st' = ∅
    /\ forall q, HDRv st' q
       = if decide (h / 4096 < q / 4096 < (h + sz) / 4096) then NULL else HDRv st q.
Proof.
  intros (used & A & F & HT) Hal Hh Hsz Hszal Hend Hmid. unfold GC_remove_counts.
  assert (HT0 := table_inv_cache _ _ _ _ ∅ HT). fold (GC_INVALIDATE_HDR_CACHE st) in HT0.
  set (st0 := GC_INVALIDATE_HDR_CACHE st) in *.
  assert (E0 : forall q, HDRv st0 q = HDRv st q) by (intros; by apply HDRv_frame).
  destruct (Z.leb_spec sz HBLKSIZE) as [Hs|Hs]; rewrite HBLKSIZE_eq in *.
  { exists st0. split; [done|]. split; [by exists used, A, F|]. split; [done|]. split; [done|].
    intros q. rewrite decide_False by dlia. apply E0. }
  rewrite (GET_HDR_total st0 A) by apply HT0. cbn. rewrite E0.
  destruct (Z.eqb_spec (HDRv st (h + 4096)) NULL) as [En|En].
  { exists st0. split; [done|]. split; [by exists used, A, F|]. split; [done|]. split; [done|].
    intros q. rewrite E0. destruct (decide (h / 4096 < q / 4096 < (h + sz) / 4096)) as [Hd|Hd]; [|done].
    specialize (Hmid q Hd). by rewrite decide_True in Hmid. }
  match goal with |- context [loop ?f (h + 4096, st0)] =>
    destruct (set_slots_loop used st0 A F h sz (fun _ => NULL) f)
      as (st1 & Hl & HT1 & Eh1 & Ec1 & _ & HE1); try done end.
  { intros q Hq. rewrite HBLKSIZE_eq in Hq. apply HDRv_nonnull_indexed; [apply HT0|].
    rewrite E0. specialize (Hmid q ltac:(dlia)). by rewrite decide_False in Hmid. }
  rewrite HBLKSIZE_eq in Hl. rewrite Hl. cbn. exists st1. split; [done|].
  split; [by exists used, A, F|]. split; [done|]. split; [done|].
  intros q. rewrite HE1. destruct (decide (h / 4096 < q / 4096 < (h + sz) / 4096)); [done|]. apply E0.
Qed.

(** ** Initialisation *)

(** The state of the static data before [GC_init_headers]. *)
Definition hdr_init (s : scratch_state) (gc_no : Z) : hdr_state :=
  HdrState s ∅ ∅ 0 0 0 ∅ 0 ∅ gc_no.

Lemma init_headers_spec (s : scratch_state) (gc_no : Z) :
  scratch_inv [] s ->
  exists r s', GC_scratch_alloc sizeof_bottom_index s = Some (r, s') /\
    if decide (r = NULL) then GC_init_headers (hdr_init s gc_no) = None
    else exists st', GC_init_headers (hdr_init s gc_no) = Some st' /\ wf_table st'
      /\ GC_hdr_cache st' = ∅ /\ forall q, HDRv st' q = NULL.
Proof.
  intros Hs. destruct (scratch_alloc_step [] s sizeof_bottom_index) as (r & s' & Hr & Hi);
    [pose proof sizeof_bounds; lia|done|].
  exists r, s'. split; [done|]. unfold GC_init_headers, scratch_alloc. cbn [hs_scratch hdr_init].
  rewrite Hr. cbn. case_decide as Hd.
  { by subst r. }
  rewrite (proj2 (Z.eqb_neq _ _) Hd) in Hi |- *. eexists. split; [done|].
  set (st' := set_top_index _ _).
  assert (Hbi : bi_of st' r = zero_bi).
  { unfold bi_of, st'. cbn. by rewrite lookup_insert_eq. }
  assert (Hrep : hrep st' []).
  { split; [done|change (bi_index (bi_of st' r) = ∅); by rewrite Hbi|apply not_elem_of_nil|apply not_elem_of_nil
      |constructor|constructor|done|done|done|]. intros i. exists []. split; [|split; [constructor|]].
    - unfold top_of. cbn. rewrite lookup_empty. cbn. apply (hchain_nil st').
    - intros b. rewrite elem_of_nil. tauto. }
  assert (HE : forall q, HDRv st' q = NULL).
  { intros q. apply (HDRv_unindexed st' []); [done|]. by intros x Hx%elem_of_nil. }
  split; [|split; [done|exact HE]].
  exists [(r, sizeof_bottom_index)], [], []. split.
  - split; [done|done|by left|by intros b Hb%elem_of_nil].
  - done.
  - constructor.
  - intros v [x Hx]. change (hdrs st') with (∅ : gmap Z hdr) in Hx. by rewrite lookup_empty in Hx.
  - intros p. by rewrite HE.
  - intros p q. by rewrite HE.
Qed.

(** A small table: the system grants one chunk; block 256 gets a header and the
    next three get forwarding counts. *)
Definition sample_scratch : scratch_state := scratch_init 4096 [65536].

Definition sample_table : option hdr_state :=
  st ← GC_init_headers (hdr_init sample_scratch 7);
  '(_, st) ← GC_install_header 1048576 st;
  '(_, st) ← GC_install_counts 1048576 16384 st;
  Some st.

Lemma sample_scratch_inv : scratch_inv [] sample_scratch.
Proof. by apply (scratch_init_inv 4096 12). Qed.

Lemma sample_init_wf :
  exists st, GC_init_headers (hdr_init sample_scratch 7) = Some st /\ wf_table st
    /\ forall q, HDRv st q = NULL.
Proof.
  destruct (init_headers_spec sample_scratch 7 sample_scratch_inv) as (r & s & Hr & H).
  case_decide as E.
  - exfalso. subst r. apply (f_equal (fmap fst)) in Hr. by vm_compute in Hr.
  - destruct H as (st & ? & ? & _ & ?). by exists st.
Qed.

(** In a well-formed table, [GC_install_header] returns; it either reports
    exhausted memory with every mapping unchanged, or yields a header no block
    uses, maps exactly the block of [h] to it and leaves every other mapping
    and every other header alone.  Well-formedness is preserved and the header
    cache is emptied. *)
Theorem GC_install_header_correct (st : hdr_state) (h : Z)
    (Hwf : wf_table st) (Hh : 0 <= h < W64) :
  exists r st', GC_install_header h st = Some (r, st') /\ wf_table st' /\ GC_hdr_cache st' = ∅
    /\ (forall v, is_Some (hdrs st !! v) -> v <> r -> hdrs st' !! v = hdrs st !! v)
    /\ ((r = NULL /\ forall q, HDRv st' q = HDRv st q)
        \/ (4096 <= r /\ is_Some (hdrs st' !! r) /\ (forall q, HDRv st q <> r)
            /\ forall q, HDRv st' q = if decide (q / 4096 = h / 4096) then r else HDRv st q)).
Proof. by apply install_header_spec. Qed.

Lemma GC_install_header_correct_witness :
  exists st r st', GC_init_headers (hdr_init sample_scratch 7) = Some st
    /\ GC_install_header 1048576 st = Some (r, st') /\ wf_table st'.
Proof.
  destruct sample_init_wf as (st & Hi & Hwf & _).
  destruct (GC_install_header_correct st 1048576 Hwf) as (r & st' & Hr & Hwf' & _).
  - split; [lia|reflexivity].
  - by exists st, r, st'.
Defined.

(** Removing the header of a mapped block succeeds, frees exactly that
    mapping, puts the header at the front of the free-header list, keeps every
    other header's contents and preserves well-formedness. *)
Theorem GC_remove_header_correct (st : hdr_state) (h : Z)
    (Hwf : wf_table st) (Hm : is_hdr_ptr (HDRv st h) = true) :
  exists st', GC_remove_header h st = Some st' /\ wf_table st' /\ GC_hdr_cache st' = ∅
    /\ (forall v, v <> HDRv st h -> hdrs st' !! v = hdrs st !! v)
    /\ GC_hdr_free_list st' = HDRv st h
    /\ forall q, HDRv st' q = if decide (q / 4096 = h / 4096) then NULL else HDRv st q.
Proof. by apply remove_header_spec. Qed.

(** Installing then removing an object's mappings, composed as the block
    allocator does: header, counts, then counts, header. *)
Definition map_object (h sz : Z) (st : hdr_state) : option (bool * hdr_state) :=
  '(r, st) ← GC_install_header h st;
  if r =? NULL then Some (false, st) else GC_install_counts h sz st.

Definition unmap_object (h sz : Z) (st : hdr_state) : option hdr_state :=
  st ← GC_remove_counts h sz st; GC_remove_header h st.

Definition unmapped_range (st : hdr_state) (h sz : Z) : Prop :=
  forall q, h / 4096 <= q / 4096 < (h + sz) / 4096 -> HDRv st q = NULL.

Lemma fwd_count_pos (h q : Z) : h / 4096 < q / 4096 -> 0 < fwd_count h q <= 4095.
Proof. unfold fwd_count, MAX_JUMP. rewrite HBLKSIZE_eq. lia. Qed.

Lemma map_object_spec (st : hdr_state) (h sz : Z) :
  wf_table st -> h mod 4096 = 0 -> 0 <= h -> 0 < sz -> sz mod 4096 = 0 -> h + sz < W64 ->
  exists ok st', map_object h sz st = Some (ok, st') /\ wf_table st'
    /\ (ok = true -> exists r, 4096 <= r /\ is_Some (hdrs st' !! r) /\ (forall q, HDRv st q <> r)
        /\ forall q, HDRv st' q = if decide (q / 4096 = h / 4096) then r
                       else if decide (h / 4096 < q / 4096 < (h + sz) / 4096) then fwd_count h q
                       else HDRv st q).
Proof.
  intros Hwf Hal Hh Hsz Hszal Hend. unfold map_object.
  destruct (install_header_spec st h Hwf) as (r & st1 & -> & Hwf1 & _ & _ & Hc); [lia|]. cbn.
  destruct Hc as [[-> HE1]|(Hr & Hs & Hfr & HE1)].
  { exists false, st1. by split_and!. }
  destruct (Z.eqb_spec r NULL) as [|_]; [lia|].
  destruct (install_counts_spec st1 h sz) as (ok & st2 & -> & Hwf2 & Eh & _ & HE2); try done.
  exists ok, st2. split_and!; [done|done|]. intros ->. exists r. split_and!; [done|by rewrite Eh|done|].
  intros q. rewrite HE2, HE1.
  destruct (decide (q / 4096 = h / 4096)) as [E|E].
  - rewrite decide_False; [done|]. intros [_ ?]. lia.
  - destruct (decide (h / 4096 < q / 4096 < (h + sz) / 4096)) as [D|D].
    + by rewrite decide_True.
    + rewrite decide_False; [done|]. by intros [_ ?].
Qed.

(** C37: mapping an object of [sz] bytes at [h] over unmapped blocks and unmapping
    it again is a round trip: both calls return, the table stays well-formed,
    and afterwards every address has the header entry it had before. *)
Theorem map_unmap_round_trip (st st1 : hdr_state) (h sz : Z)
    (Hwf : wf_table st) (Hal : h mod 4096 = 0) (Hh : 0 <= h) (Hsz : 0 < sz)
    (Hszal : sz mod 4096 = 0) (Hend : h + sz < W64) (Hfree : unmapped_range st h sz)
    (Hmap : map_object h sz st = Some (true, st1)) :
  exists st2, unmap_object h sz st1 = Some st2 /\ wf_table st2
    /\ forall q, HDRv st2 q = HDRv st q.
Proof.
  destruct (map_object_spec st h sz) as (ok & st1' & E & Hwf1 & Hok); try done.
  rewrite Hmap in E. injection E as <- <-. destruct (Hok eq_refl) as (r & Hr & _ & _ & HE1).
  unfold unmap_object.
  destruct (remove_counts_spec st1 h sz) as (st2 & -> & Hwf2 & _ & _ & HE2); try done.
  { intros q Hq. rewrite !HE1, HBLKSIZE_eq.
    rewrite (decide_False (P := q / 4096 = h / 4096)) by lia.
    rewrite (decide_True (P := h / 4096 < q / 4096 < _)) by done.
    rewrite (decide_False (P := (h + 4096) / 4096 = h / 4096)) by dlia.
    rewrite (decide_True (P := h / 4096 < (h + 4096) / 4096 < _)) by dlia.
    pose proof (fwd_count_pos h q ltac:(lia)). pose proof (fwd_count_pos h (h + 4096) ltac:(dlia)).
    rewrite decide_False; lia. }
  assert (Eh : HDRv st2 h = r).
  { rewrite HE2, HE1. rewrite decide_False by lia. by rewrite decide_True. }
  cbn. destruct (remove_header_spec st2 h) as (st3 & -> & Hwf3 & _ & _ & _ & HE3); [done|by rewrite Eh, is_hdr_ptr_ge|].
  exists st3. split_and!; [done|done|]. intros q. rewrite HE3, HE2, HE1.
  destruct (decide (q / 4096 = h / 4096)) as [E|E].
  - rewrite (Hfree q); [done|dlia].
  - destruct (decide (h / 4096 < q / 4096 < (h + sz) / 4096)) as [D|D]; [|done].
    rewrite (Hfree q); [done|lia].
Qed.

Lemma map_unmap_round_trip_witness :
  exists st st1 st2, GC_init_headers (hdr_init sample_scratch 7) = Some st
    /\ map_object 1048576 16384 st = Some (true, st1)
    /\ unmap_object 1048576 16384 st1 = Some st2 /\ wf_table st2.
Proof.
  destruct sample_init_wf as (st & Hi & Hwf & HE).
  assert (Hm : exists st1, map_object 1048576 16384 st = Some (true, st1)).
  { vm_compute in Hi. injection Hi as <-. eexists. vm_compute. reflexivity. }
  destruct Hm as (st1 & Hm).
  destruct (map_unmap_round_trip st st1 1048576 16384) as (st2 & H2 & Hwf2 & _); try done.
  { intros q _. apply HE. }
  by exists st, st1, st2.
Defined.

Lemma GC_remove_header_correct_witness :
  exists st st', sample_table = Some st /\ GC_remove_header 1048576 st = Some st' /\ wf_table st'.
Proof.
  destruct sample_init_wf as (st0 & Hi & Hwf & HE).
  destruct (map_object_spec st0 1048576 16384) as (ok & st & Hm & Hwf1 & Hok); try done.
  assert (Hs : sample_table = Some st /\ ok = true).
  { vm_compute in Hi. injection Hi as <-. vm_compute in Hm. injection Hm as <- <-.
    split; vm_compute; reflexivity. }
  destruct Hs as [Hs ->]. destruct (Hok eq_refl) as (r & Hr & _ & _ & HE1).
  destruct (GC_remove_header_correct st 1048576 Hwf1) as (st' & Hr' & Hwf' & _).
  - rewrite HE1. by apply is_hdr_ptr_ge.
  - exists st, st'. split; [exact Hs|]. split; [exact Hr'|exact Hwf'].
Defined.

End Headers.
