(* ===== verification/HeadersNav.v ===== *)
(** * Walking the header table (headers.c)

    [GC_find_starting_hblk] (gc_hdrs.h), [GC_next_block], [GC_prev_block] and
    [GC_apply_to_all_blocks]: what the walks over the two-level tree return, and
    that they end. *)

From Stdlib Require Import ZArith Lia.
From stdpp Require Import base gmap list sorting.
From S2P Require Import Prelude Scratch Hblk Headers.

Module HeadersNav.
Import Scratch Headers.

(** ** Navigation *)

(** A multi-block object at [h]: a header on its first block and forwarding
    counts on the others. *)
Definition object_at (st : hdr_state) (h sz : Z) : Prop :=
  is_hdr_ptr (HDRv st h) = true /\
  forall q, h / 4096 < q / 4096 < (h + sz) / 4096 -> HDRv st q = fwd_count h q.

(** Following the counts from any block of the object ends at its first block. *)
Lemma find_starting_hblk_spec (st : hdr_state) (h sz q : Z) :
  wf_table st -> h mod 4096 = 0 -> q mod 4096 = 0 -> 0 <= h -> h + sz < W64 ->
  sz mod 4096 = 0 -> object_at st h sz -> h <= q < h + sz ->
  GC_find_starting_hblk st q (HDRv st q) = Some (h, HDRv st h).
Proof.
  intros (used & A & F & HT) Hal Hqal Hh Hend Hszal [Hp Hf] Hq.
  unfold GC_find_starting_hblk.
  match goal with |- context [loop ?f ?s] => destruct (loop_spec
    (fun '(p, v) => p mod 4096 = 0 /\ h <= p < h + sz /\ v = HDRv st p)
    (fun r => r = Some (h, HDRv st h)) (fun '(p, _) => p - h) f s) as (r & -> & ->) end; [| | |done].
  - intros [p v] (Hpal & Hpr & ->).
    destruct (decide (p = h)) as [->|Hne].
    + rewrite is_hdr_ptr_forward in Hp. by destruct (IS_FORWARDING_ADDR_OR_NIL _).
    + rewrite (Hf p) by dlia. unfold IS_FORWARDING_ADDR_OR_NIL, fwd_count, MAX_JUMP.
      rewrite HBLKSIZE_eq. destruct (Z.leb_spec (Z.min (p / 4096 - h / 4096) (4096 - 1)) (4096 - 1)); [|lia].
      rewrite (GET_HDR_total st A) by apply HT. unfold FORWARDED_ADDR. rewrite HBLKSIZE_eq.
      split; [split; [|split; [|done]]|]; dlia.
  - done.
  - unfold W64 in *. lia.
Qed.

Section Walk.
Context (st : hdr_state) (A : list Z) (H : hrep st A).

(** The heap block of a slot. *)
Definition slot_blk (b j : Z) : Z := bkey st b * 1024 + j.

Lemma HDRv_slot (b j q : Z) :
  b ∈ A -> 0 <= j < 1024 -> q / 4096 = slot_blk b j -> HDRv st q = aget (bi_index (bi_of st b)) j.
Proof.
  intros Hb Hj Eq. unfold slot_blk in Eq.
  assert (q / 4194304 = q / 4096 / 1024) as Hd by (rewrite Z.div_div by lia; done).
  rewrite (HDRv_at st A q b); [|done|].
  - unfold HDR_FROM_BI. rewrite BI_SLOT_mod, Eq. f_equal. dlia.
  - left. split; [done|]. rewrite BI_KEY_div, Hd, Eq. dlia.
Qed.

(** A mapped block lies in one of the index blocks. *)
Lemma mapped_slot (q : Z) : HDRv st q <> NULL ->
  exists b, b ∈ A /\ bkey st b = q / 4096 / 1024.
Proof.
  intros Hne. destruct (HDRv_nonnull_indexed st A q H Hne) as (b & Hb & E). exists b.
  split; [done|]. rewrite E, BI_KEY_div, Z.div_div by lia. done.
Qed.

Lemma sorted_split (A1 A2 : list Z) (b x : Z) :
  A = A1 ++ b :: A2 -> x ∈ A -> (bkey st b < bkey st x <-> x ∈ A2) /\ (bkey st x < bkey st b <-> x ∈ A1).
Proof.
  intros EA Hx. pose proof (hr_sorted _ _ H) as Hs. rewrite EA, fmap_app, fmap_cons in Hs.
  apply StronglySorted_app in Hs as (Hlt & _ & Hs2).
  inversion Hs2 as [|? ? _ Hgt]; subst.
  assert (Hgt' : forall y, y ∈ A2 -> bkey st b < bkey st y).
  { intros y Hy. rewrite Forall_forall in Hgt. apply Hgt. by apply list_elem_of_fmap_2. }
  assert (Hlt' : forall y, y ∈ A1 -> bkey st y < bkey st b).
  { intros y Hy. apply Hlt; [by apply list_elem_of_fmap_2|by left]. }
  apply elem_of_app in Hx as [Hx|Hx]; [|apply elem_of_cons in Hx as [->|Hx]].
  - specialize (Hlt' _ Hx). split; (split; [intros; try lia; done|]); intros Hy; [|done].
    specialize (Hgt' _ Hy). lia.
  - split; (split; [lia|]); intros Hy; [specialize (Hgt' _ Hy)|specialize (Hlt' _ Hy)]; lia.
  - specialize (Hgt' _ Hx). split; (split; [intros; try lia; done|]); intros Hy; [done|].
    specialize (Hlt' _ Hy). lia.
Qed.

Lemma dls_at (prev : Z) (A1 A2 : list Z) (b : Z) :
  dls st prev (A1 ++ b :: A2) ->
  asc_link (bi_of st b) = hd NULL A2 /\ desc_link (bi_of st b) = List.last A1 prev.
Proof.
  revert prev. induction A1 as [|a A1 IH]; intros prev; cbn [app dls].
  - intros (-> & -> & _). done.
  - intros (_ & _ & Hd). rewrite last_default. by apply IH.
Qed.

End Walk.

(** What the headers in the table say about their blocks. *)
Record mapped_ok (st : hdr_state) : Prop := {
  mo_nonneg : forall q, 0 <= HDRv st q;
  mo_block : forall q, is_hdr_ptr (HDRv st q) = true ->
    hb_block (hdr_of st (HDRv st q)) = HBLKPTR q;
  mo_free_size : forall q, is_hdr_ptr (HDRv st q) = true ->
    HBLK_IS_FREE (hdr_of st (HDRv st q)) = true -> 4096 <= hb_sz (hdr_of st (HDRv st q));
  mo_free_span : forall q p, is_hdr_ptr (HDRv st q) = true ->
    HBLK_IS_FREE (hdr_of st (HDRv st q)) = true ->
    q / 4096 < p / 4096 < q / 4096 + hb_sz (hdr_of st (HDRv st q)) / 4096 ->
    is_hdr_ptr (HDRv st p) = false;
  mo_forward : forall q p, is_hdr_ptr (HDRv st q) = false ->
    q / 4096 - HDRv st q < p / 4096 <= q / 4096 -> is_hdr_ptr (HDRv st p) = false
}.

(** The blocks [GC_next_block] may return. *)
Definition candidate (st : hdr_state) (allow_free : bool) (q : Z) : bool :=
  is_hdr_ptr (HDRv st q) && (allow_free || negb (HBLK_IS_FREE (hdr_of st (HDRv st q)))).

Lemma candidate_block (st : hdr_state) (af : bool) (p q : Z) :
  p / 4096 = q / 4096 -> candidate st af p = candidate st af q.
Proof. intros E. unfold candidate. by rewrite (HDRv_block st p q E). Qed.

Lemma candidate_mapped (st : hdr_state) (af : bool) (q : Z) :
  candidate st af q = true -> is_hdr_ptr (HDRv st q) = true.
Proof. unfold candidate. by intros [? _]%andb_prop. Qed.

Lemma is_hdr_ptr_nonnull (v : Z) : is_hdr_ptr v = true -> v <> NULL.
Proof. rewrite is_hdr_ptr_ge. lia. Qed.

Lemma HBLKPTR_slot (k : Z) : HBLKPTR (k * 4096) = k * 4096.
Proof. rewrite PTR_ALIGN_DOWN_hblk. dlia. Qed.

(** The nearest candidate at or after block [k]. *)
Definition nearest_up (st : hdr_state) (af : bool) (k r : Z) : Prop :=
  (r = NULL /\ forall q, k <= q / 4096 -> candidate st af q = false)
  \/ (r mod 4096 = 0 /\ k <= r / 4096 /\ candidate st af r = true
      /\ forall q, k <= q / 4096 -> candidate st af q = true -> r / 4096 <= q / 4096).

Definition next_inv (st : hdr_state) (A : list Z) (af : bool) (k : Z) (n : nat) (s : Z * Z) : Prop :=
  exists A1 A2, A = A1 ++ A2 /\ s.1 = hd NULL A2 /\ 0 <= s.2
  /\ n = (length A2 * 1025 - Z.to_nat (Z.min s.2 1024))%nat
  /\ (A2 <> [] -> k <= slot_blk st s.1 (Z.min s.2 1024))
  /\ forall q, k <= q / 4096 -> candidate st af q = true ->
       A2 <> [] /\ slot_blk st s.1 s.2 <= q / 4096.

Lemma next_inv_up (st : hdr_state) (A A1 A2 : list Z) (af : bool) (k b j q : Z) :
  hrep st A -> A = A1 ++ b :: A2 -> 1024 <= j -> candidate st af q = true ->
  slot_blk st b j <= q / 4096 ->
  A2 <> [] /\ slot_blk st (hd NULL A2) 0 <= q / 4096.
Proof.
  intros H EA Hj Hc Hq.
  destruct (mapped_slot st A H q) as (x & Hx & Ex); [by eapply is_hdr_ptr_nonnull, candidate_mapped|].
  assert (Hbx : bkey st b < bkey st x) by (rewrite Ex; unfold slot_blk in Hq; dlia).
  destruct (sorted_split st A H _ _ _ x EA Hx) as [[Hx2 _] _]. specialize (Hx2 Hbx).
  destruct A2 as [|c A2]; [by apply elem_of_nil in Hx2|]. split; [done|]. cbn [hd].
  assert (bkey st c <= bkey st x); [|unfold slot_blk; dlia].
  apply elem_of_cons in Hx2 as [->|Hx2]; [done|].
  destruct (sorted_split st A H (A1 ++ [b]) A2 c x) as [[_ Hcx] _]; [by rewrite EA, <- app_assoc|done|].
  specialize (Hcx Hx2). lia.
Qed.

Lemma next_loop_spec (st : hdr_state) (A : list Z) (af : bool) (k : Z) (n : nat) (s : Z * Z) :
  hrep st A -> mapped_ok st -> next_inv st A af k n s ->
  exists r, loop (next_block_body st af) s = Some r /\ nearest_up st af k r.
Proof.
  intros H M Hinv. apply (loop_spec_rel (next_inv st A af k) _ _ n); [clear n s Hinv|done|].
  2:{ destruct Hinv as (A1 & A2 & EA & _ & _ & -> & _). pose proof (hrep_length _ _ H) as Hl.
      rewrite EA, length_app in Hl. unfold W64. lia. }
  intros n [b j] (A1 & A2 & EA & Eb & Hj & -> & Hk & Hc). cbn in Eb, Hj, Hk, Hc. cbn [next_block_body].
  destruct A2 as [|x A2]; cbn [hd] in Eb; subst b.
  { rewrite Z.eqb_refl. left. split; [done|]. intros q Hq.
    destruct (candidate st af q) eqn:E; [|done]. by destruct (Hc q Hq E). }
  assert (HxA : x ∈ A) by (rewrite EA; apply elem_of_app; right; by left).
  destruct (Z.eqb_spec x NULL) as [->|Hx0]; [by destruct (hr_nonnull _ _ H)|].
  specialize (Hk ltac:(done)).
  change BOTTOM_SZ with 1024. destruct (Z.ltb_spec j 1024) as [Hlt|Hge].
  2:{ destruct (dls_at st NULL A1 A2 x) as [-> _]; [rewrite <- EA; apply H|].
      eexists. split; [|exists (A1 ++ [x]), A2; split_and!; [by rewrite EA, <- app_assoc|done|cbn;lia|reflexivity|..]].
      - cbn [snd fst length]. lia.
      - intros Hne. destruct A2 as [|c A2]; [done|]. cbn [hd fst snd].
        destruct (sorted_split st A H (A1 ++ [x]) A2 c x) as [_ [_ Hcx]]; [by rewrite EA, <- app_assoc|done|].
        specialize (Hcx ltac:(apply elem_of_app; right; by left)). unfold slot_blk in *. lia.
      - intros q Hq Hcq. cbn [fst snd]. destruct (Hc q Hq Hcq) as [_ Hs].
        by eapply (next_inv_up st A A1 A2 af k x j). }
  set (q0 := slot_blk st x j * 4096).
  assert (Eq0 : q0 / 4096 = slot_blk st x j) by (unfold q0; dlia).
  rewrite <- (HDRv_slot st A H x j q0) by (done || lia).
  assert (Hskip : forall d, 0 < d ->
    (forall q, slot_blk st x j <= q / 4096 < slot_blk st x j + d -> candidate st af q = false) ->
    exists n', (n' < length (x :: A2) * 1025 - Z.to_nat (Z.min j 1024))%nat
               /\ next_inv st A af k n' (x, j + d)).
  { intros d Hd Hno. eexists. split; [|exists A1, (x :: A2); split_and!;
      [done|done|cbn;lia|reflexivity|intros _; cbn;unfold slot_blk in *; lia|]].
    - cbn [length snd]. lia.
    - intros q Hq Hcq. destruct (Hc q Hq Hcq) as [_ Hs]. split; [done|]. cbn.
      destruct (decide (q / 4096 < slot_blk st x j + d)) as [Hlt2|]; [|unfold slot_blk in *; lia].
      rewrite Hno in Hcq; [done|lia]. }
  destruct (IS_FORWARDING_ADDR_OR_NIL (HDRv st q0)) eqn:EF.
  { apply Hskip; [lia|]. intros q Hq. unfold candidate. rewrite (HDRv_block st q q0) by lia.
    by rewrite is_hdr_ptr_forward, EF. }
  assert (Hp : is_hdr_ptr (HDRv st q0) = true) by (by rewrite is_hdr_ptr_forward, EF).
  destruct (af || negb (HBLK_IS_FREE (hdr_of st (HDRv st q0)))) eqn:Eaf.
  - right. rewrite (mo_block _ M q0 Hp). unfold q0. rewrite HBLKPTR_slot. fold q0.
    split; [unfold q0; dlia|]. split; [rewrite Z.min_l in Hk by lia; lia|].
    split; [unfold candidate; by rewrite Hp, Eaf|].
    intros q Hq Hcq. destruct (Hc q Hq Hcq). lia.
  - apply orb_false_iff in Eaf as [-> Efree%negb_false_iff].
    pose proof (mo_free_size _ M q0 Hp Efree). rewrite divHBLKSZ_div.
    apply Hskip; [dlia|]. intros q Hq. unfold candidate.
    destruct (decide (q / 4096 = q0 / 4096)) as [E|E].
    + rewrite (HDRv_block st q q0 E), Efree. apply andb_false_r.
    + rewrite (mo_free_span _ M q0 q Hp Efree); [done|lia].
Qed.

Lemma index_search_up (st : hdr_state) (A : list Z) (k : Z) :
  hrep st A ->
  exists A1 A2, A = A1 ++ A2
    /\ loop (fun b => if negb (b =? NULL) && (key (bi_of st b) <? k)
                      then inl (asc_link (bi_of st b)) else inr b) (GC_all_bottom_indices st)
       = Some (hd NULL A2)
    /\ Forall (fun b => bkey st b < k) A1 /\ (A2 <> [] -> k <= bkey st (hd NULL A2)).
Proof.
  intros H. match goal with |- context [loop ?f ?s] => destruct (loop_spec_rel
    (fun n b => exists A1 A2, A = A1 ++ A2 /\ b = hd NULL A2 /\ Forall (fun b => bkey st b < k) A1
                /\ n = length A2)
    (fun r => exists A1 A2, A = A1 ++ A2 /\ r = hd NULL A2 /\ Forall (fun b => bkey st b < k) A1
                /\ (A2 <> [] -> k <= bkey st (hd NULL A2))) f (length A) s)
    as (r & -> & A1 & A2 & ? & -> & ?) end; [| | |by exists A1, A2].
  - intros n b (A1 & A2 & EA & -> & Hf & ->). destruct A2 as [|x A2]; cbn [hd].
    { rewrite Z.eqb_refl. cbn. by exists A1, []. }
    destruct (Z.eqb_spec x NULL) as [->|Hx].
    { destruct (hr_nonnull _ _ H). rewrite EA. apply elem_of_app. right. by left. }
    cbn. destruct (Z.ltb_spec (key (bi_of st x)) k) as [Hlt|Hge]; [|by exists A1, (x :: A2)].
    exists (length A2). split; [cbn; lia|]. exists (A1 ++ [x]), A2.
    destruct (dls_at st NULL A1 A2 x) as [-> _]; [rewrite <- EA; apply H|].
    split; [by rewrite EA, <- app_assoc|]. split; [done|]. split; [|done].
    apply Forall_app. split; [done|]. by apply Forall_singleton.
  - exists [], A. split; [done|]. split; [apply H|]. split; [constructor|done].
  - pose proof (hrep_length _ _ H). unfold W64. lia.
Qed.

Lemma next_block_spec (st : hdr_state) (h : Z) (af : bool) :
  wf_table st -> mapped_ok st -> 0 <= h < W64 ->
  exists r, GC_next_block st h af = Some r /\ nearest_up st af (h / 4096) r.
Proof.
  intros (used & A & F & HT) M Hh. assert (H : hrep st A) by apply HT. unfold GC_next_block.
  destruct (GET_BI_spec st A h H) as (b & -> & Hb). cbn.
  rewrite BI_KEY_div in Hb |- *. rewrite BI_SLOT_mod.
  replace (h / 4194304) with (h / 4096 / 1024) in * by (rewrite Z.div_div by lia; done).
  destruct (Z.eqb_spec b (GC_all_nils st)) as [->|Hne].
  - destruct (index_search_up st A (h / 4096 / 1024) H) as (A1 & A2 & EA & -> & Hf & Hg). cbn.
    eapply (next_loop_spec st A); [done|done|]. exists A1, A2. split_and!; [done|done|done|reflexivity|..].
    + intros Hn. specialize (Hg Hn). cbn. unfold slot_blk.
      destruct Hb as [[Hb _]|[_ Hb]]; [by destruct (hr_nils_out _ _ H)|].
      destruct A2 as [|c A2]; [done|]. cbn [hd] in *. specialize (Hb c).
      rewrite EA in Hb. specialize (Hb ltac:(apply elem_of_app; right; by left)). dlia.
    + intros q Hq Hc. cbn.
      destruct (mapped_slot st A H q) as (x & Hx & Ex); [by eapply is_hdr_ptr_nonnull, candidate_mapped|].
      assert (Hx2 : x ∈ A2).
      { rewrite EA in Hx. apply elem_of_app in Hx as [Hx|]; [|done].
        rewrite Forall_forall in Hf. specialize (Hf x Hx). dlia. }
      destruct A2 as [|c A2]; [by apply elem_of_nil in Hx2|]. split; [done|]. cbn.
      assert (bkey st c <= bkey st x); [|unfold slot_blk; dlia].
      apply elem_of_cons in Hx2 as [->|Hx2]; [done|].
      destruct (sorted_split st A H A1 A2 c x EA Hx) as [[_ Hcx] _]. specialize (Hcx Hx2). lia.
  - destruct Hb as [[Hb Ek]|[Hb _]]; [|done]. cbn.
    apply list_elem_of_split in Hb as (A1 & A2 & EA).
    assert (Es : slot_blk st b (h / 4096 mod 1024) = h / 4096) by (unfold slot_blk; rewrite Ek; dlia).
    eapply (next_loop_spec st A); [done|done|]. exists A1, (b :: A2).
    split_and!; [done|done|cbn; dlia|reflexivity|..].
    + intros _. cbn. rewrite Z.min_l by dlia. lia.
    + intros q Hq _. cbn. split; [done|lia].
Qed.

(** The nearest mapped block at or before block [k]. *)
Definition nearest_down (st : hdr_state) (k r : Z) : Prop :=
  (r = NULL /\ forall q, q / 4096 <= k -> is_hdr_ptr (HDRv st q) = false)
  \/ (r mod 4096 = 0 /\ r / 4096 <= k /\ is_hdr_ptr (HDRv st r) = true
      /\ forall q, q / 4096 <= k -> is_hdr_ptr (HDRv st q) = true -> q / 4096 <= r / 4096).

Definition prev_inv (st : hdr_state) (A : list Z) (k : Z) (n : nat) (s : Z * Z) : Prop :=
  exists A1 A2, A = A1 ++ A2 /\ s.1 = List.last A1 NULL /\ s.2 <= 1023
  /\ n = (length A1 * 1025 - Z.to_nat (1023 - Z.max s.2 (-1)))%nat
  /\ (A1 <> [] -> slot_blk st s.1 (Z.max s.2 (-1)) <= k)
  /\ forall q, q / 4096 <= k -> is_hdr_ptr (HDRv st q) = true ->
       A1 <> [] /\ q / 4096 <= slot_blk st s.1 s.2.

Lemma prev_inv_down (st : hdr_state) (A A1 A2 : list Z) (b j q : Z) :
  hrep st A -> A = A1 ++ b :: A2 -> j < 0 -> is_hdr_ptr (HDRv st q) = true ->
  q / 4096 <= slot_blk st b j ->
  A1 <> [] /\ q / 4096 <= slot_blk st (List.last A1 NULL) 1023.
Proof.
  intros H EA Hj Hc Hq.
  destruct (mapped_slot st A H q) as (x & Hx & Ex); [by apply is_hdr_ptr_nonnull|].
  assert (Hbx : bkey st x < bkey st b) by (rewrite Ex; unfold slot_blk in Hq; dlia).
  destruct (sorted_split st A H _ _ _ x EA Hx) as [_ [Hx1 _]]. specialize (Hx1 Hbx).
  destruct A1 as [|c A1 _] using rev_ind; [by apply elem_of_nil in Hx1|].
  split; [by destruct A1|]. rewrite last_last.
  assert (bkey st x <= bkey st c); [|unfold slot_blk; dlia].
  apply elem_of_app in Hx1 as [Hx1|Hx1]; [|by apply list_elem_of_singleton in Hx1 as ->].
  destruct (sorted_split st A H A1 (b :: A2) c x) as [_ [_ Hcx]]; [by rewrite EA, <- app_assoc|done|].
  specialize (Hcx Hx1). lia.
Qed.

Lemma prev_loop_spec (st : hdr_state) (A : list Z) (k : Z) (n : nat) (s : Z * Z) :
  hrep st A -> mapped_ok st -> prev_inv st A k n s ->
  exists r, loop (prev_block_body st) s = Some r /\ nearest_down st k r.
Proof.
  intros H M Hinv. apply (loop_spec_rel (prev_inv st A k) _ _ n); [clear n s Hinv|done|].
  2:{ destruct Hinv as (A1 & A2 & EA & _ & _ & -> & _). pose proof (hrep_length _ _ H) as Hl.
      rewrite EA, length_app in Hl. unfold W64. lia. }
  intros n [b j] (A1 & A2 & EA & Eb & Hj & -> & Hk & Hc). cbn in Eb, Hj, Hk, Hc. cbn [prev_block_body].
  destruct A1 as [|x A1 _] using rev_ind.
  { cbn in Eb. subst b. rewrite Z.eqb_refl. left. split; [done|]. intros q Hq.
    destruct (is_hdr_ptr (HDRv st q)) eqn:E; [|done]. by destruct (Hc q Hq E). }
  rewrite last_last in Eb. subst b. rewrite <- app_assoc in EA. cbn [app] in EA.
  assert (HxA : x ∈ A) by (rewrite EA; apply elem_of_app; right; by left).
  assert (Hne : A1 ++ [x] <> []) by (by destruct A1).
  destruct (Z.eqb_spec x NULL) as [->|Hx0]; [by destruct (hr_nonnull _ _ H)|].
  specialize (Hk Hne). change (BOTTOM_SZ - 1) with 1023.
  destruct (Z.leb_spec 0 j) as [Hge|Hlt].
  2:{ destruct (dls_at st NULL A1 A2 x) as [_ ->]; [rewrite <- EA; apply H|].
      eexists. split; [|exists A1, (x :: A2); split_and!; [done|done|cbn;lia|reflexivity|..]].
      - cbn [snd fst length]. rewrite length_app. cbn [length]. lia.
      - intros Hn. destruct A1 as [|c A1 _] using rev_ind; [done|]. rewrite last_last. cbn [fst snd].
        rewrite <- app_assoc in EA. cbn [app] in EA.
        destruct (sorted_split st A H A1 (x :: A2) c x EA HxA) as [[_ Hcx] _].
        specialize (Hcx ltac:(by left)). unfold slot_blk in *. lia.
      - intros q Hq Hcq. cbn [fst snd]. destruct (Hc q Hq Hcq) as [_ Hs].
        by eapply (prev_inv_down st A A1 A2 x j). }
  set (q0 := slot_blk st x j * 4096).
  assert (Eq0 : q0 / 4096 = slot_blk st x j) by (unfold q0; dlia).
  rewrite <- (HDRv_slot st A H x j q0) by (done || lia).
  assert (Hskip : forall d, 0 < d ->
    (forall q, slot_blk st x j - d < q / 4096 <= slot_blk st x j -> is_hdr_ptr (HDRv st q) = false) ->
    exists n', (n' < length (A1 ++ [x]) * 1025 - Z.to_nat (1023 - Z.max j (-1)))%nat
               /\ prev_inv st A k n' (x, j - d)).
  { intros d Hd Hno. eexists. split; [|exists (A1 ++ [x]), A2; split_and!;
      [by rewrite <- app_assoc|by rewrite last_last|cbn;lia|reflexivity
      |intros _; cbn;unfold slot_blk in *; lia|]].
    - rewrite length_app. cbn [length snd]. lia.
    - intros q Hq Hcq. destruct (Hc q Hq Hcq) as [_ Hs]. split; [done|]. cbn.
      destruct (decide (slot_blk st x j - d < q / 4096)) as [Hlt2|]; [|unfold slot_blk in *; lia].
      rewrite Hno in Hcq; [done|lia]. }
  assert (Hfwd : IS_FORWARDING_ADDR_OR_NIL (HDRv st q0) = true -> is_hdr_ptr (HDRv st q0) = false)
    by (intros E; by rewrite is_hdr_ptr_forward, E).
  destruct (Z.eqb_spec (HDRv st q0) NULL) as [En|En].
  { apply Hskip; [lia|]. intros q Hq. by rewrite (HDRv_block st q q0), En by lia. }
  destruct (IS_FORWARDING_ADDR_OR_NIL (HDRv st q0)) eqn:EF.
  { pose proof (mo_nonneg _ M q0). apply Hskip; [lia|]. intros q Hq.
    apply (mo_forward _ M q0); [by apply Hfwd|lia]. }
  assert (Hp : is_hdr_ptr (HDRv st q0) = true) by (by rewrite is_hdr_ptr_forward, EF).
  right. rewrite (mo_block _ M q0 Hp). unfold q0. rewrite HBLKPTR_slot. fold q0.
  split; [unfold q0; dlia|]. split; [rewrite Z.max_l in Hk by lia; lia|]. split; [done|].
  intros q Hq Hcq. destruct (Hc q Hq Hcq). lia.
Qed.

Lemma index_search_down (st : hdr_state) (A : list Z) (k : Z) :
  hrep st A ->
  exists A1 A2, A = A1 ++ A2
    /\ loop (fun b => if negb (b =? NULL) && (k <? key (bi_of st b))
                      then inl (desc_link (bi_of st b)) else inr b) (GC_all_bottom_indices_end st)
       = Some (List.last A1 NULL)
    /\ Forall (fun b => k < bkey st b) A2 /\ (A1 <> [] -> bkey st (List.last A1 NULL) <= k).
Proof.
  intros H. match goal with |- context [loop ?f ?s] => destruct (loop_spec_rel
    (fun n b => exists A1 A2, A = A1 ++ A2 /\ b = List.last A1 NULL /\ Forall (fun b => k < bkey st b) A2
                /\ n = length A1)
    (fun r => exists A1 A2, A = A1 ++ A2 /\ r = List.last A1 NULL /\ Forall (fun b => k < bkey st b) A2
                /\ (A1 <> [] -> bkey st (List.last A1 NULL) <= k)) f (length A) s)
    as (r & -> & A1 & A2 & ? & -> & ?) end; [| | |by exists A1, A2].
  - intros n b (A1 & A2 & EA & -> & Hf & ->). destruct A1 as [|x A1 _] using rev_ind.
    { cbn. by exists [], A2. }
    rewrite last_last, length_app. rewrite <- app_assoc in EA. cbn [app] in EA.
    destruct (Z.eqb_spec x NULL) as [->|Hx].
    { destruct (hr_nonnull _ _ H). rewrite EA. apply elem_of_app. right. by left. }
    cbn. destruct (Z.ltb_spec k (key (bi_of st x))) as [Hlt|Hge].
    2:{ exists (A1 ++ [x]), A2. rewrite last_last, <- app_assoc. done. }
    exists (length A1). split; [cbn; lia|]. exists A1, (x :: A2).
    destruct (dls_at st NULL A1 A2 x) as [_ ->]; [rewrite <- EA; apply H|].
    split; [done|]. split; [done|]. split; [|done]. by constructor.
  - exists A, []. rewrite app_nil_r. split; [done|]. split; [apply H|]. split; [constructor|done].
  - pose proof (hrep_length _ _ H). unfold W64. lia.
Qed.

Lemma prev_block_spec (st : hdr_state) (h : Z) :
  wf_table st -> mapped_ok st -> 0 <= h < W64 ->
  exists r, GC_prev_block st h = Some r /\ nearest_down st (h / 4096) r.
Proof.
  intros (used & A & F & HT) M Hh. assert (H : hrep st A) by apply HT. unfold GC_prev_block.
  destruct (GET_BI_spec st A h H) as (b & -> & Hb). cbn.
  rewrite BI_KEY_div in Hb |- *. rewrite BI_SLOT_mod.
  replace (h / 4194304) with (h / 4096 / 1024) in * by (rewrite Z.div_div by lia; done).
  destruct (Z.eqb_spec b (GC_all_nils st)) as [->|Hne].
  - destruct (index_search_down st A (h / 4096 / 1024) H) as (A1 & A2 & EA & -> & Hf & Hg). cbn.
    assert (HA1 : A1 <> [] -> bkey st (List.last A1 NULL) < h / 4096 / 1024).
    { intros Hn. specialize (Hg Hn).
      destruct Hb as [[Hb _]|[_ Hb]]; [by destruct (hr_nils_out _ _ H)|].
      specialize (Hb (List.last A1 NULL)). rewrite EA in Hb.
      specialize (Hb ltac:(apply elem_of_app; left; by apply last_In)). lia. }
    eapply (prev_loop_spec st A); [done|done|]. exists A1, A2. split_and!; [done|done|by vm_compute|reflexivity|..].
    + intros Hn. specialize (HA1 Hn). change (BOTTOM_SZ - 1) with 1023. cbn. unfold slot_blk. dlia.
    + intros q Hq Hc. change (BOTTOM_SZ - 1) with 1023. cbn.
      destruct (mapped_slot st A H q) as (x & Hx & Ex); [by apply is_hdr_ptr_nonnull|].
      assert (Hx1 : x ∈ A1).
      { rewrite EA in Hx. apply elem_of_app in Hx as [|Hx]; [done|].
        rewrite Forall_forall in Hf. specialize (Hf x Hx). dlia. }
      destruct A1 as [|c A1 _] using rev_ind; [by apply elem_of_nil in Hx1|].
      split; [by destruct A1|]. rewrite last_last.
      assert (bkey st x <= bkey st c); [|unfold slot_blk; dlia].
      apply elem_of_app in Hx1 as [Hx1|Hx1]; [|by apply list_elem_of_singleton in Hx1 as ->].
      destruct (sorted_split st A H A1 A2 c x) as [_ [_ Hcx]]; [by rewrite EA, <- app_assoc|done|].
      specialize (Hcx Hx1). lia.
  - destruct Hb as [[Hb Ek]|[Hb _]]; [|done]. cbn.
    apply list_elem_of_split in Hb as (A1 & A2 & EA).
    assert (Es : slot_blk st b (h / 4096 mod 1024) = h / 4096) by (unfold slot_blk; rewrite Ek; dlia).
    eapply (prev_loop_spec st A); [done|done|]. exists (A1 ++ [b]), A2.
    split_and!; [by rewrite <- app_assoc|by rewrite last_last|cbn; dlia|reflexivity|..].
    + intros _. cbn. rewrite Z.max_l by dlia. lia.
    + intros q Hq _. cbn. split; [by destruct A1|lia].
Qed.

(** Blocks already passed when the walk of [GC_apply_to_all_blocks] stands at
    slot [j] of the first block of [A2]. *)
Definition passed (st : hdr_state) (A2 : list Z) (j q : Z) : Prop :=
  match A2 with
  | [] => True
  | b :: _ => q / 4096 / 1024 < bkey st b
              \/ (q / 4096 / 1024 = bkey st b /\ slot_blk st b j < q / 4096)
  end.

Definition apply_inv (st : hdr_state) (A : list Z) (n : nat) (s : Z * Z * list Z) : Prop :=
  let '(b, j, acc) := s in
  exists A1 A2, A = A1 ++ A2 /\ b = hd NULL A2 /\ j <= 1023
  /\ n = (length A2 * 1025 - Z.to_nat (1023 - Z.max j (-1)))%nat
  /\ NoDup acc
  /\ forall q, q ∈ acc <-> q mod 4096 = 0 /\ candidate st false q = true /\ passed st A2 j q.

Lemma passed_next (st : hdr_state) (A A1 A2 : list Z) (b j q : Z) :
  hrep st A -> A = A1 ++ b :: A2 -> j < 0 -> candidate st false q = true ->
  passed st (b :: A2) j q <-> passed st A2 1023 q.
Proof.
  intros H EA Hj Hc.
  destruct (mapped_slot st A H q) as (x & Hx & Ex); [by eapply is_hdr_ptr_nonnull, candidate_mapped|].
  destruct A2 as [|c A2]; cbn.
  - split; [done|]. intros _. rewrite EA in Hx. apply elem_of_app in Hx as [Hx|Hx].
    + destruct (sorted_split st A H A1 [] b x EA) as [_ [_ Hb]].
      { rewrite EA. apply elem_of_app. by left. }
      specialize (Hb Hx). left. lia.
    + apply list_elem_of_singleton in Hx as ->. right. unfold slot_blk. split; [lia|]. dlia.
  - destruct (sorted_split st A H (A1 ++ [b]) A2 c b) as [_ [_ Hbc]].
    { by rewrite EA, <- app_assoc. }
    { rewrite EA. apply elem_of_app. right. by left. }
    specialize (Hbc ltac:(apply elem_of_app; right; by left)).
    unfold slot_blk. rewrite <- Ex. split.
    + intros [?|[? _]]; left; lia.
    + intros [Hl|[E Hl]]; [|dlia].
      destruct (sorted_split st A H (A1 ++ [b]) A2 c x) as [_ [Hxc _]]; [by rewrite EA, <- app_assoc|done|].
      specialize (Hxc Hl). apply elem_of_app in Hxc as [Hxc|Hxc].
      * destruct (sorted_split st A H A1 (c :: A2) b x EA Hx) as [_ [_ Hb]]. specialize (Hb Hxc). by left.
      * apply list_elem_of_singleton in Hxc as ->. right. split; [done|]. dlia.
Qed.

(** Moving from slot [j] down to [j - d] passes the slots between. *)
Lemma passed_step (st : hdr_state) (b j d q : Z) (A2 : list Z) :
  0 < d -> 0 <= j < 1024 ->
  passed st (b :: A2) (j - d) q
  <-> passed st (b :: A2) j q \/ (q / 4096 / 1024 = bkey st b /\ slot_blk st b j - d < q / 4096 <= slot_blk st b j).
Proof. intros Hd Hj. cbn. unfold slot_blk. lia. Qed.

Lemma apply_loop_spec (st : hdr_state) (A : list Z) (n : nat) (s : Z * Z * list Z) :
  hrep st A -> mapped_ok st -> apply_inv st A n s ->
  exists r, loop (apply_body st) s = Some r /\ NoDup r
    /\ forall q, q ∈ r <-> q mod 4096 = 0 /\ candidate st false q = true.
Proof.
  intros H M Hinv. apply (loop_spec_rel (apply_inv st A) _ _ n); [clear n s Hinv|done|].
  2:{ destruct s as [[b j] acc]. destruct Hinv as (A1 & A2 & EA & _ & _ & -> & _).
      pose proof (hrep_length _ _ H) as Hl. rewrite EA, length_app in Hl. unfold W64. lia. }
  intros n [[b j] acc] (A1 & A2 & EA & Eb & Hj & -> & Hnd & Hacc). cbn [apply_body].
  destruct A2 as [|x A2]; cbn [hd] in Eb; subst b.
  { rewrite Z.eqb_refl. split; [done|]. intros q. rewrite Hacc. cbn. tauto. }
  assert (HxA : x ∈ A) by (rewrite EA; apply elem_of_app; right; by left).
  destruct (Z.eqb_spec x NULL) as [->|Hx0]; [by destruct (hr_nonnull _ _ H)|].
  change (BOTTOM_SZ - 1) with 1023.
  destruct (Z.leb_spec 0 j) as [Hge|Hlt].
  2:{ destruct (dls_at st NULL A1 A2 x) as [-> _]; [rewrite <- EA; apply H|].
      eexists. split; [|exists (A1 ++ [x]), A2; split_and!; [by rewrite EA, <- app_assoc|done|lia|reflexivity|done|]].
      - cbn [length]. lia.
      - intros q. rewrite Hacc. split; intros (Hal & Hcq & Hp); (split; [done|]; split; [done|]);
          by eapply (passed_next st A A1 A2 x j). }
  set (q0 := slot_blk st x j * 4096).
  assert (Eq0 : q0 / 4096 = slot_blk st x j) by (unfold q0; dlia).
  assert (Ek0 : q0 / 4096 / 1024 = bkey st x) by (rewrite Eq0; unfold slot_blk; dlia).
  rewrite <- (HDRv_slot st A H x j q0) by (done || lia).
  assert (Hskip : forall d acc', 0 < d -> NoDup acc' ->
    (forall q, slot_blk st x j - d < q / 4096 < slot_blk st x j -> candidate st false q = false) ->
    acc' = (if candidate st false q0 then acc ++ [q0] else acc) ->
    exists n', (n' < length (x :: A2) * 1025 - Z.to_nat (1023 - Z.max j (-1)))%nat
               /\ apply_inv st A n' (x, j - d, acc')).
  { intros d acc' Hd Hnd' Hno Eacc. eexists. split; [|exists A1, (x :: A2); split_and!;
      [done|done|lia|reflexivity|done|]].
    - cbn [length]. lia.
    - intros q. rewrite passed_step by lia.
      assert (Hin : q ∈ acc' <-> q ∈ acc \/ (q = q0 /\ candidate st false q0 = true)).
      { rewrite Eacc. destruct (candidate st false q0); [rewrite elem_of_app, list_elem_of_singleton|]; naive_solver. }
      rewrite Hin, Hacc. split.
      + intros [(?&?&?)|[-> Hc0]]; [tauto|]. split; [unfold q0; dlia|]. split; [done|].
        right. split; [done|]. lia.
      + intros (Hal & Hcq & [Hp|[Ek Hr]]); [by left|]. right.
        destruct (decide (q / 4096 = slot_blk st x j)) as [E|E].
        * assert (q = q0) as -> by dlia. done.
        * rewrite Hno in Hcq; [done|lia]. }
  assert (Hq0 : q0 ∉ acc).
  { rewrite Hacc. intros (_ & _ & [Hp|[_ Hp]]); lia. }
  destruct (IS_FORWARDING_ADDR_OR_NIL (HDRv st q0)) eqn:EF.
  - assert (Hp : is_hdr_ptr (HDRv st q0) = false) by (by rewrite is_hdr_ptr_forward, EF).
    pose proof (mo_nonneg _ M q0). apply Hskip; [bcase; lia|done|..].
    + intros q Hq. unfold candidate. rewrite (mo_forward _ M q0 q Hp); [done|]. bcase; lia.
    + unfold candidate. by rewrite Hp.
  - assert (Hp : is_hdr_ptr (HDRv st q0) = true) by (by rewrite is_hdr_ptr_forward, EF).
    rewrite (mo_block _ M q0 Hp). unfold q0 at 2. rewrite HBLKPTR_slot. fold q0.
    assert (Ec : candidate st false q0 = negb (HBLK_IS_FREE (hdr_of st (HDRv st q0)))).
    { unfold candidate. by rewrite Hp. }
    destruct (HBLK_IS_FREE (hdr_of st (HDRv st q0))); (apply Hskip; [lia| |intros; lia|by rewrite Ec]); [done|].
    apply NoDup_app. split; [done|]. split; [|apply NoDup_singleton].
    intros y Hy Hy'. apply list_elem_of_singleton in Hy' as ->. done.
Qed.

Lemma apply_to_all_blocks_spec (st : hdr_state) :
  wf_table st -> mapped_ok st ->
  exists r, GC_apply_to_all_blocks st = Some r /\ NoDup r
    /\ forall q, q ∈ r <-> q mod 4096 = 0 /\ candidate st false q = true.
Proof.
  intros (used & A & F & HT) M. assert (H : hrep st A) by apply HT. unfold GC_apply_to_all_blocks.
  eapply (apply_loop_spec st A); [done|done|]. exists [], A.
  split_and!; [done|apply H|by vm_compute|reflexivity|constructor|].
  intros q. rewrite elem_of_nil. split; [done|]. intros (_ & Hc & Hp).
  destruct (mapped_slot st A H q) as (x & Hx & Ex); [by eapply is_hdr_ptr_nonnull, candidate_mapped|].
  destruct A as [|a A]; [by apply elem_of_nil in Hx|]. change (BOTTOM_SZ - 1) with 1023 in Hp.
  destruct Hp as [Hp|[E Hp]].
  - rewrite <- Ex in Hp. destruct (sorted_split st (a :: A) H [] A a x eq_refl Hx) as [_ [Hn _]].
    specialize (Hn Hp). by apply elem_of_nil in Hn.
  - unfold slot_blk in Hp. dlia.
Qed.

(** ** A table with one object *)

(** [map_object] with the header filled in: block 256, four blocks long. *)
Definition sample_hdr : hdr := Hdr 0 0 1048576 0 LARGE_BLOCK 7 16384 0 None 0 ∅.

Definition with_hdr (p : Z) (x : hdr) (st : hdr_state) : hdr_state :=
  set_hdrs (<[HDRv st p := x]> (hdrs st)) st.

Lemma with_hdr_spec (st : hdr_state) (p : Z) (x : hdr) :
  wf_table st -> is_hdr_ptr (HDRv st p) = true ->
  wf_table (with_hdr p x st) /\ (forall q, HDRv (with_hdr p x st) q = HDRv st q)
  /\ hdr_of (with_hdr p x st) (HDRv st p) = x.
Proof.
  intros (used & A & F & HT) Hp. destruct (ti_live _ _ _ _ HT p Hp) as [Hs HF].
  split; [exists used, A, F; by apply table_inv_hdr|]. split; [intros; by apply HDRv_frame|].
  unfold hdr_of, with_hdr. cbn. by rewrite lookup_insert_eq.
Qed.

Lemma sample_nav :
  exists st r, wf_table st /\ mapped_ok st /\ 4096 <= r
    /\ HDRv st 1048576 = r /\ hdr_of st r = sample_hdr
    /\ (forall q, HDRv st q = if decide (q / 4096 = 256) then r
         else if decide (256 < q / 4096 < 260) then fwd_count 1048576 q else NULL).
Proof.
  destruct sample_init_wf as (st0 & Hi & Hwf & HE).
  destruct (map_object_spec st0 1048576 16384) as (ok & st & Hm & Hwf1 & Hok); try done.
  assert (ok = true) as ->.
  { vm_compute in Hi. injection Hi as <-. vm_compute in Hm. by injection Hm as <- _. }
  destruct (Hok eq_refl) as (r & Hr & _ & _ & HE1). clear Hok Hm Hi.
  assert (HE2 : forall q, HDRv st q = if decide (q / 4096 = 256) then r
         else if decide (256 < q / 4096 < 260) then fwd_count 1048576 q else NULL).
  { intros q. rewrite HE1, HE. change (1048576 / 4096) with 256.
    by change ((1048576 + 16384) / 4096) with 260. }
  assert (Eh : HDRv st 1048576 = r) by (rewrite HE2; by rewrite decide_True).
  destruct (with_hdr_spec st 1048576 sample_hdr Hwf1) as (W & HD & HX);
    [rewrite Eh; by apply is_hdr_ptr_ge|]. rewrite Eh in HX.
  exists (with_hdr 1048576 sample_hdr st), r. split; [done|].
  assert (HEf : forall q, HDRv (with_hdr 1048576 sample_hdr st) q
    = if decide (q / 4096 = 256) then r
         else if decide (256 < q / 4096 < 260) then fwd_count 1048576 q else NULL)
    by (intros; by rewrite HD, HE2).
  split; [|split; [done|]; split; [by rewrite HEf, decide_True|]; by split].
  assert (Hcase : forall q, (q / 4096 = 256 /\ HDRv (with_hdr 1048576 sample_hdr st) q = r)
    \/ (q / 4096 <> 256 /\ HDRv (with_hdr 1048576 sample_hdr st) q
          = if decide (256 < q / 4096 < 260) then q / 4096 - 256 else 0)).
  { intros q. rewrite HEf. case_decide; [by left|right]. split; [done|]. case_decide; [|done].
    unfold fwd_count, MAX_JUMP. rewrite HBLKSIZE_eq. change (1048576 / 4096) with 256. lia. }
  assert (Hptr : forall q, is_hdr_ptr (HDRv (with_hdr 1048576 sample_hdr st) q) = true -> q / 4096 = 256).
  { intros q Hq. apply is_hdr_ptr_ge in Hq. destruct (Hcase q) as [[? _]|[? E]]; [done|].
    rewrite E in Hq. case_decide; lia. }
  assert (Hno : forall q, q / 4096 <> 256 -> is_hdr_ptr (HDRv (with_hdr 1048576 sample_hdr st) q) = false).
  { intros q Hq. apply not_true_is_false. by intros ?%Hptr. }
  assert (Hhd : forall q, q / 4096 = 256 ->
    hdr_of (with_hdr 1048576 sample_hdr st) (HDRv (with_hdr 1048576 sample_hdr st) q) = sample_hdr).
  { intros q Hq. destruct (Hcase q) as [[_ ->]|[? _]]; done. }
  split.
  - intros q. destruct (Hcase q) as [[_ ->]|[_ ->]]; [lia|]. case_decide; lia.
  - intros q Hq%Hptr. rewrite (Hhd q Hq), PTR_ALIGN_DOWN_hblk. cbn. dlia.
  - intros q Hq%Hptr. by rewrite (Hhd q Hq).
  - intros q p' Hq%Hptr. by rewrite (Hhd q Hq).
  - intros q p' Hq Hp. apply Hno. intros E.
    destruct (Hcase q) as [[Eq Er]|[Hq' Er]]; rewrite Er in *.
    + apply is_hdr_ptr_ge in Hr. congruence.
    + case_decide; lia.
Qed.

(** When an object of any length is mapped at [h], then from every address
    inside it the forwarding counts lead, in finitely many steps, to the block
    [h] and to the header that was installed for it. *)
Theorem GC_find_starting_hblk_correct (st st' : hdr_state) (h sz p : Z)
    (Hwf : wf_table st) (Hal : h mod 4096 = 0) (Hh : 0 <= h) (Hsz : 0 < sz)
    (Hszal : sz mod 4096 = 0) (Hend : h + sz < W64)
    (Hmap : map_object h sz st = Some (true, st')) (Hp : h <= p < h + sz) :
  GC_find_starting_hblk st' (HBLKPTR p) (HDRv st' p) = Some (h, HDRv st' h)
  /\ is_hdr_ptr (HDRv st' h) = true.
Proof.
  destruct (map_object_spec st h sz) as (ok & st1 & E & Hwf1 & Hok); try done.
  rewrite Hmap in E. injection E as <- <-. destruct (Hok eq_refl) as (r & Hr & _ & _ & HE1).
  assert (Ho : object_at st' h sz).
  { split; [rewrite HE1, decide_True by done; by apply is_hdr_ptr_ge|].
    intros q Hq. rewrite HE1. rewrite decide_False by lia. by rewrite decide_True. }
  split; [|apply Ho]. rewrite PTR_ALIGN_DOWN_hblk.
  rewrite (HDRv_block st' p (p - p mod 4096)) by dlia.
  eapply (find_starting_hblk_spec st' h sz); try done; dlia.
Qed.

Lemma GC_find_starting_hblk_correct_witness :
  exists st st', GC_init_headers (hdr_init sample_scratch 7) = Some st
    /\ map_object 1048576 16384 st = Some (true, st')
    /\ GC_find_starting_hblk st' (HBLKPTR 1061000) (HDRv st' 1061000) = Some (1048576, HDRv st' 1048576).
Proof.
  destruct sample_init_wf as (st & Hi & Hwf & HE).
  assert (Hm : exists st1, map_object 1048576 16384 st = Some (true, st1)).
  { vm_compute in Hi. injection Hi as <-. eexists. vm_compute. reflexivity. }
  destruct Hm as (st1 & Hm). exists st, st1. split; [exact Hi|]. split; [exact Hm|].
  apply (GC_find_starting_hblk_correct st st1 1048576 16384 1061000); try done.
Defined.

(** [GC_next_block] returns the nearest block at or above [h] that has a
    header and, unless [allow_free], is in use; it returns [NULL] exactly when
    there is none.  It always returns. *)
Theorem GC_next_block_correct (st : hdr_state) (h : Z) (allow_free : bool)
    (Hwf : wf_table st) (Hok : mapped_ok st) (Hh : 0 <= h < W64) :
  exists r, GC_next_block st h allow_free = Some r /\ nearest_up st allow_free (h / 4096) r.
Proof. by apply next_block_spec. Qed.

Lemma GC_next_block_correct_witness :
  exists st r, GC_next_block st 8192 false = Some r /\ r / 4096 = 256.
Proof.
  destruct sample_nav as (st & v & Hwf & Hok & Hv & E & Eh & HE).
  destruct (GC_next_block_correct st 8192 false Hwf Hok) as (r & Hr & Hn); [split; [lia|reflexivity]|].
  exists st, r. split; [exact Hr|].
  assert (Hc : candidate st false 1048576 = true).
  { unfold candidate. rewrite E, Eh, (proj2 (is_hdr_ptr_ge v) Hv). reflexivity. }
  change (8192 / 4096) with 2 in Hn. destruct Hn as [[_ Hn]|(_ & H1 & H2 & H3)].
  - rewrite Hn in Hc; [done|vm_compute; congruence].
  - apply candidate_mapped, is_hdr_ptr_ge in H2. rewrite HE in H2.
    repeat case_decide; [done| |lia].
    pose proof (fwd_count_pos 1048576 r). change (1048576 / 4096) with 256 in *. lia.
Defined.

(** [GC_prev_block] returns the nearest block at or below [h] that has a
    header, or [NULL] when there is none, and always returns. *)
Theorem GC_prev_block_correct (st : hdr_state) (h : Z)
    (Hwf : wf_table st) (Hok : mapped_ok st) (Hh : 0 <= h < W64) :
  exists r, GC_prev_block st h = Some r /\ nearest_down st (h / 4096) r.
Proof. by apply prev_block_spec. Qed.

Lemma GC_prev_block_correct_witness :
  exists st r, GC_prev_block st 1056768 = Some r /\ r / 4096 = 256.
Proof.
  destruct sample_nav as (st & v & Hwf & Hok & Hv & E & Eh & HE).
  destruct (GC_prev_block_correct st 1056768 Hwf Hok) as (r & Hr & Hn); [split; [lia|reflexivity]|].
  exists st, r. split; [exact Hr|].
  assert (Hc : is_hdr_ptr (HDRv st 1048576) = true) by (rewrite E; by apply is_hdr_ptr_ge).
  change (1056768 / 4096) with 258 in Hn. destruct Hn as [[_ Hn]|(_ & H1 & H2 & H3)].
  - rewrite Hn in Hc; [done|vm_compute; congruence].
  - apply is_hdr_ptr_ge in H2. rewrite HE in H2.
    repeat case_decide; [done| |lia].
    pose proof (fwd_count_pos 1048576 r). change (1048576 / 4096) with 256 in *. lia.
Defined.

(** [GC_apply_to_all_blocks] calls its callback on every in-use block exactly
    once and on nothing else, and always returns. *)
Theorem GC_apply_to_all_blocks_correct (st : hdr_state)
    (Hwf : wf_table st) (Hok : mapped_ok st) :
  exists visited, GC_apply_to_all_blocks st = Some visited /\ NoDup visited
    /\ forall q, q ∈ visited <-> q mod 4096 = 0 /\ candidate st false q = true.
Proof. by apply apply_to_all_blocks_spec. Qed.

Lemma GC_apply_to_all_blocks_correct_witness :
  exists st visited, GC_apply_to_all_blocks st = Some visited /\ 1048576 ∈ visited.
Proof.
  destruct sample_nav as (st & v & Hwf & Hok & Hv & E & Eh & HE).
  destruct (GC_apply_to_all_blocks_correct st Hwf Hok) as (r & Hr & _ & Hn).
  exists st, r. split; [exact Hr|]. apply Hn. split; [reflexivity|].
  unfold candidate. rewrite E, Eh, (proj2 (is_hdr_ptr_ge v) Hv). reflexivity.
Defined.

End HeadersNav.
