(* ===== verification/HdrCache.v ===== *)
(** * The marker's header cache (headers.c, gc_hdrs.h)

    [HC_GET_HDR] looks a pointer up in a small direct-mapped cache that all mark
    procedures share; a miss runs [GC_header_cache_miss], which consults the
    header table, follows forwarding counts into large objects and reports
    false pointers to the black lists.  The cache must stay coherent with the
    table: that is what the invalidations in headers.c and allchblk.c are
    for. *)

From Stdlib Require Import ZArith Lia.
From stdpp Require Import base gmap list.
From S2P Require Import Prelude BlackList Scratch Hblk Headers HeadersNav.

Module HdrCache.
Import BlackList Scratch Headers HeadersNav.

(** The cache slot of an address, and whether its entry is for that block. *)
Definition HCE (p : Z) : Z := Z.land (Z.shiftr p LOG_HBLKSIZE) (HDR_CACHE_SIZE - 1).
Definition hce_at (st : hdr_state) (i : Z) : Z * Z := default (0, 0) (GC_hdr_cache st !! i).
Definition HCE_VALID_FOR (hce : Z * Z) (p : Z) : bool := hce.1 =? Z.shiftr p LOG_HBLKSIZE.

(** [NULL == HDR(p)], the test of the black-list registration. *)
Definition hdr_is_null (st : hdr_state) (p : Z) : bool := HDRv st p =? NULL.

(** Result: the header found, or [NULL]; the table state (its cache) and the
    black lists. *)
Definition GC_header_cache_miss (p hce : Z) (st : hdr_state) (bl : bl_state)
    : option (Z * hdr_state * bl_state) :=
  hhdr ← GET_HDR st p;
  let add := GC_ADD_TO_BLACK_LIST_NORMAL (hdr_is_null st) p bl in
  if IS_FORWARDING_ADDR_OR_NIL hhdr then
    if GC_all_interior_pointers bl then
      if negb (hhdr =? NULL) then
        '(current, hhdr) ← GC_find_starting_hblk st (HBLKPTR p) hhdr;
        let hd := hdr_of st hhdr in
        if flag_set (hb_flags hd) IGNORE_OFF_PAGE then Some (NULL, st, bl)
        else if HBLK_IS_FREE hd || (signed64 (hb_sz hd) <=? p - current)
        then Some (NULL, st, add)
        else Some (hhdr, st, bl)
      else Some (NULL, st, add)
    else if hhdr =? NULL then Some (NULL, st, add)
    else Some (NULL, st, bl)
  else if HBLK_IS_FREE (hdr_of st hhdr) then Some (NULL, st, add)
  else Some (hhdr,
         set_hdr_cache (<[hce := (Z.shiftr p LOG_HBLKSIZE, hhdr)]> (GC_hdr_cache st)) st, bl).

(** The macro; [NULL] is its [break]. *)
Definition HC_GET_HDR (p : Z) (st : hdr_state) (bl : bl_state)
    : option (Z * hdr_state * bl_state) :=
  let hce := HCE p in
  if HCE_VALID_FOR (hce_at st hce) p then Some ((hce_at st hce).2, st, bl)
  else GC_header_cache_miss p hce st bl.

(** ** Specification *)

(** Forwarding counts belong to objects whose first block has a header. *)
Definition forwards_ok (st : hdr_state) : Prop :=
  forall q, HDRv st q <> NULL -> is_hdr_ptr (HDRv st q) = false ->
  exists h sz, h mod 4096 = 0 /\ 0 <= h /\ sz mod 4096 = 0 /\ h + sz < W64
    /\ object_at st h sz /\ h <= q < h + sz.

(** What a lookup must answer: [start] is the block the object begins in. *)
Inductive hdr_answer (st : hdr_state) (interior : bool) (p : Z) : Z -> Prop :=
  | ans_first (v : Z) :
      v = HDRv st p -> is_hdr_ptr v = true -> HBLK_IS_FREE (hdr_of st v) = false ->
      hdr_answer st interior p v
  | ans_free : is_hdr_ptr (HDRv st p) = true -> HBLK_IS_FREE (hdr_of st (HDRv st p)) = true ->
      hdr_answer st interior p NULL
  | ans_unmapped : HDRv st p = NULL -> hdr_answer st interior p NULL
  | ans_no_interior : HDRv st p <> NULL -> is_hdr_ptr (HDRv st p) = false -> interior = false ->
      hdr_answer st interior p NULL
  | ans_interior (start sz : Z) :
      interior = true -> HDRv st p <> NULL -> is_hdr_ptr (HDRv st p) = false ->
      object_at st start sz -> start <= p < start + sz -> start mod 4096 = 0 -> sz mod 4096 = 0 ->
      hdr_answer st interior p
        (let hd := hdr_of st (HDRv st start) in
         if flag_set (hb_flags hd) IGNORE_OFF_PAGE || HBLK_IS_FREE hd
            || (signed64 (hb_sz hd) <=? p - start)
         then NULL else HDRv st start).

(** Every cached entry is what the table says about an in-use first block. *)
Definition cache_ok (st : hdr_state) : Prop :=
  forall i a v, GC_hdr_cache st !! i = Some (a, v) ->
    is_hdr_ptr v = true /\ HDRv st (a * 4096) = v /\ HBLK_IS_FREE (hdr_of st v) = false.

Lemma HCE_range (p : Z) : 0 <= HCE p < HDR_CACHE_SIZE.
Proof.
  unfold HCE. change (HDR_CACHE_SIZE - 1) with (2 ^ 6 - 1). rewrite land_low_mask by lia.
  apply Z.mod_pos_bound. done.
Qed.

Lemma shiftr_blk (p : Z) : Z.shiftr p LOG_HBLKSIZE = p / 4096.
Proof. unfold LOG_HBLKSIZE. rewrite Z.shiftr_div_pow2 by lia. done. Qed.

(** An emptied cache is coherent with any table. *)
Lemma cache_ok_empty (st : hdr_state) : GC_hdr_cache st = ∅ -> cache_ok st.
Proof. intros E i a v. by rewrite E, lookup_empty. Qed.

Lemma HDRv_cache (st : hdr_state) c (q : Z) : HDRv (set_hdr_cache c st) q = HDRv st q.
Proof. by apply HDRv_frame. Qed.

Lemma miss_spec (p : Z) (hce : Z) (st : hdr_state) (bl : bl_state) :
  wf_table st -> forwards_ok st -> cache_ok st -> 0 <= p < W64 ->
  exists v st' bl', GC_header_cache_miss p hce st bl = Some (v, st', bl')
    /\ hdr_answer st (GC_all_interior_pointers bl) p v
    /\ cache_ok st' /\ (exists c, st' = set_hdr_cache c st)
    /\ (v <> NULL -> bl' = bl).
Proof.
  intros Hwf Hfw Hc Hp. assert (Hwf' := Hwf). destruct Hwf' as (used & A & F & HT).
  unfold GC_header_cache_miss. rewrite (GET_HDR_total st A) by apply HT. cbn.
  assert (Hsame : exists c, st = set_hdr_cache c st) by (exists (GC_hdr_cache st); by destruct st).
  destruct (IS_FORWARDING_ADDR_OR_NIL (HDRv st p)) eqn:EF.
  - assert (Hnp : is_hdr_ptr (HDRv st p) = false) by (by rewrite is_hdr_ptr_forward, EF).
    destruct (Z.eqb_spec (HDRv st p) NULL) as [En|En].
    { destruct (GC_all_interior_pointers bl); cbn; do 3 eexists; (split; [done|]);
        (split; [by apply ans_unmapped|]); by split_and!. }
    destruct (GC_all_interior_pointers bl) eqn:Ei; cbn.
    2:{ do 3 eexists; (split; [done|]). split; [by apply ans_no_interior|]. by split_and!. }
    destruct (Hfw p En Hnp) as (h & sz & Hal & Hh & Hszal & Hend & Ho & Hin).
    assert (Ef : GC_find_starting_hblk st (HBLKPTR p) (HDRv st p) = Some (h, HDRv st h)).
    { rewrite PTR_ALIGN_DOWN_hblk, (HDRv_block st p (p - p mod 4096)) by dlia.
      eapply (find_starting_hblk_spec st h sz); try done; dlia. }
    rewrite Ef. cbn. pose proof (ans_interior st true p h sz eq_refl En Hnp Ho Hin Hal Hszal) as Ha.
    cbn zeta in Ha. destruct (flag_set _ _); cbn in Ha |- *.
    { do 3 eexists; (split; [done|]). by split_and!. }
    destruct (HBLK_IS_FREE _ || _); do 3 eexists; (split; [done|]); by split_and!.
  - assert (Hpt : is_hdr_ptr (HDRv st p) = true) by (by rewrite is_hdr_ptr_forward, EF).
    destruct (HBLK_IS_FREE (hdr_of st (HDRv st p))) eqn:Efr.
    { do 3 eexists; (split; [done|]). split; [by apply ans_free|]. by split_and!. }
    do 3 eexists; (split; [done|]). split; [by apply ans_first|].
    split; [|split; [by eexists|done]]. intros i a v. rewrite HDRv_cache. cbn.
    intros Hl. apply lookup_insert_Some in Hl as [[_ [= <- <-]]|[_ Hl]]; [|by apply (Hc i)].
    split; [done|]. split; [|done]. rewrite shiftr_blk. apply HDRv_block. dlia.
Qed.

Lemma hdr_answer_in_use (st : hdr_state) (interior : bool) (p v : Z) :
  hdr_answer st interior p v -> v <> NULL -> HBLK_IS_FREE (hdr_of st v) = false.
Proof.
  destruct 1 as [v Ev Hv Hf| | | |start sz H1 H2 H3 H4 H5 H6 H7]; try done. cbn zeta.
  destruct (flag_set _ _); [done|]. cbn [orb].
  destruct (HBLK_IS_FREE (hdr_of st (HDRv st start))) eqn:E; [done|]. cbn [orb].
  by destruct (_ <=? _).
Qed.

(** The table lookup behind the cache always returns, and its answer is the
    specified one: the header of an in-use block for a pointer to the block's
    first page; with interior pointers recognised, the header of the large
    in-use object containing the pointer, unless the object ignores such
    pointers or the pointer is past its end; [NULL] otherwise.  In particular
    it never answers with the header of a free block. *)
Theorem GC_header_cache_miss_correct (p hce : Z) (st : hdr_state) (bl : bl_state)
    (Hwf : wf_table st) (Hfw : forwards_ok st) (Hc : cache_ok st) (Hp : 0 <= p < W64) :
  exists v st' bl', GC_header_cache_miss p hce st bl = Some (v, st', bl')
    /\ hdr_answer st (GC_all_interior_pointers bl) p v
    /\ (v <> NULL -> HBLK_IS_FREE (hdr_of st v) = false /\ bl' = bl).
Proof.
  destruct (miss_spec p hce st bl Hwf Hfw Hc Hp) as (v & st' & bl' & Hm & Ha & _ & _ & Hbl).
  exists v, st', bl'. split; [done|]. split; [done|]. intros Hv. split; [|by apply Hbl].
  by eapply hdr_answer_in_use.
Qed.

Lemma HC_GET_HDR_spec (p : Z) (st : hdr_state) (bl : bl_state) :
  wf_table st -> forwards_ok st -> cache_ok st -> 4096 <= p < W64 ->
  exists v st' bl', HC_GET_HDR p st bl = Some (v, st', bl')
    /\ hdr_answer st (GC_all_interior_pointers bl) p v
    /\ cache_ok st' /\ exists c, st' = set_hdr_cache c st.
Proof.
  intros Hwf Hfw Hc Hp. unfold HC_GET_HDR, HCE_VALID_FOR. rewrite shiftr_blk.
  destruct (Z.eqb_spec (hce_at st (HCE p)).1 (p / 4096)) as [E|E].
  - unfold hce_at in *. destruct (GC_hdr_cache st !! HCE p) as [[a v]|] eqn:El; cbn in *; [|dlia].
    destruct (Hc _ _ _ El) as (Hv & Ev & Hf). exists v, st, bl. split; [done|].
    split; [apply ans_first; [|done|done]; rewrite <- Ev, E; apply HDRv_block; dlia|].
    split; [done|]. exists (GC_hdr_cache st). by destruct st.
  - destruct (miss_spec p (HCE p) st bl) as (v & st' & bl' & Hm & Ha & Hc' & Hs & _); try done; [lia|].
    exists v, st', bl'. by split_and!.
Qed.

(** C36: with a coherent cache, [HC_GET_HDR] gives for every address outside the
    first page the answer the table gives, whether it hits or misses, changes
    no mapping, and leaves the cache coherent. *)
Theorem HC_GET_HDR_correct (p : Z) (st : hdr_state) (bl : bl_state)
    (Hwf : wf_table st) (Hfw : forwards_ok st) (Hc : cache_ok st) (Hp : 4096 <= p < W64) :
  exists v st' bl', HC_GET_HDR p st bl = Some (v, st', bl')
    /\ hdr_answer st (GC_all_interior_pointers bl) p v
    /\ cache_ok st' /\ hdrs st' = hdrs st /\ (forall q, HDRv st' q = HDRv st q).
Proof.
  destruct (HC_GET_HDR_spec p st bl Hwf Hfw Hc Hp) as (v & st' & bl' & Hg & Ha & Hc' & c & ->).
  exists v, (set_hdr_cache c st), bl'. by split_and!.
Qed.

(** Every operation that creates or destroys a mapping leaves the cache
    coherent with the table it produces, whatever the cache held before. *)
Theorem mapping_ops_keep_cache_coherent (st : hdr_state) (h sz : Z)
    (Hwf : wf_table st) (Hal : h mod 4096 = 0) (Hh : 0 <= h) (Hsz : 0 < sz)
    (Hszal : sz mod 4096 = 0) (Hend : h + sz < W64) :
  (exists r st', GC_install_header h st = Some (r, st') /\ cache_ok st')
  /\ (exists ok st', GC_install_counts h sz st = Some (ok, st') /\ cache_ok st')
  /\ (is_hdr_ptr (HDRv st h) = true -> exists st', GC_remove_header h st = Some st' /\ cache_ok st')
  /\ (object_at st h sz -> exists st', GC_remove_counts h sz st = Some st' /\ cache_ok st').
Proof.
  split; [|split; [|split]].
  - destruct (install_header_spec st h Hwf) as (r & st' & E & _ & Hc & _); [lia|].
    exists r, st'. by split; [|apply cache_ok_empty].
  - destruct (install_counts_spec st h sz) as (ok & st' & E & _ & _ & Hc & _); try done.
    exists ok, st'. by split; [|apply cache_ok_empty].
  - intros Hm. destruct (remove_header_spec st h Hwf Hm) as (st' & E & _ & Hc & _).
    exists st'. by split; [|apply cache_ok_empty].
  - intros [_ Ho]. destruct (remove_counts_spec st h sz) as (st' & E & _ & _ & Hc & _); try done.
    { intros q Hq. rewrite HBLKSIZE_eq, (Ho q Hq), (Ho (h + 4096)) by dlia.
      pose proof (fwd_count_pos h q ltac:(lia)). pose proof (fwd_count_pos h (h + 4096) ltac:(dlia)).
      rewrite decide_False; lia. }
    exists st'. by split; [|apply cache_ok_empty].
Qed.

(** ** Witnesses *)

Definition sample_bl : bl_state := BlState {[1 := ∅; 2 := ∅]} 0 0 1 2 65536 true [] 0 (fun _ => true).

Lemma sample_cache :
  exists st, wf_table st /\ forwards_ok st /\ cache_ok (GC_INVALIDATE_HDR_CACHE st)
    /\ HDRv st 1048576 <> NULL /\ hdr_of st (HDRv st 1048576) = sample_hdr
    /\ object_at st 1048576 16384.
Proof.
  destruct sample_nav as (st & v & Hwf & Hok & Hv & E & Eh & HE). exists st.
  assert (Ho : object_at st 1048576 16384).
  { split; [rewrite E; by apply is_hdr_ptr_ge|]. change ((1048576 + 16384) / 4096) with 260.
    change (1048576 / 4096) with 256. intros q Hq. rewrite HE, decide_False by lia.
    by rewrite decide_True. }
  split; [done|]. split; [|split; [by apply cache_ok_empty|split; [lia|by rewrite E, Eh]]].
  intros q Hq Hp. exists 1048576, 16384. split_and!; try done; rewrite HE in Hq, Hp.
  - repeat case_decide; [|dlia|done]. apply is_hdr_ptr_ge in Hv. congruence.
  - repeat case_decide; [|dlia|done]. apply is_hdr_ptr_ge in Hv. congruence.
Qed.

Lemma GC_header_cache_miss_correct_witness :
  exists st v st' bl', GC_header_cache_miss 1061000 3 st sample_bl = Some (v, st', bl')
    /\ hdr_answer st true 1061000 v.
Proof.
  destruct sample_cache as (st & Hwf & Hfw & Hc & _).
  destruct (GC_header_cache_miss_correct 1061000 3 (GC_INVALIDATE_HDR_CACHE st) sample_bl)
    as (v & st' & bl' & Hm & Ha & _).
  - destruct Hwf as (used & A & F & HT). exists used, A, F. by apply table_inv_cache.
  - exact Hfw.
  - exact Hc.
  - split; [lia|reflexivity].
  - exists (GC_INVALIDATE_HDR_CACHE st), v, st', bl'. split; [exact Hm|exact Ha].
Defined.

Lemma HC_GET_HDR_correct_witness :
  exists st v st' bl', HC_GET_HDR 1048580 st sample_bl = Some (v, st', bl')
    /\ hdr_answer st true 1048580 v /\ cache_ok st'.
Proof.
  destruct sample_cache as (st & Hwf & Hfw & Hc & _).
  destruct (HC_GET_HDR_correct 1048580 (GC_INVALIDATE_HDR_CACHE st) sample_bl)
    as (v & st' & bl' & Hm & Ha & Hc' & _).
  - destruct Hwf as (used & A & F & HT). exists used, A, F. by apply table_inv_cache.
  - exact Hfw.
  - exact Hc.
  - split; [lia|reflexivity].
  - exists (GC_INVALIDATE_HDR_CACHE st), v, st', bl'. split; [exact Hm|]. split; [exact Ha|exact Hc'].
Defined.

Lemma mapping_ops_keep_cache_coherent_witness :
  exists st r st', GC_install_header 4096000 st = Some (r, st') /\ cache_ok st'.
Proof.
  destruct sample_cache as (st & Hwf & _).
  destruct (mapping_ops_keep_cache_coherent st 4096000 8192) as [(r & st' & H) _];
    [exact Hwf|reflexivity|lia|lia|reflexivity|reflexivity|].
  exists st, r, st'. exact H.
Defined.

End HdrCache.
