(* ===== verification/HdrIface.v ===== *)
(** * The interface of the header table

    What the block allocator and the collector's other components rely on when
    they use [HDR], [GC_install_header] and the other operations of headers.c.
    A table maps heap blocks to words ([HDR]): [NULL], a forwarding count, or a
    pointer to a header, and stores the headers themselves.  [HeaderTable] has
    the operations, [HeaderTableLaws] what they promise; the two-level tree of
    headers.c is an instance. *)

From Stdlib Require Import ZArith Lia.
From stdpp Require Import base gmap list.
From S2P Require Import Prelude Scratch Hblk Headers HeadersNav HdrCache.

Class HeaderTable (T : Type) := {
  ht_wf : T -> Prop;
  ht_clean : T -> Prop;                              (* no cached mapping *)
  HDR : T -> Z -> Z;
  ht_hdr : T -> Z -> hdr;                            (* read through a pointer *)
  ht_store : Z -> hdr -> T -> T;                     (* write through a pointer *)
  ht_invalidate : T -> T;
  ht_scratch_alloc : Z -> T -> option (Z * T);
  ht_install_header : Z -> T -> option (Z * T);
  ht_install_counts : Z -> Z -> T -> option (bool * T);
  ht_remove_header : Z -> T -> option T;
  ht_remove_counts : Z -> Z -> T -> option T;
  ht_find_starting : T -> Z -> Z -> option (Z * Z);
  ht_next_block : T -> Z -> bool -> option Z;
  ht_prev_block : T -> Z -> option Z
}.

(** Two tables agree on the mapping and on the headers in use. *)
Definition same_table `{HeaderTable T} (t t' : T) : Prop :=
  (forall q, HDR t' q = HDR t q)
  /\ forall q, Headers.is_hdr_ptr (HDR t q) = true -> ht_hdr t' (HDR t q) = ht_hdr t (HDR t q).

(** The headers describe their blocks; cf. [HeadersNav.mapped_ok]. *)
Record blocks_ok `{HeaderTable T} (t : T) : Prop := {
  bo_nonneg : forall q, 0 <= HDR t q;
  bo_block : forall q, Headers.is_hdr_ptr (HDR t q) = true ->
    hb_block (ht_hdr t (HDR t q)) = HBLKPTR q;
  bo_free_size : forall q, Headers.is_hdr_ptr (HDR t q) = true ->
    HBLK_IS_FREE (ht_hdr t (HDR t q)) = true -> 4096 <= hb_sz (ht_hdr t (HDR t q));
  bo_free_span : forall q p, Headers.is_hdr_ptr (HDR t q) = true ->
    HBLK_IS_FREE (ht_hdr t (HDR t q)) = true ->
    q / 4096 < p / 4096 < q / 4096 + hb_sz (ht_hdr t (HDR t q)) / 4096 ->
    Headers.is_hdr_ptr (HDR t p) = false;
  bo_forward : forall q p, Headers.is_hdr_ptr (HDR t q) = false ->
    q / 4096 - HDR t q < p / 4096 <= q / 4096 -> Headers.is_hdr_ptr (HDR t p) = false
}.

Class HeaderTableLaws (T : Type) `{HeaderTable T} : Prop := {
  hl_block (t : T) (p q : Z) : p / 4096 = q / 4096 -> HDR t p = HDR t q;
  hl_inj (t : T) (p q : Z) : ht_wf t -> Headers.is_hdr_ptr (HDR t p) = true ->
    HDR t p = HDR t q -> p / 4096 = q / 4096;
  hl_store (t : T) (q : Z) (x : hdr) : ht_wf t -> Headers.is_hdr_ptr (HDR t q) = true ->
    ht_wf (ht_store (HDR t q) x t) /\ (forall p, HDR (ht_store (HDR t q) x t) p = HDR t p)
    /\ (forall v, ht_hdr (ht_store (HDR t q) x t) v
                  = if decide (v = HDR t q) then x else ht_hdr t v)
    /\ (ht_clean t -> ht_clean (ht_store (HDR t q) x t));
  hl_invalidate (t : T) : ht_wf t ->
    ht_wf (ht_invalidate t) /\ ht_clean (ht_invalidate t) /\ same_table t (ht_invalidate t);
  hl_scratch (t : T) (n : Z) : ht_wf t -> 0 < n < 2 ^ 63 ->
    exists r t', ht_scratch_alloc n t = Some (r, t') /\ ht_wf t' /\ same_table t t'
      /\ (ht_clean t -> ht_clean t');
  hl_install (t : T) (h : Z) : ht_wf t -> 0 <= h < W64 ->
    exists r t', ht_install_header h t = Some (r, t') /\ ht_wf t' /\ ht_clean t'
      /\ ((r = NULL /\ same_table t t')
          \/ (Headers.is_hdr_ptr r = true /\ (forall q, HDR t q <> r)
              /\ (forall q, HDR t' q = if decide (q / 4096 = h / 4096) then r else HDR t q)
              /\ forall q, Headers.is_hdr_ptr (HDR t q) = true ->
                   ht_hdr t' (HDR t q) = ht_hdr t (HDR t q)));
  hl_counts (t : T) (h sz : Z) :
    ht_wf t -> h mod 4096 = 0 -> 0 <= h -> 0 < sz -> sz mod 4096 = 0 -> h + sz < W64 ->
    exists ok t', ht_install_counts h sz t = Some (ok, t') /\ ht_wf t' /\ ht_clean t'
      /\ (forall v, ht_hdr t' v = ht_hdr t v)
      /\ (forall q, HDR t' q = if decide (ok = true /\ h / 4096 < q / 4096 < (h + sz) / 4096)
                               then Headers.fwd_count h q else HDR t q);
  hl_remove (t : T) (h : Z) : ht_wf t -> Headers.is_hdr_ptr (HDR t h) = true ->
    exists t', ht_remove_header h t = Some t' /\ ht_wf t' /\ ht_clean t'
      /\ (forall v, v <> HDR t h -> ht_hdr t' v = ht_hdr t v)
      /\ (forall q, HDR t' q = if decide (q / 4096 = h / 4096) then NULL else HDR t q);
  hl_remove_counts (t : T) (h sz : Z) :
    ht_wf t -> h mod 4096 = 0 -> 0 <= h -> 0 < sz -> sz mod 4096 = 0 -> h + sz < W64 ->
    (forall q, h / 4096 < q / 4096 < (h + sz) / 4096 ->
       if decide (HDR t (h + HBLKSIZE) = NULL) then HDR t q = NULL else HDR t q <> NULL) ->
    exists t', ht_remove_counts h sz t = Some t' /\ ht_wf t' /\ ht_clean t'
      /\ (forall v, ht_hdr t' v = ht_hdr t v)
      /\ (forall q, HDR t' q
            = if decide (h / 4096 < q / 4096 < (h + sz) / 4096) then NULL else HDR t q);
  hl_find (t : T) (h sz q : Z) :
    ht_wf t -> h mod 4096 = 0 -> q mod 4096 = 0 -> 0 <= h -> h + sz < W64 -> sz mod 4096 = 0 ->
    Headers.is_hdr_ptr (HDR t h) = true ->
    (forall q, h / 4096 < q / 4096 < (h + sz) / 4096 -> HDR t q = Headers.fwd_count h q) ->
    h <= q < h + sz -> ht_find_starting t q (HDR t q) = Some (h, HDR t h);
  hl_prev (t : T) (h : Z) : ht_wf t -> blocks_ok t -> 0 <= h < W64 ->
    exists r, ht_prev_block t h = Some r /\
      ((r = NULL /\ forall q, q / 4096 <= h / 4096 -> Headers.is_hdr_ptr (HDR t q) = false)
       \/ (r mod 4096 = 0 /\ r / 4096 <= h / 4096 /\ Headers.is_hdr_ptr (HDR t r) = true
           /\ forall q, q / 4096 <= h / 4096 -> Headers.is_hdr_ptr (HDR t q) = true ->
                q / 4096 <= r / 4096));
  hl_next (t : T) (h : Z) : ht_wf t -> blocks_ok t -> 0 <= h < W64 ->
    exists r, ht_next_block t h true = Some r /\
      ((r = NULL /\ forall q, h / 4096 <= q / 4096 -> Headers.is_hdr_ptr (HDR t q) = false)
       \/ (r mod 4096 = 0 /\ h / 4096 <= r / 4096 /\ Headers.is_hdr_ptr (HDR t r) = true
           /\ forall q, h / 4096 <= q / 4096 -> Headers.is_hdr_ptr (HDR t q) = true ->
                r / 4096 <= q / 4096))
}.

(** ** The two-level tree implements the interface *)

Module HdrIface.
Import Scratch Headers HeadersNav HdrCache.

#[export] Instance tree_table : HeaderTable hdr_state := {
  ht_wf := wf_table;
  ht_clean st := GC_hdr_cache st = ∅;
  HDR := HDRv;
  ht_hdr := hdr_of;
  ht_store v x st := set_hdrs (<[v := x]> (hdrs st)) st;
  ht_invalidate := GC_INVALIDATE_HDR_CACHE;
  ht_scratch_alloc := scratch_alloc;
  ht_install_header := GC_install_header;
  ht_install_counts := GC_install_counts;
  ht_remove_header := GC_remove_header;
  ht_remove_counts := GC_remove_counts;
  ht_find_starting := GC_find_starting_hblk;
  ht_next_block := GC_next_block;
  ht_prev_block := GC_prev_block
}.

Lemma live_header (st : hdr_state) (q : Z) :
  wf_table st -> is_hdr_ptr (HDRv st q) = true -> is_Some (hdrs st !! HDRv st q).
Proof. intros (used & A & F & HT) Hq. by destruct (ti_live _ _ _ _ HT q Hq). Qed.

Lemma hdr_of_eq (st st' : hdr_state) (v : Z) :
  hdrs st' !! v = hdrs st !! v -> hdr_of st' v = hdr_of st v.
Proof. unfold hdr_of. by intros ->. Qed.

Lemma blocks_ok_mapped (st : hdr_state) : blocks_ok st -> mapped_ok st.
Proof. intros [H1 H2 H3 H4 H5]. split; [exact H1|exact H2|exact H3|exact H4|exact H5]. Qed.

Lemma tree_scratch (st : hdr_state) (n : Z) :
  wf_table st -> 0 < n < 2 ^ 63 ->
  exists r st', scratch_alloc n st = Some (r, st') /\ wf_table st' /\ same_table st st'
    /\ (GC_hdr_cache st = ∅ -> GC_hdr_cache st' = ∅).
Proof.
  intros (used & A & F & HT) Hn.
  destruct (scratch_alloc_spec_hs used st A n (ti_hinv _ _ _ _ HT) Hn) as (r & s & -> & Hc).
  exists r, (set_hs_scratch s st). split; [done|].
  assert (HE : forall q, HDRv (set_hs_scratch s st) q = HDRv st q) by (intros; by apply HDRv_frame).
  split; [|split; [by split|done]].
  destruct HT as [_ H2 H3 H4 H5 H6].
  destruct Hc as [[_ Hi]|(_ & _ & Hi)].
  - exists used, A, F. split; try done.
  - exists ((r, n) :: used), A, F. split; try done.
    intros v Hv. destruct (H4 v Hv). split; [done|]. by right.
Qed.

Lemma tree_store (st : hdr_state) (q : Z) (x : hdr) :
  wf_table st -> is_hdr_ptr (HDRv st q) = true ->
  let st' := set_hdrs (<[HDRv st q := x]> (hdrs st)) st in
  wf_table st' /\ (forall p, HDRv st' p = HDRv st p)
  /\ (forall v, hdr_of st' v = if decide (v = HDRv st q) then x else hdr_of st v)
  /\ (GC_hdr_cache st = ∅ -> GC_hdr_cache st' = ∅).
Proof.
  intros (used & A & F & HT) Hq st'. destruct (ti_live _ _ _ _ HT q Hq) as [Hs HF].
  split; [exists used, A, F; by apply table_inv_hdr|]. split; [intros; by apply HDRv_frame|].
  split; [|done]. intros v. unfold st', hdr_of. cbn. rewrite lookup_insert.
  repeat case_decide; subst; done.
Qed.

Lemma tree_install (st : hdr_state) (h : Z) :
  wf_table st -> 0 <= h < W64 ->
  exists r t', GC_install_header h st = Some (r, t') /\ wf_table t' /\ GC_hdr_cache t' = ∅
    /\ ((r = NULL /\ same_table st t')
        \/ (is_hdr_ptr r = true /\ (forall q, HDRv st q <> r)
            /\ (forall q, HDRv t' q = if decide (q / 4096 = h / 4096) then r else HDRv st q)
            /\ forall q, is_hdr_ptr (HDRv st q) = true ->
                 hdr_of t' (HDRv st q) = hdr_of st (HDRv st q))).
Proof.
  intros Hwf Hh. destruct (install_header_spec st h Hwf Hh) as (r & st' & E & W & C & Hh' & Hc).
  exists r, st'. split; [done|]. split; [done|]. split; [done|].
  destruct Hc as [[-> HE]|(Hr & _ & Hf & HE)]; [left|right].
  - split; [done|]. split; [exact HE|]. intros q Hq. apply hdr_of_eq, Hh'; [by apply live_header|].
    by apply is_hdr_ptr_nonnull.
  - split; [by apply is_hdr_ptr_ge|]. split; [done|]. split; [done|].
    intros q Hq. apply hdr_of_eq, Hh'; [by apply live_header|]. apply Hf.
Qed.

Lemma tree_invalidate (st : hdr_state) :
  wf_table st -> wf_table (GC_INVALIDATE_HDR_CACHE st) /\ same_table st (GC_INVALIDATE_HDR_CACHE st).
Proof.
  intros (used & A & F & HT). split; [exists used, A, F; by apply table_inv_cache|].
  split; [intros; by apply HDRv_frame|done].
Qed.

Lemma hdrs_eq_hdr_of (st st' : hdr_state) : hdrs st' = hdrs st -> forall v, hdr_of st' v = hdr_of st v.
Proof. intros E v. unfold hdr_of. by rewrite E. Qed.

(** The operations of headers.c keep every promise of the interface. *)
#[export] Instance tree_laws : HeaderTableLaws hdr_state.
Proof.
  split.
  - exact HDRv_block.
  - intros st p q (used & A & F & HT). apply (ti_inj _ _ _ _ HT).
  - exact tree_store.
  - intros st Hwf. destruct (tree_invalidate st Hwf). by split.
  - exact tree_scratch.
  - exact tree_install.
  - intros st h sz Hwf Ha Hh Hs Hsa He.
    destruct (install_counts_spec st h sz Hwf Ha Hh Hs Hsa He) as (ok & st' & E & W & Eh & C & HE).
    exists ok, st'. split_and!; try done. by apply hdrs_eq_hdr_of.
  - intros st h Hwf Hm. destruct (remove_header_spec st h Hwf Hm) as (st' & E & W & C & Hh & _ & HE).
    exists st'. split_and!; try done. intros v Hv. by apply hdr_of_eq, Hh.
  - intros st h sz Hwf Ha Hh Hs Hsa He Hm.
    destruct (remove_counts_spec st h sz Hwf Ha Hh Hs Hsa He Hm) as (st' & E & W & Eh & C & HE).
    exists st'. split_and!; try done. by apply hdrs_eq_hdr_of.
  - intros st h sz q Hwf Ha Hq Hh He Hsa Hp Hf Hin.
    by apply (find_starting_hblk_spec st h sz).
  - intros st h Hwf Hb Hh. apply prev_block_spec; [done|by apply blocks_ok_mapped|done].
  - intros st h Hwf Hb Hh.
    destruct (next_block_spec st h true Hwf (blocks_ok_mapped st Hb) Hh) as (r & E & Hn).
    exists r. split; [done|]. unfold nearest_up, candidate in Hn. cbn [orb] in Hn.
    assert (Ha : forall b, b && true = b) by (by intros []).
    destruct Hn as [[-> Hn]|(H1 & H2 & H3 & H4)]; [left|right].
    + split; [done|]. intros q Hq. specialize (Hn q Hq). by rewrite Ha in Hn.
    + rewrite Ha in H3. split_and!; try done. intros q Hq Hp. apply H4; [done|]. by rewrite Ha.
Qed.

End HdrIface.
