(* ===== verification/MarkBits.v ===== *)
(** * Mark bits (mark.c, gc_priv.h)

    Every header carries one mark bit per granule of its block plus one past the
    end that is always set.  The bits are kept in words; only the bits of object
    starts are used. *)

From Stdlib Require Import ZArith Lia.
From stdpp Require Import base gmap list.
From S2P Require Import Prelude Hblk.

Module MarkBits.

Definition MARK_BITS_PER_HBLK : Z := HBLKSIZE / GC_GRANULE_BYTES.
Definition HB_MARKS_SZ : Z := MARK_BITS_PER_HBLK / CPP_WORDSZ + 1.
Definition HBLK_OBJS (sz : Z) : Z := HBLKSIZE / sz.
Definition MARK_BIT_NO (offset sz : Z) : Z := BYTES_TO_GRANULES offset.
Definition MARK_BIT_OFFSET (sz : Z) : Z := BYTES_TO_GRANULES sz.
Definition FINAL_MARK_BIT (sz : Z) : Z :=
  if MAXOBJBYTES <? sz then MARK_BITS_PER_HBLK else BYTES_TO_GRANULES (HBLK_OBJS sz * sz).

Definition mark_bit_from_hdr (hhdr : hdr) (n : Z) : bool :=
  negb (Z.land (Z.shiftr (aget (hb_marks hhdr) (divWORDSZ n)) (modWORDSZ n)) 1 =? 0).

Definition set_mark_bit_from_hdr (n : Z) (hhdr : hdr) : hdr :=
  set_hb_marks (hb_n_marks hhdr)
    (<[divWORDSZ n := Z.lor (aget (hb_marks hhdr) (divWORDSZ n)) (Z.shiftl 1 (modWORDSZ n))]>
      (hb_marks hhdr)) hhdr.

(** [&= ~(1 << n)] on a 64-bit word. *)
Definition clear_mark_bit_from_hdr (n : Z) (hhdr : hdr) : hdr :=
  set_hb_marks (hb_n_marks hhdr)
    (<[divWORDSZ n := Z.land (aget (hb_marks hhdr) (divWORDSZ n))
                        (Z.lxor GC_SIZE_MAX (Z.shiftl 1 (modWORDSZ n)))]>
      (hb_marks hhdr)) hhdr.

Definition GC_clear_hdr_marks (hhdr : hdr) : hdr :=
  let last_bit := FINAL_MARK_BIT (hb_sz hhdr) in
  let hhdr := set_hb_marks (hb_n_marks hhdr) ∅ hhdr in
  let hhdr := set_mark_bit_from_hdr last_bit hhdr in
  set_hb_marks 0 (hb_marks hhdr) hhdr.

(** The loop stores all-ones words below the word of the final bit. *)
Fixpoint fill_words (n : nat) (i : Z) (m : gmap Z Z) : gmap Z Z :=
  match n with
  | O => m
  | S n => fill_words n (i + 1) (<[i := GC_SIZE_MAX]> m)
  end.

Definition GC_set_hdr_marks (hhdr : hdr) : hdr :=
  let sz := hb_sz hhdr in
  let n_marks := FINAL_MARK_BIT sz in
  let m := fill_words (Z.to_nat (divWORDSZ n_marks)) 0 (hb_marks hhdr) in
  let m := <[divWORDSZ n_marks :=
              Z.lor (wrap64 (Z.shiftl (Z.shiftl 1 (modWORDSZ n_marks) - 1) 1)) 1]> m in
  set_hb_marks (HBLK_OBJS sz) m hhdr.

(** The general routines, on the header of the block of [p]; [h] is the block
    address. *)
Definition bit_of (p : Z) (hhdr : hdr) : Z := MARK_BIT_NO (p - HBLKPTR p) (hb_sz hhdr).

Definition GC_set_mark_bit (p : Z) (hhdr : hdr) : hdr :=
  let bit_no := bit_of p hhdr in
  if negb (mark_bit_from_hdr hhdr bit_no) then
    let hhdr := set_mark_bit_from_hdr bit_no hhdr in
    set_hb_marks (hb_n_marks hhdr + 1) (hb_marks hhdr) hhdr
  else hhdr.

Definition GC_clear_mark_bit (p : Z) (hhdr : hdr) : hdr :=
  let bit_no := bit_of p hhdr in
  if mark_bit_from_hdr hhdr bit_no then
    let n_marks := hb_n_marks hhdr in
    let hhdr := clear_mark_bit_from_hdr bit_no hhdr in
    set_hb_marks (n_marks - 1) (hb_marks hhdr) hhdr
  else hhdr.

Definition GC_is_marked (p : Z) (hhdr : hdr) : bool := mark_bit_from_hdr hhdr (bit_of p hhdr).

(** [clear_marks_for_block]: uncollectable objects keep their marks. *)
Definition IS_UNCOLLECTABLE (kind : Z) : bool := Z.land kind (Z.lnot 1) =? 2.

Definition clear_marks_for_block (hhdr : hdr) : hdr :=
  if IS_UNCOLLECTABLE (hb_obj_kind hhdr) then hhdr else GC_clear_hdr_marks hhdr.

(** ** The bits *)

Lemma mark_bit_testbit (x : hdr) (n : Z) :
  mark_bit_from_hdr x n = Z.testbit (aget (hb_marks x) (n / 64)) (n mod 64).
Proof.
  unfold mark_bit_from_hdr, divWORDSZ, CPP_WORDSZ. gc_arith. apply shiftr_land_1. dlia.
Qed.

Lemma mark_bit_set (x : hdr) (n k : Z) :
  mark_bit_from_hdr (set_mark_bit_from_hdr n x) k = bool_decide (n = k) || mark_bit_from_hdr x k.
Proof.
  rewrite !mark_bit_testbit. unfold set_mark_bit_from_hdr, divWORDSZ, CPP_WORDSZ. cbn [hb_marks set_hb_marks].
  rewrite modWORDSZ_mod. apply bit_set_word.
Qed.

Lemma mark_bit_clear (x : hdr) (n k : Z) :
  mark_bit_from_hdr (clear_mark_bit_from_hdr n x) k = negb (bool_decide (n = k)) && mark_bit_from_hdr x k.
Proof.
  rewrite !mark_bit_testbit. unfold clear_mark_bit_from_hdr, divWORDSZ, CPP_WORDSZ.
  cbn [hb_marks set_hb_marks]. rewrite modWORDSZ_mod. apply bit_clear_word.
Qed.

Lemma mark_bit_frame (x : hdr) (c : Z) (n : Z) :
  mark_bit_from_hdr (set_hb_marks c (hb_marks x) x) n = mark_bit_from_hdr x n.
Proof. done. Qed.

Lemma mark_bit_none (x : hdr) (c n : Z) : mark_bit_from_hdr (set_hb_marks c ∅ x) n = false.
Proof. rewrite mark_bit_testbit. cbn. rewrite aget_empty. apply Z.testbit_0_l. Qed.

Lemma fill_words_get (n : nat) (i j : Z) (m : gmap Z Z) :
  aget (fill_words n i m) j = if decide (i <= j < i + Z.of_nat n) then GC_SIZE_MAX else aget m j.
Proof.
  revert i m. induction n as [|n IH]; intros i m; cbn [fill_words].
  - rewrite decide_False by lia. done.
  - rewrite IH, aget_insert. repeat case_decide; try done; lia.
Qed.

Lemma FINAL_MARK_BIT_range (sz : Z) : 0 < sz -> 0 <= FINAL_MARK_BIT sz <= MARK_BITS_PER_HBLK.
Proof.
  intros Hsz. unfold FINAL_MARK_BIT, HBLK_OBJS, BYTES_TO_GRANULES.
  change MARK_BITS_PER_HBLK with 256. change HBLKSIZE with 4096. change GC_GRANULE_BYTES with 16.
  bcase; [lia|]. pose proof (Z.mul_div_le 4096 sz Hsz). pose proof (Z.div_pos 4096 sz).
  split; [apply Z.div_pos; nia|]. apply Z.div_le_upper_bound; lia.
Qed.

Lemma final_word (k j : Z) :
  0 <= k < 64 -> 0 <= j ->
  Z.testbit (Z.lor (wrap64 (Z.shiftl (Z.shiftl 1 k - 1) 1)) 1) j = bool_decide (j <= k).
Proof.
  intros Hk Hj. unfold wrap64, W64. rewrite Z.lor_spec.
  rewrite Z.shiftl_1_l. replace (2 ^ k - 1) with (Z.ones k) by (rewrite Z.ones_equiv; lia).
  destruct (Z.eq_dec j 0) as [->|Hj0].
  { rewrite (Z.bit0_odd 1). cbn. rewrite orb_true_r. by rewrite bool_decide_true by lia. }
  assert (E1 : Z.testbit 1 j = false) by (rewrite Z.bits_above_log2; [done|lia|cbn; lia]).
  rewrite E1, orb_false_r. destruct (Z.lt_ge_cases j 64).
  - rewrite Z.mod_pow2_bits_low, Z.shiftl_spec by lia.
    rewrite Z.testbit_ones_nonneg by lia. apply eq_true_iff_eq. rewrite Z.ltb_lt, bool_decide_eq_true. lia.
  - rewrite Z.mod_pow2_bits_high by lia. by rewrite bool_decide_false by lia.
Qed.

Lemma clear_marks_bit (x : hdr) (n : Z) :
  mark_bit_from_hdr (GC_clear_hdr_marks x) n = bool_decide (n = FINAL_MARK_BIT (hb_sz x)).
Proof.
  unfold GC_clear_hdr_marks.
  rewrite mark_bit_frame, mark_bit_set, mark_bit_none, orb_false_r. cbn [hb_sz set_hb_marks].
  apply bool_decide_ext. done.
Qed.

(** ** Properties *)

(** Clearing a block's marks leaves exactly the bit past the last object set
    and a count of zero; the other fields are kept. *)
Theorem GC_clear_hdr_marks_correct (x : hdr) (n : Z) :
  mark_bit_from_hdr (GC_clear_hdr_marks x) n = bool_decide (n = FINAL_MARK_BIT (hb_sz x))
  /\ hb_n_marks (GC_clear_hdr_marks x) = 0
  /\ hb_sz (GC_clear_hdr_marks x) = hb_sz x /\ hb_flags (GC_clear_hdr_marks x) = hb_flags x.
Proof. split; [apply clear_marks_bit|done]. Qed.

(** Setting a block's marks sets every bit up to and including the final one,
    and no later bit of the final bit's word. *)
Theorem GC_set_hdr_marks_correct (x : hdr) (n : Z) (Hsz : 0 < hb_sz x) (Hn : 0 <= n) :
  let last := FINAL_MARK_BIT (hb_sz x) in
  (n <= last -> mark_bit_from_hdr (GC_set_hdr_marks x) n = true)
  /\ (last < n -> n / 64 = last / 64 -> mark_bit_from_hdr (GC_set_hdr_marks x) n = false)
  /\ hb_n_marks (GC_set_hdr_marks x) = HBLK_OBJS (hb_sz x).
Proof.
  intros last. pose proof (FINAL_MARK_BIT_range (hb_sz x) Hsz) as Hl. fold last in Hl.
  rewrite !mark_bit_testbit. unfold GC_set_hdr_marks. cbn [hb_marks set_hb_marks]. fold last.
  unfold divWORDSZ, CPP_WORDSZ. rewrite modWORDSZ_mod, aget_insert, fill_words_get.
  split; [|split; [|done]]; intros Hle.
  - case_decide as E1; [rewrite final_word by dlia; apply bool_decide_eq_true; dlia|].
    rewrite decide_True by (rewrite Z2Nat.id by dlia; dlia).
    change GC_SIZE_MAX with (Z.ones 64). apply Z.ones_spec_low. dlia.
  - intros E. rewrite decide_True by done. rewrite final_word by dlia.
    apply bool_decide_eq_false. dlia.
Qed.

Lemma GC_set_hdr_marks_correct_witness :
  let x := Hdr 0 0 4096 1 0 0 48 0 None 0 ∅ in
  FINAL_MARK_BIT 48 = 255 /\ mark_bit_from_hdr (GC_set_hdr_marks x) 252 = true.
Proof.
  cbn zeta. split; [reflexivity|].
  apply (GC_set_hdr_marks_correct (Hdr 0 0 4096 1 0 0 48 0 None 0 ∅) 252); vm_compute; congruence.
Defined.

(** The number of marked bits below the final one. *)
Definition marked_below (x : hdr) (n : Z) : Z :=
  foldr (fun i acc => (if mark_bit_from_hdr x i then 1 else 0) + acc) 0 (seqZ 0 n).

Lemma marked_sum_ext (f g : Z -> Z) (l : list Z) :
  (forall i, i ∈ l -> f i = g i) ->
  foldr (fun i acc => f i + acc) 0 l = foldr (fun i acc => g i + acc) 0 l.
Proof.
  induction l as [|a l IH]; intros E; [done|]. cbn. rewrite (E a) by (by left). f_equal.
  apply IH. intros i Hi. apply E. by right.
Qed.

Lemma marked_below_change (x y : hdr) (n k d : Z) :
  0 <= k < n -> (forall i, i <> k -> mark_bit_from_hdr y i = mark_bit_from_hdr x i) ->
  (if mark_bit_from_hdr y k then 1 else 0) = (if mark_bit_from_hdr x k then 1 else 0) + d ->
  marked_below y n = marked_below x n + d.
Proof.
  intros Hk Hother Hd. unfold marked_below.
  assert (Hin : k ∈ seqZ 0 n) by (apply elem_of_seqZ; lia).
  assert (Hnd : NoDup (seqZ 0 n)) by apply NoDup_seqZ.
  revert Hin Hnd. generalize (seqZ 0 n). intros l. induction l as [|a l IH]; intros Hin Hnd.
  { by apply elem_of_nil in Hin. }
  cbn. inversion Hnd as [|? ? Ha Hnd']; subst. apply elem_of_cons in Hin as [<-|Hin].
  - rewrite Hd. erewrite (marked_sum_ext _ (fun i => if mark_bit_from_hdr x i then 1 else 0)); [lia|].
    intros i Hi. cbn. rewrite Hother; [done|]. by intros ->.
  - rewrite (IH Hin Hnd'), Hother; [lia|]. by intros ->.
Qed.

(** Marking and unmarking an object keep the mark count exact: the count of
    set bits below the final bit always equals [hb_n_marks], and only the bit of
    the object changes. *)
Theorem mark_count_exact (x : hdr) (p : Z)
    (Hb : bit_of p x < FINAL_MARK_BIT (hb_sz x))
    (Hc : hb_n_marks x = marked_below x (FINAL_MARK_BIT (hb_sz x))) :
  let final := FINAL_MARK_BIT (hb_sz x) in
  GC_is_marked p (GC_set_mark_bit p x) = true
  /\ hb_n_marks (GC_set_mark_bit p x) = marked_below (GC_set_mark_bit p x) final
  /\ GC_is_marked p (GC_clear_mark_bit p x) = false
  /\ hb_n_marks (GC_clear_mark_bit p x) = marked_below (GC_clear_mark_bit p x) final.
Proof.
  intros final. assert (Hb0 : 0 <= bit_of p x).
  { unfold bit_of, MARK_BIT_NO, BYTES_TO_GRANULES, GC_GRANULE_BYTES. gc_arith. dlia. }
  unfold GC_is_marked, GC_set_mark_bit, GC_clear_mark_bit.
  set (k := bit_of p x) in *.
  destruct (mark_bit_from_hdr x k) eqn:E; cbn [negb].
  - split; [done|]. split; [done|].
    split; [change (bit_of p _) with k; rewrite mark_bit_frame, mark_bit_clear; by rewrite bool_decide_true|].
    rewrite (marked_below_change x _ final k (-1)); [cbn [hb_n_marks set_hb_marks clear_mark_bit_from_hdr]; fold final in Hc; lia|done|..].
    + intros i Hi. rewrite mark_bit_frame, mark_bit_clear. by rewrite bool_decide_false.
    + rewrite mark_bit_frame, mark_bit_clear, bool_decide_true by done. cbn. by rewrite E.
  - split; [change (bit_of p _) with k; rewrite mark_bit_frame, mark_bit_set; by rewrite bool_decide_true|].
    split; [|split; [done|done]].
    rewrite (marked_below_change x _ final k 1); [cbn [hb_n_marks set_hb_marks set_mark_bit_from_hdr]; fold final in Hc; lia|done|..].
    + intros i Hi. rewrite mark_bit_frame, mark_bit_set. by rewrite bool_decide_false.
    + rewrite mark_bit_frame, mark_bit_set, bool_decide_true by done. cbn. by rewrite E.
Qed.

Definition sample_block : hdr := GC_clear_hdr_marks (Hdr 0 0 4096 1 0 0 48 0 None 0 ∅).

Lemma mark_count_exact_witness :
  bit_of 4144 sample_block = 3
  /\ GC_is_marked 4144 (GC_set_mark_bit 4144 sample_block) = true.
Proof.
  split; [vm_compute; reflexivity|].
  assert (H1 : bit_of 4144 sample_block < FINAL_MARK_BIT (hb_sz sample_block)) by (vm_compute; reflexivity).
  assert (H2 : hb_n_marks sample_block = marked_below sample_block (FINAL_MARK_BIT (hb_sz sample_block)))
    by (vm_compute; reflexivity).
  exact (proj1 (mark_count_exact sample_block 4144 H1 H2)).
Defined.

End MarkBits.
