(* ===== verification/ObjMap.v ===== *)
(** * Object maps and registered displacements (new_hblk.c)

    [GC_obj_map[lg]] tells, for each granule of a block of objects of [lg]
    granules, how far into its object the granule lies; entry 0 serves large
    blocks.  Maps are built on demand in scratch memory.  [GC_valid_offsets]
    records which displacements inside objects count as valid pointers. *)

From Stdlib Require Import ZArith Lia.
From stdpp Require Import base gmap list.
From S2P Require Import Prelude Scratch Hblk Headers HeadersNav HdrIface.

Module ObjMap.
Import HdrIface.

Definition OBJ_MAP_LEN : Z := BYTES_TO_GRANULES HBLKSIZE.
Definition sizeof_hb_map_entry : Z := 1.
Definition VALID_OFFSET_SZ : Z := HBLKSIZE.

(** The value stored at [displ]; entries are bytes. *)
Definition map_entry (lg displ : Z) : Z := if lg =? 0 then 1 else (displ mod lg) mod 256.

Definition new_map (lg : Z) : list Z := map_entry lg <$> seqZ 0 OBJ_MAP_LEN.

Section ObjMap.
Context {T : Type} `{HeaderTable T}.

Definition GC_add_map_entry (lg : Z) (om : gmap Z (list Z)) (t : T)
    : option (bool * gmap Z (list Z) * T) :=
  let lg := if MAXOBJGRANULES <? lg then 0 else lg in
  match om !! lg with
  | Some _ => Some (true, om, t)
  | None =>
    '(p, t) ← ht_scratch_alloc (OBJ_MAP_LEN * sizeof_hb_map_entry) t;
    if p =? NULL then Some (false, om, t)
    else Some (true, <[lg := new_map lg]> om, t)
  end.

(** Every map present is the right one. *)
Definition obj_map_ok (om : gmap Z (list Z)) : Prop :=
  forall lg m, om !! lg = Some m -> 0 <= lg <= MAXOBJGRANULES /\ m = new_map lg.

Context `{!HeaderTableLaws T}.

Lemma add_map_entry_spec (lg : Z) (om : gmap Z (list Z)) (t : T) :
  ht_wf t -> obj_map_ok om -> 0 <= lg ->
  exists ok om' t', GC_add_map_entry lg om t = Some (ok, om', t')
    /\ ht_wf t' /\ same_table t t' /\ (ht_clean t -> ht_clean t') /\ obj_map_ok om'
    /\ (forall k, is_Some (om !! k) -> om' !! k = om !! k)
    /\ (ok = true -> om' !! (if MAXOBJGRANULES <? lg then 0 else lg)
                     = Some (new_map (if MAXOBJGRANULES <? lg then 0 else lg))).
Proof.
  intros Hwf Hom Hlg. unfold GC_add_map_entry. set (g := if MAXOBJGRANULES <? lg then 0 else lg).
  assert (Hg : 0 <= g <= MAXOBJGRANULES).
  { unfold g. destruct (Z.ltb_spec MAXOBJGRANULES lg); [by vm_compute|lia]. }
  destruct (om !! g) as [m|] eqn:E.
  - exists true, om, t. destruct (Hom g m E) as [_ ->]. by split_and!.
  - destruct (hl_scratch t (OBJ_MAP_LEN * sizeof_hb_map_entry) Hwf) as (p & t' & -> & W & S & C);
      [by vm_compute|]. cbn. destruct (p =? NULL).
    + by exists false, om, t'.
    + exists true, (<[g := new_map g]> om), t'. split_and!; try done.
      * intros k m. rewrite lookup_insert. case_decide; [intros [= <-]; by subst|apply Hom].
      * intros k Hk. rewrite lookup_insert_ne; [done|]. intros <-. rewrite E in Hk. by destruct Hk.
      * intros _. by rewrite lookup_insert_eq.
Qed.

(** [GC_add_map_entry] returns; it reports failure only without having
    changed any map, and on success the map for the size exists and is right:
    at every granule of the block it holds the distance, in granules, to the
    start of the object containing it.  The header table is untouched. *)
Theorem GC_add_map_entry_correct (lg : Z) (om : gmap Z (list Z)) (t : T)
    (Hwf : ht_wf t) (Hom : obj_map_ok om) (Hlg : 0 < lg <= MAXOBJGRANULES) :
  exists ok om' t', GC_add_map_entry lg om t = Some (ok, om', t')
    /\ ht_wf t' /\ same_table t t' /\ obj_map_ok om'
    /\ (ok = true -> exists m, om' !! lg = Some m
        /\ forall displ e, m !! displ = Some e ->
             0 <= e < lg /\ exists k, Z.of_nat displ = k * lg + e).
Proof.
  destruct (add_map_entry_spec lg om t Hwf Hom) as (ok & om' & t' & E & W & S & _ & O & _ & Hok); [lia|].
  exists ok, om', t'. split_and!; try done. intros Ht. specialize (Hok Ht).
  assert (Eg : (if MAXOBJGRANULES <? lg then 0 else lg) = lg).
  { destruct (Z.ltb_spec MAXOBJGRANULES lg); [lia|done]. }
  rewrite Eg in Hok. exists (new_map lg). split; [done|].
  intros displ e He. unfold new_map in He. rewrite list_lookup_fmap in He.
  destruct (seqZ 0 OBJ_MAP_LEN !! displ) as [d|] eqn:Ed; [|done]. injection He as <-.
  apply lookup_seqZ in Ed as [-> Hd]. unfold map_entry.
  destruct (Z.eqb_spec lg 0) as [|_]; [lia|].
  assert (MAXOBJGRANULES = 128) by reflexivity.
  pose proof (Z.mod_pos_bound (0 + Z.of_nat displ) lg).
  rewrite (Z.mod_small ((0 + Z.of_nat displ) mod lg) 256) by lia.
  split; [lia|]. exists ((0 + Z.of_nat displ) / lg).
  pose proof (Z.div_mod (0 + Z.of_nat displ) lg). lia.
Qed.

End ObjMap.

(** *** Valid displacements *)

Record offsets := Offsets {
  valid_offsets : gmap Z bool;
  modws_valid_offsets : gmap Z bool
}.

Definition GC_valid_offsets (o : offsets) (i : Z) : bool := default false (valid_offsets o !! i).
Definition GC_modws_valid_offsets (o : offsets) (i : Z) : bool :=
  default false (modws_valid_offsets o !! i).

(** [None] is the source's [ABORT]. *)
Definition GC_register_displacement_inner (offset : Z) (o : offsets) : option offsets :=
  if VALID_OFFSET_SZ <=? offset then None
  else Some (if negb (GC_valid_offsets o offset)
             then Offsets (<[offset := true]> (valid_offsets o))
                          (<[offset mod 8 := true]> (modws_valid_offsets o))
             else o).

Fixpoint fill_offsets (n : nat) (i : Z) (b : bool) (m : gmap Z bool) : gmap Z bool :=
  match n with
  | O => m
  | S n => fill_offsets n (i + 1) b (<[i := b]> m)
  end.

Definition GC_initialize_offsets (all_interior : bool) (o : offsets) : offsets :=
  if all_interior
  then Offsets (fill_offsets (Z.to_nat VALID_OFFSET_SZ) 0 true (valid_offsets o)) (modws_valid_offsets o)
  else Offsets ∅ (fill_offsets 8 0 false (modws_valid_offsets o)).

(** The word-granular table summarises the byte-granular one. *)
Definition offsets_ok (o : offsets) : Prop :=
  forall i, 0 <= i -> GC_valid_offsets o i = true -> GC_modws_valid_offsets o (i mod 8) = true.

Lemma fill_offsets_get (n : nat) (i j : Z) (b : bool) (m : gmap Z bool) :
  default false (fill_offsets n i b m !! j)
  = if decide (i <= j < i + Z.of_nat n) then b else default false (m !! j).
Proof.
  revert i m. induction n as [|n IH]; intros i m; cbn [fill_offsets].
  - by rewrite decide_False by lia.
  - rewrite IH, lookup_insert. repeat case_decide; try done; lia.
Qed.

(** A registered displacement is valid afterwards, also in the summary by
    word offset; no other displacement becomes valid; the summary stays
    complete; an offset outside the table aborts. *)
Theorem GC_register_displacement_correct (offset : Z) (o : offsets)
    (Hok : offsets_ok o) (Hoff : 0 <= offset) :
  (VALID_OFFSET_SZ <= offset -> GC_register_displacement_inner offset o = None)
  /\ (offset < VALID_OFFSET_SZ ->
      exists o', GC_register_displacement_inner offset o = Some o' /\ offsets_ok o'
        /\ GC_valid_offsets o' offset = true
        /\ forall i, i <> offset -> GC_valid_offsets o' i = GC_valid_offsets o i).
Proof.
  unfold GC_register_displacement_inner. split; intros Hlt.
  { by rewrite (proj2 (Z.leb_le _ _) Hlt). }
  rewrite (proj2 (Z.leb_gt _ _) Hlt). eexists. split; [done|].
  destruct (GC_valid_offsets o offset) eqn:E; cbn [negb]; [done|].
  assert (Hv : forall i, GC_valid_offsets (Offsets (<[offset := true]> (valid_offsets o))
      (<[offset mod 8 := true]> (modws_valid_offsets o))) i
    = if decide (offset = i) then true else GC_valid_offsets o i).
  { intros i. unfold GC_valid_offsets. cbn. rewrite lookup_insert. by case_decide. }
  split_and!.
  - intros i Hi. rewrite Hv. unfold GC_modws_valid_offsets. cbn. rewrite lookup_insert.
    case_decide; [subst; by rewrite decide_True|]. intros Hi'. case_decide; [done|]. by apply Hok.
  - rewrite Hv. by rewrite decide_True.
  - intros i Hi. rewrite Hv. by rewrite decide_False.
Qed.

Lemma GC_register_displacement_correct_witness :
  offsets_ok (GC_initialize_offsets false (Offsets ∅ ∅))
  /\ GC_register_displacement_inner 5000 (GC_initialize_offsets false (Offsets ∅ ∅)) = None.
Proof.
  assert (H : offsets_ok (GC_initialize_offsets false (Offsets ∅ ∅))) by (intros i _; done).
  split; [exact H|].
  apply (GC_register_displacement_correct 5000 _ H); vm_compute; congruence.
Defined.

Lemma GC_add_map_entry_correct_witness :
  exists (t : Headers.hdr_state) ok om' t', GC_add_map_entry 3 ∅ t = Some (ok, om', t') /\ obj_map_ok om'.
Proof.
  destruct HeadersNav.sample_nav as (st & _ & Hwf & _).
  destruct (GC_add_map_entry_correct (H := HdrIface.tree_table) 3 ∅ st Hwf)
    as (ok & om' & t' & E & _ & _ & O & _).
  - intros lg m. by rewrite lookup_empty.
  - vm_compute. split; congruence.
  - exists st, ok, om', t'. split; [exact E|exact O].
Defined.

End ObjMap.
