(* ===== verification/Mark.v ===== *)
(** * The marker (mark.c, gc_pmark.h)

    The mark stack holds descriptions of memory ranges that may contain pointers
    to objects not yet looked at.  [GC_mark_from] takes entries off the stack,
    looks for pointers in them, marks the objects they point to and pushes these
    in turn; an entry that does not fit costs [GC_MARK_STACK_DISCARDS] others and
    invalidates the mark state.

    The stack is a list with its top first; [GC_mark_stack_size] bounds its length,
    so [GC_mark_stack_limit] is its size.  Marking writes mark bits, the header
    cache and the black lists only: the memory it reads is a function. *)

From Stdlib Require Import ZArith Lia.
From stdpp Require Import base gmap list.
From S2P Require Import Prelude BlackList Scratch Hblk Headers HeadersNav HdrCache MarkBits ObjMap.

Module Mark.
Import BlackList Scratch Headers HeadersNav HdrCache MarkBits ObjMap.

Definition PTR_BYTES : Z := 8.
Definition SIGNB : Z := 2 ^ 63.
Definition GC_DS_TAG_BITS : Z := 2.
Definition GC_DS_TAGS : Z := Z.shiftl 1 GC_DS_TAG_BITS - 1.
Definition GC_DS_LENGTH : Z := 0.
Definition GC_DS_BITMAP : Z := 1.
Definition GC_DS_PROC : Z := 2.
Definition GC_DS_PER_OBJECT : Z := 3.
Definition GC_INDIR_PER_OBJ_BIAS : Z := 16.
Definition GC_PROC_BYTES : Z := 100.
Definition GC_LOG_MAX_MARK_PROCS : Z := 6.
Definition GC_MAX_MARK_PROCS : Z := Z.shiftl 1 GC_LOG_MAX_MARK_PROCS.
Definition PROC (descr : Z) : Z := Z.land (Z.shiftr descr GC_DS_TAG_BITS) (GC_MAX_MARK_PROCS - 1).
Definition ENV (descr : Z) : Z := Z.shiftr descr (GC_DS_TAG_BITS + GC_LOG_MAX_MARK_PROCS).
Definition INITIAL_MARK_STACK_SIZE : Z := HBLKSIZE.
Definition GC_MARK_STACK_DISCARDS : Z := INITIAL_MARK_STACK_SIZE / 8.
Definition SPLIT_RANGE_PTRS : Z := 128.
Definition PTRS_TO_BYTES (n : Z) : Z := n * PTR_BYTES.

Definition MS_NONE : Z := 0.
Definition MS_PUSH_RESCUERS : Z := 1.
Definition MS_PUSH_UNCOLLECTABLE : Z := 2.
Definition MS_ROOTS_PUSHED : Z := 3.
Definition MS_PARTIALLY_INVALID : Z := 4.
Definition MS_INVALID : Z := 5.

Definition IS_PTRFREE (hhdr : hdr) : bool := 0 =? hb_descr hhdr.
Definition HBLKDISPL (p : Z) : Z := modHBLKSZ p.

(** A mark procedure, given the object and its environment, pushes objects and
    ranges with these operations. *)
Inductive mp_action :=
  | MP_MARK_AND_PUSH (obj : Z)
  | MP_mark_and_push_ptrs (to : list Z)
  | MP_push_obj_descr (obj descr : Z).

(** The calls that [GC_push_roots] makes for the roots. *)
Inductive root_push :=
  | RP_conditional (bottom top : Z) (all : bool)
  | RP_eager (bottom top : Z)
  | RP_stack (bottom top : Z)
  | RP_one (p : Z).

(** What marking reads and does not change.  [GC_scratch_recycle_inner] hands the
    memory of an old mark stack to the block allocator. *)
Record menv := Menv {
  mem : Z -> Z;
  GC_obj_map : gmap Z (list Z);
  offs : offsets;
  GC_least_plausible_heap_addr : Z;
  GC_greatest_plausible_heap_addr : Z;
  GC_mark_procs : Z -> Z -> Z -> list mp_action;
  GC_page_was_dirty : Z -> bool;
  GC_incremental : bool;
  GC_push_roots_calls : bool -> list root_push;
  GC_scratch_recycle_inner : Z -> Z -> hdr_state -> hdr_state
}.

Record mse := Mse { mse_start : Z; mse_descr : Z }.

Record mk_state := Mk {
  mk_tab : hdr_state;
  mk_bl : bl_state;
  GC_mark_stack : list mse;
  GC_mark_stack_addr : Z;
  GC_mark_stack_size : Z;
  GC_mark_stack_too_small : bool;
  GC_mark_state : Z;
  GC_objects_are_marked : bool;
  GC_scan_ptr : Z
}.

Definition set_tab v s := Mk v (mk_bl s) (GC_mark_stack s) (GC_mark_stack_addr s) (GC_mark_stack_size s)
  (GC_mark_stack_too_small s) (GC_mark_state s) (GC_objects_are_marked s) (GC_scan_ptr s).
Definition set_bl v s := Mk (mk_tab s) v (GC_mark_stack s) (GC_mark_stack_addr s) (GC_mark_stack_size s)
  (GC_mark_stack_too_small s) (GC_mark_state s) (GC_objects_are_marked s) (GC_scan_ptr s).
Definition set_stack v s := Mk (mk_tab s) (mk_bl s) v (GC_mark_stack_addr s) (GC_mark_stack_size s)
  (GC_mark_stack_too_small s) (GC_mark_state s) (GC_objects_are_marked s) (GC_scan_ptr s).
Definition set_stack_addr v s := Mk (mk_tab s) (mk_bl s) (GC_mark_stack s) v (GC_mark_stack_size s)
  (GC_mark_stack_too_small s) (GC_mark_state s) (GC_objects_are_marked s) (GC_scan_ptr s).
Definition set_stack_size v s := Mk (mk_tab s) (mk_bl s) (GC_mark_stack s) (GC_mark_stack_addr s) v
  (GC_mark_stack_too_small s) (GC_mark_state s) (GC_objects_are_marked s) (GC_scan_ptr s).
Definition set_too_small v s := Mk (mk_tab s) (mk_bl s) (GC_mark_stack s) (GC_mark_stack_addr s) (GC_mark_stack_size s)
  v (GC_mark_state s) (GC_objects_are_marked s) (GC_scan_ptr s).
Definition set_mark_state v s := Mk (mk_tab s) (mk_bl s) (GC_mark_stack s) (GC_mark_stack_addr s) (GC_mark_stack_size s)
  (GC_mark_stack_too_small s) v (GC_objects_are_marked s) (GC_scan_ptr s).
Definition set_marked v s := Mk (mk_tab s) (mk_bl s) (GC_mark_stack s) (GC_mark_stack_addr s) (GC_mark_stack_size s)
  (GC_mark_stack_too_small s) (GC_mark_state s) v (GC_scan_ptr s).
Definition set_scan v s := Mk (mk_tab s) (mk_bl s) (GC_mark_stack s) (GC_mark_stack_addr s) (GC_mark_stack_size s)
  (GC_mark_stack_too_small s) (GC_mark_state s) (GC_objects_are_marked s) v.

(** The number of entries: [GC_mark_stack_top - GC_mark_stack + 1]. *)
Definition depth (s : mk_state) : Z := Z.of_nat (length (GC_mark_stack s)).
Definition GC_mark_stack_empty (s : mk_state) : bool := depth s <=? 0.

(** Assigning a header field through its pointer. *)
Definition mk_upd_hdr (v : Z) (f : hdr -> hdr) (s : mk_state) : mk_state :=
  set_tab (set_hdrs (<[v := f (hdr_of (mk_tab s) v)]> (hdrs (mk_tab s))) (mk_tab s)) s.

Section Mark.
Context (E : menv).

(** *** Pushing *)

(** The entries above the discarded ones are lost; the caller writes its own. *)
Definition GC_signal_mark_stack_overflow (s : mk_state) : mk_state :=
  set_stack (drop (Z.to_nat GC_MARK_STACK_DISCARDS) (GC_mark_stack s))
    (set_too_small true (set_mark_state MS_INVALID s)).

Definition GC_ms_push_obj_descr (obj descr : Z) (s : mk_state) : mk_state :=
  let s := if GC_mark_stack_size s <=? depth s then GC_signal_mark_stack_overflow s else s in
  set_stack (Mse obj descr :: GC_mark_stack s) s.

Definition GC_ms_push_obj_hdr (obj : Z) (hhdr : hdr) (s : mk_state) : mk_state :=
  if negb (IS_PTRFREE hhdr) then GC_ms_push_obj_descr obj (hb_descr hhdr) s else s.

(** From the mark bit on; [gran_displ] is the bit and [base] the object. *)
Definition mark_and_push_base (base gran_displ hhdr : Z) (s : mk_state) : mk_state :=
  if mark_bit_from_hdr (hdr_of (mk_tab s) hhdr) gran_displ then s
  else
    let s := mk_upd_hdr hhdr (set_mark_bit_from_hdr gran_displ) s in
    let s := mk_upd_hdr hhdr (fun x => set_hb_marks (hb_n_marks x + 1) (hb_marks x) x) s in
    GC_ms_push_obj_hdr base (hdr_of (mk_tab s) hhdr) s.

Definition add_normal (p : Z) (s : mk_state) : mk_state :=
  set_bl (GC_ADD_TO_BLACK_LIST_NORMAL (hdr_is_null (mk_tab s)) p (mk_bl s)) s.
Definition add_stack (p : Z) (s : mk_state) : mk_state :=
  set_bl (GC_add_to_black_list_stack (hdr_is_null (mk_tab s)) p (mk_bl s)) s.

(** [None]: the header has no object map, or the map does not exist. *)
Definition GC_ms_push_contents_hdr (current hhdr : Z) (do_offset_check : bool) (s : mk_state)
    : option mk_state :=
  let hd := hdr_of (mk_tab s) hhdr in
  let displ := HBLKDISPL current in
  let gran_displ := BYTES_TO_GRANULES displ in
  m ← hb_map hd; l ← GC_obj_map E !! m;
  gran_offset ← l !! Z.to_nat gran_displ;
  let byte_offset := Z.land displ (GC_GRANULE_BYTES - 1) in
  if negb (Z.lor gran_offset byte_offset =? 0) then
    if flag_set (hb_flags hd) LARGE_BLOCK then
      let base := hb_block hd in
      let obj_displ := current - base in
      if (obj_displ =? displ) && do_offset_check && negb (GC_valid_offsets (offs E) obj_displ)
      then Some (add_normal current s)
      else Some (mark_and_push_base base 0 hhdr s)
    else
      let obj_displ := GRANULES_TO_BYTES gran_offset + byte_offset in
      if do_offset_check && negb (GC_valid_offsets (offs E) obj_displ)
      then Some (add_normal current s)
      else Some (mark_and_push_base (current - obj_displ) (gran_displ - gran_offset) hhdr s)
  else Some (mark_and_push_base current gran_displ hhdr s).

Definition PUSH_CONTENTS (current : Z) (s : mk_state) : option mk_state :=
  '(hhdr, tab, bl) ← HC_GET_HDR current (mk_tab s) (mk_bl s);
  let s := set_bl bl (set_tab tab s) in
  if hhdr =? NULL then Some s else GC_ms_push_contents_hdr current hhdr true s.

Definition plausible (q : Z) : bool :=
  (GC_least_plausible_heap_addr E <? q) && (q <? GC_greatest_plausible_heap_addr E).

(** The object [p] points into, after initialisation. *)
Definition GC_base (tab : hdr_state) (p : Z) : option Z :=
  hhdr ← GET_HDR tab p;
  if hhdr =? NULL then Some NULL
  else
    '(h, hhdr, r) ← (if IS_FORWARDING_ADDR_OR_NIL hhdr
                     then '(h, hhdr) ← GC_find_starting_hblk tab (HBLKPTR p) hhdr; Some (h, hhdr, h)
                     else Some (HBLKPTR p, hhdr, p));
    let hd := hdr_of tab hhdr in
    if HBLK_IS_FREE hd then Some NULL
    else
      let r := PTR_ALIGN_DOWN r PTR_BYTES in
      let sz := hb_sz hd in
      let r := r - HBLKDISPL r mod sz in
      let limit := r + sz in
      if ((h + HBLKSIZE <? limit) && (sz <=? HBLKSIZE)) || (limit <=? p) then Some NULL else Some r.

Definition GC_mark_and_push (obj : Z) (s : mk_state) : option mk_state :=
  hhdr ← GET_HDR (mk_tab s) obj;
  hhdr ← (if IS_FORWARDING_ADDR_OR_NIL hhdr then
            if negb (GC_all_interior_pointers (mk_bl s)) then Some NULL
            else base ← GC_base (mk_tab s) obj; GC_find_header (mk_tab s) base
          else Some hhdr);
  if (hhdr =? NULL) || HBLK_IS_FREE (hdr_of (mk_tab s) hhdr) then Some (add_normal obj s)
  else GC_ms_push_contents_hdr obj hhdr true s.

Definition GC_MARK_AND_PUSH (obj : Z) (s : mk_state) : option mk_state :=
  if plausible obj then GC_mark_and_push obj s else Some s.

(** The first test is [IS_FORWARDING_ADDR_OR_NIL]; a forwarding count sends the
    search to the object's first block. *)
Definition GC_mark_and_push_stack (p : Z) (s : mk_state) : option mk_state :=
  hhdr ← GET_HDR (mk_tab s) p;
  '(r, hhdr) ← (if IS_FORWARDING_ADDR_OR_NIL hhdr then
                  if hhdr =? NULL then Some (p, NULL)
                  else
                    r ← GC_base (mk_tab s) p;
                    if r =? NULL then Some (r, NULL)
                    else hhdr ← GET_HDR (mk_tab s) r; Some (r, hhdr)
                else Some (p, hhdr));
  if hhdr =? NULL then Some (add_stack p s)
  else if HBLK_IS_FREE (hdr_of (mk_tab s) hhdr) then Some (add_normal p s)
  else GC_ms_push_contents_hdr r hhdr false s.

Definition GC_PUSH_ONE_STACK (p : Z) (s : mk_state) : option mk_state :=
  if plausible p then GC_mark_and_push_stack p s else Some s.
Definition GC_PUSH_ONE_HEAP (p : Z) (s : mk_state) : option mk_state :=
  if plausible p then GC_mark_and_push p s else Some s.

(** [arr] without the addresses the values come from. *)
Fixpoint GC_mark_and_push_ptrs (arr : list Z) (s : mk_state) : option mk_state :=
  match arr with
  | [] => Some s
  | q :: arr => s ← (if plausible q then PUSH_CONTENTS q s else Some s); GC_mark_and_push_ptrs arr s
  end.

(** The calls a mark procedure makes. *)
Fixpoint run_mark_proc (l : list mp_action) (s : mk_state) : option mk_state :=
  match l with
  | [] => Some s
  | MP_MARK_AND_PUSH obj :: l => s ← GC_MARK_AND_PUSH obj s; run_mark_proc l s
  | MP_mark_and_push_ptrs arr :: l => s ← GC_mark_and_push_ptrs arr s; run_mark_proc l s
  | MP_push_obj_descr obj descr :: l => run_mark_proc l (GC_ms_push_obj_descr obj descr s)
  end.

(** *** [GC_mark_from] *)

(** The loop at [retry]: per-object descriptors are fetched until there is one to
    process; [None] when the object is to be skipped. *)
Definition retry_body (current_p descr : Z) : Z + option Z :=
  if Z.land descr GC_DS_TAGS =? GC_DS_PER_OBJECT then
    if Z.land descr SIGNB =? 0 then
      let descr := mem E (wrap64 (current_p + descr - GC_DS_PER_OBJECT)) in
      if descr =? 0 then inr None else inl descr
    else
      let type_descr := mem E current_p in
      if type_descr =? NULL then inr None
      else
        let descr := mem E (wrap64 (type_descr
                       - (signed64 descr + (GC_INDIR_PER_OBJ_BIAS - GC_DS_PER_OBJECT)))) in
        if descr =? 0 then inr None else inl descr
  else inr (Some descr).
Definition retry (current_p descr : Z) : option (option Z) := loop (retry_body current_p) descr.

(** The [for (;;)] that looks for a last plausible pointer, unrolled once as in the
    source; [None] is [goto next_object], otherwise the pointer and [limit]. *)
Definition defer_body (current_p limit : Z) : Z + option (Z * Z) :=
  let deferred := mem E limit in
  let limit := limit - ALIGNMENT in
  if plausible deferred then inr (Some (deferred, limit))
  else if limit <? current_p then inr None
  else
    let deferred := mem E limit in
    let limit := limit - ALIGNMENT in
    if plausible deferred then inr (Some (deferred, limit))
    else if limit <? current_p then inr None
    else inl limit.
Definition defer (current_p limit : Z) : option (option (Z * Z)) := loop (defer_body current_p) limit.

(** The [for] over the rest of the range. *)
Definition scan_body (limit : Z) (x : Z * mk_state) : (Z * mk_state) + option mk_state :=
  let '(current_p, s) := x in
  if current_p <=? limit then
    let q := mem E current_p in
    match (if plausible q then PUSH_CONTENTS q s else Some s) with
    | None => inr None
    | Some s => inl (current_p + ALIGNMENT, s)
    end
  else inr (Some s).
Definition scan_words (current_p limit : Z) (s : mk_state) : option mk_state :=
  r ← loop (scan_body limit) (current_p, s); r.

(** A range of words; [limit] is the address of the last one. *)
Definition scan_range (current_p limit : Z) (s : mk_state) : option mk_state :=
  d ← defer current_p limit;
  match d with
  | None => Some s
  | Some (deferred, limit) => s ← scan_words current_p limit s; PUSH_CONTENTS deferred s
  end.

(** The [for] over the bits of a bitmap descriptor. *)
Definition bitmap_body (x : Z * Z * mk_state) : (Z * Z * mk_state) + option mk_state :=
  let '(descr, current_p, s) := x in
  if descr =? 0 then inr (Some s)
  else
    let next s := inl (wrap64 (Z.shiftl descr 1), current_p + PTR_BYTES, s) in
    if Z.land descr SIGNB =? 0 then next s
    else
      let q := mem E current_p in
      match (if plausible q then PUSH_CONTENTS q s else Some s) with
      | None => inr None
      | Some s => next s
      end.
Definition scan_bitmap (descr current_p : Z) (s : mk_state) : option mk_state :=
  r ← loop bitmap_body (descr, current_p, s); r.

(** The treatment of an entry that has been taken off the stack, once its
    descriptor is known; the result has the decrease of [credit].  A large range
    puts its rest back. *)
Definition mark_entry (current_p descr : Z) (s : mk_state) : option (Z * mk_state) :=
  if negb (Z.land descr (Z.lor (Z.lxor GC_SIZE_MAX (PTRS_TO_BYTES SPLIT_RANGE_PTRS - 1)) GC_DS_TAGS) =? 0)
  then
    let tag := Z.land descr GC_DS_TAGS in
    if tag =? GC_DS_LENGTH then
      let limit := current_p + PTRS_TO_BYTES (SPLIT_RANGE_PTRS - 1) in
      let s := set_stack (Mse limit (descr - PTRS_TO_BYTES (SPLIT_RANGE_PTRS - 1)) :: GC_mark_stack s) s in
      let limit := limit + (PTR_BYTES - ALIGNMENT) in
      s ← scan_range current_p (limit - PTR_BYTES) s;
      Some (limit - current_p, s)
    else if tag =? GC_DS_BITMAP then
      s ← scan_bitmap (Z.land descr (Z.lxor GC_SIZE_MAX GC_DS_TAGS)) current_p s;
      Some (PTRS_TO_BYTES (CPP_WORDSZ / 2), s)
    else
      s ← run_mark_proc (GC_mark_procs E (PROC descr) current_p (ENV descr)) s;
      Some (GC_PROC_BYTES, s)
  else if descr <? PTR_BYTES then Some (0, s)
  else
    s ← scan_range current_p (current_p + descr - PTR_BYTES) s;
    Some (descr, s).

(** The outer loop goes on while there are entries and credit is not negative. *)
Definition mark_from_body (x : Z * mk_state) : (Z * mk_state) + option mk_state :=
  let '(credit, s) := x in
  match GC_mark_stack s with
  | [] => inr (Some s)
  | e :: rest =>
    if credit <? 0 then inr (Some s)
    else
      match retry (mse_start e) (mse_descr e) with
      | None => inr None
      | Some None => inl (credit, set_stack rest s)
      | Some (Some descr) =>
        match mark_entry (mse_start e) descr (set_stack rest s) with
        | None => inr None
        | Some (c, s) => inl (credit - c, s)
        end
      end
  end.

Definition GC_mark_from (s : mk_state) : option mk_state :=
  r ← loop mark_from_body (HBLKSIZE, set_marked true s); r.
Definition MARK_FROM_MARK_STACK (s : mk_state) : option mk_state := GC_mark_from s.

(** *** Pushing ranges *)

Definition GC_ms_push_all (bottom top : Z) (s : mk_state) : mk_state :=
  let bottom := PTR_ALIGN_UP bottom ALIGNMENT in
  let top := PTR_ALIGN_DOWN top ALIGNMENT in
  if top <=? bottom then s
  else GC_ms_push_obj_descr bottom (Z.lor (top - bottom) GC_DS_LENGTH) s.
Definition GC_push_all (bottom top : Z) (s : mk_state) : mk_state := GC_ms_push_all bottom top s.
Definition GC_push_obj_descr (obj descr : Z) (s : mk_state) : mk_state := GC_ms_push_obj_descr obj descr s.

(** [GC_mark_stack_top - GC_mark_stack] compared as an unsigned word: an empty
    stack counts as full. *)
Definition near_full (s : mk_state) : bool :=
  3 * GC_mark_stack_size s / 4 <? wrap64 (depth s - 1).

(** The blocks between the first and the last; the result says whether the rest of
    the range has been pushed. *)
Definition selected_body (dirty_fn : Z -> bool) (top : Z) (x : Z * mk_state)
    : (Z * mk_state) + (Z * bool * mk_state) :=
  let '(h, s) := x in
  if h + HBLKSIZE <=? top then
    if dirty_fn h then
      if near_full s then inr (h, true, GC_push_all h top s)
      else inl (h + HBLKSIZE, GC_push_all h (h + HBLKSIZE) s)
    else inl (h + HBLKSIZE, s)
  else inr (h, false, s).
Definition selected_loop (dirty_fn : Z -> bool) (top h : Z) (s : mk_state) : option (Z * bool * mk_state) :=
  loop (selected_body dirty_fn top) (h, s).

(** From the first block boundary on. *)
Definition push_selected_blocks (dirty_fn : Z -> bool) (h top : Z) (s : mk_state) : option mk_state :=
  '(h, finished, s) ← selected_loop dirty_fn top h s;
  if (finished : bool) then Some s
  else Some (if negb (h =? top) && dirty_fn h then GC_push_all h top s else s).

Definition GC_push_selected (bottom top : Z) (dirty_fn : Z -> bool) (s : mk_state) : option mk_state :=
  let bottom := PTR_ALIGN_UP bottom ALIGNMENT in
  let top := PTR_ALIGN_DOWN top ALIGNMENT in
  if top <=? bottom then Some s
  else
    let h := HBLKPTR (bottom + HBLKSIZE) in
    if top <=? h then Some (if dirty_fn (h - HBLKSIZE) then GC_push_all bottom top s else s)
    else if dirty_fn (h - HBLKSIZE) then
      if near_full s then Some (GC_push_all bottom top s)
      else push_selected_blocks dirty_fn h top (GC_push_all bottom h s)
    else push_selected_blocks dirty_fn h top s.

Definition GC_push_conditional (bottom top : Z) (all : bool) (s : mk_state) : option mk_state :=
  if negb all then GC_push_selected bottom top (GC_page_was_dirty E) s
  else Some (GC_push_all bottom top s).

(** The loop of [GC_push_all_eager]; [lim_addr] is an unsigned word. *)
Definition eager_body (lim_addr : Z) (x : Z * mk_state) : (Z * mk_state) + option mk_state :=
  let '(current_p, s) := x in
  if current_p <=? lim_addr then
    match GC_PUSH_ONE_STACK (mem E current_p) s with
    | None => inr None
    | Some s => inl (current_p + ALIGNMENT, s)
    end
  else inr (Some s).
Definition eager_loop (lim_addr current_p : Z) (s : mk_state) : option mk_state :=
  r ← loop (eager_body lim_addr) (current_p, s); r.

Definition GC_push_all_eager (bottom top : Z) (s : mk_state) : option mk_state :=
  if top =? NULL then Some s
  else eager_loop (wrap64 (PTR_ALIGN_DOWN top ALIGNMENT - PTR_BYTES)) (PTR_ALIGN_UP bottom ALIGNMENT) s.

(** [GC_mark_stack_top < GC_mark_stack_limit - n]. *)
Definition top_below_limit (n : Z) (s : mk_state) : bool := depth s - 1 <? GC_mark_stack_size s - n.

Definition GC_push_all_stack (bottom top : Z) (s : mk_state) : option mk_state :=
  if GC_all_interior_pointers (mk_bl s) && top_below_limit (INITIAL_MARK_STACK_SIZE / 8) s
  then Some (GC_push_all bottom top s)
  else GC_push_all_eager bottom top s.

(** *** Pushing marked objects *)

Definition GC_GRANULE_PTRS : Z := 2.

Definition PUSH_GRANULE (q : Z) (s : mk_state) : option mk_state :=
  s ← GC_PUSH_ONE_HEAP (mem E q) s;
  GC_PUSH_ONE_HEAP (mem E (q + PTR_BYTES)) s.

Fixpoint push_granules (n : nat) (q : Z) (s : mk_state) : option mk_state :=
  match n with
  | O => Some s
  | S n => s ← PUSH_GRANULE q s; push_granules n (q + GC_GRANULE_BYTES) s
  end.

(** [GC_push_marked1], [2] and [4] differ in the number [n] of granules of an
    object.  The inner loop runs over the bits of a mark word. *)
Definition marked_bits_body (n : Z) (x : Z * Z * mk_state) : (Z * Z * mk_state) + option mk_state :=
  let '(mark_word, q, s) := x in
  if mark_word =? 0 then inr (Some s)
  else
    match (if negb (Z.land mark_word 1 =? 0) then push_granules (Z.to_nat n) q s else Some s) with
    | None => inr None
    | Some s => inl (Z.shiftr mark_word n, q + n * GC_GRANULE_BYTES, s)
    end.
Definition marked_bits (n mark_word q : Z) (s : mk_state) : option mk_state :=
  r ← loop (marked_bits_body n) (mark_word, q, s); r.

(** The words are read as the loop gets to them; [hhdr] is the block's header
    pointer, as the objects pushed may be in the same block. *)
Definition marked_words_body (n plim hhdr : Z) (x : Z * Z * mk_state) : (Z * Z * mk_state) + option mk_state :=
  let '(p, i, s) := x in
  if p <? plim then
    let mark_word := aget (hb_marks (hdr_of (mk_tab s) hhdr)) i in
    match marked_bits n mark_word p s with
    | None => inr None
    | Some s => inl (p + CPP_WORDSZ * GC_GRANULE_BYTES, i + 1, s)
    end
  else inr (Some s).
Definition GC_push_marked_n (n h hhdr : Z) (s : mk_state) : option mk_state :=
  r ← loop (marked_words_body n (h + HBLKSIZE) hhdr) (h, 0, s); r.
Definition GC_push_marked1 (h hhdr : Z) (s : mk_state) : option mk_state := GC_push_marked_n 1 h hhdr s.
Definition GC_push_marked2 (h hhdr : Z) (s : mk_state) : option mk_state := GC_push_marked_n 2 h hhdr s.
Definition GC_push_marked4 (h hhdr : Z) (s : mk_state) : option mk_state := GC_push_marked_n 4 h hhdr s.

(** The address of the last object of the block, for a block of small objects. *)
Definition last_object (h sz : Z) : Z := if MAXOBJBYTES <? sz then h else h + HBLKSIZE - sz.

Definition push_marked_body (sz plim hhdr : Z) (x : Z * Z * mk_state) : (Z * Z * mk_state) + mk_state :=
  let '(p, bit_no, s) := x in
  if p <=? plim then
    let hd := hdr_of (mk_tab s) hhdr in
    inl (p + sz, bit_no + MARK_BIT_OFFSET sz,
         if mark_bit_from_hdr hd bit_no then GC_ms_push_obj_hdr p hd s else s)
  else inr s.
Definition push_marked_loop (h sz hhdr : Z) (s : mk_state) : option mk_state :=
  loop (push_marked_body sz (last_object h sz) hhdr) (h, 0, s).

Definition GC_push_marked (h hhdr : Z) (s : mk_state) : option mk_state :=
  let hd := hdr_of (mk_tab s) hhdr in
  let sz := hb_sz hd in
  if GC_DS_LENGTH =? hb_descr hd then Some s
  else if hb_n_marks hd =? 0 then Some s
  else
    let s := set_marked true s in
    let lg := if Z.land (hb_descr hd) GC_DS_TAGS =? GC_DS_PROC then 0 else BYTES_TO_GRANULES sz in
    if lg =? 1 then GC_push_marked1 h hhdr s
    else if lg =? 2 then GC_push_marked2 h hhdr s
    else if lg =? 4 then GC_push_marked4 h hhdr s
    else push_marked_loop h sz hhdr s.

Definition push_uncond_body (sz plim : Z) (hd : hdr) (x : Z * mk_state) : (Z * mk_state) + mk_state :=
  let '(p, s) := x in
  if p <=? plim then
    inl (p + sz, if negb (Z.land (mem E p) 3 =? 0) then GC_ms_push_obj_hdr p hd s else s)
  else inr s.
Definition push_uncond_loop (h : Z) (hd : hdr) (s : mk_state) : option mk_state :=
  loop (push_uncond_body (hb_sz hd) (last_object h (hb_sz hd)) hd) (h, s).

Definition GC_push_unconditionally (h hhdr : Z) (s : mk_state) : option mk_state :=
  let hd := hdr_of (mk_tab s) hhdr in
  if GC_DS_LENGTH =? hb_descr hd then Some s
  else push_uncond_loop h hd (set_marked true s).

Definition was_dirty_body (lim p : Z) : Z + bool :=
  if p <? lim then if GC_page_was_dirty E p then inr true else inl (p + HBLKSIZE)
  else inr false.
Definition GC_block_was_dirty (h : Z) (hd : hdr) : option bool :=
  let sz := hb_sz hd in
  if sz <=? MAXOBJBYTES then Some (GC_page_was_dirty E h)
  else loop (was_dirty_body (h + sz)) h.

(** The next block in use at or after [h] with its header; [NULL] if none. *)
Definition next_in_use (tab : hdr_state) (h : Z) : option (Z * Z) :=
  hhdr ← GET_HDR tab h;
  if IS_FORWARDING_ADDR_OR_NIL hhdr || HBLK_IS_FREE (hdr_of tab hhdr) then
    h ← GC_next_block tab h false;
    if h =? NULL then Some (NULL, NULL)
    else hhdr ← GC_find_header tab h; Some (h, hhdr)
  else Some (h, hhdr).

Definition after_block (tab : hdr_state) (h hhdr : Z) : Z :=
  h + OBJ_SZ_TO_BLOCKS (hb_sz (hdr_of tab hhdr)) * HBLKSIZE.

Definition GC_push_next_marked (h : Z) (s : mk_state) : option (Z * mk_state) :=
  '(h, hhdr) ← next_in_use (mk_tab s) h;
  if h =? NULL then Some (NULL, s)
  else
    s ← GC_push_marked h hhdr s;
    Some (after_block (mk_tab s) h hhdr, s).

(** The search for a dirty block. *)
Definition dirty_body (tab : hdr_state) (h : Z) : Z + option (Z * Z) :=
  match next_in_use tab h with
  | None => inr None
  | Some (h, hhdr) =>
    if h =? NULL then inr (Some (NULL, NULL))
    else match GC_block_was_dirty h (hdr_of tab hhdr) with
         | None => inr None
         | Some true => inr (Some (h, hhdr))
         | Some false => inl (after_block tab h hhdr)
         end
  end.
Definition next_dirty (tab : hdr_state) (h : Z) : option (Z * Z) := r ← loop (dirty_body tab) h; r.

(** [None] includes the source's [ABORT]. *)
Definition GC_push_next_marked_dirty (h : Z) (s : mk_state) : option (Z * mk_state) :=
  if negb (GC_incremental E) then None
  else
    '(h, hhdr) ← next_dirty (mk_tab s) h;
    if h =? NULL then Some (NULL, s)
    else
      s ← (if flag_set (hb_flags (hdr_of (mk_tab s) hhdr)) MARK_UNCONDITIONALLY
           then GC_push_unconditionally h hhdr s
           else GC_push_marked h hhdr s);
      Some (after_block (mk_tab s) h hhdr, s).

Definition UNCOLLECTABLE : Z := 2.

(** The search for an uncollectable block, or one to be marked anyway. *)
Definition uncollectable_body (tab : hdr_state) (h : Z) : Z + option (Z * Z) :=
  match next_in_use tab h with
  | None => inr None
  | Some (h, hhdr) =>
    if h =? NULL then inr (Some (NULL, NULL))
    else if (hb_obj_kind (hdr_of tab hhdr) =? UNCOLLECTABLE)
            || flag_set (hb_flags (hdr_of tab hhdr)) MARK_UNCONDITIONALLY
    then inr (Some (h, hhdr))
    else inl (after_block tab h hhdr)
  end.
Definition next_uncollectable (tab : hdr_state) (h : Z) : option (Z * Z) :=
  r ← loop (uncollectable_body tab) h; r.

Definition GC_push_next_marked_uncollectable (h : Z) (s : mk_state) : option (Z * mk_state) :=
  '(h, hhdr) ← next_uncollectable (mk_tab s) h;
  if h =? NULL then Some (NULL, s)
  else
    s ← (if hb_obj_kind (hdr_of (mk_tab s) hhdr) =? UNCOLLECTABLE
         then GC_push_marked h hhdr s else GC_push_unconditionally h hhdr s);
    Some (after_block (mk_tab s) h hhdr, s).

(** *** The mark state *)

(** Of the stack's storage only its address and size matter.  [None] is the
    source's [EXIT]. *)
Definition sizeof_mse : Z := 16.

Definition use_stack (new_stack n : Z) (s : mk_state) : mk_state :=
  set_stack_size n (set_stack_addr new_stack s).

Definition alloc_mark_stack (n : Z) (s : mk_state) : option mk_state :=
  '(new_stack, tab) ← scratch_alloc (wrap64 (n * sizeof_mse)) (mk_tab s);
  let s := set_too_small false (set_tab tab s) in
  s ← (if negb (GC_mark_stack_addr s =? NULL) then
         if negb (new_stack =? NULL) then
           let s := set_tab (GC_scratch_recycle_inner E (GC_mark_stack_addr s)
                               (GC_mark_stack_size s * sizeof_mse) (mk_tab s)) s in
           Some (use_stack new_stack n s)
         else Some s
       else if new_stack =? NULL then None
       else Some (use_stack new_stack n s));
  Some (set_stack [] s).

Definition GC_mark_init (s : mk_state) : option mk_state := alloc_mark_stack INITIAL_MARK_STACK_SIZE s.

Definition GC_invalidate_mark_state (s : mk_state) : mk_state :=
  set_stack [] (set_mark_state MS_INVALID s).

(** [clear_marks_for_block] on every block. *)
Definition GC_clear_marks (s : mk_state) : option mk_state :=
  blocks ← GC_apply_to_all_blocks (mk_tab s);
  let s := foldl (fun s h => mk_upd_hdr (HDRv (mk_tab s) h) clear_marks_for_block s) s blocks in
  Some (set_scan NULL (set_mark_state MS_INVALID (set_marked false s))).

Definition GC_collection_in_progress (s : mk_state) : bool := negb (GC_mark_state s =? MS_NONE).

(** Without the reading of dirty bits. *)
Definition GC_initiate_gc (s : mk_state) : mk_state :=
  set_scan NULL (if GC_mark_state s =? MS_NONE then set_mark_state MS_PUSH_RESCUERS s else s).

Fixpoint run_push_roots (l : list root_push) (s : mk_state) : option mk_state :=
  match l with
  | [] => Some s
  | r :: l =>
    s ← match r with
        | RP_conditional bottom top all => GC_push_conditional bottom top all s
        | RP_eager bottom top => GC_push_all_eager bottom top s
        | RP_stack bottom top => GC_push_all_stack bottom top s
        | RP_one p => GC_PUSH_ONE_STACK p s
        end;
    run_push_roots l s
  end.

Definition push_roots_and_advance (push_all : bool) (s : mk_state) : option mk_state :=
  if negb (GC_scan_ptr s =? NULL) then Some s
  else
    s ← run_push_roots (GC_push_roots_calls E push_all) s;
    let s := set_marked true s in
    Some (if negb (GC_mark_state s =? MS_INVALID) then set_mark_state MS_ROOTS_PUSHED s else s).

Definition grow_if_too_small (s : mk_state) : option mk_state :=
  if GC_mark_stack_too_small s then alloc_mark_stack (2 * GC_mark_stack_size s) s else Some s.

(** The cases of the switch in [GC_mark_some], without a client procedure for the
    empty stack; the result is whether marking is finished. *)
Definition push_rescuers (s : mk_state) : option (bool * mk_state) :=
  s ← (if GC_mark_stack_size s - INITIAL_MARK_STACK_SIZE / 2 <=? depth s - 1
       then MARK_FROM_MARK_STACK (set_too_small true s)
       else
         '(p, s) ← GC_push_next_marked_dirty (GC_scan_ptr s) s;
         push_roots_and_advance false (set_scan p s));
  Some (false, s).

Definition push_uncollectable (s : mk_state) : option (bool * mk_state) :=
  s ← (if GC_mark_stack_size s / 4 <=? depth s - 1
       then MARK_FROM_MARK_STACK s
       else
         '(p, s) ← GC_push_next_marked_uncollectable (GC_scan_ptr s) s;
         push_roots_and_advance true (set_scan p s));
  Some (false, s).

Definition roots_pushed (s : mk_state) : option (bool * mk_state) :=
  if 0 <=? depth s - 1 then s ← MARK_FROM_MARK_STACK s; Some (false, s)
  else s ← grow_if_too_small s; Some (true, set_mark_state MS_NONE s).

Definition rescan (s : mk_state) : option (bool * mk_state) :=
  if negb (GC_objects_are_marked s) then Some (false, set_mark_state MS_PUSH_UNCOLLECTABLE s)
  else if 0 <=? depth s - 1 then s ← MARK_FROM_MARK_STACK s; Some (false, s)
  else
    s ← (if (GC_scan_ptr s =? NULL) && (GC_mark_state s =? MS_INVALID)
         then s ← grow_if_too_small s; Some (set_mark_state MS_PARTIALLY_INVALID s)
         else Some s);
    '(p, s) ← GC_push_next_marked (GC_scan_ptr s) s;
    let s := set_scan p s in
    s ← (if GC_mark_state s =? MS_PARTIALLY_INVALID then push_roots_and_advance true s else Some s);
    Some (false, s).

Definition GC_mark_some (s : mk_state) : option (bool * mk_state) :=
  let ms := GC_mark_state s in
  if ms =? MS_NONE then Some (true, s)
  else if ms =? MS_PUSH_RESCUERS then push_rescuers s
  else if ms =? MS_PUSH_UNCOLLECTABLE then push_uncollectable s
  else if ms =? MS_ROOTS_PUSHED then roots_pushed s
  else if (ms =? MS_INVALID) || (ms =? MS_PARTIALLY_INVALID) then rescan s
  else None.

(** The loop of a stopped-world collection over [GC_mark_some], without time
    limits. *)
Definition mark_all_body (s : mk_state) : mk_state + option mk_state :=
  match GC_mark_some s with
  | None => inr None
  | Some (true, s) => inr (Some s)
  | Some (false, s) => inl s
  end.
Definition mark_all (s : mk_state) : option mk_state := r ← loop mark_all_body s; r.

(** The loop that empties the stack. *)
Definition mark_drain_body (s : mk_state) : mk_state + option mk_state :=
  if GC_mark_stack_empty s then inr (Some s)
  else match MARK_FROM_MARK_STACK s with None => inr None | Some s => inl s end.
Definition mark_drain (s : mk_state) : option mk_state := r ← loop mark_drain_body s; r.

End Mark.
End Mark.
