(* ===== verification/MarkSpec.v ===== *)
(** * What marking means

    The objects of the heap, the object a pointer refers to, the pointers an entry
    of the mark stack describes, and reachability through objects that are not
    marked.  None of this mentions the mark stack's order, the header cache or the
    way ranges are split. *)

From Stdlib Require Import ZArith Lia.
From stdpp Require Import base gmap list.
From S2P Require Import Prelude BlackList Scratch Hblk Headers HeadersNav HdrCache MarkBits ObjMap Mark.

Module MarkSpec.
Import BlackList Scratch Headers HeadersNav HdrCache MarkBits ObjMap Mark.

(** Tables that differ in mark bits and cache only. *)
Definition shape (t t' : hdr_state) : Prop :=
  (forall q, HDRv t' q = HDRv t q)
  /\ forall v, exists n m, hdr_of t' v = set_hb_marks n m (hdr_of t v).

#[export] Instance shape_equiv : Equivalence shape.
Proof.
  split.
  - intros t. split; [done|]. intros v. exists (hb_n_marks (hdr_of t v)), (hb_marks (hdr_of t v)).
    by destruct (hdr_of t v).
  - intros t t' [H1 H2]. split; [done|]. intros v. destruct (H2 v) as (n & m & ->).
    exists (hb_n_marks (hdr_of t v)), (hb_marks (hdr_of t v)). by destruct (hdr_of t v).
  - intros t t' t'' [H1 H2] [H3 H4]. split; [congruence|]. intros v.
    destruct (H2 v) as (n & m & E1), (H4 v) as (n' & m' & ->). exists n', m'. by rewrite E1.
Qed.

(** How a value is looked at: found in a range or object, handed over by a mark
    procedure, or found on a stack. *)
Inductive mode := Heap | Proc | Stack.

Definition checks (m : mode) : bool := match m with Stack => false | _ => true end.

Definition is_large (hd : hdr) : bool := flag_set (hb_flags hd) LARGE_BLOCK.

Section Spec.
Context (E : menv).

(** The mark words are words, and a block without marks has a count of zero. *)
Definition marks_ok (hd : hdr) : Prop :=
  (forall i, 0 <= aget (hb_marks hd) i < W64) /\ 0 <= hb_n_marks hd
  /\ (hb_n_marks hd = 0 -> forall n, 0 <= n < FINAL_MARK_BIT (hb_sz hd) -> mark_bit_from_hdr hd n = false).

(** A block in use has its address, an object map and, for small objects, the mark
    bit past the last object. *)
Definition blk_ok (q : Z) (hd : hdr) : Prop :=
  hb_block hd = HBLKPTR q /\ marks_ok hd
  /\ if is_large hd then
       hb_map hd = Some 0 /\ GC_obj_map E !! 0 = Some (new_map 0) /\ MAXOBJBYTES < hb_sz hd < 2 ^ 63
     else
       exists lg, 0 < lg <= MAXOBJGRANULES /\ hb_sz hd = GRANULES_TO_BYTES lg /\ hb_map hd = Some lg
         /\ GC_obj_map E !! lg = Some (new_map lg)
         /\ mark_bit_from_hdr hd (FINAL_MARK_BIT (hb_sz hd)) = true.

Definition in_use (t : hdr_state) (q : Z) : Prop :=
  is_hdr_ptr (HDRv t q) = true /\ HBLK_IS_FREE (hdr_of t (HDRv t q)) = false.

Record wf_tab (t : hdr_state) : Prop := {
  wt_wf : wf_table t;
  wt_fw : forwards_ok t;
  wt_cache : cache_ok t;
  wt_zero : HDRv t 0 = NULL;
  wt_blk : forall q, in_use t q -> blk_ok q (hdr_of t (HDRv t q))
}.

(** The address is that of an object of the heap. *)
Definition is_object (t : hdr_state) (b : Z) : Prop :=
  in_use t b /\
  let hd := hdr_of t (HDRv t b) in
  if is_large hd then b = hb_block hd
  else (b mod 4096) mod hb_sz hd = 0 /\ b mod 4096 + hb_sz hd <= 4096.

Definition obj_marked (t : hdr_state) (b : Z) : bool := GC_is_marked b (hdr_of t (HDRv t b)).
Definition obj_descr (t : hdr_state) (b : Z) : Z := hb_descr (hdr_of t (HDRv t b)).

(** The header a value leads to. *)
Inductive finds (t : hdr_state) (interior : bool) (m : mode) (p : Z) : Z -> Prop :=
  | finds_first : in_use t p -> finds t interior m p (HDRv t p)
  | finds_interior (start sz : Z) :
      m = Stack \/ interior = true -> HDRv t p <> NULL -> is_hdr_ptr (HDRv t p) = false ->
      object_at t start sz -> start mod 4096 = 0 -> sz mod 4096 = 0 -> start <= p < start + sz ->
      in_use t start ->
      p - start < hb_sz (hdr_of t (HDRv t start)) ->
      (m = Heap -> flag_set (hb_flags (hdr_of t (HDRv t start))) IGNORE_OFF_PAGE = false) ->
      finds t interior m p (HDRv t start).

(** The object of the header's block the value points into; a displacement that is
    not registered is refused, except for values on stacks.  Displacements are not
    checked past the first block of an object. *)
Definition hit (m : mode) (hd : hdr) (p : Z) : option Z :=
  if is_large hd then
    if (HBLKPTR p =? hb_block hd) && checks m && negb (GC_valid_offsets (offs E) (p - hb_block hd))
    then None else Some (hb_block hd)
  else
    let b := p - (p mod 4096) mod hb_sz hd in
    if (b =? p) || negb (checks m) || GC_valid_offsets (offs E) (p - b) then Some b else None.

Definition points_to (t : hdr_state) (interior : bool) (m : mode) (p b : Z) : Prop :=
  exists v, finds t interior m p v /\ hit m (hdr_of t v) p = Some b.

(** The descriptor a per-object descriptor stands for. *)
Definition fetch (start descr : Z) : option Z :=
  match retry_body E start descr with inl d => Some d | inr _ => None end.

Definition tag (descr : Z) : Z := Z.land descr GC_DS_TAGS.

(** The values an entry has to be marked from. *)
Inductive ref : Z -> Z -> mode -> Z -> Prop :=
  | ref_length start descr a :
      tag descr = GC_DS_LENGTH -> start <= a -> a + PTR_BYTES <= start + descr -> (a - start) mod PTR_BYTES = 0 ->
      plausible E (mem E a) = true -> ref start descr Heap (mem E a)
  | ref_bitmap start descr i :
      tag descr = GC_DS_BITMAP -> 0 <= i < CPP_WORDSZ - GC_DS_TAG_BITS -> Z.testbit descr (63 - i) = true ->
      plausible E (mem E (start + PTR_BYTES * i)) = true -> ref start descr Heap (mem E (start + PTR_BYTES * i))
  | ref_proc_push start descr q :
      tag descr = GC_DS_PROC -> MP_MARK_AND_PUSH q ∈ GC_mark_procs E (PROC descr) start (ENV descr) ->
      plausible E q = true -> ref start descr Proc q
  | ref_proc_ptrs start descr arr q :
      tag descr = GC_DS_PROC -> MP_mark_and_push_ptrs arr ∈ GC_mark_procs E (PROC descr) start (ENV descr) ->
      q ∈ arr -> plausible E q = true -> ref start descr Heap q
  | ref_proc_descr start descr o d m q :
      tag descr = GC_DS_PROC -> MP_push_obj_descr o d ∈ GC_mark_procs E (PROC descr) start (ENV descr) ->
      ref o d m q -> ref start descr m q
  | ref_per_object start descr d m q :
      tag descr = GC_DS_PER_OBJECT -> fetch start descr = Some d -> ref start d m q -> ref start descr m q.

(** The objects reachable from the given values through objects of the heap that
    are not marked in [t]. *)
Inductive reach (t : hdr_state) (interior : bool) (from : mode -> Z -> Prop) : Z -> Prop :=
  | reach_from m q b : from m q -> points_to t interior m q b -> reach t interior from b
  | reach_step b m q b' :
      reach t interior from b -> is_object t b -> obj_marked t b = false ->
      ref b (obj_descr t b) m q -> points_to t interior m q b' -> reach t interior from b'.

(** The values described by the entries of a stack. *)
Definition stack_refs (l : list mse) (m : mode) (q : Z) : Prop :=
  exists e, e ∈ l /\ ref (mse_start e) (mse_descr e) m q.

(** The address range of pointers. *)
Definition env_ok : Prop :=
  4096 <= GC_least_plausible_heap_addr E + 1 /\ GC_greatest_plausible_heap_addr E <= W64.

(** Entries that can be processed, with a bound on the work each one takes.  A
    range is aligned and inside the address space; what a mark procedure pushes,
    and the descriptor found in an object, take less work than what led to it. *)
Record ranking := Ranking {
  rk_ok : Z -> Z -> Prop;
  rk_weight : Z -> Z -> Z;
  rk_nonneg s d : 0 <= rk_weight s d;
  rk_pos s d : rk_ok s d -> 1 <= rk_weight s d;
  rk_word s d : rk_ok s d -> 0 <= d < W64;
  rk_length s d : rk_ok s d -> tag d = GC_DS_LENGTH ->
    s mod 8 = 0 /\ 8 <= s /\ s + d < W64 /\ d mod 8 = 0
    /\ (1024 <= d -> rk_ok (s + 1016) (d - 1016) /\ rk_weight (s + 1016) (d - 1016) < rk_weight s d);
  rk_proc s d : rk_ok s d -> tag d = GC_DS_PROC ->
    let acts := GC_mark_procs E (PROC d) s (ENV d) in
    (forall o d', MP_push_obj_descr o d' ∈ acts -> rk_ok o d')
    /\ foldr (fun a n => n + match a with MP_push_obj_descr o d' => rk_weight o d' | _ => 0 end) 0 acts
       < rk_weight s d;
  rk_per_object s d d' : rk_ok s d -> tag d = GC_DS_PER_OBJECT -> fetch s d = Some d' ->
    rk_ok s d' /\ rk_weight s d' < rk_weight s d
}.

(** The work left: the entries on the stack, and the objects that may still be
    marked.  Every granule of every block counts as an object. *)
Definition granules (t : hdr_state) : list Z :=
  '(_, hd) ← map_to_list (hdrs t); (fun i => hb_block hd + 16 * i) <$> seqZ 0 256.

Definition stack_work (R : ranking) (l : list mse) : Z :=
  foldr (fun e n => rk_weight R (mse_start e) (mse_descr e) + n) 0 l.
Definition unmarked_work (R : ranking) (t : hdr_state) : Z :=
  foldr (fun b n => (if obj_marked t b then 0 else rk_weight R b (obj_descr t b)) + n) 0 (granules t).
Definition work (R : ranking) (s : mk_state) : Z :=
  stack_work R (GC_mark_stack s) + unmarked_work R (mk_tab s).

(** A state of the marker in which every entry, and every object that may be
    pushed, can be processed. *)
Record mk_ok (R : ranking) (s : mk_state) : Prop := {
  ms_tab : wf_tab (mk_tab s);
  ms_stack : Forall (fun e => rk_ok R (mse_start e) (mse_descr e)) (GC_mark_stack s);
  ms_objs : forall b, is_object (mk_tab s) b -> obj_descr (mk_tab s) b <> 0 ->
    rk_ok R b (obj_descr (mk_tab s) b)
}.
End Spec.
End MarkSpec.
