(* ===== verification/MarkVisit.v ===== *)
(** * Looking at one pointer

    [PUSH_CONTENTS], [GC_mark_and_push] and [GC_mark_and_push_stack] all return, and
    mark and push exactly the object the value refers to, if there is one and it
    was not marked. *)

From Stdlib Require Import ZArith Lia.
From stdpp Require Import base gmap list.
From S2P Require Import Prelude BlackList Scratch Hblk Headers HeadersNav HdrCache HdrIface MarkBits ObjMap Mark MarkSpec.

Module MarkVisit.
Import BlackList Scratch Headers HeadersNav HdrCache HdrIface MarkBits ObjMap Mark MarkSpec.

(** ** What the shape of a table determines *)

Lemma shape_hdr (t t' : hdr_state) (v : Z) : shape t t' ->
  exists n m, hdr_of t' v = set_hb_marks n m (hdr_of t v).
Proof. intros [_ H]. apply H. Qed.

Lemma shape_cache (t : hdr_state) c : shape t (set_hdr_cache c t).
Proof.
  split; [intros; by apply HDRv_frame|]. intros v.
  exists (hb_n_marks (hdr_of t v)), (hb_marks (hdr_of t v)).
  change (hdr_of (set_hdr_cache c t) v) with (hdr_of t v). by destruct (hdr_of t v).
Qed.

Lemma in_use_shape (t t' : hdr_state) (q : Z) : shape t t' -> in_use t q <-> in_use t' q.
Proof.
  intros S. unfold in_use. rewrite (proj1 S). destruct (shape_hdr t t' (HDRv t q) S) as (n & m & ->). done.
Qed.

Lemma obj_descr_shape (t t' : hdr_state) (b : Z) : shape t t' -> obj_descr t' b = obj_descr t b.
Proof.
  intros S. unfold obj_descr. rewrite (proj1 S). destruct (shape_hdr t t' (HDRv t b) S) as (n & m & ->). done.
Qed.

Lemma is_object_shape (t t' : hdr_state) (b : Z) : shape t t' -> is_object t b <-> is_object t' b.
Proof.
  intros S. unfold is_object. rewrite (in_use_shape t t' b S), (proj1 S).
  destruct (shape_hdr t t' (HDRv t b) S) as (n & m & ->). done.
Qed.

Lemma object_at_shape (t t' : hdr_state) (h sz : Z) : shape t t' -> object_at t h sz -> object_at t' h sz.
Proof.
  intros S [H1 H2]. split; [by rewrite (proj1 S)|]. intros q Hq. rewrite (proj1 S). by apply H2.
Qed.

Lemma forwards_ok_shape (t t' : hdr_state) : shape t t' -> forwards_ok t -> forwards_ok t'.
Proof.
  intros S H q. rewrite (proj1 S). intros H1 H2.
  destruct (H q H1 H2) as (h & sz & A1 & A2 & A3 & A4 & A5 & A6). exists h, sz.
  split_and!; try done; try lia. by apply (object_at_shape t).
Qed.

Lemma finds_shape (t t' : hdr_state) (interior : bool) (m : mode) (p v : Z) :
  shape t t' -> finds t interior m p v -> finds t' interior m p v.
Proof.
  intros S. destruct 1 as [H|start sz H1 H2 H3 H4 H5 H5' H6 H7 H8 H9].
  - rewrite <- (proj1 S). apply finds_first. by apply (in_use_shape t t').
  - rewrite <- (proj1 S). destruct (shape_hdr t t' (HDRv t start) S) as (n & k & Ek).
    apply (finds_interior _ _ _ _ start sz); rewrite ?(proj1 S), ?Ek; try done.
    + by apply (object_at_shape t).
    + by apply (in_use_shape t t').
Qed.

Section Visit.
Context (E : menv).

Lemma hit_shape (m : mode) (hd : hdr) (n : Z) k (p : Z) : hit E m (set_hb_marks n k hd) p = hit E m hd p.
Proof. done. Qed.

Lemma points_to_shape (t t' : hdr_state) (interior : bool) (m : mode) (p b : Z) :
  shape t t' -> points_to E t interior m p b <-> points_to E t' interior m p b.
Proof.
  assert (Hd : forall t t', shape t t' -> points_to E t interior m p b -> points_to E t' interior m p b).
  { intros u u' S (v & Hf & Hh). exists v. split; [by apply (finds_shape u)|].
    destruct (shape_hdr u u' v S) as (n & k & ->). by rewrite hit_shape. }
  intros S. split; apply Hd; [done|by symmetry].
Qed.

(** ** The header a value leads to *)

Lemma finds_in_use (t : hdr_state) (interior : bool) (m : mode) (p v : Z) :
  finds t interior m p v -> exists q, v = HDRv t q /\ in_use t q /\ q <= p
    /\ (p / 4096 = q / 4096 \/ (q mod 4096 = 0 /\ p / 4096 <> q / 4096
        /\ p - q < hb_sz (hdr_of t (HDRv t q)))).
Proof.
  destruct 1 as [H|start sz H1 H2 H3 H4 H5 H5' H6 H7 H8 H9].
  - exists p. split_and!; [done|done|lia|by left].
  - exists start. split_and!; [done|done|lia|]. right. split_and!; try done.
    intros Eq. rewrite (HDRv_block t p start Eq) in H3. destruct H7. congruence.
Qed.

Lemma object_at_unique (t : hdr_state) (h1 s1 h2 s2 p : Z) :
  object_at t h1 s1 -> object_at t h2 s2 -> h1 mod 4096 = 0 -> h2 mod 4096 = 0 ->
  s1 mod 4096 = 0 -> s2 mod 4096 = 0 -> h1 <= p < h1 + s1 -> h2 <= p < h2 + s2 -> h1 = h2.
Proof.
  assert (H : forall h1 s1 h2 s2, object_at t h1 s1 -> object_at t h2 s2 ->
    h1 mod 4096 = 0 -> h2 mod 4096 = 0 -> s1 mod 4096 = 0 -> h1 <= p < h1 + s1 -> h2 <= p < h2 + s2 ->
    ~ h1 < h2).
  { intros a sa b sb [A1 A2] [B1 B2] Ea Eb Es Ha Hb Hlt.
    assert (Hf : HDRv t b = fwd_count a b) by (apply A2; dlia).
    pose proof (fwd_count_pos a b ltac:(dlia)). apply is_hdr_ptr_ge in B1. lia. }
  intros. destruct (Z.lt_trichotomy h1 h2) as [?|[?|?]]; [|done|];
    exfalso; [eapply (H h1 s1 h2 s2)|eapply (H h2 s2 h1 s1)]; eauto.
Qed.

Lemma finds_det (t : hdr_state) (interior : bool) (m : mode) (p v w : Z) :
  finds t interior m p v -> finds t interior m p w -> v = w.
Proof.
  destruct 1 as [[H _]|start sz H1 H2 H3 H4 H5 H5' H6 H7 H8 H9]; destruct 1 as [[K _]|start' sz' K1 K2 K3 K4 K5 K5' K6 K7 K8 K9];
    try congruence. by rewrite (object_at_unique t start sz start' sz' p).
Qed.

(** ** The object of a block *)

Lemma new_map_lookup (lg displ : Z) :
  0 <= displ < 256 -> new_map lg !! Z.to_nat displ = Some (map_entry lg displ).
Proof.
  intros H. unfold new_map. rewrite list_lookup_fmap, lookup_seqZ_lt.
  - cbn. do 2 f_equal. lia.
  - change OBJ_MAP_LEN with 256. lia.
Qed.

Lemma bit_of_aligned (b : Z) (hd : hdr) : bit_of b hd = (b mod 4096) / 16.
Proof.
  unfold bit_of, MARK_BIT_NO, BYTES_TO_GRANULES, GC_GRANULE_BYTES. gc_arith. f_equal. lia.
Qed.

Lemma lor_zero (a b : Z) : 0 <= a -> 0 <= b -> (Z.lor a b =? 0) = (a =? 0) && (b =? 0).
Proof.
  intros Ha Hb. apply eq_true_iff_eq. rewrite andb_true_iff, !Z.eqb_eq. apply Z.lor_eq_0_iff.
Qed.

(** The displacement inside an object, from the object map and the byte offset. *)
Lemma small_displ (lg p : Z) : 0 < lg <= 128 ->
  let d := p mod 4096 in
  16 * ((d / 16) mod lg) + d mod 16 = d mod (16 * lg).
Proof.
  intros Hlg d. clearbody d.
  rewrite (Z.rem_mul_r d 16 lg) by lia. lia.
Qed.

(** The macro's arithmetic finds the object that [hit] describes. *)
Lemma push_contents_hdr_hit (m : mode) (p v q : Z) (s : mk_state) :
  v = HDRv (mk_tab s) q -> blk_ok E q (hdr_of (mk_tab s) v) ->
  p / 4096 = q / 4096 \/ is_large (hdr_of (mk_tab s) v) = true ->
  GC_ms_push_contents_hdr E p v (checks m) s
  = Some (match hit E m (hdr_of (mk_tab s) v) p with
          | Some b => mark_and_push_base b (bit_of b (hdr_of (mk_tab s) v)) v s
          | None => add_normal p s
          end).
Proof.
  intros Ev (Hb & _ & Hk) Hp. unfold GC_ms_push_contents_hdr, hit. set (hd := hdr_of (mk_tab s) v) in *.
  unfold HBLKDISPL. rewrite modHBLKSZ_mod. unfold BYTES_TO_GRANULES. change GC_GRANULE_BYTES with 16.
  change (16 - 1) with (2 ^ 4 - 1). rewrite land_low_mask by lia. change (2 ^ 4) with 16.
  set (d := p mod 4096) in *. assert (Hd : 0 <= d < 4096) by (subst d; dlia).
  assert (Hg : 0 <= d / 16 < 256) by dlia. rewrite PTR_ALIGN_DOWN_hblk.
  change (flag_set (hb_flags hd) LARGE_BLOCK) with (is_large hd).
  destruct (is_large hd) eqn:El.
  - destruct Hk as (-> & Hom & Hsz). rewrite some_bind, Hom, some_bind, new_map_lookup, some_bind by done.
    unfold map_entry. cbn [Z.eqb]. rewrite lor_zero by dlia. cbn [andb negb Z.eqb].
    assert (Hbm : hb_block hd mod 4096 = 0) by (rewrite Hb, PTR_ALIGN_DOWN_hblk; dlia).
    fold d.
    replace (p - hb_block hd =? d) with (p - d =? hb_block hd)
      by (apply eq_true_iff_eq; rewrite !Z.eqb_eq; lia).
    destruct ((p - d =? hb_block hd) && checks m && _); [done|]. by rewrite bit_of_aligned, Hbm.
  - destruct Hp as [Hp|]; [|done]. destruct Hk as (lg & Hlg & Hsz & -> & Hom & Hf).
    change MAXOBJGRANULES with 128 in Hlg. unfold GRANULES_TO_BYTES in *. change GC_GRANULE_BYTES with 16 in *.
    rewrite some_bind, Hom, some_bind, new_map_lookup, some_bind by done.
    unfold map_entry. destruct (Z.eqb_spec lg 0) as [|_]; [lia|].
    pose proof (Z.mod_pos_bound (d / 16) lg ltac:(lia)) as Hm.
    rewrite (Z.mod_small ((d / 16) mod lg) 256) by lia.
    pose proof (small_displ lg p ltac:(lia)) as Hs. cbn zeta in Hs. fold d in Hs.
    rewrite lor_zero by dlia. rewrite Hsz, (Z.mul_comm lg 16).
    set (o := d mod (16 * lg)) in *. assert (Ho : 0 <= o <= d) by (subst o; split; [apply Z.mod_pos_bound; lia|apply Z.mod_le; lia]).
    replace ((d / 16) mod lg * 16 + d mod 16) with o by lia.
    assert (Eb : bit_of (p - o) hd = d / 16 - (d / 16) mod lg).
    { rewrite bit_of_aligned. replace ((p - o) mod 4096) with (d - o).
      - rewrite <- Hs. dlia.
      - subst d. clearbody o. dlia. }
    destruct (Z.eqb_spec ((d / 16) mod lg) 0) as [E0|E0]; [destruct (Z.eqb_spec (d mod 16) 0) as [E1|E1]|]; cbn [andb negb].
    + replace (p - o =? p) with true by (symmetry; apply Z.eqb_eq; lia). cbn [orb]. rewrite Eb, E0. do 2 f_equal; lia.
    + rewrite (proj2 (Z.eqb_neq (p - o) p)) by lia. cbn [orb].
      replace (p - (p - o)) with o by lia.
      destruct (checks m), (GC_valid_offsets (offs E) o); cbn [andb orb negb]; by rewrite ?Eb.
    + rewrite (proj2 (Z.eqb_neq (p - o) p)) by dlia. cbn [orb].
      replace (p - (p - o)) with o by lia.
      destruct (checks m), (GC_valid_offsets (offs E) o); cbn [andb orb negb]; by rewrite ?Eb.
Qed.

(** The object found lies in the header's block; one that does not fit in the block
    has the mark bit past the last object, which is always set. *)
Lemma hit_base (t : hdr_state) (m : mode) (p q b : Z) :
  in_use t q -> blk_ok E q (hdr_of t (HDRv t q)) ->
  p / 4096 = q / 4096 \/ is_large (hdr_of t (HDRv t q)) = true ->
  hit E m (hdr_of t (HDRv t q)) p = Some b ->
  HDRv t b = HDRv t q /\ b mod 16 = 0 /\ (is_object t b \/ obj_marked t b = true).
Proof.
  intros Hu (Hb & _ & Hk) Hp. unfold hit. destruct (is_large _) eqn:El.
  - case_match; [done|]. intros [= <-]. rewrite Hb, PTR_ALIGN_DOWN_hblk in *.
    assert (EH : HDRv t (q - q mod 4096) = HDRv t q) by (apply HDRv_block; dlia).
    split; [done|]. split; [dlia|]. left. unfold is_object, in_use. rewrite EH, El. by rewrite Hb.
  - destruct Hp as [Hp|]; [|done]. destruct Hk as (lg & Hlg & Hsz & _ & _ & Hf).
    rewrite Hsz in *. unfold GRANULES_TO_BYTES in *. change GC_GRANULE_BYTES with 16 in *.
    change MAXOBJGRANULES with 128 in Hlg.
    case_match; [|done]. intros [= <-]. set (o := (p mod 4096) mod (lg * 16)).
    assert (Ho : 0 <= o <= p mod 4096) by (subst o; split; [apply Z.mod_pos_bound; lia|apply Z.mod_le; dlia]).
    pose proof (Z.div_mod (p mod 4096) (lg * 16) ltac:(lia)) as Hdm. fold o in Hdm.
    set (k := p mod 4096 / (lg * 16)) in Hdm. clearbody o.
    assert (Em : (p - o) mod 4096 = lg * 16 * k) by dlia.
    assert (EH : HDRv t (p - o) = HDRv t q) by (apply HDRv_block; dlia).
    split; [done|]. split; [dlia|]. unfold is_object, obj_marked, in_use. rewrite EH, El, Hsz, Em.
    destruct (Z.le_gt_cases (lg * 16 * k + lg * 16) 4096) as [Hle|Hgt]; [left|right].
    + split; [done|]. split; [|done]. rewrite Z.mul_comm. apply Z.mod_mul. lia.
    + unfold GC_is_marked. rewrite bit_of_aligned, Em. unfold FINAL_MARK_BIT in Hf.
      change MAXOBJBYTES with 2048 in Hf. destruct (Z.ltb_spec 2048 (lg * 16)); [lia|].
      unfold BYTES_TO_GRANULES, HBLK_OBJS in Hf. change HBLKSIZE with 4096 in Hf.
      change GC_GRANULE_BYTES with 16 in Hf.
      assert (Ek : 4096 / (lg * 16) = k).
      { symmetry. apply (Z.div_unique _ _ _ (4096 - lg * 16 * k)); [left; dlia|lia]. }
      by rewrite Ek, (Z.mul_comm k) in Hf.
Qed.

(** The lookup of [HC_GET_HDR] is the one [finds] describes. *)
Lemma answer_finds (t : hdr_state) (interior : bool) (p v : Z) :
  wf_tab E t -> hdr_answer t interior p v ->
  forall w, finds t interior Heap p w <-> (w = v /\ v <> NULL).
Proof.
  intros W H w.
  assert (Hsz : forall q, in_use t q -> signed64 (hb_sz (hdr_of t (HDRv t q))) = hb_sz (hdr_of t (HDRv t q))).
  { intros q Hq. destruct (wt_blk _ _ W q Hq) as (_ & _ & Hk). unfold signed64.
    destruct (Z.ltb_spec (hb_sz (hdr_of t (HDRv t q))) (2 ^ 63)) as [|Hge]; [done|]. exfalso.
    destruct (is_large _); [lia|]. destruct Hk as (lg & Hlg & Es & _).
    unfold GRANULES_TO_BYTES in Es. change GC_GRANULE_BYTES with 16 in *. change MAXOBJGRANULES with 128 in *. lia. }
  assert (Hone : forall w', finds t interior Heap p w' -> (finds t interior Heap p w <-> w = w' /\ w' <> NULL)).
  { intros w' Hw'. split.
    - intros Hw. split; [by apply (finds_det t interior Heap p)|].
      destruct (finds_in_use _ _ _ _ _ Hw') as (q & -> & [Hq _] & _). by apply is_hdr_ptr_nonnull.
    - by intros [-> _]. }
  assert (Hnone : (forall w', ~ finds t interior Heap p w') -> (finds t interior Heap p w <-> w = NULL /\ NULL <> NULL)).
  { intros Hn. split; [by intros ?%Hn|lia]. }
  destruct H as [v -> Hv Hf|Hv Hf|Hv|Hv Hp Hi|start sz Hi Hv Hp Ho Hr Hal Hsa].
  - apply Hone. by apply finds_first.
  - apply Hnone. intros w' Hw'. destruct Hw' as [[? ?]|]; congruence.
  - apply Hnone. intros w' Hw'. destruct Hw' as [[Hw' _]|]; [|congruence]. by rewrite Hv in Hw'.
  - apply Hnone. intros w' Hw'. destruct Hw' as [[? ?]|? ? [?|?]]; congruence.
  - cbn zeta. destruct (HBLK_IS_FREE (hdr_of t (HDRv t start))) eqn:Efr.
    { rewrite orb_true_r. cbn [orb]. apply Hnone. intros w' Hw'. destruct Hw' as [[? ?]|start' sz' ? ? ? Ho' ? ? ? [? ?]]; [congruence|].
      rewrite (object_at_unique t start sz start' sz' p) in Efr by done. congruence. }
    assert (Hus : in_use t start) by (split; [apply Ho|done]).
    rewrite orb_false_r, (Hsz start Hus).
    destruct (flag_set _ IGNORE_OFF_PAGE) eqn:Eg; cbn [orb].
    { apply Hnone. intros w' Hw'. destruct Hw' as [[? ?]|start' sz' ? ? ? Ho' ? ? ? Hu' Hlt Hg]; [congruence|].
      rewrite (object_at_unique t start sz start' sz' p) in Eg by done. specialize (Hg eq_refl). congruence. }
    destruct (Z.leb_spec (hb_sz (hdr_of t (HDRv t start))) (p - start)) as [Hle|Hlt].
    { apply Hnone. intros w' Hw'. destruct Hw' as [[? ?]|start' sz' ? ? ? Ho' ? ? ? Hu' Hlt Hg]; [congruence|].
      rewrite (object_at_unique t start sz start' sz' p) in Hle by done. lia. }
    apply Hone. eapply finds_interior; eauto.
Qed.

(** ** The three ways to look at a value *)

Lemma GET_HDR_eq (t : hdr_state) (p : Z) : wf_table t -> GET_HDR t p = Some (HDRv t p).
Proof. intros (used & A & F & HT). apply (GET_HDR_total t A), HT. Qed.

Definition mark_obj (b : Z) (s : mk_state) : mk_state :=
  mark_and_push_base b (bit_of b (hdr_of (mk_tab s) (HDRv (mk_tab s) b))) (HDRv (mk_tab s) b) s.

(** Only the cache and the black lists have changed. *)
Definition peeked (s s1 : mk_state) : Prop :=
  exists c bl, s1 = set_bl bl (set_tab (set_hdr_cache c (mk_tab s)) s)
    /\ cache_ok (mk_tab s1) /\ GC_all_interior_pointers bl = GC_all_interior_pointers (mk_bl s).

Definition visit (m : mode) (p : Z) (s s' : mk_state) : Prop :=
  exists s1, peeked s s1 /\
    ((exists b, points_to E (mk_tab s) (GC_all_interior_pointers (mk_bl s)) m p b /\ s' = mark_obj b s1)
     \/ ((forall b, ~ points_to E (mk_tab s) (GC_all_interior_pointers (mk_bl s)) m p b) /\ s' = s1)).

Lemma add_interior (f : Z -> bool) (p : Z) (bl : bl_state) :
  GC_all_interior_pointers (GC_ADD_TO_BLACK_LIST_NORMAL f p bl) = GC_all_interior_pointers bl
  /\ GC_all_interior_pointers (GC_add_to_black_list_stack f p bl) = GC_all_interior_pointers bl.
Proof.
  unfold GC_ADD_TO_BLACK_LIST_NORMAL, GC_add_to_black_list_stack, GC_add_to_black_list_normal.
  split; by repeat case_match.
Qed.

Lemma peeked_add (s : mk_state) (bl : bl_state) : wf_tab E (mk_tab s) ->
  GC_all_interior_pointers bl = GC_all_interior_pointers (mk_bl s) -> peeked s (set_bl bl s).
Proof.
  intros W Hi. exists (GC_hdr_cache (mk_tab s)), bl.
  assert (Ec : set_hdr_cache (GC_hdr_cache (mk_tab s)) (mk_tab s) = mk_tab s) by (by destruct (mk_tab s)).
  rewrite Ec. split; [done|]. split; [apply (wt_cache _ _ W)|done].
Qed.

Lemma peeked_refl (s : mk_state) : wf_tab E (mk_tab s) -> peeked s s.
Proof.
  intros W. replace s with (set_bl (mk_bl s) s) at 2 by (by destruct s). by apply peeked_add.
Qed.

Lemma peeked_trans_bl (s s1 : mk_state) (bl : bl_state) :
  peeked s s1 -> GC_all_interior_pointers bl = GC_all_interior_pointers (mk_bl s1) -> peeked s (set_bl bl s1).
Proof.
  intros (c & bl1 & -> & Hc & Hi) Hb. exists c, bl. split; [done|]. split; [done|].
  rewrite Hb. exact Hi.
Qed.

(** From the header on: [p] is looked at as a pointer to [q]'s block. *)
Lemma push_hdr_visit (m : mode) (p p' v : Z) (s s1 : mk_state) :
  wf_tab E (mk_tab s) -> peeked s s1 ->
  finds (mk_tab s) (GC_all_interior_pointers (mk_bl s)) m p v ->
  hit E m (hdr_of (mk_tab s) v) p' = hit E m (hdr_of (mk_tab s) v) p ->
  (exists q, v = HDRv (mk_tab s) q /\ in_use (mk_tab s) q
     /\ (p' / 4096 = q / 4096 \/ is_large (hdr_of (mk_tab s) v) = true)) ->
  exists s', GC_ms_push_contents_hdr E p' v (checks m) s1 = Some s' /\ visit m p s s'.
Proof.
  intros W Hpk Hf Hh (q & Ev & Hq & Hp). assert (Hpk' := Hpk).
  destruct Hpk' as (c & bl & -> & Hc & Hi). set (s1 := set_bl bl _) in *.
  assert (Eh : hdr_of (mk_tab s1) v = hdr_of (mk_tab s) v) by done.
  rewrite (push_contents_hdr_hit m p' v q s1); [|by rewrite Ev; symmetry; apply HDRv_frame| |by rewrite Eh].
  2:{ rewrite Eh, Ev. by apply (wt_blk _ _ W). }
  rewrite Eh, Hh. eexists. split; [reflexivity|].
  destruct (hit E m (hdr_of (mk_tab s) v) p) as [b|] eqn:Eb.
  - exists s1. split; [done|]. left. exists b. split; [by exists v|].
    assert (Hvb : HDRv (mk_tab s1) b = v).
    { rewrite (HDRv_frame (mk_tab s)) by done. rewrite Ev in Hh, Hp, Eb |- *.
      apply (hit_base (mk_tab s) m p' q b); [done|by apply (wt_blk _ _ W)|done|by rewrite Hh]. }
    unfold mark_obj. rewrite Hvb, Eh. done.
  - exists (add_normal p' s1). split; [apply peeked_trans_bl; [done|apply add_interior]|]. right. split; [|done].
    intros b (v' & Hf' & Hb). rewrite (finds_det _ _ _ _ _ _ Hf' Hf) in Hb. congruence.
Qed.

Lemma finds_large (t : hdr_state) (interior : bool) (m : mode) (p v : Z) :
  wf_tab E t -> finds t interior m p v ->
  exists q, v = HDRv t q /\ in_use t q /\ (p / 4096 = q / 4096 \/ is_large (hdr_of t v) = true).
Proof.
  intros W Hf. destruct (finds_in_use _ _ _ _ _ Hf) as (q & -> & Hq & Hle & Hp). exists q. split; [done|].
  split; [done|]. destruct Hp as [?|(Hal & Hne & Hlt)]; [by left|]. right.
  destruct (wt_blk _ _ W q Hq) as (_ & _ & Hk). destruct (is_large _); [done|].
  destruct Hk as (lg & Hlg & Es & _). unfold GRANULES_TO_BYTES in Es.
  change GC_GRANULE_BYTES with 16 in *. change MAXOBJGRANULES with 128 in *. dlia.
Qed.

Lemma PUSH_CONTENTS_visit (p : Z) (s : mk_state) :
  wf_tab E (mk_tab s) -> 4096 <= p < W64 ->
  exists s', PUSH_CONTENTS E p s = Some s' /\ visit Heap p s s'.
Proof.
  intros W Hp. unfold PUSH_CONTENTS.
  destruct (HC_GET_HDR_spec p (mk_tab s) (mk_bl s)) as (v & t' & bl' & Hg & Ha & Hc & c & ->);
    [apply (wt_wf _ _ W)|apply (wt_fw _ _ W)|apply (wt_cache _ _ W)|done|].
  assert (Hi : GC_all_interior_pointers bl' = GC_all_interior_pointers (mk_bl s)).
  { revert Hg. unfold HC_GET_HDR. case_match; [by intros [= _ _ <-]|]. unfold GC_header_cache_miss.
    rewrite GET_HDR_eq, some_bind by apply (wt_wf _ _ W).
    pose proof (add_interior (hdr_is_null (mk_tab s)) p (mk_bl s)) as [Hi _].
    repeat case_match; try (by intros [= _ _ <-]).
    destruct (GC_find_starting_hblk _ _ _) as [[cur hh]|]; [|done]. cbn.
    repeat case_match; by intros [= _ _ <-]. }
  rewrite Hg, some_bind. pose proof (answer_finds _ _ _ _ W Ha) as Hfd.
  assert (Hpk : peeked s (set_bl bl' (set_tab (set_hdr_cache c (mk_tab s)) s))) by (by exists c, bl').
  destruct (Z.eqb_spec v NULL) as [->|Hv].
  - eexists. split; [reflexivity|]. eexists. split; [exact Hpk|]. right. split; [|done].
    intros b (w & Hw & _). apply Hfd in Hw. lia.
  - assert (Hf : finds (mk_tab s) (GC_all_interior_pointers (mk_bl s)) Heap p v) by (by apply Hfd).
    apply (push_hdr_visit Heap p p v s _ W Hpk Hf eq_refl). by apply (finds_large (mk_tab s) (GC_all_interior_pointers (mk_bl s)) Heap).
Qed.

(** In a large object past its first block, [GC_base] is the object's start. *)
Lemma GC_base_interior (t : hdr_state) (p : Z) :
  wf_tab E t -> 0 <= p < W64 -> HDRv t p <> NULL -> is_hdr_ptr (HDRv t p) = false ->
  exists h sz, object_at t h sz /\ h mod 4096 = 0 /\ sz mod 4096 = 0 /\ h <= p < h + sz /\ 0 <= h
    /\ GC_base t p = Some (if HBLK_IS_FREE (hdr_of t (HDRv t h)) || (h + hb_sz (hdr_of t (HDRv t h)) <=? p)
                           then NULL else h).
Proof.
  intros W Hp Hn Hnp. destruct (wt_fw _ _ W p Hn Hnp) as (h & sz & Hal & Hh & Hsa & Hend & Ho & Hin).
  exists h, sz. split_and!; try done; try lia. unfold GC_base. rewrite GET_HDR_eq, some_bind by apply (wt_wf _ _ W).
  rewrite (proj2 (Z.eqb_neq _ _) Hn). rewrite is_hdr_ptr_forward in Hnp. apply negb_false_iff in Hnp. rewrite Hnp.
  assert (Ef : GC_find_starting_hblk t (HBLKPTR p) (HDRv t p) = Some (h, HDRv t h)).
  { rewrite PTR_ALIGN_DOWN_hblk, (HDRv_block t p (p - p mod 4096)) by dlia.
    apply (find_starting_hblk_spec t h sz); try done; try (apply (wt_wf _ _ W)); dlia. }
  rewrite Ef, some_bind, some_bind. destruct (HBLK_IS_FREE _); [done|]. cbn [orb].
  assert (Ea : PTR_ALIGN_DOWN h PTR_BYTES = h).
  { unfold PTR_ALIGN_DOWN. change (PTR_BYTES - 1) with (2 ^ 3 - 1). rewrite land_high_mask by lia.
    change (2 ^ 3) with 8. dlia. }
  unfold HBLKDISPL. rewrite Ea, modHBLKSZ_mod, Hal, Zmod_0_l, Z.sub_0_r. change HBLKSIZE with 4096.
  set (n := hb_sz _). assert (E0 : (h + 4096 <? h + n) && (n <=? 4096) = false).
  { destruct (Z.ltb_spec (h + 4096) (h + n)), (Z.leb_spec n 4096); try done. lia. }
  rewrite E0. cbn [orb]. destruct (h + n <=? p); reflexivity.
Qed.

(** The lookups through [GC_base]: by mark procedures and for stacks. *)
Lemma base_finds (t : hdr_state) (interior : bool) (m : mode) (p : Z) :
  wf_tab E t -> 0 <= p < W64 -> HDRv t p <> NULL -> is_hdr_ptr (HDRv t p) = false ->
  m <> Heap -> m = Stack \/ interior = true ->
  exists h, GC_base t p = Some h /\ h mod 4096 = 0
    /\ if decide (h = NULL) then forall w, ~ finds t interior m p w
       else in_use t h /\ finds t interior m p (HDRv t h) /\ is_large (hdr_of t (HDRv t h)) = true.
Proof.
  intros W Hp Hn Hnp Hm Hi.
  destruct (GC_base_interior t p W Hp Hn Hnp) as (h & sz & Ho & Hal & Hsa & Hin & Hh & ->).
  eexists. split; [reflexivity|].
  assert (Hno : (HBLK_IS_FREE (hdr_of t (HDRv t h)) || (h + hb_sz (hdr_of t (HDRv t h)) <=? p)) = true ->
    forall w, ~ finds t interior m p w).
  { intros Hf w Hw. destruct Hw as [[? ?]|h' sz' ? ? ? Ho' ? ? ? [? Hu'] Hlt Hg]; [congruence|].
    rewrite (object_at_unique t h sz h' sz' p) in Hf by done. rewrite Hu' in Hf. cbn in Hf.
    apply Z.leb_le in Hf. lia. }
  destruct (_ || _) eqn:Ef; [split; [done|]; rewrite decide_True by done; by apply Hno|].
  split; [done|]. apply orb_false_iff in Ef as [Efr Ele]. apply Z.leb_gt in Ele.
  assert (Hu : in_use t h) by (split; [apply Ho|done]).
  rewrite decide_False.
  2:{ intros ->. destruct Ho as [Ho _]. rewrite (wt_zero _ _ W) in Ho. done. }
  assert (Hf : finds t interior m p (HDRv t h)).
  { apply (finds_interior _ _ _ _ h sz); try done. lia. }
  split; [done|]. split; [done|].
  destruct (finds_large t interior m p _ W Hf) as (q & Eq & Hq & Hc). destruct Hc as [Hc|Hc]; [|done].
  exfalso. assert (p / 4096 = h / 4096).
  { rewrite Hc. symmetry. destruct (wt_wf _ _ W) as (used & A & F & HT). by apply (ti_inj _ _ _ _ HT); [apply Hu|]. }
  rewrite (HDRv_block t p h) in Hnp by done. destruct Hu. congruence.
Qed.

Lemma finds_not_null (t : hdr_state) (interior : bool) (m : mode) (p v : Z) :
  finds t interior m p v -> HDRv t p <> NULL.
Proof. destruct 1 as [[H _]|]; [by apply is_hdr_ptr_nonnull|done]. Qed.

(** A value without a header to look at. *)
Lemma visit_none (m : mode) (p : Z) (s : mk_state) (bl : bl_state) :
  wf_tab E (mk_tab s) -> GC_all_interior_pointers bl = GC_all_interior_pointers (mk_bl s) ->
  (forall w, ~ finds (mk_tab s) (GC_all_interior_pointers (mk_bl s)) m p w) -> visit m p s (set_bl bl s).
Proof.
  intros W Hi Hn. exists (set_bl bl s). split; [by apply peeked_add|]. right. split; [|done].
  intros b (v & Hv & _). by apply Hn in Hv.
Qed.

Lemma GC_mark_and_push_visit (p : Z) (s : mk_state) :
  wf_tab E (mk_tab s) -> 0 <= p < W64 ->
  exists s', GC_mark_and_push E p s = Some s' /\ visit Proc p s s'.
Proof.
  intros W Hp. assert (Hwf := wt_wf _ _ W). unfold GC_mark_and_push. rewrite GET_HDR_eq, some_bind by done.
  set (t := mk_tab s) in *. set (int := GC_all_interior_pointers (mk_bl s)).
  assert (Hnone : (forall w, ~ finds t int Proc p w) -> visit Proc p s (add_normal p s)).
  { intros Hn. apply visit_none; [done|apply add_interior|done]. }
  destruct (IS_FORWARDING_ADDR_OR_NIL (HDRv t p)) eqn:Ef.
  - assert (Hnp : is_hdr_ptr (HDRv t p) = false) by (by rewrite is_hdr_ptr_forward, Ef).
    destruct int eqn:Ei; cbn [negb].
    2:{ rewrite some_bind. cbn [Z.eqb orb]. eexists. split; [reflexivity|]. apply Hnone.
        intros w Hw. destruct Hw as [[? ?]|? ? [?|?]]; congruence. }
    destruct (decide (HDRv t p = NULL)) as [En|En].
    { assert (Eb : GC_base t p = Some NULL) by (unfold GC_base; by rewrite GET_HDR_eq, some_bind, En).
      rewrite Eb, some_bind. unfold GC_find_header. rewrite GET_HDR_eq, some_bind by done.
      rewrite (wt_zero _ _ W). cbn [Z.eqb orb]. eexists. split; [reflexivity|]. apply Hnone.
      intros w Hw. by apply (finds_not_null t true Proc p w). }
    destruct (base_finds t true Proc p W Hp En Hnp) as (h & Eb & Hal & Hh); [done|by right|].
    rewrite Eb, some_bind. unfold GC_find_header. rewrite GET_HDR_eq, some_bind by done. case_decide as Ed.
    + subst h. rewrite (wt_zero _ _ W). cbn [Z.eqb orb]. eexists. split; [reflexivity|]. by apply Hnone.
    + destruct Hh as ([Hu1 Hu2] & Hf & Hl). rewrite (proj2 (Z.eqb_neq _ _)), Hu2 by (by apply is_hdr_ptr_nonnull).
      cbn [orb]. apply (push_hdr_visit Proc p p _ s s W (peeked_refl s W)); [by fold int; rewrite Ei|done|].
      exists h. split_and!; try done. by right.
  - rewrite some_bind. assert (Hpt : is_hdr_ptr (HDRv t p) = true) by (by rewrite is_hdr_ptr_forward, Ef).
    rewrite (proj2 (Z.eqb_neq _ _)) by (by apply is_hdr_ptr_nonnull). cbn [orb].
    destruct (HBLK_IS_FREE _) eqn:Efr.
    + eexists. split; [reflexivity|]. apply Hnone. intros w Hw. destruct Hw as [[? ?]|]; congruence.
    + apply (push_hdr_visit Proc p p _ s s W (peeked_refl s W)); [by apply finds_first|done|].
      exists p. split_and!; [done|done|by left].
Qed.

Lemma GC_mark_and_push_stack_visit (p : Z) (s : mk_state) :
  wf_tab E (mk_tab s) -> 0 <= p < W64 ->
  exists s', GC_mark_and_push_stack E p s = Some s' /\ visit Stack p s s'.
Proof.
  intros W Hp. assert (Hwf := wt_wf _ _ W). unfold GC_mark_and_push_stack. rewrite GET_HDR_eq, some_bind by done.
  set (t := mk_tab s) in *. set (int := GC_all_interior_pointers (mk_bl s)).
  assert (Hnone : (forall w, ~ finds t int Stack p w) -> visit Stack p s (add_stack p s)).
  { intros Hn. apply visit_none; [done|apply add_interior|done]. }
  destruct (IS_FORWARDING_ADDR_OR_NIL (HDRv t p)) eqn:Ef.
  - assert (Hnp : is_hdr_ptr (HDRv t p) = false) by (by rewrite is_hdr_ptr_forward, Ef).
    destruct (Z.eqb_spec (HDRv t p) NULL) as [En|En].
    { rewrite some_bind. cbn [Z.eqb]. eexists. split; [reflexivity|]. apply Hnone.
      intros w Hw. by apply (finds_not_null t int Stack p w). }
    destruct (base_finds t int Stack p W Hp En Hnp) as (h & Eb & Hal & Hh); [done|by left|].
    rewrite Eb, some_bind. case_decide as Ed.
    + subst h. cbn [Z.eqb]. rewrite some_bind. cbn [Z.eqb]. eexists. split; [reflexivity|]. by apply Hnone.
    + destruct Hh as ([Hu1 Hu2] & Hf & Hl). rewrite (proj2 (Z.eqb_neq _ _)) by done.
      rewrite GET_HDR_eq, some_bind, some_bind by done.
      rewrite (proj2 (Z.eqb_neq _ _)), Hu2 by (by apply is_hdr_ptr_nonnull).
      apply (push_hdr_visit Stack p h _ s s W (peeked_refl s W)); [done| |].
      { unfold hit. fold t. rewrite Hl. cbn [checks]. by rewrite !andb_false_r. }
      exists h. split_and!; try done. by left.
  - rewrite some_bind. assert (Hpt : is_hdr_ptr (HDRv t p) = true) by (by rewrite is_hdr_ptr_forward, Ef).
    rewrite (proj2 (Z.eqb_neq _ _)) by (by apply is_hdr_ptr_nonnull).
    destruct (HBLK_IS_FREE _) eqn:Efr.
    + eexists. split; [reflexivity|]. apply visit_none; [done|apply add_interior|].
      fold t. intros w Hw. destruct Hw as [[? ?]|]; congruence.
    + apply (push_hdr_visit Stack p p _ s s W (peeked_refl s W)); [by apply finds_first|done|].
      exists p. split_and!; [done|done|by left].
Qed.

(** ** Marking an object *)

Definition incr_marks (x : hdr) : hdr := set_hb_marks (hb_n_marks x + 1) (hb_marks x) x.

Definition mark_tab (b : Z) (t : hdr_state) : hdr_state :=
  let v := HDRv t b in
  let t1 := set_hdrs (<[v := set_mark_bit_from_hdr (bit_of b (hdr_of t v)) (hdr_of t v)]> (hdrs t)) t in
  set_hdrs (<[v := incr_marks (hdr_of t1 v)]> (hdrs t1)) t1.

Lemma hdr_of_insert (t : hdr_state) (v w : Z) (x : hdr) :
  hdr_of (set_hdrs (<[v := x]> (hdrs t)) t) w = if decide (v = w) then x else hdr_of t w.
Proof. unfold hdr_of. cbn. rewrite lookup_insert. by case_decide. Qed.

Lemma mark_tab_hdr (b w : Z) (t : hdr_state) :
  hdr_of (mark_tab b t) w
  = if decide (HDRv t b = w)
    then incr_marks (set_mark_bit_from_hdr (bit_of b (hdr_of t w)) (hdr_of t w)) else hdr_of t w.
Proof.
  unfold mark_tab. rewrite hdr_of_insert. case_decide as Ev.
  - rewrite hdr_of_insert, decide_True by done. by rewrite Ev.
  - by rewrite hdr_of_insert, decide_False.
Qed.

Lemma mark_tab_HDRv (b q : Z) (t : hdr_state) : HDRv (mark_tab b t) q = HDRv t q.
Proof. by apply HDRv_frame. Qed.

Lemma shape_mark_tab (b : Z) (t : hdr_state) : shape t (mark_tab b t).
Proof.
  split; [intros; apply mark_tab_HDRv|]. intros w. rewrite mark_tab_hdr. case_decide.
  - unfold incr_marks, set_mark_bit_from_hdr. eexists _, _. reflexivity.
  - exists (hb_n_marks (hdr_of t w)), (hb_marks (hdr_of t w)). by destruct (hdr_of t w).
Qed.

(** The bits only grow. *)
Lemma mark_tab_bits (b w n : Z) (t : hdr_state) :
  mark_bit_from_hdr (hdr_of (mark_tab b t) w) n
  = bool_decide (HDRv t b = w /\ n = bit_of b (hdr_of t w)) || mark_bit_from_hdr (hdr_of t w) n.
Proof.
  rewrite mark_tab_hdr. case_decide as Ev.
  - unfold incr_marks. rewrite mark_bit_frame, mark_bit_set. f_equal. apply bool_decide_ext. intuition.
  - rewrite bool_decide_false; [done|]. by intros [? _].
Qed.

Lemma mark_tab_marked (t : hdr_state) (b b' : Z) :
  wf_table t -> in_use t b -> b mod 16 = 0 -> b' mod 16 = 0 ->
  obj_marked (mark_tab b t) b' = bool_decide (b = b') || obj_marked t b'.
Proof.
  intros (used & A & F & HT) Hu Hb Hb'. unfold obj_marked, GC_is_marked.
  rewrite mark_tab_HDRv, mark_tab_bits, !bit_of_aligned. f_equal. apply bool_decide_ext. split; [|by intros ->].
  intros [Ev En]. apply (ti_inj _ _ _ _ HT) in Ev; [|apply Hu]. dlia.
Qed.

Lemma mark_tab_mono (t : hdr_state) (b b' : Z) : obj_marked t b' = true -> obj_marked (mark_tab b t) b' = true.
Proof.
  unfold obj_marked, GC_is_marked. rewrite mark_tab_HDRv, mark_tab_bits, !bit_of_aligned. intros ->. apply orb_true_r.
Qed.

Lemma lor_bit_word (w k : Z) : 0 <= w < W64 -> 0 <= k < 64 -> 0 <= Z.lor w (Z.shiftl 1 k) < W64.
Proof.
  intros Hw Hk. assert (Hs : Z.shiftl 1 k = 2 ^ k) by (by rewrite Z.shiftl_1_l). rewrite Hs.
  split; [apply Z.lor_nonneg; lia|]. destruct (decide (Z.lor w (2 ^ k) = 0)) as [->|Hne]; [done|].
  assert (0 <= Z.lor w (2 ^ k)) by (apply Z.lor_nonneg; lia).
  apply (Z.log2_lt_pow2 _ 64); [lia|]. rewrite Z.log2_lor by lia. apply Z.max_lub_lt.
  - destruct (decide (w = 0)) as [->|]; [done|]. apply Z.log2_lt_pow2; [lia|exact (proj2 Hw)].
  - rewrite Z.log2_pow2; lia.
Qed.

Lemma mark_tab_marks_ok (b w : Z) (t : hdr_state) : marks_ok (hdr_of t w) -> marks_ok (hdr_of (mark_tab b t) w).
Proof.
  intros (H1 & H2 & H3). rewrite mark_tab_hdr. case_decide; [|done]. split_and!.
  - intros i. unfold incr_marks, set_mark_bit_from_hdr. cbn [hb_marks set_hb_marks]. rewrite aget_insert.
    case_decide; [|done]. apply lor_bit_word; [apply H1|]. rewrite modWORDSZ_mod. dlia.
  - cbn. lia.
  - cbn. lia.
Qed.

(** A table of the same shape whose cache is coherent and whose marks include the
    old ones is as good as the old one. *)
Lemma wf_tab_shape (t t' : hdr_state) :
  shape t t' -> wf_table t' -> cache_ok t' ->
  (forall v n, mark_bit_from_hdr (hdr_of t v) n = true -> mark_bit_from_hdr (hdr_of t' v) n = true) ->
  (forall v, marks_ok (hdr_of t v) -> marks_ok (hdr_of t' v)) ->
  wf_tab E t -> wf_tab E t'.
Proof.
  intros S Hwf Hc Hm Hmk [W1 W2 W3 W0 W4]. split; [done|by apply (forwards_ok_shape t)|done|by rewrite (proj1 S)|].
  intros q Hq. apply (in_use_shape t t' q S) in Hq as Hq'. destruct (W4 q Hq') as (Hb & Hmo & Hk).
  rewrite (proj1 S). specialize (Hm (HDRv t q)). apply Hmk in Hmo.
  destruct (shape_hdr t t' (HDRv t q) S) as (n & k & Ek). rewrite Ek in Hm, Hmo |- *.
  split; [done|]. split; [done|]. unfold is_large in *. cbn [hb_flags set_hb_marks]. destruct (flag_set _ _); [done|].
  destruct Hk as (lg & ? & ? & ? & ? & Hf). exists lg. split_and!; try done; try lia. by apply Hm.
Qed.

Lemma cache_ok_shape (t t' : hdr_state) :
  shape t t' -> GC_hdr_cache t' = GC_hdr_cache t -> cache_ok t -> cache_ok t'.
Proof.
  intros S Ec Hc i a v. rewrite Ec. intros Hl. destruct (Hc i a v Hl) as (H1 & H2 & H3).
  split; [done|]. rewrite (proj1 S). split; [done|].
  destruct (shape_hdr t t' v S) as (n & k & ->). done.
Qed.

Lemma wf_tab_mark (t : hdr_state) (b : Z) : wf_tab E t -> in_use t b -> wf_tab E (mark_tab b t).
Proof.
  intros W Hu. apply (wf_tab_shape t); [apply shape_mark_tab| | | |intros; by apply mark_tab_marks_ok|done].
  - assert (H1 := wt_wf _ _ W). unfold mark_tab. cbn zeta. set (x := set_mark_bit_from_hdr _ _).
    destruct (tree_store t b x H1) as (H2 & H3 & _); [apply Hu|].
    rewrite <- (H3 b). apply tree_store; [done|]. rewrite H3. apply Hu.
  - apply (cache_ok_shape t); [apply shape_mark_tab|done|apply (wt_cache _ _ W)].
  - intros v n Hn. by rewrite mark_tab_bits, Hn, orb_true_r.
Qed.

Lemma mark_obj_eq (b : Z) (s : mk_state) :
  mark_obj b s
  = if obj_marked (mk_tab s) b then s
    else if obj_descr (mk_tab s) b =? 0 then set_tab (mark_tab b (mk_tab s)) s
    else GC_ms_push_obj_descr b (obj_descr (mk_tab s) b) (set_tab (mark_tab b (mk_tab s)) s).
Proof.
  unfold mark_obj, mark_and_push_base, obj_marked, GC_is_marked, obj_descr.
  set (v := HDRv (mk_tab s) b). destruct (mark_bit_from_hdr _ _); [done|].
  cbn zeta. change (mk_upd_hdr v _ (mk_upd_hdr v _ s)) with (set_tab (mark_tab b (mk_tab s)) s).
  unfold GC_ms_push_obj_hdr, IS_PTRFREE. cbn [mk_tab set_tab].
  assert (E2 : hb_descr (hdr_of (mark_tab b (mk_tab s)) v) = hb_descr (hdr_of (mk_tab s) v)).
  { destruct (shape_hdr _ _ v (shape_mark_tab b (mk_tab s))) as (n & k & ->). done. }
  rewrite E2, (Z.eqb_sym 0). by destruct (_ =? 0).
Qed.
End Visit.
End MarkVisit.
