(* ===== verification/MarkInv.v ===== *)
(** * The marking invariant

    [minv] relates a state to the table [t0] marking started with and to the values
    [from] it may mark from and [must], those it has to mark from: what is marked is
    reachable, and what has to be marked is marked or can still be found from the
    stack or among the pending values.  The last part is lost when the stack
    overflows, which the mark state records. *)

From Stdlib Require Import ZArith Lia.
From stdpp Require Import base gmap list.
From S2P Require Import Prelude BlackList Scratch Hblk Headers HeadersNav HdrCache MarkBits Mark MarkSpec MarkVisit.

Module MarkInv.
Import BlackList Scratch Headers HeadersNav HdrCache MarkBits Mark MarkSpec MarkVisit.

(** Entries have been discarded. *)
Definition lost (s : mk_state) : Prop := GC_mark_stack_too_small s = true /\ GC_mark_state s = MS_INVALID.

Section Inv.
Context (E : menv) (R : ranking E).
Context (t0 : hdr_state) (int0 : bool) (from must : mode -> Z -> Prop).
Context (s0 : mk_state).
Context (W0 : wf_tab E t0).

Notation reached := (reach E t0 int0 from).
Notation L := (granules t0).

(** A value that marking has to look at. *)
Definition justified (m : mode) (q : Z) : Prop :=
  from m q \/ exists b, reached b /\ is_object t0 b /\ obj_marked t0 b = false /\ ref E b (obj_descr t0 b) m q.

Definition covered (P : mode -> Z -> Prop) (s : mk_state) (m : mode) (q : Z) : Prop :=
  (forall b, points_to E t0 int0 m q b -> obj_marked (mk_tab s) b = true)
  \/ stack_refs E (GC_mark_stack s) m q \/ P m q.

(** What marking leaves alone. *)
Definition framed (s : mk_state) : Prop :=
  GC_mark_stack_size s = GC_mark_stack_size s0 /\ GC_mark_stack_addr s = GC_mark_stack_addr s0
  /\ GC_scan_ptr s = GC_scan_ptr s0 /\ (GC_mark_state s = GC_mark_state s0 \/ GC_mark_state s = MS_INVALID)
  /\ (GC_objects_are_marked s0 = true -> GC_objects_are_marked s = true).

Record minv (P : mode -> Z -> Prop) (s : mk_state) : Prop := {
  mi_ok : mk_ok E R s;
  mi_int : GC_all_interior_pointers (mk_bl s) = int0;
  mi_shape : shape t0 (mk_tab s);
  mi_mono : forall b, obj_marked t0 b = true -> obj_marked (mk_tab s) b = true;
  mi_sound : forall b, is_object t0 b -> obj_marked (mk_tab s) b = true -> obj_marked t0 b = true \/ reached b;
  mi_stack : forall m q, stack_refs E (GC_mark_stack s) m q -> justified m q;
  mi_comp : lost s \/
    ((forall m q, must m q -> covered P s m q)
     /\ forall b m q, is_object t0 b -> obj_marked (mk_tab s) b = true -> obj_marked t0 b = false ->
          ref E b (obj_descr t0 b) m q -> covered P s m q);
  mi_frame : framed s
}.

(** The work left, over the granules of the first table. *)
Definition unmarked_in (t : hdr_state) : Z :=
  foldr (fun b n => (if obj_marked t b then 0 else rk_weight E R b (obj_descr t b)) + n) 0 L.
Definition work_in (s : mk_state) : Z := stack_work E R (GC_mark_stack s) + unmarked_in (mk_tab s).

Lemma justified_points (m : mode) (q b : Z) : justified m q -> points_to E t0 int0 m q b -> reached b.
Proof.
  intros [Hf|(b' & Hr & Ho & Hm & Hq)] Hp; [by apply (reach_from _ _ _ _ m q)|].
  by apply (reach_step _ _ _ _ b' m q).
Qed.

Lemma stack_refs_cons (e : mse) (l : list mse) (m : mode) (q : Z) :
  stack_refs E (e :: l) m q <-> ref E (mse_start e) (mse_descr e) m q \/ stack_refs E l m q.
Proof.
  split.
  - intros (e' & He & Hr). apply elem_of_cons in He as [->|He]; [by left|right; by exists e'].
  - intros [Hr|(e' & He & Hr)]; [exists e; split; [by left|done]|exists e'; split; [by right|done]].
Qed.

Lemma stack_refs_drop (n : nat) (l : list mse) (m : mode) (q : Z) :
  stack_refs E (drop n l) m q -> stack_refs E l m q.
Proof.
  intros (e & He & Hr). exists e. split; [|done]. rewrite <- (take_drop n l). apply elem_of_app. by right.
Qed.

Lemma stack_work_nonneg (l : list mse) : 0 <= stack_work E R l.
Proof. induction l as [|e l IH]; cbn; [lia|]. pose proof (rk_nonneg E R (mse_start e) (mse_descr e)). unfold stack_work in *. lia. Qed.

Lemma stack_work_drop (n : nat) (l : list mse) : stack_work E R (drop n l) <= stack_work E R l.
Proof.
  revert l. induction n as [|n IH]; intros [|e l]; try done. cbn [drop].
  pose proof (rk_nonneg E R (mse_start e) (mse_descr e)). specialize (IH l). unfold stack_work in *. cbn. lia.
Qed.

Lemma unmarked_in_nonneg (t : hdr_state) : 0 <= unmarked_in t.
Proof.
  unfold unmarked_in. induction L as [|b l IH]; cbn; [lia|].
  pose proof (rk_nonneg E R b (obj_descr t b)). destruct (obj_marked t b); lia.
Qed.

(** Marking more takes away work; an object that becomes marked takes its own. *)
Lemma unmarked_in_mark (t t' : hdr_state) :
  shape t t' -> (forall b, obj_marked t b = true -> obj_marked t' b = true) ->
  unmarked_in t' <= unmarked_in t
  /\ forall b, b ∈ L -> obj_marked t b = false -> obj_marked t' b = true ->
       unmarked_in t' + rk_weight E R b (obj_descr t b) <= unmarked_in t.
Proof.
  intros S Hm. unfold unmarked_in. induction L as [|a l IH]; cbn.
  { split; [done|]. intros b Hb. by apply elem_of_nil in Hb. }
  destruct IH as [IH1 IH2]. rewrite (obj_descr_shape t t' a S).
  pose proof (rk_nonneg E R a (obj_descr t a)) as Hn. specialize (Hm a).
  split.
  - destruct (obj_marked t a); [rewrite Hm by done; lia|]. destruct (obj_marked t' a); lia.
  - intros b Hb Hb1 Hb2. apply elem_of_cons in Hb as [->|Hb]; [rewrite Hb1, Hb2; lia|].
    specialize (IH2 b Hb Hb1 Hb2). destruct (obj_marked t a); [rewrite Hm by done; lia|].
    destruct (obj_marked t' a); lia.
Qed.

Lemma elem_of_granules (t : hdr_state) (b : Z) :
  wf_tab E t -> in_use t b -> b mod 16 = 0 -> b ∈ granules t.
Proof.
  intros W Hu Hb. destruct (wt_wf _ _ W) as (used & A & F & HT).
  destruct (ti_live _ _ _ _ HT b) as [[hd Hl] _]; [apply Hu|].
  destruct (wt_blk _ _ W b Hu) as (Hk & _). unfold hdr_of in Hk. rewrite Hl in Hk. cbn in Hk.
  unfold granules. apply list_elem_of_bind. exists (HDRv t b, hd). split.
  - apply list_elem_of_fmap. exists ((b mod 4096) / 16). rewrite Hk, PTR_ALIGN_DOWN_hblk. split; [dlia|].
    apply elem_of_seqZ. dlia.
  - by apply elem_of_map_to_list.
Qed.

(** ** What pushing and marking do to the invariant *)

Lemma minv_weaken (P P' : mode -> Z -> Prop) (s : mk_state) :
  (forall m q, P m q -> covered P' s m q) -> minv P s -> minv P' s.
Proof.
  intros HP [H1 H2 H3 H4 H5 H6 H7 H9]. split; try done. destruct H7 as [?|[H7 H8]]; [by left|right].
  assert (Hc : forall m q, covered P s m q -> covered P' s m q).
  { intros m q [?|[?|?]]; [by left|by right; left|by apply HP]. }
  split; [intros; by apply Hc, H7|intros; apply Hc; eapply H8; eauto].
Qed.

Lemma push_fields (o d : Z) (s : mk_state) :
  let s' := GC_ms_push_obj_descr o d s in
  mk_tab s' = mk_tab s /\ mk_bl s' = mk_bl s
  /\ (exists n, GC_mark_stack s' = Mse o d :: drop n (GC_mark_stack s) /\ (n = 0%nat \/ lost s'))
  /\ (lost s -> lost s')
  /\ GC_mark_stack_size s' = GC_mark_stack_size s /\ GC_mark_stack_addr s' = GC_mark_stack_addr s
  /\ GC_scan_ptr s' = GC_scan_ptr s
  /\ (GC_mark_state s' = GC_mark_state s \/ GC_mark_state s' = MS_INVALID)
  /\ GC_objects_are_marked s' = GC_objects_are_marked s.
Proof.
  unfold GC_ms_push_obj_descr, lost. destruct (_ <=? _); cbn.
  - split_and!; try done; [|by right]. exists (Z.to_nat GC_MARK_STACK_DISCARDS). split; [done|by right].
  - split_and!; try done; [|by left]. exists 0%nat. split; [by rewrite drop_0|by left].
Qed.

(** Pushing an entry whose values have to be looked at. *)
Lemma push_minv (P P' : mode -> Z -> Prop) (o d : Z) (s : mk_state) :
  minv P s -> rk_ok E R o d -> (forall m q, ref E o d m q -> justified m q) ->
  (forall m q, P m q -> P' m q \/ ref E o d m q) ->
  minv P' (GC_ms_push_obj_descr o d s)
  /\ work_in (GC_ms_push_obj_descr o d s) <= work_in s + rk_weight E R o d.
Proof.
  intros I Hok Hj HP. pose proof (push_fields o d s) as Hp. cbn zeta in Hp.
  set (s' := GC_ms_push_obj_descr o d s) in *. destruct Hp as (Et & Eb & (n & En & Hn) & Hl & Esz & Ead & Esc & Ems & Eom).
  split.
  2:{ unfold work_in. rewrite Et, En. cbn. pose proof (stack_work_drop n (GC_mark_stack s)). unfold stack_work in *. lia. }
  destruct I as [[M1 M2 M3] H2 H3 H4 H5 H6 H7 H9]. split; rewrite ?Et, ?Eb; try done.
  - split; rewrite ?Et, ?En; try done. constructor; [done|]. by apply Forall_drop.
  - intros m q. rewrite En, stack_refs_cons. intros [Hr|Hr%stack_refs_drop]; [by apply Hj|by apply H6].
  - destruct H7 as [?|[H7 H8]]; [left; by apply Hl|]. destruct Hn as [->|Hn]; [right|by left].
    rewrite drop_0 in En. assert (Hc : forall m q, covered P s m q -> covered P' s' m q).
    { unfold covered. intros m q. rewrite Et, En, stack_refs_cons.
      intros [?|[?|HPq]]; [by left|by right; left; right|]. destruct (HP m q HPq); [by right; right|by right; left; left]. }
    split; [intros; by apply Hc, H7|intros; apply Hc; eapply H8; eauto].
  - unfold framed in *. rewrite Esz, Ead, Esc, Eom. destruct H9 as (-> & -> & -> & H9 & H10). split_and!; try done.
    destruct Ems as [->|]; [done|by right].
Qed.

(** Changing the cache or the black lists. *)
Lemma peeked_fields (s s1 : mk_state) : peeked s s1 ->
  GC_mark_stack s1 = GC_mark_stack s /\ shape (mk_tab s) (mk_tab s1)
  /\ (forall b, obj_marked (mk_tab s1) b = obj_marked (mk_tab s) b)
  /\ (lost s -> lost s1)
  /\ GC_mark_stack_size s1 = GC_mark_stack_size s /\ GC_mark_stack_addr s1 = GC_mark_stack_addr s
  /\ GC_scan_ptr s1 = GC_scan_ptr s
  /\ GC_mark_state s1 = GC_mark_state s /\ GC_objects_are_marked s1 = GC_objects_are_marked s.
Proof.
  intros (c & bl & -> & Hc & Hi). split_and!; [done|apply shape_cache| |done|done|done|done|done|done].
  intros b. unfold obj_marked. cbn [mk_tab set_bl set_tab]. by rewrite (HDRv_cache (mk_tab s)).
Qed.

Lemma minv_peeked (P : mode -> Z -> Prop) (s s1 : mk_state) :
  peeked s s1 -> minv P s -> minv P s1 /\ work_in s1 = work_in s.
Proof.
  intros Hp I. destruct (peeked_fields s s1 Hp) as (Es & S & Hm & Hl & Esz & Ead & Esc & Ems & Eom).
  destruct I as [[M1 M2 M3] H2 H3 H4 H5 H6 H7 H9].
  assert (S0 : shape t0 (mk_tab s1)) by (by transitivity (mk_tab s)). split; [split|].
  - split; [|by rewrite Es|].
    + destruct Hp as (c & bl & -> & Hc & Hi). cbn in *.
      apply (wf_tab_shape E (mk_tab s)); [done| |done|done|done|done].
      destruct (wt_wf _ _ M1) as (used & A & F & HT). exists used, A, F. by apply table_inv_cache.
    + intros b Hb. rewrite (obj_descr_shape (mk_tab s) _ b S). apply M3. by apply (is_object_shape _ _ b S).
  - destruct Hp as (c & bl & -> & Hc & Hi). cbn. congruence.
  - done.
  - intros b Hb. rewrite Hm. by apply H4.
  - intros b Hb. rewrite Hm. by apply H5.
  - by rewrite Es.
  - destruct H7 as [?|[H7 H8]]; [left; by apply Hl|right].
    assert (Hc : forall m q, covered P s m q -> covered P s1 m q).
    { unfold covered. intros m q. rewrite Es. intros [Hq|?]; [left|by right]. intros b Hb. rewrite Hm. by apply Hq. }
    split; [intros; by apply Hc, H7|]. intros b m q Hb Hmb. rewrite Hm in Hmb. intros. apply Hc. eapply H8; eauto.
  - unfold framed. by rewrite Esz, Ead, Esc, Ems, Eom.
  - unfold work_in. rewrite Es. f_equal. unfold unmarked_in. induction L as [|a l IH]; [done|].
    cbn. by rewrite Hm, (obj_descr_shape (mk_tab s) _ a S), IH.
Qed.

Lemma points_to_det (t : hdr_state) (m : mode) (p b b' : Z) :
  points_to E t int0 m p b -> points_to E t int0 m p b' -> b = b'.
Proof. intros (v & Hv & Hb) (w & Hw & Hb'). rewrite (finds_det _ _ _ _ _ _ Hv Hw) in Hb. congruence. Qed.

Lemma points_to_obj (t : hdr_state) (m : mode) (p b : Z) :
  wf_tab E t -> points_to E t int0 m p b ->
  in_use t b /\ b mod 16 = 0 /\ (is_object t b \/ obj_marked t b = true).
Proof.
  intros W (v & Hf & Hh). destruct (finds_large E t int0 m p v W Hf) as (q & -> & Hq & Hp).
  destruct (hit_base E t m p q b Hq (wt_blk _ _ W q Hq) Hp Hh) as (H1 & H2 & H3).
  split; [|done]. unfold in_use. by rewrite H1.
Qed.

Lemma ref_nothing (o : Z) (m : mode) (q : Z) : ~ ref E o 0 m q.
Proof. inversion 1; subst; try done. unfold PTR_BYTES in *. lia. Qed.

Lemma object_aligned (t : hdr_state) (b : Z) : wf_tab E t -> is_object t b -> b mod 16 = 0.
Proof.
  intros W [Hu Hk]. destruct (wt_blk _ _ W b Hu) as (Hbb & _ & Hbk). cbn zeta in Hk. destruct (is_large _).
  - rewrite Hbb, PTR_ALIGN_DOWN_hblk in Hk. dlia.
  - destruct Hk as [Hd _], Hbk as (lg & Hlg & Es & _). rewrite Es in Hd. unfold GRANULES_TO_BYTES in Hd.
    change GC_GRANULE_BYTES with 16 in Hd. rewrite (Z.mul_comm lg), Z.rem_mul_r in Hd by lia.
    pose proof (Z.mod_pos_bound (b mod 4096 / 16) lg ltac:(lia)). dlia.
Qed.

(** Marking the object that a value refers to, before it is pushed. *)
Lemma mark_tab_minv (P : mode -> Z -> Prop) (m : mode) (p b : Z) (s : mk_state) :
  minv P s -> justified m p -> points_to E t0 int0 m p b -> obj_marked (mk_tab s) b = false ->
  let s1 := set_tab (mark_tab b (mk_tab s)) s in
  minv (fun m' q' => P m' q' \/ ref E b (obj_descr t0 b) m' q') s1
  /\ is_object t0 b /\ reached b /\ obj_marked t0 b = false /\ obj_marked (mk_tab s1) b = true
  /\ work_in s1 + rk_weight E R b (obj_descr t0 b) <= work_in s.
Proof.
  intros I Hj Hb Hu s1. destruct I as [[M1 M2 M3] H2 H3 H4 H5 H6 H7 H9].
  assert (Hb' := proj1 (points_to_shape E t0 (mk_tab s) int0 m p b H3) Hb).
  destruct (points_to_obj _ _ _ _ M1 Hb') as (Hin & Hb16 & Ho). destruct Ho as [Ho|]; [|congruence].
  assert (S : shape (mk_tab s) (mk_tab s1)) by apply shape_mark_tab.
  assert (S0 : shape t0 (mk_tab s1)) by (by transitivity (mk_tab s)).
  assert (Ho0 : is_object t0 b) by (by apply (is_object_shape t0 (mk_tab s))).
  assert (Hmk : forall b', b' mod 16 = 0 -> obj_marked (mk_tab s1) b' = bool_decide (b = b') || obj_marked (mk_tab s) b').
  { intros. apply mark_tab_marked; [apply (wt_wf _ _ M1)|done|done|done]. }
  assert (Hmono : forall b', obj_marked (mk_tab s) b' = true -> obj_marked (mk_tab s1) b' = true)
    by (intros; by apply mark_tab_mono).
  assert (Hmb : obj_marked (mk_tab s1) b = true) by (rewrite Hmk by done; by rewrite bool_decide_true).
  assert (Hr : reached b) by (by apply (justified_points m p)).
  assert (Hob : forall b', is_object t0 b' -> b' mod 16 = 0) by (intros; by apply (object_aligned t0)).
  assert (Hnm : obj_marked t0 b = false).
  { destruct (obj_marked t0 b) eqn:Eq; [|done]. rewrite H4 in Hu by done. done. }
  split_and!; try done.
  - split; try done.
    + split; [by apply wf_tab_mark|done|]. intros b' Hb1. rewrite (obj_descr_shape (mk_tab s) _ b' S). apply M3.
      by apply (is_object_shape _ _ b' S).
    + intros b' Hb1. by apply Hmono, H4.
    + intros b' Hb1. rewrite Hmk by (by apply Hob). case_bool_decide; [subst; by right|by apply H5].
    + destruct H7 as [?|[H7 H8]]; [by left|right].
      assert (Hc : forall m' q', covered P s m' q' ->
        covered (fun m' q' => P m' q' \/ ref E b (obj_descr t0 b) m' q') s1 m' q').
      { intros m' q' [Hq|[?|?]]; [left; intros; by apply Hmono, Hq|by right; left|by right; right; left]. }
      split; [intros; by apply Hc, H7|]. intros b' m' q' Hb1. rewrite Hmk by (by apply Hob).
      case_bool_decide; [subst; by right; right; right|]. intros. apply Hc. eapply H8; eauto.
  - unfold work_in. change (GC_mark_stack s1) with (GC_mark_stack s).
    destruct (unmarked_in_mark (mk_tab s) (mk_tab s1) S Hmono) as [_ Hw].
    rewrite <- (obj_descr_shape t0 (mk_tab s) b H3). specialize (Hw b).
    assert (Hl : b ∈ L) by (apply elem_of_granules; [done|by apply Ho0|done]).
    specialize (Hw Hl Hu Hmb). lia.
Qed.

(** Looking at a value, which takes care of the pending values that refer to the
    same object. *)
Lemma visit_minv (P P' : mode -> Z -> Prop) (m : mode) (p : Z) (s s' : mk_state) :
  minv P s -> justified m p -> visit E m p s s' ->
  (forall m' q', P m' q' -> P' m' q'
     \/ (forall b, points_to E t0 int0 m' q' b -> points_to E t0 int0 m p b)) ->
  minv P' s' /\ work_in s' <= work_in s.
Proof.
  intros I Hj (s1 & Hpk & Hv) HP. destruct (minv_peeked P s s1 Hpk I) as [I1 Ew].
  assert (Hpt : forall b, points_to E (mk_tab s) (GC_all_interior_pointers (mk_bl s)) m p b
                          <-> points_to E t0 int0 m p b).
  { intros b. rewrite (mi_int _ _ I). symmetry. apply points_to_shape, I. }
  destruct Hv as [(b & Hb & ->)|[Hn ->]].
  2:{ split; [|lia]. apply (minv_weaken P); [|done]. intros m' q' Hq.
      destruct (HP m' q' Hq) as [?|Hs]; [by right; right|]. left. intros b Hb%Hs%Hpt. by apply Hn in Hb. }
  apply Hpt in Hb. rewrite mark_obj_eq. destruct (obj_marked (mk_tab s1) b) eqn:Em.
  { split; [|lia]. apply (minv_weaken P); [|done]. intros m' q' Hq.
    destruct (HP m' q' Hq) as [?|Hs]; [by right; right|]. left. intros b' Hb'%Hs.
    by rewrite <- (points_to_det t0 m p b b' Hb Hb'). }
  destruct (mark_tab_minv P m p b s1 I1 Hj Hb Em) as (I2 & Ho & Hr & Hu & Hm & Hw).
  set (s2 := set_tab _ s1) in *.
  rewrite (obj_descr_shape t0 (mk_tab s1) b (mi_shape _ _ I1)).
  assert (Hcov : forall m' q', (forall b, points_to E t0 int0 m' q' b -> points_to E t0 int0 m p b) ->
    forall b', points_to E t0 int0 m' q' b' -> obj_marked (mk_tab s2) b' = true).
  { intros m' q' Hs b' Hb'%Hs. by rewrite <- (points_to_det t0 m p b b' Hb Hb'). }
  destruct (Z.eqb_spec (obj_descr t0 b) 0) as [E0|E0].
  - pose proof (rk_nonneg E R b (obj_descr t0 b)). split; [|lia]. eapply minv_weaken; [|exact I2].
    intros m' q' [Hq|Hq]; [|rewrite E0 in Hq; by apply ref_nothing in Hq].
    destruct (HP m' q' Hq) as [?|Hs]; [by right; right|left; by apply Hcov].
  - assert (I3 : minv (fun m' q' => P' m' q' \/ ref E b (obj_descr t0 b) m' q') s2).
    { eapply minv_weaken; [|exact I2]. intros m' q' [Hq|Hq]; [|by right; right; right].
      destruct (HP m' q' Hq) as [?|Hs]; [by right; right; left|left; by apply Hcov]. }
    destruct (push_minv _ P' b (obj_descr t0 b) s2 I3) as [I4 Hw4].
    + rewrite <- (obj_descr_shape t0 (mk_tab s1) b (mi_shape _ _ I1)).
      apply (ms_objs _ _ _ (mi_ok _ _ I1)); [by apply (is_object_shape t0 (mk_tab s1) b (mi_shape _ _ I1))|].
      by rewrite (obj_descr_shape t0 (mk_tab s1) b (mi_shape _ _ I1)).
    + intros m' q' Hq. right. by exists b.
    + intros m' q' [?|?]; [by left|by right].
    + split; [done|lia].
Qed.
End Inv.
End MarkInv.
