(* ===== verification/MarkSample.v ===== *)
(** * A heap to mark

    The bound on the work of marking for heaps without mark procedures and
    per-object descriptors, and a heap of one block of two-granule objects, one of
    which points to another. *)

From Stdlib Require Import ZArith Lia.
From stdpp Require Import base gmap list.
From S2P Require Import Prelude BlackList Scratch Hblk Headers HeadersNav HdrCache MarkBits ObjMap Mark MarkSpec.

Module MarkSample.
Import BlackList Scratch Headers HeadersNav HdrCache MarkBits ObjMap Mark MarkSpec.

(** A range takes as many steps as it has bytes, a bitmap one. *)
Definition plain_ok (s d : Z) : Prop :=
  0 <= d < W64 /\ (tag d = GC_DS_BITMAP \/ (tag d = GC_DS_LENGTH /\ s mod 8 = 0 /\ 8 <= s /\ s + d < W64 /\ d mod 8 = 0)).
Definition plain_weight (s d : Z) : Z := Z.max 0 d + 1.

Lemma plain_length (s d : Z) : plain_ok s d -> tag d = GC_DS_LENGTH ->
  s mod 8 = 0 /\ 8 <= s /\ s + d < W64 /\ d mod 8 = 0
  /\ (1024 <= d -> plain_ok (s + 1016) (d - 1016) /\ plain_weight (s + 1016) (d - 1016) < plain_weight s d).
Proof.
  intros [H [E1|(Ht & H2 & H3 & H4 & H5)]] Hl; [rewrite Hl in E1; discriminate E1|]. split_and!; try done; try lia.
  intros Hd. split; [|unfold plain_weight; lia]. split; [lia|]. right. split_and!; try lia; try dlia.
  unfold tag in *. change GC_DS_TAGS with (2 ^ 2 - 1) in *. rewrite land_low_mask in * by lia.
  change (2 ^ 2) with 4 in *. unfold GC_DS_LENGTH in *. dlia.
Qed.

Lemma plain_other (s d : Z) (A : Prop) : plain_ok s d -> tag d = GC_DS_PROC \/ tag d = GC_DS_PER_OBJECT -> A.
Proof. intros [_ [E|[E _]]] [H|H]; rewrite E in H; discriminate H. Qed.

Definition plain_ranking (E : menv) : ranking E.
Proof.
  refine (Ranking E plain_ok plain_weight _ _ _ plain_length _ _).
  - intros s d. unfold plain_weight. lia.
  - intros s d _. unfold plain_weight. lia.
  - intros s d [H _]. exact H.
  - intros s d H Ht. apply (plain_other s d _ H). by left.
  - intros s d d' H Ht. apply (plain_other s d _ H). by right.
Defined.

(** Objects of 32 bytes with a length descriptor. *)
Definition small_hdr : hdr := GC_clear_hdr_marks (Hdr 0 0 1048576 1 0 7 32 32 (Some 2) 0 ∅).

Definition sample_tab : hdr_state :=
  match GC_init_headers (hdr_init sample_scratch 7) with
  | Some st => match GC_install_header 1048576 st with
               | Some (v, st) => set_hdrs (<[v := small_hdr]> (hdrs st)) st
               | None => st
               end
  | None => hdr_init sample_scratch 7
  end.

(** The first object points to the third. *)
Definition sample_env : menv := {|
  mem := fun a => if a =? 1048576 then 1048640 else 0;
  GC_obj_map := {[2 := new_map 2]};
  offs := Offsets ∅ ∅;
  GC_least_plausible_heap_addr := 1048568;
  GC_greatest_plausible_heap_addr := 1052672;
  GC_mark_procs := fun _ _ _ => [];
  GC_page_was_dirty := fun _ => true;
  GC_incremental := false;
  GC_push_roots_calls := fun _ => [RP_one 1048576];
  GC_scratch_recycle_inner := fun _ _ t => t
|}.

Definition sample_mk (l : list mse) (ms : Z) : mk_state :=
  Mk sample_tab sample_bl l 262144 4096 false ms true NULL.

Lemma sample_tab_facts :
  wf_table sample_tab /\ exists v, 4096 <= v /\ hdr_of sample_tab v = small_hdr
    /\ (forall q, HDRv sample_tab q = if decide (q / 4096 = 256) then v else NULL)
    /\ GC_hdr_cache sample_tab = ∅.
Proof.
  unfold sample_tab. destruct sample_init_wf as (st0 & Hi & Hwf & HE).
  destruct (install_header_spec st0 1048576 Hwf) as (v & st & Hm & Hwf1 & Hc & _ & Hr); [done|].
  rewrite Hi, Hm. destruct Hr as [[-> _]|(Hv & Hs & _ & HE1)].
  { exfalso. vm_compute in Hi. injection Hi as <-. vm_compute in Hm. discriminate Hm. }
  assert (Ev : HDRv st 1048576 = v) by (rewrite HE1; by rewrite decide_True).
  assert (Hp : is_hdr_ptr (HDRv st 1048576) = true) by (rewrite Ev; by apply is_hdr_ptr_ge).
  destruct Hwf1 as (used & A & F & HT). destruct (ti_live _ _ _ _ HT 1048576 Hp) as [H1 H2]. rewrite Ev in H1, H2.
  split; [exists used, A, F; by apply table_inv_hdr|]. exists v. split; [done|]. split.
  { unfold hdr_of. cbn. by rewrite lookup_insert_eq. }
  split; [|done]. intros q. rewrite (HDRv_frame st) by done. rewrite HE1, HE. done.
Qed.

Lemma sample_in_use (q : Z) : in_use sample_tab q <-> q / 4096 = 256.
Proof.
  destruct sample_tab_facts as (_ & v & Hv & Eh & HD & _). unfold in_use. rewrite HD. case_decide.
  - rewrite Eh. split; [done|]. intros _. split; [by apply is_hdr_ptr_ge|done].
  - split; [by intros [? _]|done].
Qed.

Lemma sample_hdr_at (q : Z) : q / 4096 = 256 -> hdr_of sample_tab (HDRv sample_tab q) = small_hdr.
Proof. intros Hq. destruct sample_tab_facts as (_ & v & _ & Eh & HD & _). by rewrite HD, decide_True. Qed.

Lemma small_marks_ok : marks_ok small_hdr.
Proof.
  split_and!; [|done|].
  - intros i. unfold small_hdr, GC_clear_hdr_marks, set_mark_bit_from_hdr. cbn [hb_marks set_hb_marks].
    rewrite aget_insert. unfold W64. case_decide; [|by rewrite aget_empty]. vm_compute. by split.
  - intros _ n Hn. unfold small_hdr. rewrite clear_marks_bit. apply bool_decide_eq_false.
    intros ->. change (hb_sz _) with 32 in Hn. vm_compute in Hn. by destruct Hn.
Qed.

Lemma sample_wf_tab : wf_tab sample_env sample_tab.
Proof.
  destruct sample_tab_facts as (Hwf & v & Hv & Eh & HD & Hc). split; [done| |by apply cache_ok_empty|by rewrite HD|].
  - intros q Hq Hp. rewrite HD in Hq, Hp. case_decide; [|done]. apply is_hdr_ptr_ge in Hv. congruence.
  - intros q Hq%sample_in_use. rewrite sample_hdr_at by done.
    split; [rewrite PTR_ALIGN_DOWN_hblk; cbn; dlia|]. split; [exact small_marks_ok|]. change (is_large small_hdr) with false. cbn iota. exists 2.
    by split_and!.
Qed.

Lemma sample_object (b : Z) : is_object sample_tab b <-> b / 4096 = 256 /\ b mod 32 = 0.
Proof.
  unfold is_object. rewrite sample_in_use. split.
  - intros [Hb Hk]. rewrite (sample_hdr_at b Hb) in Hk. change (is_large small_hdr) with false in Hk.
    cbn iota in Hk. change (hb_sz small_hdr) with 32 in Hk. split; [done|]. dlia.
  - intros [Hb Hk]. split; [done|]. rewrite (sample_hdr_at b Hb). change (is_large small_hdr) with false.
    cbn iota. change (hb_sz small_hdr) with 32. dlia.
Qed.

Lemma marker_env_ok : env_ok sample_env.
Proof. split; [cbn; lia|]. cbn. unfold W64. lia. Qed.

(** The marker about to mark from the first object. *)
Definition sample_stack : list mse := [Mse 1048576 32].

Lemma sample_ok (ms : Z) : mk_ok sample_env (plain_ranking sample_env) (sample_mk sample_stack ms).
Proof.
  split; [exact sample_wf_tab| |].
  - constructor; [|constructor]. split; [done|]. right. by split_and!.
  - intros b Hb _. apply sample_object in Hb as [Hb Hm]. unfold obj_descr. cbn [mk_tab sample_mk] in *.
    rewrite (sample_hdr_at b Hb). split; [done|]. right. change (hb_descr small_hdr) with 32. unfold W64.
    split_and!; try done; dlia.
Qed.

Lemma sample_work (ms : Z) :
  work sample_env (plain_ranking sample_env) (sample_mk sample_stack ms) < W64.
Proof. vm_compute. reflexivity. Qed.

(** The value in the first object refers to the third. *)
Lemma sample_reach : reach sample_env sample_tab true (stack_refs sample_env sample_stack) 1048640.
Proof.
  apply (reach_from _ _ _ _ Heap 1048640).
  - exists (Mse 1048576 32). split; [by left|]. exact (ref_length sample_env 1048576 32 1048576 eq_refl ltac:(done) ltac:(done) eq_refl eq_refl).
  - exists (HDRv sample_tab 1048640). split; [apply finds_first; by apply sample_in_use|].
    rewrite sample_hdr_at by done. reflexivity.
Qed.

Lemma sample_unmarked : obj_marked sample_tab 1048640 = false.
Proof. unfold obj_marked. rewrite sample_hdr_at by done. vm_compute. reflexivity. Qed.

End MarkSample.
