(* ===== verification/MarkFrom.v ===== *)
(** * [GC_mark_from]

    Every loop of [GC_mark_from] ends and keeps the marking invariant; emptying the
    stack marks exactly what can be reached from it. *)

From Stdlib Require Import ZArith Lia.
From stdpp Require Import base gmap list.
From S2P Require Import Prelude BlackList Scratch Hblk Headers HeadersNav HdrCache MarkBits ObjMap Mark MarkSpec MarkVisit MarkInv MarkSample.

Module MarkFrom.
Import BlackList Scratch Headers HeadersNav HdrCache MarkBits ObjMap Mark MarkSpec MarkVisit MarkInv MarkSample.

Section From.
Context (E : menv) (R : ranking E).
Context (t0 : hdr_state) (int0 : bool) (from must : mode -> Z -> Prop).
Context (s0 : mk_state).
Context (W0 : wf_tab E t0) (HE : env_ok E).

Notation minv := (minv E R t0 int0 from must s0).
Notation justified := (justified E t0 int0 from).
Notation work_in := (work_in E R t0).

Lemma plausible_range (q : Z) : plausible E q = true -> 4096 <= q < W64.
Proof.
  unfold plausible. rewrite andb_true_iff, !Z.ltb_lt. destruct HE. lia.
Qed.

(** ** Ranges of words *)

Definition in_range (p limit q : Z) : Prop :=
  exists a, p <= a <= limit /\ (a - p) mod 8 = 0 /\ q = mem E a /\ plausible E q = true.

Lemma defer_spec (p limit : Z) :
  (limit - p) mod 8 = 0 -> p <= limit -> 0 <= p -> limit < W64 ->
  exists r, defer E p limit = Some r /\
    match r with
    | None => forall a, p <= a <= limit -> (a - p) mod 8 = 0 -> plausible E (mem E a) = false
    | Some (d, l) => d = mem E (l + 8) /\ plausible E d = true /\ (l - p) mod 8 = 0 /\ p - 8 <= l < limit
        /\ forall a, l + 8 < a <= limit -> (a - p) mod 8 = 0 -> plausible E (mem E a) = false
    end.
Proof.
  intros Hal Hle Hp Hl. unfold defer.
  apply (loop_spec (fun x => (x - p) mod 8 = 0 /\ p <= x <= limit
    /\ forall a, x < a <= limit -> (a - p) mod 8 = 0 -> plausible E (mem E a) = false) _ (fun x => x - p)).
  - intros x (Hx & Hr & Hn). unfold defer_body. change ALIGNMENT with 8.
    assert (Hn' : forall y, (y - p) mod 8 = 0 -> y <= limit ->
      (forall a, y < a <= limit -> (a - p) mod 8 = 0 -> plausible E (mem E a) = false) ->
      plausible E (mem E y) = false ->
      forall a, y - 8 < a <= limit -> (a - p) mod 8 = 0 -> plausible E (mem E a) = false).
    { intros y Hy Hyl Hya Hyn a Ha Hap. destruct (decide (a = y)) as [->|]; [done|]. apply Hya; [dlia|done]. }
    destruct (plausible E (mem E x)) eqn:E1.
    { replace (x - 8 + 8) with x by lia. split_and!; try done; try lia; dlia. }
    specialize (Hn' x Hx ltac:(lia) Hn E1) as Hn1.
    destruct (Z.ltb_spec (x - 8) p).
    { intros a Ha Hap. apply Hn1; [dlia|done]. }
    destruct (plausible E (mem E (x - 8))) eqn:E2.
    { replace (x - 8 - 8 + 8) with (x - 8) by lia. split_and!; try done; try lia; dlia. }
    specialize (Hn' (x - 8) ltac:(dlia) ltac:(lia) Hn1 E2) as Hn2.
    destruct (Z.ltb_spec (x - 8 - 8) p).
    { intros a Ha Hap. apply Hn2; [dlia|done]. }
    split; [|lia]. split; [dlia|]. split; [lia|]. done.
  - split; [done|]. split; [lia|]. lia.
  - lia.
Qed.

(** Looking at one word, if it is plausible. *)
Lemma word_minv (P P' : mode -> Z -> Prop) (q : Z) (s : mk_state) :
  minv P s -> (plausible E q = true -> justified Heap q) ->
  (forall m' q', P m' q' -> P' m' q' \/ (plausible E q = true /\ m' = Heap /\ q' = q)) ->
  exists s', (if plausible E q then PUSH_CONTENTS E q s else Some s) = Some s'
    /\ minv P' s' /\ work_in s' <= work_in s.
Proof.
  intros I Hj HP. destruct (plausible E q) eqn:Eq.
  - destruct (PUSH_CONTENTS_visit E q s) as (s' & -> & Hv);
      [apply (ms_tab _ _ _ (mi_ok _ _ _ _ _ _ _ _ _ I))|by apply plausible_range|].
    exists s'. split; [done|]. eapply (visit_minv E R t0 int0 from must s0 W0 P P' Heap q s s'); eauto.
    intros m' q' Hq. destruct (HP m' q' Hq) as [?|(_ & -> & ->)]; [by left|by right].
  - exists s. split; [done|]. split; [|lia]. eapply minv_weaken; [|exact I]. intros m' q' Hq.
    destruct (HP m' q' Hq) as [?|[? _]]; [by right; right|done].
Qed.

Lemma scan_spec (P' : mode -> Z -> Prop) (p limit : Z) (s : mk_state) :
  0 <= p -> limit < W64 - 8 -> p <= limit + 8 -> (limit - p) mod 8 = 0 ->
  (forall q, in_range p limit q -> justified Heap q) ->
  minv (fun m q => P' m q \/ (m = Heap /\ in_range p limit q)) s ->
  exists s', scan_words E p limit s = Some s' /\ minv P' s' /\ work_in s' <= work_in s.
Proof.
  intros Hp Hl Hpl Hal Hj I. unfold scan_words.
  destruct (loop_spec
    (fun x => minv (fun m q => P' m q \/ (m = Heap /\ in_range x.1 limit q)) x.2
       /\ p <= x.1 <= limit + 8 /\ (x.1 - p) mod 8 = 0 /\ work_in x.2 <= work_in s)
    (fun r => exists s', r = Some s' /\ minv P' s' /\ work_in s' <= work_in s)
    (fun x => limit + 8 - x.1) (scan_body E limit) (p, s)) as (r & -> & s' & -> & HQ).
  - intros [c s1] (I1 & Hc & Hcal & Hw). cbn [fst snd] in *. unfold scan_body. change ALIGNMENT with 8.
    destruct (Z.leb_spec c limit) as [Hcl|Hcl].
    + destruct (word_minv _ (fun m q => P' m q \/ (m = Heap /\ in_range (c + 8) limit q)) (mem E c) s1 I1)
        as (s2 & -> & I2 & Hw2).
      * intros Hpq. apply Hj. exists c. split_and!; try done; lia.
      * intros m' q' [?|(-> & a & Ha & Haal & -> & Hpl')]; [by left; left|].
        destruct (decide (a = c)) as [->|Hne]; [by right|]. left. right. split; [done|]. exists a.
        split_and!; try done; dlia.
      * cbn [fst snd]. split; [|lia]. split; [done|]. split; [lia|]. split; [dlia|lia].
    + exists s1. split; [done|]. split; [|lia]. eapply minv_weaken; [|exact I1].
      intros m' q' [?|(-> & a & Ha & _)]; [by right; right|lia].
  - cbn. split_and!; try done; try lia. by rewrite Z.sub_diag.
  - cbn. lia.
  - by exists s'.
Qed.

Lemma scan_range_spec (P P' : mode -> Z -> Prop) (p limit : Z) (s : mk_state) :
  0 <= p -> limit < W64 - 8 -> p <= limit -> (limit - p) mod 8 = 0 ->
  (forall q, in_range p limit q -> justified Heap q) ->
  minv P s -> (forall m q, P m q -> P' m q \/ (m = Heap /\ in_range p limit q)) ->
  exists s', scan_range E p limit s = Some s' /\ minv P' s' /\ work_in s' <= work_in s.
Proof.
  intros Hp Hl Hpl Hal Hj I HP. unfold scan_range.
  destruct (defer_spec p limit Hal Hpl Hp ltac:(lia)) as (r & -> & Hr). rewrite some_bind.
  destruct r as [[d l]|].
  - destruct Hr as (-> & Hd & Hlal & Hlr & Hn).
    assert (Hin : in_range p limit (mem E (l + 8))) by (exists (l + 8); split_and!; try done; dlia).
    assert (I1 : minv (fun m q => (P' m q \/ (m = Heap /\ q = mem E (l + 8))) \/ (m = Heap /\ in_range p l q)) s).
    { eapply minv_weaken; [|exact I]. intros m q Hq. right. right.
      destruct (HP m q Hq) as [?|(-> & a & Ha & Haal & -> & Hpq)]; [by left; left|].
      destruct (Z.le_gt_cases a l); [right; split; [done|]; exists a; split_and!; try done; lia|].
      destruct (decide (a = l + 8)) as [->|]; [by left; right|]. rewrite Hn in Hpq; [done|dlia|done]. }
    destruct (scan_spec (fun m q => P' m q \/ (m = Heap /\ q = mem E (l + 8))) p l s) as (s1 & -> & I2 & Hw);
      [done|lia|lia|done| |done|].
    { intros q (a & Ha & Haal & -> & Hpq). apply Hj. exists a. split_and!; try done; lia. }
    rewrite some_bind. destruct (word_minv _ P' (mem E (l + 8)) s1 I2) as (s2 & E2 & I3 & Hw2).
    + intros _. by apply Hj.
    + intros m' q' [?|[-> ->]]; [by left|by right].
    + rewrite Hd in E2. exists s2. split; [done|]. split; [done|lia].
  - exists s. split; [done|]. split; [|lia]. eapply minv_weaken; [|exact I]. intros m q Hq.
    destruct (HP m q Hq) as [?|(-> & a & Ha & Haal & -> & Hpq)]; [by right; right|].
    rewrite Hr in Hpq; done.
Qed.

(** ** Bitmaps *)

Lemma land_pow2 (x n : Z) : 0 <= n -> (Z.land x (2 ^ n) =? 0) = negb (Z.testbit x n).
Proof.
  intros Hn. assert (Hb : forall k, 0 <= k -> Z.testbit (Z.land x (2 ^ n)) k = Z.testbit x k && (n =? k)).
  { intros k Hk. by rewrite Z.land_spec, Z.pow2_bits_eqb. }
  destruct (Z.testbit x n) eqn:Et; cbn [negb].
  - apply Z.eqb_neq. intros E0. specialize (Hb n Hn). rewrite E0, Z.bits_0, Et, Z.eqb_refl in Hb. done.
  - apply Z.eqb_eq, Z.bits_inj'. intros k Hk. rewrite Hb, Z.bits_0 by done.
    destruct (Z.eqb_spec n k) as [<-|]; [by rewrite Et|apply andb_false_r].
Qed.

Definition untagged (descr : Z) : Z := Z.land descr (Z.lxor GC_SIZE_MAX GC_DS_TAGS).

Lemma untagged_bit (descr k : Z) : 0 <= k < 64 ->
  Z.testbit (untagged descr) k = Z.testbit descr k && (2 <=? k).
Proof.
  intros Hk. unfold untagged. rewrite Z.land_spec. f_equal.
  assert (H : forall j, 0 <= j < 64 -> Z.testbit (Z.lxor GC_SIZE_MAX GC_DS_TAGS) j = (2 <=? j)).
  { intros j Hj. rewrite Z.lxor_spec. change GC_SIZE_MAX with (Z.ones 64). change GC_DS_TAGS with (Z.ones 2).
    rewrite !Z.testbit_ones_nonneg by lia. destruct (Z.ltb_spec j 64), (Z.ltb_spec j 2), (Z.leb_spec 2 j); try done; lia. }
  by apply H.
Qed.

Lemma shifted_bit (d k j : Z) : 0 <= k -> 0 <= j < 64 ->
  Z.testbit ((d * 2 ^ k) mod 2 ^ 64) j = Z.testbit d (j - k).
Proof.
  intros Hk Hj. rewrite Z.mod_pow2_bits_low by lia. by apply Z.mul_pow2_bits.
Qed.

(** The values of a bitmap descriptor from bit [k] on. *)
Definition in_bitmap (start descr k q : Z) : Prop :=
  exists i, k <= i < 62 /\ Z.testbit descr (63 - i) = true /\ q = mem E (start + 8 * i) /\ plausible E q = true.

Lemma scan_bitmap_spec (P' : mode -> Z -> Prop) (start descr : Z) (s : mk_state) :
  0 <= descr < W64 -> (forall q, in_bitmap start descr 0 q -> justified Heap q) ->
  minv (fun m q => P' m q \/ (m = Heap /\ in_bitmap start descr 0 q)) s ->
  exists s', scan_bitmap E (untagged descr) start s = Some s' /\ minv P' s' /\ work_in s' <= work_in s.
Proof.
  intros Hd Hj I. unfold scan_bitmap. set (d := untagged descr).
  assert (Hbit : forall i, 0 <= i < 62 -> Z.testbit d (63 - i) = Z.testbit descr (63 - i)).
  { intros i Hi. unfold d. rewrite untagged_bit by lia. rewrite (proj2 (Z.leb_le 2 (63 - i))) by lia. apply andb_true_r. }
  assert (Hd0 : d mod 2 ^ 64 = d).
  { rewrite <- Z.land_ones by lia. unfold d, untagged. by rewrite <- Z.land_assoc. }
  destruct (loop_spec
    (fun x => exists k, 0 <= k <= 64 /\ x.1.1 = (d * 2 ^ k) mod 2 ^ 64 /\ x.1.2 = start + 8 * k
       /\ minv (fun m q => P' m q \/ (m = Heap /\ in_bitmap start descr k q)) x.2 /\ work_in x.2 <= work_in s)
    (fun r => exists s', r = Some s' /\ minv P' s' /\ work_in s' <= work_in s)
    (fun x => start + 8 * 64 - x.1.2) (bitmap_body E) (d, start, s)) as (r & -> & s' & -> & HQ).
  - intros [[dk pk] s1] (k & Hk & Edk & Epk & I1 & Hw). cbn [fst snd] in *. unfold bitmap_body.
    destruct (Z.eqb_spec dk 0) as [E0|E0].
    { exists s1. split; [done|]. split; [|lia]. eapply minv_weaken; [|exact I1].
      intros m q [?|(-> & i & Hi & Hb & _)]; [by right; right|]. exfalso.
      assert (Hz : Z.testbit dk (63 - i + k) = true).
      { rewrite Edk, shifted_bit by lia. replace (63 - i + k - k) with (63 - i) by lia. by rewrite Hbit by lia. }
      by rewrite E0, Z.bits_0 in Hz. }
    assert (Hk64 : k < 64).
    { destruct (decide (k = 64)) as [->|]; [|lia]. exfalso. apply E0. rewrite Edk. apply Z.mod_mul. lia. }
    assert (Enext : wrap64 (Z.shiftl dk 1) = (d * 2 ^ (k + 1)) mod 2 ^ 64).
    { unfold wrap64. change W64 with (2 ^ 64). rewrite Z.shiftl_mul_pow2, Edk, Z.mul_mod_idemp_l by lia.
      f_equal. rewrite Z.pow_add_r by lia. lia. }
    assert (Hgo : forall s2, minv (fun m q => P' m q \/ (m = Heap /\ in_bitmap start descr (k + 1) q)) s2 ->
      work_in s2 <= work_in s ->
      (exists k', 0 <= k' <= 64 /\ wrap64 (Z.shiftl dk 1) = (d * 2 ^ k') mod 2 ^ 64 /\ pk + PTR_BYTES = start + 8 * k'
         /\ minv (fun m q => P' m q \/ (m = Heap /\ in_bitmap start descr k' q)) s2 /\ work_in s2 <= work_in s)
      /\ 0 <= start + 8 * 64 - (pk + PTR_BYTES) < start + 8 * 64 - pk).
    { intros s2 I2 Hw2. change PTR_BYTES with 8. split; [|lia]. exists (k + 1). split_and!; try done; lia. }
    assert (Etb : Z.testbit dk 63 = Z.testbit d (63 - k)) by (rewrite Edk; apply shifted_bit; lia).
    unfold SIGNB. rewrite land_pow2, Etb by lia. destruct (Z.testbit d (63 - k)) eqn:Eb; cbn [negb].
    + assert (Hk62 : k < 62 /\ Z.testbit descr (63 - k) = true).
      { unfold d in Eb. rewrite untagged_bit in Eb by lia. apply andb_true_iff in Eb as [? Hle%Z.leb_le]. split; [lia|done]. }
      destruct Hk62 as [Hk62 Hbk]. destruct (word_minv _ (fun m q => P' m q \/ (m = Heap /\ in_bitmap start descr (k + 1) q)) (mem E pk) s1 I1)
        as (s2 & -> & I2 & Hw2).
      * intros Hpl. apply Hj. exists k. rewrite <- Epk. split_and!; try done; lia.
      * intros m q [?|(-> & i & Hi & Hb & -> & Hpl)]; [by left; left|].
        destruct (decide (i = k)) as [->|]; [right; rewrite Epk; by split_and!|]. left. right. split; [done|].
        exists i. split_and!; try done; lia.
      * apply Hgo; [done|by etrans].
    + apply Hgo; [|done]. eapply minv_weaken; [|exact I1].
      intros m q [?|(-> & i & Hi & Hb & -> & Hpl)]; [by right; right; left|]. right. right. right. split; [done|].
      exists i. destruct (decide (i = k)) as [->|]; [rewrite Hbit in Eb by lia; congruence|]. split_and!; try done; lia.
  - exists 0. cbn. split_and!; try done; try lia.
    all: rewrite ?Z.mul_1_r; try (symmetry; exact Hd0); try lia.
  - cbn [fst snd]. unfold W64. lia.
  - by exists s'.
Qed.

(** ** Mark procedures *)

(** The values an action of a mark procedure has to be marked from. *)
Definition act_ref (a : mp_action) (m : mode) (q : Z) : Prop :=
  match a with
  | MP_MARK_AND_PUSH q' => m = Proc /\ q = q' /\ plausible E q = true
  | MP_mark_and_push_ptrs arr => m = Heap /\ q ∈ arr /\ plausible E q = true
  | MP_push_obj_descr o d => ref E o d m q
  end.

Definition act_work (a : mp_action) : Z :=
  match a with MP_push_obj_descr o d' => rk_weight E R o d' | _ => 0 end.

Lemma mark_and_push_ptrs_minv (P P' : mode -> Z -> Prop) (arr : list Z) (s : mk_state) :
  minv P s -> (forall q, q ∈ arr -> plausible E q = true -> justified Heap q) ->
  (forall m q, P m q -> P' m q \/ (m = Heap /\ q ∈ arr /\ plausible E q = true)) ->
  exists s', GC_mark_and_push_ptrs E arr s = Some s' /\ minv P' s' /\ work_in s' <= work_in s.
Proof.
  revert P s. induction arr as [|q0 arr IH]; intros P s I Hj HP; cbn [GC_mark_and_push_ptrs].
  { exists s. split; [done|]. split; [|lia]. eapply minv_weaken; [|exact I]. intros m q Hq.
    destruct (HP m q Hq) as [?|(_ & Hin & _)]; [by right; right|by apply elem_of_nil in Hin]. }
  destruct (word_minv P (fun m q => P' m q \/ (m = Heap /\ q ∈ arr /\ plausible E q = true)) q0 s I)
    as (s1 & -> & I1 & Hw).
  - intros Hpl. apply Hj; [by left|done].
  - intros m q Hq. destruct (HP m q Hq) as [?|(-> & Hin & Hpl)]; [by left; left|].
    apply elem_of_cons in Hin as [->|Hin]; [by right|by left; right].
  - rewrite some_bind. destruct (IH _ s1 I1) as (s2 & -> & I2 & Hw2); [|done|].
    + intros q Hq. apply Hj. by right.
    + exists s2. split; [done|]. split; [done|lia].
Qed.

Lemma act_minv (P P' : mode -> Z -> Prop) (a : mp_action) (acts : list mp_action) (s : mk_state) :
  minv P s -> (forall m q, act_ref a m q -> justified m q) ->
  (forall o d, a = MP_push_obj_descr o d -> rk_ok E R o d) ->
  (forall m q, P m q -> P' m q \/ act_ref a m q) ->
  exists s1, run_mark_proc E (a :: acts) s = run_mark_proc E acts s1 /\ minv P' s1
    /\ work_in s1 <= work_in s + act_work a.
Proof.
  intros I Hj Hok HP. destruct a as [q0|arr|o d]; cbn [run_mark_proc act_work act_ref] in *.
  - unfold GC_MARK_AND_PUSH. destruct (plausible E q0) eqn:Eq.
    + destruct (GC_mark_and_push_visit E q0 s) as (s1 & -> & Hv);
        [apply (ms_tab _ _ _ (mi_ok _ _ _ _ _ _ _ _ _ I))|pose proof (plausible_range q0 Eq); lia|].
      exists s1. split; [done|]. rewrite Z.add_0_r.
      eapply visit_minv; [done|exact I| |exact Hv|]; [by apply Hj|].
      intros m q Hq. destruct (HP m q Hq) as [?|(-> & -> & _)]; [by left|by right].
    + exists s. split; [done|]. split; [|lia]. eapply minv_weaken; [|exact I]. intros m q Hq. right. right.
      destruct (HP m q Hq) as [?|(_ & -> & Hpl)]; [done|congruence].
  - destruct (mark_and_push_ptrs_minv P P' arr s I) as (s1 & -> & I1 & Hw); [|done|].
    + intros q Hq Hpl. by apply Hj.
    + exists s1. split; [done|]. split; [done|lia].
  - destruct (push_minv E R t0 int0 from must s0 P P' o d s I) as [I1 Hw]; [by apply Hok|done|done|].
    eexists. split; [reflexivity|]. by split.
Qed.

Lemma run_mark_proc_spec (P' : mode -> Z -> Prop) (acts : list mp_action) (s : mk_state) :
  (forall a m q, a ∈ acts -> act_ref a m q -> justified m q) ->
  (forall o d, MP_push_obj_descr o d ∈ acts -> rk_ok E R o d) ->
  minv (fun m q => P' m q \/ exists a, a ∈ acts /\ act_ref a m q) s ->
  exists s', run_mark_proc E acts s = Some s' /\ minv P' s'
    /\ work_in s' <= work_in s
         + foldr (fun a n => n + match a with MP_push_obj_descr o d' => rk_weight E R o d' | _ => 0 end) 0 acts.
Proof.
  revert s. induction acts as [|a acts IH]; intros s Hj Hok I.
  { exists s. split; [done|]. split; [|cbn; lia]. eapply minv_weaken; [|exact I].
    intros m q [?|(a & Hin & _)]; [by right; right|by apply elem_of_nil in Hin]. }
  destruct (act_minv _ (fun m q => P' m q \/ exists a, a ∈ acts /\ act_ref a m q) a acts s I)
    as (s1 & -> & I1 & Hw).
  - intros m q. apply Hj. by left.
  - intros o d ->. apply Hok. by left.
  - intros m q [?|(a' & Hin & Hr)]; [by left; left|]. apply elem_of_cons in Hin as [->|Hin]; [by right|].
    left. right. by exists a'.
  - destruct (IH s1) as (s2 & -> & I2 & Hw2); [|..|done|].
    + intros a' m q Hin. apply Hj. by right.
    + intros o d Hin. apply Hok. by right.
    + exists s2. split; [done|]. split; [done|]. cbn [foldr]. change (match a with MP_push_obj_descr o d' => rk_weight E R o d' | _ => 0 end) with (act_work a). lia.
Qed.

(** ** Descriptors *)

Lemma tag_mod (d : Z) : tag d = d mod 4.
Proof. unfold tag, GC_DS_TAGS, GC_DS_TAG_BITS. change (Z.shiftl 1 2 - 1) with (2 ^ 2 - 1). by apply land_low_mask. Qed.

Lemma ref_per_object_iff (o d : Z) (m : mode) (q : Z) :
  tag d = GC_DS_PER_OBJECT -> ref E o d m q <-> exists d', fetch E o d = Some d' /\ ref E o d' m q.
Proof.
  intros Ht. split.
  - inversion 1; subst; try congruence; [..|eauto]; exfalso;
      match goal with H : tag d = _ |- _ => rewrite Ht in H; discriminate H end.
  - intros (d' & Hf & Hr). by apply (ref_per_object _ o d d').
Qed.

Lemma retry_spec (o d : Z) :
  rk_ok E R o d -> rk_weight E R o d < W64 ->
  exists r, retry E o d = Some r /\
    match r with
    | None => forall m q, ~ ref E o d m q
    | Some d' => rk_ok E R o d' /\ tag d' <> GC_DS_PER_OBJECT /\ rk_weight E R o d' <= rk_weight E R o d
        /\ forall m q, ref E o d m q <-> ref E o d' m q
    end.
Proof.
  intros Hok Hw. unfold retry.
  apply (loop_spec (fun x => rk_ok E R o x /\ rk_weight E R o x <= rk_weight E R o d
    /\ forall m q, ref E o d m q <-> ref E o x m q) _ (fun x => rk_weight E R o x)).
  - intros x (Hx & Hwx & Hr). pose proof (rk_nonneg E R o) as Hn.
    destruct (decide (tag x = GC_DS_PER_OBJECT)) as [Ht|Ht].
    + pose proof (rk_per_object E R o x) as Hper. pose proof (ref_per_object_iff o x) as Hri.
      unfold fetch in Hper, Hri. destruct (retry_body E o x) as [x'|r] eqn:Eb.
      * destruct (Hper x' Hx Ht eq_refl) as [Hx' Hlt]. split; [|pose proof (Hn x'); lia]. split; [done|]. split; [lia|].
        intros m q. rewrite Hr, (Hri m q Ht). split; [by intros (? & [= <-] & ?)|]. intros. by exists x'.
      * assert (r = None) as ->.
        { revert Eb. unfold retry_body. change (Z.land x GC_DS_TAGS) with (tag x). rewrite Ht, Z.eqb_refl.
          repeat case_match; congruence. }
        intros m q. rewrite Hr, (Hri m q Ht). by intros (? & ? & _).
    + unfold retry_body. change (Z.land x GC_DS_TAGS) with (tag x).
      rewrite (proj2 (Z.eqb_neq _ _) Ht). by split_and!.
  - split_and!; done.
  - pose proof (rk_nonneg E R o d). lia.
Qed.

Lemma small_length_test (d : Z) : 0 <= d < W64 ->
  (Z.land d (Z.lor (Z.lxor GC_SIZE_MAX (PTRS_TO_BYTES SPLIT_RANGE_PTRS - 1)) GC_DS_TAGS) =? 0)
  = (d <? 1024) && (tag d =? 0).
Proof.
  intros Hd. rewrite Z.land_lor_distr_r. fold (tag d).
  assert (Eh : Z.land d (Z.lxor GC_SIZE_MAX (PTRS_TO_BYTES SPLIT_RANGE_PTRS - 1)) = d - d mod 1024).
  { change 1024 with (2 ^ 10). rewrite <- land_high_mask by lia.
    assert (Ed : d = Z.land d (Z.ones 64)) by (rewrite Z.land_ones by lia; symmetry; apply Z.mod_small; exact Hd).
    rewrite Ed at 2. rewrite <- Z.land_assoc. reflexivity. }
  rewrite Eh, lor_zero; [|dlia|rewrite tag_mod; dlia]. f_equal.
  apply eq_true_iff_eq. rewrite Z.eqb_eq, Z.ltb_lt. dlia.
Qed.

(** ** One entry *)

Lemma cons_minv (P P' : mode -> Z -> Prop) (o d : Z) (s : mk_state) :
  minv P s -> rk_ok E R o d -> (forall m q, ref E o d m q -> justified m q) ->
  (forall m q, P m q -> P' m q \/ ref E o d m q) ->
  minv P' (set_stack (Mse o d :: GC_mark_stack s) s)
  /\ work_in (set_stack (Mse o d :: GC_mark_stack s) s) = work_in s + rk_weight E R o d.
Proof.
  intros I Hok Hj HP. set (s' := set_stack _ s).
  split; [|unfold MarkInv.work_in, s'; cbn; unfold stack_work; cbn; lia].
  destruct I as [[M1 M2 M3] H2 H3 H4 H5 H6 H7 H9]. split; try done.
  - split; try done. by constructor.
  - intros m q Hs. apply stack_refs_cons in Hs as [Hr|Hr]; [by apply Hj|by apply H6].
  - destruct H7 as [?|[H7 H8]]; [by left|right].
    assert (Hc : forall m q, covered E t0 int0 P s m q -> covered E t0 int0 P' s' m q).
    { intros m q [?|[Hs|HPq]]; [by left|right; left; apply stack_refs_cons; by right|].
      destruct (HP m q HPq); [by right; right|right; left; apply stack_refs_cons; by left]. }
    split; [intros; by apply Hc, H7|intros; apply Hc; eapply H8; eauto].
Qed.

Lemma pop_minv (e : mse) (rest : list mse) (s : mk_state) :
  GC_mark_stack s = e :: rest -> minv (fun _ _ => False) s ->
  minv (fun m q => ref E (mse_start e) (mse_descr e) m q) (set_stack rest s)
  /\ work_in (set_stack rest s) + rk_weight E R (mse_start e) (mse_descr e) = work_in s
  /\ rk_ok E R (mse_start e) (mse_descr e)
  /\ forall m q, ref E (mse_start e) (mse_descr e) m q -> justified m q.
Proof.
  intros Es I. destruct I as [[M1 M2 M3] H2 H3 H4 H5 H6 H7 H9]. rewrite Es in M2.
  apply Forall_cons in M2 as [Hok Hrest]. split_and!; try done.
  - split; try done.
    + intros m q Hr. apply H6. rewrite Es. apply stack_refs_cons. by right.
    + destruct H7 as [?|[H7 H8]]; [by left|right].
      assert (Hc : forall m q, covered E t0 int0 (fun _ _ => False) s m q ->
        covered E t0 int0 (fun m q => ref E (mse_start e) (mse_descr e) m q) (set_stack rest s) m q).
      { intros m q [?|[Hs|[]]]; [by left|]. rewrite Es in Hs. apply stack_refs_cons in Hs as [?|?];
          [by right; right|by right; left]. }
      split; [intros; by apply Hc, H7|intros; apply Hc; eapply H8; eauto].
  - unfold MarkInv.work_in. rewrite Es. cbn. unfold stack_work. cbn. lia.
  - intros m q Hr. apply H6. rewrite Es. apply stack_refs_cons. by left.
Qed.

Lemma mark_length_spec (o d : Z) (s : mk_state) :
  rk_ok E R o d -> tag d = GC_DS_LENGTH ->
  minv (fun m q => ref E o d m q) s -> (forall m q, ref E o d m q -> justified m q) ->
  exists c s', mark_entry E o d s = Some (c, s') /\ minv (fun _ _ => False) s'
    /\ work_in s' < work_in s + rk_weight E R o d.
Proof.
  intros Hok Ht I Hj. pose proof (rk_word E R o d Hok) as Hd. pose proof (rk_pos E R o d Hok) as Hpos.
  destruct (rk_length E R o d Hok Ht) as (Ho8 & Ho & Hod & Hd8 & Hlong).
  unfold mark_entry. rewrite small_length_test, Ht by done. fold (tag d). rewrite Ht.
  change (GC_DS_LENGTH =? 0) with true. change (GC_DS_LENGTH =? GC_DS_LENGTH) with true.
  change (PTRS_TO_BYTES (SPLIT_RANGE_PTRS - 1)) with 1016. change PTR_BYTES with 8. change ALIGNMENT with 8.
  assert (Hin : forall l q, l + 8 <= o + d -> in_range o l q -> ref E o d Heap q).
  { intros l q Hl (a & Ha & Haal & -> & Hpl). apply ref_length; try done; try lia. change PTR_BYTES with 8. lia. }
  rewrite andb_true_r. destruct (Z.ltb_spec d 1024) as [Hlt|Hge]; cbn [negb].
  - destruct (Z.ltb_spec d 8) as [Hs|Hs].
    + exists 0, s. split; [done|]. split; [|lia]. eapply minv_weaken; [|exact I]. intros m q Hr. exfalso.
      inversion Hr; subst; try congruence; unfold PTR_BYTES in *; try lia;
        match goal with H : tag d = _ |- _ => rewrite Ht in H; discriminate H end.
    + destruct (scan_range_spec (fun m q => ref E o d m q) (fun _ _ => False) o (o + d - 8) s)
        as (s' & -> & I' & Hw); [lia|lia|lia|dlia| |done| |].
      * intros q Hq. apply Hj. apply (Hin (o + d - 8)); [lia|done].
      * intros m q Hr. right. inversion Hr; subst;
          try (match goal with H : tag d = _ |- _ => rewrite Ht in H; discriminate H end).
        split; [done|]. unfold PTR_BYTES in *. exists a. split_and!; try done; lia.
      * rewrite some_bind. exists d, s'. split; [done|]. split; [done|lia].
  - destruct (Hlong Hge) as [Hok' Hw'].
    assert (Ht' : tag (d - 1016) = GC_DS_LENGTH) by (rewrite tag_mod in *; unfold GC_DS_LENGTH in *; dlia).
    destruct (cons_minv (fun m q => ref E o d m q) (fun m q => m = Heap /\ in_range o (o + 1016 - 8) q)
      (o + 1016) (d - 1016) s I Hok') as [I1 Hw1].
    { intros m q Hr. apply Hj. inversion Hr; subst; try (match goal with H : tag _ = _ |- _ => rewrite Ht' in H; discriminate H end).
      unfold PTR_BYTES in *. apply ref_length; unfold PTR_BYTES; try done; try lia. dlia. }
    { intros m q Hr. inversion Hr; subst; try (match goal with H : tag d = _ |- _ => rewrite Ht in H; discriminate H end).
      unfold PTR_BYTES in *. destruct (Z.le_gt_cases (o + 1016) a).
      - right. apply ref_length; unfold PTR_BYTES; try done; try lia. dlia.
      - left. split; [done|]. exists a. split_and!; try done; dlia. }
    destruct (scan_range_spec (fun m q => m = Heap /\ in_range o (o + 1016 - 8) q) (fun _ _ => False)
      o (o + 1016 + (8 - 8) - 8) (set_stack (Mse (o + 1016) (d - 1016) :: GC_mark_stack s) s))
      as (s' & -> & I2 & Hw2); [lia|lia|lia|dlia| |done| |].
    + intros q Hq. apply Hj. apply (Hin (o + 1016 + (8 - 8) - 8)); [lia|done].
    + intros m q [-> Hq]. right. split; [done|]. by replace (o + 1016 + (8 - 8) - 8) with (o + 1016 - 8) by lia.
    + rewrite some_bind. eexists _, s'. split; [reflexivity|]. split; [done|lia].
Qed.

Lemma mark_entry_spec (o d : Z) (s : mk_state) :
  rk_ok E R o d -> tag d <> GC_DS_PER_OBJECT ->
  minv (fun m q => ref E o d m q) s -> (forall m q, ref E o d m q -> justified m q) ->
  exists c s', mark_entry E o d s = Some (c, s') /\ minv (fun _ _ => False) s'
    /\ work_in s' < work_in s + rk_weight E R o d.
Proof.
  intros Hok Ht I Hj. pose proof (rk_word E R o d Hok) as Hd. pose proof (rk_pos E R o d Hok) as Hpos.
  destruct (decide (tag d = GC_DS_LENGTH)) as [Hl|Hl]; [by apply mark_length_spec|].
  unfold mark_entry. rewrite small_length_test by done. fold (tag d).
  rewrite (proj2 (Z.eqb_neq (tag d) 0)) by done. rewrite andb_false_r. cbn [negb].
  rewrite (proj2 (Z.eqb_neq (tag d) GC_DS_LENGTH)) by done.
  destruct (Z.eqb_spec (tag d) GC_DS_BITMAP) as [Hb|Hb].
  - destruct (scan_bitmap_spec (fun _ _ => False) o d s Hd) as (s' & Es & I' & Hw).
    + intros q (i & Hi & Hbt & -> & Hpl). apply Hj. by apply ref_bitmap.
    + eapply minv_weaken; [|exact I]. intros m q Hr. right. right. right.
      inversion Hr; subst; try congruence; try (match goal with H : tag d = _ |- _ => rewrite Hb in H; discriminate H end).
      split; [done|]. exists i. unfold CPP_WORDSZ, GC_DS_TAG_BITS in *. split_and!; try done; lia.
    + fold (untagged d). rewrite Es, some_bind. eexists _, s'. split; [reflexivity|]. split; [done|lia].
  - assert (Hp : tag d = GC_DS_PROC).
    { rewrite tag_mod in *. unfold GC_DS_LENGTH, GC_DS_BITMAP, GC_DS_PROC, GC_DS_PER_OBJECT in *. dlia. }
    destruct (rk_proc E R o d Hok Hp) as [Hacts Hsum]. cbn zeta in *. set (acts := GC_mark_procs E _ _ _) in *.
    assert (Hact : forall m q, ref E o d m q <-> exists a, a ∈ acts /\ act_ref a m q).
    { intros m q. split.
      - inversion 1; subst; try congruence; try (match goal with H : tag d = _ |- _ => rewrite Hp in H; discriminate H end);
          (eexists; split; [eassumption|]); by cbn.
      - intros ([q0|arr|o' d'] & Hin & Hr); cbn in Hr.
        + destruct Hr as (-> & -> & Hpl). by apply ref_proc_push.
        + destruct Hr as (-> & Hq & Hpl). by apply (ref_proc_ptrs _ o d arr).
        + by apply (ref_proc_descr _ o d o' d'). }
    destruct (run_mark_proc_spec (fun _ _ => False) acts s) as (s' & -> & I' & Hw).
    + intros a m q Hin Hr. apply Hj, Hact. by exists a.
    + intros o' d' Hin. by apply Hacts.
    + eapply minv_weaken; [|exact I]. intros m q Hr%Hact. right. right. by right.
    + rewrite some_bind. eexists _, s'. split; [reflexivity|]. split; [done|lia].
Qed.

(** ** The loops over the stack *)

Notation settled := (minv (fun _ _ => False)).

Lemma minv_set_marked (P : mode -> Z -> Prop) (s : mk_state) : minv P s -> minv P (set_marked true s).
Proof.
  intros [[M1 M2 M3] H2 H3 H4 H5 H6 H7 (F1 & F2 & F3 & F4 & F5)]. by split; [..|split_and!].
Qed.

Lemma work_in_nonneg (s : mk_state) : 0 <= work_in s.
Proof.
  unfold MarkInv.work_in. pose proof (stack_work_nonneg E R (GC_mark_stack s)).
  pose proof (unmarked_in_nonneg E R t0 (mk_tab s)). lia.
Qed.

Lemma mark_from_step (c : Z) (s : mk_state) :
  settled s -> work_in s < W64 ->
  match mark_from_body E (c, s) with
  | inl (c', s') => settled s' /\ work_in s' < work_in s
  | inr r => r = Some s /\ (GC_mark_stack s = [] \/ c < 0)
  end.
Proof.
  intros I Hw. unfold mark_from_body. destruct (GC_mark_stack s) as [|e rest] eqn:Es; [by split; [|left]|].
  destruct (Z.ltb_spec c 0); [by split; [|right]|].
  destruct (pop_minv e rest s Es I) as (I1 & Hw1 & Hok & Hj).
  pose proof (work_in_nonneg (set_stack rest s)). pose proof (rk_pos E R _ _ Hok).
  destruct (retry_spec (mse_start e) (mse_descr e) Hok) as (r & -> & Hr); [lia|].
  destruct r as [d|].
  - destruct Hr as (Hok' & Ht & Hwd & Hr).
    destruct (mark_entry_spec (mse_start e) d (set_stack rest s) Hok' Ht) as (c' & s' & -> & I2 & Hw2).
    + eapply minv_weaken; [|exact I1]. intros m q Hq. right. right. by apply Hr.
    + intros m q Hq. by apply Hj, Hr.
    + split; [done|lia].
  - split; [|lia]. eapply minv_weaken; [|exact I1]. intros m q Hq. by apply Hr in Hq.
Qed.

(** [GC_mark_from] returns, keeps the invariant, and makes progress. *)
Lemma mark_from_settled (s : mk_state) :
  settled s -> work_in s < W64 ->
  exists s', GC_mark_from E s = Some s' /\ settled s' /\ work_in s' <= work_in s
    /\ (GC_mark_stack s <> [] -> work_in s' < work_in s).
Proof.
  intros I Hw. unfold GC_mark_from. pose proof (minv_set_marked _ s I) as I0. set (s1' := set_marked true s) in *.
  assert (Ew : work_in s1' = work_in s) by done.
  destruct (loop_spec (fun x => settled x.2 /\ (x = (HBLKSIZE, s1') \/ work_in x.2 < work_in s))
    (fun r => exists s', r = Some s' /\ settled s' /\ work_in s' <= work_in s
       /\ (GC_mark_stack s <> [] -> work_in s' < work_in s))
    (fun x => work_in x.2) (mark_from_body E) (HBLKSIZE, s1')) as (r & -> & s' & -> & HQ).
  - intros [c s1] [I1 Hc]. cbn [fst snd] in *.
    assert (Hle : work_in s1 <= work_in s) by (destruct Hc as [[= -> ->]|]; lia).
    pose proof (mark_from_step c s1 I1 ltac:(lia)) as Hs. destruct (mark_from_body E (c, s1)) as [[c' s']|r].
    + destruct Hs as [I2 Hw2]. cbn [fst snd]. pose proof (work_in_nonneg s'). split; [split; [done|right; lia]|lia].
    + destruct Hs as [-> Hend]. exists s1. split_and!; try done. intros Hne.
      destruct Hc as [[= -> ->]|]; [|done]. destruct Hend as [Hend|Hend]; [by destruct Hne|]. unfold HBLKSIZE in Hend. done.
  - cbn. split; [done|by left].
  - cbn [snd]. pose proof (work_in_nonneg s1'). lia.
  - by exists s'.
Qed.

Lemma mark_drain_settled (s : mk_state) :
  settled s -> work_in s < W64 ->
  exists s', mark_drain E s = Some s' /\ settled s' /\ GC_mark_stack s' = [] /\ work_in s' <= work_in s.
Proof.
  intros I Hw. unfold mark_drain.
  destruct (loop_spec (fun x => settled x /\ work_in x <= work_in s)
    (fun r => exists s', r = Some s' /\ settled s' /\ GC_mark_stack s' = [] /\ work_in s' <= work_in s)
    work_in (mark_drain_body E) s) as (r & -> & s' & -> & HQ).
  - intros x [Ix Hx]. unfold mark_drain_body, GC_mark_stack_empty, depth.
    destruct (Z.leb_spec (Z.of_nat (length (GC_mark_stack x))) 0) as [He|He].
    + exists x. split_and!; try done. apply nil_length_inv. lia.
    + unfold MARK_FROM_MARK_STACK. destruct (mark_from_settled x Ix ltac:(lia)) as (s' & -> & I' & Hw' & Hlt).
      pose proof (work_in_nonneg s'). split; [split; [done|lia]|]. split; [lia|]. apply Hlt. intros E0. by rewrite E0 in He.
  - split; [done|lia].
  - pose proof (work_in_nonneg s). lia.
  - by exists s'.
Qed.

(** With an empty stack and nothing pending, everything reachable is marked. *)
Lemma settled_complete (s : mk_state) (b : Z) :
  settled s -> GC_mark_stack s = [] -> ~ lost s -> reach E t0 int0 must b -> obj_marked (mk_tab s) b = true.
Proof.
  intros I Es Hl. destruct (mi_comp _ _ _ _ _ _ _ _ _ I) as [|[H7 H8]]; [done|].
  assert (Hc : forall m q b, covered E t0 int0 (fun _ _ => False) s m q -> points_to E t0 int0 m q b ->
    obj_marked (mk_tab s) b = true).
  { intros m q b' [Hq|[(e & He & _)|[]]] Hb; [by apply Hq|]. rewrite Es in He. by apply elem_of_nil in He. }
  induction 1 as [m q b Hf Hp|b m q b' Hr IH Ho Hm Hq Hp]; [by apply (Hc m q); [apply H7|]|].
  apply (Hc m q); [by apply (H8 b)|done].
Qed.
End From.

(** ** Correctness *)

(** The invariant holds when marking starts. *)
Lemma settled_start (E : menv) (R : ranking E) (from must : mode -> Z -> Prop) (s : mk_state) :
  mk_ok E R s -> (forall m q, stack_refs E (GC_mark_stack s) m q -> from m q) ->
  (forall m q, must m q ->
     covered E (mk_tab s) (GC_all_interior_pointers (mk_bl s)) (fun _ _ => False) s m q) ->
  minv E R (mk_tab s) (GC_all_interior_pointers (mk_bl s)) from must s (fun _ _ => False) s.
Proof.
  intros M Hf Hm. split; try done; [intros b _ ?; by left|intros m q ?; left; by apply Hf| |by split_and!; try left].
  right. split; [done|]. intros b m q _ H1 H2. congruence.
Qed.

Lemma mark_drain_spec (E : menv) (R : ranking E) (s : mk_state) :
  env_ok E -> mk_ok E R s -> work E R s < W64 ->
  let reachable := reach E (mk_tab s) (GC_all_interior_pointers (mk_bl s)) (stack_refs E (GC_mark_stack s)) in
  exists s', mark_drain E s = Some s' /\ GC_mark_stack s' = [] /\ mk_ok E R s' /\ shape (mk_tab s) (mk_tab s')
    /\ (forall b, is_object (mk_tab s) b -> obj_marked (mk_tab s') b = true ->
          obj_marked (mk_tab s) b = true \/ reachable b)
    /\ (forall b, obj_marked (mk_tab s) b = true -> obj_marked (mk_tab s') b = true)
    /\ (~ lost s' -> forall b, reachable b -> obj_marked (mk_tab s') b = true).
Proof.
  intros HE M Hw reachable. set (from := stack_refs E (GC_mark_stack s)) in *.
  assert (I := settled_start E R from from s M (fun m q H => H) (fun m q H => or_intror (or_introl H))).
  destruct (mark_drain_settled E R _ _ _ _ _ (ms_tab _ _ _ M) HE s I Hw) as (s' & Ed & I' & Es & _).
  exists s'. split_and!; try done; try apply I'.
  intros Hl b. by apply (settled_complete E R _ _ from from s s').
Qed.

(** C10: marking to the end of the stack ([GC_mark_fo]'s loop over
    [MARK_FROM_MARK_STACK]) always ends, with an empty stack, and marks exactly the
    objects that can be reached from the values on the stack through objects that
    were not marked: whatever else is marked was marked before, and nothing
    reachable is missed unless the stack overflowed, which is reported in the mark
    state.  It changes nothing of the headers but their marks. *)
Theorem mark_drain_correct (E : menv) (R : ranking E) (s : mk_state)
    (HE : env_ok E) (Hok : mk_ok E R s) (Hwork : work E R s < W64) :
  let reachable := reach E (mk_tab s) (GC_all_interior_pointers (mk_bl s)) (stack_refs E (GC_mark_stack s)) in
  exists s', mark_drain E s = Some s' /\ GC_mark_stack s' = [] /\ mk_ok E R s' /\ shape (mk_tab s) (mk_tab s')
    /\ (forall b, is_object (mk_tab s) b -> obj_marked (mk_tab s') b = true ->
          obj_marked (mk_tab s) b = true \/ reachable b)
    /\ ((GC_mark_stack_too_small s' = true /\ GC_mark_state s' = MS_INVALID)
        \/ forall b, obj_marked (mk_tab s) b = true \/ reachable b -> obj_marked (mk_tab s') b = true).
Proof.
  intros reachable. destruct (mark_drain_spec E R s HE Hok Hwork) as (s' & H1 & H2 & H3 & H4 & H5 & H6 & H7).
  exists s'. split_and!; try done. destruct (decide (GC_mark_stack_too_small s' = true /\ GC_mark_state s' = MS_INVALID)) as [?|Hn];
    [by left|right]. intros b [Hb|Hb]; [by apply H6|by apply H7].
Qed.

Lemma mark_drain_correct_witness :
  exists s', mark_drain sample_env (sample_mk sample_stack MS_ROOTS_PUSHED) = Some s'
    /\ GC_mark_stack s' = []
    /\ (GC_mark_state s' = MS_INVALID \/ obj_marked (mk_tab s') 1048640 = true).
Proof.
  destruct (mark_drain_correct sample_env (plain_ranking sample_env) (sample_mk sample_stack MS_ROOTS_PUSHED)
    marker_env_ok (sample_ok _) (sample_work _)) as (s' & H1 & H2 & _ & _ & _ & H3).
  exists s'. split; [exact H1|]. split; [exact H2|]. destruct H3 as [[_ H3]|H3]; [by left|right].
  apply H3. right. exact sample_reach.
Defined.

(** one call of [GC_mark_from] always returns, and leaves less work unless the
    stack was empty.  It marks only objects that were reachable from the stack, and
    whatever was reachable is then marked or reachable from the new stack, unless
    the stack overflowed. *)
Theorem GC_mark_from_correct (E : menv) (R : ranking E) (s : mk_state)
    (HE : env_ok E) (Hok : mk_ok E R s) (Hwork : work E R s < W64) :
  let interior := GC_all_interior_pointers (mk_bl s) in
  let reachable := reach E (mk_tab s) interior (stack_refs E (GC_mark_stack s)) in
  exists s', GC_mark_from E s = Some s' /\ mk_ok E R s' /\ shape (mk_tab s) (mk_tab s')
    /\ (GC_mark_stack s <> [] -> work_in E R (mk_tab s) s' < work E R s)
    /\ (forall b, is_object (mk_tab s) b -> obj_marked (mk_tab s') b = true ->
          obj_marked (mk_tab s) b = true \/ reachable b)
    /\ (lost s' \/ forall b, reachable b ->
          obj_marked (mk_tab s') b = true
          \/ reach E (mk_tab s') interior (stack_refs E (GC_mark_stack s')) b).
Proof.
  intros interior reachable. set (from := stack_refs E (GC_mark_stack s)) in *.
  assert (I := settled_start E R from from s Hok (fun m q H => H) (fun m q H => or_intror (or_introl H))).
  destruct (mark_from_settled E R _ _ _ _ _ (ms_tab _ _ _ Hok) HE s I Hwork) as (s' & Ed & I' & _ & Hlt).
  exists s'. split_and!; try done; try apply I'. destruct (mi_comp _ _ _ _ _ _ _ _ _ I') as [?|[H7 H8]]; [by left|right].
  pose proof (mi_shape _ _ _ _ _ _ _ _ _ I') as S.
  assert (Hc : forall m q b, covered E (mk_tab s) interior (fun _ _ => False) s' m q ->
    points_to E (mk_tab s) interior m q b ->
    obj_marked (mk_tab s') b = true \/ reach E (mk_tab s') interior (stack_refs E (GC_mark_stack s')) b).
  { intros m q b [Hq|[Hq|[]]] Hb; [left; by apply Hq|right]. apply (reach_from _ _ _ _ m q); [done|].
    by apply (points_to_shape E (mk_tab s)). }
  induction 1 as [m q b Hf Hp|b m q b' Hr IH Ho Hm Hq Hp]; [by apply (Hc m q); [apply H7|]|].
  destruct (obj_marked (mk_tab s') b) eqn:Em; [by apply (Hc m q); [apply (H8 b)|]|].
  right. destruct IH as [?|IH]; [done|]. apply (reach_step _ _ _ _ b m q); [done|..|done| |].
  - by apply (is_object_shape (mk_tab s)).
  - by rewrite (obj_descr_shape (mk_tab s)).
  - by apply (points_to_shape E (mk_tab s)).
Qed.

Lemma GC_mark_from_correct_witness :
  exists s', GC_mark_from sample_env (sample_mk sample_stack MS_ROOTS_PUSHED) = Some s'
    /\ (lost s' \/ obj_marked (mk_tab s') 1048640 = true
        \/ reach sample_env (mk_tab s') true (stack_refs sample_env (GC_mark_stack s')) 1048640).
Proof.
  destruct (GC_mark_from_correct sample_env (plain_ranking sample_env) (sample_mk sample_stack MS_ROOTS_PUSHED)
    marker_env_ok (sample_ok _) (sample_work _)) as (s' & H1 & _ & _ & _ & _ & H2).
  exists s'. split; [exact H1|]. destruct H2 as [?|H2]; [by left|right]. apply H2. exact sample_reach.
Defined.
End MarkFrom.
