(* ===== verification/MarkPush.v ===== *)
(** * Pushing marked blocks and roots

    [GC_push_marked] with its variants for small objects, [GC_push_unconditionally]
    and the pushing of root ranges and stacks keep the marking invariant, and leave
    nothing of what they push uncovered unless the stack overflows. *)

From Stdlib Require Import ZArith Lia.
From stdpp Require Import base gmap list.
From S2P Require Import Prelude BlackList Scratch Hblk Headers HeadersNav HdrCache MarkBits ObjMap Mark MarkSpec MarkVisit MarkInv MarkSample MarkFrom.

Module MarkPush.
Import BlackList Scratch Headers HeadersNav HdrCache MarkBits ObjMap Mark MarkSpec MarkVisit MarkInv MarkFrom.

Section Push.
Context (E : menv) (R : ranking E).
Context (t0 : hdr_state) (int0 : bool) (must : mode -> Z -> Prop) (s0 : mk_state).
Context (W0 : wf_tab E t0) (HE : env_ok E).

Notation minv := (minv E R t0 int0 (fun _ _ => True) must s0).

Lemma any_justified (m : mode) (q : Z) : justified E t0 int0 (fun _ _ => True) m q.
Proof. by left. Qed.

Lemma minv_wf (P : mode -> Z -> Prop) (s : mk_state) : minv P s -> wf_tab E (mk_tab s).
Proof. intros I. apply (ms_tab _ _ _ (mi_ok _ _ _ _ _ _ _ _ _ I)). Qed.

(** ** The same value looked at in different ways *)

Lemma points_to_proc (m : mode) (p b : Z) :
  m <> Stack -> points_to E t0 int0 m p b -> points_to E t0 int0 Proc p b.
Proof.
  intros Hm (v & Hf & Hh). exists v. split; [|by destruct m].
  destruct Hf as [|start sz [?|?]]; [by apply finds_first|done|].
  apply (finds_interior _ _ _ _ start sz); try done. by right.
Qed.

Lemma points_to_stack (m : mode) (p b : Z) : points_to E t0 int0 m p b -> points_to E t0 int0 Stack p b.
Proof.
  intros (v & Hf & Hh). exists v. split.
  - destruct Hf as [|start sz]; [by apply finds_first|].
    apply (finds_interior _ _ _ _ start sz); try done. by left.
  - revert Hh. unfold hit. cbn [checks negb]. rewrite andb_false_r, orb_true_r. cbn [andb orb].
    destruct (is_large _); [by case_match|]. by case_match.
Qed.

Lemma ref_mode (o d : Z) (m : mode) (q : Z) : ref E o d m q -> m <> Stack /\ plausible E q = true.
Proof. induction 1; done. Qed.

Lemma heap_word_minv (P P' : mode -> Z -> Prop) (p : Z) (s : mk_state) :
  minv P s -> (forall m q, P m q -> P' m q \/ (m <> Stack /\ q = p /\ plausible E q = true)) ->
  exists s', GC_PUSH_ONE_HEAP E p s = Some s' /\ minv P' s'.
Proof.
  intros I HP. unfold GC_PUSH_ONE_HEAP. destruct (plausible E p) eqn:Ep.
  - destruct (GC_mark_and_push_visit E p s (minv_wf _ _ I)) as (s' & -> & Hv);
      [pose proof (plausible_range E HE p Ep); lia|].
    exists s'. split; [done|]. eapply visit_minv; [done|exact I|apply any_justified|exact Hv|].
    intros m q Hq. destruct (HP m q Hq) as [?|(Hm & -> & _)]; [by left|right]. intros b. by apply points_to_proc.
  - exists s. split; [done|]. eapply minv_weaken; [|exact I]. intros m q Hq. right. right.
    destruct (HP m q Hq) as [?|(_ & -> & ?)]; [done|congruence].
Qed.

Lemma stack_word_minv (P P' : mode -> Z -> Prop) (p : Z) (s : mk_state) :
  minv P s -> (forall m q, P m q -> P' m q \/ (q = p /\ plausible E q = true)) ->
  exists s', GC_PUSH_ONE_STACK E p s = Some s' /\ minv P' s'.
Proof.
  intros I HP. unfold GC_PUSH_ONE_STACK. destruct (plausible E p) eqn:Ep.
  - destruct (GC_mark_and_push_stack_visit E p s (minv_wf _ _ I)) as (s' & -> & Hv);
      [pose proof (plausible_range E HE p Ep); lia|].
    exists s'. split; [done|]. eapply visit_minv; [done|exact I|apply any_justified|exact Hv|].
    intros m q Hq. destruct (HP m q Hq) as [?|(-> & _)]; [by left|right]. intros b. apply points_to_stack.
  - exists s. split; [done|]. eapply minv_weaken; [|exact I]. intros m q Hq. right. right.
    destruct (HP m q Hq) as [?|(-> & ?)]; [done|congruence].
Qed.

(** ** Blocks of objects of one, two or four granules *)

(** The values in [n] bytes from [b]. *)
Definition obj_word (b n : Z) (m : mode) (q : Z) : Prop :=
  m <> Stack /\ exists a, b <= a < b + n /\ (a - b) mod 8 = 0 /\ q = mem E a /\ plausible E q = true.

Lemma push_granules_minv (n : nat) (P P' : mode -> Z -> Prop) (q : Z) (s : mk_state) :
  minv P s -> (forall m x, P m x -> P' m x \/ obj_word q (16 * Z.of_nat n) m x) ->
  exists s', push_granules E n q s = Some s' /\ minv P' s'.
Proof.
  revert P q s. induction n as [|n IH]; intros P q s I HP; cbn [push_granules].
  { exists s. split; [done|]. eapply minv_weaken; [|exact I]. intros m x Hx. right. right.
    destruct (HP m x Hx) as [?|(_ & a & Ha & _)]; [done|lia]. }
  unfold PUSH_GRANULE. change PTR_BYTES with 8. change GC_GRANULE_BYTES with 16.
  set (P1 := fun m x => P' m x \/ obj_word (q + 16) (16 * Z.of_nat n) m x).
  destruct (heap_word_minv P (fun m x => P1 m x \/ (m <> Stack /\ x = mem E (q + 8) /\ plausible E x = true))
    (mem E q) s I) as (s1 & -> & I1).
  { intros m x Hx. destruct (HP m x Hx) as [?|(Hm & a & Ha & Hal & -> & Hpl)]; [by left; left; left|].
    destruct (decide (a = q)) as [->|]; [by right|]. left. destruct (decide (a = q + 8)) as [->|]; [by right|].
    left. right. split; [done|]. exists a. split_and!; try done; dlia. }
  rewrite some_bind. destruct (heap_word_minv _ P1 (mem E (q + 8)) s1 I1) as (s2 & -> & I2).
  { intros m x [?|?]; [by left|by right]. }
  rewrite some_bind. apply (IH P1 (q + 16) s2 I2). done.
Qed.

(** The objects of a mark word: bit [i] is for the object [16 * i] bytes on. *)
Lemma marked_bits_minv (n w q : Z) (P P' : mode -> Z -> Prop) (s : mk_state) :
  0 < n -> 0 <= w < W64 -> minv P s ->
  (forall m x, P m x -> P' m x \/ exists k, 0 <= k /\ Z.testbit w (n * k) = true /\ obj_word (q + 16 * (n * k)) (16 * n) m x) ->
  exists s', marked_bits E n w q s = Some s' /\ minv P' s'.
Proof.
  intros Hn Hw I HP. unfold marked_bits.
  destruct (loop_spec
    (fun x => 0 <= x.1.1 < W64 /\ minv (fun m y => P' m y \/ exists k, 0 <= k /\ Z.testbit x.1.1 (n * k) = true
         /\ obj_word (x.1.2 + 16 * (n * k)) (16 * n) m y) x.2)
    (fun r => exists s', r = Some s' /\ minv P' s')
    (fun x => x.1.1) (marked_bits_body E n) (w, q, s)) as (r & -> & s' & -> & HQ).
  - intros [[wk qk] s1] [Hwk I1]. cbn [fst snd] in *. unfold marked_bits_body.
    destruct (Z.eqb_spec wk 0) as [->|Hne].
    { exists s1. split; [done|]. eapply minv_weaken; [|exact I1].
      intros m y [?|(k & _ & Hb & _)]; [by right; right|]. by rewrite Z.bits_0 in Hb. }
    set (Pn := fun m y => P' m y \/ exists k, 0 <= k /\ Z.testbit (Z.shiftr wk n) (n * k) = true
      /\ obj_word (qk + n * GC_GRANULE_BYTES + 16 * (n * k)) (16 * n) m y).
    assert (Hsplit : forall m y k, 0 <= k -> Z.testbit wk (n * k) = true -> obj_word (qk + 16 * (n * k)) (16 * n) m y ->
      Pn m y \/ (k = 0 /\ Z.testbit wk 0 = true)).
    { intros m y k Hk Hb Ho. destruct (decide (k = 0)) as [->|]; [right; by rewrite Z.mul_0_r in Hb|].
      left. right. exists (k - 1). split; [lia|]. split.
      - rewrite Z.shiftr_spec by nia. by replace (n * (k - 1) + n) with (n * k) by lia.
      - change GC_GRANULE_BYTES with 16. by replace (qk + n * 16 + 16 * (n * (k - 1))) with (qk + 16 * (n * k)) by lia. }
    assert (Hs : exists s2, (if negb (Z.land wk 1 =? 0) then push_granules E (Z.to_nat n) qk s1 else Some s1) = Some s2
      /\ minv Pn s2).
    { pose proof (land_pow2 wk 0 ltac:(lia)) as El. change (2 ^ 0) with 1 in El. rewrite El, negb_involutive.
      destruct (Z.testbit wk 0) eqn:E0.
      - apply (push_granules_minv _ (fun m y => P' m y \/ exists k, 0 <= k /\ Z.testbit wk (n * k) = true
           /\ obj_word (qk + 16 * (n * k)) (16 * n) m y)); [done|].
        intros m y [?|(k & Hk & Hb & Ho)]; [by left; left|].
        destruct (Hsplit m y k Hk Hb Ho) as [?|[-> _]]; [by left|right].
        rewrite Z.mul_0_r, Z.mul_0_r, Z.add_0_r in Ho. by rewrite Z2Nat.id by lia.
      - exists s1. split; [done|]. eapply minv_weaken; [|exact I1]. intros m y [?|(k & Hk & Hb & Ho)]; right; right; [by left|].
        destruct (Hsplit m y k Hk Hb Ho) as [?|[_ ?]]; [done|congruence]. }
    destruct Hs as (s2 & -> & I2). cbn [fst snd]. rewrite Z.shiftr_div_pow2 in * by lia.
    assert (1 < 2 ^ n) by (apply Z.pow_gt_1; lia).
    assert (0 <= wk / 2 ^ n < wk) by (split; [apply Z.div_pos; lia|apply Z.div_lt; lia]).
    split; [split; [lia|]|lia]. unfold Pn in I2. by rewrite Z.shiftr_div_pow2 in I2 by lia.
  - cbn [fst snd]. split; [done|]. eapply minv_weaken; [|exact I]. intros m x Hx. right. right. by apply HP.
  - cbn [fst snd]. done.
  - by exists s'.
Qed.

(** The values of the marked objects of a block. *)
Definition block_refs (h : Z) (m : mode) (q : Z) : Prop :=
  exists b, is_object t0 b /\ b / 4096 = h / 4096 /\ obj_marked t0 b = true /\ ref E b (obj_descr t0 b) m q.

Definition block_words (h n lo : Z) (m : mode) (q : Z) : Prop :=
  exists b, is_object t0 b /\ b / 4096 = h / 4096 /\ obj_marked t0 b = true /\ lo <= b /\ obj_word b n m q.

Lemma block_hdr (P : mode -> Z -> Prop) (s : mk_state) (h b : Z) :
  minv P s -> b / 4096 = h / 4096 -> HDRv (mk_tab s) b = HDRv t0 h.
Proof.
  intros I Hb. rewrite (proj1 (mi_shape _ _ _ _ _ _ _ _ _ I)). by apply HDRv_block.
Qed.

Lemma GC_push_marked_n_minv (n h : Z) (P P' : mode -> Z -> Prop) (s : mk_state) :
  n = 1 \/ n = 2 \/ n = 4 -> in_use t0 h -> h mod 4096 = 0 ->
  is_large (hdr_of t0 (HDRv t0 h)) = false -> hb_sz (hdr_of t0 (HDRv t0 h)) = 16 * n ->
  minv P s -> (forall m q, P m q -> P' m q \/ block_words h (16 * n) h m q) ->
  exists s', GC_push_marked_n E n h (HDRv t0 h) s = Some s' /\ minv P' s'.
Proof.
  intros Hn Hu Hal Hlg Hsz I HP. unfold GC_push_marked_n. change (CPP_WORDSZ * GC_GRANULE_BYTES) with 1024.
  destruct (loop_spec
    (fun x => exists i, 0 <= i <= 4 /\ x.1.1 = h + 1024 * i /\ x.1.2 = i
       /\ minv (fun m q => P' m q \/ block_words h (16 * n) (h + 1024 * i) m q) x.2)
    (fun r => exists s', r = Some s' /\ minv P' s')
    (fun x => h + 4096 - x.1.1) (marked_words_body E n (h + HBLKSIZE) (HDRv t0 h)) (h, 0, s)) as (r & -> & s' & -> & HQ).
  - intros [[p i'] s1] (i & Hi & Ep & Ei & I1). cbn [fst snd] in *. subst p i'. unfold marked_words_body.
    change HBLKSIZE with 4096. change (CPP_WORDSZ * GC_GRANULE_BYTES) with 1024.
    destruct (Z.ltb_spec (h + 1024 * i) (h + 4096)) as [Hlt|Hge].
    + set (w := aget (hb_marks (hdr_of (mk_tab s1) (HDRv t0 h))) i).
      assert (Hw : 0 <= w < W64).
      { assert (Hus : in_use (mk_tab s1) h) by (by apply (in_use_shape t0 (mk_tab s1)); [apply I1|]).
        destruct (wt_blk _ _ (minv_wf _ _ I1) h Hus) as (_ & [Hw _] & _).
        rewrite (block_hdr _ _ h h I1 eq_refl) in Hw. apply Hw. }
      destruct (marked_bits_minv n w (h + 1024 * i) _
        (fun m q => P' m q \/ block_words h (16 * n) (h + 1024 * (i + 1)) m q) s1 ltac:(lia) Hw I1) as (s2 & -> & I2).
      * intros m q [?|(b & Ho & Hb & Hm & Hlo & Hq)]; [by left; left|].
        destruct (Z.le_gt_cases (h + 1024 * (i + 1)) b); [left; right; by exists b|right].
        assert (Hbm : (b mod 4096) mod (16 * n) = 0).
        { destruct Ho as [_ Ho]. cbn zeta in Ho. rewrite (HDRv_block t0 b h Hb), Hlg, Hsz in Ho. by destruct Ho. }
        assert (Hk : exists k, 0 <= k /\ b = h + 1024 * i + 16 * (n * k)).
        { exists ((b - (h + 1024 * i)) / (16 * n)). destruct Hn as [-> | [-> | ->]]; split; dlia. }
        destruct Hk as (k & Hk & Ek). exists k. split; [done|]. rewrite <- Ek. split; [|done].
        apply (mi_mono _ _ _ _ _ _ _ _ _ I1) in Hm. unfold obj_marked, GC_is_marked in Hm.
        rewrite (block_hdr _ _ h b I1 Hb), bit_of_aligned, mark_bit_testbit in Hm.
        assert (Ed : b mod 4096 / 16 / 64 = i) by (subst b; dlia).
        assert (Em : (b mod 4096 / 16) mod 64 = n * k) by (subst b; dlia).
        rewrite Ed, Em in Hm. exact Hm.
      * cbn [fst snd]. split; [|lia]. exists (i + 1). split; [lia|]. split; [lia|]. split; [done|]. exact I2.
    + exists s1. split; [done|]. eapply minv_weaken; [|exact I1].
      intros m q [?|(b & Ho & Hb & Hm & Hlo & Hq)]; [by right; right|dlia].
  - cbn [fst snd]. exists 0. split; [lia|]. split; [lia|]. split; [done|].
    eapply minv_weaken; [|exact I]. intros m q Hq. right. right.
    destruct (HP m q Hq) as [?|Hb]; [by left|right]. by replace (h + 1024 * 0) with h by lia.
  - cbn [fst snd]. unfold W64. lia.
  - by exists s'.
Qed.

(** ** Blocks of other objects *)

Lemma push_obj_minv (P P' : mode -> Z -> Prop) (b : Z) (s : mk_state) :
  minv P s -> is_object t0 b -> obj_descr t0 b <> 0 ->
  (forall m q, P m q -> P' m q \/ ref E b (obj_descr t0 b) m q) ->
  minv P' (GC_ms_push_obj_hdr b (hdr_of (mk_tab s) (HDRv t0 b)) s).
Proof.
  intros I Ho Hd HP. pose proof (mi_shape _ _ _ _ _ _ _ _ _ I) as S. unfold GC_ms_push_obj_hdr, IS_PTRFREE.
  assert (Ed : hb_descr (hdr_of (mk_tab s) (HDRv t0 b)) = obj_descr t0 b).
  { rewrite <- (obj_descr_shape t0 (mk_tab s) b S). unfold obj_descr. by rewrite (proj1 S). }
  rewrite Ed, (Z.eqb_sym 0), (proj2 (Z.eqb_neq _ _) Hd). cbn [negb].
  apply (push_minv E R t0 int0 _ must s0 P P'); [done| |intros; apply any_justified|done].
  rewrite <- (obj_descr_shape t0 (mk_tab s) b S).
  apply (ms_objs _ _ _ (mi_ok _ _ _ _ _ _ _ _ _ I)); [by apply (is_object_shape t0)|].
  by rewrite (obj_descr_shape t0 (mk_tab s) b S).
Qed.

(** The objects of a block, by their number. *)
Lemma block_object (h k : Z) :
  in_use t0 h -> h mod 4096 = 0 -> 0 <= k -> h + hb_sz (hdr_of t0 (HDRv t0 h)) * k <= last_object h (hb_sz (hdr_of t0 (HDRv t0 h))) ->
  let b := h + hb_sz (hdr_of t0 (HDRv t0 h)) * k in
  is_object t0 b /\ b / 4096 = h / 4096 /\ HDRv t0 b = HDRv t0 h
  /\ (b mod 4096) / 16 = k * MARK_BIT_OFFSET (hb_sz (hdr_of t0 (HDRv t0 h)))
  /\ 0 < hb_sz (hdr_of t0 (HDRv t0 h)).
Proof.
  intros Hu Hal Hk. unfold last_object, MARK_BIT_OFFSET, BYTES_TO_GRANULES. change MAXOBJBYTES with 2048.
  change HBLKSIZE with 4096. change GC_GRANULE_BYTES with 16.
  destruct (wt_blk _ _ W0 h Hu) as (Hb & _ & Hbk). set (sz := hb_sz _) in *. intros Hle. cbn zeta. set (b := h + sz * k) in *.
  assert (Hs : exists bk, b / 4096 = h / 4096 /\ HDRv t0 b = HDRv t0 h /\ bk = is_large (hdr_of t0 (HDRv t0 h)) /\ 0 < sz
    /\ if bk then b = h /\ k = 0 else exists lg, 0 < lg <= 128 /\ sz = lg * 16 /\ b mod 4096 = sz * k /\ sz * k + sz <= 4096).
  { exists (is_large (hdr_of t0 (HDRv t0 h))). destruct (is_large _) eqn:El.
    - destruct Hbk as (_ & _ & Hs). change MAXOBJBYTES with 2048 in Hs. destruct (Z.ltb_spec 2048 sz); [|lia].
      assert (k = 0) by nia. assert (b = h) by (unfold b; nia). split_and!; try congruence; lia.
    - destruct Hbk as (lg & Hlg & Es & _). unfold GRANULES_TO_BYTES in Es. change GC_GRANULE_BYTES with 16 in Es.
      change MAXOBJGRANULES with 128 in Hlg. destruct (Z.ltb_spec 2048 sz); [lia|].
      assert (Hm : b mod 4096 = sz * k) by (unfold b in *; clearbody b; assert (0 <= sz * k) by nia; dlia).
      assert (Hd : b / 4096 = h / 4096) by (unfold b in *; assert (0 <= sz * k) by nia; dlia).
      split_and!; try done; [by apply HDRv_block|lia|]. exists lg. unfold b in Hle. split_and!; try done; lia. }
  destruct Hs as (bk & Hd & Hv & Ebk & Hpos & Hk'). split_and!; try done.
  - split; [unfold in_use; by rewrite Hv|]. cbn zeta. rewrite Hv, <- Ebk. destruct bk.
    + rewrite Hb, PTR_ALIGN_DOWN_hblk. destruct Hk' as [-> _]. dlia.
    + destruct Hk' as (lg & _ & _ & Hm & Hf). fold sz. rewrite Hm. split; [rewrite Z.mul_comm; apply Z.mod_mul; lia|done].
  - destruct bk.
    + destruct Hk' as [Eb ->]. rewrite Eb, Hal. done.
    + destruct Hk' as (lg & Hlg & Es & Hm & _). rewrite Hm, Es. replace (lg * 16 * k) with (k * lg * 16) by lia.
      rewrite !Z.div_mul by lia. done.
Qed.

Lemma push_marked_loop_minv (h : Z) (P P' : mode -> Z -> Prop) (s : mk_state) :
  in_use t0 h -> h mod 4096 = 0 -> 0 <= h -> obj_descr t0 h <> 0 ->
  minv P s -> (forall m q, P m q -> P' m q \/ block_refs h m q) ->
  exists s', push_marked_loop h (hb_sz (hdr_of t0 (HDRv t0 h))) (HDRv t0 h) s = Some s' /\ minv P' s'.
Proof.
  intros Hu Hal Hh Hd I HP. unfold push_marked_loop. set (sz := hb_sz (hdr_of t0 (HDRv t0 h))).
  set (lim := last_object h sz).
  assert (Hob := fun k => block_object h k Hu Hal). cbn zeta in Hob. fold sz in Hob. fold lim in Hob.
  assert (Hlim : lim <= h + 4096 /\ 0 < sz /\ h <= lim).
  { assert (H0 : 0 < sz /\ h <= lim).
    { unfold lim, last_object. change MAXOBJBYTES with 2048. change HBLKSIZE with 4096.
      destruct (wt_blk _ _ W0 h Hu) as (_ & _ & Hbk). fold sz in Hbk. destruct (is_large _).
      - destruct Hbk as (_ & _ & Hs). change MAXOBJBYTES with 2048 in Hs. destruct (Z.ltb_spec 2048 sz); lia.
      - destruct Hbk as (lg & Hlg & Es & _). unfold GRANULES_TO_BYTES in Es. change GC_GRANULE_BYTES with 16 in Es.
        change MAXOBJGRANULES with 128 in Hlg. destruct (Z.ltb_spec 2048 sz); lia. }
    split; [|done]. unfold lim, last_object. change HBLKSIZE with 4096. destruct (_ <? _); lia. }
  destruct (loop_spec
    (fun x => exists k, 0 <= k /\ x.1.1 = h + sz * k /\ x.1.2 = k * MARK_BIT_OFFSET sz /\ h + sz * k <= lim + sz
       /\ minv (fun m q => P' m q \/ exists b, is_object t0 b /\ b / 4096 = h / 4096 /\ h + sz * k <= b
            /\ obj_marked t0 b = true /\ ref E b (obj_descr t0 b) m q) x.2)
    (fun s' => minv P' s') (fun x => lim + sz - x.1.1)
    (push_marked_body sz lim (HDRv t0 h)) (h, 0, s)) as (s' & -> & HQ).
  - intros [[p bit] s1] (k & Hk & Ep & Eb & Hle & I1). cbn [fst snd] in *. subst p bit. unfold push_marked_body.
    destruct (Z.leb_spec (h + sz * k) lim) as [Hin|Hout].
    + cbn [fst snd]. destruct (Hob k Hk Hin) as (Ho & Hb & Hv & Ebit & _).
      split; [|nia]. exists (k + 1). split; [lia|]. split; [lia|]. split; [lia|]. split; [nia|].
      assert (Hnext : forall b m q, is_object t0 b -> b / 4096 = h / 4096 -> h + sz * k <= b -> obj_marked t0 b = true ->
        ref E b (obj_descr t0 b) m q -> b = h + sz * k \/ h + sz * (k + 1) <= b).
      { intros b m q Hbo Hbb Hlo _ _. destruct (decide (b = h + sz * k)); [by left|right].
        destruct Hbo as [Hbu Hbo]. cbn zeta in Hbo. rewrite (HDRv_block t0 b h Hbb) in Hbo. fold sz in Hbo.
        destruct (wt_blk _ _ W0 h Hu) as (Hhb & _ & Hbk). destruct (is_large _) eqn:El.
        - rewrite Hhb, PTR_ALIGN_DOWN_hblk, Hal, Z.sub_0_r in Hbo. nia.
        - destruct Hbo as [Hm _]. assert (Eh : b mod 4096 = b - h) by dlia. rewrite Eh in Hm.
          apply Z.mod_divide in Hm as [j Hj]; [|lia]. assert (j <> k) by (intros ->; lia). nia. }
      destruct (mark_bit_from_hdr (hdr_of (mk_tab s1) (HDRv t0 h)) (k * MARK_BIT_OFFSET sz)) eqn:Em.
      * rewrite <- Hv. eapply push_obj_minv; [exact I1|done| |].
        -- unfold obj_descr. rewrite Hv. exact Hd.
        -- intros m q [?|(b & Hbo & Hbb & Hlo & Hbm & Hr)]; [by left; left|].
           destruct (Hnext b m q Hbo Hbb Hlo Hbm Hr) as [->|]; [by right|]. left. right. by exists b.
      * eapply minv_weaken; [|exact I1]. intros m q [?|(b & Hbo & Hbb & Hlo & Hbm & Hr)]; right; right; [by left|].
        destruct (Hnext b m q Hbo Hbb Hlo Hbm Hr) as [->|]; [|right; by exists b]. exfalso.
        apply (mi_mono _ _ _ _ _ _ _ _ _ I1) in Hbm. unfold obj_marked, GC_is_marked in Hbm.
        rewrite (block_hdr _ _ h (h + sz * k) I1 Hbb), bit_of_aligned, Ebit in Hbm. congruence.
    + eapply minv_weaken; [|exact I1]. intros m q [?|(b & Hbo & Hbb & Hlo & Hbm & Hr)]; [by right; right|]. exfalso.
      destruct Hbo as [Hbu Hbo]. cbn zeta in Hbo. rewrite (HDRv_block t0 b h Hbb) in Hbo. fold sz in Hbo.
      destruct (wt_blk _ _ W0 h Hu) as (Hhb & _ & Hbk). fold sz in Hbk. unfold lim, last_object in Hout.
      change MAXOBJBYTES with 2048 in *. change HBLKSIZE with 4096 in *. destruct (is_large _) eqn:El.
      * rewrite Hhb, PTR_ALIGN_DOWN_hblk, Hal, Z.sub_0_r in Hbo. destruct (Z.ltb_spec 2048 sz); [lia|]. lia.
      * destruct Hbk as (lg & Hlg & Es & _). unfold GRANULES_TO_BYTES in Es. change GC_GRANULE_BYTES with 16 in Es.
        change MAXOBJGRANULES with 128 in Hlg. destruct (Z.ltb_spec 2048 sz); [lia|]. dlia.
  - cbn [fst snd]. exists 0. split; [lia|]. split; [lia|]. split; [lia|]. split; [lia|].
    eapply minv_weaken; [|exact I]. intros m q Hq. right. right. destruct (HP m q Hq) as [?|(b & Ho & Hb & Hm & Hr)]; [by left|].
    right. exists b. split_and!; try done. dlia.
  - cbn [fst snd]. destruct (wt_blk _ _ W0 h Hu) as (_ & _ & Hbk). fold sz in Hbk. unfold W64.
    assert (sz < 2 ^ 63).
    { destruct (is_large _); [lia|]. destruct Hbk as (lg & Hlg & Es & _). unfold GRANULES_TO_BYTES in Es.
      change GC_GRANULE_BYTES with 16 in Es. change MAXOBJGRANULES with 128 in Hlg. lia. }
    lia.
  - by exists s'.
Qed.

(** The mark bit of an object is below the one past the last object. *)
Lemma object_bit (t : hdr_state) (b : Z) :
  wf_tab E t -> is_object t b -> 0 <= (b mod 4096) / 16 < FINAL_MARK_BIT (hb_sz (hdr_of t (HDRv t b))).
Proof.
  intros W [Hu Ho]. cbn zeta in Ho. destruct (wt_blk _ _ W b Hu) as (Hb & _ & Hk). set (sz := hb_sz _) in *.
  unfold FINAL_MARK_BIT. change MAXOBJBYTES with 2048 in *. destruct (is_large _).
  - destruct Hk as (_ & _ & Hs). destruct (Z.ltb_spec 2048 sz); [|lia]. change MARK_BITS_PER_HBLK with 256. dlia.
  - destruct Hk as (lg & Hlg & Es & _), Ho as [Hm Hf]. unfold GRANULES_TO_BYTES in Es. change GC_GRANULE_BYTES with 16 in Es.
    change MAXOBJGRANULES with 128 in Hlg. destruct (Z.ltb_spec 2048 sz); [lia|].
    unfold BYTES_TO_GRANULES, HBLK_OBJS. change HBLKSIZE with 4096. change GC_GRANULE_BYTES with 16. split; [dlia|].
    apply Z.mod_divide in Hm as [k Hk]; [|lia]. rewrite Hk.
    assert (k + 1 <= 4096 / sz) by (apply Z.div_le_lower_bound; nia).
    replace (k * sz / 16) with (k * lg) by (rewrite Es, Z.mul_assoc, Z.div_mul; lia).
    replace (4096 / sz * sz / 16) with (4096 / sz * lg); [nia|]. rewrite Es at 3. rewrite Z.mul_assoc, Z.div_mul; lia.
Qed.

(** Small objects not marked by a procedure have their pointers in their words. *)
Definition conservative : Prop :=
  forall b m q, is_object t0 b -> hb_sz (hdr_of t0 (HDRv t0 b)) ∈ [16; 32; 64] ->
    tag (obj_descr t0 b) <> GC_DS_PROC -> ref E b (obj_descr t0 b) m q ->
    obj_word b (hb_sz (hdr_of t0 (HDRv t0 b))) m q.

Lemma GC_push_marked_minv (h : Z) (P P' : mode -> Z -> Prop) (s : mk_state) :
  conservative -> in_use t0 h -> h mod 4096 = 0 -> 0 <= h ->
  minv P s -> (forall m q, P m q -> P' m q \/ block_refs h m q) ->
  exists s', GC_push_marked E h (HDRv t0 h) s = Some s' /\ minv P' s'.
Proof.
  intros Hcons Hu Hal Hh I HP. pose proof (mi_shape _ _ _ _ _ _ _ _ _ I) as S. unfold GC_push_marked.
  assert (Hnone : (forall m q, ~ block_refs h m q) -> minv P' s).
  { intros Hn. eapply minv_weaken; [|exact I]. intros m q Hq. right. right.
    destruct (HP m q Hq) as [?|Hb]; [done|by apply Hn in Hb]. }
  assert (Hnm : hb_n_marks (hdr_of (mk_tab s) (HDRv t0 h)) = 0 -> forall m q, ~ block_refs h m q).
  { intros E0 m q (b & Ho & Hb & Hm & Hr). apply (is_object_shape t0 (mk_tab s)) in Ho; [|done].
    apply (mi_mono _ _ _ _ _ _ _ _ _ I) in Hm. pose proof (object_bit _ _ (minv_wf _ _ I) Ho) as Hbit.
    destruct (wt_blk _ _ (minv_wf _ _ I) b (proj1 Ho)) as (_ & (_ & _ & Hz) & _).
    unfold obj_marked, GC_is_marked in Hm. rewrite bit_of_aligned in Hm.
    rewrite (block_hdr _ _ h b I Hb) in Hz, Hm, Hbit. rewrite (Hz E0 _ Hbit) in Hm. done. }
  destruct (shape_hdr t0 (mk_tab s) (HDRv t0 h) S) as (n & k & Ek). rewrite Ek in *.
  cbn [hb_descr hb_sz hb_n_marks set_hb_marks] in *. set (hd := hdr_of t0 (HDRv t0 h)) in *.
  assert (Edb : forall b, b / 4096 = h / 4096 -> obj_descr t0 b = hb_descr hd).
  { intros b Hb. unfold obj_descr. by rewrite (HDRv_block t0 b h Hb). }
  destruct (Z.eqb_spec GC_DS_LENGTH (hb_descr hd)) as [E0|E0].
  { exists s. split; [done|]. apply Hnone. intros m q (b & Ho & Hb & Hm & Hr).
    rewrite (Edb b Hb), <- E0 in Hr. by apply ref_nothing in Hr. }
  destruct (Z.eqb_spec n 0) as [->|Hn0].
  { exists s. split; [done|]. by apply Hnone, Hnm. }
  pose proof (minv_set_marked E R t0 int0 _ must s0 _ s I) as I1. set (s1 := set_marked true s) in *. fold (tag (hb_descr hd)).
  assert (Hgen : exists s', push_marked_loop h (hb_sz hd) (HDRv t0 h) s1 = Some s' /\ minv P' s').
  { apply (push_marked_loop_minv h P P'); try done. }
  destruct (Z.eqb_spec (tag (hb_descr hd)) GC_DS_PROC) as [Ep|Ep]; [exact Hgen|].
  assert (Hacc : forall n, n = 1 \/ n = 2 \/ n = 4 -> BYTES_TO_GRANULES (hb_sz hd) = n ->
    exists s', GC_push_marked_n E n h (HDRv t0 h) s1 = Some s' /\ minv P' s').
  { clear n k Ek Hn0 Hnm. intros n Hn Eg. unfold BYTES_TO_GRANULES in Eg. change GC_GRANULE_BYTES with 16 in Eg.
    destruct (wt_blk _ _ W0 h Hu) as (_ & _ & Hbk). fold hd in Hbk.
    assert (Hs : is_large hd = false /\ hb_sz hd = 16 * n).
    { destruct (is_large hd).
      - destruct Hbk as (_ & _ & Hs). change MAXOBJBYTES with 2048 in Hs. dlia.
      - destruct Hbk as (lg & Hlg & Es & _). unfold GRANULES_TO_BYTES in Es. change GC_GRANULE_BYTES with 16 in Es.
        split; [done|]. rewrite Es in Eg |- *. rewrite Z.div_mul in Eg by lia. lia. }
    destruct Hs as [Hlg Hsz]. apply (GC_push_marked_n_minv n h P P'); try done.
    intros m q Hq. destruct (HP m q Hq) as [?|(b & Ho & Hb & Hm & Hr)]; [by left|right].
    exists b. split_and!; try done; [dlia|].
    assert (Ehb : hdr_of t0 (HDRv t0 b) = hd) by (by rewrite (HDRv_block t0 b h Hb)).
    rewrite <- Hsz, <- Ehb. apply Hcons; try done.
    - rewrite Ehb, Hsz. destruct Hn as [-> | [-> | ->]]; set_solver.
    - by rewrite (Edb b Hb). }
  unfold GC_push_marked1, GC_push_marked2, GC_push_marked4.
  destruct (Z.eqb_spec (BYTES_TO_GRANULES (hb_sz hd)) 1) as [E1|_]; [apply Hacc; auto|].
  destruct (Z.eqb_spec (BYTES_TO_GRANULES (hb_sz hd)) 2) as [E1|_]; [apply Hacc; auto|].
  destruct (Z.eqb_spec (BYTES_TO_GRANULES (hb_sz hd)) 4) as [E1|_]; [apply Hacc; auto|]. exact Hgen.
Qed.

Lemma GC_push_unconditionally_minv (h : Z) (P : mode -> Z -> Prop) (s : mk_state) :
  in_use t0 h -> h mod 4096 = 0 -> 0 <= h ->
  minv P s -> exists s', GC_push_unconditionally E h (HDRv t0 h) s = Some s' /\ minv P s'.
Proof.
  intros Hu Hal Hh I. pose proof (mi_shape _ _ _ _ _ _ _ _ _ I) as S. unfold GC_push_unconditionally.
  set (hs := hdr_of (mk_tab s) (HDRv t0 h)).
  assert (Ehs : hb_descr hs = obj_descr t0 h /\ hb_sz hs = hb_sz (hdr_of t0 (HDRv t0 h))).
  { unfold hs. destruct (shape_hdr t0 (mk_tab s) (HDRv t0 h) S) as (n & k & ->). done. }
  destruct Ehs as [Ed Es]. destruct (Z.eqb_spec GC_DS_LENGTH (hb_descr hs)) as [E0|E0]; [by exists s|].
  pose proof (minv_set_marked E R t0 int0 _ must s0 _ s I) as I1. set (s1 := set_marked true s) in *. unfold push_uncond_loop. rewrite Es.
  set (sz := hb_sz (hdr_of t0 (HDRv t0 h))) in *.
  assert (Hob := fun k => block_object h k Hu Hal). cbn zeta in Hob. fold sz in Hob.
  destruct (loop_spec
    (fun x => exists k, 0 <= k /\ x.1 = h + sz * k /\ minv P x.2)
    (fun s' => minv P s') (fun x => Z.max 0 (h + 4096 - x.1) )
    (push_uncond_body E sz (last_object h sz) hs) (h, s1)) as (s' & -> & HQ).
  - intros [p s2] (k & Hk & Ep & I2). cbn [fst snd] in *. subst p. unfold push_uncond_body.
    destruct (Z.leb_spec (h + sz * k) (last_object h sz)) as [Hin|]; [|done]. cbn [fst snd].
    destruct (Hob k Hk Hin) as (Ho & Hb & Hv & _ & Hpos). split.
    + exists (k + 1). split; [lia|]. split; [lia|]. case_match; [|done].
      assert (Eq : GC_ms_push_obj_hdr (h + sz * k) hs s2
        = GC_ms_push_obj_hdr (h + sz * k) (hdr_of (mk_tab s2) (HDRv t0 (h + sz * k))) s2).
      { unfold GC_ms_push_obj_hdr, IS_PTRFREE. rewrite Hv, Ed.
        assert (E2 : hb_descr (hdr_of (mk_tab s2) (HDRv t0 h)) = obj_descr t0 h).
        { pose proof (mi_shape _ _ _ _ _ _ _ _ _ I2) as S2. rewrite <- (obj_descr_shape t0 (mk_tab s2) h S2).
          unfold obj_descr. by rewrite (proj1 S2). }
        by rewrite E2. }
      rewrite Eq. eapply push_obj_minv; [exact I2|done| |by left].
      unfold obj_descr. rewrite Hv. fold (obj_descr t0 h). rewrite <- Ed. by apply not_eq_sym.
    + assert (Hl : h + sz * k <= h + 4095).
      { unfold last_object in Hin. change HBLKSIZE with 4096 in Hin. destruct (_ <? _); lia. }
      lia.
  - cbn [fst snd]. exists 0. split; [lia|]. split; [lia|done].
  - cbn [fst snd]. unfold W64. lia.
  - by exists s'.
Qed.

(** ** Roots *)

(** The values of the aligned words between [bottom] and [top]. *)
Definition range_refs (bottom top q : Z) : Prop :=
  in_range E (PTR_ALIGN_UP bottom ALIGNMENT) (PTR_ALIGN_DOWN top ALIGNMENT - 8) q.

Definition root_ref (r : root_push) (m : mode) (q : Z) : Prop :=
  match r with
  | RP_conditional bottom top _ => m = Heap /\ range_refs bottom top q
  | RP_eager bottom top => m = Stack /\ range_refs bottom top q
  | RP_stack bottom top => m = Heap /\ range_refs bottom top q
  | RP_one p => m = Stack /\ q = p /\ plausible E q = true
  end.

(** Ranges are inside the address space and can be pushed. *)
Definition range_ok (bottom top : Z) : Prop :=
  0 <= bottom /\ 8 <= top < W64 /\
  (PTR_ALIGN_UP bottom ALIGNMENT < PTR_ALIGN_DOWN top ALIGNMENT ->
   rk_ok E R (PTR_ALIGN_UP bottom ALIGNMENT) (PTR_ALIGN_DOWN top ALIGNMENT - PTR_ALIGN_UP bottom ALIGNMENT)).

Definition root_ok (r : root_push) : Prop :=
  match r with
  | RP_conditional bottom top all => all = true /\ range_ok bottom top
  | RP_eager bottom top | RP_stack bottom top => range_ok bottom top
  | RP_one p => True
  end.

Lemma GC_push_all_minv (bottom top : Z) (P P' : mode -> Z -> Prop) (s : mk_state) :
  range_ok bottom top -> minv P s -> (forall m q, P m q -> P' m q \/ (m = Heap /\ range_refs bottom top q)) ->
  minv P' (GC_push_all bottom top s).
Proof.
  intros (Hb & Ht & Hok) I HP. unfold GC_push_all, GC_ms_push_all. unfold range_refs in HP.
  set (b := PTR_ALIGN_UP bottom ALIGNMENT) in *. set (t := PTR_ALIGN_DOWN top ALIGNMENT) in *.
  assert (Hal : (t - b) mod 8 = 0) by (unfold t, b; rewrite align_down_8, align_up_8; dlia).
  destruct (Z.leb_spec t b) as [Hle|Hlt].
  - eapply minv_weaken; [|exact I]. intros m q Hq. right. right.
    destruct (HP m q Hq) as [?|(_ & a & Ha & _)]; [done|lia].
  - rewrite Z.lor_0_r. apply (push_minv E R t0 int0 _ must s0 P P'); [done|by apply Hok|intros; apply any_justified|].
    intros m q Hq. destruct (HP m q Hq) as [?|(-> & a & Ha & Haal & -> & Hpl)]; [by left|right].
    apply ref_length; try done; try lia; [|change PTR_BYTES with 8; lia].
    rewrite tag_mod. unfold GC_DS_LENGTH. dlia.
Qed.

Lemma GC_push_all_eager_minv (bottom top : Z) (P P' : mode -> Z -> Prop) (s : mk_state) :
  range_ok bottom top -> minv P s -> (forall m q, P m q -> P' m q \/ range_refs bottom top q) ->
  exists s', GC_push_all_eager E bottom top s = Some s' /\ minv P' s'.
Proof.
  intros (Hb & Ht & _) I HP. unfold GC_push_all_eager. rewrite (proj2 (Z.eqb_neq top NULL)) by lia.
  unfold eager_loop, range_refs in *. set (b := PTR_ALIGN_UP bottom ALIGNMENT) in *. set (t := PTR_ALIGN_DOWN top ALIGNMENT) in *.
  assert (Hal : (t - b) mod 8 = 0) by (unfold t, b; rewrite align_down_8, align_up_8; dlia).
  assert (Htr : 8 <= t <= top) by (unfold t; rewrite align_down_8; dlia).
  assert (Hbr : 0 <= b) by (unfold b; rewrite align_up_8; dlia).
  change PTR_BYTES with 8. unfold wrap64. rewrite (Z.mod_small (t - 8)) by lia.
  destruct (loop_spec
    (fun x => minv (fun m q => P' m q \/ in_range E x.1 (t - 8) q) x.2 /\ b <= x.1 /\ (t - x.1) mod 8 = 0)
    (fun r => exists s', r = Some s' /\ minv P' s') (fun x => Z.max 0 (t - x.1)) (eager_body E (t - 8)) (b, s))
    as (r & -> & s' & -> & HQ).
  - intros [c s1] (I1 & Hc & Hcal). cbn [fst snd] in *. unfold eager_body.
    destruct (Z.leb_spec c (t - 8)) as [Hle|Hgt].
    + destruct (stack_word_minv _ (fun m q => P' m q \/ in_range E (c + 8) (t - 8) q) (mem E c) s1 I1) as (s2 & -> & I2).
      { intros m q [?|(a & Ha & Haal & -> & Hpl)]; [by left; left|].
        destruct (decide (a = c)) as [->|]; [by right|]. left. right. exists a. split_and!; try done; dlia. }
      change ALIGNMENT with 8. cbn [fst snd]. split; [|lia]. split; [done|]. split; [lia|dlia].
    + exists s1. split; [done|]. eapply minv_weaken; [|exact I1].
      intros m q [?|(a & Ha & _)]; [by right; right|lia].
  - cbn [fst snd]. split; [|split; [lia|done]]. eapply minv_weaken; [|exact I]. intros m q Hq. right. right.
    destruct (HP m q Hq) as [?|?]; [by left|by right].
  - cbn [fst snd]. lia.
  - by exists s'.
Qed.

Lemma run_push_roots_minv (l : list root_push) (P' : mode -> Z -> Prop) (s : mk_state) :
  Forall root_ok l -> minv (fun m q => P' m q \/ exists r, r ∈ l /\ root_ref r m q) s ->
  exists s', run_push_roots E l s = Some s' /\ minv P' s'.
Proof.
  revert s. induction l as [|r l IH]; intros s Hok I; cbn [run_push_roots].
  { exists s. split; [done|]. eapply minv_weaken; [|exact I].
    intros m q [?|(r & Hr & _)]; [by right; right|by apply elem_of_nil in Hr]. }
  apply Forall_cons in Hok as [Hr Hok].
  set (Pn := fun m q => P' m q \/ exists r, r ∈ l /\ root_ref r m q).
  assert (HP : forall m q, (P' m q \/ exists r', r' ∈ r :: l /\ root_ref r' m q) -> Pn m q \/ root_ref r m q).
  { intros m q [?|(r' & Hin & Hq)]; [by left; left|]. apply elem_of_cons in Hin as [->|Hin]; [by right|].
    left. right. by exists r'. }
  assert (Hs : exists s1, match r with
        | RP_conditional bottom top all => GC_push_conditional E bottom top all s
        | RP_eager bottom top => GC_push_all_eager E bottom top s
        | RP_stack bottom top => GC_push_all_stack E bottom top s
        | RP_one p => GC_PUSH_ONE_STACK E p s
        end = Some s1 /\ minv Pn s1).
  { destruct r as [b t all|b t|b t|p]; cbn [root_ok root_ref] in *.
    - destruct Hr as [-> Hr]. eexists. split; [reflexivity|]. by eapply GC_push_all_minv.
    - eapply GC_push_all_eager_minv; [done|exact I|]. intros m q Hq. destruct (HP m q Hq) as [?|[_ ?]]; [by left|by right].
    - unfold GC_push_all_stack. destruct (_ && _); [eexists; split; [reflexivity|]; by eapply GC_push_all_minv|].
      eapply GC_push_all_eager_minv; [done|exact I|]. intros m q Hq. destruct (HP m q Hq) as [?|[_ ?]]; [by left|by right].
    - eapply stack_word_minv; [exact I|]. intros m q Hq. destruct (HP m q Hq) as [?|[_ ?]]; [by left|by right]. }
  destruct Hs as (s1 & -> & I1). rewrite some_bind. by apply IH.
Qed.
End Push.
End MarkPush.
