(* ===== verification/MarkSome.v ===== *)
(** * The mark state machine

    One call of [GC_mark_some] after another takes a full collection from cleared
    marks to a heap in which everything live is marked.  [phase] says, for each
    mark state, which marked objects have all their references taken care of; each
    call keeps it, and a call that reports the end leaves nothing to do, however
    often the stack overflowed. *)

From Stdlib Require Import ZArith Lia.
From stdpp Require Import base gmap list.
From S2P Require Import Prelude BlackList Scratch Hblk Headers HeadersNav HdrCache HdrIface MarkBits ObjMap Mark MarkSpec MarkVisit MarkInv MarkSample MarkFrom MarkPush.

Module MarkSome.
Import BlackList Scratch Headers HeadersNav HdrCache HdrIface MarkBits ObjMap Mark MarkSpec MarkVisit MarkInv MarkFrom MarkPush.

(** The blocks in use do not overlap and end inside the address space, so that a
    walk from the end of one to the next misses none. *)
Record walk_ok (t : hdr_state) : Prop := {
  wo_mapped : mapped_ok t;
  wo_end : forall q, in_use t q ->
    0 <= q / 4096 /\ (q / 4096 + OBJ_SZ_TO_BLOCKS (hb_sz (hdr_of t (HDRv t q)))) * 4096 < W64
    /\ 0 < OBJ_SZ_TO_BLOCKS (hb_sz (hdr_of t (HDRv t q)));
  wo_next : forall p q, in_use t p -> in_use t q -> p / 4096 < q / 4096 ->
    p / 4096 + OBJ_SZ_TO_BLOCKS (hb_sz (hdr_of t (HDRv t p))) <= q / 4096
}.

(** Tables with the same blocks in use; free blocks may differ. *)
Record same_use (t t' : hdr_state) : Prop := {
  su_use : forall q, in_use t' q <-> in_use t q;
  su_hdr : forall q, in_use t q -> HDRv t' q = HDRv t q /\ hdr_of t' (HDRv t q) = hdr_of t (HDRv t q);
  su_finds : forall interior m p v, finds t' interior m p v <-> finds t interior m p v
}.

(** The memory of an old mark stack becomes a free block of the heap. *)
Definition recycle_law (E : menv) : Prop :=
  forall addr sz t, wf_tab E t -> walk_ok t ->
    let t' := GC_scratch_recycle_inner E addr sz t in
    wf_tab E t' /\ walk_ok t' /\ same_use t t'.

(** The objects reachable from the given values, marked or not. *)
Inductive live (E : menv) (t : hdr_state) (interior : bool) (from : mode -> Z -> Prop) : Z -> Prop :=
  | live_from m q b : from m q -> points_to E t interior m q b -> live E t interior from b
  | live_step b m q b' :
      live E t interior from b -> is_object t b ->
      ref E b (obj_descr t b) m q -> points_to E t interior m q b' -> live E t interior from b'.

Definition roots (E : menv) (m : mode) (q : Z) : Prop :=
  exists r, r ∈ GC_push_roots_calls E true /\ root_ref E r m q.

Definition uncollectable (t : hdr_state) (b : Z) : Prop := hb_obj_kind (hdr_of t (HDRv t b)) = UNCOLLECTABLE.

Section Phase.
Context (E : menv) (R : ranking E).

(** A value that leads to a marked object, or is described on the stack. *)
Definition cov (s : mk_state) (m : mode) (q : Z) : Prop :=
  covered E (mk_tab s) (GC_all_interior_pointers (mk_bl s)) (fun _ _ => False) s m q.

Definition obj_cov (s : mk_state) (b : Z) : Prop :=
  forall m q, ref E b (obj_descr (mk_tab s) b) m q -> cov s m q.

(** The marked objects in [X] have their references covered. *)
Definition objs_cov (s : mk_state) (X : Z -> Prop) : Prop :=
  forall b, is_object (mk_tab s) b -> obj_marked (mk_tab s) b = true -> X b -> obj_cov s b.

Definition roots_cov (s : mk_state) : Prop := forall m q, roots E m q -> cov s m q.

(** What each mark state of a full collection promises. *)
Inductive phase (s : mk_state) : Prop :=
  | phase_start : GC_mark_state s = MS_INVALID -> GC_scan_ptr s = NULL ->
      objs_cov s (fun b => ~ uncollectable (mk_tab s) b) -> phase s
  | phase_invalid : GC_mark_state s = MS_INVALID -> GC_objects_are_marked s = true -> phase s
  | phase_uncollectable : GC_mark_state s = MS_PUSH_UNCOLLECTABLE ->
      objs_cov s (fun b => ~ (uncollectable (mk_tab s) b /\ GC_scan_ptr s <= b)) -> phase s
  | phase_partial : GC_mark_state s = MS_PARTIALLY_INVALID -> GC_objects_are_marked s = true ->
      objs_cov s (fun b => b < GC_scan_ptr s) -> phase s
  | phase_roots : GC_mark_state s = MS_ROOTS_PUSHED ->
      objs_cov s (fun _ => True) -> roots_cov s -> phase s
  | phase_none : GC_mark_state s = MS_NONE -> GC_mark_stack s = [] ->
      objs_cov s (fun _ => True) -> roots_cov s -> phase s.

Record ms_base (s : mk_state) : Prop := {
  mb_ok : mk_ok E R s;
  mb_walk : walk_ok (mk_tab s);
  mb_cons : conservative E (mk_tab s);
  mb_scan : 0 <= GC_scan_ptr s < W64 /\ GC_scan_ptr s mod 4096 = 0;
  mb_addr : GC_mark_stack_addr s <> NULL;
  mb_size : 0 < GC_mark_stack_size s
}.

Definition ms_inv (s : mk_state) : Prop := ms_base s /\ phase s.
End Phase.

(** Mark states that exclude each other. *)
Ltac ms_absurd :=
  exfalso; unfold MS_NONE, MS_PUSH_UNCOLLECTABLE, MS_ROOTS_PUSHED, MS_PARTIALLY_INVALID, MS_INVALID in *; intuition congruence.

(** ** Walking over the blocks in use *)

Lemma candidate_in_use (t : hdr_state) (q : Z) : candidate t false q = true <-> in_use t q.
Proof.
  unfold candidate, in_use. rewrite andb_true_iff. cbn [orb]. rewrite negb_true_iff. done.
Qed.

Lemma in_use_block (t : hdr_state) (p q : Z) : p / 4096 = q / 4096 -> in_use t p <-> in_use t q.
Proof. intros Hb. unfold in_use. by rewrite (HDRv_block t p q Hb). Qed.

(** The first block in use at or after [h]. *)
Definition first_in_use (t : hdr_state) (h r v : Z) : Prop :=
  (r = NULL /\ forall q, h / 4096 <= q / 4096 -> ~ in_use t q)
  \/ (r <> NULL /\ r mod 4096 = 0 /\ h <= r /\ in_use t r /\ v = HDRv t r
      /\ forall q, h / 4096 <= q / 4096 -> in_use t q -> r / 4096 <= q / 4096).

Lemma in_use_pos (E : menv) (t : hdr_state) (q : Z) : wf_tab E t -> walk_ok t -> in_use t q -> 0 < q / 4096.
Proof.
  intros W K Hu. destruct (wo_end _ K q Hu) as [H0 _]. destruct (decide (q / 4096 = 0)) as [Eq|]; [|lia].
  destruct Hu as [Hp _]. rewrite (HDRv_block t q 0) in Hp by done. rewrite (wt_zero _ _ W) in Hp. done.
Qed.

Lemma next_in_use_spec (E : menv) (t : hdr_state) (h : Z) :
  wf_tab E t -> walk_ok t -> 0 <= h < W64 -> h mod 4096 = 0 ->
  exists r v, next_in_use t h = Some (r, v) /\ first_in_use t h r v.
Proof.
  intros W K Hh Hal. unfold next_in_use. rewrite (GET_HDR_eq t h (wt_wf _ _ W)), some_bind.
  destruct (IS_FORWARDING_ADDR_OR_NIL (HDRv t h) || HBLK_IS_FREE (hdr_of t (HDRv t h))) eqn:Ec.
  - destruct (next_block_spec t h false (wt_wf _ _ W) (wo_mapped _ K) Hh) as (r & -> & Hr). rewrite some_bind.
    destruct Hr as [[-> Hr]|(H1 & H2 & H3 & H4)].
    + exists NULL, NULL. split; [done|]. left. split; [done|]. intros q Hq Hu%candidate_in_use. by rewrite Hr in Hu.
    + apply candidate_in_use in H3. pose proof (in_use_pos E t r W K H3).
      assert (Hr0 : r <> NULL) by (intros ->; by rewrite Zdiv_0_l in *).
      rewrite (proj2 (Z.eqb_neq r NULL) Hr0). unfold GC_find_header. rewrite (GET_HDR_eq t r (wt_wf _ _ W)), some_bind.
      exists r, (HDRv t r). split; [done|]. right. split_and!; try done; [dlia|].
      intros q Hq Hu. by apply H4; [|apply candidate_in_use].
  - apply orb_false_iff in Ec as [E1 E2].
    assert (Hu : in_use t h).
    { split; [|done]. apply is_hdr_ptr_ge. unfold IS_FORWARDING_ADDR_OR_NIL, MAX_JUMP in E1. rewrite HBLKSIZE_eq in E1. apply Z.leb_gt in E1. lia. }
    pose proof (in_use_pos E t h W K Hu). exists h, (HDRv t h). split; [done|]. right.
    split_and!; try done. intros ->. by rewrite Zdiv_0_l in *.
Qed.

Lemma after_block_bounds (t : hdr_state) (r : Z) :
  walk_ok t -> in_use t r -> r mod 4096 = 0 ->
  let p := after_block t r (HDRv t r) in r < p < W64 /\ p mod 4096 = 0
  /\ forall q, in_use t q -> r / 4096 < q / 4096 -> p / 4096 <= q / 4096.
Proof.
  intros K Hu Hr p. destruct (wo_end _ K r Hu) as (H0 & H1 & H2). unfold p, after_block in *. rewrite HBLKSIZE_eq.
  split; [dlia|]. split; [dlia|]. intros q Hq Hlt. pose proof (wo_next _ K r q Hu Hq Hlt). dlia.
Qed.

(** The search for an uncollectable block passes over none. *)
Lemma next_uncollectable_spec (E : menv) (t : hdr_state) (h : Z) :
  wf_tab E t -> walk_ok t -> 0 <= h < W64 -> h mod 4096 = 0 ->
  exists r v, next_uncollectable t h = Some (r, v)
    /\ ((r = NULL /\ forall q, h / 4096 <= q / 4096 -> in_use t q -> ~ uncollectable t q)
        \/ (r <> NULL /\ r mod 4096 = 0 /\ h <= r /\ in_use t r /\ v = HDRv t r
            /\ forall q, h / 4096 <= q / 4096 < r / 4096 -> in_use t q -> ~ uncollectable t q)).
Proof.
  intros W K Hh Hal. unfold next_uncollectable.
  destruct (loop_spec
    (fun x => 0 <= x < W64 /\ x mod 4096 = 0 /\ h <= x
       /\ forall q, h / 4096 <= q / 4096 < x / 4096 -> in_use t q -> ~ uncollectable t q)
    (fun o => exists r v, o = Some (r, v)
       /\ ((r = NULL /\ forall q, h / 4096 <= q / 4096 -> in_use t q -> ~ uncollectable t q)
          \/ (r <> NULL /\ r mod 4096 = 0 /\ h <= r /\ in_use t r /\ v = HDRv t r
              /\ forall q, h / 4096 <= q / 4096 < r / 4096 -> in_use t q -> ~ uncollectable t q)))
    (fun x => W64 - 1 - x) (uncollectable_body t) h) as (o & -> & HQ).
  - intros x (Hx & Hxa & Hhx & Hpass). unfold uncollectable_body.
    destruct (next_in_use_spec E t x W K Hx Hxa) as (r & v & -> & Hf).
    destruct Hf as [[-> Hf]|(H1 & H2 & H3 & H4 & -> & H6)].
    { rewrite Z.eqb_refl. exists NULL, NULL. split; [done|]. left. split; [done|]. intros q Hq Hu.
      destruct (Z.lt_ge_cases (q / 4096) (x / 4096)); [apply (Hpass q); [lia|done]|by apply Hf in Hu]. }
    rewrite (proj2 (Z.eqb_neq r NULL) H1).
    assert (Hp : forall q, h / 4096 <= q / 4096 < r / 4096 -> in_use t q -> ~ uncollectable t q).
    { intros q Hq Hu. destruct (Z.lt_ge_cases (q / 4096) (x / 4096)); [apply (Hpass q); [lia|done]|].
      exfalso. specialize (H6 q ltac:(done) Hu). lia. }
    match goal with |- context [if ?c then _ else _] => destruct c eqn:Ek end.
    + exists r, (HDRv t r). split; [done|]. right. split_and!; try done. lia.
    + apply orb_false_iff in Ek as [Ek _]. apply Z.eqb_neq in Ek.
      destruct (after_block_bounds t r K H4 H2) as (Ha & Hb & Hc). cbn zeta in *. set (p := after_block _ _ _) in *.
      split; [|lia]. split; [lia|]. split; [done|]. split; [lia|]. intros q Hq Hu.
      destruct (Z.lt_trichotomy (q / 4096) (r / 4096)) as [?|[Eq|Hgt]]; [apply (Hp q); [lia|done]| |exfalso; specialize (Hc q Hu Hgt); lia].
      unfold uncollectable. by rewrite (HDRv_block t q r Eq).
  - split_and!; try done; lia.
  - lia.
  - destruct HQ as (r & v & -> & HQ). by exists r, v.
Qed.

(** ** Steps of the marker *)

Lemma mapped_ok_shape (t t' : hdr_state) : shape t t' -> mapped_ok t -> mapped_ok t'.
Proof.
  intros S [H1 H2 H3 H4 H5].
  assert (Hh : forall q, exists n m, hdr_of t' (HDRv t' q) = set_hb_marks n m (hdr_of t (HDRv t q))).
  { intros q. rewrite (proj1 S). apply (shape_hdr t t' _ S). }
  split.
  - intros q. by rewrite (proj1 S).
  - intros q. destruct (Hh q) as (n & m & ->). rewrite (proj1 S). apply H2.
  - intros q. destruct (Hh q) as (n & m & ->). rewrite (proj1 S). apply H3.
  - intros q p. destruct (Hh q) as (n & m & ->). rewrite !(proj1 S). apply H4.
  - intros q p. rewrite !(proj1 S). apply H5.
Qed.

Lemma walk_ok_shape (t t' : hdr_state) : shape t t' -> walk_ok t -> walk_ok t'.
Proof.
  intros S [H1 H2 H3].
  assert (Hh : forall q, hb_sz (hdr_of t' (HDRv t' q)) = hb_sz (hdr_of t (HDRv t q))).
  { intros q. rewrite (proj1 S). by destruct (shape_hdr t t' (HDRv t q) S) as (n & m & ->). }
  split.
  - by apply (mapped_ok_shape t).
  - intros q Hq. rewrite Hh. apply H2. by apply (in_use_shape t t').
  - intros p q Hp Hq. rewrite Hh. apply H3; by apply (in_use_shape t t').
Qed.

Lemma conservative_shape (E : menv) (t t' : hdr_state) : shape t t' -> conservative E t -> conservative E t'.
Proof.
  intros S H b m q Ho. rewrite (obj_descr_shape t t' b S).
  assert (Eh : hb_sz (hdr_of t' (HDRv t' b)) = hb_sz (hdr_of t (HDRv t b))).
  { rewrite (proj1 S). by destruct (shape_hdr t t' (HDRv t b) S) as (n & k & ->). }
  rewrite Eh. apply H. by apply (is_object_shape t t').
Qed.

Section Steps.
Context (E : menv) (R : ranking E) (HE : env_ok E).

(** A step that keeps what is covered, covers [Q] and what it marks, or loses
    entries of the stack. *)
Record advanced (Q : mode -> Z -> Prop) (s s' : mk_state) : Prop := {
  ad_ok : mk_ok E R s';
  ad_int : GC_all_interior_pointers (mk_bl s') = GC_all_interior_pointers (mk_bl s);
  ad_shape : shape (mk_tab s) (mk_tab s');
  ad_mono : forall b, obj_marked (mk_tab s) b = true -> obj_marked (mk_tab s') b = true;
  ad_frame : framed s s';
  ad_comp : lost s' \/
    ((forall m q, cov E s m q \/ Q m q -> cov E s' m q)
     /\ forall b, is_object (mk_tab s) b -> obj_marked (mk_tab s') b = true -> obj_marked (mk_tab s) b = false ->
          obj_cov E s' b)
}.

Lemma cov_shape (s s' : mk_state) (m : mode) (q : Z) :
  shape (mk_tab s) (mk_tab s') -> GC_all_interior_pointers (mk_bl s') = GC_all_interior_pointers (mk_bl s) ->
  covered E (mk_tab s) (GC_all_interior_pointers (mk_bl s)) (fun _ _ => False) s' m q -> cov E s' m q.
Proof.
  intros S Ei [H|H]; [left|by right]. intros b Hb. apply H. rewrite Ei in Hb.
  by apply (points_to_shape E _ (mk_tab s')).
Qed.

Definition obligations (Q : mode -> Z -> Prop) (s : mk_state) (m : mode) (q : Z) : Prop := cov E s m q \/ Q m q.

Notation minv_of Q s := (minv E R (mk_tab s) (GC_all_interior_pointers (mk_bl s)) (fun _ _ => True) (obligations Q s) s).

Lemma minv_start (Q : mode -> Z -> Prop) (s : mk_state) : mk_ok E R s -> minv_of Q s Q s.
Proof.
  intros M. split; try done; [intros b _ ?; by left|intros m q ?; by left| |by split_and!; try left].
  right. split; [|intros b m q _ H1 H2; congruence].
  intros m q [[?|[?|[]]]|?]; [by left|by right; left|by right; right].
Qed.

Lemma minv_advanced (Q : mode -> Z -> Prop) (s s' : mk_state) :
  minv_of Q s (fun _ _ => False) s' -> advanced Q s s'.
Proof.
  intros [H1 H2 H3 H4 H5 H6 H7 H8]. split; try done. destruct H7 as [?|[H7 H9]]; [by left|right]. split.
  - intros m q Hq. apply (cov_shape s); try done. by apply H7.
  - intros b Ho Hm Hu m q. rewrite (obj_descr_shape (mk_tab s) _ b H3). intros Hr.
    apply (cov_shape s); try done. by apply (H9 b).
Qed.

Lemma advanced_marked (Q : mode -> Z -> Prop) (s s' : mk_state) :
  advanced Q (set_marked true s) s' -> advanced Q s s' /\ GC_objects_are_marked s' = true.
Proof.
  intros [H1 H2 H3 H4 (F1 & F2 & F3 & F4 & F5) H6]. split; [|by apply F5]. split; try done.
  split_and!; try done. intros _. by apply F5.
Qed.

Lemma mark_from_advanced (s : mk_state) :
  mk_ok E R s -> work E R s < W64 ->
  exists s', MARK_FROM_MARK_STACK E s = Some s' /\ advanced (fun _ _ => False) s s' /\ GC_objects_are_marked s' = true.
Proof.
  intros M Hw. pose (s1 := set_marked true s).
  assert (M1 : mk_ok E R s1) by (by destruct M).
  destruct (mark_from_settled E R (mk_tab s1) (GC_all_interior_pointers (mk_bl s1)) (fun _ _ => True) (obligations (fun _ _ => False) s1) s1 (ms_tab _ _ _ M1) HE s1)
    as (s' & Eq & I & _); [by apply minv_start|done|].
  exists s'. split; [exact Eq|]. by apply advanced_marked, minv_advanced.
Qed.

Lemma push_marked_eq (h v : Z) (s : mk_state) :
  GC_push_marked E h v s = Some s \/ GC_push_marked E h v s = GC_push_marked E h v (set_marked true s).
Proof.
  unfold GC_push_marked. change (mk_tab (set_marked true s)) with (mk_tab s).
  destruct (_ =? _); [by left|]. destruct (_ =? _); [by left|by right].
Qed.

Lemma push_unconditionally_eq (h v : Z) (s : mk_state) :
  GC_push_unconditionally E h v s = Some s
  \/ GC_push_unconditionally E h v s = GC_push_unconditionally E h v (set_marked true s).
Proof.
  unfold GC_push_unconditionally. change (mk_tab (set_marked true s)) with (mk_tab s).
  destruct (_ =? _); [by left|by right].
Qed.

Lemma push_marked_advanced (h : Z) (s : mk_state) :
  mk_ok E R s -> conservative E (mk_tab s) -> in_use (mk_tab s) h -> h mod 4096 = 0 -> 0 <= h ->
  exists s', GC_push_marked E h (HDRv (mk_tab s) h) s = Some s' /\ advanced (block_refs E (mk_tab s) h) s s'
    /\ (s' = s \/ GC_objects_are_marked s' = true).
Proof.
  intros M Hc Hu Hal Hh. set (Q := block_refs E (mk_tab s) h).
  assert (Hgo : forall s1, mk_tab s1 = mk_tab s -> mk_ok E R s1 ->
    exists s', GC_push_marked E h (HDRv (mk_tab s) h) s1 = Some s' /\ advanced Q s1 s').
  { intros s1 Et M1. pose proof (minv_start Q s1 M1) as I. rewrite <- Et in Hc, Hu |- *.
    destruct (GC_push_marked_minv E R (mk_tab s1) _ _ s1 (ms_tab _ _ _ M1) HE h Q (fun _ _ => False) s1 Hc Hu Hal Hh I)
      as (s' & Eq & I'); [intros m q Hq; right; unfold Q in Hq; by rewrite Et|].
    exists s'. split; [done|]. by apply minv_advanced. }
  destruct (push_marked_eq h (HDRv (mk_tab s) h) s) as [Eq|Eq].
  - destruct (Hgo s eq_refl M) as (s' & Eq' & A). exists s'. split_and!; try done. left. congruence.
  - destruct (Hgo (set_marked true s)) as (s' & Eq' & A); [done|by destruct M|].
    apply advanced_marked in A as [A Ho]. exists s'. rewrite Eq. split_and!; try done. by right.
Qed.

Lemma push_unconditionally_advanced (h : Z) (s : mk_state) :
  mk_ok E R s -> in_use (mk_tab s) h -> h mod 4096 = 0 -> 0 <= h ->
  exists s', GC_push_unconditionally E h (HDRv (mk_tab s) h) s = Some s' /\ advanced (fun _ _ => False) s s'
    /\ (s' = s \/ GC_objects_are_marked s' = true).
Proof.
  intros M Hu Hal Hh. set (Q := fun (_ : mode) (_ : Z) => False).
  assert (Hgo : forall s1, mk_tab s1 = mk_tab s -> mk_ok E R s1 ->
    exists s', GC_push_unconditionally E h (HDRv (mk_tab s) h) s1 = Some s' /\ advanced Q s1 s').
  { intros s1 Et M1. pose proof (minv_start Q s1 M1) as I. rewrite <- Et in Hu |- *.
    destruct (GC_push_unconditionally_minv E R (mk_tab s1) _ _ s1 (ms_tab _ _ _ M1) h Q s1 Hu Hal Hh I)
      as (s' & Eq & I').
    exists s'. split; [done|]. by apply minv_advanced. }
  destruct (push_unconditionally_eq h (HDRv (mk_tab s) h) s) as [Eq|Eq].
  - destruct (Hgo s eq_refl M) as (s' & Eq' & A). exists s'. split_and!; try done. left. congruence.
  - destruct (Hgo (set_marked true s)) as (s' & Eq' & A); [done|by destruct M|].
    apply advanced_marked in A as [A Ho]. exists s'. rewrite Eq. split_and!; try done. by right.
Qed.

Lemma push_roots_advanced (s : mk_state) :
  mk_ok E R s -> Forall (root_ok E R) (GC_push_roots_calls E true) ->
  exists s', run_push_roots E (GC_push_roots_calls E true) s = Some s' /\ advanced (roots E) s s'.
Proof.
  intros M Hr. pose proof (minv_start (roots E) s M) as I.
  destruct (run_push_roots_minv E R (mk_tab s) (GC_all_interior_pointers (mk_bl s)) (obligations (roots E) s) s (ms_tab _ _ _ M) HE _ (fun _ _ => False) s Hr)
    as (s' & Eq & I').
  { eapply minv_weaken; [|exact I]. intros m q Hq. right. right. by right. }
  exists s'. split; [done|]. by apply minv_advanced.
Qed.

(** ** What a step does to the promises of a phase *)

Lemma advanced_objs (Q : mode -> Z -> Prop) (s s' : mk_state) (X Y : Z -> Prop) :
  advanced Q s s' -> GC_mark_state s' <> MS_INVALID -> objs_cov E s X ->
  (forall b, is_object (mk_tab s) b -> obj_marked (mk_tab s) b = true -> Y b ->
     X b \/ forall m q, ref E b (obj_descr (mk_tab s) b) m q -> Q m q) ->
  objs_cov E s' Y.
Proof.
  intros A Hs HX HY b Ho Hm Hy. destruct (ad_comp _ _ _ A) as [[_ ?]|[Hc Hn]]; [done|].
  apply (is_object_shape _ _ b (ad_shape _ _ _ A)) in Ho.
  destruct (obj_marked (mk_tab s) b) eqn:Em; [|by apply Hn].
  intros m q. rewrite (obj_descr_shape (mk_tab s) _ b (ad_shape _ _ _ A)). intros Hr. apply Hc.
  destruct (HY b Ho Em Hy) as [Hx|Hq]; [left; by apply (HX b)|right; by apply Hq].
Qed.

Lemma advanced_roots (Q : mode -> Z -> Prop) (s s' : mk_state) :
  advanced Q s s' -> GC_mark_state s' <> MS_INVALID ->
  (forall m q, roots E m q -> cov E s m q \/ Q m q) -> roots_cov E s'.
Proof. intros A Hs HQ m q Hq. destruct (ad_comp _ _ _ A) as [[_ ?]|[Hc Hn]]; [done|]. by apply Hc, HQ. Qed.

Lemma advanced_base (Q : mode -> Z -> Prop) (s s' : mk_state) : advanced Q s s' -> ms_base E R s -> ms_base E R s'.
Proof.
  intros A [H1 H2 H3 H4 H5 H6]. destruct (ad_frame _ _ _ A) as (F1 & F2 & F3 & _). pose proof (ad_shape _ _ _ A) as S.
  split; rewrite ?F1, ?F2, ?F3; try done; [apply A|by apply (walk_ok_shape (mk_tab s))|by apply (conservative_shape E (mk_tab s))].
Qed.

Lemma advanced_uncollectable (Q : mode -> Z -> Prop) (s s' : mk_state) (b : Z) :
  advanced Q s s' -> uncollectable (mk_tab s') b <-> uncollectable (mk_tab s) b.
Proof.
  intros A. unfold uncollectable. rewrite (proj1 (ad_shape _ _ _ A)).
  by destruct (shape_hdr _ _ (HDRv (mk_tab s) b) (ad_shape _ _ _ A)) as (n & m & ->).
Qed.
End Steps.

(** ** Growing the stack *)

Lemma finds_use (t : hdr_state) (interior : bool) (m : mode) (p v : Z) :
  finds t interior m p v -> exists q, in_use t q /\ v = HDRv t q.
Proof. destruct 1 as [|start sz]; [by exists p|by exists start]. Qed.

Lemma same_use_frame (t t' : hdr_state) :
  (forall q, HDRv t' q = HDRv t q) -> (forall v, hdr_of t' v = hdr_of t v) -> same_use t t'.
Proof.
  intros H1 H2. assert (S : shape t t').
  { split; [done|]. intros v. exists (hb_n_marks (hdr_of t v)), (hb_marks (hdr_of t v)). rewrite H2. by destruct (hdr_of t v). }
  split; [intros; symmetry; by apply in_use_shape|by intros|].
  intros interior m p v. split; [apply finds_shape; by symmetry|by apply finds_shape].
Qed.

Lemma same_use_trans (t t' t'' : hdr_state) : same_use t t' -> same_use t' t'' -> same_use t t''.
Proof.
  intros [A1 A2 A3] [B1 B2 B3]. split.
  - intros q. by rewrite B1.
  - intros q Hq. destruct (A2 q Hq) as [C1 C2]. destruct (B2 q (proj2 (A1 q) Hq)) as [D1 D2].
    rewrite C1 in D1, D2. split; congruence.
  - intros interior m p v. by rewrite B3.
Qed.

Section SameUse.
Context (E : menv) (t t' : hdr_state) (U : same_use t t').

Lemma same_use_hdr (q : Z) : in_use t q -> hdr_of t' (HDRv t' q) = hdr_of t (HDRv t q).
Proof. intros Hq. by destruct (su_hdr _ _ U q Hq) as [-> ->]. Qed.

Lemma same_use_object (b : Z) : is_object t' b <-> is_object t b.
Proof.
  unfold is_object. rewrite (su_use _ _ U). split; intros [Hu Ho]; (split; [done|]); [|by rewrite same_use_hdr].
  by rewrite same_use_hdr in Ho.
Qed.

Lemma same_use_marked (b : Z) : is_object t b -> obj_marked t' b = obj_marked t b /\ obj_descr t' b = obj_descr t b.
Proof. intros [Hu _]. unfold obj_marked, obj_descr. by rewrite same_use_hdr. Qed.

Lemma same_use_points (interior : bool) (m : mode) (p b : Z) :
  points_to E t' interior m p b <-> points_to E t interior m p b.
Proof.
  assert (Hv : forall v, finds t interior m p v -> hdr_of t' v = hdr_of t v).
  { intros v Hf. destruct (finds_use _ _ _ _ _ Hf) as (q & Hq & ->). by destruct (su_hdr _ _ U q Hq). }
  split; intros (v & Hf & Hh); exists v; [apply (su_finds _ _ U) in Hf|]; rewrite ?Hv in Hh by done.
  - done.
  - rewrite Hv by done. split; [by apply (su_finds _ _ U)|done].
Qed.

Lemma same_use_conservative : conservative E t -> conservative E t'.
Proof.
  intros H b m q Ho%same_use_object. rewrite (proj2 (same_use_marked b Ho)), (same_use_hdr b (proj1 Ho)). by apply H.
Qed.
End SameUse.

(** The objects stay the same, and marked ones stay marked. *)
Definition kept (s s' : mk_state) : Prop :=
  GC_all_interior_pointers (mk_bl s') = GC_all_interior_pointers (mk_bl s)
  /\ forall b, (is_object (mk_tab s') b <-> is_object (mk_tab s) b)
       /\ (is_object (mk_tab s) b -> obj_marked (mk_tab s) b = true -> obj_marked (mk_tab s') b = true).

#[export] Instance kept_preorder : PreOrder kept.
Proof.
  split; [done|]. intros s1 s2 s3 [A1 A2] [B1 B2]. split; [congruence|]. intros b.
  destruct (A2 b) as [A3 A4], (B2 b) as [B3 B4]. split; [tauto|]. intros Ho Hm. apply B4; [tauto|]. by apply A4.
Qed.

Lemma advanced_kept (E : menv) (R : ranking E) (Q : mode -> Z -> Prop) (s s' : mk_state) :
  advanced E R Q s s' -> kept s s'.
Proof.
  intros A. split; [apply A|]. intros b. split; [symmetry; apply is_object_shape, A|]. intros _. apply A.
Qed.

Section Grow.
Context (E : menv) (R : ranking E) (HL : recycle_law E).

(** Only the table and the storage of the stack have changed. *)
Record regrown (s s' : mk_state) : Prop := {
  rg_base : ms_base E R s';
  rg_use : same_use (mk_tab s) (mk_tab s');
  rg_bl : mk_bl s' = mk_bl s;
  rg_stack : GC_mark_stack s' = GC_mark_stack s;
  rg_state : GC_mark_state s' = GC_mark_state s;
  rg_marked : GC_objects_are_marked s' = GC_objects_are_marked s;
  rg_scan : GC_scan_ptr s' = GC_scan_ptr s
}.

Lemma regrown_kept (s s' : mk_state) : regrown s s' -> kept s s'.
Proof.
  intros [_ U Eb _ _ _ _]. split; [by rewrite Eb|]. intros b. split; [by apply same_use_object|].
  intros Ho. by rewrite (proj1 (same_use_marked _ _ U b Ho)).
Qed.

Lemma regrown_cov (s s' : mk_state) (m : mode) (q : Z) :
  mk_ok E R s -> regrown s s' -> cov E s m q -> cov E s' m q.
Proof.
  intros M [_ U Eb Es _ _ _] [H|H]; [|right; by rewrite Es]. left. intros b Hb. rewrite Eb in Hb.
  apply (same_use_points E _ _ U) in Hb. destruct (points_to_obj E _ _ m q b (ms_tab _ _ _ M) Hb) as [Hu _].
  specialize (H b Hb). unfold obj_marked in *. by rewrite (same_use_hdr _ _ U b Hu).
Qed.

Lemma regrown_objs (s s' : mk_state) (X : Z -> Prop) :
  mk_ok E R s -> regrown s s' -> objs_cov E s X -> objs_cov E s' X.
Proof.
  intros M G H b Ho Hm Hx m q Hr. pose proof (rg_use _ _ G) as U. apply (same_use_object _ _ U) in Ho.
  destruct (same_use_marked _ _ U b Ho) as [Em Ed]. rewrite Em in Hm. rewrite Ed in Hr.
  apply (regrown_cov s); [done..|]. by apply (H b).
Qed.

(** The scratch allocator leaves the table alone. *)
Lemma scratch_same (t : hdr_state) (n : Z) :
  wf_tab E t -> walk_ok t -> 0 < n < 2 ^ 63 ->
  exists r t', scratch_alloc n t = Some (r, t') /\ wf_tab E t' /\ walk_ok t' /\ same_use t t'.
Proof.
  intros W K Hn. destruct (tree_scratch t n (wt_wf _ _ W) Hn) as (r & t' & Eq & Hwf & _).
  exists r, t'. split; [done|]. unfold scratch_alloc in Eq. destruct (GC_scratch_alloc n (hs_scratch t)) as [[r' sc]|]; [|done].
  cbn in Eq. injection Eq as -> <-.
  assert (HD : forall q, HDRv (set_hs_scratch sc t) q = HDRv t q) by (intros; by apply HDRv_frame).
  assert (U : same_use t (set_hs_scratch sc t)) by (by apply same_use_frame).
  assert (S : shape t (set_hs_scratch sc t)).
  { split; [done|]. intros v. exists (hb_n_marks (hdr_of t v)), (hb_marks (hdr_of t v)).
    change (hdr_of (set_hs_scratch sc t) v) with (hdr_of t v). by destruct (hdr_of t v). }
  split_and!; [|by apply (walk_ok_shape t)|done].
  apply (wf_tab_shape E t); try done. apply (cache_ok_shape t); [done|done|apply (wt_cache _ _ W)].
Qed.

Lemma set_table_ok (t' : hdr_state) (s : mk_state) :
  mk_ok E R s -> wf_tab E t' -> same_use (mk_tab s) t' -> mk_ok E R (set_tab t' s).
Proof.
  intros [M1 M2 M3] W U. split; [done|done|]. cbn. intros b Ho. apply (same_use_object _ _ U) in Ho.
  rewrite (proj2 (same_use_marked _ _ U b Ho)). by apply M3.
Qed.

Lemma grow_stack_spec (s : mk_state) :
  ms_base E R s -> GC_mark_stack s = [] -> GC_mark_stack_size s < 2 ^ 58 ->
  exists s', grow_if_too_small E s = Some s' /\ regrown s s'.
Proof.
  intros B Es Hsz. unfold grow_if_too_small. destruct (GC_mark_stack_too_small s).
  2:{ exists s. split; [done|]. split; done. }
  destruct B as [M K C Sc Ad Sz]. unfold alloc_mark_stack. unfold sizeof_mse, wrap64.
  assert (Hn : 0 < 2 * GC_mark_stack_size s * 16 < 2 ^ 63) by lia.
  rewrite Z.mod_small by (unfold W64; lia).
  destruct (scratch_same (mk_tab s) _ (ms_tab _ _ _ M) K Hn) as (r & t1 & -> & W1 & K1 & U1).
  rewrite some_bind. cbn [GC_mark_stack_addr set_too_small set_tab mk_tab]. rewrite (proj2 (Z.eqb_neq _ _) Ad). cbn [negb].
  destruct (Z.eqb_spec r 0) as [->|Hr]; cbn [negb].
  - rewrite some_bind. eexists. split; [reflexivity|]. split; try done; cbn.
    split; cbn; try done.
    + pose proof (set_table_ok t1 s M W1 U1) as [A1 A2 A3]. by split.
    + by apply (same_use_conservative E (mk_tab s)).
  - destruct (HL (GC_mark_stack_addr s) (GC_mark_stack_size s * 16) t1 W1 K1) as (W2 & K2 & U2). cbn zeta in *.
    set (t2 := GC_scratch_recycle_inner E _ _ t1) in *.
    assert (U : same_use (mk_tab s) t2) by (by apply (same_use_trans _ t1)).
    rewrite some_bind. eexists. split; [reflexivity|]. split; try done; cbn.
    split; cbn; try done; try lia.
    + pose proof (set_table_ok t2 s M W2 U) as [A1 A2 A3]. by split.
    + by apply (same_use_conservative E (mk_tab s)).
Qed.
End Grow.

(** ** The steps of [GC_mark_some] *)

Section Some.
Context (E : menv) (R : ranking E) (HE : env_ok E) (HL : recycle_law E).
Context (Hroots : Forall (root_ok E R) (GC_push_roots_calls E true)).

Lemma base_set_scan (s : mk_state) (p : Z) :
  ms_base E R s -> 0 <= p < W64 -> p mod 4096 = 0 -> ms_base E R (set_scan p s).
Proof. intros [M K C Sc Ad Sz] H1 H2. split; try done. by destruct M. Qed.

Lemma base_set_state (s : mk_state) (v : Z) : ms_base E R s -> ms_base E R (set_mark_state v s).
Proof. intros [M K C Sc Ad Sz]. split; try done. by destruct M. Qed.

Lemma base_set_marked (s : mk_state) : ms_base E R s -> ms_base E R (set_marked true s).
Proof. intros [M K C Sc Ad Sz]. split; try done. by destruct M. Qed.

(** Once the scan is over, the roots are pushed. *)
Lemma push_roots_spec (s : mk_state) :
  ms_base E R s -> objs_cov E s (fun _ => True) -> GC_scan_ptr s = NULL ->
  exists s', push_roots_and_advance E true s = Some s' /\ ms_inv E R s' /\ kept s s'.
Proof.
  intros B HC Hsc. unfold push_roots_and_advance. rewrite Hsc. cbn [Z.eqb negb].
  destruct (push_roots_advanced E R HE s (mb_ok _ _ _ B) Hroots) as (s1 & -> & A). rewrite some_bind.
  pose proof (base_set_marked s1 (advanced_base E R _ s s1 A B)) as B1.
  pose proof (advanced_kept E R _ s s1 A) as K.
  change (GC_mark_state (set_marked true s1)) with (GC_mark_state s1).
  destruct (Z.eqb_spec (GC_mark_state s1) MS_INVALID) as [Ei|Ei]; cbn [negb].
  - eexists. split; [reflexivity|]. split; [|done]. split; [done|]. by apply phase_invalid.
  - eexists. split; [reflexivity|]. split; [|done]. split; [by apply base_set_state|]. apply phase_roots; [done|..].
    + apply (advanced_objs E R (roots E) s s1 (fun _ => True)); try done. intros; by left.
    + apply (advanced_roots E R (roots E) s s1); try done. intros; by right.
Qed.

(** Marking from the stack, in any phase. *)
Lemma mark_from_phase (s : mk_state) :
  ms_inv E R s -> work E R s < W64 -> GC_mark_state s <> MS_NONE ->
  (GC_objects_are_marked s = false -> GC_mark_state s <> MS_INVALID) ->
  exists s', MARK_FROM_MARK_STACK E s = Some s' /\ ms_inv E R s' /\ kept s s'.
Proof.
  intros [B P] Hw Hnone Hom. destruct (mark_from_advanced E R HE s (mb_ok _ _ _ B) Hw) as (s' & -> & A & Ho).
  exists s'. split; [done|]. split; [|by eapply advanced_kept]. split; [by eapply advanced_base|].
  destruct (ad_frame _ _ _ _ _ A) as (_ & _ & F3 & F4 & _).
  destruct (decide (GC_mark_state s' = MS_INVALID)) as [Ei|Ei]; [by apply phase_invalid|].
  destruct F4 as [F4|?]; [|done].
  destruct P as [P1|P1|P1 P2|P1 P2 P3|P1 P2 P3|?]; try congruence.
  - apply phase_uncollectable; [congruence|]. eapply (advanced_objs E R); [exact A|done|exact P2|].
    intros b _ _. rewrite F3, (advanced_uncollectable E R _ s s' b A). by left.
  - apply phase_partial; [congruence|done|]. eapply (advanced_objs E R); [exact A|done|exact P3|].
    intros b _ _. rewrite F3. by left.
  - apply phase_roots; [congruence|..].
    + eapply (advanced_objs E R); [exact A|done|exact P2|]. intros; by left.
    + eapply (advanced_roots E R); [exact A|done|]. intros m q Hq. left. by apply P3.
Qed.

(** A block that has been looked at, and the place to go on from. *)
Definition passed_block (s s1 : mk_state) (r p : Z) : Prop :=
  in_use (mk_tab s) r /\ GC_scan_ptr s <= r /\ r < p < W64 /\ p mod 4096 = 0
  /\ (s1 = s \/ GC_objects_are_marked s1 = true)
  /\ forall q, in_use (mk_tab s) q -> r / 4096 < q / 4096 -> p / 4096 <= q / 4096.

Lemma after_block_shape (t t' : hdr_state) (h : Z) : shape t t' -> after_block t' h (HDRv t h) = after_block t h (HDRv t h).
Proof. intros S. unfold after_block. by destruct (shape_hdr t t' (HDRv t h) S) as (n & m & ->). Qed.

Lemma push_next_spec (s : mk_state) :
  ms_base E R s ->
  exists p s1, GC_push_next_marked E (GC_scan_ptr s) s = Some (p, s1)
    /\ ((p = NULL /\ s1 = s /\ forall q, GC_scan_ptr s / 4096 <= q / 4096 -> ~ in_use (mk_tab s) q)
        \/ exists r, passed_block s s1 r p /\ advanced E R (block_refs E (mk_tab s) r) s s1
             /\ forall q, GC_scan_ptr s / 4096 <= q / 4096 -> in_use (mk_tab s) q -> r / 4096 <= q / 4096).
Proof.
  intros [M K C [Sc Sa] Ad Sz]. unfold GC_push_next_marked.
  destruct (next_in_use_spec E (mk_tab s) _ (ms_tab _ _ _ M) K Sc Sa) as (r & v & -> & Hf). rewrite some_bind.
  destruct Hf as [[-> Hf]|(H1 & H2 & H3 & H4 & -> & H6)].
  { rewrite Z.eqb_refl. exists 0, s. split; [done|]. by left. }
  rewrite (proj2 (Z.eqb_neq r 0) H1).
  destruct (push_marked_advanced E R HE r s M C H4 H2 ltac:(lia)) as (s1 & -> & A & Ho). rewrite some_bind.
  rewrite (after_block_shape _ _ r (ad_shape _ _ _ _ _ A)).
  destruct (after_block_bounds (mk_tab s) r K H4 H2) as ([B0 B1] & B2 & B3). cbn zeta in *.
  eexists _, s1. split; [reflexivity|]. right. exists r. split; [by split_and!|]. done.
Qed.

Lemma object_nonneg (s : mk_state) (b : Z) : ms_base E R s -> is_object (mk_tab s) b -> 0 < b / 4096.
Proof. intros B [Hu _]. eapply in_use_pos; [apply (ms_tab _ _ _ (mb_ok _ _ _ B))|apply B|done]. Qed.

(** A new scan starts with a larger stack, if the old one was too small. *)
Definition scanning (s s1 : mk_state) : Prop :=
  ms_base E R s1 /\ kept s s1 /\ GC_objects_are_marked s1 = true
  /\ (GC_mark_state s1 = MS_INVALID
      \/ (GC_mark_state s1 = MS_PARTIALLY_INVALID /\ objs_cov E s1 (fun b => b < GC_scan_ptr s1))).

Lemma rescan_start (s : mk_state) :
  ms_inv E R s -> GC_mark_state s = MS_INVALID \/ GC_mark_state s = MS_PARTIALLY_INVALID ->
  GC_mark_stack s = [] -> GC_objects_are_marked s = true -> GC_mark_stack_size s < 2 ^ 58 ->
  exists s1, (if (GC_scan_ptr s =? 0) && (GC_mark_state s =? MS_INVALID)
      then s1 ← grow_if_too_small E s; Some (set_mark_state MS_PARTIALLY_INVALID s1) else Some s) = Some s1
    /\ scanning s s1.
Proof.
  intros [B P] Hst Es Eo Hsz. unfold scanning.
  destruct (Z.eqb_spec (GC_scan_ptr s) 0) as [E0|E0]; cbn [andb].
  2:{ exists s. split; [done|]. split_and!; try done. destruct Hst as [?|Hst]; [by left|right].
      split; [done|]. destruct P; try ms_absurd; done. }
  destruct (Z.eqb_spec (GC_mark_state s) MS_INVALID) as [Ei|Ei].
  - destruct (grow_stack_spec E R HL s B Es Hsz) as (s1 & -> & G). rewrite some_bind. eexists. split; [reflexivity|].
    split; [apply base_set_state, G|]. split; [exact (regrown_kept E R s s1 G)|]. split; [by rewrite <- Eo, <- (rg_marked _ _ _ _ G)|].
    right. split; [done|]. intros b Hb Hm Hx. pose proof (object_nonneg s1 b (rg_base _ _ _ _ G) Hb).
    cbn in Hx. rewrite (rg_scan _ _ _ _ G), E0 in Hx. dlia.
  - exists s. split; [done|]. split_and!; try done. destruct Hst as [?|Hst]; [done|right]. split; [done|].
    destruct P; try ms_absurd; done.
Qed.

(** Scanning the heap for marked objects. *)
Lemma rescan_spec (s : mk_state) :
  ms_inv E R s -> GC_mark_state s = MS_INVALID \/ GC_mark_state s = MS_PARTIALLY_INVALID ->
  work E R s < W64 -> GC_mark_stack_size s < 2 ^ 58 ->
  exists s', rescan E s = Some (false, s') /\ ms_inv E R s' /\ kept s s'.
Proof.
  intros [B P] Hst Hw Hsz. unfold rescan. destruct (GC_objects_are_marked s) eqn:Eo; cbn [negb].
  2:{ eexists. split; [reflexivity|]. split; [|done]. split; [by apply base_set_state|]. apply phase_uncollectable; [done|].
      destruct P as [P1 P2 P3|? ?|? ?|? ? ?|? ? ?|? ? ?]; [|ms_absurd..].
      intros b Hb Hm Hx m q. apply (P3 b Hb Hm). intros Hu. apply Hx. cbn. rewrite P2. split; [done|].
      pose proof (object_nonneg s b B Hb). dlia. }
  destruct (Z.leb_spec 0 (depth s - 1)) as [Hd|Hd].
  { destruct (mark_from_phase s (conj B P) Hw) as (s' & -> & I & Kp); [intros ?; ms_absurd|congruence|].
    rewrite some_bind. by exists s'. }
  assert (Es : GC_mark_stack s = []) by (apply nil_length_inv; unfold depth in Hd; lia).
  destruct (rescan_start s (conj B P) Hst Es Eo Hsz) as (s1 & -> & B1 & K1 & Eo1 & Hst1). rewrite some_bind.
  destruct (push_next_spec s1 B1) as (p & s2 & -> & Hp). rewrite some_bind.
  change (GC_mark_state (set_scan p s2)) with (GC_mark_state s2).
  destruct Hp as [(-> & -> & Hp)|(r & (Q1 & Q2 & Q3 & Q4 & Q5 & Q6) & A & Hr)].
  - (* the scan is over *)
    pose proof (base_set_scan s1 0 B1 ltac:(unfold W64; lia) eq_refl) as B2.
    destruct Hst1 as [Ei|[Ep HC]].
    + rewrite Ei. change (MS_INVALID =? MS_PARTIALLY_INVALID) with false. cbn iota. rewrite some_bind. eexists. split; [reflexivity|].
      split; [|done]. split; [done|]. by apply phase_invalid.
    + rewrite Ep, Z.eqb_refl. destruct (push_roots_spec (set_scan 0 s1) B2) as (s' & -> & I & Kp); [|done|].
      { intros b Hb Hm _. apply (HC b Hb Hm). destruct (Z.lt_ge_cases b (GC_scan_ptr s1)) as [|Hge]; [done|].
        exfalso. apply (Hp b); [|apply Hb]. destruct (mb_scan _ _ _ B1). dlia. }
      rewrite some_bind. exists s'. split; [done|]. split; [done|]. etransitivity; [exact K1|exact Kp].
  - pose proof (base_set_scan s2 p (advanced_base E R _ _ _ A B1) ltac:(destruct (mb_scan _ _ _ B1); lia) Q4) as B2.
    assert (K2 : kept s s2) by (etransitivity; [exact K1|by eapply advanced_kept]).
    destruct (ad_frame _ _ _ _ _ A) as (_ & _ & F3 & F4 & F5).
    assert (Hfin : (if GC_mark_state s2 =? MS_PARTIALLY_INVALID
      then push_roots_and_advance E true (set_scan p s2) else Some (set_scan p s2)) = Some (set_scan p s2)).
    { destruct (_ =? _); [|done]. unfold push_roots_and_advance. cbn [GC_scan_ptr set_scan].
      rewrite (proj2 (Z.eqb_neq p 0)); [done|]. destruct (mb_scan _ _ _ B1). lia. }
    rewrite Hfin, some_bind. eexists. split; [reflexivity|]. split; [|done]. split; [done|].
    destruct (decide (GC_mark_state s2 = MS_INVALID)) as [Ei|Ei]; [by apply phase_invalid; [|cbn; apply F5]|].
    destruct F4 as [F4|?]; [|done]. destruct Hst1 as [?|[Ep HC]]; [congruence|].
    apply phase_partial; [cbn; congruence|cbn; by apply F5|]. cbn [GC_scan_ptr set_scan].
    eapply (advanced_objs E R _ s1 s2); [exact A|done|exact HC|].
    intros b Hb Hm Hlt. destruct (Z.lt_ge_cases b (GC_scan_ptr s1)) as [|Hge]; [by left|right].
    intros m q Hq. exists b. split_and!; try done.
    assert (Hbr : r / 4096 <= b / 4096) by (apply Hr; [destruct (mb_scan _ _ _ B1); dlia|apply Hb]).
    destruct (Z.eq_dec (r / 4096) (b / 4096)) as [Eq|Hne]; [done|].
    exfalso. pose proof (Q6 b (proj1 Hb) ltac:(lia)). dlia.
Qed.

(** Pushing the uncollectable objects. *)
Lemma push_uncollectable_spec (s : mk_state) :
  ms_inv E R s -> GC_mark_state s = MS_PUSH_UNCOLLECTABLE -> work E R s < W64 ->
  exists s', push_uncollectable E s = Some (false, s') /\ ms_inv E R s' /\ kept s s'.
Proof.
  intros [B P] Hst Hw. unfold push_uncollectable. destruct (_ <=? _).
  { destruct (mark_from_phase s (conj B P) Hw) as (s' & -> & I & Kp); [intros ?; ms_absurd|intros _ ?; ms_absurd|].
    rewrite some_bind. by exists s'. }
  destruct P as [? ?|?|P1 HC|? ?|? ? ?|? ? ?]; try ms_absurd.
  pose proof B as [M K C [Sc Sa] Ad Sz]. unfold GC_push_next_marked_uncollectable.
  destruct (next_uncollectable_spec E (mk_tab s) _ (ms_tab _ _ _ M) K Sc Sa) as (r & v & -> & Hf). rewrite some_bind.
  destruct Hf as [[-> Hf]|(H1 & H2 & H3 & H4 & -> & H6)].
  - rewrite Z.eqb_refl, some_bind.
    destruct (push_roots_spec (set_scan 0 s)) as (s' & -> & I & Kp); [by apply base_set_scan| |done|].
    { intros b Hb Hm _. apply (HC b Hb Hm). intros [Hu Hge]. apply (Hf b); [dlia|apply Hb|done]. }
    rewrite some_bind. by exists s'.
  - rewrite (proj2 (Z.eqb_neq r 0) H1).
    assert (Hpush : exists s1, (if hb_obj_kind (hdr_of (mk_tab s) (HDRv (mk_tab s) r)) =? UNCOLLECTABLE
        then GC_push_marked E r (HDRv (mk_tab s) r) s else GC_push_unconditionally E r (HDRv (mk_tab s) r) s) = Some s1
      /\ exists Q, advanced E R Q s s1 /\ (s1 = s \/ GC_objects_are_marked s1 = true)
        /\ (uncollectable (mk_tab s) r -> forall m q, block_refs E (mk_tab s) r m q -> Q m q)).
    { destruct (Z.eqb_spec (hb_obj_kind (hdr_of (mk_tab s) (HDRv (mk_tab s) r))) UNCOLLECTABLE) as [Eu|Eu].
      - destruct (push_marked_advanced E R HE r s M C H4 H2 ltac:(lia)) as (s1 & -> & A & Ho). exists s1. split; [done|]. by eexists.
      - destruct (push_unconditionally_advanced E R r s M H4 H2 ltac:(lia)) as (s1 & -> & A & Ho). exists s1. split; [done|].
        eexists. by split_and!. }
    destruct Hpush as (s1 & -> & Q & A & Ho & HQ). rewrite some_bind, some_bind.
    rewrite (after_block_shape _ _ r (ad_shape _ _ _ _ _ A)).
    destruct (after_block_bounds (mk_tab s) r K H4 H2) as ([B0 B1] & B2 & B3). cbn zeta in *.
    set (p := after_block _ _ _) in *. unfold push_roots_and_advance. cbn [GC_scan_ptr set_scan].
    rewrite (proj2 (Z.eqb_neq p 0)) by lia. cbn [negb]. rewrite some_bind. eexists. split; [reflexivity|].
    split; [|exact (advanced_kept E R _ s s1 A)]. split; [apply base_set_scan; [by eapply advanced_base|lia|done]|].
    destruct (ad_frame _ _ _ _ _ A) as (_ & _ & F3 & F4 & F5).
    destruct (decide (GC_mark_state s1 = MS_INVALID)) as [Ei|Ei].
    { apply phase_invalid; [done|]. destruct Ho as [-> |?]; [ms_absurd|done]. }
    destruct F4 as [F4|?]; [|done]. apply phase_uncollectable; [cbn; congruence|]. cbn [GC_scan_ptr set_scan].
    eapply (advanced_objs E R Q s s1); [exact A|done|exact HC|]. cbn beta.
    intros b Hb Hm Hx. destruct (decide (GC_scan_ptr s <= b)) as [Hge|Hlt]; [|left; by intros [_ ?]].
    destruct (Z.eq_dec (hb_obj_kind (hdr_of (mk_tab s) (HDRv (mk_tab s) b))) UNCOLLECTABLE) as [Hu|Hu]; [|left; by intros [? _]].
    destruct (Z.lt_trichotomy (b / 4096) (r / 4096)) as [Hbr|[Hbr|Hbr]].
    + exfalso. apply (H6 b); [dlia|apply Hb|done].
    + right. intros m q Hq. apply HQ; [|by exists b]. unfold uncollectable. by rewrite (HDRv_block _ r b).
    + exfalso. apply Hx. split; [by apply (advanced_uncollectable E R _ s s1 b A)|].
      pose proof (B3 b (proj1 Hb) Hbr). dlia.
Qed.

(** The last phase. *)
Lemma roots_pushed_spec (s : mk_state) :
  ms_inv E R s -> GC_mark_state s = MS_ROOTS_PUSHED -> work E R s < W64 -> GC_mark_stack_size s < 2 ^ 58 ->
  exists b s', roots_pushed E s = Some (b, s') /\ ms_inv E R s' /\ kept s s'
    /\ (b = true -> GC_mark_state s' = MS_NONE).
Proof.
  intros [B P] Hst Hw Hsz. unfold roots_pushed. destruct (Z.leb_spec 0 (depth s - 1)) as [Hd|Hd].
  { destruct (mark_from_phase s (conj B P) Hw) as (s' & -> & I & Kp); [intros ?; ms_absurd|intros _ ?; ms_absurd|].
    rewrite some_bind. by exists false, s'. }
  assert (Es : GC_mark_stack s = []) by (apply nil_length_inv; unfold depth in Hd; lia).
  destruct (grow_stack_spec E R HL s B Es Hsz) as (s1 & -> & G). rewrite some_bind. eexists true, _. split; [reflexivity|].
  split; [|by split; [exact (regrown_kept E R s s1 G)|]]. split; [apply base_set_state, G|].
  destruct P as [? ?|?|?|? ?|P1 P2 P3|? ? ?]; try ms_absurd. pose proof (mb_ok _ _ _ B) as M.
  apply phase_none; [done|by rewrite <- Es, <- (rg_stack _ _ _ _ G)| |].
  - exact (regrown_objs E R s s1 _ M G P2).
  - intros m q Hq. exact (regrown_cov E R s s1 m q M G (P3 m q Hq)).
Qed.

Lemma GC_mark_some_spec (s : mk_state) :
  ms_inv E R s -> work E R s < W64 -> GC_mark_stack_size s < 2 ^ 58 ->
  exists b s', GC_mark_some E s = Some (b, s') /\ ms_inv E R s' /\ kept s s'
    /\ (b = true -> GC_mark_state s' = MS_NONE).
Proof.
  intros I Hw Hsz. unfold GC_mark_some.
  assert (Hst : GC_mark_state s = MS_INVALID \/ GC_mark_state s = MS_PUSH_UNCOLLECTABLE
    \/ GC_mark_state s = MS_PARTIALLY_INVALID \/ GC_mark_state s = MS_ROOTS_PUSHED \/ GC_mark_state s = MS_NONE).
  { destruct I as [_ []]; auto. }
  destruct Hst as [Hst|[Hst|[Hst|[Hst|Hst]]]]; rewrite Hst; cbn -[rescan push_uncollectable roots_pushed].
  - destruct (rescan_spec s I) as (s' & -> & I' & Kp); [by left|done..|]. by exists false, s'.
  - destruct (push_uncollectable_spec s I) as (s' & -> & I' & Kp); [done..|]. by exists false, s'.
  - destruct (rescan_spec s I) as (s' & -> & I' & Kp); [by right|done..|]. by exists false, s'.
  - by apply roots_pushed_spec.
  - by exists true, s.
Qed.
End Some.

(** With nothing left to do, whatever is live is marked. *)
Lemma none_complete (E : menv) (R : ranking E) (s : mk_state) (b : Z) :
  ms_inv E R s -> GC_mark_state s = MS_NONE ->
  live E (mk_tab s) (GC_all_interior_pointers (mk_bl s)) (roots E) b -> obj_marked (mk_tab s) b = true.
Proof.
  intros [B P] Hst. destruct P as [? ?|?|?|? ?|? ? ?|_ Es HC HR]; try ms_absurd.
  assert (Hc : forall m q b', cov E s m q ->
    points_to E (mk_tab s) (GC_all_interior_pointers (mk_bl s)) m q b' -> obj_marked (mk_tab s) b' = true).
  { intros m q b' [H|[(e & He & _)|[]]] Hp; [by apply H|]. rewrite Es in He. by apply elem_of_nil in He. }
  induction 1 as [m q b Hf Hp|b m q b' Hl IH Ho Hr Hp]; [by apply (Hc m q); [apply HR|]|].
  apply (Hc m q); [|done]. by apply (HC b).
Qed.

(** ** The start of a full collection *)

Lemma clear_hdr_marks_ok (hd : hdr) : 0 <= hb_sz hd -> marks_ok (GC_clear_hdr_marks hd).
Proof.
  intros Hs. split_and!; [|done|].
  - intros i. unfold GC_clear_hdr_marks, set_mark_bit_from_hdr. cbn [hb_marks set_hb_marks hb_sz].
    rewrite aget_insert, aget_empty. case_decide; [|rewrite aget_empty; unfold W64; lia].
    set (k := FINAL_MARK_BIT _). unfold modWORDSZ, CPP_WORDSZ. change (64 - 1) with (2 ^ 6 - 1).
    rewrite land_low_mask by lia. rewrite Z.lor_0_l, Z.shiftl_1_l.
    assert (0 <= k mod 2 ^ 6 < 64) by (apply Z.mod_pos_bound; lia).
    split; [apply Z.pow_nonneg; lia|]. unfold W64. apply Z.pow_lt_mono_r; lia.
  - intros _ n Hn. rewrite clear_marks_bit. apply bool_decide_eq_false.
    change (hb_sz (GC_clear_hdr_marks hd)) with (hb_sz hd) in Hn. intros ->. destruct Hn as [_ Hn]. by apply Z.lt_irrefl in Hn.
Qed.

Lemma clear_block_ok (E : menv) (q : Z) (hd : hdr) : blk_ok E q hd -> blk_ok E q (clear_marks_for_block hd).
Proof.
  intros (Hb & Hm & Hk). unfold clear_marks_for_block. destruct (IS_UNCOLLECTABLE _); [done|].
  assert (Hs : 0 <= hb_sz hd).
  { destruct (is_large hd); [change MAXOBJBYTES with 2048 in Hk; lia|]. destruct Hk as (lg & Hlg & -> & _). unfold GRANULES_TO_BYTES, GC_GRANULE_BYTES. lia. }
  split; [done|]. split; [by apply clear_hdr_marks_ok|].
  change (is_large (GC_clear_hdr_marks hd)) with (is_large hd). destruct (is_large hd); [done|].
  destruct Hk as (lg & H1 & H2 & H3 & H4 & _). exists lg. split_and!; try done; try lia.
  rewrite clear_marks_bit. by apply bool_decide_eq_true.
Qed.

(** Only the bit past the last object is set. *)
Definition clean (hd : hdr) : Prop := forall n, mark_bit_from_hdr hd n = true -> n = FINAL_MARK_BIT (hb_sz hd).

(** The marks of the given blocks are cleared, except for uncollectable ones. *)
Record cleared (l : list Z) (t t' : hdr_state) : Prop := {
  cl_shape : shape t t';
  cl_clean : forall b h, h ∈ l -> h / 4096 = b / 4096 ->
    IS_UNCOLLECTABLE (hb_obj_kind (hdr_of t (HDRv t b))) = false -> clean (hdr_of t' (HDRv t b));
  cl_keep : forall v, clean (hdr_of t v) -> clean (hdr_of t' v);
  cl_kind : forall v, IS_UNCOLLECTABLE (hb_obj_kind (hdr_of t v)) = true -> hdr_of t' v = hdr_of t v
}.

Definition clear_step (s : mk_state) (h : Z) : mk_state := mk_upd_hdr (HDRv (mk_tab s) h) clear_marks_for_block s.

Lemma clear_clean (hd : hdr) : clean (GC_clear_hdr_marks hd).
Proof. intros n. rewrite clear_marks_bit. apply bool_decide_eq_true. Qed.

Lemma clear_step_spec (E : menv) (s : mk_state) (h : Z) :
  wf_tab E (mk_tab s) -> in_use (mk_tab s) h ->
  wf_tab E (mk_tab (clear_step s h)) /\ cleared [h] (mk_tab s) (mk_tab (clear_step s h)).
Proof.
  intros W Hu. set (t := mk_tab s) in *. set (hd := clear_marks_for_block (hdr_of t (HDRv t h))).
  destruct (tree_store t h hd (wt_wf _ _ W) (proj1 Hu)) as (H1 & H2 & H3 & _).
  change (mk_tab (clear_step s h)) with (set_hdrs (<[HDRv t h := hd]> (hdrs t)) t).
  set (t' := set_hdrs _ t) in *.
  assert (Hhd : exists n m, hd = set_hb_marks n m (hdr_of t (HDRv t h))).
  { unfold hd, clear_marks_for_block. destruct (IS_UNCOLLECTABLE _).
    - exists (hb_n_marks (hdr_of t (HDRv t h))), (hb_marks (hdr_of t (HDRv t h))). by destruct (hdr_of t (HDRv t h)).
    - unfold GC_clear_hdr_marks, set_mark_bit_from_hdr. eexists _, _. reflexivity. }
  assert (S : shape t t').
  { split; [done|]. intros v. rewrite H3. case_decide; [by subst|].
    exists (hb_n_marks (hdr_of t v)), (hb_marks (hdr_of t v)). by destruct (hdr_of t v). }
  split.
  - split; [done|by apply (forwards_ok_shape t), (wt_fw _ _ W)| |by rewrite H2, (wt_zero _ _ W)|].
    + apply (cache_ok_shape t); [done|done|apply (wt_cache _ _ W)].
    + intros q Hq. apply (in_use_shape t t' q S) in Hq. rewrite H2, H3. case_decide as Ev; [|by apply (wt_blk _ _ W)].
      unfold hd. rewrite <- Ev. by apply clear_block_ok, (wt_blk _ _ W).
  - split; [done|..].
    + intros b h' Hh%list_elem_of_singleton Hb Hk. subst h'. rewrite (HDRv_block t b h) in Hk |- * by done.
      rewrite H3, decide_True by done. unfold hd, clear_marks_for_block. rewrite Hk. apply clear_clean.
    + intros v Hv. rewrite H3. case_decide as Ev; [|done]. subst v. unfold hd, clear_marks_for_block.
      destruct (IS_UNCOLLECTABLE _); [done|apply clear_clean].
    + intros v Hv. rewrite H3. case_decide as Ev; [|done]. subst v. unfold hd, clear_marks_for_block. by rewrite Hv.
Qed.

Lemma clear_fold (E : menv) (l : list Z) (s : mk_state) :
  wf_tab E (mk_tab s) -> (forall h, h ∈ l -> in_use (mk_tab s) h) ->
  let s' := foldl clear_step s l in
  wf_tab E (mk_tab s') /\ cleared l (mk_tab s) (mk_tab s') /\ s' = set_tab (mk_tab s') s.
Proof.
  revert s. induction l as [|h l IH]; intros s W Hl.
  { split; [done|]. split; [|by destruct s]. split; try done. intros b h Hh. by apply elem_of_nil in Hh. }
  cbn [foldl]. destruct (clear_step_spec E s h W (Hl h ltac:(by left))) as (W1 & [S1 C1 K1 D1]).
  destruct (IH (clear_step s h) W1) as (W2 & [S2 C2 K2 D2] & E2).
  { intros h' Hh. apply (in_use_shape _ _ h' S1). apply Hl. by right. }
  set (s2 := foldl clear_step _ l) in *. set (s1 := clear_step s h) in *. clearbody s2.
  assert (Hk : forall v, hb_obj_kind (hdr_of (mk_tab s1) v) = hb_obj_kind (hdr_of (mk_tab s) v)).
  { intros v. by destruct (shape_hdr _ _ v S1) as (n & m & ->). }
  split; [done|]. split; [|by rewrite E2]. split; [by transitivity (mk_tab s1)|..].
  - intros b h' [->|Hh]%elem_of_cons Hb Hu; [apply K2, (C1 b h); [by left|done..]|].
    specialize (C2 b h' Hh Hb). rewrite (proj1 S1), Hk in C2. by apply C2.
  - intros v Hv. by apply K2, K1.
  - intros v Hv. rewrite D2 by (by rewrite Hk). by apply D1.
Qed.

(** Pointer-free uncollectable objects are those of kind 3. *)
Definition AUNCOLLECTABLE : Z := 3.

Lemma is_uncollectable_kinds (k : Z) : IS_UNCOLLECTABLE k = true -> k = UNCOLLECTABLE \/ k = AUNCOLLECTABLE.
Proof.
  unfold IS_UNCOLLECTABLE, UNCOLLECTABLE, AUNCOLLECTABLE. change (Z.lnot 1) with (Z.lnot (2 ^ 1 - 1)).
  rewrite land_high_mask by lia. rewrite Z.eqb_eq. change (2 ^ 1) with 2. dlia.
Qed.

Lemma GC_clear_marks_spec (E : menv) (R : ranking E) (s : mk_state) :
  ms_base E R s ->
  (forall b, is_object (mk_tab s) b -> hb_obj_kind (hdr_of (mk_tab s) (HDRv (mk_tab s) b)) = AUNCOLLECTABLE ->
     obj_descr (mk_tab s) b = 0) ->
  exists s', GC_clear_marks s = Some s' /\ ms_inv E R s'
    /\ forall b, (is_object (mk_tab s') b <-> is_object (mk_tab s) b)
         /\ (is_object (mk_tab s) b -> obj_marked (mk_tab s') b = true ->
             IS_UNCOLLECTABLE (hb_obj_kind (hdr_of (mk_tab s) (HDRv (mk_tab s) b))) = true).
Proof.
  intros B HA. pose proof B as [M K C [Sc Sa] Ad Sz]. pose proof (ms_tab _ _ _ M) as W. unfold GC_clear_marks.
  destruct (apply_to_all_blocks_spec (mk_tab s) (wt_wf _ _ W) (wo_mapped _ K)) as (l & -> & _ & Hl). rewrite some_bind.
  destruct (clear_fold E l s W) as (W1 & [S C1 K1 D1] & E1).
  { intros h Hh. apply candidate_in_use. by apply Hl in Hh as [_ Hh]. }
  fold clear_step in *. change (foldl _ s l) with (foldl clear_step s l). set (s1 := foldl clear_step s l) in *.
  assert (Hm : forall b, is_object (mk_tab s) b -> obj_marked (mk_tab s1) b = true ->
    IS_UNCOLLECTABLE (hb_obj_kind (hdr_of (mk_tab s) (HDRv (mk_tab s) b))) = true).
  { intros b Hb Hm. destruct (IS_UNCOLLECTABLE _) eqn:Eu; [done|]. exfalso.
    assert (Hc : clean (hdr_of (mk_tab s1) (HDRv (mk_tab s) b))).
    { apply (C1 b (HBLKPTR b)); [|rewrite PTR_ALIGN_DOWN_hblk; dlia|done]. apply Hl. rewrite PTR_ALIGN_DOWN_hblk.
      split; [dlia|]. apply candidate_in_use. apply (in_use_block _ _ b); [dlia|apply Hb]. }
    apply (is_object_shape _ _ b S) in Hb. pose proof (object_bit E (fun _ _ => True) _ _ W1 Hb) as Hbit.
    unfold obj_marked, GC_is_marked in Hm. rewrite (proj1 S) in Hm, Hbit.
    apply Hc in Hm. rewrite bit_of_aligned in Hm. lia. }
  eexists. split; [reflexivity|]. change (mk_tab (set_scan _ _)) with (mk_tab s1).
  assert (Ho : forall b, is_object (mk_tab s1) b <-> is_object (mk_tab s) b) by (intros; symmetry; by apply is_object_shape).
  split; [|intros b; split; [apply Ho|apply Hm]].
  assert (Ef : GC_mark_stack s1 = GC_mark_stack s /\ GC_mark_stack_addr s1 = GC_mark_stack_addr s
    /\ GC_mark_stack_size s1 = GC_mark_stack_size s) by (by rewrite E1). destruct Ef as (F1 & F2 & F3).
  split.
  - split; cbn; rewrite ?F1, ?F2, ?F3; try done; [|by apply (walk_ok_shape (mk_tab s))|by apply (conservative_shape E (mk_tab s))].
    split; cbn; rewrite ?F1; [done|apply M|]. intros b Hb%Ho. rewrite (obj_descr_shape (mk_tab s) _ b S). by apply M.
  - apply phase_start; [done|done|]. intros b Hb Hmk Hu m q Hr. exfalso. cbn in *. apply Ho in Hb.
    specialize (Hm b Hb Hmk). apply is_uncollectable_kinds in Hm as [Hm|Hm].
    + apply Hu. unfold uncollectable. rewrite (proj1 S). by destruct (shape_hdr _ _ (HDRv (mk_tab s) b) S) as (n & k & ->).
    + rewrite (obj_descr_shape (mk_tab s) _ b S), (HA b Hb Hm) in Hr. by apply ref_nothing in Hr.
Qed.

(** ** Correctness *)

(** A heap in which nothing is marked, at the start of a collection. *)
Definition sample_start : mk_state := Mk MarkSample.sample_tab sample_bl [] 262144 4096 false MS_INVALID false 0.

Lemma sample_walk_ok : walk_ok MarkSample.sample_tab.
Proof.
  destruct MarkSample.sample_tab_facts as (_ & v & Hv & Eh & HD & _). split.
  - assert (Hb : forall q, is_hdr_ptr (HDRv MarkSample.sample_tab q) = true <-> q / 4096 = 256).
    { intros q. rewrite HD. destruct (decide (q / 4096 = 256)) as [E|E]; (split; [intros Hq|intros Hq]).
      - exact E.
      - by apply is_hdr_ptr_ge.
      - discriminate Hq.
      - by destruct (E Hq). }
    split.
    + intros q. rewrite HD. case_decide; lia.
    + intros q Hq%Hb. rewrite MarkSample.sample_hdr_at, PTR_ALIGN_DOWN_hblk by done. cbn. dlia.
    + intros q Hq%Hb. by rewrite MarkSample.sample_hdr_at.
    + intros q p Hq%Hb. by rewrite MarkSample.sample_hdr_at.
    + intros q p. rewrite !HD. intros Hn Hlt. case_decide; [apply is_hdr_ptr_ge in Hv; congruence|]. lia.
  - intros q Hq%MarkSample.sample_in_use. rewrite MarkSample.sample_hdr_at by done.
    change (OBJ_SZ_TO_BLOCKS _) with 1. rewrite Hq. unfold W64. lia.
  - intros p q Hp%MarkSample.sample_in_use Hq%MarkSample.sample_in_use. lia.
Qed.

Lemma sample_conservative : conservative MarkSample.sample_env MarkSample.sample_tab.
Proof.
  intros b m q Hobj _ _. destruct (proj1 (MarkSample.sample_object b) Hobj) as [Hb Hm]. unfold obj_descr. rewrite MarkSample.sample_hdr_at by done.
  change (hb_descr MarkSample.small_hdr) with 32. change (hb_sz MarkSample.small_hdr) with 32.
  inversion 1; subst; try done. change PTR_BYTES with 8 in *. split; [done|]. exists a. split_and!; try done; lia.
Qed.

Lemma sample_base : ms_base MarkSample.sample_env (MarkSample.plain_ranking MarkSample.sample_env) sample_start.
Proof.
  split; [|exact sample_walk_ok|exact sample_conservative|by vm_compute|done|done].
  destruct (MarkSample.sample_ok MS_INVALID) as [M1 M2 M3]. split; [exact M1|constructor|exact M3].
Qed.

Lemma sample_start_inv : ms_inv MarkSample.sample_env (MarkSample.plain_ranking MarkSample.sample_env) sample_start.
Proof.
  split; [exact sample_base|]. apply phase_start; [done|done|]. intros b Hb Hm. exfalso. cbn in Hb, Hm.
  pose proof (object_bit MarkSample.sample_env (fun _ _ => True) _ _ MarkSample.sample_wf_tab Hb) as Hbit.
  destruct (proj1 (MarkSample.sample_object b) Hb) as [Hb' _]. unfold obj_marked, GC_is_marked in Hm.
  rewrite bit_of_aligned in Hm. rewrite MarkSample.sample_hdr_at in Hm, Hbit by done. unfold MarkSample.small_hdr in Hm.
  rewrite clear_marks_bit in Hm. apply bool_decide_eq_true in Hm. rewrite Hm in Hbit.
  change (hb_sz MarkSample.small_hdr) with 32 in Hbit. cbn [hb_sz] in Hbit. lia.
Qed.

Lemma sample_recycle : recycle_law MarkSample.sample_env.
Proof. intros addr sz t W K. split_and!; [done|done|by apply same_use_frame]. Qed.

(** C11: every call of [GC_mark_some] in a full collection returns, whatever the mark
    state; it keeps the invariant that says what each mark state promises (through
    stack overflows, repeated scans of the heap and growth of the stack), never
    unmarks an object, and when it reports that marking is finished every object
    that is live from the roots is marked. *)
Theorem GC_mark_some_correct (E : menv) (R : ranking E) (s : mk_state)
    (HE : env_ok E) (HL : recycle_law E) (Hroots : Forall (root_ok E R) (GC_push_roots_calls E true))
    (Hinv : ms_inv E R s) (Hwork : work E R s < W64) (Hsize : GC_mark_stack_size s < 2 ^ 58) :
  exists finished s', GC_mark_some E s = Some (finished, s') /\ ms_inv E R s' /\ kept s s'
    /\ (finished = true -> GC_mark_state s' = MS_NONE
        /\ forall b, live E (mk_tab s') (GC_all_interior_pointers (mk_bl s')) (roots E) b ->
             obj_marked (mk_tab s') b = true).
Proof.
  destruct (GC_mark_some_spec E R HE HL Hroots s Hinv Hwork Hsize) as (f & s' & Eq & I & Kp & Hf).
  exists f, s'. split_and!; try done. intros Ef. specialize (Hf Ef). split; [done|].
  intros b. by apply (none_complete E R).
Qed.

Lemma GC_mark_some_correct_witness :
  exists finished s', GC_mark_some MarkSample.sample_env sample_start = Some (finished, s') /\ kept sample_start s'.
Proof.
  destruct (GC_mark_some_correct MarkSample.sample_env (MarkSample.plain_ranking MarkSample.sample_env) sample_start
    MarkSample.marker_env_ok sample_recycle) as (f & s' & H1 & _ & H2 & _).
  - repeat constructor.
  - exact sample_start_inv.
  - vm_compute. reflexivity.
  - vm_compute. reflexivity.
  - by exists f, s'.
Defined.

(** The whole collection of the sample heap: the object the root refers to and the
    one it points to are marked, the second object is not. *)
Example sample_mark_all :
  match mark_all MarkSample.sample_env sample_start with
  | Some s => (GC_mark_state s, obj_marked (mk_tab s) 1048576, obj_marked (mk_tab s) 1048608, obj_marked (mk_tab s) 1048640)
  | None => (0, false, false, false)
  end = (MS_NONE, true, false, true).
Proof. vm_compute. reflexivity. Qed.

(** Clearing the marks for a full collection keeps the heap as it is, leaves
    marked only objects of uncollectable kinds, and establishes the invariant of
    the marking that follows. *)
Theorem GC_clear_marks_correct (E : menv) (R : ranking E) (s : mk_state)
    (Hbase : ms_base E R s)
    (Hatomic : forall b, is_object (mk_tab s) b ->
       hb_obj_kind (hdr_of (mk_tab s) (HDRv (mk_tab s) b)) = AUNCOLLECTABLE -> obj_descr (mk_tab s) b = 0) :
  exists s', GC_clear_marks s = Some s' /\ ms_inv E R s'
    /\ forall b, (is_object (mk_tab s') b <-> is_object (mk_tab s) b)
         /\ (is_object (mk_tab s) b -> obj_marked (mk_tab s') b = true ->
             IS_UNCOLLECTABLE (hb_obj_kind (hdr_of (mk_tab s) (HDRv (mk_tab s) b))) = true).
Proof. by apply GC_clear_marks_spec. Qed.

Lemma GC_clear_marks_correct_witness : exists s', GC_clear_marks sample_start = Some s'
  /\ (is_object (mk_tab s') 1048576 <-> is_object MarkSample.sample_tab 1048576).
Proof.
  destruct (GC_clear_marks_correct MarkSample.sample_env (MarkSample.plain_ranking MarkSample.sample_env) sample_start sample_base)
    as (s' & H1 & _ & H2).
  - intros b Hobj Hk. destruct (proj1 (MarkSample.sample_object b) Hobj) as [Hb _]. cbn in Hk. rewrite MarkSample.sample_hdr_at in Hk by done. done.
  - exists s'. split; [done|]. apply H2.
Defined.
End MarkSome.
