(* ===== verification/Typed.v ===== *)
(** * Typed allocation (typd_mlc.c)

    Descriptors built from a bitmap of the pointer fields of an object: a length, a
    bitmap inside the descriptor, or an index into a table of extended bitmaps that
    the mark procedure [GC_typed_mark_proc] reads.  Arrays of described elements
    have a simple descriptor, a leaf in the array itself, or a tree of leaves.

    The words of a client's bitmap are a function of their index.  Requests for
    memory are answered by a parameter. *)

From Stdlib Require Import ZArith Lia.
From stdpp Require Import base gmap list.
From S2P Require Import Prelude Hblk Mark.

Module Typed.
Import Mark.

Definition GC_WORD_MAX : Z := 2 ^ 64 - 1.
Definition GC_WORDSZ : Z := 64.
Definition BITMAP_BITS : Z := CPP_WORDSZ - GC_DS_TAG_BITS.
Definition MAX_ENV : Z := Z.shiftl 1 (BITMAP_BITS - GC_LOG_MAX_MARK_PROCS) - 1.
Definition ED_INITIAL_SIZE : Z := 100.
Definition BYTES_TO_PTRS (lb : Z) : Z := lb / PTR_BYTES.
Definition BYTES_TO_PTRS_ROUNDUP (lb : Z) : Z := BYTES_TO_PTRS (lb + PTR_BYTES - 1).
Definition GC_MAKE_PROC (proc_index env : Z) : Z :=
  Z.lor (wrap64 (Z.shiftl (Z.lor (wrap64 (Z.shiftl env GC_LOG_MAX_MARK_PROCS)) proc_index) GC_DS_TAG_BITS)) GC_DS_PROC.

Definition GC_get_bit (bm : Z -> Z) (i : Z) : bool :=
  negb (Z.land (Z.shiftr (bm (i / GC_WORDSZ)) (i mod GC_WORDSZ)) 1 =? 0).

(** *** Extended descriptors *)

Record typed_ext_descr_t := Ext { ed_bitmap : Z; ed_continued : bool }.

Record ty_state := Ty {
  GC_ext_descriptors : gmap Z typed_ext_descr_t;
  GC_ed_size : Z;
  GC_avail_descr : Z;
  GC_typed_mark_proc_index : Z
}.

Definition set_ext v s := Ty v (GC_ed_size s) (GC_avail_descr s) (GC_typed_mark_proc_index s).
Definition set_ed_size v s := Ty (GC_ext_descriptors s) v (GC_avail_descr s) (GC_typed_mark_proc_index s).
Definition set_avail_descr v s := Ty (GC_ext_descriptors s) (GC_ed_size s) v (GC_typed_mark_proc_index s).

(** The [while] that makes room; [false] is the early return of [-1].  The entries
    in use are copied, so only the size changes. *)
Definition ext_grow_body (malloc_atomic : Z -> bool) (nwords : Z) (s : ty_state) : ty_state + (bool * ty_state) :=
  if GC_ed_size s <=? GC_avail_descr s + nwords then
    let ed_size := GC_ed_size s in
    let new_size := if ed_size =? 0 then ED_INITIAL_SIZE else 2 * ed_size in
    if negb (ed_size =? 0) && (MAX_ENV <? new_size) then inr (false, s)
    else if negb (malloc_atomic new_size) then inr (false, s)
    else inl (set_ed_size new_size s)
  else inr (true, s).

(** A store into the table; [None] is one out of bounds. *)
Definition store_ext (i : Z) (e : typed_ext_descr_t) (s : ty_state) : option ty_state :=
  if (0 <=? i) && (i <? GC_ed_size s) then Some (set_ext (<[i := e]> (GC_ext_descriptors s)) s) else None.

(** The [for] over the words but the last. *)
Fixpoint store_words (bm : Z -> Z) (result i : Z) (n : nat) (s : ty_state) : option ty_state :=
  match n with
  | O => Some s
  | S n => s ← store_ext (result + i) (Ext (bm i) true) s; store_words bm result (i + 1) n s
  end.

Definition GC_add_ext_descriptor (malloc_atomic : Z -> bool) (bm : Z -> Z) (nbits : Z) (s : ty_state)
    : option (Z * ty_state) :=
  let nwords := divWORDSZ (wrap64 (nbits + CPP_WORDSZ - 1)) in
  '(ok, s) ← loop (ext_grow_body malloc_atomic nwords) s;
  if negb ok then Some (-1, s)
  else
    let result := GC_avail_descr s in
    s ← store_words bm result 0 (Z.to_nat (nwords - 1)) s;
    let i := nwords - 1 in
    s ← store_ext (result + i)
          (Ext (Z.land (bm i) (Z.shiftr GC_WORD_MAX (nwords * CPP_WORDSZ - nbits))) false) s;
    Some (result, set_avail_descr (GC_avail_descr s + nwords) s).

(** The pointers of the words whose bits are set; a word has no more than 64 bits. *)
Fixpoint typed_ptrs (E : menv) (n : nat) (bm current_p : Z) : list Z :=
  match n with
  | O => []
  | S n =>
    if bm =? 0 then []
    else (if negb (Z.land bm 1 =? 0) then [mem E current_p] else [])
         ++ typed_ptrs E n (Z.shiftr bm 1) (current_p + PTR_BYTES)
  end.

(** The calls the mark procedure makes. *)
Definition GC_typed_mark_proc (E : menv) (s : ty_state) (addr env : Z) : list mp_action :=
  match GC_ext_descriptors s !! env with
  | None => []
  | Some e =>
    MP_mark_and_push_ptrs (typed_ptrs E 64 (ed_bitmap e) addr)
    :: (if ed_continued e
        then [MP_push_obj_descr (addr + CPP_WORDSZ * PTR_BYTES) (GC_MAKE_PROC (GC_typed_mark_proc_index s) (env + 1))]
        else [])
  end.

(** *** Descriptors from bitmaps *)

(** The [while] from the last bit down; [-1] if no bit is set. *)
Fixpoint last_set_bit (bm : Z -> Z) (n : nat) : Z :=
  match n with
  | O => -1
  | S n => if GC_get_bit bm (Z.of_nat n) then Z.of_nat n else last_set_bit bm n
  end.

(** Whether the [for] over the bits below [n] finds them all set. *)
Fixpoint all_set (bm : Z -> Z) (n : nat) : bool :=
  match n with
  | O => true
  | S n => all_set bm n && GC_get_bit bm (Z.of_nat n)
  end.

(** The [for] from bit [n - 1] down to bit 0. *)
Fixpoint reverse_bits (bm : Z -> Z) (n : nat) (d : Z) : Z :=
  match n with
  | O => d
  | S n =>
    let d := Z.shiftr d 1 in
    reverse_bits bm n (if GC_get_bit bm (Z.of_nat n) then Z.lor d SIGNB else d)
  end.

(** After the initialisation of explicit typing. *)
Definition GC_make_descriptor (malloc_atomic : Z -> bool) (bm : Z -> Z) (len : Z) (s : ty_state)
    : option (Z * ty_state) :=
  let last := last_set_bit bm (Z.to_nat len) in
  if last <? 0 then Some (0, s)
  else if all_set bm (Z.to_nat last) then Some (Z.lor (PTRS_TO_BYTES (last + 1)) GC_DS_LENGTH, s)
  else if last <? BITMAP_BITS then
    Some (Z.lor (reverse_bits bm (Z.to_nat last) SIGNB) GC_DS_BITMAP, s)
  else
    '(index, s) ← GC_add_ext_descriptor malloc_atomic bm (last + 1) s;
    if index <? 0 then Some (Z.lor (PTRS_TO_BYTES (last + 1)) GC_DS_LENGTH, s)
    else Some (GC_MAKE_PROC (GC_typed_mark_proc_index s) index, s).

(** *** Arrays *)

Inductive complex_descriptor :=
  | LeafDescriptor (ld_size ld_nelements ld_descriptor : Z)
  | SequenceDescriptor (sd_first sd_second : complex_descriptor).

Definition GC_double_descr (d lpw : Z) : Z :=
  let d := if Z.land d GC_DS_TAGS =? GC_DS_LENGTH then
             if d <? PTR_BYTES then GC_DS_BITMAP
             else Z.lor (wrap64 (Z.shiftl GC_WORD_MAX (CPP_WORDSZ - BYTES_TO_PTRS d))) GC_DS_BITMAP
           else d in
  Z.lor d (Z.shiftr (Z.land d (Z.lxor GC_WORD_MAX GC_DS_TAGS)) lpw).

(** Memory for descriptors: the answers to the requests still to come. *)
Definition alloc_descr (a : list bool) : bool * list bool :=
  match a with [] => (false, []) | b :: a => (b, a) end.

Definition GC_make_leaf_descriptor (size nelements d : Z) (a : list bool)
    : option complex_descriptor * list bool :=
  let '(ok, a) := alloc_descr a in ((if ok then Some (LeafDescriptor size nelements d) else None), a).

Definition GC_make_sequence_descriptor (first second : complex_descriptor) (a : list bool)
    : option complex_descriptor * list bool :=
  let '(ok, a) := alloc_descr a in ((if ok then Some (SequenceDescriptor first second) else None), a).

(** The result with the output parameter that belongs to it. *)
Inductive array_descr :=
  | NO_MEM
  | SIMPLE (d : Z)
  | LEAF (ld_size ld_nelements ld_descriptor : Z)
  | COMPLEX (c : complex_descriptor).

#[export] Instance complex_descriptor_eq_dec : EqDecision complex_descriptor.
Proof. solve_decision. Defined.
#[export] Instance array_descr_eq_dec : EqDecision array_descr.
Proof. solve_decision. Defined.

Definition OPT_THRESHOLD : Z := 50.

(** The descriptor of an odd number of elements: that of the pairs, and one
    element. *)
Definition add_element (size d : Z) (result : array_descr) (a : list bool) : array_descr * list bool :=
  let '(one_element, a) := GC_make_leaf_descriptor size 1 d a in
  match one_element with
  | None => (NO_MEM, a)
  | Some one_element =>
    let '(beginning, a) :=
      match result with
      | COMPLEX c => (Some c, a)
      | SIMPLE d' => GC_make_leaf_descriptor size 1 d' a
      | LEAF sz n d' => GC_make_leaf_descriptor sz n d' a
      | NO_MEM => (None, a)
      end in
    match beginning with
    | None => (NO_MEM, a)
    | Some beginning =>
      let '(c, a) := GC_make_sequence_descriptor beginning one_element a in
      match c with None => (NO_MEM, a) | Some c => (COMPLEX c, a) end
    end
  end.

(** The size doubles with each nested call, so that there are few of them; [None] is
    running out of [fuel]. *)
Fixpoint GC_make_array_descriptor (fuel : nat) (nelements size d : Z) (a : list bool)
    : option (array_descr * list bool) :=
  match fuel with
  | O => None
  | S fuel =>
    let is_length := Z.land d GC_DS_TAGS =? GC_DS_LENGTH in
    if is_length && (d =? size) then Some (SIMPLE (wrap64 (nelements * d)), a)
    else if is_length && (d =? 0) then Some (SIMPLE 0, a)
    else if nelements <=? OPT_THRESHOLD then
      if nelements <=? 1 then Some (SIMPLE (if nelements =? 1 then d else 0), a)
      else Some (LEAF size nelements d, a)
    else if (size <=? BITMAP_BITS / 2) && negb (Z.land d GC_DS_TAGS =? GC_DS_PROC)
            && (Z.land size (PTR_BYTES - 1) =? 0) then
      '(result, a) ← GC_make_array_descriptor fuel (nelements / 2) (2 * size)
                       (GC_double_descr d (BYTES_TO_PTRS size)) a;
      match result with
      | NO_MEM => Some (NO_MEM, a)
      | _ => if Z.land nelements 1 =? 0 then Some (result, a) else Some (add_element size d result a)
      end
    else Some (LEAF size nelements d, a)
  end.

Definition GC_SQRT_SIZE_MAX : Z := Z.shiftl 1 32 - 1.
Definition sizeof_LeafDescriptor : Z := 32.

Record GC_calloc_typed_descr_s := Ctd { alloc_lb : Z; ctd_descr : array_descr }.

(** Whether it succeeds, and the prepared descriptor.  [extra] is [EXTRA_BYTES]. *)
Definition GC_calloc_prepare_explicitly_typed (extra n lb d : Z) (a : list bool)
    : option (bool * GC_calloc_typed_descr_s * list bool) :=
  let '(lb, n) := if (lb =? 0) || (n =? 0) then (1, 1) else (lb, n) in
  if (GC_SQRT_SIZE_MAX <? Z.lor lb n) && (GC_SIZE_MAX / lb <? n) then
    Some (false, Ctd GC_SIZE_MAX NO_MEM, a)
  else
    '(r, a) ← GC_make_array_descriptor 64 n lb d a;
    Some (true,
          Ctd (match r with
               | NO_MEM | SIMPLE _ => wrap64 (lb * n)
               | LEAF _ _ _ =>
                 SIZET_SAT_ADD (wrap64 (lb * n))
                   ((BYTES_TO_PTRS_ROUNDUP sizeof_LeafDescriptor + 1) * PTR_BYTES - extra)
               | COMPLEX _ => SIZET_SAT_ADD (wrap64 (lb * n)) (PTR_BYTES - extra)
               end) r, a).

(** *** Marking arrays *)

Fixpoint GC_descr_obj_size (c : complex_descriptor) : Z :=
  match c with
  | LeafDescriptor size n _ => wrap64 (n * size)
  | SequenceDescriptor first second => wrap64 (GC_descr_obj_size first + GC_descr_obj_size second)
  end.

(** The entries of a leaf, the last one on top. *)
Fixpoint push_elements (n : nat) (current sz d : Z) (l : list mse) : list mse :=
  match n with
  | O => l
  | S n => push_elements n (current + sz) sz d (Mse current d :: l)
  end.

(** [None] is the source's [NULL]: the entries do not fit below [limit]. *)
Fixpoint GC_push_complex_descriptor (limit current : Z) (c : complex_descriptor) (l : list mse) : option (list mse) :=
  match c with
  | LeafDescriptor sz n d =>
    if limit - (Z.of_nat (length l) - 1) <=? signed64 n then None
    else Some (push_elements (Z.to_nat n) current sz d l)
  | SequenceDescriptor first second =>
    l ← GC_push_complex_descriptor limit current first l;
    GC_push_complex_descriptor limit (current + GC_descr_obj_size first) second l
  end.

(** [sz] is the size of the objects of the block, [descr_at] the descriptor at an
    address.  The result has the new stack and whether it is too small. *)
Definition GC_array_mark_proc (E : menv) (descr_at : Z -> option complex_descriptor)
    (limit sz addr : Z) (l : list mse) : option (list mse * bool) :=
  let lpw := BYTES_TO_PTRS sz in
  let complex_d := mem E (addr + PTR_BYTES * (lpw - 1)) in
  if complex_d =? NULL then Some (l, false)
  else
    c ← descr_at complex_d;
    match GC_push_complex_descriptor (limit - 1) addr c l with
    | None => Some (Mse addr (Z.lor sz GC_DS_LENGTH) :: l, true)
    | Some l => Some (Mse (addr + PTR_BYTES * (lpw - 1)) (Z.lor PTR_BYTES GC_DS_LENGTH) :: l, false)
    end.
End Typed.
