(* ===== verification/TypedOk.v ===== *)
(** * Correctness of typed allocation

    The descriptor made from a bitmap makes the marker look at exactly the words the
    bitmap selects, and array descriptors at those of every element.  What the
    marker looks at is [MarkSpec.ref]. *)

From Stdlib Require Import ZArith Lia.
From stdpp Require Import base gmap list.
From S2P Require Import Prelude Hblk Mark MarkSpec MarkInv MarkSample MarkFrom Typed.

Module TypedOk.
Import Mark MarkSpec MarkFrom Typed.

(** ** Bits *)

Lemma lor_add (x b n : Z) : 0 <= n -> 0 <= b < 2 ^ n -> Z.lor (x * 2 ^ n) b = x * 2 ^ n + b.
Proof.
  intros Hn Hb. rewrite <- Z.add_lor_land.
  assert (E0 : Z.land (x * 2 ^ n) b = 0); [|lia]. apply Z.bits_inj'. intros k Hk. rewrite Z.land_spec, Z.bits_0.
  destruct (Z.lt_ge_cases k n); [by rewrite Z.mul_pow2_bits_low|].
  destruct (decide (b = 0)) as [->|]; [by rewrite Z.bits_0, andb_false_r|].
  rewrite (Z.bits_above_log2 b k), andb_false_r; [done|lia|].
  apply Z.log2_lt_pow2; [lia|]. eapply Z.lt_le_trans; [apply Hb|]. apply Z.pow_le_mono_r; lia.
Qed.

Lemma land_le (x y : Z) : 0 <= x -> Z.land x y <= x.
Proof.
  intros Hx. pose proof (Z.add_lor_land (Z.ldiff x y) (Z.land x y)) as Ha. rewrite Z.lor_ldiff_and in Ha.
  assert (E0 : Z.land (Z.ldiff x y) (Z.land x y) = 0).
  { apply Z.bits_inj'. intros k Hk. rewrite !Z.land_spec, Z.ldiff_spec, Z.bits_0. by destruct (Z.testbit x k), (Z.testbit y k). }
  assert (0 <= Z.ldiff x y) by (apply Z.ldiff_nonneg; by left). lia.
Qed.

Lemma GC_get_bit_eq (bm : Z -> Z) (i : Z) : GC_get_bit bm i = Z.testbit (bm (i / 64)) (i mod 64).
Proof. unfold GC_get_bit, GC_WORDSZ. apply shiftr_land_1. dlia. Qed.

Lemma last_set_bit_spec (bm : Z -> Z) (n : nat) :
  let r := last_set_bit bm n in
  -1 <= r < Z.of_nat n /\ (0 <= r -> GC_get_bit bm r = true)
  /\ forall i, r < i < Z.of_nat n -> GC_get_bit bm i = false.
Proof.
  induction n as [|n IH]; cbn [last_set_bit]; [split_and!; lia|].
  destruct (GC_get_bit bm (Z.of_nat n)) eqn:Eb; [split_and!; try done; lia|].
  cbn zeta in IH. destruct IH as (H1 & H2 & H3). split_and!; try lia; [done|].
  intros i Hi. destruct (decide (i = Z.of_nat n)) as [->|]; [done|]. apply H3. lia.
Qed.

Lemma all_set_spec (bm : Z -> Z) (n : nat) :
  all_set bm n = true <-> forall i, 0 <= i < Z.of_nat n -> GC_get_bit bm i = true.
Proof.
  induction n as [|n IH]; cbn [all_set]; [split; [lia|done]|]. rewrite andb_true_iff, IH. split.
  - intros [H1 H2] i Hi. destruct (decide (i = Z.of_nat n)) as [->|]; [done|]. apply H1. lia.
  - intros H. split; [intros; apply H; lia|apply H; lia].
Qed.

Lemma SIGNB_bit (k : Z) : 0 <= k -> Z.testbit SIGNB k = (k =? 63).
Proof. intros Hk. unfold SIGNB. rewrite Z.pow2_bits_eqb by lia. apply Z.eqb_sym. Qed.

(** The first bits of the bitmap from the top down, then those of [d]. *)
Lemma reverse_bits_spec (bm : Z -> Z) (n : nat) (d i : Z) :
  (forall k, 64 <= k -> Z.testbit d k = false) -> 0 <= i <= 63 ->
  Z.testbit (reverse_bits bm n d) (63 - i)
  = if i <? Z.of_nat n then GC_get_bit bm i else Z.testbit d (63 - (i - Z.of_nat n)).
Proof.
  revert d. induction n as [|n IH]; intros d Hd Hi; cbn [reverse_bits].
  { rewrite (proj2 (Z.ltb_ge i _)) by lia. f_equal. lia. }
  set (d1 := if GC_get_bit bm (Z.of_nat n) then _ else _).
  assert (Hd1 : forall k, 0 <= k -> Z.testbit d1 k = Z.testbit d (k + 1) || (GC_get_bit bm (Z.of_nat n) && (k =? 63))).
  { intros k Hk. unfold d1. destruct (GC_get_bit bm (Z.of_nat n)); cbn [andb].
    - by rewrite Z.lor_spec, Z.shiftr_spec, SIGNB_bit.
    - by rewrite Z.shiftr_spec, orb_false_r. }
  rewrite IH by (intros; rewrite ?Hd1 by lia; rewrite ?Hd by lia; try (rewrite (proj2 (Z.eqb_neq k 63)) by lia; by rewrite andb_false_r); lia).
  destruct (Z.ltb_spec i (Z.of_nat n)), (Z.ltb_spec i (Z.of_nat (S n))); try lia; [done|..].
  - assert (i = Z.of_nat n) as -> by lia. rewrite Hd1, Hd by lia.
    rewrite (proj2 (Z.eqb_eq _ 63)) by lia. by rewrite andb_true_r.
  - destruct (Z.lt_ge_cases 62 (i - Z.of_nat (S n))) as [Hg|Hg].
    + lia.
    + rewrite Hd1 by lia. rewrite (proj2 (Z.eqb_neq _ 63)), andb_false_r, orb_false_r by lia. f_equal. lia.
Qed.

(** ** What the marker looks at *)

Section Refs.
Context (E : menv).

(** The plausible value of word [i] of the object at [a]. *)
Definition word_ref (a i : Z) (m : mode) (q : Z) : Prop :=
  m = Heap /\ q = mem E (a + 8 * i) /\ plausible E q = true.

Lemma ref_length_iff (a d : Z) (m : mode) (q : Z) :
  tag d = GC_DS_LENGTH -> ref E a d m q <-> exists i, 0 <= i /\ 8 * i + 8 <= d /\ word_ref a i m q.
Proof.
  intros Ht. split.
  - inversion 1 as [? ? b _ H1 H2 H3|? ? ? H1|? ? ? H1|? ? ? ? H1|? ? ? ? ? ? H1|? ? ? ? ? H1]; subst;
      [|exfalso; rewrite Ht in H1; discriminate H1..].
    change PTR_BYTES with 8 in *. exists ((b - a) / 8).
    split; [dlia|]. split; [dlia|]. unfold word_ref. by replace (a + 8 * ((b - a) / 8)) with b by dlia.
  - intros (i & Hi & Hd & -> & -> & Hp). apply ref_length; try done; change PTR_BYTES with 8; try lia. dlia.
Qed.

Lemma ref_bitmap_iff (a d : Z) (m : mode) (q : Z) :
  tag d = GC_DS_BITMAP ->
  ref E a d m q <-> exists i, 0 <= i < 62 /\ Z.testbit d (63 - i) = true /\ word_ref a i m q.
Proof.
  intros Ht. split.
  - inversion 1 as [? ? ? H1|? ? i H1 H2 H3|? ? ? H1|? ? ? ? H1|? ? ? ? ? ? H1|? ? ? ? ? H1]; subst;
      try (exfalso; rewrite Ht in H1; discriminate H1). by exists i.
  - intros (i & Hi & Hb & -> & -> & Hp). by apply ref_bitmap.
Qed.

Lemma ref_proc_iff (a d : Z) (m : mode) (q : Z) :
  tag d = GC_DS_PROC ->
  let acts := GC_mark_procs E (PROC d) a (ENV d) in
  ref E a d m q <->
    (m = Proc /\ MP_MARK_AND_PUSH q ∈ acts /\ plausible E q = true)
    \/ (exists arr, m = Heap /\ MP_mark_and_push_ptrs arr ∈ acts /\ q ∈ arr /\ plausible E q = true)
    \/ (exists o d', MP_push_obj_descr o d' ∈ acts /\ ref E o d' m q).
Proof.
  intros Ht acts. split.
  - inversion 1 as [? ? ? H1|? ? ? H1|? ? ? H1 H2|? ? arr ? H1 H2|? ? o d' ? ? H1 H2|? ? ? ? ? H1]; subst;
      try (exfalso; rewrite Ht in H1; discriminate H1).
    + by left.
    + right. left. by exists arr.
    + right. right. by exists o, d'.
  - intros [(-> & Hi & Hp)|[(arr & -> & Hi & Hq & Hp)|(o & d' & Hi & Hr)]].
    + by apply ref_proc_push.
    + by apply (ref_proc_ptrs _ a d arr).
    + by apply (ref_proc_descr _ a d o d').
Qed.

(** ** Extended descriptors *)

Lemma GC_MAKE_PROC_eq (p e : Z) : 0 <= p < 64 -> 0 <= e <= MAX_ENV -> GC_MAKE_PROC p e = (e * 64 + p) * 4 + 2.
Proof.
  intros Hp He. change MAX_ENV with (2 ^ 56 - 1) in He. unfold GC_MAKE_PROC, wrap64, GC_LOG_MAX_MARK_PROCS, GC_DS_TAG_BITS, GC_DS_PROC.
  rewrite !Z.shiftl_mul_pow2 by lia. change (2 ^ 6) with 64. unfold W64.
  rewrite (Z.mod_small (e * 64)) by lia. change 64 with (2 ^ 6) at 1. rewrite lor_add by lia. change (2 ^ 6) with 64.
  rewrite (Z.mod_small (_ * 2 ^ 2)) by lia. rewrite lor_add by lia. lia.
Qed.

Lemma PROC_ENV_make (p e : Z) : 0 <= p < 64 -> 0 <= e <= MAX_ENV ->
  tag (GC_MAKE_PROC p e) = GC_DS_PROC /\ PROC (GC_MAKE_PROC p e) = p /\ ENV (GC_MAKE_PROC p e) = e
  /\ 0 <= GC_MAKE_PROC p e < W64.
Proof.
  intros Hp He. rewrite GC_MAKE_PROC_eq by done. change MAX_ENV with (2 ^ 56 - 1) in He. split_and!.
  - rewrite tag_mod. unfold GC_DS_PROC. dlia.
  - unfold PROC, GC_DS_TAG_BITS. change (GC_MAX_MARK_PROCS - 1) with (2 ^ 6 - 1). rewrite land_low_mask, Z.shiftr_div_pow2 by lia.
    change (2 ^ 2) with 4. change (2 ^ 6) with 64. dlia.
  - unfold ENV. change (GC_DS_TAG_BITS + GC_LOG_MAX_MARK_PROCS) with 8. rewrite Z.shiftr_div_pow2 by lia. change (2 ^ 8) with 256. dlia.
  - lia.
  - unfold W64. lia.
Qed.

Lemma typed_ptrs_spec (n : nat) (bm p q : Z) :
  0 <= bm < 2 ^ Z.of_nat n ->
  q ∈ typed_ptrs E n bm p <-> exists i, 0 <= i < Z.of_nat n /\ Z.testbit bm i = true /\ q = mem E (p + 8 * i).
Proof.
  revert bm p. induction n as [|n IH]; intros bm p Hb; cbn [typed_ptrs].
  { split; [by intros ?%elem_of_nil|]. intros (i & Hi & _). lia. }
  destruct (Z.eqb_spec bm 0) as [->|Hne].
  { split; [by intros ?%elem_of_nil|]. intros (i & _ & Hi & _). by rewrite Z.bits_0 in Hi. }
  rewrite elem_of_app, IH.
  2:{ rewrite Z.shiftr_div_pow2 by lia. change (2 ^ 1) with 2. replace (Z.of_nat (S n)) with (Z.of_nat n + 1) in Hb by lia.
      rewrite Z.pow_add_r in Hb by lia. change (2 ^ 1) with 2 in Hb. dlia. }
  pose proof (land_pow2 bm 0 ltac:(lia)) as El. change (2 ^ 0) with 1 in El. rewrite El, negb_involutive.
  change PTR_BYTES with 8. split.
  - intros [Hq|(i & Hi & Hbi & ->)].
    + destruct (Z.testbit bm 0) eqn:E0; [|by apply elem_of_nil in Hq]. apply list_elem_of_singleton in Hq as ->.
      exists 0. split; [lia|]. split; [done|]. f_equal. lia.
    + exists (i + 1). split; [lia|]. rewrite Z.shiftr_spec in Hbi by lia. split; [done|]. f_equal. lia.
  - intros (i & Hi & Hbi & ->). destruct (decide (i = 0)) as [->|].
    + left. rewrite Hbi. apply list_elem_of_singleton. f_equal. lia.
    + right. exists (i - 1). split; [lia|]. rewrite Z.shiftr_spec by lia. replace (i - 1 + 1) with i by lia.
      split; [done|]. f_equal. lia.
Qed.
End Refs.

(** ** The table *)

Record ty_ok (s : ty_state) : Prop := {
  ty_avail : 0 <= GC_avail_descr s <= GC_ed_size s;
  ty_size : GC_ed_size s <= MAX_ENV;
  ty_index : 0 <= GC_typed_mark_proc_index s < 64
}.

(** The entries in use are kept. *)
Definition extends (s s' : ty_state) : Prop :=
  GC_typed_mark_proc_index s' = GC_typed_mark_proc_index s /\ GC_avail_descr s <= GC_avail_descr s'
  /\ forall i, i < GC_avail_descr s -> GC_ext_descriptors s' !! i = GC_ext_descriptors s !! i.

#[export] Instance extends_preorder : PreOrder extends.
Proof.
  split; [done|]. intros s1 s2 s3 (A1 & A2 & A3) (B1 & B2 & B3). split_and!; [congruence|lia|].
  intros i Hi. rewrite B3 by lia. by apply A3.
Qed.

(** The words [w] are stored in the [n] entries from [k] on. *)
Definition stored (s : ty_state) (k n : Z) (w : Z -> Z) : Prop :=
  0 <= k /\ k + n <= GC_avail_descr s
  /\ forall j, 0 <= j < n -> GC_ext_descriptors s !! (k + j) = Some (Ext (w j) (j <? n - 1)).

Lemma stored_extends (s s' : ty_state) (k n : Z) (w : Z -> Z) : extends s s' -> stored s k n w -> stored s' k n w.
Proof.
  intros (H1 & H2 & H3) (K1 & K2 & K3). split_and!; [done|lia|]. intros j Hj. rewrite H3 by lia. by apply K3.
Qed.

(** The marker runs [GC_typed_mark_proc] for the typed procedure's index. *)
Definition typed_env (E : menv) (s : ty_state) : Prop :=
  forall a env, GC_mark_procs E (GC_typed_mark_proc_index s) a env = GC_typed_mark_proc E s a env.

Lemma stored_refs (E : menv) (s : ty_state) (n : nat) (k a : Z) (w : Z -> Z) (m : mode) (q : Z) :
  typed_env E s -> ty_ok s -> (forall j, 0 <= w j < W64) -> (0 < n)%nat -> stored s k (Z.of_nat n) w ->
  ref E a (GC_MAKE_PROC (GC_typed_mark_proc_index s) k) m q
  <-> exists i, 0 <= i < 64 * Z.of_nat n /\ Z.testbit (w (i / 64)) (i mod 64) = true /\ word_ref E a i m q.
Proof.
  intros HE [Ha Hs Hi]. revert k a w. induction n as [|n IH]; intros k a w Hw Hn St; [lia|]. destruct St as (K1 & K2 & K3).
  destruct (PROC_ENV_make (GC_typed_mark_proc_index s) k Hi ltac:(lia)) as (Ht & EP & EE & _).
  pose proof (ref_proc_iff E a _ m q Ht) as Hiff. cbn zeta in Hiff. rewrite EP, EE, (HE a k) in Hiff. rewrite Hiff. clear Hiff. unfold GC_typed_mark_proc.
  pose proof (K3 0 ltac:(lia)) as K0. rewrite Z.add_0_r in K0. rewrite K0. cbn [ed_bitmap ed_continued].
  assert (Hp := fun q => typed_ptrs_spec E 64 (w 0) a q (Hw 0)).
  assert (Hword : forall q', q' ∈ typed_ptrs E 64 (w 0) a -> plausible E q' = true ->
    exists i, 0 <= i < 64 /\ Z.testbit (w (i / 64)) (i mod 64) = true /\ word_ref E a i Heap q').
  { intros q' (i & Hi1 & Hi2 & ->)%Hp Hpl. exists i. split; [lia|].
    rewrite Z.div_small, Z.mod_small by lia. by split_and!. }
  assert (Hword' : forall i q', 0 <= i < 64 -> Z.testbit (w (i / 64)) (i mod 64) = true -> q' = mem E (a + 8 * i) ->
    q' ∈ typed_ptrs E 64 (w 0) a).
  { intros i q' Hi1 Hi2 ->. rewrite Z.div_small, Z.mod_small in Hi2 by lia. apply Hp. by exists i. }
  set (l := typed_ptrs E 64 (w 0) a) in *. clearbody l. destruct n as [|n].
  - cbn [Z.of_nat Z.ltb]. change (0 <? 1 - 1) with false. split.
    + intros [(_ & Hq & _)|[(arr & -> & Hq & Hin & Hpl)|(o & d' & Hq & _)]]; [by apply list_elem_of_singleton in Hq| |by apply list_elem_of_singleton in Hq].
      apply list_elem_of_singleton in Hq as [= ->]. by apply Hword.
    + intros (i & Hi1 & Hi2 & -> & Hq & Hpl). right. left. exists l. split_and!; [done|by left|apply (Hword' i); [lia|done|done]|done].
  - rewrite (proj2 (Z.ltb_lt 0 _)) by lia.
    assert (St' : stored s (k + 1) (Z.of_nat (S n)) (fun j => w (j + 1))).
    { split_and!; [lia|lia|]. intros j Hj. replace (k + 1 + j) with (k + (j + 1)) by lia. rewrite K3 by lia. do 2 f_equal.
      destruct (Z.ltb_spec (j + 1) (Z.of_nat (S (S n)) - 1)), (Z.ltb_spec j (Z.of_nat (S n) - 1)); try done; lia. }
    specialize (IH (k + 1) (a + 512) (fun j => w (j + 1)) (fun j => Hw _) ltac:(lia) St').
    change (CPP_WORDSZ * PTR_BYTES) with 512. split.
    + intros [(_ & Hq & _)|[(arr & -> & Hq & Hin & Hpl)|(o & d' & Hq & Hr)]].
      * set_unfold in Hq. naive_solver.
      * assert (arr = l) as -> by (set_unfold in Hq; naive_solver). destruct (Hword q Hin Hpl) as (i & ? & ? & ?). exists i. split; [lia|done].
      * assert (o = a + 512 /\ d' = GC_MAKE_PROC (GC_typed_mark_proc_index s) (k + 1)) as [-> ->] by (set_unfold in Hq; naive_solver).
        apply IH in Hr as (i & Hi1 & Hi2 & -> & -> & Hpl). exists (i + 64). split; [lia|].
        replace ((i + 64) / 64) with (i / 64 + 1) by dlia. replace ((i + 64) mod 64) with (i mod 64) by dlia. split; [done|].
        split_and!; try done. f_equal. lia.
    + intros (i & Hi1 & Hi2 & -> & Hq & Hpl). right. destruct (Z.lt_ge_cases i 64).
      * left. exists l. split_and!; [done|by left|apply (Hword' i); [lia|done|done]|done].
      * right. eexists _, _. split; [by right; left|]. apply IH. exists (i - 64). split; [lia|].
        replace ((i - 64) / 64 + 1) with (i / 64) by dlia. replace ((i - 64) mod 64) with (i mod 64) by dlia. split; [done|].
        split_and!; try done. rewrite Hq. f_equal. lia.
Qed.

Lemma ext_grow_spec (malloc_atomic : Z -> bool) (nwords : Z) (s : ty_state) :
  ty_ok s -> 0 < nwords < 2 ^ 60 ->
  exists ok s', loop (ext_grow_body malloc_atomic nwords) s = Some (ok, s') /\ ty_ok s'
    /\ s' = set_ed_size (GC_ed_size s') s /\ (ok = true -> GC_avail_descr s' + nwords < GC_ed_size s').
Proof.
  intros Hs Hn.
  destruct (loop_spec (fun x => ty_ok x /\ x = set_ed_size (GC_ed_size x) s)
    (fun r => ty_ok r.2 /\ r.2 = set_ed_size (GC_ed_size r.2) s
       /\ (r.1 = true -> GC_avail_descr r.2 + nwords < GC_ed_size r.2))
    (fun x => MAX_ENV - GC_ed_size x) (ext_grow_body malloc_atomic nwords) s) as ([ok s'] & -> & HQ).
  - intros x [[H1 H2 H3] Ex]. unfold ext_grow_body. destruct (Z.leb_spec (GC_ed_size x) (GC_avail_descr x + nwords)).
    2:{ by split_and!. }
    destruct (Z.eqb_spec (GC_ed_size x) 0) as [E0|E0]; cbn [negb andb].
    + destruct (malloc_atomic ED_INITIAL_SIZE); cbn [negb]; [|by split_and!].
      change MAX_ENV with (2 ^ 56 - 1) in *. unfold ED_INITIAL_SIZE. rewrite Ex. cbn. split; [|lia]. split; [|done].
      split; cbn; change MAX_ENV with (2 ^ 56 - 1); rewrite Ex in H1, H3; cbn in *; lia.
    + destruct (Z.ltb_spec MAX_ENV (2 * GC_ed_size x)); [by split_and!|].
      destruct (malloc_atomic _); cbn [negb]; [|by split_and!].
      rewrite Ex. cbn. split; [|rewrite Ex in H1; cbn in H1; lia]. split; [|done].
      rewrite Ex in *; cbn in *. split; cbn; lia.
  - split; [done|by destruct s].
  - destruct Hs. change MAX_ENV with (2 ^ 56 - 1) in *. unfold W64. lia.
  - exists ok, s'. cbn in HQ. by split_and!; try apply HQ.
Qed.

Lemma store_words_spec (bm : Z -> Z) (r : Z) (n : nat) (i : Z) (s : ty_state) :
  0 <= r + i -> r + i + Z.of_nat n <= GC_ed_size s ->
  exists s', store_words bm r i n s = Some s' /\ s' = set_ext (GC_ext_descriptors s') s
    /\ forall k, GC_ext_descriptors s' !! k
         = if decide (r + i <= k < r + i + Z.of_nat n) then Some (Ext (bm (k - r)) true) else GC_ext_descriptors s !! k.
Proof.
  revert i s. induction n as [|n IH]; intros i s Hr Hb; cbn [store_words].
  { exists s. split; [done|]. split; [by destruct s|]. intros k. rewrite decide_False by lia. done. }
  unfold store_ext. rewrite (proj2 (Z.leb_le 0 _)), (proj2 (Z.ltb_lt _ _)) by lia. cbn [andb]. rewrite some_bind.
  destruct (IH (i + 1) (set_ext (<[r + i := Ext (bm i) true]> (GC_ext_descriptors s)) s)) as (s' & -> & Es & Hk); [lia|cbn; lia|].
  exists s'. split; [done|]. split; [by rewrite Es|]. intros k. rewrite Hk. cbn [GC_ext_descriptors set_ext].
  destruct (decide (k = r + i)) as [->|].
  - rewrite decide_False, decide_True by lia. rewrite lookup_insert_eq. do 3 f_equal. lia.
  - rewrite lookup_insert_ne by done. repeat case_decide; try done; lia.
Qed.

(** The words as they are stored: the last one without the bits past the end. *)
Definition ext_word (bm : Z -> Z) (nbits nwords j : Z) : Z :=
  if j <? nwords - 1 then bm j else Z.land (bm j) (Z.shiftr GC_WORD_MAX (nwords * CPP_WORDSZ - nbits)).

Lemma ext_word_bit (bm : Z -> Z) (nbits i : Z) :
  0 < nbits -> let nwords := (nbits + 63) / 64 in 0 <= i < 64 * nwords ->
  Z.testbit (ext_word bm nbits nwords (i / 64)) (i mod 64) = GC_get_bit bm i && (i <? nbits).
Proof.
  intros Hn nwords Hi. rewrite GC_get_bit_eq. unfold ext_word. destruct (Z.ltb_spec (i / 64) (nwords - 1)).
  - rewrite (proj2 (Z.ltb_lt i nbits)), andb_true_r by (unfold nwords in *; dlia). done.
  - rewrite Z.land_spec. f_equal. change GC_WORD_MAX with (Z.ones 64). unfold CPP_WORDSZ.
    rewrite Z.shiftr_spec by dlia. assert (0 <= nwords * 64 - nbits) by (unfold nwords; dlia).
    rewrite Z.testbit_ones_nonneg by dlia.
    destruct (Z.ltb_spec (i mod 64 + (nwords * 64 - nbits)) 64), (Z.ltb_spec i nbits); try done; unfold nwords in *; dlia.
Qed.

Lemma add_ext_spec (malloc_atomic : Z -> bool) (bm : Z -> Z) (nbits : Z) (s : ty_state) :
  ty_ok s -> 0 < nbits < 2 ^ 61 ->
  exists r s', GC_add_ext_descriptor malloc_atomic bm nbits s = Some (r, s') /\ ty_ok s' /\ extends s s'
    /\ (r = -1 \/ (r = GC_avail_descr s /\ stored s' r ((nbits + 63) / 64) (ext_word bm nbits ((nbits + 63) / 64)))).
Proof.
  intros Hs Hn. unfold GC_add_ext_descriptor, divWORDSZ, wrap64, CPP_WORDSZ. unfold W64.
  replace (nbits + 64 - 1) with (nbits + 63) by lia. rewrite Z.mod_small by lia. set (nw := (nbits + 63) / 64).
  assert (Hnw : 0 < nw < 2 ^ 60) by (unfold nw; dlia).
  destruct (ext_grow_spec malloc_atomic nw s Hs Hnw) as (ok & s1 & -> & Hs1 & E1 & Hok). rewrite some_bind.
  assert (Ea : GC_avail_descr s1 = GC_avail_descr s /\ GC_typed_mark_proc_index s1 = GC_typed_mark_proc_index s
    /\ GC_ext_descriptors s1 = GC_ext_descriptors s) by (by rewrite E1). destruct Ea as (Ea & Ei & Ee).
  destruct ok; cbn [negb].
  2:{ exists (-1), s1. split; [done|]. split; [done|]. split; [split_and!; [done|lia|intros; by rewrite Ee]|by left]. }
  specialize (Hok eq_refl). pose proof Hs1 as [A1 A2 A3].
  destruct (store_words_spec bm (GC_avail_descr s1) (Z.to_nat (nw - 1)) 0 s1) as (s2 & -> & E2 & H2); [lia|lia|].
  rewrite some_bind. unfold store_ext. assert (Es : GC_ed_size s2 = GC_ed_size s1 /\ GC_avail_descr s2 = GC_avail_descr s1
    /\ GC_typed_mark_proc_index s2 = GC_typed_mark_proc_index s1) by (by rewrite E2). destruct Es as (Es & Es' & Es'').
  rewrite Es, (proj2 (Z.leb_le 0 _)), (proj2 (Z.ltb_lt _ _)) by lia. cbn [andb]. rewrite some_bind.
  eexists _, _. split; [reflexivity|]. cbn. split; [split; cbn; rewrite ?Es, ?Es', ?Es''; lia|]. split.
  - split_and!; cbn; [congruence|lia|]. intros i Hi. rewrite lookup_insert_ne by lia. rewrite H2, decide_False by lia. by rewrite Ee.
  - right. split; [done|]. split; [lia|]. cbn. split; [lia|]. intros j Hj. unfold ext_word.
    destruct (Z.ltb_spec j (nw - 1)).
    + rewrite lookup_insert_ne by lia. rewrite H2, decide_True by lia. do 3 f_equal. lia.
    + replace j with (nw - 1) by lia. rewrite lookup_insert_eq. done.
Qed.

(** ** Descriptors from bitmaps *)

(** The words the bitmap selects. *)
Definition described (E : menv) (bm : Z -> Z) (len a : Z) (m : mode) (q : Z) : Prop :=
  exists i, 0 <= i < len /\ GC_get_bit bm i = true /\ word_ref E a i m q.

(** The descriptor makes the marker look at exactly these words, now and after
    later additions to the table. *)
Definition describes (s : ty_state) (d : Z) (bm : Z -> Z) (len : Z) : Prop :=
  forall s' E a m q, extends s s' -> ty_ok s' -> typed_env E s' -> ref E a d m q <-> described E bm len a m q.

Lemma described_last (E : menv) (bm : Z -> Z) (len a : Z) (m : mode) (q : Z) :
  0 <= len -> let last := last_set_bit bm (Z.to_nat len) in
  described E bm len a m q <-> exists i, 0 <= i <= last /\ GC_get_bit bm i = true /\ word_ref E a i m q.
Proof.
  intros Hl last. destruct (last_set_bit_spec bm (Z.to_nat len)) as (H1 & _ & H3). cbn zeta in *. fold last in H1, H3.
  split; intros (i & Hi & Hb & Hw); exists i; (split; [|done]).
  - split; [lia|]. destruct (Z.lt_ge_cases last i); [|done]. rewrite H3 in Hb by lia. done.
  - lia.
Qed.

Lemma length_descr (n : Z) : 0 <= n < 2 ^ 61 ->
  Z.lor (PTRS_TO_BYTES n) GC_DS_LENGTH = 8 * n /\ tag (8 * n) = GC_DS_LENGTH /\ 0 <= 8 * n < W64.
Proof.
  intros Hn. unfold GC_DS_LENGTH, PTRS_TO_BYTES. rewrite Z.lor_0_r, tag_mod. change PTR_BYTES with 8. unfold W64.
  split_and!; [lia|dlia|lia|lia].
Qed.

Lemma bitmap_descr (bm : Z -> Z) (n : nat) :
  Z.of_nat n < 62 -> let d := Z.lor (reverse_bits bm n SIGNB) GC_DS_BITMAP in
  tag d = GC_DS_BITMAP /\ 0 <= d < W64
  /\ forall i, 0 <= i < 62 -> Z.testbit d (63 - i) = (i <? Z.of_nat n) && GC_get_bit bm i || (i =? Z.of_nat n).
Proof.
  intros Hn d. assert (Hs : forall k, 64 <= k -> Z.testbit SIGNB k = false).
  { intros k Hk. rewrite SIGNB_bit by lia. lia. }
  assert (Hbit : forall i, 0 <= i <= 63 -> Z.testbit (reverse_bits bm n SIGNB) (63 - i)
    = (i <? Z.of_nat n) && GC_get_bit bm i || (i =? Z.of_nat n)).
  { intros i Hi. rewrite reverse_bits_spec by done. destruct (Z.ltb_spec i (Z.of_nat n)); cbn [andb orb].
    - rewrite (proj2 (Z.eqb_neq i _)) by lia. by rewrite orb_false_r.
    - rewrite SIGNB_bit by lia. destruct (Z.eqb_spec (63 - (i - Z.of_nat n)) 63), (Z.eqb_spec i (Z.of_nat n)); try done; lia. }
  assert (Hd : forall i, 0 <= i <= 63 -> Z.testbit d (63 - i)
    = ((i <? Z.of_nat n) && GC_get_bit bm i || (i =? Z.of_nat n)) || (i =? 63)).
  { intros i Hi. unfold d. rewrite Z.lor_spec, Hbit by done. f_equal. unfold GC_DS_BITMAP. change 1 with (2 ^ 0).
    rewrite Z.pow2_bits_eqb by lia. destruct (Z.eqb_spec 0 (63 - i)), (Z.eqb_spec i 63); try done; lia. }
  assert (Hhigh : forall m' d', (forall k, 64 <= k -> Z.testbit d' k = false) -> forall k, 64 <= k -> Z.testbit (reverse_bits bm m' d') k = false).
  { intros m'. induction m' as [|m' IH]; intros d' Hd' k Hk; cbn [reverse_bits]; [by apply Hd'|].
    apply IH; [|done]. intros k' Hk'. destruct (GC_get_bit bm (Z.of_nat m')).
    - rewrite Z.lor_spec, Z.shiftr_spec, Hd', Hs by lia. done.
    - rewrite Z.shiftr_spec by lia. apply Hd'. lia. }
  assert (Hpos : forall m' d', 0 <= d' -> 0 <= reverse_bits bm m' d').
  { intros m'. induction m' as [|m' IH]; intros d' Hd'; cbn [reverse_bits]; [done|]. apply IH.
    assert (0 <= Z.shiftr d' 1) by (by apply Z.shiftr_nonneg). destruct (GC_get_bit _ _); [apply Z.lor_nonneg; split; [done|by vm_compute]|done]. }
  split_and!.
  - rewrite tag_mod. apply Z.bits_inj'. intros k Hk. change 4 with (2 ^ 2). unfold GC_DS_BITMAP. change 1 with (2 ^ 0). rewrite Z.pow2_bits_eqb by lia.
    destruct (Z.lt_ge_cases k 2); [|rewrite Z.mod_pow2_bits_high by lia; lia].
    rewrite Z.mod_pow2_bits_low by lia. replace k with (63 - (63 - k)) at 1 by lia. rewrite Hd by lia.
    rewrite (proj2 (Z.ltb_ge (63 - k) _)), (proj2 (Z.eqb_neq (63 - k) (Z.of_nat n))) by lia. cbn [andb orb]. lia.
  - unfold d. apply Z.lor_nonneg. split; [apply Hpos; by vm_compute|done].
  - destruct (Z.lt_ge_cases d W64) as [|Hge]; [done|exfalso].
    assert (Hlog : 64 <= Z.log2 d) by (apply Z.log2_le_pow2; unfold W64 in Hge; lia).
    assert (Hbl : Z.testbit d (Z.log2 d) = true) by (apply Z.bit_log2; unfold W64 in Hge; lia).
    unfold d in Hbl at 1. rewrite Z.lor_spec, (Hhigh n SIGNB Hs) in Hbl by done. unfold GC_DS_BITMAP in Hbl.
    change 1 with (2 ^ 0) in Hbl. rewrite Z.pow2_bits_eqb in Hbl by lia. cbn [orb] in Hbl. lia.
  - intros i Hi. rewrite Hd by lia. rewrite (proj2 (Z.eqb_neq i 63)) by lia. by rewrite orb_false_r.
Qed.

Lemma make_descriptor_spec (malloc_atomic : Z -> bool) (bm : Z -> Z) (len : Z) (s : ty_state) :
  ty_ok s -> 0 <= len < 2 ^ 60 -> (forall j, 0 <= bm j < W64) ->
  exists d s', GC_make_descriptor malloc_atomic bm len s = Some (d, s') /\ ty_ok s' /\ extends s s' /\ 0 <= d < W64
    /\ (describes s' d bm len
        \/ (GC_add_ext_descriptor malloc_atomic bm (last_set_bit bm (Z.to_nat len) + 1) s = Some (-1, s') /\ 62 < len
            /\ forall E a m q, (described E bm len a m q -> ref E a d m q)
                 /\ (ref E a d m q -> exists i, 0 <= i < len /\ word_ref E a i m q))).
Proof.
  intros Hs Hl Hbm. unfold GC_make_descriptor. pose proof (fun E a m q => described_last E bm len a m q (proj1 Hl)) as HD.
  cbn zeta in HD. destruct (last_set_bit_spec bm (Z.to_nat len)) as (H1 & H2 & H3). cbn zeta in *.
  set (last := last_set_bit bm (Z.to_nat len)) in *. destruct (Z.ltb_spec last 0) as [Hn|Hn].
  { exists 0, s. split_and!; try done. left. intros s' E a m q _ _ _. rewrite HD, ref_length_iff by done.
    split; intros (i & Hi & Hi' & _); lia. }
  destruct (length_descr (last + 1) ltac:(lia)) as (El & Tl & Bl).
  assert (HL : forall E a m q, ref E a (8 * (last + 1)) m q <-> exists i, 0 <= i <= last /\ word_ref E a i m q).
  { intros E a m q. rewrite ref_length_iff by done. split; intros (i & Hi & Hi'); exists i; [split; [lia|apply Hi']|split; [lia|split; [lia|done]]]. }
  destruct (all_set bm (Z.to_nat last)) eqn:Ea.
  { eexists _, s. split; [reflexivity|]. rewrite El. split_and!; try done; try lia. left. intros s' E a m q _ _ _. rewrite HD, HL.
    split; intros (i & Hi & Hi'); exists i; split; try done; [|by apply Hi']. split; [|done].
    destruct (decide (i = last)) as [->|]; [by apply H2|]. apply (proj1 (all_set_spec bm _) Ea). lia. }
  unfold BITMAP_BITS, CPP_WORDSZ, GC_DS_TAG_BITS. destruct (Z.ltb_spec last (64 - 2)) as [Hb|Hb].
  { destruct (bitmap_descr bm (Z.to_nat last) ltac:(lia)) as (Td & Bd & Hbit). cbn zeta in *.
    eexists _, s. split; [reflexivity|]. split_and!; try done; try lia. left. intros s' E a m q _ _ _. rewrite HD, ref_bitmap_iff by done.
    split; intros (i & Hi & Hi' & Hw); exists i.
    - rewrite Hbit in Hi' by lia. rewrite orb_true_iff, andb_true_iff in Hi'. destruct Hi' as [[?%Z.ltb_lt ?]|Heq%Z.eqb_eq]; [split; [lia|done]|].
      assert (i = last) as -> by lia. split; [lia|]. split; [by apply H2|done].
    - split; [lia|]. split; [|done]. rewrite Hbit by lia. rewrite Hi', andb_true_r. destruct (Z.ltb_spec i (Z.of_nat (Z.to_nat last))), (Z.eqb_spec i (Z.of_nat (Z.to_nat last))); try done; lia. }
  destruct (add_ext_spec malloc_atomic bm (last + 1) s Hs ltac:(lia)) as (r & s' & Ee & Hs' & He & Hr). rewrite Ee, some_bind.
  destruct Hr as [->|[-> St]].
  { eexists _, s'. split; [reflexivity|]. rewrite El. split_and!; try done; try lia. right. split; [done|]. split; [lia|]. intros E a m q.
    rewrite HD, HL. split; intros (i & Hi & Hi'); exists i; split; try done; [by apply Hi'|lia]. }
  pose proof Hs as [A1 A2 A3]. rewrite (proj2 (Z.ltb_ge _ 0)) by lia. eexists _, s'. split; [reflexivity|].
  destruct He as (E1 & E2 & E3). pose proof St as (St1 & St2 & _). pose proof Hs' as [B1 B2 B3].
  assert (Hw : 0 < (last + 1 + 63) / 64) by dlia.
  destruct (PROC_ENV_make (GC_typed_mark_proc_index s') (GC_avail_descr s) B3 ltac:(lia)) as (_ & _ & _ & Hd).
  split_and!; try done; try lia. left. intros s'' E a m q X Hs'' HE. rewrite HD. rewrite <- (proj1 X).
  assert (Hww : forall j, 0 <= ext_word bm (last + 1) ((last + 1 + 63) / 64) j < W64).
  { intros j. unfold ext_word. destruct (_ <? _); [apply Hbm|]. specialize (Hbm j). set (x := bm j) in *. split; [apply Z.land_nonneg; left; lia|].
    eapply Z.le_lt_trans; [|apply Hbm]. apply land_le. lia. }
  apply (stored_extends _ s'') in St; [|done].
  rewrite <- (Z2Nat.id ((last + 1 + 63) / 64)) in St, Hww by lia.
  rewrite (stored_refs E s'' (Z.to_nat ((last + 1 + 63) / 64)) (GC_avail_descr s) a _ m q HE Hs'' Hww ltac:(lia) St).
  rewrite Z2Nat.id by lia. split; intros (i & Hi & Hi' & Hwr); exists i.
  - rewrite ext_word_bit in Hi' by lia. apply andb_true_iff in Hi' as [? ?%Z.ltb_lt]. split; [lia|done].
  - split; [dlia|]. rewrite ext_word_bit by dlia. rewrite Hi', (proj2 (Z.ltb_lt _ _)) by lia. done.
Qed.

(** ** Arrays *)

(** The references of an array of [n] elements of [size] bytes. *)
Definition array_refs (E : menv) (a n size d : Z) (m : mode) (q : Z) : Prop :=
  exists k, 0 <= k < n /\ ref E (a + k * size) d m q.

Fixpoint complex_refs (E : menv) (a : Z) (c : complex_descriptor) (m : mode) (q : Z) : Prop :=
  match c with
  | LeafDescriptor size n d => array_refs E a n size d m q
  | SequenceDescriptor first second =>
    complex_refs E a first m q \/ complex_refs E (a + GC_descr_obj_size first) second m q
  end.

(** A descriptor of an element of [size] bytes. *)
Definition fits (size d : Z) : Prop :=
  0 <= d < W64 /\
  ((tag d = GC_DS_LENGTH /\ d <= size)
   \/ (tag d = GC_DS_BITMAP /\ forall i, 0 <= i <= 61 -> Z.testbit d (63 - i) = true -> 8 * i < size)
   \/ tag d = GC_DS_PROC).

(** A length or bitmap descriptor as a bitmap. *)
Definition as_bitmap (d : Z) : Z :=
  if Z.land d GC_DS_TAGS =? GC_DS_LENGTH then
    if d <? PTR_BYTES then GC_DS_BITMAP
    else Z.lor (wrap64 (Z.shiftl GC_WORD_MAX (CPP_WORDSZ - BYTES_TO_PTRS d))) GC_DS_BITMAP
  else d.

Lemma word_bits (d : Z) : 0 <= d < W64 <-> 0 <= d /\ forall k, 64 <= k -> Z.testbit d k = false.
Proof.
  split.
  - intros Hd. split; [lia|]. intros k Hk. destruct (decide (d = 0)) as [->|]; [apply Z.bits_0|].
    apply Z.bits_above_log2; [lia|]. apply Z.log2_lt_pow2; [lia|]. eapply Z.lt_le_trans; [apply Hd|].
    unfold W64. apply Z.pow_le_mono_r; lia.
  - intros [H0 Hb]. split; [done|]. destruct (Z.lt_ge_cases d W64) as [|Hge]; [done|exfalso]. unfold W64 in Hge.
    assert (Hl : 64 <= Z.log2 d) by (apply Z.log2_le_pow2; lia).
    specialize (Hb _ Hl). rewrite Z.bit_log2 in Hb by lia. done.
Qed.

Lemma tag_bits (d : Z) : tag d = GC_DS_BITMAP <-> Z.testbit d 0 = true /\ Z.testbit d 1 = false.
Proof.
  rewrite tag_mod. unfold GC_DS_BITMAP. rewrite (Z.bit0_odd d), (Z.testbit_odd d 1), Z.shiftr_div_pow2 by lia.
  change (2 ^ 1) with 2. pose proof (Zmod_odd d) as H0. pose proof (Zmod_odd (d / 2)) as H1.
  destruct (Z.odd d), (Z.odd (d / 2)); split; try (intros [? ?]; discriminate); intros; try split; try done; dlia.
Qed.

Lemma as_bitmap_spec (size d : Z) :
  8 <= size <= 31 -> size mod 8 = 0 -> fits size d -> tag d <> GC_DS_PROC ->
  let b := as_bitmap d in
  tag b = GC_DS_BITMAP /\ 0 <= b < W64
  /\ (forall i, 0 <= i <= 61 -> Z.testbit b (63 - i) = true -> 8 * i < size)
  /\ forall E a m q, ref E a b m q <-> ref E a d m q.
Proof.
  intros Hs Hal [Hd Hf] Hp b. destruct Hf as [[Ht Hle]|[[Ht Hb]|?]]; [|..|done].
  2:{ assert (Eb : b = d) by (unfold b, as_bitmap; fold (tag d); by rewrite Ht). rewrite Eb. by split_and!; try apply Hd. }
  unfold b, as_bitmap. fold (tag d). rewrite Ht, Z.eqb_refl. change PTR_BYTES with 8. destruct (Z.ltb_spec d 8) as [Hlt|Hge].
  { split_and!; try done.
    - intros i Hi Hbit. unfold GC_DS_BITMAP in Hbit. change 1 with (2 ^ 0) in Hbit. rewrite Z.pow2_bits_eqb in Hbit by lia. lia.
    - intros E a m q. rewrite ref_bitmap_iff, ref_length_iff by done. split; intros (i & Hi & Hi' & _); [|lia].
      unfold GC_DS_BITMAP in Hi'. change 1 with (2 ^ 0) in Hi'. rewrite Z.pow2_bits_eqb in Hi' by lia. lia. }
  unfold BYTES_TO_PTRS, CPP_WORDSZ. change PTR_BYTES with 8. set (k := d / 8). assert (Hk : 1 <= k <= 3) by (unfold k; dlia).
  set (x := Z.lor _ _). assert (Hx : forall j, 0 <= j -> Z.testbit x j = (j <? 64) && (64 - k <=? j) || (j =? 0)).
  { intros j Hj. unfold x. rewrite Z.lor_spec. f_equal.
    - unfold wrap64, W64. destruct (Z.ltb_spec j 64); [|by rewrite Z.mod_pow2_bits_high by lia].
      rewrite Z.mod_pow2_bits_low, Z.shiftl_spec by lia. change GC_WORD_MAX with (Z.ones 64).
      destruct (Z.leb_spec (64 - k) j); [|by rewrite Z.testbit_neg_r by lia]. rewrite Z.testbit_ones_nonneg by lia. cbn [andb]. lia. }
  split_and!.
  - apply tag_bits. rewrite !Hx by lia. split; [by rewrite orb_true_r|]. destruct (Z.leb_spec (64 - k) 1); [lia|done].
  - unfold x. apply Z.lor_nonneg. split; [apply Z.mod_pos_bound; done|done].
  - apply word_bits. split; [unfold x; apply Z.lor_nonneg; split; [apply Z.mod_pos_bound; done|done]|].
    intros j Hj. rewrite Hx by lia. destruct (Z.ltb_spec j 64), (Z.eqb_spec j 0); try done; lia.
  - intros i Hi. rewrite Hx by lia. intros Hbi. destruct (Z.leb_spec (64 - k) (63 - i)), (Z.eqb_spec (63 - i) 0); try lia; unfold k in *; dlia.
  - intros E a m q. rewrite ref_bitmap_iff, ref_length_iff; [|done|].
    2:{ apply tag_bits. rewrite !Hx by lia. split; [by rewrite orb_true_r|]. destruct (Z.leb_spec (64 - k) 1); [lia|done]. }
    split; intros (i & Hi & Hi' & Hw); exists i.
    + rewrite Hx in Hi' by lia. destruct (Z.leb_spec (64 - k) (63 - i)), (Z.eqb_spec (63 - i) 0); try lia;
        (split; [lia|split; [unfold k in *; dlia|done]]).
    + destruct Hw as [Hw Hw']. split; [lia|]. split; [|done]. rewrite Hx by lia.
      rewrite (proj2 (Z.ltb_lt _ 64)), (proj2 (Z.leb_le (64 - k) _)) by (unfold k; dlia). done.
Qed.

Lemma double_descr_spec (size d : Z) :
  8 <= size <= 31 -> size mod 8 = 0 -> fits size d -> tag d <> GC_DS_PROC ->
  let d2 := GC_double_descr d (BYTES_TO_PTRS size) in
  tag d2 = GC_DS_BITMAP /\ fits (2 * size) d2
  /\ forall E a m q, ref E a d2 m q <-> ref E a d m q \/ ref E (a + size) d m q.
Proof.
  intros Hs Hal Hf Hp d2. destruct (as_bitmap_spec size d Hs Hal Hf Hp) as (Tb & Bb & Hin & Hr). cbn zeta in *.
  set (b := as_bitmap d) in *. unfold d2, GC_double_descr. fold (as_bitmap d). fold b. unfold BYTES_TO_PTRS. change PTR_BYTES with 8.
  set (l := size / 8). assert (Hl : 1 <= l <= 3 /\ size = 8 * l) by (unfold l; dlia). destruct Hl as [Hl El].
  change GC_WORD_MAX with GC_SIZE_MAX. fold (untagged b). set (x := Z.lor b _).
  apply word_bits in Bb as [Hb0 Hbh].
  assert (Hu : forall j, 0 <= j -> Z.testbit (untagged b) j = Z.testbit b j && (2 <=? j)).
  { intros j Hj. destruct (Z.lt_ge_cases j 64); [by apply untagged_bit|]. unfold untagged. by rewrite Z.land_spec, Hbh. }
  assert (Hx : forall j, 0 <= j -> Z.testbit x j = Z.testbit b j || (Z.testbit b (j + l) && (2 <=? j + l))).
  { intros j Hj. unfold x. by rewrite Z.lor_spec, Z.shiftr_spec, Hu by lia. }
  assert (Hlow : forall j, 2 <= j < 60 -> Z.testbit b j = false).
  { intros j Hj. destruct (Z.testbit b j) eqn:Ej; [|done]. replace j with (63 - (63 - j)) in Ej by lia. apply Hin in Ej; lia. }
  assert (Tx : tag x = GC_DS_BITMAP).
  { apply tag_bits in Tb as [T0 T1]. apply tag_bits. rewrite !Hx by lia. rewrite T0, T1. split; [done|].
    rewrite Hlow by lia. done. }
  assert (Hxb : forall i, 0 <= i <= 61 -> Z.testbit x (63 - i) = Z.testbit b (63 - i) || ((l <=? i) && Z.testbit b (63 - (i - l)))).
  { intros i Hi. rewrite Hx by lia. f_equal. destruct (Z.leb_spec l i).
    - rewrite (proj2 (Z.leb_le 2 _)), andb_true_r by lia. cbn [andb]. f_equal. lia.
    - rewrite Hbh by lia. done. }
  split; [done|]. split.
  - split; [|right; left; split; [done|]].
    + apply word_bits. split; [unfold x; apply Z.lor_nonneg; split; [done|]; apply Z.shiftr_nonneg; unfold untagged; apply Z.land_nonneg; by left|].
      intros j Hj. rewrite Hx, !Hbh by lia. done.
    + intros i Hi. rewrite Hxb by done. rewrite orb_true_iff, andb_true_iff. intros [H1|[H1%Z.leb_le H2]]; [apply Hin in H1; lia|].
      apply Hin in H2; lia.
  - intros E a m q. rewrite <- !Hr, !ref_bitmap_iff by done. split.
    + intros (i & Hi & Hi' & Hw). rewrite Hxb in Hi' by lia. rewrite orb_true_iff, andb_true_iff in Hi'.
      destruct Hi' as [?|[H1%Z.leb_le H2]]; [left; by exists i|right]. exists (i - l). split; [lia|]. split; [done|].
      destruct Hw as (-> & -> & Hpl). split_and!; try done. f_equal. lia.
    + intros [(i & Hi & Hi' & Hw)|(i & Hi & Hi' & Hw)].
      * exists i. split; [done|]. rewrite Hxb by lia. by rewrite Hi'.
      * pose proof (Hin i ltac:(lia) Hi'). exists (i + l). split; [lia|]. rewrite Hxb by lia. rewrite (proj2 (Z.leb_le l _)) by lia.
        replace (i + l - l) with i by lia. rewrite Hi', orb_true_r. split; [done|].
        destruct Hw as (-> & -> & Hpl). split_and!; try done. f_equal. lia.
Qed.

(** What the descriptor of an array says about it. *)
Definition array_ok (n size d : Z) (r : array_descr) : Prop :=
  match r with
  | NO_MEM => True
  | SIMPLE d' => forall E a m q, ref E a d' m q <-> array_refs E a n size d m q
  | LEAF sz k d' => 0 <= k /\ k * sz = n * size
      /\ forall E a m q, array_refs E a k sz d' m q <-> array_refs E a n size d m q
  | COMPLEX c => GC_descr_obj_size c = n * size
      /\ forall E a m q, complex_refs E a c m q <-> array_refs E a n size d m q
  end.

(** One of the first [k] requests is refused. *)
Definition refused (k : nat) (a : list bool) : Prop := exists j, (j < k)%nat /\ a !! j <> Some true.

Lemma refused_mono (k k' : nat) (a : list bool) : (k <= k')%nat -> refused k a -> refused k' a.
Proof. intros Hk (j & Hj & Ha). exists j. split; [lia|done]. Qed.

(** Between [a] and [a'] at most [k] requests were granted, and none refused. *)
Definition granted (k : nat) (a a' : list bool) : Prop :=
  exists n, (n <= k)%nat /\ a = replicate n true ++ a'.

Lemma granted_refused (k k' : nat) (a a' : list bool) : granted k a a' -> refused k' a' -> refused (k + k') a.
Proof.
  intros (n & Hn & ->) (j & Hj & Ha). exists (n + j)%nat. split; [lia|].
  rewrite lookup_app_r by (rewrite length_replicate; lia). rewrite length_replicate. by replace (n + j - n)%nat with j by lia.
Qed.

Lemma granted_trans (k k' : nat) (a a' a'' : list bool) : granted k a a' -> granted k' a' a'' -> granted (k + k') a a''.
Proof. intros (n & Hn & ->) (n' & Hn' & ->). exists (n + n')%nat. split; [lia|]. by rewrite replicate_add, app_assoc. Qed.

Lemma granted_refl (k : nat) (a : list bool) : granted k a a.
Proof. exists 0%nat. split; [lia|done]. Qed.

Lemma alloc_descr_spec (a : list bool) :
  let '(ok, a') := alloc_descr a in if (ok : bool) then granted 1 a a' else refused 1 a.
Proof.
  destruct a as [|[] a]; cbn; [by exists 0%nat; split; [lia|]|by exists 1%nat; split; [lia|]|by exists 0%nat; split; [lia|]].
Qed.

Lemma double_array (size d : Z) (E : menv) (a n : Z) (m : mode) (q : Z) :
  8 <= size <= 31 -> size mod 8 = 0 -> fits size d -> tag d <> GC_DS_PROC ->
  array_refs E a n (2 * size) (GC_double_descr d (BYTES_TO_PTRS size)) m q <-> array_refs E a (2 * n) size d m q.
Proof.
  intros H1 H2 H3 H4. destruct (double_descr_spec size d H1 H2 H3 H4) as (_ & _ & Hr). cbn zeta in Hr. unfold array_refs. split.
  - intros (k & Hk & Hq). apply Hr in Hq as [Hq|Hq].
    + exists (2 * k). split; [lia|]. by replace (a + 2 * k * size) with (a + k * (2 * size)) by lia.
    + exists (2 * k + 1). split; [lia|]. by replace (a + (2 * k + 1) * size) with (a + k * (2 * size) + size) by lia.
  - intros (k & Hk & Hq). exists (k / 2). split; [dlia|]. apply Hr. pose proof (Z.div_mod k 2 ltac:(lia)) as Hdm.
    destruct (Z.eq_dec (k mod 2) 0) as [E0|E0]; [left|right].
    + by replace (a + k / 2 * (2 * size)) with (a + k * size) by nia.
    + assert (k mod 2 = 1) by dlia. by replace (a + k / 2 * (2 * size) + size) with (a + k * size) by nia.
Qed.

(** Adding the last of an odd number of elements. *)
Lemma add_element_spec (n size d n2 size2 d2 : Z) (r : array_descr) (a : list bool) :
  0 <= n -> 0 < size -> (n + 1) * size < W64 -> n2 * size2 = n * size ->
  (forall E b m q, array_refs E b n2 size2 d2 m q <-> array_refs E b n size d m q) ->
  array_ok n2 size2 d2 r -> r <> NO_MEM -> (forall d', r <> SIMPLE d') ->
  let '(r', a') := add_element size d r a in
  array_ok (n + 1) size d r' /\ (forall d', r' <> SIMPLE d')
  /\ (r' = NO_MEM -> refused 3 a) /\ (r' <> NO_MEM -> granted 3 a a').
Proof.
  intros Hn Hs Hw En Hr Hok Hnm Hsi. unfold add_element, GC_make_leaf_descriptor, GC_make_sequence_descriptor.
  pose proof (alloc_descr_spec a) as A1. destruct (alloc_descr a) as [[] a1].
  2:{ split_and!; try done. intros _. eapply refused_mono; [|exact A1]. lia. }
  assert (Hlast : forall E b m q, array_refs E b (n + 1) size d m q
    <-> array_refs E b n2 size2 d2 m q \/ array_refs E (b + n2 * size2) 1 size d m q).
  { intros E b m q. rewrite Hr, En. split.
    - intros (k & Hk & Hq). destruct (decide (k = n)) as [->|]; [right|left; exists k; split; [lia|done]].
      exists 0. split; [lia|]. by rewrite Z.mul_0_l, Z.add_0_r.
    - intros [(k & Hk & Hq)|(k & Hk & Hq)]; [exists k; split; [lia|done]|]. exists n. split; [lia|].
      assert (k = 0) as -> by lia. by rewrite Z.mul_0_l, Z.add_0_r in Hq. }
  assert (Hfin : forall c a2, GC_descr_obj_size c = n2 * size2 ->
    (forall E b m q, complex_refs E b c m q <-> array_refs E b n2 size2 d2 m q) -> granted 1 a1 a2 ->
    let '(r', a') := (let '(ok, a') := alloc_descr a2 in
      match (if (ok : bool) then Some (SequenceDescriptor c (LeafDescriptor size 1 d)) else None) with
      | None => (NO_MEM, a') | Some c => (COMPLEX c, a') end) in
    array_ok (n + 1) size d r' /\ (forall d', r' <> SIMPLE d')
    /\ (r' = NO_MEM -> refused 3 a) /\ (r' <> NO_MEM -> granted 3 a a')).
  { intros c a2 Hc Hcr G. pose proof (alloc_descr_spec a2) as A2. destruct (alloc_descr a2) as [[] a3].
    - split_and!; [|done|done|].
      + split; [cbn [GC_descr_obj_size]; rewrite Hc, En; unfold wrap64; rewrite (Z.mod_small (1 * size)) by lia;
          rewrite Z.mod_small by lia; lia|].
        intros E b m q. cbn [complex_refs]. rewrite Hcr, Hc. symmetry. apply Hlast.
      + intros _. change 3%nat with (1 + (1 + 1))%nat. eapply granted_trans; [exact A1|]. eapply granted_trans; [exact G|exact A2].
    - split_and!; try done. intros _. change 3%nat with (1 + (1 + 1))%nat. eapply granted_refused; [exact A1|].
      eapply granted_refused; [exact G|exact A2]. }
  destruct r as [|d'|sz k d'|c]; try done; [by destruct (Hsi d')|..].
  - pose proof (alloc_descr_spec a1) as A2. destruct (alloc_descr a1) as [[] a2].
    + destruct Hok as (H0 & H1 & H2). assert (Ec : GC_descr_obj_size (LeafDescriptor sz k d') = n2 * size2).
      { cbn. rewrite H1. unfold wrap64. rewrite Z.mod_small by lia. done. }
      specialize (Hfin (LeafDescriptor sz k d') a2 Ec H2 A2). by destruct (alloc_descr a2) as [[] a3].
    + split_and!; try done. intros _. apply (refused_mono 2); [lia|]. change 2%nat with (1 + 1)%nat. eapply granted_refused; [exact A1|exact A2].
  - destruct Hok as [H1 H2]. specialize (Hfin c a1 H1 H2 (granted_refl 1 a1)). by destruct (alloc_descr a1) as [[] a3].
Qed.

Lemma length_array (E : menv) (b n size : Z) (m : mode) (q : Z) :
  0 < size -> size mod 8 = 0 -> 0 <= n -> n * size < W64 ->
  ref E b (n * size) m q <-> array_refs E b n size size m q.
Proof.
  intros Hs Hal Hn Hw. set (w := size / 8). assert (Ew : size = 8 * w) by (unfold w; dlia).
  assert (Ht : forall x, tag (8 * x) = GC_DS_LENGTH) by (intros x; rewrite tag_mod; unfold GC_DS_LENGTH; dlia).
  rewrite Ew in *. replace (n * (8 * w)) with (8 * (n * w)) by lia. rewrite ref_length_iff by apply Ht. unfold array_refs. split.
  - intros (i & Hi & Hle & Hr). pose proof (Z.div_mod i w ltac:(lia)) as Hdm. pose proof (Z.mod_pos_bound i w ltac:(lia)).
    exists (i / w). split; [split; [apply Z.div_pos; lia|apply Z.div_lt_upper_bound; nia]|].
    apply ref_length_iff; [apply Ht|]. exists (i mod w). split; [lia|]. split; [lia|]. unfold word_ref in *.
    by replace (b + i / w * (8 * w) + 8 * (i mod w)) with (b + 8 * i) by nia.
  - intros (k & Hk & Hr). apply ref_length_iff in Hr; [|apply Ht]. destruct Hr as (i & Hi & Hle & Hr).
    exists (k * w + i). split; [nia|]. split; [nia|]. unfold word_ref in *.
    by replace (b + 8 * (k * w + i)) with (b + k * (8 * w) + 8 * i) by lia.
Qed.

(** The case of descriptors combined in pairs. *)
Lemma pairs_spec (fuel : nat) (n size d : Z) (r : array_descr) (a a' : list bool) :
  8 <= size <= 31 -> size mod 8 = 0 -> fits size d -> tag d <> GC_DS_PROC -> 0 < n -> n * size < W64 ->
  array_ok (n / 2) (2 * size) (GC_double_descr d (BYTES_TO_PTRS size)) r -> (forall d', r <> SIMPLE d') ->
  (r = NO_MEM -> refused (3 * fuel) a) -> (r <> NO_MEM -> granted (3 * fuel) a a') ->
  exists r' a'', match r with
    | NO_MEM => Some (NO_MEM, a')
    | _ => if Z.land n 1 =? 0 then Some (r, a') else Some (add_element size d r a')
    end = Some (r', a'') /\ array_ok n size d r'
    /\ (r' = NO_MEM -> refused (3 * S fuel) a) /\ (r' <> NO_MEM -> granted (3 * S fuel) a a'') /\ (forall d', r' <> SIMPLE d').
Proof.
  intros H8 Hal Hf Hp Hn Hw Hok Hns Hnm Hg.
  destruct (decide (r = NO_MEM)) as [->|Hr].
  { exists NO_MEM, a'. split_and!; try done. intros _. eapply refused_mono; [|by apply Hnm]. lia. }
  specialize (Hg Hr). assert (Hda := fun E b m q => double_array size d E b (n / 2) m q H8 Hal Hf Hp).
  set (d2 := GC_double_descr d (BYTES_TO_PTRS size)) in *.
  replace (match r with NO_MEM => Some (NO_MEM, a') | _ => if Z.land n 1 =? 0 then Some (r, a') else Some (add_element size d r a') end)
    with (if Z.land n 1 =? 0 then Some (r, a') else Some (add_element size d r a')) by (by destruct r).
  change 1 with (2 ^ 1 - 1) at 1. rewrite land_low_mask by lia. change (2 ^ 1) with 2. destruct (Z.eqb_spec (n mod 2) 0) as [E0|E0].
  - assert (En : 2 * (n / 2) = n) by dlia. rewrite En in Hda. exists r, a'. split; [done|]. split_and!; try done.
    + destruct r as [|d'|sz k d'|c]; [done|by destruct (Hns d')|..].
      * destruct Hok as (O1 & O2 & O3). split_and!; [done|nia|]. intros. by rewrite O3.
      * destruct Hok as [O1 O2]. split; [nia|]. intros. by rewrite O2.
    + intros _. change (3 * S fuel)%nat with (3 * S fuel)%nat. replace (3 * S fuel)%nat with (3 * fuel + 3)%nat by lia.
      eapply granted_trans; [exact Hg|apply granted_refl].
  - assert (En : n = 2 * (n / 2) + 1) by dlia.
    pose proof (add_element_spec (2 * (n / 2)) size d (n / 2) (2 * size) d2 r a') as Ha.
    destruct (add_element size d r a') as [r' a'']. rewrite <- En in Ha.
    destruct Ha as (A1 & A2 & A3 & A4); [dlia|lia|lia|nia|done|done|done|done|].
    exists r', a''. split; [done|]. replace (3 * S fuel)%nat with (3 * fuel + 3)%nat by lia. split_and!; try done.
    + intros Hn'. eapply granted_refused; [exact Hg|by apply A3].
    + intros Hn'. eapply granted_trans; [exact Hg|by apply A4].
Qed.

Lemma make_array_spec (fuel : nat) (n size d : Z) (a : list bool) :
  31 < size * 2 ^ (Z.of_nat fuel - 1) -> 0 < size -> size mod 8 = 0 -> fits size d -> 0 < n -> n * size < W64 ->
  exists r a', GC_make_array_descriptor fuel n size d a = Some (r, a') /\ array_ok n size d r
    /\ (r = NO_MEM -> refused (3 * fuel) a) /\ (r <> NO_MEM -> granted (3 * fuel) a a')
    /\ (forall d', r = SIMPLE d' -> tag d = GC_DS_LENGTH \/ n <= 1).
Proof.
  revert n size d a. induction fuel as [|fuel IH]; intros n size d a Hfu Hs Hal Hf Hn Hw.
  { rewrite Z.pow_neg_r in Hfu by lia. lia. }
  cbn [GC_make_array_descriptor]. fold (tag d). change PTR_BYTES with 8. pose proof (granted_refl (3 * S fuel) a) as G.
  destruct ((tag d =? GC_DS_LENGTH) && (d =? size)) eqn:E1.
  { apply andb_true_iff in E1 as [T%Z.eqb_eq ->%Z.eqb_eq]. eexists _, a. split; [reflexivity|]. split_and!; try done; [|by left].
    cbn. unfold wrap64. rewrite Z.mod_small by lia. intros E b m q. by apply length_array; [..|lia|]. }
  destruct ((tag d =? GC_DS_LENGTH) && (d =? 0)) eqn:E2.
  { apply andb_true_iff in E2 as [T%Z.eqb_eq ->%Z.eqb_eq]. eexists _, a. split; [reflexivity|]. split_and!; try done; [|by left].
    intros E b m q. unfold array_refs. rewrite ref_length_iff by done.
    split; [intros (i & ? & ? & _); lia|]. intros (k & _ & Hr). apply ref_length_iff in Hr as (i & ? & ? & _); [lia|done]. }
  clear E1 E2. assert (Hleaf : array_ok n size d (LEAF size n d)) by (split; [lia|done]). destruct (Z.leb_spec n OPT_THRESHOLD) as [H50|H50].
  { destruct (Z.leb_spec n 1) as [H1|H1]; [|eexists _, a; split; [reflexivity|]; by split_and!].
    assert (n = 1) as -> by lia. eexists _, a. split; [reflexivity|]. split_and!; try done; [|by right].
    cbn. intros E b m q. unfold array_refs. split.
    - intros Hr. exists 0. split; [lia|]. by rewrite Z.mul_0_l, Z.add_0_r.
    - intros (k & Hk & Hr). assert (k = 0) as -> by lia. by rewrite Z.mul_0_l, Z.add_0_r in Hr. }
  destruct ((size <=? BITMAP_BITS / 2) && negb (tag d =? GC_DS_PROC) && (Z.land size (8 - 1) =? 0)) eqn:Ec.
  2:{ eexists _, a. split; [reflexivity|]. by split_and!. }
  apply andb_true_iff in Ec as [[Ec1%Z.leb_le Ec2%negb_true_iff%Z.eqb_neq]%andb_true_iff _].
  change (BITMAP_BITS / 2) with 31 in Ec1. change OPT_THRESHOLD with 50 in H50. assert (H8 : 8 <= size <= 31) by dlia.
  destruct (double_descr_spec size d H8 Hal Hf Ec2) as (T2 & F2 & _). cbn zeta in *.
  destruct (IH (n / 2) (2 * size) (GC_double_descr d (BYTES_TO_PTRS size)) a) as (r & a' & -> & Hok & Hnm & Hg & Hsi);
    [|lia|dlia|done|dlia|assert (2 * (n / 2) <= n) by dlia; nia|].
  { replace (Z.of_nat (S fuel) - 1) with (Z.of_nat fuel) in Hfu by lia. destruct fuel as [|fuel]; [lia|].
    replace (Z.of_nat (S fuel)) with (Z.of_nat (S fuel) - 1 + 1) in Hfu by lia. rewrite Z.pow_add_r in Hfu by lia. lia. }
  rewrite some_bind. destruct (pairs_spec fuel n size d r a a') as (r' & a'' & Er & P1 & P2 & P3 & P4); try done.
  { intros d' ->. destruct (Hsi d' eq_refl) as [Ht|Hle]; [rewrite T2 in Ht; discriminate Ht|dlia]. }
  exists r', a''. split; [exact Er|]. split_and!; try done. intros d' ->. by destruct (P4 d').
Qed.

(** ** Marking arrays *)

Fixpoint count (c : complex_descriptor) : Z :=
  match c with
  | LeafDescriptor _ n _ => n
  | SequenceDescriptor first second => count first + count second
  end.

Fixpoint counts_ok (c : complex_descriptor) : Prop :=
  match c with
  | LeafDescriptor _ n _ => 0 <= n < 2 ^ 63
  | SequenceDescriptor first second => counts_ok first /\ counts_ok second
  end.

Lemma count_nonneg (c : complex_descriptor) : counts_ok c -> 0 <= count c.
Proof. induction c as [|c1 IH1 c2 IH2]; cbn; [lia|]. intros [H1 H2]. specialize (IH1 H1). specialize (IH2 H2). lia. Qed.

Lemma push_elements_spec (E : menv) (n : nat) (current sz d : Z) (l : list mse) :
  length (push_elements n current sz d l) = (n + length l)%nat
  /\ forall m q, stack_refs E (push_elements n current sz d l) m q
       <-> stack_refs E l m q \/ array_refs E current (Z.of_nat n) sz d m q.
Proof.
  revert current l. induction n as [|n IH]; intros current l; cbn [push_elements].
  { split; [done|]. intros m q. split; [by left|]. intros [?|(k & Hk & _)]; [done|lia]. }
  destruct (IH (current + sz) (Mse current d :: l)) as [IH1 IH2]. split; [rewrite IH1; cbn; lia|].
  intros m q. rewrite IH2. split.
  - intros [(e & He & Hr)|(k & Hk & Hr)].
    + apply elem_of_cons in He as [->|He]; [right|left; by exists e]. exists 0. cbn in Hr. split; [lia|]. by rewrite Z.mul_0_l, Z.add_0_r.
    + right. exists (k + 1). split; [lia|]. by replace (current + (k + 1) * sz) with (current + sz + k * sz) by lia.
  - intros [(e & He & Hr)|(k & Hk & Hr)]; [left; exists e; split; [by right|done]|].
    destruct (decide (k = 0)) as [->|].
    + left. exists (Mse current d). split; [by left|]. by rewrite Z.mul_0_l, Z.add_0_r in Hr.
    + right. exists (k - 1). split; [lia|]. by replace (current + sz + (k - 1) * sz) with (current + k * sz) by lia.
Qed.

Lemma push_complex_spec (E : menv) (limit current : Z) (c : complex_descriptor) (l : list mse) :
  counts_ok c -> Z.of_nat (length l) <= limit ->
  match GC_push_complex_descriptor limit current c l with
  | None => limit < Z.of_nat (length l) + count c
  | Some l' => Z.of_nat (length l') = Z.of_nat (length l) + count c /\ Z.of_nat (length l') <= limit
      /\ forall m q, stack_refs E l' m q <-> stack_refs E l m q \/ complex_refs E current c m q
  end.
Proof.
  revert current l. induction c as [sz n d|c1 IH1 c2 IH2]; intros current l Hc Hl; cbn [GC_push_complex_descriptor count complex_refs].
  - cbn in Hc. assert (Es : signed64 n = n) by (unfold signed64; destruct (Z.ltb_spec n (2 ^ 63)); [done|lia]).
    rewrite Es. destruct (Z.leb_spec (limit - (Z.of_nat (length l) - 1)) n); [lia|].
    destruct (push_elements_spec E (Z.to_nat n) current sz d l) as [H1 H2]. rewrite Z2Nat.id in H2 by lia.
    split; [rewrite H1; lia|]. split; [rewrite H1; lia|done].
  - destruct Hc as [Hc1 Hc2]. pose proof (count_nonneg c2 Hc2). specialize (IH1 current l Hc1 Hl).
    destruct (GC_push_complex_descriptor limit current c1 l) as [l1|]; cbn; [|lia]. destruct IH1 as (A1 & A2 & A3).
    specialize (IH2 (current + GC_descr_obj_size c1) l1 Hc2 A2).
    destruct (GC_push_complex_descriptor limit _ c2 l1) as [l2|]; [|lia]. destruct IH2 as (B1 & B2 & B3).
    split; [lia|]. split; [done|]. intros m q. rewrite B3, A3. tauto.
Qed.

(** ** Correctness *)

Definition ty_init (index : Z) : ty_state := Ty ∅ 0 0 index.

Lemma ty_init_ok (index : Z) : 0 <= index < 64 -> ty_ok (ty_init index).
Proof. intros Hi. split; cbn; [lia|by vm_compute|done]. Qed.

(** C17: a descriptor made from a bitmap makes the marker look at exactly the words
    the bitmap selects, whether it is a length, a bitmap or an entry of the table of
    extended descriptors, and keeps doing so when more entries are added; when the
    table cannot be extended, it looks at all words up to the last selected one. *)
Theorem GC_make_descriptor_correct (malloc_atomic : Z -> bool) (bm : Z -> Z) (len : Z) (s : ty_state)
    (Hs : ty_ok s) (Hlen : 0 <= len < 2 ^ 60) (Hbm : forall j, 0 <= bm j < W64) :
  exists d s', GC_make_descriptor malloc_atomic bm len s = Some (d, s') /\ ty_ok s' /\ extends s s' /\ 0 <= d < W64
    /\ (describes s' d bm len
        \/ (GC_add_ext_descriptor malloc_atomic bm (last_set_bit bm (Z.to_nat len) + 1) s = Some (-1, s') /\ 62 < len
            /\ forall E a m q, (described E bm len a m q -> ref E a d m q)
                 /\ (ref E a d m q -> exists i, 0 <= i < len /\ word_ref E a i m q))).
Proof. by apply make_descriptor_spec. Qed.

(** Every third word of 90 is a pointer. *)
Definition sample_bm (j : Z) : Z := if j =? 0 then 0x9249249249249249 else if j =? 1 then 0x924924 else 0.

Lemma GC_make_descriptor_correct_witness :
  exists d s', GC_make_descriptor (fun _ => true) sample_bm 90 (ty_init 1) = Some (d, s') /\ ty_ok s' /\ 0 <= d < W64.
Proof.
  destruct (GC_make_descriptor_correct (fun _ => true) sample_bm 90 (ty_init 1)) as (d & s' & H1 & H2 & _ & H3 & _).
  - by apply ty_init_ok.
  - lia.
  - intros j. unfold sample_bm. destruct (j =? 0), (j =? 1); by vm_compute.
  - by exists d, s'.
Defined.

(** C18: preparing a typed array fails when its size overflows a word; otherwise room
    for all elements is asked for, and the descriptor makes the marker look at what
    the descriptor of an element selects in each of the elements, whether elements
    are combined in pairs, listed in a leaf or in a tree, unless memory for the
    descriptor is refused. *)
Theorem GC_calloc_prepare_explicitly_typed_correct (extra n lb d : Z) (a : list bool)
    (Hx : 0 <= extra <= 1) (Hn : 0 < n <= GC_SIZE_MAX) (Hlb : 0 < lb <= GC_SIZE_MAX) (Hal : lb mod 8 = 0) (Hf : fits lb d) :
  if W64 <=? n * lb then
    GC_calloc_prepare_explicitly_typed extra n lb d a = Some (false, Ctd GC_SIZE_MAX NO_MEM, a)
  else
    exists c a', GC_calloc_prepare_explicitly_typed extra n lb d a = Some (true, c, a')
      /\ n * lb <= alloc_lb c <= GC_SIZE_MAX /\ array_ok n lb d (ctd_descr c)
      /\ (ctd_descr c = NO_MEM -> refused 192 a).
Proof.
  unfold GC_calloc_prepare_explicitly_typed. rewrite (proj2 (Z.eqb_neq lb 0)), (proj2 (Z.eqb_neq n 0)) by lia. cbn [orb].
  assert (Hover : (GC_SQRT_SIZE_MAX <? Z.lor lb n) && (GC_SIZE_MAX / lb <? n) = (W64 <=? n * lb)).
  { unfold GC_SIZE_MAX, W64 in *. change GC_SQRT_SIZE_MAX with (2 ^ 32 - 1).
    destruct (Z.leb_spec (2 ^ 64) (n * lb)) as [Ho|Ho].
    - rewrite (proj2 (Z.ltb_lt ((2 ^ 64 - 1) / lb) n)) by (apply Z.div_lt_upper_bound; lia). rewrite andb_true_r. apply Z.ltb_lt.
      pose proof (land_le lb n ltac:(lia)). pose proof (Z.add_lor_land lb n). pose proof (land_le n lb ltac:(lia)) as Hl.
      rewrite Z.land_comm in Hl. destruct (Z.le_gt_cases (Z.lor lb n) (2 ^ 32 - 1)); [|lia].
      assert (n * lb <= (2 ^ 32 - 1) * (2 ^ 32 - 1)) by (apply Z.mul_le_mono_nonneg; lia). lia.
    - rewrite andb_false_iff. right. apply Z.ltb_ge. apply Z.div_le_lower_bound; lia. }
  rewrite Hover. destruct (Z.leb_spec W64 (n * lb)) as [Ho|Ho]; [done|].
  destruct (make_array_spec 64 n lb d a) as (r & a' & -> & Hok & Hnm & _); [|lia|done|done|lia|done|].
  { change (2 ^ (Z.of_nat 64 - 1)) with (2 ^ 63). lia. }
  rewrite some_bind. eexists _, a'. split; [reflexivity|]. cbn. unfold wrap64. rewrite Z.mod_small by lia.
  split; [|by split]. unfold SIZET_SAT_ADD, GC_SIZE_MAX, W64 in *. change PTR_BYTES with 8.
  change (BYTES_TO_PTRS_ROUNDUP sizeof_LeafDescriptor) with 4.
  destruct r; try lia; match goal with |- context [if ?c then _ else _] => destruct c eqn:Ec end; lia.
Qed.

Lemma GC_calloc_prepare_explicitly_typed_correct_witness :
  exists c a', GC_calloc_prepare_explicitly_typed 1 101 16 (2 ^ 63 + 1) (repeat true 20) = Some (true, c, a')
    /\ array_ok 101 16 (2 ^ 63 + 1) (ctd_descr c).
Proof.
  pose proof (GC_calloc_prepare_explicitly_typed_correct 1 101 16 (2 ^ 63 + 1) (repeat true 20)) as H.
  change (W64 <=? 101 * 16) with false in H. cbn iota in H. destruct H as (c & a' & H1 & _ & H2 & _).
  - lia.
  - unfold GC_SIZE_MAX. lia.
  - unfold GC_SIZE_MAX. lia.
  - done.
  - split; [by vm_compute|]. right. left. split; [done|]. intros i Hi Hb.
    change (2 ^ 63 + 1) with (Z.lor (2 ^ 63) (2 ^ 0)) in Hb. rewrite Z.lor_spec, !Z.pow2_bits_eqb in Hb by lia. lia.
  - by exists c, a'.
Defined.

(** C19: the mark procedure of typed arrays never writes past the mark stack; when
    there is room it replaces the array by entries for exactly the references of its
    elements and the pointer to its descriptor, and when there is not, by the whole
    object, asking for a larger stack. *)
Theorem GC_array_mark_proc_correct (E : menv) (descr_at : Z -> option complex_descriptor) (limit sz addr : Z)
    (l : list mse) (c : complex_descriptor)
    (Hl : Z.of_nat (length l) < limit) (Hsz : 8 <= sz) (Hp : mem E (addr + 8 * (sz / 8 - 1)) <> 0)
    (Hd : descr_at (mem E (addr + 8 * (sz / 8 - 1))) = Some c) (Hc : counts_ok c) :
  exists l' too_small, GC_array_mark_proc E descr_at limit sz addr l = Some (l', too_small)
    /\ Z.of_nat (length l') <= limit
    /\ if (too_small : bool) then limit <= Z.of_nat (length l) + count c /\ l' = Mse addr sz :: l
       else forall m q, stack_refs E l' m q
              <-> stack_refs E l m q \/ complex_refs E addr c m q \/ word_ref E addr (sz / 8 - 1) m q.
Proof.
  unfold GC_array_mark_proc, BYTES_TO_PTRS. change PTR_BYTES with 8. rewrite (proj2 (Z.eqb_neq _ _) Hp), Hd, some_bind.
  pose proof (push_complex_spec E (limit - 1) addr c l Hc ltac:(lia)) as Hpc.
  destruct (GC_push_complex_descriptor (limit - 1) addr c l) as [l1|].
  - destruct Hpc as (H1 & H2 & H3). eexists _, false. split; [reflexivity|]. split; [cbn; lia|].
    intros m q. unfold GC_DS_LENGTH. rewrite Z.lor_0_r, MarkInv.MarkInv.stack_refs_cons, H3. cbn [mse_start mse_descr].
    rewrite ref_length_iff by done. split.
    + intros [(i & Hi & Hi' & Hw)|[?|?]]; [|by left|by right; left]. right. right. assert (i = 0) as -> by lia.
      unfold word_ref in *. by rewrite Z.mul_0_r, Z.add_0_r in Hw.
    + intros [?|[?|Hw]]; [by right; left|by right; right|left]. exists 0. split; [lia|]. split; [lia|].
      unfold word_ref in *. by rewrite Z.mul_0_r, Z.add_0_r.
  - eexists _, true. split; [reflexivity|]. split; [cbn; lia|]. split; [lia|]. by rewrite Z.lor_0_r.
Qed.

Lemma GC_array_mark_proc_correct_witness :
  exists l' too_small, GC_array_mark_proc MarkSample.sample_env (fun _ => Some (LeafDescriptor 8 3 8)) 10 8 1048576 [] = Some (l', too_small)
    /\ Z.of_nat (length l') <= 10.
Proof.
  destruct (GC_array_mark_proc_correct MarkSample.sample_env (fun _ => Some (LeafDescriptor 8 3 8)) 10 8 1048576 [] (LeafDescriptor 8 3 8))
    as (l' & b & H1 & H2 & _); [done|lia|by vm_compute|done|by vm_compute|].
  by exists l', b.
Defined.
End TypedOk.
