(* ===== verification/NewHblk.v ===== *)
(** * Free lists of a new block (new_hblk.c: [GC_build_fl])

    A fresh block is cut into objects that are linked, through their first word,
    into a free list ending in the old one.  Two- and four-word objects have
    unrolled loops of their own; all of them build the same list.

    Object memory is a finite map from word addresses to words; an address that is
    absent has not been written. *)

From Stdlib Require Import ZArith Lia.
From stdpp Require Import base gmap list.
From S2P Require Import Prelude.

Module NewHblk.

Notation mem := (gmap Z Z).

(** The size of a [ptr_t]. *)
Definition PTRSZ : Z := 8.
Definition GRANULES_TO_PTRS (lg : Z) : Z := 2 * lg.

(** [p[k] = v] for a [ptr_t *p]. *)
Definition st (p k v : Z) (m : mem) : mem := <[p + PTRSZ * k := v]> m.

(** The loops go on while [p < plim]. *)
Definition fl_clear2_body (plim : Z) (s : Z * mem) : (Z * mem) + (Z * mem) :=
  let '(p, m) := s in
  if p <? plim then
    inl (p + PTRSZ * 4, st p 3 0 (st p 2 p (st p 1 0 (st p 0 (p - PTRSZ * 2) m))))
  else inr (p - PTRSZ * 2, m).

Definition GC_build_fl_clear2 (h ofl : Z) (m : mem) : option (Z * mem) :=
  let plim := h + HBLKSIZE in
  let m := st h 3 0 (st h 2 h (st h 1 0 (st h 0 ofl m))) in
  loop (fl_clear2_body plim) (h + PTRSZ * 4, m).

Definition fl2_body (plim : Z) (s : Z * mem) : (Z * mem) + (Z * mem) :=
  let '(p, m) := s in
  if p <? plim then inl (p + PTRSZ * 4, st p 2 p (st p 0 (p - PTRSZ * 2) m))
  else inr (p - PTRSZ * 2, m).

Definition GC_build_fl2 (h ofl : Z) (m : mem) : option (Z * mem) :=
  let plim := h + HBLKSIZE in
  let m := st h 2 h (st h 0 ofl m) in
  loop (fl2_body plim) (h + PTRSZ * 4, m).

Definition fl_clear4_body (plim : Z) (s : Z * mem) : (Z * mem) + (Z * mem) :=
  let '(p, m) := s in
  if p <? plim then
    inl (p + PTRSZ * 4, st p 3 0 (st p 2 0 (st p 1 0 (st p 0 (p - PTRSZ * 4) m))))
  else inr (p - PTRSZ * 4, m).

Definition GC_build_fl_clear4 (h ofl : Z) (m : mem) : option (Z * mem) :=
  let plim := h + HBLKSIZE in
  let m := st h 3 0 (st h 2 0 (st h 1 0 (st h 0 ofl m))) in
  loop (fl_clear4_body plim) (h + PTRSZ * 4, m).

Definition fl4_body (plim : Z) (s : Z * mem) : (Z * mem) + (Z * mem) :=
  let '(p, m) := s in
  if p <? plim then inl (p + PTRSZ * 8, st p 4 p (st p 0 (p - PTRSZ * 4) m))
  else inr (p - PTRSZ * 4, m).

Definition GC_build_fl4 (h ofl : Z) (m : mem) : option (Z * mem) :=
  let plim := h + HBLKSIZE in
  let m := st h 4 h (st h 0 ofl m) in
  loop (fl4_body plim) (h + PTRSZ * 8, m).

(** [BZERO] of [n] words from [a]. *)
Fixpoint bzero (n : nat) (a : Z) (m : mem) : mem :=
  match n with O => m | S n => bzero n (a + PTRSZ) (<[a := 0]> m) end.

Definition fl_body (plim lpw : Z) (s : Z * Z * mem) : (Z * Z * mem) + (Z * mem) :=
  let '(p, prev, m) := s in
  if p <=? plim then inl (p + PTRSZ * lpw, p, st p 0 prev m) else inr (p - PTRSZ * lpw, m).

Definition GC_build_fl (h list lg : Z) (clear : bool) (m : mem) : option (Z * mem) :=
  let lpw := GRANULES_TO_PTRS lg in
  if lpw =? 2 then if clear then GC_build_fl_clear2 h list m else GC_build_fl2 h list m
  else if lpw =? 4 then if clear then GC_build_fl_clear4 h list m else GC_build_fl4 h list m
  else
    let m := if clear then bzero (Z.to_nat (HBLKSIZE / PTRSZ)) h m else m in
    let plim := h + HBLKSIZE - lpw * PTRSZ in
    '(p, m) ← loop (fl_body plim lpw) (h + PTRSZ * lpw, h, m);
    Some (p, st h 0 list m).

(** ** Free lists in memory *)

(** [head] starts a list of the objects [objs], linked by their first words, that
    goes on with [tail]. *)
Fixpoint fl_seg (m : mem) (head : Z) (objs : list Z) (tail : Z) : Prop :=
  match objs with
  | [] => head = tail
  | o :: objs => head = o /\ exists next, m !! o = Some next /\ fl_seg m next objs tail
  end.

Lemma fl_seg_frame (m m' : mem) (head : Z) (objs : list Z) (tail : Z) :
  (forall o, o ∈ objs -> m' !! o = m !! o) -> fl_seg m head objs tail -> fl_seg m' head objs tail.
Proof.
  revert head. induction objs as [|o objs IH]; intros head Hm; cbn [fl_seg]; [done|].
  intros [-> (next & Hn & Hs)]. split; [done|]. exists next. split; [rewrite Hm; [exact Hn|by left]|].
  apply IH; [|done]. intros o' Ho'. apply Hm. by right.
Qed.

(** The objects of size [sz] in block [h], in address order. *)
Definition objects (h sz : Z) (n : nat) : list Z := (fun k => h + sz * k) <$> seqZ 0 (Z.of_nat n).

Lemma objects_S (h sz : Z) (n : nat) : objects h sz (S n) = objects h sz n ++ [h + sz * Z.of_nat n].
Proof.
  unfold objects. replace (Z.of_nat (S n)) with (Z.of_nat n + 1) by lia.
  rewrite seqZ_app, fmap_app by lia. done.
Qed.

Lemma elem_of_objects (h sz : Z) (n : nat) (o : Z) :
  o ∈ objects h sz n <-> exists k, 0 <= k < Z.of_nat n /\ o = h + sz * k.
Proof.
  unfold objects. rewrite list_elem_of_fmap. split.
  - intros (k & -> & Hk%elem_of_seqZ). exists k. split; [lia|done].
  - intros (k & Hk & ->). exists k. split; [done|]. apply elem_of_seqZ. lia.
Qed.

(** The contents of memory once the objects of the block up to address [e] are
    linked: each object points to the one before it, the first to [list]; with
    [clear] the other words of the block are zero. *)
Definition built_upto (h sz list : Z) (clear : bool) (m : mem) (e : Z) (m' : mem) : Prop :=
  forall a, m' !! a =
    if decide (h <= a < e) then
      if decide ((a - h) mod sz = 0 /\ a + sz <= h + HBLKSIZE) then Some (if a =? h then list else a - sz)
      else if clear && ((a - h) mod 8 =? 0) then Some 0 else m !! a
    else m !! a.

Definition built (h sz list : Z) (clear : bool) (m m' : mem) : Prop :=
  built_upto h sz list clear m (h + HBLKSIZE) m'.

(** The number of objects and the address of the last one. *)
Definition n_objs (sz : Z) : nat := Z.to_nat (HBLKSIZE / sz).

Lemma built_fl_seg (h sz list : Z) (clear : bool) (m m' : mem) (n : nat) :
  0 < sz -> built h sz list clear m m' -> (0 < n)%nat -> sz * Z.of_nat n <= HBLKSIZE ->
  fl_seg m' (h + sz * (Z.of_nat n - 1)) (reverse (objects h sz n)) list.
Proof.
  intros Hsz Hb. induction n as [|n IH]; intros Hn Hle; [lia|].
  rewrite objects_S, reverse_app. cbn [reverse rev_append app fl_seg].
  replace (Z.of_nat (S n) - 1) with (Z.of_nat n) by lia. split; [done|].
  specialize (Hb (h + sz * Z.of_nat n)).
  rewrite decide_True in Hb by (unfold HBLKSIZE in *; nia).
  rewrite decide_True in Hb.
  2:{ split; [|nia]. replace (h + sz * Z.of_nat n - h) with (Z.of_nat n * sz) by lia. apply Z_mod_mult. }
  eexists. split; [exact Hb|]. destruct (Z.eqb_spec (h + sz * Z.of_nat n) h) as [E|E].
  - assert (n = 0%nat) as -> by nia. done.
  - replace (h + sz * Z.of_nat n - sz) with (h + sz * (Z.of_nat n - 1)) by lia. apply IH; nia.
Qed.
(** Extending the built part by the words from [e] to [e']. *)
Lemma built_upto_step (h sz list : Z) (clear : bool) (m : mem) (e e' : Z) (m1 m2 : mem) :
  h <= e <= e' -> built_upto h sz list clear m e m1 ->
  (forall a, ~ e <= a < e' -> m2 !! a = m1 !! a) ->
  (forall a, e <= a < e' -> m1 !! a = m !! a -> m2 !! a =
     if decide ((a - h) mod sz = 0 /\ a + sz <= h + HBLKSIZE) then Some (if a =? h then list else a - sz)
     else if clear && ((a - h) mod 8 =? 0) then Some 0 else m !! a) ->
  built_upto h sz list clear m e' m2.
Proof.
  intros He H1 Hout Hin a. specialize (H1 a). destruct (decide (e <= a < e')) as [Hi|Ho].
  - rewrite (decide_True (P := h <= a < e')) by lia. rewrite decide_False in H1 by lia. by apply Hin.
  - rewrite Hout, H1 by done. destruct (decide (h <= a < e)), (decide (h <= a < e')); try done; lia.
Qed.

Lemma built_upto_start (h sz list : Z) (clear : bool) (m : mem) : built_upto h sz list clear m h m.
Proof. intros a. by rewrite decide_False by lia. Qed.

(** Look up an address in a sequence of stores. *)
Ltac st_cases :=
  unfold st, PTRSZ; intros a ?; rewrite !lookup_insert;
  repeat match goal with |- context [decide (?x = a)] => destruct (decide (x = a)) end.

(** Decide what the built block holds at [a]. *)
Ltac fl_cases :=
  change HBLKSIZE with 4096 in *; subst;
  repeat match goal with
         | |- context [decide (?P /\ ?Q)] => destruct (decide (P /\ Q)) as [[? ?]|?]
         | |- context [?a =? ?b] => destruct (Z.eqb_spec a b)
         end; cbn [andb]; try congruence; try (f_equal; dlia); try dlia.

(** The loops of the unrolled routines: [stride] bytes a round, objects of [sz]. *)
Lemma fl_loop_ok (body : Z * mem -> (Z * mem) + (Z * mem)) (h sz stride list : Z) (clear : bool) (m m0 : mem) :
  stride = 32 \/ stride = 64 -> h mod 4096 = 0 -> 0 <= h ->
  (forall p m1, p < h + HBLKSIZE -> (p - h) mod stride = 0 -> h < p ->
     exists m2, body (p, m1) = inl (p + stride, m2) /\
       (built_upto h sz list clear m p m1 -> built_upto h sz list clear m (p + stride) m2)) ->
  (forall p m1, h + HBLKSIZE <= p -> body (p, m1) = inr (p - sz, m1)) ->
  built_upto h sz list clear m (h + stride) m0 ->
  exists m', loop body (h + stride, m0) = Some (h + HBLKSIZE - sz, m') /\ built h sz list clear m m'.
Proof.
  intros Hst Hal Hh Hbody Hexit H0. change HBLKSIZE with 4096 in *.
  destruct (loop_spec
    (fun s => (s.1 - h) mod stride = 0 /\ h < s.1 <= h + 4096 /\ built_upto h sz list clear m s.1 s.2)
    (fun r => r.1 = h + 4096 - sz /\ built h sz list clear m r.2)
    (fun s => h + 4096 - s.1) body (h + stride, m0)) as ([r m'] & E & Hr & Hb).
  - intros [p m1] (Hm & Hp & Hb). cbn [fst snd] in *. destruct (decide (p < h + 4096)).
    + destruct (Hbody p m1) as (m2 & -> & Hb2); [done|done|lia|]. cbn [fst snd].
      destruct Hst as [->| ->]; (split; [split; [dlia|split; [dlia|by apply Hb2]]|dlia]).
    + rewrite Hexit by lia. cbn [fst snd]. assert (p = h + 4096) as -> by lia. done.
  - cbn [fst snd]. split; [destruct Hst as [->| ->]; dlia|]. split; [destruct Hst; lia|done].
  - cbn [fst]. assert (4096 < W64) by done. destruct Hst; lia.
  - cbn [fst snd] in *. subst r. by exists m'.
Qed.

(** The three obligations of [fl_loop_ok] for a routine with loop body [body]. *)
Ltac fl_unrolled body :=
  apply fl_loop_ok; [auto|done|done| | |];
  [ intros p m1 Hp Hm Hlt; unfold body; bcase; [|lia];
    eexists; split; [done|]; intros Hb; eapply built_upto_step; [|done|..];
    [lia|st_cases; solve [exfalso; lia|done]|st_cases; intros; fl_cases]
  | intros p m1 Hp; unfold body; by bcase; [lia|]
  | eapply built_upto_step; [|apply built_upto_start|..];
    [lia|st_cases; solve [exfalso; lia|done]|st_cases; intros; fl_cases] ].

Section Build.
Context (h list : Z) (m : mem) (Hal : h mod 4096 = 0) (Hh : 0 <= h).

Lemma GC_build_fl_clear2_ok :
  exists m', GC_build_fl_clear2 h list m = Some (h + HBLKSIZE - 16, m') /\ built h 16 list true m m'.
Proof. unfold GC_build_fl_clear2. change (h + PTRSZ * 4) with (h + 32). fl_unrolled fl_clear2_body. Qed.

Lemma GC_build_fl2_ok :
  exists m', GC_build_fl2 h list m = Some (h + HBLKSIZE - 16, m') /\ built h 16 list false m m'.
Proof. unfold GC_build_fl2. change (h + PTRSZ * 4) with (h + 32). fl_unrolled fl2_body. Qed.

Lemma GC_build_fl_clear4_ok :
  exists m', GC_build_fl_clear4 h list m = Some (h + HBLKSIZE - 32, m') /\ built h 32 list true m m'.
Proof. unfold GC_build_fl_clear4. change (h + PTRSZ * 4) with (h + 32). fl_unrolled fl_clear4_body. Qed.

Lemma GC_build_fl4_ok :
  exists m', GC_build_fl4 h list m = Some (h + HBLKSIZE - 32, m') /\ built h 32 list false m m'.
Proof. unfold GC_build_fl4. change (h + PTRSZ * 8) with (h + 64). fl_unrolled fl4_body. Qed.

(** ** The general routine *)

Lemma bzero_lookup (n : nat) (b a : Z) (m0 : mem) :
  bzero n b m0 !! a = if decide (b <= a < b + 8 * Z.of_nat n /\ (a - b) mod 8 = 0) then Some 0 else m0 !! a.
Proof.
  revert b m0. induction n as [|n IH]; intros b m0; cbn [bzero].
  { by rewrite decide_False by lia. }
  rewrite IH, lookup_insert. unfold PTRSZ.
  destruct (decide (b + 8 <= a < b + 8 + 8 * Z.of_nat n /\ (a - (b + 8)) mod 8 = 0)) as [[? ?]|Hn];
    destruct (decide (b <= a < b + 8 * Z.of_nat (S n) /\ (a - b) mod 8 = 0)) as [[? ?]|Hn'];
    destruct (decide (b = a)); try done; exfalso; first [apply Hn'; split; dlia|apply Hn; split; dlia].
Qed.

(** The loop links every object but the first to its predecessor. *)
Lemma fl_loop_general (lpw : Z) (m1 : mem) :
  0 < lpw -> PTRSZ * lpw <= HBLKSIZE ->
  exists m', loop (fl_body (h + HBLKSIZE - lpw * PTRSZ) lpw) (h + PTRSZ * lpw, h, m1)
             = Some (h + 8 * lpw * (HBLKSIZE / (8 * lpw) - 1), m') /\
    forall a, m' !! a =
      if decide (h < a /\ (a - h) mod (8 * lpw) = 0 /\ a + 8 * lpw <= h + HBLKSIZE)
      then Some (a - 8 * lpw) else m1 !! a.
Proof.
  unfold PTRSZ. intros Hl Hle. set (sz := 8 * lpw) in *.
  destruct (loop_spec
    (fun s => exists j, 1 <= j /\ s.1.1 = h + sz * j /\ s.1.2 = h + sz * (j - 1) /\ sz * j <= HBLKSIZE /\
       forall a, s.2 !! a = if decide (h < a < s.1.1 /\ (a - h) mod sz = 0) then Some (a - sz) else m1 !! a)
    (fun r => exists j, 1 <= j /\ r.1 = h + sz * (j - 1) /\ sz * j <= HBLKSIZE < sz * (j + 1) /\
       forall a, r.2 !! a = if decide (h < a < h + sz * j /\ (a - h) mod sz = 0) then Some (a - sz) else m1 !! a)
    (fun s => Z.max 0 (h + HBLKSIZE + 1 - s.1.1))
    (fl_body (h + HBLKSIZE - lpw * 8) lpw) (h + sz, h, m1)) as ([r m'] & E & j & Hj & Hr & Hjm & Hm').
  - intros [[p prev] m2] (j & Hj & Hp & Hpr & Hjm & Hm). cbn [fst snd] in *. unfold fl_body, PTRSZ.
    change HBLKSIZE with 4096 in *. destruct (Z.leb_spec p (h + 4096 - lpw * 8)).
    + cbn [fst snd]. split; [|subst sz; lia]. exists (j + 1). split_and!; [lia|subst sz; lia|subst sz; lia|subst sz; lia|].
      intros a. unfold st, PTRSZ. rewrite lookup_insert, Hm, Hpr. replace (p + 8 * 0) with p by lia.
      destruct (decide (p = a)) as [<-|Hne].
      * rewrite decide_True; [f_equal; subst sz; lia|]. split; [subst sz; nia|].
        rewrite Hp. replace (h + sz * j - h) with (j * sz) by lia. apply Z_mod_mult.
      * destruct (decide (h < a < p /\ (a - h) mod sz = 0)) as [[? ?]|Hn];
          destruct (decide (h < a < p + 8 * lpw /\ (a - h) mod sz = 0)) as [[? Hd]|Hn']; try done; exfalso.
        { apply Hn'. split; [lia|done]. }
        apply Hn. split; [|done]. apply Z.mod_divide in Hd as [q Hq]; [|subst sz; lia].
        assert (q < j + 1) by (subst sz; nia). assert (q <> j) by (intros ->; apply Hne; subst sz; lia).
        assert (sz * q <= sz * (j - 1)) by (apply Z.mul_le_mono_nonneg_l; subst sz; lia). lia.
    + exists j. cbn [fst snd]. split_and!; [lia|subst sz; lia|lia|subst sz; lia|]. intros a. rewrite Hm, Hp. done.
  - exists 1. cbn [fst snd]. split_and!; [lia|lia|lia|lia|]. intros a. rewrite decide_False; [done|].
    intros [? Hd]. rewrite Z.mod_small in Hd by lia. lia.
  - cbn [fst]. change HBLKSIZE with 4096 in *. assert (5000 < W64) by done. subst sz. lia.
  - cbn [fst snd] in *. exists m'. assert (Eq : HBLKSIZE / sz = j).
    { symmetry. apply (Z.div_unique_pos _ _ _ (HBLKSIZE - sz * j)); lia. }
    rewrite Eq. split; [by rewrite E, Hr|]. intros a. rewrite Hm'.
    assert (Hiff : (h < a < h + sz * j /\ (a - h) mod sz = 0) <->
      (h < a /\ (a - h) mod sz = 0 /\ a + sz <= h + HBLKSIZE)).
    { split.
      - intros [? Hd]. split_and!; [lia|done|]. apply Z.mod_divide in Hd as [q Hq]; [|subst sz; lia].
        assert (q < j) by nia. assert (q * sz <= (j - 1) * sz) by (apply Z.mul_le_mono_nonneg_r; subst sz; lia). lia.
      - intros (? & Hd & ?). split; [|done]. apply Z.mod_divide in Hd as [q Hq]; [|subst sz; lia].
        assert (q < j) by nia. assert (q * sz <= (j - 1) * sz) by (apply Z.mul_le_mono_nonneg_r; subst sz; lia).
        subst sz. lia. }
    by destruct (decide (h < a < h + sz * j /\ _)), (decide (h < a /\ _ /\ _)); try tauto.
Qed.

Lemma GC_build_fl_general (lg : Z) (clear : bool) :
  2 < lg <= MAXOBJGRANULES ->
  exists m', GC_build_fl h list lg clear m = Some (h + GRANULES_TO_BYTES lg * (Z.of_nat (n_objs (GRANULES_TO_BYTES lg)) - 1), m')
    /\ built h (GRANULES_TO_BYTES lg) list clear m m'.
Proof.
  intros Hlg. change MAXOBJGRANULES with 128 in Hlg. unfold GC_build_fl.
  rewrite (proj2 (Z.eqb_neq _ 2)), (proj2 (Z.eqb_neq _ 4)) by (unfold GRANULES_TO_PTRS; lia).
  assert (Esz : 8 * GRANULES_TO_PTRS lg = GRANULES_TO_BYTES lg)
    by (unfold GRANULES_TO_PTRS, GRANULES_TO_BYTES, GC_GRANULE_BYTES; lia).
  destruct (fl_loop_general (GRANULES_TO_PTRS lg) (if clear then bzero (Z.to_nat (HBLKSIZE / PTRSZ)) h m else m))
    as (m' & E & Hm'); [unfold GRANULES_TO_PTRS; lia|unfold PTRSZ, GRANULES_TO_PTRS; change HBLKSIZE with 4096; lia|].
  rewrite E. cbn [mbind option_bind]. rewrite Esz in *. unfold n_objs.
  rewrite Z2Nat.id by (apply Z.div_pos; unfold GRANULES_TO_BYTES, GC_GRANULE_BYTES; change HBLKSIZE with 4096; lia).
  eexists. split; [done|]. intros a. unfold st, PTRSZ. replace (h + 8 * 0) with h by lia.
  assert (Hsz : 48 <= GRANULES_TO_BYTES lg <= 2048) by (unfold GRANULES_TO_BYTES, GC_GRANULE_BYTES; lia).
  change HBLKSIZE with 4096 in *. rewrite lookup_insert. destruct (decide (h = a)) as [<-|Hne].
  { rewrite decide_True by lia. rewrite Z.sub_diag, Z.mod_0_l, decide_True by lia. by rewrite Z.eqb_refl. }
  rewrite Hm'. rewrite (proj2 (Z.eqb_neq a h)) by done.
  destruct (decide (h <= a < h + 4096)) as [Hin|Hout].
  - destruct (decide (h < a /\ _)) as [(? & ? & ?)|Hn]; destruct (decide ((a - h) mod _ = 0 /\ _)) as [[? ?]|Hn'];
      [done|tauto|exfalso; apply Hn; split_and!; [lia|done|done]|].
    destruct clear; cbn [andb]; [|done]. rewrite bzero_lookup. change (Z.of_nat (Z.to_nat (4096 / PTRSZ))) with 512.
    destruct (Z.eqb_spec ((a - h) mod 8) 0); [by rewrite decide_True by (split; [lia|done])|by rewrite decide_False by tauto].
  - rewrite decide_False by lia. destruct clear; [|done]. rewrite bzero_lookup.
    change (Z.of_nat (Z.to_nat (4096 / PTRSZ))) with 512. by rewrite decide_False by (intros [? ?]; lia).
Qed.

(** All the routines compute the same. *)
Lemma GC_build_fl_built (lg : Z) (clear : bool) :
  1 <= lg <= MAXOBJGRANULES ->
  exists m', GC_build_fl h list lg clear m = Some (h + GRANULES_TO_BYTES lg * (Z.of_nat (n_objs (GRANULES_TO_BYTES lg)) - 1), m')
    /\ built h (GRANULES_TO_BYTES lg) list clear m m'.
Proof.
  intros Hlg. destruct (decide (lg = 1)) as [->|]; [|destruct (decide (lg = 2)) as [->|]].
  - replace (h + GRANULES_TO_BYTES 1 * (Z.of_nat (n_objs (GRANULES_TO_BYTES 1)) - 1)) with (h + HBLKSIZE - 16)
      by (change (h + HBLKSIZE - 16) with (h + 4096 - 16);
          change (GRANULES_TO_BYTES 1 * (Z.of_nat (n_objs (GRANULES_TO_BYTES 1)) - 1)) with 4080; lia).
    destruct clear; [apply GC_build_fl_clear2_ok|apply GC_build_fl2_ok].
  - replace (h + GRANULES_TO_BYTES 2 * (Z.of_nat (n_objs (GRANULES_TO_BYTES 2)) - 1)) with (h + HBLKSIZE - 32)
      by (change (h + HBLKSIZE - 32) with (h + 4096 - 32);
          change (GRANULES_TO_BYTES 2 * (Z.of_nat (n_objs (GRANULES_TO_BYTES 2)) - 1)) with 4064; lia).
    destruct clear; [apply GC_build_fl_clear4_ok|apply GC_build_fl4_ok].
  - apply GC_build_fl_general. lia.
Qed.
End Build.

Lemma n_objs_bounds (lg : Z) :
  1 <= lg <= MAXOBJGRANULES ->
  (0 < n_objs (GRANULES_TO_BYTES lg))%nat /\
  GRANULES_TO_BYTES lg * Z.of_nat (n_objs (GRANULES_TO_BYTES lg)) <= HBLKSIZE < GRANULES_TO_BYTES lg * (Z.of_nat (n_objs (GRANULES_TO_BYTES lg)) + 1).
Proof.
  change MAXOBJGRANULES with 128. unfold n_objs, GRANULES_TO_BYTES, GC_GRANULE_BYTES. change HBLKSIZE with 4096.
  intros Hlg. pose proof (Z.div_mod 4096 (lg * 16)). pose proof (Z.mod_pos_bound 4096 (lg * 16)).
  assert (0 < 4096 / (lg * 16)) by (apply Z.div_str_pos; lia). lia.
Qed.

Lemma build_fl_spec (h list lg : Z) (clear : bool) (m : mem)
    (Hal : h mod HBLKSIZE = 0) (Hh : 0 <= h) (Hlg : 1 <= lg <= MAXOBJGRANULES) :
  let sz := GRANULES_TO_BYTES lg in
  exists head m', GC_build_fl h list lg clear m = Some (head, m')
    /\ fl_seg m' head (reverse (objects h sz (n_objs sz))) list
    /\ (forall a, h <= a < h + HBLKSIZE -> (a - h) mod PTRSZ = 0 -> a ∉ objects h sz (n_objs sz) ->
          m' !! a = if clear then Some 0 else m !! a)
    /\ (forall a, ~ h <= a < h + HBLKSIZE -> m' !! a = m !! a).
Proof.
  cbn zeta. destruct (n_objs_bounds lg Hlg) as (Hn & Hle & Hlt).
  destruct (GC_build_fl_built h list m Hal Hh lg clear Hlg) as (m' & E & Hb). eexists _, m'.
  assert (0 < GRANULES_TO_BYTES lg) by (unfold GRANULES_TO_BYTES, GC_GRANULE_BYTES; lia).
  split_and!; [done|by eapply built_fl_seg| |]; intros a Ha; rewrite (Hb a).
  - intros H8 Hno. rewrite decide_True, decide_False; [| |done].
    + rewrite (proj2 (Z.eqb_eq _ 0)) by done. by destruct clear.
    + intros [Hd ?]. apply Hno, elem_of_objects. apply Z.mod_divide in Hd as [q Hq]; [|lia].
      exists q. nia.
  - by rewrite decide_False.
Qed.

(** C16: [GC_build_fl], with its four routines for two- and four-pointer objects,
    returns for every small object size.  Its result heads a list of exactly the
    objects that fit in the block, last to first, that goes on with [list]; the
    other words of the block are zero if clearing was asked for and otherwise as
    they were, and nothing outside the block is written. *)
Theorem GC_build_fl_correct (h list lg : Z) (clear : bool) (m : mem)
    (Hal : h mod HBLKSIZE = 0) (Hh : 0 <= h) (Hlg : 1 <= lg <= MAXOBJGRANULES) :
  let sz := GRANULES_TO_BYTES lg in
  exists head m', GC_build_fl h list lg clear m = Some (head, m')
    /\ fl_seg m' head (reverse (objects h sz (n_objs sz))) list
    /\ (forall a, h <= a < h + HBLKSIZE -> (a - h) mod PTRSZ = 0 -> a ∉ objects h sz (n_objs sz) ->
          m' !! a = if clear then Some 0 else m !! a)
    /\ (forall a, ~ h <= a < h + HBLKSIZE -> m' !! a = m !! a).
Proof. by apply build_fl_spec. Qed.

Lemma GC_build_fl_correct_witness :
  exists head m', GC_build_fl 8192 77 3 true (<[8200 := 5]> ∅) = Some (head, m')
    /\ fl_seg m' head (reverse (objects 8192 48 85)) 77.
Proof.
  destruct (GC_build_fl_correct 8192 77 3 true (<[8200 := 5]> ∅)) as (head & m' & E & Hs & _);
    [reflexivity|lia|by vm_compute|]. exists head, m'. by split.
Defined.
End NewHblk.
