(* ===== verification/Sweep.v ===== *)
(** * Sweeping one block of small objects (reclaim.c)

    The objects of a block whose mark bit is clear are put on the free list of
    their kind and size, cleared first unless they hold no pointers.  A kind may
    have a disclaim procedure, client code that is asked about every unmarked
    object and may keep it for one more cycle; it is a parameter here.  The counter
    [count] is the word that [pcount] points to. *)

From Stdlib Require Import ZArith Lia.
From stdpp Require Import base gmap list.
From S2P Require Import Prelude Hblk MarkBits NewHblk.

Module Sweep.
Import MarkBits NewHblk.

Definition clear_block_body (plim : Z) (s : Z * mem) : (Z * mem) + (Z * mem) :=
  let '(p, m) := s in if p <? plim then inl (p + PTRSZ, <[p := 0]> m) else inr (p, m).

Definition GC_clear_block (q sz count : Z) (m : mem) : option (Z * Z * mem) :=
  '(p, m) ← loop (clear_block_body (q + sz)) (q + PTRSZ, m);
  Some (p, wrap64 (count + sz), m).

(** The sweep loops carry the object [p], its bit, the list, the counter and
    memory; the disclaim loop also the header. *)
Definition reclaim_clear_body (hhdr : hdr) (sz plim : Z) (s : Z * Z * Z * Z * mem)
    : (Z * Z * Z * Z * mem) + option (Z * Z * mem) :=
  let '(bit_no, p, list, count, m) := s in
  if p <=? plim then
    if mark_bit_from_hdr hhdr bit_no then inl (bit_no + MARK_BIT_OFFSET sz, p + sz, list, count, m)
    else match GC_clear_block p sz count (<[p := list]> m) with
         | Some (p', count, m) => inl (bit_no + MARK_BIT_OFFSET sz, p', p, count, m)
         | None => inr None
         end
  else inr (Some (list, count, m)).

Definition GC_reclaim_clear (hbp : Z) (hhdr : hdr) (sz list count : Z) (m : mem) : option (Z * Z * mem) :=
  mjoin (loop (reclaim_clear_body hhdr sz (hbp + HBLKSIZE - sz)) (0, hbp, list, count, m)).

Definition reclaim_uninit_body (hhdr : hdr) (sz plim : Z) (s : Z * Z * Z * Z * mem)
    : (Z * Z * Z * Z * mem) + (Z * Z * mem) :=
  let '(bit_no, p, list, n_bytes_found, m) := s in
  if p <=? plim then
    if negb (mark_bit_from_hdr hhdr bit_no) then
      inl (bit_no + MARK_BIT_OFFSET sz, p + sz, p, wrap64 (n_bytes_found + sz), <[p := list]> m)
    else inl (bit_no + MARK_BIT_OFFSET sz, p + sz, list, n_bytes_found, m)
  else inr (list, n_bytes_found, m).

Definition GC_reclaim_uninit (hbp : Z) (hhdr : hdr) (sz list count : Z) (m : mem) : option (Z * Z * mem) :=
  '(list, n_bytes_found, m) ← loop (reclaim_uninit_body hhdr sz (hbp + HBLKSIZE - sz)) (0, hbp, list, 0, m);
  Some (list, wrap64 (count + n_bytes_found), m).

Section Disclaim.
(** The disclaim procedure of the kind: told an object, it answers whether to
    keep it, and may write to memory. *)
Variable disclaim : Z -> mem -> bool * mem.

Definition disclaim_body (sz plim : Z) (s : Z * Z * hdr * Z * Z * mem)
    : (Z * Z * hdr * Z * Z * mem) + option (Z * hdr * Z * mem) :=
  let '(bit_no, p, hhdr, list, count, m) := s in
  if p <=? plim then
    if mark_bit_from_hdr hhdr bit_no then inl (bit_no + MARK_BIT_OFFSET sz, p + sz, hhdr, list, count, m)
    else
      let '(keep, m) := disclaim p m in
      if keep then
        let hhdr := set_mark_bit_from_hdr bit_no hhdr in
        let hhdr := set_hb_marks (hb_n_marks hhdr + 1) (hb_marks hhdr) hhdr in
        inl (bit_no + MARK_BIT_OFFSET sz, p + sz, hhdr, list, count, m)
      else match GC_clear_block p sz count (<[p := list]> m) with
           | Some (p', count, m) => inl (bit_no + MARK_BIT_OFFSET sz, p', hhdr, p, count, m)
           | None => inr None
           end
  else inr (Some (list, hhdr, count, m)).

Definition GC_disclaim_and_reclaim (hbp : Z) (hhdr : hdr) (sz list count : Z) (m : mem)
    : option (Z * hdr * Z * mem) :=
  mjoin (loop (disclaim_body sz (hbp + HBLKSIZE - sz)) (0, hbp, hhdr, list, count, m)).

(** [debugging] is [GC_debugging_started]. *)
Definition GC_reclaim_generic (debugging : bool) (hbp : Z) (hhdr : hdr) (sz : Z) (init : bool) (list count : Z) (m : mem)
    : option (Z * hdr * Z * mem) :=
  '(result, hhdr, count, m) ←
    (if flag_set (hb_flags hhdr) HAS_DISCLAIM then GC_disclaim_and_reclaim hbp hhdr sz list count m
     else if init || debugging then
       '(result, count, m) ← GC_reclaim_clear hbp hhdr sz list count m; Some (result, hhdr, count, m)
     else '(result, count, m) ← GC_reclaim_uninit hbp hhdr sz list count m; Some (result, hhdr, count, m));
  let hhdr := if IS_UNCOLLECTABLE (hb_obj_kind hhdr) then GC_set_hdr_marks hhdr else hhdr in
  Some (result, hhdr, count, m).

End Disclaim.

Definition GC_block_empty (hhdr : hdr) : bool := hb_n_marks hhdr =? 0.
Definition GC_block_nearly_full (hhdr : hdr) (sz : Z) : bool := HBLK_OBJS sz * 7 / 8 <? hb_n_marks hhdr.

(** ** What a sweep leaves behind *)

(** The object at [o] in block [h] is marked. *)
Definition obj_marked (hhdr : hdr) (h o : Z) : bool := mark_bit_from_hdr hhdr (BYTES_TO_GRANULES (o - h)).

(** The unmarked ones among the first [n] objects. *)
Definition unmarked (hhdr : hdr) (h sz : Z) (n : nat) : list Z :=
  filter (fun o => obj_marked hhdr h o = false) (objects h sz n).

(** [m'] is [m] with the objects [fs] put in front of [list], last first, and
    cleared if [clear]. *)
Record swept (clear : bool) (sz : Z) (m : mem) (fs : list Z) (list head : Z) (m' : mem) : Prop := {
  sw_list : fl_seg m' head (reverse fs) list;
  sw_body : forall o a, o ∈ fs -> o < a < o + sz -> (a - o) mod PTRSZ = 0 ->
    m' !! a = if clear then Some 0 else m !! a;
  sw_frame : forall a, (forall o, o ∈ fs -> ~ o <= a < o + sz) -> m' !! a = m !! a
}.

Lemma swept_nil (clear : bool) (sz : Z) (m : mem) (list : Z) : swept clear sz m [] list list m.
Proof. split; [done| |done]. intros o a Ho. by apply elem_of_nil in Ho. Qed.

Lemma reverse_snoc_cons {A : Type} (l : list A) (x : A) : reverse (l ++ [x]) = x :: reverse l.
Proof. by rewrite reverse_app. Qed.

(** One more object, above the others. *)
Lemma swept_snoc (clear : bool) (sz : Z) (m m1 m2 : mem) (fs : list Z) (list l o : Z) :
  0 < sz -> swept clear sz m fs list l m1 -> (forall x, x ∈ fs -> x + sz <= o) ->
  m2 !! o = Some l ->
  (forall a, o < a < o + sz -> (a - o) mod PTRSZ = 0 -> m2 !! a = if clear then Some 0 else m1 !! a) ->
  (forall a, ~ o <= a < o + sz -> m2 !! a = m1 !! a) ->
  swept clear sz m (fs ++ [o]) list o m2.
Proof.
  intros Hsz [HL HB HF] Hlow Ho Hbody Hout. split.
  - rewrite reverse_snoc_cons. cbn [fl_seg]. split; [done|]. exists l. split; [done|].
    eapply fl_seg_frame; [|exact HL]. intros x Hx. rewrite elem_of_reverse in Hx. apply Hout. specialize (Hlow x Hx). lia.
  - intros x a [Hx|Hx]%elem_of_app Ha H8.
    + rewrite Hout; [by apply (HB x)|]. specialize (Hlow x Hx). lia.
    + apply list_elem_of_singleton in Hx as ->. rewrite Hbody by done. destruct clear; [done|].
      apply HF. intros x Hx. specialize (Hlow x Hx). lia.
  - intros a Ha. rewrite Hout; [apply HF|].
    + intros x Hx. apply Ha, elem_of_app. by left.
    + apply Ha, elem_of_app. right. by apply list_elem_of_singleton.
Qed.

Lemma unmarked_S (hhdr : hdr) (h sz : Z) (n : nat) :
  unmarked hhdr h sz (S n)
  = unmarked hhdr h sz n ++ (if obj_marked hhdr h (h + sz * Z.of_nat n) then [] else [h + sz * Z.of_nat n]).
Proof.
  unfold unmarked. rewrite objects_S, filter_app, filter_cons, filter_nil. f_equal.
  destruct (obj_marked hhdr h (h + sz * Z.of_nat n)) eqn:E; [by rewrite decide_False by congruence|by rewrite decide_True by done].
Qed.

Lemma unmarked_below (hhdr : hdr) (h sz : Z) (n : nat) (x : Z) :
  0 < sz -> x ∈ unmarked hhdr h sz n -> x + sz <= h + sz * Z.of_nat n.
Proof. intros Hsz [_ (k & Hk & ->)%elem_of_objects]%list_elem_of_filter. nia. Qed.

Lemma unmarked_ext (x y : hdr) (h sz : Z) (n : nat) :
  (forall k, 0 <= k < Z.of_nat n -> obj_marked x h (h + sz * k) = obj_marked y h (h + sz * k)) ->
  unmarked x h sz n = unmarked y h sz n.
Proof.
  intros Heq. induction n as [|n IH]; [done|]. rewrite !unmarked_S, IH by (intros; apply Heq; lia).
  by rewrite Heq by lia.
Qed.

(** ** One object *)

Lemma clear_block_spec (q sz count : Z) (m : mem) :
  8 <= sz < W64 -> sz mod 8 = 0 ->
  exists m', GC_clear_block q sz count m = Some (q + sz, wrap64 (count + sz), m')
    /\ (forall a, q < a < q + sz -> (a - q) mod PTRSZ = 0 -> m' !! a = Some 0)
    /\ (forall a, ~ q < a < q + sz -> m' !! a = m !! a).
Proof.
  intros Hsz H8. unfold GC_clear_block, PTRSZ.
  destruct (loop_spec
    (fun s => q < s.1 <= q + sz /\ (s.1 - q) mod 8 = 0
       /\ (forall a, q < a < s.1 -> (a - q) mod 8 = 0 -> s.2 !! a = Some 0)
       /\ (forall a, ~ q < a < s.1 -> s.2 !! a = m !! a))
    (fun r => r.1 = q + sz
       /\ (forall a, q < a < q + sz -> (a - q) mod 8 = 0 -> r.2 !! a = Some 0)
       /\ (forall a, ~ q < a < q + sz -> r.2 !! a = m !! a))
    (fun s => q + sz - s.1) (clear_block_body (q + sz)) (q + 8, m)) as ([p m'] & E & Hp & H1 & H2).
  - intros [p m1] (Hp & Hm & Hin & Hout). cbn [fst snd] in *. unfold clear_block_body, PTRSZ.
    destruct (Z.ltb_spec p (q + sz)); cbn [fst snd].
    + split; [|dlia]. split_and!; [dlia|dlia|dlia| |].
      * intros a Ha Ha8. rewrite lookup_insert. destruct (decide (p = a)); [done|]. apply Hin; [|done]. dlia.
      * intros a Ha. rewrite lookup_insert_ne by dlia. apply Hout. dlia.
    + assert (p = q + sz) as -> by lia. done.
  - cbn [fst snd]. split_and!; [lia|lia|dlia|intros; dlia|done].
  - cbn [fst]. lia.
  - cbn [fst snd] in *. rewrite E. cbn [mbind option_bind]. subst p. by exists m'.
Qed.

(** Putting an object on the list and clearing it. *)
Lemma swept_clear_block (sz count : Z) (m m1 : mem) (fs : list Z) (list l o : Z) :
  16 <= sz < W64 -> sz mod 16 = 0 -> swept true sz m fs list l m1 -> (forall x, x ∈ fs -> x + sz <= o) ->
  exists m2, GC_clear_block o sz count (<[o := l]> m1) = Some (o + sz, wrap64 (count + sz), m2)
    /\ swept true sz m (fs ++ [o]) list o m2 /\ (forall a, ~ o <= a < o + sz -> m2 !! a = m1 !! a).
Proof.
  intros Hsz H16 Hs Hlow. destruct (clear_block_spec o sz count (<[o := l]> m1)) as (m2 & E & Hin & Hout); [lia|dlia|].
  exists m2. split; [done|]. assert (forall a, ~ o <= a < o + sz -> m2 !! a = m1 !! a) as Hfr.
  { intros a Ha. rewrite Hout by lia. by rewrite lookup_insert_ne by lia. }
  split; [|done]. eapply swept_snoc; try done; [lia|]. rewrite Hout by lia. by rewrite lookup_insert_eq.
Qed.

(** Two sweeps one after the other. *)
Lemma fl_seg_app (m : mem) (head : Z) (l1 l2 : list Z) (mid tail : Z) :
  fl_seg m head l1 mid -> fl_seg m mid l2 tail -> fl_seg m head (l1 ++ l2) tail.
Proof.
  revert head. induction l1 as [|o l1 IH]; intros head; cbn [app fl_seg]; [by intros ->|].
  intros [-> (next & Hn & Hs)] H2. split; [done|]. exists next. split; [done|]. by apply IH.
Qed.

(** ** The sweep of a block *)

Section Block.
Context (h sz : Z) (Hsz : 16 <= sz <= HBLKSIZE) (H16 : sz mod 16 = 0).

Lemma last_object (k : nat) :
  (h + sz * Z.of_nat k <=? h + HBLKSIZE - sz) = bool_decide (k < n_objs sz)%nat.
Proof.
  change HBLKSIZE with 4096 in *. unfold n_objs. change HBLKSIZE with 4096.
  pose proof (Z.div_mod 4096 sz). pose proof (Z.mod_pos_bound 4096 sz).
  apply eq_true_iff_eq. rewrite Z.leb_le, bool_decide_eq_true. nia.
Qed.

Lemma bit_of_object (x : hdr) (k : nat) :
  mark_bit_from_hdr x (Z.of_nat k * MARK_BIT_OFFSET sz) = obj_marked x h (h + sz * Z.of_nat k).
Proof.
  unfold obj_marked, MARK_BIT_OFFSET, BYTES_TO_GRANULES, GC_GRANULE_BYTES. f_equal.
  replace (h + sz * Z.of_nat k - h) with (Z.of_nat k * sz) by lia. symmetry. apply Z.divide_div_mul_exact; [lia|].
  by apply Z.mod_divide.
Qed.

Lemma next_bit (k : nat) : Z.of_nat k * MARK_BIT_OFFSET sz + MARK_BIT_OFFSET sz = Z.of_nat (S k) * MARK_BIT_OFFSET sz.
Proof. lia. Qed.

Lemma next_object (k : nat) : h + sz * Z.of_nat k + sz = h + sz * Z.of_nat (S k).
Proof. lia. Qed.

Lemma count_add (c : Z) (x : hdr) (k : nat) :
  wrap64 (wrap64 (c + sz * Z.of_nat (length (unmarked x h sz k))) + sz)
  = wrap64 (c + sz * Z.of_nat (length (unmarked x h sz k ++ [h + sz * Z.of_nat k]))).
Proof.
  unfold wrap64. rewrite length_app. cbn [length]. rewrite Zplus_mod_idemp_l. f_equal. lia.
Qed.

Lemma n_objs_W64 : Z.of_nat (n_objs sz) < W64.
Proof.
  change HBLKSIZE with 4096 in *. unfold n_objs. change HBLKSIZE with 4096. unfold W64.
  assert (4096 / sz <= 4096) by (apply Z.div_le_upper_bound; lia). lia.
Qed.

Lemma sz_W64 : 16 <= sz < W64.
Proof. change HBLKSIZE with 4096 in Hsz. unfold W64. lia. Qed.

Lemma count_start (c : Z) (x : hdr) : 0 <= c < W64 -> wrap64 (c + sz * Z.of_nat (length (unmarked x h sz 0))) = c.
Proof. intros. cbn. rewrite Z.mul_0_r, Z.add_0_r. unfold wrap64. by apply Z.mod_small. Qed.

(** The state of a sweep after [k] objects. *)
Definition sweep_inv (clear : bool) (hhdr : hdr) (list count : Z) (m : mem) (k : nat) (s : Z * Z * Z * Z * mem) : Prop :=
  exists l m1, s = (Z.of_nat k * MARK_BIT_OFFSET sz, h + sz * Z.of_nat k, l,
                    wrap64 (count + sz * Z.of_nat (length (unmarked hhdr h sz k))), m1)
    /\ swept clear sz m (unmarked hhdr h sz k) list l m1.

Lemma sweep_inv_start (clear : bool) (hhdr : hdr) (list count : Z) (m : mem) :
  0 <= count < W64 -> sweep_inv clear hhdr list count m 0 (0, h, list, count, m).
Proof.
  intros. exists list, m. rewrite count_start by done. split; [|apply swept_nil].
  cbn [Z.of_nat]. by rewrite Z.mul_0_l, Z.mul_0_r, Z.add_0_r.
Qed.

(** A marked object is skipped, an unmarked one comes on the list. *)
Lemma sweep_inv_next (clear : bool) (hhdr : hdr) (list count : Z) (m : mem) (k : nat) (l p' l' c' : Z) (m1 m2 : mem) :
  swept clear sz m (unmarked hhdr h sz k) list l m1 -> p' = h + sz * Z.of_nat k + sz ->
  (if obj_marked hhdr h (h + sz * Z.of_nat k)
   then l' = l /\ m2 = m1 /\ c' = wrap64 (count + sz * Z.of_nat (length (unmarked hhdr h sz k)))
   else c' = wrap64 (wrap64 (count + sz * Z.of_nat (length (unmarked hhdr h sz k))) + sz)
        /\ swept clear sz m (unmarked hhdr h sz k ++ [h + sz * Z.of_nat k]) list l' m2) ->
  sweep_inv clear hhdr list count m (S k) (Z.of_nat k * MARK_BIT_OFFSET sz + MARK_BIT_OFFSET sz, p', l', c', m2).
Proof.
  intros Hs -> Hc. exists l', m2. rewrite next_bit, next_object, unmarked_S.
  destruct (obj_marked hhdr h (h + sz * Z.of_nat k)).
  - destruct Hc as (-> & -> & ->). by rewrite app_nil_r.
  - destruct Hc as (-> & Hs'). by rewrite count_add.
Qed.

Lemma reclaim_clear_spec (hhdr : hdr) (list count : Z) (m : mem) :
  0 <= count < W64 ->
  exists list' m', GC_reclaim_clear h hhdr sz list count m
      = Some (list', wrap64 (count + sz * Z.of_nat (length (unmarked hhdr h sz (n_objs sz)))), m')
    /\ swept true sz m (unmarked hhdr h sz (n_objs sz)) list list' m'.
Proof.
  intros Hc. unfold GC_reclaim_clear.
  destruct (loop_count (sweep_inv true hhdr list count m)
    (fun r => exists l m', r = Some (l, wrap64 (count + sz * Z.of_nat (length (unmarked hhdr h sz (n_objs sz)))), m')
       /\ swept true sz m (unmarked hhdr h sz (n_objs sz)) list l m')
    (reclaim_clear_body hhdr sz (h + HBLKSIZE - sz)) (n_objs sz) (0, h, list, count, m))
    as (r & -> & l & m' & -> & Hs); [apply n_objs_W64| | |by apply sweep_inv_start|by exists l, m'].
  - intros k s Hk (l & m1 & -> & Hs). unfold reclaim_clear_body. rewrite last_object, bool_decide_true by done.
    rewrite bit_of_object. destruct (obj_marked hhdr h (h + sz * Z.of_nat k)) eqn:Em.
    + eexists. split; [done|]. eapply sweep_inv_next; [done|done|]. by rewrite Em.
    + destruct (swept_clear_block sz (wrap64 (count + sz * Z.of_nat (length (unmarked hhdr h sz k)))) m m1
        (unmarked hhdr h sz k) list l (h + sz * Z.of_nat k)) as (m2 & -> & Hs2 & _); [apply sz_W64|done|done| |].
      { intros x. apply unmarked_below. pose proof sz_W64. lia. }
      eexists. split; [done|]. eapply sweep_inv_next; [done|done|]. by rewrite Em.
  - intros s (l & m1 & -> & Hs). unfold reclaim_clear_body. rewrite last_object, bool_decide_false by lia.
    eexists. split; [done|]. by exists l, m1.
Qed.

Lemma reclaim_uninit_spec (hhdr : hdr) (list count : Z) (m : mem) :
  exists list' m', GC_reclaim_uninit h hhdr sz list count m
      = Some (list', wrap64 (count + sz * Z.of_nat (length (unmarked hhdr h sz (n_objs sz)))), m')
    /\ swept false sz m (unmarked hhdr h sz (n_objs sz)) list list' m'.
Proof.
  unfold GC_reclaim_uninit.
  destruct (loop_count (sweep_inv false hhdr list 0 m)
    (fun r => exists l m', r = (l, wrap64 (0 + sz * Z.of_nat (length (unmarked hhdr h sz (n_objs sz)))), m')
       /\ swept false sz m (unmarked hhdr h sz (n_objs sz)) list l m')
    (reclaim_uninit_body hhdr sz (h + HBLKSIZE - sz)) (n_objs sz) (0, h, list, 0, m))
    as (r & -> & l & m' & -> & Hs); [apply n_objs_W64| | |by apply sweep_inv_start|].
  - intros k s Hk (l & m1 & -> & Hs). unfold reclaim_uninit_body. rewrite last_object, bool_decide_true by done.
    rewrite bit_of_object. destruct (obj_marked hhdr h (h + sz * Z.of_nat k)) eqn:Em; cbn [negb].
    + eexists. split; [done|]. eapply sweep_inv_next; [done|done|]. by rewrite Em.
    + eexists. split; [done|]. eapply sweep_inv_next; [done|done|]. rewrite Em. split; [done|].
      pose proof sz_W64. eapply swept_snoc; [lia|done| | | |].
      * intros x. apply unmarked_below. lia.
      * apply lookup_insert_eq.
      * intros a Ha _. by rewrite lookup_insert_ne by lia.
      * intros a Ha. by rewrite lookup_insert_ne by lia.
  - intros s (l & m1 & -> & Hs). unfold reclaim_uninit_body. rewrite last_object, bool_decide_false by lia.
    eexists. split; [done|]. by exists l, m1.
  - cbn [mbind option_bind]. exists l, m'. split; [|done]. unfold wrap64. by rewrite Zplus_mod_idemp_r.
Qed.

(** ** With a disclaim procedure *)

Section Disclaimed.
Variable disclaim : Z -> mem -> bool * mem.
Context (hhdr : hdr).

(** What [disclaim] is asked to keep its hands off: the other unmarked objects of
    the block, which may be on the free list already. *)
Hypothesis disclaim_local : forall p q m1 a,
  p ∈ unmarked hhdr h sz (n_objs sz) -> q ∈ unmarked hhdr h sz (n_objs sz) -> q <> p ->
  q <= a < q + sz -> (disclaim p m1).2 !! a = m1 !! a.

(** The header after [k] objects: marks are only added, for objects that the
    procedure wanted to keep, and the count of marks follows. *)
Record dis_hdr (k : nat) (x : hdr) : Prop := {
  dh_body : x = set_hb_marks (hb_n_marks x) (hb_marks x) hhdr;
  dh_mono : forall b, mark_bit_from_hdr hhdr b = true -> mark_bit_from_hdr x b = true;
  dh_rest : forall j, (k <= j)%nat -> obj_marked x h (h + sz * Z.of_nat j) = obj_marked hhdr h (h + sz * Z.of_nat j);
  dh_asked : forall o, o ∈ unmarked hhdr h sz k -> exists m1, (disclaim o m1).1 = obj_marked x h o;
  dh_count : hb_n_marks x = hb_n_marks hhdr
             + (Z.of_nat (length (unmarked hhdr h sz k)) - Z.of_nat (length (unmarked x h sz k)))
}.

Lemma dis_hdr_start : dis_hdr 0 hhdr.
Proof.
  split; try done; [by destruct hhdr| |cbn; lia]. intros o Ho. by apply elem_of_nil in Ho.
Qed.

(** The next object keeps its mark bit. *)
Lemma dis_hdr_next (k : nat) (x : hdr) :
  dis_hdr k x ->
  (obj_marked hhdr h (h + sz * Z.of_nat k) = false -> exists m1, (disclaim (h + sz * Z.of_nat k) m1).1 = false) ->
  dis_hdr (S k) x.
Proof.
  intros [H1 H2 H3 H4 H5] Hd. split; [done|done|intros; apply H3; lia| |].
  - intros o. rewrite unmarked_S. intros [Ho|Ho]%elem_of_app; [by apply H4|].
    destruct (obj_marked hhdr h (h + sz * Z.of_nat k)) eqn:E; [by apply elem_of_nil in Ho|].
    apply list_elem_of_singleton in Ho as ->. rewrite H3, E by lia. by apply Hd.
  - rewrite !unmarked_S, (H3 k) by lia. destruct (obj_marked hhdr h (h + sz * Z.of_nat k));
      rewrite ?app_nil_r, ?length_app; cbn [length]; lia.
Qed.

Definition keep_obj (k : nat) (x : hdr) : hdr :=
  let x := set_mark_bit_from_hdr (Z.of_nat k * MARK_BIT_OFFSET sz) x in
  set_hb_marks (hb_n_marks x + 1) (hb_marks x) x.

Lemma keep_obj_marked (k j : nat) (x : hdr) :
  obj_marked (keep_obj k x) h (h + sz * Z.of_nat j)
  = bool_decide (k = j) || obj_marked x h (h + sz * Z.of_nat j).
Proof.
  rewrite <- !bit_of_object. unfold keep_obj. rewrite mark_bit_frame, mark_bit_set. f_equal.
  apply bool_decide_ext. unfold MARK_BIT_OFFSET, BYTES_TO_GRANULES, GC_GRANULE_BYTES.
  assert (0 < sz / 16) by (apply Z.div_str_pos; lia). split; [nia|by intros ->].
Qed.

Lemma keep_obj_unmarked (k : nat) (x : hdr) : unmarked (keep_obj k x) h sz (S k) = unmarked x h sz k.
Proof.
  rewrite unmarked_S, keep_obj_marked, bool_decide_true by done. cbn [orb]. rewrite app_nil_r.
  apply unmarked_ext. intros j Hj. rewrite <- (Z2Nat.id j) by lia.
  rewrite keep_obj_marked, bool_decide_false by lia. done.
Qed.

(** The next object is kept. *)
Lemma dis_hdr_keep (k : nat) (x : hdr) (m1 : mem) :
  dis_hdr k x -> obj_marked hhdr h (h + sz * Z.of_nat k) = false -> (disclaim (h + sz * Z.of_nat k) m1).1 = true ->
  dis_hdr (S k) (keep_obj k x).
Proof.
  intros [H1 H2 H3 H4 H5] Em Hd. split.
  - unfold keep_obj, set_mark_bit_from_hdr. rewrite H1. done.
  - intros b Hb. unfold keep_obj. rewrite mark_bit_frame, mark_bit_set, H2 by done. apply orb_true_r.
  - intros j Hj. rewrite keep_obj_marked, bool_decide_false by lia. apply H3. lia.
  - intros o. rewrite unmarked_S, Em. intros [Ho|Ho]%elem_of_app.
    + destruct (H4 o Ho) as (m2 & E2). exists m2. rewrite E2.
      apply list_elem_of_filter in Ho as [_ (j & Hj & ->)%elem_of_objects]. rewrite <- (Z2Nat.id j) by lia.
      rewrite keep_obj_marked, bool_decide_false by lia. done.
    + apply list_elem_of_singleton in Ho as ->. exists m1. rewrite keep_obj_marked, bool_decide_true by done. done.
  - rewrite keep_obj_unmarked, unmarked_S, Em, length_app. cbn. lia.
Qed.

Lemma swept_self (m m' : mem) (fs : list Z) (list l : Z) : swept true sz m fs list l m' -> swept true sz m' fs list l m'.
Proof. intros [HL HB HF]. split; [done| |done]. intros o a Ho Ha H8. by rewrite (HB o a). Qed.

(** Reclaimed objects survive writes elsewhere. *)
Lemma swept_touch (m1 m2 : mem) (fs : list Z) (list l : Z) :
  (forall o a, o ∈ fs -> o <= a < o + sz -> m2 !! a = m1 !! a) ->
  swept true sz m1 fs list l m1 -> swept true sz m2 fs list l m2.
Proof.
  intros Heq [HL HB HF]. split; [| |done].
  - eapply fl_seg_frame; [|exact HL]. intros o Ho. rewrite elem_of_reverse in Ho. apply (Heq o); [done|].
    pose proof sz_W64. lia.
  - intros o a Ho Ha H8. rewrite (Heq o) by (done || lia). by apply (HB o).
Qed.

Lemma unmarked_in (x : hdr) (j n : nat) :
  (j < n)%nat -> obj_marked x h (h + sz * Z.of_nat j) = false -> h + sz * Z.of_nat j ∈ unmarked x h sz n.
Proof. intros Hj Em. apply list_elem_of_filter. split; [done|]. apply elem_of_objects. exists (Z.of_nat j). split; [lia|done]. Qed.

Lemma unmarked_mono (x y : hdr) (j n : nat) :
  (j <= n)%nat -> (forall b, mark_bit_from_hdr x b = true -> mark_bit_from_hdr y b = true) ->
  forall o, o ∈ unmarked y h sz j -> o ∈ unmarked x h sz n.
Proof.
  intros Hj Hm o [Em (k & Hk & ->)%elem_of_objects]%list_elem_of_filter. apply list_elem_of_filter. split.
  - destruct (obj_marked x h _) eqn:E; [|done]. rewrite <- Em. symmetry. by apply Hm.
  - apply elem_of_objects. exists k. split; [lia|done].
Qed.

Definition dis_inv (list count : Z) (k : nat) (s : Z * Z * hdr * Z * Z * mem) : Prop :=
  exists x l m1, s = (Z.of_nat k * MARK_BIT_OFFSET sz, h + sz * Z.of_nat k, x, l,
                      wrap64 (count + sz * Z.of_nat (length (unmarked x h sz k))), m1)
    /\ swept true sz m1 (unmarked x h sz k) list l m1 /\ dis_hdr k x.

Lemma disclaim_step (list count : Z) (k : nat) (s : Z * Z * hdr * Z * Z * mem) :
  (k < n_objs sz)%nat -> dis_inv list count k s ->
  exists s', disclaim_body disclaim sz (h + HBLKSIZE - sz) s = inl s' /\ dis_inv list count (S k) s'.
Proof.
  intros Hk (x & l & m1 & -> & Hs & Hx). unfold disclaim_body. rewrite last_object, bool_decide_true by done.
  rewrite bit_of_object, (dh_rest _ _ Hx k) by lia.
  destruct (obj_marked hhdr h (h + sz * Z.of_nat k)) eqn:Em.
  { eexists. split; [done|]. exists x, l, m1. rewrite next_bit, next_object, unmarked_S, (dh_rest _ _ Hx k), Em, app_nil_r by lia.
    split_and!; [done|done|]. apply dis_hdr_next; [done|]. congruence. }
  destruct (disclaim (h + sz * Z.of_nat k) m1) as [keep m2] eqn:Ed.
  assert (Hs2 : swept true sz m2 (unmarked x h sz k) list l m2).
  { eapply swept_touch; [|done]. intros o a Ho Ha.
    change m2 with ((keep, m2).2). rewrite <- Ed. apply (disclaim_local _ o); [|eapply unmarked_mono; [|apply Hx|done]; lia| |done].
    - by apply unmarked_in.
    - intros ->. apply unmarked_below in Ho; pose proof sz_W64; lia. }
  destruct keep.
  - eexists. split; [done|]. exists (keep_obj k x), l, m2. rewrite next_bit, next_object, keep_obj_unmarked.
    split_and!; [done|done|]. apply (dis_hdr_keep k x m1); [done|done|by rewrite Ed].
  - destruct (swept_clear_block sz (wrap64 (count + sz * Z.of_nat (length (unmarked x h sz k)))) m2 m2
      (unmarked x h sz k) list l (h + sz * Z.of_nat k)) as (m3 & -> & Hs3 & _); [apply sz_W64|done|done| |].
    { intros y. apply unmarked_below. pose proof sz_W64. lia. }
    eexists. split; [done|]. exists x, (h + sz * Z.of_nat k), m3.
    rewrite next_bit, next_object, unmarked_S, (dh_rest _ _ Hx k), Em, count_add by lia.
    split_and!; [done|by eapply swept_self|]. apply dis_hdr_next; [done|]. intros _. exists m1. by rewrite Ed.
Qed.

Lemma disclaim_spec (list count : Z) (m : mem) :
  0 <= count < W64 ->
  exists list' x m', GC_disclaim_and_reclaim disclaim h hhdr sz list count m
      = Some (list', x, wrap64 (count + sz * Z.of_nat (length (unmarked x h sz (n_objs sz)))), m')
    /\ swept true sz m' (unmarked x h sz (n_objs sz)) list list' m' /\ dis_hdr (n_objs sz) x.
Proof.
  intros Hc. unfold GC_disclaim_and_reclaim.
  destruct (loop_count (dis_inv list count)
    (fun r => exists l x m', r = Some (l, x, wrap64 (count + sz * Z.of_nat (length (unmarked x h sz (n_objs sz)))), m')
       /\ swept true sz m' (unmarked x h sz (n_objs sz)) list l m' /\ dis_hdr (n_objs sz) x)
    (disclaim_body disclaim sz (h + HBLKSIZE - sz)) (n_objs sz) (0, h, hhdr, list, count, m))
    as (r & -> & l & x & m' & -> & Hs); [apply n_objs_W64|intros; by apply disclaim_step| | |by exists l, x, m'].
  - intros s (x & l & m1 & -> & Hs). unfold disclaim_body. rewrite last_object, bool_decide_false by lia.
    eexists. split; [done|]. by exists l, x, m1.
  - exists hhdr, list, m. rewrite count_start by done. split; [|split; [apply swept_nil|apply dis_hdr_start]].
    cbn [Z.of_nat]. by rewrite Z.mul_0_l, Z.mul_0_r, Z.add_0_r.
Qed.
End Disclaimed.
End Block.

(** Setting all marks of a header marks all its objects. *)
Lemma set_hdr_marks_all (x : hdr) (h o : Z) :
  16 <= hb_sz x <= MAXOBJBYTES -> o ∈ objects h (hb_sz x) (n_objs (hb_sz x)) -> obj_marked (GC_set_hdr_marks x) h o = true.
Proof.
  intros Hsz (k & Hk & ->)%elem_of_objects. change MAXOBJBYTES with 2048 in Hsz. unfold obj_marked.
  replace (h + hb_sz x * k - h) with (hb_sz x * k) by lia.
  apply (GC_set_hdr_marks_correct x); [lia|unfold BYTES_TO_GRANULES, GC_GRANULE_BYTES; apply Z.div_pos; lia|].
  unfold FINAL_MARK_BIT, HBLK_OBJS, n_objs in *. change MAXOBJBYTES with 2048. rewrite (proj2 (Z.ltb_ge 2048 _)) by lia.
  unfold BYTES_TO_GRANULES. apply Z.div_le_mono; [done|]. rewrite Z2Nat.id in Hk by (apply Z.div_pos; [done|lia]). nia.
Qed.

(** The sweep without a disclaim procedure. *)
Lemma reclaim_generic_spec (disclaim : Z -> mem -> bool * mem) (debugging : bool) (h : Z) (hhdr : hdr)
    (init : bool) (list count : Z) (m : mem)
    (Hsz : 16 <= hb_sz hhdr <= MAXOBJBYTES) (H16 : hb_sz hhdr mod 16 = 0) (Hc : 0 <= count < W64)
    (Hd : flag_set (hb_flags hhdr) HAS_DISCLAIM = false) :
  let sz := hb_sz hhdr in
  let fs := unmarked hhdr h sz (n_objs sz) in
  exists list' m', GC_reclaim_generic disclaim debugging h hhdr sz init list count m
      = Some (list', if IS_UNCOLLECTABLE (hb_obj_kind hhdr) then GC_set_hdr_marks hhdr else hhdr,
              wrap64 (count + sz * Z.of_nat (length fs)), m')
    /\ swept (init || debugging) sz m fs list list' m'.
Proof.
  cbn zeta. unfold GC_reclaim_generic. rewrite Hd.
  assert (Hsz' : 16 <= hb_sz hhdr <= HBLKSIZE) by (change MAXOBJBYTES with 2048 in Hsz; change HBLKSIZE with 4096; lia).
  destruct (init || debugging).
  - destruct (reclaim_clear_spec h (hb_sz hhdr) Hsz' H16 hhdr list count m Hc) as (l & m' & -> & Hs).
    cbn [mbind option_bind]. by eexists _, _.
  - destruct (reclaim_uninit_spec h (hb_sz hhdr) Hsz' H16 hhdr list count m) as (l & m' & -> & Hs).
    cbn [mbind option_bind]. by eexists _, _.
Qed.

(** C12: sweeping a block of small objects whose kind has no disclaim procedure
    returns: the list is extended by exactly the objects without a mark, in
    descending order of address; those are cleared but for the link when the kind
    or debugging asks for it, everything else in memory is untouched, in particular
    all marked objects; the counter grows by the bytes reclaimed, modulo 2^64; the
    marks stay as they were, except that all objects of an uncollectable kind are
    marked again. *)
Theorem GC_reclaim_generic_correct (disclaim : Z -> mem -> bool * mem) (debugging : bool) (h : Z) (hhdr : hdr)
    (init : bool) (list count : Z) (m : mem)
    (Hsz : 16 <= hb_sz hhdr <= MAXOBJBYTES) (H16 : hb_sz hhdr mod 16 = 0) (Hc : 0 <= count < W64)
    (Hd : flag_set (hb_flags hhdr) HAS_DISCLAIM = false) :
  let sz := hb_sz hhdr in
  let fs := unmarked hhdr h sz (n_objs sz) in
  exists list' x m', GC_reclaim_generic disclaim debugging h hhdr sz init list count m
      = Some (list', x, wrap64 (count + sz * Z.of_nat (length fs)), m')
    /\ swept (init || debugging) sz m fs list list' m'
    /\ (if IS_UNCOLLECTABLE (hb_obj_kind hhdr)
         then forall o, o ∈ objects h sz (n_objs sz) -> obj_marked x h o = true else x = hhdr).
Proof.
  cbn zeta. destruct (reclaim_generic_spec disclaim debugging h hhdr init list count m Hsz H16 Hc Hd) as (l & m' & E & Hs).
  eexists l, _, m'. split; [exact E|]. split; [exact Hs|]. destruct IS_UNCOLLECTABLE; [|done].
  intros o. by apply set_hdr_marks_all.
Qed.

(** A block of three-granule objects with the first object marked. *)
Definition sample_hdr : hdr := Hdr 0 0 4096 1 0 0 48 0 None 1 {[0 := 1]}.

Lemma GC_reclaim_generic_correct_witness :
  let fs := unmarked sample_hdr 4096 48 85 in
  length fs = 84%nat /\ exists list' x m',
    GC_reclaim_generic (fun _ m => (false, m)) false 4096 sample_hdr 48 true 0 10 ∅ = Some (list', x, 4042, m')
    /\ swept true 48 ∅ fs 0 list' m'.
Proof.
  cbn zeta. split; [by vm_compute|].
  destruct (GC_reclaim_generic_correct (fun _ m => (false, m)) false 4096 sample_hdr true 0 10 ∅)
    as (l & x & m' & E & Hs & _); [by vm_compute|by vm_compute|by vm_compute|by vm_compute|].
  exists l, x, m'. split; [|exact Hs].
  assert (Ec : wrap64 (10 + hb_sz sample_hdr * Z.of_nat (length (unmarked sample_hdr 4096 (hb_sz sample_hdr)
    (n_objs (hb_sz sample_hdr))))) = 4042) by (vm_compute; reflexivity).
  rewrite Ec in E. exact E.
Defined.

(** Sweeping with a disclaim procedure, as long as that leaves the other
    unmarked objects of the block alone, returns.  Every unmarked object has been
    asked about and is marked exactly if the answer was to keep it; the objects
    then unmarked are the ones added to the list, cleared and counted; marks are
    never removed and [hb_n_marks] grows by the number of objects kept. *)
Theorem GC_disclaim_and_reclaim_correct (disclaim : Z -> mem -> bool * mem) (h sz : Z) (hhdr : hdr) (list count : Z) (m : mem)
    (Hsz : 16 <= sz <= MAXOBJBYTES) (H16 : sz mod 16 = 0) (Hc : 0 <= count < W64)
    (Hlocal : forall p q m1 a, p ∈ unmarked hhdr h sz (n_objs sz) -> q ∈ unmarked hhdr h sz (n_objs sz) -> q <> p ->
       q <= a < q + sz -> (disclaim p m1).2 !! a = m1 !! a) :
  let asked := unmarked hhdr h sz (n_objs sz) in
  exists list' x m', let fs := unmarked x h sz (n_objs sz) in
    GC_disclaim_and_reclaim disclaim h hhdr sz list count m
      = Some (list', x, wrap64 (count + sz * Z.of_nat (length fs)), m')
    /\ fl_seg m' list' (reverse fs) list
    /\ (forall o a, o ∈ fs -> o < a < o + sz -> (a - o) mod PTRSZ = 0 -> m' !! a = Some 0)
    /\ (forall o, o ∈ asked -> exists m1, (disclaim o m1).1 = obj_marked x h o)
    /\ (forall b, mark_bit_from_hdr hhdr b = true -> mark_bit_from_hdr x b = true)
    /\ hb_n_marks x = hb_n_marks hhdr + (Z.of_nat (length asked) - Z.of_nat (length fs)).
Proof.
  cbn zeta. assert (Hsz' : 16 <= sz <= HBLKSIZE)
    by (change MAXOBJBYTES with 2048 in Hsz; change HBLKSIZE with 4096; lia).
  destruct (disclaim_spec h sz Hsz' H16 disclaim hhdr Hlocal list count m Hc) as (l & x & m' & E & [HL HB _] & Hx).
  exists l, x, m'. split_and!; [done|done|done|apply Hx|apply Hx|apply Hx].
Qed.

(** A procedure that keeps the object at 4144 and clears the first word of others. *)
Definition sample_disclaim (p : Z) (m : mem) : bool * mem := if p =? 4144 then (true, m) else (false, <[p := 0]> m).

Lemma GC_disclaim_and_reclaim_correct_witness :
  exists list' x m', GC_disclaim_and_reclaim sample_disclaim 4096 sample_hdr 48 0 0 ∅ = Some (list', x, 3984, m')
    /\ fl_seg m' list' (reverse (unmarked x 4096 48 85)) 0 /\ hb_n_marks x = 2.
Proof.
  destruct (GC_disclaim_and_reclaim_correct sample_disclaim 4096 48 sample_hdr 0 0 ∅)
    as (l & x & m' & E & HL & HB & HA & HM & HN).
  - by vm_compute.
  - done.
  - by vm_compute.
  - intros p q m1 a [_ (i & Hi & ->)%elem_of_objects]%list_elem_of_filter
      [_ (j & Hj & ->)%elem_of_objects]%list_elem_of_filter Hne Ha. unfold sample_disclaim.
    destruct (Z.eqb_spec (4096 + 48 * i) 4144); [done|]. apply lookup_insert_ne. lia.
  - exists l, x, m'. assert (Ec : hb_n_marks x = 2 /\ wrap64 (0 + 48 * Z.of_nat (length (unmarked x 4096 48 (n_objs 48)))) = 3984).
    { assert (E2 : option_map (fun r => (hb_n_marks r.1.1.2, r.1.2)) (GC_disclaim_and_reclaim sample_disclaim 4096 sample_hdr 48 0 0 ∅)
        = Some (2, 3984)) by (vm_compute; reflexivity).
      rewrite E in E2. cbn [option_map fst snd] in E2. injection E2 as E2 E3. split; [exact E2|exact E3]. }
    destruct Ec as [E1 E2]. split; [rewrite E, E2; reflexivity|split; [exact HL|exact E1]].
Defined.
End Sweep.
