(* ===== verification/FreeList.v ===== *)
(** * The free lists of heap blocks (allchblk.c)

    Free blocks are kept on 61 doubly linked lists by size, linked through the
    [hb_next] and [hb_prev] fields of their headers, with a byte count per list.
    This file models the lists and their walks; the allocation and
    deallocation of blocks is in Allchblk.v.  Everything is generic in the
    header table. *)

From Stdlib Require Import ZArith Lia.
From stdpp Require Import base gmap list.
From S2P Require Import Prelude Scratch Hblk Headers HeadersNav HdrIface.

Module FreeList.
Import Headers HdrIface.

Definition UNIQUE_THRESHOLD : Z := 32.
Definition HUGE_THRESHOLD : Z := 256.
Definition FL_COMPRESSION : Z := 8.
Definition N_HBLK_FLS : Z := (HUGE_THRESHOLD - UNIQUE_THRESHOLD) / FL_COMPRESSION + UNIQUE_THRESHOLD.

Definition GC_hblk_fl_from_blocks (blocks_needed : Z) : Z :=
  if blocks_needed <=? UNIQUE_THRESHOLD then blocks_needed
  else if HUGE_THRESHOLD <=? blocks_needed then N_HBLK_FLS
  else (blocks_needed - UNIQUE_THRESHOLD) / FL_COMPRESSION + UNIQUE_THRESHOLD.

(** The header table with the list heads and the byte counts. *)
Record fl_state (T : Type) := FlState {
  tbl : T;
  GC_hblkfreelist : gmap Z Z;
  GC_free_bytes : gmap Z Z
}.
Arguments FlState {T}.
Arguments tbl {T}.
Arguments GC_hblkfreelist {T}.
Arguments GC_free_bytes {T}.

Section FreeList.
Context {T : Type} `{HeaderTable T}.
Implicit Types (s : fl_state T).

Definition set_tbl (t : T) s : fl_state T := FlState t (GC_hblkfreelist s) (GC_free_bytes s).
Definition set_head (i h : Z) s : fl_state T :=
  FlState (tbl s) (<[i := h]> (GC_hblkfreelist s)) (GC_free_bytes s).
Definition set_bytes (i n : Z) s : fl_state T :=
  FlState (tbl s) (GC_hblkfreelist s) (<[i := n]> (GC_free_bytes s)).

(** The header at pointer [v], an update of it, and the header of block [h]. *)
Definition hdr_at s (v : Z) : hdr := ht_hdr (tbl s) v.
Definition upd_hdr (v : Z) (f : hdr -> hdr) s : fl_state T :=
  set_tbl (ht_store v (f (hdr_at s v)) (tbl s)) s.
Definition HDRs s (p : Z) : Z := HDR (tbl s) p.
Definition hdrb s (h : Z) : hdr := hdr_at s (HDRs s h).

Definition GC_reset_freelist s : fl_state T := FlState (tbl s) ∅ ∅.

(** *** Walks over all lists *)

(** The loops [for (i = 0; i <= N_HBLK_FLS; ++i)]. *)
Fixpoint for_lists {A : Type} (f : Z -> A -> option A) (n : nat) (i : Z) (a : A) : option A :=
  match n with
  | O => Some a
  | S n => a ← f i a; for_lists f n (i + 1) a
  end.

Definition all_lists {A : Type} (f : Z -> A -> option A) (a : A) : option A :=
  for_lists f (Z.to_nat (N_HBLK_FLS + 1)) 0 a.

(** The callback updates the client data. *)
Definition GC_iterate_free_hblks {A : Type} (fn : Z -> Z -> A -> A) s (client_data : A) : option A :=
  all_lists (fun i a =>
    loop (fun '(h, a) => if h =? NULL then inr a
                         else inl (hb_next (hdrb s h), fn h i a))
         (aget (GC_hblkfreelist s) i, a)) client_data.

Definition add_hb_sz s (h i total_free : Z) : Z := wrap64 (total_free + hb_sz (hdrb s h)).

Definition GC_compute_large_free_bytes s : option Z := GC_iterate_free_hblks (add_hb_sz s) s 0.

Fixpoint free_list_search s (wanted : Z) (n : nat) (i : Z) : option Z :=
  match n with
  | O => Some (-1)
  | S n =>
    '(found : bool) ← loop (fun h => if h =? NULL then inr false
                         else if HDRs s h =? wanted then inr true
                         else inl (hb_next (hdrb s h))) (aget (GC_hblkfreelist s) i);
    if found then Some i else free_list_search s wanted n (i + 1)
  end.

Definition free_list_index_of s (wanted : Z) : option Z :=
  free_list_search s wanted (Z.to_nat (N_HBLK_FLS + 1)) 0.

(** *** Insertion and removal *)

Definition GC_remove_from_fl_at (hhdr index : Z) s : fl_state T :=
  let s := if hb_prev (hdr_at s hhdr) =? NULL
           then set_head index (hb_next (hdr_at s hhdr)) s
           else upd_hdr (HDRs s (hb_prev (hdr_at s hhdr))) (set_hb_next (hb_next (hdr_at s hhdr))) s in
  let s := set_bytes index (wrap64 (aget (GC_free_bytes s) index - hb_sz (hdr_at s hhdr))) s in
  if hb_next (hdr_at s hhdr) =? NULL then s
  else upd_hdr (HDRs s (hb_next (hdr_at s hhdr))) (set_hb_prev (hb_prev (hdr_at s hhdr))) s.

Definition GC_remove_from_fl (hhdr : Z) s : fl_state T :=
  GC_remove_from_fl_at hhdr (GC_hblk_fl_from_blocks (divHBLKSZ (hb_sz (hdr_at s hhdr)))) s.

Definition GC_add_to_fl (h hhdr : Z) s : fl_state T :=
  let index := GC_hblk_fl_from_blocks (divHBLKSZ (hb_sz (hdr_at s hhdr))) in
  let second := aget (GC_hblkfreelist s) index in
  let s := set_head index h s in
  let s := set_bytes index (wrap64 (aget (GC_free_bytes s) index + hb_sz (hdr_at s hhdr))) s in
  let s := upd_hdr hhdr (set_hb_next second) s in
  let s := upd_hdr hhdr (set_hb_prev NULL) s in
  let s := if second =? NULL then s else upd_hdr (HDRs s second) (set_hb_prev h) s in
  upd_hdr hhdr (fun x => set_hb_flags (Z.lor (hb_flags x) FREE_BLK) x) s.

(** ** Size classes *)

Lemma N_HBLK_FLS_eq : N_HBLK_FLS = 60.
Proof. reflexivity. Qed.

Lemma fl_from_blocks_range (n : Z) : 0 <= n -> 0 <= GC_hblk_fl_from_blocks n <= N_HBLK_FLS.
Proof.
  intros Hn. rewrite N_HBLK_FLS_eq.
  unfold GC_hblk_fl_from_blocks, UNIQUE_THRESHOLD, HUGE_THRESHOLD, FL_COMPRESSION.
  rewrite N_HBLK_FLS_eq. repeat bcase; dlia.
Qed.

Lemma fl_from_blocks_mono (n m : Z) :
  0 <= n <= m -> GC_hblk_fl_from_blocks n <= GC_hblk_fl_from_blocks m.
Proof.
  intros Hn. unfold GC_hblk_fl_from_blocks, UNIQUE_THRESHOLD, HUGE_THRESHOLD, FL_COMPRESSION.
  rewrite N_HBLK_FLS_eq. repeat bcase; dlia.
Qed.

(** ** Header updates by block *)

Context `{!HeaderTableLaws T}.

Definition has_hdr s (h : Z) : Prop := is_hdr_ptr (HDRs s h) = true.

Lemma upd_hdr_spec s (h : Z) (f : hdr -> hdr) :
  ht_wf (tbl s) -> has_hdr s h ->
  let s' := upd_hdr (HDRs s h) f s in
  ht_wf (tbl s') /\ (forall p, HDRs s' p = HDRs s p)
  /\ (forall q, hdrb s' q = if decide (q / 4096 = h / 4096) then f (hdrb s h) else hdrb s q)
  /\ GC_hblkfreelist s' = GC_hblkfreelist s /\ GC_free_bytes s' = GC_free_bytes s
  /\ (ht_clean (tbl s) -> ht_clean (tbl s')).
Proof.
  intros Hwf Hh s'.
  destruct (hl_store (tbl s) h (f (hdrb s h)) Hwf Hh) as (W & HD & HH & HC).
  change (tbl s') with (ht_store (HDR (tbl s) h) (f (hdrb s h)) (tbl s)).
  split; [done|]. split; [exact HD|]. split; [|done]. intros q.
  unfold hdrb at 1, hdr_at, HDRs, s', upd_hdr, set_tbl. cbn [tbl].
  change (f (hdr_at s (HDR (tbl s) h))) with (f (hdrb s h)). rewrite HD, HH.
  destruct (decide (q / 4096 = h / 4096)) as [E|E].
  - rewrite decide_True; [done|]. by apply hl_block.
  - rewrite decide_False; [done|]. intros E'. destruct E. symmetry.
    apply (hl_inj (tbl s)); [done|exact Hh|done].
Qed.

(** Two addresses of the same heap block. *)
Definition same_blk (p q : Z) : Prop := p / 4096 = q / 4096.

#[local] Instance same_blk_dec (p q : Z) : Decision (same_blk p q).
Proof. unfold same_blk. apply _. Defined.

Lemma hdrb_blk s (p q : Z) : same_blk p q -> hdrb s p = hdrb s q.
Proof. intros E. unfold hdrb, HDRs. by rewrite (hl_block (tbl s) p q E). Qed.

(** What a step leaves alone: the table's mapping. *)
Record tbl_frame s s' : Prop := {
  tf_wf : ht_wf (tbl s) -> ht_wf (tbl s');
  tf_HDR : forall p, HDRs s' p = HDRs s p;
  tf_clean : ht_clean (tbl s) -> ht_clean (tbl s')
}.

Lemma tbl_frame_refl s : tbl_frame s s.
Proof. by split. Qed.

Lemma tbl_frame_trans s1 s2 s3 : tbl_frame s1 s2 -> tbl_frame s2 s3 -> tbl_frame s1 s3.
Proof. intros [? H1 ?] [? H2 ?]. split; [auto| |auto]. intros p. by rewrite H2. Qed.

Lemma tbl_frame_has_hdr s s' (h : Z) : tbl_frame s s' -> has_hdr s' h <-> has_hdr s h.
Proof. intros F. unfold has_hdr. by rewrite (tf_HDR _ _ F). Qed.

Lemma remove_at_effect s (h i p n : Z) :
  ht_wf (tbl s) -> has_hdr s h -> hb_prev (hdrb s h) = p -> hb_next (hdrb s h) = n ->
  (p <> NULL -> has_hdr s p /\ ~ same_blk p h) ->
  (n <> NULL -> has_hdr s n /\ ~ same_blk n h) ->
  let s' := GC_remove_from_fl_at (HDRs s h) i s in
  tbl_frame s s' /\ ht_wf (tbl s')
  /\ GC_hblkfreelist s' = (if decide (p = NULL) then <[i := n]> (GC_hblkfreelist s)
                          else GC_hblkfreelist s)
  /\ GC_free_bytes s' = <[i := wrap64 (aget (GC_free_bytes s) i - hb_sz (hdrb s h))]> (GC_free_bytes s)
  /\ forall q, hdrb s' q
     = (if decide (n <> NULL /\ same_blk q n) then set_hb_prev p else id)
         ((if decide (p <> NULL /\ same_blk q p) then set_hb_next n else id) (hdrb s q)).
Proof.
  intros Hwf Hh Ep En Hp Hn. unfold GC_remove_from_fl_at.
  change (hdr_at s (HDRs s h)) with (hdrb s h). rewrite Ep, En.
  set (s1 := if p =? NULL then _ else _).
  assert (H1 : tbl_frame s s1 /\ GC_free_bytes s1 = GC_free_bytes s
    /\ GC_hblkfreelist s1 = (if decide (p = NULL) then <[i := n]> (GC_hblkfreelist s) else GC_hblkfreelist s)
    /\ forall q, hdrb s1 q = (if decide (p <> NULL /\ same_blk q p) then set_hb_next n else id) (hdrb s q)).
  { unfold s1. destruct (Z.eqb_spec p NULL) as [->|Hp0].
    - rewrite decide_True by done. by split_and!.
    - rewrite decide_False by done. destruct (Hp Hp0) as [Hph Hpb].
      destruct (upd_hdr_spec s p (set_hb_next n) Hwf Hph) as (W & HD & HB & E1 & E2 & HC).
      split_and!; try done. intros q. rewrite HB.
      destruct (decide (q / 4096 = p / 4096)) as [E|E].
      + rewrite decide_True by done. by rewrite (hdrb_blk s q p E).
      + rewrite decide_False; [done|]. by intros [_ ?]. }
  destruct H1 as (F1 & Eb1 & Ef1 & HB1).
  assert (Ehh : hdr_at s1 (HDRs s h) = hdrb s1 h) by (unfold hdrb; by rewrite (tf_HDR _ _ F1)).
  assert (Eh : hdrb s1 h = hdrb s h).
  { rewrite HB1, decide_False; [done|]. intros [Hp0 E]. destruct (Hp Hp0) as [_ []]. by symmetry. }
  rewrite Ehh, Eh. rewrite Eb1.
  set (s2 := set_bytes i _ s1).
  change (hdr_at s2 (HDRs s h)) with (hdr_at s1 (HDRs s h)). rewrite Ehh, Eh, En, Ep.
  assert (F2 : tbl_frame s s2) by (destruct F1; by split).
  destruct (Z.eqb_spec n NULL) as [->|Hn0].
  - split; [done|]. split; [by apply (tf_wf _ _ F2)|]. split; [done|]. split; [unfold s2; cbn; by rewrite Eb1|].
    intros q. rewrite (decide_False (P := 0 <> 0 /\ _)) by (by intros [? _]). apply HB1.
  - destruct (Hn Hn0) as [Hnh Hnb].
    destruct (upd_hdr_spec s2 n (set_hb_prev p)) as (W & HD & HB & E1 & E2 & HC);
      [by apply (tf_wf _ _ F2)|by apply (tbl_frame_has_hdr s s2)|].
    split; [|split; [done|split; [by rewrite E1|split; [rewrite E2; cbn; by rewrite Eb1|]]]].
    { eapply tbl_frame_trans; [exact F2|]. by split. }
    intros q. rewrite HB. change (hdrb s2) with (hdrb s1).
    destruct (decide (q / 4096 = n / 4096)) as [E|E].
    + rewrite (decide_True (P := n <> NULL /\ _)) by done.
      rewrite <- HB1. by rewrite (hdrb_blk s1 q n E).
    + rewrite (decide_False (P := n <> NULL /\ _)) by (by intros [_ ?]). apply HB1.
Qed.

Lemma add_effect s (h : Z) :
  ht_wf (tbl s) -> has_hdr s h ->
  let index := GC_hblk_fl_from_blocks (divHBLKSZ (hb_sz (hdrb s h))) in
  let second := aget (GC_hblkfreelist s) index in
  (second <> NULL -> has_hdr s second /\ ~ same_blk second h) ->
  let s' := GC_add_to_fl h (HDRs s h) s in
  tbl_frame s s' /\ ht_wf (tbl s')
  /\ GC_hblkfreelist s' = <[index := h]> (GC_hblkfreelist s)
  /\ GC_free_bytes s'
     = <[index := wrap64 (aget (GC_free_bytes s) index + hb_sz (hdrb s h))]> (GC_free_bytes s)
  /\ forall q, hdrb s' q
     = if decide (same_blk q h)
       then let x := set_hb_prev NULL (set_hb_next second (hdrb s h)) in
            set_hb_flags (Z.lor (hb_flags x) FREE_BLK) x
       else if decide (second <> NULL /\ same_blk q second) then set_hb_prev h (hdrb s q)
       else hdrb s q.
Proof.
  intros Hwf Hh index second Hs. unfold GC_add_to_fl.
  change (hdr_at s (HDRs s h)) with (hdrb s h). fold index second.
  set (s1 := set_bytes index _ _).
  assert (E1 : s1 = FlState (tbl s) (<[index := h]> (GC_hblkfreelist s))
     (<[index := wrap64 (aget (GC_free_bytes s) index + hb_sz (hdrb s h))]> (GC_free_bytes s)))
    by reflexivity.
  assert (Hh1 : has_hdr s1 h) by done.
  destruct (upd_hdr_spec s1 h (set_hb_next second)) as (W2 & HD2 & HB2 & Ef2 & Eb2 & HC2); [done|done|].
  change (HDRs s1 h) with (HDRs s h) in *. set (s2 := upd_hdr (HDRs s h) (set_hb_next second) s1) in *.
  assert (Eid2 : HDRs s2 h = HDRs s h) by apply HD2.
  destruct (upd_hdr_spec s2 h (set_hb_prev NULL)) as (W3 & HD3 & HB3 & Ef3 & Eb3 & HC3);
    [done|unfold has_hdr; by rewrite Eid2|]. rewrite Eid2 in *.
  set (s3 := upd_hdr (HDRs s h) (set_hb_prev NULL) s2) in *.
  assert (B3 : forall q, hdrb s3 q = if decide (same_blk q h)
      then set_hb_prev NULL (set_hb_next second (hdrb s h)) else hdrb s q).
  { intros q. rewrite HB3, !HB2. unfold same_blk. rewrite (decide_True (P := h / 4096 = h / 4096)) by done.
    repeat case_decide; done. }
  assert (D3 : forall p, HDRs s3 p = HDRs s p) by (intros p; by rewrite HD3, HD2).
  set (s4 := if second =? NULL then s3 else _).
  assert (H4 : ht_wf (tbl s4) /\ (forall p, HDRs s4 p = HDRs s p) /\ (ht_clean (tbl s) -> ht_clean (tbl s4))
    /\ GC_hblkfreelist s4 = GC_hblkfreelist s3 /\ GC_free_bytes s4 = GC_free_bytes s3
    /\ forall q, hdrb s4 q = if decide (second <> NULL /\ same_blk q second)
          then set_hb_prev h (hdrb s3 q) else hdrb s3 q).
  { unfold s4. destruct (Z.eqb_spec second NULL) as [E|E].
    - split_and!; try done; [by auto|]. intros q. by rewrite decide_False by (by intros [? _]).
    - destruct (Hs E) as [Hsh Hsb].
      destruct (upd_hdr_spec s3 second (set_hb_prev h)) as (W & HD & HB & Ef & Eb & HC);
        [done|unfold has_hdr; by rewrite D3|].
      split_and!; [done|intros p; by rewrite HD|by auto|done|done|].
      intros q. rewrite HB. unfold same_blk. destruct (decide (q / 4096 = second / 4096)) as [E'|E'].
      + rewrite decide_True by done. by rewrite (hdrb_blk s3 q second E').
      + by rewrite decide_False by (by intros [_ ?]). }
  destruct H4 as (W4 & D4 & C4 & Ef4 & Eb4 & B4).
  assert (Eid4 : HDRs s4 h = HDRs s h) by apply D4.
  destruct (upd_hdr_spec s4 h (fun x => set_hb_flags (Z.lor (hb_flags x) FREE_BLK) x))
    as (W5 & HD5 & HB5 & Ef5 & Eb5 & HC5); [done|unfold has_hdr; by rewrite Eid4|].
  rewrite Eid4 in *.
  split; [split; [done|intros p; by rewrite HD5, D4|by auto]|]. split; [done|].
  split; [by rewrite Ef5, Ef4, Ef3, Ef2|]. split; [by rewrite Eb5, Eb4, Eb3, Eb2|].
  assert (Eh4 : hdrb s4 h = set_hb_prev NULL (set_hb_next second (hdrb s h))).
  { rewrite B4, B3. rewrite (decide_False (P := second <> NULL /\ _)).
    - by rewrite decide_True by done.
    - intros [E E']. destruct (Hs E) as [_ []]. by symmetry. }
  intros q. rewrite HB5, Eh4. unfold same_blk.
  destruct (decide (q / 4096 = h / 4096)) as [E|E]; [done|].
  rewrite B4, B3. unfold same_blk. by rewrite !(decide_False (P := q / 4096 = h / 4096)) by done.
Qed.

(** ** The lists, abstractly *)

(** [L i] lists the blocks on list [i] from the head. *)
Fixpoint fl_chain s (prev : Z) (l : list Z) : Prop :=
  match l with
  | [] => True
  | h :: l => hb_prev (hdrb s h) = prev /\ hb_next (hdrb s h) = hd NULL l /\ fl_chain s h l
  end.

Definition sizes s (l : list Z) : Z := foldr (fun h acc => hb_sz (hdrb s h) + acc) 0 l.

Definition listable s (h : Z) : Prop := 0 < h < W64 /\ h mod 4096 = 0 /\ has_hdr s h.

Record fl_ok s (L : Z -> list Z) : Prop := {
  fo_wf : ht_wf (tbl s);
  fo_head : forall i, aget (GC_hblkfreelist s) i = hd NULL (L i);
  fo_chain : forall i, fl_chain s NULL (L i);
  fo_blk : forall i h, h ∈ L i -> listable s h;
  fo_nodup : forall i, NoDup (L i);
  fo_disj : forall i j h, h ∈ L i -> h ∈ L j -> i = j;
  fo_bytes : forall i, aget (GC_free_bytes s) i = wrap64 (sizes s (L i));
  fo_free : forall i h, h ∈ L i -> HBLK_IS_FREE (hdrb s h) = true
}.

Definition upd_list (i : Z) (l : list Z) (L : Z -> list Z) (j : Z) : list Z :=
  if decide (i = j) then l else L j.

(** A header without its links. *)
Definition body (x : hdr) : hdr := set_hb_next 0 (set_hb_prev 0 x).

Lemma body_fields (x y : hdr) : body x = body y ->
  hb_sz x = hb_sz y /\ hb_flags x = hb_flags y /\ hb_block x = hb_block y
  /\ hb_obj_kind x = hb_obj_kind y /\ hb_last_reclaimed x = hb_last_reclaimed y.
Proof. destruct x, y. cbn. by intros [=]. Qed.

Lemma body_free (x y : hdr) : body x = body y -> HBLK_IS_FREE x = HBLK_IS_FREE y.
Proof. intros E. unfold HBLK_IS_FREE. by destruct (body_fields x y E) as (_ & -> & _). Qed.

Lemma body_mapped (x y : hdr) : body x = body y -> IS_MAPPED x = IS_MAPPED y.
Proof. intros E. unfold IS_MAPPED. by destruct (body_fields x y E) as (_ & -> & _). Qed.

Lemma aligned_same_blk (p q : Z) : p mod 4096 = 0 -> q mod 4096 = 0 -> same_blk p q -> p = q.
Proof. unfold same_blk. intros. dlia. Qed.

Lemma sizes_ext s s' (l : list Z) :
  (forall h, h ∈ l -> hb_sz (hdrb s' h) = hb_sz (hdrb s h)) -> sizes s' l = sizes s l.
Proof.
  induction l as [|h l IH]; intros E; [done|]. cbn. rewrite (E h) by (by left).
  f_equal. apply IH. intros x Hx. apply E. by right.
Qed.

Lemma sizes_app s (l1 l2 : list Z) : sizes s (l1 ++ l2) = sizes s l1 + sizes s l2.
Proof. unfold sizes. induction l1 as [|h l1 IH]; cbn [foldr app]; lia. Qed.

Lemma wrap64_add_l (a b : Z) : wrap64 (wrap64 a + b) = wrap64 (a + b).
Proof. unfold wrap64. apply Z.add_mod_idemp_l. done. Qed.

Lemma wrap64_sub_l (a b : Z) : wrap64 (wrap64 a - b) = wrap64 (a - b).
Proof. unfold wrap64. apply Zminus_mod_idemp_l. Qed.

Lemma fl_chain_ext s s' (prev : Z) (l : list Z) :
  (forall h, h ∈ l -> hb_prev (hdrb s' h) = hb_prev (hdrb s h)
                      /\ hb_next (hdrb s' h) = hb_next (hdrb s h)) ->
  fl_chain s prev l -> fl_chain s' prev l.
Proof.
  revert prev. induction l as [|h l IH]; intros prev E; cbn; [done|].
  destruct (E h) as [-> ->]; [by left|]. intros (? & ? & ?). split_and!; try done.
  apply IH; [|done]. intros x Hx. apply E. by right.
Qed.

Lemma last_cons_default (a : Z) (l : list Z) (d : Z) : List.last (a :: l) d = List.last l a.
Proof. apply last_default. Qed.

(** The links of a block in the middle of a list. *)
Lemma fl_chain_mid s (prev h : Z) (l1 l2 : list Z) :
  fl_chain s prev (l1 ++ h :: l2) ->
  hb_prev (hdrb s h) = List.last l1 prev /\ hb_next (hdrb s h) = hd NULL l2.
Proof.
  revert prev. induction l1 as [|a l1 IH]; intros prev; cbn [app fl_chain].
  - by intros (? & ? & _).
  - intros (_ & _ & Hc). rewrite last_cons_default. by apply IH.
Qed.

(** Unlinking [h] from the middle. *)
Lemma fl_chain_remove s s' (prev h : Z) (l1 l2 : list Z) :
  NoDup (l1 ++ h :: l2) ->
  (forall q, q ∈ l1 ++ l2 ->
     hb_next (hdrb s' q) = (if decide (l1 <> [] /\ q = List.last l1 NULL) then hd NULL l2
                            else hb_next (hdrb s q))
     /\ hb_prev (hdrb s' q) = (if decide (l2 <> [] /\ q = hd NULL l2) then List.last l1 prev
                               else hb_prev (hdrb s q))) ->
  fl_chain s prev (l1 ++ h :: l2) -> fl_chain s' prev (l1 ++ l2).
Proof.
  revert prev. induction l1 as [|a l1 IH]; intros prev Hnd E; cbn [app fl_chain].
  - intros (_ & _ & Hc). destruct l2 as [|b l2]; [done|]. cbn [fl_chain] in *.
    destruct Hc as (_ & Hn & Hc). inversion Hnd as [|? ? _ Hnd2]; subst.
    inversion Hnd2 as [|? ? Hb Hnd3]; subst.
    destruct (E b) as [E1 E2]; [by left|]. rewrite decide_False in E1 by (by intros [? _]).
    rewrite decide_True in E2 by done. cbn in E2. split; [done|]. split; [congruence|].
    eapply fl_chain_ext; [|exact Hc]. intros x Hx. destruct (E x) as [E1' E2']; [by right|].
    rewrite decide_False in E1' by (by intros [? _]).
    rewrite decide_False in E2'; [done|]. intros [_ Ex]. cbn in Ex. subst x. done.
  - intros (Hp & Hn & Hc). cbn in Hnd. inversion Hnd as [|? ? Ha Hnd2]; subst.
    destruct (E a) as [E1 E2]; [by left|].
    assert (Hal : a ∉ l2) by (intros ?; apply Ha, elem_of_app; right; by right).
    rewrite decide_False in E2.
    2:{ intros [Hne Ex]. destruct l2 as [|b l2]; [done|]. cbn in Ex. subst a. apply Hal. by left. }
    split; [done|]. split.
    + rewrite E1. destruct l1 as [|b l1]; cbn [hd app] in Hn |- *.
      * by rewrite decide_True.
      * rewrite decide_False; [done|]. intros [_ Ex]. apply Ha, elem_of_app. left.
        rewrite !last_cons_default in Ex. rewrite <- (last_cons_default b l1 NULL) in Ex.
        rewrite Ex. by apply last_In.
    + apply (IH a); [done| |done]. intros q Hq. destruct (E q) as [E1' E2']; [by right|].
      rewrite E1', E2'. rewrite !(last_cons_default a). split.
      * destruct l1 as [|b l1].
        -- cbn. rewrite decide_False; [by rewrite decide_False by (by intros [? _])|].
           intros [_ Ex]. subst q. by apply Hal.
        -- rewrite !last_cons_default. destruct (decide (q = List.last l1 b)) as [Eq|Eq];
             [by rewrite !decide_True|by rewrite !decide_False by (by intros [_ ?])].
      * done.
Qed.

Lemma hd_In (l : list Z) : l <> [] -> hd NULL l ∈ l.
Proof. destruct l; [done|]. by left. Qed.

Lemma hd_nonnull s (L : Z -> list Z) (i : Z) (l : list Z) :
  fl_ok s L -> (forall h, h ∈ l -> h ∈ L i) -> l <> [] <-> hd NULL l <> NULL.
Proof.
  intros K Hl. split; [|by destruct l].
  intros Hne E. destruct (fo_blk _ _ K i NULL) as [? _]; [|lia].
  rewrite <- E. by apply Hl, hd_In.
Qed.

Lemma last_nonnull s (L : Z -> list Z) (i : Z) (l : list Z) :
  fl_ok s L -> (forall h, h ∈ l -> h ∈ L i) -> l <> [] <-> List.last l NULL <> NULL.
Proof.
  intros K Hl. split; [|by destruct l].
  intros Hne E. destruct (fo_blk _ _ K i NULL) as [? _]; [|lia].
  rewrite <- E. by apply Hl, last_In.
Qed.

(** The list [i] without [h]. *)
Lemma remove_at_ok s (L : Z -> list Z) (i h : Z) (l1 l2 : list Z) :
  fl_ok s L -> L i = l1 ++ h :: l2 ->
  let s' := GC_remove_from_fl_at (HDRs s h) i s in
  fl_ok s' (upd_list i (l1 ++ l2) L) /\ tbl_frame s s'
  /\ forall q, body (hdrb s' q) = body (hdrb s q).
Proof.
  intros K EL s'. assert (Hhi : h ∈ L i) by (rewrite EL; apply elem_of_app; right; by left).
  assert (H1 : forall q, q ∈ l1 -> q ∈ L i) by (intros q Hq; rewrite EL; apply elem_of_app; by left).
  assert (H2 : forall q, q ∈ l2 -> q ∈ L i)
    by (intros q Hq; rewrite EL; apply elem_of_app; right; by right).
  pose proof (fo_nodup _ _ K i) as Hnd. rewrite EL in Hnd.
  assert (Hneq : forall q, q ∈ l1 ++ l2 -> q <> h).
  { intros q Hq ->. apply NoDup_app in Hnd as (_ & Hd & Hnd2). inversion Hnd2; subst.
    apply elem_of_app in Hq as [Hq|Hq]; [|done]. apply (Hd h Hq). by left. }
  pose proof (fo_chain _ _ K i) as Hch. rewrite EL in Hch.
  destruct (fl_chain_mid s NULL h l1 l2 Hch) as [Ep En].
  destruct (fo_blk _ _ K i h Hhi) as (Hh0 & Hal & Hhd).
  assert (Hlp := last_nonnull s L i l1 K H1). assert (Hln := hd_nonnull s L i l2 K H2).
  assert (Hnb : forall q, q ∈ l1 ++ l2 -> has_hdr s q /\ ~ same_blk q h).
  { intros q Hq. assert (Hqi : q ∈ L i) by (apply elem_of_app in Hq as [?|?]; auto).
    destruct (fo_blk _ _ K i q Hqi) as (_ & Hqal & Hqh). split; [done|].
    intros E. by apply (Hneq q), aligned_same_blk. }
  destruct (remove_at_effect s h i (List.last l1 NULL) (hd NULL l2)) as (F & W & Efl & Eby & HB);
    [apply K|done|done|done|..].
  { intros Hne. apply Hnb, elem_of_app. left. by apply last_In, Hlp. }
  { intros Hne. apply Hnb, elem_of_app. right. by apply hd_In, Hln. }
  fold s' in F, W, Efl, Eby, HB.
  assert (Hbody : forall q, body (hdrb s' q) = body (hdrb s q)).
  { intros q. rewrite HB. by repeat case_decide. }
  assert (Hsz : forall q, hb_sz (hdrb s' q) = hb_sz (hdrb s q)) by (intros q; by apply body_fields).
  (* the effect on a listed block *)
  assert (HBL : forall j q, q ∈ L j ->
    hb_next (hdrb s' q) = (if decide (l1 <> [] /\ q = List.last l1 NULL) then hd NULL l2 else hb_next (hdrb s q))
    /\ hb_prev (hdrb s' q) = (if decide (l2 <> [] /\ q = hd NULL l2) then List.last l1 NULL else hb_prev (hdrb s q))).
  { intros j q Hq. destruct (fo_blk _ _ K j q Hq) as (_ & Hqal & _).
    assert (Hb : forall (l : list Z) (x : Z), (forall y, y ∈ l -> y ∈ L i) -> x ∈ l -> same_blk q x <-> q = x).
    { intros l x Hl Hx. destruct (fo_blk _ _ K i x (Hl x Hx)) as (_ & Hxal & _).
      split; [by apply aligned_same_blk|by intros ->]. }
    assert (D1 : (List.last l1 NULL <> NULL /\ same_blk q (List.last l1 NULL)) <-> (l1 <> [] /\ q = List.last l1 NULL)).
    { rewrite <- Hlp. split; intros [Hne Hx]; (split; [done|]); by apply (Hb l1); [|apply last_In|]. }
    assert (D2 : (hd NULL l2 <> NULL /\ same_blk q (hd NULL l2)) <-> (l2 <> [] /\ q = hd NULL l2)).
    { rewrite <- Hln. split; intros [Hne Hx]; (split; [done|]); by apply (Hb l2); [|apply hd_In|]. }
    rewrite HB. rewrite (decide_ext _ _ _ _ D1), (decide_ext _ _ _ _ D2).
    destruct (decide (l1 <> [] /\ _)), (decide (l2 <> [] /\ _)); done. }
  split; [|split; [done|done]]. split.
  - done.
  - intros j. rewrite Efl. unfold upd_list. destruct (decide (i = j)) as [<-|Hij].
    + destruct (decide (List.last l1 NULL = NULL)) as [E|E].
      * rewrite aget_insert, decide_True by done. destruct l1 as [|a l1]; [done|].
        by apply Hlp in E.
      * rewrite (fo_head _ _ K i), EL. destruct l1; done.
    + rewrite <- (fo_head _ _ K j). destruct (decide (List.last l1 NULL = NULL)); [|done]. by rewrite aget_insert, decide_False.
  - intros j. unfold upd_list. destruct (decide (i = j)) as [<-|Hij].
    + apply (fl_chain_remove s s' NULL h); [done| |done]. intros q Hq. apply (HBL i).
      apply elem_of_app in Hq as [?|?]; auto.
    + eapply fl_chain_ext; [|apply (fo_chain _ _ K j)]. intros q Hq.
      destruct (HBL j q Hq) as [-> ->]. rewrite !decide_False; [done|..];
        (intros [Hne ->]; apply Hij; eapply (fo_disj _ _ K i j); [|exact Hq]);
        [by apply H1, last_In|by apply H2, hd_In].
  - intros j q Hq. assert (Hq' : q ∈ L j).
    { unfold upd_list in Hq. destruct (decide (i = j)) as [<-|]; [|done].
      apply elem_of_app in Hq as [?|?]; auto. }
    destruct (fo_blk _ _ K j q Hq') as (? & ? & ?). split_and!; try done; try lia.
    by apply (tbl_frame_has_hdr s s').
  - intros j. unfold upd_list. destruct (decide (i = j)) as [<-|]; [|apply K].
    apply NoDup_app in Hnd as (? & Hd & Hnd2). inversion Hnd2; subst. apply NoDup_app.
    split_and!; try done. intros x Hx Hx'. apply (Hd x Hx). by right.
  - intros j k q Hj Hk. apply (fo_disj _ _ K j k q); unfold upd_list in *; repeat case_decide; subst;
      try done; match goal with Hq : _ ∈ _ ++ _ |- _ => apply elem_of_app in Hq as [?|?]; auto end.
  - intros j. rewrite Eby, aget_insert. unfold upd_list. destruct (decide (i = j)) as [<-|].
    + rewrite (fo_bytes _ _ K i), EL, wrap64_sub_l.
      rewrite (sizes_ext s s') by (intros; apply Hsz). rewrite !sizes_app. cbn [sizes foldr].
      fold (sizes s l2). f_equal. lia.
    + rewrite (fo_bytes _ _ K j). by rewrite (sizes_ext s s') by (intros; apply Hsz).
  - intros j q Hq. assert (Hq' : q ∈ L j).
    { unfold upd_list in Hq. destruct (decide (i = j)) as [<-|]; [|done].
      apply elem_of_app in Hq as [?|?]; auto. }
    rewrite (body_free _ (hdrb s q)); [by apply (fo_free _ _ K j)|done].
Qed.

Definition fl_index s (h : Z) : Z := GC_hblk_fl_from_blocks (divHBLKSZ (hb_sz (hdrb s h))).

(** Pushing [h] on the list of its size. *)
Lemma add_ok s (L : Z -> list Z) (h : Z) :
  fl_ok s L -> listable s h -> (forall j, h ∉ L j) ->
  let s' := GC_add_to_fl h (HDRs s h) s in
  fl_ok s' (upd_list (fl_index s h) (h :: L (fl_index s h)) L) /\ tbl_frame s s'
  /\ forall q, body (hdrb s' q)
     = if decide (same_blk q h)
       then body (set_hb_flags (Z.lor (hb_flags (hdrb s h)) FREE_BLK) (hdrb s h))
       else body (hdrb s q).
Proof.
  intros K (Hh0 & Hal & Hhd) Hno s'. set (i := fl_index s h).
  assert (Hnb : forall j q, q ∈ L j -> has_hdr s q /\ ~ same_blk q h).
  { intros j q Hq. destruct (fo_blk _ _ K j q Hq) as (_ & Hqal & Hqh). split; [done|].
    intros E. apply (Hno j). apply aligned_same_blk in E; [by subst|done|done]. }
  destruct (add_effect s h) as (F & W & Efl & Eby & HB); [apply K|done|..].
  { rewrite (fo_head _ _ K). intros Hne. apply (Hnb i), hd_In. intros E. change (hd NULL (L i) <> NULL) in Hne. by rewrite E in Hne. }
  fold s' in F, W, Efl, Eby, HB. rewrite (fo_head _ _ K) in HB. fold (fl_index s h) in HB, Efl, Eby. fold i in HB, Efl, Eby.
  assert (Hln := hd_nonnull s L i (L i) K (fun _ x => x)).
  assert (HBL : forall j q, q ∈ L j -> hdrb s' q
      = if decide (L i <> [] /\ q = hd NULL (L i)) then set_hb_prev h (hdrb s q) else hdrb s q).
  { intros j q Hq. destruct (Hnb j q Hq) as [_ Hqh]. destruct (fo_blk _ _ K j q Hq) as (_ & Hqal & _).
    rewrite HB. rewrite decide_False by done. apply decide_ext. rewrite <- Hln.
    split; intros [Hne Hx]; (split; [done|]); [|unfold same_blk; by rewrite Hx].
    destruct (fo_blk _ _ K i (hd NULL (L i))) as (_ & Hxal & _); [by apply hd_In|].
    by apply aligned_same_blk. }
  assert (Hbody : forall q, body (hdrb s' q) = if decide (same_blk q h)
       then body (set_hb_flags (Z.lor (hb_flags (hdrb s h)) FREE_BLK) (hdrb s h))
       else body (hdrb s q)).
  { intros q. rewrite HB. destruct (decide (same_blk q h)); [done|]. by repeat case_decide. }
  assert (Hbl : forall j q, q ∈ L j -> body (hdrb s' q) = body (hdrb s q)).
  { intros j q Hq. rewrite Hbody, decide_False; [done|]. by destruct (Hnb j q Hq). }
  assert (Hsz : forall j q, q ∈ L j -> hb_sz (hdrb s' q) = hb_sz (hdrb s q)).
  { intros j q Hq. by apply body_fields, (Hbl j). }
  assert (Hh' : body (hdrb s' h) = body (set_hb_flags (Z.lor (hb_flags (hdrb s h)) FREE_BLK) (hdrb s h))).
  { rewrite Hbody. by rewrite decide_True. }
  assert (HBh : hb_prev (hdrb s' h) = NULL /\ hb_next (hdrb s' h) = hd NULL (L i)).
  { rewrite HB, decide_True by done. done. }
  split; [|done]. split.
  - done.
  - intros j. rewrite Efl, aget_insert. unfold upd_list. destruct (decide (i = j)); [done|]. apply K.
  - intros j. unfold upd_list. destruct (decide (i = j)) as [<-|Hij].
    + destruct HBh as [E1 E2]. cbn [fl_chain]. split; [done|]. split; [done|].
      pose proof (fo_chain _ _ K i) as Hc. pose proof (fo_nodup _ _ K i) as Hnd.
      specialize (HBL i). destruct (L i) as [|b l]; [done|]. cbn [fl_chain] in *.
      destruct Hc as (_ & Hn & Hc). inversion Hnd as [|? ? Hb Hnd2]; subst.
      rewrite (HBL b) by (by left). rewrite decide_True by done.
      split; [done|]. split; [done|]. eapply fl_chain_ext; [|exact Hc]. intros x Hx.
      rewrite (HBL x) by (by right). rewrite decide_False; [done|]. intros [_ Ex]. cbn in Ex. by subst x.
    + eapply fl_chain_ext; [|apply (fo_chain _ _ K j)]. intros q Hq. rewrite (HBL j q Hq).
      rewrite decide_False; [done|]. intros [Hne ->]. apply Hij.
      apply (fo_disj _ _ K i j (hd NULL (L i))); [by apply hd_In|done].
  - intros j q Hq. unfold upd_list in Hq.
    assert (Hq' : q = h \/ q ∈ L j).
    { destruct (decide (i = j)) as [<-|]; [|by right]. apply elem_of_cons in Hq as [?|?]; [by left|by right]. }
    assert (listable s q) as (? & ? & ?) by (destruct Hq' as [->|Hq']; [done|by apply (fo_blk _ _ K j)]).
    split_and!; try done; try lia. by apply (tbl_frame_has_hdr s s').
  - intros j. unfold upd_list. destruct (decide (i = j)) as [<-|]; [|apply K]. constructor; [apply Hno|apply K].
  - intros j k q Hj Hk. unfold upd_list in *.
    destruct (decide (i = j)) as [<-|], (decide (i = k)) as [<-|]; [done|..].
    + apply elem_of_cons in Hj as [->|Hj]; [by destruct (Hno k)|]. by apply (fo_disj _ _ K i k q).
    + apply elem_of_cons in Hk as [->|Hk]; [by destruct (Hno j)|]. by apply (fo_disj _ _ K j i q).
    + by apply (fo_disj _ _ K j k q).
  - intros j. rewrite Eby, aget_insert. unfold upd_list. destruct (decide (i = j)) as [<-|].
    + rewrite (fo_bytes _ _ K i), wrap64_add_l. cbn [sizes foldr]. fold (sizes s' (L i)).
      rewrite (sizes_ext s s') by (intros; by apply (Hsz i)). f_equal.
      destruct (body_fields _ _ Hh') as (-> & _). cbn. lia.
    + rewrite (fo_bytes _ _ K j). by rewrite (sizes_ext s s') by (intros; by apply (Hsz j)).
  - intros j q Hq. unfold upd_list in Hq.
    assert (Hq' : q = h \/ q ∈ L j).
    { destruct (decide (i = j)) as [<-|]; [|by right]. apply elem_of_cons in Hq as [?|?]; [by left|by right]. }
    destruct Hq' as [->|Hq'].
    + rewrite (body_free _ _ Hh'). apply HBLK_IS_FREE_set.
    + rewrite (body_free _ _ (Hbl j q Hq')). by apply (fo_free _ _ K j).
Qed.

(** ** Walks *)

Lemma NoDup_range_length (l : list Z) (n : Z) :
  NoDup l -> Forall (fun x => 0 <= x < n) l -> Z.of_nat (length l) <= Z.max 0 n.
Proof.
  intros Hnd Hf. assert (Hs : l ⊆ seqZ 0 n).
  { intros x Hx. rewrite Forall_forall in Hf. apply elem_of_seqZ. specialize (Hf x Hx). lia. }
  pose proof (submseteq_length _ _ (NoDup_submseteq _ _ Hnd Hs)) as Hl.
  rewrite length_seqZ in Hl. lia.
Qed.

Lemma fl_length s (L : Z -> list Z) (i : Z) : fl_ok s L -> Z.of_nat (length (L i)) < W64.
Proof.
  intros K. assert (Hl : Z.of_nat (length (L i)) <= Z.max 0 (2 ^ 64 - 1)); [|unfold W64; lia].
  rewrite <- (length_fmap (fun h => h - 1)). apply NoDup_range_length.
  - assert (Inj (=) (=) (fun h => h - 1)) by (intros x y ?; lia). apply NoDup_fmap_2; [done|apply K].
  - apply Forall_fmap. apply Forall_forall. intros h Hh. destruct (fo_blk _ _ K i h Hh) as (? & _).
    unfold W64 in *. cbn. lia.
Qed.

(** A walk along one list folds the callback over its blocks. *)
Lemma iterate_list_spec {A : Type} (fn : Z -> A -> A) s (L : Z -> list Z) (i : Z) (a : A) :
  fl_ok s L ->
  loop (fun '(h, a) => if h =? NULL then inr a else inl (hb_next (hdrb s h), fn h a))
       (aget (GC_hblkfreelist s) i, a)
  = Some (foldl (fun a h => fn h a) a (L i)).
Proof.
  intros K. destruct (loop_spec_rel
    (fun n '(h, a') => exists l1 l2, L i = l1 ++ l2 /\ h = hd NULL l2 /\ n = length l2
        /\ a' = foldl (fun a h => fn h a) a l1)
    (fun r => r = foldl (fun a h => fn h a) a (L i))
    (fun '(h, a) => if h =? NULL then inr a else inl (hb_next (hdrb s h), fn h a))
    (length (L i)) (aget (GC_hblkfreelist s) i, a)) as (r & -> & ->); [| | |done].
  - intros n [h a'] (l1 & l2 & EL & -> & -> & ->). destruct l2 as [|x l2]; cbn [hd].
    { rewrite Z.eqb_refl. by rewrite EL, app_nil_r. }
    assert (Hx : x ∈ L i) by (rewrite EL; apply elem_of_app; right; by left).
    destruct (Z.eqb_spec x NULL) as [->|_].
    { destruct (fo_blk _ _ K i NULL Hx) as [? _]. lia. }
    exists (length l2). split; [cbn; lia|]. exists (l1 ++ [x]), l2.
    pose proof (fo_chain _ _ K i) as Hc. rewrite EL in Hc.
    destruct (fl_chain_mid s NULL x l1 l2 Hc) as [_ ->].
    rewrite foldl_snoc, <- app_assoc. by split_and!.
  - exists [], (L i). split_and!; try done. apply K.
  - by apply fl_length with s.
Qed.

Lemma for_lists_spec {A : Type} (f : Z -> A -> option A) (g : Z -> A -> A) (n : nat) (i : Z) (a : A) :
  (forall j a, f j a = Some (g j a)) ->
  for_lists f n i a = Some (foldl (fun a j => g j a) a (seqZ i (Z.of_nat n))).
Proof.
  intros E. revert i a. induction n as [|n IH]; intros i a; [done|].
  cbn [for_lists]. rewrite E. cbn. rewrite IH, (seqZ_cons i) by lia. cbn.
  do 2 f_equal. f_equal; lia.
Qed.

Lemma iterate_spec {A : Type} (fn : Z -> Z -> A -> A) s (L : Z -> list Z) (a : A) :
  fl_ok s L ->
  GC_iterate_free_hblks fn s a
  = Some (foldl (fun a i => foldl (fun a h => fn h i a) a (L i)) a (seqZ 0 61)).
Proof.
  intros K. unfold GC_iterate_free_hblks, all_lists.
  rewrite (for_lists_spec _ (fun i a => foldl (fun a h => fn h i a) a (L i))).
  - done.
  - intros i a'. by apply (iterate_list_spec (fun h => fn h i)).
Qed.


Lemma add_hb_sz_fold s (l : list Z) (i a : Z) :
  foldl (fun a h => add_hb_sz s h i a) (wrap64 a) l = wrap64 (a + sizes s l).
Proof.
  revert a. induction l as [|h l IH]; intros a; cbn [foldl sizes foldr].
  - by rewrite Z.add_0_r.
  - fold (sizes s l). unfold add_hb_sz at 2. rewrite wrap64_add_l, IH. f_equal. lia.
Qed.

(** The sum of the per-list byte counts. *)
Definition total_bytes s : Z := foldl (fun a i => wrap64 (a + aget (GC_free_bytes s) i)) 0 (seqZ 0 61).

Lemma add_hb_sz_all s (L : Z -> list Z) (js : list Z) (a : Z) :
  (forall i, aget (GC_free_bytes s) i = wrap64 (sizes s (L i))) ->
  foldl (fun a i => foldl (fun a h => add_hb_sz s h i a) a (L i)) (wrap64 a) js
  = foldl (fun a i => wrap64 (a + aget (GC_free_bytes s) i)) (wrap64 a) js.
Proof.
  intros Hb. revert a. induction js as [|j js IH]; intros a; [done|]. cbn [foldl].
  rewrite add_hb_sz_fold, Hb. rewrite wrap64_add_l.
  replace (wrap64 (a + wrap64 (sizes s (L j)))) with (wrap64 (a + sizes s (L j)))
    by (unfold wrap64; symmetry; apply Z.add_mod_idemp_r; done).
  apply IH.
Qed.

(** The search along one list. *)
Lemma search_list_spec s (L : Z -> list Z) (i wanted : Z) :
  fl_ok s L ->
  loop (fun h => if h =? NULL then inr false
                 else if HDRs s h =? wanted then inr true
                 else inl (hb_next (hdrb s h))) (aget (GC_hblkfreelist s) i)
  = Some (bool_decide (wanted ∈ HDRs s <$> L i)).
Proof.
  intros K. match goal with |- loop ?f _ = _ => destruct (loop_spec_rel
    (fun n h => exists l1 l2, L i = l1 ++ l2 /\ h = hd NULL l2 /\ n = length l2
        /\ wanted ∉ HDRs s <$> l1)
    (fun r => r = bool_decide (wanted ∈ HDRs s <$> L i)) f
    (length (L i)) (aget (GC_hblkfreelist s) i)) as (r & -> & ->) end; [| | |done].
  - intros n h (l1 & l2 & EL & -> & -> & Hno). destruct l2 as [|x l2]; cbn [hd].
    { rewrite Z.eqb_refl. rewrite EL, app_nil_r. by rewrite bool_decide_false. }
    assert (Hx : x ∈ L i) by (rewrite EL; apply elem_of_app; right; by left).
    destruct (Z.eqb_spec x NULL) as [->|_].
    { destruct (fo_blk _ _ K i NULL Hx) as [? _]. lia. }
    destruct (Z.eqb_spec (HDRs s x) wanted) as [E|E].
    { symmetry. apply bool_decide_eq_true. rewrite <- E. by apply list_elem_of_fmap_2. }
    exists (length l2). split; [cbn; lia|]. exists (l1 ++ [x]), l2.
    pose proof (fo_chain _ _ K i) as Hc. rewrite EL in Hc.
    destruct (fl_chain_mid s NULL x l1 l2 Hc) as [_ ->].
    rewrite <- app_assoc. split_and!; try done. rewrite fmap_app, elem_of_app. cbn.
    intros [?|Hs]; [done|]. apply list_elem_of_singleton in Hs. by subst.
  - exists [], (L i). split_and!; try done; [apply K|apply not_elem_of_nil].
  - by apply fl_length with s.
Qed.

Lemma index_of_found s (L : Z -> list Z) (h i : Z) (n : nat) (j : Z) :
  fl_ok s L -> h ∈ L i -> j <= i < j + Z.of_nat n ->
  free_list_search s (HDRs s h) n j = Some i.
Proof.
  intros K Hh. revert j. induction n as [|n IH]; intros j Hj; [lia|]. cbn [free_list_search].
  rewrite (search_list_spec s L j) by done. cbn.
  assert (Hiff : HDRs s h ∈ HDRs s <$> L j <-> i = j).
  { rewrite list_elem_of_fmap. split.
    - intros (x & E & Hx). destruct (fo_blk _ _ K i h Hh) as (_ & Hal & Hhd).
      destruct (fo_blk _ _ K j x Hx) as (_ & Hal' & _).
      assert (h = x) as ->; [|by apply (fo_disj _ _ K i j x)].
      apply aligned_same_blk; [done|done|]. apply (hl_inj (tbl s)); [apply K|exact Hhd|exact E].
    - intros <-. by exists h. }
  case_bool_decide as E.
  - apply Hiff in E. by subst.
  - apply IH. assert (i <> j) by tauto. lia.
Qed.

Lemma index_of_missing s (L : Z -> list Z) (h : Z) (n : nat) (j : Z) :
  fl_ok s L -> listable s h -> (forall i, h ∉ L i) ->
  free_list_search s (HDRs s h) n j = Some (-1).
Proof.
  intros K (_ & Hal & Hhd) Hno. revert j. induction n as [|n IH]; intros j; [done|]. cbn [free_list_search].
  rewrite (search_list_spec s L j) by done. cbn. case_bool_decide as E; [|apply IH].
  exfalso. apply list_elem_of_fmap in E as (x & E & Hx). destruct (fo_blk _ _ K j x Hx) as (_ & Hal' & _).
  apply (Hno j). replace h with x; [done|]. symmetry.
  apply aligned_same_blk; [done|done|]. apply (hl_inj (tbl s)); [apply K|exact Hhd|exact E].
Qed.

(** ** Properties *)

(** Removing a block from the list it is on keeps all 61 lists consistent:
    doubly linked, without duplicates, with exact byte counts; the list is the
    old one without that block, every other list is unchanged, and no header
    field other than the links is touched. *)
Theorem GC_remove_from_fl_at_correct s (L : Z -> list Z) (i h : Z) (l1 l2 : list Z)
    (K : fl_ok s L) (Hin : L i = l1 ++ h :: l2) :
  let s' := GC_remove_from_fl_at (HDRs s h) i s in
  fl_ok s' (upd_list i (l1 ++ l2) L) /\ (forall p, HDRs s' p = HDRs s p)
  /\ forall q, body (hdrb s' q) = body (hdrb s q).
Proof. destruct (remove_at_ok s L i h l1 l2 K Hin) as (? & F & ?). split_and!; try done. apply F. Qed.

(** Adding an unlisted block puts it at the head of the list of its size,
    marks it free, and keeps all 61 lists consistent. *)
Theorem GC_add_to_fl_correct s (L : Z -> list Z) (h : Z)
    (K : fl_ok s L) (Hh : listable s h) (Hno : forall j, h ∉ L j) :
  let s' := GC_add_to_fl h (HDRs s h) s in
  fl_ok s' (upd_list (fl_index s h) (h :: L (fl_index s h)) L)
  /\ HBLK_IS_FREE (hdrb s' h) = true /\ hb_sz (hdrb s' h) = hb_sz (hdrb s h)
  /\ forall q, ~ same_blk q h -> body (hdrb s' q) = body (hdrb s q).
Proof.
  destruct (add_ok s L h K Hh Hno) as (K' & F & HB). split; [done|].
  assert (E := HB h). rewrite decide_True in E by done.
  split; [rewrite (body_free _ _ E); apply HBLK_IS_FREE_set|].
  split; [by destruct (body_fields _ _ E) as (-> & _)|].
  intros q Hq. by rewrite HB, decide_False.
Qed.

(** Walking the lists terminates and the total number of free bytes it
    finds is the sum of the maintained per-list counts. *)
Theorem GC_compute_large_free_bytes_correct s (L : Z -> list Z) (K : fl_ok s L) :
  GC_compute_large_free_bytes s = Some (total_bytes s).
Proof.
  unfold GC_compute_large_free_bytes. rewrite (iterate_spec _ s L) by done. f_equal.
  apply (add_hb_sz_all s L (seqZ 0 61) 0). apply K.
Qed.

(** [free_list_index_of] returns the list a block is on, and -1 when it is on
    none. *)
Theorem free_list_index_of_correct s (L : Z -> list Z) (h : Z)
    (K : fl_ok s L) (Hh : listable s h) :
  (forall i, 0 <= i <= N_HBLK_FLS -> h ∈ L i -> free_list_index_of s (HDRs s h) = Some i)
  /\ ((forall i, h ∉ L i) -> free_list_index_of s (HDRs s h) = Some (-1)).
Proof.
  split.
  - intros i Hi Hin. apply (index_of_found s L); [done|done|].
    rewrite N_HBLK_FLS_eq in *. change (Z.to_nat (60 + 1)) with 61%nat. lia.
  - by apply index_of_missing.
Qed.

End FreeList.

(** The size classes: every block count has a list; a class never holds
    smaller blocks than a lower one, counts up to 32 have a list of their own,
    and all counts from 256 share the last list. *)
Theorem GC_hblk_fl_from_blocks_correct (n m : Z) (Hn : 0 <= n <= m) :
  0 <= GC_hblk_fl_from_blocks n <= GC_hblk_fl_from_blocks m
  /\ GC_hblk_fl_from_blocks m <= N_HBLK_FLS
  /\ (n <= UNIQUE_THRESHOLD -> GC_hblk_fl_from_blocks n = GC_hblk_fl_from_blocks m ->
      m = n \/ UNIQUE_THRESHOLD <= n)
  /\ (HUGE_THRESHOLD <= n -> GC_hblk_fl_from_blocks n = N_HBLK_FLS).
Proof.
  pose proof (fl_from_blocks_range n). pose proof (fl_from_blocks_range m).
  pose proof (fl_from_blocks_mono n m Hn). split_and!; try lia.
  - unfold GC_hblk_fl_from_blocks, UNIQUE_THRESHOLD, HUGE_THRESHOLD, FL_COMPRESSION.
    rewrite N_HBLK_FLS_eq. repeat bcase; dlia.
  - unfold GC_hblk_fl_from_blocks, UNIQUE_THRESHOLD, HUGE_THRESHOLD.
    repeat bcase; lia.
Qed.

Lemma GC_hblk_fl_from_blocks_correct_witness :
  0 <= 40 <= 300 /\ GC_hblk_fl_from_blocks 40 = 33 /\ GC_hblk_fl_from_blocks 300 = 60
  /\ 0 <= GC_hblk_fl_from_blocks 40 <= GC_hblk_fl_from_blocks 300.
Proof.
  split; [lia|]. split; [reflexivity|]. split; [reflexivity|].
  apply (GC_hblk_fl_from_blocks_correct 40 300). lia.
Defined.

(** ** A concrete state: one block of four pages *)

Lemma empty_lists_ok (st : hdr_state) : wf_table st -> fl_ok (FlState st ∅ ∅) (fun _ => []).
Proof.
  intros Hwf. split; cbn [tbl GC_hblkfreelist GC_free_bytes]; try done.
  - intros i h Hh. by apply elem_of_nil in Hh.
  - intros i. constructor.
  - intros i j h Hh. by apply elem_of_nil in Hh.
  - intros i h Hh. by apply elem_of_nil in Hh.
Qed.

Lemma sample_fl :
  exists s : fl_state hdr_state, fl_ok s (fun _ => []) /\ listable s 1048576
    /\ hb_sz (hdrb s 1048576) = 16384.
Proof.
  destruct HeadersNav.sample_nav as (st & v & Hwf & _ & Hv & E & Eh & _).
  exists (FlState st ∅ ∅). split; [by apply empty_lists_ok|]. split.
  - split; [done|]. split; [done|]. unfold has_hdr, HDRs. cbn. rewrite E. by apply is_hdr_ptr_ge.
  - unfold hdrb, hdr_at, HDRs. cbn. by rewrite E, Eh.
Qed.

Lemma sample_fl_listed :
  exists s : fl_state hdr_state, fl_ok s (upd_list 4 [1048576] (fun _ => [])) /\ listable s 1048576.
Proof.
  destruct sample_fl as (s & K & Hh & Hsz).
  destruct (add_ok s _ 1048576 K Hh) as (K' & F & _); [intros; apply not_elem_of_nil|].
  assert (E : fl_index s 1048576 = 4) by (unfold fl_index; by rewrite Hsz). rewrite E in K'.
  eexists. split; [exact K'|]. destruct Hh as (? & ? & ?). split_and!; try done; try lia.
  by apply (tbl_frame_has_hdr _ _ _ F).
Qed.

Lemma GC_add_to_fl_correct_witness :
  exists s : fl_state hdr_state, fl_ok s (fun _ => [])
    /\ HBLK_IS_FREE (hdrb (GC_add_to_fl 1048576 (HDRs s 1048576) s) 1048576) = true.
Proof.
  destruct sample_fl as (s & K & Hh & _). exists s. split; [exact K|].
  apply (GC_add_to_fl_correct s (fun _ => []) 1048576 K Hh). intros j. apply not_elem_of_nil.
Defined.

Lemma GC_remove_from_fl_at_correct_witness :
  exists s : fl_state hdr_state, fl_ok s (upd_list 4 [1048576] (fun _ => []))
    /\ fl_ok (GC_remove_from_fl_at (HDRs s 1048576) 4 s)
         (upd_list 4 [] (upd_list 4 [1048576] (fun _ => []))).
Proof.
  destruct sample_fl_listed as (s & K & _). exists s. split; [exact K|].
  apply (GC_remove_from_fl_at_correct s _ 4 1048576 [] [] K). reflexivity.
Defined.

Lemma GC_compute_large_free_bytes_correct_witness :
  exists s : fl_state hdr_state, GC_compute_large_free_bytes s = Some (total_bytes s)
    /\ fl_ok s (upd_list 4 [1048576] (fun _ => [])).
Proof.
  destruct sample_fl_listed as (s & K & _). exists s. split; [|exact K].
  exact (GC_compute_large_free_bytes_correct s _ K).
Defined.

Lemma free_list_index_of_correct_witness :
  exists s : fl_state hdr_state, free_list_index_of s (HDRs s 1048576) = Some 4.
Proof.
  destruct sample_fl_listed as (s & K & Hh). exists s.
  apply (free_list_index_of_correct s _ 1048576 K Hh).
  - vm_compute. split; congruence.
  - unfold upd_list. cbn. by left.
Defined.

End FreeList.
