(* ===== verification/Allchblk.v ===== *)
(** * Allocation and deallocation of heap blocks (allchblk.c)

    The block allocator on top of the free lists: searching a list for a block
    that fits and is not black-listed, splitting it, coalescing neighbours on
    deallocation, and returning unused memory to the system.  The model is the
    LP64 Linux build with [USE_MUNMAP], without [COUNT_UNMAPPED_REGIONS],
    threads or assertions.  The contents of heap memory are not part of the
    state; calls that map or unmap memory are recorded in order. *)

From Stdlib Require Import ZArith Lia.
From stdpp Require Import base gmap list.
From S2P Require Import Prelude BlackList Scratch Hblk Headers HeadersNav HdrIface MarkBits ObjMap FreeList.

Module Allchblk.
Import BlackList Headers HdrIface MarkBits ObjMap FreeList.

Definition PTRFREE : Z := 0.
Definition NORMAL : Z := 1.
Definition MAX_BLACK_LIST_ALLOC : Z := 2 * HBLKSIZE.
Definition AVOID_SPLIT_REMAPPED : Z := 2.

(** What [setup_header] reads of [struct obj_kind]. *)
Record obj_kind := ObjKind {
  ok_descriptor : Z;
  ok_relocate_descr : bool;
  ok_mark_unconditionally : bool;
  ok_disclaim_proc : bool        (* whether there is one *)
}.

(** Memory calls to the system (os_dep.c). *)
Inductive os_event :=
  | GC_unmap (start bytes : Z)
  | GC_remap (start bytes : Z)
  | GC_unmap_gap (start1 bytes1 start2 bytes2 : Z).

(** Collector variables the allocator only reads. *)
Record params := Params {
  GC_obj_kinds : Z -> obj_kind;
  GC_gc_no : Z;
  p_heapsize : Z;
  GC_requested_heapsize : Z;
  GC_large_allocd_bytes : Z;
  GC_max_large_allocd_bytes : Z;
  GC_finalizer_bytes_freed : Z;
  GC_use_entire_heap : bool;
  GC_dont_gc : bool;
  GC_incremental : bool;
  GC_find_leak_inner : bool;
  GC_large_alloc_warn_interval : Z
}.

Record heap (T : Type) := Heap {
  fls : fl_state T;
  obj_map : gmap Z (list Z);
  bls : bl_state;
  prm : params;
  GC_large_free_bytes : Z;
  GC_bytes_dropped : Z;
  GC_drop_blacklisted_count : Z;
  GC_large_alloc_warn_suppressed : Z;
  GC_alloc_fail_count : Z;
  os_calls : list os_event
}.
Arguments Heap {T}.
Arguments fls {T}.
Arguments obj_map {T}.
Arguments bls {T}.
Arguments prm {T}.
Arguments GC_large_free_bytes {T}.
Arguments GC_bytes_dropped {T}.
Arguments GC_drop_blacklisted_count {T}.
Arguments GC_large_alloc_warn_suppressed {T}.
Arguments GC_alloc_fail_count {T}.
Arguments os_calls {T}.

Definition ALIGN_PAD_SZ (p align_m1 : Z) : Z := Z.land (wrap64 (align_m1 + 1 - p)) align_m1.
Definition BLOCKS_MERGE_OVERFLOW (hhdr nexthdr : hdr) : bool :=
  negb (Z.land (wrap64 (hb_sz hhdr + hb_sz nexthdr)) SIZET_SIGNB =? 0).
Definition round_to_blocks (lb : Z) : Z :=
  Z.land (wrap64 (lb + HBLKSIZE - 1)) (Z.lxor GC_SIZE_MAX (HBLKSIZE - 1)).

Section Allchblk.
Context {T : Type} `{HeaderTable T}.
Implicit Types (hp : heap T).

Definition set_fls (s : fl_state T) hp : heap T :=
  Heap s (obj_map hp) (bls hp) (prm hp) (GC_large_free_bytes hp) (GC_bytes_dropped hp)
    (GC_drop_blacklisted_count hp) (GC_large_alloc_warn_suppressed hp) (GC_alloc_fail_count hp)
    (os_calls hp).
Definition set_obj_map om hp : heap T :=
  Heap (fls hp) om (bls hp) (prm hp) (GC_large_free_bytes hp) (GC_bytes_dropped hp)
    (GC_drop_blacklisted_count hp) (GC_large_alloc_warn_suppressed hp) (GC_alloc_fail_count hp)
    (os_calls hp).
Definition set_large_free (n : Z) hp : heap T :=
  Heap (fls hp) (obj_map hp) (bls hp) (prm hp) n (GC_bytes_dropped hp)
    (GC_drop_blacklisted_count hp) (GC_large_alloc_warn_suppressed hp) (GC_alloc_fail_count hp)
    (os_calls hp).
Definition set_dropped (n : Z) hp : heap T :=
  Heap (fls hp) (obj_map hp) (bls hp) (prm hp) (GC_large_free_bytes hp) n
    (GC_drop_blacklisted_count hp) (GC_large_alloc_warn_suppressed hp) (GC_alloc_fail_count hp)
    (os_calls hp).
Definition set_drop_count (n : Z) hp : heap T :=
  Heap (fls hp) (obj_map hp) (bls hp) (prm hp) (GC_large_free_bytes hp) (GC_bytes_dropped hp)
    n (GC_large_alloc_warn_suppressed hp) (GC_alloc_fail_count hp) (os_calls hp).
Definition set_warn_suppressed (n : Z) hp : heap T :=
  Heap (fls hp) (obj_map hp) (bls hp) (prm hp) (GC_large_free_bytes hp) (GC_bytes_dropped hp)
    (GC_drop_blacklisted_count hp) n (GC_alloc_fail_count hp) (os_calls hp).
Definition set_fail_count (n : Z) hp : heap T :=
  Heap (fls hp) (obj_map hp) (bls hp) (prm hp) (GC_large_free_bytes hp) (GC_bytes_dropped hp)
    (GC_drop_blacklisted_count hp) (GC_large_alloc_warn_suppressed hp) n (os_calls hp).
Definition os_call (e : os_event) hp : heap T :=
  Heap (fls hp) (obj_map hp) (bls hp) (prm hp) (GC_large_free_bytes hp) (GC_bytes_dropped hp)
    (GC_drop_blacklisted_count hp) (GC_large_alloc_warn_suppressed hp) (GC_alloc_fail_count hp)
    (os_calls hp ++ [e]).

(** Shorthands: the header at a pointer, the header pointer of a block, an update
    through a pointer, and table operations on the heap state. *)
Definition hread hp (hhdr : Z) : hdr := hdr_at (fls hp) hhdr.
Definition hptr hp (h : Z) : Z := HDRs (fls hp) h.
Definition hwrite (hhdr : Z) (f : hdr -> hdr) hp : heap T := set_fls (upd_hdr hhdr f (fls hp)) hp.
Definition on_fls (f : fl_state T -> fl_state T) hp : heap T := set_fls (f (fls hp)) hp.
Definition on_tbl (f : T -> option T) hp : option (heap T) :=
  t ← f (tbl (fls hp)); Some (set_fls (set_tbl t (fls hp)) hp).
Definition on_tbl_res {R : Type} (f : T -> option (R * T)) hp : option (R * heap T) :=
  '(r, t) ← f (tbl (fls hp)); Some (r, set_fls (set_tbl t (fls hp)) hp).

(** *** Headers *)

Definition setup_header (hhdr block lb_adjusted kind flags : Z) hp : option (bool * heap T) :=
  let ok := GC_obj_kinds (prm hp) kind in
  let flags := if MAXOBJBYTES <? lb_adjusted then Z.lor flags LARGE_BLOCK else flags in
  let flags := if ok_disclaim_proc ok then Z.lor flags HAS_DISCLAIM else flags in
  let flags := if ok_mark_unconditionally ok then Z.lor flags MARK_UNCONDITIONALLY else flags in
  let hp := hwrite hhdr (fun x => set_hb_block block (set_hb_flags (flags mod 256)
              (set_hb_obj_kind (kind mod 256) (set_hb_sz lb_adjusted x)))) hp in
  let descr := ok_descriptor ok in
  let descr := if GC_all_interior_pointers (bls hp) && flag_set flags IGNORE_OFF_PAGE
                  && (kind =? NORMAL) && (HBLKSIZE <=? lb_adjusted)
               then wrap64 (descr + ALIGNMENT) else descr in
  let descr := if ok_relocate_descr ok then wrap64 (descr + lb_adjusted) else descr in
  let hp := hwrite hhdr (set_hb_descr descr) hp in
  let lg := BYTES_TO_GRANULES lb_adjusted in
  '(b, om, t) ← GC_add_map_entry lg (obj_map hp) (tbl (fls hp));
  let hp := set_obj_map om (set_fls (set_tbl t (fls hp)) hp) in
  if negb b then
    Some (false, hwrite hhdr (fun x => set_hb_map None
            (set_hb_flags (Z.lor (hb_flags x) LARGE_BLOCK)
              (set_hb_descr 0 (set_hb_sz HBLKSIZE x)))) hp)
  else
    Some (true, hwrite hhdr (fun x =>
            set_hb_last_reclaimed (GC_gc_no (prm hp) mod 65536)
              (GC_clear_hdr_marks
                (set_hb_map (Some (if flag_set (hb_flags x) LARGE_BLOCK then 0 else lg)) x))) hp).

(** *** Neighbours *)

Definition get_block_ending_at hp (h : Z) : option Z :=
  let p := h - HBLKSIZE in
  let hhdr := hptr hp p in
  if negb (hhdr =? NULL) then
    '(p, _) ← ht_find_starting (tbl (fls hp)) p hhdr; Some p
  else
    p ← ht_prev_block (tbl (fls hp)) p;
    Some (if negb (p =? NULL) && (p + hb_sz (hread hp (hptr hp p)) =? h) then p else NULL).

Definition GC_free_block_ending_at hp (h : Z) : option Z :=
  p ← get_block_ending_at hp h;
  Some (if negb (p =? NULL) && HBLK_IS_FREE (hread hp (hptr hp p)) then p else NULL).

(** *** Deallocation *)

(** Coalescing with the successor and with the predecessor, if possible. *)
Definition free_merge_next (hhdr next : Z) hp : option (heap T) :=
  let nexthdr := hptr hp next in
  if negb (nexthdr =? NULL) && HBLK_IS_FREE (hread hp nexthdr) && IS_MAPPED (hread hp nexthdr)
     && negb (BLOCKS_MERGE_OVERFLOW (hread hp hhdr) (hread hp nexthdr)) then
    let hp := on_fls (GC_remove_from_fl nexthdr) hp in
    let hp := hwrite hhdr (fun x => set_hb_sz (wrap64 (hb_sz x + hb_sz (hread hp nexthdr))) x) hp in
    on_tbl (ht_remove_header next) hp
  else Some hp.

Definition free_merge_prev (hbp hhdr prev : Z) hp : option (Z * Z * heap T) :=
  if negb (prev =? NULL) && IS_MAPPED (hread hp (hptr hp prev))
     && negb (BLOCKS_MERGE_OVERFLOW (hread hp (hptr hp prev)) (hread hp hhdr)) then
    let prevhdr := hptr hp prev in
    let hp := on_fls (GC_remove_from_fl prevhdr) hp in
    let hp := hwrite prevhdr (fun x => set_hb_last_reclaimed (GC_gc_no (prm hp) mod 65536)
                (set_hb_sz (wrap64 (hb_sz x + hb_sz (hread hp hhdr))) x)) hp in
    hp ← on_tbl (ht_remove_header hbp) hp;
    Some (prev, prevhdr, hp)
  else Some (hbp, hhdr, hp).

(** [None] is an abort. *)
Definition GC_freehblk (hbp : Z) hp : option (heap T) :=
  let hp := set_fls (set_tbl (ht_invalidate (tbl (fls hp))) (fls hp)) hp in
  let hhdr := hptr hp hbp in
  let size := HBLKSIZE * OBJ_SZ_TO_BLOCKS (hb_sz (hread hp hhdr)) in
  if negb (Z.land size SIZET_SIGNB =? 0) then None
  else
    hp ← on_tbl (ht_remove_counts hbp size) hp;
    let hp := hwrite hhdr (fun x => set_hb_last_reclaimed (GC_gc_no (prm hp) mod 65536)
                (set_hb_sz size x)) hp in
    if HBLK_IS_FREE (hread hp hhdr) then None
    else
      let hp := hwrite hhdr (fun x => set_hb_flags (Z.lor (hb_flags x) FREE_BLK) x) hp in
      let next := hbp + size in
      prev ← GC_free_block_ending_at hp hbp;
      hp ← free_merge_next hhdr next hp;
      '(hbp, hhdr, hp) ← free_merge_prev hbp hhdr prev hp;
      let hp := set_large_free (wrap64 (GC_large_free_bytes hp + size)) hp in
      Some (on_fls (GC_add_to_fl hbp hhdr) hp).

(** *** Returning memory to the system *)

(** The inner loop of [GC_unmap_old] over one list. *)
Definition unmap_old_list (threshold i : Z) hp : option (heap T) :=
  loop (fun '(h, hp) =>
    if h =? NULL then inr hp
    else
      let hhdr := hptr hp h in
      let hp := if negb (IS_MAPPED (hread hp hhdr)) then hp
                else if threshold mod 65536
                        <=? (GC_gc_no (prm hp) - hb_last_reclaimed (hread hp hhdr)) mod 65536 then
                  let hp := os_call (GC_unmap h (hb_sz (hread hp hhdr))) hp in
                  hwrite hhdr (fun x => set_hb_flags (Z.lor (hb_flags x) WAS_UNMAPPED) x) hp
                else hp in
      inl (hb_next (hread hp hhdr), hp))
    (aget (GC_hblkfreelist (fls hp)) i, hp).

Definition GC_unmap_old (threshold : Z) hp : option (heap T) :=
  all_lists (fun i hp => unmap_old_list threshold i hp) hp.

(** Merging [h] with its free successor [next], as [GC_merge_unmapped] does:
    first make both mapped or both unmapped. *)
Definition merge_step (i h : Z) hp : option (heap T) :=
  let hhdr := hptr hp h in
  let size := hb_sz (hread hp hhdr) in
  let next := h + size in
  let nexthdr := hptr hp next in
  let next_size := hb_sz (hread hp nexthdr) in
  let hp :=
    if IS_MAPPED (hread hp hhdr) && negb (IS_MAPPED (hread hp nexthdr)) then
      if next_size <? size then os_call (GC_remap next next_size) hp
      else
        let hp := os_call (GC_unmap h size) hp in
        let hp := os_call (GC_unmap_gap h size next next_size) hp in
        hwrite hhdr (fun x => set_hb_flags (Z.lor (hb_flags x) WAS_UNMAPPED) x) hp
    else if IS_MAPPED (hread hp nexthdr) && negb (IS_MAPPED (hread hp hhdr)) then
      if next_size <? size then
        let hp := os_call (GC_unmap next next_size) hp in
        os_call (GC_unmap_gap h size next next_size) hp
      else
        let hp := os_call (GC_remap h size) hp in
        hwrite hhdr (fun x => set_hb_last_reclaimed (hb_last_reclaimed (hread hp nexthdr))
                       (set_hb_flags (clear_flag (hb_flags x) WAS_UNMAPPED) x)) hp
    else if negb (IS_MAPPED (hread hp hhdr)) && negb (IS_MAPPED (hread hp nexthdr)) then
      os_call (GC_unmap_gap h size next next_size) hp
    else hp in
  let hp := on_fls (GC_remove_from_fl_at hhdr i) hp in
  let hp := on_fls (GC_remove_from_fl nexthdr) hp in
  let hp := hwrite hhdr (fun x => set_hb_sz (wrap64 (hb_sz x + hb_sz (hread hp nexthdr))) x) hp in
  hp ← on_tbl (ht_remove_header next) hp;
  Some (on_fls (GC_add_to_fl h hhdr) hp).

(** Whether [h] is followed by a free block it may be merged with. *)
Definition mergeable hp (h : Z) : bool :=
  let hhdr := hptr hp h in
  let nexthdr := hptr hp (h + hb_sz (hread hp hhdr)) in
  negb (nexthdr =? NULL) && HBLK_IS_FREE (hread hp nexthdr)
  && negb (BLOCKS_MERGE_OVERFLOW (hread hp hhdr) (hread hp nexthdr)).

Definition merge_list (i : Z) (s : bool * heap T) : option (bool * heap T) :=
  '(r : option (bool * heap T)) ←
    loop (fun '(h, merged, hp) =>
      if h =? NULL then inr (Some (merged, hp))
      else if negb (mergeable hp h) then inl (hb_next (hread hp (hptr hp h)), merged, hp)
      else match merge_step i h hp with
           | None => inr None
           | Some hp => inl (aget (GC_hblkfreelist (fls hp)) i, true, hp)
           end)
      (aget (GC_hblkfreelist (fls s.2)) i, s.1, s.2);
  r.

Definition GC_merge_unmapped hp : option (bool * heap T) := all_lists merge_list (false, hp).

(** *** Coalescing for one request *)

(** The scan along the free neighbours of [h]; the answer is whether the chain
    reaches [required] bytes. *)
Definition chain_reaches hp (h required : Z) : option bool :=
  let hhdr := hptr hp h in
  loop (fun '(next, total) =>
    let nexthdr := hptr hp next in
    if negb (nexthdr =? NULL) && HBLK_IS_FREE (hread hp nexthdr)
       && negb (BLOCKS_MERGE_OVERFLOW (hread hp hhdr) (hread hp nexthdr)) then
      let total := wrap64 (total + hb_sz (hread hp nexthdr)) in
      if required <=? total then inr true
      else inl (next + hb_sz (hread hp nexthdr), total)
    else inr (negb (nexthdr =? NULL) && HBLK_IS_FREE (hread hp nexthdr) && (required <=? total)))
    (h + hb_sz (hread hp hhdr), hb_sz (hread hp hhdr)).

(** One iteration of the merging loop: an unmapped member makes the result
    unmapped. *)
Definition merge_alloc_step (h : Z) hp : option (heap T) :=
  let hhdr := hptr hp h in
  let size := hb_sz (hread hp hhdr) in
  let next := h + size in
  let nexthdr := hptr hp next in
  let next_size := hb_sz (hread hp nexthdr) in
  let hp :=
    if IS_MAPPED (hread hp hhdr) && negb (IS_MAPPED (hread hp nexthdr)) then
      let hp := os_call (GC_unmap h size) hp in
      let hp := os_call (GC_unmap_gap h size next next_size) hp in
      hwrite hhdr (fun x => set_hb_flags (Z.lor (hb_flags x) WAS_UNMAPPED) x) hp
    else if negb (IS_MAPPED (hread hp hhdr)) && IS_MAPPED (hread hp nexthdr) then
      let hp := os_call (GC_unmap next next_size) hp in
      os_call (GC_unmap_gap h size next next_size) hp
    else if negb (IS_MAPPED (hread hp hhdr)) then os_call (GC_unmap_gap h size next next_size) hp
    else hp in
  let hp := on_fls (GC_remove_from_fl hhdr) hp in
  let hp := on_fls (GC_remove_from_fl nexthdr) hp in
  let hp := hwrite hhdr (fun x => set_hb_sz (wrap64 (hb_sz x + next_size)) x) hp in
  hp ← on_tbl (ht_remove_header next) hp;
  Some (on_fls (GC_add_to_fl h hhdr) hp).

Definition merge_chain (h required : Z) hp : option (heap T) :=
  '(r : option (heap T)) ←
    loop (fun hp => match merge_alloc_step h hp with
                    | None => inr None
                    | Some hp => if hb_sz (hread hp (hptr hp h)) <? required then inl hp
                                 else inr (Some hp)
                    end) hp;
  r.

(** One list: [Some h] is a block whose chain was merged. *)
Definition merge_alloc_list (size_needed align_m1 i : Z) hp : option (bool * heap T) :=
  '(r : option (bool * heap T)) ←
    loop (fun h =>
      if h =? NULL then inr (Some (false, hp))
      else
        let required := wrap64 (size_needed + ALIGN_PAD_SZ h align_m1) in
        let hhdr := hptr hp h in
        if required <=? hb_sz (hread hp hhdr) then inl (hb_next (hread hp hhdr))
        else match chain_reaches hp h required with
             | None => inr None
             | Some false => inl (hb_next (hread hp hhdr))
             | Some true => inr (hp ← merge_chain h required hp; Some (true, hp))
             end) (aget (GC_hblkfreelist (fls hp)) i);
  r.

Definition GC_merge_free_blocks_for_alloc (size_needed align_m1 : Z) hp : option (bool * heap T) :=
  all_lists (fun i (s : bool * heap T) => if s.1 then Some s else merge_alloc_list size_needed align_m1 i s.2) (false, hp).

(** *** Allocation from one list *)

(** [None] inside is the source's [NULL]. *)
Definition GC_get_first_part (h hhdr size_needed index : Z) hp : option (Z * heap T) :=
  let total_size := hb_sz (hread hp hhdr) in
  let hp := on_fls (GC_remove_from_fl_at hhdr index) hp in
  if total_size =? size_needed then Some (h, hp)
  else
    let rest := h + size_needed in
    '(rest_hdr, hp) ← on_tbl_res (ht_install_header rest) hp;
    if rest_hdr =? NULL then Some (NULL, hp)
    else
      let hp := hwrite rest_hdr (fun x => set_hb_flags 0
                  (set_hb_sz (wrap64 (total_size - size_needed)) (set_hb_block rest x))) hp in
      Some (h, on_fls (GC_add_to_fl rest rest_hdr) hp).

Definition GC_split_block (hbp hhdr last_hbp last_hdr index : Z) hp : heap T :=
  let h_size := last_hbp - hbp in
  let prev := hb_prev (hread hp hhdr) in
  let next := hb_next (hread hp hhdr) in
  let hp := hwrite last_hdr (fun x => set_hb_flags 0
              (set_hb_sz (wrap64 (hb_sz (hread hp hhdr) - h_size))
                (set_hb_block last_hbp (set_hb_next next (set_hb_prev prev x))))) hp in
  let hp := if negb (prev =? NULL) then hwrite (hptr hp prev) (set_hb_next last_hbp) hp
            else on_fls (set_head index last_hbp) hp in
  let hp := if negb (next =? NULL) then hwrite (hptr hp next) (set_hb_prev last_hbp) hp else hp in
  let hp := on_fls (fun s => set_bytes index (wrap64 (aget (GC_free_bytes s) index - h_size)) s) hp in
  let hp := hwrite hhdr (fun x => set_hb_sz h_size
              (set_hb_last_reclaimed (GC_gc_no (prm hp) mod 65536) x)) hp in
  let hp := on_fls (GC_add_to_fl hbp hhdr) hp in
  hwrite last_hdr (fun x => set_hb_flags (Z.lor (hb_flags x) FREE_BLK) x) hp.

Definition next_hblk_fits_better hp (hhdr size_avail size_needed align_m1 : Z) : option bool :=
  let next_hbp := hb_next (hread hp hhdr) in
  if next_hbp =? NULL then Some false
  else
    let next_size := hb_sz (hread hp (hptr hp next_hbp)) in
    if size_avail <=? next_size then Some false
    else
      let next_ofs := ALIGN_PAD_SZ next_hbp align_m1 in
      if next_size <? wrap64 (size_needed + next_ofs) then Some false
      else
        b ← GC_is_black_listed (bls hp) (next_hbp + divHBLKSZ next_ofs * HBLKSIZE) size_needed;
        Some (b =? NULL).

(** The do-while over candidate starts inside a block. *)
Definition find_non_bl_hblk (bl : bl_state) (last_hbp size_remain eff_size_needed align_m1 : Z)
    : option Z :=
  let search_end := PTR_ALIGN_DOWN (last_hbp + size_remain) (align_m1 + 1) in
  '(r : option Z) ←
    loop (fun last_hbp =>
      let last_hbp := last_hbp + divHBLKSZ (ALIGN_PAD_SZ last_hbp align_m1) * HBLKSIZE in
      match GC_is_black_listed bl last_hbp eff_size_needed with
      | None => inr None
      | Some next_hbp =>
        if next_hbp =? NULL then inr (Some last_hbp)
        else if next_hbp <=? search_end then inl next_hbp
        else inr (Some NULL)
      end) last_hbp;
  r.

Definition drop_hblk_in_chunks (n hbp hhdr : Z) hp : option (heap T) :=
  let total_size := hb_sz (hread hp hhdr) in
  let limit := hbp + divHBLKSZ total_size * HBLKSIZE in
  let hp := set_large_free (wrap64 (GC_large_free_bytes hp - total_size)) hp in
  let hp := set_dropped (wrap64 (GC_bytes_dropped hp + total_size)) hp in
  let hp := on_fls (GC_remove_from_fl_at hhdr n) hp in
  '(r : option (heap T)) ←
    loop (fun '(hbp, hhdr, hp) =>
      match setup_header hhdr hbp HBLKSIZE PTRFREE 0 hp with
      | None => inr None
      | Some (_, hp) =>
        let hbp := hbp + HBLKSIZE in
        if limit <=? hbp then inr (Some hp)
        else match on_tbl_res (ht_install_header hbp) hp with
             | None => inr None
             | Some (hhdr, hp) => if hhdr =? NULL then inr (Some hp) else inl (hbp, hhdr, hp)
             end
      end) (hbp, hhdr, hp);
  r.

(** The search of [GC_allochblk_nth]: the chosen block with the address to carve
    at, or [(NULL, NULL)]. *)
Definition nth_search_body (size_needed kind flags index may_split align_m1 : Z)
    (st : Z * heap T) : (Z * heap T) + option (Z * Z * heap T) :=
  let '(hbp, hp) := st in
  if hbp =? NULL then inr (Some (NULL, NULL, hp))
  else
    let hhdr := hptr hp hbp in
    let continue := inl (hb_next (hread hp hhdr), hp) in
    let size_avail := hb_sz (hread hp hhdr) in
    if (may_split =? 0) && negb (size_avail =? size_needed) then continue
    else
      let align_ofs := ALIGN_PAD_SZ hbp align_m1 in
      if size_avail <? wrap64 (size_needed + align_ofs) then continue
      else
        match (if negb (size_avail =? size_needed)
               then next_hblk_fits_better hp hhdr size_avail size_needed align_m1
               else Some false) with
        | None => inr None
        | Some true => continue
        | Some false =>
          if IS_UNCOLLECTABLE kind || ((kind =? PTRFREE) && (size_needed <=? MAX_BLACK_LIST_ALLOC))
          then inr (Some (hbp, hbp + divHBLKSZ align_ofs * HBLKSIZE, hp))
          else
            match find_non_bl_hblk (bls hp) hbp (size_avail - size_needed)
                    (if flag_set flags IGNORE_OFF_PAGE then HBLKSIZE else size_needed) align_m1 with
            | None => inr None
            | Some last_hbp =>
              if negb (last_hbp =? NULL) then
                if (may_split =? AVOID_SPLIT_REMAPPED) && negb (last_hbp =? hbp)
                   && negb (IS_MAPPED (hread hp hhdr))
                then continue
                else inr (Some (hbp, last_hbp, hp))
              else
                let droppable := (size_needed =? HBLKSIZE) && (align_m1 =? 0)
                                 && negb (GC_find_leak_inner (prm hp)) && IS_MAPPED (hread hp hhdr) in
                let count := (GC_drop_blacklisted_count hp + 1) mod 2 ^ 32 in
                let hp := if droppable then set_drop_count count hp else hp in
                if droppable && (Z.land count 3 =? 0) then
                  let prev := hb_prev (hread hp hhdr) in
                  match drop_hblk_in_chunks index hbp hhdr hp with
                  | None => inr None
                  | Some hp =>
                    if prev =? NULL then inl (aget (GC_hblkfreelist (fls hp)) index, hp)
                    else inl (hb_next (hread hp (hptr hp prev)), hp)
                  end
                else if (GC_black_list_spacing (bls hp) <? size_needed)
                        && (GC_black_list_spacing (bls hp) <? size_avail - size_needed) then
                  let warned := GC_large_alloc_warn_suppressed hp + 1 in
                  let hp := set_warn_suppressed
                              (if GC_large_alloc_warn_interval (prm hp) <=? warned then 0 else warned) hp in
                  inr (Some (hbp, hbp + divHBLKSZ align_ofs * HBLKSIZE, hp))
                else inl (hb_next (hread hp hhdr), hp)
            end
        end.

Definition nth_search (size_needed kind flags index may_split align_m1 : Z) hp
    : option (Z * Z * heap T) :=
  '(r : option (Z * Z * heap T)) ←
    loop (nth_search_body size_needed kind flags index may_split align_m1)
      (aget (GC_hblkfreelist (fls hp)) index, hp);
  r.

(** Remapping an unmapped block about to be used. *)
Definition ensure_mapped (hbp hhdr : Z) hp : heap T :=
  if negb (IS_MAPPED (hread hp hhdr)) then
    let hp := os_call (GC_remap hbp (hb_sz (hread hp hhdr))) hp in
    hwrite hhdr (fun x => set_hb_flags (clear_flag (hb_flags x) WAS_UNMAPPED) x) hp
  else hp.

(** After the search: carve at [last_hbp], take the first part, install the
    counts and the header. *)
Definition nth_take (lb_adjusted kind flags index size_needed hbp last_hbp : Z) hp
    : option (Z * heap T) :=
  let hhdr := hptr hp hbp in
  '(hbp, hhdr, hp) ←
    (if negb (last_hbp =? hbp) then
       '(last_hdr, hp) ← on_tbl_res (ht_install_header last_hbp) hp;
       if last_hdr =? NULL then Some (NULL, NULL, hp)
       else
         let hp := ensure_mapped hbp hhdr hp in
         let hp := GC_split_block hbp hhdr last_hbp last_hdr index hp in
         Some (last_hbp, last_hdr, hp)
     else Some (hbp, hhdr, hp));
  if hbp =? NULL then Some (NULL, hp)
  else
    let hp := ensure_mapped hbp hhdr hp in
    '(hbp, hp) ← GC_get_first_part hbp hhdr size_needed index hp;
    if hbp =? NULL then Some (NULL, hp)
    else
      '(ok, hp) ← on_tbl_res (ht_install_counts hbp size_needed) hp;
      if negb ok then Some (NULL, hp)
      else
        '(ok, hp) ← setup_header hhdr hbp lb_adjusted kind flags hp;
        if negb ok then
          hp ← on_tbl (ht_remove_counts hbp size_needed) hp; Some (NULL, hp)
        else
          let hp := set_fail_count 0 hp in
          Some (hbp, set_large_free (wrap64 (GC_large_free_bytes hp - size_needed)) hp).

Definition GC_allochblk_nth (lb_adjusted kind flags index may_split align_m1 : Z) hp
    : option (Z * heap T) :=
  let size_needed := round_to_blocks lb_adjusted in
  '(hbp, last_hbp, hp) ← nth_search size_needed kind flags index may_split align_m1 hp;
  if hbp =? NULL then Some (NULL, hp)
  else nth_take lb_adjusted kind flags index size_needed hbp last_hbp hp.

(** *** Allocation *)

Definition GC_enough_large_bytes_left hp : Z :=
  let fix go (n : nat) (i bytes : Z) : Z :=
    match n with
    | O => 0
    | S n =>
      let bytes := wrap64 (bytes + aget (GC_free_bytes (fls hp)) i) in
      if GC_max_large_allocd_bytes (prm hp) <=? bytes then i else go n (i - 1) bytes
    end in
  go (Z.to_nat N_HBLK_FLS) N_HBLK_FLS (GC_large_allocd_bytes (prm hp)).

(** [GC_should_collect] and its relatives belong to alloc.c: they look at byte
    counts and may run a collection. *)
Section Collector.
Context (GC_should_collect : heap T -> bool * heap T).
Context (GC_should_collect_before_hblk_alloc : heap T -> bool).
Context (GC_gcollect_inner : heap T -> heap T).

Definition split_policy (start_list : Z) hp : Z * Z * heap T :=
  let p := prm hp in
  let eager := GC_use_entire_heap p || GC_dont_gc p
               || (wrap64 (p_heapsize p - GC_large_free_bytes hp) <? GC_requested_heapsize p)
               || GC_incremental p in
  let '(collect, hp) := if eager then (false, hp) else GC_should_collect hp in
  if eager || negb collect then (N_HBLK_FLS, 1, hp)
  else if Z.shiftr (p_heapsize p) 4 <? GC_finalizer_bytes_freed p then (0, 1, hp)
  else
    let split_limit := GC_enough_large_bytes_left hp in
    let split_limit := if (start_list <? UNIQUE_THRESHOLD) && (split_limit <? UNIQUE_THRESHOLD)
                       then UNIQUE_THRESHOLD else split_limit in
    (split_limit, if 0 <? split_limit then AVOID_SPLIT_REMAPPED else 1, hp).

Fixpoint try_lists (n : nat) (lb_adjusted kind flags list_no may_split align_m1 : Z) hp
    : option (Z * heap T) :=
  match n with
  | O => Some (NULL, hp)
  | S n =>
    '(result, hp) ← GC_allochblk_nth lb_adjusted kind flags list_no may_split align_m1 hp;
    if negb (result =? NULL) then Some (result, hp)
    else try_lists n lb_adjusted kind flags (list_no + 1) may_split align_m1 hp
  end.

Definition GC_allochblk_from_free_lists (lb_adjusted kind flags start_list align_m1 : Z) hp
    : option (Z * heap T) :=
  '(result, hp) ← GC_allochblk_nth lb_adjusted kind flags start_list 0 align_m1 hp;
  if negb (result =? NULL) then Some (result, hp)
  else
    let '(split_limit, may_split, hp) := split_policy start_list hp in
    let start_list := if (start_list <? UNIQUE_THRESHOLD) && (align_m1 =? 0)
                      then start_list + 1 else start_list in
    try_lists (Z.to_nat (split_limit + 1 - start_list)) lb_adjusted kind flags start_list may_split
      align_m1 hp.

Definition GC_allochblk (lb_adjusted kind flags align_m1 : Z) hp : option (Z * heap T) :=
  let blocks := OBJ_SZ_TO_BLOCKS_CHECKED lb_adjusted in
  if Z.shiftr GC_SIZE_MAX 1 <=? SIZET_SAT_ADD (wrap64 (blocks * HBLKSIZE)) align_m1
  then Some (NULL, hp)
  else
    let start_list := GC_hblk_fl_from_blocks blocks in
    '(result, hp) ← GC_allochblk_from_free_lists lb_adjusted kind flags start_list align_m1 hp;
    if negb (result =? NULL) then Some (result, hp)
    else
      '(merged, hp) ← GC_merge_free_blocks_for_alloc (round_to_blocks lb_adjusted) align_m1 hp;
      '(result, hp) ← (if (merged : bool)
                       then GC_allochblk_from_free_lists lb_adjusted kind flags start_list align_m1 hp
                       else Some (NULL, hp));
      if negb (result =? NULL) then Some (result, hp)
      else if GC_should_collect_before_hblk_alloc hp then
        GC_allochblk_from_free_lists lb_adjusted kind flags start_list align_m1 (GC_gcollect_inner hp)
      else Some (NULL, hp).

End Collector.

End Allchblk.
End Allchblk.
