(* ===== verification/HeapInv.v ===== *)
(** * The heap invariant

    How the headers, forwarding counts and free lists fit together: blocks tile
    disjoint parts of the address space, a free block is followed by unmapped
    slots and an in-use one by forwarding counts, and the free lists hold the
    free blocks by size.  The lemmas here carry the invariant through the table
    operations the block allocator uses. *)

From Stdlib Require Import ZArith Lia.
From stdpp Require Import base gmap list.
From S2P Require Import Prelude Scratch Hblk Headers HeadersNav HdrIface FreeList.

Module HeapInv.
Import Headers HeadersNav HdrIface FreeList.

(** The bytes a block with header [x] occupies. *)
Definition extent (x : hdr) : Z :=
  if HBLK_IS_FREE x then hb_sz x else HBLKSIZE * OBJ_SZ_TO_BLOCKS (hb_sz x).

(** ** Tilings

    [D] is the mapping of block addresses and [B] the header of a block. *)
Section Tiling.
Implicit Types (D : Z -> Z) (B : Z -> hdr).

Definition start D (h : Z) : Prop := h mod 4096 = 0 /\ is_hdr_ptr (D h) = true.

Record tiled D B : Prop := {
  ti_blk : forall p q, p / 4096 = q / 4096 -> D p = D q /\ B p = B q;
  ti_nonneg : forall q, 0 <= D q;
  ti_addr : forall h, start D h -> hb_block (B h) = h;
  ti_extent : forall h, start D h ->
    0 < h /\ 0 < extent (B h) /\ extent (B h) mod 4096 = 0 /\ h + extent (B h) < W64;
  ti_inside : forall h q, start D h -> h / 4096 < q / 4096 < (h + extent (B h)) / 4096 ->
    D q = if HBLK_IS_FREE (B h) then NULL else fwd_count h q;
  ti_outside : forall q, D q <> NULL ->
    exists h, start D h /\ h / 4096 <= q / 4096 < (h + extent (B h)) / 4096
}.

Lemma start_blk D B (q : Z) : tiled D B -> is_hdr_ptr (D q) = true -> start D (HBLKPTR q).
Proof.
  intros K Hq. rewrite PTR_ALIGN_DOWN_hblk. split; [dlia|].
  destruct (ti_blk _ _ K (q - q mod 4096) q) as [-> _]; [dlia|done].
Qed.

(** Two blocks do not overlap. *)
Lemma tiled_disjoint D B (h k : Z) :
  tiled D B -> start D h -> start D k -> h < k -> h + extent (B h) <= k.
Proof.
  intros K [Ha Hh] [Hb Hk] Hlt. destruct (Z.le_gt_cases (h + extent (B h)) k) as [|Hgt]; [done|].
  exfalso. destruct (ti_extent _ _ K h (conj Ha Hh)) as (_ & _ & Hm & _).
  pose proof (ti_inside _ _ K h k (conj Ha Hh) ltac:(dlia)) as E.
  apply is_hdr_ptr_ge in Hk. rewrite E in Hk. destruct (HBLK_IS_FREE _); [lia|].
  pose proof (fwd_count_pos h k ltac:(dlia)). lia.
Qed.

Lemma tiled_ext D B D' B' :
  (forall q, D' q = D q) -> (forall p q, p / 4096 = q / 4096 -> B' p = B' q) ->
  (forall h, start D h -> body (B' h) = body (B h)) -> tiled D B -> tiled D' B'.
Proof.
  intros ED EBb EB K.
  assert (Es : forall h, start D' h <-> start D h) by (intros h; unfold start; by rewrite ED).
  assert (Ee : forall h, start D h -> extent (B' h) = extent (B h) /\ hb_block (B' h) = hb_block (B h)
    /\ HBLK_IS_FREE (B' h) = HBLK_IS_FREE (B h)).
  { intros h Hh. pose proof (EB h Hh) as E. unfold extent. rewrite (body_free _ _ E).
    by destruct (body_fields _ _ E) as (-> & _ & -> & _). }
  split.
  - intros p q E. rewrite !ED. split; [by apply K|by apply EBb].
  - intros q. rewrite ED. apply K.
  - intros h Hh%Es. destruct (Ee h Hh) as (_ & -> & _). by apply K.
  - intros h Hh%Es. destruct (Ee h Hh) as (-> & _). by apply K.
  - intros h q Hh%Es. destruct (Ee h Hh) as (-> & _ & ->). rewrite ED. by apply K.
  - intros q. rewrite ED. intros Hq. destruct (ti_outside _ _ K q Hq) as (h & Hh & Hr).
    exists h. destruct (Ee h Hh) as (-> & _). by rewrite Es.
Qed.

(** An in-use block becomes free: its forwarding counts go away. *)
Lemma tiled_free D B D' B' (h : Z) :
  tiled D B -> start D h -> HBLK_IS_FREE (B h) = false ->
  (forall q, D' q = if decide (h / 4096 < q / 4096 < (h + extent (B h)) / 4096) then NULL else D q) ->
  (forall q, B' q = if decide (q / 4096 = h / 4096) then B' h else B q) ->
  HBLK_IS_FREE (B' h) = true -> hb_sz (B' h) = extent (B h) -> hb_block (B' h) = hb_block (B h) ->
  tiled D' B'.
Proof.
  intros K Hh Hf ED EB Hf' Hsz Hb.
  assert (Eh : extent (B' h) = extent (B h)) by (unfold extent at 1; by rewrite Hf').
  assert (Hpos := ti_extent _ _ K h Hh). destruct Hpos as (H0 & H1 & H2 & H3).
  assert (Hal : h mod 4096 = 0) by apply Hh.
  assert (Es : forall k, start D' k <-> start D k).
  { intros k. unfold start. rewrite ED. case_decide as Hd; [|done]. split; [by intros [_ ?]|].
    intros [Ha Hk]. apply is_hdr_ptr_ge in Hk.
    pose proof (ti_inside _ _ K h k Hh Hd) as E. rewrite Hf in E. rewrite E in Hk.
    pose proof (fwd_count_pos h k ltac:(lia)). lia. }
  assert (Bk : forall k, start D k -> k <> h -> B' k = B k).
  { intros k [Ha _] Hne. rewrite EB, decide_False; [done|]. intros E. dlia. }
  split.
  - intros p q E. rewrite !ED, E, (EB p), (EB q), E. destruct (ti_blk _ _ K p q E) as [-> ->]. done.
  - intros q. rewrite ED. case_decide; [done|]. apply K.
  - intros k Hk%Es. destruct (decide (k = h)) as [->|Hne]; [rewrite Hb; by apply K|].
    rewrite (Bk k Hk Hne). by apply K.
  - intros k Hk%Es. destruct (decide (k = h)) as [->|Hne]; [by rewrite Eh|].
    rewrite (Bk k Hk Hne). by apply K.
  - intros k q Hk%Es Hq. destruct (decide (k = h)) as [->|Hne].
    + rewrite Eh in Hq. rewrite Hf', ED. by rewrite decide_True.
    + rewrite (Bk k Hk Hne) in *. rewrite ED. rewrite decide_False; [by apply K|].
      intros Hq'. destruct (ti_extent _ _ K k Hk) as (_ & _ & Hkm & _). destruct Hk as [Hka Hkp].
      destruct (Z.lt_total k h) as [Hlt|[?|Hlt]]; [|done|].
      * pose proof (tiled_disjoint _ _ k h K (conj Hka Hkp) Hh Hlt). dlia.
      * pose proof (tiled_disjoint _ _ h k K Hh (conj Hka Hkp) Hlt). dlia.
  - intros q. rewrite ED. case_decide as Hd; [done|]. intros Hq.
    destruct (ti_outside _ _ K q Hq) as (k & Hk & Hr). exists k. split; [by apply Es|].
    destruct (decide (k = h)) as [->|Hne]; [by rewrite Eh|]. by rewrite (Bk k Hk Hne).
Qed.

(** A free block absorbs the free block right after it. *)
Lemma tiled_merge D B D' B' (h n : Z) :
  tiled D B -> start D h -> start D n -> HBLK_IS_FREE (B h) = true -> HBLK_IS_FREE (B n) = true ->
  n = h + hb_sz (B h) ->
  (forall q, D' q = if decide (q / 4096 = n / 4096) then NULL else D q) ->
  (forall p q, p / 4096 = q / 4096 -> B' p = B' q) ->
  (forall k, start D k -> k <> h -> k <> n -> body (B' k) = body (B k)) ->
  HBLK_IS_FREE (B' h) = true -> hb_sz (B' h) = hb_sz (B h) + hb_sz (B n) ->
  hb_block (B' h) = hb_block (B h) ->
  tiled D' B'.
Proof.
  intros K Hh Hn Hf Hfn En ED EBb EB Hf' Hsz Hb.
  assert (Xh : extent (B h) = hb_sz (B h)) by (unfold extent; by rewrite Hf).
  assert (Xn : extent (B n) = hb_sz (B n)) by (unfold extent; by rewrite Hfn).
  assert (Eh : extent (B' h) = extent (B h) + extent (B n)) by (unfold extent at 1; rewrite Hf'; lia).
  destruct (ti_extent _ _ K h Hh) as (H0 & H1 & H2 & H3).
  destruct (ti_extent _ _ K n Hn) as (N0 & N1 & N2 & N3).
  assert (Hal : h mod 4096 = 0) by apply Hh. assert (Hnal : n mod 4096 = 0) by apply Hn.
  assert (Hhn : h <> n) by lia.
  assert (Es : forall k, start D' k <-> start D k /\ k <> n).
  { intros k. unfold start. rewrite ED. case_decide as Hd.
    - split; [by intros [_ ?]|]. intros [[Ha _] Hne]. dlia.
    - split; [intros [??]; split; [done|]; by intros ->|tauto]. }
  assert (Bk : forall k, start D k -> k <> h -> k <> n -> extent (B' k) = extent (B k)
    /\ hb_block (B' k) = hb_block (B k) /\ HBLK_IS_FREE (B' k) = HBLK_IS_FREE (B k)).
  { intros k Hk Hkh Hkn. pose proof (EB k Hk Hkh Hkn) as E. unfold extent. rewrite (body_free _ _ E).
    by destruct (body_fields _ _ E) as (-> & _ & -> & _). }
  split.
  - intros p q E. rewrite !ED, E. split; [|by apply EBb]. case_decide; [done|]. by apply (ti_blk _ _ K).
  - intros q. rewrite ED. case_decide; [done|]. apply K.
  - intros k [Hk Hkn]%Es. destruct (decide (k = h)) as [->|Hne]; [rewrite Hb; by apply K|].
    destruct (Bk k Hk Hne Hkn) as (_ & -> & _). by apply K.
  - intros k [Hk Hkn]%Es. destruct (decide (k = h)) as [->|Hne].
    + rewrite Eh. split_and!; try lia. dlia.
    + destruct (Bk k Hk Hne Hkn) as (-> & _). by apply K.
  - intros k q [Hk Hkn]%Es Hq. destruct (decide (k = h)) as [->|Hne].
    + rewrite Hf', ED. case_decide as Hd; [done|]. rewrite Eh in Hq.
      destruct (Z.lt_ge_cases (q / 4096) (n / 4096)) as [Hlt|Hge].
      * rewrite (ti_inside _ _ K h q Hh); [by rewrite Hf|]. rewrite Xh, <- En. lia.
      * rewrite (ti_inside _ _ K n q Hn); [by rewrite Hfn|]. rewrite Xh, Xn in Hq. rewrite Xn.
        replace (n + hb_sz (B n)) with (h + (hb_sz (B h) + hb_sz (B n))) by lia. lia.
    + destruct (Bk k Hk Hne Hkn) as (Ee & _ & Ef). rewrite Ee in Hq. rewrite Ef, ED.
      rewrite decide_False; [by apply K|]. intros Hd.
      destruct (ti_extent _ _ K k Hk) as (_ & _ & Hkm & _). assert (Hka : k mod 4096 = 0) by apply Hk.
      pose proof (tiled_disjoint _ _ k n K Hk Hn ltac:(dlia)). dlia.
  - intros q. rewrite ED. case_decide as Hd; [done|]. intros Hq.
    destruct (ti_outside _ _ K q Hq) as (k & Hk & Hr).
    destruct (decide (k = n)) as [->|Hkn].
    + exists h. split; [by apply Es|]. rewrite Eh. rewrite Xh, Xn in *. subst n.
      replace (h + (hb_sz (B h) + hb_sz (B (h + hb_sz (B h)))))
        with (h + hb_sz (B h) + hb_sz (B (h + hb_sz (B h)))) by lia. dlia.
    + exists k. split; [by apply Es|]. destruct (decide (k = h)) as [->|Hne].
      * rewrite Eh. dlia.
      * by destruct (Bk k Hk Hne Hkn) as (-> & _).
Qed.

(** A free block is cut in two at [n]. *)
Lemma tiled_split D B D' B' (h n r : Z) :
  tiled D B -> start D h -> HBLK_IS_FREE (B h) = true ->
  n mod 4096 = 0 -> h < n < h + hb_sz (B h) -> is_hdr_ptr r = true ->
  (forall q, D' q = if decide (q / 4096 = n / 4096) then r else D q) ->
  (forall p q, p / 4096 = q / 4096 -> B' p = B' q) ->
  (forall k, start D k -> k <> h -> body (B' k) = body (B k)) ->
  HBLK_IS_FREE (B' h) = true -> hb_sz (B' h) = n - h -> hb_block (B' h) = hb_block (B h) ->
  HBLK_IS_FREE (B' n) = true -> hb_sz (B' n) = h + hb_sz (B h) - n -> hb_block (B' n) = n ->
  tiled D' B'.
Proof.
  intros K Hh Hf Hnal Hn Hr ED EBb EB Hf' Hsz Hb Hfn Hszn Hbn.
  assert (Xh : extent (B h) = hb_sz (B h)) by (unfold extent; by rewrite Hf).
  assert (Eh : extent (B' h) = n - h) by (unfold extent; by rewrite Hf').
  assert (En : extent (B' n) = h + hb_sz (B h) - n) by (unfold extent; by rewrite Hfn).
  destruct (ti_extent _ _ K h Hh) as (H0 & H1 & H2 & H3). rewrite Xh in *.
  assert (Hal : h mod 4096 = 0) by apply Hh.
  assert (Dn : D n = NULL).
  { rewrite (ti_inside _ _ K h n Hh); [by rewrite Hf|]. rewrite Xh. dlia. }
  assert (Hns : forall k, start D k -> k <> n).
  { intros k [_ Hk] ->. by rewrite Dn in Hk. }
  assert (Es : forall k, start D' k <-> start D k \/ k = n).
  { intros k. unfold start. rewrite ED. case_decide as Hd.
    - split; [intros [Ha _]; right; dlia|]. intros [[Ha Hk]| ->]; [|done].
      exfalso. apply (Hns k (conj Ha Hk)). dlia.
    - split; [tauto|]. intros [?| ->]; done. }
  assert (Bk : forall k, start D k -> k <> h -> extent (B' k) = extent (B k)
    /\ hb_block (B' k) = hb_block (B k) /\ HBLK_IS_FREE (B' k) = HBLK_IS_FREE (B k)).
  { intros k Hk Hkh. pose proof (EB k Hk Hkh) as E. unfold extent. rewrite (body_free _ _ E).
    by destruct (body_fields _ _ E) as (-> & _ & -> & _). }
  split.
  - intros p q E. rewrite !ED, E. split; [|by apply EBb]. case_decide; [done|]. by apply (ti_blk _ _ K).
  - intros q. rewrite ED. case_decide; [apply is_hdr_ptr_ge in Hr; lia|]. apply K.
  - intros k [Hk| ->]%Es; [|done]. destruct (decide (k = h)) as [->|Hne]; [rewrite Hb; by apply K|].
    destruct (Bk k Hk Hne) as (_ & -> & _). by apply K.
  - intros k [Hk| ->]%Es; [|rewrite En; split_and!; try lia; dlia].
    destruct (decide (k = h)) as [->|Hne]; [rewrite Eh; split_and!; try lia; dlia|].
    destruct (Bk k Hk Hne) as (-> & _). by apply K.
  - intros k q [Hk| ->]%Es Hq.
    + destruct (decide (k = h)) as [->|Hne].
      * rewrite Eh in Hq. rewrite Hf', ED. rewrite decide_False by dlia.
        rewrite (ti_inside _ _ K h q Hh); [by rewrite Hf|]. rewrite Xh. dlia.
      * destruct (Bk k Hk Hne) as (Ee & _ & Ef). rewrite Ee in Hq. rewrite Ef, ED.
        rewrite decide_False; [by apply K|]. intros Hd.
        destruct (ti_extent _ _ K k Hk) as (_ & _ & Hkm & _). assert (Hka : k mod 4096 = 0) by apply Hk.
        destruct (Z.lt_total k h) as [Hlt|[?|Hlt]]; [|done|].
        -- pose proof (tiled_disjoint _ _ k h K Hk Hh Hlt). dlia.
        -- pose proof (tiled_disjoint _ _ h k K Hh Hk Hlt). dlia.
    + rewrite En in Hq. rewrite Hfn, ED. rewrite decide_False by dlia.
      rewrite (ti_inside _ _ K h q Hh); [by rewrite Hf|]. rewrite Xh. dlia.
  - intros q. rewrite ED. case_decide as Hd.
    + intros _. exists n. split; [apply Es; by right|]. rewrite En. dlia.
    + intros Hq. destruct (ti_outside _ _ K q Hq) as (k & Hk & Hr').
      destruct (decide (k = h)) as [->|Hne].
      * rewrite Xh in Hr'. destruct (Z.lt_ge_cases (q / 4096) (n / 4096)) as [Hlt|Hge].
        -- exists h. split; [apply Es; by left|]. rewrite Eh. dlia.
        -- exists n. split; [apply Es; by right|]. rewrite En. dlia.
      * exists k. split; [apply Es; by left|]. by destruct (Bk k Hk Hne) as (-> & _).
Qed.

(** A free block is put to use: forwarding counts on all but its first block. *)
Lemma tiled_use D B D' B' (h : Z) :
  tiled D B -> start D h -> HBLK_IS_FREE (B h) = true ->
  (forall q, D' q = if decide (h / 4096 < q / 4096 < (h + hb_sz (B h)) / 4096)
                    then fwd_count h q else D q) ->
  (forall p q, p / 4096 = q / 4096 -> B' p = B' q) ->
  (forall k, start D k -> k <> h -> body (B' k) = body (B k)) ->
  HBLK_IS_FREE (B' h) = false -> extent (B' h) = hb_sz (B h) -> hb_block (B' h) = h ->
  tiled D' B'.
Proof.
  intros K Hh Hf ED EBb EB Hf' Eh Hb.
  assert (Xh : extent (B h) = hb_sz (B h)) by (unfold extent; by rewrite Hf).
  destruct (ti_extent _ _ K h Hh) as (H0 & H1 & H2 & H3). rewrite Xh in *.
  assert (Hal : h mod 4096 = 0) by apply Hh.
  assert (Din : forall q, h / 4096 < q / 4096 < (h + hb_sz (B h)) / 4096 -> D q = NULL).
  { intros q Hq. rewrite (ti_inside _ _ K h q Hh); [by rewrite Hf|]. by rewrite Xh. }
  assert (Es : forall k, start D' k <-> start D k).
  { intros k. unfold start. rewrite ED. case_decide as Hd; [|done]. rewrite (Din k Hd).
    split; intros [_ Hk]; [|done]. apply is_hdr_ptr_ge in Hk.
    pose proof (fwd_count_pos h k ltac:(lia)). lia. }
  assert (Bk : forall k, start D k -> k <> h -> extent (B' k) = extent (B k)
    /\ hb_block (B' k) = hb_block (B k) /\ HBLK_IS_FREE (B' k) = HBLK_IS_FREE (B k)).
  { intros k Hk Hkh. pose proof (EB k Hk Hkh) as E. unfold extent. rewrite (body_free _ _ E).
    by destruct (body_fields _ _ E) as (-> & _ & -> & _). }
  split.
  - intros p q E. rewrite !ED, E. split; [|by apply EBb]. unfold fwd_count. rewrite E.
    case_decide; [done|]. by apply (ti_blk _ _ K).
  - intros q. rewrite ED. case_decide as Hd; [|apply K].
    pose proof (fwd_count_pos h q ltac:(lia)). lia.
  - intros k Hk%Es. destruct (decide (k = h)) as [->|Hne]; [done|].
    destruct (Bk k Hk Hne) as (_ & -> & _). by apply K.
  - intros k Hk%Es. destruct (decide (k = h)) as [->|Hne]; [by rewrite Eh|].
    destruct (Bk k Hk Hne) as (-> & _). by apply K.
  - intros k q Hk%Es Hq. destruct (decide (k = h)) as [->|Hne].
    + rewrite Eh in Hq. rewrite Hf', ED. by rewrite decide_True.
    + destruct (Bk k Hk Hne) as (Ee & _ & Ef). rewrite Ee in Hq. rewrite Ef, ED.
      rewrite decide_False; [by apply K|]. intros Hd.
      destruct (ti_extent _ _ K k Hk) as (_ & _ & Hkm & _). assert (Hka : k mod 4096 = 0) by apply Hk.
      destruct (Z.lt_total k h) as [Hlt|[?|Hlt]]; [|done|].
      * pose proof (tiled_disjoint _ _ k h K Hk Hh Hlt). dlia.
      * pose proof (tiled_disjoint _ _ h k K Hh Hk Hlt). dlia.
  - intros q. rewrite ED. case_decide as Hd.
    + intros _. exists h. split; [by apply Es|]. rewrite Eh. lia.
    + intros Hq. destruct (ti_outside _ _ K q Hq) as (k & Hk & Hr). exists k. split; [by apply Es|].
      destruct (decide (k = h)) as [->|Hne]; [by rewrite Eh, <- Xh|].
      by destruct (Bk k Hk Hne) as (-> & _).
Qed.

End Tiling.

(** ** The invariant of the block allocator *)
Section Heap.
Context {T : Type} `{HeaderTable T} `{!HeaderTableLaws T}.
Implicit Types (s : fl_state T) (L : Z -> list Z).

Abbreviation tiling s := (tiled (HDRs s) (hdrb s)).
Abbreviation starts s := (start (HDRs s)).

Record heap_ok s L : Prop := {
  ho_fl : fl_ok s L;
  ho_tiled : tiling s;
  ho_class : forall i h, h ∈ L i -> i = fl_index s h
}.

(** Every free block is on the list of its size. *)
Definition all_listed s L : Prop :=
  forall h, starts s h -> HBLK_IS_FREE (hdrb s h) = true -> h ∈ L (fl_index s h).

Lemma fl_ok_frame s s' L :
  fl_ok s L -> ht_wf (tbl s') -> GC_hblkfreelist s' = GC_hblkfreelist s ->
  GC_free_bytes s' = GC_free_bytes s ->
  (forall i h, h ∈ L i -> has_hdr s' h /\ hdrb s' h = hdrb s h) -> fl_ok s' L.
Proof.
  intros K W Eh Eb El. split; try apply K.
  - done.
  - intros i. rewrite Eh. apply K.
  - intros i. eapply fl_chain_ext; [|apply (fo_chain _ _ K i)].
    intros h Hh. by destruct (El i h Hh) as [_ ->].
  - intros i h Hh. destruct (fo_blk _ _ K i h Hh) as (? & ? & _).
    split; [done|]. split; [done|]. by apply (El i).
  - intros i. rewrite Eb, (fo_bytes _ _ K i). f_equal. apply sizes_ext.
    intros h Hh. by destruct (El i h Hh) as [_ ->].
  - intros i h Hh. destruct (El i h Hh) as [_ ->]. by apply (fo_free _ _ K i).
Qed.

Lemma tiling_blk s (p q : Z) : p / 4096 = q / 4096 -> HDRs s p = HDRs s q /\ hdrb s p = hdrb s q.
Proof. intros E. split; [by apply hl_block|by apply hdrb_blk]. Qed.

Lemma start_listable s (h : Z) : tiling s -> starts s h -> listable s h.
Proof.
  intros K Hh. destruct (ti_extent _ _ K h Hh) as (? & ? & _ & ?). destruct Hh as [? ?].
  split; [lia|]. by split.
Qed.

Lemma listed_start s L (i h : Z) : fl_ok s L -> h ∈ L i -> starts s h.
Proof. intros K Hh. by destruct (fo_blk _ _ K i h Hh) as (_ & ? & ?). Qed.

Lemma tiling_blocks_ok s : tiling s -> blocks_ok (tbl s).
Proof.
  intros K. split.
  - apply (ti_nonneg _ _ K).
  - intros q Hq. destruct (tiling_blk s q (HBLKPTR q)) as [_ E]; [rewrite PTR_ALIGN_DOWN_hblk; dlia|].
    change (ht_hdr (tbl s) (HDR (tbl s) q)) with (hdrb s q). rewrite E.
    apply (ti_addr _ _ K). by eapply start_blk.
  - intros q Hq Hf. assert (Hs := start_blk _ _ q K Hq).
    destruct (tiling_blk s q (HBLKPTR q)) as [_ E]; [rewrite PTR_ALIGN_DOWN_hblk; dlia|].
    change (ht_hdr (tbl s) (HDR (tbl s) q)) with (hdrb s q) in *. rewrite E in *.
    destruct (ti_extent _ _ K _ Hs) as (_ & H1 & H2 & _). unfold extent in H1, H2. rewrite Hf in H1, H2. dlia.
  - intros q p Hq Hf Hp. assert (Hs := start_blk _ _ q K Hq).
    destruct (tiling_blk s q (HBLKPTR q)) as [_ E]; [rewrite PTR_ALIGN_DOWN_hblk; dlia|].
    change (ht_hdr (tbl s) (HDR (tbl s) q)) with (hdrb s q) in *. rewrite E in *.
    assert (Ex : extent (hdrb s (HBLKPTR q)) = hb_sz (hdrb s (HBLKPTR q))) by (unfold extent; by rewrite Hf).
    rewrite PTR_ALIGN_DOWN_hblk in *.
    change (HDR (tbl s) p) with (HDRs s p).
    rewrite (ti_inside _ _ K (q - q mod 4096) p Hs); [by rewrite Hf|]. rewrite Ex. dlia.
  - intros q p Hq Hp. change (HDR (tbl s)) with (HDRs s) in *.
    destruct (decide (HDRs s q = NULL)) as [En|En]; [lia|].
    destruct (ti_outside _ _ K q En) as (h & Hs & Hr).
    assert (Hal : h mod 4096 = 0) by apply Hs.
    destruct (decide (q / 4096 = h / 4096)) as [E|E].
    { destruct (tiling_blk s q h E) as [E' _]. destruct Hs as [_ Hs]. congruence. }
    pose proof (ti_inside _ _ K h q Hs ltac:(lia)) as Eq. destruct (HBLK_IS_FREE (hdrb s h)) eqn:Ef; [done|].
    assert (fwd_count h q <= q / 4096 - h / 4096) by (unfold fwd_count; lia).
    rewrite (ti_inside _ _ K h p Hs); [rewrite Ef|lia].
    pose proof (fwd_count_pos h p ltac:(lia)). apply not_true_is_false. rewrite is_hdr_ptr_ge. lia.
Qed.

(** The block that ends where the block [h] begins. *)
Definition ends_at s (p h : Z) : Prop := starts s p /\ p + extent (hdrb s p) = h.

Lemma ends_at_unique s (p q h : Z) : tiling s -> ends_at s p h -> ends_at s q h -> p = q.
Proof.
  intros K [Hp Ep] [Hq Eq]. destruct (ti_extent _ _ K p Hp) as (_ & ? & _).
  destruct (ti_extent _ _ K q Hq) as (_ & ? & _).
  destruct (Z.lt_total p q) as [Hlt|[?|Hlt]]; [|done|].
  - pose proof (tiled_disjoint _ _ p q K Hp Hq Hlt). lia.
  - pose proof (tiled_disjoint _ _ q p K Hq Hp Hlt). lia.
Qed.

(** ** Counting the listed bytes *)

Definition listed_bytes s L : Z := foldr (fun i acc => sizes s (L i) + acc) 0 (seqZ 0 61).

Lemma sum_lists_ext (f g : Z -> Z) (js : list Z) :
  (forall i, i ∈ js -> f i = g i) ->
  foldr (fun i acc => f i + acc) 0 js = foldr (fun i acc => g i + acc) 0 js.
Proof.
  induction js as [|j js IH]; intros E; [done|]. cbn. rewrite (E j) by (by left). f_equal.
  apply IH. intros i Hi. apply E. by right.
Qed.

Lemma sum_lists_change (f g : Z -> Z) (js : list Z) (k d : Z) :
  NoDup js -> k ∈ js -> (forall i, i <> k -> g i = f i) -> g k = f k + d ->
  foldr (fun i acc => g i + acc) 0 js = foldr (fun i acc => f i + acc) 0 js + d.
Proof.
  intros Hnd Hin Ho Hk. induction js as [|j js IH]; [by apply elem_of_nil in Hin|].
  inversion Hnd as [|? ? Hj Hnd']; subst. cbn. apply elem_of_cons in Hin as [<-|Hin].
  - rewrite Hk, (sum_lists_ext g f); [lia|]. intros i Hi. apply Ho. by intros ->.
  - rewrite (IH Hnd' Hin), Ho; [lia|]. by intros ->.
Qed.

Lemma sum_lists_wrap s (f : Z -> Z) (js : list Z) (a : Z) :
  (forall i, aget (GC_free_bytes s) i = wrap64 (f i)) ->
  foldl (fun a i => wrap64 (a + aget (GC_free_bytes s) i)) (wrap64 a) js
  = wrap64 (a + foldr (fun i acc => f i + acc) 0 js).
Proof.
  intros Hb. revert a. induction js as [|j js IH]; intros a; cbn [foldl foldr].
  - by rewrite Z.add_0_r.
  - rewrite Hb, wrap64_add_l.
    replace (wrap64 (a + wrap64 (f j))) with (wrap64 (a + f j))
      by (unfold wrap64; symmetry; by apply Z.add_mod_idemp_r).
    rewrite IH. f_equal. lia.
Qed.

Lemma total_bytes_eq s L : fl_ok s L -> total_bytes s = wrap64 (listed_bytes s L).
Proof. intros K. apply (sum_lists_wrap s (fun i => sizes s (L i)) (seqZ 0 61) 0). apply K. Qed.

Lemma listed_bytes_ext s s' L :
  (forall i h, h ∈ L i -> hb_sz (hdrb s' h) = hb_sz (hdrb s h)) -> listed_bytes s' L = listed_bytes s L.
Proof. intros E. apply sum_lists_ext. intros i _. apply sizes_ext. intros h. apply E. Qed.

Lemma fl_index_range s (h : Z) : tiling s -> starts s h -> HBLK_IS_FREE (hdrb s h) = true ->
  fl_index s h ∈ seqZ 0 61.
Proof.
  intros K Hh Hf. destruct (ti_extent _ _ K h Hh) as (_ & H1 & _). unfold extent in H1. rewrite Hf in H1.
  apply elem_of_seqZ. unfold fl_index. rewrite divHBLKSZ_div.
  pose proof (fl_from_blocks_range (hb_sz (hdrb s h) / 4096)). rewrite N_HBLK_FLS_eq in *. dlia.
Qed.

(** ** Steps of the allocator *)

(** The free blocks other than those in [X] are on their lists. *)
Definition listed_but s L (X : list Z) : Prop :=
  forall h, starts s h -> HBLK_IS_FREE (hdrb s h) = true -> h ∈ L (fl_index s h) \/ h ∈ X.

Lemma all_listed_but s L : all_listed s L <-> listed_but s L [].
Proof.
  split; intros K h Hh Hf; [left; by apply K|].
  destruct (K h Hh Hf) as [?|Hn]; [done|]. by apply elem_of_nil in Hn.
Qed.

Lemma fl_index_body s s' (h : Z) : body (hdrb s' h) = body (hdrb s h) -> fl_index s' h = fl_index s h.
Proof. intros E. unfold fl_index. by destruct (body_fields _ _ E) as (-> & _). Qed.

(** Taking a block off its list. *)
Lemma unlist_spec s L (i n : Z) :
  heap_ok s L -> n ∈ L i ->
  let s' := GC_remove_from_fl_at (HDRs s n) i s in
  exists L', heap_ok s' L' /\ tbl_frame s s' /\ (forall q, body (hdrb s' q) = body (hdrb s q))
    /\ (forall j x, x ∈ L' j <-> x ∈ L j /\ x <> n)
    /\ listed_bytes s' L' = listed_bytes s L - hb_sz (hdrb s n).
Proof.
  intros K Hn s'. assert (Hi := ho_class _ _ K i n Hn).
  assert (Hs := listed_start s L i n (ho_fl _ _ K) Hn).
  assert (Hf := fo_free _ _ (ho_fl _ _ K) i n Hn).
  pose proof (fl_index_range s n (ho_tiled _ _ K) Hs Hf) as Hr. rewrite <- Hi in Hr.
  destruct (list_elem_of_split _ _ Hn) as (l1 & l2 & EL).
  destruct (remove_at_ok s L i n l1 l2 (ho_fl _ _ K) EL) as (K' & F & HB). fold s' in K', F, HB.
  exists (upd_list i (l1 ++ l2) L).
  assert (Hmem : forall j x, x ∈ upd_list i (l1 ++ l2) L j <-> x ∈ L j /\ x <> n).
  { intros j x. unfold upd_list. destruct (decide (i = j)) as [<-|Hij].
    - rewrite EL, !elem_of_app, elem_of_cons. pose proof (fo_nodup _ _ (ho_fl _ _ K) i) as Hnd.
      rewrite EL in Hnd. apply NoDup_app in Hnd as (_ & Hd & Hnd2). inversion Hnd2 as [|? ? Hn2 _]; subst.
      split; [|tauto]. intros [Hx|Hx]; (split; [tauto|]); intros ->; [|done].
      apply (Hd n Hx). by left.
    - split; [|tauto]. intros Hx. split; [done|]. intros ->.
      apply Hij. by apply (fo_disj _ _ (ho_fl _ _ K) i j n). }
  split; [|split; [done|split; [done|split; [done|]]]].
  - split; [done| |].
    + eapply tiled_ext; [apply (tf_HDR _ _ F)|intros p q E; by apply hdrb_blk|intros h _; apply HB|apply K].
    + intros j x Hx. apply Hmem in Hx as [Hx _]. rewrite (fl_index_body s s' x) by apply HB. by apply K.
  - unfold listed_bytes.
    rewrite (sum_lists_change (fun i => sizes s (L i)) _ _ i (- hb_sz (hdrb s n))); [lia|apply NoDup_seqZ|done|..].
    + intros j Hj. unfold upd_list. rewrite decide_False by done. apply sizes_ext.
      intros h _. by apply body_fields, HB.
    + unfold upd_list. rewrite decide_True by done. rewrite EL, !sizes_app. cbn [sizes foldr]. fold (sizes s l2).
      rewrite (sizes_ext s s' l1), (sizes_ext s s' l2); [lia|..]; intros; by apply body_fields, HB.
Qed.

(** Overwriting the header of an unlisted block. *)
Lemma write_fl s L (h : Z) (f : hdr -> hdr) :
  fl_ok s L -> starts s h -> (forall j, h ∉ L j) ->
  let s' := upd_hdr (HDRs s h) f s in
  fl_ok s' L /\ tbl_frame s s' /\ ht_wf (tbl s')
  /\ (forall q, hdrb s' q = if decide (q / 4096 = h / 4096) then f (hdrb s h) else hdrb s q)
  /\ listed_bytes s' L = listed_bytes s L.
Proof.
  intros K Hs Hno s'. destruct (upd_hdr_spec s h f) as (W & HD & HB & E1 & E2 & C); [apply K|apply Hs|].
  fold s' in W, HD, HB, E1, E2, C.
  assert (HL : forall i x, x ∈ L i -> has_hdr s' x /\ hdrb s' x = hdrb s x).
  { intros i x Hx. destruct (fo_blk _ _ K i x Hx) as (_ & Hxal & Hxh).
    split; [unfold has_hdr; by rewrite HD|]. rewrite HB, decide_False; [done|]. intros E.
    apply (Hno i). replace h with x; [done|]. destruct Hs as [Ha _]. dlia. }
  split; [by eapply fl_ok_frame|]. split; [by split|]. split; [done|]. split; [done|].
  apply listed_bytes_ext. intros i x Hx. by destruct (HL i x Hx) as [_ ->].
Qed.

(** The rest of absorbing [n] into [h]: the size is stored, [n]'s header removed.
    Both blocks are off the lists. *)
Lemma absorb_spec s L (h n : Z) (f : hdr -> hdr) :
  heap_ok s L -> starts s h -> starts s n ->
  HBLK_IS_FREE (hdrb s h) = true -> HBLK_IS_FREE (hdrb s n) = true ->
  n = h + hb_sz (hdrb s h) -> (forall j, h ∉ L j) -> (forall j, n ∉ L j) ->
  hb_sz (f (hdrb s h)) = hb_sz (hdrb s h) + hb_sz (hdrb s n) ->
  hb_flags (f (hdrb s h)) = hb_flags (hdrb s h) -> hb_block (f (hdrb s h)) = hb_block (hdrb s h) ->
  exists t, ht_remove_header n (tbl (upd_hdr (HDRs s h) f s)) = Some t /\ ht_clean t
    /\ let s' := set_tbl t (upd_hdr (HDRs s h) f s) in
       heap_ok s' L
       /\ (forall q, HDRs s' q = if decide (q / 4096 = n / 4096) then NULL else HDRs s q)
       /\ (forall q, ~ same_blk q n -> hdrb s' q
             = if decide (q / 4096 = h / 4096) then f (hdrb s h) else hdrb s q)
       /\ listed_bytes s' L = listed_bytes s L.
Proof.
  intros K Hh Hn Hf Hfn En Hno Hnn Esz Efl Ebl.
  destruct (write_fl s L h f (ho_fl _ _ K) Hh Hno) as (K1 & F1 & W1 & HB1 & Eb1).
  set (s1 := upd_hdr (HDRs s h) f s) in *.
  destruct (hl_remove (tbl s1) n W1) as (t & Et & W & C & HH & HD).
  { change (is_hdr_ptr (HDRs s1 n) = true). rewrite (tf_HDR _ _ F1). apply Hn. }
  change (HDR (tbl s1)) with (HDRs s1) in HD, HH. change (ht_hdr (tbl s1)) with (hdr_at s1) in HH.
  exists t. split; [done|]. split; [done|]. set (s' := set_tbl t s1).
  assert (HD' : forall q, HDRs s' q = if decide (q / 4096 = n / 4096) then NULL else HDRs s q).
  { intros q. change (HDRs s' q) with (HDR t q). rewrite HD, (tf_HDR _ _ F1). done. }
  assert (HB' : forall q, ~ same_blk q n -> hdrb s' q = hdrb s1 q).
  { intros q Hq. unfold hdrb at 1. rewrite HD', decide_False by done.
    change (hdr_at s' (HDRs s q)) with (ht_hdr t (HDRs s q)). rewrite HH.
    - unfold hdrb. by rewrite (tf_HDR _ _ F1).
    - rewrite (tf_HDR _ _ F1). intros E. apply Hq. symmetry.
      apply (hl_inj (tbl s)); [apply K|apply Hn|by symmetry]. }
  destruct (ti_extent _ _ (ho_tiled _ _ K) h Hh) as (H0 & H1 & H2 & H3).
  unfold extent in H1, H2, H3. rewrite Hf in H1, H2, H3.
  assert (Hhn : ~ same_blk h n).
  { unfold same_blk. destruct Hh as [? _], Hn as [? _]. dlia. }
  assert (HBh : hdrb s' h = f (hdrb s h)).
  { rewrite HB', HB1 by done. by rewrite decide_True. }
  assert (HL : forall i x, x ∈ L i -> ~ same_blk x n /\ ~ same_blk x h).
  { intros i x Hx. destruct (fo_blk _ _ (ho_fl _ _ K) i x Hx) as (_ & Hxal & _).
    split; intros E.
    - apply (Hnn i). apply aligned_same_blk in E; [by subst x|done|apply Hn].
    - apply (Hno i). apply aligned_same_blk in E; [by subst x|done|apply Hh]. }
  split; [|split; [done|split]].
  - split.
    + apply (fl_ok_frame s1); [done|done|done|done|]. intros i x Hx. destruct (HL i x Hx) as [Hxn _].
      split; [|by apply HB']. unfold has_hdr. rewrite HD', decide_False by done.
      rewrite <- (tf_HDR _ _ F1). by apply (fo_blk _ _ K1 i).
    + eapply (tiled_merge (HDRs s) (hdrb s) _ _ h n); try done; [apply K|intros p q; apply hdrb_blk|..].
      * intros k Hk Hkh Hkn. rewrite HB', HB1.
        -- rewrite decide_False; [done|]. intros E. apply Hkh. destruct Hk, Hh. dlia.
        -- intros E. apply Hkn. destruct Hk as [? _], Hn as [? _]. by apply aligned_same_blk.
      * rewrite HBh. unfold HBLK_IS_FREE in *. by rewrite Efl.
      * by rewrite HBh.
      * by rewrite HBh.
    + intros i x Hx. rewrite (ho_class _ _ K i x Hx). destruct (HL i x Hx) as [Hxn Hxh].
      unfold fl_index. rewrite HB', HB1 by done. by rewrite decide_False.
  - intros q Hq. by rewrite HB'.
  - rewrite <- Eb1. apply listed_bytes_ext. intros i x Hx. destruct (HL i x Hx) as [Hxn _]. by rewrite HB'.
Qed.

(** Putting a free unlisted block on its list. *)
Lemma enlist_spec s L (h : Z) :
  heap_ok s L -> starts s h -> HBLK_IS_FREE (hdrb s h) = true -> (forall j, h ∉ L j) ->
  let s' := GC_add_to_fl h (HDRs s h) s in
  exists L', heap_ok s' L' /\ tbl_frame s s' /\ (forall q, body (hdrb s' q) = body (hdrb s q))
    /\ (forall j x, x ∈ L' j <-> x ∈ L j \/ (x = h /\ j = fl_index s h))
    /\ listed_bytes s' L' = listed_bytes s L + hb_sz (hdrb s h).
Proof.
  intros K Hh Hf Hno s'. pose proof (start_listable s h (ho_tiled _ _ K) Hh) as Hl.
  destruct (add_ok s L h (ho_fl _ _ K) Hl Hno) as (K' & F & HB0). fold s' in K', F, HB0.
  assert (HB : forall q, body (hdrb s' q) = body (hdrb s q)).
  { intros q. rewrite HB0. case_decide as E; [|done]. rewrite (hdrb_blk s q h E).
    f_equal. unfold HBLK_IS_FREE in Hf. rewrite (flag_set_lor_id _ _ Hf) by tauto. by destruct (hdrb s h). }
  set (i := fl_index s h) in *. exists (upd_list i (h :: L i) L).
  assert (Hmem : forall j x, x ∈ upd_list i (h :: L i) L j <-> x ∈ L j \/ (x = h /\ j = i)).
  { intros j x. unfold upd_list. destruct (decide (i = j)) as [<-|Hij].
    - rewrite elem_of_cons. tauto.
    - split; [by left|]. intros [?|[_ ?]]; [done|]. congruence. }
  split; [|split; [done|split; [done|split; [done|]]]].
  - split; [done| |].
    + eapply tiled_ext; [apply (tf_HDR _ _ F)|intros p q E; by apply hdrb_blk|intros k _; apply HB|apply K].
    + intros j x Hx. rewrite (fl_index_body s s' x) by apply HB.
      apply Hmem in Hx as [Hx|[-> ->]]; [by apply K|done].
  - unfold listed_bytes.
    rewrite (sum_lists_change (fun i => sizes s (L i)) _ _ i (hb_sz (hdrb s h))); [done|apply NoDup_seqZ|..].
    + by apply fl_index_range; [apply K|..].
    + intros j Hj. unfold upd_list. rewrite decide_False by done. apply sizes_ext.
      intros x _. by apply body_fields, HB.
    + unfold upd_list. rewrite decide_True by done. cbn [sizes foldr]. fold (sizes s' (L i)).
      rewrite (sizes_ext s s' (L i)) by (intros; by apply body_fields, HB).
      destruct (body_fields _ _ (HB h)) as (-> & _). fold (sizes s (L i)). lia.
Qed.

End Heap.

(** ** A concrete heap: one in-use object of four blocks *)

Lemma sample_heap :
  exists s : fl_state hdr_state, heap_ok s (fun _ => []) /\ all_listed s (fun _ => [])
    /\ start (HDRs s) 1048576 /\ hdrb s 1048576 = HeadersNav.sample_hdr
    /\ (forall h, start (HDRs s) h -> h = 1048576).
Proof.
  destruct HeadersNav.sample_nav as (st & v & Hwf & Hok & Hv & E & Eh & HE).
  set (s := FlState st ∅ ∅). exists s.
  assert (Hs : forall h, start (HDRs s) h -> h = 1048576).
  { intros h [Ha Hp]. change (HDRs s h) with (HDRv st h) in Hp. apply is_hdr_ptr_ge in Hp. rewrite HE in Hp.
    destruct (decide (h / 4096 = 256)); [dlia|]. destruct (decide (256 < h / 4096 < 260)); [|lia].
    pose proof (fwd_count_pos 1048576 h ltac:(change (1048576 / 4096) with 256; lia)). lia. }
  assert (Hb : hdrb s 1048576 = HeadersNav.sample_hdr).
  { unfold hdrb, hdr_at, HDRs. cbn. by rewrite E. }
  assert (Hst : start (HDRs s) 1048576).
  { split; [done|]. change (HDRs s 1048576) with (HDRv st 1048576). rewrite E. by apply is_hdr_ptr_ge. }
  split; [|split; [|by split_and!]].
  - split; [by apply empty_lists_ok| |by intros i h Hh%elem_of_nil]. split.
    + intros p q Epq. split; [by apply HDRv_block|by apply hdrb_blk].
    + intros q. apply (mo_nonneg _ Hok).
    + intros h ->%Hs. by rewrite Hb.
    + intros h ->%Hs. by rewrite Hb.
    + intros h q ->%Hs. rewrite Hb. change (extent HeadersNav.sample_hdr) with 16384.
      change (HBLK_IS_FREE HeadersNav.sample_hdr) with false. change (1048576 / 4096) with 256.
      change ((1048576 + 16384) / 4096) with 260. intros Hq.
      change (HDRs s q) with (HDRv st q). rewrite HE. rewrite decide_False by lia. by rewrite decide_True.
    + intros q Hq. exists 1048576. split; [done|]. rewrite Hb.
      change (extent HeadersNav.sample_hdr) with 16384. change (1048576 / 4096) with 256.
      change ((1048576 + 16384) / 4096) with 260. change (HDRs s q) with (HDRv st q) in Hq. rewrite HE in Hq.
      destruct (decide (q / 4096 = 256)); [lia|]. destruct (decide (256 < q / 4096 < 260)); [lia|done].
  - intros h ->%Hs. by rewrite Hb.
Qed.

End HeapInv.
