(* ===== verification/AllchblkFree.v ===== *)
(** * Correctness of block deallocation (allchblk.c: [GC_freehblk])

    Freeing a block keeps the heap invariant, merges the block with its free
    mapped neighbours and puts the result on the list of its size. *)

From Stdlib Require Import ZArith Lia.
From stdpp Require Import base gmap list.
From S2P Require Import Prelude BlackList Scratch Hblk Headers HeadersNav HdrIface MarkBits ObjMap FreeList Allchblk HeapInv.

Module AllchblkFree.
Import Headers HdrIface FreeList Allchblk HeapInv.

Section Free.
Context {T : Type} `{HeaderTable T} `{!HeaderTableLaws T}.
Implicit Types (hp : heap T) (s : fl_state T) (L : Z -> list Z).

Abbreviation tiling s := (tiled (HDRs s) (hdrb s)).
Abbreviation starts s := (start (HDRs s)).

(** ** Neighbours *)

Lemma obj_blocks_exact (sz : Z) : 0 < sz < W64 -> sz mod 4096 = 0 -> HBLKSIZE * OBJ_SZ_TO_BLOCKS sz = sz.
Proof.
  intros Hs Hm. unfold OBJ_SZ_TO_BLOCKS, wrap64. rewrite divHBLKSZ_div, HBLKSIZE_eq.
  assert (W64 mod 4096 = 0) by done. rewrite Z.mod_small by (unfold W64 in *; dlia). dlia.
Qed.

(** The starting block of the object containing a mapped block. *)
Lemma find_starting_spec s (k p : Z) :
  ht_wf (tbl s) -> tiling s -> starts s k -> p mod 4096 = 0 -> HDRs s p <> NULL ->
  k <= p < k + extent (hdrb s k) ->
  ht_find_starting (tbl s) p (HDRs s p) = Some (k, HDRs s k).
Proof.
  intros W K Hk Hp Hne Hr. destruct (ti_extent _ _ K k Hk) as (H0 & H1 & H2 & H3).
  destruct Hk as [Ha Hk]. destruct (decide (p = k)) as [->|Hpk].
  - apply (hl_find (tbl s) k 4096); [done|done|done|lia|unfold W64 in *; dlia|done|done|intros q Hq; dlia|lia].
  - pose proof (ti_inside _ _ K k p (conj Ha Hk) ltac:(dlia)) as E.
    destruct (HBLK_IS_FREE (hdrb s k)) eqn:Ef; [done|].
    apply (hl_find (tbl s) k (extent (hdrb s k))); [done|done|done|lia|done|done|done| |done].
    intros q Hq. change (HDR (tbl s) q) with (HDRs s q).
    rewrite (ti_inside _ _ K k q (conj Ha Hk) Hq). by rewrite Ef.
Qed.

Lemma block_ending_at_spec hp (h : Z) :
  ht_wf (tbl (fls hp)) -> tiling (fls hp) -> starts (fls hp) h ->
  exists r, get_block_ending_at hp h = Some r
    /\ ((r = NULL /\ forall p, ~ ends_at (fls hp) p h) \/ (r <> NULL /\ ends_at (fls hp) r h)).
Proof.
  intros W K Hh. set (s := fls hp) in *. assert (Hal : h mod 4096 = 0) by apply Hh.
  destruct (ti_extent _ _ K h Hh) as (H0 & _ & _ & Hend). pose proof (ti_extent _ _ K h Hh) as Hhx.
  unfold get_block_ending_at. rewrite HBLKSIZE_eq. fold s.
  change (hptr hp) with (HDRs s). change (hread hp) with (hdr_at s).
  assert (Hp0 : 0 <= h - 4096) by dlia.
  destruct (Z.eqb_spec (HDRs s (h - 4096)) NULL) as [En|En]; cbn [negb].
  - destruct (hl_prev (tbl s) (h - 4096) W (tiling_blocks_ok s K)) as (r & -> & Hr); [lia|]. cbn.
    destruct Hr as [[-> Hno]|(Hra & Hrle & Hrp & Hmax)].
    { exists NULL. split; [done|]. left. split; [done|]. intros p [Hp Ep].
      destruct (ti_extent _ _ K p Hp) as (? & ? & ? & _). destruct Hp as [Hpa Hp].
      change (HDR (tbl s)) with (HDRs s) in Hno. rewrite Hno in Hp; [done|]. dlia. }
    assert (Hrs : starts s r) by done.
    destruct (ti_extent _ _ K r Hrs) as (R0 & R1 & R2 & R3).
    change (HDR (tbl s)) with (HDRs s) in *.
    destruct (Z.eqb_spec r NULL) as [|_]; [lia|]. cbn [negb andb].
    change (hdr_at s (HDRs s r)) with (hdrb s r).
    destruct (Z.eqb_spec (r + hb_sz (hdrb s r)) h) as [E|E]; (eexists; split; [done|]).
    + right. split; [lia|]. split; [done|]. rewrite <- E. f_equal. unfold extent.
      destruct (HBLK_IS_FREE (hdrb s r)); [done|]. apply obj_blocks_exact; dlia.
    + left. split; [done|]. intros k [Hk Ek]. destruct (ti_extent _ _ K k Hk) as (_ & K1 & K2 & _).
      assert (Hka : k mod 4096 = 0) by apply Hk.
      assert (Hkr : k / 4096 <= r / 4096) by (apply Hmax; [dlia|apply Hk]).
      destruct (decide (k = r)) as [->|Hne].
      * unfold extent in Ek. destruct (HBLK_IS_FREE (hdrb s r)) eqn:Ef; [done|].
        destruct (decide (r = h - 4096)) as [Er|Er].
        { rewrite <- Er in En. apply is_hdr_ptr_ge in Hrp. lia. }
        rewrite (ti_inside _ _ K r (h - 4096) Hrs) in En; [|unfold extent; rewrite Ef; dlia].
        rewrite Ef in En. pose proof (fwd_count_pos r (h - 4096) ltac:(dlia)). lia.
      * pose proof (tiled_disjoint _ _ k r K Hk Hrs ltac:(dlia)). dlia.
  - destruct (ti_outside _ _ K _ En) as (k & Hk & Hr). destruct (ti_extent _ _ K k Hk) as (K0 & K1 & K2 & _).
    assert (Hka : k mod 4096 = 0) by apply Hk.
    pose proof (tiled_disjoint _ _ k h K Hk Hh ltac:(dlia)) as Hd.
    change (ht_find_starting (tbl (fls hp))) with (ht_find_starting (tbl s)).
    rewrite (find_starting_spec s k (h - 4096)) by (done || dlia). cbn.
    exists k. split; [done|]. right. split; [lia|]. split; [done|]. dlia.
Qed.

Lemma free_block_ending_at_spec hp (h : Z) :
  ht_wf (tbl (fls hp)) -> tiling (fls hp) -> starts (fls hp) h ->
  exists r, GC_free_block_ending_at hp h = Some r
    /\ ((r = NULL /\ forall p, ends_at (fls hp) p h -> HBLK_IS_FREE (hdrb (fls hp) p) = false)
        \/ (r <> NULL /\ ends_at (fls hp) r h /\ HBLK_IS_FREE (hdrb (fls hp) r) = true)).
Proof.
  intros W K Hh. unfold GC_free_block_ending_at.
  destruct (block_ending_at_spec hp h W K Hh) as (r & -> & Hr). cbn.
  change (hread hp (hptr hp r)) with (hdrb (fls hp) r).
  destruct Hr as [[-> Hno]|[Hr0 He]].
  - cbn. exists NULL. split; [done|]. left. split; [done|]. intros p Hp. by destruct (Hno p).
  - rewrite (proj2 (Z.eqb_neq _ _) Hr0). cbn. destruct (HBLK_IS_FREE (hdrb (fls hp) r)) eqn:Ef;
      (eexists; split; [done|]); [by right|].
    left. split; [done|]. intros p Hp.
    by rewrite (ends_at_unique (fls hp) p r h).
Qed.

(** ** Sign bits *)

Lemma signb_land (z : Z) : 0 <= z < W64 -> (Z.land z SIZET_SIGNB =? 0) = (z <? 2 ^ 63).
Proof.
  intros Hz. change SIZET_SIGNB with (2 ^ 63). unfold W64 in Hz.
  destruct (Z.ltb_spec z (2 ^ 63)) as [Hlt|Hge].
  - apply Z.eqb_eq. apply Z.bits_inj'. intros n Hn. rewrite Z.land_spec, Z.pow2_bits_eqb, Z.bits_0 by lia.
    destruct (Z.eqb_spec 63 n) as [<-|]; [|apply andb_false_r]. rewrite andb_true_r.
    rewrite Z.testbit_eqb by lia. rewrite Z.div_small by lia. done.
  - apply Z.eqb_neq. intros E. assert (Hb : Z.testbit (Z.land z (2 ^ 63)) 63 = true).
    { rewrite Z.land_spec, Z.pow2_bits_true, andb_true_r by lia. rewrite Z.testbit_eqb by lia.
      replace (z / 2 ^ 63) with 1; [done|]. apply Z.div_unique with (z - 2 ^ 63); lia. }
    by rewrite E, Z.bits_0 in Hb.
Qed.

Lemma merge_overflow (x y : hdr) :
  0 <= hb_sz x + hb_sz y < W64 ->
  BLOCKS_MERGE_OVERFLOW x y = negb (hb_sz x + hb_sz y <? 2 ^ 63).
Proof.
  intros Hs. unfold BLOCKS_MERGE_OVERFLOW, wrap64. rewrite Z.mod_small by done. by rewrite signb_land.
Qed.

(** ** Steps of [GC_freehblk] *)

Lemma heap_ok_same_table s L (t : T) :
  heap_ok s L -> ht_wf t -> same_table (tbl s) t ->
  heap_ok (set_tbl t s) L /\ (forall q, HDRs (set_tbl t s) q = HDRs s q)
  /\ (forall q, has_hdr s q -> hdrb (set_tbl t s) q = hdrb s q).
Proof.
  intros K W [HD HH]. assert (HB : forall q, has_hdr s q -> hdrb (set_tbl t s) q = hdrb s q).
  { intros q Hq. unfold hdrb, hdr_at, HDRs. cbn. rewrite HD. by apply HH. }
  split; [|split; [exact HD|done]]. split.
  - apply (fl_ok_frame s); [apply K|done|done|done|]. intros i h Hh.
    destruct (fo_blk _ _ (ho_fl _ _ K) i h Hh) as (_ & _ & Hs).
    split; [unfold has_hdr; change (HDRs (set_tbl t s) h) with (HDR t h); rewrite HD; exact Hs|by apply HB].
  - eapply tiled_ext; [exact HD|intros p q E; by apply hdrb_blk| |apply K].
    intros h [_ Hh]. by rewrite HB.
  - intros i h Hh. rewrite (ho_class _ _ K i h Hh). unfold fl_index. rewrite HB; [done|].
    by apply (fo_blk _ _ (ho_fl _ _ K) i).
Qed.

(** Dropping the counts of an in-use block and marking it free. *)
Lemma mark_free_spec s L (h : Z) (f1 f2 : hdr -> hdr) :
  heap_ok s L -> starts s h -> HBLK_IS_FREE (hdrb s h) = false ->
  HBLK_IS_FREE (f2 (f1 (hdrb s h))) = true ->
  hb_sz (f2 (f1 (hdrb s h))) = extent (hdrb s h) ->
  hb_block (f2 (f1 (hdrb s h))) = hb_block (hdrb s h) ->
  exists t, ht_remove_counts h (extent (hdrb s h)) (tbl s) = Some t /\ ht_clean t
    /\ let s1 := upd_hdr (HDRs s h) f1 (set_tbl t s) in
       let s' := upd_hdr (HDRs s h) f2 s1 in
       hdr_at s1 (HDRs s h) = f1 (hdrb s h)
       /\ heap_ok s' L /\ ht_clean (tbl s') /\ (forall j, h ∉ L j)
       /\ (forall q, starts s' q <-> starts s q)
       /\ (forall q, HDRs s' q = if decide (h / 4096 < q / 4096 < (h + extent (hdrb s h)) / 4096)
                                 then NULL else HDRs s q)
       /\ (forall q, hdrb s' q = if decide (q / 4096 = h / 4096) then f2 (f1 (hdrb s h))
             else hdrb (set_tbl t s) q)
       /\ (forall q, starts s q -> q <> h -> hdrb s' q = hdrb s q)
       /\ listed_bytes s' L = listed_bytes s L.
Proof.
  intros K Hh Hf Hf' Hsz Hb. set (e := extent (hdrb s h)) in *.
  destruct (ti_extent _ _ (ho_tiled _ _ K) h Hh) as (H0 & H1 & H2 & H3). fold e in H1, H2, H3.
  assert (Hal : h mod 4096 = 0) by apply Hh.
  assert (Hin : forall q, h / 4096 < q / 4096 < (h + e) / 4096 -> HDRs s q = fwd_count h q).
  { intros q Hq. rewrite (ti_inside _ _ (ho_tiled _ _ K) h q Hh Hq). by rewrite Hf. }
  destruct (hl_remove_counts (tbl s) h e) as (t & Et & W & C & HH & HD); try done; [apply K|lia|..].
  { intros q Hq. change (HDR (tbl s)) with (HDRs s). rewrite HBLKSIZE_eq, (Hin q Hq), (Hin (h + 4096)) by dlia.
    pose proof (fwd_count_pos h q ltac:(lia)). pose proof (fwd_count_pos h (h + 4096) ltac:(dlia)).
    rewrite decide_False; lia. }
  change (HDR (tbl s)) with (HDRs s) in HD. change (ht_hdr (tbl s)) with (hdr_at s) in HH.
  exists t. split; [done|]. split; [done|]. intros s1 s'.
  assert (Hd0 : HDRs (set_tbl t s) h = HDRs s h).
  { change (HDRs (set_tbl t s) h) with (HDR t h). rewrite HD. by rewrite decide_False by lia. }
  assert (Hb0 : hdrb (set_tbl t s) h = hdrb s h).
  { unfold hdrb. rewrite Hd0. apply HH. }
  destruct (upd_hdr_spec (set_tbl t s) h f1) as (W1 & D1 & B1 & E1a & E1b & C1);
    [done|unfold has_hdr; rewrite Hd0; apply Hh|]. rewrite Hd0 in *. fold s1 in W1, D1, B1, E1a, E1b, C1.
  assert (Hd1 : HDRs s1 h = HDRs s h) by (by rewrite D1).
  destruct (upd_hdr_spec s1 h f2) as (W2 & D2 & B2 & E2a & E2b & C2);
    [done|unfold has_hdr; rewrite Hd1; apply Hh|]. rewrite Hd1 in *. fold s' in W2, D2, B2, E2a, E2b, C2.
  assert (Bh1 : hdrb s1 h = f1 (hdrb s h)) by (rewrite B1, decide_True, Hb0 by done; done).
  assert (D' : forall q, HDRs s' q = if decide (h / 4096 < q / 4096 < (h + e) / 4096) then NULL else HDRs s q).
  { intros q. rewrite D2, D1. apply HD. }
  assert (B' : forall q, hdrb s' q = if decide (q / 4096 = h / 4096) then f2 (f1 (hdrb s h)) else hdrb (set_tbl t s) q).
  { intros q. rewrite B2, Bh1. case_decide as E; [done|]. rewrite B1. by rewrite decide_False. }
  assert (Hns : forall q, is_hdr_ptr (HDRs s q) = true -> ~ (h / 4096 < q / 4096 < (h + e) / 4096)).
  { intros q Hq Hr. rewrite (Hin q Hr) in Hq. apply is_hdr_ptr_ge in Hq.
    pose proof (fwd_count_pos h q ltac:(lia)). lia. }
  assert (Bt : forall q, is_hdr_ptr (HDRs s q) = true -> hdrb (set_tbl t s) q = hdrb s q).
  { intros q Hq. unfold hdrb at 1. change (HDRs (set_tbl t s) q) with (HDR t q). rewrite HD.
    rewrite decide_False by (by apply Hns). apply HH. }
  assert (Hno : forall j, h ∉ L j).
  { intros j Hj. by rewrite (fo_free _ _ (ho_fl _ _ K) j h Hj) in Hf. }
  assert (Bo : forall q, starts s q -> q <> h -> hdrb s' q = hdrb s q).
  { intros q [Hqa Hq] Hne. rewrite B', decide_False; [by apply Bt|]. intros E. dlia. }
  assert (HL : forall i x, x ∈ L i -> starts s x /\ x <> h).
  { intros i x Hx. split; [by eapply listed_start; [apply K|]|]. intros ->. by apply (Hno i). }
  assert (HP : forall q, is_hdr_ptr (HDRs s' q) = is_hdr_ptr (HDRs s q)).
  { intros q. rewrite D'. case_decide as Hr; [|done]. symmetry. apply not_true_is_false.
    intros Hq. by apply (Hns q). }
  split_and!.
  - rewrite <- Hd1. exact Bh1.
  - split.
    + apply (fl_ok_frame s); [apply K|done|by rewrite E2a, E1a|by rewrite E2b, E1b|].
      intros i x Hx. destruct (HL i x Hx) as [Hxs Hne]. split; [|by apply Bo].
      unfold has_hdr. rewrite HP. apply Hxs.
    + eapply (tiled_free (HDRs s) (hdrb (set_tbl t s)) _ _ h).
      * eapply tiled_ext; [by intros|intros p q E; by apply hdrb_blk| |apply K]. intros k [_ Hk]. by rewrite Bt.
      * done.
      * by rewrite Hb0.
      * intros q. rewrite Hb0. apply D'.
      * intros q. rewrite B'. rewrite (B' h), (decide_True (P := h / 4096 = h / 4096)) by done. done.
      * by rewrite B', decide_True.
      * by rewrite B', decide_True, Hb0.
      * by rewrite B', decide_True, Hb0.
    + intros i x Hx. destruct (HL i x Hx) as [Hxs Hne]. unfold fl_index. rewrite (Bo x Hxs Hne).
      by apply (ho_class _ _ K).
  - auto.
  - done.
  - intros q. unfold start. by rewrite HP.
  - done.
  - done.
  - done.
  - apply listed_bytes_ext. intros i x Hx. destruct (HL i x Hx) as [Hxs Hne]. by rewrite Bo.
Qed.

(** The only block that can begin at the end of another is a start. *)
Lemma next_is_start s (h n : Z) :
  tiling s -> starts s h -> n = h + extent (hdrb s h) -> HDRs s n <> NULL -> starts s n.
Proof.
  intros K Hh En Hne. destruct (ti_outside _ _ K n Hne) as (k & Hk & Hr).
  destruct (ti_extent _ _ K h Hh) as (_ & H1 & H2 & _). destruct (ti_extent _ _ K k Hk) as (_ & K1 & K2 & _).
  assert (Hal : h mod 4096 = 0) by apply Hh. assert (Hka : k mod 4096 = 0) by apply Hk.
  destruct (Z.lt_total k h) as [Hlt|[->|Hlt]].
  - pose proof (tiled_disjoint _ _ k h K Hk Hh Hlt). dlia.
  - dlia.
  - pose proof (tiled_disjoint _ _ h k K Hh Hk Hlt). replace n with k by dlia. done.
Qed.

(** Merging two adjacent free blocks, exactly one of which ([u]) is listed. *)
Lemma coalesce_spec s L (h n u : Z) (f : hdr -> hdr) :
  heap_ok s L -> starts s h -> starts s n ->
  HBLK_IS_FREE (hdrb s h) = true -> HBLK_IS_FREE (hdrb s n) = true ->
  n = h + hb_sz (hdrb s h) -> (u = h /\ (forall j, n ∉ L j) \/ u = n /\ (forall j, h ∉ L j)) ->
  u ∈ L (fl_index s u) ->
  (forall x, body x = body (hdrb s h) -> hb_sz (f x) = hb_sz (hdrb s h) + hb_sz (hdrb s n)
     /\ hb_flags (f x) = hb_flags (hdrb s h) /\ hb_block (f x) = hb_block (hdrb s h)) ->
  let s1 := GC_remove_from_fl (HDRs s u) s in
  let s2 := upd_hdr (HDRs s h) f s1 in
  (forall q, body (hdrb s1 q) = body (hdrb s q)) /\ (forall q, HDRs s1 q = HDRs s q)
  /\ exists t L', ht_remove_header n (tbl s2) = Some t /\ ht_clean t
    /\ let s' := set_tbl t s2 in
       heap_ok s' L' /\ (forall j x, x ∈ L' j <-> x ∈ L j /\ x <> u)
       /\ (forall q, HDRs s' q = if decide (q / 4096 = n / 4096) then NULL else HDRs s q)
       /\ (forall k, starts s k -> k <> h -> k <> n -> body (hdrb s' k) = body (hdrb s k))
       /\ hb_sz (hdrb s' h) = hb_sz (hdrb s h) + hb_sz (hdrb s n)
       /\ hb_flags (hdrb s' h) = hb_flags (hdrb s h)
       /\ listed_bytes s' L' = listed_bytes s L - hb_sz (hdrb s u).
Proof.
  intros K Hh Hn Hf Hfn En Hu Hul HF s1 s2.
  destruct (unlist_spec s L (fl_index s u) u K Hul) as (L' & K1 & F1 & HB1 & HM & EB).
  change (GC_remove_from_fl_at (HDRs s u) (fl_index s u) s) with s1 in K1, F1, HB1, EB.
  split; [done|]. split; [apply F1|].
  assert (Hs1 : forall q, starts s1 q <-> starts s q) by (intros q; unfold start; by rewrite (tf_HDR _ _ F1)).
  assert (Hz : forall q, hb_sz (hdrb s1 q) = hb_sz (hdrb s q)) by (intros q; by apply body_fields).
  destruct (HF (hdrb s1 h) (HB1 h)) as (Fz & Ff & Fb).
  assert (Hnu : (forall j, h ∉ L' j) /\ (forall j, n ∉ L' j)).
  { split; intros j Hj; apply HM in Hj as [Hj Hne]; destruct Hu as [[-> Hu]|[-> Hu]]; try done; by apply (Hu j). }
  destruct Hnu as [Hnh Hnn].
  destruct (absorb_spec s1 L' h n f K1) as (t & Et & C & K2 & HD & HB & EB2);
    try (by apply Hs1); try (by rewrite (body_free _ _ (HB1 _))); try done.
  - by rewrite Hz.
  - by rewrite Fz, !Hz.
  - rewrite Ff. by destruct (body_fields _ _ (HB1 h)) as (_ & -> & _).
  - rewrite Fb. by destruct (body_fields _ _ (HB1 h)) as (_ & _ & -> & _).
  - rewrite (tf_HDR _ _ F1) in *.
    fold s2 in Et, K2, HD, HB, EB2.
    exists t, L'. split; [done|]. split; [done|]. intros s'.
    fold s' in K2, HD, HB, EB2.
    destruct (ti_extent _ _ (ho_tiled _ _ K) h Hh) as (_ & H1 & H2 & _).
    unfold extent in H1, H2. rewrite Hf in H1, H2.
    assert (Hhn : ~ same_blk h n) by (unfold same_blk; destruct Hh as [? _], Hn as [? _]; dlia).
    assert (Eh : hdrb s' h = f (hdrb s1 h)) by (rewrite HB by done; by rewrite decide_True).
    split; [done|]. split; [done|]. split; [intros q; rewrite HD; by rewrite (tf_HDR _ _ F1)|].
    split; [|split; [by rewrite Eh|split; [by rewrite Eh|]]].
    + intros k Hk Hkh Hkn. rewrite HB.
      * rewrite decide_False; [done|]. intros E. apply Hkh. destruct Hk, Hh. dlia.
      * intros E. apply Hkn. destruct Hk as [? _], Hn as [? _]. by apply aligned_same_blk.
    + rewrite EB2, EB. done.
Qed.

(** The listing after a merge: [h] is the only new exception. *)
Lemma coalesce_listed s s' L L' (h n u : Z) :
  heap_ok s L -> starts s h -> starts s n -> (u = h \/ u = n) ->
  listed_but s L [h; n] -> (forall j x, x ∈ L' j <-> x ∈ L j /\ x <> u) ->
  (forall q, HDRs s' q = if decide (q / 4096 = n / 4096) then NULL else HDRs s q) ->
  (forall k, starts s k -> k <> h -> k <> n -> body (hdrb s' k) = body (hdrb s k)) ->
  listed_but s' L' [h].
Proof.
  intros K Hh Hn Hu A HM HD HB k Hk Hf.
  assert (Hks : starts s k /\ k <> n).
  { destruct Hk as [Ha Hk]. rewrite HD in Hk. case_decide as E; [done|]. split; [done|]. by intros ->. }
  destruct Hks as [Hks Hkn]. destruct (decide (k = h)) as [->|Hkh]; [right; by left|].
  left. specialize (HB k Hks Hkh Hkn). rewrite (fl_index_body s s' k) by done. apply HM.
  rewrite (body_free _ _ HB) in Hf. destruct (A k Hks Hf) as [?|Hin].
  - split; [done|]. intros ->. by destruct Hu.
  - exfalso. rewrite !elem_of_cons, elem_of_nil in Hin. naive_solver.
Qed.

Lemma coalesce_starts s s' (h n : Z) :
  starts s h -> ~ same_blk h n ->
  (forall q, HDRs s' q = if decide (q / 4096 = n / 4096) then NULL else HDRs s q) -> starts s' h.
Proof. intros [Ha Hh] Hn HD. split; [done|]. rewrite HD, decide_False; done. Qed.

Lemma on_tbl_eq (g : T -> option T) hp (t : T) :
  g (tbl (fls hp)) = Some t -> on_tbl g hp = Some (set_fls (set_tbl t (fls hp)) hp).
Proof. unfold on_tbl. by intros ->. Qed.

Lemma on_tbl_res_eq {R : Type} (g : T -> option (R * T)) hp (r : R) (t : T) :
  g (tbl (fls hp)) = Some (r, t) -> on_tbl_res g hp = Some (r, set_fls (set_tbl t (fls hp)) hp).
Proof. unfold on_tbl_res. by intros ->. Qed.

(** [h] is the free block being returned; it is on no list yet. *)
Record freeing s L (h : Z) : Prop := {
  fr_ok : heap_ok s L;
  fr_start : starts s h;
  fr_free : HBLK_IS_FREE (hdrb s h) = true;
  fr_no : forall j, h ∉ L j;
  fr_listed : listed_but s L [h];
  fr_clean : ht_clean (tbl s)
}.

(** The blocks other than [h] and the free ones are as in [s0]. *)
Definition keeps_used s0 s (h : Z) : Prop :=
  forall k, starts s0 k -> HBLK_IS_FREE (hdrb s0 k) = false -> k <> h ->
    starts s k /\ body (hdrb s k) = body (hdrb s0 k).

(** The address lies in a block of the heap. *)
Definition cover s (x : Z) : Prop := exists k, starts s k /\ k <= x < k + extent (hdrb s k).

(** No memory comes into the heap. *)
Definition covers s s' : Prop := forall x, cover s' x -> cover s x.

Lemma covers_refl s : covers s s.
Proof. by intros x. Qed.

Lemma covers_trans s1 s2 s3 : covers s1 s2 -> covers s2 s3 -> covers s1 s3.
Proof. intros H1 H2 x Hx. by apply H1, H2. Qed.

Lemma covers_body s s' :
  (forall k, starts s' k -> starts s k /\ body (hdrb s' k) = body (hdrb s k)) -> covers s s'.
Proof.
  intros Hs x (k & Hk & Hx). destruct (Hs k Hk) as [Hk' E]. exists k. split; [done|].
  unfold extent in *. rewrite (body_free _ _ E) in Hx. by destruct (body_fields _ _ E) as (<- & _).
Qed.

Lemma coalesce_covers s s' (h n : Z) :
  starts s h -> starts s n -> HBLK_IS_FREE (hdrb s h) = true -> HBLK_IS_FREE (hdrb s n) = true -> n = h + hb_sz (hdrb s h) ->
  (forall q, HDRs s' q = if decide (q / 4096 = n / 4096) then NULL else HDRs s q) ->
  (forall k, starts s k -> k <> h -> k <> n -> body (hdrb s' k) = body (hdrb s k)) ->
  hb_sz (hdrb s' h) = hb_sz (hdrb s h) + hb_sz (hdrb s n) -> hb_flags (hdrb s' h) = hb_flags (hdrb s h) -> covers s s'.
Proof.
  intros Hh Hn Hf Hfn En HD HB Ez Efl x (k & [Ha Hk] & Hx). rewrite HD in Hk. case_decide as E; [done|].
  assert (Hks : starts s k) by done. assert (Hkn : k <> n) by (by intros ->).
  destruct (decide (k = h)) as [->|Hkh].
  - assert (Hf' : HBLK_IS_FREE (hdrb s' h) = true) by (unfold HBLK_IS_FREE in *; by rewrite Efl).
    unfold extent in Hx. rewrite Hf', Ez in Hx. destruct (Z.lt_ge_cases x n).
    + exists h. split; [done|]. unfold extent. rewrite Hf. lia.
    + exists n. split; [done|]. unfold extent. rewrite Hfn. lia.
  - exists k. split; [done|]. pose proof (HB k Hks Hkh Hkn) as Eb. unfold extent in *. rewrite (body_free _ _ Eb) in Hx.
    by destruct (body_fields _ _ Eb) as (<- & _).
Qed.

Lemma free_range s (h n : Z) :
  tiling s -> starts s h -> starts s n -> HBLK_IS_FREE (hdrb s h) = true ->
  HBLK_IS_FREE (hdrb s n) = true -> n = h + hb_sz (hdrb s h) ->
  0 <= hb_sz (hdrb s h) + hb_sz (hdrb s n) < W64 /\ ~ same_blk h n.
Proof.
  intros K Hh Hn Hf Hfn En. destruct (ti_extent _ _ K h Hh) as (H0 & H1 & H2 & H3).
  destruct (ti_extent _ _ K n Hn) as (N0 & N1 & N2 & N3).
  unfold extent in *. rewrite Hf in *. rewrite Hfn in *.
  split; [lia|]. unfold same_blk. destruct Hh as [? _], Hn as [? _]. dlia.
Qed.

Lemma merge_next_spec hp L (h : Z) :
  freeing (fls hp) L h ->
  let s := fls hp in
  let n := h + hb_sz (hdrb s h) in
  exists hp' L', free_merge_next (HDRs s h) n hp = Some hp'
    /\ freeing (fls hp') L' h /\ GC_large_free_bytes hp' = GC_large_free_bytes hp
    /\ prm hp' = prm hp
    /\ (forall p, starts s p -> p < h -> starts (fls hp') p /\ body (hdrb (fls hp') p) = body (hdrb s p))
    /\ (keeps_used s (fls hp') h /\ covers s (fls hp'))
    /\ HDRs (fls hp') h = HDRs s h
    /\ hb_flags (hdrb (fls hp') h) = hb_flags (hdrb s h)
    /\ listed_bytes (fls hp') L' + hb_sz (hdrb (fls hp') h) = listed_bytes s L + hb_sz (hdrb s h)
    /\ hb_sz (hdrb (fls hp') h)
       = (if decide (starts s n /\ HBLK_IS_FREE (hdrb s n) = true /\ IS_MAPPED (hdrb s n) = true
                     /\ hb_sz (hdrb s h) + hb_sz (hdrb s n) < 2 ^ 63)
          then hb_sz (hdrb s h) + hb_sz (hdrb s n) else hb_sz (hdrb s h)).
Proof.
  intros FR s n. assert (FR' : freeing s L h) by exact FR. destruct FR' as [K Hh Hf Hno Hl C].
  assert (Xh : extent (hdrb s h) = hb_sz (hdrb s h)) by (unfold extent; by rewrite Hf).
  unfold free_merge_next. change (hptr hp) with (HDRs s). change (hread hp) with (hdr_at s).
  change (hdr_at s (HDRs s n)) with (hdrb s n). change (hdr_at s (HDRs s h)) with (hdrb s h).
  assert (Hskip : ~ (starts s n /\ HBLK_IS_FREE (hdrb s n) = true /\ IS_MAPPED (hdrb s n) = true
                     /\ hb_sz (hdrb s h) + hb_sz (hdrb s n) < 2 ^ 63) ->
    exists hp' L', Some hp = Some hp'
    /\ freeing (fls hp') L' h /\ GC_large_free_bytes hp' = GC_large_free_bytes hp /\ prm hp' = prm hp
    /\ (forall p, starts s p -> p < h -> starts (fls hp') p /\ body (hdrb (fls hp') p) = body (hdrb s p))
    /\ (keeps_used s (fls hp') h /\ covers s (fls hp')) /\ HDRs (fls hp') h = HDRs s h
    /\ hb_flags (hdrb (fls hp') h) = hb_flags (hdrb s h)
    /\ listed_bytes (fls hp') L' + hb_sz (hdrb (fls hp') h) = listed_bytes s L + hb_sz (hdrb s h)
    /\ hb_sz (hdrb (fls hp') h)
       = (if decide (starts s n /\ HBLK_IS_FREE (hdrb s n) = true /\ IS_MAPPED (hdrb s n) = true
                     /\ hb_sz (hdrb s h) + hb_sz (hdrb s n) < 2 ^ 63)
          then hb_sz (hdrb s h) + hb_sz (hdrb s n) else hb_sz (hdrb s h))).
  { intros Hc. exists hp, L. split; [done|]. rewrite decide_False by done.
    pose proof (covers_refl s). by split_and!. }
  destruct (Z.eqb_spec (HDRs s n) NULL) as [En|En]; cbn [negb andb].
  { apply Hskip. intros ([_ Hn] & _). by rewrite En in Hn. }
  assert (Hn : starts s n) by (eapply next_is_start; [apply K|exact Hh|unfold n; by rewrite Xh|done]).
  destruct (HBLK_IS_FREE (hdrb s n)) eqn:Efn; cbn [andb]; [|apply Hskip; naive_solver].
  destruct (IS_MAPPED (hdrb s n)) eqn:Emn; cbn [andb]; [|apply Hskip; naive_solver].
  destruct (free_range s h n (ho_tiled _ _ K) Hh Hn Hf Efn eq_refl) as [Hr Hhn].
  rewrite merge_overflow, negb_involutive by done.
  destruct (Z.ltb_spec (hb_sz (hdrb s h) + hb_sz (hdrb s n)) (2 ^ 63)) as [Hlt|Hge];
    [|apply Hskip; intros (_ & _ & _ & ?); lia].
  clear Hskip. rewrite decide_True by done.
  assert (Hnl : n ∈ L (fl_index s n)).
  { destruct (Hl n Hn Efn) as [?|Hin]; [done|]. apply list_elem_of_singleton in Hin.
    rewrite Hin in Hhn. by destruct Hhn. }
  set (f := fun x => set_hb_sz (wrap64 (hb_sz x + hb_sz (hdr_at (GC_remove_from_fl (HDRs s n) s) (HDRs s n)))) x).
  destruct (unlist_spec s L (fl_index s n) n K Hnl) as (_ & _ & F1 & HB1 & _).
  change (GC_remove_from_fl_at (HDRs s n) (fl_index s n) s) with (GC_remove_from_fl (HDRs s n) s) in F1, HB1.
  assert (Ezn : hb_sz (hdr_at (GC_remove_from_fl (HDRs s n) s) (HDRs s n)) = hb_sz (hdrb s n)).
  { rewrite <- (proj1 (body_fields _ _ (HB1 n))). unfold hdrb. by rewrite (tf_HDR _ _ F1). }
  destruct (coalesce_spec s L h n n f K Hh Hn Hf Efn eq_refl) as (_ & _ & t & L' & Et & Ct & K' & HM & HD & HB & Esz & Efl & EB).
  { right. by split. }
  { done. }
  { intros x Ex. destruct (body_fields _ _ Ex) as (Ex1 & Ex2 & Ex3 & _). unfold f. cbn.
    rewrite Ezn, Ex1. unfold wrap64. rewrite Z.mod_small by lia. done. }
  cbn zeta. match goal with |- context [on_tbl ?g ?hq] => rewrite (on_tbl_eq g hq t Et) end.
  eexists _, L'. split; [done|].
  change (fls (set_fls ?x _)) with x. cbn [GC_large_free_bytes prm set_fls hwrite on_fls].
  match goal with |- context [set_tbl t ?x] =>
    change (set_tbl t x) with (set_tbl t (upd_hdr (HDRs s h) f (GC_remove_from_fl (HDRs s n) s))) end.
  set (s' := set_tbl t (upd_hdr (HDRs s h) f (GC_remove_from_fl (HDRs s n) s))) in *.
  assert (Hh' : starts s' h) by (eapply coalesce_starts; [exact Hh|exact Hhn|exact HD]).
  split; [|split; [done|split; [done|]]].
  - split; [done|done| | | |done].
    + unfold HBLK_IS_FREE. by rewrite Efl.
    + intros j Hj. apply HM in Hj as [Hj _]. by apply (Hno j).
    + eapply (coalesce_listed s s' L L' h n n); try done; [by right|].
      intros k Hk Hkf. destruct (Hl k Hk Hkf) as [?|Hin]; [by left|]. right.
      apply list_elem_of_singleton in Hin as ->. by left.
  - assert (Hkeep : forall k, starts s k -> k <> h -> k <> n ->
      starts s' k /\ body (hdrb s' k) = body (hdrb s k)).
    { intros k Hk Hkh Hkn. split; [|by apply HB]. destruct Hk as [Hka Hk]. split; [done|].
      rewrite HD, decide_False; [done|]. intros E. apply Hkn. destruct Hn as [? _]. by apply aligned_same_blk. }
    split_and!.
    + intros p Hp Hph. apply Hkeep; [done|lia|]. destruct (ti_extent _ _ (ho_tiled _ _ K) h Hh) as (_ & ? & _). lia.
    + intros k Hk Hkf Hkh. apply Hkeep; [done|done|]. intros ->. congruence.
    + by apply (coalesce_covers s s' h n).
    + rewrite HD, decide_False; [done|]. exact Hhn.
    + done.
    + rewrite EB, Esz. lia.
    + done.
Qed.

Lemma merge_prev_spec hp L (h p : Z) :
  freeing (fls hp) L h ->
  let s := fls hp in
  (p <> NULL -> starts s p /\ HBLK_IS_FREE (hdrb s p) = true /\ p + hb_sz (hdrb s p) = h) ->
  exists hp' L', 
    let c := decide (p <> NULL /\ IS_MAPPED (hdrb s p) = true
                     /\ hb_sz (hdrb s p) + hb_sz (hdrb s h) < 2 ^ 63) in
    let b := if c then p else h in
    free_merge_prev h (HDRs s h) p hp = Some (b, HDRs (fls hp') b, hp')
    /\ freeing (fls hp') L' b /\ GC_large_free_bytes hp' = GC_large_free_bytes hp
    /\ (keeps_used s (fls hp') h /\ covers s (fls hp') /\ prm hp' = prm hp)
    /\ listed_bytes (fls hp') L' + hb_sz (hdrb (fls hp') b) = listed_bytes s L + hb_sz (hdrb s h)
    /\ hb_sz (hdrb (fls hp') b)
       = (if c then hb_sz (hdrb s p) + hb_sz (hdrb s h) else hb_sz (hdrb s h)).
Proof.
  intros FR s Hp. assert (FR' : freeing s L h) by exact FR. destruct FR' as [K Hh Hf Hno Hl C].
  unfold free_merge_prev. change (hptr hp) with (HDRs s). change (hread hp) with (hdr_at s).
  change (hdr_at s (HDRs s p)) with (hdrb s p). change (hdr_at s (HDRs s h)) with (hdrb s h).
  destruct (decide (p <> NULL /\ IS_MAPPED (hdrb s p) = true
                    /\ hb_sz (hdrb s p) + hb_sz (hdrb s h) < 2 ^ 63)) as [(Hp0 & Hm & Hlt)|Hc].
  2:{ exists hp, L. cbn zeta. pose proof (covers_refl s). split; [|by split_and!].
      destruct (Z.eqb_spec p NULL) as [|Hp0]; [done|]. cbn [negb andb].
      destruct (IS_MAPPED (hdrb s p)) eqn:Em; [|done]. cbn [andb].
      destruct (Hp Hp0) as (Hps & Hpf & Ep).
      destruct (free_range s p h (ho_tiled _ _ K) Hps Hh Hpf Hf ltac:(lia)) as [Hr _].
      rewrite merge_overflow, negb_involutive by done.
      destruct (Z.ltb_spec (hb_sz (hdrb s p) + hb_sz (hdrb s h)) (2 ^ 63)); [|done]. exfalso. tauto. }
  destruct (Hp Hp0) as (Hps & Hpf & Ep).
  destruct (free_range s p h (ho_tiled _ _ K) Hps Hh Hpf Hf ltac:(lia)) as [Hr Hpn].
  rewrite (proj2 (Z.eqb_neq _ _) Hp0), Hm. cbn [negb andb].
  rewrite merge_overflow, negb_involutive by done. rewrite (proj2 (Z.ltb_lt _ _) Hlt).
  assert (Hpl : p ∈ L (fl_index s p)).
  { destruct (Hl p Hps Hpf) as [?|Hin]; [done|]. apply list_elem_of_singleton in Hin.
    rewrite Hin in Hpn. by destruct Hpn. }
  destruct (unlist_spec s L (fl_index s p) p K Hpl) as (_ & _ & F1 & HB1 & _).
  change (GC_remove_from_fl_at (HDRs s p) (fl_index s p) s) with (GC_remove_from_fl (HDRs s p) s) in F1, HB1.
  assert (Ezh : hb_sz (hdr_at (GC_remove_from_fl (HDRs s p) s) (HDRs s h)) = hb_sz (hdrb s h)).
  { rewrite <- (proj1 (body_fields _ _ (HB1 h))). unfold hdrb. by rewrite (tf_HDR _ _ F1). }
  set (f := fun x => set_hb_last_reclaimed (GC_gc_no (prm hp) mod 65536)
     (set_hb_sz (wrap64 (hb_sz x + hb_sz (hdr_at (GC_remove_from_fl (HDRs s p) s) (HDRs s h)))) x)).
  destruct (coalesce_spec s L p h p f K Hps Hh Hpf Hf ltac:(lia))
    as (_ & _ & t & L' & Et & Ct & K' & HM & HD & HB & Esz & Efl & EB).
  { left. by split. }
  { done. }
  { intros x Ex. destruct (body_fields _ _ Ex) as (Ex1 & Ex2 & Ex3 & _). unfold f. cbn.
    rewrite Ezh, Ex1. unfold wrap64. rewrite Z.mod_small by lia. done. }
  cbn zeta. match goal with |- context [on_tbl ?g ?hq] => rewrite (on_tbl_eq g hq t Et) end. cbn [mbind option_bind].
  set (s' := set_tbl t (upd_hdr (HDRs s p) f (GC_remove_from_fl (HDRs s p) s))) in *.
  match goal with |- context [Some (p, HDRs s p, ?hq)] => exists hq, L'; change (fls hq) with s' end.
  assert (Hp' : starts s' p) by (eapply coalesce_starts; [exact Hps|exact Hpn|exact HD]).
  split; [|split; [|split; [done|split; [|split]]]].
  - f_equal. f_equal. f_equal. rewrite HD, decide_False; [done|exact Hpn].
  - split; [done|done| | | |done].
    + unfold HBLK_IS_FREE. rewrite Efl. exact Hpf.
    + intros j Hj. apply HM in Hj as [_ Hj]. done.
    + eapply (coalesce_listed s s' L L' p h p); try done; [by left|].
      intros k Hk Hkf. destruct (Hl k Hk Hkf) as [?|Hin]; [by left|]. right.
      apply list_elem_of_singleton in Hin as ->. right. by left.
  - split; [|split; [|done]].
    + intros k Hk Hkf Hkh. assert (k <> p) by (intros ->; congruence). split; [|by apply HB].
      destruct Hk as [Hka Hk]. split; [done|]. rewrite HD, decide_False; [done|]. intros E.
      apply Hkh. destruct Hh as [? _]. by apply aligned_same_blk.
    + by apply (coalesce_covers s s' p h).
  - rewrite EB, Esz. lia.
  - done.
Qed.

(** What freeing the in-use block [h] of [s] yields. *)
Record freed s s' (L' : Z -> list Z) (h : Z) : Prop := {
  fd_ok : heap_ok s' L';
  fd_listed : all_listed s' L';
  fd_clean : ht_clean (tbl s');
  fd_keeps : keeps_used s s' h;
  fd_covered : exists b, starts s' b /\ HBLK_IS_FREE (hdrb s' b) = true
    /\ b <= h /\ h + extent (hdrb s h) <= b + hb_sz (hdrb s' b)
    /\ (forall n, n = h + extent (hdrb s h) -> starts s n -> HBLK_IS_FREE (hdrb s n) = true ->
          IS_MAPPED (hdrb s n) = true -> extent (hdrb s h) + hb_sz (hdrb s n) < 2 ^ 63 ->
          n + hb_sz (hdrb s n) <= b + hb_sz (hdrb s' b))
    /\ (forall p, ends_at s p h -> HBLK_IS_FREE (hdrb s p) = true -> IS_MAPPED (hdrb s p) = true ->
          b + hb_sz (hdrb s' b) - p < 2 ^ 63 -> b = p)
}.

Lemma all_listed_same s s' L :
  (forall q, HDRs s' q = HDRs s q) -> (forall q, has_hdr s q -> hdrb s' q = hdrb s q) ->
  all_listed s L -> all_listed s' L.
Proof.
  intros HD HB A h Hh Hf. assert (Hs : starts s h) by (unfold start in *; by rewrite <- HD).
  destruct Hs as [Ha Hs]. unfold fl_index. rewrite HB in * by exact Hs. by apply A.
Qed.

Lemma ends_at_same s s' (p h : Z) :
  starts s' p -> starts s p -> body (hdrb s' p) = body (hdrb s p) -> ends_at s' p h <-> ends_at s p h.
Proof.
  intros Hs' Hs E. unfold ends_at, extent. rewrite (body_free _ _ E).
  destruct (body_fields _ _ E) as (-> & _). tauto.
Qed.

(** From the marked block to the end of [GC_freehblk]. *)
Lemma free_tail_spec hp L (h v size : Z) :
  freeing (fls hp) L h -> v = HDRs (fls hp) h -> hb_sz (hdrb (fls hp) h) = size ->
  exists hp' L' b,
    (prev ← GC_free_block_ending_at hp h;
     hp ← free_merge_next v (h + size) hp;
     '(hbp, hhdr, hp) ← free_merge_prev h v prev hp;
     let hp := set_large_free (wrap64 (GC_large_free_bytes hp + size)) hp in
     Some (on_fls (GC_add_to_fl hbp hhdr) hp)) = Some hp'
    /\ heap_ok (fls hp') L' /\ all_listed (fls hp') L' /\ ht_clean (tbl (fls hp'))
    /\ (keeps_used (fls hp) (fls hp') h /\ covers (fls hp) (fls hp') /\ prm hp' = prm hp)
    /\ GC_large_free_bytes hp' = wrap64 (GC_large_free_bytes hp + size)
    /\ listed_bytes (fls hp') L' = listed_bytes (fls hp) L + size
    /\ starts (fls hp') b /\ HBLK_IS_FREE (hdrb (fls hp') b) = true
    /\ b <= h /\ h + size <= b + hb_sz (hdrb (fls hp') b)
    /\ (forall n, n = h + size -> starts (fls hp) n -> HBLK_IS_FREE (hdrb (fls hp) n) = true ->
          IS_MAPPED (hdrb (fls hp) n) = true -> size + hb_sz (hdrb (fls hp) n) < 2 ^ 63 ->
          n + hb_sz (hdrb (fls hp) n) <= b + hb_sz (hdrb (fls hp') b))
    /\ (forall p, ends_at (fls hp) p h -> HBLK_IS_FREE (hdrb (fls hp) p) = true ->
          IS_MAPPED (hdrb (fls hp) p) = true ->
          b + hb_sz (hdrb (fls hp') b) - p < 2 ^ 63 -> b = p).
Proof.
  intros FR -> Hsz. pose proof FR as [K Hh Hf Hno Hl C]. set (s := fls hp) in *.
  assert (Wf : ht_wf (tbl s)) by apply K.
  destruct (free_block_ending_at_spec hp h Wf (ho_tiled _ _ K) Hh) as (p & -> & Hp). fold s in Hp.
  cbn [mbind option_bind].
  destruct (ti_extent _ _ (ho_tiled _ _ K) h Hh) as (H0 & H1 & H2 & H3).
  assert (Xh : extent (hdrb s h) = size) by (unfold extent; by rewrite Hf).
  assert (Hps : p <> NULL -> starts s p /\ HBLK_IS_FREE (hdrb s p) = true
                /\ p + hb_sz (hdrb s p) = h /\ p < h).
  { intros Hp0. destruct Hp as [[? _]|(_ & [Hps Ep] & Hpf)]; [done|].
    destruct (ti_extent _ _ (ho_tiled _ _ K) p Hps) as (_ & ? & _).
    unfold extent in *. rewrite Hpf in *. split_and!; try done. lia. }
  destruct (merge_next_spec hp L h FR) as (hp1 & L1 & E1 & FR1 & G1 & P1 & Hlow & (KU1 & SH1) & HD1 & Efl1 & EB1 & Esz1).
  fold s in E1, Hlow, KU1, SH1, HD1, Efl1, EB1, Esz1. rewrite Hsz in E1, Esz1, EB1. rewrite E1. cbn [mbind option_bind].
  set (s1 := fls hp1) in *. rewrite <- HD1.
  assert (Hp1 : p <> NULL -> starts s1 p /\ body (hdrb s1 p) = body (hdrb s p)).
  { intros Hp0. destruct (Hps Hp0) as (? & ? & ? & ?). by apply Hlow. }
  destruct (merge_prev_spec hp1 L1 h p FR1) as (hp2 & L2 & E2 & FR2 & G2 & (KU2 & SH2 & P2) & EB2 & Esz2).
  { intros Hp0. fold s1. destruct (Hps Hp0) as (? & ? & ? & ?). destruct (Hp1 Hp0) as [? E].
    destruct (body_fields _ _ E) as (-> & _). rewrite (body_free _ _ E). by split_and!. }
  fold s1 in E2, FR2, KU2, SH2, EB2, Esz2. cbn zeta in E2, FR2, EB2, Esz2.
  set (c := decide (p <> NULL /\ IS_MAPPED (hdrb s1 p) = true
                    /\ hb_sz (hdrb s1 p) + hb_sz (hdrb s1 h) < 2 ^ 63)) in *.
  set (b := if c then p else h) in *.
  rewrite E2. cbn [mbind option_bind].
  pose proof FR2 as [K2 Hb Hbf Hbno Hbl Cb].
  set (hp3 := set_large_free (wrap64 (GC_large_free_bytes hp2 + size)) hp2).
  destruct (enlist_spec (fls hp2) L2 b K2 Hb Hbf Hbno) as (L3 & K3 & F3 & HB3 & HM3 & EB3).
  exists (on_fls (GC_add_to_fl b (HDRs (fls hp2) b)) hp3), L3, b. split; [done|].
  change (fls (on_fls (GC_add_to_fl b (HDRs (fls hp2) b)) hp3))
    with (GC_add_to_fl b (HDRs (fls hp2) b) (fls hp2)).
  set (s2 := fls hp2) in *. set (s3 := GC_add_to_fl b (HDRs s2 b) s2) in *.
  assert (Hst : forall q, starts s3 q <-> starts s2 q) by (intros q; unfold start; by rewrite (tf_HDR _ _ F3)).
  assert (Eszb : hb_sz (hdrb s3 b) = hb_sz (hdrb s2 b)) by (by apply body_fields).
  split_and!.
  - done.
  - intros k Hk Hkf. apply HM3. rewrite (fl_index_body s2 s3 k) by apply HB3.
    rewrite (body_free _ _ (HB3 k)) in Hkf. apply Hst in Hk. destruct (Hbl k Hk Hkf) as [?|Hin]; [by left|].
    apply list_elem_of_singleton in Hin. subst k. by right.
  - by apply (tf_clean _ _ F3).
  - intros k Hk Hkf Hkh. destruct (KU1 k Hk Hkf Hkh) as [Hk1 Ek1].
    assert (Hkf1 : HBLK_IS_FREE (hdrb s1 k) = false) by (by rewrite (body_free _ _ Ek1)).
    destruct (KU2 k Hk1 Hkf1 Hkh) as [Hk2 Ek2]. split; [by apply Hst|]. rewrite HB3. congruence.
  - eapply covers_trans; [exact SH1|]. eapply covers_trans; [exact SH2|]. apply covers_body.
    intros k Hk. split; [by apply Hst|apply HB3].
  - cbn. by rewrite P2, P1.
  - cbn. by rewrite G2, G1.
  - rewrite EB3. lia.
  - by apply Hst.
  - by rewrite (body_free _ _ (HB3 b)).
  - unfold b. destruct c as [(Hp0 & _)|]; [|lia]. destruct (Hps Hp0) as (_ & _ & _ & ?). lia.
  - rewrite Eszb, Esz2. unfold b. assert (size <= hb_sz (hdrb s1 h)).
    { rewrite Esz1. case_decide as Hd; [|lia]. destruct Hd as (Hn & Hnf & _).
      destruct (ti_extent _ _ (ho_tiled _ _ K) _ Hn) as (_ & Hx & _). unfold extent in Hx. rewrite Hnf in Hx. lia. }
    destruct c as [(Hp0 & _)|]; [|lia]. destruct (Hps Hp0) as (_ & _ & Ep & _). destruct (Hp1 Hp0) as [_ E].
    destruct (body_fields _ _ E) as (-> & _). lia.
  - intros n -> Hn Hnf Hnm Hlt. rewrite Eszb, Esz2. unfold b.
    assert (En : hb_sz (hdrb s1 h) = size + hb_sz (hdrb s (h + size))).
    { rewrite Esz1. by rewrite decide_True. }
    destruct c as [(Hp0 & _)|]; [|lia]. destruct (Hps Hp0) as (_ & _ & Ep & _). destruct (Hp1 Hp0) as [_ E].
    destruct (body_fields _ _ E) as (-> & _). lia.
  - intros k He Hkf Hkm. rewrite Eszb, Esz2. intros Hlt.
    destruct Hp as [[-> Hnone]|(Hp0 & He' & _)]; [by rewrite (Hnone k He) in Hkf|].
    pose proof (ends_at_unique s p k h (ho_tiled _ _ K) He' He) as <-.
    destruct (Hps Hp0) as (_ & _ & Ep & _). destruct (Hp1 Hp0) as [_ E].
    unfold b in Hlt |- *. destruct c as [|Hc]; [done|]. exfalso. apply Hc. split; [done|].
    rewrite (body_mapped _ _ E). split; [done|]. destruct (body_fields _ _ E) as (-> & _). lia.
Qed.

Lemma freehblk_spec hp L (h : Z)
    (K : heap_ok (fls hp) L) (A : all_listed (fls hp) L) (Hh : starts (fls hp) h)
    (Hf : HBLK_IS_FREE (hdrb (fls hp) h) = false) (Hx : extent (hdrb (fls hp) h) < 2 ^ 63) :
  exists hp' L', GC_freehblk h hp = Some hp' /\ freed (fls hp) (fls hp') L' h
    /\ GC_large_free_bytes hp' = wrap64 (GC_large_free_bytes hp + extent (hdrb (fls hp) h))
    /\ listed_bytes (fls hp') L' = listed_bytes (fls hp) L + extent (hdrb (fls hp) h).
Proof.
  set (s := fls hp) in *. destruct (ti_extent _ _ (ho_tiled _ _ K) h Hh) as (H0 & H1 & H2 & H3).
  assert (Ex : extent (hdrb s h) = HBLKSIZE * OBJ_SZ_TO_BLOCKS (hb_sz (hdrb s h)))
    by (unfold extent; by rewrite Hf).
  assert (Wf : ht_wf (tbl s)) by apply K.
  destruct (hl_invalidate (tbl s) Wf) as (W1 & C1 & S1).
  destruct (heap_ok_same_table s L _ K W1 S1) as (K1 & HD1 & HB1).
  set (s1 := set_tbl (ht_invalidate (tbl s)) s) in *.
  assert (Hs1 : forall q, starts s1 q <-> starts s q) by (intros q; unfold start; by rewrite HD1).
  assert (Eh1 : hdrb s1 h = hdrb s h) by (apply HB1, Hh).
  unfold GC_freehblk. fold s. fold s1. cbn zeta. set (hp1 := set_fls s1 hp).
  change (hptr hp1 h) with (HDRs s1 h). change (hread hp1 (HDRs s1 h)) with (hdrb s1 h).
  rewrite Eh1, <- Ex. set (size := extent (hdrb s h)) in *. cbn zeta.
  rewrite signb_land, (proj2 (Z.ltb_lt _ _) Hx) by (unfold W64 in *; lia). cbn [negb].
  set (g := GC_gc_no (prm hp) mod 65536).
  destruct (mark_free_spec s1 L h (fun x => set_hb_last_reclaimed g (set_hb_sz size x))
    (fun x => set_hb_flags (Z.lor (hb_flags x) FREE_BLK) x))
    as (t & Et & Ct & Eat & K2 & C2 & Hno & Hs2 & HD2 & HB2 & HBo & EB2);
    [done|by apply Hs1|by rewrite Eh1|apply HBLK_IS_FREE_set|by rewrite Eh1|by rewrite Eh1|].
  rewrite Eh1 in Et, Eat, HD2, HB2. fold size in Et, HD2.
  rewrite (on_tbl_eq _ hp1 t Et). cbn [mbind option_bind].
  change (prm (set_fls (set_tbl t (fls hp1)) hp1)) with (prm hp). fold g.
  set (s2a := upd_hdr (HDRs s1 h) (fun x => set_hb_last_reclaimed g (set_hb_sz size x)) (set_tbl t s1)) in *.
  change (hread (hwrite (HDRs s1 h) _ (set_fls (set_tbl t (fls hp1)) hp1)) (HDRs s1 h))
    with (hdr_at s2a (HDRs s1 h)).
  rewrite Eat. change (HBLK_IS_FREE (set_hb_last_reclaimed g (set_hb_sz size (hdrb s h))))
    with (HBLK_IS_FREE (hdrb s h)). rewrite Hf.
  match goal with |- context [GC_free_block_ending_at ?x _] => set (hp2 := x) end.
  set (s2 := upd_hdr (HDRs s1 h) (fun x => set_hb_flags (Z.lor (hb_flags x) FREE_BLK) x) s2a) in *.
  assert (Ef2 : fls hp2 = s2) by done.
  assert (Ehp : HDRs s1 h = HDRs (fls hp2) h).
  { rewrite Ef2, HD2. by rewrite decide_False by lia. }
  assert (Eh2 : hdrb s2 h = set_hb_flags (Z.lor (hb_flags (hdrb s h)) FREE_BLK)
     (set_hb_last_reclaimed g (set_hb_sz size (hdrb s h)))).
  { rewrite HB2. by rewrite decide_True. }
  assert (A1 : all_listed s1 L) by (by eapply all_listed_same; [exact HD1|exact HB1|]).
  assert (FR : freeing (fls hp2) L h).
  { rewrite Ef2. split; [done|by apply Hs2, Hs1|rewrite Eh2; by apply flag_set_lor_same|done| |done].
    intros k Hk Hkf. destruct (decide (k = h)) as [->|Hne]; [right; by left|]. left.
    apply Hs2 in Hk. unfold fl_index. rewrite (HBo k Hk Hne) in Hkf |- *. by apply A1. }
  destruct (free_tail_spec hp2 L h (HDRs s1 h) size FR Ehp) as (hp' & L' & b & E & K' & A' & C' & (KU & _ & _) & G & EB & Hb & Hbf & B1 & B2 & B3 & B4).
  { rewrite Ef2, Eh2. done. }
  cbn zeta in E |- *. rewrite E. exists hp', L'. rewrite Ef2 in *.
  assert (Hback : forall k, starts s k -> k <> h -> starts s2 k /\ hdrb s2 k = hdrb s k).
  { intros k Hk Hne. assert (Hk1 : starts s1 k) by (by apply Hs1).
    split; [by apply Hs2|]. rewrite (HBo k Hk1 Hne). apply HB1, Hk. }
  split; [done|]. split; [|split; [by rewrite G|]].
  - split; try done.
    + intros k Hk Hkf Hkh. destruct (Hback k Hk Hkh) as [Hk2 Ek2]. rewrite <- Ek2 in Hkf |- *. by apply KU.
    + exists b. fold size. split; [done|]. split; [done|]. split; [done|]. split; [done|]. split.
      * intros n -> Hn Hnf Hnm Hlt. destruct (Hback (h + size) Hn ltac:(lia)) as [Hn2 En2].
        rewrite <- En2 in Hnf, Hnm, Hlt |- *. by apply B3.
      * intros p [Hps Ep] Hpf Hpm Hlt. destruct (ti_extent _ _ (ho_tiled _ _ K) p Hps) as (_ & ? & _).
        destruct (Hback p Hps ltac:(lia)) as [Hp2 Ep2].
        apply B4; [split; [done|by rewrite Ep2]|by rewrite Ep2|by rewrite Ep2|done].
  - rewrite EB, EB2. f_equal. apply listed_bytes_ext. intros i x Hx'. f_equal. apply HB1.
    by apply (fo_blk _ _ (ho_fl _ _ K) i).
Qed.

(** C3: freeing an in-use block succeeds; every invariant of the heap holds
    afterwards and all free blocks are listed; the freed range lies inside one
    free block, merged with the mapped free neighbour on either side unless
    the result would have the sign bit set; all other in-use blocks and their
    headers are untouched; the free-byte total grows by the block's extent and
    the header cache is empty. *)
Theorem GC_freehblk_correct hp L (h : Z)
    (K : heap_ok (fls hp) L) (A : all_listed (fls hp) L) (Hh : starts (fls hp) h)
    (Hf : HBLK_IS_FREE (hdrb (fls hp) h) = false) (Hx : extent (hdrb (fls hp) h) < 2 ^ 63) :
  exists hp' L', GC_freehblk h hp = Some hp' /\ freed (fls hp) (fls hp') L' h
    /\ GC_large_free_bytes hp' = wrap64 (GC_large_free_bytes hp + extent (hdrb (fls hp) h))
    /\ listed_bytes (fls hp') L' = listed_bytes (fls hp) L + extent (hdrb (fls hp) h).
Proof. by apply freehblk_spec. Qed.

End Free.

(** ** Witness *)

Definition sample_bl : BlackList.bl_state :=
  BlackList.BlState {[1 := ∅; 2 := ∅]} 0 0 1 2 65536 true [] 0 (fun _ => true).
Definition sample_params : params :=
  Params (fun k => ObjKind 0 (k =? 1) false false) 7 1000000 0 0 0 0 false false false false 5.
Definition sample_heap_of (s : fl_state hdr_state) : heap hdr_state :=
  Heap s ∅ sample_bl sample_params 0 0 0 0 0 [].

Lemma GC_freehblk_correct_witness :
  exists (hp hp' : heap hdr_state) L', GC_freehblk 1048576 hp = Some hp'
    /\ freed (fls hp) (fls hp') L' 1048576 /\ GC_large_free_bytes hp' = 16384.
Proof.
  destruct sample_heap as (s & K & A & Hs & Hb & _).
  destruct (GC_freehblk_correct (sample_heap_of s) (fun _ => []) 1048576 K A Hs) as (hp' & L' & E & F & G & _).
  - change (fls (sample_heap_of s)) with s. rewrite Hb. reflexivity.
  - change (fls (sample_heap_of s)) with s. rewrite Hb. reflexivity.
  - exists (sample_heap_of s), hp', L'. split; [exact E|]. split; [exact F|].
    rewrite G. change (fls (sample_heap_of s)) with s. rewrite Hb. reflexivity.
Defined.

End AllchblkFree.
