(* ===== verification/AllchblkTake.v ===== *)
(** * Taking blocks out of a free block (allchblk.c)

    The steps of [GC_allochblk_nth] after its search: splitting a free block,
    taking its first part off the list, installing the forwarding counts and
    setting up the header.  Between the steps the stored size of the block being
    taken is out of date, so the intermediate states are described by tilings in
    which that block has a header of its own. *)

From Stdlib Require Import ZArith Lia.
From stdpp Require Import base gmap list.
From S2P Require Import Prelude BlackList Scratch Hblk Headers HeadersNav HdrIface MarkBits ObjMap FreeList Allchblk HeapInv AllchblkFree.

Module AllchblkTake.
Import BlackList Headers HdrIface MarkBits ObjMap FreeList Allchblk HeapInv AllchblkFree.

Section Take.
Context {T : Type} `{HeaderTable T} `{!HeaderTableLaws T}.
Implicit Types (hp : heap T) (s : fl_state T) (L : Z -> list Z).

Abbreviation tiling s := (tiled (HDRs s) (hdrb s)).
Abbreviation starts s := (start (HDRs s)).

(** ** Writing the header of a listed block *)

Lemma write_listed s L (h : Z) (f : hdr -> hdr) :
  fl_ok s L -> starts s h ->
  hb_next (f (hdrb s h)) = hb_next (hdrb s h) -> hb_prev (f (hdrb s h)) = hb_prev (hdrb s h) ->
  hb_sz (f (hdrb s h)) = hb_sz (hdrb s h) ->
  HBLK_IS_FREE (f (hdrb s h)) = HBLK_IS_FREE (hdrb s h) ->
  let s' := upd_hdr (HDRs s h) f s in
  fl_ok s' L /\ tbl_frame s s'
  /\ (forall q, hdrb s' q = if decide (q / 4096 = h / 4096) then f (hdrb s h) else hdrb s q).
Proof.
  intros K Hs En Ep Es Ef s'. destruct (upd_hdr_spec s h f) as (W & HD & HB & E1 & E2 & C); [apply K|apply Hs|].
  fold s' in W, HD, HB, E1, E2, C.
  assert (HF : tbl_frame s s') by (by split).
  assert (HL : forall q, hb_next (hdrb s' q) = hb_next (hdrb s q) /\ hb_prev (hdrb s' q) = hb_prev (hdrb s q)
     /\ hb_sz (hdrb s' q) = hb_sz (hdrb s q) /\ HBLK_IS_FREE (hdrb s' q) = HBLK_IS_FREE (hdrb s q)).
  { intros q. rewrite HB. case_decide as E; [|done]. rewrite (hdrb_blk s q h E). done. }
  split; [|done]. split; [done|..].
  - intros i. rewrite E1. apply K.
  - intros i. eapply fl_chain_ext; [|apply (fo_chain _ _ K i)]. intros q _. by destruct (HL q) as (-> & -> & _).
  - intros i q Hq. destruct (fo_blk _ _ K i q Hq) as (? & ? & ?). split; [done|]. split; [done|].
    by apply (tbl_frame_has_hdr s s').
  - apply K.
  - apply K.
  - intros i. rewrite E2, (fo_bytes _ _ K i). f_equal. symmetry. apply sizes_ext. intros q _. by destruct (HL q) as (_ & _ & -> & _).
  - intros i q Hq. destruct (HL q) as (_ & _ & _ & ->). by apply (fo_free _ _ K i).
Qed.

(** ** Replacing a listed block by another one *)

Lemma fl_chain_replace s s' (prev h n : Z) (l1 l2 : list Z) :
  NoDup (l1 ++ h :: l2) ->
  (forall q, q ∈ l1 ++ l2 ->
     hb_next (hdrb s' q) = (if decide (l1 <> [] /\ q = List.last l1 NULL) then n else hb_next (hdrb s q))
     /\ hb_prev (hdrb s' q) = (if decide (l2 <> [] /\ q = hd NULL l2) then n else hb_prev (hdrb s q))) ->
  hb_prev (hdrb s' n) = List.last l1 prev -> hb_next (hdrb s' n) = hd NULL l2 ->
  fl_chain s prev (l1 ++ h :: l2) -> fl_chain s' prev (l1 ++ n :: l2).
Proof.
  revert prev. induction l1 as [|a l1 IH]; intros prev Hnd E Ep En; cbn [app fl_chain].
  - intros (_ & _ & Hc). split; [done|]. split; [done|]. destruct l2 as [|b l2]; [done|]. cbn [fl_chain] in *.
    destruct Hc as (_ & Hn & Hc). inversion Hnd as [|? ? _ Hnd2]; subst.
    inversion Hnd2 as [|? ? Hb Hnd3]; subst.
    destruct (E b) as [E1 E2]; [by left|]. rewrite decide_False in E1 by (by intros [? _]).
    rewrite decide_True in E2 by done. split; [done|]. split; [congruence|].
    eapply fl_chain_ext; [|exact Hc]. intros x Hx. destruct (E x) as [E1' E2']; [by right|].
    rewrite decide_False in E1' by (by intros [? _]).
    rewrite decide_False in E2'; [done|]. intros [_ Ex]. cbn in Ex. subst x. done.
  - intros (Hp & Hn & Hc). cbn in Hnd. inversion Hnd as [|? ? Ha Hnd2]; subst.
    destruct (E a) as [E1 E2]; [by left|].
    assert (Hal : a ∉ l2) by (intros ?; apply Ha, elem_of_app; right; by right).
    rewrite decide_False in E2.
    2:{ intros [Hne Ex]. destruct l2 as [|b l2]; [done|]. cbn in Ex. subst a. apply Hal. by left. }
    rewrite last_cons_default in Ep. split; [done|]. split.
    + rewrite E1. destruct l1 as [|b l1]; cbn [hd app] in Hn |- *.
      * by rewrite decide_True.
      * rewrite decide_False; [done|]. intros [_ Ex]. apply Ha, elem_of_app. left.
        rewrite !last_cons_default in Ex. rewrite <- (last_cons_default b l1 NULL) in Ex.
        rewrite Ex. by apply last_In.
    + apply (IH a); [done| |done|done|done]. intros q Hq. destruct (E q) as [E1' E2']; [by right|].
      rewrite E1', E2'. split; [|done]. rewrite (last_cons_default a).
      destruct l1 as [|b l1].
      * cbn. rewrite decide_False; [by rewrite decide_False by (by intros [? _])|].
        intros [_ Ex]. subst q. by apply Hal.
      * rewrite !last_cons_default. destruct (decide (q = List.last l1 b)) as [Eq|Eq];
          [by rewrite !decide_True|by rewrite !decide_False by (by intros [_ ?])].
Qed.

#[local] Instance same_blk_dec (p q : Z) : Decision (same_blk p q).
Proof. unfold same_blk. apply _. Defined.

(** The part of [GC_split_block] that puts [last] in the place of [h]. *)
Definition swap_fl (h last p n index h_size : Z) (hhdr lhdr : Z) (F G : hdr -> hdr) s : fl_state T :=
  let s := upd_hdr lhdr F s in
  let s := if negb (p =? NULL) then upd_hdr (HDRs s p) (set_hb_next last) s else set_head index last s in
  let s := if negb (n =? NULL) then upd_hdr (HDRs s n) (set_hb_prev last) s else s in
  let s := set_bytes index (wrap64 (aget (GC_free_bytes s) index - h_size)) s in
  upd_hdr hhdr G s.

Lemma swap_effect s (h last p n index h_size : Z) (F G : hdr -> hdr) :
  ht_wf (tbl s) -> has_hdr s h -> has_hdr s last ->
  (p <> NULL -> has_hdr s p /\ ~ same_blk p h /\ ~ same_blk p last) ->
  (n <> NULL -> has_hdr s n /\ ~ same_blk n h /\ ~ same_blk n last) -> ~ same_blk h last ->
  let s' := swap_fl h last p n index h_size (HDRs s h) (HDRs s last) F G s in
  tbl_frame s s' /\ ht_wf (tbl s')
  /\ GC_hblkfreelist s' = (if decide (p = NULL) then <[index := last]> (GC_hblkfreelist s)
                           else GC_hblkfreelist s)
  /\ GC_free_bytes s' = <[index := wrap64 (aget (GC_free_bytes s) index - h_size)]> (GC_free_bytes s)
  /\ forall q, hdrb s' q
     = if decide (same_blk q last) then F (hdrb s last)
       else if decide (same_blk q h) then G (hdrb s h)
       else (if decide (n <> NULL /\ same_blk q n) then set_hb_prev last else id)
              ((if decide (p <> NULL /\ same_blk q p) then set_hb_next last else id) (hdrb s q)).
Proof.
  intros W Hh Hl Hp Hn Hhl s'. unfold s', swap_fl.
  destruct (upd_hdr_spec s last F W Hl) as (W1 & D1 & B1 & E1a & E1b & C1).
  set (s1 := upd_hdr (HDRs s last) F s) in *.
  set (s2 := if negb (p =? NULL) then _ else _).
  assert (H2 : tbl_frame s s2 /\ ht_wf (tbl s2) /\ GC_free_bytes s2 = GC_free_bytes s
    /\ GC_hblkfreelist s2 = (if decide (p = NULL) then <[index := last]> (GC_hblkfreelist s) else GC_hblkfreelist s)
    /\ forall q, hdrb s2 q = (if decide (p <> NULL /\ same_blk q p) then set_hb_next last else id) (hdrb s1 q)).
  { unfold s2. destruct (Z.eqb_spec p NULL) as [->|Hp0]; cbn [negb].
    - rewrite decide_True by done. split_and!; [by split|done|done|done|].
      intros q. by rewrite decide_False by (by intros [? _]).
    - rewrite decide_False by done. destruct (Hp Hp0) as (Hph & _ & _).
      destruct (upd_hdr_spec s1 p (set_hb_next last) W1) as (W2 & D2 & B2 & E2a & E2b & C2);
        [unfold has_hdr; by rewrite D1|].
      split_and!; [split; [done|intros x; by rewrite D2|by auto]|done|by rewrite E2b|by rewrite E2a|].
      intros q. rewrite B2. unfold same_blk. destruct (decide (q / 4096 = p / 4096)) as [E|E].
      + rewrite decide_True by done. by rewrite (hdrb_blk s1 q p E).
      + by rewrite decide_False by (by intros [_ ?]). }
  destruct H2 as (F2 & W2 & E2b & E2a & B2). clearbody s2.
  set (s3 := if negb (n =? NULL) then _ else _).
  assert (H3 : tbl_frame s s3 /\ ht_wf (tbl s3) /\ GC_free_bytes s3 = GC_free_bytes s2
    /\ GC_hblkfreelist s3 = GC_hblkfreelist s2
    /\ forall q, hdrb s3 q = (if decide (n <> NULL /\ same_blk q n) then set_hb_prev last else id) (hdrb s2 q)).
  { unfold s3. destruct (Z.eqb_spec n NULL) as [->|Hn0]; cbn [negb].
    - split; [done|]. split; [done|]. split; [done|]. split; [done|]. intros q. by rewrite decide_False by (by intros [? _]).
    - destruct (Hn Hn0) as (Hnh & _ & _).
      destruct (upd_hdr_spec s2 n (set_hb_prev last) W2) as (W3 & D3 & B3 & E3a & E3b & C3);
        [by apply (tbl_frame_has_hdr s s2)|].
      split_and!; [eapply tbl_frame_trans; [exact F2|by split]|done|done|done|].
      intros q. rewrite B3. unfold same_blk. destruct (decide (q / 4096 = n / 4096)) as [E|E].
      + rewrite decide_True by done. by rewrite (hdrb_blk s2 q n E).
      + by rewrite decide_False by (by intros [_ ?]). }
  destruct H3 as (F3 & W3 & E3b & E3a & B3). clearbody s3.
  set (s4 := set_bytes _ _ s3). assert (F4 : tbl_frame s s4) by (destruct F3; by split).
  rewrite <- (tf_HDR _ _ F4 h).
  destruct (upd_hdr_spec s4 h G) as (W5 & D5 & B5 & E5a & E5b & C5); [done|by apply (tbl_frame_has_hdr s s4)|].
  split; [eapply tbl_frame_trans; [exact F4|by split]|]. split; [done|].
  split; [rewrite E5a; cbn; by rewrite E3a, E2a|]. split; [rewrite E5b; cbn; by rewrite E3b, E2b|].
  assert (B3' : forall q, hdrb s3 q = (if decide (n <> NULL /\ same_blk q n) then set_hb_prev last else id)
      ((if decide (p <> NULL /\ same_blk q p) then set_hb_next last else id) (hdrb s1 q))).
  { intros q. by rewrite B3, B2. }
  assert (Hout : forall q, same_blk q last \/ same_blk q h -> hdrb s3 q = hdrb s1 q).
  { intros q Hq. rewrite B3'. rewrite !decide_False; [done|..].
    - intros [Hp0 E]. destruct (Hp Hp0) as (_ & Hp1 & Hp2). unfold same_blk in *. destruct Hq; congruence.
    - intros [Hn0 E]. destruct (Hn Hn0) as (_ & Hn1 & Hn2). unfold same_blk in *. destruct Hq; congruence. }
  intros q. rewrite B5. change (hdrb s4) with (hdrb s3).
  destruct (decide (same_blk q last)) as [El|El].
  - rewrite decide_False; [|intros E; apply Hhl; unfold same_blk in *; congruence].
    rewrite Hout by (by left). rewrite B1. by rewrite decide_True.
  - destruct (decide (same_blk q h)) as [Eh|Eh].
    + rewrite decide_True by done. rewrite Hout by (by right). rewrite B1. by rewrite decide_False.
    + rewrite decide_False by done. rewrite B3', B1. by rewrite (decide_False (P := q / 4096 = last / 4096)).
Qed.

Lemma swap_ok s L (i h last h_size : Z) (l1 l2 : list Z) (F G : hdr -> hdr) :
  fl_ok s L -> L i = l1 ++ h :: l2 -> listable s last -> (forall j, last ∉ L j) ->
  let p := hb_prev (hdrb s h) in let n := hb_next (hdrb s h) in
  hb_prev (F (hdrb s last)) = p -> hb_next (F (hdrb s last)) = n ->
  hb_sz (F (hdrb s last)) = hb_sz (hdrb s h) - h_size -> HBLK_IS_FREE (F (hdrb s last)) = true ->
  let s' := swap_fl h last p n i h_size (HDRs s h) (HDRs s last) F G s in
  fl_ok s' (upd_list i (l1 ++ last :: l2) L) /\ tbl_frame s s'
  /\ hdrb s' last = F (hdrb s last) /\ hdrb s' h = G (hdrb s h)
  /\ forall q, ~ same_blk q last -> ~ same_blk q h -> body (hdrb s' q) = body (hdrb s q).
Proof.
  intros K EL Hl Hlno p n EFp EFn EFs EFf s'.
  assert (Hhi : h ∈ L i) by (rewrite EL; apply elem_of_app; right; by left).
  assert (H1 : forall q, q ∈ l1 -> q ∈ L i) by (intros q Hq; rewrite EL; apply elem_of_app; by left).
  assert (H2 : forall q, q ∈ l2 -> q ∈ L i) by (intros q Hq; rewrite EL; apply elem_of_app; right; by right).
  assert (H12 : forall q, q ∈ l1 ++ l2 -> q ∈ L i) by (intros q Hq; apply elem_of_app in Hq as [?|?]; auto).
  pose proof (fo_nodup _ _ K i) as Hnd. rewrite EL in Hnd.
  assert (Hneq : forall q, q ∈ l1 ++ l2 -> q <> h).
  { intros q Hq ->. apply NoDup_app in Hnd as (_ & Hd & Hnd2). inversion Hnd2; subst.
    apply elem_of_app in Hq as [Hq|Hq]; [|done]. apply (Hd h Hq). by left. }
  pose proof (fo_chain _ _ K i) as Hch. rewrite EL in Hch.
  destruct (fl_chain_mid s NULL h l1 l2 Hch) as [Ep En]. fold p in Ep. fold n in En.
  destruct (fo_blk _ _ K i h Hhi) as (Hh0 & Hal & Hhd). destruct Hl as (Hl0 & Hlal & Hlh).
  assert (Hlp := last_nonnull s L i l1 K H1). assert (Hln := hd_nonnull s L i l2 K H2).
  assert (Hlb : forall j q, q ∈ L j -> ~ same_blk q last).
  { intros j q Hq E. destruct (fo_blk _ _ K j q Hq) as (_ & Hqal & _).
    apply aligned_same_blk in E; [subst q; by apply (Hlno j)|done|done]. }
  assert (Hnb : forall q, q ∈ l1 ++ l2 -> has_hdr s q /\ ~ same_blk q h /\ ~ same_blk q last).
  { intros q Hq. destruct (fo_blk _ _ K i q (H12 q Hq)) as (_ & Hqal & Hqh). split; [done|].
    split; [|by apply (Hlb i), H12]. intros E. by apply (Hneq q), aligned_same_blk. }
  destruct (swap_effect s h last p n i h_size F G) as (FR & W & Efl & Eby & HB);
    [apply K|done|done|..].
  { rewrite Ep. intros Hne. apply Hnb, elem_of_app. left. by apply last_In, Hlp. }
  { rewrite En. intros Hne. apply Hnb, elem_of_app. right. by apply hd_In, Hln. }
  { by apply (Hlb i). }
  fold s' in FR, W, Efl, Eby, HB.
  assert (Hhl : ~ same_blk h last) by (by apply (Hlb i)).
  assert (HBl : hdrb s' last = F (hdrb s last)) by (rewrite HB; by rewrite decide_True).
  assert (HBh : hdrb s' h = G (hdrb s h)).
  { rewrite HB, decide_False by done. by rewrite decide_True. }
  assert (Hbody : forall q, ~ same_blk q last -> ~ same_blk q h -> body (hdrb s' q) = body (hdrb s q)).
  { intros q Hq1 Hq2. rewrite HB, !decide_False by done. by repeat case_decide. }
  split; [|by split_and!].
  (* the effect on a listed block other than [h] *)
  assert (HBL : forall j q, q ∈ L j -> q <> h ->
    hb_next (hdrb s' q) = (if decide (l1 <> [] /\ q = List.last l1 NULL) then last else hb_next (hdrb s q))
    /\ hb_prev (hdrb s' q) = (if decide (l2 <> [] /\ q = hd NULL l2) then last else hb_prev (hdrb s q))
    /\ body (hdrb s' q) = body (hdrb s q)).
  { intros j q Hq Hne. destruct (fo_blk _ _ K j q Hq) as (_ & Hqal & _).
    assert (Hqh : ~ same_blk q h) by (intros E; by apply Hne, aligned_same_blk).
    assert (Hql : ~ same_blk q last) by (by apply (Hlb j)).
    assert (Hb : forall (l : list Z) (x : Z), (forall y, y ∈ l -> y ∈ L i) -> x ∈ l -> same_blk q x <-> q = x).
    { intros l x Hl' Hx. destruct (fo_blk _ _ K i x (Hl' x Hx)) as (_ & Hxal & _).
      split; [by apply aligned_same_blk|by intros ->]. }
    assert (D1 : (p <> NULL /\ same_blk q p) <-> (l1 <> [] /\ q = List.last l1 NULL)).
    { rewrite Ep, <- Hlp. split; intros [Hn' Hx]; (split; [done|]); by apply (Hb l1); [|apply last_In|]. }
    assert (D2 : (n <> NULL /\ same_blk q n) <-> (l2 <> [] /\ q = hd NULL l2)).
    { rewrite En, <- Hln. split; intros [Hn' Hx]; (split; [done|]); by apply (Hb l2); [|apply hd_In|]. }
    split; [|split; [|by apply Hbody]]; rewrite HB, !(decide_False (P := same_blk q _)) by done;
      rewrite (decide_ext _ _ _ _ D1), (decide_ext _ _ _ _ D2);
      destruct (decide (l1 <> [] /\ _)), (decide (l2 <> [] /\ _)); done. }
  assert (Hmem : forall j q, q ∈ upd_list i (l1 ++ last :: l2) L j -> q = last /\ j = i \/ q ∈ L j /\ q <> h).
  { intros j q Hq. unfold upd_list in Hq. destruct (decide (i = j)) as [<-|Hij].
    - rewrite elem_of_app, elem_of_cons in Hq. assert (q = last \/ q ∈ l1 ++ l2) as [->|Hq'] by (rewrite elem_of_app; tauto);
        [by left|right]. split; [by apply H12|by apply Hneq].
    - right. split; [done|]. intros ->. apply Hij. by apply (fo_disj _ _ K i j h). }
  assert (Hsz : forall l, (forall q, q ∈ l -> exists j, q ∈ L j /\ q <> h) -> sizes s' l = sizes s l).
  { intros l Hl'. apply sizes_ext. intros q Hq. destruct (Hl' q Hq) as (j & Hj & Hne).
    destruct (HBL j q Hj Hne) as (_ & _ & E). by apply body_fields. }
  split; [done|..].
  - intros j. rewrite Efl. unfold upd_list. destruct (decide (i = j)) as [<-|Hij].
    + destruct (decide (p = NULL)) as [E|E]; rewrite Ep in E.
      * rewrite aget_insert, decide_True by done. destruct l1 as [|a l1]; [done|]. by apply Hlp in E.
      * rewrite (fo_head _ _ K i), EL. destruct l1; done.
    + rewrite <- (fo_head _ _ K j). destruct (decide (p = NULL)); [|done]. by rewrite aget_insert, decide_False.
  - intros j. unfold upd_list. destruct (decide (i = j)) as [<-|Hij].
    + apply (fl_chain_replace s s' NULL h); [done| |by rewrite HBl, EFp|by rewrite HBl, EFn|done].
      intros q Hq. destruct (HBL i q (H12 q Hq) (Hneq q Hq)) as (? & ? & _). done.
    + eapply fl_chain_ext; [|apply (fo_chain _ _ K j)]. intros q Hq.
      assert (Hqn : q <> h) by (intros ->; apply Hij; by apply (fo_disj _ _ K i j h)).
      destruct (HBL j q Hq Hqn) as (-> & -> & _). rewrite !decide_False; [done|..];
        (intros [Hne ->]; apply Hij; eapply (fo_disj _ _ K i j); [|exact Hq]);
        [by apply H1, last_In|by apply H2, hd_In].
  - intros j q Hq. assert (listable s q) as (? & ? & ?).
    { destruct (Hmem j q Hq) as [[-> _]|[? _]]; [done|by apply (fo_blk _ _ K j)]. }
    split; [done|]. split; [done|]. by apply (tbl_frame_has_hdr s s').
  - intros j. unfold upd_list. destruct (decide (i = j)) as [<-|]; [|apply K].
    apply NoDup_app in Hnd as (? & Hd & Hnd2). inversion Hnd2; subst. apply NoDup_app.
    split; [done|]. split.
    + intros x Hx Hx'. apply elem_of_cons in Hx' as [->|Hx']; [by apply (Hlno i), H1|]. apply (Hd x Hx). by right.
    + constructor; [|done]. intros Hx. by apply (Hlno i), H2.
  - intros j k q Hj Hk. destruct (Hmem j q Hj) as [[-> ->]|[Hj' _]], (Hmem k _ Hk) as [[Ek ->]|[Hk' _]]; try done.
    + by destruct (Hlno k).
    + subst q. by destruct (Hlno j).
    + by apply (fo_disj _ _ K j k q).
  - intros j. rewrite Eby, aget_insert. unfold upd_list. destruct (decide (i = j)) as [<-|Hij].
    + rewrite (fo_bytes _ _ K i), EL, wrap64_sub_l. rewrite !sizes_app. cbn [sizes foldr].
      fold (sizes s l2). fold (sizes s' l2). rewrite HBl, EFs.
      rewrite (Hsz l1), (Hsz l2); [f_equal; lia|..]; intros q Hq; exists i;
        (split; [by auto|apply Hneq, elem_of_app; tauto]).
    + rewrite (fo_bytes _ _ K j). f_equal. symmetry. apply Hsz. intros q Hq. exists j. split; [done|].
      intros ->. apply Hij. by apply (fo_disj _ _ K i j h).
  - intros j q Hq. destruct (Hmem j q Hq) as [[-> _]|[Hj Hne]]; [by rewrite HBl|].
    destruct (HBL j q Hj Hne) as (_ & _ & E). rewrite (body_free _ _ E). by apply (fo_free _ _ K j).
Qed.

(** ** Splitting a block *)

Definition mark_free (x : hdr) : hdr := set_hb_flags (Z.lor (hb_flags x) FREE_BLK) x.

(** [GC_split_block] on the lists alone: [last] takes the place of [h], [h] goes to
    the list of its new size, and only then is [last] flagged free. *)
Definition split_fl (h last index h_size : Z) (hhdr lhdr : Z) (F G : hdr -> hdr) s : fl_state T :=
  upd_hdr lhdr mark_free
    (GC_add_to_fl h hhdr
      (swap_fl h last (hb_prev (hdr_at s hhdr)) (hb_next (hdr_at s hhdr)) index h_size hhdr lhdr F G s)).

(** Flagging [last] free could as well come first. *)
Lemma split_reorder s L (i h last h_size : Z) (l1 l2 : list Z) (F G : hdr -> hdr) :
  fl_ok s L -> L i = l1 ++ h :: l2 -> listable s last -> (forall j, last ∉ L j) ->
  hb_prev (F (hdrb s last)) = hb_prev (hdrb s h) -> hb_next (F (hdrb s last)) = hb_next (hdrb s h) ->
  hb_sz (F (hdrb s last)) = hb_sz (hdrb s h) - h_size ->
  let s1 := swap_fl h last (hb_prev (hdrb s h)) (hb_next (hdrb s h)) i h_size (HDRs s h) (HDRs s last)
              (fun x => mark_free (F x)) G s in
  let s2 := GC_add_to_fl h (HDRs s h) s1 in
  let s' := split_fl h last i h_size (HDRs s h) (HDRs s last) F G s in
  ht_wf (tbl s') /\ tbl_frame s s' /\ GC_hblkfreelist s' = GC_hblkfreelist s2
  /\ GC_free_bytes s' = GC_free_bytes s2 /\ forall q, hdrb s' q = hdrb s2 q.
Proof.
  intros K EL Hl Hlno EFp EFn EFs s1 s2 s'. set (p := hb_prev (hdrb s h)) in *. set (n := hb_next (hdrb s h)) in *.
  destruct (swap_ok s L i h last h_size l1 l2 (fun x => mark_free (F x)) G K EL Hl Hlno EFp EFn EFs)
    as (K1 & F1 & Bl1 & Bh1 & _); [by apply HBLK_IS_FREE_set|]. fold p n in K1, F1, Bl1, Bh1. fold s1 in K1, F1, Bl1, Bh1.
  assert (Hhi : h ∈ L i) by (rewrite EL; apply elem_of_app; right; by left).
  assert (Hhl : ~ same_blk h last).
  { intros E. apply (Hlno i). destruct (fo_blk _ _ K i h Hhi) as (_ & ? & _). destruct Hl as (_ & ? & _).
    apply aligned_same_blk in E; [by subst|done|done]. }
  destruct (fo_blk _ _ K i h Hhi) as (Hh0 & Hal & Hhd). destruct Hl as (Hl0 & Hlal & Hlh).
  pose proof (fo_chain _ _ K i) as Hch. rewrite EL in Hch.
  destruct (fl_chain_mid s NULL h l1 l2 Hch) as [Ep En]. fold p in Ep. fold n in En.
  assert (Hnb : forall q, q ∈ l1 ++ l2 -> has_hdr s q /\ ~ same_blk q h /\ ~ same_blk q last).
  { intros q Hq. assert (Hqi : q ∈ L i) by (rewrite EL; apply elem_of_app in Hq as [?|?]; apply elem_of_app; [by left|right; by right]).
    destruct (fo_blk _ _ K i q Hqi) as (_ & Hqal & Hqh). split; [done|]. split; intros E.
    - apply aligned_same_blk in E; [subst q|done|done]. pose proof (fo_nodup _ _ K i) as Hnd. rewrite EL in Hnd.
      apply NoDup_app in Hnd as (_ & Hd & Hnd2). inversion Hnd2; subst.
      apply elem_of_app in Hq as [Hq|Hq]; [|done]. apply (Hd h Hq). by left.
    - apply (Hlno i). apply aligned_same_blk in E; [by subst|done|done]. }
  assert (Hp' : p <> NULL -> has_hdr s p /\ ~ same_blk p h /\ ~ same_blk p last).
  { intros Hne. apply Hnb, elem_of_app. left. rewrite Ep in Hne |- *. destruct l1; [done|]. by apply last_In. }
  assert (Hn' : n <> NULL -> has_hdr s n /\ ~ same_blk n h /\ ~ same_blk n last).
  { intros Hne. apply Hnb, elem_of_app. right. rewrite En in Hne |- *. destruct l2; [done|]. by left. }
  set (sA := swap_fl h last p n i h_size (HDRs s h) (HDRs s last) F G s).
  destruct (swap_effect s h last p n i h_size F G) as (FA & WA & EflA & EbyA & HBA); try done; [apply K|].
  fold sA in FA, WA, EflA, EbyA, HBA.
  destruct (swap_effect s h last p n i h_size (fun x => mark_free (F x)) G) as (_ & _ & Efl1 & Eby1 & HB1); try done; [apply K|].
  fold s1 in Efl1, Eby1, HB1.
  assert (Efl : GC_hblkfreelist sA = GC_hblkfreelist s1) by congruence.
  assert (Eby : GC_free_bytes sA = GC_free_bytes s1) by congruence.
  assert (Eh : hdrb sA h = hdrb s1 h).
  { rewrite HBA, HB1, !(decide_False (P := same_blk h last)) by done. done. }
  assert (Hsec : forall j, aget (GC_hblkfreelist s1) j <> NULL ->
    has_hdr s1 (aget (GC_hblkfreelist s1) j) /\ ~ same_blk (aget (GC_hblkfreelist s1) j) h).
  { intros j Hne. rewrite (fo_head _ _ K1 j) in Hne |- *.
    assert (Hin : hd NULL (upd_list i (l1 ++ last :: l2) L j) ∈ upd_list i (l1 ++ last :: l2) L j).
    { apply hd_In. intros E. by rewrite E in Hne. }
    destruct (fo_blk _ _ K1 j _ Hin) as (_ & Hxal & Hxh). split; [done|]. intros E.
    apply aligned_same_blk in E; [|done|done]. rewrite E in Hin. unfold upd_list in Hin.
    destruct (decide (i = j)) as [<-|Hij]; [|by apply Hij, (fo_disj _ _ K i j h)].
    rewrite elem_of_app, elem_of_cons in Hin.
    assert (h ∈ l1 ++ l2) as Hx.
    { apply elem_of_app. destruct Hin as [?|[->|?]]; [by left| |by right]. by destruct Hhl. }
    by destruct (Hnb h Hx) as (_ & [] & _). }
  assert (EH1 : HDRs s1 h = HDRs s h) by apply F1. assert (EHA : HDRs sA h = HDRs s h) by apply FA.
  destruct (add_effect s1 h) as (_ & W2 & Efl2 & Eby2 & HB2);
    [apply K1|by apply (tbl_frame_has_hdr s s1)|by apply Hsec|]. rewrite EH1 in *. fold s2 in W2, Efl2, Eby2, HB2.
  destruct (add_effect sA h) as (FB & WB & EflB & EbyB & HBB);
    [done|by apply (tbl_frame_has_hdr s sA)| |].
  { rewrite Eh, Efl. intros Hne. destruct (Hsec _ Hne) as [? ?]. split; [|done].
    apply (tbl_frame_has_hdr s sA); [done|]. by apply (tbl_frame_has_hdr s s1). }
  rewrite EHA, Eh, Efl, Eby in *. set (sB := GC_add_to_fl h (HDRs s h) sA) in *.
  assert (EHB : HDRs sB last = HDRs s last) by (by rewrite (tf_HDR _ _ FB), (tf_HDR _ _ FA)).
  destruct (upd_hdr_spec sB last mark_free) as (WZ & DZ & BZ & EflZ & EbyZ & CZ);
    [done|unfold has_hdr; by rewrite EHB|]. rewrite EHB in *.
  change (upd_hdr (HDRs s last) mark_free sB) with s' in *.
  split; [done|]. split.
  { eapply tbl_frame_trans; [exact FA|]. eapply tbl_frame_trans; [exact FB|]. by split. }
  split; [congruence|]. split; [congruence|].
  set (second := aget (GC_hblkfreelist s1) _) in *.
  intros q. rewrite BZ, HB2, !HBB.
  destruct (decide (q / 4096 = last / 4096)) as [Eq|Eq].
  - assert (Hqh : ~ same_blk q h) by (intros E; apply Hhl; unfold same_blk in *; congruence).
    rewrite !(decide_False (P := same_blk q h)), (decide_False (P := same_blk last h)) by (by intros ?; apply Hhl).
    rewrite !HBA, !HB1, !(decide_True (P := same_blk _ last)) by done.
    assert (Ed : same_blk q second <-> same_blk last second) by (unfold same_blk in *; by rewrite Eq).
    destruct (decide (second <> NULL /\ same_blk q second)), (decide (second <> NULL /\ same_blk last second)); tauto || done.
  - destruct (decide (same_blk q h)) as [Eqh|Eqh]; [done|].
    rewrite !HBA, !HB1, !(decide_False (P := same_blk q last)), !(decide_False (P := same_blk q h)) by done. done.
Qed.

#[local] Remove Hints same_blk_dec : typeclass_instances.

Lemma listed_bytes_upd s s' L (i d : Z) (l : list Z) :
  i ∈ seqZ 0 61 -> (forall j h, j <> i -> h ∈ L j -> hb_sz (hdrb s' h) = hb_sz (hdrb s h)) ->
  sizes s' l = sizes s (L i) + d -> listed_bytes s' (upd_list i l L) = listed_bytes s L + d.
Proof.
  intros Hi Ho Es. unfold listed_bytes.
  apply (sum_lists_change (fun j => sizes s (L j)) (fun j => sizes s' (upd_list i l L j)) _ i d);
    [apply NoDup_seqZ|done|..].
  - intros j Hj. unfold upd_list. rewrite decide_False by done. apply sizes_ext. intros h. by apply Ho.
  - unfold upd_list. by rewrite decide_True.
Qed.

(** A block [b] about to be taken from list [i]; it need not belong there. *)
Record takable s L (i b : Z) : Prop := {
  tk_fl : fl_ok s L;
  tk_tiled : tiling s;
  tk_in : b ∈ L i;
  tk_index : i ∈ seqZ 0 61;
  tk_class : forall j x, x ∈ L j -> x <> b -> j = fl_index s x;
  tk_listed : forall x, starts s x -> HBLK_IS_FREE (hdrb s x) = true -> x <> b -> x ∈ L (fl_index s x)
}.

(** The new headers [GC_split_block] writes. *)
Definition split_last s (h last : Z) (x : hdr) : hdr :=
  set_hb_flags 0 (set_hb_sz (wrap64 (hb_sz (hdrb s h) - (last - h)))
    (set_hb_block last (set_hb_next (hb_next (hdrb s h)) (set_hb_prev (hb_prev (hdrb s h)) x)))).
Definition split_first (h last g : Z) (x : hdr) : hdr := set_hb_sz (last - h) (set_hb_last_reclaimed g x).

Lemma split_spec s s1 L (i h last r g : Z) :
  heap_ok s L -> all_listed s L -> h ∈ L i -> last mod 4096 = 0 -> h < last < h + hb_sz (hdrb s h) ->
  is_hdr_ptr r = true -> fl_ok s1 L ->
  (forall q, HDRs s1 q = if decide (q / 4096 = last / 4096) then r else HDRs s q) ->
  (forall q, starts s q -> q <> h -> body (hdrb s1 q) = body (hdrb s q)) ->
  hb_sz (hdrb s1 h) = hb_sz (hdrb s h) -> HBLK_IS_FREE (hdrb s1 h) = true -> hb_block (hdrb s1 h) = h ->
  let s' := split_fl h last i (last - h) (HDRs s1 h) (HDRs s1 last) (split_last s1 h last)
              (split_first h last g) s1 in
  exists L', takable s' L' i last /\ tbl_frame s1 s'
    /\ hb_sz (hdrb s' last) = h + hb_sz (hdrb s h) - last /\ IS_MAPPED (hdrb s' last) = true
    /\ HBLK_IS_FREE (hdrb s' h) = true
    /\ (forall q, starts s q -> q <> h -> starts s' q /\ body (hdrb s' q) = body (hdrb s q))
    /\ listed_bytes s' L' = listed_bytes s L.
Proof.
  intros K A Hhi Hlal Hcut Hr K1 HD1 HB1 Esz1 Ef1 Eb1 s'.
  assert (Hh := listed_start s L i h (ho_fl _ _ K) Hhi). assert (Hf := fo_free _ _ (ho_fl _ _ K) i h Hhi).
  assert (KT := ho_tiled _ _ K). destruct (ti_extent _ _ KT h Hh) as (H0 & H1 & H2 & H3).
  unfold extent in H1, H2, H3. rewrite Hf in H1, H2, H3. assert (Hal : h mod 4096 = 0) by apply Hh.
  assert (Hir := fl_index_range s h KT Hh Hf). rewrite <- (ho_class _ _ K i h Hhi) in Hir.
  assert (Dn : HDRs s last = NULL).
  { rewrite (ti_inside _ _ KT h last Hh); [by rewrite Hf|]. unfold extent. rewrite Hf. clear -Hal Hlal Hcut H2. dlia. }
  assert (Hst : forall q, starts s q -> q <> last /\ starts s1 q).
  { intros q [Hqa Hq]. assert (q <> last) by (intros ->; by rewrite Dn in Hq). split; [done|].
    split; [done|]. rewrite HD1, decide_False; [done|]. intros E. apply aligned_same_blk in E; done. }
  assert (Hlno : forall j, last ∉ L j).
  { intros j Hj. by destruct (Hst last (listed_start s L j last (ho_fl _ _ K) Hj)). }
  assert (Hll : listable s1 last).
  { split; [lia|]. split; [done|]. unfold has_hdr. rewrite HD1. by rewrite decide_True. }
  destruct (list_elem_of_split _ _ Hhi) as (l1 & l2 & EL).
  assert (EFs : hb_sz (split_last s1 h last (hdrb s1 last)) = hb_sz (hdrb s1 h) - (last - h)).
  { change (wrap64 (hb_sz (hdrb s1 h) - (last - h)) = hb_sz (hdrb s1 h) - (last - h)).
    unfold wrap64. apply Z.mod_small. lia. }
  destruct (split_reorder s1 L i h last (last - h) l1 l2 (split_last s1 h last) (split_first h last g) K1 EL Hll Hlno
    eq_refl eq_refl EFs) as (W' & FR & Efl & Eby & HB').
  fold s' in W', FR, Efl, Eby, HB'.
  destruct (swap_ok s1 L i h last (last - h) l1 l2 (fun x => mark_free (split_last s1 h last x))
    (split_first h last g) K1 EL Hll Hlno eq_refl eq_refl EFs) as (KA & FA & Bl & Bh & Bo); [by apply HBLK_IS_FREE_set|].
  match type of KA with fl_ok ?x _ => set (sA := x) in * end.
  set (LA := upd_list i (l1 ++ last :: l2) L) in *.
  assert (HhA : forall j, h ∉ LA j).
  { intros j Hj. unfold LA, upd_list in Hj. destruct (decide (i = j)) as [<-|Hij].
    - rewrite elem_of_app, elem_of_cons in Hj. pose proof (fo_nodup _ _ K1 i) as Hnd. rewrite EL in Hnd.
      apply NoDup_app in Hnd as (_ & Hd & Hnd2). inversion Hnd2; subst.
      destruct Hj as [Hj|[->|Hj]]; [apply (Hd h Hj); by left|lia|done].
    - by apply Hij, (fo_disj _ _ K1 i j h). }
  assert (HlA : listable sA h).
  { split; [lia|]. split; [done|]. apply (tbl_frame_has_hdr s1 sA); [done|]. apply Hst, Hh. }
  destruct (add_ok sA LA h KA HlA HhA) as (KB & FB & BB). rewrite (tf_HDR _ _ FA h) in KB, FB, BB.
  match type of KB with fl_ok ?x _ => set (sB := x) in * end.
  set (idx := fl_index sA h) in *. set (LB := upd_list idx (h :: LA idx) LA) in *.
  (* the headers afterwards *)
  assert (Eh' : body (hdrb s' h) = body (mark_free (split_first h last g (hdrb s1 h)))).
  { rewrite HB'. fold sB. rewrite BB, decide_True by done. by rewrite Bh. }
  assert (El' : body (hdrb s' last) = body (mark_free (split_last s1 h last (hdrb s1 last)))).
  { rewrite HB'. fold sB. rewrite BB, decide_False; [by rewrite Bl|]. intros E.
    apply aligned_same_blk in E; [lia|done|done]. }
  assert (Eo' : forall q, starts s q -> q <> h -> body (hdrb s' q) = body (hdrb s q)).
  { intros q Hq Hne. rewrite <- HB1, HB' by done. fold sB. destruct (Hst q Hq) as [Hql _]. destruct Hq as [Hqa _].
    assert (~ same_blk q h) by (intros E; by apply Hne, aligned_same_blk).
    assert (~ same_blk q last) by (intros E; by apply Hql, aligned_same_blk).
    rewrite BB, decide_False by done. by apply Bo. }
  assert (Szo : forall q, starts s q -> q <> h -> hb_sz (hdrb s' q) = hb_sz (hdrb s q))
    by (intros q Hq Hne; by apply body_fields, Eo').
  assert (HF' : forall j x, x ∈ L j -> x <> h -> fl_index s' x = j).
  { intros j x Hx Hne. unfold fl_index. rewrite Szo; [symmetry; by apply K|by eapply listed_start; [apply K|]|done]. }
  assert (Szh : hb_sz (hdrb s' h) = last - h) by (by destruct (body_fields _ _ Eh') as (-> & _)).
  assert (Szl : hb_sz (hdrb s' last) = h + hb_sz (hdrb s h) - last).
  { destruct (body_fields _ _ El') as (-> & _). cbn -[split_last]. rewrite EFs, Esz1. lia. }
  assert (Eidx : idx = fl_index s' h).
  { unfold idx, fl_index. rewrite Szh, Bh. done. }
  assert (Ffh : HBLK_IS_FREE (hdrb s' h) = true) by (rewrite (body_free _ _ Eh'); apply HBLK_IS_FREE_set).
  assert (Ffl : HBLK_IS_FREE (hdrb s' last) = true) by (rewrite (body_free _ _ El'); apply HBLK_IS_FREE_set).
  assert (HD' : forall q, HDRs s' q = if decide (q / 4096 = last / 4096) then r else HDRs s q).
  { intros q. by rewrite (tf_HDR _ _ FR), HD1. }
  assert (KT' : tiling s').
  { eapply (tiled_split (HDRs s) (hdrb s) _ _ h last r); try done.
    - intros p q E. by apply hdrb_blk.
    - destruct (body_fields _ _ Eh') as (_ & _ & -> & _). cbn. rewrite Eb1. symmetry. by apply KT.
    - by destruct (body_fields _ _ El') as (_ & _ & -> & _). }
  assert (Hmem : forall j x, x ∈ LB j <-> (x = h /\ j = idx) \/ (x = last /\ j = i) \/ (x ∈ L j /\ x <> h)).
  { assert (HmA : forall j x, x ∈ LA j <-> (x = last /\ j = i) \/ (x ∈ L j /\ x <> h)).
    { intros j x. unfold LA, upd_list. destruct (decide (i = j)) as [<-|Hij].
      - rewrite EL, !elem_of_app, !elem_of_cons. pose proof (HhA i) as Hn. unfold LA, upd_list in Hn.
        rewrite decide_True in Hn by done. rewrite elem_of_app, elem_of_cons in Hn.
        split; [|tauto]. intros [?|[?|?]]; [right|tauto|right]; (split; [tauto|]); intros ->; tauto.
      - split; [|intros [[_ ?]|[? _]]; [congruence|done]]. intros Hx. right. split; [done|]. intros ->.
        by apply Hij, (fo_disj _ _ K1 i j h). }
    intros j x. unfold LB, upd_list. destruct (decide (idx = j)) as [<-|Hij].
    - rewrite elem_of_cons, HmA. tauto.
    - rewrite HmA. split; [tauto|]. intros [[_ ?]|?]; [congruence|done]. }
  exists LB. split; [|split; [done|split; [done|split; [|split; [done|split]]]]].
  - split.
    + apply (fl_ok_frame sB); [done|done|done|done|]. intros j x Hx.
      destruct (fo_blk _ _ KB j x Hx) as (_ & _ & Hxh). split; [|by rewrite HB'].
      apply (tbl_frame_has_hdr s1 s'); [done|]. apply (tbl_frame_has_hdr s1 sA); [done|].
      by apply (tbl_frame_has_hdr sA sB).
    + done.
    + apply Hmem. right. by left.
    + done.
    + intros j x Hx Hne. apply Hmem in Hx as [[-> ->]|[[-> _]|[Hx Hxh]]]; [done|done|]. symmetry. by apply HF'.
    + intros x Hx Hxf Hne. apply Hmem. destruct (decide (x = h)) as [->|Hxh]; [left; by rewrite Eidx|].
      right. right. split; [|done]. assert (Hxs : starts s x).
      { destruct Hx as [Hxa Hx]. split; [done|]. rewrite HD' in Hx. rewrite decide_False in Hx; [done|].
        intros E. by apply Hne, aligned_same_blk. }
      rewrite (body_free _ _ (Eo' x Hxs Hxh)) in Hxf. rewrite (HF' (fl_index s x) x); [by apply A|by apply A|done].
  - rewrite (body_mapped _ _ El'). done.
  - intros q Hq Hne. split; [|by apply Eo']. destruct (Hst q Hq) as [Hql _]. destruct Hq as [Hqa Hq].
    split; [done|]. rewrite HD', decide_False; [done|]. intros E. by apply Hql, aligned_same_blk.
  - assert (HLs : forall j x, x ∈ L j -> x <> h -> hb_sz (hdrb s' x) = hb_sz (hdrb s x)).
    { intros j x Hx Hne. apply Szo; [by eapply listed_start; [apply K|]|done]. }
    assert (E1 : listed_bytes s' LA = listed_bytes s L - (last - h)).
    { unfold LA. rewrite (listed_bytes_upd s s' L i (- (last - h))); [lia|done|..].
      - intros j x Hj Hx. apply (HLs j); [done|]. intros ->. by apply Hj, (fo_disj _ _ (ho_fl _ _ K) j i h).
      - rewrite EL, !sizes_app. cbn [sizes foldr]. fold (sizes s' l2) (sizes s l2). rewrite Szl.
        assert (Hne : forall x, x ∈ l1 ++ l2 -> x ∈ L i /\ x <> h).
        { intros x Hx. pose proof (proj1 (Hmem i x)) as Hm. rewrite EL. pose proof (fo_nodup _ _ K1 i) as Hnd.
          rewrite EL in Hnd. apply NoDup_app in Hnd as (_ & Hd & Hnd2). inversion Hnd2; subst.
          apply elem_of_app in Hx as [Hx|Hx]; (split; [apply elem_of_app; rewrite elem_of_cons; tauto|]); intros ->; [|done].
          apply (Hd h Hx). by left. }
        rewrite (sizes_ext s s' l1), (sizes_ext s s' l2); [lia|..]; intros x Hx;
          (destruct (Hne x) as [? ?]; [apply elem_of_app; tauto|by apply (HLs i)]). }
    unfold LB. rewrite (listed_bytes_upd s' s' LA idx (last - h)); [lia| |done|].
    + rewrite Eidx. apply fl_index_range; [done| |done].
      split; [done|]. rewrite HD', decide_False; [apply Hh|]. intros E. apply aligned_same_blk in E; [lia|done|done].
    + cbn [sizes foldr]. fold (sizes s' (LA idx)). lia.
Qed.

(** ** Taking the first part *)

Definition over (b : Z) (x : hdr) (B : Z -> hdr) (q : Z) : hdr :=
  if decide (q / 4096 = b / 4096) then x else B q.

Lemma over_blk (b : Z) (x : hdr) s (p q : Z) :
  p / 4096 = q / 4096 -> over b x (hdrb s) p = over b x (hdrb s) q.
Proof. intros E. unfold over. rewrite E. case_decide; [done|]. by apply hdrb_blk. Qed.

Lemma over_at (b : Z) (x : hdr) (B : Z -> hdr) : over b x B b = x.
Proof. unfold over. by rewrite decide_True. Qed.

Lemma over_ne (b k : Z) (x : hdr) (B : Z -> hdr) :
  k mod 4096 = 0 -> b mod 4096 = 0 -> k <> b -> over b x B k = B k.
Proof. intros Hk Hb Hne. unfold over. rewrite decide_False; [done|]. intros E. by apply Hne, aligned_same_blk. Qed.

(** The [n] bytes at [b] are off the lists and reserved, whatever size its header
    still has; the rest of the heap is in order. *)
Record carved s L (b n : Z) : Prop := {
  cv_fl : fl_ok s L;
  cv_start : starts s b;
  cv_no : forall j, b ∉ L j;
  cv_tiled : exists x, HBLK_IS_FREE x = true /\ hb_sz x = n /\ tiled (HDRs s) (over b x (hdrb s));
  cv_class : forall j x, x ∈ L j -> j = fl_index s x;
  cv_listed : forall x, starts s x -> x <> b -> HBLK_IS_FREE (hdrb s x) = true -> x ∈ L (fl_index s x)
}.

Lemma unlist_takable s L (i b : Z) (l1 l2 : list Z) :
  takable s L i b -> L i = l1 ++ b :: l2 ->
  let s' := GC_remove_from_fl_at (HDRs s b) i s in
  let L' := upd_list i (l1 ++ l2) L in
  fl_ok s' L' /\ tbl_frame s s' /\ (forall q, body (hdrb s' q) = body (hdrb s q))
    /\ (forall j x, x ∈ L' j <-> x ∈ L j /\ x <> b)
    /\ listed_bytes s' L' = listed_bytes s L - hb_sz (hdrb s b).
Proof.
  intros [K KT Hb Hi Hc Hl] EL s' L'.
  destruct (remove_at_ok s L i b l1 l2 K EL) as (K' & F & HB). fold s' in K', F, HB.
  split; [done|]. split; [done|]. split; [done|]. unfold L'.
  pose proof (fo_nodup _ _ K i) as Hnd. rewrite EL in Hnd.
  apply NoDup_app in Hnd as (_ & Hd & Hnd2). inversion Hnd2 as [|? ? Hn2 _]; subst.
  split.
  - intros j x. unfold upd_list. destruct (decide (i = j)) as [<-|Hij].
    + rewrite EL, !elem_of_app, elem_of_cons. split; [|tauto].
      intros [Hx|Hx]; (split; [tauto|]); intros ->; [|done]. apply (Hd b Hx). by left.
    + split; [|tauto]. intros Hx. split; [done|]. intros ->. by apply Hij, (fo_disj _ _ K i j b).
  - rewrite (listed_bytes_upd s s' L i (- hb_sz (hdrb s b))); [lia|done|..].
    + intros j h _ _. by apply body_fields, HB.
    + rewrite EL, !sizes_app. cbn [sizes foldr]. fold (sizes s l2).
      rewrite (sizes_ext s s' l1), (sizes_ext s s' l2); [lia|..]; intros; by apply body_fields, HB.
Qed.

(** The state left by [GC_get_first_part] or by the whole allocation. *)
Definition keeps_others s s' (b : Z) : Prop :=
  forall q, starts s q -> q <> b -> starts s' q /\ body (hdrb s' q) = body (hdrb s q).

Lemma carved_whole s L (i b : Z) (l1 l2 : list Z) :
  takable s L i b -> L i = l1 ++ b :: l2 ->
  let s' := GC_remove_from_fl_at (HDRs s b) i s in
  let L' := upd_list i (l1 ++ l2) L in
  carved s' L' b (hb_sz (hdrb s b)) /\ tbl_frame s s' /\ (forall q, body (hdrb s' q) = body (hdrb s q))
    /\ listed_bytes s' L' = listed_bytes s L - hb_sz (hdrb s b).
Proof.
  intros TK EL s' L'. destruct (unlist_takable s L i b l1 l2 TK EL) as (K' & F & HB & HM & EB).
  fold s' L' in K', F, HB, HM, EB. split; [|done]. destruct TK as [K KT Hb _ Hc Hl].
  assert (Hs := listed_start s L i b K Hb).
  assert (Hst : forall q, starts s' q <-> starts s q) by (intros q; unfold start; by rewrite (tf_HDR _ _ F)).
  split.
  - done.
  - by apply Hst.
  - intros j Hj. by apply HM in Hj as [_ ?].
  - exists (hdrb s' b). rewrite (body_free _ _ (HB b)). split; [by apply (fo_free _ _ K i)|].
    destruct (body_fields _ _ (HB b)) as (-> & _). split; [done|].
    eapply tiled_ext; [apply F|intros p q E; by apply over_blk| |exact KT].
    intros h _. unfold over. case_decide as E; [|apply HB]. rewrite HB. f_equal. symmetry. by apply hdrb_blk.
  - intros j x Hx. apply HM in Hx as [Hx Hne]. rewrite (fl_index_body s s' x) by apply HB. by apply Hc.
  - intros x Hx Hne Hxf. rewrite (body_free _ _ (HB x)) in Hxf. rewrite (fl_index_body s s' x) by apply HB.
    apply HM. split; [|done]. by apply Hl; [apply Hst|..].
Qed.

(** Cutting the reserved range down to its first [need] bytes. *)
Lemma carve_rest s L (b n need : Z) :
  carved s L b n -> need mod 4096 = 0 -> 0 < need < n ->
  let rest := b + need in
  exists r t, ht_install_header rest (tbl s) = Some (r, t) /\ ht_clean t
    /\ (r <> NULL ->
         let s1 := set_tbl t s in
         let s2 := upd_hdr r (fun x => set_hb_flags 0 (set_hb_sz (n - need) (set_hb_block rest x))) s1 in
         let s' := GC_add_to_fl rest r s2 in
         exists L', carved s' L' b need /\ HDRs s' b = HDRs s b /\ hdrb s' b = hdrb s b
           /\ keeps_others s s' b /\ ht_clean (tbl s')
           /\ listed_bytes s' L' = listed_bytes s L + (n - need)).
Proof.
  intros [K Hs Hno (x & Hxf & Hxs & KT) Hc Hl] Hm Hn rest.
  assert (Hal : b mod 4096 = 0) by apply Hs.
  destruct (ti_extent _ _ KT b Hs) as (H0 & H1 & H2 & H3). rewrite over_at in H1, H2, H3.
  unfold extent in H1, H2, H3. rewrite Hxf, Hxs in H1, H2, H3.
  assert (Hral : rest mod 4096 = 0) by (unfold rest; clear -Hal Hm; dlia).
  destruct (hl_install (tbl s) rest) as (r & t & E & W & C & Hr); [apply K|unfold rest; lia|].
  exists r, t. split; [done|]. split; [done|]. intros Hr0 s1 s2 s'.
  destruct Hr as [[-> _]|(Hrp & Hfresh & HD & HH)]; [done|].
  change (HDR (tbl s)) with (HDRs s) in *.
  assert (HD1 : forall q, HDRs s1 q = if decide (q / 4096 = rest / 4096) then r else HDRs s q) by exact HD.
  assert (Dr : HDRs s rest = NULL).
  { rewrite (ti_inside _ _ KT b rest Hs); rewrite over_at; [by rewrite Hxf|].
    unfold extent. rewrite Hxf, Hxs. unfold rest. clear -Hal Hm Hn H2. dlia. }
  assert (Hne : forall q, starts s q -> ~ same_blk q rest).
  { intros q [Hqa Hq] Eq. apply aligned_same_blk in Eq; [|done|done]. subst q. by rewrite Dr in Hq. }
  assert (HB1 : forall q, starts s q -> HDRs s1 q = HDRs s q /\ hdrb s1 q = hdrb s q).
  { intros q Hq. assert (Eq : HDRs s1 q = HDRs s q) by (rewrite HD1, decide_False; [done|]; by apply Hne).
    split; [done|]. unfold hdrb. rewrite Eq. apply HH, Hq. }
  assert (K1 : fl_ok s1 L).
  { apply (fl_ok_frame s); [done|done|done|done|]. intros i h Hh. assert (Hhs := listed_start s L i h K Hh).
    destruct (HB1 h Hhs) as [E1 E2]. split; [unfold has_hdr; rewrite E1; apply Hhs|done]. }
  assert (Hr1 : HDRs s1 rest = r) by (rewrite HD1; by rewrite decide_True).
  assert (Hrs1 : starts s1 rest) by (split; [done|by rewrite Hr1]).
  assert (Hrno : forall j, rest ∉ L j).
  { intros j Hj. apply (Hne rest); [by eapply listed_start|done]. }
  destruct (write_fl s1 L rest (fun x => set_hb_flags 0 (set_hb_sz (n - need) (set_hb_block rest x))) K1 Hrs1 Hrno)
    as (K2 & F2 & W2 & HB2 & EB2). rewrite Hr1 in K2, F2, W2, HB2, EB2. fold s2 in K2, F2, W2, HB2, EB2.
  assert (Hr2 : HDRs s2 rest = r) by (by rewrite (tf_HDR _ _ F2)).
  assert (Hrl : listable s2 rest) by (split; [unfold rest; lia|]; split; [done|]; unfold has_hdr; by rewrite Hr2).
  destruct (add_ok s2 L rest K2 Hrl Hrno) as (K3 & F3 & HB3). rewrite Hr2 in K3, F3, HB3. fold s' in K3, F3, HB3.
  set (idx := fl_index s2 rest) in *.
  assert (HD' : forall q, HDRs s' q = if decide (q / 4096 = rest / 4096) then r else HDRs s q).
  { intros q. by rewrite (tf_HDR _ _ F3), (tf_HDR _ _ F2). }
  assert (Eo : forall q, starts s q -> HDRs s' q = HDRs s q /\ body (hdrb s' q) = body (hdrb s q)).
  { intros q Hq. split; [rewrite HD', decide_False; [done|]; by apply Hne|].
    rewrite HB3, decide_False by (by apply Hne). rewrite HB2, decide_False by (by apply Hne).
    by destruct (HB1 q Hq) as [_ ->]. }
  assert (Er : body (hdrb s' rest) = body (mark_free (hdrb s2 rest))).
  { rewrite HB3. by rewrite decide_True. }
  assert (Er2 : hb_sz (hdrb s2 rest) = n - need /\ hb_block (hdrb s2 rest) = rest).
  { rewrite HB2. by rewrite decide_True. }
  assert (Ehb : hdrb s' b = hdrb s b).
  { destruct (add_effect s2 rest) as (_ & _ & _ & _ & HB4).
    - done.
    - unfold has_hdr. by rewrite Hr2.
    - rewrite (fo_head _ _ K2). intros Hnn.
      assert (Hin : hd NULL (L (GC_hblk_fl_from_blocks (divHBLKSZ (hb_sz (hdrb s2 rest)))))
        ∈ L (GC_hblk_fl_from_blocks (divHBLKSZ (hb_sz (hdrb s2 rest))))).
      { apply hd_In. intros E0. by rewrite E0 in Hnn. }
      split; [by apply (fo_blk _ _ K2 _ _ Hin)|]. apply Hne. by eapply listed_start.
    - rewrite Hr2 in HB4. fold s' in HB4. rewrite HB4. rewrite decide_False by (by apply Hne).
      rewrite decide_False.
      + rewrite HB2, decide_False by (by apply Hne). by apply HB1.
      + rewrite (fo_head _ _ K2). intros [Hnn Eq].
        assert (Hin : hd NULL (L (GC_hblk_fl_from_blocks (divHBLKSZ (hb_sz (hdrb s2 rest)))))
          ∈ L (GC_hblk_fl_from_blocks (divHBLKSZ (hb_sz (hdrb s2 rest))))).
        { apply hd_In. intros E0. by rewrite E0 in Hnn. }
        destruct (fo_blk _ _ K2 _ _ Hin) as (_ & Hxal & _). apply aligned_same_blk in Eq; [|done|done].
        rewrite <- Eq in Hin. by eapply Hno. }
  assert (Hst : forall q, starts s q -> starts s' q).
  { intros q Hq. destruct (Eo q Hq) as [E1 _]. split; [apply Hq|rewrite E1; apply Hq]. }
  assert (KT' : tiled (HDRs s') (over b (set_hb_sz need x) (hdrb s'))).
  { assert (Ob : forall k, start (HDRs s) k -> k <> b -> over b x (hdrb s) k = hdrb s k
      /\ over b (set_hb_sz need x) (hdrb s') k = hdrb s' k).
    { intros k [Hka _] Hkb. by rewrite !over_ne. }
    assert (Or : over b (set_hb_sz need x) (hdrb s') rest = hdrb s' rest).
    { apply over_ne; [done|done|]. unfold rest. lia. }
    eapply (tiled_split (HDRs s) (over b x (hdrb s)) _ _ b rest r); try done.
    - by rewrite over_at.
    - rewrite over_at, Hxs. unfold rest. lia.
    - intros p q Ep. by apply over_blk.
    - intros k Hk Hkb. destruct (Ob k Hk Hkb) as [-> ->]. by apply Eo.
    - by rewrite over_at.
    - rewrite over_at. unfold rest. cbn. lia.
    - by rewrite !over_at.
    - rewrite Or, (body_free _ _ Er). apply HBLK_IS_FREE_set.
    - rewrite Or, over_at. destruct (body_fields _ _ Er) as (-> & _). destruct Er2 as [E2 _]. cbn. rewrite E2, Hxs.
      unfold rest. lia.
    - rewrite Or. destruct (body_fields _ _ Er) as (_ & _ & -> & _). by destruct Er2. }
  assert (Erf : HBLK_IS_FREE (hdrb s' rest) = true) by (rewrite (body_free _ _ Er); apply HBLK_IS_FREE_set).
  assert (Eix : fl_index s' rest = idx).
  { unfold idx, fl_index. by destruct (body_fields _ _ Er) as (-> & _). }
  exists (upd_list idx (rest :: L idx) L).
  assert (Hmem : forall j y, y ∈ upd_list idx (rest :: L idx) L j <-> y ∈ L j \/ (y = rest /\ j = idx)).
  { intros j y. unfold upd_list. destruct (decide (idx = j)) as [<-|Hij]; [rewrite elem_of_cons; tauto|].
    split; [by left|]. intros [?|[_ ?]]; [done|congruence]. }
  split; [|split; [by apply Eo|split; [done|split; [intros q Hq _; split; [by apply Hst|by apply Eo]|split]]]].
  - split.
    + done.
    + by apply Hst.
    + intros j Hj. apply Hmem in Hj as [Hj|[Hj _]]; [by apply (Hno j)|]. unfold rest in Hj. lia.
    + exists (set_hb_sz need x). by split_and!.
    + intros j y Hy. apply Hmem in Hy as [Hy|[-> ->]]; [|done].
      assert (Hys := listed_start s L j y K Hy). rewrite (fl_index_body s s' y) by (by apply Eo). by apply Hc.
    + intros y Hy Hyb Hyf. apply Hmem. destruct (decide (y = rest)) as [->|Hyr]; [by right|]. left.
      assert (Hys : starts s y).
      { destruct Hy as [Hya Hy]. split; [done|]. rewrite HD', decide_False in Hy; [done|].
        intros Ey. by apply Hyr, aligned_same_blk. }
      rewrite (fl_index_body s s' y) by (by apply Eo). rewrite (body_free _ (hdrb s y)) in Hyf by (by apply Eo).
      by apply Hl.
  - apply (tf_clean _ _ F3), (tf_clean _ _ F2). done.
  - assert (Hso : forall j y, y ∈ L j -> hb_sz (hdrb s' y) = hb_sz (hdrb s y)).
    { intros j y Hy. apply body_fields, Eo. by eapply listed_start. }
    rewrite (listed_bytes_upd s s' L idx (n - need)); [done|..].
    + rewrite <- Eix. unfold fl_index. apply elem_of_seqZ. destruct (body_fields _ _ Er) as (-> & _).
      destruct Er2 as [E2 _]. cbn. rewrite E2, divHBLKSZ_div.
      pose proof (fl_from_blocks_range ((n - need) / 4096) ltac:(apply Z.div_pos; lia)) as Hfr.
      rewrite N_HBLK_FLS_eq in Hfr. lia.
    + intros j y _. apply Hso.
    + cbn [sizes foldr]. fold (sizes s' (L idx)). rewrite (sizes_ext s s' (L idx)) by (intros y; apply Hso).
      destruct (body_fields _ _ Er) as (-> & _). destruct Er2 as [E2 _]. cbn. rewrite E2. unfold sizes. lia.
Qed.

Lemma keeps_others_trans s1 s2 s3 (b : Z) : keeps_others s1 s2 b -> keeps_others s2 s3 b -> keeps_others s1 s3 b.
Proof.
  intros K1 K2 q Hq Hne. destruct (K1 q Hq Hne) as [Hq2 E1]. destruct (K2 q Hq2 Hne) as [Hq3 E2].
  split; [done|congruence].
Qed.

Lemma frame_keeps s s' (b : Z) :
  tbl_frame s s' -> (forall q, body (hdrb s' q) = body (hdrb s q)) -> keeps_others s s' b.
Proof. intros F HB q [Hqa Hq] _. split; [split; [done|by rewrite (tf_HDR _ _ F)]|apply HB]. Qed.

Lemma first_part_spec hp L (i b need : Z) :
  takable (fls hp) L i b -> need mod 4096 = 0 -> 0 < need <= hb_sz (hdrb (fls hp) b) ->
  exists r s', GC_get_first_part b (HDRs (fls hp) b) need i hp = Some (r, set_fls s' hp)
    /\ (r = NULL \/ (r = b /\ exists L', carved s' L' b need /\ HDRs s' b = HDRs (fls hp) b
         /\ hb_flags (hdrb s' b) = hb_flags (hdrb (fls hp) b) /\ keeps_others (fls hp) s' b
         /\ listed_bytes s' L' = listed_bytes (fls hp) L - need)).
Proof.
  intros TK Hm Hn. set (s := fls hp) in *.
  destruct (list_elem_of_split _ _ (tk_in _ _ _ _ TK)) as (l1 & l2 & EL).
  destruct (carved_whole s L i b l1 l2 TK EL) as (C1 & F1 & HB1 & EB1).
  set (L1 := upd_list i (l1 ++ l2) L) in *.
  set (s1 := GC_remove_from_fl_at (HDRs s b) i s) in *.
  assert (Efl1 : hb_flags (hdrb s1 b) = hb_flags (hdrb s b)) by (by apply body_fields).
  unfold GC_get_first_part. change (hread hp (HDRs s b)) with (hdrb s b).
  change (on_fls (GC_remove_from_fl_at (HDRs s b) i) hp) with (set_fls s1 hp).
  destruct (Z.eqb_spec (hb_sz (hdrb s b)) need) as [E|E].
  - exists b, s1. split; [done|]. right. split; [done|]. exists L1. rewrite E in C1, EB1.
    split; [done|]. split; [apply F1|]. split; [done|]. split; [by apply frame_keeps|done].
  - destruct (carve_rest s1 L1 b (hb_sz (hdrb s b)) need C1 Hm ltac:(lia)) as (r & t & Er & _ & Hr).
    cbn zeta. rewrite (on_tbl_res_eq _ (set_fls s1 hp) r t Er). cbn [mbind option_bind].
    destruct (Z.eqb_spec r NULL) as [->|Hr0].
    + exists NULL, (set_tbl t s1). split; [done|by left].
    + destruct (Hr Hr0) as (L' & C' & ED & EH & KO & _ & EB').
      assert (Ew : wrap64 (hb_sz (hdrb s b) - need) = hb_sz (hdrb s b) - need).
      { unfold wrap64. apply Z.mod_small. destruct TK as [K KT Hb _ _ _].
        destruct (ti_extent _ _ KT b (listed_start s L i b K Hb)) as (? & _ & _ & Hx).
        unfold extent in Hx. rewrite (fo_free _ _ K i b Hb) in Hx. lia. }
      cbn zeta. rewrite Ew.
      match type of C' with carved ?x _ _ _ => exists b, x end.
      split; [done|]. right. split; [done|]. exists L'. split; [done|].
      split; [by rewrite ED, (tf_HDR _ _ F1)|]. split; [by rewrite EH|]. split; [|lia].
      eapply keeps_others_trans; [by apply (frame_keeps s s1)|exact KO].
Qed.

(** ** Setting up the header *)

Lemma flags_free (f : Z) : 0 <= f <= 1 -> forall a b c : bool,
  let f1 := if a then Z.lor f LARGE_BLOCK else f in
  let f2 := if b then Z.lor f1 HAS_DISCLAIM else f1 in
  let f3 := if c then Z.lor f2 MARK_UNCONDITIONALLY else f2 in
  flag_set (f3 mod 256) FREE_BLK = false /\ flag_set (f3 mod 256) WAS_UNMAPPED = false
  /\ flag_set (f3 mod 256) LARGE_BLOCK = a
  /\ flag_set (Z.lor (f3 mod 256) LARGE_BLOCK) FREE_BLK = false
  /\ flag_set (Z.lor (f3 mod 256) LARGE_BLOCK) WAS_UNMAPPED = false.
Proof. intros Hf a b c. assert (f = 0 \/ f = 1) as [->| ->] by lia; destruct a, b, c; by vm_compute. Qed.

(** What a fresh header says when its setup succeeded, or failed for want of an
    object map. *)
Definition fresh_header (hp : heap T) (b lb kind : Z) (ok : bool) (x : hdr) : Prop :=
  hb_block x = b /\ HBLK_IS_FREE x = false /\ IS_MAPPED x = true
  /\ (ok = true -> hb_sz x = lb /\ hb_obj_kind x = kind mod 256
        /\ flag_set (hb_flags x) LARGE_BLOCK = (MAXOBJBYTES <? lb)
        /\ hb_map x = Some (if MAXOBJBYTES <? lb then 0 else BYTES_TO_GRANULES lb)
        /\ hb_n_marks x = 0 /\ (forall n, mark_bit_from_hdr x n = bool_decide (n = FINAL_MARK_BIT lb))
        /\ hb_last_reclaimed x = GC_gc_no (prm hp) mod 65536)
  /\ (ok = false -> hb_sz x = HBLKSIZE).

Lemma setup_header_spec hp (b lb kind flags : Z) :
  let s := fls hp in
  ht_wf (tbl s) -> has_hdr s b -> obj_map_ok (obj_map hp) -> 0 < lb -> 0 <= flags <= 1 ->
  exists ok s' om', setup_header (HDRs s b) b lb kind flags hp = Some (ok, set_obj_map om' (set_fls s' hp))
    /\ obj_map_ok om' /\ tbl_frame s s' /\ ht_wf (tbl s') /\ GC_hblkfreelist s' = GC_hblkfreelist s
    /\ GC_free_bytes s' = GC_free_bytes s
    /\ (forall q, has_hdr s q -> ~ same_blk q b -> hdrb s' q = hdrb s q)
    /\ fresh_header hp b lb kind ok (hdrb s' b).
Proof.
  intros s W Hb Hom Hlb Hfl. unfold setup_header. set (k := GC_obj_kinds (prm hp) kind). set (v := HDRs s b).
  destruct (flags_free flags Hfl (MAXOBJBYTES <? lb) (ok_disclaim_proc k) (ok_mark_unconditionally k))
    as (Ff & Fm & FL & Ff' & Fm').
  set (fl := if ok_mark_unconditionally k then _ else _) in *. cbn zeta.
  set (f1 := fun x => set_hb_block b _). set (s1 := upd_hdr v f1 s).
  destruct (upd_hdr_spec s b f1 W Hb) as (W1 & D1 & B1 & A1 & Y1 & C1). fold v in W1, D1, B1, A1, Y1, C1.
  fold s1 in W1, D1, B1, A1, Y1, C1.
  assert (Hv1 : HDRs s1 b = v) by apply D1.
  change (hwrite v f1 hp) with (set_fls s1 hp).
  match goal with |- context [hwrite v (set_hb_descr ?d) _] => set (d' := d) end.
  destruct (upd_hdr_spec s1 b (set_hb_descr d') W1) as (W2 & D2 & B2 & A2 & Y2 & C2);
    [unfold has_hdr; by rewrite D1|]. rewrite Hv1 in W2, D2, B2, A2, Y2, C2.
  set (s2 := upd_hdr v (set_hb_descr d') s1) in *.
  change (hwrite v (set_hb_descr d') (set_fls s1 hp)) with (set_fls s2 hp).
  change (obj_map (set_fls s2 hp)) with (obj_map hp). change (fls (set_fls s2 hp)) with s2.
  destruct (add_map_entry_spec (BYTES_TO_GRANULES lb) (obj_map hp) (tbl s2)) as
    (ok & om' & t & -> & Wt & [SD SH] & Ct & Hom' & _ & _); [done|done|apply Z.div_pos; [lia|done]|].
  cbn [mbind option_bind]. set (s3 := set_tbl t s2).
  change (HDR (tbl s2)) with (HDRs s2) in SD, SH. change (ht_hdr (tbl s2)) with (hdr_at s2) in SH.
  assert (D3 : forall q, HDRs s3 q = HDRs s q).
  { intros q. change (HDRs s3 q) with (HDR t q). by rewrite SD, D2, D1. }
  assert (B3 : forall q, has_hdr s q -> hdrb s3 q = hdrb s2 q).
  { intros q Hq. unfold hdrb at 1. rewrite D3. change (hdr_at s3) with (ht_hdr t).
    rewrite <- (D1 q), <- (D2 q). apply SH. by rewrite D2, D1. }
  set (x2 := set_hb_descr d' (f1 (hdrb s b))).
  assert (Ex : hdrb s3 b = x2).
  { rewrite B3, B2, decide_True by done. rewrite B1. by rewrite decide_True. }
  assert (G : forall f, exists s', hwrite v f (set_obj_map om' (set_fls s3 (set_fls s2 hp)))
      = set_obj_map om' (set_fls s' hp) /\ tbl_frame s s' /\ ht_wf (tbl s')
    /\ GC_hblkfreelist s' = GC_hblkfreelist s /\ GC_free_bytes s' = GC_free_bytes s
    /\ (forall q, has_hdr s q -> ~ same_blk q b -> hdrb s' q = hdrb s q) /\ hdrb s' b = f x2).
  { intros f. destruct (upd_hdr_spec s3 b f Wt) as (W4 & D4 & B4 & A4 & Y4 & C4);
      [unfold has_hdr; by rewrite D3|]. rewrite D3 in W4, D4, B4, A4, Y4, C4. fold v in W4, D4, B4, A4, Y4, C4.
    exists (upd_hdr v f s3). split; [done|].
    split; [split; [done|intros q; by rewrite D4, D3|intros Hc; apply C4, Ct, C2, C1, Hc]|]. split; [done|].
    split; [rewrite A4; change (GC_hblkfreelist s3) with (GC_hblkfreelist s2); congruence|].
    split; [rewrite Y4; change (GC_free_bytes s3) with (GC_free_bytes s2); congruence|]. split.
    - intros q Hq Hne. rewrite B4, decide_False by done. rewrite B3, B2, decide_False by done.
      rewrite B1. by rewrite decide_False.
    - rewrite B4, decide_True by done. by rewrite Ex. }
  change (prm (set_obj_map om' (set_fls s3 (set_fls s2 hp)))) with (prm hp).
  destruct ok; cbn [negb].
  - match goal with |- context [hwrite v ?f _] => destruct (G f) as (s' & -> & F' & W' & A' & Y' & B' & E') end.
    exists true, s', om'. split; [done|]. split; [done|]. split; [done|]. split; [done|].
    split; [done|]. split; [done|]. split; [done|]. rewrite E'.
    assert (Elg : hb_flags x2 = fl mod 256) by done.
    split; [done|]. split; [exact Ff|]. split; [unfold IS_MAPPED; rewrite <- negb_true_iff in Fm; exact Fm|].
    split; [|done]. intros _. split; [done|]. split; [done|]. split; [exact FL|].
    split; [change (Some (if flag_set (hb_flags x2) LARGE_BLOCK then 0 else BYTES_TO_GRANULES lb)
      = Some (if MAXOBJBYTES <? lb then 0 else BYTES_TO_GRANULES lb)); by rewrite Elg, FL|].
    split; [done|]. split; [|done]. intros n.
    change (mark_bit_from_hdr (GC_clear_hdr_marks (set_hb_map (Some (if flag_set (hb_flags x2) LARGE_BLOCK then 0
      else BYTES_TO_GRANULES lb)) x2)) n = bool_decide (n = FINAL_MARK_BIT lb)).
    apply clear_marks_bit.
  - match goal with |- context [hwrite v ?f _] => destruct (G f) as (s' & -> & F' & W' & A' & Y' & B' & E') end.
    exists false, s', om'. split; [done|]. split; [done|]. split; [done|]. split; [done|].
    split; [done|]. split; [done|]. split; [done|]. rewrite E'.
    split; [done|]. split; [exact Ff'|]. split; [unfold IS_MAPPED; rewrite <- negb_true_iff in Fm'; exact Fm'|].
    by split.
Qed.

(** ** Putting the reserved range to use *)

(** The first page of a free block is put to use and the rest forgotten. *)
Lemma tiled_shrink (D : Z -> Z) (B B' : Z -> hdr) (h : Z) :
  tiled D B -> start D h -> HBLK_IS_FREE (B h) = true ->
  (forall p q, p / 4096 = q / 4096 -> B' p = B' q) ->
  (forall k, start D k -> k <> h -> body (B' k) = body (B k)) ->
  HBLK_IS_FREE (B' h) = false -> extent (B' h) = 4096 -> hb_block (B' h) = h -> tiled D B'.
Proof.
  intros K Hh Hf EBb EB Hf' Eh Hb.
  assert (Xh : extent (B h) = hb_sz (B h)) by (unfold extent; by rewrite Hf).
  destruct (ti_extent _ _ K h Hh) as (H0 & H1 & H2 & H3). rewrite Xh in H1, H2, H3.
  assert (Hal : h mod 4096 = 0) by apply Hh.
  assert (Hge : 4096 <= hb_sz (B h)) by (clear -H1 H2; dlia).
  assert (Bk : forall k, start D k -> k <> h -> extent (B' k) = extent (B k)
    /\ hb_block (B' k) = hb_block (B k) /\ HBLK_IS_FREE (B' k) = HBLK_IS_FREE (B k)).
  { intros k Hk Hkh. pose proof (EB k Hk Hkh) as E. unfold extent. rewrite (body_free _ _ E).
    by destruct (body_fields _ _ E) as (-> & _ & -> & _). }
  assert (Hone : (h + 4096) / 4096 = h / 4096 + 1) by (clear -Hal; dlia).
  split.
  - intros p q E. split; [by apply (ti_blk _ _ K)|by apply EBb].
  - apply K.
  - intros k Hk. destruct (decide (k = h)) as [->|Hne]; [done|].
    destruct (Bk k Hk Hne) as (_ & -> & _). by apply K.
  - intros k Hk. destruct (decide (k = h)) as [->|Hne]; [rewrite Eh; split_and!; try done; lia|].
    destruct (Bk k Hk Hne) as (-> & _). by apply K.
  - intros k q Hk Hq. destruct (decide (k = h)) as [->|Hne]; [rewrite Eh, Hone in Hq; lia|].
    destruct (Bk k Hk Hne) as (Ee & _ & Ef). rewrite Ee in Hq. rewrite Ef. by apply K.
  - intros q Hq. destruct (ti_outside _ _ K q Hq) as (k & Hk & Hr). exists k. split; [done|].
    destruct (decide (k = h)) as [->|Hne]; [|by destruct (Bk k Hk Hne) as (-> & _)].
    rewrite Eh, Hone. destruct (decide (q / 4096 = h / 4096)) as [->|Hqh]; [lia|].
    exfalso. apply Hq. rewrite (ti_inside _ _ K h q Hh) by lia. by rewrite Hf.
Qed.

(** The lists and the other headers after the reserved block was written. *)
Lemma carved_written s s' L (b n : Z) :
  carved s L b n -> ht_wf (tbl s') -> GC_hblkfreelist s' = GC_hblkfreelist s ->
  GC_free_bytes s' = GC_free_bytes s -> HBLK_IS_FREE (hdrb s' b) = false ->
  (forall q, is_hdr_ptr (HDRs s' q) = is_hdr_ptr (HDRs s q)) ->
  (forall q, starts s q -> q <> b -> hdrb s' q = hdrb s q) -> tiling s' ->
  heap_ok s' L /\ all_listed s' L /\ listed_bytes s' L = listed_bytes s L.
Proof.
  intros [K Hs Hno _ Hc Hl] W Efl Eby Hbf HD HB KT.
  assert (HL : forall i h, h ∈ L i -> starts s h /\ h <> b).
  { intros i h Hh. split; [by eapply listed_start|]. intros ->. by apply (Hno i). }
  split; [split|split].
  - apply (fl_ok_frame s); [done|done|done|done|]. intros i h Hh. destruct (HL i h Hh) as [Hhs Hne].
    split; [unfold has_hdr; rewrite HD; apply Hhs|by apply HB].
  - done.
  - intros i h Hh. destruct (HL i h Hh) as [Hhs Hne]. unfold fl_index. rewrite HB by done. by apply Hc.
  - intros h [Hha Hh] Hf. rewrite HD in Hh. assert (Hne : h <> b) by (intros ->; congruence).
    assert (Hhs : starts s h) by done. unfold fl_index. rewrite HB in Hf |- * by done. by apply Hl.
  - apply listed_bytes_ext. intros i h Hh. destruct (HL i h Hh) as [Hhs Hne]. by rewrite HB.
Qed.

Lemma counts_inside s L (b n : Z) :
  carved s L b n -> b mod 4096 = 0 /\ 0 < b /\ 0 < n /\ n mod 4096 = 0 /\ b + n < W64
  /\ forall q, b / 4096 < q / 4096 < (b + n) / 4096 -> HDRs s q = NULL.
Proof.
  intros [_ Hs _ (x & Hxf & Hxs & KT) _ _]. destruct (ti_extent _ _ KT b Hs) as (H0 & H1 & H2 & H3).
  rewrite over_at in H1, H2, H3. unfold extent in H1, H2, H3. rewrite Hxf, Hxs in H1, H2, H3.
  split_and!; try done; [apply Hs|]. intros q Hq. rewrite (ti_inside _ _ KT b q Hs); rewrite over_at; [by rewrite Hxf|].
  unfold extent. by rewrite Hxf, Hxs.
Qed.

Lemma pages_of (lb need : Z) : 0 < lb -> lb + 4095 < W64 -> need = HBLKSIZE * OBJ_SZ_TO_BLOCKS lb ->
  need mod 4096 = 0 /\ lb <= need < lb + 4096.
Proof.
  intros H0 H1 ->. unfold OBJ_SZ_TO_BLOCKS, wrap64. rewrite divHBLKSZ_div, HBLKSIZE_eq.
  rewrite (Z.mod_small (lb + 4096 - 1)) by lia. clear H1. dlia.
Qed.

(** The end of [GC_allochblk_nth]. *)
Definition take_tail (b hhdr lb kind flags need : Z) hp : option (Z * heap T) :=
  '(ok, hp) ← on_tbl_res (ht_install_counts b need) hp;
  if negb ok then Some (NULL, hp)
  else
    '(ok, hp) ← setup_header hhdr b lb kind flags hp;
    if negb ok then hp ← on_tbl (ht_remove_counts b need) hp; Some (NULL, hp)
    else
      let hp := set_fail_count 0 hp in
      Some (b, set_large_free (wrap64 (GC_large_free_bytes hp - need)) hp).

(** What the end of an allocation promises when it returns [b]. *)
Record taken (s : fl_state T) L hp (b lb kind need : Z) hp' : Prop := {
  tn_ok : heap_ok (fls hp') L;
  tn_listed : all_listed (fls hp') L;
  tn_start : starts (fls hp') b;
  tn_hdr : fresh_header hp b lb kind true (hdrb (fls hp') b);
  tn_extent : extent (hdrb (fls hp') b) = need;
  tn_keeps : keeps_others s (fls hp') b;
  tn_bytes : listed_bytes (fls hp') L = listed_bytes s L;
  tn_large : GC_large_free_bytes hp' = wrap64 (GC_large_free_bytes hp - need);
  tn_map : obj_map_ok (obj_map hp')
}.

Lemma take_tail_spec hp L (b lb kind flags need : Z) :
  carved (fls hp) L b need -> obj_map_ok (obj_map hp) -> 0 < lb -> need = HBLKSIZE * OBJ_SZ_TO_BLOCKS lb ->
  0 <= flags <= 1 ->
  exists r hp', take_tail b (HDRs (fls hp) b) lb kind flags need hp = Some (r, hp')
    /\ (r = NULL \/ (r = b /\ taken (fls hp) L hp b lb kind need hp')).
Proof.
  intros CV Hom Hlb En Hfl. set (s := fls hp) in *. assert (Hs := cv_start _ _ _ _ CV).
  destruct (counts_inside s L b need CV) as (Hal & Hb0 & Hn0 & Hnm & Hend & Hin).
  destruct (hl_counts (tbl s) b need) as (ok & t & Et & W1 & C1 & HH1 & HD1); try done; [apply CV|lia|].
  change (HDR (tbl s)) with (HDRs s) in HD1. change (ht_hdr (tbl s)) with (hdr_at s) in HH1.
  unfold take_tail. rewrite (on_tbl_res_eq _ hp ok t Et). cbn [mbind option_bind]. fold s.
  destruct ok; cbn [negb]; [|by eexists NULL, _; split; [done|left]].
  set (s1 := set_tbl t s) in *. set (hp1 := set_fls s1 hp).
  assert (D1 : forall q, HDRs s1 q = if decide (b / 4096 < q / 4096 < (b + need) / 4096) then fwd_count b q else HDRs s q).
  { intros q. change (HDRs s1 q) with (HDR t q). rewrite HD1. apply decide_ext. tauto. }
  assert (Eb1 : HDRs s1 b = HDRs s b) by (rewrite D1; by rewrite decide_False by lia).
  assert (HP1 : forall q, is_hdr_ptr (HDRs s1 q) = is_hdr_ptr (HDRs s q)).
  { intros q. rewrite D1. destruct (decide _) as [Hq|Hq]; [|done]. rewrite (Hin q Hq).
    pose proof (fwd_count_pos b q ltac:(lia)). apply not_true_is_false. rewrite is_hdr_ptr_ge. lia. }
  assert (B1 : forall q, has_hdr s q -> hdrb s1 q = hdrb s q).
  { intros q Hq. unfold hdrb. rewrite D1. rewrite decide_False; [apply HH1|].
    intros Hq'. unfold has_hdr in Hq. by rewrite (Hin q Hq') in Hq. }
  destruct (setup_header_spec hp1 b lb kind flags) as (ok & s' & om' & Es & Hom' & F' & W' & A' & Y' & B' & X');
    [done|unfold has_hdr; change (fls hp1) with s1; rewrite Eb1; apply Hs|done|done|done|].
  change (fls hp1) with s1 in *. rewrite Eb1 in Es. rewrite Es. cbn [mbind option_bind].
  assert (HP : forall q, is_hdr_ptr (HDRs s' q) = is_hdr_ptr (HDRs s q)) by (intros q; by rewrite (tf_HDR _ _ F'), HP1).
  assert (HB : forall q, starts s q -> q <> b -> hdrb s' q = hdrb s q).
  { intros q Hq Hne. rewrite B'; [apply B1, Hq|unfold has_hdr; rewrite HP1; apply Hq|].
    intros E. apply Hne. destruct Hq. by apply aligned_same_blk. }
  assert (HK : keeps_others s s' b).
  { intros q Hq Hne. split; [split; [apply Hq|rewrite HP; apply Hq]|by rewrite HB]. }
  destruct X' as (Xb & Xf & Xm & Xok & Xno). destruct (cv_tiled _ _ _ _ CV) as (x & Hxf & Hxs & KT).
  destruct ok; cbn [negb].
  - eexists b, _. split; [done|]. right. split; [done|].
    destruct (Xok eq_refl) as (Xs & Xr).
    assert (Xe : extent (hdrb s' b) = need) by (unfold extent; by rewrite Xf, Xs).
    assert (KT' : tiling s').
    { apply (tiled_use (HDRs s) (over b x (hdrb s)) _ _ b); try done.
      - by rewrite over_at.
      - intros q. rewrite over_at, Hxs, (tf_HDR _ _ F'). apply D1.
      - intros p q E. by apply hdrb_blk.
      - intros k Hk Hkb. destruct Hk as [Hka Hk]. rewrite over_ne by done. by rewrite HB.
      - by rewrite over_at, Hxs. }
    destruct (carved_written s s' L b need CV W') as (K1 & K2 & K3); try done.
    split; try done. split; [done|]. rewrite HP. apply Hs.
  - match goal with |- context [on_tbl ?g ?hq] => set (hp2 := hq) end.
    destruct (hl_remove_counts (tbl s') b need) as (t2 & Et2 & _); try done; [lia|..].
    { intros q Hq. change (HDR (tbl s')) with (HDRs s'). rewrite !(tf_HDR _ _ F'), !D1.
      rewrite HBLKSIZE_eq. rewrite (decide_True (P := b / 4096 < q / 4096 < _)) by done.
      assert (Hb' : b / 4096 < (b + 4096) / 4096 < (b + need) / 4096).
      { clear -Hq Hal Hnm. dlia. }
      rewrite (decide_True (P := b / 4096 < (b + 4096) / 4096 < _)) by done.
      pose proof (fwd_count_pos b q ltac:(lia)). pose proof (fwd_count_pos b (b + 4096) ltac:(lia)).
      rewrite decide_False; lia. }
    rewrite (on_tbl_eq _ hp2 t2 Et2). cbn [mbind option_bind]. eexists NULL, _. split; [done|by left].
Qed.

(** ** The steps together *)

(** The components other than the lists and the log of system calls agree. *)
Record same_rest hp hp' : Prop := {
  sr_map : obj_map hp' = obj_map hp;
  sr_bls : bls hp' = bls hp;
  sr_prm : prm hp' = prm hp;
  sr_large : GC_large_free_bytes hp' = GC_large_free_bytes hp
}.

Lemma clear_unmapped (f : Z) :
  flag_set (clear_flag f WAS_UNMAPPED) FREE_BLK = flag_set f FREE_BLK
  /\ flag_set (clear_flag f WAS_UNMAPPED) WAS_UNMAPPED = false.
Proof.
  unfold flag_set, clear_flag. rewrite <- !Z.land_assoc.
  change (Z.land (Z.lxor 255 WAS_UNMAPPED) FREE_BLK) with FREE_BLK.
  change (Z.land (Z.lxor 255 WAS_UNMAPPED) WAS_UNMAPPED) with 0. by rewrite Z.land_0_r.
Qed.

Lemma ensure_mapped_spec hp L (h : Z) :
  fl_ok (fls hp) L -> starts (fls hp) h ->
  let hp' := ensure_mapped h (HDRs (fls hp) h) hp in
  same_rest hp hp' /\ fl_ok (fls hp') L /\ tbl_frame (fls hp) (fls hp')
  /\ (forall q, starts (fls hp) q -> q <> h -> hdrb (fls hp') q = hdrb (fls hp) q)
  /\ hb_sz (hdrb (fls hp') h) = hb_sz (hdrb (fls hp) h)
  /\ HBLK_IS_FREE (hdrb (fls hp') h) = HBLK_IS_FREE (hdrb (fls hp) h)
  /\ hb_block (hdrb (fls hp') h) = hb_block (hdrb (fls hp) h)
  /\ IS_MAPPED (hdrb (fls hp') h) = true.
Proof.
  intros K Hs hp'. set (s := fls hp) in *. unfold hp', ensure_mapped.
  change (hread hp (HDRs s h)) with (hdrb s h). destruct (IS_MAPPED (hdrb s h)) eqn:Em; cbn [negb].
  - by split_and!.
  - set (f := fun x => set_hb_flags (clear_flag (hb_flags x) WAS_UNMAPPED) x).
    destruct (clear_unmapped (hb_flags (hdrb s h))) as [C1 C2].
    destruct (write_listed s L h f K Hs) as (K' & F' & B'); try done.
    change (fls (hwrite (HDRs s h) f (os_call (GC_remap h (hb_sz (hdrb s h))) hp)))
      with (upd_hdr (HDRs s h) f s). set (s' := upd_hdr (HDRs s h) f s) in *.
    assert (Bh : hdrb s' h = f (hdrb s h)) by (rewrite B'; by rewrite decide_True).
    split; [done|]. split; [done|]. split; [done|]. split.
    { intros q [Hqa _] Hne. rewrite B', decide_False; [done|]. destruct Hs as [Hha _]. intros E.
      by apply Hne, aligned_same_blk. }
    rewrite Bh. split; [done|]. split; [exact C1|]. split; [done|]. unfold IS_MAPPED. cbn. by rewrite C2.
Qed.

Lemma split_block_fls (h last lhdr i : Z) hp :
  fls (GC_split_block h (HDRs (fls hp) h) last lhdr i hp)
    = split_fl h last i (last - h) (HDRs (fls hp) h) lhdr (split_last (fls hp) h last)
        (split_first h last (GC_gc_no (prm hp) mod 65536)) (fls hp)
  /\ same_rest hp (GC_split_block h (HDRs (fls hp) h) last lhdr i hp).
Proof.
  unfold GC_split_block, split_fl, swap_fl. set (s := fls hp).
  change (hread hp (HDRs s h)) with (hdrb s h). change (hdr_at s (HDRs s h)) with (hdrb s h).
  destruct (hb_prev (hdrb s h) =? NULL), (hb_next (hdrb s h) =? NULL); cbn [negb]; by split.
Qed.

(** The blocks in use stay as they are. *)
Definition in_use_kept s s' : Prop :=
  forall k, starts s k -> HBLK_IS_FREE (hdrb s k) = false -> starts s' k /\ body (hdrb s' k) = body (hdrb s k).

Lemma keeps_in_use s s' (b : Z) :
  keeps_others s s' b -> (starts s b -> HBLK_IS_FREE (hdrb s b) = true) -> in_use_kept s s'.
Proof.
  intros K Hb k Hk Hkf. apply K; [done|]. intros ->. rewrite (Hb Hk) in Hkf. done.
Qed.

Lemma in_use_kept_trans s1 s2 s3 : in_use_kept s1 s2 -> in_use_kept s2 s3 -> in_use_kept s1 s3.
Proof.
  intros K1 K2 k Hk Hkf. destruct (K1 k Hk Hkf) as [Hk2 E1]. destruct (K2 k Hk2) as [Hk3 E2];
    [by rewrite (body_free _ _ E1)|]. split; [done|congruence].
Qed.

(** Making the chosen block ready: the range at [last] heads a listed, mapped block. *)
Lemma whole_takable hp L (i h : Z) :
  heap_ok (fls hp) L -> all_listed (fls hp) L -> h ∈ L i ->
  let hp' := ensure_mapped h (HDRs (fls hp) h) hp in
  takable (fls hp') L i h /\ same_rest hp hp' /\ HDRs (fls hp') h = HDRs (fls hp) h
  /\ hb_sz (hdrb (fls hp') h) = hb_sz (hdrb (fls hp) h)
  /\ IS_MAPPED (hdrb (fls hp') h) = true /\ in_use_kept (fls hp) (fls hp')
  /\ listed_bytes (fls hp') L = listed_bytes (fls hp) L.
Proof.
  intros K A Hh hp'. set (s := fls hp) in *. assert (Hs := listed_start s L i h (ho_fl _ _ K) Hh).
  assert (Hf := fo_free _ _ (ho_fl _ _ K) i h Hh).
  destruct (ensure_mapped_spec hp L h (ho_fl _ _ K) Hs) as (SR & K' & F' & B' & Sz & Fr & Bl & Mp).
  fold s in K', F', B', Sz, Fr, Bl, Mp, SR. fold hp' in K', F', B', Sz, Fr, Bl, Mp, SR. set (s' := fls hp') in *.
  assert (Hst : forall q, starts s' q <-> starts s q) by (intros q; unfold start; by rewrite (tf_HDR _ _ F')).
  assert (Hall : forall q, starts s q -> hb_sz (hdrb s' q) = hb_sz (hdrb s q)
    /\ HBLK_IS_FREE (hdrb s' q) = HBLK_IS_FREE (hdrb s q) /\ hb_block (hdrb s' q) = hb_block (hdrb s q)).
  { intros q Hq. destruct (decide (q = h)) as [->|Hne]; [done|]. by rewrite B'. }
  assert (Hix : forall q, starts s q -> fl_index s' q = fl_index s q).
  { intros q Hq. unfold fl_index. by destruct (Hall q Hq) as [-> _]. }
  assert (Hi : i ∈ seqZ 0 61).
  { rewrite (ho_class _ _ K i h Hh). by apply fl_index_range; [apply K|..]. }
  split; [split|].
  - done.
  - assert (KT := ho_tiled _ _ K).
    assert (Ex : forall q, starts s q -> extent (hdrb s' q) = extent (hdrb s q)).
    { intros q Hq. unfold extent. by destruct (Hall q Hq) as (-> & -> & _). }
    split.
    + intros p q E. split; [rewrite !(tf_HDR _ _ F'); by apply (ti_blk _ _ KT)|by apply hdrb_blk].
    + intros q. rewrite (tf_HDR _ _ F'). apply KT.
    + intros q Hq%Hst. destruct (Hall q Hq) as (_ & _ & ->). by apply KT.
    + intros q Hq%Hst. rewrite Ex by done. by apply KT.
    + intros q p Hq%Hst. rewrite Ex, (tf_HDR _ _ F') by done. destruct (Hall q Hq) as (_ & -> & _). by apply KT.
    + intros q. rewrite (tf_HDR _ _ F'). intros Hq. destruct (ti_outside _ _ KT q Hq) as (k & Hk & Hr).
      exists k. split; [by apply Hst|]. by rewrite Ex.
  - done.
  - done.
  - intros j x Hx _. rewrite Hix; [by apply K|by eapply listed_start; [apply K|]].
  - intros x Hx%Hst Hxf _. rewrite Hix by done. destruct (Hall x Hx) as (_ & Ef & _). rewrite Ef in Hxf. by apply A.
  - split; [done|]. split; [apply F'|]. split; [done|]. split; [done|]. split.
    + intros k Hk Hkf. split; [by apply Hst|]. rewrite B'; [done|done|]. intros ->. congruence.
    + apply listed_bytes_ext. intros j x Hx. apply Hall. by eapply listed_start; [apply K|].
Qed.

Lemma split_takable hp L (i h last : Z) :
  let s := fls hp in
  heap_ok s L -> all_listed s L -> h ∈ L i -> last mod 4096 = 0 -> h < last < h + hb_sz (hdrb s h) ->
  exists r t, ht_install_header last (tbl s) = Some (r, t)
    /\ (r <> NULL ->
         let hp1 := ensure_mapped h (HDRs s h) (set_fls (set_tbl t s) hp) in
         let hp' := GC_split_block h (HDRs s h) last r i hp1 in
         exists L', takable (fls hp') L' i last /\ same_rest hp hp' /\ HDRs (fls hp') last = r
           /\ hb_sz (hdrb (fls hp') last) = h + hb_sz (hdrb s h) - last
           /\ IS_MAPPED (hdrb (fls hp') last) = true /\ in_use_kept s (fls hp')
           /\ ~ starts s last
           /\ listed_bytes (fls hp') L' = listed_bytes s L).
Proof.
  intros s K A Hh Hlal Hcut. assert (Hs := listed_start s L i h (ho_fl _ _ K) Hh).
  assert (Hf := fo_free _ _ (ho_fl _ _ K) i h Hh). assert (KT := ho_tiled _ _ K).
  destruct (ti_extent _ _ KT h Hs) as (H0 & H1 & H2 & H3). unfold extent in H1, H2, H3. rewrite Hf in H1, H2, H3.
  assert (Hal : h mod 4096 = 0) by apply Hs.
  destruct (hl_install (tbl s) last) as (r & t & E & W & C & Hr); [apply K|lia|].
  exists r, t. split; [done|]. intros Hr0 hp1 hp'.
  destruct Hr as [[-> _]|(Hrp & _ & HD & HH)]; [done|].
  change (HDR (tbl s)) with (HDRs s) in *. change (ht_hdr (tbl s)) with (hdr_at s) in HH.
  set (s0 := set_tbl t s). set (hp0 := set_fls s0 hp).
  assert (HD0 : forall q, HDRs s0 q = if decide (q / 4096 = last / 4096) then r else HDRs s q) by exact HD.
  assert (Dn : HDRs s last = NULL).
  { rewrite (ti_inside _ _ KT h last Hs); [by rewrite Hf|]. unfold extent. rewrite Hf. clear -Hal Hlal Hcut H2. dlia. }
  assert (Hst : forall q, starts s q -> HDRs s0 q = HDRs s q /\ hdrb s0 q = hdrb s q /\ starts s0 q).
  { intros q [Hqa Hq]. assert (Eq : HDRs s0 q = HDRs s q).
    { rewrite HD0, decide_False; [done|]. intros Eb. apply aligned_same_blk in Eb; [|done|done].
      subst q. by rewrite Dn in Hq. }
    split; [done|]. split; [|split; [done|by rewrite Eq]]. unfold hdrb. rewrite Eq. by apply HH. }
  assert (K0 : fl_ok s0 L).
  { apply (fl_ok_frame s); [apply K|done|done|done|]. intros j x Hx.
    destruct (Hst x) as (E1 & E2 & E3); [by eapply listed_start; [apply K|]|]. split; [apply E3|done]. }
  destruct (Hst h Hs) as (Eh0 & Bh0 & Hs0).
  destruct (ensure_mapped_spec hp0 L h K0 Hs0) as (SR & K1 & F1 & B1 & Sz & Fr & Bl & Mp).
  change (fls hp0) with s0 in *. rewrite Eh0 in SR, K1, F1, B1, Sz, Fr, Bl, Mp.
  change (ensure_mapped h (HDRs s h) hp0) with hp1 in *. set (s1 := fls hp1) in *.
  destruct (split_block_fls h last r i hp1) as [Efl SR2].
  assert (Eh1 : HDRs s1 h = HDRs s h) by (by rewrite (tf_HDR _ _ F1)).
  fold s1 in Efl, SR2. rewrite Eh1 in Efl, SR2. fold hp' in Efl, SR2.
  assert (HD1 : forall q, HDRs s1 q = if decide (q / 4096 = last / 4096) then r else HDRs s q).
  { intros q. by rewrite (tf_HDR _ _ F1), HD0. }
  assert (Er1 : HDRs s1 last = r) by (rewrite HD1; by rewrite decide_True).
  destruct (split_spec s s1 L i h last r (GC_gc_no (prm hp1) mod 65536)) as (L' & TK & F2 & Szl & Mpl & Frh & Ko & EB); try done.
  - intros q Hq Hne. destruct (Hst q Hq) as (_ & E2 & E3). by rewrite B1, E2.
  - by rewrite Sz, Bh0.
  - by rewrite Fr, Bh0.
  - rewrite Bl, Bh0. by apply KT.
  - rewrite Eh1, Er1, <- Efl in TK, F2, Szl, Mpl, Frh, Ko, EB. exists L'. split; [done|].
    split.
    { destruct SR as [? ? ? ?], SR2 as [? ? ? ?]. split; etransitivity; eauto. }
    split; [by rewrite (tf_HDR _ _ F2)|]. split; [done|]. split; [done|].
    split; [|split; [intros [_ Hx]; by rewrite Dn in Hx|done]].
    intros k Hk Hkf. apply Ko; [done|]. intros ->. congruence.
Qed.

(** What a successful allocation of [need] bytes at [r] promises. *)
Record allocated hp L hp' L' (r lb kind need : Z) : Prop := {
  al_ok : heap_ok (fls hp') L';
  al_listed : all_listed (fls hp') L';
  al_start : starts (fls hp') r;
  al_hdr : fresh_header hp r lb kind true (hdrb (fls hp') r);
  al_extent : extent (hdrb (fls hp') r) = need;
  al_keeps : in_use_kept (fls hp) (fls hp');
  al_was_free : exists f, starts (fls hp) f /\ HBLK_IS_FREE (hdrb (fls hp) f) = true
    /\ f <= r /\ r + need <= f + hb_sz (hdrb (fls hp) f);
  al_bytes : listed_bytes (fls hp') L' = listed_bytes (fls hp) L - need;
  al_large : GC_large_free_bytes hp' = wrap64 (GC_large_free_bytes hp - need);
  al_map : obj_map_ok (obj_map hp')
}.

Lemma fresh_header_prm hp hp1 (b lb kind : Z) (ok : bool) (x : hdr) :
  prm hp1 = prm hp -> fresh_header hp1 b lb kind ok x -> fresh_header hp b lb kind ok x.
Proof. unfold fresh_header. by intros ->. Qed.

Lemma take_spec hp L (i b v lb kind flags need : Z) :
  takable (fls hp) L i b -> v = HDRs (fls hp) b -> obj_map_ok (obj_map hp) -> 0 < lb -> lb + 4095 < W64 ->
  need = HBLKSIZE * OBJ_SZ_TO_BLOCKS lb -> need <= hb_sz (hdrb (fls hp) b) -> 0 <= flags <= 1 ->
  exists r hp',
    ('(hbp, hp) ← GC_get_first_part b v need i hp;
     if hbp =? NULL then Some (NULL, hp)
     else take_tail hbp v lb kind flags need hp) = Some (r, hp')
    /\ (r = NULL \/ (r = b /\ exists L', heap_ok (fls hp') L' /\ all_listed (fls hp') L' /\ starts (fls hp') b
         /\ fresh_header hp b lb kind true (hdrb (fls hp') b) /\ extent (hdrb (fls hp') b) = need
         /\ keeps_others (fls hp) (fls hp') b
         /\ listed_bytes (fls hp') L' = listed_bytes (fls hp) L - need
         /\ GC_large_free_bytes hp' = wrap64 (GC_large_free_bytes hp - need) /\ obj_map_ok (obj_map hp'))).
Proof.
  intros TK -> Hom Hlb Hlb2 En Hle Hfl. destruct (pages_of lb need Hlb Hlb2 En) as [Hm Hr].
  destruct (first_part_spec hp L i b need TK Hm ltac:(lia)) as (r & s' & -> & Hc). cbn [mbind option_bind].
  destruct Hc as [->|(-> & L1 & CV & ED & EF & KO & EB)]; [by eexists NULL, _; split; [done|left]|].
  destruct (Z.eqb_spec b NULL) as [->|Hb0]; [by eexists NULL, _; split; [done|left]|].
  destruct (take_tail_spec (set_fls s' hp) L1 b lb kind flags need CV) as (r & hp' & E & Hr'); try done.
  change (fls (set_fls s' hp)) with s' in E. rewrite ED in E. rewrite E.
  exists r, hp'. split; [done|]. destruct Hr' as [->|[-> TN]]; [by left|right]. split; [done|].
  exists L1. destruct TN as [? ? ? X ? KO' EB' GL ?]. change (fls (set_fls s' hp)) with s' in *.
  split_and!; try done; [by eapply keeps_others_trans|by rewrite EB'].
Qed.

(** The whole of [GC_allochblk_nth] after its search. *)
Lemma nth_take_spec hp L (i h last lb kind flags need : Z) :
  let s := fls hp in
  heap_ok s L -> all_listed s L -> h ∈ L i -> last mod 4096 = 0 ->
  h <= last -> last + need <= h + hb_sz (hdrb s h) -> obj_map_ok (obj_map hp) -> 0 < lb -> lb + 4095 < W64 ->
  need = HBLKSIZE * OBJ_SZ_TO_BLOCKS lb -> 0 <= flags <= 1 ->
  exists r hp', nth_take lb kind flags i need h last hp = Some (r, hp')
    /\ (r = NULL \/ (r = last /\ exists L', allocated hp L hp' L' r lb kind need)).
Proof.
  intros s K A Hh Hlal Hle Hend Hom Hlb Hlb2 En Hfl.
  destruct (pages_of lb need Hlb Hlb2 En) as [Hm Hr].
  assert (Hs := listed_start s L i h (ho_fl _ _ K) Hh). assert (Hf := fo_free _ _ (ho_fl _ _ K) i h Hh).
  destruct (ti_extent _ _ (ho_tiled _ _ K) h Hs) as (H0 & _).
  unfold nth_take. change (hptr hp h) with (HDRs s h).
  destruct (Z.eqb_spec last h) as [->|Hne]; cbn [negb].
  - cbn [mbind option_bind]. rewrite (proj2 (Z.eqb_neq h NULL)) by lia.
    destruct (whole_takable hp L i h K A Hh) as (TK & SR & ED & Sz & Mp & KU & EB). fold s in TK, SR, ED, Sz, Mp, KU, EB.
    set (hp1 := ensure_mapped h (HDRs s h) hp) in *.
    destruct (take_spec hp1 L i h (HDRs s h) lb kind flags need) as (r & hp' & E & Hc); try done.
    { by rewrite (sr_map _ _ SR). }
    { rewrite Sz. lia. }
    unfold take_tail in E. cbn zeta. rewrite E. exists r, hp'. split; [done|].
    destruct Hc as [->|(-> & L' & A1 & A2 & A3 & A4 & A5 & A6 & A7 & A8 & A9)]; [by left|right].
    split; [done|]. exists L'. split; try done.
    + by eapply fresh_header_prm; [apply SR|].
    + eapply in_use_kept_trans; [exact KU|]. apply (keeps_in_use _ _ h A6). intros _.
      by apply (fo_free _ _ (tk_fl _ _ _ _ TK) i).
    + exists h. fold s. split_and!; try done; lia.
    + by rewrite A7, EB.
    + by rewrite A8, (sr_large _ _ SR).
  - destruct (split_takable hp L i h last K A Hh Hlal) as (lr & t & Ei & Hsp); [fold s; lia|].
    rewrite (on_tbl_res_eq _ hp lr t Ei). cbn [mbind option_bind]. fold s. fold s in Hsp.
    destruct (Z.eqb_spec lr NULL) as [->|Hlr]; [by eexists NULL, _; split; [done|left]|].
    destruct (Hsp Hlr) as (L1 & TK & SR & ED & Sz & Mp & KU & Hns & EB).
    cbn [mbind option_bind]. rewrite (proj2 (Z.eqb_neq last NULL)) by lia.
    match type of TK with takable (fls ?x) _ _ _ => set (hp1 := x) in * end.
    assert (Em : ensure_mapped last lr hp1 = hp1).
    { unfold ensure_mapped. change (hread hp1 lr) with (hdr_at (fls hp1) lr). rewrite <- ED.
      change (hdr_at (fls hp1) (HDRs (fls hp1) last)) with (hdrb (fls hp1) last). by rewrite Mp. }
    cbn zeta. rewrite Em.
    destruct (take_spec hp1 L1 i last lr lb kind flags need) as (r & hp' & E & Hc); try done.
    { by rewrite (sr_map _ _ SR). }
    { rewrite Sz. lia. }
    unfold take_tail in E. rewrite E. exists r, hp'. split; [done|].
    destruct Hc as [->|(-> & L' & A1 & A2 & A3 & A4 & A5 & A6 & A7 & A8 & A9)]; [by left|right].
    split; [done|]. exists L'. split; try done.
    + by eapply fresh_header_prm; [apply SR|].
    + eapply in_use_kept_trans; [exact KU|]. apply (keeps_in_use _ _ last A6). intros _.
      by apply (fo_free _ _ (tk_fl _ _ _ _ TK) i), (tk_in _ _ _ _ TK).
    + exists h. fold s. split_and!; try done; lia.
    + by rewrite A7, EB.
    + by rewrite A8, (sr_large _ _ SR).
Qed.

(** ** Dropping a block in pieces *)

(** A new free block in a range no block covers. *)
Lemma tiled_new (D D' : Z -> Z) (B B' : Z -> hdr) (n m r : Z) :
  tiled D B -> n mod 4096 = 0 -> 0 < n -> 0 < m -> m mod 4096 = 0 -> n + m < W64 -> is_hdr_ptr r = true ->
  (forall k, start D k -> k + extent (B k) <= n \/ n + m <= k) ->
  (forall q, D' q = if decide (q / 4096 = n / 4096) then r else D q) ->
  (forall p q, p / 4096 = q / 4096 -> B' p = B' q) ->
  (forall k, start D k -> body (B' k) = body (B k)) ->
  HBLK_IS_FREE (B' n) = true -> hb_sz (B' n) = m -> hb_block (B' n) = n -> tiled D' B'.
Proof.
  intros K Hn Hn0 Hm0 Hm Hend Hr Hdis ED EBb EB Hf Hsz Hb.
  assert (En : extent (B' n) = m) by (unfold extent; by rewrite Hf).
  assert (Hdiv : (n + m) / 4096 = n / 4096 + m / 4096 /\ 1 <= m / 4096) by (clear -Hn Hm Hm0; dlia).
  assert (Hcov : forall k q, start D k -> k / 4096 <= q / 4096 < (k + extent (B k)) / 4096 ->
    ~ (n / 4096 <= q / 4096 < (n + m) / 4096)).
  { intros k q Hk Hq Hq'. destruct (ti_extent _ _ K k Hk) as (_ & _ & Hkm & _). destruct (Hdis k Hk) as [Hd|Hd];
      destruct Hk as [Hka _].
    - assert ((k + extent (B k)) / 4096 <= n / 4096) by (apply Z.div_le_mono; lia). lia.
    - assert ((n + m) / 4096 <= k / 4096) by (apply Z.div_le_mono; lia). lia. }
  assert (Dn : forall q, n / 4096 <= q / 4096 < (n + m) / 4096 -> D q = NULL).
  { intros q Hq. destruct (decide (D q = NULL)) as [|Hne]; [done|]. exfalso.
    destruct (ti_outside _ _ K q Hne) as (k & Hk & Hk2). by apply (Hcov k q Hk Hk2). }
  assert (Hns : forall k, start D k -> k <> n).
  { intros k [_ Hk] ->. rewrite Dn in Hk by lia. done. }
  assert (Es : forall k, start D' k <-> start D k \/ k = n).
  { intros k. unfold start. rewrite ED. destruct (decide (k / 4096 = n / 4096)) as [E|E].
    - split; [intros [Ha _]; right; by apply aligned_same_blk|]. intros [[Ha Hk]| ->]; [|done].
      destruct (Hns k (conj Ha Hk)). by apply aligned_same_blk.
    - split; [tauto|]. intros [?| ->]; done. }
  assert (Bk : forall k, start D k -> extent (B' k) = extent (B k)
    /\ hb_block (B' k) = hb_block (B k) /\ HBLK_IS_FREE (B' k) = HBLK_IS_FREE (B k)).
  { intros k Hk. pose proof (EB k Hk) as E. unfold extent. rewrite (body_free _ _ E).
    by destruct (body_fields _ _ E) as (-> & _ & -> & _). }
  split.
  - intros p q E. rewrite !ED, E. split; [|by apply EBb]. case_decide; [done|]. by apply (ti_blk _ _ K).
  - intros q. rewrite ED. case_decide; [apply is_hdr_ptr_ge in Hr; lia|]. apply K.
  - intros k [Hk| ->]%Es; [|done]. destruct (Bk k Hk) as (_ & -> & _). by apply K.
  - intros k [Hk| ->]%Es; [|by rewrite En]. destruct (Bk k Hk) as (-> & _). by apply K.
  - intros k q [Hk| ->]%Es Hq.
    + destruct (Bk k Hk) as (Ee & _ & Ef). rewrite Ee in Hq. rewrite Ef, ED.
      rewrite decide_False; [by apply K|]. intros E. apply (Hcov k q Hk); lia.
    + rewrite En in Hq. rewrite Hf, ED, decide_False by lia. apply Dn. lia.
  - intros q. rewrite ED. destruct (decide _) as [Hd|Hd].
    + intros _. exists n. split; [apply Es; by right|]. rewrite En. lia.
    + intros Hq. destruct (ti_outside _ _ K q Hq) as (k & Hk & Hr'). exists k. split; [apply Es; by left|].
      by destruct (Bk k Hk) as (-> & _).
Qed.

(** The pages of the reserved range are put to use one by one; a page without a
    header is forgotten with those after it. *)
Lemma drop_step s s1 L (b n : Z) :
  carved s L b n -> tbl_frame s s1 -> ht_wf (tbl s1) -> GC_hblkfreelist s1 = GC_hblkfreelist s ->
  GC_free_bytes s1 = GC_free_bytes s ->
  (forall q, has_hdr s q -> ~ same_blk q b -> hdrb s1 q = hdrb s q) ->
  HBLK_IS_FREE (hdrb s1 b) = false -> extent (hdrb s1 b) = 4096 -> hb_block (hdrb s1 b) = b ->
  heap_ok s1 L /\ all_listed s1 L /\ listed_bytes s1 L = listed_bytes s L /\ keeps_others s s1 b
  /\ (4096 < n -> exists r t, ht_install_header (b + 4096) (tbl s1) = Some (r, t)
       /\ let s2 := set_tbl t s1 in
          ht_wf t
          /\ (forall q, starts s1 q -> HDRs s2 q = HDRs s1 q /\ hdrb s2 q = hdrb s1 q)
          /\ (r = NULL -> same_table (tbl s1) t)
          /\ (r <> NULL -> carved s2 L (b + 4096) (n - 4096) /\ HDRs s2 (b + 4096) = r)).
Proof.
  intros CV F W Efl Eby HB Hbf Hbx Hbb. assert (Hs := cv_start _ _ _ _ CV).
  destruct (counts_inside s L b n CV) as (Hal & Hb0 & Hn0 & Hnm & Hend & Hin).
  destruct (cv_tiled _ _ _ _ CV) as (x & Hxf & Hxs & KT).
  assert (HB' : forall q, starts s q -> q <> b -> hdrb s1 q = hdrb s q).
  { intros q Hq Hne. apply HB; [apply Hq|]. intros E. destruct Hq. by apply Hne, aligned_same_blk. }
  assert (Hst : forall q, starts s1 q <-> starts s q) by (intros q; unfold start; by rewrite (tf_HDR _ _ F)).
  assert (KT1 : tiling s1).
  { eapply (tiled_ext (HDRs s) (hdrb s1)); [apply F|intros p q E; by apply hdrb_blk|done|].
    apply (tiled_shrink (HDRs s) (over b x (hdrb s)) (hdrb s1) b); try done.
    - by rewrite over_at.
    - intros p q E. by apply hdrb_blk.
    - intros k Hk Hkb. assert (Hka : k mod 4096 = 0) by apply Hk. rewrite over_ne by done. by rewrite HB'. }
  destruct (carved_written s s1 L b n CV W Efl Eby Hbf) as (K1 & A1 & EB1); try done.
  { intros q. by rewrite (tf_HDR _ _ F). }
  split; [done|]. split; [done|]. split; [done|]. split.
  { intros q Hq Hne. split; [by apply Hst|]. by rewrite HB'. }
  intros Hn. destruct (hl_install (tbl s1) (b + 4096)) as (r & t & E & W2 & _ & Hr); [done|lia|].
  exists r, t. split; [done|]. intros s2. split; [done|].
  assert (Hbal : (b + 4096) mod 4096 = 0) by (clear -Hal; dlia).
  assert (Hdis : forall k, starts s1 k -> k + extent (hdrb s1 k) <= b + 4096 \/ b + 4096 + (n - 4096) <= k).
  { intros k Hk. destruct (decide (k = b)) as [->|Hne]; [left; rewrite Hbx; lia|]. apply Hst in Hk.
    rewrite HB' by done.
    assert (Ok : over b x (hdrb s) k = hdrb s k) by (destruct Hk; by apply over_ne).
    destruct (Z.lt_total k b) as [Hlt|[?|Hlt]]; [left|done|right].
    - pose proof (tiled_disjoint _ _ k b KT Hk Hs Hlt) as Hd. rewrite Ok in Hd. lia.
    - pose proof (tiled_disjoint _ _ b k KT Hs Hk Hlt) as Hd. rewrite over_at in Hd. unfold extent in Hd.
      rewrite Hxf, Hxs in Hd. lia. }
  assert (Hns : forall q, starts s1 q -> q <> b + 4096).
  { intros q Hq ->. destruct (ti_extent _ _ KT1 _ Hq) as (_ & Hp & _). destruct (Hdis _ Hq); lia. }
  destruct Hr as [[-> [SD SH]]|(Hrp & _ & HD & HH)].
  { split; [|split; [by split|done]]. intros q Hq. split; [apply SD|]. unfold hdrb.
    change (HDRs s2 q) with (HDR t q). rewrite SD. apply SH. apply Hq. }
  change (HDR (tbl s1)) with (HDRs s1) in *. change (ht_hdr (tbl s1)) with (hdr_at s1) in HH.
  assert (HD2 : forall q, HDRs s2 q = if decide (q / 4096 = (b + 4096) / 4096) then r else HDRs s1 q) by exact HD.
  assert (Hk2 : forall q, starts s1 q -> HDRs s2 q = HDRs s1 q /\ hdrb s2 q = hdrb s1 q).
  { intros q Hq. assert (Eq : HDRs s2 q = HDRs s1 q).
    { rewrite HD2, decide_False; [done|]. intros Eb. apply (Hns q Hq). destruct Hq. by apply aligned_same_blk. }
    split; [done|]. unfold hdrb. rewrite Eq. apply HH, Hq. }
  split; [done|]. split; [intros ->; done|]. intros _.
  assert (Er : HDRs s2 (b + 4096) = r) by (rewrite HD2; by rewrite decide_True).
  split; [|done].
  assert (Hst2 : forall q, starts s2 q <-> starts s1 q \/ q = b + 4096).
  { intros q. split.
    - intros [Hqa Hq]. rewrite HD2 in Hq. destruct (decide _) as [E2|E2]; [right; by apply aligned_same_blk|by left].
    - intros [Hq| ->]; [|by split; [|rewrite Er]]. destruct (Hk2 q Hq) as [Eq _]. split; [apply Hq|rewrite Eq; apply Hq]. }
  assert (HL : forall i q, q ∈ L i -> starts s1 q).
  { intros i q Hq. by eapply listed_start; [apply K1|]. }
  split.
  - apply (fl_ok_frame s1); [apply K1|done|done|done|]. intros i q Hq. destruct (Hk2 q (HL i q Hq)) as [E1 E2].
    split; [unfold has_hdr; rewrite E1; apply (HL i q Hq)|done].
  - apply Hst2. by right.
  - intros j Hj. by apply (Hns _ (HL j _ Hj)).
  - set (x2 := set_hb_block (b + 4096) (set_hb_sz (n - 4096) x)). exists x2.
    split; [done|]. split; [done|].
    apply (tiled_new (HDRs s1) _ (hdrb s1) _ (b + 4096) (n - 4096) r); try done; try lia.
    + clear -Hnm. dlia.
    + intros p q Eq. by apply over_blk.
    + intros k Hk. assert (Hka : k mod 4096 = 0) by apply Hk. rewrite over_ne by (done || by apply Hns).
      by destruct (Hk2 k Hk) as [_ ->].
    + by rewrite over_at.
    + by rewrite over_at.
    + by rewrite over_at.
  - intros j y Hy. unfold fl_index. destruct (Hk2 y (HL j y Hy)) as [_ ->]. by apply K1.
  - intros y Hy Hyb Hyf. apply Hst2 in Hy as [Hy| ->]; [|done]. unfold fl_index.
    destruct (Hk2 y Hy) as [_ E2]. rewrite E2 in Hyf |- *. by apply A1.
Qed.

End Take.
End AllchblkTake.
