(* ===== verification/AllchblkSearch.v ===== *)
(** * The search of the block allocator (allchblk.c: [GC_allochblk_nth])

    Alignment arithmetic, the search inside a block for a start that is not
    black-listed, dropping fully black-listed blocks, and the search of a free
    list: it terminates, keeps the heap invariant and returns a range that fits. *)

From Stdlib Require Import ZArith Lia.
From stdpp Require Import base gmap list.
From S2P Require Import Prelude BlackList Scratch Hblk Headers HeadersNav HdrIface MarkBits ObjMap FreeList Allchblk HeapInv AllchblkFree AllchblkTake.

Module AllchblkSearch.
Import BlackList Headers HdrIface MarkBits ObjMap FreeList Allchblk HeapInv AllchblkFree AllchblkTake.

(** ** Alignment *)

(** Requested alignments are powers of two: none, or at least a block. *)
Definition align_ok (align_m1 : Z) : Prop :=
  exists k, align_m1 = 2 ^ k - 1 /\ (k = 0 \/ 12 <= k <= 62).

Lemma align_ok_dvd (a : Z) : align_ok a -> 0 < a + 1 <= 2 ^ 62 /\ (a = 0 \/ (4096 | a + 1)).
Proof.
  intros (k & -> & [->|Hk]); [split; [lia|by left]|].
  replace (2 ^ k - 1 + 1) with (2 ^ k) by lia. split.
  - split; [apply Z.pow_pos_nonneg; lia|apply Z.pow_le_mono_r; lia].
  - right. exists (2 ^ (k - 12)). change 4096 with (2 ^ 12). rewrite <- Z.pow_add_r by lia. f_equal. lia.
Qed.

Lemma ALIGN_PAD_SZ_eq (p a : Z) : align_ok a -> ALIGN_PAD_SZ p a = (- p) mod (a + 1).
Proof.
  intros (k & -> & Hk). unfold ALIGN_PAD_SZ, wrap64, W64.
  assert (0 <= k <= 62) by lia. rewrite land_low_mask by lia.
  replace (2 ^ k - 1 + 1) with (2 ^ k) by lia.
  rewrite <- Znumtheory.Zmod_div_mod.
  - rewrite <- (Z.mod_add (- p) 1 (2 ^ k)) by lia. f_equal. lia.
  - apply Z.pow_pos_nonneg; lia.
  - done.
  - exists (2 ^ (64 - k)). rewrite <- Z.pow_add_r by lia. f_equal. lia.
Qed.

Lemma PTR_ALIGN_DOWN_eq (p a : Z) : align_ok a -> PTR_ALIGN_DOWN p (a + 1) = p - p mod (a + 1).
Proof.
  intros (k & -> & Hk). unfold PTR_ALIGN_DOWN. replace (2 ^ k - 1 + 1 - 1) with (2 ^ k - 1) by lia.
  replace (2 ^ k - 1 + 1) with (2 ^ k) by lia. apply land_high_mask. lia.
Qed.

(** Rounding an address up to the alignment. *)
Definition align_up (p a : Z) : Z := p + (- p) mod (a + 1).

Lemma align_up_spec (p a : Z) :
  align_ok a -> p mod 4096 = 0 ->
  let r := align_up p a in p <= r /\ r mod (a + 1) = 0 /\ r mod 4096 = 0
  /\ p + divHBLKSZ (ALIGN_PAD_SZ p a) * HBLKSIZE = r
  /\ forall e, p <= e -> e mod (a + 1) = 0 -> r <= e.
Proof.
  intros Ha Hp r. destruct (align_ok_dvd a Ha) as [Hpos Hd].
  rewrite ALIGN_PAD_SZ_eq, divHBLKSZ_div, HBLKSIZE_eq by done. unfold r, align_up.
  pose proof (Z.mod_pos_bound (- p) (a + 1) ltac:(lia)) as Hb.
  assert (Hr : (p + (- p) mod (a + 1)) mod (a + 1) = 0).
  { rewrite Z.add_mod_idemp_r by lia. replace (p + - p) with 0 by lia. by apply Z.mod_0_l; lia. }
  assert (Hm : ((- p) mod (a + 1)) mod 4096 = 0).
  { destruct Hd as [->|Hd]; [rewrite Z.mod_1_r; done|].
    apply Z.mod_divide; [lia|]. apply Z.mod_divide in Hp; [|lia].
    rewrite (Z.mod_eq (- p)) by lia. apply Z.divide_sub_r; [by apply Z.divide_opp_r|].
    by apply Z.divide_mul_l. }
  set (m := (- p) mod (a + 1)) in *. clearbody m.
  split; [lia|]. split; [done|]. split; [clear -Hp Hm; dlia|]. split; [clear -Hp Hm; dlia|].
  intros e He Hea. destruct (Z.le_gt_cases (p + m) e) as [|Hgt]; [done|]. exfalso.
  apply Z.mod_divide in Hr; [|lia]. apply Z.mod_divide in Hea; [|lia].
  destruct Hr as [x Hx], Hea as [y Hy].
  assert (y < x) by (apply Z.mul_lt_mono_pos_r with (a + 1); lia).
  assert ((y + 1) * (a + 1) <= x * (a + 1)) by (apply Z.mul_le_mono_nonneg_r; lia). lia.
Qed.

(** ** Searching for a start that is not black-listed *)

Lemma black_listed_advance (bl : bl_state) (h len r : Z) :
  0 <= h -> h mod 4096 = 0 -> 0 <= len -> GC_is_black_listed bl h len = Some r ->
  r = NULL \/ (h < r /\ r mod 4096 = 0).
Proof.
  intros Hh0 Hh Hl E. rewrite is_black_listed_eq in E by done. injection E as <-.
  unfold black_listed_spec. destruct (_ && _); [right; rewrite HBLKSIZE_eq; split; [lia|dlia]|].
  generalize (Nat.max 1 (Z.to_nat (len / HBLKSIZE))). intros n. revert h Hh0 Hh.
  induction n as [|n IH]; intros h Hh0 Hh; cbn [first_listed]; [by left|]. rewrite HBLKSIZE_eq.
  destruct (stack_listed bl h); [right; split; [lia|dlia]|].
  destruct (IH (h + 4096)) as [->|[? ?]]; [lia|dlia|by left|]. right. split; [lia|done].
Qed.

Lemma first_listed_more (n : nat) (bl : bl_state) (p : Z) :
  0 < p -> first_listed n bl p <> NULL -> first_listed (S n) bl p <> NULL.
Proof.
  revert p. induction n as [|n IH]; intros p Hp; [done|]. cbn [first_listed]. rewrite HBLKSIZE_eq.
  destruct (stack_listed bl p); [lia|]. intros Hn. apply IH; [lia|done].
Qed.

Lemma first_listed_between (n : nat) (bl : bl_state) (h p : Z) :
  h mod 4096 = 0 -> p mod 4096 = 0 -> 0 < h -> h <= p < first_listed n bl h -> first_listed n bl p <> NULL.
Proof.
  revert h. induction n as [|n IH]; intros h Hh Hp H0 Hr; [cbn in Hr; lia|].
  destruct (decide (p = h)) as [->|Hne]; [lia|].
  apply first_listed_more; [lia|]. apply (IH (h + 4096)); [clear -Hh; dlia|done|lia|].
  cbn [first_listed] in Hr. rewrite HBLKSIZE_eq in Hr. clear IH.
  destruct (stack_listed bl h); clear -Hh Hp Hr Hne; dlia.
Qed.

(** A start between the one tried and the block reported covers that block too. *)
Lemma black_listed_between (bl : bl_state) (h p len : Z) :
  h mod 4096 = 0 -> p mod 4096 = 0 -> 0 < h ->
  h <= p < black_listed_spec bl h len -> black_listed_spec bl p len <> NULL.
Proof.
  intros Hh Hp Hh0 Hr. unfold black_listed_spec in *.
  destruct (negb (GC_all_interior_pointers bl) && normal_listed bl p) eqn:Ep; [rewrite HBLKSIZE_eq; lia|].
  destruct (negb (GC_all_interior_pointers bl) && normal_listed bl h) eqn:E1.
  - rewrite HBLKSIZE_eq in Hr. assert (p = h) as -> by (clear -Hh Hp Hr; dlia). congruence.
  - by apply (first_listed_between _ bl h).
Qed.

(** The starts the loop of [find_non_bl_hblk] may return. *)
Definition usable_start (bl : bl_state) (h remain eff a v : Z) : Prop :=
  h <= v <= h + remain /\ v mod 4096 = 0 /\ v mod (a + 1) = 0 /\ GC_is_black_listed bl v eff = Some NULL.

(** The loop returns an aligned start in range that is not listed, or [NULL] when
    there is none. *)
Lemma find_non_bl_spec (bl : bl_state) (h remain eff a : Z) :
  align_ok a -> h mod 4096 = 0 -> 0 < h -> h + remain < W64 -> 0 <= eff ->
  align_up h a <= h + remain ->
  exists r, find_non_bl_hblk bl h remain eff a = Some r
    /\ ((r = NULL /\ forall v, ~ usable_start bl h remain eff a v) \/ usable_start bl h remain eff a r).
Proof.
  intros Ha Hal Hpos Hend Heff Hup. unfold find_non_bl_hblk. cbn zeta.
  rewrite PTR_ALIGN_DOWN_eq by done. set (e := h + remain - (h + remain) mod (a + 1)).
  destruct (align_ok_dvd a Ha) as [Hap _].
  pose proof (Z.mod_pos_bound (h + remain) (a + 1) ltac:(lia)) as Hmb.
  assert (Hea : e mod (a + 1) = 0).
  { unfold e. rewrite Zminus_mod, Z.mod_mod, Z.sub_diag by lia. by apply Z.mod_0_l; lia. }
  assert (Hlast : forall v, v mod (a + 1) = 0 -> v <= h + remain -> v <= e).
  { intros v Hv Hle. unfold e. apply Z.mod_divide in Hv as [x ->]; [|lia].
    rewrite (Z.div_mod (h + remain) (a + 1)) in Hle by lia.
    rewrite (Z.mod_eq (h + remain)) by lia.
    assert (x <= (h + remain) / (a + 1)) by (apply Z.div_le_lower_bound; [lia|]; rewrite <- Z.div_mod in Hle by lia; lia).
    replace (h + remain - (h + remain - (a + 1) * ((h + remain) / (a + 1)))) with ((a + 1) * ((h + remain) / (a + 1))) by lia.
    rewrite (Z.mul_comm x). apply Z.mul_le_mono_nonneg_l; lia. }
  match goal with |- context [loop ?f ?s] => destruct (loop_spec
    (fun p => h <= p /\ p mod 4096 = 0 /\ align_up p a <= h + remain
       /\ forall v, usable_start bl h remain eff a v -> p <= v)
    (fun r => exists v, r = Some v /\ ((v = NULL /\ forall v, ~ usable_start bl h remain eff a v)
       \/ usable_start bl h remain eff a v))
    (fun p => Z.max 0 (h + remain + 1 - p)) f s) as (r & -> & v & -> & Hv) end; [| | |by exists v].
  - intros p (Hp & Hpa & Hpu & Hno). destruct (align_up_spec p a Ha Hpa) as (U1 & U2 & U3 & U4 & U5).
    rewrite U4. set (q := align_up p a) in *.
    destruct (GC_is_black_listed bl q eff) as [n|] eqn:E.
    2:{ rewrite is_black_listed_eq in E by done. done. }
    destruct (Z.eqb_spec n NULL) as [->|Hn].
    { exists q. split; [done|]. right. split; [lia|]. by split_and!. }
    destruct (black_listed_advance bl q eff n) as [|[Hn1 Hn2]]; [lia|done|done|done|done|].
    rewrite is_black_listed_eq in E by done. injection E as E.
    assert (Hpast : forall v, usable_start bl h remain eff a v -> n <= v).
    { intros v Hu. pose proof (Hno v Hu) as Hpv. destruct Hu as (Hr & Hv1 & Hv2 & Hv3).
      pose proof (U5 v Hpv Hv2) as Hqv. destruct (Z.le_gt_cases n v) as [|Hlt]; [done|exfalso].
      rewrite is_black_listed_eq in Hv3 by done. injection Hv3 as Hv3. revert Hv3.
      apply (black_listed_between bl q); [done|done|lia|]. rewrite E. lia. }
    destruct (Z.leb_spec n e) as [Hle|Hgt].
    + destruct (align_up_spec n a Ha Hn2) as (_ & _ & _ & _ & V).
      split; [|unfold e in *; lia]. split; [lia|]. split; [done|]. split; [|done].
      specialize (V e Hle Hea). unfold e in *. lia.
    + exists NULL. split; [done|]. left. split; [done|]. intros v Hu. pose proof (Hpast v Hu).
      destruct Hu as ([_ Hr] & _ & Hv2 & _). specialize (Hlast v Hv2 Hr). lia.
  - split_and!; try done. intros v Hv. apply Hv.
  - unfold W64 in *. lia.
Qed.


Section Search.
Context {T : Type} `{HeaderTable T} `{!HeaderTableLaws T}.
Implicit Types (hp : heap T) (s : fl_state T) (L : Z -> list Z).

Abbreviation tiling s := (tiled (HDRs s) (hdrb s)).
Abbreviation starts s := (start (HDRs s)).

(** ** Dropping a black-listed block *)

Lemma heap_takable s L (i h : Z) :
  heap_ok s L -> all_listed s L -> h ∈ L i -> takable s L i h.
Proof.
  intros K A Hh. assert (Hs := listed_start s L i h (ho_fl _ _ K) Hh).
  assert (Hf := fo_free _ _ (ho_fl _ _ K) i h Hh). split; try apply K; try done.
  - rewrite (ho_class _ _ K i h Hh). by apply fl_index_range; [apply K|..].
  - intros j x Hx _. by apply K.
  - intros x Hx Hxf _. by apply A.
Qed.

(** The counters a drop leaves alone. *)
Record drop_frame hp hp' : Prop := {
  df_bls : bls hp' = bls hp;
  df_prm : prm hp' = prm hp
}.

Lemma drop_loop_spec hp0 hp L (limit b : Z) (s0 : fl_state T) (h : Z) :
  carved (fls hp) L b (limit - b) -> obj_map_ok (obj_map hp) -> in_use_kept s0 (fls hp) ->
  (forall k, starts s0 k -> HBLK_IS_FREE (hdrb s0 k) = false -> k < h \/ limit <= k) -> h <= b ->
  drop_frame hp0 hp ->
  exists hp',
    loop (fun '(hbp, hhdr, hp) =>
      match setup_header hhdr hbp HBLKSIZE PTRFREE 0 hp with
      | None => inr None
      | Some (_, hp) =>
        let hbp := hbp + HBLKSIZE in
        if limit <=? hbp then inr (Some hp)
        else match on_tbl_res (ht_install_header hbp) hp with
             | None => inr None
             | Some (hhdr, hp) => if hhdr =? NULL then inr (Some hp) else inl (hbp, hhdr, hp)
             end
      end) (b, HDRs (fls hp) b, hp) = Some (Some hp')
    /\ heap_ok (fls hp') L /\ all_listed (fls hp') L /\ obj_map_ok (obj_map hp')
    /\ in_use_kept s0 (fls hp') /\ drop_frame hp0 hp' /\ listed_bytes (fls hp') L = listed_bytes (fls hp) L
    /\ GC_large_free_bytes hp' = GC_large_free_bytes hp.
Proof.
  intros CV Hom KU Hdis Hhb DF.
  match goal with |- context [loop ?f ?x] => set (body := f); set (st := x) end.
  destruct (loop_spec
    (fun '(b, v, hq) => carved (fls hq) L b (limit - b) /\ v = HDRs (fls hq) b /\ obj_map_ok (obj_map hq)
       /\ in_use_kept s0 (fls hq) /\ h <= b /\ drop_frame hp0 hq
       /\ listed_bytes (fls hq) L = listed_bytes (fls hp) L /\ GC_large_free_bytes hq = GC_large_free_bytes hp)
    (fun r => exists hp', r = Some hp' /\ heap_ok (fls hp') L /\ all_listed (fls hp') L /\ obj_map_ok (obj_map hp')
       /\ in_use_kept s0 (fls hp') /\ drop_frame hp0 hp' /\ listed_bytes (fls hp') L = listed_bytes (fls hp) L
       /\ GC_large_free_bytes hp' = GC_large_free_bytes hp)
    (fun '(b, v, hq) => limit - b) body st) as (r & E & hp' & -> & R).
  - intros [[b1 v] hq] (CV1 & -> & Hom1 & KU1 & Hb1 & DF1 & EB1 & EG1). unfold body. clear body st.
    set (s := fls hq) in *. assert (Hs := cv_start _ _ _ _ CV1).
    destruct (counts_inside s L b1 _ CV1) as (Hal & Hb0 & Hn0 & Hnm & Hend & _).
    destruct (setup_header_spec hq b1 HBLKSIZE PTRFREE 0) as (ok & s1 & om & Es & Hom2 & F1 & W1 & A1 & Y1 & B1 & X1);
      [apply CV1|apply Hs|done|done|done|]. fold s in Es, F1, A1, Y1, B1, X1. rewrite Es.
    destruct X1 as (Xb & Xf & _ & Xok & Xno).
    assert (Xe : extent (hdrb s1 b1) = 4096).
    { unfold extent. rewrite Xf. destruct ok; [destruct (Xok eq_refl) as [-> _]|rewrite Xno by done]; done. }
    destruct (drop_step s s1 L b1 (limit - b1) CV1 F1 W1 A1 Y1 B1 Xf Xe Xb) as (K2 & L2 & EB2 & KO2 & Hnext).
    set (hq1 := set_obj_map om (set_fls s1 hq)).
    assert (KU2 : in_use_kept s0 s1).
    { intros k Hk Hkf. destruct (KU1 k Hk Hkf) as [Hk1 E1]. destruct (KO2 k Hk1) as [Hk2 E2]; [|split; [done|congruence]].
      intros ->. destruct (Hdis b1 Hk Hkf); lia. }
    cbn zeta. rewrite HBLKSIZE_eq. destruct (Z.leb_spec limit (b1 + 4096)) as [Hle|Hgt].
    { exists hq1. split; [done|]. split; [done|]. split; [done|]. split; [done|]. split; [done|].
      split; [destruct DF1; by split|]. split; [by rewrite <- EB1|done]. }
    destruct (Hnext ltac:(lia)) as (r & t & Et & Wt & Ht & Hr0 & Hr1).
    rewrite (on_tbl_res_eq _ hq1 r t Et). change (fls hq1) with s1.
    assert (KU3 : in_use_kept s0 (set_tbl t s1)).
    { intros k Hk Hkf. destruct (KU2 k Hk Hkf) as [Hk1 E1]. destruct (Ht k Hk1) as [E2 E3].
      split; [split; [apply Hk1|rewrite E2; apply Hk1]|]. by rewrite E3. }
    assert (EB3 : listed_bytes (set_tbl t s1) L = listed_bytes s1 L).
    { apply listed_bytes_ext. intros j x Hx. f_equal. apply Ht. by eapply listed_start; [apply K2|]. }
    destruct (Z.eqb_spec r NULL) as [->|Hr].
    + destruct (heap_ok_same_table s1 L t K2 Wt (Hr0 eq_refl)) as (K3 & HD3 & HB3).
      eexists. split; [done|]. split; [exact K3|]. split.
      { intros k Hk Hkf. change (starts (set_tbl t s1) k) in Hk. change (HBLK_IS_FREE (hdrb (set_tbl t s1) k) = true) in Hkf.
        assert (Hk1 : starts s1 k) by (destruct Hk as [? Hk]; split; [done|by rewrite HD3 in Hk]).
        change (k ∈ L (fl_index (set_tbl t s1) k)). unfold fl_index.
        rewrite HB3 in Hkf |- * by apply Hk1. by apply L2. }
      split; [done|]. split; [done|]. split; [destruct DF1; by split|].
      split; [|done]. change (listed_bytes (set_tbl t s1) L = listed_bytes (fls hp) L). congruence.
    + destruct (Hr1 Hr) as [CV3 Er]. split; [|lia].
      split; [|split; [|split; [|split; [|split; [|split; [|split]]]]]].
      * replace (limit - (b1 + 4096)) with (limit - b1 - 4096) by lia. exact CV3.
      * symmetry. exact Er.
      * done.
      * done.
      * lia.
      * destruct DF1; by split.
      * change (listed_bytes (set_tbl t s1) L = listed_bytes (fls hp) L). congruence.
      * done.
  - unfold st. by split_and!.
  - unfold st. destruct (counts_inside _ L b _ CV) as (_ & ? & ? & _ & ? & _). lia.
  - exists hp'. rewrite E. by split.
Qed.

(** What the search keeps: the heap is in order, the blocks in use are as before,
    and dropped blocks are accounted for. *)
Record search_inv hp L hp' L' : Prop := {
  si_ok : heap_ok (fls hp') L';
  si_listed : all_listed (fls hp') L';
  si_map : obj_map_ok (obj_map hp');
  si_kept : in_use_kept (fls hp) (fls hp');
  si_bls : bls hp' = bls hp;
  si_prm : prm hp' = prm hp;
  si_bytes : exists d, 0 <= d /\ GC_large_free_bytes hp' = wrap64 (GC_large_free_bytes hp - d)
    /\ listed_bytes (fls hp') L' = listed_bytes (fls hp) L - d
}.

Lemma search_inv_set hp L hp1 hp2 L' :
  fls hp2 = fls hp1 -> obj_map hp2 = obj_map hp1 -> bls hp2 = bls hp1 -> prm hp2 = prm hp1 ->
  GC_large_free_bytes hp2 = GC_large_free_bytes hp1 -> search_inv hp L hp1 L' -> search_inv hp L hp2 L'.
Proof. intros E1 E2 E3 E4 E5 [? ? ? ? ? ? ?]. split; rewrite ?E1, ?E2, ?E3, ?E4, ?E5; done. Qed.

Lemma drop_spec hp L (i h : Z) (l1 l2 : list Z) :
  heap_ok (fls hp) L -> all_listed (fls hp) L -> L i = l1 ++ h :: l2 -> obj_map_ok (obj_map hp) ->
  exists hp', drop_hblk_in_chunks i h (HDRs (fls hp) h) hp = Some hp'
    /\ let L' := upd_list i (l1 ++ l2) L in
       heap_ok (fls hp') L' /\ all_listed (fls hp') L' /\ obj_map_ok (obj_map hp')
       /\ in_use_kept (fls hp) (fls hp') /\ drop_frame hp hp'
       /\ listed_bytes (fls hp') L' = listed_bytes (fls hp) L - hb_sz (hdrb (fls hp) h)
       /\ GC_large_free_bytes hp' = wrap64 (GC_large_free_bytes hp - hb_sz (hdrb (fls hp) h)).
Proof.
  intros K A EL Hom. set (s := fls hp) in *.
  assert (Hh : h ∈ L i) by (rewrite EL; apply elem_of_app; right; by left).
  assert (Hs := listed_start s L i h (ho_fl _ _ K) Hh). assert (Hf := fo_free _ _ (ho_fl _ _ K) i h Hh).
  destruct (ti_extent _ _ (ho_tiled _ _ K) h Hs) as (H0 & H1 & H2 & H3). unfold extent in H1, H2, H3. rewrite Hf in H1, H2, H3.
  destruct (carved_whole s L i h l1 l2 (heap_takable s L i h K A Hh) EL) as (CV & F1 & HB1 & EB1).
  set (s1 := GC_remove_from_fl_at (HDRs s h) i s) in *. set (L' := upd_list i (l1 ++ l2) L) in *.
  unfold drop_hblk_in_chunks. change (hread hp (HDRs s h)) with (hdrb s h). set (sz := hb_sz (hdrb s h)) in *.
  assert (Elim : h + divHBLKSZ sz * HBLKSIZE = h + sz).
  { rewrite divHBLKSZ_div, HBLKSIZE_eq. clear -H2. dlia. }
  rewrite Elim. cbn zeta.
  match goal with |- context [loop _ (h, HDRs s h, ?x)] => set (hp1 := x) end.
  assert (Ef1 : fls hp1 = s1) by done. assert (Eh1 : HDRs (fls hp1) h = HDRs s h) by (rewrite Ef1; apply F1).
  destruct (drop_loop_spec hp hp1 L' (h + sz) h s h) as (hp' & E & R1 & R2 & R3 & R4 & R5 & R6 & R7).
  - rewrite Ef1. replace (h + sz - h) with sz by lia. exact CV.
  - done.
  - rewrite Ef1. intros k Hk Hkf. split; [split; [apply Hk|rewrite (tf_HDR _ _ F1); apply Hk]|apply HB1].
  - intros k Hk Hkf. destruct (Z.lt_total k h) as [?|[->|Hlt]]; [by left|congruence|right].
    pose proof (tiled_disjoint _ _ h k (ho_tiled _ _ K) Hs Hk Hlt) as Hd. unfold extent in Hd. rewrite Hf in Hd. exact Hd.
  - lia.
  - by split.
  - rewrite <- Eh1. cbn zeta in E. rewrite E. exists hp'. split; [done|]. cbn zeta.
    split; [done|]. split; [done|]. split; [done|]. split; [done|]. split; [done|].
    split; [by rewrite R6, Ef1, EB1|by rewrite R7].
Qed.

(** A range of [need] bytes at [last] inside the listed block [h]. *)
Definition fits s L (i need a h last : Z) : Prop :=
  h ∈ L i /\ h <= last /\ last mod 4096 = 0 /\ last mod (a + 1) = 0 /\ last + need <= h + hb_sz (hdrb s h).

(** The range is not black-listed, or the request need not care, or it is so large
    that the source gives up looking. *)
Definition bl_policy (bl : bl_state) (sz kind flags need last : Z) : Prop :=
  IS_UNCOLLECTABLE kind = true \/ (kind = PTRFREE /\ need <= MAX_BLACK_LIST_ALLOC)
  \/ GC_is_black_listed bl last (if flag_set flags IGNORE_OFF_PAGE then HBLKSIZE else need) = Some NULL
  \/ (GC_black_list_spacing bl < need /\ GC_black_list_spacing bl < sz - need).

(** Where the scan of list [i] is: at the head of [l2], with [n] blocks to go. *)
Definition scan_at hp L (i : Z) (n : nat) (st : Z * heap T) : Prop :=
  exists L' l1 l2, search_inv hp L st.2 L' /\ L' i = l1 ++ l2 /\ st.1 = hd NULL l2 /\ n = length l2.

(** The result: nothing, or a range that fits. *)
Definition found hp L (need kind flags i a : Z) (r : Z * Z * heap T) : Prop :=
  let '(h, last, hp') := r in
  exists L', search_inv hp L hp' L'
    /\ (h = NULL \/ (fits (fls hp') L' i need a h last
                     /\ bl_policy (bls hp) (hb_sz (hdrb (fls hp') h)) kind flags need last)).

Lemma fits_better_total hp (v avail need a : Z) :
  0 <= need -> exists b, next_hblk_fits_better hp v avail need a = Some b.
Proof.
  intros Hn. unfold next_hblk_fits_better. destruct (_ =? NULL); [eauto|].
  destruct (_ <=? _); [eauto|]. destruct (_ <? _); [eauto|]. rewrite is_black_listed_eq by done. cbn. eauto.
Qed.

(** A request the search is given: whole pages and an alignment, far from the end
    of the address space. *)
Definition request_ok (need a : Z) : Prop :=
  align_ok a /\ 0 < need /\ need mod 4096 = 0 /\ need + a < 2 ^ 63.

Lemma scan_next hp L (i : Z) (hq hq' : heap T) L' (l1 l2 : list Z) (h : Z) :
  search_inv hp L hq' L' -> L' i = l1 ++ h :: l2 -> fls hq' = fls hq ->
  exists n', (n' < length (h :: l2))%nat /\ scan_at hp L i n' (hb_next (hdrb (fls hq) h), hq').
Proof.
  intros SI EL E. exists (length l2). split; [cbn; lia|]. exists L', (l1 ++ [h]), l2. split; [done|].
  split; [by rewrite <- app_assoc|]. split; [|done]. cbn.
  pose proof (fo_chain _ _ (ho_fl _ _ (si_ok _ _ _ _ SI)) i) as Hc. rewrite EL in Hc.
  rewrite <- E. by destruct (fl_chain_mid _ NULL h l1 l2 Hc).
Qed.

(** After a drop the scan goes on with the block that followed. *)
Lemma scan_drop hp L (i need kind : Z) (hq : heap T) L' (l1 l2 : list Z) (h : Z) :
  search_inv hp L hq L' -> L' i = l1 ++ h :: l2 ->
  let prev := hb_prev (hdrb (fls hq) h) in
  exists hq', drop_hblk_in_chunks i h (HDRs (fls hq) h) hq = Some hq'
    /\ exists n', (n' < length (h :: l2))%nat
       /\ scan_at hp L i n' (if prev =? NULL then aget (GC_hblkfreelist (fls hq')) i
                             else hb_next (hdrb (fls hq') prev), hq').
Proof.
  intros [K A Hom KU Eb Ep (d & Hd & Ed1 & Ed2)] EL prev. set (s := fls hq) in *.
  destruct (drop_spec hq L' i h l1 l2 K A EL Hom) as (hq' & E & R1 & R2 & R3 & R4 & [R5 R5'] & R6 & R7).
  fold s in E, R4, R6, R7. exists hq'. split; [done|]. exists (length l2). split; [cbn; lia|].
  set (L2 := upd_list i (l1 ++ l2) L') in *.
  assert (EL2 : L2 i = l1 ++ l2) by (unfold L2, upd_list; by rewrite decide_True).
  assert (Hh : h ∈ L' i) by (rewrite EL; apply elem_of_app; right; by left).
  destruct (ti_extent _ _ (ho_tiled _ _ K) h (listed_start s L' i h (ho_fl _ _ K) Hh)) as (_ & Hx & _).
  unfold extent in Hx. rewrite (fo_free _ _ (ho_fl _ _ K) i h Hh) in Hx.
  exists L2, l1, l2. split; [|split; [done|split; [|done]]].
  - split; try done; [by eapply in_use_kept_trans|cbn; congruence|cbn; congruence|].
    exists (d + hb_sz (hdrb s h)). split; [lia|]. cbn. rewrite R7, Ed1, wrap64_sub_l. split; [f_equal; lia|lia].
  - cbn. pose proof (fo_chain _ _ (ho_fl _ _ K) i) as Hc. rewrite EL in Hc.
    destruct (fl_chain_mid s NULL h l1 l2 Hc) as [Epv _]. unfold prev. rewrite Epv.
    assert (Hl1 : forall q, q ∈ l1 -> q ∈ L' i) by (intros q Hq; rewrite EL; apply elem_of_app; by left).
    assert (Hlp := last_nonnull s L' i l1 (ho_fl _ _ K) Hl1).
    destruct (Z.eqb_spec (List.last l1 NULL) NULL) as [E0|E0].
    + rewrite (fo_head _ _ (ho_fl _ _ R1) i). fold L2. rewrite EL2. destruct l1 as [|a l1]; [done|]. by apply Hlp in E0.
    + assert (l1 <> []) as Hne by (by apply Hlp).
      destruct (exists_last Hne) as (l0 & x & El). rewrite El in EL2 |- *. rewrite List.last_last.
      pose proof (fo_chain _ _ (ho_fl _ _ R1) i) as Hc2. rewrite EL2, <- app_assoc in Hc2. cbn in Hc2.
      by destruct (fl_chain_mid _ NULL x l0 l2 Hc2) as [_ ->].
Qed.

Lemma scan_step hp L (need kind flags i may a : Z) (n : nat) (st : Z * heap T) :
  request_ok need a -> scan_at hp L i n st ->
  match nth_search_body need kind flags i may a st with
  | inl st' => exists n', (n' < n)%nat /\ scan_at hp L i n' st'
  | inr r => exists x, r = Some x /\ found hp L need kind flags i a x
  end.
Proof.
  intros (Ha & Hn0 & Hnm & Hna). destruct st as [hbp hq]. intros (L' & l1 & l2 & SI & EL & Eh & ->).
  cbn in SI, Eh. unfold nth_search_body. destruct l2 as [|h l2]; cbn in Eh; subst hbp.
  { eexists. split; [done|]. exists L'. split; [done|by left]. }
  destruct SI as [K A Hom KU Ebl Epr HD]. set (s := fls hq) in *.
  assert (SI : search_inv hp L hq L') by done. clear HD.
  assert (Hh : h ∈ L' i) by (rewrite EL; apply elem_of_app; right; by left).
  assert (Hs := listed_start s L' i h (ho_fl _ _ K) Hh). assert (Hf := fo_free _ _ (ho_fl _ _ K) i h Hh).
  destruct (ti_extent _ _ (ho_tiled _ _ K) h Hs) as (H0 & H1 & H2 & H3). unfold extent in H1, H2, H3. rewrite Hf in H1, H2, H3.
  assert (Hal : h mod 4096 = 0) by apply Hs.
  rewrite (proj2 (Z.eqb_neq h NULL)) by lia.
  change (hptr hq h) with (HDRs s h). change (hread hq (HDRs s h)) with (hdrb s h).
  set (sz := hb_sz (hdrb s h)) in *. cbn zeta.
  assert (Cont : exists n', (n' < length (h :: l2))%nat /\ scan_at hp L i n' (hb_next (hdrb s h), hq))
    by (by apply (scan_next hp L i hq hq L' l1)).
  destruct ((may =? 0) && negb (sz =? need)); [exact Cont|].
  destruct (align_up_spec h a Ha Hal) as (U1 & U2 & U3 & U4 & _). rewrite U4.
  assert (Eofs : ALIGN_PAD_SZ h a = align_up h a - h) by (rewrite ALIGN_PAD_SZ_eq by done; unfold align_up; lia).
  destruct (align_ok_dvd a Ha) as [Hap _].
  assert (Hofs : 0 <= ALIGN_PAD_SZ h a <= a).
  { rewrite ALIGN_PAD_SZ_eq by done. pose proof (Z.mod_pos_bound (- h) (a + 1) ltac:(lia)). lia. }
  assert (Ew : wrap64 (need + ALIGN_PAD_SZ h a) = need + ALIGN_PAD_SZ h a).
  { unfold wrap64, W64. apply Z.mod_small. lia. }
  rewrite Ew. destruct (Z.ltb_spec sz (need + ALIGN_PAD_SZ h a)) as [Hlt|Hge]; [exact Cont|].
  assert (Hfit : align_up h a + need <= h + sz) by lia.
  assert (Efb : exists b, (if negb (sz =? need) then next_hblk_fits_better hq (HDRs s h) sz need a else Some false) = Some b).
  { destruct (sz =? need); cbn [negb]; [eauto|]. apply fits_better_total. lia. }
  destruct Efb as (b & ->). destruct b; [exact Cont|].
  assert (Hfirst : fits s L' i need a h (align_up h a)) by (by split_and!).
  destruct (IS_UNCOLLECTABLE kind || (kind =? PTRFREE) && (need <=? MAX_BLACK_LIST_ALLOC)) eqn:Eex.
  { eexists. split; [done|]. exists L'. split; [done|]. right. split; [done|].
    apply orb_true_iff in Eex as [Eex|Eex]; [by left|right; left].
    apply andb_true_iff in Eex as [E1 E2]. apply Z.eqb_eq in E1. apply Z.leb_le in E2. done. }
  set (eff := if flag_set flags IGNORE_OFF_PAGE then HBLKSIZE else need).
  destruct (find_non_bl_spec (bls hq) h (sz - need) eff a Ha Hal H0) as (last & -> & Hlast).
  { lia. } { unfold eff. destruct (flag_set _ _); [done|lia]. } { lia. }
  destruct (Z.eqb_spec last NULL) as [->|Hl0]; cbn [negb].
  - match goal with |- context [set_drop_count ?c hq] => set (cnt := c) end.
    match goal with |- context [if ?c then set_drop_count cnt hq else hq] => set (dr := c) end.
    set (hq1 := if dr then set_drop_count cnt hq else hq).
    assert (SI1 : search_inv hp L hq1 L') by (unfold hq1; destruct dr; [by apply (search_inv_set hp L hq)|done]).
    assert (Ef1 : fls hq1 = s) by (unfold hq1; by destruct dr).
    assert (Eb1 : bls hq1 = bls hq) by (unfold hq1; by destruct dr).
    change (hread hq1 (HDRs s h)) with (hdr_at (fls hq1) (HDRs s h)). rewrite Ef1.
    change (hdr_at s (HDRs s h)) with (hdrb s h).
    destruct (dr && (Z.land cnt 3 =? 0)).
    + destruct (scan_drop hp L i need kind hq1 L' l1 l2 h SI1 EL) as (hq2 & Ed & Hsc). rewrite Ef1 in Ed, Hsc.
      rewrite Ed. change (hread hq2 (hptr hq2 (hb_prev (hdrb s h)))) with (hdrb (fls hq2) (hb_prev (hdrb s h))).
      destruct (hb_prev (hdrb s h) =? NULL); exact Hsc.
    + rewrite Eb1. destruct ((GC_black_list_spacing (bls hq) <? need) && (GC_black_list_spacing (bls hq) <? sz - need)) eqn:Ep.
      * eexists. split; [done|]. exists L'.
        match goal with |- search_inv _ _ ?x _ /\ _ => set (hq2 := x) end.
        assert (Ef2 : fls hq2 = s) by (unfold hq2; exact Ef1).
        split; [by apply (search_inv_set hp L hq1)|]. right. rewrite Ef2. split; [done|].
        right. right. right. apply andb_true_iff in Ep as [E1 E2]. apply Z.ltb_lt in E1. apply Z.ltb_lt in E2.
        rewrite Ebl in E1, E2. done.
      * rewrite <- Ef1. apply (scan_next hp L i hq1 hq1 L' l1); done.
  - destruct Hlast as [[? _]|(HL1 & HL2 & HL3 & HL4)]; [done|].
    destruct (_ && _ && negb _); [exact Cont|].
    eexists. split; [done|]. exists L'. split; [done|]. right. split.
    + split; [done|]. split; [lia|]. split; [done|]. split; [done|]. fold s sz. lia.
    + right. right. left. rewrite <- Ebl. exact HL4.
Qed.

(** The search of a list terminates, and what it finds fits. *)
Lemma nth_search_spec hp L (need kind flags i may a : Z) :
  request_ok need a -> heap_ok (fls hp) L -> all_listed (fls hp) L -> obj_map_ok (obj_map hp) ->
  0 <= GC_large_free_bytes hp < W64 ->
  exists x, nth_search need kind flags i may a hp = Some x /\ found hp L need kind flags i a x.
Proof.
  intros Hr K A Hom Hlf. unfold nth_search.
  destruct (loop_spec_rel (scan_at hp L i) (fun r => exists x, r = Some x /\ found hp L need kind flags i a x)
    (nth_search_body need kind flags i may a) (length (L i)) (aget (GC_hblkfreelist (fls hp)) i, hp))
    as (r & -> & x & -> & Hx).
  - intros n st. by apply scan_step.
  - exists L, [], (L i). split; [|split; [done|split; [apply K|done]]]. split; try done.
    exists 0. split; [done|]. cbn. rewrite !Z.sub_0_r. split; [|done]. unfold wrap64. by rewrite Z.mod_small.
  - eapply fl_length. apply K.
  - exists x. split; [done|]. exact Hx.
Qed.

End Search.

End AllchblkSearch.
