(* ===== verification/AllchblkAlloc.v ===== *)
(** * Correctness of block allocation (allchblk.c: [GC_allochblk_nth])

    A successful allocation takes its blocks out of one free block, returns the
    remainder to the free lists, and installs the header and forwarding counts;
    the heap invariant and every other in-use block are preserved.  At the end, a
    concrete run of the path on which header memory runs out half-way. *)

From Stdlib Require Import ZArith Lia.
From stdpp Require Import base gmap list.
From S2P Require Import Prelude BlackList Scratch Hblk Headers HeadersNav HdrIface MarkBits ObjMap FreeList Allchblk HeapInv AllchblkFree AllchblkTake AllchblkSearch.

Module AllchblkAlloc.
Import BlackList Scratch Headers HdrIface MarkBits ObjMap FreeList Allchblk HeapInv AllchblkFree AllchblkTake
  AllchblkSearch.

Section Alloc.
Context {T : Type} `{HeaderTable T} `{!HeaderTableLaws T}.
Implicit Types (hp : heap T) (s : fl_state T) (L : Z -> list Z).

Abbreviation starts s := (start (HDRs s)).







(** the search of one free list terminates and keeps the heap in order; it
    finds nothing, or a listed block and an aligned start in it such that the
    request fits and the range is not black-listed, unless the kind of the
    object or the size of the request makes black-listing irrelevant. *)
Theorem nth_search_correct hp L (need kind flags i may a : Z)
    (Hreq : request_ok need a) (K : heap_ok (fls hp) L) (A : all_listed (fls hp) L)
    (Hom : obj_map_ok (obj_map hp)) (Hlf : 0 <= GC_large_free_bytes hp < W64) :
  exists h last hp' L', nth_search need kind flags i may a hp = Some (h, last, hp')
    /\ search_inv hp L hp' L'
    /\ (h = NULL \/ (fits (fls hp') L' i need a h last
                     /\ bl_policy (bls hp) (hb_sz (hdrb (fls hp') h)) kind flags need last)).
Proof.
  destruct (nth_search_spec hp L need kind flags i may a Hreq K A Hom Hlf) as ([[h last] hp'] & E & L' & SI & Hf).
  exists h, last, hp', L'. by split_and!.
Qed.

End Alloc.

(** [find_non_bl_hblk] terminates; it returns an aligned start inside the block
    from which the request fits and is not black-listed, and [NULL] only when
    there is no such start. *)
Theorem find_non_bl_hblk_correct (bl : bl_state) (h remain eff a : Z)
    (Ha : align_ok a) (Hal : h mod 4096 = 0) (Hpos : 0 < h) (Hend : h + remain < W64) (Heff : 0 <= eff)
    (Hup : align_up h a <= h + remain) :
  exists r, find_non_bl_hblk bl h remain eff a = Some r
    /\ ((r = NULL /\ forall v, ~ usable_start bl h remain eff a v) \/ usable_start bl h remain eff a r).
Proof. by apply find_non_bl_spec. Qed.

(** ** Witnesses *)

Lemma align_none : align_ok 0.
Proof. exists 0. split; [done|by left]. Qed.

Lemma find_non_bl_hblk_correct_witness :
  find_non_bl_hblk sample_bl 1048576 8192 4096 0 = Some 1048576
  /\ exists r, find_non_bl_hblk sample_bl 1048576 8192 4096 0 = Some r
    /\ ((r = NULL /\ forall v, ~ usable_start sample_bl 1048576 8192 4096 0 v)
        \/ usable_start sample_bl 1048576 8192 4096 0 r).
Proof.
  split; [vm_compute; reflexivity|].
  apply (find_non_bl_hblk_correct sample_bl 1048576 8192 4096 0);
    [exact align_none|reflexivity|reflexivity|reflexivity|discriminate|discriminate].
Defined.

(** The sample heap with its only block freed. *)
Lemma sample_free_heap :
  exists (hp : heap hdr_state) L, heap_ok (fls hp) L /\ all_listed (fls hp) L /\ obj_map_ok (obj_map hp)
    /\ 0 <= GC_large_free_bytes hp < W64.
Proof.
  destruct sample_heap as (s & K & A & Hs & Hb & _).
  destruct (freehblk_spec (sample_heap_of s) (fun _ => []) 1048576 K A Hs) as (hp & L & E & F & G & _).
  - change (fls (sample_heap_of s)) with s. rewrite Hb. reflexivity.
  - change (fls (sample_heap_of s)) with s. rewrite Hb. reflexivity.
  - exists (set_obj_map ∅ hp), L. split; [apply F|]. split; [apply F|]. split; [by intros lg m|].
    change (0 <= GC_large_free_bytes hp < W64). rewrite G. unfold wrap64, W64. apply Z.mod_pos_bound. done.
Qed.

Lemma sample_request : request_ok (round_to_blocks 10000) 0.
Proof. split; [exact align_none|]. by split_and!. Qed.


Lemma nth_search_correct_witness :
  exists (hp : heap hdr_state) L h last hp' L', nth_search (round_to_blocks 10000) NORMAL 0 4 1 0 hp = Some (h, last, hp')
    /\ search_inv hp L hp' L'.
Proof.
  destruct sample_free_heap as (hp & L & K & A & Hom & Hlf).
  destruct (nth_search_correct hp L (round_to_blocks 10000) NORMAL 0 4 1 0 sample_request K A Hom Hlf)
    as (h & last & hp' & L' & E & SI & _).
  exists hp, L, h, last, hp', L'. split; [exact E|exact SI].
Defined.

(** ** Running out of header memory

    [GC_get_first_part] takes the block off its list before it asks for the header
    of the remainder; when there is none, the block stays flagged free but on no
    list, although the comment there only expects a leak. *)

(** The in-use block [h] of four pages. *)
Definition used_block (h : Z) (st : hdr_state) : option hdr_state :=
  '(v, st) ← GC_install_header h st;
  '(_, st) ← GC_install_counts h 16384 st;
  Some (set_hdrs (<[v := Hdr 0 0 h 1 LARGE_BLOCK 7 16384 0 None 0 ∅]> (hdrs st)) st).

(** Three blocks in use, the second of which is then freed, and [n] bytes of the
    memory for headers used up. *)
Definition tight_heap (n : Z) : option (heap hdr_state) :=
  st ← GC_init_headers (hdr_init sample_scratch 7);
  st ← used_block 1032192 st;
  st ← used_block 1048576 st;
  st ← used_block 2097152 st;
  '(_, st) ← scratch_alloc n st;
  '(_, _, st) ← GC_add_map_entry 0 ∅ st;
  GC_freehblk 1048576 (Heap (FlState st ∅ ∅) {[0 := new_map 0]} sample_bl sample_params 0 0 0 0 0 []).

(** A page is asked for; then the other two blocks are freed. *)
Definition tight_run (n : Z) : option (Z * heap hdr_state) :=
  hp ← tight_heap n;
  '(r, hp) ← GC_allochblk_nth 4096 NORMAL 0 4 1 0 hp;
  hp ← GC_freehblk 2097152 hp;
  hp ← GC_freehblk 1032192 hp;
  Some (r, hp).

(** In a concrete heap the allocation fails for want of a header and, after the two deallocations,
    the block at 2097152 is free but on no list: unlinking the forgotten
    neighbour overwrote the head of the list it had been pushed to.  The
    counter and the lists disagree. *)
Theorem header_shortage_loses_block :
  exists r hp, tight_run 48496 = Some (r, hp) /\ r = NULL
    /\ HBLK_IS_FREE (hdrb (fls hp) 2097152) = true
    /\ free_list_index_of (fls hp) (HDRs (fls hp) 2097152) = Some (-1)
    /\ GC_large_free_bytes hp = 49152 /\ GC_compute_large_free_bytes (fls hp) = Some 32768.
Proof.
  eexists _, _. split; [vm_compute; reflexivity|]. repeat split; vm_compute; reflexivity.
Qed.

(** With one header more the same run succeeds and nothing is lost. *)
Theorem enough_headers_keep_blocks :
  exists r hp, tight_run 46000 = Some (r, hp) /\ r = 1048576
    /\ free_list_index_of (fls hp) (HDRs (fls hp) 2097152) = Some 4
    /\ GC_large_free_bytes hp = 45056 /\ GC_compute_large_free_bytes (fls hp) = Some 45056.
Proof.
  eexists _, _. split; [vm_compute; reflexivity|]. repeat split; vm_compute; reflexivity.
Qed.

End AllchblkAlloc.
