(* ===== verification/Reclaim.v ===== *)
(** * Sweeping the heap (reclaim.c)

    After a collection [GC_reclaim_block] looks at each block in use: an unmarked
    large object and a block without marks go back to the block allocator, a
    sparse block is queued on the reclaim list of its kind and object size, a
    nearly full one is left alone.  Queued blocks are swept when objects of the
    size are wanted ([GC_continue_reclaim]) or all at once ([GC_reclaim_all]).  In
    leak-detection mode nothing is reclaimed and unmarked objects are reported.

    The model is the build without parallel marking and with [ENABLE_DISCLAIM].
    [GC_remove_protection] of os_dep.c, which makes the block writable for the
    virtual-dirty-bit machinery, has no effect on this state. *)

From Stdlib Require Import ZArith Lia.
From stdpp Require Import base gmap list.
From S2P Require Import Prelude BlackList Scratch Hblk Headers HeadersNav HdrIface MarkBits ObjMap NewHblk Sweep FreeList Allchblk.

Module Reclaim.
Import Headers MarkBits NewHblk Sweep FreeList Allchblk.

(** The fields of [struct obj_kind] that [Allchblk.obj_kind] does not have;
    [ok_lists] tells that [ok_reclaim_list] is not [NULL]. *)
Record sweep_kind := SweepKind {
  ok_init : bool;
  ok_eager_sweep : bool;
  ok_lists : bool;
  ok_disclaim : Z -> mem -> bool * mem
}.

Record sweep_params := SweepParams {
  GC_n_kinds : Z;
  sweep_kinds : Z -> sweep_kind;
  GC_debugging_started : bool;
  GC_findleak_delay_free : bool
}.

(** List heads are indexed by kind and size in granules. *)
Notation heads := (gmap (Z * Z) Z).
Definition head_of (l : heads) (kind lg : Z) : Z := default NULL (l !! (kind, lg)).

Record gc (T : Type) := Gc {
  hp : heap T;
  mm : mem;
  ok_freelist : heads;
  ok_reclaim_list : heads;
  GC_bytes_found : Z;              (* as an unsigned word *)
  GC_large_allocd : Z;             (* [GC_large_allocd_bytes] *)
  GC_composite_in_use : Z;
  GC_atomic_in_use : Z;
  GC_leaked : list Z;
  GC_smashed : gmap Z Z;
  GC_n_smashed : Z;
  GC_have_errors : bool;
  swp : sweep_params
}.
Arguments Gc {T}.
Arguments hp {T}.
Arguments mm {T}.
Arguments ok_freelist {T}.
Arguments ok_reclaim_list {T}.
Arguments GC_bytes_found {T}.
Arguments GC_large_allocd {T}.
Arguments GC_composite_in_use {T}.
Arguments GC_atomic_in_use {T}.
Arguments GC_leaked {T}.
Arguments GC_smashed {T}.
Arguments GC_n_smashed {T}.
Arguments GC_have_errors {T}.
Arguments swp {T}.

Definition MAX_LEAKED : nat := 40.
Definition MAX_SMASHED : Z := 20.

(** The debug header [oh]: string, integer, size and start flag. *)
Definition sizeof_oh : Z := 32.
Definition GC_FREED_MEM_MARKER : Z := 0xEFBEADDEdeadbeef.
Definition START_FLAG : Z := 0xFEDCEDCBfedcedcb.
Definition END_FLAG : Z := 0xBCDECDEFbcdecdef.
Definition UNCOLLECTABLE_DEBUG_BYTES : Z := sizeof_oh + PTRSZ.

Definition mread (m : mem) (a : Z) : Z := default 0 (m !! a).

(** A [for] loop over [ks] that may be left early ([false]). *)
Fixpoint run_list {A : Type} (f : Z -> A -> option (bool * A)) (ks : list Z) (a : A) : option (bool * A) :=
  match ks with
  | [] => Some (true, a)
  | k :: ks => '(go, a) ← f k a; if (go : bool) then run_list f ks a else Some (false, a)
  end.

Section Reclaim.
Context {T : Type} `{HeaderTable T}.
Implicit Types (g : gc T).

Definition set_hp (h : heap T) g : gc T :=
  Gc h (mm g) (ok_freelist g) (ok_reclaim_list g) (GC_bytes_found g) (GC_large_allocd g)
    (GC_composite_in_use g) (GC_atomic_in_use g) (GC_leaked g) (GC_smashed g) (GC_n_smashed g) (GC_have_errors g) (swp g).
Definition set_mm (m : mem) g : gc T :=
  Gc (hp g) m (ok_freelist g) (ok_reclaim_list g) (GC_bytes_found g) (GC_large_allocd g)
    (GC_composite_in_use g) (GC_atomic_in_use g) (GC_leaked g) (GC_smashed g) (GC_n_smashed g) (GC_have_errors g) (swp g).
Definition set_freelist (kind lg v : Z) g : gc T :=
  Gc (hp g) (mm g) (<[(kind, lg) := v]> (ok_freelist g)) (ok_reclaim_list g) (GC_bytes_found g) (GC_large_allocd g)
    (GC_composite_in_use g) (GC_atomic_in_use g) (GC_leaked g) (GC_smashed g) (GC_n_smashed g) (GC_have_errors g) (swp g).
Definition set_reclaim_list (kind lg v : Z) g : gc T :=
  Gc (hp g) (mm g) (ok_freelist g) (<[(kind, lg) := v]> (ok_reclaim_list g)) (GC_bytes_found g) (GC_large_allocd g)
    (GC_composite_in_use g) (GC_atomic_in_use g) (GC_leaked g) (GC_smashed g) (GC_n_smashed g) (GC_have_errors g) (swp g).
Definition set_found (n : Z) g : gc T :=
  Gc (hp g) (mm g) (ok_freelist g) (ok_reclaim_list g) n (GC_large_allocd g)
    (GC_composite_in_use g) (GC_atomic_in_use g) (GC_leaked g) (GC_smashed g) (GC_n_smashed g) (GC_have_errors g) (swp g).
Definition set_large_allocd (n : Z) g : gc T :=
  Gc (hp g) (mm g) (ok_freelist g) (ok_reclaim_list g) (GC_bytes_found g) n
    (GC_composite_in_use g) (GC_atomic_in_use g) (GC_leaked g) (GC_smashed g) (GC_n_smashed g) (GC_have_errors g) (swp g).
Definition set_in_use (c a : Z) g : gc T :=
  Gc (hp g) (mm g) (ok_freelist g) (ok_reclaim_list g) (GC_bytes_found g) (GC_large_allocd g)
    c a (GC_leaked g) (GC_smashed g) (GC_n_smashed g) (GC_have_errors g) (swp g).
Definition set_leaked (lk : list Z) (e : bool) g : gc T :=
  Gc (hp g) (mm g) (ok_freelist g) (ok_reclaim_list g) (GC_bytes_found g) (GC_large_allocd g)
    (GC_composite_in_use g) (GC_atomic_in_use g) lk (GC_smashed g) (GC_n_smashed g) e (swp g).
Definition set_smashed (sm : gmap Z Z) (n : Z) (e : bool) g : gc T :=
  Gc (hp g) (mm g) (ok_freelist g) (ok_reclaim_list g) (GC_bytes_found g) (GC_large_allocd g)
    (GC_composite_in_use g) (GC_atomic_in_use g) (GC_leaked g) sm n e (swp g).

(** [HDR(h)], the header there, and a write to it. *)
Definition ghdr g (h : Z) : hdr := hread (hp g) (hptr (hp g) h).
Definition gwrite (h : Z) (x : hdr) g : gc T := set_hp (hwrite (hptr (hp g) h) (fun _ => x) (hp g)) g.
Definition kind_of g (h : Z) : sweep_kind := sweep_kinds (swp g) (hb_obj_kind (ghdr g h)).

(** ** Leaks and smashed objects *)

Definition GC_size g (p : Z) : Z := if p =? NULL then 0 else hb_sz (ghdr g p).

Definition GC_add_smashed (smashed : Z) g : gc T :=
  set_smashed (<[GC_n_smashed g := smashed]> (GC_smashed g))
    (if GC_n_smashed g <? MAX_SMASHED - 1 then GC_n_smashed g + 1 else GC_n_smashed g) true g.

(** What [GC_print_all_smashed_proc] reports, one line for each address; it
    clears the entries it has reported. *)
Definition GC_print_all_smashed_proc g : list Z * gc T :=
  let reported := (fun i => aget (GC_smashed g) i) <$> seqZ 0 (GC_n_smashed g) in
  (reported, if GC_n_smashed g =? 0 then g
             else set_smashed (foldr (fun i a => <[i := NULL]> a) (GC_smashed g) (seqZ 0 (GC_n_smashed g))) 0
                    (GC_have_errors g) g).

Definition GC_has_other_debug_info g (base : Z) : Z :=
  let body := base + sizeof_oh in
  let sz := GC_size g base in
  if negb (HBLKPTR base =? HBLKPTR body) || (sz <? UNCOLLECTABLE_DEBUG_BYTES) then 0
  else if negb (mread (mm g) (base + 24) =? Z.lxor START_FLAG body)
          && negb (mread (mm g) (base + PTRSZ * (sz / PTRSZ - 1)) =? Z.lxor END_FLAG body) then 0
  else if mread (mm g) (base + 16) =? sz then -1
  else 1.

(** The first word of a freed object that has been written to, among [n] words
    from [p]. *)
Fixpoint first_altered (m : mem) (n : nat) (p : Z) : option Z :=
  match n with
  | O => None
  | S n => if negb (mread m p =? GC_FREED_MEM_MARKER) then Some p else first_altered m n (p + PTRSZ)
  end.

Definition mark_object (p : Z) g : gc T := gwrite p (GC_set_mark_bit p (ghdr g p)) g.

Definition GC_check_leaked (base : Z) g : bool * gc T :=
  if 0 <=? GC_has_other_debug_info g base then (true, g)
  else
    let p := base + sizeof_oh in
    let lpw := Z.to_nat ((hb_sz (ghdr g base) - sizeof_oh) / PTRSZ) in
    match first_altered (mm g) lpw p with
    | Some a => (false, GC_add_smashed a (mark_object base g))
    | None => (false, g)
    end.

Definition GC_add_leaked (leaked : Z) g : gc T :=
  let '(report, g) := if GC_findleak_delay_free (swp g) then GC_check_leaked leaked g else (true, g) in
  if negb report then g
  else
    let g := set_leaked (GC_leaked g) true g in
    if (length (GC_leaked g) <? MAX_LEAKED)%nat then
      mark_object leaked (set_leaked (GC_leaked g ++ [leaked]) true g)
    else g.

Definition reclaim_check_body (hbp sz plim : Z) (s : Z * Z * gc T) : (Z * Z * gc T) + gc T :=
  let '(bit_no, p, g) := s in
  if p <=? plim then
    inl (bit_no + MARK_BIT_OFFSET sz, p + sz,
         if negb (mark_bit_from_hdr (ghdr g hbp) bit_no) then GC_add_leaked p g else g)
  else inr g.

Definition GC_reclaim_check (hbp sz : Z) g : option (gc T) :=
  loop (reclaim_check_body hbp sz (hbp + HBLKSIZE - sz)) (0, hbp, g).

(** ** Sweeping queued blocks *)

(** The call of [GC_reclaim_generic] on a block, with the header written back. *)
Definition reclaim_generic_at (hbp sz : Z) g : option (Z * gc T) :=
  let x := ghdr g hbp in
  let ok := kind_of g hbp in
  '(l, x, found, m) ←
    GC_reclaim_generic (ok_disclaim ok) (GC_debugging_started (swp g)) hbp x sz (ok_init ok)
      (head_of (ok_freelist g) (hb_obj_kind x) (BYTES_TO_GRANULES sz)) (GC_bytes_found g) (mm g);
  Some (l, set_found found (set_mm m (gwrite hbp x g))).

Definition GC_reclaim_small_nonempty_block (hbp sz : Z) (report_if_found : bool) g : option (gc T) :=
  let g := gwrite hbp (set_hb_last_reclaimed (GC_gc_no (prm (hp g)) mod 65536) (ghdr g hbp)) g in
  if report_if_found then GC_reclaim_check hbp sz g
  else
    '(l, g) ← reclaim_generic_at hbp sz g;
    Some (set_freelist (hb_obj_kind (ghdr g hbp)) (BYTES_TO_GRANULES sz) l g).

Definition GC_disclaim_and_reclaim_or_free_small_block (hbp : Z) g : option (gc T) :=
  let sz := hb_sz (ghdr g hbp) in
  let g := gwrite hbp (set_hb_last_reclaimed (GC_gc_no (prm (hp g)) mod 65536) (ghdr g hbp)) g in
  '(flh_next, g) ← reclaim_generic_at hbp sz g;
  if negb (hb_n_marks (ghdr g hbp) =? 0) then
    Some (set_freelist (hb_obj_kind (ghdr g hbp)) (BYTES_TO_GRANULES sz) flh_next g)
  else
    let g := set_found (wrap64 (GC_bytes_found g + HBLKSIZE)) g in
    h ← GC_freehblk hbp (hp g); Some (set_hp h g).

(** ** The decision about one block *)

Definition IS_PTRFREE_SAFE (x : hdr) : bool := hb_descr x =? 0.

(** [GC_atomic_in_use += n] or [GC_composite_in_use += n]. *)
Definition add_in_use (x : hdr) (n : Z) g : gc T :=
  if IS_PTRFREE_SAFE x then set_in_use (GC_composite_in_use g) (wrap64 (GC_atomic_in_use g + n)) g
  else set_in_use (wrap64 (GC_composite_in_use g + n)) (GC_atomic_in_use g) g.

Definition reclaim_large (hbp : Z) (report_if_found : bool) g : option (gc T) :=
  let x := ghdr g hbp in
  let sz := hb_sz x in
  if negb (mark_bit_from_hdr x 0) then
    if report_if_found then Some (GC_add_leaked hbp g)
    else
      let '(keep, m) := if flag_set (hb_flags x) HAS_DISCLAIM then ok_disclaim (kind_of g hbp) hbp (mm g)
                        else (false, mm g) in
      let g := set_mm m g in
      if keep then
        let x := set_mark_bit_from_hdr 0 x in
        Some (add_in_use x sz (gwrite hbp x g))
      else
        let g := if HBLKSIZE <? sz then set_large_allocd (wrap64 (GC_large_allocd g - HBLKSIZE * OBJ_SZ_TO_BLOCKS sz)) g
                 else g in
        let g := set_found (wrap64 (GC_bytes_found g + sz)) g in
        h ← GC_freehblk hbp (hp g); Some (set_hp h g)
  else Some (add_in_use x sz g).

Definition enqueue (hbp sz : Z) g : gc T :=
  let x := ghdr g hbp in
  let ok := kind_of g hbp in
  if GC_find_leak_inner (prm (hp g)) || negb (GC_block_nearly_full x sz) || ok_eager_sweep ok then
    if ok_lists ok then
      let lg := BYTES_TO_GRANULES sz in
      let g := gwrite hbp (set_hb_next (head_of (ok_reclaim_list g) (hb_obj_kind x) lg) x) g in
      set_reclaim_list (hb_obj_kind x) lg hbp g
    else g
  else g.

(** The final accounting reads the header through the pointer fetched at the
    start, also when the block has been freed meanwhile. *)
Definition reclaim_small (hbp : Z) (report_if_found : bool) g : option (gc T) :=
  let hhdr := hptr (hp g) hbp in
  let sz := hb_sz (ghdr g hbp) in
  let empty := GC_block_empty (ghdr g hbp) in
  g ← (if report_if_found then GC_reclaim_small_nonempty_block hbp sz true g
       else if empty then
         if flag_set (hb_flags (ghdr g hbp)) HAS_DISCLAIM then GC_disclaim_and_reclaim_or_free_small_block hbp g
         else
           let g := set_found (wrap64 (GC_bytes_found g + HBLKSIZE)) g in
           h ← GC_freehblk hbp (hp g); Some (set_hp h g)
       else Some (enqueue hbp sz g));
  let x := hread (hp g) hhdr in
  Some (add_in_use x (wrap64 (sz * hb_n_marks x)) g).

Definition GC_reclaim_block (hbp : Z) (report_if_found : bool) g : option (gc T) :=
  if MAXOBJBYTES <? hb_sz (ghdr g hbp) then reclaim_large hbp report_if_found g
  else reclaim_small hbp report_if_found g.

(** ** Sweeping the reclaim lists *)

Definition continue_body (lg kind : Z) g : gc T + option (gc T) :=
  let hbp := head_of (ok_reclaim_list g) kind lg in
  if hbp =? NULL then inr (Some g)
  else
    let x := ghdr g hbp in
    let g := set_reclaim_list kind lg (hb_next x) g in
    match GC_reclaim_small_nonempty_block hbp (hb_sz x) false g with
    | None => inr None
    | Some g => if negb (head_of (ok_freelist g) kind lg =? NULL) then inr (Some g) else inl g
    end.

Definition GC_continue_reclaim (lg kind : Z) g : option (gc T) :=
  if ok_lists (sweep_kinds (swp g) kind) then mjoin (loop (continue_body lg kind) g) else Some g.

(** The answers of [stop_func], if there is one, to its first, second, ... call;
    the loops count the calls. *)
Notation stop_func := (option (nat -> bool)).

Definition asked_to_stop (stop : stop_func) (i : nat) : bool :=
  match stop with Some f => f i | None => false end.

(** Emptying one reclaim list; the flag tells to go on. *)
Definition drain_body (stop : stop_func) (ignore_old : bool) (kind lg : Z) (s : gc T * nat)
    : (gc T * nat) + option (bool * (gc T * nat)) :=
  let '(g, i) := s in
  let hbp := head_of (ok_reclaim_list g) kind lg in
  if hbp =? NULL then inr (Some (true, (g, i)))
  else if asked_to_stop stop i then inr (Some (false, (g, S i)))
  else
    let x := ghdr g hbp in
    let g := set_reclaim_list kind lg (hb_next x) g in
    if negb ignore_old || (hb_last_reclaimed x =? wrap64 (GC_gc_no (prm (hp g)) - 1)) then
      match GC_reclaim_small_nonempty_block hbp (hb_sz x) false g with
      | None => inr None
      | Some g => inl (g, S i)
      end
    else inl (g, S i).

Definition drain (stop : stop_func) (ignore_old : bool) (kind lg : Z) (s : gc T * nat) : option (bool * (gc T * nat)) :=
  mjoin (loop (drain_body stop ignore_old kind lg) s).

Definition GC_reclaim_all (stop : stop_func) (ignore_old : bool) g : option (bool * gc T) :=
  '(r, (g, _)) ←
    run_list (fun kind s =>
      if ok_lists (sweep_kinds (swp (fst s)) kind)
      then run_list (fun lg s => drain stop ignore_old kind lg s) (seqZ 1 MAXOBJGRANULES) s
      else Some (true, s)) (seqZ 0 (GC_n_kinds (swp g))) (g, 0%nat);
  Some (r, g).

Definition GC_reclaim_unconditionally_marked g : option (gc T) :=
  '(_, (g, _)) ←
    run_list (fun kind s =>
      let g := fst s in
      if ok_lists (sweep_kinds (swp g) kind)
         && (ok_mark_unconditionally (GC_obj_kinds (prm (hp g)) kind) || ok_eager_sweep (sweep_kinds (swp g) kind))
      then run_list (fun lg s => drain None false kind lg s) (seqZ 1 MAXOBJGRANULES) s
      else Some (true, s)) (seqZ 0 (GC_n_kinds (swp g))) (g, 0%nat);
  Some g.

(** ** Before a sweep *)

(** After the head is cleared, the walk stands at the link field [flp]. *)
Definition clear_links_body (s : Z * mem) : (Z * mem) + mem :=
  let '(flp, m) := s in
  let next := mread m flp in
  if negb (next =? NULL) then inl (next, <[flp := NULL]> m) else inr m.

Definition GC_clear_fl_links (kind lg : Z) g : option (gc T) :=
  let next := head_of (ok_freelist g) kind lg in
  if negb (next =? NULL) then
    let g := set_freelist kind lg NULL g in
    m ← loop clear_links_body (next, mm g); Some (set_mm m g)
  else Some g.

(** The free lists of one kind, then its reclaim lists. *)
Definition clear_lists_of (report_if_found : bool) (kind : Z) g : option (gc T) :=
  if negb (ok_lists (sweep_kinds (swp g) kind)) then Some g
  else
    let should_clobber := negb (ok_descriptor (GC_obj_kinds (prm (hp g)) kind) =? 0) in
    '(_, g) ← (if negb report_if_found then
            run_list (fun lg g =>
              if negb (head_of (ok_freelist g) kind lg =? NULL) then
                if should_clobber then g ← GC_clear_fl_links kind lg g; Some (true, g)
                else Some (true, set_freelist kind lg NULL g)
              else Some (true, g)) (seqZ 0 (MAXOBJGRANULES + 1)) g
          else Some (true, g));
    Some (foldr (fun lg g => set_reclaim_list kind lg NULL g) g (seqZ 0 (MAXOBJGRANULES + 1))).

(** [GC_start_reclaim] up to the walk over the blocks. *)
Definition start_reclaim_clear (report_if_found : bool) g : option (gc T) :=
  let g := set_in_use 0 0 g in
  '(_, g) ← run_list (fun kind g => g ← clear_lists_of report_if_found kind g; Some (true, g))
              (seqZ 0 (GC_n_kinds (swp g))) g;
  Some g.

End Reclaim.
End Reclaim.
