(* ===== verification/ReclaimOk.v ===== *)
(** * Correctness of sweeping (reclaim.c)

    What the sweeps of queued blocks do to memory, free lists, headers and
    counters.  A trace lists the blocks that have been swept, with their kinds and
    sizes; [swept_trace] says what a state owes to the sweep of a trace, and the
    loops over the reclaim lists are shown to sweep the right one. *)

From Stdlib Require Import ZArith Lia.
From stdpp Require Import base gmap list.
From S2P Require Import Prelude BlackList Scratch Hblk Headers HeadersNav HdrIface MarkBits ObjMap NewHblk Sweep FreeList Allchblk HeapInv AllchblkFree Reclaim.

Module ReclaimOk.
Import Headers HdrIface MarkBits NewHblk Sweep FreeList Allchblk Reclaim.

Section ReclaimOk.
Context {T : Type} `{HeaderTable T} `{!HeaderTableLaws T}.
Implicit Types (g : gc T).

Abbreviation tb g := (fls (hp g)).

(** A block that may be on the reclaim list of [kind] and [lg]. *)
Record sweepable g (kind lg b : Z) : Prop := {
  sb_hdr : has_hdr (tb g) b;
  sb_range : 0 < b < W64;
  sb_align : b mod 4096 = 0;
  sb_lg : 1 <= lg <= MAXOBJGRANULES;
  sb_kind : hb_obj_kind (ghdr g b) = kind;
  sb_sz : hb_sz (ghdr g b) = GRANULES_TO_BYTES lg;
  sb_disclaim : flag_set (hb_flags (ghdr g b)) HAS_DISCLAIM = false
}.

(** Headers that differ at most in what a sweep changes. *)
Definition same_block_hdr (x y : hdr) : Prop :=
  y = set_hb_last_reclaimed (hb_last_reclaimed y) (set_hb_marks (hb_n_marks y) (hb_marks y) x).

Lemma same_block_hdr_refl (x : hdr) : same_block_hdr x x.
Proof. by destruct x. Qed.

Lemma same_block_hdr_trans (x y z : hdr) : same_block_hdr x y -> same_block_hdr y z -> same_block_hdr x z.
Proof. unfold same_block_hdr. intros E1 E2. rewrite E2, E1. done. Qed.

(** The unmarked objects of a block, and whether the sweep clears them. *)
Definition objs_at g (lg b : Z) : list Z :=
  unmarked (ghdr g b) b (GRANULES_TO_BYTES lg) (n_objs (GRANULES_TO_BYTES lg)).
Definition clears g (kind : Z) : bool := ok_init (sweep_kinds (swp g) kind) || GC_debugging_started (swp g).

Lemma objs_at_block g (lg b o : Z) :
  1 <= lg <= MAXOBJGRANULES -> o ∈ objs_at g lg b -> b <= o /\ o + GRANULES_TO_BYTES lg <= b + 4096.
Proof.
  intros Hlg [_ (k & Hk & ->)%elem_of_objects]%list_elem_of_filter.
  destruct (n_objs_bounds lg Hlg) as (Hn & Hle & _). change HBLKSIZE with 4096 in Hle.
  assert (0 < GRANULES_TO_BYTES lg) by (unfold GRANULES_TO_BYTES, GC_GRANULE_BYTES; lia). nia.
Qed.

Lemma gwrite_spec g (b : Z) (x : hdr) :
  ht_wf (tbl (tb g)) -> has_hdr (tb g) b ->
  ht_wf (tbl (tb (gwrite b x g))) /\ (forall p, HDRs (tb (gwrite b x g)) p = HDRs (tb g) p)
  /\ (forall q, ghdr (gwrite b x g) q = if decide (q / 4096 = b / 4096) then x else ghdr g q)
  /\ prm (hp (gwrite b x g)) = prm (hp g).
Proof. intros W Hb. destruct (upd_hdr_spec (tb g) b (fun _ => x) W Hb) as (? & ? & ? & _). by split_and!. Qed.

(** What sweeping one block does. *)
Record swept_block g (kind lg b : Z) g' : Prop := {
  kb_wf : ht_wf (tbl (tb g'));
  kb_HDR : forall p, HDRs (tb g') p = HDRs (tb g) p;
  kb_self : same_block_hdr (ghdr g b) (ghdr g' b);
  kb_other : forall q, ~ same_blk q b -> ghdr g' q = ghdr g q;
  kb_swept : swept (clears g kind) (GRANULES_TO_BYTES lg) (mm g) (objs_at g lg b)
    (head_of (ok_freelist g) kind lg) (head_of (ok_freelist g') kind lg) (mm g');
  kb_lists : forall k l, (k, l) <> (kind, lg) -> head_of (ok_freelist g') k l = head_of (ok_freelist g) k l;
  kb_found : GC_bytes_found g' = wrap64 (GC_bytes_found g + GRANULES_TO_BYTES lg * Z.of_nat (length (objs_at g lg b)));
  kb_queues : ok_reclaim_list g' = ok_reclaim_list g;
  kb_swp : swp g' = swp g;
  kb_prm : prm (hp g') = prm (hp g)
}.

Lemma small_block_spec g (kind lg b : Z) :
  ht_wf (tbl (tb g)) -> 0 <= GC_bytes_found g < W64 -> sweepable g kind lg b ->
  exists g', GC_reclaim_small_nonempty_block b (GRANULES_TO_BYTES lg) false g = Some g' /\ swept_block g kind lg b g'.
Proof.
  intros W Hf [Hb Hr Hal Hlg Hk Hsz Hd]. unfold GC_reclaim_small_nonempty_block, reclaim_generic_at.
  set (n := GC_gc_no (prm (hp g)) mod 65536). set (x1 := set_hb_last_reclaimed n (ghdr g b)).
  destruct (gwrite_spec g b x1 W Hb) as (W1 & D1 & B1 & P1). set (g1 := gwrite b x1 g) in *.
  assert (E1 : ghdr g1 b = x1) by (by rewrite B1, decide_True). rewrite E1.
  assert (Hb1 : has_hdr (tb g1) b) by (unfold has_hdr; rewrite D1; exact Hb).
  assert (Ek : hb_obj_kind x1 = kind) by exact Hk. unfold kind_of. rewrite E1, Ek.
  assert (Eg : BYTES_TO_GRANULES (GRANULES_TO_BYTES lg) = lg).
  { unfold BYTES_TO_GRANULES, GRANULES_TO_BYTES, GC_GRANULE_BYTES. apply Z.div_mul. lia. }
  rewrite Eg. change (swp g1) with (swp g). change (mm g1) with (mm g).
  change (GC_bytes_found g1) with (GC_bytes_found g). change (ok_freelist g1) with (ok_freelist g).
  change MAXOBJGRANULES with 128 in Hlg.
  destruct (reclaim_generic_spec (ok_disclaim (sweep_kinds (swp g) kind)) (GC_debugging_started (swp g)) b x1
    (ok_init (sweep_kinds (swp g) kind)) (head_of (ok_freelist g) kind lg) (GC_bytes_found g) (mm g))
    as (l & m & Er & Hs);
    [change (hb_sz x1) with (hb_sz (ghdr g b)); rewrite Hsz; change MAXOBJBYTES with 2048;
       unfold GRANULES_TO_BYTES, GC_GRANULE_BYTES; lia
    |change (hb_sz x1) with (hb_sz (ghdr g b)); rewrite Hsz; unfold GRANULES_TO_BYTES, GC_GRANULE_BYTES; apply Z_mod_mult
    |done|exact Hd|].
  change (hb_sz x1) with (hb_sz (ghdr g b)) in *. rewrite Hsz in *. rewrite Ek in Er.
  change (head_of (ok_freelist g1) kind lg) with (head_of (ok_freelist g) kind lg).
  rewrite Er. cbn [mbind option_bind].
  set (x2 := if IS_UNCOLLECTABLE kind then GC_set_hdr_marks x1 else x1) in *.
  destruct (gwrite_spec g1 b x2 W1 Hb1) as (W2 & D2 & B2 & P2). set (g2 := gwrite b x2 g1) in *.
  assert (Ex : same_block_hdr (ghdr g b) x2) by (unfold x2; destruct IS_UNCOLLECTABLE; done).
  change (ghdr (set_found _ (set_mm m g2)) b) with (ghdr g2 b).
  rewrite B2, decide_True by done.
  assert (Ek2 : hb_obj_kind x2 = kind) by (rewrite Ex; exact Hk). rewrite Ek2.
  eexists. split; [done|]. split; try done.
  - intros p. change (HDRs (tb g2) p = HDRs (tb g) p). by rewrite D2, D1.
  - change (same_block_hdr (ghdr g b) (ghdr g2 b)). by rewrite B2, decide_True.
  - intros q Hq. change (ghdr g2 q = ghdr g q). by rewrite B2, B1, !decide_False.
  - unfold head_of. cbn [ok_freelist set_freelist]. rewrite lookup_insert_eq. exact Hs.
  - intros k l' Hne. unfold head_of. cbn [ok_freelist set_freelist]. by rewrite lookup_insert_ne.
Qed.

(** ** Traces *)

(** A swept block: kind, granules, address. *)
Notation trace := (list (Z * Z * Z)).

Definition blocks_of (W : trace) (kind lg : Z) : list Z := snd <$> filter (fun e => e.1 = (kind, lg)) W.
Definition objs_of g (W : trace) (kind lg : Z) : list Z := blocks_of W kind lg ≫= objs_at g lg.
Definition trace_bytes g (W : trace) : Z :=
  foldr (fun e n => GRANULES_TO_BYTES e.1.2 * Z.of_nat (length (objs_at g e.1.2 e.2)) + n) 0 W.

(** The blocks of a trace can be swept, and none comes twice. *)
Record trace_ok g (W : trace) : Prop := {
  to_sweepable : forall k lg b, (k, lg, b) ∈ W -> sweepable g k lg b;
  to_nodup : NoDup (snd <$> W)
}.

Record swept_trace g0 (W : trace) g : Prop := {
  st_wf : ht_wf (tbl (tb g));
  st_HDR : forall p, HDRs (tb g) p = HDRs (tb g0) p;
  st_hdr : forall q, same_block_hdr (ghdr g0 q) (ghdr g q);
  st_unswept : forall q, (forall e, e ∈ W -> ~ same_blk q e.2) -> ghdr g q = ghdr g0 q;
  st_list : forall k lg, fl_seg (mm g) (head_of (ok_freelist g) k lg) (reverse (objs_of g0 W k lg))
              (head_of (ok_freelist g0) k lg);
  st_body : forall k lg b o a, (k, lg, b) ∈ W -> o ∈ objs_at g0 lg b -> o < a < o + GRANULES_TO_BYTES lg ->
              (a - o) mod PTRSZ = 0 -> mm g !! a = if clears g0 k then Some 0 else mm g0 !! a;
  st_frame : forall a, (forall k lg b o, (k, lg, b) ∈ W -> o ∈ objs_at g0 lg b -> ~ o <= a < o + GRANULES_TO_BYTES lg) ->
              mm g !! a = mm g0 !! a;
  st_found : GC_bytes_found g = wrap64 (GC_bytes_found g0 + trace_bytes g0 W);
  st_swp : swp g = swp g0;
  st_prm : prm (hp g) = prm (hp g0)
}.

Lemma swept_trace_nil g : ht_wf (tbl (tb g)) -> 0 <= GC_bytes_found g < W64 -> swept_trace g [] g.
Proof.
  intros W Hf. split; try done.
  - intros q. apply same_block_hdr_refl.
  - intros k lg b o a He. by apply elem_of_nil in He.
  - cbn. rewrite Z.add_0_r. unfold wrap64. by rewrite Z.mod_small.
Qed.

(** The reclaim lists are not part of it. *)
Lemma swept_trace_queues g0 (W : trace) g (k lg v : Z) : swept_trace g0 W g -> swept_trace g0 W (set_reclaim_list k lg v g).
Proof. intros [? ? ? ? ? ? ? ? ? ?]. by split. Qed.

Lemma blocks_of_snoc (W : trace) (k lg b k' lg' : Z) :
  blocks_of (W ++ [(k, lg, b)]) k' lg' = blocks_of W k' lg' ++ (if decide ((k, lg) = (k', lg')) then [b] else []).
Proof.
  unfold blocks_of. rewrite filter_app, filter_cons, filter_nil, fmap_app. f_equal. cbn [fst]. by case_decide.
Qed.

Lemma objs_of_snoc g (W : trace) (k lg b k' lg' : Z) :
  objs_of g (W ++ [(k, lg, b)]) k' lg' = objs_of g W k' lg' ++ (if decide ((k, lg) = (k', lg')) then objs_at g lg b else []).
Proof.
  unfold objs_of. rewrite blocks_of_snoc, bind_app. f_equal. case_decide as E; [|done].
  injection E as -> ->. cbn. by rewrite app_nil_r.
Qed.

Lemma elem_of_blocks (W : trace) (k lg b : Z) : b ∈ blocks_of W k lg <-> (k, lg, b) ∈ W.
Proof.
  unfold blocks_of. rewrite list_elem_of_fmap. split.
  - intros ([[k' lg'] b'] & -> & [E He]%list_elem_of_filter). cbn in *. by simplify_eq.
  - intros He. exists (k, lg, b). split; [done|]. by apply list_elem_of_filter.
Qed.

Lemma elem_of_objs_of g (W : trace) (k lg o : Z) :
  o ∈ objs_of g W k lg <-> exists b, (k, lg, b) ∈ W /\ o ∈ objs_at g lg b.
Proof.
  unfold objs_of. rewrite list_elem_of_bind. split.
  - intros (b & Ho & Hb%elem_of_blocks). by exists b.
  - intros (b & Hb & Ho). exists b. by rewrite elem_of_blocks.
Qed.

Lemma trace_bytes_snoc g (W : trace) (k lg b : Z) :
  trace_bytes g (W ++ [(k, lg, b)]) = trace_bytes g W + GRANULES_TO_BYTES lg * Z.of_nat (length (objs_at g lg b)).
Proof.
  unfold trace_bytes. rewrite foldr_app. cbn [foldr fst snd].
  induction W as [|e W IH]; cbn [foldr]; [lia|]. rewrite IH. lia.
Qed.

(** Objects of different blocks do not overlap. *)
Lemma objs_disjoint g (lg b lg' b' o o' a : Z) :
  1 <= lg <= MAXOBJGRANULES -> 1 <= lg' <= MAXOBJGRANULES -> b mod 4096 = 0 -> b' mod 4096 = 0 -> b <> b' ->
  o ∈ objs_at g lg b -> o' ∈ objs_at g lg' b' ->
  o <= a < o + GRANULES_TO_BYTES lg -> ~ o' <= a < o' + GRANULES_TO_BYTES lg'.
Proof.
  intros Hl Hl' Hb Hb' Hne [H1 H2]%objs_at_block [H3 H4]%objs_at_block Ha Ha'; try done. dlia.
Qed.

Section Step.
Context (g0 g g' : gc T) (W : trace) (k lg b : Z).
Context (HW : trace_ok g0 (W ++ [(k, lg, b)])) (HS : swept_trace g0 W g).

Lemma step_sweepable : sweepable g0 k lg b.
Proof. apply (to_sweepable _ _ HW). apply elem_of_app. right. by left. Qed.

(** The block is new. *)
Lemma step_new e : e ∈ W -> ~ same_blk b e.2.
Proof.
  intros He Hs. destruct e as [[k' lg'] b']. assert (b = b') as ->.
  { apply aligned_same_blk; [apply step_sweepable| |exact Hs].
    apply (sb_align _ _ _ _ (to_sweepable _ _ HW k' lg' b' ltac:(apply elem_of_app; by left))). }
  pose proof (to_nodup _ _ HW) as Hnd. rewrite fmap_app in Hnd. apply NoDup_app in Hnd as (_ & Hd & _).
  apply (Hd b'); [|by left]. apply list_elem_of_fmap. by exists (k', lg', b').
Qed.

Lemma step_same : ghdr g b = ghdr g0 b.
Proof. apply (st_unswept _ _ _ HS). apply step_new. Qed.

Lemma step_ready : sweepable g k lg b.
Proof.
  destruct step_sweepable as [Hb Hr Hal Hl Hk Hz Hd]. split; rewrite ?step_same; try done.
  unfold has_hdr. rewrite (st_HDR _ _ _ HS). exact Hb.
Qed.

Lemma step_objs : objs_at g lg b = objs_at g0 lg b.
Proof. unfold objs_at. by rewrite step_same. Qed.

(** Nothing of the blocks swept before is in the new one. *)
Lemma step_apart (k' lg' b' o o' a : Z) :
  (k', lg', b') ∈ W -> o' ∈ objs_at g0 lg' b' -> o' <= a < o' + GRANULES_TO_BYTES lg' ->
  o ∈ objs_at g0 lg b -> ~ o <= a < o + GRANULES_TO_BYTES lg.
Proof.
  intros He Ho' Ha Ho. pose proof step_sweepable as Hb.
  pose proof (to_sweepable _ _ HW k' lg' b' ltac:(apply elem_of_app; by left)) as Hb'.
  eapply (objs_disjoint g0 lg' b' lg b o' o a); try done; try apply Hb; try apply Hb'.
  intros ->. by apply (step_new _ He).
Qed.

Lemma step_bytes_pos : 0 < GRANULES_TO_BYTES lg.
Proof. destruct step_sweepable. unfold GRANULES_TO_BYTES, GC_GRANULE_BYTES. lia. Qed.

Context (HB : swept_block g k lg b g').

Lemma step_frame (a : Z) :
  (forall o, o ∈ objs_at g0 lg b -> ~ o <= a < o + GRANULES_TO_BYTES lg) -> mm g' !! a = mm g !! a.
Proof. intros Ha. apply (sw_frame _ _ _ _ _ _ _ (kb_swept _ _ _ _ _ HB)). by rewrite step_objs. Qed.

Lemma step_list (k' lg' : Z) :
  fl_seg (mm g') (head_of (ok_freelist g') k' lg') (reverse (objs_of g0 (W ++ [(k, lg, b)]) k' lg'))
    (head_of (ok_freelist g0) k' lg').
Proof.
  rewrite objs_of_snoc, reverse_app.
  assert (HF : fl_seg (mm g') (head_of (ok_freelist g) k' lg') (reverse (objs_of g0 W k' lg')) (head_of (ok_freelist g0) k' lg')).
  { eapply fl_seg_frame; [|apply (st_list _ _ _ HS)]. intros o Ho. rewrite elem_of_reverse in Ho.
    apply elem_of_objs_of in Ho as (b' & He & Ho). apply step_frame. intros o' Ho'.
    eapply step_apart; [done|done| |done].
    pose proof (to_sweepable _ _ HW k' lg' b' ltac:(apply elem_of_app; by left)) as Hb'.
    destruct (sb_lg _ _ _ _ Hb'). unfold GRANULES_TO_BYTES, GC_GRANULE_BYTES. lia. }
  case_decide as E.
  - injection E as <- <-. eapply fl_seg_app; [|exact HF]. rewrite <- step_objs. apply HB.
  - cbn [reverse rev_append app]. rewrite (kb_lists _ _ _ _ _ HB) by congruence. exact HF.
Qed.

Lemma step_body (k' lg' b' o a : Z) :
  (k', lg', b') ∈ W ++ [(k, lg, b)] -> o ∈ objs_at g0 lg' b' -> o < a < o + GRANULES_TO_BYTES lg' ->
  (a - o) mod PTRSZ = 0 -> mm g' !! a = if clears g0 k' then Some 0 else mm g0 !! a.
Proof.
  intros [He|He]%elem_of_app Ho Ha H8.
  - rewrite step_frame; [by apply (st_body _ _ _ HS k' lg' b' o)|]. intros o' Ho'.
    eapply step_apart; [done|done| |done]. lia.
  - apply list_elem_of_singleton in He. injection He as -> -> ->.
    rewrite (sw_body _ _ _ _ _ _ _ (kb_swept _ _ _ _ _ HB) o); [|by rewrite step_objs|done|done].
    assert (Ec : clears g k = clears g0 k) by (unfold clears; by rewrite (st_swp _ _ _ HS)). rewrite Ec.
    destruct (clears g0 k); [done|]. apply (st_frame _ _ _ HS). intros k' lg' b' o' He' Ho' Ha'.
    eapply step_apart; [exact He'|exact Ho'|exact Ha'|exact Ho|lia].
Qed.

Lemma swept_trace_snoc : swept_trace g0 (W ++ [(k, lg, b)]) g'.
Proof.
  split.
  - apply HB.
  - intros p. by rewrite (kb_HDR _ _ _ _ _ HB), (st_HDR _ _ _ HS).
  - intros q. eapply same_block_hdr_trans; [apply (st_hdr _ _ _ HS)|].
    destruct (decide (q / 4096 = b / 4096)) as [E|E].
    + assert (E1 : forall x : gc T, ghdr x q = ghdr x b) by (intros x; by apply hdrb_blk).
      rewrite !E1. apply HB.
    + rewrite (kb_other _ _ _ _ _ HB) by done. apply same_block_hdr_refl.
  - intros q Hq. rewrite (kb_other _ _ _ _ _ HB).
    + apply (st_unswept _ _ _ HS). intros e He. apply Hq, elem_of_app. by left.
    + apply (Hq (k, lg, b)), elem_of_app. right. by left.
  - apply step_list.
  - apply step_body.
  - intros a Ha. rewrite step_frame; [apply (st_frame _ _ _ HS)|].
    + intros k' lg' b' o He. apply (Ha k' lg' b'), elem_of_app. by left.
    + intros o. apply (Ha k lg b), elem_of_app. right. by left.
  - rewrite (kb_found _ _ _ _ _ HB), (st_found _ _ _ HS), step_objs, trace_bytes_snoc.
    unfold wrap64. rewrite Zplus_mod_idemp_l. f_equal. lia.
  - by rewrite (kb_swp _ _ _ _ _ HB), (st_swp _ _ _ HS).
  - by rewrite (kb_prm _ _ _ _ _ HB), (st_prm _ _ _ HS).
Qed.
End Step.

(** Sweeping the next block of a trace. *)
Lemma trace_step g0 (W : trace) g (k lg b : Z) :
  trace_ok g0 (W ++ [(k, lg, b)]) -> swept_trace g0 W g ->
  exists g', GC_reclaim_small_nonempty_block b (GRANULES_TO_BYTES lg) false g = Some g'
    /\ swept_trace g0 (W ++ [(k, lg, b)]) g' /\ ok_reclaim_list g' = ok_reclaim_list g.
Proof.
  intros HW HS. destruct (small_block_spec g k lg b) as (g' & E & HB).
  - apply HS.
  - rewrite (st_found _ _ _ HS). unfold wrap64. apply Z.mod_pos_bound. by vm_compute.
  - by eapply step_ready.
  - exists g'. split; [done|]. split; [by eapply swept_trace_snoc|apply HB].
Qed.

(** ** Reclaim lists *)

Fixpoint rl_chain g (h : Z) (bs : list Z) : Prop :=
  match bs with
  | [] => h = NULL
  | b :: bs => h = b /\ b <> NULL /\ rl_chain g (hb_next (ghdr g b)) bs
  end.

(** The reclaim lists hold the blocks [Q], each on the list of its kind and size. *)
Record queues_ok g (Q : Z -> Z -> list Z) : Prop := {
  qo_chain : forall k lg, rl_chain g (head_of (ok_reclaim_list g) k lg) (Q k lg);
  qo_sweepable : forall k lg b, b ∈ Q k lg -> sweepable g k lg b;
  qo_nodup : forall k lg, NoDup (Q k lg)
}.

Definition entries (k lg : Z) (bs : list Z) : trace := (fun b => (k, lg, b)) <$> bs.

Lemma entries_snoc (k lg : Z) (bs : list Z) (b : Z) : entries k lg (bs ++ [b]) = entries k lg bs ++ [(k, lg, b)].
Proof. unfold entries. by rewrite fmap_app. Qed.

Lemma trace_ok_prefix g (W W' : trace) : trace_ok g (W ++ W') -> trace_ok g W.
Proof.
  intros [Hs Hn]. split.
  - intros k lg b He. apply Hs, elem_of_app. by left.
  - rewrite fmap_app in Hn. by apply NoDup_app in Hn as [? _].
Qed.

(** Taking the first block off a list and sweeping it. *)
Lemma pop_step g0 (W : trace) g (k lg b : Z) (rest : list Z) :
  rl_chain g0 (head_of (ok_reclaim_list g) k lg) (b :: rest) -> swept_trace g0 W g ->
  trace_ok g0 (W ++ [(k, lg, b)]) ->
  head_of (ok_reclaim_list g) k lg = b /\ b <> NULL /\
  exists g', GC_reclaim_small_nonempty_block b (hb_sz (ghdr g b)) false
               (set_reclaim_list k lg (hb_next (ghdr g b)) g) = Some g'
    /\ swept_trace g0 (W ++ [(k, lg, b)]) g' /\ rl_chain g0 (head_of (ok_reclaim_list g') k lg) rest
    /\ forall k' lg', (k', lg') <> (k, lg) -> head_of (ok_reclaim_list g') k' lg' = head_of (ok_reclaim_list g) k' lg'.
Proof.
  cbn [rl_chain]. intros (Eh & Hb0 & Hch) HS HW. split; [done|]. split; [done|].
  rewrite (step_same g0 g W k lg b HW HS). rewrite (sb_sz _ _ _ _ (step_sweepable g0 W k lg b HW)).
  destruct (trace_step g0 W (set_reclaim_list k lg (hb_next (ghdr g0 b)) g) k lg b) as (g' & E & HS' & Eq);
    [done|by apply swept_trace_queues|].
  exists g'. split; [done|]. split; [done|]. rewrite Eq. unfold head_of. cbn [ok_reclaim_list set_reclaim_list].
  split; [by rewrite lookup_insert_eq|]. intros k' lg' Hne. by rewrite lookup_insert_ne by done.
Qed.

Lemma blocks_length (bs : list Z) : NoDup bs -> (forall b, b ∈ bs -> 0 < b < W64) -> Z.of_nat (length bs) < W64.
Proof.
  intros Hnd Hb. assert (Hl : Z.of_nat (length bs) <= Z.max 0 (2 ^ 64 - 1)); [|unfold W64; lia].
  rewrite <- (length_fmap (fun b => b - 1)). apply NoDup_range_length.
  - assert (Inj (=) (=) (fun b => b - 1)) by (intros x y ?; lia). by apply NoDup_fmap_2.
  - apply Forall_fmap, Forall_forall. intros b Hi. specialize (Hb b Hi). unfold W64 in *. cbn. lia.
Qed.

Lemma trace_ok_length g (W : trace) (k lg : Z) (bs : list Z) : trace_ok g (W ++ entries k lg bs) -> Z.of_nat (length bs) < W64.
Proof.
  intros [Hs Hn]. apply blocks_length.
  - rewrite fmap_app in Hn. apply NoDup_app in Hn as (_ & _ & Hn). unfold entries in Hn.
    rewrite <- list_fmap_compose in Hn. cbn in Hn. by rewrite list_fmap_id in Hn.
  - intros b Hb. apply (Hs k lg b). apply elem_of_app. right. apply list_elem_of_fmap. by exists b.
Qed.

(** Draining the list of [k] and [lg] sweeps its blocks in order. *)
Lemma drain_spec g0 (W : trace) g (k lg : Z) (bs : list Z) (i : nat) :
  swept_trace g0 W g -> trace_ok g0 (W ++ entries k lg bs) -> rl_chain g0 (head_of (ok_reclaim_list g) k lg) bs ->
  exists g' j, drain None false k lg (g, i) = Some (true, (g', j))
    /\ swept_trace g0 (W ++ entries k lg bs) g' /\ head_of (ok_reclaim_list g') k lg = NULL
    /\ forall k' lg', (k', lg') <> (k, lg) -> head_of (ok_reclaim_list g') k' lg' = head_of (ok_reclaim_list g) k' lg'.
Proof.
  intros HS HW Hch. unfold drain.
  destruct (loop_spec_rel
    (fun n s => exists dn rest, bs = dn ++ rest /\ n = length rest /\ swept_trace g0 (W ++ entries k lg dn) s.1
       /\ rl_chain g0 (head_of (ok_reclaim_list s.1) k lg) rest
       /\ forall k' lg', (k', lg') <> (k, lg) -> head_of (ok_reclaim_list s.1) k' lg' = head_of (ok_reclaim_list g) k' lg')
    (fun r => exists g' j, r = Some (true, (g', j)) /\ swept_trace g0 (W ++ entries k lg bs) g'
       /\ head_of (ok_reclaim_list g') k lg = NULL
       /\ forall k' lg', (k', lg') <> (k, lg) -> head_of (ok_reclaim_list g') k' lg' = head_of (ok_reclaim_list g) k' lg')
    (drain_body None false k lg) (length bs) (g, i)) as (r & -> & g' & j & -> & HQ).
  - intros n [g1 i1] (dn & rest & Eb & -> & HS1 & Hc1 & Ho1). cbn [fst] in *. unfold drain_body.
    destruct rest as [|b rest].
    + cbn [rl_chain] in Hc1. rewrite Hc1, Z.eqb_refl. rewrite app_nil_r in Eb. subst dn. by exists g1, i1.
    + assert (HW1 : trace_ok g0 ((W ++ entries k lg dn) ++ [(k, lg, b)])).
      { rewrite <- app_assoc, <- entries_snoc. eapply (trace_ok_prefix _ _ (entries k lg rest)).
        rewrite <- app_assoc. unfold entries in *. rewrite <- fmap_app, <- app_assoc. cbn. by rewrite <- Eb. }
      destruct (pop_step g0 _ g1 k lg b rest Hc1 HS1 HW1) as (Eh & Hb0 & g2 & E & HS2 & Hc2 & Ho2).
      rewrite Eh. rewrite (proj2 (Z.eqb_neq b NULL)) by done. cbn [asked_to_stop negb orb]. rewrite E.
      exists (length rest). split; [cbn; lia|]. exists (dn ++ [b]), rest. cbn [fst].
      rewrite entries_snoc, app_assoc. split_and!; [by rewrite <- app_assoc|done|done|done|].
      intros k' lg' Hne. by rewrite Ho2, Ho1.
  - exists [], bs. cbn [entries fmap list_fmap fst]. rewrite app_nil_r. by split_and!.
  - by eapply trace_ok_length.
  - by exists g', j.
Qed.

(** ** All lists *)

Section All.
Context (g0 : gc T) (Q : Z -> Z -> list Z) (HQ : queues_ok g0 Q).

(** What is swept for one kind, and for several of them. *)
Definition kind_trace (lgs : list Z) (k : Z) : trace := lgs ≫= fun lg => entries k lg (Q k lg).
Definition all_trace (use : Z -> bool) (lgs ks : list Z) : trace :=
  ks ≫= fun k => if use k then kind_trace lgs k else [].

Lemma elem_of_kind_trace (lgs : list Z) (k : Z) e :
  e ∈ kind_trace lgs k <-> e.1.1 = k /\ e.1.2 ∈ lgs /\ e.2 ∈ Q k e.1.2.
Proof.
  unfold kind_trace. rewrite list_elem_of_bind. split.
  - intros (lg & He & Hlg). apply list_elem_of_fmap in He as (b & -> & Hb). done.
  - destruct e as [[k' lg] b]. cbn. intros (-> & Hlg & Hb). exists lg. split; [|done].
    apply list_elem_of_fmap. by exists b.
Qed.

Lemma elem_of_all_trace (use : Z -> bool) (lgs ks : list Z) e :
  e ∈ all_trace use lgs ks <-> e.1.1 ∈ ks /\ use e.1.1 = true /\ e.1.2 ∈ lgs /\ e.2 ∈ Q e.1.1 e.1.2.
Proof.
  unfold all_trace. rewrite list_elem_of_bind. split.
  - intros (k & He & Hk). destruct (use k) eqn:Eu; [|by apply elem_of_nil in He].
    apply elem_of_kind_trace in He as (-> & ? & ?). done.
  - intros (Hk & Eu & Hlg & Hb). exists e.1.1. rewrite Eu. split; [|done]. by apply elem_of_kind_trace.
Qed.

Lemma kind_trace_nodup (lgs : list Z) (k : Z) : NoDup lgs -> NoDup (kind_trace lgs k).
Proof.
  intros Hl. apply NoDup_bind; [| |done].
  - intros x1 x2 e _ _ (b1 & -> & _)%list_elem_of_fmap (b2 & E & _)%list_elem_of_fmap. by injection E.
  - intros lg _. apply NoDup_fmap_2; [|apply HQ]. intros b1 b2 E. by injection E.
Qed.

Lemma all_trace_nodup (use : Z -> bool) (lgs ks : list Z) : NoDup lgs -> NoDup ks -> NoDup (all_trace use lgs ks).
Proof.
  intros Hl Hk. apply NoDup_bind; [| |done].
  - intros k1 k2 e _ _ H1 H2. destruct (use k1); [|by apply elem_of_nil in H1].
    destruct (use k2); [|by apply elem_of_nil in H2].
    apply elem_of_kind_trace in H1 as (<- & _). by apply elem_of_kind_trace in H2 as (<- & _).
  - intros k _. destruct (use k); [by apply kind_trace_nodup|constructor].
Qed.

(** Kind and size of a block are in its header, so no block is on two lists. *)
Lemma all_trace_ok (use : Z -> bool) (lgs ks : list Z) : NoDup lgs -> NoDup ks -> trace_ok g0 (all_trace use lgs ks).
Proof.
  intros Hl Hk. split.
  - intros k lg b (_ & _ & _ & Hb)%elem_of_all_trace. by apply HQ.
  - apply NoDup_fmap_2_strong; [|by apply all_trace_nodup].
    intros [[k1 lg1] b] [[k2 lg2] b2] (_ & _ & _ & H1)%elem_of_all_trace (_ & _ & _ & H2)%elem_of_all_trace E.
    cbn in *. subst b2. apply (qo_sweepable _ _ HQ) in H1, H2.
    destruct H1 as [_ _ _ _ <- S1 _], H2 as [_ _ _ _ <- S2 _]. do 2 f_equal. rewrite S1 in S2.
    unfold GRANULES_TO_BYTES, GC_GRANULE_BYTES in S2. lia.
Qed.

Lemma run_sizes (W : trace) g (k : Z) (lgs : list Z) (i : nat) :
  NoDup lgs -> swept_trace g0 W g -> trace_ok g0 (W ++ kind_trace lgs k) ->
  (forall lg, lg ∈ lgs -> head_of (ok_reclaim_list g) k lg = head_of (ok_reclaim_list g0) k lg) ->
  exists g' j, run_list (fun lg s => drain None false k lg s) lgs (g, i) = Some (true, (g', j))
    /\ swept_trace g0 (W ++ kind_trace lgs k) g'
    /\ forall k' lg', head_of (ok_reclaim_list g') k' lg'
         = if decide (k' = k /\ lg' ∈ lgs) then NULL else head_of (ok_reclaim_list g) k' lg'.
Proof.
  revert W g i. induction lgs as [|lg lgs IH]; intros W g i Hnd HS HW Hq; cbn [run_list].
  { exists g, i. split; [done|]. unfold kind_trace. cbn. rewrite app_nil_r. split; [done|].
    intros k' lg'. rewrite decide_False; [done|]. intros [_ Hn]. by apply elem_of_nil in Hn. }
  apply NoDup_cons in Hnd as [Hni Hnd]. unfold kind_trace in HW |- *. cbn [mbind list_bind] in HW |- *.
  rewrite app_assoc in HW |- *. fold (kind_trace lgs k) in HW |- *.
  destruct (drain_spec g0 W g k lg (Q k lg) i HS) as (g1 & j1 & -> & HS1 & E1 & Eo1);
    [by eapply trace_ok_prefix|rewrite Hq by (by left); apply HQ|].
  cbn [mbind option_bind].
  destruct (IH (W ++ entries k lg (Q k lg)) g1 j1 Hnd HS1 HW) as (g2 & j2 & -> & HS2 & E2).
  { intros lg' Hl. rewrite Eo1; [by apply Hq; right|]. intros [= ->]. done. }
  exists g2, j2. split; [done|]. split; [done|]. intros k' lg'. rewrite E2.
  destruct (decide (k' = k /\ lg' ∈ lgs)) as [[-> Hin]|Hn].
  { rewrite decide_True; [done|]. split; [done|]. by right. }
  destruct (decide ((k', lg') = (k, lg))) as [[= -> ->]|Hne].
  - rewrite decide_True; [done|]. split; [done|]. by left.
  - rewrite Eo1 by done. rewrite decide_False; [done|]. intros [-> [->|Hin]%elem_of_cons]; [done|]. by apply Hn.
Qed.

Lemma run_kinds (use : Z -> bool) (useg : Z -> gc T -> bool) (W : trace) g (ks : list Z) (i : nat) :
  (forall k g, swp g = swp g0 -> prm (hp g) = prm (hp g0) -> useg k g = use k) ->
  NoDup ks -> swept_trace g0 W g -> trace_ok g0 (W ++ all_trace use (seqZ 1 MAXOBJGRANULES) ks) ->
  (forall k lg, k ∈ ks -> head_of (ok_reclaim_list g) k lg = head_of (ok_reclaim_list g0) k lg) ->
  exists g' j, run_list (fun k s => if useg k s.1 then run_list (fun lg s => drain None false k lg s) (seqZ 1 MAXOBJGRANULES) s
                                    else Some (true, s)) ks (g, i) = Some (true, (g', j))
    /\ swept_trace g0 (W ++ all_trace use (seqZ 1 MAXOBJGRANULES) ks) g'
    /\ forall k lg, head_of (ok_reclaim_list g') k lg
         = if decide (k ∈ ks /\ use k = true /\ 1 <= lg <= MAXOBJGRANULES) then NULL else head_of (ok_reclaim_list g) k lg.
Proof.
  intros Huse. revert W g i. induction ks as [|k ks IH]; intros W g i Hnd HS HW Hq; cbn [run_list].
  { exists g, i. split; [done|]. unfold all_trace. cbn. rewrite app_nil_r. split; [done|].
    intros k lg. rewrite decide_False; [done|]. intros [Hn _]. by apply elem_of_nil in Hn. }
  apply NoDup_cons in Hnd as [Hni Hnd]. unfold all_trace in HW |- *. cbn [mbind list_bind] in HW |- *.
  rewrite app_assoc in HW |- *. fold (all_trace use (seqZ 1 MAXOBJGRANULES) ks) in HW |- *.
  cbn [fst]. rewrite Huse by apply HS. destruct (use k) eqn:Eu.
  - destruct (run_sizes W g k (seqZ 1 MAXOBJGRANULES) i) as (g1 & j1 & -> & HS1 & E1);
      [apply NoDup_seqZ|done|by eapply trace_ok_prefix|intros lg _; apply Hq; by left|].
    cbn [mbind option_bind].
    destruct (IH (W ++ kind_trace (seqZ 1 MAXOBJGRANULES) k) g1 j1 Hnd HS1 HW) as (g2 & j2 & E & HS2 & E2).
    { intros k' lg Hk'. rewrite E1, decide_False; [by apply Hq; right|]. intros [-> _]. done. }
    exists g2, j2. split; [exact E|]. split; [done|]. intros k' lg. rewrite E2, E1.
    destruct (decide (k' ∈ ks /\ use k' = true /\ 1 <= lg <= MAXOBJGRANULES)) as [(Hin & Hu & Hl)|Hn].
    { rewrite decide_True; [done|]. split; [by right|done]. }
    destruct (decide (k' = k /\ lg ∈ seqZ 1 MAXOBJGRANULES)) as [[-> Hl%elem_of_seqZ]|Hn'].
    + rewrite decide_True; [done|]. split; [by left|]. split; [done|lia].
    + rewrite decide_False; [done|]. intros ([->|Hin]%elem_of_cons & Hu & Hl); [|by apply Hn].
      apply Hn'. split; [done|]. apply elem_of_seqZ. lia.
  - cbn [mbind option_bind]. rewrite app_nil_r in HW |- *.
    destruct (IH W g i Hnd HS HW) as (g2 & j2 & E & HS2 & E2); [intros; apply Hq; by right|].
    exists g2, j2. split; [exact E|]. split; [done|]. intros k' lg. rewrite E2.
    apply decide_ext. split.
    + intros (? & ? & ?). split; [by right|done].
    + intros ([->|Hin]%elem_of_cons & Hu & Hl); [congruence|done].
Qed.
End All.

(** The blocks a trace has for a list. *)
Lemma blocks_of_app (W W' : trace) (k lg : Z) : blocks_of (W ++ W') k lg = blocks_of W k lg ++ blocks_of W' k lg.
Proof. unfold blocks_of. by rewrite filter_app, fmap_app. Qed.

Lemma blocks_of_entries (k' lg' : Z) (bs : list Z) (k lg : Z) :
  blocks_of (entries k' lg' bs) k lg = if decide ((k', lg') = (k, lg)) then bs else [].
Proof.
  unfold blocks_of, entries. induction bs as [|b bs IH]; cbn [fmap list_fmap]; [by case_decide|].
  rewrite filter_cons. cbn [fst]. destruct (decide ((k', lg') = (k, lg))); cbn [fmap list_fmap snd]; [by f_equal|done].
Qed.

Lemma blocks_of_kind (Q : Z -> Z -> list Z) (lgs : list Z) (k' k lg : Z) :
  NoDup lgs -> blocks_of (kind_trace Q lgs k') k lg = if decide (k' = k /\ lg ∈ lgs) then Q k lg else [].
Proof.
  induction lgs as [|l lgs IH]; intros Hnd.
  { rewrite decide_False; [done|]. intros [_ Hn]. by apply elem_of_nil in Hn. }
  apply NoDup_cons in Hnd as [Hni Hnd]. unfold kind_trace. cbn [mbind list_bind].
  rewrite blocks_of_app, blocks_of_entries. fold (kind_trace Q lgs k'). rewrite IH by done.
  destruct (decide ((k', l) = (k, lg))) as [[= -> ->]|Hne].
  - rewrite decide_False, decide_True, app_nil_r; [done|split; [done|by left]|by intros [_ ?]].
  - cbn [app]. apply decide_ext. rewrite elem_of_cons. split; [tauto|]. intros [-> [->|Hin]]; [done|done].
Qed.

Lemma blocks_of_all (Q : Z -> Z -> list Z) (use : Z -> bool) (lgs ks : list Z) (k lg : Z) :
  NoDup lgs -> NoDup ks ->
  blocks_of (all_trace Q use lgs ks) k lg = if decide (k ∈ ks /\ use k = true /\ lg ∈ lgs) then Q k lg else [].
Proof.
  intros Hl. induction ks as [|k' ks IH]; intros Hnd.
  { rewrite decide_False; [done|]. intros [Hn _]. by apply elem_of_nil in Hn. }
  apply NoDup_cons in Hnd as [Hni Hnd]. unfold all_trace. cbn [mbind list_bind]. rewrite blocks_of_app.
  fold (all_trace Q use lgs ks). rewrite IH by done.
  destruct (decide (k' = k)) as [->|Hne].
  - rewrite (decide_False (P := k ∈ ks /\ _)) by (by intros [? _]). rewrite app_nil_r. destruct (use k) eqn:Eu.
    + rewrite blocks_of_kind by done. apply decide_ext. split; [intros [_ ?]; split; [by left|done]|tauto].
    + rewrite decide_False; [done|]. intros (_ & ? & _). done.
  - assert (E : blocks_of (if use k' then kind_trace Q lgs k' else []) k lg = []).
    { destruct (use k'); [|done]. rewrite blocks_of_kind by done. by rewrite decide_False by tauto. }
    rewrite E. cbn [app]. apply decide_ext. rewrite elem_of_cons. split; [tauto|]. intros ([->|?] & ? & ?); done.
Qed.

(** The state starts out well. *)
Definition gc_ok g : Prop := ht_wf (tbl (tb g)) /\ 0 <= GC_bytes_found g < W64.

(** C9: [GC_reclaim_all] without a stop function returns [TRUE] and leaves all
    reclaim lists of the kinds in use empty.  It has swept exactly the blocks that
    were queued: every free list is extended by the unmarked objects of its blocks,
    latest first, those objects are cleared if their kind wants it, all other
    memory and the headers of all other blocks are as before, and the bytes found
    are counted. *)
Theorem GC_reclaim_all_correct g (Q : Z -> Z -> list Z) (Hg : gc_ok g) (HQ : queues_ok g Q) :
  exists W g', GC_reclaim_all None false g = Some (true, g') /\ swept_trace g W g'
    /\ (forall k lg, blocks_of W k lg
          = if decide (k ∈ seqZ 0 (GC_n_kinds (swp g)) /\ ok_lists (sweep_kinds (swp g) k) = true
                       /\ lg ∈ seqZ 1 MAXOBJGRANULES) then Q k lg else [])
    /\ (forall k lg, 0 <= k < GC_n_kinds (swp g) -> ok_lists (sweep_kinds (swp g) k) = true ->
          1 <= lg <= MAXOBJGRANULES -> head_of (ok_reclaim_list g') k lg = NULL).
Proof.
  destruct Hg as [Wf Hf]. set (use := fun k => ok_lists (sweep_kinds (swp g) k)).
  destruct (run_kinds g Q HQ use (fun k x => ok_lists (sweep_kinds (swp x) k)) [] g (seqZ 0 (GC_n_kinds (swp g))) 0%nat)
    as (g' & j & E & HS & E');
    [by intros k x -> _|apply NoDup_seqZ|by apply swept_trace_nil|apply all_trace_ok; [done|apply NoDup_seqZ|apply NoDup_seqZ]|done|].
  exists (all_trace Q use (seqZ 1 MAXOBJGRANULES) (seqZ 0 (GC_n_kinds (swp g)))), g'.
  unfold GC_reclaim_all. rewrite E. cbn [mbind option_bind]. split; [done|]. split; [done|]. split.
  - intros k lg. apply blocks_of_all; apply NoDup_seqZ.
  - intros k lg Hk Hu Hlg. rewrite E', decide_True; [done|]. rewrite elem_of_seqZ. split; [lia|done].
Qed.

(** [GC_reclaim_unconditionally_marked] does the same for the kinds that mark
    unconditionally or are to be swept eagerly, and for no others. *)
Theorem GC_reclaim_unconditionally_marked_correct g (Q : Z -> Z -> list Z) (Hg : gc_ok g) (HQ : queues_ok g Q) :
  let eager k := ok_lists (sweep_kinds (swp g) k)
    && (ok_mark_unconditionally (GC_obj_kinds (prm (hp g)) k) || ok_eager_sweep (sweep_kinds (swp g) k)) in
  exists W g', GC_reclaim_unconditionally_marked g = Some g' /\ swept_trace g W g'
    /\ (forall k lg, blocks_of W k lg
          = if decide (k ∈ seqZ 0 (GC_n_kinds (swp g)) /\ eager k = true /\ lg ∈ seqZ 1 MAXOBJGRANULES)
            then Q k lg else [])
    /\ (forall k lg, head_of (ok_reclaim_list g') k lg
          = if decide (k ∈ seqZ 0 (GC_n_kinds (swp g)) /\ eager k = true /\ 1 <= lg <= MAXOBJGRANULES)
            then NULL else head_of (ok_reclaim_list g) k lg).
Proof.
  cbn zeta. destruct Hg as [Wf Hf].
  set (use := fun k => ok_lists (sweep_kinds (swp g) k)
    && (ok_mark_unconditionally (GC_obj_kinds (prm (hp g)) k) || ok_eager_sweep (sweep_kinds (swp g) k))).
  destruct (run_kinds g Q HQ use (fun k x => ok_lists (sweep_kinds (swp x) k)
    && (ok_mark_unconditionally (GC_obj_kinds (prm (hp x)) k) || ok_eager_sweep (sweep_kinds (swp x) k)))
    [] g (seqZ 0 (GC_n_kinds (swp g))) 0%nat) as (g' & j & E & HS & E');
    [by intros k x -> ->|apply NoDup_seqZ|by apply swept_trace_nil|apply all_trace_ok; [done|apply NoDup_seqZ|apply NoDup_seqZ]|done|].
  exists (all_trace Q use (seqZ 1 MAXOBJGRANULES) (seqZ 0 (GC_n_kinds (swp g)))), g'.
  unfold GC_reclaim_unconditionally_marked. rewrite E. cbn [mbind option_bind]. split; [done|]. split; [done|].
  split; [|exact E']. intros k lg. apply blocks_of_all; apply NoDup_seqZ.
Qed.

Lemma entries_ok g (Q : Z -> Z -> list Z) (k lg : Z) (dn rest : list Z) :
  queues_ok g Q -> Q k lg = dn ++ rest -> trace_ok g (entries k lg dn).
Proof.
  intros HQ E. eapply (trace_ok_prefix _ _ (entries k lg rest)). unfold entries. rewrite <- fmap_app, <- E. split.
  - intros k' lg' b (b' & [= -> -> ->] & Hb)%list_elem_of_fmap. by apply HQ.
  - rewrite <- list_fmap_compose. cbn. rewrite list_fmap_id. apply HQ.
Qed.

Lemma continue_reclaim_spec g (Q : Z -> Z -> list Z) (k lg : Z)
    (Hg : gc_ok g) (HQ : queues_ok g Q) (Hl : ok_lists (sweep_kinds (swp g) k) = true) :
  exists dn rest g', GC_continue_reclaim lg k g = Some g' /\ Q k lg = dn ++ rest
    /\ swept_trace g (entries k lg dn) g'
    /\ rl_chain g (head_of (ok_reclaim_list g') k lg) rest
    /\ (rest = [] \/ head_of (ok_freelist g') k lg <> NULL)
    /\ (forall k' lg', (k', lg') <> (k, lg) -> head_of (ok_reclaim_list g') k' lg' = head_of (ok_reclaim_list g) k' lg').
Proof.
  destruct Hg as [Wf Hf]. unfold GC_continue_reclaim. rewrite Hl.
  set (others := fun g' => forall k' lg', (k', lg') <> (k, lg) ->
    head_of (ok_reclaim_list g') k' lg' = head_of (ok_reclaim_list g) k' lg').
  destruct (loop_spec_rel
    (fun n x => exists dn rest, Q k lg = dn ++ rest /\ n = length rest /\ swept_trace g (entries k lg dn) x
       /\ rl_chain g (head_of (ok_reclaim_list x) k lg) rest /\ others x)
    (fun r => exists dn rest g', r = Some g' /\ Q k lg = dn ++ rest /\ swept_trace g (entries k lg dn) g'
       /\ rl_chain g (head_of (ok_reclaim_list g') k lg) rest
       /\ (rest = [] \/ head_of (ok_freelist g') k lg <> NULL) /\ others g')
    (continue_body lg k) (length (Q k lg)) g) as (r & -> & dn & rest & g' & -> & HR);
    [| | |by exists dn, rest, g'].
  - intros n x (dn & rest & Eq & -> & HS & Hc & Ho). unfold continue_body. destruct rest as [|b rest].
    + cbn [rl_chain] in Hc. rewrite Hc, Z.eqb_refl. exists dn, [], x. rewrite Hc. split_and!; try done. by left.
    + assert (HW : trace_ok g (entries k lg dn ++ [(k, lg, b)])).
      { rewrite <- entries_snoc. eapply (entries_ok g Q k lg _ rest HQ). by rewrite <- app_assoc. }
      destruct (pop_step g _ x k lg b rest Hc HS HW) as (Eh & Hb0 & x2 & E & HS2 & Hc2 & Ho2).
      rewrite Eh, (proj2 (Z.eqb_neq b NULL)), E by done. rewrite <- entries_snoc in HS2.
      assert (Ho3 : others x2) by (intros k' lg' Hne; by rewrite Ho2, Ho).
      destruct (Z.eqb_spec (head_of (ok_freelist x2) k lg) NULL) as [En|En]; cbn [negb].
      * exists (length rest). split; [cbn; lia|]. exists (dn ++ [b]), rest. by rewrite <- app_assoc.
      * exists (dn ++ [b]), rest, x2. rewrite <- app_assoc. split_and!; try done. by right.
  - exists [], (Q k lg). split_and!; try done; [by apply swept_trace_nil|apply HQ].
  - apply blocks_length; [apply HQ|]. intros b Hb. by apply (qo_sweepable _ _ HQ) in Hb as [].
Qed.

(** C15: [GC_continue_reclaim] returns, having swept some of the blocks queued for
    the kind and size, from the front, with the effects of [swept_trace] and
    leaving the rest of the queue and all other queues as they were; it stops
    short of the end of the queue only with an object on the free list. *)
Theorem GC_continue_reclaim_correct g (Q : Z -> Z -> list Z) (k lg : Z)
    (Hg : gc_ok g) (HQ : queues_ok g Q) (Hl : ok_lists (sweep_kinds (swp g) k) = true) :
  exists dn rest g', GC_continue_reclaim lg k g = Some g' /\ Q k lg = dn ++ rest
    /\ swept_trace g (entries k lg dn) g'
    /\ rl_chain g (head_of (ok_reclaim_list g') k lg) rest
    /\ (rest = [] \/ head_of (ok_freelist g') k lg <> NULL)
    /\ (forall k' lg', (k', lg') <> (k, lg) -> head_of (ok_reclaim_list g') k' lg' = head_of (ok_reclaim_list g) k' lg').
Proof. by apply continue_reclaim_spec. Qed.

(** With [ignore_old], once more than 65,536 collections have been made, a
    reclaim list is emptied without sweeping any block: the collection number is
    compared in full with the 16 bits kept in the header. *)
Theorem drain_ignores_all g (bs : list Z) (k lg : Z) (i : nat)
    (Hno : 65536 < GC_gc_no (prm (hp g)) < W64) (Hc : rl_chain g (head_of (ok_reclaim_list g) k lg) bs)
    (Hlen : Z.of_nat (length bs) < W64)
    (Hlast : forall b, b ∈ bs -> 0 <= hb_last_reclaimed (ghdr g b) < 65536) :
  exists g' j, drain None true k lg (g, i) = Some (true, (g', j))
    /\ head_of (ok_reclaim_list g') k lg = NULL
    /\ mm g' = mm g /\ ok_freelist g' = ok_freelist g /\ hp g' = hp g /\ GC_bytes_found g' = GC_bytes_found g.
Proof.
  unfold drain.
  destruct (loop_spec_rel
    (fun n s => exists rest, n = length rest /\ (forall b, b ∈ rest -> b ∈ bs)
       /\ rl_chain g (head_of (ok_reclaim_list s.1) k lg) rest
       /\ mm s.1 = mm g /\ ok_freelist s.1 = ok_freelist g /\ hp s.1 = hp g /\ GC_bytes_found s.1 = GC_bytes_found g)
    (fun r => exists g' j, r = Some (true, (g', j)) /\ head_of (ok_reclaim_list g') k lg = NULL
       /\ mm g' = mm g /\ ok_freelist g' = ok_freelist g /\ hp g' = hp g /\ GC_bytes_found g' = GC_bytes_found g)
    (drain_body None true k lg) (length bs) (g, i)) as (r & -> & g' & j & -> & HR); [| |done|by exists g', j].
  - intros n [x i1] (rest & -> & Hin & Hr & Em & Ef & Eh & Eb). cbn [fst] in *. unfold drain_body.
    destruct rest as [|b rest]; cbn [rl_chain] in Hr.
    + rewrite Hr, Z.eqb_refl. exists x, i1. by rewrite Hr.
    + destruct Hr as (-> & Hb0 & Hr). rewrite (proj2 (Z.eqb_neq b NULL)) by done. cbn [asked_to_stop negb orb].
      change (hp (set_reclaim_list k lg _ x)) with (hp x). assert (Eg : ghdr x b = ghdr g b) by (unfold ghdr; by rewrite Eh).
      rewrite Eh, Eg. specialize (Hlast b (Hin b ltac:(by left))).
      rewrite (proj2 (Z.eqb_neq (hb_last_reclaimed (ghdr g b)) _)).
      2:{ unfold wrap64. rewrite Z.mod_small by lia. lia. }
      exists (length rest). split; [cbn; lia|]. exists rest. cbn [fst]. split_and!; try done.
      * intros b' Hb'. apply Hin. by right.
      * unfold head_of. cbn [ok_reclaim_list set_reclaim_list]. by rewrite lookup_insert_eq.
  - by exists bs.
Qed.

End ReclaimOk.

(** ** Witnesses: one queued block of three-granule objects, the first one marked *)

Definition sample_swp : sweep_params :=
  SweepParams 3 (fun _ => SweepKind true false true (fun _ m => (false, m))) false false.
Definition queued_hdr : hdr := Hdr 0 0 1048576 1 0 5 48 48 (Some 3) 1 {[0 := 1]}.
Definition sample_queue (k lg : Z) : list Z := if decide ((k, lg) = (1, 3)) then [1048576] else [].

Lemma sample_gc :
  exists g : gc hdr_state, gc_ok g /\ queues_ok g sample_queue /\ swp g = sample_swp
    /\ ghdr g 1048576 = queued_hdr /\ prm (hp g) = AllchblkFree.sample_params
    /\ head_of (ok_reclaim_list g) 1 3 = 1048576 /\ mm g = ∅ /\ ok_freelist g = ∅ /\ GC_bytes_found g = 0.
Proof.
  destruct HeapInv.sample_heap as (s & K & _ & [_ Hp] & _).
  set (g0 := Gc (AllchblkFree.sample_heap_of s) ∅ ∅ {[(1, 3) := 1048576]} 0 0 0 0 [] ∅ 0 false sample_swp).
  assert (W0 : ht_wf (tbl (fls (hp g0)))) by apply K.
  destruct (gwrite_spec g0 1048576 queued_hdr W0 Hp) as (W & D & B & P). exists (gwrite 1048576 queued_hdr g0).
  assert (E : ghdr (gwrite 1048576 queued_hdr g0) 1048576 = queued_hdr) by (by rewrite B, decide_True).
  split; [split; [exact W|by vm_compute]|]. split; [|by split_and!]. split.
  - intros k lg. unfold sample_queue, head_of. cbn [ok_reclaim_list gwrite set_hp g0].
    destruct (decide ((k, lg) = (1, 3))) as [[= -> ->]|Hne].
    + rewrite lookup_singleton_eq. cbn [default rl_chain]. rewrite E. by split_and!.
    + by rewrite lookup_singleton_ne by congruence.
  - intros k lg b. unfold sample_queue. case_decide as Ek; [|by intros ?%elem_of_nil].
    injection Ek as -> ->. intros ->%list_elem_of_singleton. split; rewrite ?E; try done.
  - intros k lg. unfold sample_queue. case_decide; [apply NoDup_singleton|constructor].
Qed.

Lemma GC_reclaim_all_correct_witness :
  exists (g g' : gc hdr_state) W, GC_reclaim_all None false g = Some (true, g') /\ swept_trace g W g'
    /\ blocks_of W 1 3 = [1048576] /\ head_of (ok_reclaim_list g) 1 3 = 1048576
    /\ head_of (ok_reclaim_list g') 1 3 = NULL.
Proof.
  destruct sample_gc as (g & Hg & HQ & Es & _ & _ & Eh & _).
  destruct (GC_reclaim_all_correct g sample_queue Hg HQ) as (W & g' & E & HS & Hb & Hn). exists g, g', W.
  rewrite Es in Hn. split; [exact E|]. split; [exact HS|]. rewrite Hb, Es. split_and!; [reflexivity|exact Eh|].
  by apply Hn.
Defined.

Lemma GC_reclaim_unconditionally_marked_correct_witness :
  exists (g g' : gc hdr_state) W, GC_reclaim_unconditionally_marked g = Some g' /\ swept_trace g W g'
    /\ blocks_of W 1 3 = [] /\ head_of (ok_reclaim_list g') 1 3 = 1048576.
Proof.
  destruct sample_gc as (g & Hg & HQ & Es & _ & Ep & Eh & _).
  destruct (GC_reclaim_unconditionally_marked_correct g sample_queue Hg HQ) as (W & g' & E & HS & Hb & Hn).
  exists g, g', W. split; [exact E|]. split; [exact HS|]. rewrite Hb, Hn, Es, Ep. split; [reflexivity|exact Eh].
Defined.

Lemma GC_continue_reclaim_correct_witness :
  exists (g g' : gc hdr_state) dn rest, GC_continue_reclaim 3 1 g = Some g' /\ dn ++ rest = [1048576]
    /\ swept_trace g (entries 1 3 dn) g' /\ (rest = [] \/ head_of (ok_freelist g') 1 3 <> NULL).
Proof.
  destruct sample_gc as (g & Hg & HQ & Es & _).
  destruct (GC_continue_reclaim_correct g sample_queue 1 3 Hg HQ) as (dn & rest & g' & E & Eq & HS & _ & Hr & _);
    [by rewrite Es|]. exists g, g', dn, rest. split; [exact E|]. split; [by rewrite <- Eq|]. by split.
Defined.

Lemma drain_ignores_all_witness :
  exists (g g' : gc hdr_state) j, GC_gc_no (prm (hp g)) = 65543 /\ hb_last_reclaimed (ghdr g 1048576) = 5
    /\ drain None true 1 3 (g, 0%nat) = Some (true, (g', j)) /\ mm g' = ∅
    /\ head_of (ok_reclaim_list g') 1 3 = NULL.
Proof.
  destruct sample_gc as (g & _ & HQ & _ & Eh & _ & Eq & Em & _).
  set (p := Params (fun k => ObjKind 0 (k =? 1) false false) 65543 1000000 0 0 0 0 false false false false 5).
  set (h := hp g). set (g1 := set_hp (Heap (fls h) (obj_map h) (bls h) p 0 0 0 0 0 []) g).
  destruct (drain_ignores_all g1 [1048576] 1 3 0%nat) as (g' & j & E & Hn & E' & _).
  - by vm_compute.
  - exact (qo_chain _ _ HQ 1 3).
  - by vm_compute.
  - intros b ->%list_elem_of_singleton. change (ghdr g1 1048576) with (ghdr g 1048576). rewrite Eh. by vm_compute.
  - exists g1, g', j. split; [reflexivity|]. split; [change (ghdr g1 1048576) with (ghdr g 1048576); by rewrite Eh|].
    split; [exact E|]. split; [by rewrite E'|exact Hn].
Defined.

End ReclaimOk.
