(* ===== verification/ReclaimBlock.v ===== *)
(** * The decision about a block, leaks, and clearing of free lists (reclaim.c)

    [GC_reclaim_block] either gives a block back to the block allocator, or puts
    it on the reclaim list of its kind and size, or leaves it alone, and counts
    what stays in use.  In leak-detection mode unmarked objects are reported
    instead.  Before a sweep [GC_start_reclaim] drops the old free lists. *)

From Stdlib Require Import ZArith Lia.
From stdpp Require Import base gmap list.
From S2P Require Import Prelude BlackList Scratch Hblk Headers HeadersNav HdrIface MarkBits ObjMap NewHblk Sweep FreeList Allchblk HeapInv AllchblkFree Reclaim ReclaimOk.

Module ReclaimBlock.
Import Headers HdrIface MarkBits NewHblk Sweep FreeList Allchblk HeapInv AllchblkFree Reclaim ReclaimOk.

Section ReclaimBlock.
Context {T : Type} `{HeaderTable T} `{!HeaderTableLaws T}.
Implicit Types (g : gc T).

Abbreviation tb g := (fls (hp g)).

(** ** Dropping a free list *)

Lemma clear_links_spec (m : mem) (o : Z) (objs : list Z) :
  fl_seg m o (o :: objs) NULL -> NoDup (o :: objs) -> NULL ∉ o :: objs -> Z.of_nat (length objs) < W64 ->
  exists m', loop clear_links_body (o, m) = Some m'
    /\ (forall x, x ∈ o :: objs -> m' !! x = Some NULL) /\ (forall a, a ∉ o :: objs -> m' !! a = m !! a).
Proof.
  intros Hs Hnd H0 Hl.
  apply (loop_spec_rel
    (fun n s => exists dn rest, o :: objs = dn ++ s.1 :: rest /\ n = length rest
       /\ fl_seg s.2 s.1 (s.1 :: rest) NULL
       /\ (forall x, x ∈ dn -> s.2 !! x = Some NULL) /\ (forall a, a ∉ o :: objs -> s.2 !! a = m !! a)) _ _ (length objs));
    [|by exists [], objs; split_and!; [..|by intros x Hx%elem_of_nil|]|done].
  intros n [p m1] (dn & rest & El & -> & Hs1 & Hd & Ho). cbn [fst snd] in *. unfold clear_links_body.
  destruct Hs1 as [_ (next & Hn & Hs1)]. unfold mread. rewrite Hn. change (default 0 (Some next)) with next.
  assert (Hp : p ∉ dn /\ p ∉ rest).
  { rewrite El in Hnd. apply NoDup_app in Hnd as (_ & Hd1 & Hnd%NoDup_cons). split; [|apply Hnd].
    intros Hin. apply (Hd1 p Hin). by left. }
  destruct rest as [|q rest].
  - cbn [fl_seg] in Hs1. subst next. cbn. split; [|done]. rewrite El. intros x [Hx|Hx]%elem_of_app; [by apply Hd|].
    apply list_elem_of_singleton in Hx as ->. exact Hn.
  - cbn [fl_seg] in Hs1. destruct Hs1 as [-> Hs1].
    assert (Hq : q <> NULL).
    { intros ->. apply H0. rewrite El. apply elem_of_app. right. right. by left. }
    rewrite (proj2 (Z.eqb_neq q NULL)) by done. cbn [negb]. exists (length rest). split; [cbn; lia|].
    exists (dn ++ [p]), rest. cbn [fst snd]. split_and!; [by rewrite <- app_assoc|done| | |].
    + eapply (fl_seg_frame m1); [|by split]. intros x Hx. rewrite lookup_insert_ne; [done|]. intros ->. by destruct Hp.
    + intros x [Hx|Hx]%elem_of_app.
      * rewrite lookup_insert_ne; [by apply Hd|]. intros ->. by destruct Hp.
      * apply list_elem_of_singleton in Hx as ->. apply lookup_insert_eq.
    + intros a Ha. rewrite lookup_insert_ne; [by apply Ho|]. intros ->. apply Ha. rewrite El.
      apply elem_of_app. right. by left.
Qed.

(** [GC_clear_fl_links] ends on every free list that ends in [NULL]: the list
    is then empty, the links of all its objects are [NULL], and nothing else in
    memory has changed. *)
Theorem GC_clear_fl_links_correct g (kind lg : Z) (objs : list Z)
    (Hs : fl_seg (mm g) (head_of (ok_freelist g) kind lg) objs NULL) (Hnd : NoDup objs) (H0 : NULL ∉ objs)
    (Hl : Z.of_nat (length objs) < W64) :
  exists g', GC_clear_fl_links kind lg g = Some g' /\ head_of (ok_freelist g') kind lg = NULL
    /\ (forall o, o ∈ objs -> mm g' !! o = Some NULL) /\ (forall a, a ∉ objs -> mm g' !! a = mm g !! a).
Proof.
  unfold GC_clear_fl_links. destruct objs as [|o objs].
  - cbn [fl_seg] in Hs. rewrite Hs. cbn. exists g. split_and!; try done. by intros o Ho%elem_of_nil.
  - assert (Eo : head_of (ok_freelist g) kind lg = o) by apply Hs. rewrite Eo.
    rewrite (proj2 (Z.eqb_neq o NULL)) by (intros ->; apply H0; by left). cbn [negb].
    change (mm (set_freelist kind lg NULL g)) with (mm g). rewrite Eo in Hs.
    destruct (clear_links_spec (mm g) o objs Hs Hnd H0) as (m' & E & Hin & Hout); [cbn in Hl; lia|].
    rewrite E. eexists. split; [done|]. split; [|done]. unfold head_of. cbn [ok_freelist set_mm set_freelist].
    by rewrite lookup_insert_eq.
Qed.

(** ** Blocks to free *)

(** Nothing in the block is marked. *)
Definition unused g (b : Z) : bool :=
  let x := ghdr g b in
  if MAXOBJBYTES <? hb_sz x then negb (mark_bit_from_hdr x 0) else GC_block_empty x.

(** The effects on the small-object state that both freeing and keeping share. *)
Definition same_objects g g' : Prop :=
  mm g' = mm g /\ ok_freelist g' = ok_freelist g /\ swp g' = swp g /\ GC_leaked g' = GC_leaked g.

(** C13: [GC_reclaim_block] gives a block without marks, whether one large object
    or many small ones, back to the block allocator, with all that [GC_freehblk]
    guarantees: the heap's invariants hold, the block is free and merged with its
    neighbours, other blocks in use are untouched.  The bytes found grow by the
    size of the large object or by a block; [GC_large_allocd_bytes] shrinks by the
    blocks of an object larger than one block; object memory, free lists and
    reclaim lists stay. *)
Theorem GC_reclaim_block_frees g (L : Z -> list Z) (b : Z)
    (K : heap_ok (tb g) L) (A : all_listed (tb g) L) (Hb : start (HDRs (tb g)) b)
    (Hf : HBLK_IS_FREE (ghdr g b) = false) (Hx : extent (ghdr g b) < 2 ^ 63)
    (Hd : flag_set (hb_flags (ghdr g b)) HAS_DISCLAIM = false) (Hu : unused g b = true) :
  let sz := hb_sz (ghdr g b) in
  exists g' L', GC_reclaim_block b false g = Some g' /\ freed (tb g) (tb g') L' b
    /\ GC_bytes_found g' = wrap64 (GC_bytes_found g + (if MAXOBJBYTES <? sz then sz else HBLKSIZE))
    /\ GC_large_allocd g' = (if HBLKSIZE <? sz then wrap64 (GC_large_allocd g - extent (ghdr g b)) else GC_large_allocd g)
    /\ same_objects g g' /\ ok_reclaim_list g' = ok_reclaim_list g.
Proof.
  cbn zeta. unfold GC_reclaim_block, unused in *. cbn zeta in Hu.
  destruct (freehblk_spec (hp g) L b K A Hb Hf Hx) as (h' & L' & E & F & _).
  destruct (Z.ltb_spec MAXOBJBYTES (hb_sz (ghdr g b))) as [Hlarge|Hsmall].
  - unfold reclaim_large. rewrite Hd, Hu. cbn zeta.
    assert (Ex : extent (ghdr g b) = HBLKSIZE * OBJ_SZ_TO_BLOCKS (hb_sz (ghdr g b))) by (unfold extent; by rewrite Hf).
    rewrite Ex. destruct (Z.ltb_spec HBLKSIZE (hb_sz (ghdr g b)));
      cbn [hp set_found set_large_allocd set_mm]; rewrite E; cbn [mbind option_bind];
      eexists _, L'; (split; [done|]); by split.
  - unfold reclaim_small. rewrite Hu, Hd. cbn zeta. cbn [hp set_found]. rewrite E. cbn [mbind option_bind].
    assert (Hn : (HBLKSIZE <? hb_sz (ghdr g b)) = false).
    { apply Z.ltb_ge. change MAXOBJBYTES with 2048 in Hsmall. change HBLKSIZE with 4096. lia. }
    rewrite Hn. eexists _, L'. split; [done|]. unfold add_in_use. by destruct IS_PTRFREE_SAFE.
Qed.

(** ** Blocks to keep *)

(** Putting block [b] in front of the list of its kind and size. *)
Definition push_queue (Q : Z -> Z -> list Z) (k lg b k' lg' : Z) : list Z :=
  if decide ((k', lg') = (k, lg)) then b :: Q k lg else Q k' lg'.

Lemma rl_chain_ext g g' (h : Z) (bs : list Z) :
  (forall b, b ∈ bs -> ghdr g' b = ghdr g b) -> rl_chain g h bs -> rl_chain g' h bs.
Proof.
  revert h. induction bs as [|b bs IH]; intros h Hb; cbn [rl_chain]; [done|].
  intros (-> & Hb0 & Hc). split; [done|]. split; [done|]. rewrite Hb by (by left). apply IH; [|done].
  intros b' Hb'. apply Hb. by right.
Qed.

Lemma sweepable_ext g g' (k lg b : Z) :
  HDRs (tb g') b = HDRs (tb g) b -> hb_obj_kind (ghdr g' b) = hb_obj_kind (ghdr g b) ->
  hb_sz (ghdr g' b) = hb_sz (ghdr g b) -> hb_flags (ghdr g' b) = hb_flags (ghdr g b) ->
  sweepable g k lg b -> sweepable g' k lg b.
Proof.
  intros E1 E2 E3 E4 [? ? ? ? ? ? ?]. split; rewrite ?E2, ?E3, ?E4; try done. unfold has_hdr. by rewrite E1.
Qed.

(** A block is only on the list for the kind and size in its header. *)
Lemma queue_unique g (Q : Z -> Z -> list Z) (k lg k' lg' b : Z) :
  queues_ok g Q -> sweepable g k lg b -> b ∈ Q k' lg' -> (k', lg') = (k, lg).
Proof.
  intros HQ Hb Hin. apply (qo_sweepable _ _ HQ) in Hin. destruct Hin as [_ _ _ _ <- S1 _], Hb as [_ _ _ _ <- S2 _].
  rewrite S1 in S2. f_equal. unfold GRANULES_TO_BYTES, GC_GRANULE_BYTES in S2. lia.
Qed.

(** Whether the sparse block is worth sweeping. *)
Definition worth_sweeping g (k b : Z) : bool :=
  GC_find_leak_inner (prm (hp g)) || negb (GC_block_nearly_full (ghdr g b) (hb_sz (ghdr g b)))
  || ok_eager_sweep (sweep_kinds (swp g) k).

Lemma enqueue_spec g (Q : Z -> Z -> list Z) (k lg b : Z) :
  gc_ok g -> queues_ok g Q -> sweepable g k lg b -> b ∉ Q k lg -> ok_lists (sweep_kinds (swp g) k) = true ->
  worth_sweeping g k b = true ->
  gc_ok (enqueue b (hb_sz (ghdr g b)) g) /\ queues_ok (enqueue b (hb_sz (ghdr g b)) g) (push_queue Q k lg b)
  /\ same_objects g (enqueue b (hb_sz (ghdr g b)) g)
  /\ hread (hp (enqueue b (hb_sz (ghdr g b)) g)) (hptr (hp g) b)
     = set_hb_next (head_of (ok_reclaim_list g) k lg) (ghdr g b)
  /\ GC_bytes_found (enqueue b (hb_sz (ghdr g b)) g) = GC_bytes_found g
  /\ (GC_composite_in_use (enqueue b (hb_sz (ghdr g b)) g), GC_atomic_in_use (enqueue b (hb_sz (ghdr g b)) g))
     = (GC_composite_in_use g, GC_atomic_in_use g).
Proof.
  intros [Wf Hf] HQ Hb Hni Hl Hw. unfold enqueue, worth_sweeping, kind_of in *. cbn zeta.
  rewrite (sb_kind _ _ _ _ Hb), Hw, Hl.
  assert (Eg : BYTES_TO_GRANULES (hb_sz (ghdr g b)) = lg).
  { rewrite (sb_sz _ _ _ _ Hb). unfold BYTES_TO_GRANULES, GRANULES_TO_BYTES, GC_GRANULE_BYTES. apply Z.div_mul. lia. }
  rewrite Eg. set (x := set_hb_next (head_of (ok_reclaim_list g) k lg) (ghdr g b)).
  destruct (gwrite_spec g b x Wf (sb_hdr _ _ _ _ Hb)) as (W1 & D1 & B1 & P1).
  set (g1 := set_reclaim_list k lg b (gwrite b x g)). change (ghdr (gwrite b x g)) with (ghdr g1) in B1.
  assert (E1 : ghdr g1 b = x) by (by rewrite B1, decide_True).
  assert (Eo : forall k' lg' b', b' ∈ Q k' lg' -> ghdr g1 b' = ghdr g b').
  { intros k' lg' b' Hb'. rewrite B1, decide_False; [done|]. intros Hs.
    assert (b' = b) as ->.
    { apply aligned_same_blk; [|apply Hb|done]. apply (sb_align _ _ _ _ (qo_sweepable _ _ HQ _ _ _ Hb')). }
    pose proof (queue_unique g Q k lg k' lg' b HQ Hb Hb') as [= -> ->]. done. }
  split; [done|]. split; [|split; [done|split; [|done]]].
  2:{ transitivity (ghdr g1 b); [|exact E1]. unfold ghdr. f_equal. symmetry. apply D1. }
  split.
  - intros k' lg'. unfold push_queue, head_of. cbn [ok_reclaim_list set_reclaim_list g1].
    destruct (decide ((k', lg') = (k, lg))) as [[= -> ->]|Hne].
    + rewrite lookup_insert_eq. cbn [rl_chain]. split; [done|]. split; [pose proof (sb_range _ _ _ _ Hb); lia|].
      rewrite E1. apply (rl_chain_ext g); [by apply Eo|apply HQ].
    + rewrite lookup_insert_ne by congruence. apply (rl_chain_ext g); [by apply Eo|apply HQ].
  - intros k' lg' b'. unfold push_queue. destruct (decide ((k', lg') = (k, lg))) as [[= -> ->]|Hne].
    + intros [->|Hin]%elem_of_cons; [apply (sweepable_ext g); rewrite ?E1; first [done|apply D1]|].
      apply (sweepable_ext g); rewrite ?(Eo _ _ _ Hin); first [done|apply D1|by apply HQ].
    + intros Hin. apply (sweepable_ext g); rewrite ?(Eo _ _ _ Hin); first [done|apply D1|by apply HQ].
  - intros k' lg'. unfold push_queue. case_decide; [|apply HQ]. apply NoDup_cons. split; [done|apply HQ].
Qed.

Lemma queues_ok_in_use g (Q : Z -> Z -> list Z) (c a : Z) : queues_ok g Q -> queues_ok (set_in_use c a g) Q.
Proof.
  intros [Q1 Q2 Q3]. split; [intros k lg; by apply (rl_chain_ext g)| |done].
  intros k lg b Hb. by apply (sweepable_ext g), Q2.
Qed.

(** C14: a block of small objects with some marks is kept by [GC_reclaim_block].
    It is put in front of the reclaim list of its kind and size, and the lists are
    in order afterwards, unless more than seven eighths of its objects are marked
    and neither leak detection nor an eager kind asks for it.  The marked bytes are
    added to the atomic or the composite total; object memory, free lists and the
    bytes found stay. *)
Theorem GC_reclaim_block_queues g (Q : Z -> Z -> list Z) (k lg b : Z)
    (Hg : gc_ok g) (HQ : queues_ok g Q) (Hb : sweepable g k lg b) (Hni : b ∉ Q k lg)
    (Hl : ok_lists (sweep_kinds (swp g) k) = true) (Hm : hb_n_marks (ghdr g b) <> 0) :
  let n := wrap64 (GRANULES_TO_BYTES lg * hb_n_marks (ghdr g b)) in
  exists g', GC_reclaim_block b false g = Some g' /\ gc_ok g'
    /\ queues_ok g' (if worth_sweeping g k b then push_queue Q k lg b else Q)
    /\ same_objects g g' /\ GC_bytes_found g' = GC_bytes_found g
    /\ (GC_composite_in_use g', GC_atomic_in_use g')
       = (if hb_descr (ghdr g b) =? 0 then (GC_composite_in_use g, wrap64 (GC_atomic_in_use g + n))
          else (wrap64 (GC_composite_in_use g + n), GC_atomic_in_use g)).
Proof.
  cbn zeta. unfold GC_reclaim_block.
  assert (Hs : (MAXOBJBYTES <? hb_sz (ghdr g b)) = false).
  { rewrite (sb_sz _ _ _ _ Hb). apply Z.ltb_ge. pose proof (sb_lg _ _ _ _ Hb) as Hlg. change MAXOBJGRANULES with 128 in Hlg.
    unfold GRANULES_TO_BYTES, GC_GRANULE_BYTES. change MAXOBJBYTES with 2048. lia. }
  rewrite Hs. unfold reclaim_small, GC_block_empty. rewrite (proj2 (Z.eqb_neq _ 0) Hm). cbn zeta. cbn [mbind option_bind].
  destruct (worth_sweeping g k b) eqn:Ew.
  - destruct (enqueue_spec g Q k lg b Hg HQ Hb Hni Hl Ew) as (G1 & Q1 & S1 & E1 & F1 & C1).
    set (g1 := enqueue b (hb_sz (ghdr g b)) g) in *. injection C1 as C1 C2.
    rewrite E1. eexists. split; [done|]. cbn [hb_n_marks hb_descr set_hb_next]. rewrite (sb_sz _ _ _ _ Hb).
    unfold add_in_use, IS_PTRFREE_SAFE. cbn [hb_descr set_hb_next].
    destruct (hb_descr (ghdr g b) =? 0); cbn [GC_composite_in_use GC_atomic_in_use set_in_use]; rewrite C1, C2;
      (split_and!; [exact G1|by apply queues_ok_in_use|exact S1|exact F1|done]).
  - assert (En : enqueue b (hb_sz (ghdr g b)) g = g).
    { unfold enqueue, worth_sweeping, kind_of in *. cbn zeta. by rewrite (sb_kind _ _ _ _ Hb), Ew. }
    rewrite En. change (hread (hp g) (hptr (hp g) b)) with (ghdr g b). eexists. split; [done|].
    rewrite (sb_sz _ _ _ _ Hb). unfold add_in_use, IS_PTRFREE_SAFE.
    destruct (hb_descr (ghdr g b) =? 0);
      (split_and!; [exact Hg|by apply queues_ok_in_use|done|done|done]).
Qed.

(** ** Leaks *)

(** Marking an object through [GC_set_mark_bit]. *)
Lemma set_mark_bit_marked (x : hdr) (b p o : Z) :
  b mod 4096 = 0 -> same_blk p b ->
  obj_marked (GC_set_mark_bit p x) b o = bool_decide (BYTES_TO_GRANULES (p - b) = BYTES_TO_GRANULES (o - b)) || obj_marked x b o.
Proof.
  intros Hb Hp. unfold GC_set_mark_bit, bit_of, MARK_BIT_NO, obj_marked. rewrite PTR_ALIGN_DOWN_hblk.
  replace (p - p mod 4096) with b by (unfold same_blk in Hp; dlia). cbn zeta.
  destruct (mark_bit_from_hdr x (BYTES_TO_GRANULES (p - b))) eqn:E; cbn [negb].
  - case_bool_decide as Ed; [|done]. rewrite <- Ed, E. done.
  - by rewrite mark_bit_frame, mark_bit_set.
Qed.

Lemma set_mark_bit_same (x : hdr) (p : Z) : same_block_hdr x (GC_set_mark_bit p x).
Proof. unfold GC_set_mark_bit. cbn zeta. destruct negb; [done|apply same_block_hdr_refl]. Qed.

(** What reporting never touches. *)
Definition reporting_keeps g g' : Prop :=
  mm g' = mm g /\ ok_freelist g' = ok_freelist g /\ ok_reclaim_list g' = ok_reclaim_list g
  /\ GC_bytes_found g' = GC_bytes_found g /\ swp g' = swp g.

Section Check.
Context (g : gc T) (k lg b : Z) (Wf : ht_wf (tbl (tb g))) (Hb : sweepable g k lg b).
Context (Hdelay : GC_findleak_delay_free (swp g) = false).

Abbreviation sz := (GRANULES_TO_BYTES lg).
Abbreviation leaks n := (unmarked (ghdr g b) b sz n).

(** After [n] objects. *)
Record checked (n : nat) g' : Prop := {
  ck_wf : ht_wf (tbl (tb g'));
  ck_HDR : forall p, HDRs (tb g') p = HDRs (tb g) p;
  ck_keeps : reporting_keeps g g';
  ck_other : forall q, ~ same_blk q b -> ghdr g' q = ghdr g q;
  ck_self : same_block_hdr (ghdr g b) (ghdr g' b);
  ck_rest : forall j, (n <= j)%nat -> obj_marked (ghdr g' b) b (b + sz * Z.of_nat j) = obj_marked (ghdr g b) b (b + sz * Z.of_nat j);
  ck_leaked : GC_leaked g' = GC_leaked g ++ take (MAX_LEAKED - length (GC_leaked g)) (leaks n);
  ck_marked : forall o, o ∈ take (MAX_LEAKED - length (GC_leaked g)) (leaks n) -> obj_marked (ghdr g' b) b o = true;
  ck_errors : GC_have_errors g' = GC_have_errors g || negb (bool_decide (leaks n = []))
}.

Lemma sz_bounds : 16 <= sz <= HBLKSIZE /\ sz mod 16 = 0.
Proof.
  destruct Hb as [_ _ _ Hlg _ _ _]. change MAXOBJGRANULES with 128 in Hlg. change HBLKSIZE with 4096.
  unfold GRANULES_TO_BYTES, GC_GRANULE_BYTES. split; [lia|]. apply Z_mod_mult.
Qed.

Lemma obj_in_block (n : nat) : (n < n_objs sz)%nat -> same_blk (b + sz * Z.of_nat n) b.
Proof.
  intros Hn. destruct (n_objs_bounds lg (sb_lg _ _ _ _ Hb)) as (_ & Hle & _). change HBLKSIZE with 4096 in Hle.
  destruct sz_bounds as [Hs _]. pose proof (sb_align _ _ _ _ Hb). unfold same_blk.
  assert (0 <= sz * Z.of_nat n < 4096) by nia. dlia.
Qed.

(** Reporting object [n]. *)
Lemma add_leaked_spec (n : nat) g' :
  (n < n_objs sz)%nat -> checked n g' -> obj_marked (ghdr g b) b (b + sz * Z.of_nat n) = false ->
  checked (S n) (GC_add_leaked (b + sz * Z.of_nat n) g').
Proof.
  intros Hn [W D [K1 [K2 [K3 [K4 K5]]]] O Sm R L M E] Em. set (p := b + sz * Z.of_nat n) in *.
  unfold GC_add_leaked. rewrite K5, Hdelay. cbn [negb]. cbn zeta.
  assert (El : leaks (S n) = leaks n ++ [p]) by (rewrite unmarked_S; fold p; by rewrite Em).
  assert (Ee : GC_have_errors g || negb (bool_decide (leaks (S n) = [])) = true).
  { rewrite El, bool_decide_false; [apply orb_true_r|]. by intros [_ ?]%app_eq_nil. }
  change (GC_leaked (set_leaked (GC_leaked g') true g')) with (GC_leaked g').
  destruct (Nat.ltb_spec (length (GC_leaked g')) MAX_LEAKED) as [Hlt|Hge].
  - set (g1 := set_leaked (GC_leaked g' ++ [p]) true (set_leaked (GC_leaked g') true g')).
    assert (Hp : same_blk p b) by (by apply obj_in_block).
    assert (Hhp : has_hdr (tb g1) p).
    { assert (E2 : HDRs (tb g1) p = HDRs (tb g) b).
      { transitivity (HDRs (tb g') b); [by apply hl_block|apply D]. }
      unfold has_hdr. rewrite E2. apply Hb. }
    assert (Ehb : ghdr g1 p = ghdr g' b) by (apply hdrb_blk; exact Hp).
    unfold mark_object. rewrite Ehb.
    destruct (gwrite_spec g1 p (GC_set_mark_bit p (ghdr g' b)) W Hhp) as (W2 & D2 & B2 & P2).
    set (g2 := gwrite p (GC_set_mark_bit p (ghdr g' b)) g1) in *.
    assert (Eb2 : ghdr g2 b = GC_set_mark_bit p (ghdr g' b)) by (rewrite B2, decide_True by (symmetry; exact Hp); done).
    assert (Hlen : take (MAX_LEAKED - length (GC_leaked g)) (leaks (S n))
                   = take (MAX_LEAKED - length (GC_leaked g)) (leaks n) ++ [p]).
    { rewrite L, length_app, length_take in Hlt. rewrite El, take_app_ge, (take_ge (leaks n)) by lia.
      f_equal. apply take_ge. cbn [length]. lia. }
    destruct sz_bounds as [Hs H16].
    split.
    + exact W2.
    + intros q. rewrite D2. apply D.
    + done.
    + intros q Hq. rewrite B2, decide_False; [by apply O|]. intros Hqp. apply Hq. unfold same_blk in *. congruence.
    + rewrite Eb2. eapply same_block_hdr_trans; [exact Sm|apply set_mark_bit_same].
    + intros j Hj. rewrite Eb2, set_mark_bit_marked by (apply Hb || done). rewrite bool_decide_false; [apply R; lia|].
      unfold p, BYTES_TO_GRANULES, GC_GRANULE_BYTES.
      replace (b + sz * Z.of_nat n - b) with (Z.of_nat n * lg * 16) by (unfold GRANULES_TO_BYTES, GC_GRANULE_BYTES; lia).
      replace (b + sz * Z.of_nat j - b) with (Z.of_nat j * lg * 16) by (unfold GRANULES_TO_BYTES, GC_GRANULE_BYTES; lia).
      rewrite !Z.div_mul by lia. pose proof (sb_lg _ _ _ _ Hb). nia.
    + rewrite Hlen, app_assoc, <- L. done.
    + intros o. rewrite Hlen, Eb2, set_mark_bit_marked by (apply Hb || done).
      intros [Ho|Ho]%elem_of_app; [rewrite (M o Ho); apply orb_true_r|].
      apply list_elem_of_singleton in Ho as ->. by rewrite bool_decide_true by done.
    + by rewrite Ee.
  - assert (Hlen : take (MAX_LEAKED - length (GC_leaked g)) (leaks (S n))
                   = take (MAX_LEAKED - length (GC_leaked g)) (leaks n)).
    { rewrite L, length_app, length_take in Hge. rewrite El, take_app_le by lia. done. }
    split; try done.
    + intros j Hj. apply R. lia.
    + rewrite Hlen. exact L.
    + rewrite Hlen. exact M.
Qed.

Lemma checked_skip (n : nat) g' :
  checked n g' -> obj_marked (ghdr g b) b (b + sz * Z.of_nat n) = true -> checked (S n) g'.
Proof.
  intros [W D K O Sm R L M E] Em. assert (El : leaks (S n) = leaks n) by (rewrite unmarked_S, Em; apply app_nil_r).
  split; rewrite ?El; try done. intros j Hj. apply R. lia.
Qed.

Lemma reclaim_check_spec : exists g', GC_reclaim_check b sz g = Some g' /\ checked (n_objs sz) g'.
Proof.
  unfold GC_reclaim_check. destruct sz_bounds as [Hs H16].
  destruct (loop_count (fun n s => exists g', s = (Z.of_nat n * MARK_BIT_OFFSET sz, b + sz * Z.of_nat n, g') /\ checked n g')
    (checked (n_objs sz)) (reclaim_check_body b sz (b + HBLKSIZE - sz)) (n_objs sz) (0, b, g)) as (g' & E & HC);
    [by apply n_objs_W64| | | |by exists g'].
  - intros n s Hn (g' & -> & HC). unfold reclaim_check_body. rewrite last_object, bool_decide_true by done.
    rewrite (bit_of_object b), (ck_rest _ _ HC n) by (done || lia). eexists. split; [done|].
    eexists. split; [by rewrite next_bit, next_object|].
    destruct (obj_marked (ghdr g b) b (b + sz * Z.of_nat n)) eqn:Em; cbn [negb];
      [by apply checked_skip|by apply add_leaked_spec].
  - intros s (g' & -> & HC). unfold reclaim_check_body. rewrite last_object, bool_decide_false by (done || lia). eauto.
  - exists g. split; [cbn [Z.of_nat]; by rewrite Z.mul_0_l, Z.mul_0_r, Z.add_0_r|].
    split; try done; [apply same_block_hdr_refl| | |].
    + change (leaks 0%nat) with (@nil Z). by rewrite take_nil, app_nil_r.
    + change (leaks 0%nat) with (@nil Z). rewrite take_nil. by intros o Ho%elem_of_nil.
    + by rewrite bool_decide_true, orb_false_r by done.
Qed.
End Check.

(** In leak-detection mode a block's unmarked objects are reported in address
    order, as far as there is room for them, and marked so that they survive;
    errors are flagged if there was any; nothing is reclaimed: object memory, free
    lists, reclaim lists, the bytes found and all other headers stay. *)
Theorem GC_reclaim_check_correct g (k lg b : Z) (Wf : ht_wf (tbl (tb g))) (Hb : sweepable g k lg b)
    (Hdelay : GC_findleak_delay_free (swp g) = false) :
  let sz := GRANULES_TO_BYTES lg in
  let leaks := unmarked (ghdr g b) b sz (n_objs sz) in
  exists g', GC_reclaim_check b sz g = Some g' /\ reporting_keeps g g'
    /\ GC_leaked g' = GC_leaked g ++ take (MAX_LEAKED - length (GC_leaked g)) leaks
    /\ (forall o, o ∈ take (MAX_LEAKED - length (GC_leaked g)) leaks -> obj_marked (ghdr g' b) b o = true)
    /\ GC_have_errors g' = GC_have_errors g || negb (bool_decide (leaks = []))
    /\ (forall q, ~ same_blk q b -> ghdr g' q = ghdr g q).
Proof.
  cbn zeta. destruct (reclaim_check_spec g k lg b Wf Hb Hdelay) as (g' & E & [W D K O Sm R L M Er]).
  exists g'. by split_and!.
Qed.

(** Of the smashed addresses only the first nineteen are ever reported: the
    twentieth entry of the table is written, over and over, but not counted. *)
Theorem GC_add_smashed_reported g (smashed : Z) (Hn : 0 <= GC_n_smashed g < MAX_SMASHED) :
  (GC_print_all_smashed_proc (GC_add_smashed smashed g)).1
  = (GC_print_all_smashed_proc g).1 ++ (if GC_n_smashed g <? MAX_SMASHED - 1 then [smashed] else []).
Proof.
  unfold GC_print_all_smashed_proc, GC_add_smashed. cbn [fst GC_smashed GC_n_smashed set_smashed].
  assert (E : forall i, i ∈ seqZ 0 (GC_n_smashed g) ->
    aget (<[GC_n_smashed g := smashed]> (GC_smashed g)) i = aget (GC_smashed g) i).
  { intros i Hi%elem_of_seqZ. rewrite aget_insert. by rewrite decide_False by lia. }
  destruct (Z.ltb_spec (GC_n_smashed g) (MAX_SMASHED - 1)).
  - rewrite seqZ_app, fmap_app by lia. f_equal; [apply Forall_fmap_ext_1, Forall_forall, E|].
    replace (0 + GC_n_smashed g) with (GC_n_smashed g) by lia. change (seqZ (GC_n_smashed g) 1) with [GC_n_smashed g].
    cbn [fmap list_fmap]. rewrite aget_insert. by rewrite decide_True by lia.
  - rewrite app_nil_r. apply Forall_fmap_ext_1, Forall_forall, E.
Qed.

End ReclaimBlock.

(** ** Witnesses *)

Lemma GC_add_smashed_reported_witness :
  exists g : gc hdr_state, GC_n_smashed g = 19
    /\ (GC_print_all_smashed_proc (GC_add_smashed 77 g)).1 = (GC_print_all_smashed_proc g).1.
Proof.
  destruct sample_gc as (g & _). exists (set_smashed ∅ 19 true g). split; [reflexivity|].
  rewrite (GC_add_smashed_reported (set_smashed ∅ 19 true g) 77); [by rewrite app_nil_r|by vm_compute].
Defined.

Lemma GC_clear_fl_links_correct_witness :
  exists g g' : gc hdr_state, head_of (ok_freelist g) 1 3 = 8192 /\ GC_clear_fl_links 1 3 g = Some g'
    /\ head_of (ok_freelist g') 1 3 = NULL /\ mm g' !! 8192 = Some NULL.
Proof.
  destruct sample_gc as (g0 & _).
  set (g := set_mm {[8192 := 8240; 8240 := 0]} (set_freelist 1 3 8192 g0)). exists g.
  assert (Eh : head_of (ok_freelist g) 1 3 = 8192).
  { unfold head_of. cbn [ok_freelist set_mm set_freelist g]. by rewrite lookup_insert_eq. }
  destruct (GC_clear_fl_links_correct g 1 3 [8192; 8240]) as (g' & E & E0 & Ho & _).
  - rewrite Eh. cbn [fl_seg]. split; [done|]. exists 8240. split; [reflexivity|]. split; [done|]. by exists 0.
  - by apply (bool_decide_unpack _); vm_compute.
  - by apply (bool_decide_unpack _); vm_compute.
  - by vm_compute.
  - exists g'. split; [exact Eh|]. split; [exact E|]. split; [exact E0|]. apply Ho. by left.
Defined.

Lemma GC_reclaim_block_frees_witness :
  exists (g g' : gc hdr_state) L', GC_reclaim_block 1048576 false g = Some g'
    /\ freed (fls (hp g)) (fls (hp g')) L' 1048576 /\ GC_bytes_found g' = 16384 /\ GC_large_allocd g' = 0.
Proof.
  destruct HeapInv.sample_heap as (s & K & A & Hs & Hb & _).
  set (g := Gc (AllchblkFree.sample_heap_of s) ∅ ∅ ∅ 0 16384 0 0 [] ∅ 0 false sample_swp).
  assert (Eb : ghdr g 1048576 = HeadersNav.sample_hdr) by exact Hb.
  destruct (GC_reclaim_block_frees g (fun _ => []) 1048576 K A Hs) as (g' & L' & E & F & E1 & E2 & _).
  - by rewrite Eb.
  - rewrite Eb. by vm_compute.
  - by rewrite Eb.
  - unfold unused. cbn zeta. by rewrite Eb.
  - exists g, g', L'. split; [exact E|]. split; [exact F|]. rewrite E1, E2, Eb. split; reflexivity.
Defined.

Lemma GC_reclaim_block_queues_witness :
  exists (g g' : gc hdr_state), GC_reclaim_block 1048576 false g = Some g'
    /\ queues_ok g' (push_queue (fun _ _ => []) 1 3 1048576) /\ GC_composite_in_use g' = 48 + GC_composite_in_use g.
Proof.
  destruct sample_gc as (g0 & Hg & HQ & Es & Eh & Ep & Ek & _).
  assert (Hb : sweepable g0 1 3 1048576) by (apply (qo_sweepable _ _ HQ 1 3); by left).
  set (g := set_in_use 0 0 (set_reclaim_list 1 3 NULL g0)).
  destruct (GC_reclaim_block_queues g (fun _ _ => []) 1 3 1048576) as (g' & E & _ & Q' & _ & _ & C).
  - exact Hg.
  - split; [|by intros k lg b ?%elem_of_nil|intros; constructor]. intros k lg. cbn [rl_chain].
    unfold head_of. cbn [ok_reclaim_list set_in_use set_reclaim_list g].
    destruct (decide ((k, lg) = (1, 3))) as [->|Hne]; [by rewrite lookup_insert_eq|].
    rewrite lookup_insert_ne by congruence. pose proof (qo_chain _ _ HQ k lg) as Hc. unfold sample_queue in Hc.
    rewrite decide_False in Hc by done. exact Hc.
  - by apply (sweepable_ext g0).
  - by intros ?%elem_of_nil.
  - change (swp g) with (swp g0). by rewrite Es.
  - change (ghdr g 1048576) with (ghdr g0 1048576). by rewrite Eh.
  - exists g, g'. split; [exact E|].
    assert (Ew : worth_sweeping g 1 1048576 = true).
    { unfold worth_sweeping. change (ghdr g 1048576) with (ghdr g0 1048576). change (prm (hp g)) with (prm (hp g0)).
      change (swp g) with (swp g0). rewrite Eh, Ep, Es. reflexivity. }
    rewrite Ew in Q'. split; [exact Q'|]. change (ghdr g 1048576) with (ghdr g0 1048576) in C.
    rewrite Eh in C. injection C as -> _. reflexivity.
Defined.

Lemma GC_reclaim_check_correct_witness :
  exists (g g' : gc hdr_state), GC_reclaim_check 1048576 48 g = Some g' /\ length (GC_leaked g') = 40%nat
    /\ reporting_keeps g g' /\ obj_marked (ghdr g' 1048576) 1048576 1048624 = true.
Proof.
  destruct sample_gc as (g0 & [Wf _] & HQ & Es & Eh & _). set (g := set_leaked [] false g0).
  assert (Hb : sweepable g0 1 3 1048576) by (apply (qo_sweepable _ _ HQ 1 3); by left).
  destruct (GC_reclaim_check_correct g 1 3 1048576) as (g' & E & K & L & M & _).
  - exact Wf.
  - by apply (sweepable_ext g0).
  - change (swp g) with (swp g0). by rewrite Es.
  - exists g, g'. change (ghdr g 1048576) with (ghdr g0 1048576) in L, M. rewrite Eh in L, M.
    split; [exact E|]. split; [rewrite L; by vm_compute|]. split; [exact K|]. apply M.
    apply (bool_decide_unpack _). by vm_compute.
Defined.

End ReclaimBlock.
