(* ===== verification/SizeMap.v ===== *)
(** * Size classes (misc.c: [GC_init_size_map], malloc.c: [GC_extend_size_map])

    The table that maps the size of a request in bytes to the size of the objects
    that serve it, in granules.  Small sizes are filled in at the start; the entries
    for larger ones, zero at first, are filled in on demand so that neighbouring
    sizes share a class.  [extra] is [EXTRA_BYTES]: one if interior pointers are
    recognised, which keeps a pointer past the end of an object inside it. *)

From Stdlib Require Import ZArith Lia.
From stdpp Require Import base gmap list.
From S2P Require Import Prelude.

Module SizeMap.

Definition GC_TINY_FREELISTS : Z := 25.
Definition HBLK_GRANULES : Z := HBLKSIZE / GC_GRANULE_BYTES.
Definition ALLOC_REQUEST_GRANS (extra lb : Z) : Z :=
  BYTES_TO_GRANULES (SIZET_SAT_ADD lb (GC_GRANULE_BYTES - 1 + extra)).
Definition ADD_EXTRA_BYTES (extra lb : Z) : Z := SIZET_SAT_ADD lb extra.
Definition MAX_EXTRA_BYTES : Z := 1.
Definition SMALL_OBJ (extra lb : Z) : bool :=
  (lb <=? MAXOBJBYTES - MAX_EXTRA_BYTES) || (lb <=? MAXOBJBYTES - extra).

(** [GC_size_map]: an absent entry is zero.  Accesses out of range fail. *)
Notation size_map := (gmap Z Z).

Definition sm_get (m : size_map) (i : Z) : option Z :=
  if (0 <=? i) && (i <=? MAXOBJBYTES) then Some (default 0 (m !! i)) else None.
Definition sm_set (i v : Z) (m : size_map) : option size_map :=
  if (0 <=? i) && (i <=? MAXOBJBYTES) then Some (<[i := v]> m) else None.

(** The [for] loops from [i] up to [last]; [f] gives the entries. *)
Definition fill_body (f : Z -> Z) (last : Z) (s : Z * size_map) : (Z * size_map) + option size_map :=
  let '(i, m) := s in
  if i <=? last then match sm_set i (f i) m with Some m => inl (i + 1, m) | None => inr None end
  else inr (Some m).

Definition fill (f : Z -> Z) (i last : Z) (m : size_map) : option size_map := mjoin (loop (fill_body f last) (i, m)).

Definition GC_init_size_map (extra : Z) (m : size_map) : option size_map :=
  m ← sm_set 0 1 m;
  fill (ALLOC_REQUEST_GRANS extra) 1 (GRANULES_TO_BYTES (GC_TINY_FREELISTS - 1) - extra) m.

(** [while (GC_size_map[low_limit] != 0) low_limit++] *)
Definition skip_body (m : size_map) (low_limit : Z) : Z + option Z :=
  match sm_get m low_limit with
  | None => inr None
  | Some v => if negb (v =? 0) then inl (low_limit + 1) else inr (Some low_limit)
  end.

Definition skip_filled (m : size_map) (low_limit : Z) : option Z := mjoin (loop (skip_body m) low_limit).

(** The class and the first entry to fill in. *)
Definition choose_class (extra i : Z) (m : size_map) : option (Z * Z) :=
  let original_lg := ALLOC_REQUEST_GRANS extra i in
  let byte_sz := GRANULES_TO_BYTES original_lg in
  let smaller_than_i := byte_sz - Z.shiftr byte_sz 3 in
  v ← sm_get m smaller_than_i;
  if v =? 0 then
    low_limit ← skip_filled m (byte_sz - Z.shiftr byte_sz 2);
    Some (original_lg, low_limit)
  else
    low_limit ← skip_filled m (smaller_than_i + 1);
    let lg := ALLOC_REQUEST_GRANS extra low_limit in
    let lg := lg + Z.shiftr lg 3 in
    Some (if lg <? original_lg then original_lg else lg, low_limit).

(** The rounding of the class: an even number of granules, no more than the largest
    small object, and as large as the number of objects in a block allows. *)
Definition round_class (lg : Z) : Z :=
  let lg := Z.land (lg + 1) (Z.lnot 1) in
  let lg := if MAXOBJGRANULES <? lg then MAXOBJGRANULES else lg in
  let number_of_objs := HBLK_GRANULES / lg in
  Z.land (HBLK_GRANULES / number_of_objs) (Z.lnot 1).

Definition GC_extend_size_map (extra i : Z) (m : size_map) : option size_map :=
  '(lg, low_limit) ← choose_class extra i m;
  let lg := round_class lg in
  fill (fun _ => lg) low_limit (GRANULES_TO_BYTES lg - extra) m.

(** ** Correctness *)

(** The entry for [i] bytes, zero if there is none yet. *)
Definition class_of (m : size_map) (i : Z) : Z := default 0 (m !! i).

(** Every entry is a size of small objects that has room for the request, and the
    small sizes have one. *)
Record sm_ok (extra : Z) (m : size_map) : Prop := {
  sm_room : forall i, 0 <= i <= MAXOBJBYTES -> class_of m i <> 0 ->
    1 <= class_of m i <= MAXOBJGRANULES /\ i + extra <= GRANULES_TO_BYTES (class_of m i);
  sm_tiny : forall i, 0 <= i <= GRANULES_TO_BYTES (GC_TINY_FREELISTS - 1) - extra -> class_of m i <> 0
}.

Lemma sm_get_eq (m : size_map) (i : Z) : 0 <= i <= MAXOBJBYTES -> sm_get m i = Some (class_of m i).
Proof. intros Hi. unfold sm_get. by rewrite (proj2 (Z.leb_le _ _)), (proj2 (Z.leb_le _ _)) by lia. Qed.

Lemma sm_set_eq (m : size_map) (i v : Z) : 0 <= i <= MAXOBJBYTES -> sm_set i v m = Some (<[i := v]> m).
Proof. intros Hi. unfold sm_set. by rewrite (proj2 (Z.leb_le _ _)), (proj2 (Z.leb_le _ _)) by lia. Qed.

Lemma class_of_insert (m : size_map) (i v j : Z) : class_of (<[i := v]> m) j = if decide (j = i) then v else class_of m j.
Proof. unfold class_of. destruct (decide (j = i)) as [->|]; [by rewrite lookup_insert_eq|by rewrite lookup_insert_ne]. Qed.

Lemma fill_spec (f : Z -> Z) (i last : Z) (m : size_map) :
  0 <= i -> last <= MAXOBJBYTES ->
  exists m', fill f i last m = Some m'
    /\ forall j, class_of m' j = if decide (i <= j <= last) then f j else class_of m j.
Proof.
  intros Hi Hl. change MAXOBJBYTES with 2048 in *. unfold fill.
  destruct (loop_spec
    (fun s => i <= s.1 <= Z.max i (last + 1) /\ forall j, class_of s.2 j = if decide (i <= j < s.1) then f j else class_of m j)
    (fun r => exists m', r = Some m' /\ forall j, class_of m' j = if decide (i <= j <= last) then f j else class_of m j)
    (fun s => last + 1 - s.1 + Z.max 0 (i - last)) (fill_body f last) (i, m)) as (r & -> & m' & -> & H); [| | |by exists m'].
  - intros [k x] [Hk Hx]. cbn [fst snd] in *. cbn [fill_body]. destruct (Z.leb_spec k last).
    + rewrite sm_set_eq by (change MAXOBJBYTES with 2048; lia). split; [split; [cbn; lia|]|cbn; lia].
      intros j. cbn. rewrite class_of_insert, Hx. repeat case_decide; subst; try lia; done.
    + exists x. split; [done|]. intros j. rewrite Hx. repeat case_decide; try lia; done.
  - cbn. split; [lia|]. intros j. case_decide; [lia|done].
  - cbn. unfold W64. lia.
Qed.

Lemma skip_filled_spec (m : size_map) (low i : Z) :
  0 <= low <= i -> i <= MAXOBJBYTES -> class_of m i = 0 ->
  exists r, skip_filled m low = Some r /\ low <= r <= i /\ class_of m r = 0.
Proof.
  intros Hl Hi Hc. unfold skip_filled.
  destruct (loop_spec (fun k => low <= k <= i) (fun r => exists k, r = Some k /\ low <= k <= i /\ class_of m k = 0)
    (fun k => i - k) (skip_body m) low) as (r & -> & k & -> & H); [| | |by exists k].
  - intros k Hk. unfold skip_body. rewrite sm_get_eq by lia.
    destruct (Z.eqb_spec (class_of m k) 0); cbn [negb]; [by exists k|].
    assert (k <> i) by congruence. lia.
  - lia.
  - change MAXOBJBYTES with 2048 in *. unfold W64. lia.
Qed.

Lemma ALLOC_REQUEST_GRANS_eq (extra i : Z) :
  0 <= extra <= 1 -> 0 <= i < 2 ^ 62 -> ALLOC_REQUEST_GRANS extra i = (i + 15 + extra) / 16.
Proof.
  intros He Hi. unfold ALLOC_REQUEST_GRANS, BYTES_TO_GRANULES, SIZET_SAT_ADD, GC_GRANULE_BYTES, GC_SIZE_MAX.
  destruct (Z.ltb_spec i (2 ^ 64 - 1 - (16 - 1 + extra))); [|lia]. f_equal. lia.
Qed.

Lemma land_even (n : Z) : Z.land n (Z.lnot 1) = 2 * (n / 2).
Proof. change (Z.lnot 1) with (Z.lnot (2 ^ 1 - 1)). rewrite land_high_mask by lia. change (2 ^ 1) with 2. dlia. Qed.

Lemma round_class_spec (lg : Z) :
  1 <= lg <= MAXOBJGRANULES -> lg <= round_class lg <= MAXOBJGRANULES.
Proof.
  change MAXOBJGRANULES with 128. intros Hlg. unfold round_class. rewrite !land_even.
  change MAXOBJGRANULES with 128. change HBLK_GRANULES with 256.
  assert (Hl : exists k, (if 128 <? 2 * ((lg + 1) / 2) then 128 else 2 * ((lg + 1) / 2)) = 2 * k /\ lg <= 2 * k /\ 1 <= k <= 64).
  { destruct (Z.ltb_spec 128 (2 * ((lg + 1) / 2))); [exists 64; dlia|exists ((lg + 1) / 2); dlia]. }
  destruct Hl as (k & -> & Hk & Hk').
  assert (Hn : 2 <= 256 / (2 * k) <= 128) by (split; [apply Z.div_le_lower_bound; lia|apply Z.div_le_upper_bound; lia]).
  set (n := 256 / (2 * k)) in *.
  assert (2 * k <= 256 / n) by (apply Z.div_le_lower_bound; [lia|]; unfold n; pose proof (Z.mul_div_le 256 (2 * k)); lia).
  assert (256 / n <= 128) by (apply Z.div_le_upper_bound; lia). split; dlia.
Qed.

Lemma SMALL_OBJ_iff (extra lb : Z) : 0 <= extra <= 1 -> SMALL_OBJ extra lb = true <-> lb + extra <= MAXOBJBYTES.
Proof.
  intros He. unfold SMALL_OBJ, MAX_EXTRA_BYTES. change MAXOBJBYTES with 2048. rewrite orb_true_iff, !Z.leb_le. lia.
Qed.

(** The class has room for the request, and filling starts no later than its
    entry. *)
Lemma choose_class_spec (extra i : Z) (m : size_map) :
  0 <= extra <= 1 -> sm_ok extra m -> 0 <= i -> i + extra <= MAXOBJBYTES -> class_of m i = 0 ->
  exists lg low, choose_class extra i m = Some (lg, low) /\ 0 <= low <= i /\ 1 <= lg
    /\ i + extra <= GRANULES_TO_BYTES lg.
Proof.
  intros He [_ Ht] Hi0 Hi Hc. change MAXOBJBYTES with 2048 in *.
  assert (Hi3 : 384 < i + extra).
  { destruct (Z.lt_ge_cases 384 (i + extra)); [done|]. exfalso. apply (Ht i); [|done].
    change (GRANULES_TO_BYTES (GC_TINY_FREELISTS - 1)) with 384. lia. }
  unfold choose_class. rewrite ALLOC_REQUEST_GRANS_eq by lia. set (o := (i + 15 + extra) / 16).
  assert (Ho : i + extra <= 16 * o < i + extra + 16) by (unfold o; dlia). unfold GRANULES_TO_BYTES, GC_GRANULE_BYTES.
  rewrite !Z.shiftr_div_pow2 by lia. change (2 ^ 3) with 8. change (2 ^ 2) with 4.
  rewrite sm_get_eq by (change MAXOBJBYTES with 2048; dlia). rewrite some_bind.
  destruct (Z.eqb_spec (class_of m (o * 16 - o * 16 / 8)) 0) as [E0|E0].
  - destruct (skip_filled_spec m (o * 16 - o * 16 / 4) i) as (low & -> & Hl & _); [dlia|by change MAXOBJBYTES with 2048; lia|done|].
    rewrite some_bind. exists o, low. split; [done|]. dlia.
  - destruct (skip_filled_spec m (o * 16 - o * 16 / 8 + 1) i) as (low & -> & Hl & _); [dlia|by change MAXOBJBYTES with 2048; lia|done|].
    rewrite some_bind. eexists _, low. split; [done|]. split; [dlia|].
    match goal with |- context [if ?c <? o then _ else _] => destruct (Z.ltb_spec c o) end; lia.
Qed.

(** The class may exceed the largest one before it is rounded. *)
Lemma round_class_room (extra i lg : Z) :
  0 <= extra -> 1 <= lg -> i + extra <= MAXOBJBYTES -> i + extra <= GRANULES_TO_BYTES lg ->
  1 <= round_class lg <= MAXOBJGRANULES /\ i + extra <= GRANULES_TO_BYTES (round_class lg).
Proof.
  intros He Hlg Hi Hr. destruct (Z.le_gt_cases lg MAXOBJGRANULES) as [Hle|Hgt].
  - pose proof (round_class_spec lg ltac:(lia)). unfold GRANULES_TO_BYTES, GC_GRANULE_BYTES in *. lia.
  - assert (E : round_class lg = 128).
    { unfold round_class. rewrite !land_even. change MAXOBJGRANULES with 128 in *.
      destruct (Z.ltb_spec 128 (2 * ((lg + 1) / 2))); [done|dlia]. }
    rewrite E. change MAXOBJGRANULES with 128. change MAXOBJBYTES with 2048 in *. unfold GRANULES_TO_BYTES, GC_GRANULE_BYTES. lia.
Qed.

Lemma init_size_map_spec (extra : Z) :
  0 <= extra <= 1 ->
  exists m, GC_init_size_map extra ∅ = Some m /\ sm_ok extra m
    /\ forall i, GRANULES_TO_BYTES (GC_TINY_FREELISTS - 1) - extra < i -> class_of m i = 0.
Proof.
  intros He. unfold GC_init_size_map. rewrite sm_set_eq, some_bind by (change MAXOBJBYTES with 2048; lia).
  change (GRANULES_TO_BYTES (GC_TINY_FREELISTS - 1)) with 384.
  destruct (fill_spec (ALLOC_REQUEST_GRANS extra) 1 (384 - extra) (<[0 := 1]> ∅)) as (m & -> & Hm);
    [lia|change MAXOBJBYTES with 2048; lia|].
  assert (Hc : forall j, class_of m j = if decide (1 <= j <= 384 - extra) then (j + 15 + extra) / 16
                                        else if decide (j = 0) then 1 else 0).
  { intros j. rewrite Hm, class_of_insert. case_decide; [|done]. by rewrite ALLOC_REQUEST_GRANS_eq by lia. }
  exists m. split; [done|]. split.
  - split.
    + intros i Hi. rewrite Hc. change MAXOBJGRANULES with 128. unfold GRANULES_TO_BYTES, GC_GRANULE_BYTES.
      repeat case_decide; intros; [dlia|lia|done].
    + change (GRANULES_TO_BYTES (GC_TINY_FREELISTS - 1)) with 384. intros i Hi. rewrite Hc. repeat case_decide; dlia.
  - intros i Hi. rewrite Hc. repeat case_decide; try lia; done.
Qed.

(** The table of size classes is set up inside its bounds, with a class for
    every tiny size, and every class has room for the sizes it serves and the extra
    byte. *)
Theorem GC_init_size_map_correct (extra : Z) (He : 0 <= extra <= 1) :
  exists m, GC_init_size_map extra ∅ = Some m /\ sm_ok extra m
    /\ forall i, GRANULES_TO_BYTES (GC_TINY_FREELISTS - 1) - extra < i -> class_of m i = 0.
Proof. by apply init_size_map_spec. Qed.

Lemma GC_init_size_map_correct_witness : exists m, GC_init_size_map 1 ∅ = Some m /\ sm_ok 1 m.
Proof. destruct (GC_init_size_map_correct 1 ltac:(lia)) as (m & H1 & H2 & _). by exists m. Defined.

Lemma extend_size_map_spec (extra i : Z) (m : size_map) :
  0 <= extra <= 1 -> sm_ok extra m -> 0 <= i -> SMALL_OBJ extra i = true -> class_of m i = 0 ->
  exists m', GC_extend_size_map extra i m = Some m' /\ sm_ok extra m' /\ class_of m' i <> 0
    /\ exists lg low, Z.even lg = true
         /\ forall j, class_of m' j = if decide (low <= j <= GRANULES_TO_BYTES lg - extra) then lg else class_of m j.
Proof.
  intros He Hm Hi0 Hi%SMALL_OBJ_iff Hc; [|done]. unfold GC_extend_size_map.
  destruct (choose_class_spec extra i m He Hm Hi0 Hi Hc) as (lg & low & -> & Hlow & Hlg & Hr). rewrite some_bind.
  destruct (round_class_room extra i lg) as [Hlg' Hr']; [lia|done|done|done|].
  assert (Hev : Z.even (round_class lg) = true) by (unfold round_class; rewrite land_even; apply Z.even_even).
  set (lg' := round_class lg) in *. clearbody lg'. unfold GRANULES_TO_BYTES, GC_GRANULE_BYTES in Hr'. change MAXOBJGRANULES with 128 in Hlg'.
  destruct (fill_spec (fun _ => lg') low (GRANULES_TO_BYTES lg' - extra) m) as (m' & -> & Hm');
    [lia|unfold GRANULES_TO_BYTES, GC_GRANULE_BYTES; change MAXOBJBYTES with 2048; lia|].
  exists m'. split; [done|]. split; [|split].
  - split; intros j Hj; rewrite Hm'; unfold GRANULES_TO_BYTES, GC_GRANULE_BYTES in *; case_decide.
    + change MAXOBJGRANULES with 128. lia.
    + by apply (sm_room _ _ Hm).
    + lia.
    + by apply (sm_tiny _ _ Hm).
  - rewrite Hm', decide_True by (unfold GRANULES_TO_BYTES, GC_GRANULE_BYTES; lia). lia.
  - by exists lg', low.
Qed.

(** C20: asking for a size without a class fills in entries inside the table,
    including that of the size; all of them get one class of an even number of
    granules, no entry is lost, and every class keeps having room for the sizes it
    serves and the extra byte. *)
Theorem GC_extend_size_map_correct (extra i : Z) (m : size_map)
    (He : 0 <= extra <= 1) (Hm : sm_ok extra m) (Hi0 : 0 <= i) (Hi : SMALL_OBJ extra i = true) (Hc : class_of m i = 0) :
  exists m', GC_extend_size_map extra i m = Some m' /\ sm_ok extra m' /\ class_of m' i <> 0
    /\ exists lg low, Z.even lg = true
         /\ forall j, class_of m' j = if decide (low <= j <= GRANULES_TO_BYTES lg - extra) then lg else class_of m j.
Proof. by apply extend_size_map_spec. Qed.

Lemma GC_extend_size_map_correct_witness :
  exists m m', GC_extend_size_map 1 1000 m = Some m' /\ sm_ok 1 m'.
Proof.
  destruct (init_size_map_spec 1 ltac:(lia)) as (m & _ & H2 & H3). exists m.
  destruct (GC_extend_size_map_correct 1 1000 m ltac:(lia) H2 ltac:(lia) eq_refl (H3 1000 ltac:(by vm_compute))) as (m' & H4 & H5 & _).
  by exists m'.
Defined.
End SizeMap.
