(* ===== verification/Malloc.v ===== *)
(** * Object allocation (malloc.c, mallocx.c; alloc.c: [GC_allocobj]; new_hblk.c: [GC_new_hblk])

    Small objects are taken from the free list of their kind and size class, which
    is refilled by sweeping queued blocks, by cutting up a new block, or after a
    collection or an expansion of the heap.  Large objects have blocks of their
    own.  [GC_free] puts a small object back on its free list and gives the blocks of
    a large one back to the block allocator.

    The model is the single-threaded build after initialisation, without
    [ESCARGOT_USE_32BIT_IN_64BIT].  Block allocation, collections and heap growth
    are operations of the interface [block_ops]; they work on the whole state,
    of which [ctl] is the part only they look at. *)

From Stdlib Require Import ZArith Lia.
From stdpp Require Import base gmap list.
From S2P Require Import Prelude BlackList Scratch Hblk Headers HeadersNav HdrIface MarkBits ObjMap NewHblk Sweep FreeList Allchblk Reclaim SizeMap Mark.

Module Malloc.
Import Headers MarkBits NewHblk Sweep FreeList Allchblk Reclaim SizeMap.

Definition obj_link (p : Z) (m : mem) : Z := mread m p.

(** ** Bytes of object memory *)

Definition byte_at (m : mem) (a : Z) : Z := Z.land (Z.shiftr (mread m (a - a mod PTRSZ)) (8 * (a mod PTRSZ))) 255.
Definition set_byte (a v : Z) (m : mem) : mem :=
  let w := a - a mod PTRSZ in
  let sh := 8 * (a mod PTRSZ) in
  <[w := Z.lor (Z.ldiff (mread m w) (Z.shiftl 255 sh)) (Z.shiftl v sh)]> m.

(** [BZERO] and [BCOPY] of [n] bytes. *)
Fixpoint BZERO (a : Z) (n : nat) (m : mem) : mem :=
  match n with O => m | S n => BZERO (a + 1) n (set_byte a 0 m) end.
Fixpoint BCOPY (src dst : Z) (n : nat) (m : mem) : mem :=
  match n with O => m | S n => BCOPY (src + 1) (dst + 1) n (set_byte dst (byte_at m src) m) end.

(** ** State *)

Record al (T C : Type) := Al {
  gcs : gc T;
  GC_size_map : size_map;
  GC_bytes_allocd : Z;
  GC_bytes_freed : Z;
  GC_non_gc_bytes : Z;
  GC_max_large_allocd : Z;           (* [GC_max_large_allocd_bytes] *)
  GC_mark_state : Z;
  GC_mark_stack : list Mark.mse;     (* from [GC_mark_stack] up to its top *)
  ctl : C
}.
Arguments Al {T C}.
Arguments gcs {T C}.
Arguments GC_size_map {T C}.
Arguments GC_bytes_allocd {T C}.
Arguments GC_bytes_freed {T C}.
Arguments GC_non_gc_bytes {T C}.
Arguments GC_max_large_allocd {T C}.
Arguments GC_mark_state {T C}.
Arguments GC_mark_stack {T C}.
Arguments ctl {T C}.

(** Settings that allocation only reads. *)
Record al_params := AlParams {
  EXTRA_BYTES : Z;
  time_unlimited : bool;             (* [GC_time_limit == GC_TIME_UNLIMITED] *)
  GC_manual_vdb : bool;
  GC_oom_fn : Z -> Z
}.

(** The block allocator (allchblk.c), collections and heap growth (alloc.c), and
    the call that may run finalizers before an allocation (finalize.c). *)
Record block_ops (T C : Type) := BlockOps {
  op_allochblk : Z -> Z -> Z -> Z -> al T C -> option (Z * al T C);
  op_merge_unmapped : al T C -> option (bool * al T C);
  op_collect_or_expand : Z -> Z -> bool -> al T C -> option (bool * al T C);
  op_collect_a_little : Z -> al T C -> option (al T C);
  op_notify_or_invoke_finalizers : al T C -> option (al T C)
}.
Arguments op_allochblk {T C}.
Arguments op_merge_unmapped {T C}.
Arguments op_collect_or_expand {T C}.
Arguments op_collect_a_little {T C}.
Arguments op_notify_or_invoke_finalizers {T C}.

Section Malloc.
Context {T C : Type} `{HeaderTable T}.
Implicit Types (a : al T C).

Definition set_gc (g : gc T) a : al T C :=
  Al g (GC_size_map a) (GC_bytes_allocd a) (GC_bytes_freed a) (GC_non_gc_bytes a) (GC_max_large_allocd a)
    (GC_mark_state a) (GC_mark_stack a) (ctl a).
Definition set_size_map (m : size_map) a : al T C :=
  Al (gcs a) m (GC_bytes_allocd a) (GC_bytes_freed a) (GC_non_gc_bytes a) (GC_max_large_allocd a)
    (GC_mark_state a) (GC_mark_stack a) (ctl a).
Definition add_allocd (n : Z) a : al T C :=
  Al (gcs a) (GC_size_map a) (wrap64 (GC_bytes_allocd a + n)) (GC_bytes_freed a) (GC_non_gc_bytes a)
    (GC_max_large_allocd a) (GC_mark_state a) (GC_mark_stack a) (ctl a).
Definition add_freed (n : Z) a : al T C :=
  Al (gcs a) (GC_size_map a) (GC_bytes_allocd a) (wrap64 (GC_bytes_freed a + n)) (GC_non_gc_bytes a)
    (GC_max_large_allocd a) (GC_mark_state a) (GC_mark_stack a) (ctl a).
Definition add_non_gc (n : Z) a : al T C :=
  Al (gcs a) (GC_size_map a) (GC_bytes_allocd a) (GC_bytes_freed a) (wrap64 (GC_non_gc_bytes a + n))
    (GC_max_large_allocd a) (GC_mark_state a) (GC_mark_stack a) (ctl a).
Definition set_max_large (n : Z) a : al T C :=
  Al (gcs a) (GC_size_map a) (GC_bytes_allocd a) (GC_bytes_freed a) (GC_non_gc_bytes a) n
    (GC_mark_state a) (GC_mark_stack a) (ctl a).
Definition set_mark_stack (l : list Mark.mse) a : al T C :=
  Al (gcs a) (GC_size_map a) (GC_bytes_allocd a) (GC_bytes_freed a) (GC_non_gc_bytes a) (GC_max_large_allocd a)
    (GC_mark_state a) l (ctl a).
Definition on_mem (f : mem -> mem) a : al T C := set_gc (set_mm (f (mm (gcs a))) (gcs a)) a.
Definition set_head (kind lg v : Z) a : al T C := set_gc (set_freelist kind lg v (gcs a)) a.
Definition free_head a (kind lg : Z) : Z := head_of (ok_freelist (gcs a)) kind lg.
Definition al_kind a (kind : Z) : sweep_kind := sweep_kinds (swp (gcs a)) kind.
Definition debugging a : bool := GC_debugging_started (swp (gcs a)).
Definition dont_gc a : bool := GC_dont_gc (prm (hp (gcs a))).
Definition incremental a : bool := GC_incremental (prm (hp (gcs a))).
Definition hdr_of_obj a (p : Z) : hdr := ghdr (gcs a) p.

Section Ops.
Context (P : al_params) (O : block_ops T C).

(** *** Refilling free lists *)

Definition sizeof_reclaim_list : Z := (MAXOBJGRANULES + 1) * PTRSZ.

Definition set_kind_lists (kind : Z) (p : sweep_params) : sweep_params :=
  SweepParams (GC_n_kinds p)
    (fun k => let ok := sweep_kinds p k in
              if k =? kind then SweepKind (ok_init ok) (ok_eager_sweep ok) true (ok_disclaim ok) else ok)
    (GC_debugging_started p) (GC_findleak_delay_free p).

(** The new lists are empty. *)
Definition GC_alloc_reclaim_list (kind : Z) a : option (bool * al T C) :=
  '(result, h) ← on_tbl_res (ht_scratch_alloc sizeof_reclaim_list) (hp (gcs a));
  let g := set_hp h (gcs a) in
  if result =? NULL then Some (false, set_gc g a)
  else
    let g := foldr (fun lg g => set_reclaim_list kind lg NULL g) g (seqZ 0 (MAXOBJGRANULES + 1)) in
    Some (true, set_gc (Gc (hp g) (mm g) (ok_freelist g) (ok_reclaim_list g) (GC_bytes_found g) (GC_large_allocd g)
                          (GC_composite_in_use g) (GC_atomic_in_use g) (GC_leaked g) (GC_smashed g) (GC_n_smashed g)
                          (GC_have_errors g) (set_kind_lists kind (swp g))) a).

Definition GC_new_hblk (lg kind : Z) a : option (al T C) :=
  '(h, a) ← op_allochblk O (GRANULES_TO_BYTES lg) kind 0 0 a;
  if h =? NULL then Some a
  else
    let a := if IS_UNCOLLECTABLE kind then set_gc (gwrite h (GC_set_hdr_marks (hdr_of_obj a h)) (gcs a)) a else a in
    '(l, m) ← GC_build_fl h (free_head a kind lg) lg (debugging a || ok_init (al_kind a kind)) (mm (gcs a));
    Some (set_head kind lg l (on_mem (fun _ => m) a)).

Definition reset_fail_count a : al T C := set_gc (set_hp (set_fail_count 0 (hp (gcs a))) (gcs a)) a.

(** The loop of [GC_allocobj]; the state has [tried_minor] and [retry_cnt]. *)
Definition allocobj_body (lg kind : Z) (s : bool * Z * al T C) : (bool * Z * al T C) + option (Z * al T C) :=
  let '(tried_minor, retry_cnt, a) := s in
  let found a := inr (Some (free_head a kind lg, reset_fail_count a)) in
  if negb (free_head a kind lg =? NULL) then found a
  else
    match (if incremental a && negb (time_unlimited P) && negb (dont_gc a) then op_collect_a_little O 1 a else Some a) with
    | None => inr None
    | Some a =>
      match GC_continue_reclaim lg kind (gcs a) with
      | None => inr None
      | Some g =>
        let a := set_gc g a in
        if negb (free_head a kind lg =? NULL) then found a
        else
          match GC_new_hblk lg kind a with
          | None => inr None
          | Some a =>
            if negb (free_head a kind lg =? NULL) then found a
            else if incremental a && time_unlimited P && negb tried_minor && negb (dont_gc a) then
              match op_collect_a_little O 1 a with
              | None => inr None
              | Some a => inl (true, retry_cnt, a)
              end
            else
              match op_collect_or_expand O 1 0 (0 <? retry_cnt) a with
              | None => inr None
              | Some (false, a) => inr (Some (NULL, a))
              | Some (true, a) => inl (tried_minor, retry_cnt + 1, a)
              end
          end
      end
    end.

Definition GC_allocobj (lg kind : Z) a : option (Z * al T C) :=
  if lg =? 0 then Some (NULL, a) else mjoin (loop (allocobj_body lg kind) (false, 0, a)).

(** *** Small objects *)

(** The class of a size, which is looked up again after the table is extended. *)
Definition small_class (lb : Z) a : option (Z * al T C) :=
  lg ← sm_get (GC_size_map a) lb;
  if lg =? 0 then
    m ← GC_extend_size_map (EXTRA_BYTES P) lb (GC_size_map a);
    lg ← sm_get m lb;
    Some (lg, set_size_map m a)
  else Some (lg, a).

(** Taking the head [op] off the list. *)
Definition take_head (op kind lg : Z) (clear_link : bool) a : al T C :=
  let a := set_head kind lg (obj_link op (mm (gcs a))) a in
  let a := if clear_link then on_mem (<[op := NULL]>) a else a in
  add_allocd (GRANULES_TO_BYTES lg) a.

Definition GC_generic_malloc_inner_small (lb kind : Z) a : option (Z * al T C) :=
  lg0 ← sm_get (GC_size_map a) lb;
  let op := free_head a kind lg0 in
  if negb (op =? NULL) then Some (op, take_head op kind lg0 true a)
  else
    '(lg, a) ← (if lg0 =? 0 then small_class lb a else Some (lg0, a));
    let op := free_head a kind lg in
    '(op, a) ←
      (if op =? NULL then
         '(ok, a) ← (if ok_lists (al_kind a kind) then Some (true, a) else GC_alloc_reclaim_list kind a);
         if negb ok then Some (NULL, a) else GC_allocobj lg kind a
       else Some (op, a));
    if op =? NULL then Some (NULL, a) else Some (op, take_head op kind lg true a).

(** *** Large objects *)

(** The [for] loop that asks for a collection or a larger heap while there is no
    block; [NULL] is the early return. *)
Definition alloc_large_body (lb_adjusted kind flags align_m1 n_blocks : Z) (s : Z * Z * al T C)
    : (Z * Z * al T C) + option (Z * al T C) :=
  let '(h, retry_cnt, a) := s in
  if negb (h =? NULL) then inr (Some (h, a))
  else
    match op_collect_or_expand O n_blocks flags (0 <? retry_cnt) a with
    | None => inr None
    | Some (false, a) => inr (Some (NULL, a))
    | Some (true, a) =>
      match op_allochblk O lb_adjusted kind flags align_m1 a with
      | None => inr None
      | Some (h, a) => inl (h, retry_cnt + 1, a)
      end
    end.

(** The accounting of a large block. *)
Definition count_large (lb_adjusted : Z) a : al T C :=
  let a := add_allocd lb_adjusted a in
  if HBLKSIZE <? lb_adjusted then
    let n := wrap64 (GC_large_allocd (gcs a) + HBLKSIZE * OBJ_SZ_TO_BLOCKS lb_adjusted) in
    let a := set_gc (set_large_allocd n (gcs a)) a in
    if GC_max_large_allocd a <? n then set_max_large n a else a
  else a.

Definition GC_alloc_large (lb_adjusted kind flags align_m1 : Z) a : option (Z * al T C) :=
  let n_blocks := OBJ_SZ_TO_BLOCKS_CHECKED (SIZET_SAT_ADD lb_adjusted align_m1) in
  a ← (if incremental a && negb (dont_gc a) then op_collect_a_little O n_blocks a else Some a);
  '(h, a) ← op_allochblk O lb_adjusted kind flags align_m1 a;
  '(h, a) ← (if h =? NULL then
               '(merged, a) ← op_merge_unmapped O a;
               if (merged : bool) then op_allochblk O lb_adjusted kind flags align_m1 a else Some (NULL, a)
             else Some (h, a));
  '(h, a) ← mjoin (loop (alloc_large_body lb_adjusted kind flags align_m1 n_blocks) (h, 0, a));
  if h =? NULL then Some (NULL, a) else Some (h, count_large lb_adjusted a).

Definition block_bytes (lb_adjusted : Z) : nat := Z.to_nat (HBLKSIZE * OBJ_SZ_TO_BLOCKS lb_adjusted).

Definition GC_alloc_large_and_clear (lb_adjusted kind flags : Z) a : option (Z * al T C) :=
  '(result, a) ← GC_alloc_large lb_adjusted kind flags 0 a;
  Some (result, if negb (result =? NULL) && (debugging a || ok_init (al_kind a kind))
                then on_mem (BZERO result (block_bytes lb_adjusted)) a else a).

Definition GC_generic_malloc_inner (lb kind flags : Z) a : option (Z * al T C) :=
  if SMALL_OBJ (EXTRA_BYTES P) lb then GC_generic_malloc_inner_small lb kind a
  else
    let lb_adjusted := if flag_set flags IGNORE_OFF_PAGE && (HBLKSIZE <=? lb) then lb
                       else ADD_EXTRA_BYTES (EXTRA_BYTES P) lb in
    GC_alloc_large_and_clear (ROUNDUP_GRANULE_SIZE lb_adjusted) kind flags a.

Definition GC_generic_malloc_aligned (lb kind flags align_m1 : Z) a : option (Z * al T C) :=
  a ← op_notify_or_invoke_finalizers O a;
  '(result, lb, a) ←
    (if SMALL_OBJ (EXTRA_BYTES P) lb && (align_m1 <? GC_GRANULE_BYTES) then
       '(result, a) ← GC_generic_malloc_inner_small lb kind a; Some (result, lb, a)
     else
       let '(lb, lb_adjusted) :=
         if flag_set flags IGNORE_OFF_PAGE && (HBLKSIZE <=? lb) then (lb, ROUNDUP_GRANULE_SIZE lb)
         else
           let lb := if lb =? 0 then 1 else lb in
           (lb, GRANULES_TO_BYTES (ALLOC_REQUEST_GRANS (EXTRA_BYTES P) lb)) in
       let init := ok_init (al_kind a kind) in
       let align_m1 := if align_m1 <? GC_GRANULE_BYTES then 0
                       else if align_m1 <? HBLKSIZE then HBLKSIZE - 1 else align_m1 in
       '(result, a) ← GC_alloc_large lb_adjusted kind flags align_m1 a;
       Some (result, lb, if negb (result =? NULL) && (debugging a || init)
                         then on_mem (BZERO result (block_bytes lb_adjusted)) a else a));
  Some (if result =? NULL then GC_oom_fn P lb else result, a).

Definition GC_generic_malloc (lb kind : Z) a : option (Z * al T C) := GC_generic_malloc_aligned lb kind 0 0 a.

(** The search for the first aligned object; [opp] is the object before it, if
    any. *)
Definition aligned_body (align_m1 : Z) (m : mem) (s : option Z * Z) : (option Z * Z) + (option Z * Z) :=
  let '(opp, op) := s in
  if negb (Z.land op align_m1 =? 0) then inl (Some op, obj_link op m) else inr (opp, op).

Definition find_aligned (align_m1 op : Z) (m : mem) : option (option Z * Z) :=
  if GC_GRANULE_BYTES <=? align_m1 then loop (aligned_body align_m1 m) (None, op) else Some (None, op).

(** [*opp = v] *)
Definition set_opp (opp : option Z) (kind lg v : Z) a : al T C :=
  match opp with None => set_head kind lg v a | Some p => on_mem (<[p := v]>) a end.

Definition GC_malloc_kind_aligned_global (lb kind align_m1 : Z) a : option (Z * al T C) :=
  '(op, a) ←
    (if SMALL_OBJ (EXTRA_BYTES P) lb && (align_m1 <? HBLKSIZE / 2) then
       lg ← sm_get (GC_size_map a) lb;
       '(opp, op) ← find_aligned align_m1 (free_head a kind lg) (mm (gcs a));
       if negb (op =? NULL) then
         let a := set_opp opp kind lg (obj_link op (mm (gcs a))) a in
         let a := if negb (kind =? PTRFREE) then on_mem (<[op := NULL]>) a else a in
         Some (op, add_allocd (GRANULES_TO_BYTES lg) a)
       else Some (NULL, a)
     else Some (NULL, a));
  if negb (op =? NULL) then Some (op, a) else GC_generic_malloc_aligned lb kind 0 align_m1 a.

Definition GC_malloc_kind (lb kind : Z) a : option (Z * al T C) := GC_malloc_kind_aligned_global lb kind 0 a.
Definition GC_malloc_atomic (lb : Z) a : option (Z * al T C) := GC_malloc_kind lb PTRFREE a.
Definition GC_malloc (lb : Z) a : option (Z * al T C) := GC_malloc_kind lb NORMAL a.

Definition GC_generic_malloc_uncollectable (lb kind : Z) a : option (Z * al T C) :=
  let lb_orig := lb in
  let lb := if negb (EXTRA_BYTES P =? 0) && negb (lb =? 0) then lb - 1 else lb in
  if SMALL_OBJ (EXTRA_BYTES P) lb then
    a ← op_notify_or_invoke_finalizers O a;
    lg ← sm_get (GC_size_map a) lb;
    let op := free_head a kind lg in
    if negb (op =? NULL) then
      Some (op, add_non_gc (GRANULES_TO_BYTES lg) (take_head op kind lg true a))
    else
      '(op, a) ← GC_generic_malloc_inner_small lb kind a;
      Some (if op =? NULL then GC_oom_fn P lb_orig else op, a)
  else
    '(op, a) ← GC_generic_malloc_aligned lb kind 0 0 a;
    Some (op, if negb (op =? NULL)
              then let x := set_mark_bit_from_hdr 0 (hdr_of_obj a op) in
                   set_gc (gwrite op (set_hb_marks 1 (hb_marks x) x) (gcs a)) a
              else a).

Definition GC_malloc_uncollectable (lb : Z) a : option (Z * al T C) := GC_generic_malloc_uncollectable lb Mark.UNCOLLECTABLE a.

(** *** Explicit deallocation *)

(** The removal of the entries of an object from the mark stack: an entry inside it
    is overwritten by the top one. *)
Definition purge_body (base lb : Z) (s : nat * list Mark.mse) : (nat * list Mark.mse) + list Mark.mse :=
  let '(entry, l) := s in
  match l !! entry with
  | None => inr l
  | Some e =>
    if (base <=? Mark.mse_start e) && (Mark.mse_start e <? base + lb) then
      inl (entry, take (length l - 1) (match last l with Some top => <[entry := top]> l | None => l end))
    else inl (S entry, l)
  end.

Definition purge_mark_stack (base lb : Z) (l : list Mark.mse) : option (list Mark.mse) :=
  loop (purge_body base lb) (0%nat, l).

Definition GC_free_internal (base clear_ofs clear_lb : Z) a : option (al T C) :=
  let hhdr := hdr_of_obj a base in
  let lb := hb_sz hhdr in
  let lg := BYTES_TO_GRANULES lb in
  let kind := hb_obj_kind hhdr in
  let a := add_freed lb a in
  let a := if IS_UNCOLLECTABLE kind then add_non_gc (- lb) a else a in
  let clear_lb := if (GC_SIZE_MAX - clear_lb <=? clear_ofs) || (lb <? clear_ofs + clear_lb)
                  then if clear_ofs <? lb then lb - clear_ofs else 0 else clear_lb in
  if lg <=? MAXOBJGRANULES then
    let '(clear_ofs, clear_lb) := if ok_init (al_kind a kind) && (PTRSZ <? lb) then (PTRSZ, lb - PTRSZ)
                                  else (clear_ofs, clear_lb) in
    let a := if 0 <? clear_lb then on_mem (BZERO (base + clear_ofs) (Z.to_nat clear_lb)) a else a in
    let flh := free_head a kind lg in
    Some (set_head kind lg base (on_mem (<[base := flh]>) a))
  else
    let a := if 0 <? clear_lb then on_mem (BZERO (base + clear_ofs) (Z.to_nat clear_lb)) a else a in
    let a := if HBLKSIZE <? lb
             then set_gc (set_large_allocd (wrap64 (GC_large_allocd (gcs a) - HBLKSIZE * OBJ_SZ_TO_BLOCKS lb)) (gcs a)) a
             else a in
    a ← (if negb (GC_mark_state a =? Mark.MS_NONE)
         then l ← purge_mark_stack base lb (GC_mark_stack a); Some (set_mark_stack l a)
         else Some a);
    h ← GC_freehblk (hb_block hhdr) (hp (gcs a));
    Some (set_gc (set_hp h (gcs a)) a).

Definition GC_free (p : Z) a : option (al T C) := if p =? NULL then Some a else GC_free_internal p 0 0 a.
Definition GC_freezero (p clear_lb : Z) a : option (al T C) :=
  if p =? NULL then Some a else GC_free_internal p 0 clear_lb a.

(** *** Other allocation functions (mallocx.c) *)

Definition GC_generic_or_special_malloc (lb kind : Z) a : option (Z * al T C) :=
  if (kind =? PTRFREE) || (kind =? NORMAL) then GC_malloc_kind lb kind a
  else if IS_UNCOLLECTABLE kind then GC_generic_malloc_uncollectable lb kind a
  else GC_generic_malloc_aligned lb kind 0 0 a.

(** The size of a large object becomes that of its blocks; the result has the new
    size. *)
Definition realloc_size (p : Z) a : Z * al T C :=
  let hhdr := hdr_of_obj a p in
  let orig_sz := hb_sz hhdr in
  let kind := hb_obj_kind hhdr in
  if MAXOBJBYTES <? orig_sz then
    let ok := GC_obj_kinds (prm (hp (gcs a))) kind in
    let sz := round_to_blocks orig_sz in
    let descr := ok_descriptor ok in
    let descr := if negb (EXTRA_BYTES P =? 0) && flag_set (hb_flags hhdr) IGNORE_OFF_PAGE && (kind =? NORMAL)
                 then wrap64 (descr + ALIGNMENT) else descr in
    let descr := if ok_relocate_descr ok then wrap64 (descr + sz) else descr in
    let a := set_gc (gwrite p (set_hb_descr descr (set_hb_sz sz hhdr)) (gcs a)) a in
    (sz, if IS_UNCOLLECTABLE kind then add_non_gc (sz - orig_sz) a else a)
  else (orig_sz, a).

(** A new object with the first [sz] bytes of [p], which is freed. *)
Definition realloc_move (p lb sz kind : Z) a : option (Z * al T C) :=
  '(result, a) ← GC_generic_or_special_malloc lb kind a;
  if result =? NULL then Some (NULL, a)
  else a ← GC_free p (on_mem (BCOPY p result (Z.to_nat sz)) a); Some (result, a).

Definition realloc_clear (p lb orig_sz : Z) a : al T C :=
  if lb <? orig_sz then on_mem (BZERO (p + lb) (Z.to_nat (orig_sz - lb))) a else a.

Definition GC_realloc (p lb : Z) a : option (Z * al T C) :=
  if p =? NULL then GC_malloc lb a
  else if lb =? 0 then a ← GC_free p a; Some (NULL, a)
  else
    let orig_sz := hb_sz (hdr_of_obj a p) in
    let kind := hb_obj_kind (hdr_of_obj a p) in
    let '(sz, a) := realloc_size p a in
    if ADD_EXTRA_BYTES (EXTRA_BYTES P) lb <=? sz then
      if Z.shiftr sz 1 <=? lb then Some (p, realloc_clear p lb orig_sz a)
      else realloc_move p lb lb kind a
    else realloc_move p lb sz kind a.

Definition GC_realloc_no_shrink (p lb : Z) a : option (Z * al T C) :=
  if p =? NULL then GC_malloc lb a
  else if lb =? 0 then a ← GC_free p a; Some (NULL, a)
  else
    let orig_sz := hb_sz (hdr_of_obj a p) in
    let kind := hb_obj_kind (hdr_of_obj a p) in
    let '(sz, a) := realloc_size p a in
    if ADD_EXTRA_BYTES (EXTRA_BYTES P) lb <=? sz then Some (p, realloc_clear p lb orig_sz a)
    else realloc_move p lb sz kind a.

Definition GC_reallocf (p lb : Z) a : option (Z * al T C) :=
  '(result, a) ← GC_realloc p lb a;
  if result =? NULL then a ← GC_free p a; Some (NULL, a) else Some (result, a).

(** The walk that cuts a prefix of about a block off a free list: the bytes in it
    and, when it is cut, the object it ends with. *)
Definition prefix_body (lb_adjusted : Z) (m : mem) (s : Z * Z) : (Z * Z) + (Z * option Z) :=
  let '(p, my_bytes_allocd) := s in
  if p =? NULL then inr (my_bytes_allocd, None)
  else
    let n := wrap64 (my_bytes_allocd + lb_adjusted) in
    if HBLKSIZE <=? n then inr (n, Some p) else inl (obj_link p m, n).

Definition take_prefix (lb_adjusted kind lg : Z) a : option (Z * al T C) :=
  let op := free_head a kind lg in
  let a := set_head kind lg NULL a in
  '(n, e) ← loop (prefix_body lb_adjusted (mm (gcs a))) (op, 0);
  let a := match e with
           | Some p => on_mem (<[p := NULL]>) (set_head kind lg (obj_link p (mm (gcs a))) a)
           | None => a
           end in
  Some (op, add_allocd n a).

(** Sweeping queued blocks for the caller until one has objects to give. *)
Definition many_body (lb_adjusted lg kind : Z) (s : al T C) : al T C + option (Z * al T C) :=
  let a := s in
  let g := gcs a in
  let hbp := head_of (ok_reclaim_list g) kind lg in
  if hbp =? NULL then inr (Some (NULL, a))
  else
    let g := set_reclaim_list kind lg (hb_next (ghdr g hbp)) g in
    let g := gwrite hbp (set_hb_last_reclaimed (GC_gc_no (prm (hp g)) mod 65536) (ghdr g hbp)) g in
    match GC_reclaim_generic (ok_disclaim (sweep_kinds (swp g) kind)) (GC_debugging_started (swp g)) hbp (ghdr g hbp)
            lb_adjusted (ok_init (sweep_kinds (swp g) kind)) NULL 0 (mm g) with
    | None => inr None
    | Some (op, x, my_bytes_allocd, m) =>
      let g := set_mm m (gwrite hbp x g) in
      if negb (op =? NULL) then
        let g := set_found (wrap64 (GC_bytes_found g + my_bytes_allocd)) g in
        inr (Some (op, add_allocd my_bytes_allocd (set_gc g a)))
      else inl (set_gc g a)
    end.

(** A new block, or as a last attempt a single object. *)
Definition many_new (lb_adjusted lg kind : Z) a : option (Z * al T C) :=
  '(h, a) ← op_allochblk O lb_adjusted kind 0 0 a;
  if negb (h =? NULL) then
    let a := if IS_UNCOLLECTABLE kind then set_gc (gwrite h (GC_set_hdr_marks (hdr_of_obj a h)) (gcs a)) a else a in
    let a := add_allocd (HBLKSIZE - HBLKSIZE mod lb_adjusted) a in
    '(op, m) ← GC_build_fl h NULL lg (ok_init (al_kind a kind) || debugging a) (mm (gcs a));
    Some (op, on_mem (fun _ => m) a)
  else
    '(op, a) ← GC_generic_malloc_inner (lb_adjusted - EXTRA_BYTES P) kind 0 a;
    Some (op, if negb (op =? NULL) then on_mem (<[op := NULL]>) a else a).

(** The list is the result; the store of its head into the caller's variable is
    left to the caller. *)
Definition GC_generic_malloc_many (lb_adjusted kind : Z) a : option (Z * al T C) :=
  if (MAXOBJBYTES <? lb_adjusted) || GC_manual_vdb P then
    '(op, a) ← GC_generic_malloc_aligned (lb_adjusted - EXTRA_BYTES P) kind 0 0 a;
    Some (op, if negb (op =? NULL) then on_mem (<[op := NULL]>) a else a)
  else
    let lg := BYTES_TO_GRANULES lb_adjusted in
    a ← op_notify_or_invoke_finalizers O a;
    a ← (if incremental a && negb (dont_gc a) then op_collect_a_little O 1 a else Some a);
    '(op, a) ← (if ok_lists (al_kind a kind) then mjoin (loop (many_body lb_adjusted lg kind) a) else Some (NULL, a));
    if negb (op =? NULL) then Some (op, a)
    else if negb (free_head a kind lg =? NULL) then take_prefix lb_adjusted kind lg a
    else many_new lb_adjusted lg kind a.

Definition GC_malloc_many (lb : Z) a : option (Z * al T C) :=
  let lb := if lb =? 0 then 1 else lb in
  GC_generic_malloc_many (GRANULES_TO_BYTES (ALLOC_REQUEST_GRANS (EXTRA_BYTES P) lb)) NORMAL a.

Definition GC_memalign (align lb : Z) a : option (Z * al T C) :=
  let align_m1 := wrap64 (align - 1) in
  if (align =? 0) || negb (Z.land align align_m1 =? 0) then Some (NULL, a)
  else if align <=? GC_GRANULE_BYTES then GC_malloc lb a
  else GC_malloc_kind_aligned_global lb NORMAL align_m1 a.

Definition EINVAL : Z := 22.
Definition ENOMEM : Z := 12.

(** The error code, or the new object. *)
Definition GC_posix_memalign (align lb : Z) a : option ((Z + Z) * al T C) :=
  if (align <? PTRSZ) || negb (Z.land (align - 1) align =? 0) then Some (inl EINVAL, a)
  else
    '(p, a) ← GC_memalign align lb a;
    Some (if p =? NULL then inl ENOMEM else inr p, a).

(** *** Typed objects (typd_mlc.c) *)

Definition sizeof_GC_descr : Z := 8.

Definition set_obj_descr (op d : Z) a : al T C :=
  if op =? NULL then a
  else let sz := GC_size (gcs a) op in on_mem (<[op + (sz - sizeof_GC_descr) := d]>) a.

Definition GC_malloc_explicitly_typed (explicit_kind lb d : Z) a : option (Z * al T C) :=
  let lb := if lb <? PTRSZ - sizeof_GC_descr + 1 then PTRSZ - sizeof_GC_descr + 1 else lb in
  '(op, a) ← GC_malloc_kind (SIZET_SAT_ADD lb (sizeof_GC_descr - EXTRA_BYTES P)) explicit_kind a;
  Some (op, set_obj_descr op d a).

Definition GC_malloc_explicitly_typed_ignore_off_page (explicit_kind lb d : Z) a : option (Z * al T C) :=
  if lb <? HBLKSIZE - sizeof_GC_descr then GC_malloc_explicitly_typed explicit_kind lb d a
  else
    '(op, a) ← GC_generic_malloc_aligned (SIZET_SAT_ADD lb sizeof_GC_descr) explicit_kind IGNORE_OFF_PAGE 0 a;
    Some (op, set_obj_descr op d a).
End Ops.
End Malloc.
End Malloc.
