(* ===== verification/MallocInv.v ===== *)
(** * The invariant of object allocation

    [al_inv a F Q U] says that the free lists hold the objects [F], the reclaim lists
    the blocks [Q], and that the objects [U] in the hands of the client are on no
    free list and safe from sweeps: an object in a queued block is marked.  The laws
    of the interface [block_ops] say that block allocation, collections and
    finalizers keep the invariant and the contents of the client's objects. *)

From Stdlib Require Import ZArith Lia.
From stdpp Require Import base gmap list.
From S2P Require Import Prelude BlackList Scratch Hblk Headers HeadersNav HdrIface MarkBits ObjMap NewHblk Sweep FreeList Allchblk Reclaim ReclaimOk ReclaimBlock SizeMap Mark Malloc.

Module MallocInv.
Import Headers MarkBits NewHblk Sweep FreeList Allchblk Reclaim ReclaimOk ReclaimBlock SizeMap Malloc.

(** ** Bytes and words *)

Lemma aligned_word (x a : Z) : x mod 8 = 0 -> a - a mod PTRSZ = x <-> x <= a < x + 8.
Proof. unfold PTRSZ. intros. split; intros; dlia. Qed.

Lemma set_byte_ne (a v x : Z) (m : mem) : ~ (x mod 8 = 0 /\ x <= a < x + 8) -> set_byte a v m !! x = m !! x.
Proof.
  intros Hx. unfold set_byte. cbn zeta. rewrite lookup_insert_ne; [done|]. intros E. apply Hx.
  unfold PTRSZ in E. split; dlia.
Qed.

Lemma BZERO_frame (n : nat) (a x : Z) (m : mem) :
  ~ (x mod 8 = 0 /\ x < a + Z.of_nat n /\ a < x + 8) -> BZERO a n m !! x = m !! x.
Proof.
  revert a m. induction n as [|n IH]; intros a m Hx; cbn [BZERO]; [done|].
  rewrite IH by lia. apply set_byte_ne. lia.
Qed.

Lemma BCOPY_frame (n : nat) (src dst x : Z) (m : mem) :
  ~ (x mod 8 = 0 /\ x < dst + Z.of_nat n /\ dst < x + 8) -> BCOPY src dst n m !! x = m !! x.
Proof.
  revert src dst m. induction n as [|n IH]; intros src dst m Hx; cbn [BCOPY]; [done|].
  rewrite IH by lia. apply set_byte_ne. lia.
Qed.

Lemma testbit_byte (w k i : Z) : 0 <= k < 8 -> 0 <= i < 8 ->
  Z.testbit (Z.land (Z.shiftr w (8 * k)) 255) i = Z.testbit w (8 * k + i).
Proof.
  intros Hk Hi. rewrite Z.land_spec, Z.shiftr_spec by lia. change 255 with (Z.ones 8).
  rewrite Z.ones_spec_low, andb_true_r by lia. f_equal. lia.
Qed.

Lemma byte_eq (x y : Z) : (forall i, 0 <= i < 8 -> Z.testbit x i = Z.testbit y i) -> Z.land x 255 = Z.land y 255.
Proof.
  intros E. change 255 with (Z.ones 8). apply Z.bits_inj'. intros i Hi. rewrite !Z.land_spec.
  destruct (Z.lt_ge_cases i 8); [rewrite E by lia; done|]. by rewrite Z.ones_spec_high, !andb_false_r by lia.
Qed.

Lemma byte_at_set (a v x : Z) (m : mem) : 0 <= v < 256 ->
  byte_at (set_byte a v m) x = if decide (x = a) then v else byte_at m x.
Proof.
  intros Hv. unfold byte_at, set_byte, mread, PTRSZ. cbn zeta.
  destruct (decide (x - x mod 8 = a - a mod 8)) as [E|E].
  2:{ rewrite lookup_insert_ne by done. destruct (decide (x = a)) as [->|]; done. }
  rewrite E, lookup_insert_eq. cbn [default].
  set (w := default 0 (m !! (a - a mod 8))). set (kx := x mod 8) in *. set (ka := a mod 8) in *.
  assert (Hkx : 0 <= kx < 8) by (unfold kx; dlia). assert (Hka : 0 <= ka < 8) by (unfold ka; dlia).
  assert (Eb : forall j, 0 <= j -> Z.testbit (Z.lor (Z.ldiff w (Z.shiftl 255 (8 * ka))) (Z.shiftl v (8 * ka))) j
             = if decide (8 * ka <= j < 8 * ka + 8) then Z.testbit v (j - 8 * ka) else Z.testbit w j).
  { intros j Hj. rewrite Z.lor_spec, Z.ldiff_spec, !Z.shiftl_spec by lia. change 255 with (Z.ones 8).
    case_decide as Hd.
    - rewrite Z.ones_spec_low by lia. by rewrite andb_false_r.
    - assert (Z.testbit v (j - 8 * ka) = false) as ->.
      { destruct (Z.lt_ge_cases j (8 * ka)); [by rewrite Z.testbit_neg_r by lia|].
        destruct (decide (v = 0)) as [->|]; [apply Z.bits_0|]. apply Z.bits_above_log2; [lia|].
        assert (Z.log2 v < 8) by (apply Z.log2_lt_pow2; lia). lia. }
      assert (Z.testbit (Z.ones 8) (j - 8 * ka) = false) as ->.
      { destruct (Z.lt_ge_cases j (8 * ka)); [by rewrite Z.testbit_neg_r by lia|]. by rewrite Z.ones_spec_high by lia. }
      by rewrite orb_false_r, andb_true_r. }
  destruct (decide (x = a)) as [->|Hne].
  - fold ka. transitivity (Z.land v 255); [|change 255 with (Z.ones 8); rewrite Z.land_ones, Z.mod_small by lia; done].
    apply byte_eq. intros i Hi. rewrite Z.shiftr_spec, Eb, decide_True by lia. f_equal. lia.
  - apply byte_eq. intros i Hi. rewrite !Z.shiftr_spec, Eb by lia. rewrite decide_False; [done|].
    assert (kx <> ka) by lia. lia.
Qed.

Lemma byte_at_range (m : mem) (x : Z) : 0 <= byte_at m x < 256.
Proof. unfold byte_at. change 255 with (Z.ones 8). rewrite Z.land_ones by lia. apply Z.mod_pos_bound. lia. Qed.

Lemma BZERO_bytes (n : nat) (a x : Z) (m : mem) :
  byte_at (BZERO a n m) x = if decide (a <= x < a + Z.of_nat n) then 0 else byte_at m x.
Proof.
  revert a m. induction n as [|n IH]; intros a m; cbn [BZERO]; [by rewrite decide_False by lia|].
  rewrite IH, byte_at_set by lia. repeat case_decide; try lia; done.
Qed.

(** The ranges must not overlap. *)
Lemma BCOPY_bytes (n : nat) (src dst x : Z) (m : mem) :
  src + Z.of_nat n <= dst \/ dst + Z.of_nat n <= src ->
  byte_at (BCOPY src dst n m) x = if decide (dst <= x < dst + Z.of_nat n) then byte_at m (src + (x - dst)) else byte_at m x.
Proof.
  revert src dst m. induction n as [|n IH]; intros src dst m Hd; cbn [BCOPY]; [by rewrite decide_False by lia|].
  rewrite IH by lia. rewrite !byte_at_set by apply byte_at_range. repeat case_decide; try lia; try done; f_equal; lia.
Qed.

Lemma mread_byte_zero (m : mem) (x : Z) :
  x mod 8 = 0 -> 0 <= mread m x < W64 -> (forall i, 0 <= i < 8 -> byte_at m (x + i) = 0) -> mread m x = 0.
Proof.
  intros Hx Hr Hb. apply Z.bits_inj'. intros j Hj. rewrite Z.bits_0. destruct (Z.lt_ge_cases j 64).
  - specialize (Hb (j / 8) ltac:(dlia)). unfold byte_at, PTRSZ in Hb.
    replace (x + j / 8 - (x + j / 8) mod 8) with x in Hb by dlia. replace ((x + j / 8) mod 8) with (j / 8) in Hb by dlia.
    replace j with (8 * (j / 8) + j mod 8) at 1 by dlia. rewrite <- testbit_byte by dlia. by rewrite Hb, Z.bits_0.
  - destruct (decide (mread m x = 0)) as [->|]; [apply Z.bits_0|]. apply Z.bits_above_log2; [lia|].
    assert (Z.log2 (mread m x) < 64) by (apply Z.log2_lt_pow2; [lia|unfold W64 in Hr; lia]). lia.
Qed.

Lemma byte_at_word (m : mem) (x : Z) : mread m (x - x mod 8) = 0 -> byte_at m x = 0.
Proof. intros E. unfold byte_at, PTRSZ. by rewrite E, Z.shiftr_0_l, Z.land_0_l. Qed.

Lemma byte_at_ext (m m' : mem) (x : Z) : m' !! (x - x mod 8) = m !! (x - x mod 8) -> byte_at m' x = byte_at m x.
Proof. intros E. unfold byte_at, mread, PTRSZ. by rewrite E. Qed.

(** ** Objects *)

Section Inv.
Context {T C : Type} `{HeaderTable T} `{!HeaderTableLaws T}.
Implicit Types (a : al T C) (g : gc T).

Abbreviation tb g := (fls (hp g)).
Abbreviation gsz lg := (GRANULES_TO_BYTES lg).

Definition blk (o : Z) : Z := o - o mod 4096.

(** A block of small objects of a kind and size. *)
Record small_block g (k lg b : Z) : Prop := {
  sm_hdr : has_hdr (tb g) b;
  sm_range : 0 < b < W64;
  sm_align : b mod 4096 = 0;
  sm_lg : 1 <= lg <= MAXOBJGRANULES;
  sm_kind : hb_obj_kind (ghdr g b) = k;
  sm_sz : hb_sz (ghdr g b) = gsz lg
}.

Definition slot g (k lg o : Z) : Prop :=
  small_block g k lg (blk o) /\ o ∈ objects (blk o) (gsz lg) (n_objs (gsz lg)).

(** The only object of a large block; its other pages have no header. *)
Record large g (o sz : Z) : Prop := {
  la_hdr : has_hdr (tb g) o;
  la_range : 0 < o < W64;
  la_align : o mod 4096 = 0;
  la_sz : hb_sz (ghdr g o) = sz;
  la_big : MAXOBJBYTES < sz;
  la_pages : forall q, o < q < o + sz -> ~ same_blk q o -> ~ has_hdr (tb g) q
}.

Definition object g (o sz : Z) : Prop := (exists k lg, sz = gsz lg /\ slot g k lg o) \/ large g o sz.

(** What an object needs of the state. *)
Definition same_blocks g g' : Prop :=
  (forall p, HDRs (tb g') p = HDRs (tb g) p)
  /\ forall q, has_hdr (tb g) q -> hb_obj_kind (ghdr g' q) = hb_obj_kind (ghdr g q) /\ hb_sz (ghdr g' q) = hb_sz (ghdr g q).

Lemma same_blocks_refl g : same_blocks g g.
Proof. done. Qed.

Lemma same_blocks_trans g1 g2 g3 : same_blocks g1 g2 -> same_blocks g2 g3 -> same_blocks g1 g3.
Proof.
  intros [H1 H2] [H3 H4]. split; [intros p; by rewrite H3|]. intros q Hq.
  assert (Hq' : has_hdr (tb g2) q) by (unfold has_hdr; by rewrite H1).
  destruct (H2 q Hq) as [<- <-]. by destruct (H4 q Hq') as [-> ->].
Qed.

Lemma small_block_same g g' (k lg b : Z) : same_blocks g g' -> small_block g k lg b -> small_block g' k lg b.
Proof.
  intros [H1 H2] [A1 A2 A3 A4 A5 A6]. destruct (H2 b A1) as [E1 E2]. split; try done; [|by rewrite E1|by rewrite E2].
  unfold has_hdr. by rewrite H1.
Qed.

Lemma slot_same g g' (k lg o : Z) : same_blocks g g' -> slot g k lg o -> slot g' k lg o.
Proof. intros HS [H1 H2]. split; [by eapply small_block_same|done]. Qed.

Lemma object_same g g' (o sz : Z) : same_blocks g g' -> object g o sz -> object g' o sz.
Proof.
  intros HS [(k & lg & -> & Hs)|[A1 A2 A3 A4 A5 A6]]; [left; exists k, lg; split; [done|by eapply slot_same]|right].
  destruct HS as [H1 H2]. destruct (H2 o A1) as [_ E2]. split; try done; [unfold has_hdr; by rewrite H1|by rewrite E2|].
  intros q Hq Hn. unfold has_hdr. rewrite H1. by apply A6.
Qed.

Lemma ghdr_blk g (p q : Z) : p / 4096 = q / 4096 -> ghdr g p = ghdr g q /\ HDRs (tb g) p = HDRs (tb g) q.
Proof.
  intros E. assert (E' : HDRs (tb g) p = HDRs (tb g) q) by (by apply hl_block). split; [|done].
  unfold ghdr, hread, hptr. by rewrite E'.
Qed.

Lemma gsz_pos (lg : Z) : 1 <= lg <= MAXOBJGRANULES -> 16 <= gsz lg <= 2048 /\ gsz lg mod 16 = 0.
Proof.
  change MAXOBJGRANULES with 128. unfold GRANULES_TO_BYTES, GC_GRANULE_BYTES. intros. split; [lia|]. apply Z_mod_mult.
Qed.

(** Where an object lies in its block. *)
Lemma slot_pos g (k lg o : Z) :
  slot g k lg o -> blk o <= o /\ o + gsz lg <= blk o + 4096 /\ o mod 16 = 0 /\ 0 < o /\ (gsz lg | o - blk o)
    /\ same_blk (blk o) o.
Proof.
  intros [[A1 A2 A3 A4 A5 A6] (i & Hi & Eo)%elem_of_objects].
  destruct (n_objs_bounds lg A4) as (Hn & Hle & _). change HBLKSIZE with 4096 in Hle.
  pose proof (gsz_pos lg A4) as [Hp Hm]. split_and!.
  - unfold blk. dlia.
  - rewrite Eo at 1. nia.
  - rewrite Eo. rewrite Z.add_mod, Z.mul_mod, Hm by lia. cbn. unfold blk in *. dlia.
  - unfold blk in *. dlia.
  - exists i. lia.
  - unfold same_blk, blk. dlia.
Qed.

Lemma slot_of_hdr g (k lg o k' lg' : Z) : slot g k lg o -> slot g k' lg' o -> k' = k /\ lg' = lg.
Proof.
  intros [[_ _ _ H1 <- E1] _] [[_ _ _ H2 <- E2] _]. split; [done|]. rewrite E1 in E2.
  unfold GRANULES_TO_BYTES, GC_GRANULE_BYTES in E2. lia.
Qed.

Lemma multiples_apart (s x y : Z) : 0 < s -> (s | x) -> (s | y) -> x <> y -> x + s <= y \/ y + s <= x.
Proof. intros Hs [i ->] [j ->] Hne. assert (i <> j) by congruence. nia. Qed.

Lemma slots_apart g (k lg o k' lg' o' : Z) :
  slot g k lg o -> slot g k' lg' o' -> o <> o' -> o + gsz lg <= o' \/ o' + gsz lg' <= o.
Proof.
  intros S1 S2 Hne. destruct (slot_pos _ _ _ _ S1) as (A1 & A2 & A3 & A4 & A5 & A6).
  destruct (slot_pos _ _ _ _ S2) as (B1 & B2 & B3 & B4 & B5 & B6).
  destruct (decide (blk o = blk o')) as [E|E].
  - destruct S1 as [M1 _], S2 as [M2 _]. rewrite <- E in M2.
    assert (lg' = lg) as ->.
    { pose proof (sm_sz _ _ _ _ M1) as E1. rewrite (sm_sz _ _ _ _ M2) in E1. unfold GRANULES_TO_BYTES, GC_GRANULE_BYTES in E1. lia. }
    rewrite <- E in B5. pose proof (gsz_pos lg (sm_lg _ _ _ _ M1)).
    destruct (multiples_apart (gsz lg) (o - blk o) (o' - blk o)) as [?|?]; try done; lia.
  - unfold blk in *. dlia.
Qed.

Lemma slot_large_apart g (k lg o o' sz : Z) : slot g k lg o -> large g o' sz -> o + gsz lg <= o' \/ o' + sz <= o.
Proof.
  intros S1 [B1 B2 B3 B4 B5 B6]. destruct (slot_pos _ _ _ _ S1) as (A1 & A2 & A3 & A4 & A5 & A6).
  destruct S1 as [[M1 M2 M3 M4 M5 M6] _].
  destruct (Z.le_gt_cases (o + gsz lg) o'); [by left|right].
  destruct (Z.le_gt_cases (o' + sz) o); [done|exfalso].
  assert (Hb : o' <= blk o) by (unfold blk in *; dlia).
  destruct (Z.eq_dec (blk o / 4096) (o' / 4096)) as [E|E].
  - destruct (ghdr_blk g _ _ E) as [Eg _]. rewrite Eg, B4 in M6. pose proof (gsz_pos lg M4). change MAXOBJBYTES with 2048 in B5. lia.
  - apply (B6 (blk o)); [|done|done]. assert (blk o <> o') by (intros Eb; apply E; by rewrite Eb). lia.
Qed.

Lemma larges_apart g (o sz o' sz' : Z) : large g o sz -> large g o' sz' -> o <> o' -> o + sz <= o' \/ o' + sz' <= o.
Proof.
  intros [A1 A2 A3 A4 A5 A6] [B1 B2 B3 B4 B5 B6] Hne.
  assert (Hd : ~ same_blk o o') by (unfold same_blk; dlia).
  destruct (Z.lt_total o o') as [?|[?|?]]; [left|done|right].
  - destruct (Z.le_gt_cases (o + sz) o'); [done|]. exfalso. apply (A6 o'); [lia| |done]. intros E. by apply Hd.
  - destruct (Z.le_gt_cases (o' + sz') o); [done|]. exfalso. by apply (B6 o); [lia| |done].
Qed.

Lemma objects_apart g (o sz o' sz' : Z) : object g o sz -> object g o' sz' -> o <> o' -> o + sz <= o' \/ o' + sz' <= o.
Proof.
  intros [(k & lg & -> & S1)|L1] [(k' & lg' & -> & S2)|L2] Hne.
  - by eapply slots_apart.
  - by eapply slot_large_apart.
  - destruct (slot_large_apart g k' lg' o' o sz S2 L1); auto.
  - by eapply larges_apart.
Qed.

(** ** The invariant *)

Context (P : al_params).
Implicit Types (F Q : Z -> Z -> list Z) (U : Z -> Z -> Prop).

Abbreviation marked g o := (obj_marked (ghdr g (blk o)) (blk o) o).

Record al_inv a F Q U : Prop := {
  ai_gc : gc_ok (gcs a);
  ai_map : sm_ok (EXTRA_BYTES P) (GC_size_map a);
  ai_queues : queues_ok (gcs a) Q;
  ai_nolists : forall k lg, ok_lists (al_kind a k) = false -> Q k lg = [];
  ai_lists : forall k lg, fl_seg (mm (gcs a)) (free_head a k lg) (F k lg) NULL;
  ai_slot : forall k lg o, o ∈ F k lg -> slot (gcs a) k lg o;
  ai_nodup : forall k lg, NoDup (F k lg);
  ai_safe : forall k lg o, o ∈ F k lg -> blk o ∈ Q k lg -> marked (gcs a) o = true;
  ai_clear : forall k lg o x, o ∈ F k lg -> ok_init (al_kind a k) = true -> o + 8 <= x < o + gsz lg ->
    byte_at (mm (gcs a)) x = 0;
  ai_live : forall o sz, U o sz -> object (gcs a) o sz;
  ai_held : forall o sz k lg, U o sz -> o ∉ F k lg;
  ai_swept : forall o sz k lg, U o sz -> blk o ∈ Q k lg -> marked (gcs a) o = true
}.

(** The contents of the client's objects stay. *)
Definition kept U a a' : Prop := forall o sz x, U o sz -> o <= x < o + sz -> mm (gcs a') !! x = mm (gcs a) !! x.

Lemma kept_refl U a : kept U a a.
Proof. done. Qed.

Lemma kept_trans U a1 a2 a3 : kept U a1 a2 -> kept U a2 a3 -> kept U a1 a3.
Proof. intros H1 H2 o sz x HU Hx. by rewrite (H2 o sz x HU Hx), (H1 o sz x HU Hx). Qed.

Definition with_obj U (op sz : Z) (o s : Z) : Prop := U o s \/ (o = op /\ s = sz).
Definition without U (op : Z) (o s : Z) : Prop := U o s /\ o <> op.
Definition put F (k lg : Z) (l : list Z) (k' lg' : Z) : list Z := if decide ((k', lg') = (k, lg)) then l else F k' lg'.

Lemma put_eq F (k lg : Z) (l : list Z) : put F k lg l k lg = l.
Proof. unfold put. by rewrite decide_True. Qed.

Lemma put_ne F (k lg k' lg' : Z) (l : list Z) : (k', lg') <> (k, lg) -> put F k lg l k' lg' = F k' lg'.
Proof. intros. unfold put. by rewrite decide_False. Qed.

Lemma al_inv_sub a F Q U U' : (forall o sz, U' o sz -> U o sz) -> al_inv a F Q U -> al_inv a F Q U'.
Proof. intros Hs [? ? ? ? ? ? ? ? ? A B C']. split; try done; intros; [apply A|eapply B|eapply C']; eauto. Qed.

Lemma head_nil a F Q U (k lg : Z) : al_inv a F Q U -> free_head a k lg = NULL <-> F k lg = [].
Proof.
  intros HI. pose proof (ai_lists _ _ _ _ HI k lg) as Hl. destruct (F k lg) as [|o l] eqn:E; [done|]. split; [|done].
  destruct Hl as [Ho _]. intros E0. destruct (slot_pos (gcs a) k lg o) as (_ & _ & _ & Hpos & _); [|lia].
  apply (ai_slot _ _ _ _ HI). rewrite E. by left.
Qed.

(** The free object at the head. *)
Lemma head_cons a F Q U (k lg : Z) :
  al_inv a F Q U -> free_head a k lg <> NULL ->
  exists rest, F k lg = free_head a k lg :: rest /\ slot (gcs a) k lg (free_head a k lg)
    /\ fl_seg (mm (gcs a)) (obj_link (free_head a k lg) (mm (gcs a))) rest NULL /\ free_head a k lg ∉ rest.
Proof.
  intros HI Hn. pose proof (ai_lists _ _ _ _ HI k lg) as Hl. pose proof (ai_nodup _ _ _ _ HI k lg) as Hd.
  destruct (F k lg) as [|o l] eqn:E; [exfalso; by apply Hn|]. destruct Hl as (Ho & next & En & Hs). exists l.
  rewrite Ho. split; [done|]. split; [apply (ai_slot _ _ _ _ HI); rewrite E; by left|].
  unfold obj_link, mread. rewrite En. split; [done|]. by apply NoDup_cons in Hd as [? _].
Qed.

(** Free objects and those of the client lie apart. *)
Lemma free_apart a F Q U (k lg o k' lg' o' : Z) :
  al_inv a F Q U -> o ∈ F k lg -> o' ∈ F k' lg' -> o <> o' -> o + gsz lg <= o' \/ o' + gsz lg' <= o.
Proof. intros HI H1 H2. eapply slots_apart; by apply (ai_slot _ _ _ _ HI). Qed.

Lemma live_apart a F Q U (k lg o o' sz : Z) :
  al_inv a F Q U -> o ∈ F k lg -> U o' sz -> o + gsz lg <= o' \/ o' + sz <= o.
Proof.
  intros HI H1 H2. apply (objects_apart (gcs a)).
  - left. exists k, lg. split; [done|]. by apply (ai_slot _ _ _ _ HI).
  - by apply (ai_live _ _ _ _ HI).
  - intros ->. by eapply (ai_held _ _ _ _ HI).
Qed.

Lemma free_unique a F Q U (k lg o k' lg' : Z) :
  al_inv a F Q U -> o ∈ F k lg -> o ∈ F k' lg' -> k' = k /\ lg' = lg.
Proof. intros HI H1 H2. eapply (slot_of_hdr (gcs a)); by apply (ai_slot _ _ _ _ HI). Qed.

Lemma slot_gsz g (k lg o : Z) : slot g k lg o -> 16 <= gsz lg <= 2048.
Proof. intros [[_ _ _ Hlg _ _] _]. by apply gsz_pos. Qed.

(** A lookup or a byte of one object is not touched by writes inside another. *)
Lemma byte_other (m m' : mem) (op n o x : Z) :
  (forall y, ~ (op <= y < op + n) -> m' !! y = m !! y) -> o mod 8 = 0 -> (n mod 8 = 0) -> op mod 8 = 0 ->
  (x < op \/ op + n <= x) -> byte_at m' x = byte_at m x.
Proof. intros Hm H1 H2 H3 Hx. apply byte_at_ext, Hm. dlia. Qed.

Lemma queues_same g g' Q :
  hp g' = hp g -> ok_reclaim_list g' = ok_reclaim_list g -> queues_ok g Q -> queues_ok g' Q.
Proof.
  intros Eh Er [Q1 Q2 Q3]. assert (Eg : forall q, ghdr g' q = ghdr g q) by (intros q; unfold ghdr; by rewrite Eh).
  split; [| |done].
  - intros k lg. rewrite Er. by apply (rl_chain_ext g).
  - intros k lg b Hb. apply (sweepable_ext g); rewrite ?Eg, ?Eh; try done. by apply Q2.
Qed.

(** Taking objects off one list: memory changes inside [op], which goes to the
    client. *)
Lemma inv_take a a' F Q U (k lg op : Z) (rest : list Z) :
  al_inv a F Q U -> op ∈ F k lg -> (forall o, o ∈ rest -> o ∈ F k lg) -> NoDup rest -> op ∉ rest ->
  hp (gcs a') = hp (gcs a) -> swp (gcs a') = swp (gcs a) -> ok_reclaim_list (gcs a') = ok_reclaim_list (gcs a) ->
  GC_bytes_found (gcs a') = GC_bytes_found (gcs a) -> GC_size_map a' = GC_size_map a ->
  (forall k' lg', (k', lg') <> (k, lg) -> free_head a' k' lg' = free_head a k' lg') ->
  fl_seg (mm (gcs a')) (free_head a' k lg) rest NULL ->
  (forall y, (forall o, o ∈ F k lg -> y <> o) -> mm (gcs a') !! y = mm (gcs a) !! y) ->
  al_inv a' (put F k lg rest) Q (with_obj U op (gsz lg)) /\ kept U a a'.
Proof.
  intros HI Hop Hrest Hnd Hnot Eh Es Er Ef Em Hfh Hseg Hmm.
  assert (Eg : forall q, ghdr (gcs a') q = ghdr (gcs a) q) by (intros q; unfold ghdr; by rewrite Eh).
  assert (SB : same_blocks (gcs a) (gcs a')) by (split; [intros p; by rewrite Eh|intros q _; by rewrite Eg]).
  assert (Hin : forall k' lg' o, o ∈ put F k lg rest k' lg' -> o ∈ F k' lg' /\ o <> op).
  { intros k' lg' o. unfold put. case_decide as Hd; [injection Hd as -> ->|].
    - intros Ho. split; [by apply Hrest|]. congruence.
    - intros Ho. split; [done|]. intros ->. apply Hd. by destruct (free_unique _ _ _ _ _ _ _ _ _ HI Hop Ho) as [-> ->]. }
  assert (Hop' := ai_slot _ _ _ _ HI _ _ _ Hop).
  split.
  - split.
    + unfold gc_ok. rewrite Eh, Ef. apply HI.
    + rewrite Em. apply HI.
    + by apply (queues_same (gcs a)), HI.
    + unfold al_kind. rewrite Es. apply HI.
    + intros k' lg'. unfold put. case_decide as Hd; [injection Hd as -> ->; done|].
      rewrite Hfh by done. apply (fl_seg_frame (mm (gcs a))); [|apply HI]. intros o Ho. apply Hmm.
      intros o' Ho' ->. apply Hd. by destruct (free_unique _ _ _ _ _ _ _ _ _ HI Ho' Ho) as [-> ->].
    + intros k' lg' o [Ho _]%Hin. eapply slot_same; [done|]. by apply HI.
    + intros k' lg'. unfold put. by case_decide; [|apply HI].
    + intros k' lg' o [Ho _]%Hin Hb. rewrite Eg. by apply (ai_safe _ _ _ _ HI k' lg').
    + intros k' lg' o x [Ho Hne]%Hin Hinit Hx. unfold al_kind in Hinit. rewrite Es in Hinit.
      rewrite (byte_at_ext (mm (gcs a))); [by apply (ai_clear _ _ _ _ HI k' lg' o)|]. apply Hmm. intros o' Ho' E.
      assert (S1 := ai_slot _ _ _ _ HI _ _ _ Ho). assert (S2 := ai_slot _ _ _ _ HI _ _ _ Ho').
      destruct (slot_pos _ _ _ _ S1) as (_ & _ & C1 & _). destruct (slot_pos _ _ _ _ S2) as (_ & _ & C2 & _).
      pose proof (slot_gsz _ _ _ _ S2).
      destruct (decide (o = o')) as [->|Hne']; [dlia|]. destruct (slots_apart _ _ _ _ _ _ _ S1 S2 Hne'); dlia.
    + intros o sz [HU|[-> ->]]; [eapply object_same; [done|]; by apply HI|].
      eapply object_same; [done|]. left. by exists k, lg.
    + intros o sz k' lg' [HU|[-> ->]] [Ho Hne]%Hin; [|done]. by eapply (ai_held _ _ _ _ HI).
    + intros o sz k' lg' [HU|[-> ->]] Hb; rewrite Eg; [by eapply (ai_swept _ _ _ _ HI)|].
      apply (ai_safe _ _ _ _ HI k lg); [done|]. destruct (qo_sweepable _ _ (ai_queues _ _ _ _ HI) _ _ _ Hb) as [B1 B2 B3 B4 B5 B6 B7].
      destruct Hop' as [[_ _ _ D4 D5 D6] _]. rewrite B5 in D5. subst k'. rewrite B6 in D6.
      unfold GRANULES_TO_BYTES, GC_GRANULE_BYTES in D6. by assert (lg' = lg) as <- by lia.
  - intros o sz x HU Hx. apply Hmm. intros o' Ho' ->. pose proof (slot_gsz _ _ _ _ (ai_slot _ _ _ _ HI _ _ _ Ho')).
    destruct (live_apart _ _ _ _ _ _ _ _ _ HI Ho' HU); lia.
Qed.

Lemma take_head_spec a F Q U (k lg : Z) :
  al_inv a F Q U -> free_head a k lg <> NULL ->
  let op := free_head a k lg in
  exists rest, F k lg = op :: rest
    /\ al_inv (take_head op k lg true a) (put F k lg rest) Q (with_obj U op (gsz lg))
    /\ kept U a (take_head op k lg true a) /\ slot (gcs a) k lg op.
Proof.
  intros HI Hn op. destruct (head_cons a F Q U k lg HI Hn) as (rest & E & Hs & Hseg & Hnot). fold op in E, Hs, Hseg, Hnot.
  exists rest. split; [done|].
  destruct (inv_take a (take_head op k lg true a) F Q U k lg op rest) as [H1 H2]; try done.
  - rewrite E. by left.
  - intros o Ho. rewrite E. by right.
  - pose proof (ai_nodup _ _ _ _ HI k lg) as Hd. rewrite E in Hd. by apply NoDup_cons in Hd as [_ ?].
  - intros k' lg' Hne. unfold free_head, head_of, take_head. cbn. by rewrite lookup_insert_ne.
  - unfold free_head, head_of, take_head. cbn. rewrite lookup_insert_eq. cbn.
    apply (fl_seg_frame (mm (gcs a))); [|done]. intros o Ho. apply lookup_insert_ne. congruence.
  - intros y Hy. unfold take_head. cbn. apply lookup_insert_ne. intros <-. apply (Hy op); [rewrite E; by left|done].
Qed.

(** Putting an object of the client on its list: memory changes inside it only. *)
Lemma inv_push a a' F Q U (k lg p sz : Z) :
  al_inv a F Q U -> U p sz -> slot (gcs a) k lg p ->
  hp (gcs a') = hp (gcs a) -> swp (gcs a') = swp (gcs a) -> ok_reclaim_list (gcs a') = ok_reclaim_list (gcs a) ->
  GC_bytes_found (gcs a') = GC_bytes_found (gcs a) -> GC_size_map a' = GC_size_map a ->
  (forall k' lg', free_head a' k' lg' = if decide ((k', lg') = (k, lg)) then p else free_head a k' lg') ->
  mm (gcs a') !! p = Some (free_head a k lg) ->
  (forall y, ~ p <= y < p + gsz lg -> mm (gcs a') !! y = mm (gcs a) !! y) ->
  (ok_init (al_kind a k) = true -> forall x, p + 8 <= x < p + gsz lg -> byte_at (mm (gcs a')) x = 0) ->
  al_inv a' (put F k lg (p :: F k lg)) Q (without U p) /\ kept (without U p) a a'.
Proof.
  intros HI HU Hs Eh Es Er Ef Em Hfh Hp Hmm Hcl.
  assert (Eg : forall q, ghdr (gcs a') q = ghdr (gcs a) q) by (intros q; unfold ghdr; by rewrite Eh).
  assert (SB : same_blocks (gcs a) (gcs a')) by (split; [intros q; by rewrite Eh|intros q _; by rewrite Eg]).
  assert (Hpf : forall k' lg', p ∉ F k' lg') by (intros k' lg'; by eapply (ai_held _ _ _ _ HI)).
  assert (Hin : forall k' lg' o, o ∈ put F k lg (p :: F k lg) k' lg' -> o ∈ F k' lg' \/ (o = p /\ k' = k /\ lg' = lg)).
  { intros k' lg' o. unfold put. case_decide as Hd; [injection Hd as -> ->|by left].
    intros [->|?]%elem_of_cons; [by right|by left]. }
  assert (Hout : forall k' lg' o, o ∈ F k' lg' -> o + gsz lg' <= p \/ p + gsz lg <= o).
  { intros k' lg' o Ho. eapply (slots_apart (gcs a)); [by apply HI|done|]. intros ->. by eapply Hpf. }
  assert (Hword : forall k' lg' o, o ∈ F k' lg' -> mm (gcs a') !! o = mm (gcs a) !! o).
  { intros k' lg' o Ho. apply Hmm. pose proof (slot_gsz _ _ _ _ (ai_slot _ _ _ _ HI _ _ _ Ho)). pose proof (Hout _ _ _ Ho). lia. }
  split.
  - split.
    + unfold gc_ok. rewrite Eh, Ef. apply HI.
    + rewrite Em. apply HI.
    + by apply (queues_same (gcs a)), HI.
    + unfold al_kind. rewrite Es. apply HI.
    + intros k' lg'. rewrite Hfh. unfold put. case_decide as Hd; [injection Hd as -> ->|].
      * split; [done|]. exists (free_head a k lg). split; [done|].
        apply (fl_seg_frame (mm (gcs a))); [|apply HI]. intros o Ho. by eapply Hword.
      * apply (fl_seg_frame (mm (gcs a))); [|apply HI]. intros o Ho. by eapply Hword.
    + intros k' lg' o [Ho|(-> & -> & ->)]%Hin; (eapply slot_same; [done|]); [by apply HI|done].
    + intros k' lg'. unfold put. case_decide as Hd; [|apply HI]. apply NoDup_cons. split; [apply Hpf|apply HI].
    + intros k' lg' o [Ho|(-> & -> & ->)]%Hin Hb; rewrite Eg; [by apply (ai_safe _ _ _ _ HI k' lg')|].
      by apply (ai_swept _ _ _ _ HI p sz k lg).
    + intros k' lg' o x [Ho|(-> & -> & ->)]%Hin Hinit Hx; unfold al_kind in Hinit; rewrite Es in Hinit; [|by apply Hcl].
      rewrite (byte_at_ext (mm (gcs a))); [by apply (ai_clear _ _ _ _ HI k' lg' o)|]. apply Hmm.
      destruct (slot_pos _ _ _ _ (ai_slot _ _ _ _ HI _ _ _ Ho)) as (_ & _ & C1 & _). destruct (slot_pos _ _ _ _ Hs) as (_ & _ & C2 & _).
      assert (C3 : gsz lg mod 16 = 0) by (apply gsz_pos; apply Hs).
      destruct (Hout _ _ _ Ho); dlia.
    + intros o s [Ho _]. eapply object_same; [done|]. by apply HI.
    + intros o s k' lg' [Ho Hne] [Ho'|(-> & _)]%Hin; [|done]. by eapply (ai_held _ _ _ _ HI).
    + intros o s k' lg' [Ho _] Hb. rewrite Eg. by eapply (ai_swept _ _ _ _ HI).
  - intros o s x [Ho Hne] Hx. apply Hmm. destruct (objects_apart (gcs a) o s p (gsz lg)) as [?|?]; try lia; try done.
    + by apply (ai_live _ _ _ _ HI).
    + left. by exists k, lg.
Qed.

Lemma free_hdr a (k lg p : Z) : slot (gcs a) k lg p ->
  hb_sz (hdr_of_obj a p) = gsz lg /\ hb_obj_kind (hdr_of_obj a p) = k /\ 1 <= lg <= MAXOBJGRANULES.
Proof.
  intros Hs. destruct (slot_pos _ _ _ _ Hs) as (_ & _ & _ & _ & _ & Hb). destruct Hs as [[A1 A2 A3 A4 A5 A6] _].
  unfold hdr_of_obj. destruct (ghdr_blk (gcs a) _ _ Hb) as [<- _]. done.
Qed.

Lemma to_granules (lg : Z) : BYTES_TO_GRANULES (gsz lg) = lg.
Proof. unfold BYTES_TO_GRANULES, GRANULES_TO_BYTES, GC_GRANULE_BYTES. apply Z.div_mul. lia. Qed.

Lemma free_small_spec a F Q U (k lg p sz ofs n : Z) :
  al_inv a F Q U -> U p sz -> slot (gcs a) k lg p -> 0 <= ofs -> 0 <= n ->
  exists a', GC_free_internal p ofs n a = Some a'
    /\ al_inv a' (put F k lg (p :: F k lg)) Q (without U p) /\ kept (without U p) a a'
    /\ free_head a' k lg = p
    /\ (forall y, ~ p <= y < p + gsz lg -> mm (gcs a') !! y = mm (gcs a) !! y)
    /\ mm (gcs a') !! p = Some (free_head a k lg)
    /\ hp (gcs a') = hp (gcs a)
    /\ GC_bytes_allocd a' = GC_bytes_allocd a
    /\ GC_bytes_freed a' = wrap64 (GC_bytes_freed a + gsz lg)
    /\ GC_non_gc_bytes a' = (if IS_UNCOLLECTABLE k then wrap64 (GC_non_gc_bytes a - gsz lg) else GC_non_gc_bytes a).
Proof.
  intros HI HU Hs Ho Hn. destruct (free_hdr a k lg p Hs) as (Esz & Ek & Hlg). pose proof (gsz_pos lg Hlg) as [Hg Hg16].
  destruct (slot_pos _ _ _ _ Hs) as (_ & _ & C2 & Hp0 & _).
  unfold GC_free_internal. rewrite Esz, Ek, to_granules. cbn zeta. rewrite (proj2 (Z.leb_le lg MAXOBJGRANULES)) by lia.
  set (n' := if (GC_SIZE_MAX - n <=? ofs) || (gsz lg <? ofs + n) then if ofs <? gsz lg then gsz lg - ofs else 0 else n).
  assert (Hn' : 0 <= n' /\ (0 < n' -> ofs + n' <= gsz lg)).
  { unfold n'. destruct (Z.leb_spec (GC_SIZE_MAX - n) ofs), (Z.ltb_spec (gsz lg) (ofs + n)), (Z.ltb_spec ofs (gsz lg)); cbn; lia. }
  clearbody n'. set (a1 := if IS_UNCOLLECTABLE k then add_non_gc (- gsz lg) (add_freed (gsz lg) a) else add_freed (gsz lg) a).
  assert (E1 : gcs a1 = gcs a /\ GC_size_map a1 = GC_size_map a /\ GC_bytes_allocd a1 = GC_bytes_allocd a
    /\ GC_bytes_freed a1 = wrap64 (GC_bytes_freed a + gsz lg)
    /\ GC_non_gc_bytes a1 = (if IS_UNCOLLECTABLE k then wrap64 (GC_non_gc_bytes a - gsz lg) else GC_non_gc_bytes a)).
  { unfold a1. destruct IS_UNCOLLECTABLE; cbn; split_and!; try done. }
  destruct E1 as (E1 & E2 & E3 & E4 & E5). clearbody a1.
  unfold al_kind, free_head. rewrite E1. fold (al_kind a k).
  rewrite (proj2 (Z.ltb_lt PTRSZ (gsz lg))) by (unfold PTRSZ; lia). rewrite andb_true_r.
  set (cl := if ok_init (al_kind a k) then (PTRSZ, gsz lg - PTRSZ) else (ofs, n')).
  assert (Hcl : 0 <= cl.1 /\ 0 <= cl.2 /\ (0 < cl.2 -> cl.1 + cl.2 <= gsz lg)
    /\ (ok_init (al_kind a k) = true -> cl = (PTRSZ, gsz lg - PTRSZ))).
  { unfold cl, PTRSZ. destruct (ok_init (al_kind a k)); cbn; split_and!; done || lia. }
  destruct cl as [co cn]. cbn [fst snd] in Hcl. destruct Hcl as (Hc1 & Hc2 & Hc3 & Hc4).
  set (m1 := if 0 <? cn then BZERO (p + co) (Z.to_nat cn) (mm (gcs a)) else mm (gcs a)).
  assert (Hm1 : forall y, ~ p <= y < p + gsz lg -> m1 !! y = mm (gcs a) !! y).
  { intros y Hy. unfold m1. destruct (Z.ltb_spec 0 cn) as [Hlt|]; [|done]. apply BZERO_frame. specialize (Hc3 Hlt). dlia. }
  set (a' := set_head k lg p (on_mem (fun _ => <[p := head_of (ok_freelist (gcs a)) k lg]> m1) a1)).
  exists a'. split.
  { unfold a', m1. destruct (0 <? cn); unfold free_head, set_head, on_mem, set_gc; cbn; rewrite ?E1; done. }
  assert (G1 : mm (gcs a') = <[p := free_head a k lg]> m1) by done.
  assert (Hfh : forall k' lg', free_head a' k' lg' = if decide ((k', lg') = (k, lg)) then p else free_head a k' lg').
  { intros k' lg'. unfold free_head, head_of, a'. cbn. rewrite E1. case_decide as Hd; [injection Hd as -> ->; by rewrite lookup_insert_eq|].
    by rewrite lookup_insert_ne. }
  assert (G2 : forall y, ~ p <= y < p + gsz lg -> mm (gcs a') !! y = mm (gcs a) !! y).
  { intros y Hy. rewrite G1, lookup_insert_ne by lia. by apply Hm1. }
  destruct (inv_push a a' F Q U k lg p sz) as [I1 I2]; try done.
  - unfold a'. cbn. by rewrite E1.
  - unfold a'. cbn. by rewrite E1.
  - unfold a'. cbn. by rewrite E1.
  - unfold a'. cbn. by rewrite E1.
  - rewrite G1. apply lookup_insert_eq.
  - intros Hinit x Hx. rewrite G1. specialize (Hc4 Hinit). injection Hc4 as -> ->.
    rewrite (byte_at_ext m1); [|apply lookup_insert_ne; dlia]. unfold m1, PTRSZ in *.
    rewrite (proj2 (Z.ltb_lt _ _)), BZERO_bytes, decide_True by lia. done.
  - assert (free_head a' k lg = p) by (by rewrite Hfh, decide_True).
    assert (mm (gcs a') !! p = Some (free_head a k lg)) by (rewrite G1; apply lookup_insert_eq).
    assert (hp (gcs a') = hp (gcs a)) by (unfold a'; cbn; by rewrite E1). by split_and!.
Qed.

(** ** Sweeping on demand *)

Lemma sweepable_small g (k lg b : Z) : sweepable g k lg b -> small_block g k lg b.
Proof. intros [? ? ? ? ? ? ?]. by split. Qed.

Lemma blk_object (b lg o : Z) :
  b mod 4096 = 0 -> 1 <= lg <= MAXOBJGRANULES -> o ∈ objects b (gsz lg) (n_objs (gsz lg)) -> blk o = b.
Proof.
  intros Hb Hlg (i & Hi & ->)%elem_of_objects. destruct (n_objs_bounds lg Hlg) as (Hn & Hle & _). change HBLKSIZE with 4096 in Hle.
  pose proof (gsz_pos lg Hlg) as [Hp _]. assert (0 <= gsz lg * i < 4096) by nia. unfold blk. dlia.
Qed.

Lemma swept_slot g (k lg b o : Z) :
  sweepable g k lg b -> o ∈ objs_at g lg b -> slot g k lg o /\ blk o = b /\ marked g o = false.
Proof.
  intros Hb [Hm Ho]%list_elem_of_filter. assert (E := blk_object b lg o (sb_align _ _ _ _ Hb) (sb_lg _ _ _ _ Hb) Ho).
  split_and!; [|done|by rewrite E]. split; [rewrite E; by apply sweepable_small|by rewrite E].
Qed.

Lemma objects_nodup (h sz : Z) (n : nat) : 0 < sz -> NoDup (objects h sz n).
Proof. intros Hsz. unfold objects. apply NoDup_fmap_2; [intros x y ?; nia|apply NoDup_seqZ]. Qed.

Lemma objs_of_nodup g (W : list (Z * Z * Z)) (k lg : Z) : trace_ok g W -> NoDup (objs_of g W k lg).
Proof.
  intros [H1 H2]. unfold objs_of. apply NoDup_bind.
  - intros b b' o Hb%elem_of_blocks Hb'%elem_of_blocks Ho Ho'.
    destruct (swept_slot g k lg b o (H1 _ _ _ Hb) Ho) as (_ & <- & _).
    by destruct (swept_slot g k lg b' o (H1 _ _ _ Hb') Ho') as (_ & <- & _).
  - intros b Hb%elem_of_blocks. apply list.NoDup_filter, objects_nodup.
    destruct (gsz_pos lg (sb_lg _ _ _ _ (H1 _ _ _ Hb))). lia.
  - unfold blocks_of. induction W as [|e W IH]; [by constructor|]. cbn in H2. apply NoDup_cons in H2 as [N1 N2].
    rewrite filter_cons. assert (NoDup (snd <$> filter (fun e0 : Z * Z * Z => e0.1 = (k, lg)) W)) as IH'.
    { apply IH; [|done]. intros k' lg' b Hin. apply H1. by right. }
    case_decide; [|done]. cbn. apply NoDup_cons. split; [|done]. intros (x & Ex & [_ Hx]%list_elem_of_filter)%list_elem_of_fmap.
    apply N1. apply list_elem_of_fmap. by exists x.
Qed.

Lemma swept_same g W g' : swept_trace g W g' -> same_blocks g g'.
Proof. intros HS. split; [apply HS|]. intros q _. by rewrite (st_hdr _ _ _ HS q). Qed.

Lemma blocks_apart (b b' : Z) : b mod 4096 = 0 -> b' mod 4096 = 0 -> b <> b' -> ~ same_blk b b'.
Proof. unfold same_blk. dlia. Qed.

(** Adding free objects [nw] in front of one list: memory changes in [D] only,
    blocks leave the queues at most, and keep their kinds and sizes. *)
Lemma inv_add a a' F Q Q' U (k lg : Z) (nw : list Z) (D : Z -> Prop) :
  al_inv a F Q U -> same_blocks (gcs a) (gcs a') -> gc_ok (gcs a') -> GC_size_map a' = GC_size_map a ->
  swp (gcs a') = swp (gcs a) -> queues_ok (gcs a') Q' ->
  (forall k' lg' b, b ∈ Q' k' lg' -> b ∈ Q k' lg' /\ ghdr (gcs a') b = ghdr (gcs a) b) ->
  NoDup nw ->
  (forall o, o ∈ nw -> slot (gcs a) k lg o /\ (forall k' lg', o ∉ F k' lg') /\ (forall sz, ~ U o sz)
                      /\ forall k' lg', blk o ∉ Q' k' lg') ->
  (forall y, ~ D y -> mm (gcs a') !! y = mm (gcs a) !! y) ->
  (forall k' lg' o x, o ∈ F k' lg' -> o <= x < o + gsz lg' -> ~ D x) ->
  (forall o sz x, U o sz -> o <= x < o + sz -> ~ D x) ->
  (forall k' lg', (k', lg') <> (k, lg) -> free_head a' k' lg' = free_head a k' lg') ->
  fl_seg (mm (gcs a')) (free_head a' k lg) nw (free_head a k lg) ->
  (ok_init (al_kind a k) = true -> forall o x, o ∈ nw -> o + 8 <= x < o + gsz lg -> byte_at (mm (gcs a')) x = 0) ->
  al_inv a' (put F k lg (nw ++ F k lg)) Q' U /\ kept U a a'.
Proof.
  intros HI SB Hgc Em Es HQ Hhdr Hnd Hnw Hmm HFD HUD Hfh Hseg Hcl.
  assert (Hin : forall k' lg' o, o ∈ put F k lg (nw ++ F k lg) k' lg' -> o ∈ F k' lg' \/ (k' = k /\ lg' = lg /\ o ∈ nw)).
  { intros k' lg' o. unfold put. case_decide as Hd; [injection Hd as -> ->|by left]. rewrite elem_of_app. intros [?|?]; [by right|by left]. }
  assert (Hword : forall k' lg' o, o ∈ F k' lg' -> mm (gcs a') !! o = mm (gcs a) !! o).
  { intros k' lg' o Ho. apply Hmm, (HFD k' lg' o); [done|]. pose proof (slot_gsz _ _ _ _ (ai_slot _ _ _ _ HI _ _ _ Ho)). lia. }
  assert (Hold : forall k' lg', fl_seg (mm (gcs a')) (free_head a k' lg') (F k' lg') NULL).
  { intros k' lg'. apply (fl_seg_frame (mm (gcs a))); [|apply HI]. intros o Ho. by eapply Hword. }
  split; [split|].
  - done.
  - rewrite Em. apply HI.
  - done.
  - intros k' lg' El. unfold al_kind in El. rewrite Es in El. apply elem_of_nil_inv. intros b [Hb _]%Hhdr.
    rewrite (ai_nolists _ _ _ _ HI k' lg' El) in Hb. by apply elem_of_nil in Hb.
  - intros k' lg'. unfold put. case_decide as Hd; [injection Hd as -> ->; by eapply fl_seg_app|by rewrite Hfh].
  - intros k' lg' o [Ho|(-> & -> & Ho)]%Hin; (eapply slot_same; [exact SB|]); [by apply HI|by apply Hnw].
  - intros k' lg'. unfold put. case_decide as Hd; [|apply HI]. apply NoDup_app. split_and!; [done| |apply HI].
    intros o Ho. by apply Hnw.
  - intros k' lg' o [Ho|(-> & -> & Ho)]%Hin Hb; [|by destruct (Hnw o Ho) as (_ & _ & _ & []%(fun H => H k lg))].
    destruct (Hhdr _ _ _ Hb) as [HbQ ->]. by apply (ai_safe _ _ _ _ HI k' lg').
  - intros k' lg' o x [Ho|(-> & -> & Ho)]%Hin Hinit Hx; unfold al_kind in Hinit; rewrite Es in Hinit; [|by eapply Hcl].
    rewrite (byte_at_ext (mm (gcs a))); [by apply (ai_clear _ _ _ _ HI k' lg' o)|]. apply Hmm, (HFD k' lg' o); [done|].
    destruct (slot_pos _ _ _ _ (ai_slot _ _ _ _ HI _ _ _ Ho)) as (_ & _ & C1 & _). dlia.
  - intros o sz Ho. eapply object_same; [exact SB|]. by apply HI.
  - intros o sz k' lg' Ho [Ho'|(_ & _ & Ho')]%Hin; [by eapply (ai_held _ _ _ _ HI)|]. destruct (Hnw o Ho') as (_ & _ & HU & _). by apply (HU sz).
  - intros o sz k' lg' Ho Hb. destruct (Hhdr _ _ _ Hb) as [HbQ ->]. by eapply (ai_swept _ _ _ _ HI).
  - intros o sz x Ho Hx. apply Hmm. by eapply HUD.
Qed.

Section Continue.
Context (a : al T C) (F Q : Z -> Z -> list Z) (U : Z -> Z -> Prop) (k lg : Z) (dn rest : list Z) (g' : gc T).
Context (HI : al_inv a F Q U) (EQ : Q k lg = dn ++ rest) (HS : swept_trace (gcs a) (entries k lg dn) g').
Context (Hch : rl_chain (gcs a) (head_of (ok_reclaim_list g') k lg) rest).
Context (Hoth : forall k' lg', (k', lg') <> (k, lg) ->
  head_of (ok_reclaim_list g') k' lg' = head_of (ok_reclaim_list (gcs a)) k' lg').

Abbreviation new := (objs_of (gcs a) (entries k lg dn) k lg).
Abbreviation F' := (put F k lg (reverse new ++ F k lg)).
Abbreviation Q' := (put Q k lg rest).

Lemma in_entries (k' lg' b : Z) : (k', lg', b) ∈ entries k lg dn <-> k' = k /\ lg' = lg /\ b ∈ dn.
Proof.
  unfold entries. rewrite list_elem_of_fmap. split; [intros (x & E & Hx); by simplify_eq|].
  intros (-> & -> & Hb). by exists b.
Qed.

Lemma dn_sweepable (b : Z) : b ∈ dn -> sweepable (gcs a) k lg b.
Proof. intros Hb. apply (qo_sweepable _ _ (ai_queues _ _ _ _ HI)). rewrite EQ. apply elem_of_app. by left. Qed.

Lemma new_spec (o : Z) : o ∈ new -> slot (gcs a) k lg o /\ blk o ∈ dn /\ marked (gcs a) o = false.
Proof.
  intros (b & (_ & _ & Hb)%in_entries & Ho)%elem_of_objs_of. destruct (swept_slot _ _ _ _ _ (dn_sweepable b Hb) Ho) as (H1 & H2 & H3).
  split_and!; [done|by rewrite H2|done].
Qed.

Lemma new_elem (b o : Z) : b ∈ dn -> o ∈ objs_at (gcs a) lg b -> o ∈ new.
Proof. intros Hb Ho. apply elem_of_objs_of. exists b. by rewrite in_entries. Qed.

Lemma new_free_ne (k' lg' o o' : Z) : o ∈ F k' lg' -> o' ∈ new -> o <> o'.
Proof.
  intros Ho (Hs & Hb & Hm)%new_spec ->. destruct (slot_of_hdr _ _ _ _ _ _ Hs (ai_slot _ _ _ _ HI _ _ _ Ho)) as [-> ->].
  rewrite (ai_safe _ _ _ _ HI k lg o' Ho) in Hm; [done|]. rewrite EQ. apply elem_of_app. by left.
Qed.

Lemma new_live_ne (o sz o' : Z) : U o sz -> o' ∈ new -> o <> o'.
Proof.
  intros Ho (Hs & Hb & Hm)%new_spec ->.
  rewrite (ai_swept _ _ _ _ HI o' sz k lg Ho) in Hm; [done|]. rewrite EQ. apply elem_of_app. by left.
Qed.

(** Memory outside the swept objects. *)
Lemma cont_frame (y : Z) : (forall o, o ∈ new -> ~ o <= y < o + gsz lg) -> mm g' !! y = mm (gcs a) !! y.
Proof.
  intros Hy. apply (st_frame _ _ _ HS). intros k' lg' b o (-> & -> & Hb)%in_entries Ho. apply Hy. by eapply new_elem.
Qed.

Lemma cont_hdr (k' lg' b : Z) : b ∈ Q' k' lg' -> b ∈ Q k' lg' /\ ghdr g' b = ghdr (gcs a) b.
Proof.
  intros Hb. assert (HbQ : b ∈ Q k' lg').
  { revert Hb. unfold put. case_decide as Hd; [injection Hd as -> ->|done]. intros Hb. rewrite EQ. apply elem_of_app. by right. }
  split; [done|]. apply (st_unswept _ _ _ HS). intros [[k1 lg1] b'] (-> & -> & Hb')%in_entries. cbn [snd].
  pose proof (qo_sweepable _ _ (ai_queues _ _ _ _ HI) _ _ _ HbQ) as S1. pose proof (dn_sweepable b' Hb') as S2.
  apply blocks_apart; [apply S1|apply S2|]. intros <-.
  assert (E : (k', lg') = (k, lg)) by (by apply (queue_unique (gcs a) Q k lg k' lg' b); [apply HI| |]).
  revert Hb. unfold put. rewrite decide_True by done. intros Hb.
  pose proof (qo_nodup _ _ (ai_queues _ _ _ _ HI) k lg) as Hd. rewrite EQ in Hd. apply NoDup_app in Hd as (_ & Hd & _). by apply (Hd b).
Qed.

Lemma Q'_not_new (k' lg' o : Z) : o ∈ new -> blk o ∉ Q' k' lg'.
Proof.
  intros (Hs & Hb & _)%new_spec Hq. destruct (cont_hdr _ _ _ Hq) as [HqQ _].
  assert (E : (k', lg') = (k, lg)) by (by apply (queue_unique (gcs a) Q k lg k' lg' (blk o)); [apply HI|by apply dn_sweepable|]).
  injection E as -> ->. revert Hq. rewrite put_eq. intros Hq.
  pose proof (qo_nodup _ _ (ai_queues _ _ _ _ HI) k lg) as Hd. rewrite EQ in Hd. apply NoDup_app in Hd as (_ & Hd & _). by apply (Hd (blk o)).
Qed.

Lemma cont_queues : queues_ok g' Q'.
Proof.
  split.
  - intros k' lg'. apply (rl_chain_ext (gcs a)); [by intros b [_ ?]%cont_hdr|]. unfold put. case_decide as Hd; [injection Hd as -> ->; done|].
    rewrite Hoth by done. apply HI.
  - intros k' lg' b [Hb Eb]%cont_hdr. apply (sweepable_ext (gcs a)); rewrite ?Eb; try done; [apply HS|].
    by apply (qo_sweepable _ _ (ai_queues _ _ _ _ HI)).
  - intros k' lg'. unfold put. case_decide as Hd; [injection Hd as -> ->|apply HI].
    pose proof (qo_nodup _ _ (ai_queues _ _ _ _ HI) k lg) as Hn. rewrite EQ in Hn. by apply NoDup_app in Hn as (_ & _ & ?).
Qed.

Lemma cont_clear (o x : Z) : ok_init (al_kind a k) = true -> o ∈ new -> o + 8 <= x < o + gsz lg -> byte_at (mm g') x = 0.
Proof.
  intros Hinit Ho Hx. apply byte_at_word. unfold mread.
  destruct (slot_pos _ _ _ _ (proj1 (new_spec o Ho))) as (_ & _ & C1 & _).
  apply elem_of_objs_of in Ho as (b & Hb & Ho). rewrite (st_body _ _ _ HS k lg b o) by (done || unfold PTRSZ; dlia).
  unfold clears. unfold al_kind in Hinit. by rewrite Hinit.
Qed.

Lemma cont_inv : al_inv (set_gc g' a) F' Q' U /\ kept U a (set_gc g' a).
Proof.
  apply (inv_add a _ F Q Q' U k lg (reverse new) (fun y => exists o, o ∈ new /\ o <= y < o + gsz lg)); try done.
  - exact (swept_same _ _ _ HS).
  - split; [apply HS|]. cbn [gcs set_gc]. rewrite (st_found _ _ _ HS). unfold wrap64, W64. apply Z.mod_pos_bound. lia.
  - apply HS.
  - apply cont_queues.
  - apply cont_hdr.
  - rewrite reverse_Permutation. apply objs_of_nodup. by apply (entries_ok (gcs a) Q k lg dn rest); [apply HI|].
  - intros o Ho. rewrite elem_of_reverse in Ho. split_and!; [by apply new_spec| | |].
    + intros k' lg' Ho'. exact (new_free_ne k' lg' o o Ho' Ho eq_refl).
    + intros sz HU. exact (new_live_ne o sz o HU Ho eq_refl).
    + intros k' lg'. by apply Q'_not_new.
  - intros y Hy. apply cont_frame. intros o Ho Hr. apply Hy. by exists o.
  - intros k' lg' o x Ho Hx (o' & Ho' & Hx').
    destruct (slots_apart (gcs a) _ _ _ _ _ _ (ai_slot _ _ _ _ HI _ _ _ Ho) (proj1 (new_spec _ Ho'))); [by eapply new_free_ne|lia|lia].
  - intros o sz x Ho Hx (o' & Ho' & Hx').
    destruct (objects_apart (gcs a) o sz o' (gsz lg)) as [?|?]; try lia; [by apply (ai_live _ _ _ _ HI)| |by eapply new_live_ne].
    left. exists k, lg. split; [done|]. by apply new_spec.
  - intros k' lg' Hd. pose proof (st_list _ _ _ HS k' lg') as Hl.
    assert (E : objs_of (gcs a) (entries k lg dn) k' lg' = []).
    { apply elem_of_nil_inv. intros o (b & (-> & -> & _)%in_entries & _)%elem_of_objs_of. by apply Hd. }
    rewrite E in Hl. exact Hl.
  - apply HS.
  - intros Hinit o x Ho. rewrite elem_of_reverse in Ho. by apply cont_clear.
Qed.
End Continue.

Lemma continue_reclaim_inv a F Q U (k lg : Z) :
  al_inv a F Q U ->
  exists g' F' Q', GC_continue_reclaim lg k (gcs a) = Some g' /\ al_inv (set_gc g' a) F' Q' U /\ kept U a (set_gc g' a)
    /\ swp g' = swp (gcs a) /\ prm (hp g') = prm (hp (gcs a)).
Proof.
  intros HI. destruct (ok_lists (sweep_kinds (swp (gcs a)) k)) eqn:El.
  - destruct (continue_reclaim_spec (gcs a) Q k lg (ai_gc _ _ _ _ HI) (ai_queues _ _ _ _ HI) El)
      as (dn & rest & g' & E & EQ & HS & Hch & _ & Hoth).
    destruct (cont_inv a F Q U k lg dn rest g' HI EQ HS Hch Hoth) as [H1 H2].
    exists g'. eexists _, _. split; [exact E|]. split; [exact H1|]. split; [exact H2|]. split; apply HS.
  - exists (gcs a), F, Q. unfold GC_continue_reclaim. rewrite El. by destruct a.
Qed.

(** ** The laws of block allocation and collection *)

Definition blocks_bytes (lb : Z) : Z := HBLKSIZE * OBJ_SZ_TO_BLOCKS lb.

(** A new block: its header and pages, apart from all objects and queues. *)
Record fresh_block a F Q U (r lb k align_m1 : Z) : Prop := {
  fb_hdr : has_hdr (tb (gcs a)) r;
  fb_range : 0 < r /\ r + blocks_bytes lb <= W64;
  fb_align : r mod 4096 = 0 /\ r mod (align_m1 + 1) = 0;
  fb_kind : hb_obj_kind (ghdr (gcs a) r) = k;
  fb_sz : hb_sz (ghdr (gcs a) r) = lb;
  fb_fits : lb + 4095 < W64;
  fb_pages : forall q, r < q < r + blocks_bytes lb -> ~ same_blk q r -> ~ has_hdr (tb (gcs a)) q;
  fb_free : forall k' lg' o, o ∈ F k' lg' -> o + gsz lg' <= r \/ r + blocks_bytes lb <= o;
  fb_live : forall o sz, U o sz -> o + sz <= r \/ r + blocks_bytes lb <= o;
  fb_queue : forall k' lg', r ∉ Q k' lg'
}.

(** The invariant holds and nothing the client holds is lost; [budget] bounds how
    often the heap can still be collected or expanded with success.  Kinds do not
    change whether their objects are cleared. *)
Definition moves (budget : C -> nat) U a a' F' Q' : Prop :=
  al_inv a' F' Q' U /\ kept U a a' /\ (budget (ctl a') <= budget (ctl a))%nat
  /\ forall k, ok_init (al_kind a' k) = ok_init (al_kind a k).

Record BlockLaws (O : block_ops T C) (budget : C -> nat) : Prop := {
  bl_alloc : forall lb k flags align_m1 a F Q U,
    al_inv a F Q U -> 0 < lb < W64 -> lb mod 16 = 0 ->
    exists r a' F' Q', op_allochblk O lb k flags align_m1 a = Some (r, a') /\ moves budget U a a' F' Q'
      /\ (r = NULL \/ fresh_block a' F' Q' U r lb k align_m1);
  bl_merge : forall a F Q U, al_inv a F Q U ->
    exists b a' F' Q', op_merge_unmapped O a = Some (b, a') /\ moves budget U a a' F' Q';
  bl_collect : forall n flags retry a F Q U, al_inv a F Q U ->
    exists b a' F' Q', op_collect_or_expand O n flags retry a = Some (b, a') /\ moves budget U a a' F' Q'
      /\ (b = true -> (budget (ctl a') < budget (ctl a))%nat);
  bl_little : forall n a F Q U, al_inv a F Q U ->
    exists a' F' Q', op_collect_a_little O n a = Some a' /\ moves budget U a a' F' Q';
  bl_finalizers : forall a F Q U, al_inv a F Q U ->
    exists a' F' Q', op_notify_or_invoke_finalizers O a = Some a' /\ moves budget U a a' F' Q';
  bl_budget : forall c, Z.of_nat (budget c) < 2 ^ 32
}.

Context (O : block_ops T C) (budget : C -> nat) (HB : BlockLaws O budget).

Abbreviation step := (moves budget).

Lemma step_refl U a F Q : al_inv a F Q U -> step U a a F Q.
Proof. intros HI. split; [done|]. split; [apply kept_refl|]. split; [lia|done]. Qed.

Lemma step_trans U a1 a2 a3 F2 Q2 F3 Q3 : step U a1 a2 F2 Q2 -> step U a2 a3 F3 Q3 -> step U a1 a3 F3 Q3.
Proof.
  intros (_ & K1 & B1 & N1) (I2 & K2 & B2 & N2). split; [done|]. split; [by eapply kept_trans|]. split; [lia|]. intros k. by rewrite N2.
Qed.

Lemma step_inv U a a' F Q : step U a a' F Q -> al_inv a' F Q U.
Proof. by intros [? _]. Qed.

(** Only counters differ. *)
Lemma inv_frame a a' F Q U :
  al_inv a F Q U -> hp (gcs a') = hp (gcs a) -> mm (gcs a') = mm (gcs a) -> ok_freelist (gcs a') = ok_freelist (gcs a) ->
  ok_reclaim_list (gcs a') = ok_reclaim_list (gcs a) -> GC_bytes_found (gcs a') = GC_bytes_found (gcs a) ->
  swp (gcs a') = swp (gcs a) -> GC_size_map a' = GC_size_map a -> al_inv a' F Q U.
Proof.
  intros [I1 I2 I3 I3' I4 I5 I6 I7 I8 I9 I10 I11] Eh Em Ef Er Eb Es Ez.
  assert (Eg : forall q, ghdr (gcs a') q = ghdr (gcs a) q) by (intros q; unfold ghdr; by rewrite Eh).
  assert (SB : same_blocks (gcs a) (gcs a')) by (split; [intros p; by rewrite Eh|intros q _; by rewrite Eg]).
  split; try done.
  - unfold gc_ok. by rewrite Eh, Eb.
  - by rewrite Ez.
  - by apply (queues_same (gcs a)).
  - unfold al_kind. by rewrite Es.
  - intros k lg. unfold free_head. rewrite Em, Ef. apply I4.
  - intros k lg o Ho. eapply slot_same; [exact SB|]. by apply I5.
  - intros k lg o. rewrite Eg. apply I7.
  - intros k lg o x. unfold al_kind. rewrite Es, Em. apply I8.
  - intros o sz Ho. eapply object_same; [exact SB|]. by apply I9.
  - intros o sz k lg. rewrite Eg. apply I11.
Qed.

(** Memory apart from the free objects. *)
Lemma inv_write a F Q U (f : mem -> mem) (D : Z -> Prop) :
  al_inv a F Q U -> (forall y, ~ D y -> f (mm (gcs a)) !! y = mm (gcs a) !! y) ->
  (forall k lg o x, o ∈ F k lg -> o <= x < o + gsz lg -> ~ D x) -> al_inv (on_mem f a) F Q U.
Proof.
  intros HI Hf HD. assert (SB : same_blocks (gcs a) (gcs (on_mem f a))) by done.
  pose proof HI as [I1 I2 I3 I3' I4 I5 I6 I7 I8 I9 I10 I11]. split; try done.
  - by apply (queues_same (gcs a)).
  - intros k lg. apply (fl_seg_frame (mm (gcs a))); [|apply I4]. intros o Ho. apply Hf, (HD k lg o); [done|].
    pose proof (slot_gsz _ _ _ _ (I5 _ _ _ Ho)). lia.
  - intros k lg o Ho. eapply slot_same; [exact SB|]. by apply I5.
  - intros k lg o x Ho Hi Hx. cbn [gcs on_mem set_gc mm set_mm]. rewrite (byte_at_ext (mm (gcs a))); [by apply (I8 k lg o)|].
    apply Hf, (HD k lg o); [done|]. destruct (slot_pos _ _ _ _ (I5 _ _ _ Ho)) as (_ & _ & C1 & _). dlia.
  - intros o sz Ho. eapply object_same; [exact SB|]. by apply I9.
Qed.

(** A fresh block goes to the client as one object. *)
Lemma inv_fresh a F Q U (r lb k m1 : Z) :
  al_inv a F Q U -> fresh_block a F Q U r lb k m1 -> 0 < lb -> lb mod 16 = 0 -> al_inv a F Q (with_obj U r lb).
Proof.
  intros HI [F1 [F2 F2'] [F3 _] F4 F5 F5' F6 F7 F8 F9] Hlb H16.
  assert (Hbb : lb <= blocks_bytes lb).
  { unfold blocks_bytes, OBJ_SZ_TO_BLOCKS, wrap64. change HBLKSIZE with 4096. rewrite Z.mod_small by (unfold W64 in *; lia).
    rewrite divHBLKSZ_div. dlia. }
  assert (Eb : blk r = r) by (unfold blk; lia).
  destruct HI as [I1 I2 I3 I3' I4 I5 I6 I7 I8 I9 I10 I11]. split; try done.
  - intros o sz [HU|[-> ->]]; [by apply I9|]. destruct (Z.le_gt_cases lb MAXOBJBYTES) as [Hs|Hl].
    + left. exists k, (lb / 16). assert (E : gsz (lb / 16) = lb) by (unfold GRANULES_TO_BYTES, GC_GRANULE_BYTES; dlia).
      rewrite E. split; [done|]. assert (Hlg : 1 <= lb / 16 <= MAXOBJGRANULES) by (change MAXOBJGRANULES with 128; change MAXOBJBYTES with 2048 in Hs; dlia).
      split; rewrite ?Eb, ?E.
      * split; try done; [lia|by rewrite F5, E].
      * apply elem_of_objects. exists 0. split; [|lia]. destruct (n_objs_bounds (lb / 16) Hlg) as (Hn & _). rewrite E in Hn. lia.
    + right. split; try done; try lia. intros q Hq Hn. apply F6; [lia|done].
  - intros o sz k' lg' [HU|[-> ->]] Ho; [by eapply I10|].
    pose proof (slot_gsz _ _ _ _ (I5 _ _ _ Ho)). destruct (F7 _ _ _ Ho); lia.
  - intros o sz k' lg' [HU|[-> ->]] Hq; [by eapply I11|]. rewrite Eb in Hq. by destruct (F9 k' lg').
Qed.

(** Writing the marks of a block that is not queued. *)
Lemma inv_marks a F Q U (b : Z) (x : hdr) :
  al_inv a F Q U -> has_hdr (tb (gcs a)) b -> hb_obj_kind x = hb_obj_kind (ghdr (gcs a) b) -> hb_sz x = hb_sz (ghdr (gcs a) b) ->
  b mod 4096 = 0 -> (forall k lg, b ∉ Q k lg) -> al_inv (set_gc (gwrite b x (gcs a)) a) F Q U.
Proof.
  intros HI Hb Ek Es Hal HQ. destruct (gwrite_spec (gcs a) b x (proj1 (ai_gc _ _ _ _ HI)) Hb) as (W1 & D1 & B1 & P1).
  assert (Eq : forall k lg b', b' ∈ Q k lg -> ghdr (gwrite b x (gcs a)) b' = ghdr (gcs a) b').
  { intros k lg b' Hb'. rewrite B1, decide_False; [done|].
    pose proof (sb_align _ _ _ _ (qo_sweepable _ _ (ai_queues _ _ _ _ HI) _ _ _ Hb')) as Ha. intros E.
    apply (HQ k lg). by assert (b = b') as -> by dlia. }
  assert (SB : same_blocks (gcs a) (gwrite b x (gcs a))).
  { split; [done|]. intros q _. rewrite B1. case_decide as Hd; [|done]. destruct (ghdr_blk (gcs a) q b Hd) as [-> _]. done. }
  destruct HI as [I1 I2 I3 I3' I4 I5 I6 I7 I8 I9 I10 I11]. split; try done; cbn [gcs set_gc].
  - split; [done|]. apply I1.
  - destruct I3 as [Q1 Q2 Q3]. split; [| |done].
    + intros k lg. apply (rl_chain_ext (gcs a)); [by apply Eq|]. apply Q1.
    + intros k lg b' Hb'. apply (sweepable_ext (gcs a)); rewrite ?(Eq _ _ _ Hb'); try done. by apply Q2.
  - intros k lg o Ho. eapply slot_same; [exact SB|]. by apply I5.
  - intros k lg o Ho Hq. rewrite (Eq _ _ _ Hq). by apply (I7 k lg).
  - intros o sz Ho. eapply object_same; [exact SB|]. by apply I9.
  - intros o sz k lg Ho Hq. rewrite (Eq _ _ _ Hq). by apply (I11 o sz k lg).
Qed.

Lemma one_block (lg : Z) : 1 <= lg <= MAXOBJGRANULES -> blocks_bytes (gsz lg) = 4096.
Proof.
  intros Hlg. pose proof (gsz_pos lg Hlg). unfold blocks_bytes, OBJ_SZ_TO_BLOCKS, wrap64. change HBLKSIZE with 4096.
  rewrite Z.mod_small by (unfold W64; lia). rewrite divHBLKSZ_div. dlia.
Qed.

(** Cutting a fresh block into free objects. *)
Lemma build_inv a F Q U (k lg r : Z) (clear : bool) (l : Z) (m : mem) :
  al_inv a F Q U -> 1 <= lg <= MAXOBJGRANULES -> fresh_block a F Q U r (gsz lg) k 0 ->
  (ok_init (al_kind a k) = true -> clear = true) ->
  GC_build_fl r (free_head a k lg) lg clear (mm (gcs a)) = Some (l, m) ->
  exists F', al_inv (set_head k lg l (on_mem (fun _ => m) a)) F' Q U /\ kept U a (set_head k lg l (on_mem (fun _ => m) a)).
Proof.
  intros HI Hlg HF Hc Eb. destruct HF as [F1 [F2 F2'] [F3 _] F4 F5 _ F6 F7 F8 F9]. rewrite one_block in * by done.
  destruct (build_fl_spec r (free_head a k lg) lg clear (mm (gcs a))) as (h & m' & Eb' & Hseg & Hin & Hout);
    [by change HBLKSIZE with 4096|lia|done|]. rewrite Eb in Eb'. injection Eb' as <- <-. change HBLKSIZE with 4096 in *.
  assert (SB : small_block (gcs a) k lg r) by (split; try done; unfold W64 in *; lia).
  pose proof (gsz_pos lg Hlg) as [Hg _].
  set (nw := reverse (objects r (gsz lg) (n_objs (gsz lg)))) in *. eexists (put F k lg (nw ++ F k lg)).
  assert (Hnw : forall o, o ∈ nw -> o ∈ objects r (gsz lg) (n_objs (gsz lg)) /\ blk o = r /\ r <= o /\ o + gsz lg <= r + 4096).
  { intros o Ho. unfold nw in Ho. rewrite elem_of_reverse in Ho. assert (E := blk_object r lg o F3 Hlg Ho). split_and!; try done.
    - unfold blk in E. dlia.
    - assert (Hs : slot (gcs a) k lg o) by (split; by rewrite E). destruct (slot_pos _ _ _ _ Hs) as (_ & ? & _). lia. }
  apply (inv_add a _ F Q Q U k lg nw (fun y => r <= y < r + 4096)); try done.
  - exact (ai_gc _ _ _ _ HI).
  - apply (queues_same (gcs a)); try done. apply HI.
  - unfold nw. rewrite reverse_Permutation. apply objects_nodup. lia.
  - intros o (Ho & E & Hr & He)%Hnw. split_and!.
    + split; by rewrite E.
    + intros k' lg' Ho'. pose proof (slot_gsz _ _ _ _ (ai_slot _ _ _ _ HI _ _ _ Ho')). destruct (F7 _ _ _ Ho'); lia.
    + intros sz HU. destruct (F8 _ _ HU); [|lia]. destruct (ai_live _ _ _ _ HI _ _ HU) as [(k' & lg' & -> & Hs)|HL].
      * pose proof (slot_gsz _ _ _ _ Hs). lia.
      * pose proof (la_big _ _ _ HL). change MAXOBJBYTES with 2048 in *. lia.
    + intros k' lg'. rewrite E. apply F9.
  - intros k' lg' o x Ho Hx. destruct (F7 _ _ _ Ho); lia.
  - intros o sz x Ho Hx. destruct (F8 _ _ Ho); lia.
  - intros k' lg' Hne. unfold free_head, head_of. cbn. by rewrite lookup_insert_ne.
  - unfold free_head at 1, head_of. cbn. rewrite lookup_insert_eq. cbn. exact Hseg.
  - intros Hinit o x (Ho & E & Hr & He)%Hnw Hx. apply byte_at_word. cbn [gcs set_head set_gc on_mem mm set_mm set_freelist].
    assert (C1 : o mod 16 = 0) by (apply (slot_pos (gcs a) k lg); split; by rewrite E).
    assert (Hx' : x - x mod 8 ∉ objects r (gsz lg) (n_objs (gsz lg))).
    { intros Hx'. assert (E' := blk_object r lg _ F3 Hlg Hx').
      assert (S1 : slot (gcs a) k lg o) by (split; by rewrite E). assert (S2 : slot (gcs a) k lg (x - x mod 8)) by (split; by rewrite E').
      destruct (slots_apart _ _ _ _ _ _ _ S1 S2); dlia. }
    unfold mread. rewrite Hin; [by rewrite Hc|dlia|unfold PTRSZ; dlia|done].
Qed.

Lemma new_hblk_spec a F Q U (k lg : Z) :
  al_inv a F Q U -> 1 <= lg <= MAXOBJGRANULES ->
  exists a' F' Q', GC_new_hblk O lg k a = Some a' /\ step U a a' F' Q'.
Proof.
  intros HI Hlg. pose proof (gsz_pos lg Hlg) as [Hg Hg16]. unfold GC_new_hblk.
  destruct (bl_alloc _ _ HB (gsz lg) k 0 0 a F Q U) as (r & a1 & F1 & Q1 & -> & S1 & Hr); [done|unfold W64; lia|done|].
  rewrite some_bind. destruct (Z.eqb_spec r NULL) as [->|Hr0]; [by exists a1, F1, Q1|]. destruct Hr as [?|HF]; [done|].
  destruct S1 as (I1 & K1 & B1 & N1).
  set (a2 := if IS_UNCOLLECTABLE k then set_gc (gwrite r (GC_set_hdr_marks (hdr_of_obj a1 r)) (gcs a1)) a1 else a1).
  assert (A2 : al_inv a2 F1 Q1 U /\ fresh_block a2 F1 Q1 U r (gsz lg) k 0 /\ mm (gcs a2) = mm (gcs a1) /\ ctl a2 = ctl a1
               /\ forall k', al_kind a2 k' = al_kind a1 k').
  { unfold a2. destruct IS_UNCOLLECTABLE; [|done]. destruct HF as [F2 F3 [F4 F4'] F5 F6 F6' F7 F8 F9 F10]. split_and!; try done.
    - by apply inv_marks.
    - destruct (gwrite_spec (gcs a1) r (GC_set_hdr_marks (hdr_of_obj a1 r)) (proj1 (ai_gc _ _ _ _ I1)) F2) as (_ & D & B & _).
      split; try done; cbn [gcs set_gc].
      + unfold has_hdr. by rewrite D.
      + rewrite B, decide_True by done. exact F5.
      + rewrite B, decide_True by done. exact F6.
      + intros q Hq Hn. unfold has_hdr. rewrite D. by apply F7. }
  destruct A2 as (I2 & HF2 & Em & Ec & Ek). clearbody a2.
  destruct (build_fl_spec r (free_head a2 k lg) lg (debugging a2 || ok_init (al_kind a2 k)) (mm (gcs a2)))
    as (l & m & Eb & _); [apply HF2|destruct HF2; lia|done|]. rewrite Eb, some_bind.
  destruct (build_inv a2 F1 Q1 U k lg r (debugging a2 || ok_init (al_kind a2 k)) l m I2 Hlg HF2) as (F' & I3 & K3);
    [by intros ->; apply orb_true_r|done|].
  eexists _, F', Q1. split; [done|]. split; [done|]. split.
  - eapply kept_trans; [exact K1|]. intros o sz x Ho Hx. rewrite (K3 o sz x Ho Hx). by rewrite Em.
  - split; [cbn; rewrite Ec; lia|]. intros k'. rewrite <- N1. unfold al_kind in *. cbn. by rewrite Ek.
Qed.

(** ** Allocation of small objects *)

(** New reclaim lists; the table of headers only changes where it is not looked at. *)
Lemma alloc_reclaim_list_spec a F Q U (k : Z) :
  al_inv a F Q U -> ok_lists (al_kind a k) = false ->
  exists b a', GC_alloc_reclaim_list k a = Some (b, a') /\ step U a a' F Q.
Proof.
  intros HI El. unfold GC_alloc_reclaim_list, on_tbl_res.
  destruct (hl_scratch (tbl (tb (gcs a))) sizeof_reclaim_list (proj1 (ai_gc _ _ _ _ HI)) ltac:(by vm_compute)) as (r & t & -> & Wt & [St1 St2] & _).
  rewrite !some_bind. cbn zeta. set (h := set_fls (set_tbl t (fls (hp (gcs a)))) (hp (gcs a))).
  assert (SB : forall q, has_hdr (tb (gcs a)) q -> ghdr (set_hp h (gcs a)) q = ghdr (gcs a) q).
  { intros q Hq. unfold ghdr, hread, hptr, HDRs. cbn. rewrite St1. by apply St2. }
  assert (HD : forall p, HDRs (tb (set_hp h (gcs a))) p = HDRs (tb (gcs a)) p) by (intros p; apply St1).
  assert (KEY : forall a', hp (gcs a') = h -> mm (gcs a') = mm (gcs a) -> ok_freelist (gcs a') = ok_freelist (gcs a) ->
    GC_bytes_found (gcs a') = GC_bytes_found (gcs a) -> GC_size_map a' = GC_size_map a -> ctl a' = ctl a ->
    (forall k' lg', 1 <= lg' <= MAXOBJGRANULES -> k' <> k ->
       head_of (ok_reclaim_list (gcs a')) k' lg' = head_of (ok_reclaim_list (gcs a)) k' lg') ->
    (forall k' lg', Q k' lg' = [] -> head_of (ok_reclaim_list (gcs a')) k' lg' = NULL) ->
    (forall k', ok_lists (al_kind a' k') = false -> ok_lists (al_kind a k') = false) ->
    (forall k', ok_init (al_kind a' k') = ok_init (al_kind a k')) -> step U a a' F Q).
  { intros a' Eh Em Ef Eb Es Ec Hq Hq0 Hl Hi. split; [|split; [intros o sz x _ _; by rewrite Em|split; [by rewrite Ec|done]]].
    assert (Hgq : forall q, has_hdr (tb (gcs a)) q -> ghdr (gcs a') q = ghdr (gcs a) q).
    { intros q Hq'. unfold ghdr. rewrite Eh. by apply SB. }
    assert (Hs : same_blocks (gcs a) (gcs a')).
    { split; [intros p; rewrite Eh; apply HD|]. intros q Hq'. by rewrite Hgq. }
    assert (Hqh : forall k' lg' b, b ∈ Q k' lg' -> ghdr (gcs a') b = ghdr (gcs a) b).
    { intros k' lg' b Hb. apply Hgq, (sb_hdr _ _ _ _ (qo_sweepable _ _ (ai_queues _ _ _ _ HI) _ _ _ Hb)). }
    destruct HI as [I1 I2 I3 I3' I4 I5 I6 I7 I8 I9 I10 I11]. split.
    - split; [by rewrite Eh|rewrite Eb; apply I1].
    - by rewrite Es.
    - destruct I3 as [Q1 Q2 Q3]. split; [| |done].
      + intros k' lg'. apply (rl_chain_ext (gcs a)); [by apply Hqh|]. destruct (Q k' lg') as [|b l] eqn:EQ; [by apply Hq0|].
        rewrite <- EQ. rewrite Hq; [apply Q1| |].
        * apply (sb_lg _ _ _ _ (Q2 k' lg' b ltac:(rewrite EQ; by left))).
        * intros ->. rewrite (I3' k lg' El) in EQ. done.
      + intros k' lg' b Hb. apply (sweepable_ext (gcs a)); rewrite ?(Hqh _ _ _ Hb); try done; [rewrite Eh; apply HD|]. by apply Q2.
    - intros k' lg' E. by apply I3', Hl.
    - intros k' lg'. unfold free_head. rewrite Em, Ef. apply I4.
    - intros k' lg' o Ho. eapply slot_same; [exact Hs|]. by apply I5.
    - done.
    - intros k' lg' o Ho Hb. rewrite (Hqh _ _ _ Hb). by apply (I7 k' lg').
    - intros k' lg' o x Ho. rewrite Hi, Em. by apply (I8 k' lg' o).
    - intros o sz Ho. eapply object_same; [exact Hs|]. by apply I9.
    - done.
    - intros o sz k' lg' Ho Hb. rewrite (Hqh _ _ _ Hb). by apply (I11 o sz k' lg'). }
  assert (Hnil : forall k' lg', Q k' lg' = [] -> head_of (ok_reclaim_list (gcs a)) k' lg' = NULL).
  { intros k' lg' E. pose proof (qo_chain _ _ (ai_queues _ _ _ _ HI) k' lg') as Hc. by rewrite E in Hc. }
  generalize (seqZ 0 (MAXOBJGRANULES + 1)). intros lgs0. destruct (r =? NULL); eexists _, _; (split; [reflexivity|]).
  - by apply KEY.
  - set (g1 := set_hp h (gcs a)).
    assert (Hfold : forall lgs, let g := foldr (fun lg g => set_reclaim_list k lg NULL g) g1 lgs in
      hp g = hp g1 /\ mm g = mm g1 /\ ok_freelist g = ok_freelist g1 /\ GC_bytes_found g = GC_bytes_found g1 /\ swp g = swp g1
      /\ forall k' lg', head_of (ok_reclaim_list g) k' lg' = if decide (k' = k /\ lg' ∈ lgs) then NULL else head_of (ok_reclaim_list g1) k' lg').
    { induction lgs as [|lg lgs IH]; cbn zeta in *; cbn [foldr].
      - split_and!; try done. intros k' lg'. rewrite decide_False; [done|]. intros [_ Hin]. by apply elem_of_nil in Hin.
      - destruct IH as (IH1 & IH2 & IH3 & IH4 & IH5 & IH6). split_and!; try done. intros k' lg'.
        unfold head_of at 1. cbn [ok_reclaim_list set_reclaim_list]. destruct (decide ((k', lg') = (k, lg))) as [[= -> ->]|Hne].
        + rewrite lookup_insert_eq, decide_True; [done|]. split; [done|by left].
        + rewrite lookup_insert_ne by congruence. fold (head_of (ok_reclaim_list (foldr (fun lg g => set_reclaim_list k lg NULL g) g1 lgs)) k' lg').
          rewrite IH6. apply (decide_ext _ _ (A := Z)). rewrite elem_of_cons. split; [tauto|]. intros (-> & [->|?]); [by destruct Hne|done]. }
    destruct (Hfold lgs0) as (G1 & G2 & G3 & G4 & G5 & G6). clear Hfold.
    apply KEY; cbn [gcs set_gc hp mm ok_freelist GC_bytes_found ok_reclaim_list GC_size_map ctl]; rewrite ?G1, ?G2, ?G3, ?G4; try done.
    + intros k' lg' Hlg Hne. rewrite G6, decide_False by (by intros [? _]). done.
    + intros k' lg' E. rewrite G6. case_decide; [done|]. by apply Hnil.
    + intros k'. unfold al_kind. cbn. rewrite G5. cbn. by destruct (k' =? k).
    + intros k'. unfold al_kind. cbn. rewrite G5. cbn. by destruct (k' =? k).
Qed.

Definition allocated_or_null U a (k lg : Z) (r : Z * al T C) : Prop :=
  exists F' Q', step U a r.2 F' Q' /\ (r.1 = NULL \/ r.1 = free_head r.2 k lg).

Lemma inv_fail_count a F Q U : al_inv a F Q U -> al_inv (reset_fail_count a) F Q U.
Proof.
  intros [I1 I2 [Q1 Q2 Q3] I3' I4 I5 I6 I7 I8 I9 I10 I11]. assert (SB : same_blocks (gcs a) (gcs (reset_fail_count a))) by done.
  split; try done.
  - split; [intros k lg; by apply (rl_chain_ext (gcs a)); [|apply Q1]| |done]. intros k lg b Hb. by apply (sweepable_ext (gcs a)), Q2.
  - intros k lg o Ho. eapply slot_same; [exact SB|]. by apply I5.
  - intros o sz Ho. eapply object_same; [exact SB|]. by apply I9.
Qed.

Lemma little_if (c : bool) (n : Z) a F Q U :
  al_inv a F Q U -> exists a' F' Q', (if c then op_collect_a_little O n a else Some a) = Some a' /\ step U a a' F' Q'.
Proof. intros HI. destruct c; [by apply (bl_little _ _ HB n a F Q U)|]. exists a, F, Q. split; [done|by apply step_refl]. Qed.

Lemma allocobj_spec a F Q U (k lg : Z) :
  al_inv a F Q U -> 1 <= lg <= MAXOBJGRANULES ->
  exists r, GC_allocobj P O lg k a = Some r /\ allocated_or_null U a k lg r.
Proof.
  intros HI Hlg. unfold GC_allocobj. rewrite (proj2 (Z.eqb_neq lg 0)) by lia.
  assert (Hfound : forall x F' Q', step U a x F' Q' -> free_head x k lg <> NULL ->
    allocated_or_null U a k lg (free_head x k lg, reset_fail_count x)).
  { intros x F' Q' (I & K & B & N) Hn. exists F', Q'. cbn [fst snd]. split; [|by right]. split; [by apply inv_fail_count|done]. }
  destruct (loop_spec_rel
    (fun n s => exists F' Q', step U a s.2 F' Q' /\ n = (2 * budget (ctl s.2) + (if (s.1.1 : bool) then 0 else 1))%nat)
    (fun r => exists x, r = Some x /\ allocated_or_null U a k lg x)
    (allocobj_body P O lg k) (2 * budget (ctl a) + 1)%nat (false, 0, a)) as (r & -> & x & -> & Hx); [| | |by exists x].
  - intros n [[tm rc] x] (F1 & Q1 & S1 & ->). cbn [fst snd] in *. unfold allocobj_body.
    destruct (Z.eqb_spec (free_head x k lg) NULL) as [E1|E1]; cbn [negb]; [|eexists; split; [done|by eapply Hfound]].
    destruct (little_if (incremental x && negb (time_unlimited P) && negb (dont_gc x)) 1 x F1 Q1 U (step_inv _ _ _ _ _ S1))
      as (x2 & F2 & Q2 & -> & S2). assert (S12 := step_trans _ _ _ _ _ _ _ _ S1 S2).
    destruct (continue_reclaim_inv x2 F2 Q2 U k lg (step_inv _ _ _ _ _ S2)) as (g3 & F3 & Q3 & -> & I3 & K3 & W3 & _).
    assert (S3 : step U x2 (set_gc g3 x2) F3 Q3).
    { split; [done|]. split; [done|]. split; [done|]. intros k'. unfold al_kind. cbn. by rewrite W3. }
    assert (S13 := step_trans _ _ _ _ _ _ _ _ S12 S3). set (x3 := set_gc g3 x2) in *. cbv zeta.
    destruct (Z.eqb_spec (free_head x3 k lg) NULL) as [E3|E3]; cbn [negb]; [|eexists; split; [done|by eapply Hfound]].
    destruct (new_hblk_spec x3 F3 Q3 U k lg I3 Hlg) as (x4 & F4 & Q4 & -> & S4).
    assert (S14 := step_trans _ _ _ _ _ _ _ _ S13 S4).
    destruct (Z.eqb_spec (free_head x4 k lg) NULL) as [E4|E4]; cbn [negb]; [|eexists; split; [done|by eapply Hfound]].
    assert (Hbud : (budget (ctl x4) <= budget (ctl x))%nat) by (destruct S2 as (_ & _ & ? & _), S4 as (_ & _ & ? & _); cbn in *; lia).
    destruct (incremental x4 && time_unlimited P && negb tm && negb (dont_gc x4)) eqn:Ei.
    + destruct (bl_little _ _ HB 1 x4 F4 Q4 U (step_inv _ _ _ _ _ S4)) as (x5 & F5 & Q5 & -> & S5).
      assert (tm = false) as -> by (destruct tm; [by rewrite andb_false_r in Ei|done]).
      assert ((budget (ctl x5) <= budget (ctl x4))%nat) by apply S5.
      eexists. split; [|exists F5, Q5; split; [by eapply step_trans|done]]. cbn [fst snd]. lia.
    + destruct (bl_collect _ _ HB 1 0 (0 <? rc) x4 F4 Q4 U (step_inv _ _ _ _ _ S4)) as (b & x5 & F5 & Q5 & -> & S5 & Hb).
      assert (S15 := step_trans _ _ _ _ _ _ _ _ S14 S5). destruct b.
      * specialize (Hb eq_refl). eexists. split; [|exists F5, Q5; split; [done|done]]. cbn [fst snd]. destruct tm; lia.
      * eexists. split; [done|]. exists F5, Q5. split; [done|by left].
  - exists F, Q. split; [by apply step_refl|done].
  - pose proof (bl_budget _ _ HB (ctl a)). unfold W64. lia.
Qed.
End Inv.
End MallocInv.
