(* ===== verification/MallocOk.v ===== *)
(** * Correctness of object allocation

    Against the laws of [MallocInv]: a small or large object handed out is of the
    right kind and large enough, lies apart from everything the client holds, is
    cleared if its kind wants it, and the invariant goes on to hold; an object that is
    freed is the next one handed out.  At the end, two ways to go wrong: the
    accounting of uncollectable objects and [GC_reallocf] with size zero. *)

From Stdlib Require Import ZArith Lia.
From stdpp Require Import base gmap list.
From S2P Require Import Prelude BlackList Scratch Hblk Headers HeadersNav HdrIface MarkBits ObjMap NewHblk Sweep FreeList Allchblk HeapInv AllchblkFree Reclaim ReclaimOk ReclaimBlock SizeMap Mark Malloc MallocInv.

Module MallocOk.
Import Headers HdrIface MarkBits NewHblk Sweep FreeList Allchblk Reclaim ReclaimOk ReclaimBlock SizeMap Malloc MallocInv.

Section Ok.
Context {T C : Type} `{HeaderTable T} `{!HeaderTableLaws T}.
Context (P : al_params) (O : block_ops T C) (budget : C -> nat).
Implicit Types (a : al T C) (F Q : Z -> Z -> list Z) (U : Z -> Z -> Prop).

Abbreviation al_ok a F Q U := (al_inv P a F Q U).
Abbreviation step := (moves P budget).
Abbreviation gsz lg := (GRANULES_TO_BYTES lg).

Record laws : Prop := {
  lw_extra : 0 <= EXTRA_BYTES P <= 1;
  lw_blocks : BlockLaws P O budget
}.

(** An object of [sz] bytes at [op], aligned to [al], handed out to a client that
    holds [U]. *)
Record granted U a (k need al op : Z) a' F' Q' (sz : Z) : Prop := {
  gr_inv : al_ok a' F' Q' (with_obj U op sz);
  gr_kept : kept U a a';
  gr_size : need <= sz;
  gr_align : (al | op);
  gr_kind : hb_obj_kind (hdr_of_obj a' op) = k;
  gr_apart : forall o s, U o s -> op + sz <= o \/ o + s <= op;
  gr_clear : k <> PTRFREE -> ok_init (al_kind a' k) = true -> forall x, op <= x < op + sz -> byte_at (mm (gcs a')) x = 0;
  gr_pos : 0 < op;
  gr_init : forall k', ok_init (al_kind a' k') = ok_init (al_kind a k')
}.


Abbreviation null := (fun z : Z => z = 0).





(** ** Large objects *)






(** ** Objects of any size *)








(** ** Taking an aligned object from the middle of a free list *)

Lemma fl_seg_split (m : mem) (h : Z) (l1 l2 : list Z) (t : Z) :
  fl_seg m h (l1 ++ l2) t -> exists mid, fl_seg m h l1 mid /\ fl_seg m mid l2 t.
Proof.
  revert h. induction l1 as [|o l1 IH]; intros h; [intros Hs; by exists h|].
  intros (-> & n & En & Hs). destruct (IH n Hs) as (mid & H1 & H2). exists mid. split; [|done]. split; [done|]. by exists n.
Qed.

Lemma fl_seg_relink (m : mem) (h p v mid : Z) (l1 : list Z) :
  p ∉ l1 -> fl_seg m h (l1 ++ [p]) mid -> fl_seg (<[p := v]> m) h (l1 ++ [p]) v.
Proof.
  intros Hp (x & H1 & H2)%fl_seg_split. apply (fl_seg_app _ _ _ _ x).
  - eapply fl_seg_frame; [|exact H1]. intros o Ho. apply lookup_insert_ne. congruence.
  - destruct H2 as (-> & _). split; [done|]. exists v. by rewrite lookup_insert_eq.
Qed.



Lemma fast_spec a F Q U (k lg m1 need al : Z) (opp : option Z) (op : Z) (l1 l2 : list Z) :
  al_ok a F Q U -> F k lg = l1 ++ op :: l2 -> opp = last l1 -> fl_seg (mm (gcs a)) (obj_link op (mm (gcs a))) l2 NULL ->
  need <= gsz lg -> (al | op) ->
  let a1 := set_opp opp k lg (obj_link op (mm (gcs a))) a in
  let a2 := if negb (k =? PTRFREE) then on_mem (<[op := NULL]>) a1 else a1 in
  exists F' Q', granted U a k need al op (add_allocd (gsz lg) a2) F' Q' (gsz lg).
Proof.
  intros HI El Eo Hs2 Hneed Hal a1 a2. set (v := obj_link op (mm (gcs a))) in *.
  assert (Hin : op ∈ F k lg) by (rewrite El; apply elem_of_app; right; by left).
  pose proof (ai_slot _ _ _ _ _ HI _ _ _ Hin) as Hs. destruct (slot_pos _ _ _ _ Hs) as (_ & _ & C1 & Hp & _).
  pose proof (ai_nodup _ _ _ _ _ HI k lg) as Hnd. rewrite El in Hnd.
  apply NoDup_app in Hnd as (N1 & N2 & N3). apply NoDup_cons in N3 as [N3 N4].
  assert (N5 : op ∉ l1) by (intros Ho; apply (N2 op Ho); by left).
  pose proof (ai_lists _ _ _ _ _ HI k lg) as Hseg. rewrite El in Hseg. apply fl_seg_split in Hseg as (mid & Hseg1 & _).
  assert (Ha1 : hp (gcs a1) = hp (gcs a) /\ swp (gcs a1) = swp (gcs a) /\ ok_reclaim_list (gcs a1) = ok_reclaim_list (gcs a)
    /\ GC_bytes_found (gcs a1) = GC_bytes_found (gcs a) /\ GC_size_map a1 = GC_size_map a
    /\ (forall k' lg', (k', lg') <> (k, lg) -> free_head a1 k' lg' = free_head a k' lg')
    /\ (forall y, y ∉ l1 -> mm (gcs a1) !! y = mm (gcs a) !! y)
    /\ fl_seg (mm (gcs a1)) (free_head a1 k lg) (l1 ++ l2) NULL).
  { unfold a1. subst opp. destruct l1 as [|z l1' _] using rev_ind; [|rewrite last_snoc]; cbn [set_opp last]; split_and!; try done.
    - intros k' lg' Hne. unfold free_head, head_of. cbn. by rewrite lookup_insert_ne.
    - unfold free_head at 1, head_of. cbn. rewrite lookup_insert_eq. done.
    - intros y Hy. cbn. apply lookup_insert_ne. intros ->. apply Hy, elem_of_app. right. by left.
    - cbn. apply NoDup_app in N1 as (_ & N1 & _). assert (z ∉ l1') by (intros Hz; apply (N1 z Hz); by left).
      apply (fl_seg_app _ _ _ _ v); [by eapply fl_seg_relink|]. eapply fl_seg_frame; [|exact Hs2].
      intros o Ho. apply lookup_insert_ne. intros <-. apply (N2 z); [apply elem_of_app; right; by left|by right]. }
  destruct Ha1 as (E1 & E2 & E3 & E4 & E5 & E6 & E7 & E8). clearbody a1.
  assert (Ha2 : gcs a2 = if negb (k =? PTRFREE) then set_mm (<[op := NULL]> (mm (gcs a1))) (gcs a1) else gcs a1) by (unfold a2; by destruct (negb _)).
  assert (Hm2 : mm (gcs a2) = if negb (k =? PTRFREE) then <[op := NULL]> (mm (gcs a1)) else mm (gcs a1)) by (rewrite Ha2; by destruct (negb _)).
  destruct (inv_take P a (add_allocd (gsz lg) a2) F Q U k lg op (l1 ++ l2)) as [I' K']; try done; unfold free_head; cbn [gcs add_allocd GC_size_map].
  - intros o [?|?]%elem_of_app; rewrite El; apply elem_of_app; [by left|right; by right].
  - apply NoDup_app. split_and!; [done| |done]. intros o Ho Ho'. apply (N2 o Ho). by right.
  - intros [?|?]%elem_of_app; done.
  - rewrite Ha2. by destruct (negb _).
  - rewrite Ha2. by destruct (negb _).
  - rewrite Ha2. by destruct (negb _).
  - rewrite Ha2. by destruct (negb _).
  - unfold a2. by destruct (negb _).
  - intros k' lg' Hne. rewrite Ha2. specialize (E6 k' lg' Hne). unfold free_head in E6. by destruct (negb _).
  - rewrite Ha2. unfold free_head in E8. destruct (negb _); [|done]. eapply fl_seg_frame; [|exact E8].
    intros o [Ho|Ho]%elem_of_app; cbn; apply lookup_insert_ne; congruence.
  - intros y Hy. rewrite Hm2. assert (mm (gcs a1) !! y = mm (gcs a) !! y) as <-.
    { apply E7. intros Hy1. apply (Hy y); [|done]. rewrite El. apply elem_of_app. by left. }
    destruct (negb _); [|done]. apply lookup_insert_ne. by apply not_eq_sym, Hy.
  - assert (Ek : forall k', al_kind (add_allocd (gsz lg) a2) k' = al_kind a k').
    { intros k'. unfold al_kind. cbn. rewrite Ha2, <- E2. by destruct (negb _). }
    exists (put F k lg (l1 ++ l2)), Q. split; try done.
    + destruct (free_hdr a k lg op Hs) as (_ & <- & _). unfold hdr_of_obj, ghdr. cbn. rewrite Ha2. destruct (negb _); cbn; by rewrite E1.
    + intros o s HU. by apply (live_apart P a F Q U k lg op o s HI).
    + intros Hk Hinit x Hx. rewrite Ek in Hinit. cbn. rewrite Hm2, (proj2 (Z.eqb_neq k PTRFREE)) by done. cbn [negb].
      destruct (Z.lt_ge_cases x (op + 8)).
      * apply byte_at_word. unfold mread. replace (x - x mod 8) with op by dlia. by rewrite lookup_insert_eq.
      * rewrite (byte_at_ext (mm (gcs a))); [by apply (ai_clear _ _ _ _ _ HI k lg op); [| |lia]|].
        rewrite lookup_insert_ne by dlia. apply E7. intros Hy.
        assert (Hy' : x - x mod 8 ∈ F k lg) by (rewrite El; apply elem_of_app; by left).
        pose proof (ai_slot _ _ _ _ _ HI _ _ _ Hy') as Hsy. pose proof (slot_gsz _ _ _ _ Hsy).
        destruct (slots_apart _ _ _ _ _ _ _ Hs Hsy) as [?|?]; dlia.
    + intros k'. by rewrite Ek.
Qed.



(** ** Explicit deallocation *)

Definition in_object (base lb : Z) (e : Mark.mse) : bool := (base <=? Mark.mse_start e) && (Mark.mse_start e <? base + lb).
Definition outside (base lb : Z) (l : list Mark.mse) : list Mark.mse := filter (fun e => in_object base lb e = false) l.

Lemma outside_app (base lb : Z) (l1 l2 : list Mark.mse) : outside base lb (l1 ++ l2) = outside base lb l1 ++ outside base lb l2.
Proof. apply filter_app. Qed.

(** Overwriting entry [e] by the top one. *)
Lemma purge_step (base lb : Z) (l1 l2 : list Mark.mse) (e : Mark.mse) :
  in_object base lb e = true ->
  exists l2', take (length (l1 ++ e :: l2) - 1) (match last (l1 ++ e :: l2) with Some top => <[length l1 := top]> (l1 ++ e :: l2) | None => l1 ++ e :: l2 end)
      = l1 ++ l2' /\ length l2' = length l2 /\ outside base lb l2' ≡ₚ outside base lb (e :: l2).
Proof.
  intros He. assert (Eo : outside base lb (e :: l2) = outside base lb l2) by (unfold outside; rewrite filter_cons, decide_False; [done|congruence]).
  rewrite Eo. destruct l2 as [|top l2 _] using rev_ind.
  - exists []. rewrite last_snoc, insert_app_r_alt, Nat.sub_diag by lia. cbn. rewrite length_app. cbn.
    replace (length l1 + 1 - 1)%nat with (length l1) by lia. rewrite take_app_length, app_nil_r. done.
  - exists (top :: l2).
    assert (El : last (l1 ++ e :: l2 ++ [top]) = Some top).
    { replace (l1 ++ e :: l2 ++ [top]) with ((l1 ++ e :: l2) ++ [top]) by (rewrite <- app_assoc; done). apply last_snoc. }
    rewrite El, insert_app_r_alt, Nat.sub_diag by lia. cbn [insert list_insert].
    split; [|split; [rewrite length_app; cbn; lia|change (top :: l2) with ([top] ++ l2); rewrite !outside_app; apply Permutation_app_comm]].
    assert (Ea : l1 ++ top :: l2 ++ [top] = (l1 ++ top :: l2) ++ [top]) by (rewrite <- app_assoc; done). rewrite Ea.
    rewrite take_app_length'; [done|]. rewrite !length_app. cbn. rewrite length_app. cbn. lia.
Qed.

Lemma purge_spec (base lb : Z) (l : list Mark.mse) :
  Z.of_nat (length l) < W64 -> exists l', purge_mark_stack base lb l = Some l' /\ l' ≡ₚ outside base lb l.
Proof.
  intros Hlen. unfold purge_mark_stack.
  destruct (loop_spec_rel
    (fun n s => exists l1 l2, s = (length l1, l1 ++ l2) /\ n = length l2 /\ outside base lb l1 = l1
       /\ outside base lb (l1 ++ l2) ≡ₚ outside base lb l)
    (fun r => r ≡ₚ outside base lb l) (purge_body base lb) (length l) (0%nat, l)) as (r & -> & Hr); [| |done|by exists r].
  - intros n s (l1 & l2 & -> & -> & H1 & H2). cbn [purge_body].
    destruct l2 as [|e l2].
    + rewrite app_nil_r in *. rewrite lookup_ge_None_2 by done. rewrite <- H2. by rewrite H1.
    + rewrite list_lookup_middle by done. fold (in_object base lb e). destruct (in_object base lb e) eqn:He.
      * destruct (purge_step base lb l1 l2 e He) as (l2' & -> & L2 & P2). exists (length l2'). split; [cbn; lia|].
        exists l1, l2'. split_and!; try done. by rewrite outside_app, P2, <- outside_app.
      * exists (length l2). split; [cbn; lia|]. exists (l1 ++ [e]), l2. rewrite <- (assoc_L (++)). cbn [app]. split_and!; try done.
        -- by rewrite length_app, Nat.add_comm.
        -- rewrite outside_app, H1. unfold outside. by rewrite filter_cons, decide_True, filter_nil.
  - by exists [], l.
Qed.

(** A large object goes back to the block allocator; a collection in progress
    forgets it. *)
Lemma free_large_spec a (L : Z -> list Z) (p : Z) :
  let s := fls (hp (gcs a)) in
  let sz := hb_sz (hdrb s p) in
  HeapInv.heap_ok s L -> HeapInv.all_listed s L -> HeapInv.start (HDRs s) p -> HBLK_IS_FREE (hdrb s p) = false ->
  HeapInv.extent (hdrb s p) < 2 ^ 63 -> MAXOBJBYTES < sz -> sz mod 16 = 0 -> Z.of_nat (length (GC_mark_stack a)) < W64 ->
  exists a' L', GC_free p a = Some a' /\ AllchblkFree.freed s (fls (hp (gcs a'))) L' p
    /\ mm (gcs a') = mm (gcs a) /\ ok_freelist (gcs a') = ok_freelist (gcs a)
    /\ (if GC_mark_state a =? Mark.MS_NONE then GC_mark_stack a' = GC_mark_stack a
        else GC_mark_stack a' ≡ₚ outside p sz (GC_mark_stack a))
    /\ GC_bytes_freed a' = wrap64 (GC_bytes_freed a + sz)
    /\ GC_large_free_bytes (hp (gcs a')) = wrap64 (GC_large_free_bytes (hp (gcs a)) + HeapInv.extent (hdrb s p)).
Proof.
  intros s sz K A Hs Hf Hx Hbig H16 Hlen.
  destruct (HeapInv.ti_extent _ _ (HeapInv.ho_tiled _ _ K) p Hs) as (H0 & _).
  assert (Eb : hb_block (hdrb s p) = p).
  { pose proof (HeapInv.tiling_blocks_ok s (HeapInv.ho_tiled _ _ K)) as BO. destruct Hs as [Hal Hh].
    transitivity (HBLKPTR p); [by apply (bo_block _ BO)|]. rewrite PTR_ALIGN_DOWN_hblk. lia. }
  unfold GC_free. rewrite (proj2 (Z.eqb_neq p NULL)) by lia. unfold GC_free_internal.
  change (hdr_of_obj a p) with (hdrb s p). fold sz. cbv zeta. rewrite Eb.
  assert (Hlg : (BYTES_TO_GRANULES sz <=? MAXOBJGRANULES) = false).
  { apply Z.leb_gt. unfold BYTES_TO_GRANULES, GC_GRANULE_BYTES. change MAXOBJGRANULES with 128. change MAXOBJBYTES with 2048 in Hbig. dlia. }
  rewrite Hlg. replace ((GC_SIZE_MAX - 0 <=? 0) || (sz <? 0 + 0)) with false.
  2:{ symmetry. apply orb_false_iff. split; [done|]. apply Z.ltb_ge. change MAXOBJBYTES with 2048 in Hbig. lia. }
  cbn [Z.ltb Z.compare].
  set (a1 := if IS_UNCOLLECTABLE (hb_obj_kind (hdrb s p)) then add_non_gc (- sz) (add_freed sz a) else add_freed sz a).
  set (a2 := if HBLKSIZE <? sz then set_gc (set_large_allocd (wrap64 (GC_large_allocd (gcs a1) - HBLKSIZE * OBJ_SZ_TO_BLOCKS sz)) (gcs a1)) a1 else a1).
  assert (E2 : hp (gcs a2) = hp (gcs a) /\ mm (gcs a2) = mm (gcs a) /\ ok_freelist (gcs a2) = ok_freelist (gcs a)
    /\ GC_mark_state a2 = GC_mark_state a /\ GC_mark_stack a2 = GC_mark_stack a /\ GC_bytes_freed a2 = wrap64 (GC_bytes_freed a + sz)).
  { unfold a2, a1. by destruct (HBLKSIZE <? sz), (IS_UNCOLLECTABLE _). }
  destruct E2 as (E1 & E2 & E3 & E4 & E5 & E6). clearbody a2. rewrite E4, E5.
  assert (Hp : exists l, (if negb (GC_mark_state a =? Mark.MS_NONE) then
      l ← purge_mark_stack p sz (GC_mark_stack a); Some (set_mark_stack l a2) else Some a2) = Some (set_mark_stack l a2)
      /\ (if GC_mark_state a =? Mark.MS_NONE then l = GC_mark_stack a else l ≡ₚ outside p sz (GC_mark_stack a))).
  { destruct (GC_mark_state a =? Mark.MS_NONE); cbn [negb].
    - exists (GC_mark_stack a). split; [|done]. rewrite <- E5. by destruct a2.
    - destruct (purge_spec p sz (GC_mark_stack a) Hlen) as (l & -> & Hl). exists l. by rewrite some_bind. }
  destruct Hp as (l & -> & Hl). rewrite some_bind. cbn [gcs set_mark_stack]. rewrite E1.
  destruct (AllchblkFree.freehblk_spec (hp (gcs a)) L p K A Hs Hf Hx) as (hp' & L' & -> & F1 & F2 & _). rewrite some_bind.
  eexists _, L'. split; [done|]. cbn. rewrite E2, E3, E6. by split_and!.
Qed.

(** ** The next object handed out *)

Lemma free_then_malloc a F Q U (k lg p sz lb : Z) :
  laws -> al_ok a F Q U -> U p sz -> slot (gcs a) k lg p -> 0 <= lb -> SMALL_OBJ (EXTRA_BYTES P) lb = true ->
  class_of (GC_size_map a) lb = lg ->
  exists a1 a2, GC_free p a = Some a1 /\ GC_malloc_kind P O lb k a1 = Some (p, a2)
    /\ free_head a2 k lg = free_head a k lg
    /\ (forall y, ~ p <= y < p + gsz lg -> mm (gcs a2) !! y = mm (gcs a) !! y)
    /\ hp (gcs a2) = hp (gcs a)
    /\ GC_bytes_freed a2 = wrap64 (GC_bytes_freed a + gsz lg) /\ GC_bytes_allocd a2 = wrap64 (GC_bytes_allocd a + gsz lg)
    /\ exists F' Q', granted (without U p) a1 k (lb + EXTRA_BYTES P) 1 p a2 F' Q' (gsz lg).
Proof.
  intros HL HI HU Hs Hlb Hsm Hc. destruct (slot_pos _ _ _ _ Hs) as (_ & _ & _ & Hp & _). pose proof (slot_gsz _ _ _ _ Hs) as Hg.
  destruct (free_small_spec P a F Q U k lg p sz 0 0 HI HU Hs) as (a1 & E1 & I1 & K1 & Eh & Em & Ep & Ehp & Ea & Ef & _); [lia|lia|].
  exists a1. unfold GC_free. rewrite (proj2 (Z.eqb_neq p NULL)), E1 by lia.
  assert (Hr : 0 <= lb <= MAXOBJBYTES) by (apply SMALL_OBJ_iff in Hsm; pose proof (lw_extra HL); lia).
  unfold GC_malloc_kind, GC_malloc_kind_aligned_global. rewrite Hsm. change (0 <? HBLKSIZE / 2) with true. cbn [andb].
  assert (Em1 : GC_size_map a1 = GC_size_map a).
  { unfold GC_free_internal in E1. destruct (free_hdr a k lg p Hs) as (Es & Ek & Hlg). rewrite Es, to_granules in E1.
    rewrite (proj2 (Z.leb_le lg MAXOBJGRANULES)) in E1 by lia. cbv zeta in E1.
    revert E1. destruct (IS_UNCOLLECTABLE _), (ok_init _ && _); destruct (0 <? _); intros [= <-]; done. }
  rewrite Em1, sm_get_eq, some_bind, Hc by done. change (find_aligned 0 ?x ?y) with (Some (@None Z, x)). rewrite some_bind.
  rewrite Eh, (proj2 (Z.eqb_neq p NULL)) by lia. cbn [negb]. rewrite some_bind, (proj2 (Z.eqb_neq p NULL)) by lia. cbn [negb].
  assert (El : put F k lg (p :: F k lg) k lg = [] ++ p :: F k lg) by (by rewrite put_eq).
  assert (Hroom : lb + EXTRA_BYTES P <= gsz lg).
  { rewrite <- Hc. apply (sm_room _ _ (ai_map _ _ _ _ _ HI) lb Hr). rewrite Hc. destruct Hs as [[_ _ _ ? _ _] _]. lia. }
  destruct (fast_spec a1 _ Q (without U p) k lg 0 (lb + EXTRA_BYTES P) 1 None p [] (F k lg) I1 El eq_refl) as (F' & Q' & G); [|done|apply Z.divide_1_l|].
  { pose proof (ai_lists _ _ _ _ _ I1 k lg) as Hl. rewrite El in Hl. destruct Hl as (_ & n & En & Hl). unfold obj_link, mread. by rewrite En. }
  cbn [set_opp] in *. eexists. split; [done|]. split; [done|]. unfold obj_link, mread in *. rewrite Ep in *. cbn [default] in *.
  split_and!.
  - unfold free_head, head_of. destruct (negb _); cbn; by rewrite lookup_insert_eq.
  - intros y Hy. rewrite <- (Em y Hy). destruct (negb _); [|done]. cbn. apply lookup_insert_ne. lia.
  - rewrite <- Ehp. by destruct (negb _).
  - rewrite <- Ef. by destruct (negb _).
  - rewrite <- Ea. by destruct (negb _).
  - by exists F', Q'.
Qed.

(** ** Reallocation *)







(** ** Freeing twice *)

(** What freeing does to the list, whoever holds the object. *)
Lemma free_links a (k lg p : Z) :
  slot (gcs a) k lg p -> exists a', GC_free p a = Some a' /\ slot (gcs a') k lg p /\ free_head a' k lg = p
    /\ mm (gcs a') !! p = Some (free_head a k lg).
Proof.
  intros Hs. destruct (slot_pos _ _ _ _ Hs) as (_ & _ & C1 & Hp & _). destruct (free_hdr a k lg p Hs) as (Es & Ek & Hlg).
  unfold GC_free, GC_free_internal. rewrite (proj2 (Z.eqb_neq p NULL)) by lia. cbv zeta. rewrite Es, Ek, to_granules.
  rewrite (proj2 (Z.leb_le lg MAXOBJGRANULES)) by lia.
  match goal with |- context [let '(_, _) := ?c in _] => destruct c as [co cn] end.
  eexists. split; [done|]. split_and!.
  - eapply (slot_same (gcs a)); [|done]. destruct (0 <? cn), (IS_UNCOLLECTABLE k); apply same_blocks_refl || done.
  - unfold free_head, head_of. destruct (0 <? cn), (IS_UNCOLLECTABLE k); cbn; by rewrite lookup_insert_eq.
  - unfold free_head. destruct (0 <? cn), (IS_UNCOLLECTABLE k); cbn; by rewrite lookup_insert_eq.
Qed.

Lemma reallocf_zero a (k lg p : Z) :
  slot (gcs a) k lg p -> exists a', GC_reallocf P O p 0 a = Some (NULL, a') /\ free_head a' k lg = p /\ mm (gcs a') !! p = Some p.
Proof.
  intros Hs. destruct (slot_pos _ _ _ _ Hs) as (_ & _ & C1 & Hp & _). unfold GC_reallocf, GC_realloc.
  rewrite (proj2 (Z.eqb_neq p NULL)), Z.eqb_refl by lia.
  destruct (free_links a k lg p Hs) as (a1 & -> & S1 & H1 & _). rewrite !some_bind, Z.eqb_refl.
  destruct (free_links a1 k lg p S1) as (a2 & -> & _ & H2 & M2). rewrite some_bind. exists a2. by rewrite <- H1 at 3.
Qed.

(** ** The count of uncollectable bytes *)

(** Block allocation, collections and finalizers that leave [GC_non_gc_bytes]
    alone. *)
Record keeps_count : Prop := {
  kc_alloc : forall lb k fl al a r a', op_allochblk O lb k fl al a = Some (r, a') -> GC_non_gc_bytes a' = GC_non_gc_bytes a;
  kc_collect : forall n fl re a b a', op_collect_or_expand O n fl re a = Some (b, a') -> GC_non_gc_bytes a' = GC_non_gc_bytes a;
  kc_little : forall n a a', op_collect_a_little O n a = Some a' -> GC_non_gc_bytes a' = GC_non_gc_bytes a;
  kc_finalizers : forall a a', op_notify_or_invoke_finalizers O a = Some a' -> GC_non_gc_bytes a' = GC_non_gc_bytes a
}.

Lemma new_hblk_count a (lg k : Z) a' : keeps_count -> GC_new_hblk O lg k a = Some a' -> GC_non_gc_bytes a' = GC_non_gc_bytes a.
Proof.
  intros HK. unfold GC_new_hblk. intros ([h a1] & E1 & E)%bind_Some. pose proof (kc_alloc HK _ _ _ _ _ _ _ E1) as <-.
  destruct (h =? NULL); [by injection E as <-|]. cbv zeta in E. apply bind_Some in E as ([l m] & _ & [= <-]).
  by destruct (IS_UNCOLLECTABLE k).
Qed.

Lemma allocobj_count a (lg k op : Z) a' :
  keeps_count -> GC_allocobj P O lg k a = Some (op, a') -> GC_non_gc_bytes a' = GC_non_gc_bytes a.
Proof.
  intros HK. unfold GC_allocobj. destruct (lg =? 0); [by intros [= _ <-]|]. unfold mjoin, option_join.
  destruct (loop _ _) as [r|] eqn:El; [|done]. intros Er. change (r = Some (op, a')) in Er. subst r.
  enough (Hx : forall r, Some (op, a') = Some r -> GC_non_gc_bytes r.2 = GC_non_gc_bytes a) by exact (Hx _ eq_refl).
  refine (loop_partial (fun s => GC_non_gc_bytes s.2 = GC_non_gc_bytes a) (fun r => forall x, r = Some x -> GC_non_gc_bytes x.2 = GC_non_gc_bytes a) _ _ _ _ _ El); [|done].
  intros [[tm rc] x] Hx. cbn [snd] in Hx. unfold allocobj_body.
  destruct (negb (free_head x k lg =? NULL)); [by intros y [= <-]|].
  match goal with |- context [match (if ?c then op_collect_a_little O 1 x else Some x) with _ => _ end] =>
    destruct (if c then op_collect_a_little O 1 x else Some x) as [x1|] eqn:E1; [|done] end.
  assert (H1 : GC_non_gc_bytes x1 = GC_non_gc_bytes x).
  { destruct (incremental x && _ && _); [exact (kc_little HK _ _ _ E1)|by injection E1 as <-]. }
  destruct (GC_continue_reclaim lg k (gcs x1)) as [g|]; [|done]. cbv zeta.
  destruct (negb (free_head (set_gc g x1) k lg =? NULL)); [intros y [= <-]; cbn; by rewrite H1|].
  destruct (GC_new_hblk O lg k (set_gc g x1)) as [x2|] eqn:E2; [|done]. apply new_hblk_count in E2; [|done]. cbn in E2.
  destruct (negb (free_head x2 k lg =? NULL)); [intros y [= <-]; cbn; by rewrite E2, H1|].
  destruct (incremental x2 && _ && _ && _).
  - destruct (op_collect_a_little O 1 x2) as [x3|] eqn:E3; [|done]. apply (kc_little HK) in E3. cbn. by rewrite E3, E2, H1.
  - destruct (op_collect_or_expand O 1 0 (0 <? rc) x2) as [[[] x3]|] eqn:E3; [| |done]; apply (kc_collect HK) in E3.
    + cbn. by rewrite E3, E2, H1.
    + intros y [= <-]. cbn. by rewrite E3, E2, H1.
Qed.

Lemma small_count a (lb k op : Z) a' :
  keeps_count -> GC_generic_malloc_inner_small P O lb k a = Some (op, a') -> GC_non_gc_bytes a' = GC_non_gc_bytes a.
Proof.
  intros HK. unfold GC_generic_malloc_inner_small. intros (lg0 & _ & E)%bind_Some. destruct (negb _); [by injection E as _ <-|].
  apply bind_Some in E as ([lg a1] & E1 & E).
  assert (H1 : GC_non_gc_bytes a1 = GC_non_gc_bytes a).
  { destruct (lg0 =? 0); [|by injection E1 as _ <-]. unfold small_class in E1. apply bind_Some in E1 as (lg1 & _ & E1).
    destruct (lg1 =? 0); [|by injection E1 as _ <-]. apply bind_Some in E1 as (m & _ & (lg2 & _ & [= _ <-])%bind_Some). done. }
  apply bind_Some in E as ([op1 a2] & E2 & E).
  assert (H2 : GC_non_gc_bytes a2 = GC_non_gc_bytes a1).
  { destruct (free_head a1 k lg =? NULL); [|by injection E2 as _ <-]. apply bind_Some in E2 as ([b a3] & E3 & E2).
    assert (H3 : GC_non_gc_bytes a3 = GC_non_gc_bytes a1).
    { destruct (ok_lists _); [by injection E3 as _ <-|]. unfold GC_alloc_reclaim_list in E3. revert E3. generalize (seqZ 0 (MAXOBJGRANULES + 1)). intros ks E3.
      apply bind_Some in E3 as ([r h] & _ & E3). cbv zeta in E3. destruct (r =? NULL); by injection E3 as _ <-. }
    destruct b; cbn [negb] in E2; [|by injection E2 as _ <-]. by rewrite (allocobj_count _ _ _ _ _ HK E2). }
  destruct (op1 =? NULL); injection E as _ <-; [|cbn]; by rewrite H2, H1.
Qed.

Lemma free_count a (p : Z) a' :
  IS_UNCOLLECTABLE (hb_obj_kind (hdr_of_obj a p)) = true -> p <> NULL -> GC_free p a = Some a' ->
  GC_non_gc_bytes a' = wrap64 (GC_non_gc_bytes a - hb_sz (hdr_of_obj a p)).
Proof.
  intros Hu Hp. unfold GC_free, GC_free_internal. rewrite (proj2 (Z.eqb_neq p NULL)) by done. cbv zeta. rewrite Hu.
  destruct (_ <=? MAXOBJGRANULES).
  - match goal with |- context [let '(_, _) := ?c in _] => destruct c as [co cn] end. intros [= <-]. by destruct (0 <? cn).
  - intros (a1 & E1 & (h & _ & [= <-])%bind_Some)%bind_Some. cbn. revert E1. cbv zeta.
    match goal with |- context [0 <? ?c] => destruct (0 <? c) end; destruct (HBLKSIZE <? _); destruct (negb _); try (by intros [= <-]);
      by intros (l & _ & [= <-])%bind_Some.
Qed.

Lemma uncollectable_count a (lb k op : Z) a' a'' :
  keeps_count -> IS_UNCOLLECTABLE k = true ->
  let lb' := if negb (EXTRA_BYTES P =? 0) && negb (lb =? 0) then lb - 1 else lb in
  SMALL_OBJ (EXTRA_BYTES P) lb' = true ->
  (forall a1 lg, op_notify_or_invoke_finalizers O a = Some a1 -> sm_get (GC_size_map a1) lb' = Some lg -> free_head a1 k lg = NULL) ->
  GC_generic_malloc_uncollectable P O lb k a = Some (op, a') -> op <> NULL -> hb_obj_kind (hdr_of_obj a' op) = k ->
  GC_free op a' = Some a'' ->
  GC_non_gc_bytes a' = GC_non_gc_bytes a /\ GC_non_gc_bytes a'' = wrap64 (GC_non_gc_bytes a - hb_sz (hdr_of_obj a' op)).
Proof.
  intros HK Hu lb' Hs Hslow. unfold GC_generic_malloc_uncollectable. fold lb'. rewrite Hs. cbv zeta.
  intros (a1 & E1 & (lg & E2 & E)%bind_Some)%bind_Some Hop Hk Hf. rewrite (Hslow a1 lg E1 E2), Z.eqb_refl in E. cbn [negb] in E.
  apply bind_Some in E as ([op1 a2] & E3 & E). injection E as _ ->.
  assert (H1 : GC_non_gc_bytes a' = GC_non_gc_bytes a).
  { rewrite (small_count _ _ _ _ _ HK E3). exact (kc_finalizers HK _ _ E1). }
  split; [done|]. rewrite <- H1. apply free_count; [by rewrite Hk|done|done].
Qed.

(** ** Theorems *)


(** C6: [GC_free] of a small object followed by an allocation of its kind and size
    class gives the same object back, with the free list and the block table as they
    were, memory unchanged outside the object and the counters of freed and
    allocated bytes up by its size. *)
Theorem free_malloc_roundtrip a F Q U (k lg p sz lb : Z)
    (HL : laws) (HI : al_ok a F Q U) (HU : U p sz) (Hs : slot (gcs a) k lg p) (Hlb : 0 <= lb)
    (Hsm : SMALL_OBJ (EXTRA_BYTES P) lb = true) (Hc : class_of (GC_size_map a) lb = lg) :
  exists a1 a2, GC_free p a = Some a1 /\ GC_malloc_kind P O lb k a1 = Some (p, a2)
    /\ free_head a2 k lg = free_head a k lg
    /\ (forall y, ~ p <= y < p + gsz lg -> mm (gcs a2) !! y = mm (gcs a) !! y)
    /\ hp (gcs a2) = hp (gcs a)
    /\ GC_bytes_freed a2 = wrap64 (GC_bytes_freed a + gsz lg) /\ GC_bytes_allocd a2 = wrap64 (GC_bytes_allocd a + gsz lg)
    /\ exists F' Q', granted (without U p) a1 k (lb + EXTRA_BYTES P) 1 p a2 F' Q' (gsz lg).
Proof. by apply (free_then_malloc a F Q U k lg p sz lb). Qed.

(** C4: [GC_free] of a large object gives its blocks back to the block allocator,
    with the heap well formed and the object merged with free neighbours; object
    memory and the free lists of small objects stay.  If a collection is in
    progress the mark stack loses exactly the entries that start inside the
    object (the others may be reordered), so that no freed storage is scanned. *)
Theorem GC_free_large_correct a (L : Z -> list Z) (p : Z)
    (K : HeapInv.heap_ok (fls (hp (gcs a))) L) (A : HeapInv.all_listed (fls (hp (gcs a))) L)
    (Hs : HeapInv.start (HDRs (fls (hp (gcs a)))) p) (Hf : HBLK_IS_FREE (hdrb (fls (hp (gcs a))) p) = false)
    (Hx : HeapInv.extent (hdrb (fls (hp (gcs a))) p) < 2 ^ 63)
    (Hbig : MAXOBJBYTES < hb_sz (hdrb (fls (hp (gcs a))) p)) (H16 : hb_sz (hdrb (fls (hp (gcs a))) p) mod 16 = 0)
    (Hlen : Z.of_nat (length (GC_mark_stack a)) < W64) :
  let s := fls (hp (gcs a)) in
  let sz := hb_sz (hdrb s p) in
  exists a' L', GC_free p a = Some a' /\ AllchblkFree.freed s (fls (hp (gcs a'))) L' p
    /\ mm (gcs a') = mm (gcs a) /\ ok_freelist (gcs a') = ok_freelist (gcs a)
    /\ (if GC_mark_state a =? Mark.MS_NONE then GC_mark_stack a' = GC_mark_stack a
        else GC_mark_stack a' ≡ₚ outside p sz (GC_mark_stack a))
    /\ GC_bytes_freed a' = wrap64 (GC_bytes_freed a + sz)
    /\ GC_large_free_bytes (hp (gcs a')) = wrap64 (GC_large_free_bytes (hp (gcs a)) + HeapInv.extent (hdrb s p)).
Proof. by apply (free_large_spec a L p). Qed.


(** C26: [GC_reallocf(p, 0)] frees a small object twice: [GC_realloc] frees it and
    returns [NULL], which [GC_reallocf] takes for a failure.  The free list of its
    kind and size then starts with the object linked to itself, so that the next
    two allocations of the class return the same address. *)
Theorem GC_reallocf_zero_cycle a (k lg p : Z) (Hs : slot (gcs a) k lg p) :
  exists a', GC_reallocf P O p 0 a = Some (NULL, a') /\ free_head a' k lg = p /\ mm (gcs a') !! p = Some p.
Proof. by apply reallocf_zero. Qed.

(** C27: [GC_malloc_uncollectable] and the like count a small object in
    [GC_non_gc_bytes] only if the free list has one: an object obtained by
    sweeping or from a new block is not counted, but [GC_free] subtracts its size
    all the same, so allocation and deallocation leave the counter short by the size
    of the object (modulo the word size). *)
Theorem uncollectable_slow_path_uncounted a (lb k op : Z) a' a''
    (HK : keeps_count) (Hu : IS_UNCOLLECTABLE k = true)
    (Hs : SMALL_OBJ (EXTRA_BYTES P) (if negb (EXTRA_BYTES P =? 0) && negb (lb =? 0) then lb - 1 else lb) = true)
    (Hslow : forall a1 lg, op_notify_or_invoke_finalizers O a = Some a1 ->
       sm_get (GC_size_map a1) (if negb (EXTRA_BYTES P =? 0) && negb (lb =? 0) then lb - 1 else lb) = Some lg -> free_head a1 k lg = NULL)
    (E : GC_generic_malloc_uncollectable P O lb k a = Some (op, a')) (Hop : op <> NULL)
    (Hk : hb_obj_kind (hdr_of_obj a' op) = k) (Ef : GC_free op a' = Some a'') :
  GC_non_gc_bytes a' = GC_non_gc_bytes a /\ GC_non_gc_bytes a'' = wrap64 (GC_non_gc_bytes a - hb_sz (hdr_of_obj a' op)).
Proof. by apply (uncollectable_count a lb k op a' a''). Qed.
End Ok.

(** ** Witnesses *)

(** No block can be had and no finalizer is ready. *)
Definition no_memory {T : Type} : block_ops T unit :=
  BlockOps _ _ (fun _ _ _ _ a => Some (NULL, a)) (fun a => Some (false, a)) (fun _ _ _ a => Some (false, a))
    (fun _ a => Some a) (fun a => Some a).
Definition sample_P : al_params := AlParams 1 true false (fun _ => NULL).

Lemma no_memory_laws {T : Type} `{HeaderTable T} `{!HeaderTableLaws T} : laws sample_P (@no_memory T) (fun _ => 0%nat).
Proof.
  assert (Hr : forall a F Q U, al_inv sample_P a F Q U -> moves sample_P (C := unit) (fun _ => 0%nat) U a a F Q).
  { intros a F Q U HI. by apply step_refl. }
  split; [cbn; lia|]. split; try done.
  - intros lb k fl al a F Q U HI _ _. exists NULL, a, F, Q. split; [done|]. split; [by apply Hr|by left].
  - intros a F Q U HI. exists false, a, F, Q. split; [done|by apply Hr].
  - intros n fl re a F Q U HI. exists false, a, F, Q. split; [done|]. split; [by apply Hr|done].
  - intros n a F Q U HI. exists a, F, Q. split; [done|by apply Hr].
  - intros a F Q U HI. exists a, F, Q. split; [done|by apply Hr].
Qed.

Definition sample_held (o s : Z) : Prop := o = 1048576 /\ s = 48.

Lemma sample_al : exists a : al hdr_state unit,
  al_inv sample_P a (fun _ _ => []) sample_queue sample_held /\ slot (gcs a) 1 3 1048576 /\ class_of (GC_size_map a) 40 = 3
  /\ GC_bytes_freed a = 0.
Proof.
  destruct sample_gc as (g & Hg & HQ & Es & Eh & _ & _ & Em & Ef & _).
  destruct (init_size_map_spec 1 ltac:(lia)) as (m & Hm & Hok & _).
  assert (Hc : (fun m => class_of m 40) <$> GC_init_size_map 1 ∅ = Some 3) by (by vm_compute).
  rewrite Hm in Hc. apply (inj Some) in Hc.
  exists (Al g m 0 0 0 0 Mark.MS_NONE [] tt). cbn [gcs GC_size_map GC_bytes_freed].
  assert (HB := qo_sweepable _ _ HQ 1 3 1048576 ltac:(by left)).
  assert (Hslot : slot g 1 3 1048576).
  { split; [change (blk 1048576) with 1048576; split; apply HB|]. apply elem_of_objects. exists 0. done. }
  split; [|split; [exact Hslot|split; [exact Hc|reflexivity]]].
  assert (Hn : forall (o : Z) (k lg : Z), o ∉ (fun _ _ : Z => @nil Z) k lg) by (intros; apply not_elem_of_nil).
  split; cbn [gcs GC_size_map].
  - exact Hg.
  - exact Hok.
  - exact HQ.
  - intros k lg. unfold al_kind. cbn [gcs]. rewrite Es. discriminate.
  - intros k lg. unfold free_head, head_of. cbn [gcs]. rewrite Ef. reflexivity.
  - intros k lg o Ho. by apply Hn in Ho.
  - intros k lg. constructor.
  - intros k lg o Ho. by apply Hn in Ho.
  - intros k lg o x Ho. by apply Hn in Ho.
  - intros o sz [-> ->]. left. exists 1, 3. split; [reflexivity|exact Hslot].
  - intros o sz k lg _. exact (Hn o k lg).
  - intros o sz k lg [-> ->] _. change (blk 1048576) with 1048576. rewrite Eh. reflexivity.
Qed.


Lemma free_malloc_roundtrip_witness :
  exists a a1 a2 : al hdr_state unit, GC_free 1048576 a = Some a1 /\ GC_malloc_kind sample_P no_memory 40 1 a1 = Some (1048576, a2)
    /\ free_head a2 1 3 = free_head a 1 3 /\ GC_bytes_freed a2 = 48.
Proof.
  destruct sample_al as (a & HI & Hs & Hc & Hf). exists a.
  destruct (free_malloc_roundtrip sample_P no_memory (fun _ => 0%nat) a _ _ _ 1 3 1048576 48 40 no_memory_laws HI)
    as (a1 & a2 & E1 & E2 & E3 & _ & _ & E4 & _); [by split|exact Hs|lia|reflexivity|exact Hc|].
  exists a1, a2. split; [exact E1|]. split; [exact E2|]. split; [exact E3|]. rewrite E4, Hf. reflexivity.
Defined.


Lemma GC_reallocf_zero_cycle_witness :
  exists a a' : al hdr_state unit, GC_reallocf sample_P no_memory 1048576 0 a = Some (NULL, a') /\ free_head a' 1 3 = 1048576
    /\ mm (gcs a') !! 1048576 = Some 1048576.
Proof.
  destruct sample_al as (a & HI & Hs & _). exists a.
  exact (GC_reallocf_zero_cycle sample_P no_memory a 1 3 1048576 Hs).
Defined.

(** Two scans are pending, one of them of the object that is freed. *)
Definition sample_stack : list Mark.mse := [Mark.Mse 1048592 8; Mark.Mse 2097152 16].

Lemma GC_free_large_correct_witness :
  exists a a' : al hdr_state unit, GC_free 1048576 a = Some a' /\ GC_mark_stack a = sample_stack
    /\ GC_mark_stack a' = [Mark.Mse 2097152 16] /\ GC_bytes_freed a' = 16384.
Proof.
  destruct HeapInv.sample_heap as (s & K & A & Hs & Hb & _).
  set (a := Al (Gc (AllchblkFree.sample_heap_of s) ∅ ∅ ∅ 0 0 0 0 [] ∅ 0 false sample_swp) ∅ 0 0 0 0 Mark.MS_ROOTS_PUSHED sample_stack tt).
  destruct (GC_free_large_correct a (fun _ => []) 1048576 K A Hs) as (a' & L' & E & _ & _ & _ & Em & Ef & _).
  - change (fls (hp (gcs a))) with s. rewrite Hb. reflexivity.
  - change (fls (hp (gcs a))) with s. rewrite Hb. reflexivity.
  - change (fls (hp (gcs a))) with s. rewrite Hb. reflexivity.
  - change (fls (hp (gcs a))) with s. rewrite Hb. reflexivity.
  - reflexivity.
  - change (fls (hp (gcs a))) with s in Em, Ef. rewrite Hb in Em, Ef. exists a, a'. split; [exact E|]. split; [reflexivity|].
    split; [|exact Ef]. change (GC_mark_stack a' ≡ₚ [Mark.Mse 2097152 16]) in Em. by apply Permutation_singleton_r in Em.
Defined.

(** A table with one block of three-granule uncollectable objects, queued for
    sweeping. *)
Definition sample_uncollectable : option (al hdr_state unit) :=
  st ← sample_table;
  let st := HeadersNav.with_hdr 1048576 (Hdr 0 0 1048576 2 0 5 48 48 (Some 3) 1 {[0 := 1]}) st in
  m ← GC_init_size_map 1 ∅;
  Some (Al (Gc (AllchblkFree.sample_heap_of (FlState st ∅ ∅)) ∅ ∅ {[(2, 3) := 1048576]} 0 0 0 0 [] ∅ 0 false sample_swp)
          m 0 0 0 0 Mark.MS_NONE [] tt).

Lemma sample_uncollectable_run :
  exists a op a' a'', GC_non_gc_bytes a = 0 /\ GC_generic_malloc_uncollectable sample_P no_memory 41 2 a = Some (op, a') /\ GC_free op a' = Some a''
    /\ op <> NULL /\ hb_obj_kind (hdr_of_obj a' op) = 2 /\ hb_sz (hdr_of_obj a' op) = 48 /\ sm_get (GC_size_map a) 40 = Some 3 /\ free_head a 2 3 = NULL.
Proof.
  assert (E : match sample_uncollectable with
    | Some a => match GC_generic_malloc_uncollectable sample_P no_memory 41 2 a with
      | Some (op, a') => match GC_free op a' with
        | Some a'' => (GC_non_gc_bytes a =? 0) && negb (op =? NULL) && (hb_obj_kind (hdr_of_obj a' op) =? 2)
            && (hb_sz (hdr_of_obj a' op) =? 48) && bool_decide (sm_get (GC_size_map a) 40 = Some 3) && (free_head a 2 3 =? NULL)
        | None => false end
      | None => false end
    | None => false end = true) by (by vm_compute).
  destruct sample_uncollectable as [a|]; [|done].
  destruct (GC_generic_malloc_uncollectable sample_P no_memory 41 2 a) as [[op a']|] eqn:E1; [|done].
  destruct (GC_free op a') as [a''|] eqn:E2; [|done]. exists a, op, a', a''. repeat (apply andb_true_iff in E as [E ?]).
  rewrite bool_decide_eq_true in *. rewrite negb_true_iff, ?Z.eqb_eq, ?Z.eqb_neq in *. auto 10.
Qed.

Lemma uncollectable_slow_path_uncounted_witness :
  exists (a : al hdr_state unit) op a' a'', GC_generic_malloc_uncollectable sample_P no_memory 41 2 a = Some (op, a')
    /\ GC_free op a' = Some a'' /\ GC_non_gc_bytes a = 0 /\ GC_non_gc_bytes a'' = wrap64 (- 48).
Proof.
  destruct sample_uncollectable_run as (a & op & a' & a'' & H0 & E1 & E2 & Hop & Hk & Hz & Hm & Hf). exists a, op, a', a''.
  split; [exact E1|]. split; [exact E2|]. split; [exact H0|].
  destruct (uncollectable_slow_path_uncounted sample_P no_memory a 41 2 op a' a'') as [_ E3].
  - split; cbn; intros; by simplify_eq.
  - reflexivity.
  - reflexivity.
  - intros a1 lg [= <-] Hlg. change (sm_get (GC_size_map a) 40 = Some lg) in Hlg. rewrite Hm in Hlg. by injection Hlg as <-.
  - exact E1.
  - exact Hop.
  - exact Hk.
  - exact E2.
  - rewrite E3, H0, Hz. reflexivity.
Defined.
End MallocOk.
