(* ===== verification/HeapGrow.v ===== *)
(** * Growing the heap (alloc.c)

    When no block is free, [GC_collect_or_expand] decides between a collection and
    more memory from the system; [GC_add_to_heap] makes a range of memory a free
    block and records it as a heap section.  The decisions rest on the counters
    of bytes allocated, freed and scanned.

    The model is the single-threaded LP64 Linux build with [USE_MUNMAP], without
    [SET_REAL_HEAP_BOUNDS].  The system ([GET_MEM]) and collections
    ([GC_try_to_collect_inner]) are parameters.  [None] is [ABORT], or the
    overflow of a signed word, which C leaves undefined. *)

From Stdlib Require Import ZArith Lia.
From stdpp Require Import base gmap list.
From S2P Require Import Prelude BlackList Scratch Hblk Headers HeadersNav HdrIface MarkBits ObjMap NewHblk FreeList Allchblk.

Module HeapGrow.
Import Headers HdrIface NewHblk FreeList Allchblk.

Definition SIGN_BIT : Z := 2 ^ 63.
Definition INITIAL_HEAP_SECTS : Z := 32.
Definition sizeof_HeapSect : Z := 16.
Definition MIN_BYTES_SINCE_GC_BEFORE_COLLECT : Z := 10 * 1024 * 1024.

(** A section of the heap. *)
Record HeapSect := Sect { hs_start : Z; hs_bytes : Z }.

(** Counters and settings that collections and clients change. *)
Record acct := Acct {
  bytes_allocd : Z;                  (* [GC_bytes_allocd] *)
  bytes_freed : Z;
  non_gc_bytes : Z;
  non_gc_bytes_at_gc : Z;
  bytes_finalized : Z;
  fo_entries : Z;
  stack_size : Z;                    (* [GC_stackbottom - GC_approx_sp()] *)
  root_size : Z;
  composite_in_use : Z;
  atomic_in_use : Z;
  GC_free_space_divisor : Z;
  min_bytes_allocd_minimum : Z;
  GC_allochblk_collect_divisor : Z;
  GC_allocd_bytes_per_finalizer : Z;
  GC_disable_automatic_collection : bool;
  GC_dont_expand : bool;
  GC_max_heapsize : Z;
  GC_max_retries : Z;
  GC_unmap_threshold : Z;
  GC_heapsize_at_forced_unmap : Z;
  page_size : Z                      (* [GC_page_size] *)
}.

Record grow (T OS : Type) := Grow {
  gh : heap T;
  ac : acct;
  os : OS;
  GC_heap_sects : list HeapSect;
  heap_sects_at : Z;                 (* where the array is *)
  GC_capacity_heap_sects : Z;
  GC_least_plausible_heap_addr : Z;
  GC_greatest_plausible_heap_addr : Z;
  GC_last_heap_addr : Z;
  GC_last_heap_growth_gc_no : Z;
  GC_our_mem_bytes : Z;
  GC_should_start_incremental_collection : bool;
  last_min_bytes_allocd : Z;         (* the statics of [GC_should_collect] ... *)
  last_gc_no : Z;
  last_fo_entries : Z;               (* ... and of [GC_collect_or_expand] *)
  last_bytes_finalized : Z
}.
Arguments Grow {T OS}.
Arguments gh {T OS}.
Arguments ac {T OS}.
Arguments os {T OS}.
Arguments GC_heap_sects {T OS}.
Arguments heap_sects_at {T OS}.
Arguments GC_capacity_heap_sects {T OS}.
Arguments GC_least_plausible_heap_addr {T OS}.
Arguments GC_greatest_plausible_heap_addr {T OS}.
Arguments GC_last_heap_addr {T OS}.
Arguments GC_last_heap_growth_gc_no {T OS}.
Arguments GC_our_mem_bytes {T OS}.
Arguments GC_should_start_incremental_collection {T OS}.
Arguments last_min_bytes_allocd {T OS}.
Arguments last_gc_no {T OS}.
Arguments last_fo_entries {T OS}.
Arguments last_bytes_finalized {T OS}.

Inductive stop_fn := GC_default_stop_func | GC_never_stop_func.

(** ** Byte counts *)

(** A word as a signed one, and signed sums. *)
Definition signed (w : Z) : Z := if w <? SIGN_BIT then w else w - 2 ^ 64.
Definition checked (z : Z) : option Z := if (- SIGN_BIT <=? z) && (z <? SIGN_BIT) then Some z else None.

Definition min_bytes_allocd (incremental : bool) (c : acct) : Z :=
  let total_root_size := wrap64 (2 * stack_size c + root_size c) in
  let scan_size := wrap64 (2 * composite_in_use c + atomic_in_use c / 4 + total_root_size) in
  let result := scan_size / GC_free_space_divisor c in
  let result := if incremental then result / 2 else result in
  if min_bytes_allocd_minimum c <? result then result else min_bytes_allocd_minimum c.

Definition GC_adj_bytes_allocd (dropped finalizer_freed : Z) (c : acct) : option Z :=
  expl_managed ← checked (signed (non_gc_bytes c) - signed (non_gc_bytes_at_gc c));
  result ← checked (signed (bytes_allocd c) + signed dropped);
  result ← checked (result - signed (bytes_freed c));
  result ← checked (result + signed finalizer_freed);
  result ← checked (result - expl_managed);
  let result := if signed (bytes_allocd c) <? result then signed (bytes_allocd c) else result in
  result ← checked (result + signed (bytes_finalized c));
  let floor := signed (Z.shiftr (bytes_allocd c) 3) in
  Some (wrap64 (if result <? floor then floor else result)).

Section Grow.
Context {T OS : Type} `{HeaderTable T}.
Implicit Types (g : grow T OS).

Definition with_heap (h : heap T) g : grow T OS :=
  Grow h (ac g) (os g) (GC_heap_sects g) (heap_sects_at g) (GC_capacity_heap_sects g) (GC_least_plausible_heap_addr g)
    (GC_greatest_plausible_heap_addr g) (GC_last_heap_addr g) (GC_last_heap_growth_gc_no g) (GC_our_mem_bytes g)
    (GC_should_start_incremental_collection g) (last_min_bytes_allocd g) (last_gc_no g) (last_fo_entries g) (last_bytes_finalized g).
Definition with_sects (l : list HeapSect) (at_ cap : Z) g : grow T OS :=
  Grow (gh g) (ac g) (os g) l at_ cap (GC_least_plausible_heap_addr g)
    (GC_greatest_plausible_heap_addr g) (GC_last_heap_addr g) (GC_last_heap_growth_gc_no g) (GC_our_mem_bytes g)
    (GC_should_start_incremental_collection g) (last_min_bytes_allocd g) (last_gc_no g) (last_fo_entries g) (last_bytes_finalized g).
Definition with_bounds (least greatest : Z) g : grow T OS :=
  Grow (gh g) (ac g) (os g) (GC_heap_sects g) (heap_sects_at g) (GC_capacity_heap_sects g) least
    greatest (GC_last_heap_addr g) (GC_last_heap_growth_gc_no g) (GC_our_mem_bytes g)
    (GC_should_start_incremental_collection g) (last_min_bytes_allocd g) (last_gc_no g) (last_fo_entries g) (last_bytes_finalized g).
Definition with_last_addr (n : Z) g : grow T OS :=
  Grow (gh g) (ac g) (os g) (GC_heap_sects g) (heap_sects_at g) (GC_capacity_heap_sects g) (GC_least_plausible_heap_addr g)
    (GC_greatest_plausible_heap_addr g) n (GC_last_heap_growth_gc_no g) (GC_our_mem_bytes g)
    (GC_should_start_incremental_collection g) (last_min_bytes_allocd g) (last_gc_no g) (last_fo_entries g) (last_bytes_finalized g).
Definition with_growth_no (n : Z) g : grow T OS :=
  Grow (gh g) (ac g) (os g) (GC_heap_sects g) (heap_sects_at g) (GC_capacity_heap_sects g) (GC_least_plausible_heap_addr g)
    (GC_greatest_plausible_heap_addr g) (GC_last_heap_addr g) n (GC_our_mem_bytes g)
    (GC_should_start_incremental_collection g) (last_min_bytes_allocd g) (last_gc_no g) (last_fo_entries g) (last_bytes_finalized g).
Definition with_os (o : OS) (mem_bytes : Z) g : grow T OS :=
  Grow (gh g) (ac g) o (GC_heap_sects g) (heap_sects_at g) (GC_capacity_heap_sects g) (GC_least_plausible_heap_addr g)
    (GC_greatest_plausible_heap_addr g) (GC_last_heap_addr g) (GC_last_heap_growth_gc_no g) mem_bytes
    (GC_should_start_incremental_collection g) (last_min_bytes_allocd g) (last_gc_no g) (last_fo_entries g) (last_bytes_finalized g).
Definition with_statics (start_inc : bool) (min gcno fo fin : Z) g : grow T OS :=
  Grow (gh g) (ac g) (os g) (GC_heap_sects g) (heap_sects_at g) (GC_capacity_heap_sects g) (GC_least_plausible_heap_addr g)
    (GC_greatest_plausible_heap_addr g) (GC_last_heap_addr g) (GC_last_heap_growth_gc_no g) (GC_our_mem_bytes g)
    start_inc min gcno fo fin.

(** [GC_heapsize = n] *)
Definition set_heapsize (n : Z) (h : heap T) : heap T :=
  let p := prm h in
  Heap (fls h) (obj_map h) (bls h)
    (Params (GC_obj_kinds p) (Allchblk.GC_gc_no p) n (GC_requested_heapsize p) (GC_large_allocd_bytes p) (GC_max_large_allocd_bytes p)
       (GC_finalizer_bytes_freed p) (GC_use_entire_heap p) (GC_dont_gc p) (GC_incremental p) (GC_find_leak_inner p)
       (GC_large_alloc_warn_interval p))
    (GC_large_free_bytes h) (GC_bytes_dropped h) (GC_drop_blacklisted_count h) (GC_large_alloc_warn_suppressed h)
    (GC_alloc_fail_count h) (os_calls h).
Definition GC_heapsize g : Z := p_heapsize (prm (gh g)).
Definition gc_no g : Z := Allchblk.GC_gc_no (prm (gh g)).
Definition adj_bytes_allocd g : option Z :=
  GC_adj_bytes_allocd (GC_bytes_dropped (gh g)) (GC_finalizer_bytes_freed (prm (gh g))) (ac g).
Definition ROUNDUP_PAGESIZE g (lb : Z) : Z :=
  Z.land (SIZET_SAT_ADD lb (page_size (ac g) - 1)) (Z.lnot (page_size (ac g) - 1)).

(** ** When to collect *)

Definition GC_should_collect g : option (bool * grow T OS) :=
  let g := if last_gc_no g =? gc_no g then g
           else with_statics (GC_should_start_incremental_collection g)
                  (min_bytes_allocd (GC_incremental (prm (gh g))) (ac g)) (gc_no g) (last_fo_entries g) (last_bytes_finalized g) g in
  if GC_should_start_incremental_collection g then
    Some (true, with_statics false (last_min_bytes_allocd g) (last_gc_no g) (last_fo_entries g) (last_bytes_finalized g) g)
  else if GC_disable_automatic_collection (ac g) then Some (false, g)
  else if GC_last_heap_growth_gc_no g =? gc_no g then Some (true, g)
  else adj ← adj_bytes_allocd g; Some (last_min_bytes_allocd g <=? adj, g).

Definition GC_should_collect_before_hblk_alloc g : option bool :=
  let budget := MIN_BYTES_SINCE_GC_BEFORE_COLLECT in
  if GC_dont_gc (prm (gh g)) || GC_incremental (prm (gh g)) || GC_disable_automatic_collection (ac g) then Some false
  else
    let d := GC_allochblk_collect_divisor (ac g) in
    let budget := if negb (d =? 0) then
                    let scaled := GC_heapsize g / d in if budget <? scaled then scaled else budget
                  else budget in
    adj ← adj_bytes_allocd g; Some (budget <? adj).

(** ** Heap sections *)

(** The array of sections is full: a larger one, and the address and capacity of the
    old one. *)
Definition grow_sects g : option (Z * Z * grow T OS) :=
  let n := Z.of_nat (length (GC_heap_sects g)) in
  if n =? GC_capacity_heap_sects g then
    let new_capacity := if 0 <? n then n * 2 else INITIAL_HEAP_SECTS in
    '(new_sects, h) ← on_tbl_res (ht_scratch_alloc (new_capacity * sizeof_HeapSect)) (gh g);
    let g := with_heap h g in
    '(new_sects, new_capacity, g) ←
      (if new_sects =? NULL then
         let new_capacity := n + INITIAL_HEAP_SECTS in
         '(new_sects, h) ← on_tbl_res (ht_scratch_alloc (new_capacity * sizeof_HeapSect)) (gh g);
         if new_sects =? NULL then None else Some (new_sects, new_capacity, with_heap h g)
       else Some (new_sects, new_capacity, g));
    Some (heap_sects_at g, GC_capacity_heap_sects g, with_sects (GC_heap_sects g) new_sects new_capacity g)
  else Some (NULL, 0, g).

(** The part of the range that can be used: not near address zero, and with an end
    that is an address. *)
Definition low_body (s : Z * Z) : (Z * Z) + option (Z * Z) :=
  let '(h, sz) := s in
  if h <=? HBLKSIZE then
    if sz - HBLKSIZE =? 0 then inr None else inl (h + HBLKSIZE, sz - HBLKSIZE)
  else inr (Some (h, sz)).

Definition high_body (s : Z * Z) : (Z * Z) + option (Z * Z) :=
  let '(h, sz) := s in
  if GC_WORD_MAX - sz <=? h then
    if sz - HBLKSIZE =? 0 then inr None else inl (h, sz - HBLKSIZE)
  else inr (Some (h, sz)).

Definition usable_range (h sz : Z) : option (option (Z * Z)) :=
  r ← loop low_body (h, sz);
  match r with
  | None => Some None
  | Some s => loop high_body s
  end.

Definition scratch_recycle_range g (ptr sz : Z) : Z * Z :=
  let page := page_size (ac g) in
  let page_offset := Z.land ptr (page - 1) in
  let displ := if negb (page_offset =? 0) then page - page_offset else 0 in
  let recycled_bytes := if displ <? sz then Z.land (sz - displ) (Z.lnot (page - 1)) else 0 in
  (ptr + displ, recycled_bytes).

(** The usable part of a range becomes a section and a free block; [false] is an
    early return. *)
Definition add_section (h sz : Z) g : option (bool * grow T OS) :=
  r ← usable_range h sz;
  match r with
  | None => Some (false, g)
  | Some (h, sz) =>
    let endp := h + sz in
    '(hhdr, hp) ← on_tbl_res (ht_install_header h) (gh g);
    let g := with_heap hp g in
    if hhdr =? NULL then Some (false, g)
    else
      let g := with_sects (GC_heap_sects g ++ [Sect h sz]) (heap_sects_at g) (GC_capacity_heap_sects g) g in
      hp ← GC_freehblk h (hwrite hhdr (fun x => set_hb_flags 0 (set_hb_sz sz (set_hb_block h x))) (gh g));
      let g := with_heap (set_heapsize (wrap64 (p_heapsize (prm hp) + sz)) hp) g in
      let least := GC_least_plausible_heap_addr g in
      let least := if (h <=? least) || (least =? NULL) then h - PTRSZ else least in
      let greatest := GC_greatest_plausible_heap_addr g in
      let greatest := if greatest <? endp then endp else greatest in
      Some (true, with_bounds least greatest g)
  end.

(** [GC_add_to_heap] may call itself through [GC_scratch_recycle_inner] to make the
    old array of sections part of the heap; [fuel] bounds the depth of the
    calls. *)
Fixpoint add_to_heap (fuel : nat) (h sz : Z) g : option (grow T OS) :=
  match fuel with
  | O => None
  | S fuel =>
    '(old_heap_sects, old_capacity, g) ← grow_sects g;
    '(added, g) ← add_section h sz g;
    if (added : bool) && (0 <? old_capacity) && negb (old_heap_sects =? NULL) then
      let '(p, n) := scratch_recycle_range g old_heap_sects (old_capacity * sizeof_HeapSect) in
      if 0 <? n then add_to_heap fuel p n g else Some g
    else Some g
  end.

(** The array that is recycled was replaced by one with room for two more. *)
Definition GC_add_to_heap (h sz : Z) g : option (grow T OS) := add_to_heap 2 h sz g.

Definition GC_scratch_recycle_inner (ptr sz : Z) g : option (grow T OS) :=
  if ptr =? NULL then Some g
  else
    let '(p, n) := scratch_recycle_range g ptr sz in
    if 0 <? n then GC_add_to_heap p n g else Some g.

(** ** Expansion *)

Section System.
Context (GET_MEM : Z -> OS -> Z * OS).

Definition GC_os_get_mem (bytes : Z) g : Z * grow T OS :=
  let '(space, o) := GET_MEM bytes (os g) in
  if space =? NULL then (NULL, with_os o (GC_our_mem_bytes g) g)
  else (space, with_os o (wrap64 (GC_our_mem_bytes g + bytes)) g).

(** The generous heap limits for black-listing. *)
Definition adjust_limits (space sz : Z) g : grow T OS :=
  let expansion_slop := wrap64 (min_bytes_allocd (GC_incremental (prm (gh g))) (ac g) + 4 * MAXHINCR * HBLKSIZE) in
  let last := GC_last_heap_addr g in
  if ((last =? 0) && (Z.land space SIGN_BIT =? 0)) || (negb (last =? 0) && (last <? space)) then
    if space <? wrap64 (GC_WORD_MAX - (sz + expansion_slop)) then
      let new_limit := wrap64 (space + sz + expansion_slop) in
      with_bounds (GC_least_plausible_heap_addr g)
        (if GC_greatest_plausible_heap_addr g <? new_limit then new_limit else GC_greatest_plausible_heap_addr g) g
    else g
  else if wrap64 (expansion_slop + PTRSZ) <? space then
    let new_limit := wrap64 (space - expansion_slop - PTRSZ) in
    with_bounds (if new_limit <? GC_least_plausible_heap_addr g then new_limit else GC_least_plausible_heap_addr g)
      (GC_greatest_plausible_heap_addr g) g
  else g.

Definition GC_expand_hp_inner (n : Z) g : option (bool * grow T OS) :=
  let n := if n =? 0 then 1 else n in
  let sz := ROUNDUP_PAGESIZE g (wrap64 (n * HBLKSIZE)) in
  let max := GC_max_heapsize (ac g) in
  if negb (max =? 0) && ((max <? sz) || (max - sz <? GC_heapsize g)) then Some (false, g)
  else
    let '(space, g) := GC_os_get_mem sz g in
    if space =? NULL then Some (false, g)
    else
      let g := with_growth_no (gc_no g) g in
      let g := with_last_addr space (adjust_limits space sz g) in
      g ← GC_add_to_heap space sz g;
      Some (true, g).

Definition GC_expand_hp (bytes : Z) g : option (bool * grow T OS) :=
  '(result, g) ← GC_expand_hp_inner (OBJ_SZ_TO_BLOCKS_CHECKED bytes) g;
  let h := gh g in
  let p := prm h in
  Some (result, if (result : bool) then
    with_heap (Heap (fls h) (obj_map h) (bls h)
      (Params (GC_obj_kinds p) (Allchblk.GC_gc_no p) (p_heapsize p) (wrap64 (GC_requested_heapsize p + bytes)) (GC_large_allocd_bytes p)
        (GC_max_large_allocd_bytes p) (GC_finalizer_bytes_freed p) (GC_use_entire_heap p) (GC_dont_gc p) (GC_incremental p)
        (GC_find_leak_inner p) (GC_large_alloc_warn_interval p))
      (GC_large_free_bytes h) (GC_bytes_dropped h) (GC_drop_blacklisted_count h) (GC_large_alloc_warn_suppressed h)
      (GC_alloc_fail_count h) (os_calls h)) g
    else g).

(** How many blocks to ask for. *)
Definition blocks_to_get (needed_blocks flags : Z) g : Z :=
  let n := wrap64 (wrap64 (GC_heapsize g - GC_heapsize_at_forced_unmap (ac g)) / wrap64 (HBLKSIZE * GC_free_space_divisor (ac g))
                   + needed_blocks) in
  let n :=
    if MAXHINCR <? n then
      let slop := if flag_set flags IGNORE_OFF_PAGE then 4
                  else let s := 2 * divHBLKSZ (BlackList.GC_black_list_spacing (bls (gh g))) in
                       if needed_blocks <? s then needed_blocks else s in
      let n := if MAXHINCR <? wrap64 (needed_blocks + slop) then wrap64 (needed_blocks + slop) else MAXHINCR in
      if divHBLKSZ GC_WORD_MAX <? n then divHBLKSZ GC_WORD_MAX else n
    else if n <? MINHINCR then MINHINCR else n in
  if GC_heapsize g <? GC_max_heapsize (ac g) then
    let max_get_blocks := divHBLKSZ (GC_max_heapsize (ac g) - GC_heapsize g) in
    if max_get_blocks <? n then if needed_blocks <? max_get_blocks then max_get_blocks else needed_blocks else n
  else n.

Section Collector.
(** A collection under a stop function; [false] if it was stopped. *)
Context (GC_try_to_collect_inner : stop_fn -> grow T OS -> option (bool * grow T OS)).

(** The tests before a collection, in the order of the code. *)
Definition wants_collection g : option (bool * grow T OS) :=
  let c := ac g in
  if GC_incremental (prm (gh g)) || GC_dont_gc (prm (gh g)) then Some (false, g)
  else if GC_dont_expand c && (0 <? bytes_allocd c) then Some (true, g)
  else if (last_fo_entries g <? fo_entries c) && negb (Z.lor (last_bytes_finalized g) (bytes_finalized c) =? 0)
          && (bytes_allocd c <? wrap64 ((fo_entries c - last_fo_entries g) * GC_allocd_bytes_per_finalizer c))
  then Some (true, g)
  else GC_should_collect g.

Definition GC_collect_or_expand (needed_blocks flags : Z) (retry : bool) g : option (bool * grow T OS) :=
  '(wants, g) ← wants_collection g;
  '(done_, gc_not_stopped, g) ←
    (if (wants : bool) then
       '(ns, g) ← GC_try_to_collect_inner
                    (if (0 <? bytes_allocd (ac g)) && (negb (GC_dont_expand (ac g)) || negb retry)
                     then GC_default_stop_func else GC_never_stop_func) g;
       if (ns : bool) || negb retry
       then Some (true, ns, with_statics (GC_should_start_incremental_collection g) (last_min_bytes_allocd g) (last_gc_no g)
                              (fo_entries (ac g)) (bytes_finalized (ac g)) g)
       else Some (false, ns, g)
     else Some (false, true, g));
  if (done_ : bool) then Some (true, g)
  else
    let n := blocks_to_get needed_blocks flags g in
    g ← (if 1 <? GC_unmap_threshold (ac g) then h ← GC_unmap_old 0 (gh g); Some (with_heap h g) else Some g);
    '(ok, g) ← GC_expand_hp_inner n g;
    '(ok, g) ← (if (ok : bool) then Some (true, g)
                else if n =? needed_blocks then Some (false, g) else GC_expand_hp_inner needed_blocks g);
    if (ok : bool) then Some (true, g)
    else if negb gc_not_stopped then
      '(_, g) ← GC_try_to_collect_inner GC_never_stop_func g; Some (true, g)
    else
      let count := GC_alloc_fail_count (gh g) in
      let g := with_heap (set_fail_count ((count + 1) mod 2 ^ 32) (gh g)) g in
      if count <? GC_max_retries (ac g) then '(_, g) ← GC_try_to_collect_inner GC_never_stop_func g; Some (true, g)
      else Some (false, g).
End Collector.
End System.
End Grow.
End HeapGrow.
