(* ===== verification/HeapGrowOk.v ===== *)
(** * Correctness of heap growth

    [GC_add_to_heap] keeps the invariant of the block allocator and turns memory that is
    not part of the heap into a listed free block; an expansion stays within
    [GC_max_heapsize]; the number of blocks asked for is at least what is needed and
    does not overflow; the byte counts that trigger collections are sound. *)

From Stdlib Require Import ZArith Lia.
From stdpp Require Import base gmap list.
From S2P Require Import Prelude BlackList Scratch Hblk Headers HeadersNav HdrIface MarkBits ObjMap NewHblk FreeList Allchblk HeapInv AllchblkFree HeapGrow.

Module HeapGrowOk.
Import Headers HdrIface NewHblk FreeList Allchblk HeapInv AllchblkFree HeapGrow.

(** ** Adding a free block to a heap *)

Lemma tiled_add (D D' : Z -> Z) (B B' : Z -> hdr) (h sz v : Z) :
  tiled D B -> h mod 4096 = 0 -> 0 < h -> 0 < sz -> sz mod 4096 = 0 -> h + sz < W64 -> is_hdr_ptr v = true ->
  (forall k, start D k -> k + extent (B k) <= h \/ h + sz <= k) ->
  (forall q, D' q = if decide (q / 4096 = h / 4096) then v else D q) ->
  (forall p q, p / 4096 = q / 4096 -> B' p = B' q) ->
  (forall k, start D k -> B' k = B k) ->
  HBLK_IS_FREE (B' h) = true -> hb_sz (B' h) = sz -> hb_block (B' h) = h -> tiled D' B'.
Proof.
  intros K Ha H0 H1 H2 H3 Hv Hap ED EBb EB Hf Hsz Hb.
  assert (Eh : extent (B' h) = sz) by (unfold extent; by rewrite Hf).
  assert (Hn : forall q, h / 4096 <= q / 4096 < (h + sz) / 4096 -> D q = NULL).
  { intros q Hq. destruct (decide (D q = NULL)) as [|Hne]; [done|]. exfalso.
    destruct (ti_outside _ _ K q Hne) as (k & Hk & Hr). destruct (ti_extent _ _ K k Hk) as (K0 & K1 & K2 & K3).
    destruct (Hap k Hk), Hk as [Hka _]; dlia. }
  assert (Es : forall k, start D' k <-> start D k \/ k = h).
  { intros k. unfold start. rewrite ED. case_decide as E.
    - split; [intros [? _]; right; dlia|]. intros [[? Hk]| ->]; [|done]. rewrite Hn in Hk; [done|dlia].
    - split; [by left|]. intros [?| ->]; done. }
  assert (Hsh : ~ start D h) by (intros [_ Hk]; rewrite Hn in Hk; [done|dlia]).
  split.
  - intros p q E. rewrite !ED, E. split; [|by apply EBb]. case_decide; [done|]. by apply (ti_blk _ _ K).
  - intros q. rewrite ED. case_decide; [apply is_hdr_ptr_ge in Hv; lia|apply K].
  - intros k [Hk| ->]%Es; [|done]. rewrite EB by done. by apply K.
  - intros k [Hk| ->]%Es; [|by rewrite Eh]. rewrite EB by done. by apply K.
  - intros k q [Hk| ->]%Es Hq.
    + rewrite EB in * by done. rewrite ED, decide_False; [by apply K|]. intros E.
      destruct (ti_extent _ _ K k Hk) as (K0 & K1 & K2 & K3). destruct (Hap k Hk), Hk as [Hka _]; dlia.
    + rewrite Eh in Hq. rewrite ED, decide_False, Hf by lia. apply Hn. lia.
  - intros q. rewrite ED. case_decide as E.
    + intros _. exists h. split; [apply Es; by right|]. rewrite Eh. dlia.
    + intros Hq. destruct (ti_outside _ _ K q Hq) as (k & Hk & Hr). exists k. split; [apply Es; by left|]. by rewrite EB.
Qed.

Section Ok.
Context {T OS : Type} `{HeaderTable T} `{!HeaderTableLaws T}.
Implicit Types (s : fl_state T) (L : Z -> list Z) (hp : heap T) (g : grow T OS).

Abbreviation starts s := (start (HDRs s)).

(** Memory that belongs to no block. *)
Definition apart s (h sz : Z) : Prop := forall k, starts s k -> k + extent (hdrb s k) <= h \/ h + sz <= k.

Lemma apart_uncovered s (h sz : Z) : apart s h sz -> forall x, h <= x < h + sz -> ~ cover s x.
Proof. intros Ha x Hx (k & Hk & Hr). destruct (Ha k Hk); lia. Qed.

Lemma uncovered_apart s L (h sz : Z) : heap_ok s L -> 0 < sz -> (forall x, h <= x < h + sz -> ~ cover s x) -> apart s h sz.
Proof.
  intros K Hs Hn k Hk. destruct (ti_extent _ _ (ho_tiled _ _ K) k Hk) as (_ & He & _).
  destruct (Z.le_gt_cases (k + extent (hdrb s k)) h); [by left|]. destruct (Z.le_gt_cases (h + sz) k); [by right|]. exfalso.
  destruct (Z.le_gt_cases h k); [apply (Hn k)|apply (Hn h)]; try lia; (exists k; split; [done|lia]).
Qed.

Lemma add_block_spec s s' L (h sz v : Z) :
  heap_ok s L -> all_listed s L -> h mod 4096 = 0 -> 0 < h -> 0 < sz -> sz mod 4096 = 0 -> h + sz < W64 ->
  is_hdr_ptr v = true -> apart s h sz -> ht_wf (tbl s') -> ht_clean (tbl s') ->
  GC_hblkfreelist s' = GC_hblkfreelist s -> GC_free_bytes s' = GC_free_bytes s ->
  (forall q, HDRs s' q = if decide (q / 4096 = h / 4096) then v else HDRs s q) ->
  (forall q, has_hdr s q -> hdrb s' q = hdrb s q) ->
  HBLK_IS_FREE (hdrb s' h) = true -> hb_sz (hdrb s' h) = sz -> hb_block (hdrb s' h) = h ->
  freeing s' L h /\ (forall k, starts s k -> starts s' k /\ k <> h) /\ (forall k, starts s' k -> starts s k \/ k = h)
  /\ listed_bytes s' L = listed_bytes s L.
Proof.
  intros K A Ha H0 H1 H2 H3 Hv Hap W C E1 E2 HD HB Hf Hsz Hb.
  assert (Hno : forall k, starts s k -> k <> h).
  { intros k Hk ->. destruct (ti_extent _ _ (ho_tiled _ _ K) h Hk) as (_ & ? & _). destruct (Hap h Hk); lia. }
  assert (Hst : forall k, starts s k -> starts s' k).
  { intros k Hk. destruct Hk as [Hka Hkp]. split; [done|]. rewrite HD. by case_decide. }
  assert (HL : forall i x, x ∈ L i -> starts s x) by (intros i x Hx; by eapply listed_start; [apply K|]).
  assert (Hs' : forall k, starts s' k -> starts s k \/ k = h).
  { intros k [Hka Hkp]. rewrite HD in Hkp. case_decide as E; [right; dlia|by left]. }
  split; [|split; [by auto|split; [done|]]].
  - split; [|split; [done|]; rewrite HD; by rewrite decide_True|done| | |done].
    + split.
      * apply (fl_ok_frame s); [apply K|done|done|done|]. intros i x Hx. split; [by apply Hst, (HL i)|].
        apply HB. by apply (HL i).
      * apply (tiled_add (HDRs s) (HDRs s') (hdrb s) (hdrb s') h sz v); try done; [apply K|intros p q E; by apply hdrb_blk|].
        intros k [_ Hk]. by apply HB.
      * intros i x Hx. rewrite (ho_class _ _ K i x Hx). unfold fl_index. rewrite HB; [done|]. by apply (HL i).
    + intros j Hj. by apply (Hno h); [apply (HL j)|].
    + intros k Hk Hkf. destruct (Hs' k Hk) as [Hks| ->]; [left|right; by left].
      unfold fl_index. rewrite HB in * by apply Hks. by apply A.
  - apply listed_bytes_ext. intros i x Hx. f_equal. apply HB. by apply (HL i).
Qed.

Lemma apart_null s L (h sz q : Z) :
  heap_ok s L -> h mod 4096 = 0 -> sz mod 4096 = 0 -> apart s h sz -> h / 4096 <= q / 4096 < (h + sz) / 4096 -> HDRs s q = NULL.
Proof.
  intros K Ha Hm Hap Hq. destruct (decide (HDRs s q = NULL)) as [|Hne]; [done|]. exfalso.
  destruct (ti_outside _ _ (ho_tiled _ _ K) q Hne) as (k & Hk & Hr).
  destruct (ti_extent _ _ (ho_tiled _ _ K) k Hk) as (K0 & K1 & K2 & K3). destruct (Hap k Hk), Hk as [Hka _]; dlia.
Qed.

(** What becomes of a range that is made part of the heap. *)
Record section_added hp L hp' L' (h sz : Z) : Prop := {
  sa_ok : heap_ok (fls hp') L';
  sa_listed : all_listed (fls hp') L';
  sa_kept : forall k, starts (fls hp) k -> HBLK_IS_FREE (hdrb (fls hp) k) = false ->
    starts (fls hp') k /\ body (hdrb (fls hp') k) = body (hdrb (fls hp) k);
  sa_free : exists b, starts (fls hp') b /\ HBLK_IS_FREE (hdrb (fls hp') b) = true
    /\ b <= h /\ h + sz <= b + hb_sz (hdrb (fls hp') b);
  sa_cover : forall x, cover (fls hp') x -> cover (fls hp) x \/ h <= x < h + sz;
  sa_bytes : listed_bytes (fls hp') L' = listed_bytes (fls hp) L + sz;
  sa_large : GC_large_free_bytes hp' = wrap64 (GC_large_free_bytes hp + sz);
  sa_prm : prm hp' = prm hp
}.

Lemma new_section_spec hp L (h sz : Z) :
  heap_ok (fls hp) L -> all_listed (fls hp) L -> h mod 4096 = 0 -> 0 < h -> 0 < sz < 2 ^ 63 -> sz mod 4096 = 0 -> h + sz < W64 ->
  apart (fls hp) h sz ->
  exists r hp1, on_tbl_res (ht_install_header h) hp = Some (r, hp1)
    /\ ((r = NULL /\ heap_ok (fls hp1) L /\ all_listed (fls hp1) L /\ covers (fls hp) (fls hp1)
         /\ (forall k, starts (fls hp) k -> starts (fls hp1) k /\ hdrb (fls hp1) k = hdrb (fls hp) k)
         /\ prm hp1 = prm hp)
        \/ (r <> NULL /\ exists hp' L',
              GC_freehblk h (hwrite r (fun x => set_hb_flags 0 (set_hb_sz sz (set_hb_block h x))) hp1) = Some hp'
              /\ section_added hp L hp' L' h sz)).
Proof.
  intros K A Ha H0 Hsz Hm Hend Hap. set (s := fls hp) in *.
  destruct (hl_install (tbl s) h ltac:(apply K) ltac:(lia)) as (r & t & Et & W & C & Hr).
  exists r, (set_fls (set_tbl t s) hp). split; [by apply on_tbl_res_eq|].
  destruct Hr as [[-> ST]|(Hv & Hfresh & HD & HH)]; [left|right].
  { destruct (heap_ok_same_table s L t K W ST) as (K1 & HD1 & HB1).
    assert (Hs1 : forall k, starts (set_tbl t s) k <-> starts s k) by (intros k; unfold start; by rewrite HD1).
    split; [done|]. split; [done|]. split; [by eapply all_listed_same|]. split; [|split; [|done]].
    - apply covers_body. intros k Hk%Hs1. split; [done|]. by rewrite HB1 by apply Hk.
    - intros k Hk. split; [by apply Hs1|]. by apply HB1, Hk. }
  split; [apply is_hdr_ptr_ge in Hv; lia|].
  set (s1 := set_tbl t s). set (f0 := fun x => set_hb_flags 0 (set_hb_sz sz (set_hb_block h x))).
  change (HDR (tbl s)) with (HDRs s) in *. change (HDR t) with (HDRs s1) in HD.
  assert (D1h : HDRs s1 h = r) by (rewrite HD; by rewrite decide_True).
  destruct (upd_hdr_spec s1 h f0 W) as (W2 & D2 & B2 & E2a & E2b & C2); [unfold has_hdr; by rewrite D1h|].
  rewrite D1h in *. set (s2 := upd_hdr r f0 s1) in *.
  destruct (hl_invalidate (tbl s2) W2) as (W3 & C3 & [SD3 SH3]). set (s3 := set_tbl (ht_invalidate (tbl s2)) s2).
  change (HDR (tbl s2)) with (HDRs s2) in *. change (HDR (ht_invalidate (tbl s2))) with (HDRs s3) in SD3.
  assert (D3 : forall q, HDRs s3 q = if decide (q / 4096 = h / 4096) then r else HDRs s q) by (intros q; rewrite SD3, D2; apply HD).
  assert (B3 : forall q, is_hdr_ptr (HDRs s3 q) = true -> hdrb s3 q = hdrb s2 q).
  { intros q Hq. rewrite SD3 in Hq. specialize (SH3 q Hq). unfold hdrb, hdr_at. rewrite SD3. exact SH3. }
  assert (Dh3 : HDRs s3 h = r) by (rewrite D3; by rewrite decide_True).
  assert (Bh3 : hdrb s3 h = f0 (hdrb s1 h)) by (rewrite B3 by (by rewrite Dh3); rewrite B2; by rewrite decide_True).
  unfold GC_freehblk. cbv zeta. change (fls (hwrite r f0 (set_fls s1 hp))) with s2. fold s3.
  change (hptr (set_fls s3 (hwrite r f0 (set_fls s1 hp))) h) with (HDRs s3 h). rewrite Dh3.
  change (hread (set_fls s3 (hwrite r f0 (set_fls s1 hp))) r) with (hdr_at s3 r).
  assert (Ez : hb_sz (hdr_at s3 r) = sz) by (rewrite <- Dh3 at 1; change (hdr_at s3 (HDRs s3 h)) with (hdrb s3 h); by rewrite Bh3).
  rewrite Ez, obj_blocks_exact by (unfold W64 in *; lia). rewrite signb_land, (proj2 (Z.ltb_lt _ _)) by (unfold W64; lia). cbn [negb].
  assert (Hin : forall q, h / 4096 < q / 4096 < (h + sz) / 4096 -> HDRs s3 q = NULL).
  { intros q Hq. rewrite D3, decide_False by lia. apply (apart_null s L h sz); try done. lia. }
  destruct (hl_remove_counts (tbl s3) h sz W3) as (t4 & Et4 & W4 & C4 & HH4 & HD4); try done; [lia|lia| |].
  { intros q Hq. change (HDR (tbl s3)) with (HDRs s3). rewrite (Hin q Hq).
    rewrite decide_True; [done|]. change HBLKSIZE with 4096. apply Hin. dlia. }
  change (HDR (tbl s3)) with (HDRs s3) in HD4. change (ht_hdr (tbl s3)) with (hdr_at s3) in HH4. set (s4 := set_tbl t4 s3).
  assert (D4 : forall q, HDRs s4 q = HDRs s3 q).
  { intros q. change (HDRs s4 q) with (HDR t4 q). rewrite HD4. case_decide as Hd; [by rewrite Hin|done]. }
  assert (B4 : forall q, hdrb s4 q = hdrb s3 q) by (intros q; unfold hdrb; rewrite D4; apply HH4).
  match goal with |- context [on_tbl ?x ?y] => rewrite (on_tbl_eq x y t4 Et4) end. rewrite some_bind.
  match goal with |- context [set_hb_last_reclaimed ?n (set_hb_sz sz _)] => set (gn := n) end.
  set (f1 := fun x => set_hb_last_reclaimed gn (set_hb_sz sz x)). set (f2 := fun x => set_hb_flags (Z.lor (hb_flags x) FREE_BLK) x).
  assert (Dh4 : HDRs s4 h = r) by (by rewrite D4).
  destruct (upd_hdr_spec s4 h f1 W4) as (W5 & D5 & B5 & E5a & E5b & C5); [unfold has_hdr; by rewrite Dh4|].
  rewrite Dh4 in *. set (s5 := upd_hdr r f1 s4) in *.
  assert (Dh5 : HDRs s5 h = r) by (by rewrite D5).
  destruct (upd_hdr_spec s5 h f2 W5) as (W6 & D6 & B6 & E6a & E6b & C6); [unfold has_hdr; by rewrite Dh5|].
  rewrite Dh5 in *. set (s6 := upd_hdr r f2 s5) in *.
  assert (Bh5 : hdr_at s5 r = f1 (f0 (hdrb s1 h))).
  { rewrite <- Dh5 at 1. change (hdr_at s5 (HDRs s5 h)) with (hdrb s5 h). by rewrite B5, decide_True, B4, Bh3. }
  match goal with |- context [hread ?x r] => change (hread x r) with (hdr_at s5 r) end. rewrite Bh5.
  change (HBLK_IS_FREE (f1 (f0 (hdrb s1 h)))) with false. cbn iota.
  match goal with |- context [GC_free_block_ending_at ?x h] => set (hp6 := x) end.
  assert (Ef6 : fls hp6 = s6) by done. assert (Ep6 : prm hp6 = prm hp) by done.
  assert (El6 : GC_large_free_bytes hp6 = GC_large_free_bytes hp) by done.
  assert (D6' : forall q, HDRs s6 q = if decide (q / 4096 = h / 4096) then r else HDRs s q) by (intros q; rewrite D6, D5, D4; apply D3).
  assert (Bh6 : hdrb s6 h = f2 (f1 (f0 (hdrb s1 h)))) by (rewrite B6, decide_True by done; by rewrite <- Dh5 in Bh5; rewrite <- Bh5).
  assert (B6' : forall q, has_hdr s q -> hdrb s6 q = hdrb s q).
  { intros q Hq. assert (Hqh : q / 4096 <> h / 4096).
    { intros E. unfold has_hdr in Hq. rewrite (apart_null s L h sz q K Ha Hm Hap) in Hq; [done|dlia]. }
    assert (Hq3 : HDRs s3 q = HDRs s q) by (by rewrite D3, decide_False).
    rewrite B6, decide_False, B5, decide_False, B4, B3, B2, decide_False by (try done; by rewrite Hq3).
    unfold hdrb. change (HDRs s1 q) with (HDR t q). change (HDR t q) with (HDRs s1 q). rewrite HD, decide_False by done. by apply HH. }
  destruct (add_block_spec s s6 L h sz r K A Ha H0 ltac:(lia) Hm Hend Hv Hap W6) as (FR & S1 & S2 & EB); try done.
  - by apply C6, C5.
  - by rewrite Bh6.
  - by rewrite Bh6.
  - by rewrite Bh6.
  - rewrite <- Ef6 in FR.
    destruct (free_tail_spec hp6 L h r sz FR) as (hp' & L' & b & E & K' & A' & _ & (KU & CV & PR) & G & EB' & Hb & Hbf & B1' & B2' & _ & _);
      [by rewrite Ef6, D6', decide_True|by rewrite Ef6, Bh6|].
    cbv zeta in E. exists hp', L'. split; [exact E|]. rewrite Ef6 in *. split; try done.
    + intros k Hk Hkf. destruct (S1 k Hk) as [Hk6 Hne]. destruct (KU k Hk6) as [? Eb]; [by rewrite B6' by apply Hk|done|].
      split; [done|]. by rewrite Eb, B6' by apply Hk.
    + by exists b.
    + intros x Hx%CV. destruct Hx as (k & Hk & Hx). destruct (S2 k Hk) as [Hks| ->].
      * left. exists k. split; [done|]. by rewrite <- B6' by apply Hks.
      * right. rewrite Bh6 in Hx. exact Hx.
    + by rewrite EB', EB.
Qed.

(** ** Ranges and sections *)

Lemma low_spec (h sz : Z) :
  h mod 4096 = 0 -> 0 <= h -> 0 < sz -> sz mod 4096 = 0 ->
  loop low_body (h, sz) = Some (if Z.max h 8192 <? h + sz then Some (Z.max h 8192, h + sz - Z.max h 8192) else None).
Proof.
  intros Ha H0 Hs Hm.
  apply (loop_eq (fun y => y.1 mod 4096 = 0 /\ 0 <= y.1 /\ 0 < y.2 /\ y.2 mod 4096 = 0)
    (fun y => if Z.max y.1 8192 <? y.1 + y.2 then Some (Z.max y.1 8192, y.1 + y.2 - Z.max y.1 8192) else None)
    (fun y => Z.max 0 (8192 - y.1)) low_body (h, sz)); [|done|cbn; unfold W64; lia].
  intros [x n] (A1 & A2 & A3 & A4). cbn [fst snd] in *. unfold low_body. change HBLKSIZE with 4096.
  destruct (Z.leb_spec x 4096).
  - assert (Hx : x = 0 \/ x = 4096) by dlia. destruct (Z.eqb_spec (n - 4096) 0).
    + rewrite (proj2 (Z.ltb_ge _ _)); [done|lia].
    + cbn [fst snd]. split; [split_and!; dlia|]. split; [|destruct Hx; lia].
      replace (Z.max (x + 4096) 8192) with (Z.max x 8192) by lia. replace (x + 4096 + (n - 4096)) with (x + n) by lia. done.
  - rewrite (proj2 (Z.ltb_lt _ _)) by dlia. f_equal. f_equal; dlia.
Qed.

Lemma high_spec (h sz : Z) :
  h mod 4096 = 0 -> 0 < h -> 0 < sz -> sz mod 4096 = 0 -> h + sz <= W64 ->
  loop high_body (h, sz) = Some (if h <? Z.min (h + sz) (W64 - 4096) then Some (h, Z.min (h + sz) (W64 - 4096) - h) else None).
Proof.
  intros Ha H0 Hs Hm He.
  apply (loop_eq (fun y => y.1 mod 4096 = 0 /\ 0 < y.1 /\ 0 < y.2 /\ y.2 mod 4096 = 0 /\ y.1 + y.2 <= W64)
    (fun y => if y.1 <? Z.min (y.1 + y.2) (W64 - 4096) then Some (y.1, Z.min (y.1 + y.2) (W64 - 4096) - y.1) else None)
    (fun y => y.2) high_body (h, sz)); [|done|cbn; lia].
  intros [x n] (A1 & A2 & A3 & A4 & A5). cbn [fst snd] in *. unfold high_body. change HBLKSIZE with 4096.
  change GC_WORD_MAX with (W64 - 1). assert (W64 mod 4096 = 0) by done. set (w := W64) in *. clearbody w.
  destruct (Z.leb_spec (w - 1 - n) x).
  - assert (x + n = w) by dlia. destruct (Z.eqb_spec (n - 4096) 0); [rewrite (proj2 (Z.ltb_ge _ _)); [done|lia]|]. cbn [fst snd].
    assert (4096 < n) by (clear - A3 A4 n0; dlia). assert ((n - 4096) mod 4096 = 0) by (clear - A4; dlia).
    split; [split_and!; lia|]. split; [|lia]. replace (Z.min (x + (n - 4096)) (w - 4096)) with (Z.min (x + n) (w - 4096)) by lia. done.
  - assert (x + n <= w - 4096) by dlia. rewrite (proj2 (Z.ltb_lt _ _)) by lia. f_equal. f_equal. lia.
Qed.

(** The usable part of [h, h + sz). *)
Definition use_from (h : Z) : Z := Z.max h 8192.
Definition use_to (h sz : Z) : Z := Z.min (h + sz) (W64 - 4096).

Lemma usable_range_spec (h sz : Z) :
  h mod 4096 = 0 -> 0 <= h -> 0 < sz -> sz mod 4096 = 0 -> h + sz <= W64 ->
  usable_range h sz = Some (if use_from h <? use_to h sz then Some (use_from h, use_to h sz - use_from h) else None).
Proof.
  intros Ha H0 Hs Hm He. unfold usable_range, use_from, use_to. rewrite low_spec by done. rewrite some_bind.
  destruct (Z.ltb_spec (Z.max h 8192) (h + sz)); [|rewrite (proj2 (Z.ltb_ge _ _)); [done|lia]].
  rewrite high_spec; [|dlia|lia|lia|dlia|lia]. replace (Z.max h 8192 + (h + sz - Z.max h 8192)) with (h + sz) by lia. done.
Qed.

(** A state of the heap that goes with the sections. *)
Definition sect_bytes (l : list HeapSect) : Z := foldr (fun x n => hs_bytes x + n) 0 l.

Lemma sect_bytes_app (l1 l2 : list HeapSect) : sect_bytes (l1 ++ l2) = sect_bytes l1 + sect_bytes l2.
Proof. induction l1 as [|x l1 IH]; cbn; [done|]. unfold sect_bytes in *. cbn in *. lia. Qed.

Definition in_sects (l : list HeapSect) (x : Z) : Prop := exists e, e ∈ l /\ hs_start e <= x < hs_start e + hs_bytes e.

(** From [g] to [g'] the sections [new] came into the heap. *)
Record grown g L g' L' (new : list HeapSect) : Prop := {
  gw_ok : heap_ok (fls (gh g')) L';
  gw_listed : all_listed (fls (gh g')) L';
  gw_kept : forall k, starts (fls (gh g)) k -> HBLK_IS_FREE (hdrb (fls (gh g)) k) = false ->
    starts (fls (gh g')) k /\ body (hdrb (fls (gh g')) k) = body (hdrb (fls (gh g)) k);
  gw_cover : forall x, cover (fls (gh g')) x -> cover (fls (gh g)) x \/ in_sects new x;
  gw_bytes : listed_bytes (fls (gh g')) L' = listed_bytes (fls (gh g)) L + sect_bytes new;
  gw_size : GC_heapsize g' = wrap64 (GC_heapsize g + sect_bytes new);
  gw_sects : GC_heap_sects g' = GC_heap_sects g ++ new;
  gw_room : Z.of_nat (length (GC_heap_sects g')) <= GC_capacity_heap_sects g';
  gw_new : forall e, e ∈ new -> HBLKSIZE < hs_start e /\ 0 < hs_bytes e /\ hs_start e + hs_bytes e < GC_WORD_MAX;
  gw_plausible : forall e, e ∈ new ->
    GC_least_plausible_heap_addr g' < hs_start e /\ hs_start e + hs_bytes e <= GC_greatest_plausible_heap_addr g';
  gw_bounds : GC_least_plausible_heap_addr g' <= GC_least_plausible_heap_addr g
    /\ GC_greatest_plausible_heap_addr g <= GC_greatest_plausible_heap_addr g';
  gw_least : 0 < GC_least_plausible_heap_addr g';
  gw_acct : ac g' = ac g /\ gc_no g' = gc_no g
}.

Lemma grown_none g h1 L :
  heap_ok (fls h1) L -> all_listed (fls h1) L -> covers (fls (gh g)) (fls h1) ->
  (forall k, starts (fls (gh g)) k -> starts (fls h1) k /\ hdrb (fls h1) k = hdrb (fls (gh g)) k) ->
  listed_bytes (fls h1) L = listed_bytes (fls (gh g)) L -> prm h1 = prm (gh g) ->
  0 < GC_least_plausible_heap_addr g -> Z.of_nat (length (GC_heap_sects g)) <= GC_capacity_heap_sects g -> 
  0 <= GC_heapsize g < W64 -> grown g L (with_heap h1 g) L [].
Proof.
  intros K A C Hk EB Ep Hl Hr Hz. assert (Hnil : forall e : HeapSect, e ∉ []) by (intros; apply not_elem_of_nil).
  split; cbn; try done.
  - intros k Hks _. destruct (Hk k Hks) as [? ->]. done.
  - intros x Hx. left. by apply C.
  - lia.
  - unfold GC_heapsize. cbn. rewrite Ep, Z.add_0_r. unfold wrap64. by rewrite Z.mod_small.
  - by rewrite app_nil_r.
  - intros e He. by apply Hnil in He.
  - intros e He. by apply Hnil in He.
  - split; [done|]. unfold gc_no. cbn. by rewrite Ep.
Qed.

(** What an addition leaves alone. *)
Definition rest g : OS * Z := (os g, GC_last_heap_growth_gc_no g).

(** A heap with its sections. *)
Record grow_ok g L : Prop := {
  go_heap : heap_ok (fls (gh g)) L;
  go_listed : all_listed (fls (gh g)) L;
  go_least : 0 < GC_least_plausible_heap_addr g;
  go_room : Z.of_nat (length (GC_heap_sects g)) <= GC_capacity_heap_sects g;
  go_size : 0 <= GC_heapsize g < W64
}.

Lemma add_section_spec g L (h sz : Z) :
  grow_ok g L -> Z.of_nat (length (GC_heap_sects g)) < GC_capacity_heap_sects g ->
  h mod 4096 = 0 -> 0 <= h -> 0 < sz < 2 ^ 63 -> sz mod 4096 = 0 -> h + sz <= W64 -> apart (fls (gh g)) h sz ->
  exists b g' L' new, add_section h sz g = Some (b, g') /\ grown g L g' L' new
    /\ (new = [] \/ (new = [Sect (use_from h) (use_to h sz - use_from h)]))
    /\ heap_sects_at g' = heap_sects_at g /\ GC_capacity_heap_sects g' = GC_capacity_heap_sects g
    /\ (b = true -> new <> []) /\ rest g' = rest g
    /\ (new = [] -> use_to h sz <= use_from h \/ exists hp1, on_tbl_res (ht_install_header (use_from h)) (gh g) = Some (NULL, hp1)).
Proof.
  intros [K A Hl Hroom Hz] Hlt Ha H0 Hsz Hm He Hap. unfold add_section.
  rewrite usable_range_spec by lia. rewrite some_bind.
  assert (Hnone : forall h1, heap_ok (fls h1) L -> all_listed (fls h1) L -> covers (fls (gh g)) (fls h1) ->
    (forall k, starts (fls (gh g)) k -> starts (fls h1) k /\ hdrb (fls h1) k = hdrb (fls (gh g)) k) ->
    prm h1 = prm (gh g) -> grown g L (with_heap h1 g) L []).
  { intros h1 K1 A1 C1 Hk1 Ep. apply grown_none; try done. apply listed_bytes_ext. intros i x Hx. f_equal.
    apply Hk1. by eapply listed_start; [apply K|]. }
  destruct (Z.ltb_spec (use_from h) (use_to h sz)) as [Hu|Hu].
  2:{ exists false, g, L, []. split; [done|]. split; [|split; [by left|]; split_and!; try done; by left].
      specialize (Hnone (gh g) K A (covers_refl _) ltac:(done) eq_refl). by destruct g. }
  assert (W64 mod 4096 = 0) by done. assert (Hw : W64 = 2 ^ 64) by done. set (w := W64) in *. 
  set (h' := use_from h) in *. set (sz' := use_to h sz - h') in *.
  assert (Ha' : h' mod 4096 = 0) by (unfold h', use_from; dlia).
  assert (Hm' : sz' mod 4096 = 0) by (unfold sz', use_to; fold w; dlia).
  assert (Hlo : 0 < sz' /\ h <= h' /\ 8192 <= h' /\ h' + sz' <= h + sz /\ h' + sz' <= w - 4096).
  { unfold sz', h', use_from, use_to in *. fold w in Hu |- *. lia. }
  clearbody sz' h'. clear Hu.
  destruct (new_section_spec (gh g) L h' sz' K A) as (r & hp1 & Ei & Hr); try done; try lia.
  { intros k Hk. destruct (Hap k Hk); lia. }
  rewrite Ei, some_bind. destruct Hr as [(-> & K1 & A1 & C1 & Hk1 & Ep)|(Hr & hp' & L' & E & SA)].
  { rewrite Z.eqb_refl. exists false, (with_heap hp1 g), L, []. split; [done|]. split; [by apply Hnone|]. split; [by left|]. split_and!; try done.
    intros _. right. by exists hp1. }
  rewrite (proj2 (Z.eqb_neq r NULL)) by done.
  change (gh (with_sects _ _ _ (with_heap hp1 g))) with hp1. rewrite E, some_bind. destruct SA as [K' A' Hkp _ CV EB EL Ep].
  match goal with |- context [Some (true, ?x)] => exists true, x, L', [Sect h' sz'] end. split; [done|]. split; [|by split; [right|]].
  split; cbn; try done.
  - intros x Hx. destruct (CV x Hx) as [?|?]; [by left|right]. exists (Sect h' sz'). split; [by left|done].
  - rewrite EB. lia.
  - unfold GC_heapsize. cbn. rewrite Ep. f_equal. lia.
  - rewrite length_app. cbn. lia.
  - intros e ->%list_elem_of_singleton. cbn. change HBLKSIZE with 4096. change GC_WORD_MAX with (2 ^ 64 - 1). lia.
  - intros e ->%list_elem_of_singleton. cbn. unfold PTRSZ. split.
    + destruct (Z.leb_spec h' (GC_least_plausible_heap_addr g)), (Z.eqb_spec (GC_least_plausible_heap_addr g) 0); cbn [orb]; lia.
    + destruct (Z.ltb_spec (GC_greatest_plausible_heap_addr g) (h' + sz')); lia.
  - unfold PTRSZ. split.
    + rewrite (proj2 (Z.eqb_neq _ NULL)), orb_false_r by lia. destruct (Z.leb_spec h' (GC_least_plausible_heap_addr g)); lia.
    + destruct (Z.ltb_spec (GC_greatest_plausible_heap_addr g) (h' + sz')); lia.
  - unfold PTRSZ. destruct (Z.leb_spec h' (GC_least_plausible_heap_addr g)), (Z.eqb_spec (GC_least_plausible_heap_addr g) 0); cbn [orb]; lia.
  - split; [done|]. unfold gc_no. cbn. by rewrite Ep.
Qed.

(** The page size is a power of two and a multiple of the block size. *)
Definition page_ok (c : acct) : Prop := exists k, 12 <= k <= 16 /\ page_size c = 2 ^ k.

Lemma page_multiple (c : acct) (x : Z) : page_ok c -> x mod page_size c = 0 -> x mod 4096 = 0.
Proof.
  intros (k & Hk & ->) Hx. apply Z.mod_divide in Hx; [|lia]. destruct Hx as [i ->].
  replace k with (12 + (k - 12)) by lia. rewrite Z.pow_add_r by lia. change (2 ^ 12) with 4096.
  rewrite Z.mul_assoc, (Z.mul_comm i), <- Z.mul_assoc, Z.mul_comm. by apply Z_mod_mult.
Qed.

Lemma page_bounds (c : acct) : page_ok c -> 4096 <= page_size c <= 65536 /\ 65536 mod page_size c = 0.
Proof.
  intros (k & Hk & ->). change 4096 with (2 ^ 12). change 65536 with (2 ^ 16).
  split; [split; apply Z.pow_le_mono_r; lia|]. replace 16 with ((16 - k) + k) by lia. rewrite Z.pow_add_r by lia. apply Z_mod_mult.
Qed.

Lemma recycle_range_spec g (ptr sz : Z) :
  page_ok (ac g) -> 0 < ptr -> 0 <= sz ->
  let r := scratch_recycle_range g ptr sz in
  r.2 <= 0 \/ (ptr <= r.1 /\ r.1 + r.2 <= ptr + sz /\ r.1 mod 4096 = 0 /\ r.2 mod 4096 = 0).
Proof.
  intros Hpg Hp Hs. cbv zeta. unfold scratch_recycle_range. pose proof (page_bounds _ Hpg) as [Hb _].
  pose proof (page_multiple (ac g)) as Hmul. pose proof Hpg as (k & Hk & Ek). set (page := page_size (ac g)) in *.
  assert (El : forall x, Z.land x (page - 1) = x mod page) by (intros x; rewrite Ek; apply land_low_mask; lia).
  assert (Eh : forall x, Z.land x (Z.lnot (page - 1)) = x - x mod page) by (intros x; rewrite Ek; apply land_high_mask; lia).
  rewrite El, Eh. cbv zeta. cbn [fst snd].
  set (displ := if negb (ptr mod page =? 0) then page - ptr mod page else 0).
  assert (Hd : 0 <= displ /\ (ptr + displ) mod page = 0).
  { pose proof (Z.mod_pos_bound ptr page ltac:(lia)). unfold displ. destruct (Z.eqb_spec (ptr mod page) 0); cbn [negb].
    - by rewrite Z.add_0_r.
    - split; [lia|]. rewrite (Z.div_mod ptr page) at 1 by lia.
      replace (page * (ptr / page) + ptr mod page + (page - ptr mod page)) with ((ptr / page + 1) * page) by lia. apply Z_mod_mult. }
  destruct Hd as [Hd1 Hd2]. destruct (Z.ltb_spec displ sz); [right|left; lia].
  pose proof (Z.mod_pos_bound (sz - displ) page ltac:(lia)). split; [lia|]. split; [lia|].
  split; [by apply Hmul|]. apply Hmul; [done|].
  replace (sz - displ - (sz - displ) mod page) with ((sz - displ) / page * page) by (rewrite (Z.div_mod (sz - displ) page) at 2 by lia; lia).
  apply Z_mod_mult.
Qed.

(** Growing the array of sections does not touch the heap. *)
Lemma grow_sects_spec g L :
  grow_ok g L -> GC_capacity_heap_sects g = 0 \/ 32 <= GC_capacity_heap_sects g < 2 ^ 57 ->
  grow_sects g = None \/ exists g1,
    grow_sects g = Some (if Z.of_nat (length (GC_heap_sects g)) =? GC_capacity_heap_sects g
                         then (heap_sects_at g, GC_capacity_heap_sects g) else (NULL, 0), g1)
    /\ grow_ok g1 L /\ Z.of_nat (length (GC_heap_sects g1)) < GC_capacity_heap_sects g1
    /\ (GC_capacity_heap_sects g = Z.of_nat (length (GC_heap_sects g)) ->
          Z.of_nat (length (GC_heap_sects g1)) + 1 < GC_capacity_heap_sects g1)
    /\ grown g L g1 L [] /\ covers (fls (gh g)) (fls (gh g1)) /\ rest g1 = rest g.
Proof.
  intros [K A Hl Hroom Hz] Hcap. unfold grow_sects. set (n := Z.of_nat (length (GC_heap_sects g))) in *.
  assert (Hscr : forall h1 b, heap_ok (fls h1) L -> all_listed (fls h1) L -> 0 < b < 2 ^ 63 ->
    exists r t, on_tbl_res (ht_scratch_alloc b) h1 = Some (r, set_fls (set_tbl t (fls h1)) h1)
      /\ heap_ok (set_tbl t (fls h1)) L /\ all_listed (set_tbl t (fls h1)) L
      /\ (forall k, starts (fls h1) k <-> starts (set_tbl t (fls h1)) k)
      /\ (forall k, starts (fls h1) k -> hdrb (set_tbl t (fls h1)) k = hdrb (fls h1) k)).
  { intros h1 b K1 A1 Hb. destruct (hl_scratch (tbl (fls h1)) b ltac:(apply K1) Hb) as (r & t & Et & W & ST & _).
    exists r, t. split; [by apply on_tbl_res_eq|]. destruct (heap_ok_same_table (fls h1) L t K1 W ST) as (K2 & HD & HB).
    split; [done|]. split; [by eapply all_listed_same|]. split; [intros k; unfold start; by rewrite HD|].
    intros k [_ Hk]. by apply HB. }
  destruct (Z.eqb_spec n (GC_capacity_heap_sects g)) as [En|En].
  2:{ right. exists g. split; [done|]. split; [by split|]. split; [lia|]. split; [lia|]. split; [|split; [apply covers_refl|done]].
      assert (G := grown_none g (gh g) L K A (covers_refl _) ltac:(done) eq_refl eq_refl Hl Hroom Hz). by destruct g. }
  assert (Hn : 0 <= n) by lia.
  destruct (Hscr (gh g) ((if 0 <? n then n * 2 else INITIAL_HEAP_SECTS) * sizeof_HeapSect) K A) as (r & t & -> & K1 & A1 & S1 & B1).
  { unfold sizeof_HeapSect, INITIAL_HEAP_SECTS. destruct (Z.ltb_spec 0 n); lia. }
  rewrite some_bind. set (h1 := set_fls (set_tbl t (fls (gh g))) (gh g)).
  assert (Hfin : forall h2 at_ cap, heap_ok (fls h2) L -> all_listed (fls h2) L -> n + 1 < cap ->
    (forall k, starts (fls (gh g)) k <-> starts (fls h2) k) -> (forall k, starts (fls (gh g)) k -> hdrb (fls h2) k = hdrb (fls (gh g)) k) ->
    prm h2 = prm (gh g) ->
    let g1 := with_sects (GC_heap_sects g) at_ cap (with_heap h2 g) in
    grow_ok g1 L /\ Z.of_nat (length (GC_heap_sects g1)) < GC_capacity_heap_sects g1
    /\ (GC_capacity_heap_sects g = n -> Z.of_nat (length (GC_heap_sects g1)) + 1 < GC_capacity_heap_sects g1)
    /\ grown g L g1 L [] /\ covers (fls (gh g)) (fls (gh g1)) /\ rest g1 = rest g).
  { intros h2 at_ cap K2 A2 Hc S2 B2 Ep g1.
    assert (CV : covers (fls (gh g)) (fls h2)).
    { apply covers_body. intros k Hk%S2. split; [done|]. by rewrite B2. }
    assert (EB : listed_bytes (fls h2) L = listed_bytes (fls (gh g)) L).
    { apply listed_bytes_ext. intros i x Hx. f_equal. apply B2. by eapply listed_start; [apply K|]. }
    assert (G : grown g L (with_heap h2 g) L []).
    { apply grown_none; try done. intros k Hk. split; [by apply S2|by apply B2]. }
    split; [split; try done; [cbn; fold n; lia|unfold GC_heapsize; cbn; by rewrite Ep]|].
    split; [cbn; fold n; lia|]. split; [intros _; cbn; fold n; lia|]. split; [|split; [exact CV|done]].
    destruct G as [? ? ? ? ? ? ? ? ? ? ? ? ?]. split; try done. cbn. fold n. lia. }
  destruct (Z.eqb_spec r NULL) as [->|Hr].
  - destruct (Hscr h1 ((n + INITIAL_HEAP_SECTS) * sizeof_HeapSect) K1 A1) as (r2 & t2 & E2 & K2 & A2 & S2 & B2).
    { unfold sizeof_HeapSect, INITIAL_HEAP_SECTS. lia. }
    change (gh (with_heap h1 g)) with h1. rewrite E2, some_bind. destruct (r2 =? NULL); [by left|right]. rewrite some_bind.
    eexists. split; [done|]. apply Hfin; try done; [unfold INITIAL_HEAP_SECTS; lia|intros k; rewrite S1; exact (S2 k)|].
    intros k Hk. assert (Hk1 : starts (fls h1) k) by (by apply S1). rewrite <- (B1 k Hk). exact (B2 k Hk1).
  - right. rewrite some_bind. eexists. split; [done|]. apply Hfin; try done.
    unfold INITIAL_HEAP_SECTS. destruct (Z.ltb_spec 0 n); lia.
Qed.

Lemma grown_trans g1 L1 g2 L2 g3 L3 (n1 n2 : list HeapSect) :
  grown g1 L1 g2 L2 n1 -> grown g2 L2 g3 L3 n2 -> grown g1 L1 g3 L3 (n1 ++ n2).
Proof.
  intros [A1 A2 A3 A4 A5 A6 A7 A8 A9 A10 [A11 A12] A13 [A14 A15]] [B1 B2 B3 B4 B5 B6 B7 B8 B9 B10 [B11 B12] B13 [B14 B15]].
  split; try done.
  - intros k Hk Hf. destruct (A3 k Hk Hf) as [Hk2 E2]. destruct (B3 k Hk2) as [? E3]; [by rewrite (body_free _ _ E2)|].
    split; [done|]. congruence.
  - intros x Hx. destruct (B4 x Hx) as [Hx2|(e & ? & ?)].
    + destruct (A4 x Hx2) as [?|(e & ? & ?)]; [by left|right]. exists e. split; [|done]. apply elem_of_app. by left.
    + right. exists e. split; [|done]. apply elem_of_app. by right.
  - rewrite B5, A5, sect_bytes_app. lia.
  - rewrite B6, A6, sect_bytes_app. unfold wrap64. rewrite Zplus_mod_idemp_l. f_equal. lia.
  - by rewrite B7, A7, app_assoc.
  - intros e [He|He]%elem_of_app; [by apply A9|by apply B9].
  - intros e [He|He]%elem_of_app; [|by apply B10]. destruct (A10 e He). lia.
  - lia.
  - by rewrite B14, B15.
Qed.

Lemma grown_ok g L g' L' (new : list HeapSect) : grown g L g' L' new -> grow_ok g' L'.
Proof.
  intros [A1 A2 A3 A4 A5 A6 A7 A8 A9 A10 A11 A13 _]. split; try done. rewrite A6. apply Z.mod_pos_bound. done.
Qed.

Lemma apart_grown g L g' L' (new : list HeapSect) (p n : Z) :
  grown g L g' L' new -> 0 < n -> apart (fls (gh g)) p n ->
  (forall e, e ∈ new -> p + n <= hs_start e \/ hs_start e + hs_bytes e <= p) -> apart (fls (gh g')) p n.
Proof.
  intros G Hn Ha He. apply (uncovered_apart _ L'); [apply G|done|]. intros x Hx Hc.
  destruct (gw_cover _ _ _ _ _ G x Hc) as [Hc'|(e & Hin & Hr)]; [by apply (apart_uncovered _ p n Ha x)|].
  destruct (He e Hin); lia.
Qed.

(** The array of sections, which is not part of the heap. *)
Record array_ok g (h sz : Z) : Prop := {
  ar_cap : GC_capacity_heap_sects g = 0 \/ 32 <= GC_capacity_heap_sects g < 2 ^ 57;
  ar_at : 0 < GC_capacity_heap_sects g -> 0 < heap_sects_at g
    /\ heap_sects_at g + GC_capacity_heap_sects g * sizeof_HeapSect <= W64
    /\ apart (fls (gh g)) (heap_sects_at g) (GC_capacity_heap_sects g * sizeof_HeapSect)
    /\ (heap_sects_at g + GC_capacity_heap_sects g * sizeof_HeapSect <= h \/ h + sz <= heap_sects_at g)
}.

(** Why the range [h, h + sz) itself does not become a section: nothing of it is usable,
    or there is no memory for its header. *)
Definition not_added g (h sz : Z) : Prop :=
  use_to h sz <= use_from h
  \/ exists o g1 hp1, grow_sects g = Some (o, g1) /\ on_tbl_res (ht_install_header (use_from h)) (gh g1) = Some (NULL, hp1).
Definition added g (h sz : Z) (new : list HeapSect) : Prop :=
  Sect (use_from h) (use_to h sz - use_from h) ∈ new \/ not_added g h sz.

(** A section that came from the range or from the old array. *)
Definition from_range g (h sz : Z) (e : HeapSect) : Prop :=
  (h <= hs_start e /\ hs_start e + hs_bytes e <= h + sz)
  \/ (heap_sects_at g <= hs_start e
      /\ hs_start e + hs_bytes e <= heap_sects_at g + GC_capacity_heap_sects g * sizeof_HeapSect).

Lemma section_from (h sz : Z) (e : HeapSect) :
  e = Sect (use_from h) (use_to h sz - use_from h) -> 0 < hs_bytes e ->
  h <= hs_start e /\ hs_start e + hs_bytes e <= h + sz.
Proof. intros ->. cbn. unfold use_from, use_to. lia. Qed.

Lemma add_to_heap_spec g L (h sz : Z) :
  grow_ok g L -> page_ok (ac g) -> array_ok g h sz ->
  h mod 4096 = 0 -> 0 <= h -> 0 < sz < 2 ^ 63 -> sz mod 4096 = 0 -> h + sz <= W64 -> apart (fls (gh g)) h sz ->
  grow_sects g = None \/ exists g' L' new, GC_add_to_heap h sz g = Some g' /\ grown g L g' L' new
    /\ Forall (from_range g h sz) new /\ rest g' = rest g /\ added g h sz new
    /\ (Z.of_nat (length (GC_heap_sects g)) <> GC_capacity_heap_sects g -> sect_bytes new <= sz).
Proof.
  intros HG Hpg [Hcap Hat] Ha H0 Hsz Hm He Hap.
  destruct (grow_sects_spec g L HG Hcap) as [?|(g1 & E1 & HG1 & Hlt & Hlt2 & G1 & CV & EO)]; [by left|right].
  unfold GC_add_to_heap. cbn [add_to_heap]. rewrite E1, some_bind.
  assert (Hap1 : forall p n, 0 < n -> apart (fls (gh g)) p n -> apart (fls (gh g1)) p n).
  { intros p n Hn Hpn. apply (apart_grown g L g1 L []); try done. intros e He'. by apply not_elem_of_nil in He'. }
  destruct (add_section_spec g1 L h sz HG1 Hlt Ha H0 Hsz Hm He (Hap1 h sz ltac:(lia) Hap))
    as (b & g2 & L2 & new & E2 & G2 & Hnew & Eat & Ecap & Hb & EO2 & Hno).
  assert (G12 := grown_trans _ _ _ _ _ _ _ _ G1 G2). cbn [app] in G12.
  assert (F2 : Forall (from_range g h sz) new).
  { destruct Hnew as [->|Hn]; [constructor|]. apply Forall_forall. intros e Hin. left.
    destruct (gw_new _ _ _ _ _ G2 e Hin) as (_ & Hpos & _). apply section_from; [|done].
    rewrite Hn in Hin. by apply list_elem_of_singleton in Hin. }
  set (c := Z.of_nat (length (GC_heap_sects g)) =? GC_capacity_heap_sects g) in *.
  assert (Hadd : added g h sz new).
  { destruct Hnew as [->| ->]; [right|left; by left]. destruct (Hno eq_refl) as [?|[hp1 Ei]]; [by left|right]. by eexists _, g1, hp1. }
  assert (Hstop : exists g' L' new0, Some g2 = Some g' /\ grown g L g' L' new0 /\ Forall (from_range g h sz) new0 /\ rest g' = rest g
    /\ added g h sz new0 /\ (Z.of_nat (length (GC_heap_sects g)) <> GC_capacity_heap_sects g -> sect_bytes new0 <= sz)).
  { exists g2, L2, new. split; [done|]. split; [done|]. split; [done|]. split; [by rewrite EO2|]. split; [done|]. intros _.
    destruct Hnew as [->|Hn]; [unfold sect_bytes; cbn; lia|].
    destruct (gw_new _ _ _ _ _ G2 (Sect (use_from h) (use_to h sz - use_from h))) as (_ & Hpos & _); [rewrite Hn; by left|].
    destruct (section_from h sz _ eq_refl Hpos) as [? ?]. rewrite Hn. unfold sect_bytes. cbn in *. lia. }
  destruct c eqn:Ec; rewrite E2, some_bind; [|by rewrite andb_false_r].
  destruct b; cbn [andb]; [|exact Hstop].
  destruct (Z.ltb_spec 0 (GC_capacity_heap_sects g)) as [Hc0|]; cbn [andb]; [|exact Hstop].
  destruct (Hat Hc0) as (At1 & At2 & At3 & At4). rewrite (proj2 (Z.eqb_neq (heap_sects_at g) NULL)) by lia. cbn [negb].
  set (n0 := GC_capacity_heap_sects g * sizeof_HeapSect) in *.
  assert (Hpg2 : page_ok (ac g2)) by (by rewrite (proj1 (gw_acct _ _ _ _ _ G12))).
  assert (Hn0 : 0 < n0 < 2 ^ 63) by (unfold n0, sizeof_HeapSect; lia).
  pose proof (recycle_range_spec g2 (heap_sects_at g) n0 Hpg2 At1 ltac:(lia)) as Hr. cbv zeta in Hr.
  destruct (scratch_recycle_range g2 (heap_sects_at g) n0) as [p n]. cbn [fst snd] in Hr.
  destruct (Z.ltb_spec 0 n) as [Hn|]; [|exact Hstop]. destruct Hr as [?|(R1 & R2 & R3 & R4)]; [lia|].
  assert (HG2 := grown_ok _ _ _ _ _ G12).
  assert (Hroom2 : Z.of_nat (length (GC_heap_sects g2)) < GC_capacity_heap_sects g2).
  { rewrite (gw_sects _ _ _ _ _ G2), length_app, Ecap.
    assert (Z.of_nat (length (GC_heap_sects g1)) + 1 < GC_capacity_heap_sects g1) by (apply Hlt2; unfold c in Ec; lia).
    assert (length new <= 1)%nat by (destruct Hnew as [->| ->]; cbn; lia). lia. }
  assert (Hapn : apart (fls (gh g2)) p n).
  { apply (apart_grown g L g2 L2 new); try done.
    - intros k Hk. destruct (At3 k Hk); lia.
    - intros e Hin. rewrite Forall_forall in F2. destruct Hnew as [->|Hn']; [by apply not_elem_of_nil in Hin|].
      destruct (gw_new _ _ _ _ _ G2 e Hin) as (_ & Hpos & _). rewrite Hn' in Hin. apply list_elem_of_singleton in Hin.
      destruct (section_from h sz e Hin Hpos). lia. }
  cbn [add_to_heap]. unfold grow_sects. rewrite (proj2 (Z.eqb_neq (Z.of_nat (length (GC_heap_sects g2))) _)) by lia. rewrite some_bind.
  destruct (add_section_spec g2 L2 p n HG2 Hroom2 R3 ltac:(lia) ltac:(lia) R4 ltac:(lia) Hapn)
    as (b3 & g3 & L3 & new3 & E3 & G3 & Hnew3 & _ & _ & _ & EO3 & _). rewrite E3, some_bind. rewrite andb_false_r. cbn [andb].
  exists g3, L3, (new ++ new3). split; [done|]. split; [by eapply grown_trans|]. split; [|split; [by rewrite EO3, EO2|split; [|intros Hne; unfold c in Ec; lia]]].
  2:{ destruct Hadd; [left; apply elem_of_app; by left|by right]. }
  apply Forall_app. split; [done|]. destruct Hnew3 as [->|Hn3]; [constructor|]. apply Forall_forall. intros e Hin. right.
  destruct (gw_new _ _ _ _ _ G3 e Hin) as (_ & Hpos & _). rewrite Hn3 in Hin. apply list_elem_of_singleton in Hin.
  destruct (section_from p n e Hin Hpos). fold n0. lia.
Qed.

(** ** Expansion *)

Lemma grow_sects_heap g g1 :
  gh g1 = gh g -> GC_heap_sects g1 = GC_heap_sects g -> GC_capacity_heap_sects g1 = GC_capacity_heap_sects g ->
  option_map (fun r => gh r.2) (grow_sects g1) = option_map (fun r => gh r.2) (grow_sects g).
Proof.
  intros Eh El Ec. unfold grow_sects. rewrite Eh, El, Ec. destruct (_ =? GC_capacity_heap_sects g); [|cbn; by rewrite Eh].
  destruct (on_tbl_res _ (gh g)) as [[r h]|]; [|done]. rewrite !some_bind. cbn [gh with_heap].
  destruct (r =? NULL); [|by rewrite !some_bind]. destruct (on_tbl_res _ h) as [[r2 h2]|]; [|done]. rewrite !some_bind.
  destruct (r2 =? NULL); [done|]. by rewrite !some_bind.
Qed.

Lemma added_heap g g1 (h sz : Z) (new : list HeapSect) :
  option_map (fun r => gh r.2) (grow_sects g1) = option_map (fun r => gh r.2) (grow_sects g) -> added g1 h sz new -> added g h sz new.
Proof.
  intros E [?|[?|(o & g2 & hp1 & E1 & Ei)]]; [by left|right; by left|right; right]. rewrite E1 in E.
  destruct (grow_sects g) as [[o' g2']|]; [|done]. injection E as E. exists o', g2', hp1. split; [done|]. by rewrite <- E.
Qed.

(** Wider limits make no difference to what an addition gives. *)
Lemma grown_limits g g1 L g' L' (new : list HeapSect) :
  gh g1 = gh g -> GC_heap_sects g1 = GC_heap_sects g -> ac g1 = ac g ->
  GC_least_plausible_heap_addr g1 <= GC_least_plausible_heap_addr g ->
  GC_greatest_plausible_heap_addr g <= GC_greatest_plausible_heap_addr g1 ->
  grown g1 L g' L' new -> grown g L g' L' new.
Proof.
  intros Eh El Ea Hl Hg [A1 A2 A3 A4 A5 A6 A7 A8 A9 A10 [A11 A12] A13 [A14 A15]]. unfold GC_heapsize, gc_no in *. rewrite Eh in *.
  split; try done; [by rewrite <- El|lia|by rewrite A14, Ea].
Qed.

Lemma adjust_limits_spec (space sz : Z) g :
  0 < GC_least_plausible_heap_addr g -> 0 < space < W64 -> 0 < sz ->
  let g1 := adjust_limits space sz g in
  gh g1 = gh g /\ GC_heap_sects g1 = GC_heap_sects g /\ heap_sects_at g1 = heap_sects_at g
  /\ GC_capacity_heap_sects g1 = GC_capacity_heap_sects g /\ ac g1 = ac g /\ os g1 = os g
  /\ GC_last_heap_growth_gc_no g1 = GC_last_heap_growth_gc_no g
  /\ 0 < GC_least_plausible_heap_addr g1 <= GC_least_plausible_heap_addr g
  /\ GC_greatest_plausible_heap_addr g <= GC_greatest_plausible_heap_addr g1.
Proof.
  intros Hl Hs Hz. cbv zeta. unfold adjust_limits.
  set (slop := wrap64 (min_bytes_allocd _ _ + _)). clearbody slop.
  destruct (_ || _).
  - destruct (space <? _); [|by split_and!]. cbn. split_and!; try done; try lia.
    match goal with |- context [if ?a <? ?b then _ else _] => destruct (Z.ltb_spec a b); lia end.
  - destruct (Z.ltb_spec (wrap64 (slop + PTRSZ)) space) as [Hlt|]; [|by split_and!]. cbn.
    assert (En : wrap64 (space - slop - PTRSZ) = space - wrap64 (slop + PTRSZ)).
    { unfold wrap64, W64 in *. pose proof (Z.mod_pos_bound (slop + PTRSZ) (2 ^ 64) ltac:(lia)).
      replace (space - slop - PTRSZ) with (space - (slop + PTRSZ)) by lia.
      rewrite Zminus_mod, (Z.mod_small space) by lia. apply Z.mod_small. lia. }
    rewrite En. split_and!; try done; try lia;
      match goal with |- context [if ?a <? ?b then _ else _] => destruct (Z.ltb_spec a b); lia end.
Qed.

(** What the system promises for a request of [bytes] bytes. *)
Definition grants_fresh (GET_MEM : Z -> OS -> Z * OS) g (bytes : Z) : Prop :=
  let r := (GET_MEM bytes (os g)).1 in
  r <> NULL -> 0 < r < W64 /\ r mod 4096 = 0 /\ r + bytes <= W64 /\ apart (fls (gh g)) r bytes /\ array_ok g r bytes.

(** The bytes an expansion by [n] blocks asks for. *)
Definition request g (n : Z) : Z := ROUNDUP_PAGESIZE g (wrap64 ((if n =? 0 then 1 else n) * HBLKSIZE)).

Lemma request_spec g (n : Z) :
  page_ok (ac g) -> 0 <= n < 2 ^ 50 ->
  Z.max n 1 * 4096 <= request g n < Z.max n 1 * 4096 + 65536 /\ request g n mod 4096 = 0.
Proof.
  intros Hpg Hn. pose proof (page_bounds _ Hpg) as [Hb _]. pose proof (page_multiple (ac g)) as Hmul.
  assert (Em : Z.max n 1 * 4096 = (if n =? 0 then 1 else n) * HBLKSIZE) by (change HBLKSIZE with 4096; destruct (Z.eqb_spec n 0); lia).
  unfold request, ROUNDUP_PAGESIZE, wrap64. rewrite <- Em, (Z.mod_small (Z.max n 1 * 4096)) by (unfold W64; lia).
  pose proof Hpg as (k & Hk & Ek). destruct (round_up_pow2 (Z.max n 1 * 4096) k) as [Hr Hm]; [lia| |].
  { rewrite <- Ek. unfold GC_SIZE_MAX. lia. }
  rewrite <- Ek in Hr, Hm. split; [lia|]. by apply Hmul.
Qed.

Lemma expand_spec (GET_MEM : Z -> OS -> Z * OS) g L (n : Z) :
  grow_ok g L -> page_ok (ac g) -> 0 <= n < 2 ^ 50 -> 0 <= GC_max_heapsize (ac g) < W64 ->
  grants_fresh GET_MEM g (request g n) ->
  grow_sects g = None \/ exists b g', GC_expand_hp_inner GET_MEM n g = Some (b, g')
    /\ if (b : bool) then
         exists L' new, grown g L g' L' new /\ Forall (from_range g (GET_MEM (request g n) (os g)).1 (request g n)) new
           /\ added g (GET_MEM (request g n) (os g)).1 (request g n) new
           /\ GC_last_heap_growth_gc_no g' = gc_no g
           /\ (GC_max_heapsize (ac g) <> 0 -> Z.of_nat (length (GC_heap_sects g)) <> GC_capacity_heap_sects g ->
                 GC_heapsize g' <= GC_max_heapsize (ac g))
       else gh g' = gh g /\ GC_heap_sects g' = GC_heap_sects g
         /\ ((GC_max_heapsize (ac g) <> 0 /\ GC_max_heapsize (ac g) < GC_heapsize g + request g n)
             \/ (GET_MEM (request g n) (os g)).1 = NULL).
Proof.
  intros HG Hpg Hn Hmax Hsys. destruct (request_spec g n Hpg Hn) as [Hr Hm]. unfold GC_expand_hp_inner. fold (request g n).
  set (sz := request g n) in *. set (max := GC_max_heapsize (ac g)) in *. pose proof (go_size _ _ HG) as Hz.
  destruct (negb (max =? 0) && ((max <? sz) || (max - sz <? GC_heapsize g))) eqn:Elim.
  { right. exists false, g. split; [done|]. split; [done|]. split; [done|]. left.
    apply andb_true_iff in Elim as [Em Eo]. apply negb_true_iff, Z.eqb_neq in Em. apply orb_true_iff in Eo. rewrite !Z.ltb_lt in Eo. lia. }
  unfold grants_fresh in Hsys. unfold GC_os_get_mem. destruct (GET_MEM sz (os g)) as [space o]. cbn [fst] in *.
  destruct (Z.eqb_spec space NULL) as [->|Hs].
  { rewrite Z.eqb_refl. right. eexists false, _. split; [done|]. split; [done|]. split; [done|]. by right. }
  destruct (Hsys Hs) as (S1 & S2 & S3 & S4 & [S5 S6]). rewrite (proj2 (Z.eqb_neq space NULL)) by done.
  set (g1 := with_os _ _ g). set (g2 := with_growth_no (gc_no g1) g1).
  pose proof (adjust_limits_spec space sz g2 (go_least _ _ HG) S1 ltac:(lia)) as HA. cbv zeta in HA.
  destruct HA as (B1 & B2 & B3 & B4 & B5 & B6 & B7 & B8 & B9).
  set (g3 := with_last_addr space (adjust_limits space sz g2)).
  assert (HG3 : grow_ok g3 L).
  { destruct HG as [K A Hl Hroom _]. split; unfold GC_heapsize, g3; cbn [gh with_last_addr GC_least_plausible_heap_addr GC_heap_sects GC_capacity_heap_sects];
      rewrite ?B1, ?B2, ?B4; try done. apply B8. }
  assert (Har3 : array_ok g3 space sz).
  { split; unfold g3; cbn [gh with_last_addr heap_sects_at GC_capacity_heap_sects]; rewrite ?B1, ?B3, ?B4; done. }
  assert (Hgs := grow_sects_heap g g3 ltac:(unfold g3; cbn [gh with_last_addr]; by rewrite B1)
    ltac:(unfold g3; cbn [GC_heap_sects with_last_addr]; by rewrite B2) ltac:(unfold g3; cbn [GC_capacity_heap_sects with_last_addr]; by rewrite B4)).
  destruct (add_to_heap_spec g3 L space sz HG3) as [Hnone|(g' & L' & new & E & G & F & Hrest & Hadd & Hby)]; try done; try lia.
  { change (ac g3) with (ac (adjust_limits space sz g2)). by rewrite B5. }
  { change (gh g3) with (gh (adjust_limits space sz g2)). by rewrite B1. }
  { left. rewrite Hnone in Hgs. by destruct (grow_sects g). }
  right. rewrite E, some_bind. exists true, g'. split; [done|]. exists L', new.
  assert (G' : grown g L g' L' new) by (apply (grown_limits g g3); try done; apply B8).
  split; [done|]. split.
  { eapply Forall_impl; [exact F|]. intros e He. unfold from_range in *. unfold g3 in He.
    cbn [with_last_addr heap_sects_at GC_capacity_heap_sects] in He. by rewrite B3, B4 in He. }
  split; [by apply (added_heap g g3)|]. split.
  - change (GC_last_heap_growth_gc_no g') with (rest g').2. rewrite Hrest. cbn. by rewrite B7.
  - intros Hm0 Hne. rewrite (gw_size _ _ _ _ _ G'). apply andb_false_iff in Elim as [Em|Eo].
    { apply negb_false_iff, Z.eqb_eq in Em. done. }
    apply orb_false_iff in Eo as [Eo1 Eo2]. apply Z.ltb_ge in Eo1, Eo2.
    assert (sect_bytes new <= sz). { apply Hby. unfold g3. cbn [with_last_addr GC_heap_sects GC_capacity_heap_sects]. by rewrite B2, B4. }
    assert (0 <= sect_bytes new).
    { clear - G'. pose proof (gw_new _ _ _ _ _ G') as Hnw. clear G'. induction new as [|e l IH]; [done|]. unfold sect_bytes in *. cbn.
      destruct (Hnw e) as (_ & ? & _); [by left|]. specialize (IH ltac:(intros e' He'; apply Hnw; by right)). lia. }
    unfold wrap64. rewrite Z.mod_small by lia. lia.
Qed.

(** ** How much to ask for *)

Lemma blocks_spec g (needed flags : Z) :
  1 <= needed < 2 ^ 49 -> 0 <= GC_heapsize g < W64 -> 0 <= GC_heapsize_at_forced_unmap (ac g) <= GC_heapsize g ->
  1 <= GC_free_space_divisor (ac g) < 2 ^ 52 -> 0 <= GC_max_heapsize (ac g) < W64 ->
  0 <= BlackList.GC_black_list_spacing (bls (gh g)) < W64 ->
  let n := blocks_to_get needed flags g in
  needed <= n < 2 ^ 50 /\ (MINHINCR <= n \/ GC_heapsize g < GC_max_heapsize (ac g))
  /\ n <= Z.max (Z.max (2 * needed) (needed + 4)) MAXHINCR
  /\ (GC_heapsize g < GC_max_heapsize (ac g) -> n <= Z.max needed ((GC_max_heapsize (ac g) - GC_heapsize g) / 4096)).
Proof.
  intros Hn Hz Hu Hd Hmx Hbl. cbv zeta. unfold blocks_to_get.
  set (hs := GC_heapsize g) in *. set (mx := GC_max_heapsize (ac g)) in *. set (d := GC_free_space_divisor (ac g)) in *.
  set (sp := BlackList.GC_black_list_spacing (bls (gh g))) in *. set (u := GC_heapsize_at_forced_unmap (ac g)) in *.
  rewrite !divHBLKSZ_div. change HBLKSIZE with 4096. change MAXHINCR with 2048. change MINHINCR with 16.
  assert (E0 : wrap64 (hs - u) = hs - u) by (unfold wrap64; apply Z.mod_small; lia).
  assert (E1 : wrap64 (4096 * d) = 4096 * d) by (unfold wrap64, W64; apply Z.mod_small; lia).
  rewrite E0, E1. set (q := (hs - u) / (4096 * d)).
  assert (Hq : 0 <= q < 2 ^ 52).
  { unfold q. split; [apply Z.div_pos; lia|]. apply Z.div_lt_upper_bound; [lia|]. unfold W64 in *. nia. }
  assert (E2 : wrap64 (q + needed) = q + needed) by (unfold wrap64, W64; apply Z.mod_small; lia). rewrite E2.
  set (slop := if flag_set flags IGNORE_OFF_PAGE then 4 else if needed <? 2 * (sp / 4096) then needed else 2 * (sp / 4096)).
  assert (Hsl : 0 <= slop <= Z.max needed 4).
  { unfold slop. destruct (flag_set flags IGNORE_OFF_PAGE); [lia|].
    destruct (Z.ltb_spec needed (2 * (sp / 4096))); [lia|]. split; [|lia]. pose proof (Z.div_pos sp 4096). lia. }
  assert (E3 : wrap64 (needed + slop) = needed + slop) by (unfold wrap64, W64; apply Z.mod_small; lia). rewrite E3.
  change (GC_WORD_MAX / 4096) with (2 ^ 52 - 1).
  set (n1 := if 2048 <? q + needed then _ else _).
  assert (H1 : needed <= n1 < 2 ^ 50 /\ 16 <= n1 /\ n1 <= Z.max (Z.max (2 * needed) (needed + 4)) 2048).
  { unfold n1. clearbody slop q. destruct (Z.ltb_spec 2048 (q + needed)).
    - destruct (Z.ltb_spec 2048 (needed + slop)); [|change (2 ^ 52 - 1 <? 2048) with false; lia].
      destruct (Z.ltb_spec (2 ^ 52 - 1) (needed + slop)); lia.
    - destruct (Z.ltb_spec (q + needed) 16); lia. }
  clearbody n1. destruct (Z.ltb_spec hs mx) as [Hlt|Hge]; [|split_and!; lia].
  destruct (Z.ltb_spec ((mx - hs) / 4096) n1); [destruct (Z.ltb_spec needed ((mx - hs) / 4096))|]; split_and!; lia.
Qed.

(** The bytes counted towards the next collection: with counters below [2^60],
    nothing overflows, at least an eighth of the allocated bytes count, and at most
    all of them and those of finalized objects. *)
Lemma adj_spec (dropped ff : Z) (c : acct) :
  0 <= bytes_allocd c < 2 ^ 60 -> 0 <= dropped < 2 ^ 60 -> 0 <= bytes_freed c < 2 ^ 60 -> 0 <= ff < 2 ^ 60 ->
  0 <= non_gc_bytes c < 2 ^ 60 -> 0 <= non_gc_bytes_at_gc c < 2 ^ 60 -> 0 <= bytes_finalized c < 2 ^ 60 ->
  GC_adj_bytes_allocd dropped ff c
    = Some (Z.max (Z.min (bytes_allocd c)
                     (bytes_allocd c + dropped - bytes_freed c + ff - (non_gc_bytes c - non_gc_bytes_at_gc c))
                   + bytes_finalized c) (bytes_allocd c / 8)).
Proof.
  intros H1 H2 H3 H4 H5 H6 H7. unfold GC_adj_bytes_allocd.
  assert (Es : forall x, 0 <= x < 2 ^ 60 -> signed x = x).
  { intros x Hx. unfold signed. by rewrite (proj2 (Z.ltb_lt x SIGN_BIT)) by (unfold SIGN_BIT; lia). }
  assert (Ec : forall x, - 2 ^ 63 <= x < 2 ^ 63 -> checked x = Some x).
  { intros x Hx. unfold checked, SIGN_BIT. by rewrite (proj2 (Z.leb_le _ _)), (proj2 (Z.ltb_lt _ _)) by lia. }
  rewrite !Z.shiftr_div_pow2 by lia. change (2 ^ 3) with 8. rewrite !Es by first [done | dlia].
  rewrite (Ec (non_gc_bytes c - non_gc_bytes_at_gc c)), some_bind by lia. do 4 (rewrite Ec by lia; rewrite some_bind). cbv zeta.
  set (a := bytes_allocd c) in *. set (r := a + dropped - bytes_freed c + ff - (non_gc_bytes c - non_gc_bytes_at_gc c)) in *.
  assert (Em : (if a <? r then a else r) = Z.min a r) by (destruct (Z.ltb_spec a r); lia). rewrite Em.
  rewrite Ec by (unfold r; lia). rewrite some_bind. f_equal.
  assert (Ef : (if Z.min a r + bytes_finalized c <? a / 8 then a / 8 else Z.min a r + bytes_finalized c)
    = Z.max (Z.min a r + bytes_finalized c) (a / 8)) by (destruct (Z.ltb_spec (Z.min a r + bytes_finalized c) (a / 8)); lia).
  rewrite Ef. unfold wrap64, W64. apply Z.mod_small. dlia.
Qed.

(** The threshold for a collection is positive. *)
Lemma min_bytes_pos (inc : bool) (c : acct) : 0 < min_bytes_allocd_minimum c -> 0 < min_bytes_allocd inc c.
Proof. intros Hm. unfold min_bytes_allocd. match goal with |- context [if ?x <? ?y then _ else _] => destruct (Z.ltb_spec x y); lia end. Qed.

(** ** Theorems *)

(** C7: adding memory to the heap either aborts because there is no memory for the table of sections, or
    keeps the heap invariant: the usable part of the range, and of the old table when it
    was replaced, becomes listed free blocks and is recorded as sections within the
    plausible heap bounds (the range is left out only if nothing of it is usable or no header can be
    allocated); nothing else comes into the heap, blocks in use stay, and
    heap size and free bytes grow by exactly the new sections. *)
Theorem GC_add_to_heap_correct g L (h sz : Z)
    (HG : grow_ok g L) (Hpg : page_ok (ac g)) (Har : array_ok g h sz) (Ha : h mod 4096 = 0) (H0 : 0 <= h) (Hsz : 0 < sz < 2 ^ 63)
    (Hm : sz mod 4096 = 0) (He : h + sz <= W64) (Hap : apart (fls (gh g)) h sz) :
  grow_sects g = None \/ exists g' L' new, GC_add_to_heap h sz g = Some g' /\ grown g L g' L' new
    /\ Forall (from_range g h sz) new /\ added g h sz new.
Proof.
  destruct (add_to_heap_spec g L h sz HG Hpg Har Ha H0 Hsz Hm He Hap) as [?|(g' & L' & new & E & G & F & _ & A & _)]; [by left|].
  right. by exists g', L', new.
Qed.

(** C8: expanding the heap by [n] blocks asks the system for at least that much, and for less
    than a large page more.  It fails, with heap and sections untouched, only if the
    limit of the client would be exceeded or the system refuses; otherwise the memory
    comes into the heap as [GC_add_to_heap] says, and the heap stays within the limit
    unless the table of sections was replaced and recycled. *)
Theorem GC_expand_hp_inner_correct (GET_MEM : Z -> OS -> Z * OS) g L (n : Z)
    (HG : grow_ok g L) (Hpg : page_ok (ac g)) (Hn : 0 <= n < 2 ^ 50) (Hmax : 0 <= GC_max_heapsize (ac g) < W64)
    (Hsys : grants_fresh GET_MEM g (request g n)) :
  (Z.max n 1 * 4096 <= request g n < Z.max n 1 * 4096 + 65536)
  /\ (grow_sects g = None \/ exists b g', GC_expand_hp_inner GET_MEM n g = Some (b, g')
    /\ if (b : bool) then
         exists L' new, grown g L g' L' new /\ Forall (from_range g (GET_MEM (request g n) (os g)).1 (request g n)) new
           /\ added g (GET_MEM (request g n) (os g)).1 (request g n) new
           /\ GC_last_heap_growth_gc_no g' = gc_no g
           /\ (GC_max_heapsize (ac g) <> 0 -> Z.of_nat (length (GC_heap_sects g)) <> GC_capacity_heap_sects g ->
                 GC_heapsize g' <= GC_max_heapsize (ac g))
       else gh g' = gh g /\ GC_heap_sects g' = GC_heap_sects g
         /\ ((GC_max_heapsize (ac g) <> 0 /\ GC_max_heapsize (ac g) < GC_heapsize g + request g n)
             \/ (GET_MEM (request g n) (os g)).1 = NULL)).
Proof. split; [by apply request_spec|]. by apply expand_spec. Qed.

(** C39: the number of blocks [GC_collect_or_expand] asks for covers the request, is
    bounded by twice the request or the usual increment, respects what the limit of the client leaves
    unless the request itself needs more, and does not overflow when it is
    converted to bytes. *)
Theorem blocks_to_get_correct g (needed flags : Z)
    (Hn : 1 <= needed < 2 ^ 49) (Hz : 0 <= GC_heapsize g < W64) (Hu : 0 <= GC_heapsize_at_forced_unmap (ac g) <= GC_heapsize g)
    (Hd : 1 <= GC_free_space_divisor (ac g) < 2 ^ 52) (Hmx : 0 <= GC_max_heapsize (ac g) < W64)
    (Hbl : 0 <= BlackList.GC_black_list_spacing (bls (gh g)) < W64) :
  let n := blocks_to_get needed flags g in
  needed <= n < 2 ^ 50 /\ (MINHINCR <= n \/ GC_heapsize g < GC_max_heapsize (ac g))
  /\ n <= Z.max (Z.max (2 * needed) (needed + 4)) MAXHINCR
  /\ (GC_heapsize g < GC_max_heapsize (ac g) -> n <= Z.max needed ((GC_max_heapsize (ac g) - GC_heapsize g) / 4096)).
Proof. by apply blocks_spec. Qed.
End Ok.

(** ** Witnesses *)

Definition sample_acct : acct := Acct 100000 0 0 0 0 0 8192 4096 500000 200000 3 1000 3 10000 false false 4000000 3 6 0 4096.
Definition sample_grow (s : fl_state hdr_state) : grow hdr_state unit :=
  Grow (sample_heap_of s) sample_acct tt [Sect 1048576 16384] 4194304 32 1048568 1064960 1048576 0 0 false 0 0 0 0.

Lemma sample_apart (s : fl_state hdr_state) (p n : Z) :
  hdrb s 1048576 = HeadersNav.sample_hdr -> (forall h, start (HDRs s) h -> h = 1048576) -> 1064960 <= p -> apart s p n.
Proof. intros Hb Ho Hp k ->%Ho. rewrite Hb. change (extent HeadersNav.sample_hdr) with 16384. lia. Qed.

Lemma sample_grow_ok (s : fl_state hdr_state) :
  heap_ok s (fun _ => []) -> all_listed s (fun _ => []) -> grow_ok (sample_grow s) (fun _ => []).
Proof.
  intros K A. split; [exact K|exact A|cbn; lia|cbn; lia|].
  change (GC_heapsize (sample_grow s)) with 1000000. unfold W64. lia.
Qed.

Lemma sample_array (s : fl_state hdr_state) :
  hdrb s 1048576 = HeadersNav.sample_hdr -> (forall h, start (HDRs s) h -> h = 1048576) -> array_ok (sample_grow s) 2097152 65536.
Proof.
  intros Hb Ho. split; [right; cbn; lia|]. intros _. cbn [heap_sects_at GC_capacity_heap_sects sample_grow]. unfold sizeof_HeapSect, W64.
  split; [lia|]. split; [lia|]. split; [apply sample_apart; [exact Hb|exact Ho|lia]|right; lia].
Qed.

Lemma sample_page : page_ok sample_acct.
Proof. exists 12. split; [lia|reflexivity]. Qed.

Lemma GC_add_to_heap_correct_witness :
  exists s g' L' new, GC_add_to_heap 2097152 65536 (sample_grow s) = Some g'
    /\ grown (sample_grow s) (fun _ => []) g' L' new /\ Forall (from_range (sample_grow s) 2097152 65536) new
    /\ added (sample_grow s) 2097152 65536 new.
Proof.
  destruct sample_heap as (s & K & A & Hs & Hb & Ho). exists s.
  destruct (GC_add_to_heap_correct (sample_grow s) (fun _ => []) 2097152 65536 (sample_grow_ok s K A) sample_page
    (sample_array s Hb Ho) eq_refl ltac:(lia) ltac:(lia) eq_refl ltac:(unfold W64; lia) (sample_apart s 2097152 65536 Hb Ho ltac:(lia))) as [E|E].
  - discriminate E.
  - exact E.
Defined.

Lemma GC_expand_hp_inner_correct_witness :
  exists s g', GC_expand_hp_inner (fun _ o => (2097152, o)) 16 (sample_grow s) = Some (true, g') /\ GC_heapsize g' <= 4000000
    /\ GC_last_heap_growth_gc_no g' = 7.
Proof.
  destruct sample_heap as (s & K & A & Hs & Hb & Ho). exists s.
  destruct (GC_expand_hp_inner_correct (fun _ o => (2097152, o)) (sample_grow s) (fun _ => []) 16 (sample_grow_ok s K A) sample_page ltac:(lia)
    ltac:(cbn; unfold W64; lia)) as [_ [E|(b & g' & E & R)]].
  - change (request (sample_grow s) 16) with 65536. intros _. cbn [fst]. unfold W64. split; [lia|]. split; [reflexivity|]. split; [lia|].
    split; [exact (sample_apart s 2097152 65536 Hb Ho ltac:(lia))|exact (sample_array s Hb Ho)].
  - discriminate E.
  - destruct b.
    + destruct R as (L' & new & _ & _ & _ & Hno & Hmx). exists g'. split; [exact E|].
      split; [apply Hmx; cbn; lia|exact Hno].
    + destruct R as (_ & _ & [[_ Hlt]|Hn]); [|discriminate Hn].
      change (4000000 < 1000000 + 65536) in Hlt. lia.
Defined.

Lemma blocks_to_get_correct_witness :
  exists s : fl_state hdr_state, 20 <= blocks_to_get 20 0 (sample_grow s) <= 732.
Proof.
  destruct sample_heap as (s & _). exists s.
  destruct (blocks_to_get_correct (sample_grow s) 20 0 ltac:(lia)) as (H1 & _ & _ & H4);
    [unfold W64; cbn; lia|cbn; lia|cbn; lia|unfold W64; cbn; lia|unfold W64; cbn; lia|].
  split; [apply H1|].
  assert (H5 := H4 ltac:(cbn; lia)). change (Z.max 20 ((4000000 - 1000000) / 4096)) with 732 in H5. exact H5.
Defined.

End HeapGrowOk.
