(* ===== verification/Cord.v ===== *)
(** * Cord: the representation of cords and the basic operations

    Models [cord/cordbscs.c] without the position primitives: the node types, the
    [LEN]/[DEPTH]/[LEFT_LEN] macros, concatenation, function nodes, substrings,
    the iterators, and the forest that [CORD_balance] builds.

    A cord is a pointer that is [NULL], or points to a C string, or to a node
    whose first byte is NUL.  A [char] is its byte value (0..255), a C buffer the
    list of the bytes from the pointer to the end of the object.  [None] stands
    for every way the C code can fail: [abort], a [NULL] dereference, an access
    out of bounds or a read of an indeterminate value.  Allocation is taken to
    succeed, so the [OUT_OF_MEMORY] branches are not taken.  [size_t] arithmetic
    wraps at 64 bits. *)

From Stdlib Require Import ZArith Lia.
From stdpp Require Import base gmap list.
From S2P Require Import Prelude.

Module Cord.


Definition CORD_MAX_DEPTH : Z := 48.
Definition SHORT_LIMIT : Z := 32 - 1.
Definition SUBSTR_LIMIT : Z := 10 * SHORT_LIMIT.
Definition MAX_LEFT_LEN : Z := 255.

(** The value of an [int] stored in a [char] (signed on the modelled ABI). *)
Definition schar (d : Z) : Z := (d + 128) mod 256 - 128.

(** ** C strings *)

(** The characters before the terminator of the string a pointer designates. *)
Fixpoint cstr (b : list Z) : option (list Z) :=
  match b with
  | [] => None
  | c :: b => if c =? 0 then Some [] else s ← cstr b; Some (c :: s)
  end.

Definition strlen (b : list Z) : option Z := s ← cstr b; Some (Z.of_nat (length s)).

(** The bytes of the object a C string occupies. *)
Definition c_string (s : list Z) : list Z := s ++ [0].

Definition get (b : list Z) (i : Z) : option Z :=
  if i <? 0 then None else b !! Z.to_nat i.

Definition memcpy_from (b : list Z) (len : Z) : option (list Z) :=
  if (0 <=? len) && (len <=? Z.of_nat (length b)) then Some (take (Z.to_nat len) b) else None.

Definition copy_char_substr (s : list Z) (len : Z) : option (list Z) :=
  d ← memcpy_from s len; Some (d ++ [0]).

Definition cat_char_substr (x : list Z) (len_x : Z) (y : list Z) (len_y : Z) : option (list Z) :=
  dx ← memcpy_from x len_x; dy ← memcpy_from y len_y; Some (dx ++ dy ++ [0]).

(** ** Nodes *)

(** Which access function a substring node holds: [CORD_index_access_fn] on a
    string, [CORD_apply_access_fn] on a function node. *)
Inductive access_kind := Index | Apply.

Inductive cord :=
| CORD_EMPTY
| Str (s : list Z)
| Concat (depth left_len len : Z) (lc rc : cord)
| Fn (len : Z) (fn : Z -> Z)
| Substr (len : Z) (k : access_kind) (sa_cord : cord) (sa_index : Z).

(** Use a [char *] that is not [NULL] as a cord: an empty string is not one. *)
Definition cord_at (b : list Z) : option cord :=
  s ← cstr b; match s with [] => None | _ => Some (Str s) end.

Definition CORD_IS_STRING (x : cord) : option bool :=
  match x with CORD_EMPTY => None | Str _ => Some true | _ => Some false end.

Definition IS_CONCATENATION (x : cord) : bool :=
  match x with Concat _ _ _ _ _ => true | _ => false end.

Definition IS_FUNCTION (x : cord) : bool :=
  match x with Fn _ _ | Substr _ _ _ _ => true | _ => false end.

Definition LEN (x : cord) : option Z :=
  match x with
  | Concat _ _ len _ _ | Fn len _ | Substr len _ _ _ => Some len
  | _ => None
  end.

Definition DEPTH (x : cord) : option Z :=
  match x with
  | Concat depth _ _ _ _ => Some depth
  | Fn _ _ | Substr _ _ _ _ => Some 0
  | _ => None
  end.

Definition GEN_LEN (x : cord) : option Z :=
  match x with
  | Str s => Some (Z.of_nat (length s))
  | _ => LEN x
  end.

Definition LEFT_LEN (x : cord) : option Z :=
  match x with
  | Concat _ left_len len l r =>
    if negb (left_len =? 0) then Some left_len
    else is_str ← CORD_IS_STRING l;
         if is_str : bool then g ← GEN_LEN r; Some (wrap64 (len - g)) else LEN l
  | _ => None
  end.

Definition CORD_len (x : cord) : option Z :=
  match x with CORD_EMPTY => Some 0 | _ => GEN_LEN x end.

(** ** Function nodes *)

(** The call [f->fn(i, f->client_data)] on the function of a node. *)
Fixpoint call_fn (x : cord) (i : Z) : option Z :=
  match x with
  | Fn _ fn => Some (fn i)
  | Substr _ Index (Str s) sa_index => get (c_string s) (wrap64 (i + sa_index))
  | Substr _ Apply sa_cord sa_index => call_fn sa_cord (wrap64 (i + sa_index))
  | _ => None
  end.

(** The characters [fn i .. fn (i + n - 1)]; [Some None] when the loop meets a
    NUL, which both of its callers test for. *)
Fixpoint fn_chars (fn : Z -> option Z) (i : Z) (n : nat) : option (option (list Z)) :=
  match n with
  | O => Some (Some [])
  | S n =>
    c ← fn i;
    if c =? 0 then Some None
    else r ← fn_chars fn (i + 1) n;
         Some (match r with Some s => Some (c :: s) | None => None end)
  end.

(** [node] is the function node to allocate when the characters do not fit in a
    short string. *)
Definition CORD_from_fn_inner (fn : Z -> option Z) (node : cord) (len : Z) : option cord :=
  if len =? 0 then Some CORD_EMPTY
  else if len <=? SHORT_LIMIT then
    r ← fn_chars fn 0 (Z.to_nat len);
    match r with
    | Some buf => s ← copy_char_substr buf len; cord_at s
    | None => Some node
    end
  else Some node.

Definition CORD_from_fn (fn : Z -> Z) (len : Z) : option cord :=
  CORD_from_fn_inner (fun i => Some (fn i)) (Fn len fn) len.

Definition CORD_substr_closure (x : cord) (i n : Z) (k : access_kind) : option cord :=
  CORD_from_fn_inner (call_fn (Substr n k x i)) (Substr n k x i) n.

(** ** Concatenation

    [CORD_cat] calls [CORD_balance] on a result that is too deep, and
    [CORD_balance] calls [CORD_cat]: the two are written over each other and the
    knot is tied below with fuel. *)

Definition CORD_from_char_star (s : list Z) : option cord :=
  len ← strlen s;
  if len =? 0 then Some CORD_EMPTY
  else b ← copy_char_substr s len; cord_at b.

(** The general case of both concatenations: allocate the node. *)
Definition new_concat (CORD_balance : cord -> option cord)
    (depth len_x result_len : Z) (x y : cord) : option cord :=
  let result :=
    Concat (schar depth) (if len_x <=? MAX_LEFT_LEN then len_x else 0) result_len x y in
  if CORD_MAX_DEPTH <=? depth then CORD_balance result else Some result.

(** The string [y], itself or copied when it does not end at [len_y]. *)
Definition share_or_copy (y : list Z) (len_y : Z) : option cord :=
  c ← get y len_y;
  if c =? 0 then cord_at y else b ← copy_char_substr y len_y; cord_at b.

(** Lines 259-275 of [CORD_cat_char_star]: merge [y] into the right string of a
    concatenation when the result is short; returns [x], [y], [len_x], [len_y]. *)
Definition merge_right (x lc rc : cord) (left_len len_x : Z) (y : list Z) (len_y : Z)
    : option (cord * list Z * Z * Z) :=
  match rc with
  | Str r =>
    right_len ←
      (is_str ← CORD_IS_STRING lc;
       if negb is_str then l ← LEN lc; Some (wrap64 (len_x - l))
       else if negb (left_len =? 0) then Some (wrap64 (len_x - left_len))
       else Some (Z.of_nat (length r)));
    let result_len := wrap64 (right_len + len_y) in
    if result_len <=? SHORT_LIMIT then
      y ← cat_char_substr (c_string r) right_len y len_y;
      Some (lc, y, wrap64 (len_x - right_len), result_len)
    else Some (x, y, len_x, len_y)
  | _ => None
  end.

Definition CORD_cat_char_star_ (CORD_balance : cord -> option cord)
    (x : cord) (y : list Z) (len_y : Z) : option cord :=
  if len_y =? 0 then Some x
  else
    match x with
    | CORD_EMPTY => share_or_copy y len_y
    | Str s =>
      let len_x := Z.of_nat (length s) in
      let result_len := wrap64 (len_x + len_y) in
      if result_len <=? SHORT_LIMIT then
        b ← cat_char_substr (c_string s) len_x y len_y; cord_at b
      else
        r ← share_or_copy y len_y;
        new_concat CORD_balance 1 len_x result_len x r
    | Concat _ left_len len lc rc =>
      '(x', y', len_x', len_y') ←
        (if len_y <=? SHORT_LIMIT / 2 then
           is_str ← CORD_IS_STRING rc;
           if is_str : bool then merge_right x lc rc left_len len y len_y
           else Some (x, y, len, len_y)
         else Some (x, y, len, len_y));
      is_str ← CORD_IS_STRING x';
      depth ← (if is_str : bool then Some 1 else d ← DEPTH x'; Some (d + 1));
      r ← share_or_copy y' len_y';
      new_concat CORD_balance depth len_x' (wrap64 (len_x' + len_y')) x' r
    | Fn len _ | Substr len _ _ _ =>
      d ← DEPTH x;
      r ← share_or_copy y len_y;
      new_concat CORD_balance (d + 1) len (wrap64 (len + len_y)) x r
    end.

Definition CORD_cat_ (CORD_balance : cord -> option cord) (x y : cord) : option cord :=
  match x, y with
  | CORD_EMPTY, _ => Some y
  | _, CORD_EMPTY => Some x
  | _, Str t => CORD_cat_char_star_ CORD_balance x (c_string t) (Z.of_nat (length t))
  | Str s, _ =>
    let len_x := Z.of_nat (length s) in
    depth_y ← DEPTH y;
    len_y ← LEN y;
    new_concat CORD_balance (depth_y + 1) len_x (wrap64 (len_x + len_y)) x y
  | _, _ =>
    depth_y ← DEPTH y;
    len_x ← LEN x;
    depth_x ← DEPTH x;
    let depth := if depth_x + 1 <=? depth_y then depth_y + 1 else depth_x + 1 in
    len_y ← LEN y;
    new_concat CORD_balance depth len_x (wrap64 (len_x + len_y)) x y
  end.

(** ** Balancing *)

(** [min_len] after [i] rounds of the loop of [CORD_init_min_len]. *)
Fixpoint min_len_from (n : nat) (previous last : Z) : list Z :=
  match n with
  | O => []
  | S n =>
    let current := if last <? GC_SIZE_MAX - previous then last + previous else last in
    current :: min_len_from n last current
  end.

Definition CORD_init_min_len : list Z :=
  1 :: 2 :: min_len_from (Z.to_nat CORD_MAX_DEPTH - 2) 1 2.

(** The static table; it is computed once, before its first use. *)
Definition min_len : list Z := Eval vm_compute in CORD_init_min_len.

(** An entry of the forest; [None] in a field is an indeterminate value. *)
Record ForestElement := { fe_c : option cord; fe_len : option Z }.

Notation Forest := (list ForestElement).

(** The local array of [CORD_balance] before it is initialised. *)
Definition forest_uninit : Forest :=
  replicate (Z.to_nat CORD_MAX_DEPTH) {| fe_c := None; fe_len := None |}.

(** [forest[i].c = 0] *)
Definition forest_clear (forest : Forest) (i : nat) : Forest :=
  alter (fun e => {| fe_c := Some CORD_EMPTY; fe_len := fe_len e |}) i forest.

Fixpoint init_forest_loop (ml : list Z) (i : nat) (forest : Forest) (max_len : Z)
    : option Forest :=
  match ml with
  | [] => None
  | m :: ml =>
    let forest := forest_clear forest i in
    if max_len <? m then Some forest else init_forest_loop ml (S i) forest max_len
  end.

Definition CORD_init_forest (forest : Forest) (max_len : Z) : option Forest :=
  init_forest_loop min_len 0 forest max_len.

Section Balance.
Context (CORD_cat : cord -> cord -> option cord).

(** [if (forest[i].c != 0) { sum = CORD_cat(forest[i].c, sum); ... }], the body
    the three loops share; [clear] is whether the entry is emptied. *)
Definition collect (clear : bool) (forest : Forest) (i : nat) (sum : cord) (sum_len : Z)
    : option (Forest * cord * Z) :=
  e ← forest !! i;
  c ← fe_c e;
  match c with
  | CORD_EMPTY => Some (forest, sum, sum_len)
  | _ =>
    sum ← CORD_cat c sum;
    len ← fe_len e;
    Some (if clear then forest_clear forest i else forest, sum, wrap64 (sum_len + len))
  end.

(** The two loops of [CORD_add_forest].  An index that leaves the table fails, so
    [fuel] only has to exceed its size. *)
Fixpoint add_forest_lower (fuel : nat) (forest : Forest) (i : nat) (sum : cord) (sum_len len : Z)
    : option (Forest * nat * cord * Z) :=
  match fuel with
  | O => None
  | S fuel =>
    m ← min_len !! S i;
    if m <? len then
      '(forest, sum, sum_len) ← collect true forest i sum sum_len;
      add_forest_lower fuel forest (S i) sum sum_len len
    else Some (forest, i, sum, sum_len)
  end.

Fixpoint add_forest_upper (fuel : nat) (forest : Forest) (i : nat) (sum : cord) (sum_len : Z)
    : option (Forest * nat * cord * Z) :=
  match fuel with
  | O => None
  | S fuel =>
    m ← min_len !! i;
    if m <=? sum_len then
      '(forest, sum, sum_len) ← collect true forest i sum sum_len;
      add_forest_upper fuel forest (S i) sum sum_len
    else Some (forest, i, sum, sum_len)
  end.

Definition loop_fuel : nat := Z.to_nat CORD_MAX_DEPTH + 1.

Definition CORD_add_forest (forest : Forest) (x : cord) (len : Z) : option Forest :=
  '(forest, i, sum, sum_len) ← add_forest_lower loop_fuel forest 0 CORD_EMPTY 0 len;
  sum ← CORD_cat sum x;
  '(forest, i, sum, sum_len) ← add_forest_upper loop_fuel forest i sum (wrap64 (sum_len + len));
  match i with
  | O => None
  | S i => Some (<[i := {| fe_c := Some sum; fe_len := Some sum_len |}]> forest)
  end.

Fixpoint concat_forest_loop (fuel : nat) (forest : Forest) (i : nat) (sum : cord)
    (sum_len expected_len : Z) : option cord :=
  match fuel with
  | O => None
  | S fuel =>
    if sum_len =? expected_len then Some sum
    else
      '(_, sum, sum_len) ← collect false forest i sum sum_len;
      concat_forest_loop fuel forest (S i) sum sum_len expected_len
  end.

Definition CORD_concat_forest (forest : Forest) (expected_len : Z) : option cord :=
  concat_forest_loop loop_fuel forest 0 CORD_EMPTY 0 expected_len.

Fixpoint CORD_balance_insert (x : cord) (len : Z) (forest : Forest) : option Forest :=
  match x with
  | CORD_EMPTY => None
  | Concat depth _ _ lc rc =>
    unbalanced ←
      (if CORD_MAX_DEPTH <=? depth then Some true
       else m ← get min_len depth; Some (len <? m));
    if unbalanced : bool then
      left_len ← LEFT_LEN x;
      forest ← CORD_balance_insert lc left_len forest;
      CORD_balance_insert rc (wrap64 (len - left_len)) forest
    else CORD_add_forest forest x len
  | _ => CORD_add_forest forest x len
  end.

Definition CORD_balance_ (x : cord) : option cord :=
  match x with
  | CORD_EMPTY | Str _ => Some x
  | _ =>
    len ← LEN x;
    forest ← CORD_init_forest forest_uninit len;
    forest ← CORD_balance_insert x len forest;
    CORD_concat_forest forest len
  end.

End Balance.

(** Nested calls of [CORD_balance]: one level for the call itself and one for each
    rebalancing a concatenation inside it starts. *)
Fixpoint CORD_balance_n (fuel : nat) (x : cord) : option cord :=
  match fuel with
  | O => None
  | S fuel => CORD_balance_ (CORD_cat_ (CORD_balance_n fuel)) x
  end.

Definition CORD_balance : cord -> option cord := CORD_balance_n 48.
Definition CORD_cat : cord -> cord -> option cord := CORD_cat_ CORD_balance.
Definition CORD_cat_char_star : cord -> list Z -> Z -> option cord :=
  CORD_cat_char_star_ CORD_balance.

(** ** Substrings *)

Fixpoint CORD_substr_checked (x : cord) (i n : Z) : option cord :=
  match x with
  | CORD_EMPTY => None
  | Str s =>
    if SUBSTR_LIMIT <? n then CORD_substr_closure x i n Index
    else b ← copy_char_substr (drop (Z.to_nat i) (c_string s)) n; cord_at b
  | Concat _ _ len lc rc =>
    left_len ← LEFT_LEN x;
    let right_len := wrap64 (len - left_len) in
    if left_len <=? i then
      if n =? right_len then Some rc
      else CORD_substr_checked rc (wrap64 (i - left_len)) n
    else if wrap64 (i + n) <=? left_len then
      if n =? left_len then Some lc
      else CORD_substr_checked lc i n
    else
      let left_part_len := wrap64 (left_len - i) in
      left_part ← (if i =? 0 then Some lc else CORD_substr_checked lc i left_part_len);
      right_part ←
        (if wrap64 (i + n) =? wrap64 (right_len + left_len) then Some rc
         else CORD_substr_checked rc 0 (wrap64 (n - left_part_len)));
      CORD_cat left_part right_part
  | Fn _ _ | Substr _ _ _ _ =>
    if SUBSTR_LIMIT <? n then
      match x with
      | Substr _ k sa_cord sa_index =>
        CORD_substr_closure sa_cord (wrap64 (i + sa_index)) n k
      | _ => CORD_substr_closure x i n Apply
      end
    else
      r ← fn_chars (call_fn x) i (Z.to_nat n);
      match r with
      | None => CORD_substr_closure x i n Apply
      | Some buf => b ← copy_char_substr buf n; cord_at b
      end
  end.

Definition CORD_substr (x : cord) (i n : Z) : option cord :=
  len ← CORD_len x;
  if (len <=? i) || (n =? 0) then Some CORD_EMPTY
  else
    let n := if len <? wrap64 (i + n) then len - i else n in
    CORD_substr_checked x i n.

(** ** Iteration

    A client function takes a character (or the string at a pointer) and the
    client data, and returns an [int] with the new client data. *)

Section Iter.
Context {S : Type}.
Context (f1 : Z -> S -> option (Z * S)).

(** The [while] loop over the string at [p]. *)
Fixpoint iter_chars (p : list Z) (st : S) : option (Z * S) :=
  match p with
  | [] => None
  | c :: p =>
    if c =? 0 then Some (0, st)
    else '(r, st) ← f1 c st; if r =? 0 then iter_chars p st else Some (1, st)
  end.

(** [n] rounds of the loop over a function node, from [j]. *)
Fixpoint iter_fn (fn : Z -> option Z) (j : Z) (n : nat) (st : S) : option (Z * S) :=
  match n with
  | O => Some (0, st)
  | Datatypes.S n =>
    c ← fn j; '(r, st) ← f1 c st;
    if r =? 0 then iter_fn fn (j + 1) n st else Some (1, st)
  end.

Fixpoint CORD_iter5 (f2 : option (list Z -> S -> option (Z * S))) (x : cord) (i : Z) (st : S)
    : option (Z * S) :=
  match x with
  | CORD_EMPTY => Some (0, st)
  | Str s =>
    let p := drop (Z.to_nat i) (c_string s) in
    c ← head p;
    if c =? 0 then None
    else match f2 with Some f2 => f2 p st | None => iter_chars p st end
  | Concat _ _ _ lc rc =>
    skip ← (if 0 <? i then
              left_len ← LEFT_LEN x; Some (if left_len <=? i then Some left_len else None)
            else Some None);
    match skip with
    | Some left_len => CORD_iter5 f2 rc (i - left_len) st
    | None =>
      '(r, st) ← CORD_iter5 f2 lc i st;
      if r =? 0 then CORD_iter5 f2 rc 0 st else Some (1, st)
    end
  | Fn lim _ | Substr lim _ _ _ => iter_fn (call_fn x) i (Z.to_nat (lim - i)) st
  end.

Definition CORD_iter (x : cord) (st : S) : option (Z * S) := CORD_iter5 None x 0 st.

(** The two downward loops of [CORD_riter4], from index [k]; [fetch] aborts on a
    character of a string that is NUL. *)
Fixpoint riter_down (fetch : Z -> option Z) (k : nat) (st : S) : option (Z * S) :=
  c ← fetch (Z.of_nat k);
  '(r, st) ← f1 c st;
  if r =? 0 then match k with O => Some (0, st) | Datatypes.S k => riter_down fetch k st end
  else Some (1, st).

Fixpoint CORD_riter4 (x : cord) (i : Z) (st : S) : option (Z * S) :=
  match x with
  | CORD_EMPTY => Some (0, st)
  | Str s =>
    riter_down (fun k => c ← get (c_string s) k; if c =? 0 then None else Some c) (Z.to_nat i) st
  | Concat _ _ _ lc rc =>
    left_len ← LEFT_LEN x;
    if left_len <=? i then
      '(r, st) ← CORD_riter4 rc (i - left_len) st;
      if r =? 0 then CORD_riter4 lc (wrap64 (left_len - 1)) st else Some (1, st)
    else CORD_riter4 lc i st
  | Fn _ _ | Substr _ _ _ _ => riter_down (call_fn x) (Z.to_nat i) st
  end.

Definition CORD_riter (x : cord) (st : S) : option (Z * S) :=
  len ← CORD_len x;
  if len =? 0 then Some (0, st) else CORD_riter4 x (len - 1) st.

End Iter.

End Cord.
