(* ===== verification/CordSem.v ===== *)
(** * CordSem: what a cord denotes, and its well-formedness

    [chars x] is the sequence of characters a cord stands for, the abstract value
    the interface of [cord.h] talks about.  [wfn] is the invariant of a node: the
    lengths, depths and left lengths recorded in it are those of what it denotes.
    The lemmas relate the macros, the function nodes, concatenation and substrings
    to [chars]. *)

From Stdlib Require Import ZArith Lia.
From stdpp Require Import base gmap list.
From S2P Require Import Prelude Cord.

Module CordSem.
Import Cord.


(** The [n] elements of [l] from index [i]. *)
Definition sub {A} (i n : Z) (l : list A) : list A := take (Z.to_nat n) (drop (Z.to_nat i) l).

Definition zlen {A} (l : list A) : Z := Z.of_nat (length l).

Fixpoint chars (x : cord) : list Z :=
  match x with
  | CORD_EMPTY => []
  | Str s => s
  | Concat _ _ _ lc rc => chars lc ++ chars rc
  | Fn len fn => fn <$> seqZ 0 len
  | Substr len _ c i => sub i len (chars c)
  end.

Notation clen x := (zlen (chars x)).

Definition is_byte (c : Z) : Prop := 0 <= c < 256.
(** A character of a C string before its terminator. *)
Definition is_char (c : Z) : Prop := 0 < c < 256.

(** The depth as [CORD_cat] counts it: 0 for every leaf. *)
Definition dep (x : cord) : Z := match x with Concat d _ _ _ _ => d | _ => 0 end.

Definition access_ok (k : access_kind) (c : cord) : Prop :=
  match k, c with
  | Index, Str _ => True
  | Apply, (Fn _ _ | Substr _ _ _ _) => True
  | _, _ => False
  end.

Fixpoint wfn (x : cord) : Prop :=
  match x with
  | CORD_EMPTY => False
  | Str s => s <> [] /\ Forall is_char s /\ zlen s < W64
  | Concat d ll len lc rc =>
    wfn lc /\ wfn rc /\
    len = clen lc + clen rc /\ len < W64 /\
    ll = (if clen lc <=? MAX_LEFT_LEN then clen lc else 0) /\
    d = 1 + Z.max (dep lc) (dep rc)
  | Fn len fn => 0 < len < W64 /\ forall i, is_byte (fn i)
  | Substr len k c i => wfn c /\ access_ok k c /\ 0 < len /\ 0 <= i /\ i + len <= clen c
  end.

Definition wf (x : cord) : Prop := x = CORD_EMPTY \/ wfn x.

(** ** Lists and integers *)

Lemma zlen_nonneg {A} (l : list A) : 0 <= zlen l.
Proof. unfold zlen. lia. Qed.

Lemma zlen_app {A} (l k : list A) : zlen (l ++ k) = zlen l + zlen k.
Proof. unfold zlen. rewrite length_app. lia. Qed.

Lemma zlen_sub {A} (i n : Z) (l : list A) :
  0 <= i -> 0 <= n -> i + n <= zlen l -> zlen (sub i n l) = n.
Proof. unfold zlen, sub. intros. rewrite length_take, length_drop. lia. Qed.

Lemma zlen_cons {A} (a : A) (l : list A) : zlen (a :: l) = 1 + zlen l.
Proof. unfold zlen. cbn [length]. lia. Qed.

Lemma sub_lookup {A} (i n : Z) (l : list A) (k : nat) :
  0 <= i -> Z.of_nat k < n -> sub i n l !! k = l !! (Z.to_nat i + k)%nat.
Proof. intros. unfold sub. rewrite lookup_take_lt by lia. by rewrite lookup_drop. Qed.

Lemma sub_all {A} (l : list A) (n : Z) : zlen l <= n -> sub 0 n l = l.
Proof. unfold sub, zlen. intros. rewrite drop_0, take_ge; [done|lia]. Qed.

Lemma sub_sub {A} (i n j m : Z) (l : list A) :
  0 <= i -> 0 <= j -> j + m <= n -> sub j m (sub i n l) = sub (j + i) m l.
Proof.
  intros. apply list_eq. intros k. unfold sub.
  destruct (decide (Z.of_nat k < m)).
  - rewrite !lookup_take_lt, !lookup_drop, lookup_take_lt, lookup_drop by lia.
    f_equal. lia.
  - by rewrite !lookup_take_ge by lia.
Qed.

Lemma sub_app_l {A} (i n : Z) (l k : list A) :
  0 <= i -> i + n <= zlen l -> sub i n (l ++ k) = sub i n l.
Proof.
  unfold sub, zlen. intros. destruct (decide (n < 0)).
  { by replace (Z.to_nat n) with 0%nat by lia. }
  rewrite drop_app_le by lia. rewrite take_app_le; [done|]. rewrite length_drop. lia.
Qed.

Lemma sub_app_r {A} (i n : Z) (l k : list A) :
  zlen l <= i -> sub i n (l ++ k) = sub (i - zlen l) n k.
Proof.
  unfold sub, zlen. intros. rewrite drop_app_ge by lia. do 2 f_equal. lia.
Qed.

Lemma sub_app_mid {A} (i n : Z) (l k : list A) :
  0 <= i <= zlen l -> zlen l <= i + n ->
  sub i n (l ++ k) = sub i (zlen l - i) l ++ sub 0 (n - (zlen l - i)) k.
Proof.
  unfold sub, zlen. intros. rewrite drop_app_le by lia.
  rewrite take_app_ge by (rewrite length_drop; lia). rewrite drop_0. f_equal.
  - rewrite take_ge; [done|]. rewrite length_drop. lia.
  - f_equal. rewrite length_drop. lia.
Qed.

Lemma Forall_sub {A} (P : A -> Prop) (i n : Z) (l : list A) : Forall P l -> Forall P (sub i n l).
Proof. intros. unfold sub. by apply Forall_take, Forall_drop. Qed.

Lemma sub_cons {A} (i n : Z) (l : list A) (c : A) :
  0 <= i -> 0 < n -> l !! Z.to_nat i = Some c -> sub i n l = c :: sub (i + 1) (n - 1) l.
Proof.
  intros Hi Hn Hc. unfold sub. rewrite (drop_S _ c (Z.to_nat i)) by done.
  replace (Z.to_nat n) with (S (Z.to_nat (n - 1))) by lia.
  replace (Z.to_nat (i + 1)) with (S (Z.to_nat i)) by lia. done.
Qed.

Lemma wrap64_small (z : Z) : 0 <= z < W64 -> wrap64 z = z.
Proof. intros. unfold wrap64. by apply Z.mod_small. Qed.

Lemma schar_small (d : Z) : -128 <= d < 128 -> schar d = d.
Proof. intros. unfold schar. rewrite Z.mod_small; lia. Qed.

(** ** C strings *)

Lemma cstr_app (s t : list Z) : Forall is_char s -> cstr (s ++ 0 :: t) = Some s.
Proof.
  induction 1 as [|c s Hc Hs IH]; cbn; [done|]. rewrite IH. cbn.
  unfold is_char in Hc. destruct (Z.eqb_spec c 0); [lia|done].
Qed.

Lemma cord_at_c_string (s : list Z) : s <> [] -> Forall is_char s -> cord_at (c_string s) = Some (Str s).
Proof. intros Hn Hs. unfold cord_at, c_string. rewrite cstr_app by done. cbn. by destruct s. Qed.

Lemma get_spec (b : list Z) (i : Z) : 0 <= i -> get b i = b !! Z.to_nat i.
Proof. intros. unfold get. bcase; [lia|done]. Qed.

Lemma get_c_string (s : list Z) (i : Z) : 0 <= i < zlen s -> get (c_string s) i = s !! Z.to_nat i.
Proof.
  unfold zlen. intros. rewrite get_spec by lia. unfold c_string. rewrite lookup_app_l; [done|lia].
Qed.

Lemma memcpy_from_take (b : list Z) (len : Z) :
  0 <= len <= zlen b -> memcpy_from b len = Some (sub 0 len b).
Proof. unfold zlen, memcpy_from, sub. intros. by repeat (bcase; [|lia]). Qed.

Lemma copy_char_substr_ok (s : list Z) (len : Z) :
  0 <= len <= zlen s -> copy_char_substr s len = Some (c_string (sub 0 len s)).
Proof. intros. unfold copy_char_substr. by rewrite memcpy_from_take. Qed.

Lemma zlen_c_string (s : list Z) : zlen (c_string s) = zlen s + 1.
Proof. unfold c_string. by rewrite zlen_app. Qed.

Lemma sub_c_string (s : list Z) (i n : Z) :
  0 <= i -> i + n <= zlen s -> sub i n (c_string s) = sub i n s.
Proof. intros. unfold c_string. by apply sub_app_l. Qed.

Lemma cat_char_substr_ok (s y : list Z) (len_y : Z) :
  0 <= len_y <= zlen y ->
  cat_char_substr (c_string s) (zlen s) y len_y = Some (c_string (s ++ sub 0 len_y y)).
Proof.
  intros. unfold cat_char_substr.
  rewrite !memcpy_from_take; [| |done]; [|rewrite zlen_c_string; pose proof (zlen_nonneg s); lia].
  cbn. rewrite sub_c_string, sub_all by lia. unfold c_string. by rewrite <- app_assoc.
Qed.

Lemma sub_nonnil {A} (i n : Z) (l : list A) :
  0 <= i -> 0 < n -> i + n <= zlen l -> sub i n l <> [].
Proof. intros ??? E. apply (f_equal zlen) in E. rewrite zlen_sub in E by lia. unfold zlen in E. cbn in E. lia. Qed.

Lemma zlen_pos {A} (l : list A) : l <> [] -> 0 < zlen l.
Proof. destruct l; [done|]. rewrite zlen_cons. pose proof (zlen_nonneg l). lia. Qed.

(** A buffer that holds a string of [len] characters: the precondition on
    [const char *y, size_t len_y]. *)
Definition buf_ok (y : list Z) (len : Z) : Prop :=
  0 <= len < zlen y /\ Forall is_char (sub 0 len y) /\ len < W64.

Lemma buf_ok_c_string (s : list Z) : Forall is_char s -> zlen s < W64 -> buf_ok (c_string s) (zlen s).
Proof.
  intros. unfold buf_ok. rewrite sub_c_string, sub_all by lia.
  rewrite zlen_c_string. pose proof (zlen_nonneg s). split; [lia|done].
Qed.

Lemma share_or_copy_ok (y : list Z) (len : Z) :
  0 < len -> buf_ok y len -> share_or_copy y len = Some (Str (sub 0 len y)).
Proof.
  intros Hl (Hr & Hc & _). unfold share_or_copy. rewrite get_spec by lia.
  destruct (y !! Z.to_nat len) as [c|] eqn:E;
    [|apply lookup_ge_None in E; unfold zlen in *; lia]. cbn.
  assert (Hn : sub 0 len y <> []) by (apply sub_nonnil; lia).
  destruct (Z.eqb_spec c 0) as [->|Hc0].
  - unfold cord_at. assert (Hy : cstr y = Some (sub 0 len y)).
    { rewrite <- (take_drop_middle _ _ _ E) at 1. by apply cstr_app. }
    rewrite Hy. cbn. by destruct (sub 0 len y).
  - rewrite copy_char_substr_ok by lia. cbn. by apply cord_at_c_string.
Qed.

(** ** Nodes *)

Lemma clen_Concat d ll len lc rc : clen (Concat d ll len lc rc) = clen lc + clen rc.
Proof. cbn. apply zlen_app. Qed.

Lemma wfn_clen (x : cord) : wfn x -> 0 < clen x < W64.
Proof.
  induction x as [|s|d ll len lc IHl rc IHr|len fn|len k c IH i]; cbn [wfn]; [done|..].
  - intros (? & ? & ?). split; [|done]. by apply zlen_pos.
  - intros (Hl & Hr & -> & ? & _). rewrite clen_Concat in *.
    specialize (IHl Hl). specialize (IHr Hr). lia.
  - intros [? _]. cbn. unfold zlen. rewrite length_fmap, length_seqZ. lia.
  - intros (Hc & ? & ? & ? & ?). specialize (IH Hc). cbn [chars]. rewrite zlen_sub; lia.
Qed.

Lemma GEN_LEN_ok (x : cord) : wfn x -> GEN_LEN x = Some (clen x).
Proof.
  destruct x; cbn [wfn]; [done|..].
  - done.
  - intros (? & ? & -> & _). rewrite clen_Concat. done.
  - intros [? _]. cbn. f_equal. unfold zlen. rewrite length_fmap, length_seqZ. lia.
  - intros (Hc & ? & ? & ? & ?). cbn. f_equal. rewrite zlen_sub; lia.
Qed.

Definition is_str (x : cord) : bool := match x with Str _ => true | _ => false end.

Lemma CORD_IS_STRING_ok (x : cord) : wfn x -> CORD_IS_STRING x = Some (is_str x).
Proof. by destruct x. Qed.

Lemma LEN_ok (x : cord) : wfn x -> is_str x = false -> LEN x = Some (clen x).
Proof. intros H ?. rewrite <- GEN_LEN_ok by done. by destruct x. Qed.

Lemma DEPTH_ok (x : cord) : wfn x -> is_str x = false -> DEPTH x = Some (dep x).
Proof. by destruct x. Qed.

Lemma LEFT_LEN_ok d ll len lc rc :
  wfn (Concat d ll len lc rc) -> LEFT_LEN (Concat d ll len lc rc) = Some (clen lc).
Proof.
  intros (Hl & Hr & -> & Hw & -> & _). cbn [LEFT_LEN].
  pose proof (wfn_clen _ Hl). pose proof (wfn_clen _ Hr).
  destruct (Z.leb_spec (clen lc) MAX_LEFT_LEN).
  - destruct (Z.eqb_spec (clen lc) 0); [lia|done].
  - rewrite Z.eqb_refl, CORD_IS_STRING_ok by done. cbn [negb mbind option_bind].
    destruct (is_str lc) eqn:E; [|by apply LEN_ok].
    rewrite GEN_LEN_ok by done. cbn. rewrite wrap64_small by lia. f_equal. lia.
Qed.

Lemma dep_nonneg (x : cord) : wfn x -> 0 <= dep x.
Proof.
  induction x; cbn [wfn dep]; try lia. intros (? & ? & _ & _ & _ & ->).
  specialize (IHx1 ltac:(done)). lia.
Qed.

Lemma chars_bytes (x : cord) : wfn x -> Forall is_byte (chars x).
Proof.
  induction x as [|s|d ll len lc IHl rc IHr|len fn|len k c IH i]; cbn [wfn chars]; [done|..].
  - intros (_ & H & _). eapply Forall_impl; [done|]. unfold is_char, is_byte. lia.
  - intros (? & ? & _). apply Forall_app; auto.
  - intros [_ H]. apply Forall_fmap, Forall_forall. auto.
  - intros (? & _). apply Forall_sub. auto.
Qed.

(** The characters a function node returns are those it denotes. *)
Lemma call_fn_ok (x : cord) (i : Z) :
  wfn x -> IS_FUNCTION x = true -> 0 <= i < clen x -> call_fn x i = chars x !! Z.to_nat i.
Proof.
  revert i. induction x as [|s|d ll len lc IHl rc IHr|len fn|len k c IH j];
    intros i; cbn [IS_FUNCTION]; try done.
  - intros H _ Hi. pose proof (wfn_clen _ H) as Hl. revert Hi Hl. cbn. unfold zlen.
    rewrite length_fmap, length_seqZ. intros. rewrite list_lookup_fmap, lookup_seqZ_lt by lia.
    cbn. do 2 f_equal. lia.
  - intros H _ Hi. pose proof (wfn_clen _ H). destruct H as (Hc & Hk & ? & ? & ?).
    pose proof (wfn_clen _ Hc). revert Hi. cbn [chars]. rewrite zlen_sub by lia. intros Hi.
    rewrite sub_lookup by lia.
    replace (Z.to_nat j + Z.to_nat i)%nat with (Z.to_nat (i + j)) by lia.
    assert (Ew : wrap64 (i + j) = i + j) by (apply wrap64_small; lia).
    assert (Hij : 0 <= i + j < clen c) by lia.
    destruct k, c; cbn [access_ok] in Hk; try done; cbn [call_fn]; rewrite Ew.
    + by apply get_c_string.
    + apply IH; [done|done|lia].
    + apply IH; [done|done|lia].
Qed.

(** ** The character loop of the function nodes *)

Lemma fn_chars_ok (fn : Z -> option Z) (l : list Z) (n : nat) (i : Z) :
  0 <= i -> i + Z.of_nat n <= zlen l -> Forall is_byte l ->
  (forall j, i <= j < i + Z.of_nat n -> fn j = l !! Z.to_nat j) ->
  fn_chars fn i n = Some (if decide (Forall is_char (sub i (Z.of_nat n) l))
                          then Some (sub i (Z.of_nat n) l) else None).
Proof.
  revert i. induction n as [|n IH]; intros i Hi Hn Hb Hf; cbn [fn_chars].
  { unfold sub. cbn. rewrite decide_True by done. done. }
  destruct (lookup_lt_is_Some_2 l (Z.to_nat i)) as [c Hc]; [unfold zlen in Hn; lia|].
  rewrite Hf, Hc by lia. cbn.
  pose proof (proj1 (Forall_lookup _ _) Hb _ _ Hc) as Hcb.
  assert (E : sub i (Z.of_nat (S n)) l = c :: sub (i + 1) (Z.of_nat n) l).
  { rewrite (sub_cons _ _ _ c) by (done || lia). do 2 f_equal. lia. }
  destruct (Z.eqb_spec c 0) as [->|Hc0].
  - rewrite decide_False; [done|]. rewrite E. intros H%Forall_cons.
    unfold is_char in H. lia.
  - rewrite (IH (i + 1)) by (done || lia || (intros; apply Hf; lia)). cbn. rewrite E.
    assert (is_char c) by (unfold is_char, is_byte in *; lia).
    destruct (decide (Forall is_char (sub (i + 1) (Z.of_nat n) l))) as [Hs|Hs].
    + rewrite decide_True; [done|]. by constructor.
    + rewrite decide_False; [done|]. by intros [_ ?]%Forall_cons.
Qed.

(** [CORD_from_fn_inner] on a function whose characters are [l] gives a cord that
    denotes [l]: a string when it is short and holds no NUL, else the node. *)
Lemma CORD_from_fn_inner_ok (fn : Z -> option Z) (node : cord) (l : list Z) :
  zlen l < W64 -> Forall is_byte l ->
  (forall j, 0 <= j < zlen l -> fn j = l !! Z.to_nat j) ->
  (l <> [] -> wfn node /\ chars node = l /\ dep node = 0) ->
  exists y, CORD_from_fn_inner fn node (zlen l) = Some y /\ wf y /\ chars y = l /\ dep y = 0.
Proof.
  intros Hw Hb Hf Hnode. unfold CORD_from_fn_inner. pose proof (zlen_nonneg l).
  destruct (Z.eqb_spec (zlen l) 0) as [E|Hn].
  { exists CORD_EMPTY. unfold zlen in E. destruct l; [|cbn in E; lia]. by repeat split; [left|..]. }
  destruct Hnode as (Hwf & Hch & Hd); [intros ->; apply Hn; done|].
  assert (Hnd : exists y, Some node = Some y /\ wf y /\ chars y = l /\ dep y = 0).
  { exists node. by repeat split; [right|..]. }
  destruct (Z.leb_spec (zlen l) SHORT_LIMIT); [|done].
  rewrite (fn_chars_ok fn l) by (done || lia || (intros; apply Hf; lia)).
  rewrite Z2Nat.id, sub_all by lia. cbn. case_decide as Hc; [|done].
  rewrite copy_char_substr_ok by lia. cbn. rewrite sub_all by lia.
  assert (l <> []) by (intros ->; apply Hn; done).
  rewrite cord_at_c_string by done. eexists. split; [done|]. by repeat split; [right|..].
Qed.

Lemma CORD_substr_closure_ok (x : cord) (i n : Z) (k : access_kind) :
  wfn x -> access_ok k x -> 0 < n -> 0 <= i -> i + n <= clen x ->
  exists y, CORD_substr_closure x i n k = Some y /\ wfn y /\ chars y = sub i n (chars x) /\ dep y = 0.
Proof.
  intros Hx Hk Hn Hi Hin. unfold CORD_substr_closure. pose proof (wfn_clen _ Hx).
  assert (Hs : wfn (Substr n k x i)) by (cbn; auto).
  assert (El : zlen (sub i n (chars x)) = n) by (apply zlen_sub; lia).
  destruct (CORD_from_fn_inner_ok (call_fn (Substr n k x i)) (Substr n k x i) (sub i n (chars x)))
    as (y & Hy & Hwf & Hch & Hd).
  - lia.
  - apply Forall_sub, chars_bytes, Hx.
  - intros j Hj. by apply (call_fn_ok (Substr n k x i)).
  - done.
  - rewrite El in Hy. exists y. split_and!; [done| |done|done].
    destruct Hwf as [->|?]; [|done]. exfalso. cbn in Hch. rewrite <- Hch in El. unfold zlen in El. cbn in El. lia.
Qed.

End CordSem.
