(* ===== verification/CordCat.v ===== *)
(** * CordCat: concatenation before rebalancing

    [CORD_cat] and [CORD_cat_char_star] build one node and hand it to
    [CORD_balance] when it is too deep.  [CORD_cat_pre] says which node that is:
    a well-formed cord that denotes the concatenation and is at most one deeper
    than its arguments. *)

From Stdlib Require Import ZArith Lia.
From stdpp Require Import base gmap list.
From S2P Require Import Prelude Cord CordSem.

Module CordCat.
Import Cord CordSem.


(** [x] followed by [y] is represented by [z], whose depth is at most [d]. *)
Definition joins (x : list Z) (y : list Z) (d : Z) (z : cord) : Prop :=
  wfn z /\ chars z = x ++ y /\ dep z <= d.

Section Cat.
Context (bal : cord -> option cord).

(** What both functions do with the node they built. *)
Definition finish (z : cord) : option cord := if CORD_MAX_DEPTH <=? dep z then bal z else Some z.

Lemma new_concat_ok (depth : Z) (x y : cord) :
  wfn x -> wfn y -> clen x + clen y < W64 -> depth = 1 + Z.max (dep x) (dep y) -> depth < 128 ->
  exists z, new_concat bal depth (clen x) (clen x + clen y) x y = finish z /\
            joins (chars x) (chars y) depth z.
Proof.
  intros Hx Hy Hw Hd Hd'. unfold new_concat.
  pose proof (dep_nonneg _ Hx). rewrite schar_small by lia.
  eexists (Concat depth _ _ x y). split; [done|].
  split_and!; [|done|cbn; lia]. cbn [wfn]. by split_and!.
Qed.

Lemma Str_wfn (y : list Z) (len : Z) :
  0 < len -> buf_ok y len -> wfn (Str (sub 0 len y)) /\ zlen (sub 0 len y) = len.
Proof.
  intros Hl (Hr & Hc & Hw). assert (E : zlen (sub 0 len y) = len) by (apply zlen_sub; lia).
  split; [|done]. cbn. split_and!; [apply sub_nonnil; lia|done|lia].
Qed.

(** The merge of a short string into the right end of [x] keeps the sequence. *)
Lemma merge_right_ok d ll len lc (r : list Z) (y : list Z) (len_y : Z) :
  wfn (Concat d ll len lc (Str r)) -> 0 < len_y -> buf_ok y len_y -> len + len_y < W64 ->
  exists x' y' len_y',
    merge_right (Concat d ll len lc (Str r)) lc (Str r) ll len y len_y
      = Some (x', y', clen x', len_y') /\
    wfn x' /\ 0 < len_y' /\ buf_ok y' len_y' /\
    chars x' ++ sub 0 len_y' y' = (chars lc ++ r) ++ sub 0 len_y y /\ dep x' <= d.
Proof.
  intros Hx Hly Hb Hw. pose proof Hx as (Hl & Hr & Hlen & Hlw & Hll & Hd).
  pose proof (wfn_clen _ Hl). pose proof (wfn_clen _ Hr) as Hrl. cbn [chars] in *.
  pose proof (zlen_nonneg y). destruct (Str_wfn _ _ Hly Hb) as [(_ & Hyc & _) Eyl].
  assert (Erl : forall k : Z -> option (cord * list Z * Z * Z),
    (right_len ←
      (is_str ← CORD_IS_STRING lc;
       if negb is_str then l ← LEN lc; Some (wrap64 (len - l))
       else if negb (ll =? 0) then Some (wrap64 (len - ll))
       else Some (Z.of_nat (length r))); k right_len) = k (zlen r)).
  { intros k. rewrite CORD_IS_STRING_ok by done. cbn. destruct (is_str lc) eqn:E; cbn.
    - rewrite Hll. destruct (Z.leb_spec (clen lc) MAX_LEFT_LEN); [|done].
      destruct (Z.eqb_spec (clen lc) 0); [lia|]. cbn. rewrite wrap64_small by lia. f_equal. lia.
    - rewrite LEN_ok by done. cbn. rewrite wrap64_small by lia. f_equal. lia. }
  unfold merge_right. rewrite Erl. rewrite wrap64_small by lia. cbn zeta.
  destruct (Z.leb_spec (zlen r + len_y) SHORT_LIMIT).
  - rewrite cat_char_substr_ok by (destruct Hb; lia). cbn. rewrite wrap64_small by lia.
    assert (Ez : zlen (r ++ sub 0 len_y y) = zlen r + len_y) by (rewrite zlen_app; lia).
    eexists lc, _, _. split; [do 2 f_equal; f_equal; lia|]. rewrite <- Ez.
    split_and!; [done|lia| | |].
    + apply buf_ok_c_string; [|lia]. apply Forall_app. split; [|done]. by destruct Hr as (_ & ? & _).
    + rewrite sub_c_string, sub_all by lia. by rewrite app_assoc.
    + cbn in Hd. pose proof (dep_nonneg _ Hl). lia.
  - exists (Concat d ll len lc (Str r)), y, len_y.
    split; [rewrite clen_Concat; cbn [chars]; by rewrite <- Hlen|]. by split_and!.
Qed.

(** A function node: the string becomes its right sibling. *)
Lemma cat_fn_node (x : cord) (y : list Z) (len_y len : Z) :
  wfn x -> IS_FUNCTION x = true -> LEN x = Some len ->
  0 < len_y -> buf_ok y len_y -> clen x + len_y < W64 ->
  exists z, (r ← share_or_copy y len_y; new_concat bal (0 + 1) len (wrap64 (len + len_y)) x r) = finish z /\
            joins (chars x) (sub 0 len_y y) (1 + dep x) z.
Proof.
  intros Hx Hf El Hly Hb Hw. pose proof (wfn_clen _ Hx).
  destruct (Str_wfn _ _ Hly Hb) as [Hyw Eyl].
  rewrite LEN_ok in El by (done || by destruct x). injection El as <-.
  rewrite share_or_copy_ok by done. cbn [mbind option_bind]. rewrite wrap64_small by lia.
  assert (Hd : dep x = 0) by (by destruct x). rewrite Hd.
  pose proof (new_concat_ok 1 x (Str (sub 0 len_y y)) Hx Hyw) as Hn.
  cbn [chars dep] in Hn. rewrite Eyl, Hd in Hn. apply Hn; lia.
Qed.

Lemma CORD_cat_char_star_pre (x : cord) (y : list Z) (len_y : Z) :
  wf x -> 0 < len_y -> buf_ok y len_y -> clen x + len_y < W64 -> dep x < CORD_MAX_DEPTH ->
  exists z, CORD_cat_char_star_ bal x y len_y = finish z /\
            joins (chars x) (sub 0 len_y y) (1 + dep x) z.
Proof.
  intros Hx Hly Hb Hw Hd. unfold CORD_cat_char_star_.
  destruct (Z.eqb_spec len_y 0); [lia|]. destruct (Str_wfn _ _ Hly Hb) as [Hyw Eyl].
  destruct Hx as [->|Hx].
  { rewrite share_or_copy_ok by done. exists (Str (sub 0 len_y y)). split; [done|].
    split_and!; [done|done|cbn; lia]. }
  pose proof (wfn_clen _ Hx). pose proof (dep_nonneg _ Hx).
  unfold CORD_MAX_DEPTH in Hd.
  destruct x as [|s|d ll len lc rc|len fn|len k c i]; [done|..].
  - cbn [chars] in *. change (Z.of_nat (length s)) with (zlen s).
    rewrite wrap64_small by lia. destruct (Z.leb_spec (zlen s + len_y) SHORT_LIMIT).
    + rewrite cat_char_substr_ok by (destruct Hb; lia). cbn.
      destruct Hx as (Hs & Hc & _). destruct Hyw as (_ & Hyc & _).
      rewrite cord_at_c_string; [|by destruct s|by apply Forall_app].
      exists (Str (s ++ sub 0 len_y y)). split; [done|]. split_and!; [cbn|done|cbn; lia].
      split_and!; [by destruct s|by apply Forall_app|rewrite zlen_app; lia].
    + rewrite share_or_copy_ok by done. cbn [mbind option_bind].
      pose proof (new_concat_ok 1 (Str s) (Str (sub 0 len_y y))) as Hn.
      cbn [chars dep] in Hn. rewrite Eyl in Hn. apply Hn; [done|done|lia..].
  - assert (Hgen : exists x' y' len_y',
      (if len_y <=? SHORT_LIMIT / 2 then
         is_str ← CORD_IS_STRING rc;
         if is_str : bool then merge_right (Concat d ll len lc rc) lc rc ll len y len_y
         else Some (Concat d ll len lc rc, y, len, len_y)
       else Some (Concat d ll len lc rc, y, len, len_y)) = Some (x', y', clen x', len_y') /\
      wfn x' /\ 0 < len_y' /\ buf_ok y' len_y' /\
      chars x' ++ sub 0 len_y' y' = chars (Concat d ll len lc rc) ++ sub 0 len_y y /\ dep x' <= d).
    { assert (El : len = clen (Concat d ll len lc rc)).
      { rewrite clen_Concat. by destruct Hx as (_ & _ & ? & _). }
      assert (Hid : exists x' y' len_y',
        Some (Concat d ll len lc rc, y, len, len_y) = Some (x', y', clen x', len_y') /\
        wfn x' /\ 0 < len_y' /\ buf_ok y' len_y' /\
        chars x' ++ sub 0 len_y' y' = chars (Concat d ll len lc rc) ++ sub 0 len_y y /\ dep x' <= d).
      { eexists _, _, _. split; [by rewrite El at 2|]. done. }
      destruct (Z.leb_spec len_y (SHORT_LIMIT / 2)); [|done].
      rewrite CORD_IS_STRING_ok by (by destruct Hx as (_ & ? & _)). cbn [mbind option_bind].
      destruct (is_str rc) eqn:Er; [|done]. destruct rc; try done.
      apply merge_right_ok; [done..|lia]. }
    destruct Hgen as (x' & y' & ly' & -> & Hx' & Hly' & Hb' & Hch & Hdx). cbn [mbind option_bind].
    rewrite CORD_IS_STRING_ok by done. cbn [mbind option_bind].
    destruct (Str_wfn _ _ Hly' Hb') as [Hyw' Eyl']. pose proof (dep_nonneg _ Hx').
    assert (Hlw : clen x' + ly' < W64).
    { apply (f_equal zlen) in Hch. rewrite !zlen_app in Hch. lia. }
    pose proof (wfn_clen _ Hx').
    replace (depth ← _; _) with (new_concat bal (1 + Z.max (dep x') 0) (clen x') (clen x' + ly') x' (Str (sub 0 ly' y'))).
    + destruct (new_concat_ok (1 + Z.max (dep x') 0) x' (Str (sub 0 ly' y')))
        as (z & E & Hz & Hzc & Hzd); [done|done|cbn [chars]; lia|done|cbn [dep] in *; lia|].
      cbn [chars] in E. rewrite Eyl' in E. rewrite E. exists z. split; [done|].
      split_and!; [done|by rewrite Hzc|cbn [dep] in *; lia].
    + rewrite share_or_copy_ok by done. rewrite wrap64_small by lia.
      replace (if is_str x' then _ else _) with (Some (1 + Z.max (dep x') 0)); [done|].
      destruct (is_str x') eqn:E; [by destruct x'|]. rewrite DEPTH_ok by done. cbn.
      f_equal. lia.
  - by apply cat_fn_node.
  - by apply cat_fn_node.
Qed.
Lemma CORD_cat_pre (x y : cord) :
  wf x -> wf y -> clen x + clen y < W64 -> dep x < CORD_MAX_DEPTH -> dep y < CORD_MAX_DEPTH ->
  exists z, CORD_cat_ bal x y = finish z /\ wf z /\ chars z = chars x ++ chars y /\
            dep z <= 1 + Z.max (dep x) (dep y).
Proof.
  intros Hx Hy Hw Hdx Hdy. unfold CORD_MAX_DEPTH in *.
  assert (Hfin : forall u, dep u < 48 -> Some u = finish u).
  { intros u Hu. unfold finish, CORD_MAX_DEPTH. by destruct (Z.leb_spec 48 (dep u)); [lia|]. }
  assert (Hd0 : forall u, wf u -> 0 <= dep u) by (intros u [->|?]; [done|by apply dep_nonneg]).
  pose proof (Hd0 x Hx). pose proof (Hd0 y Hy).
  destruct Hx as [->|Hx].
  { exists y. split_and!; [by apply Hfin|done..|lia]. }
  destruct Hy as [->|Hy].
  { exists x. split_and!; [destruct x; by apply Hfin|by right|by rewrite app_nil_r|lia]. }
  pose proof (wfn_clen _ Hx). pose proof (wfn_clen _ Hy).
  destruct (is_str y) eqn:Ey.
  { destruct y as [|t| | |]; try done. destruct Hy as (Ht & Htc & Htw). cbn [chars] in *.
    destruct (CORD_cat_char_star_pre x (c_string t) (zlen t)) as (z & E & Hz & Hzc & Hzd);
      [by right|lia|by apply buf_ok_c_string|lia|done|].
    exists z. split_and!; [by rewrite <- E; destruct x|by right| |lia].
    by rewrite Hzc, sub_c_string, sub_all by lia. }
  destruct (new_concat_ok (1 + Z.max (dep x) (dep y)) x y) as (z & E & Hz & Hzc & Hzd);
    [done|done|lia|done|lia|].
  exists z. split_and!; [|by right|done|lia].
  rewrite <- E. pose proof (DEPTH_ok _ Hy Ey) as EDy. pose proof (LEN_ok _ Hy Ey) as ELy.
  assert (Hb : CORD_cat_ bal x y =
    (depth_y ← DEPTH y; len_y ← LEN y;
     new_concat bal (1 + Z.max (dep x) depth_y) (clen x) (wrap64 (clen x + len_y)) x y)).
  { rewrite EDy, ELy. destruct (is_str x) eqn:Ex.
    - destruct x; try done. cbn [mbind option_bind dep].
      destruct y; try done; cbn [CORD_cat_]; rewrite EDy, ELy; cbn [mbind option_bind];
        f_equal; lia.
    - pose proof (DEPTH_ok _ Hx Ex) as EDx. pose proof (LEN_ok _ Hx Ex) as ELx.
      assert (Hm : (if dep x + 1 <=? dep y then dep y + 1 else dep x + 1) = 1 + Z.max (dep x) (dep y))
        by (destruct (Z.leb_spec (dep x + 1) (dep y)); lia).
      destruct x, y; try done; unfold CORD_cat_; rewrite EDx, ELx, EDy, ELy;
        cbn [mbind option_bind]; by rewrite Hm. }
  rewrite Hb, EDy, ELy. cbn [mbind option_bind]. by rewrite wrap64_small by lia.
Qed.

(** No rebalancing: whatever [CORD_balance] is, a result below the limit is the
    concatenation. *)
Lemma CORD_cat_shallow (x y : cord) :
  wf x -> wf y -> clen x + clen y < W64 -> 1 + Z.max (dep x) (dep y) < CORD_MAX_DEPTH ->
  exists z, CORD_cat_ bal x y = Some z /\ wf z /\ chars z = chars x ++ chars y /\
            dep z <= 1 + Z.max (dep x) (dep y).
Proof.
  intros Hx Hy Hw Hd. destruct (CORD_cat_pre x y) as (z & E & Hz & Hzc & Hzd); [done|done|lia..|].
  exists z. split_and!; [|done..]. rewrite E. unfold finish.
  by destruct (Z.leb_spec CORD_MAX_DEPTH (dep z)); [lia|].
Qed.
End Cat.

End CordCat.
