(* ===== verification/CordBalance.v ===== *)
(** * CordBalance: [CORD_balance] terminates, keeps the characters and bounds the depth

    The forest of the balancing algorithm as an invariant: entry [i] is empty or
    holds a well-formed cord of at least [min_len[i]] characters and of depth at
    most [i + 1], and the entries in decreasing order spell what was scanned.  The
    loops keep it, never leave the initialised part of the array and never
    concatenate into a cord that would itself need rebalancing. *)

From Stdlib Require Import ZArith Lia.
From stdpp Require Import base gmap list.
From S2P Require Import Prelude Cord CordSem CordCat.

Module CordBalance.
Import Cord CordSem CordCat.


(** ** The table *)

(** The sequence [min_len] tabulates. *)
Fixpoint fib_pair (k : nat) : Z * Z :=
  match k with O => (1, 2) | S k => let '(a, b) := fib_pair k in (b, a + b) end.

Definition fibm (k : nat) : Z := (fib_pair k).1.

Lemma fibm_SS (k : nat) : fibm (S (S k)) = fibm (S k) + fibm k.
Proof. unfold fibm. cbn. destruct (fib_pair k). cbn. lia. Qed.

Lemma fibm_pos (k : nat) : 1 <= fibm k /\ fibm k < fibm (S k).
Proof. induction k as [|k IH]; [by cbn|]. rewrite fibm_SS. lia. Qed.

Lemma fibm_double (k : nat) : fibm (S k) <= 2 * fibm k.
Proof. destruct k; [by cbn|]. rewrite fibm_SS. pose proof (fibm_pos k). lia. Qed.

Lemma fibm_mono (i j : nat) : (i <= j)%nat -> fibm i <= fibm j.
Proof. induction 1; [lia|]. pose proof (fibm_pos m). lia. Qed.

Lemma fibm_lt_inv (i j : nat) : fibm i < fibm j -> (i < j)%nat.
Proof. intros H. destruct (decide (i < j)%nat); [done|]. pose proof (fibm_mono j i). lia. Qed.

Lemma fibm_le_inv (i j : nat) : fibm i <= fibm j -> (i <= j)%nat.
Proof.
  intros H. destruct (decide (i <= j)%nat); [done|].
  pose proof (fibm_mono (S j) i). pose proof (fibm_pos j). lia.
Qed.

Lemma min_len_fibm : min_len = fibm <$> seq 0 48.
Proof. by vm_compute. Qed.

Lemma min_len_at (k : nat) : (k < 48)%nat -> min_len !! k = Some (fibm k).
Proof.
  intros. rewrite min_len_fibm, list_lookup_fmap, lookup_seq_lt by done. done.
Qed.

Lemma loop_fuel_eq : loop_fuel = 49%nat.
Proof. done. Qed.

Lemma fibm_46 : fibm 46 < W64.
Proof. by vm_compute. Qed.

(** ** The forest *)

(** The cord of an entry; nothing for an indeterminate one. *)
Definition entry_chars (e : ForestElement) : list Z :=
  match fe_c e with Some c => chars c | None => [] end.

(** What the forest spells: its entries in order of decreasing indices. *)
Fixpoint forest_chars (f : Forest) : list Z :=
  match f with [] => [] | e :: f => forest_chars f ++ entry_chars e end.

Lemma forest_chars_app (f g : Forest) : forest_chars (f ++ g) = forest_chars g ++ forest_chars f.
Proof.
  induction f as [|e f IH]; cbn; [by rewrite app_nil_r|]. by rewrite IH, app_assoc.
Qed.

Lemma forest_chars_nil (f : Forest) : Forall (fun e => entry_chars e = []) f -> forest_chars f = [].
Proof. induction 1 as [|e f He _ IH]; cbn; [done|]. by rewrite IH, He. Qed.

(** The entries below [i] are empty. *)
Definition low_empty (f : Forest) (i : nat) : Prop :=
  forall j e, (j < i)%nat -> f !! j = Some e -> entry_chars e = [].

Lemma low_empty_take (f : Forest) (i : nat) : low_empty f i -> forest_chars (take i f) = [].
Proof.
  intros H. apply forest_chars_nil, Forall_lookup. intros j e He.
  apply lookup_take_Some in He as [He ?]. by eapply H.
Qed.

Lemma forest_chars_insert (f : Forest) (i : nat) (e e' : ForestElement) :
  low_empty f i -> f !! i = Some e ->
  exists rest, forest_chars f = rest ++ entry_chars e /\
               forest_chars (<[i := e']> f) = rest ++ entry_chars e'.
Proof.
  intros Hl He. exists (forest_chars (drop (S i) f)).
  assert (Hlt := lookup_lt_Some _ _ _ He).
  rewrite insert_take_drop by done. rewrite <- (take_drop_middle f i e He) at 1.
  rewrite !forest_chars_app. cbn. by rewrite low_empty_take, !app_nil_r by done.
Qed.

(** The entries below [t] are initialised; a nonempty one is long enough for its
    index and not too deep for it. *)
Definition entry_ok (i : nat) (e : ForestElement) : Prop :=
  exists c, fe_c e = Some c /\
    (c = CORD_EMPTY \/
     wfn c /\ fe_len e = Some (clen c) /\ fibm i <= clen c /\ dep c <= Z.of_nat i + 1).

Record forest_ok (t : nat) (f : Forest) : Prop := {
  fo_len : length f = 48%nat;
  fo_entry : forall i e, (i < t)%nat -> f !! i = Some e -> entry_ok i e;
  fo_rest : forall i e, (t <= i)%nat -> f !! i = Some e -> entry_chars e = [] }.

Lemma forest_ok_lookup (t : nat) (f : Forest) (i : nat) :
  forest_ok t f -> (i < t <= 48)%nat -> exists e, f !! i = Some e /\ entry_ok i e.
Proof.
  intros Hf Hi. destruct (lookup_lt_is_Some_2 f i) as [e He]; [rewrite (fo_len _ _ Hf); lia|].
  exists e. split; [done|]. apply (fo_entry _ _ Hf); [lia|done].
Qed.

Lemma forest_ok_insert (t : nat) (f : Forest) (i : nat) (e : ForestElement) :
  forest_ok t f -> (i < t)%nat -> entry_ok i e -> forest_ok t (<[i := e]> f).
Proof.
  intros [Hl He Hr] Hi Hok. split.
  - by rewrite length_insert.
  - intros j e' Hj [(-> & <- & _)|[_ ?]]%list_lookup_insert_Some; auto.
  - intros j e' Hj [(-> & _ & _)|[_ ?]]%list_lookup_insert_Some; [lia|eauto].
Qed.

Lemma forest_clear_insert (f : Forest) (i : nat) (e : ForestElement) :
  f !! i = Some e ->
  forest_clear f i = <[i := {| fe_c := Some CORD_EMPTY; fe_len := fe_len e |}]> f.
Proof.
  intros He. unfold forest_clear. apply list_eq. intros j. destruct (decide (i = j)) as [<-|].
  - rewrite list_lookup_alter_eq, He, list_lookup_insert_eq; [done|by eapply lookup_lt_Some].
  - by rewrite list_lookup_alter_ne, list_lookup_insert_ne.
Qed.

Lemma entry_ok_empty (i : nat) (len : option Z) :
  entry_ok i {| fe_c := Some CORD_EMPTY; fe_len := len |}.
Proof. exists CORD_EMPTY. auto. Qed.

Lemma collect_cons cat b (f : Forest) (i : nat) (e : ForestElement) (c sum : cord) (sum_len : Z) :
  f !! i = Some e -> fe_c e = Some c -> c <> CORD_EMPTY ->
  collect cat b f i sum sum_len
  = (sum ← cat c sum; len ← fe_len e;
     Some (if b then forest_clear f i else f, sum, wrap64 (sum_len + len))).
Proof. intros He Hc Hn. unfold collect. rewrite He. cbn. rewrite Hc. cbn. by destruct c. Qed.

Section Balance.
(** The rebalancing function the concatenations would call, never used below. *)
Context (bal : cord -> option cord).
(** An index whose [min_len] exceeds the length of the whole cord. *)
Context (t : nat) (Ht : (t <= 46)%nat).

Notation cat := (CORD_cat_ bal).

(** The state of a scan: the lower [i] entries are in [sum], and the forest with
    [sum] spells [C]. *)
Record scan (C : list Z) (f : Forest) (i : nat) (sum : cord) : Prop := {
  sc_forest : forest_ok t f;
  sc_low : low_empty f i;
  sc_sum : wf sum;
  sc_chars : forest_chars f ++ chars sum = C }.

Lemma fibm_bound (n : Z) : n < fibm t -> n < W64.
Proof. pose proof (fibm_mono t 46 Ht). pose proof fibm_46. lia. Qed.

Lemma scan_clen (C : list Z) f i sum : scan C f i sum -> clen sum <= zlen C.
Proof. intros [_ _ _ <-]. rewrite zlen_app. pose proof (zlen_nonneg (forest_chars f)). lia. Qed.

(** One collecting step.  [b] is whether the entry is cleared. *)
Lemma collect_ok (C : list Z) f i sum :
  scan C f i sum -> zlen C < fibm t -> (i < t)%nat -> dep sum + 1 < CORD_MAX_DEPTH ->
  exists f' sum', scan C f' (S i) sum' /\
    (forall j, (S i <= j)%nat -> f' !! j = f !! j) /\
    (forall b g, g !! i = f !! i ->
       exists g', collect cat b g i sum (clen sum) = Some (g', sum', clen sum') /\
                  (b = true -> g = f -> g' = f')) /\
    (sum' = sum \/
     dep sum' <= 1 + Z.max (Z.of_nat i + 1) (dep sum) /\ clen sum + fibm i <= clen sum').
Proof.
  intros Hs HC Hi Hd. pose proof (scan_clen _ _ _ _ Hs) as Hsl. destruct Hs as [Hf Hlow Hsum Hch].
  destruct (forest_ok_lookup _ _ i Hf) as (e & He & c & Hc & Hok); [lia|].
  assert (Hnext : forall e', entry_chars e' = [] -> low_empty (<[i := e']> f) (S i)).
  { intros e' He' j e'' Hj [(-> & <- & _)|[Hne ?]]%list_lookup_insert_Some; [done|].
    eapply (Hlow j); [lia|done]. }
  destruct Hok as [->|(Hcw & Hcl & Hcm & Hcd)].
  { exists f, sum. split_and!; [| |intros b g Hg|by left].
    - split; [done| |done|done]. intros j e' Hj He'. destruct (decide (j = i)) as [->|].
      + rewrite He in He'. injection He' as <-. unfold entry_chars. by rewrite Hc.
      + apply (Hlow j); [lia|done].
    - done.
    - exists g. unfold collect. rewrite Hg, He. cbn. by rewrite Hc. }
  pose proof (wfn_clen _ Hcw). pose proof (zlen_nonneg (chars sum)).
  set (e0 := {| fe_c := Some CORD_EMPTY; fe_len := fe_len e |}).
  destruct (forest_chars_insert f i e e0 Hlow He) as (rest & Er & Er').
  assert (Ee : entry_chars e = chars c) by (unfold entry_chars; by rewrite Hc).
  rewrite Ee in Er. cbn in Er'. rewrite app_nil_r in Er'.
  assert (HCl : clen c + clen sum <= zlen C).
  { rewrite <- Hch, Er, !zlen_app. pose proof (zlen_nonneg rest). lia. }
  pose proof (fibm_bound _ HC). unfold CORD_MAX_DEPTH in *.
  destruct (CORD_cat_shallow bal c sum) as (z & Ez & Hz & Hzc & Hzd);
    [by right|done|lia|unfold CORD_MAX_DEPTH; lia|].
  assert (Hzl : clen z = clen c + clen sum) by (by rewrite Hzc, zlen_app).
  exists (<[i := e0]> f), z. split_and!; [| |intros b g Hg|right; split; lia].
  - split; [apply forest_ok_insert; [done|done|apply entry_ok_empty]|by apply Hnext|done|].
    by rewrite Er', Hzc, app_assoc, <- Er.
  - intros j Hj. apply list_lookup_insert_ne. lia.
  - exists (if b then forest_clear g i else g). split.
    + rewrite (collect_cons _ _ _ _ e c) by (congruence || by intros ->).
      rewrite Ez. cbn [mbind option_bind]. rewrite Hcl. cbn [mbind option_bind].
      rewrite wrap64_small by lia. do 2 f_equal. lia.
    + intros -> ->. by apply forest_clear_insert.
Qed.
(** The depth of what the first loop of [CORD_add_forest] collected. *)
Definition lower_depth (i : nat) (sum : cord) : Prop :=
  dep sum <= Z.of_nat i \/
  exists i0, i = S i0 /\ dep sum <= Z.of_nat i + 1 /\ fibm i0 <= clen sum.

Lemma lower_depth_le (i : nat) (sum : cord) : lower_depth i sum -> dep sum <= Z.of_nat i + 1.
Proof. intros [?|(? & _ & ? & _)]; lia. Qed.

Lemma add_forest_lower_ok (C : list Z) (len : Z) (fuel : nat) f i sum :
  scan C f i sum -> zlen C + len < fibm t -> 0 < len -> lower_depth i sum ->
  (i = 0%nat \/ fibm i < len) -> (48 - i <= fuel)%nat ->
  exists f' i' sum',
    add_forest_lower cat fuel f i sum (clen sum) len = Some (f', i', sum', clen sum') /\
    scan C f' i' sum' /\ lower_depth i' sum' /\
    len <= fibm (S i') /\ (i' = 0%nat \/ fibm i' < len).
Proof.
  intros Hs HC Hlen. revert f i sum Hs. induction fuel as [|fuel IH]; intros f i sum Hs Hd Hi Hfuel.
  { exfalso. pose proof (zlen_nonneg C). destruct Hi as [->|Hi]; [lia|].
    assert (i < t)%nat by (apply fibm_lt_inv; lia). lia. }
  pose proof (zlen_nonneg C).
  assert (Hit : (i < t)%nat).
  { destruct Hi as [->|Hi]; [|apply fibm_lt_inv; lia].
    destruct t as [|t']; [|lia]. exfalso. change (fibm 0) with 1 in HC. lia. }
  cbn [add_forest_lower]. rewrite min_len_at by lia. cbn [mbind option_bind].
  destruct (Z.ltb_spec (fibm (S i)) len) as [Hlt|Hge].
  - assert (HSi : (S i < t)%nat) by (apply fibm_lt_inv; lia).
    pose proof (lower_depth_le _ _ Hd). unfold CORD_MAX_DEPTH.
    destruct (collect_ok C f i sum) as (f' & sum' & Hs' & _ & Hcol & Hdep);
      [done|lia|done|unfold CORD_MAX_DEPTH; lia|].
    destruct (Hcol true f eq_refl) as (g' & -> & ->); [|done..]. cbn [mbind option_bind].
    apply IH; [done| |by right|lia].
    destruct Hdep as [->|[Hd1 Hd2]]; [left; lia|]. right. exists i.
    pose proof (zlen_nonneg (chars sum)). split_and!; [done|lia|lia].
  - eexists f, i, sum. by split_and!.
Qed.

(** The depth of the tree the second loop builds, at index [k]. *)
Definition upper_depth (k : nat) (sum : cord) : Prop :=
  dep sum <= Z.of_nat k \/
  (dep sum <= Z.of_nat k + 1 /\ fibm k <= clen sum) \/
  (dep sum <= Z.of_nat k + 2 /\ fibm (S k) <= clen sum).

(** Adding a leaf or a balanced tree to what the first loop collected. *)
Lemma lower_to_upper (i : nat) (sum x z : cord) :
  lower_depth i sum -> wf z -> wfn x ->
  chars z = chars sum ++ chars x -> dep z <= 1 + Z.max (dep sum) (dep x) ->
  fibm (Z.to_nat (dep x)) <= clen x -> clen x <= fibm (S i) -> (i = 0%nat \/ fibm i < clen x) ->
  upper_depth i z.
Proof.
  intros Hl Hz Hx Hc Hd Hb Hi Hi'. pose proof (dep_nonneg _ Hx). pose proof (wfn_clen _ Hx).
  assert (Hcl : clen z = clen sum + clen x) by (by rewrite Hc, zlen_app).
  pose proof (zlen_nonneg (chars sum)).
  assert (Hdx : (Z.to_nat (dep x) <= S i)%nat) by (apply fibm_le_inv; lia).
  assert (Hxi : fibm i <= clen x) by (destruct Hi' as [->|?]; [change (fibm 0) with 1; lia|lia]).
  destruct Hl as [Hl|(i0 & -> & Hl & Hl')].
  - destruct (decide (Z.to_nat (dep x) = S i)) as [E|E].
    + rewrite E in Hb. right. right. split; lia.
    + right. left. split; lia.
  - destruct Hi' as [?|Hi']; [done|]. right. right. rewrite fibm_SS. split; lia.
Qed.

Lemma add_forest_upper_ok (C : list Z) (fuel : nat) f k sum :
  scan C f k sum -> zlen C < fibm t -> upper_depth k sum ->
  (fibm k <= clen sum \/ exists k', k = S k' /\ fibm k' <= clen sum) -> (48 - k <= fuel)%nat ->
  exists f' k' sum',
    add_forest_upper cat fuel f k sum (clen sum) = Some (f', S k', sum', clen sum') /\
    scan C f' (S k') sum' /\ dep sum' <= Z.of_nat k' + 1 /\ fibm k' <= clen sum'.
Proof.
  intros Hs HC. revert f k sum Hs. induction fuel as [|fuel IH]; intros f k sum Hs Hd Hk Hfuel.
  { exfalso. pose proof (scan_clen _ _ _ _ Hs). destruct Hk as [Hk|(k' & -> & Hk)].
    - assert (k < t)%nat by (apply fibm_lt_inv; lia). lia.
    - assert (k' < t)%nat by (apply fibm_lt_inv; lia). lia. }
  pose proof (scan_clen _ _ _ _ Hs) as Hsl.
  assert (Hkt : (k <= t)%nat).
  { destruct Hk as [Hk|(k' & -> & Hk)].
    - assert (k < t)%nat by (apply fibm_lt_inv; lia). lia.
    - assert (k' < t)%nat by (apply fibm_lt_inv; lia). lia. }
  cbn [add_forest_upper]. rewrite min_len_at by lia. cbn [mbind option_bind].
  destruct (Z.leb_spec (fibm k) (clen sum)) as [Hle|Hgt].
  - assert (Hkt' : (k < t)%nat) by (apply fibm_lt_inv; lia).
    assert (Hds : dep sum + 1 < CORD_MAX_DEPTH).
    { unfold CORD_MAX_DEPTH. destruct Hd as [?|[[? _]|[? Hd]]]; [lia..|].
      assert (S k < t)%nat by (apply fibm_lt_inv; lia). lia. }
    destruct (collect_ok C f k sum) as (f' & sum' & Hs' & _ & Hcol & Hdep); [done..|].
    destruct (Hcol true f eq_refl) as (g' & -> & ->); [|done..]. cbn [mbind option_bind].
    apply IH; [done| | |lia].
    + unfold upper_depth. rewrite fibm_SS. pose proof (fibm_double k).
      destruct Hdep as [->|[Hd1 Hd2]]; destruct Hd as [?|[[? ?]|[? ?]]]; lia.
    + right. exists k. split; [done|]. destruct Hdep as [->|[_ ?]]; [done|].
      pose proof (fibm_pos k). lia.
  - destruct Hk as [?|(k' & -> & Hk)]; [lia|]. exists f, k', sum. split_and!; [done|done| |done].
    destruct Hd as [?|[[_ ?]|[_ Hd]]]; [lia|lia|]. pose proof (fibm_pos (S k')). lia.
Qed.
(** A leaf or a balanced concatenation. *)
Definition balanced (x : cord) : Prop := fibm (Z.to_nat (dep x)) <= clen x.

Lemma CORD_add_forest_ok (C : list Z) (f : Forest) (x : cord) :
  forest_ok t f -> forest_chars f = C -> wfn x -> balanced x -> zlen C + clen x < fibm t ->
  exists f', CORD_add_forest cat f x (clen x) = Some f' /\ forest_ok t f' /\
             forest_chars f' = C ++ chars x.
Proof.
  intros Hf HfC Hx Hb HC. unfold CORD_add_forest. pose proof (wfn_clen _ Hx).
  pose proof (zlen_nonneg C).
  destruct (add_forest_lower_ok C (clen x) loop_fuel f 0 CORD_EMPTY)
    as (f1 & i & sum & E & Hs & Hd & Hi & Hi').
  { split; [done| |by left|by rewrite HfC, app_nil_r]. intros j e ?; lia. }
  { done. } { lia. } { by left. } { by left. } { rewrite loop_fuel_eq. lia. }
  change (clen CORD_EMPTY) with 0 in E. rewrite E. cbn [mbind option_bind].
  pose proof (scan_clen _ _ _ _ Hs). pose proof (lower_depth_le _ _ Hd).
  assert (Hit : (i < t)%nat).
  { destruct Hi' as [->|?]; [|apply fibm_lt_inv; lia].
    destruct t as [|t']; [|lia]. exfalso. change (fibm 0) with 1 in HC. lia. }
  pose proof (dep_nonneg _ Hx).
  assert (Hdx : (Z.to_nat (dep x) < t)%nat) by (apply fibm_lt_inv; unfold balanced in Hb; lia).
  pose proof (fibm_bound _ HC).
  destruct (CORD_cat_shallow bal sum x) as (z & -> & Hz & Hzc & Hzd);
    [by destruct Hs|by right|lia|unfold CORD_MAX_DEPTH; lia|].
  cbn [mbind option_bind]. assert (Hzl : clen z = clen sum + clen x) by (by rewrite Hzc, zlen_app).
  rewrite wrap64_small by (pose proof (zlen_nonneg (chars sum)); lia). rewrite <- Hzl.
  assert (Hxi : fibm i <= clen x) by (destruct Hi' as [->|?]; [change (fibm 0) with 1; lia|lia]).
  destruct (add_forest_upper_ok (C ++ chars x) loop_fuel f1 i z) as (f2 & k & z' & -> & Hs2 & Hd2 & Hl2).
  { destruct Hs as [? ? ? Hsc]. split; [done..|]. by rewrite Hzc, app_assoc, Hsc. }
  { rewrite zlen_app. lia. } { by eapply lower_to_upper. }
  { left. pose proof (zlen_nonneg (chars sum)). lia. }
  { rewrite loop_fuel_eq. lia. }
  cbn [mbind option_bind]. eexists. split; [done|].
  pose proof (scan_clen _ _ _ _ Hs2) as Hcl. rewrite zlen_app in Hcl.
  assert (Hkt : (k < t)%nat) by (apply fibm_lt_inv; lia). destruct Hs2 as [Hf2 Hlow2 Hz' Hc2].
  assert (Hz'n : wfn z').
  { destruct Hz' as [->|?]; [|done]. pose proof (fibm_pos k).
    change (clen CORD_EMPTY) with 0 in Hl2. lia. }
  split.
  { apply forest_ok_insert; [done|done|]. exists z'. split; [done|right]. by split_and!. }
  destruct (forest_ok_lookup _ _ k Hf2) as (e & He & _); [lia|].
  destruct (forest_chars_insert f2 k e {| fe_c := Some z'; fe_len := Some (clen z') |})
    as (rest & Er & ->); [intros j ? ?; apply Hlow2; lia|done|].
  rewrite (Hlow2 k e), app_nil_r in Er by (done || lia). by rewrite <- Er, <- Hc2.
Qed.

Lemma CORD_balance_insert_ok (x : cord) (C : list Z) (f : Forest) :
  forest_ok t f -> forest_chars f = C -> wfn x -> zlen C + clen x < fibm t ->
  exists f', CORD_balance_insert cat x (clen x) f = Some f' /\ forest_ok t f' /\
             forest_chars f' = C ++ chars x.
Proof.
  revert C f. induction x as [|s|d ll len lc IHl rc IHr|len fn|len k c _ i];
    intros C f Hf HfC Hx HC; pose proof (wfn_clen _ Hx); [done|..].
  - apply CORD_add_forest_ok; try done. red. cbn [dep]. change (fibm (Z.to_nat 0)) with 1. lia.
  - cbn [CORD_balance_insert]. pose proof (dep_nonneg _ Hx) as Hd. cbn [dep] in Hd.
    assert (Hcase : exists b : bool, (if CORD_MAX_DEPTH <=? d then Some true
        else m ← get min_len d; Some (clen (Concat d ll len lc rc) <? m)) = Some b /\
      (b = false -> balanced (Concat d ll len lc rc))).
    { unfold CORD_MAX_DEPTH. destruct (Z.leb_spec 48 d); [by exists true|].
      rewrite get_spec, min_len_at by lia. cbn [mbind option_bind]. eexists. split; [done|].
      intros ?%Z.ltb_ge. done. }
    destruct Hcase as (b & -> & Hb). cbn [mbind option_bind]. destruct b.
    + rewrite LEFT_LEN_ok by done. cbn [mbind option_bind].
      pose proof Hx as (Hl & Hr & -> & Hw & _). rewrite clen_Concat in *.
      pose proof (wfn_clen _ Hl). pose proof (wfn_clen _ Hr).
      destruct (IHl C f) as (f1 & -> & Hf1 & Hc1); [done|done|done|lia|]. cbn [mbind option_bind].
      rewrite wrap64_small by lia. replace (clen lc + clen rc - clen lc) with (clen rc) by lia.
      destruct (IHr (C ++ chars lc) f1) as (f2 & -> & Hf2 & Hc2);
        [done|done|done|rewrite zlen_app; lia|].
      exists f2. split_and!; [done..|]. cbn [chars]. by rewrite Hc2, app_assoc.
    + apply CORD_add_forest_ok; auto.
  - apply CORD_add_forest_ok; try done. red. cbn [dep]. change (fibm (Z.to_nat 0)) with 1. lia.
  - apply CORD_add_forest_ok; try done. red. cbn [dep]. change (fibm (Z.to_nat 0)) with 1. lia.
Qed.

(** The scan of [CORD_concat_forest]: [g] is the forest without what is in [sum]. *)
Lemma concat_forest_loop_ok (C : list Z) (fuel : nat) f g i sum :
  scan C g i sum -> zlen C < fibm t -> (forall j, (i <= j)%nat -> f !! j = g !! j) ->
  dep sum <= Z.of_nat i + 1 -> (i <= t)%nat -> dep sum <= Z.of_nat t + 1 -> (t - i < fuel)%nat ->
  exists z, concat_forest_loop cat fuel f i sum (clen sum) (zlen C) = Some z /\ wf z /\
            chars z = C /\ dep z <= Z.of_nat t + 1.
Proof.
  intros Hs HC. revert g i sum Hs. induction fuel as [|fuel IH]; intros g i sum Hs Hfg Hd Hi Hdt Hfuel;
    [lia|]. cbn [concat_forest_loop].
  destruct (Z.eqb_spec (clen sum) (zlen C)) as [E|E].
  - exists sum. split_and!; [done|by destruct Hs| |done].
    destruct Hs as [_ _ _ <-]. rewrite zlen_app in E.
    destruct (forest_chars g) as [|a l]; [done|]. rewrite zlen_cons in E.
    pose proof (zlen_nonneg l). lia.
  - assert (Hit : (i < t)%nat).
    { destruct (decide (i = t)) as [->|]; [|lia]. exfalso. apply E.
      destruct Hs as [Hg Hlow _ <-]. rewrite forest_chars_nil; [done|].
      apply Forall_lookup. intros j e He. destruct (decide (j < t)%nat); [by eapply Hlow|].
      eapply (fo_rest _ _ Hg); [|done]. lia. }
    destruct (collect_ok C g i sum) as (g' & sum' & Hs' & Hg' & Hcol & Hdep);
      [done|done|done|unfold CORD_MAX_DEPTH; lia|].
    destruct (Hcol false f) as (f' & -> & _); [by apply Hfg|]. cbn [mbind option_bind].
    apply (IH g'); [done| |destruct Hdep as [->|[? _]]; lia|lia|destruct Hdep as [->|[? _]]; lia|lia].
    intros j Hj. rewrite Hg', Hfg by lia. done.
Qed.
End Balance.

(** ** Initialising the forest *)

(** The entries below [i] are cleared and nothing is in the forest yet. *)
Record cleared (i : nat) (f : Forest) : Prop := {
  cl_len : length f = 48%nat;
  cl_low : forall j e, (j < i)%nat -> f !! j = Some e -> fe_c e = Some CORD_EMPTY;
  cl_all : forall j e, f !! j = Some e -> entry_chars e = [] }.

Lemma cleared_S (i : nat) (f : Forest) :
  cleared i f -> (i < 48)%nat -> cleared (S i) (forest_clear f i).
Proof.
  intros [Hl Hlow Ha] Hi. destruct (lookup_lt_is_Some_2 f i) as [e He]; [lia|].
  rewrite (forest_clear_insert _ _ _ He). split; [by rewrite length_insert| |].
  - intros j e' Hj [(-> & <- & _)|[? ?]]%list_lookup_insert_Some; [done|]. apply (Hlow j); [lia|done].
  - intros j e' [(-> & <- & _)|[? ?]]%list_lookup_insert_Some; [done|]. by eapply Ha.
Qed.

Lemma init_forest_loop_ok (n i k : nat) (f : Forest) (len : Z) :
  (i + n = 48)%nat -> cleared i f -> (i <= k < 48)%nat -> len < fibm k ->
  exists t f', init_forest_loop (drop i min_len) i f len = Some f' /\ cleared t f' /\
               (t <= k)%nat /\ len < fibm t.
Proof.
  revert i f. induction n as [|n IH]; intros i f Hn Hf Hk Hlen; [lia|].
  rewrite (drop_S _ (fibm i)) by (apply min_len_at; lia). cbn [init_forest_loop].
  assert (Hc : cleared (S i) (forest_clear f i)) by (apply cleared_S; [done|lia]).
  destruct (Z.ltb_spec len (fibm i)).
  - exists i, (forest_clear f i). split_and!; [done| |lia|done].
    destruct Hc as [? Hlow ?]. split; [done| |done]. intros j e Hj. apply Hlow. lia.
  - apply IH; [lia|done| |done]. destruct (decide (i = k)) as [->|]; lia.
Qed.

Lemma CORD_init_forest_ok (k : nat) (len : Z) :
  (k < 48)%nat -> len < fibm k ->
  exists t f, CORD_init_forest forest_uninit len = Some f /\ forest_ok t f /\
              forest_chars f = [] /\ (t <= k)%nat /\ len < fibm t.
Proof.
  intros Hk Hlen. destruct (init_forest_loop_ok 48 0 k forest_uninit len) as (t & f & E & Hf & ? & ?);
    [done| |lia|done|].
  { split; [done|intros; lia|]. intros j e He. by apply lookup_replicate in He as [-> _]. }
  exists t, f. split_and!; [exact E| | |done|done].
  - destruct Hf as [Hl Hlow Ha]. split; [done| |].
    + intros i e Hi He. exists CORD_EMPTY. split; [by eapply Hlow|by left].
    + intros i e _ He. by eapply Ha.
  - apply forest_chars_nil, Forall_lookup. by destruct Hf.
Qed.

(** [CORD_init_forest] stops the program on a cord longer than the table allows. *)
Lemma CORD_init_forest_too_long (len : Z) :
  fibm 47 <= len -> CORD_init_forest forest_uninit len = None.
Proof.
  intros Hlen. unfold CORD_init_forest.
  assert (H : forall ml i f, Forall (fun m => m <= len) ml -> init_forest_loop ml i f len = None).
  { induction ml as [|m ml IH]; intros i f Hml; [done|]. apply Forall_cons in Hml as [Hm Hml].
    cbn. destruct (Z.ltb_spec len m); [lia|auto]. }
  apply H. rewrite min_len_fibm. apply Forall_fmap, Forall_forall. intros k Hk%elem_of_seq.
  cbn. pose proof (fibm_mono k 47 ltac:(lia)). lia.
Qed.

#[local] Opaque fibm.

(** ** [CORD_balance] *)

(** The longest cord the result is proved for: [min_len[46]] characters. *)
Definition CORD_LIMIT : Z := 4807526976.

Lemma CORD_LIMIT_fibm : fibm 46 = CORD_LIMIT.
Proof. by vm_compute. Qed.

Lemma CORD_balance__ok (bal : cord -> option cord) (x : cord) (k : nat) :
  wf x -> (k <= 46)%nat -> clen x < fibm k ->
  exists y, CORD_balance_ (CORD_cat_ bal) x = Some y /\ wf y /\ chars y = chars x /\
            dep y <= Z.of_nat k + 1.
Proof.
  intros [->|Hx] Hk Hlen; [by exists CORD_EMPTY; split_and!; [|left|..|cbn; lia]|].
  destruct (is_str x) eqn:Es.
  { destruct x; try done. exists (Str s). split_and!; [done|by right|done|cbn; lia]. }
  pose proof (wfn_clen _ Hx).
  destruct (CORD_init_forest_ok k (clen x)) as (t & f & Ei & Hf & Hfc & Htk & Ht); [lia|done|].
  destruct (CORD_balance_insert_ok bal t ltac:(lia) x [] f) as (f' & Eb & Hf' & Hfc'); [done..|].
  destruct (concat_forest_loop_ok bal t ltac:(lia) (chars x) loop_fuel f' f' 0 CORD_EMPTY)
    as (z & Ez & Hz & Hzc & Hzd).
  { split; [done|intros j e ?; lia|by left|]. by rewrite app_nil_r. }
  { done. } { done. } { cbn; lia. } { lia. } { cbn; lia. } { rewrite loop_fuel_eq. lia. }
  exists z. split_and!; [|done|done|lia].
  assert (E : CORD_balance_ (CORD_cat_ bal) x =
    (len ← LEN x; forest ← CORD_init_forest forest_uninit len;
     forest ← CORD_balance_insert (CORD_cat_ bal) x len forest;
     CORD_concat_forest (CORD_cat_ bal) forest len)) by (by destruct x).
  rewrite E, LEN_ok by done. cbn [mbind option_bind]. rewrite Ei. cbn [mbind option_bind].
  rewrite Eb. cbn [mbind option_bind]. exact Ez.
Qed.

Lemma CORD_balance_unfold : CORD_balance = CORD_balance_ (CORD_cat_ (CORD_balance_n 47)).
Proof. done. Qed.

(** The knot is used through the lemmas below only. *)
#[global] Opaque CORD_balance.

Lemma CORD_balance_ok (x : cord) :
  wf x -> clen x < CORD_LIMIT ->
  exists y, CORD_balance x = Some y /\ wf y /\ chars y = chars x /\ dep y < CORD_MAX_DEPTH.
Proof.
  intros Hx Hl. rewrite CORD_balance_unfold. rewrite <- CORD_LIMIT_fibm in Hl.
  destruct (CORD_balance__ok (CORD_balance_n 47) x 46) as (y & ? & ? & ? & ?); [assumption|lia|exact Hl|].
  exists y. split_and!; [assumption..|]. unfold CORD_MAX_DEPTH. lia.
Qed.

(** ** Concatenation with rebalancing *)

(** A cord as the library hands it out: well-formed and of bounded depth. *)
Definition cord_ok (x : cord) : Prop := wf x /\ dep x < CORD_MAX_DEPTH.

Lemma finish_balance_ok (z : cord) :
  wf z -> clen z < CORD_LIMIT ->
  exists y, finish CORD_balance z = Some y /\ cord_ok y /\ chars y = chars z.
Proof.
  intros Hz Hl. unfold finish. destruct (Z.leb_spec CORD_MAX_DEPTH (dep z)).
  - destruct (CORD_balance_ok z) as (y & ? & ? & ? & ?); [done..|]. by exists y.
  - by exists z.
Qed.

Lemma CORD_LIMIT_W64 : CORD_LIMIT < W64.
Proof. done. Qed.

Lemma CORD_cat_ok (x y : cord) :
  cord_ok x -> cord_ok y -> clen x + clen y < CORD_LIMIT ->
  exists z, CORD_cat x y = Some z /\ cord_ok z /\ chars z = chars x ++ chars y.
Proof.
  intros [Hx Hdx] [Hy Hdy] Hl. pose proof CORD_LIMIT_W64.
  destruct (CORD_cat_pre CORD_balance x y) as (z & E & Hz & Hzc & _); [done|done|lia|done|done|].
  destruct (finish_balance_ok z) as (r & ? & ? & Hr); [done|rewrite Hzc, zlen_app; lia|].
  exists r. unfold CORD_cat. split_and!; [congruence|done|congruence].
Qed.

Lemma CORD_cat_char_star_ok (x : cord) (y : list Z) (len_y : Z) :
  cord_ok x -> buf_ok y len_y -> clen x + len_y < CORD_LIMIT ->
  exists z, CORD_cat_char_star x y len_y = Some z /\ cord_ok z /\ chars z = chars x ++ sub 0 len_y y.
Proof.
  intros [Hx Hdx] Hb Hl. pose proof CORD_LIMIT_W64.
  destruct (Z.eqb_spec len_y 0) as [->|Hn].
  { exists x. split; [reflexivity|]. split; [by split|]. cbn. symmetry. apply app_nil_r. }
  assert (0 < len_y) by (destruct Hb; lia).
  destruct (CORD_cat_char_star_pre CORD_balance x y len_y) as (z & E & Hz & Hzc & _); [done|done|done|lia|done|].
  destruct (finish_balance_ok z) as (r & ? & ? & Hr); [by right|rewrite Hzc, zlen_app|].
  { rewrite zlen_sub by (destruct Hb; lia). lia. }
  exists r. unfold CORD_cat_char_star. split_and!; [congruence|done|congruence].
Qed.

End CordBalance.
