(* ===== verification/CordOps.v ===== *)
(** * CordOps: the operations on cords compute on the characters

    Concatenation, balancing, substrings and the iterators of [cordbscs.c] against
    the corresponding operations on the list of characters a cord denotes. *)

From Stdlib Require Import ZArith Lia.
From stdpp Require Import base gmap list.
From S2P Require Import Prelude Cord CordSem CordCat CordBalance.

Module CordOps.
Import Cord CordSem CordCat CordBalance.


(** ** Construction *)

Lemma strlen_c_string (s : list Z) : Forall is_char s -> strlen (c_string s) = Some (zlen s).
Proof. intros. unfold strlen, c_string. by rewrite cstr_app. Qed.

Lemma CORD_from_char_star_ok (s : list Z) :
  Forall is_char s -> zlen s < W64 ->
  exists x, CORD_from_char_star (c_string s) = Some x /\ cord_ok x /\ chars x = s.
Proof.
  intros Hs Hw. unfold CORD_from_char_star. rewrite strlen_c_string by done. cbn [mbind option_bind].
  destruct (Z.eqb_spec (zlen s) 0) as [E|E].
  - exists CORD_EMPTY. destruct s; [|rewrite zlen_cons in E; pose proof (zlen_nonneg s); lia].
    split; [done|]. split; [|done]. split; [by left|done].
  - pose proof (zlen_nonneg s).
    rewrite copy_char_substr_ok by (rewrite zlen_c_string; lia). cbn [mbind option_bind].
    rewrite sub_c_string, sub_all by lia.
    assert (s <> []) by (by intros ->). rewrite cord_at_c_string by done.
    exists (Str s). split; [done|]. split; [|done]. split; [right; by cbn|done].
Qed.

Lemma CORD_from_fn_ok (fn : Z -> Z) (len : Z) :
  0 <= len < W64 -> (forall i, is_byte (fn i)) ->
  exists x, CORD_from_fn fn len = Some x /\ cord_ok x /\ chars x = fn <$> seqZ 0 len.
Proof.
  intros Hl Hb. unfold CORD_from_fn.
  assert (El : zlen (fn <$> seqZ 0 len) = len).
  { unfold zlen. rewrite length_fmap, length_seqZ. lia. }
  destruct (CORD_from_fn_inner_ok (fun i => Some (fn i)) (Fn len fn) (fn <$> seqZ 0 len))
    as (y & E & Hw & Hc & Hd).
  - lia.
  - apply Forall_fmap, Forall_forall. auto.
  - rewrite El. intros j Hj. rewrite list_lookup_fmap, lookup_seqZ_lt by lia. cbn.
    do 2 f_equal. lia.
  - intros Hn. split_and!; [|done..]. cbn. split; [|done]. apply zlen_pos in Hn. lia.
  - rewrite El in E. exists y. split_and!; [done| |done]. split; [done|].
    rewrite Hd. done.
Qed.

Lemma clen_Fn (len : Z) (fn : Z -> Z) : 0 <= len -> clen (Fn len fn) = len.
Proof. intros. cbn [chars]. unfold zlen. rewrite length_fmap, length_seqZ. lia. Qed.

(** ** Substrings *)

(** A copy of a part of a string. *)
Lemma copied_string (l : list Z) (i n : Z) :
  Forall is_char (sub i n l) -> zlen l < W64 -> 0 < n -> 0 <= i -> i + n <= zlen l ->
  cord_at (c_string (sub i n l)) = Some (Str (sub i n l)) /\ wfn (Str (sub i n l)).
Proof.
  intros Hc Hw Hn Hi Hin. assert (sub i n l <> []) by (apply sub_nonnil; lia).
  split; [by apply cord_at_c_string|]. cbn. split_and!; [done|done|]. rewrite zlen_sub; lia.
Qed.

(** [y] is the part of [x] from [i] of [n] characters. *)
Definition is_substr (x : cord) (i n : Z) (y : cord) : Prop :=
  wfn y /\ dep y < CORD_MAX_DEPTH /\ chars y = sub i n (chars x).

Lemma substr_fn_ok (x : cord) (i n : Z) :
  wfn x -> IS_FUNCTION x = true -> 0 <= i -> 0 < n -> i + n <= clen x ->
  exists y, CORD_substr_checked x i n = Some y /\ is_substr x i n y.
Proof.
  intros Hx Hf Hi Hn Hin. pose proof (wfn_clen _ Hx).
  assert (Hcl : forall c j k, wfn c -> access_ok k c -> 0 <= j -> j + n <= clen c ->
    sub j n (chars c) = sub i n (chars x) ->
    exists y, CORD_substr_closure c j n k = Some y /\ is_substr x i n y).
  { intros c j k ???? Ec. destruct (CORD_substr_closure_ok c j n k) as (y & E & Hw & Hc & Hd); [done..|].
    exists y. split; [done|]. split_and!; [done|by rewrite Hd|congruence]. }
  assert (Hap : exists y, CORD_substr_closure x i n Apply = Some y /\ is_substr x i n y).
  { apply Hcl; [done|by destruct x|done|done|done]. }
  assert (E : CORD_substr_checked x i n =
    if SUBSTR_LIMIT <? n then
      match x with
      | Substr _ k sa_cord sa_index => CORD_substr_closure sa_cord (wrap64 (i + sa_index)) n k
      | _ => CORD_substr_closure x i n Apply
      end
    else
      r ← fn_chars (call_fn x) i (Z.to_nat n);
      match r with
      | None => CORD_substr_closure x i n Apply
      | Some buf => b ← copy_char_substr buf n; cord_at b
      end) by (by destruct x).
  rewrite E. clear E. destruct (Z.ltb_spec SUBSTR_LIMIT n).
  - destruct x as [| | |len fn|len k c j]; try done.
    destruct Hx as (Hc & Hk & ? & ? & ?). pose proof (wfn_clen _ Hc). cbn [chars] in *.
    rewrite zlen_sub in * by lia. rewrite wrap64_small by lia.
    apply Hcl; [done|done|lia|lia|]. symmetry. apply sub_sub; lia.
  - rewrite (fn_chars_ok (call_fn x) (chars x)).
    + cbn [mbind option_bind]. rewrite Z2Nat.id by lia. case_decide as Hc; [|done].
      rewrite copy_char_substr_ok by (rewrite zlen_sub; lia). cbn [mbind option_bind].
      rewrite sub_all by (rewrite zlen_sub; lia).
      destruct (copied_string (chars x) i n) as [-> Hw]; [done|lia..|].
      exists (Str (sub i n (chars x))). split; [done|]. by split_and!.
    + lia.
    + lia.
    + by apply chars_bytes.
    + intros j Hj. apply call_fn_ok; [done|done|lia].
Qed.

Lemma CORD_substr_checked_ok (x : cord) (i n : Z) :
  wfn x -> dep x < CORD_MAX_DEPTH -> clen x < CORD_LIMIT -> 0 <= i -> 0 < n -> i + n <= clen x ->
  exists y, CORD_substr_checked x i n = Some y /\ is_substr x i n y.
Proof.
  revert i n. induction x as [|s|d ll len lc IHl rc IHr|len fn|len k c _ j];
    intros i n Hx Hd Hlim Hi Hn Hin; pose proof (wfn_clen _ Hx); [done| | |by apply substr_fn_ok..].
  - cbn [CORD_substr_checked]. destruct (Z.ltb_spec SUBSTR_LIMIT n).
    + destruct (CORD_substr_closure_ok (Str s) i n Index) as (y & E & Hw & Hc & Hdy); [done..|].
      exists y. split; [done|]. split_and!; [done|by rewrite Hdy|done].
    + cbn [chars] in *. rewrite copy_char_substr_ok.
      * cbn [mbind option_bind]. change (sub 0 n (drop (Z.to_nat i) (c_string s))) with (sub i n (c_string s)).
        rewrite sub_c_string by lia.
        destruct (copied_string s i n) as [-> Hw]; [|lia..|].
        { apply Forall_sub. by destruct Hx as (_ & ? & _). }
        exists (Str (sub i n s)). split; [done|]. by split_and!.
      * unfold zlen in *. rewrite length_drop. unfold c_string. rewrite length_app. cbn. lia.
  - cbn [CORD_substr_checked]. rewrite LEFT_LEN_ok by done. cbn [mbind option_bind].
    pose proof Hx as (Hl & Hr & -> & _ & _ & Hde). rewrite clen_Concat in *. cbn [dep] in Hd.
    pose proof (wfn_clen _ Hl). pose proof (wfn_clen _ Hr).
    pose proof (dep_nonneg _ Hl). pose proof (dep_nonneg _ Hr). pose proof CORD_LIMIT_W64.
    rewrite (wrap64_small (clen lc + clen rc - clen lc)) by lia.
    replace (clen lc + clen rc - clen lc) with (clen rc) by lia.
    rewrite (wrap64_small (i + n)), (wrap64_small (clen rc + clen lc)) by lia.
    unfold is_substr. cbn [chars].
    destruct (Z.leb_spec (clen lc) i) as [Hli|Hli].
    { rewrite sub_app_r, wrap64_small by lia. destruct (Z.eqb_spec n (clen rc)) as [->|].
      - exists rc. split_and!; [done|done|lia|]. replace (i - clen lc) with 0 by lia.
        by rewrite sub_all by lia.
      - apply IHr; try done; lia. }
    destruct (Z.leb_spec (i + n) (clen lc)) as [Hil|Hil].
    { rewrite sub_app_l by lia. destruct (Z.eqb_spec n (clen lc)) as [->|].
      - exists lc. split_and!; [done|done|lia|]. replace i with 0 by lia. by rewrite sub_all by lia.
      - apply IHl; try done; lia. }
    rewrite sub_app_mid, (wrap64_small (clen lc - i)), (wrap64_small (n - (clen lc - i))) by lia.
    assert (Hlp : exists y, (if i =? 0 then Some lc else CORD_substr_checked lc i (clen lc - i)) = Some y
      /\ is_substr lc i (clen lc - i) y).
    { destruct (Z.eqb_spec i 0) as [->|]; [|apply IHl; try done; lia].
      exists lc. split; [done|]. split_and!; [done|lia|]. by rewrite sub_all by lia. }
    assert (Hrp : exists y, (if i + n =? clen rc + clen lc then Some rc
      else CORD_substr_checked rc 0 (n - (clen lc - i))) = Some y
      /\ is_substr rc 0 (n - (clen lc - i)) y).
    { destruct (Z.eqb_spec (i + n) (clen rc + clen lc)); [|apply IHr; try done; lia].
      exists rc. split; [done|]. split_and!; [done|lia|]. by rewrite sub_all by lia. }
    destruct Hlp as (yl & -> & Hyl & Hdl & Hcl). destruct Hrp as (yr & -> & Hyr & Hdr & Hcr).
    cbn [mbind option_bind].
    destruct (CORD_cat_ok yl yr) as (z & -> & [Hz Hdz] & Hzc).
    { split; [by right|lia]. } { split; [by right|lia]. }
    { rewrite Hcl, Hcr, !zlen_sub by lia. lia. }
    exists z. split_and!; [done| |done|by rewrite Hzc, Hcl, Hcr].
    destruct Hz as [->|?]; [|done]. exfalso. pose proof (wfn_clen _ Hyl).
    apply (f_equal zlen) in Hzc. rewrite zlen_app in Hzc. change (clen CORD_EMPTY) with 0 in Hzc.
    pose proof (wfn_clen _ Hyr). lia.
Qed.

Lemma CORD_len_ok (x : cord) : wf x -> CORD_len x = Some (clen x).
Proof. intros [->|Hx]; [done|]. rewrite <- GEN_LEN_ok by done. by destruct x. Qed.

Lemma CORD_substr_ok (x : cord) (i n : Z) :
  cord_ok x -> clen x < CORD_LIMIT -> 0 <= i -> 0 <= n -> i + n < W64 ->
  exists y, CORD_substr x i n = Some y /\ cord_ok y /\ chars y = sub i n (chars x).
Proof.
  intros [Hx Hd] Hlim Hi Hn Hw. unfold CORD_substr. rewrite CORD_len_ok by done.
  cbn [mbind option_bind]. rewrite wrap64_small by lia. cbn zeta.
  assert (He : forall l : list Z, l = [] -> exists y, Some CORD_EMPTY = Some y /\ cord_ok y /\ chars y = l).
  { intros l ->. exists CORD_EMPTY. split; [done|]. split; [split; [by left|done]|done]. }
  destruct (Z.leb_spec (clen x) i) as [Hli|Hli].
  { apply He. unfold sub. rewrite drop_ge; [by rewrite take_nil|]. unfold zlen in Hli. lia. }
  cbn [orb]. destruct (Z.eqb_spec n 0) as [->|Hn0]; [by apply He|].
  destruct Hx as [->|Hx]; [change (clen CORD_EMPTY) with 0 in Hli; lia|].
  assert (E : forall m, m = Z.min n (clen x - i) -> sub i m (chars x) = sub i n (chars x)).
  { intros m ->. unfold sub. destruct (Z.min_spec n (clen x - i)) as [[? ->]|[? ->]]; [done|].
    rewrite !take_ge; [done|..]; rewrite length_drop; unfold zlen in *; lia. }
  destruct (CORD_substr_checked_ok x i (Z.min n (clen x - i))) as (y & Ey & Hw' & Hd' & Hc);
    [done|done|done|done|lia|lia|].
  exists y. split_and!; [|split; [by right|done]|by rewrite Hc, E].
  rewrite <- Ey. f_equal. destruct (Z.ltb_spec (clen x) (i + n)); lia.
Qed.

(** ** Iteration *)

Section Iter.
Context {S : Type}.

(** The specification of the iterators: apply [f1] to each character of a list in
    turn until it returns a nonzero value. *)
Fixpoint fold_chars (f1 : Z -> S -> option (Z * S)) (l : list Z) (st : S) : option (Z * S) :=
  match l with
  | [] => Some (0, st)
  | c :: l => '(r, st) ← f1 c st; if r =? 0 then fold_chars f1 l st else Some (1, st)
  end.

Lemma fold_chars_app f1 (l k : list Z) (st : S) :
  fold_chars f1 (l ++ k) st
  = ('(r, st) ← fold_chars f1 l st; if r =? 0 then fold_chars f1 k st else Some (1, st)).
Proof.
  revert st. induction l as [|c l IH]; intros st; cbn; [done|].
  destruct (f1 c st) as [[r st']|]; cbn; [|done].
  destruct (r =? 0); [apply IH|done].
Qed.

Lemma iter_chars_ok f1 (s : list Z) (st : S) :
  Forall is_char s -> iter_chars f1 (c_string s) st = fold_chars f1 s st.
Proof.
  intros Hs. revert st. induction Hs as [|c s Hc _ IH]; intros st; cbn; [done|].
  destruct (Z.eqb_spec c 0) as [->|]; [unfold is_char in Hc; lia|].
  destruct (f1 c st) as [[r st']|]; cbn; [|done]. destruct (r =? 0); [apply IH|done].
Qed.

Lemma iter_fn_ok f1 (fn : Z -> option Z) (l : list Z) (n : nat) (j : Z) (st : S) :
  0 <= j -> j + Z.of_nat n = zlen l -> (forall k, j <= k < zlen l -> fn k = l !! Z.to_nat k) ->
  iter_fn f1 fn j n st = fold_chars f1 (drop (Z.to_nat j) l) st.
Proof.
  revert j st. induction n as [|n IH]; intros j st Hj Hn Hf; cbn [iter_fn].
  { rewrite drop_ge; [done|]. unfold zlen in Hn. lia. }
  destruct (lookup_lt_is_Some_2 l (Z.to_nat j)) as [c Hc]; [unfold zlen in Hn; lia|].
  rewrite Hf, Hc, (drop_S _ c) by (done || lia). cbn.
  destruct (f1 c st) as [[r st']|]; cbn; [|done].
  rewrite IH by (lia || (intros; apply Hf; lia)). by replace (Z.to_nat (j + 1)) with (Datatypes.S (Z.to_nat j)) by lia.
Qed.

Lemma drop_c_string (s : list Z) (i : Z) :
  0 <= i < zlen s -> drop (Z.to_nat i) (c_string s) = c_string (drop (Z.to_nat i) s).
Proof. intros Hi. unfold c_string. rewrite drop_app_le; [done|]. unfold zlen in Hi. lia. Qed.

Lemma head_char (s : list Z) (i : Z) :
  0 <= i < zlen s -> Forall is_char s ->
  exists c, head (c_string (drop (Z.to_nat i) s)) = Some c /\ c <> 0.
Proof.
  intros Hi Hs. destruct (lookup_lt_is_Some_2 s (Z.to_nat i)) as [c Hc]; [unfold zlen in Hi; lia|].
  exists c. rewrite (drop_S _ c) by done. split; [done|].
  pose proof (proj1 (Forall_lookup _ _) Hs _ _ Hc) as H. unfold is_char in H. lia.
Qed.

(** The skip of a whole left child. *)
Lemma iter5_concat f1 f2 d ll len lc rc (i : Z) (st : S) :
  wfn (Concat d ll len lc rc) -> 0 <= i ->
  CORD_iter5 f1 f2 (Concat d ll len lc rc) i st
  = if clen lc <=? i then CORD_iter5 f1 f2 rc (i - clen lc) st
    else '(r, st) ← CORD_iter5 f1 f2 lc i st;
         if r =? 0 then CORD_iter5 f1 f2 rc 0 st else Some (1, st).
Proof.
  intros Hx Hi. pose proof (wfn_clen lc ltac:(by destruct Hx)). cbn [CORD_iter5].
  rewrite LEFT_LEN_ok by done. destruct (Z.ltb_spec 0 i); cbn [mbind option_bind].
  - by destruct (Z.leb_spec (clen lc) i).
  - by destruct (Z.leb_spec (clen lc) i); [lia|].
Qed.

Lemma iter5_fn f1 f2 (x : cord) (i : Z) (st : S) :
  wfn x -> IS_FUNCTION x = true ->
  CORD_iter5 f1 f2 x i st = iter_fn f1 (call_fn x) i (Z.to_nat (clen x - i)) st.
Proof.
  intros Hx Hf. assert (Es : is_str x = false) by (by destruct x). pose proof (LEN_ok _ Hx Es) as El.
  destruct x; try done; cbn [LEN] in El; apply Some_inj in El; cbn [CORD_iter5]; by rewrite <- El.
Qed.

Lemma CORD_iter5_ok f1 (x : cord) (i : Z) (st : S) :
  wfn x -> 0 <= i < clen x -> CORD_iter5 f1 None x i st = fold_chars f1 (drop (Z.to_nat i) (chars x)) st.
Proof.
  revert i st. induction x as [|s|d ll len lc IHl rc IHr|len fn|len k c _ j]; intros i st Hx Hi; [done|..].
  - cbn [CORD_iter5 chars] in *. destruct Hx as (_ & Hs & _). rewrite drop_c_string by done.
    destruct (head_char s i Hi Hs) as (c & -> & Hc). cbn [mbind option_bind].
    destruct (Z.eqb_spec c 0); [done|]. apply iter_chars_ok. by apply Forall_drop.
  - rewrite iter5_concat by (done || lia). rewrite clen_Concat in Hi.
    pose proof Hx as (Hl & Hr & _). pose proof (wfn_clen _ Hl). pose proof (wfn_clen _ Hr). cbn [chars].
    destruct (Z.leb_spec (clen lc) i).
    + rewrite IHr by (done || lia). rewrite drop_app_ge by (unfold zlen in *; lia).
      do 2 f_equal. unfold zlen. lia.
    + rewrite IHl, drop_app_le, fold_chars_app by (done || (unfold zlen in *; lia)).
      destruct (fold_chars f1 _ st) as [[r st']|]; cbn [mbind option_bind]; [|done].
      by rewrite IHr by (done || lia).
  - rewrite iter5_fn by done. apply iter_fn_ok; [lia|lia|].
    intros k Hk. apply call_fn_ok; [done|done|lia].
  - rewrite iter5_fn by done. apply iter_fn_ok; [lia|lia|].
    intros k' Hk. apply call_fn_ok; [done|done|lia].
Qed.

(** The rule for clients that pass a batched function: [P] holds of the characters
    passed so far while the functions return 0, [Q] of the result and the data when
    one of them stops the iteration. *)
Section Rule.
Context (f1 : Z -> S -> option (Z * S)) (f2 : list Z -> S -> option (Z * S)).
Context (T : list Z) (P : list Z -> S -> Prop) (Q : Z -> S -> Prop).
Context (HQ : forall r st, Q r st -> Q 1 st).

Definition stepped (res : option (Z * S)) (l : list Z) : Prop :=
  exists r st, res = Some (r, st) /\ (r = 0 -> P l st) /\ (r <> 0 -> Q r st).

Context (Hf1 : forall l c k st, T = l ++ c :: k -> P l st -> stepped (f1 c st) (l ++ [c])).
Context (Hf2 : forall l s k st, T = l ++ s ++ k -> s <> [] -> Forall is_char s -> P l st ->
                                stepped (f2 (c_string s) st) (l ++ s)).

Lemma stepped_one (r : Z) (st : S) (l : list Z) : Q r st -> stepped (Some (1, st)) l.
Proof. intros Hq. exists 1, st. split_and!; [done|done|]. intros _. by eapply HQ. Qed.

Lemma iter_fn_rule (fn : Z -> option Z) (n : nat) (j : Z) (l s k : list Z) (st : S) :
  0 <= j -> length s = n -> (forall m, (m < n)%nat -> fn (j + Z.of_nat m) = s !! m) ->
  T = l ++ s ++ k -> P l st -> stepped (iter_fn f1 fn j n st) (l ++ s).
Proof.
  revert j l s st. induction n as [|n IH]; intros j l s st Hj Hs Hf HT HP; cbn [iter_fn].
  { destruct s; [|done]. rewrite app_nil_r. by exists 0, st. }
  destruct s as [|c s]; [done|]. specialize (Hf 0%nat ltac:(lia)) as Hf0. rewrite Z.add_0_r in Hf0.
  rewrite Hf0. cbn. destruct (Hf1 l c (s ++ k) st HT HP) as (r & st' & -> & Hr0 & Hr1). cbn.
  destruct (Z.eqb_spec r 0); [|by eapply stepped_one, Hr1].
  replace (l ++ c :: s) with ((l ++ [c]) ++ s) by (by rewrite <- app_assoc).
  apply IH; [lia|by injection Hs| |rewrite HT; by rewrite <- app_assoc|by apply Hr0].
  intros m Hm. replace (j + 1 + Z.of_nat m) with (j + Z.of_nat (Datatypes.S m)) by lia.
  by apply Hf; lia.
Qed.

Lemma CORD_iter5_rule_gen (x : cord) (i : Z) (l k : list Z) (st : S) :
  wfn x -> 0 <= i < clen x -> T = l ++ drop (Z.to_nat i) (chars x) ++ k -> P l st ->
  stepped (CORD_iter5 f1 (Some f2) x i st) (l ++ drop (Z.to_nat i) (chars x)).
Proof.
  revert i l k st. induction x as [|s|d ll len lc IHl rc IHr|len fn|len ka c _ j];
    intros i l k st Hx Hi HT HP; [done|..].
  - cbn [CORD_iter5 chars] in *. destruct Hx as (_ & Hs & _). rewrite drop_c_string by done.
    destruct (head_char s i Hi Hs) as (c & -> & Hc). cbn [mbind option_bind].
    destruct (Z.eqb_spec c 0); [done|]. apply (Hf2 _ _ k); [done| |by apply Forall_drop|done].
    intros E. apply (f_equal length) in E. rewrite length_drop in E. unfold zlen in Hi. cbn in E. lia.
  - rewrite iter5_concat by (done || lia). rewrite clen_Concat in Hi. cbn [chars] in *.
    pose proof Hx as (Hl & Hr & _). pose proof (wfn_clen _ Hl). pose proof (wfn_clen _ Hr).
    destruct (Z.leb_spec (clen lc) i).
    + rewrite drop_app_ge in * by (unfold zlen in *; lia).
      replace (Z.to_nat i - length (chars lc))%nat with (Z.to_nat (i - clen lc)) in * by (unfold zlen; lia).
      eapply IHr; [done|lia|done|done].
    + rewrite drop_app_le in * by (unfold zlen in *; lia).
      destruct (IHl i l (chars rc ++ k) st) as (r & st' & -> & Hr0 & Hr1);
        [done|lia|by rewrite HT, <- !app_assoc|done|]. cbn [mbind option_bind].
      destruct (Z.eqb_spec r 0); [|by eapply stepped_one, Hr1].
      specialize (IHr 0 (l ++ drop (Z.to_nat i) (chars lc)) k st'). cbn in IHr.
      rewrite app_assoc. apply IHr; [done|lia| |by apply Hr0].
      by rewrite HT, <- !app_assoc.
  - rewrite iter5_fn by done.
    eapply iter_fn_rule; [lia| | |done|done].
    + rewrite length_drop. unfold zlen in *. lia.
    + intros m Hm. rewrite (call_fn_ok (Fn len fn)), lookup_drop by (done || lia). f_equal. lia.
  - rewrite iter5_fn by done.
    eapply iter_fn_rule; [lia| | |done|done].
    + rewrite length_drop. unfold zlen in *. lia.
    + intros m Hm. rewrite (call_fn_ok (Substr len ka c j)), lookup_drop by (done || lia). f_equal. lia.
Qed.

Lemma CORD_iter5_rule (x : cord) (i : Z) (st : S) :
  wfn x -> 0 <= i < clen x -> T = drop (Z.to_nat i) (chars x) -> P [] st ->
  stepped (CORD_iter5 f1 (Some f2) x i st) T.
Proof.
  intros Hx Hi HT HP. rewrite HT. apply (CORD_iter5_rule_gen x i [] [] st); [done|done| |done].
  by rewrite app_nil_r.
Qed.
End Rule.

(** ** Backwards *)

Lemma riter_down_ok f1 (fetch : Z -> option Z) (l : list Z) (k : nat) (st : S) :
  (k < length l)%nat -> (forall j, (j <= k)%nat -> fetch (Z.of_nat j) = l !! j) ->
  riter_down f1 fetch k st = fold_chars f1 (reverse (take (Datatypes.S k) l)) st.
Proof.
  revert st. induction k as [|k IH]; intros st Hk Hf;
    destruct (lookup_lt_is_Some_2 l _ Hk) as [c Hc]; cbn [riter_down];
    rewrite (take_S_r _ _ c), reverse_app, Hf, Hc by (done || lia); cbn.
  - destruct (f1 c st) as [[r st']|]; cbn; [|done]. by rewrite take_0.
  - destruct (f1 c st) as [[r st']|]; cbn; [|done]. destruct (r =? 0); [|done].
    rewrite IH by (lia || (intros; apply Hf; lia)). done.
Qed.

Lemma CORD_riter4_ok f1 (x : cord) (i : Z) (st : S) :
  wfn x -> 0 <= i < clen x ->
  CORD_riter4 f1 x i st = fold_chars f1 (reverse (take (Datatypes.S (Z.to_nat i)) (chars x))) st.
Proof.
  revert i st. induction x as [|s|d ll len lc IHl rc IHr|len fn|len k c _ j]; intros i st Hx Hi; [done|..].
  - cbn [CORD_riter4 chars] in *. destruct Hx as (_ & Hs & _). unfold zlen in Hi.
    apply riter_down_ok; [lia|]. intros j Hj. rewrite get_c_string by (unfold zlen; lia).
    rewrite Nat2Z.id. destruct (s !! j) as [c|] eqn:E; [|done]. cbn.
    pose proof (proj1 (Forall_lookup _ _) Hs _ _ E) as Hc. unfold is_char in Hc.
    by destruct (Z.eqb_spec c 0); [lia|].
  - cbn [CORD_riter4]. rewrite LEFT_LEN_ok by done. rewrite clen_Concat in Hi. cbn [mbind option_bind chars].
    pose proof Hx as (Hl & Hr & _). pose proof (wfn_clen _ Hl). pose proof (wfn_clen _ Hr).
    destruct (Z.leb_spec (clen lc) i).
    + rewrite IHr by (done || lia).
      rewrite (take_app_ge (chars lc)), reverse_app, fold_chars_app by (unfold zlen in *; lia).
      replace (Datatypes.S (Z.to_nat i) - length (chars lc))%nat
        with (Datatypes.S (Z.to_nat (i - clen lc))) by (unfold zlen in *; lia).
      destruct (fold_chars f1 _ st) as [[r st']|]; cbn [mbind option_bind]; [|done].
      rewrite wrap64_small, IHl by (done || lia).
      by rewrite (take_ge (chars lc)) by (unfold zlen in *; lia).
    + rewrite IHl, take_app_le by (done || (unfold zlen in *; lia)). done.
  - cbn [CORD_riter4]. apply riter_down_ok; [unfold zlen in *; lia|].
    intros j Hj. rewrite (call_fn_ok (Fn len fn)) by (done || lia). f_equal. lia.
  - cbn [CORD_riter4]. apply riter_down_ok; [unfold zlen in *; lia|].
    intros j' Hj. rewrite (call_fn_ok (Substr len k c j)) by (done || lia). f_equal. lia.
Qed.

Lemma CORD_riter_ok f1 (x : cord) (st : S) :
  wf x -> CORD_riter f1 x st = fold_chars f1 (reverse (chars x)) st.
Proof.
  intros Hx. unfold CORD_riter. rewrite CORD_len_ok by done. cbn [mbind option_bind].
  destruct Hx as [->|Hx]; [done|]. pose proof (wfn_clen _ Hx).
  destruct (Z.eqb_spec (clen x) 0); [lia|]. rewrite CORD_riter4_ok by (done || lia).
  rewrite take_ge; [done|]. unfold zlen in *. lia.
Qed.
End Iter.

(** ** Results *)

Ltac cord_wf :=
  repeat match goal with
         | |- cord_ok _ => split
         | |- wf _ => first [left; reflexivity | right]
         | |- _ /\ _ => split
         | |- wfn _ => progress cbn [wfn]
         | |- Forall _ _ => constructor
         | |- is_char _ => unfold is_char
         | |- forall _ : Z, is_byte _ => intros ?; cbn beta
         | |- is_byte (if ?b then _ else _) => destruct b
         | |- is_byte _ => unfold is_byte
         | |- _ <> _ => discriminate
         | |- True => exact I
         | |- _ => first [reflexivity | lia | vm_compute; reflexivity | vm_compute; discriminate]
         end.

(** A cord of two leaves, the second a function node. *)
Definition sample_cord : cord :=
  Concat 1 3 43 (Str [97; 98; 99]) (Fn 40 (fun i => if i =? 5 then 0 else 100)).

Lemma sample_cord_ok : cord_ok sample_cord.
Proof. unfold sample_cord. cord_wf. Qed.

(** C32: Concatenating two cords of bounded depth, of less than [CORD_LIMIT]
    characters together, succeeds and gives a well-formed cord of depth below
    [CORD_MAX_DEPTH] whose characters are those of the first followed by those of
    the second, whatever merging or rebalancing the code chose. *)
Theorem CORD_cat_correct (x y : cord) :
  cord_ok x -> cord_ok y -> clen x + clen y < CORD_LIMIT ->
  exists z, CORD_cat x y = Some z /\ cord_ok z /\ chars z = chars x ++ chars y /\
            CORD_len z = Some (clen x + clen y).
Proof.
  intros Hx Hy Hl. destruct (CORD_cat_ok x y) as (z & ? & Hz & Hc); [done..|].
  exists z. split_and!; [done..|]. by rewrite CORD_len_ok, Hc, zlen_app by (by destruct Hz).
Qed.

Lemma CORD_cat_correct_witness :
  exists z, CORD_cat sample_cord (Str [101; 102]) = Some z /\ cord_ok z /\
            chars z = chars sample_cord ++ [101; 102] /\ CORD_len z = Some (43 + 2).
Proof.
  apply (CORD_cat_correct sample_cord (Str [101; 102])).
  - apply sample_cord_ok.
  - cord_wf.
  - vm_compute. reflexivity.
Defined.

(** C31: [CORD_balance] of a cord of any depth terminates without touching an
    uninitialised or out-of-range forest entry and without a nested rebalancing,
    keeps the characters, and bounds the depth logarithmically: a cord shorter
    than the [k]-th Fibonacci number of [min_len] has depth at most [k + 1]. *)
Theorem CORD_balance_correct (x : cord) (k : nat) :
  wf x -> (k <= 46)%nat -> clen x < fibm k ->
  (exists y, CORD_balance x = Some y /\ wf y /\ chars y = chars x /\ dep y <= Z.of_nat k + 1) /\
  CORD_balance_ (CORD_cat_ (fun _ => None)) x <> None.
Proof.
  intros Hx Hk Hl. split.
  - rewrite CORD_balance_unfold. apply CORD_balance__ok; assumption.
  - destruct (CORD_balance__ok (fun _ => None) x k) as (y & E & _); [assumption..|].
    rewrite E. discriminate.
Qed.

Lemma CORD_balance_correct_witness :
  (exists y, CORD_balance sample_cord = Some y /\ wf y /\ chars y = chars sample_cord /\
             dep y <= Z.of_nat 8 + 1) /\
  CORD_balance_ (CORD_cat_ (fun _ => None)) sample_cord <> None.
Proof.
  apply (CORD_balance_correct sample_cord 8); [apply sample_cord_ok|lia|vm_compute; reflexivity].
Defined.

(** A cord that is not a string and has at least [min_len[47]] characters makes
    [CORD_balance] abort ("Cord too long"). *)
Theorem CORD_balance_too_long (x : cord) :
  wfn x -> is_str x = false -> fibm 47 <= clen x -> CORD_balance x = None.
Proof.
  intros Hx Hs Hl. rewrite CORD_balance_unfold. pose proof (LEN_ok _ Hx Hs) as El.
  destruct x; try done; unfold CORD_balance_; rewrite El; cbn [mbind option_bind];
    by rewrite CORD_init_forest_too_long.
Qed.

Lemma CORD_balance_too_long_witness : CORD_balance (Fn 7778742049 (fun _ => 97)) = None.
Proof.
  apply (CORD_balance_too_long (Fn 7778742049 (fun _ => 97))).
  - cord_wf.
  - reflexivity.
  - rewrite clen_Fn by lia. vm_compute. discriminate.
Defined.

(** C33: [CORD_substr] on an index and a count whose sum fits in 64 bits returns a
    well-formed cord of the characters from [i], [n] of them or as many as there
    are; an index past the end or a zero count gives the empty cord. *)
Theorem CORD_substr_correct (x : cord) (i n : Z) :
  cord_ok x -> clen x < CORD_LIMIT -> 0 <= i -> 0 <= n -> i + n < W64 ->
  exists y, CORD_substr x i n = Some y /\ cord_ok y /\ chars y = sub i n (chars x).
Proof. apply CORD_substr_ok. Qed.

Lemma CORD_substr_correct_witness :
  exists y, CORD_substr sample_cord 1 100 = Some y /\ cord_ok y /\
            chars y = sub 1 100 (chars sample_cord).
Proof.
  apply (CORD_substr_correct sample_cord 1 100);
    [apply sample_cord_ok|vm_compute; reflexivity|lia|lia|vm_compute; reflexivity].
Defined.

(** When [i + n] overflows 64 bits the clipping test of [CORD_substr] is passed
    by the wrapped sum: asking for "everything from index 1" of a two-character
    string gives a cord that claims 2^64 - 1 characters. *)
Theorem CORD_substr_overflow :
  exists y, CORD_substr (Str [97; 98]) 1 GC_SIZE_MAX = Some y /\ CORD_len y = Some GC_SIZE_MAX.
Proof. eexists. split; vm_compute; reflexivity. Qed.

(** [CORD_iter5] without a batched function applies [f1] to the characters from
    position [i] in order until one call returns nonzero, threading the client data,
    and [CORD_riter4] applies it to those from [i] down to the first; an abort or
    failure of [f1] is one of the iteration. *)
Theorem CORD_iter_correct {S} (f1 : Z -> S -> option (Z * S)) (x : cord) (i : Z) (st : S) :
  wfn x -> 0 <= i < clen x ->
  CORD_iter5 f1 None x i st = fold_chars f1 (drop (Z.to_nat i) (chars x)) st /\
  CORD_riter4 f1 x i st = fold_chars f1 (reverse (take (Datatypes.S (Z.to_nat i)) (chars x))) st.
Proof. intros Hx Hi. split; [by apply CORD_iter5_ok|by apply CORD_riter4_ok]. Qed.

Lemma sample_cord_wfn : wfn sample_cord.
Proof. by destruct sample_cord_ok as [[?|?] _]. Qed.

Lemma CORD_iter_correct_witness :
  CORD_iter5 (fun c n => Some (if c =? 0 then 1 else 0, n + 1)) None sample_cord 2 0
  = fold_chars (fun c n => Some (if c =? 0 then 1 else 0, n + 1)) (drop 2 (chars sample_cord)) 0 /\
  CORD_riter4 (fun c n => Some (if c =? 0 then 1 else 0, n + 1)) sample_cord 2 0
  = fold_chars (fun c n => Some (if c =? 0 then 1 else 0, n + 1)) (reverse (take 3 (chars sample_cord))) 0.
Proof.
  apply (CORD_iter_correct _ sample_cord 2 0);
    [apply sample_cord_wfn|vm_compute; split; [discriminate|reflexivity]].
Defined.

End CordOps.
