(* ===== verification/CordPos.v ===== *)
(** * CordPos: cord positions

    The position primitives of [cordbscs.c] and the macros of [cord_pos.h]: a
    position caches the path from the root to the current leaf and, for a function
    leaf, the next few characters.  The invariant [pos_at x i p] says that [p] is a
    position of [x] at index [i]; the operations are proved against it. *)

From Stdlib Require Import ZArith Lia.
From stdpp Require Import base gmap list.
From S2P Require Import Prelude Cord CordSem.

Module CordPos.
Import Cord CordSem.


Definition CORD_POS_INVALID : Z := 0x55555555.
Definition CORD_FUNCTION_BUF_SZ : Z := 8.

(** [const char *cur_leaf]: a string leaf or the buffer of the position. *)
Inductive leaf_ptr := Leaf_unset | Leaf_string (s : list Z) | Leaf_buf.

Record CORD_pe := { pe_cord : cord; pe_start_pos : Z }.

(** [struct CORD_Pos]; an entry absent from [path] or [function_buf] has not been
    written yet. *)
Record CORD_pos := {
  cur_pos : Z;
  path_len : Z;
  cur_leaf : leaf_ptr;
  cur_start : Z;
  cur_end : Z;
  path : gmap Z CORD_pe;
  function_buf : gmap Z Z }.

Definition set_cur_pos (v : Z) (p : CORD_pos) : CORD_pos :=
  {| cur_pos := v; path_len := path_len p; cur_leaf := cur_leaf p; cur_start := cur_start p;
     cur_end := cur_end p; path := path p; function_buf := function_buf p |}.
Definition set_path_len (v : Z) (p : CORD_pos) : CORD_pos :=
  {| cur_pos := cur_pos p; path_len := v; cur_leaf := cur_leaf p; cur_start := cur_start p;
     cur_end := cur_end p; path := path p; function_buf := function_buf p |}.
Definition set_leaf (l : leaf_ptr) (s e : Z) (p : CORD_pos) : CORD_pos :=
  {| cur_pos := cur_pos p; path_len := path_len p; cur_leaf := l; cur_start := s;
     cur_end := e; path := path p; function_buf := function_buf p |}.
Definition set_path (v : gmap Z CORD_pe) (p : CORD_pos) : CORD_pos :=
  {| cur_pos := cur_pos p; path_len := path_len p; cur_leaf := cur_leaf p; cur_start := cur_start p;
     cur_end := cur_end p; path := v; function_buf := function_buf p |}.
Definition set_buf (v : gmap Z Z) (p : CORD_pos) : CORD_pos :=
  {| cur_pos := cur_pos p; path_len := path_len p; cur_leaf := cur_leaf p; cur_start := cur_start p;
     cur_end := cur_end p; path := path p; function_buf := v |}.

(** A position on the stack before its first use. *)
Definition pos_uninit : CORD_pos :=
  {| cur_pos := 0; path_len := 0; cur_leaf := Leaf_unset; cur_start := 0; cur_end := 0;
     path := ∅; function_buf := ∅ |}.

(** [path[k] = e], with the bound of the array. *)
Definition write_pe (k : Z) (e : CORD_pe) (p : CORD_pos) : option CORD_pos :=
  if (0 <=? k) && (k <=? CORD_MAX_DEPTH) then Some (set_path (<[k := e]> (path p)) p) else None.

Definition CORD_pos_valid (p : CORD_pos) : bool := negb (path_len p =? CORD_POS_INVALID).
Definition CORD_pos_to_index (p : CORD_pos) : Z := cur_pos p.
Definition CORD_pos_to_cord (p : CORD_pos) : option cord := e ← path p !! 0; Some (pe_cord e).

(** The loop of [CORD_extend_path], from the node [top] at [path[path_len]]; returns
    the leaf with its start and length. *)
Fixpoint extend_loop (top : cord) (pos top_pos top_len : Z) (p : CORD_pos)
    : option (CORD_pos * cord * Z * Z) :=
  match top with
  | Concat _ _ _ lc rc =>
    left_len ← LEFT_LEN top;
    if wrap64 (top_pos + left_len) <=? pos then
      let top_pos := wrap64 (top_pos + left_len) in
      p ← write_pe (path_len p + 1) {| pe_cord := rc; pe_start_pos := top_pos |} p;
      extend_loop rc pos top_pos (wrap64 (top_len - left_len)) (set_path_len (path_len p + 1) p)
    else
      p ← write_pe (path_len p + 1) {| pe_cord := lc; pe_start_pos := top_pos |} p;
      extend_loop lc pos top_pos left_len (set_path_len (path_len p + 1) p)
  | CORD_EMPTY => None
  | _ => Some (p, top, top_pos, top_len)
  end.

Definition CORD_extend_path (p : CORD_pos) : option CORD_pos :=
  pe ← path p !! path_len p;
  let pos := cur_pos p in
  top_len ← GEN_LEN (pe_cord pe);
  '(p, top, top_pos, top_len) ← extend_loop (pe_cord pe) pos (pe_start_pos pe) top_len p;
  let p := match top with
           | Str s => set_leaf (Leaf_string s) top_pos (wrap64 (top_pos + top_len)) p
           | _ => set_leaf (cur_leaf p) (cur_start p) 0 p
           end in
  Some (if wrap64 (top_pos + top_len) <=? pos then set_path_len CORD_POS_INVALID p else p).

Definition CORD__pos_fetch (p : CORD_pos) : option Z :=
  if negb (CORD_pos_valid p) then None
  else
    pe ← path p !! path_len p;
    if negb (IS_FUNCTION (pe_cord pe)) then None
    else call_fn (pe_cord pe) (wrap64 (cur_pos p - pe_start_pos pe)).

(** The loop that fills [function_buf] from [cur_pos]. *)
Fixpoint fill_function_buf (leaf : cord) (cur_pos start_pos i : Z) (n : nat) (buf : gmap Z Z)
    : option (gmap Z Z) :=
  match n with
  | O => Some buf
  | S n =>
    c ← call_fn leaf (wrap64 (i + cur_pos - start_pos));
    fill_function_buf leaf cur_pos start_pos (i + 1) n (<[i := c]> buf)
  end.

(** Pop the stack while the parent starts elsewhere ([same = false], for
    [CORD__next]) or at the same place ([same = true], for [CORD__prev]); [n] is
    [path_len]. *)
Fixpoint pop_path (same : bool) (path : gmap Z CORD_pe) (n : nat) : option nat :=
  match n with
  | O => Some O
  | S n' =>
    e ← path !! Z.of_nat n;
    e' ← path !! Z.of_nat n';
    if eqb same (pe_start_pos e =? pe_start_pos e') then pop_path same path n' else Some n
  end.

Definition CORD__next (p : CORD_pos) : option CORD_pos :=
  let cur_pos := wrap64 (cur_pos p + 1) in
  if negb (CORD_pos_valid p) then None
  else
    current_pe ← path p !! path_len p;
    let leaf := pe_cord current_pe in
    let p := set_cur_pos cur_pos p in
    let pop :=
      n ← pop_path false (path p) (Z.to_nat (path_len p));
      if (n =? 0)%nat then Some (set_path_len CORD_POS_INVALID p)
      else CORD_extend_path (set_path_len (Z.of_nat n - 1) p) in
    is_string ← CORD_IS_STRING leaf;
    if is_string : bool then pop
    else
      let start_pos := pe_start_pos current_pe in
      len ← LEN leaf;
      let end_pos := wrap64 (start_pos + len) in
      if cur_pos <? end_pos then
        let limit := if end_pos - cur_pos <? CORD_FUNCTION_BUF_SZ then end_pos - cur_pos
                     else CORD_FUNCTION_BUF_SZ in
        buf ← fill_function_buf leaf cur_pos start_pos 0 (Z.to_nat limit) (function_buf p);
        Some (set_leaf Leaf_buf cur_pos (wrap64 (cur_pos + limit)) (set_buf buf p))
      else pop.

Definition CORD__prev (p : CORD_pos) : option CORD_pos :=
  if cur_pos p =? 0 then Some (set_path_len CORD_POS_INVALID p)
  else
    let p := set_cur_pos (cur_pos p - 1) p in
    pe ← path p !! path_len p;
    if pe_start_pos pe <=? cur_pos p then Some p
    else
      n ← pop_path true (path p) (Z.to_nat (path_len p));
      CORD_extend_path (set_path_len (Z.of_nat n - 1) p).

(** [cur_leaf[off]] *)
Definition leaf_read (p : CORD_pos) (off : Z) : option Z :=
  match cur_leaf p with
  | Leaf_unset => None
  | Leaf_string s => get (c_string s) off
  | Leaf_buf => function_buf p !! off
  end.

Definition CORD_pos_fetch (p : CORD_pos) : option Z :=
  if negb (cur_end p =? 0) then leaf_read p (wrap64 (cur_pos p - cur_start p))
  else CORD__pos_fetch p.

Definition CORD_next (p : CORD_pos) : option CORD_pos :=
  if wrap64 (cur_pos p + 1) <? cur_end p then Some (set_cur_pos (cur_pos p + 1) p)
  else CORD__next p.

Definition CORD_prev (p : CORD_pos) : option CORD_pos :=
  if negb (cur_end p =? 0) && (cur_start p <? cur_pos p) then Some (set_cur_pos (cur_pos p - 1) p)
  else CORD__prev p.

Definition CORD_set_pos (p : CORD_pos) (x : cord) (i : Z) : option CORD_pos :=
  match x with
  | CORD_EMPTY => Some (set_path_len CORD_POS_INVALID p)
  | _ =>
    p ← write_pe 0 {| pe_cord := x; pe_start_pos := 0 |} p;
    CORD_extend_path (set_cur_pos i (set_path_len 0 p))
  end.

(** [CORD_pos_chars_left], as a [long]. *)
Definition CORD_pos_chars_left (p : CORD_pos) : Z := signed64 (cur_end p) - signed64 (cur_pos p).

Definition CORD_pos_advance (p : CORD_pos) (n : Z) : option CORD_pos :=
  CORD_next (set_cur_pos (wrap64 (cur_pos p + (n - 1))) p).

(** The bytes from [CORD_pos_cur_char_addr]. *)
Definition CORD_pos_cur_char_addr (p : CORD_pos) : Z := wrap64 (cur_pos p - cur_start p).

(** Compute the fields of an updated position. *)
Ltac pos_cbn :=
  cbn [cur_pos path_len cur_leaf cur_start cur_end path function_buf
       set_cur_pos set_path_len set_leaf set_path set_buf].

(** ** The invariant *)

(** Entry [j] of the path is the node [c], which spells [x] from index [s]. *)
Definition pnode (x : cord) (pa : gmap Z CORD_pe) (j : nat) (c : cord) (s : Z) : Prop :=
  pa !! Z.of_nat j = Some {| pe_cord := c; pe_start_pos := s |} /\
  wfn c /\ 0 <= s /\ s + clen c <= clen x /\ sub s (clen c) (chars x) = chars c /\
  Z.of_nat j + dep c <= dep x.

(** Entry [j + 1] of the path is a child of entry [j]. *)
Definition pchild (x : cord) (pa : gmap Z CORD_pe) (j : nat) : Prop :=
  exists d ll len lc rc s, pnode x pa j (Concat d ll len lc rc) s /\
    (pnode x pa (S j) lc s \/ pnode x pa (S j) rc (s + clen lc)).

Record path_ok (x : cord) (pa : gmap Z CORD_pe) (k : nat) : Prop := {
  pk_root : pnode x pa 0 x 0;
  pk_child : forall j, (j < k)%nat -> pchild x pa j }.

(** The leaf information is usable at index [i] of the leaf [c] at [s]. *)
Definition cache_ok (x c : cord) (s i : Z) (p : CORD_pos) : Prop :=
  match c with
  | Str t => cur_leaf p = Leaf_string t /\ cur_start p = s /\ cur_end p = s + zlen t
  | _ =>
    cur_end p = 0 \/
    (cur_leaf p = Leaf_buf /\ s <= cur_start p <= i /\ i < cur_end p <= s + clen c /\
     forall j, cur_start p <= j < cur_end p ->
               function_buf p !! (j - cur_start p) = chars x !! Z.to_nat j)
  end.

(** [p] is a valid position of [x] at index [i]. *)
Definition pos_at (x : cord) (i : Z) (p : CORD_pos) : Prop :=
  exists k c s, path_len p = Z.of_nat k /\ path_ok x (path p) k /\ pnode x (path p) k c s /\
    IS_CONCATENATION c = false /\ cur_pos p = i /\ s <= i < s + clen c /\ cache_ok x c s i p.

Lemma sub_lookup_in {A} (l : list A) (s n : Z) (t : list A) (i : Z) :
  sub s n l = t -> 0 <= s -> s <= i < s + n -> t !! Z.to_nat (i - s) = l !! Z.to_nat i.
Proof. intros <- ??. rewrite sub_lookup by lia. f_equal. lia. Qed.

Lemma pnode_insert_ne x pa j k e c s :
  j <> k -> pnode x pa j c s -> pnode x (<[Z.of_nat k := e]> pa) j c s.
Proof. intros ? [? ?]. split; [|done]. rewrite lookup_insert_ne; [done|lia]. Qed.

Lemma path_ok_insert x pa k e :
  path_ok x pa k -> path_ok x (<[Z.of_nat (S k) := e]> pa) k.
Proof.
  intros [Hr Hc]. split; [by apply pnode_insert_ne|]. intros j Hj.
  destruct (Hc j Hj) as (d & ll & len & lc & rc & s & Hn & Hor).
  exists d, ll, len, lc, rc, s. split; [apply pnode_insert_ne; [lia|done]|].
  destruct Hor; [left|right]; (apply pnode_insert_ne; [lia|done]).
Qed.

Lemma path_ok_S x pa k : path_ok x pa k -> pchild x pa k -> path_ok x pa (S k).
Proof.
  intros [Hr Hc] Hk. split; [done|]. intros j Hj. destruct (decide (j = k)) as [->|]; [done|].
  apply Hc. lia.
Qed.

Lemma path_ok_le x pa k j : path_ok x pa k -> (j <= k)%nat -> path_ok x pa j.
Proof. intros [Hr Hc] Hj. split; [done|]. intros m Hm. apply Hc. lia. Qed.

Lemma path_ok_node x pa k j :
  path_ok x pa k -> (j < k)%nat -> exists c s, pnode x pa j c s.
Proof. intros [_ Hc] Hj. destruct (Hc j Hj) as (d & ll & len & lc & rc & s & Hn & _). eauto. Qed.

Lemma pnode_inj x pa j c s c' s' : pnode x pa j c s -> pnode x pa j c' s' -> c = c' /\ s = s'.
Proof. intros [E _] [E' _]. rewrite E in E'. by injection E'. Qed.

(** Writing a child of the last node extends the path. *)
Lemma pnode_children x pa k d ll len lc rc s :
  pnode x pa k (Concat d ll len lc rc) s ->
  pnode x (<[Z.of_nat (S k) := {| pe_cord := lc; pe_start_pos := s |}]> pa) (S k) lc s /\
  pnode x (<[Z.of_nat (S k) := {| pe_cord := rc; pe_start_pos := s + clen lc |}]> pa) (S k) rc (s + clen lc).
Proof.
  intros (_ & Hw & Hs & Hl & Hc & Hd). rewrite clen_Concat in *. cbn [chars dep] in *.
  pose proof Hw as (Hlw & Hrw & _ & _ & _ & Hdd). pose proof (zlen_nonneg (chars lc)).
  pose proof (zlen_nonneg (chars rc)).
  split; (split; [by rewrite lookup_insert_eq|]); split_and!; try done; try lia.
  - pose proof (f_equal (sub 0 (clen lc)) Hc) as E. rewrite sub_sub, sub_app_l, sub_all in E by lia.
    by rewrite Z.add_0_l in E.
  - pose proof (f_equal (sub (clen lc) (clen rc)) Hc) as E.
    rewrite sub_sub, sub_app_r, Z.sub_diag, (sub_all (chars rc)) in E by lia.
    by rewrite (Z.add_comm s).
Qed.

Lemma write_pe_ok (k : nat) (e : CORD_pe) (p : CORD_pos) :
  Z.of_nat k <= CORD_MAX_DEPTH -> write_pe (Z.of_nat k) e p = Some (set_path (<[Z.of_nat k := e]> (path p)) p).
Proof.
  intros. unfold write_pe. by rewrite (proj2 (Z.leb_le _ _)), (proj2 (Z.leb_le _ _)) by lia.
Qed.

(** The path is extended to the leaf that holds [pos], or to the last leaf. *)
Lemma extend_loop_ok (x top : cord) (pos s : Z) (k : nat) (p : CORD_pos) :
  dep x <= CORD_MAX_DEPTH -> clen x < W64 -> path_len p = Z.of_nat k -> path_ok x (path p) k ->
  pnode x (path p) k top s -> s <= pos ->
  exists p' c s' k',
    extend_loop top pos s (clen top) p = Some (p', c, s', clen c) /\
    path_len p' = Z.of_nat k' /\ path_ok x (path p') k' /\ pnode x (path p') k' c s' /\
    IS_CONCATENATION c = false /\ s' <= pos /\
    (pos < s + clen top -> pos < s' + clen c) /\
    (s + clen top <= pos -> s' + clen c <= pos) /\ cur_pos p' = cur_pos p.
Proof.
  intros Hdx Hx. revert s k p. induction top as [|t|d ll len lc IHl rc IHr|len fn|len ka c _ j];
    intros s k p Hk Hp Hn Hs; pose proof Hn as (_ & Hw & Hs0 & Hl & _ & Hd); [done|..].
  1,3,4: eexists p, _, s, k; split; [cbn [extend_loop]; reflexivity|]; by split_and!.
  cbn [extend_loop]. rewrite LEFT_LEN_ok by done. cbn [mbind option_bind].
  destruct (pnode_children _ _ _ _ _ _ _ _ _ Hn) as [Hnl Hnr]. rewrite clen_Concat in *. cbn [dep] in Hd.
  pose proof Hw as (Hlw & Hrw & _ & _ & _ & Hdd).
  pose proof (wfn_clen _ Hlw). pose proof (wfn_clen _ Hrw).
  pose proof (dep_nonneg _ Hlw). pose proof (dep_nonneg _ Hrw).
  rewrite (wrap64_small (s + clen lc)), Hk by lia.
  replace (Z.of_nat k + 1) with (Z.of_nat (S k)) by lia.
  destruct (Z.leb_spec (s + clen lc) pos).
  - cbn zeta. rewrite write_pe_ok by lia. cbn [mbind option_bind].
    rewrite wrap64_small by lia. replace (clen lc + clen rc - clen lc) with (clen rc) by lia.
    set (p1 := set_path_len _ _).
    destruct (IHr (s + clen lc) (S k) p1) as (p' & c & s' & k' & E & ? & ? & ? & ? & ? & Hlt & Hge & Hcp).
    { cbn. lia. }
    { apply path_ok_S; [by apply path_ok_insert|]. exists d, ll, len, lc, rc, s.
      split; [apply pnode_insert_ne; [lia|done]|by right]. }
    { exact Hnr. } { lia. }
    exists p', c, s', k'. split; [exact E|]. split_and!; try done; intros; [apply Hlt|apply Hge]; lia.
  - rewrite write_pe_ok by lia. cbn [mbind option_bind]. set (p1 := set_path_len _ _).
    destruct (IHl s (S k) p1) as (p' & c & s' & k' & E & ? & ? & ? & ? & ? & Hlt & Hge & Hcp).
    { cbn. lia. }
    { apply path_ok_S; [by apply path_ok_insert|]. exists d, ll, len, lc, rc, s.
      split; [apply pnode_insert_ne; [lia|done]|by left]. }
    { exact Hnl. } { lia. }
    exists p', c, s', k'. split; [exact E|]. split_and!; try done; intros; [apply Hlt|]; lia.
Qed.

(** Either a position of [x] at [pos], or an invalid one when [pos] is outside. *)
Definition pos_or_end (x : cord) (pos : Z) (p : CORD_pos) : Prop :=
  if pos <? clen x then pos_at x pos p else CORD_pos_valid p = false.

Lemma CORD_extend_path_ok (x : cord) (k : nat) (c : cord) (s : Z) (p : CORD_pos) :
  dep x <= CORD_MAX_DEPTH -> clen x < W64 -> path_len p = Z.of_nat k -> path_ok x (path p) k ->
  pnode x (path p) k c s -> s <= cur_pos p -> (cur_pos p < s + clen c \/ s + clen c = clen x) ->
  exists p', CORD_extend_path p = Some p' /\ pos_or_end x (cur_pos p) p'.
Proof.
  intros Hdx Hx Hk Hp Hn Hs Hin. unfold CORD_extend_path, pos_or_end. rewrite Hk.
  pose proof Hn as (En & Hw & Hs0 & Hl & _). rewrite En. cbn [mbind option_bind pe_cord pe_start_pos].
  rewrite GEN_LEN_ok by done. cbn [mbind option_bind].
  destruct (extend_loop_ok x c (cur_pos p) s k p) as (p' & c' & s' & k' & -> & Hk' & Hp' & Hn' & Hc' & Hs' & Hlt & Hge & Hcp);
    [done..|]. cbn [mbind option_bind].
  pose proof Hn' as (_ & Hw' & ? & ? & _). pose proof (wfn_clen _ Hw').
  rewrite !wrap64_small by lia. eexists. split; [reflexivity|].
  destruct (Z.ltb_spec (cur_pos p) (clen x)).
  - assert (cur_pos p < s' + clen c') by (apply Hlt; lia).
    destruct (Z.leb_spec (s' + clen c') (cur_pos p)); [lia|].
    exists k', c', s'. destruct c'; try done; cbn; split_and!; try done; by left.
  - assert (s' + clen c' <= cur_pos p) by (apply Hge; lia).
    by destruct (Z.leb_spec (s' + clen c') (cur_pos p)); [|lia].
Qed.

Lemma wfn_root (x : cord) (pa : gmap Z CORD_pe) :
  wfn x -> pnode x (<[0 := {| pe_cord := x; pe_start_pos := 0 |}]> pa) 0 x 0.
Proof.
  intros Hx. split; [by rewrite lookup_insert_eq|]. split_and!; [done|lia|lia| |cbn; lia].
  by rewrite sub_all by lia.
Qed.

Lemma CORD_set_pos_ok (x : cord) (i : Z) (p : CORD_pos) :
  wf x -> dep x <= CORD_MAX_DEPTH -> 0 <= i ->
  exists p', CORD_set_pos p x i = Some p' /\ pos_or_end x i p'.
Proof.
  intros [->|Hx] Hd Hi.
  { eexists. split; [done|]. unfold pos_or_end. change (clen CORD_EMPTY) with 0.
    by destruct (Z.ltb_spec i 0); [lia|]. }
  assert (E : CORD_set_pos p x i = (p ← write_pe 0 {| pe_cord := x; pe_start_pos := 0 |} p;
    CORD_extend_path (set_cur_pos i (set_path_len 0 p)))) by (by destruct x).
  rewrite E. cbn [write_pe andb Z.leb Z.compare CORD_MAX_DEPTH mbind option_bind].
  set (p1 := set_cur_pos _ _). pose proof (wfn_clen _ Hx).
  destruct (CORD_extend_path_ok x 0 x 0 p1) as (p' & -> & Hp'); [done|lia|done| | |done|lia|].
  - split; [by apply wfn_root|]. intros; lia.
  - by apply wfn_root.
  - by exists p'.
Qed.

Lemma pos_at_valid (x : cord) (i : Z) (p : CORD_pos) :
  dep x <= CORD_MAX_DEPTH -> pos_at x i p -> CORD_pos_valid p = true.
Proof.
  intros Hd (k & c & s & Hk & _ & Hn & _). destruct Hn as (_ & Hw & _ & _ & _ & Hkd).
  pose proof (dep_nonneg _ Hw). unfold CORD_MAX_DEPTH in Hd. unfold CORD_pos_valid. rewrite Hk.
  destruct (Z.eqb_spec (Z.of_nat k) CORD_POS_INVALID) as [E|]; [|done].
  unfold CORD_POS_INVALID in E. lia.
Qed.

Lemma CORD_pos_fetch_ok (x : cord) (i : Z) (p : CORD_pos) :
  dep x <= CORD_MAX_DEPTH -> clen x < W64 -> pos_at x i p -> CORD_pos_fetch p = chars x !! Z.to_nat i.
Proof.
  intros Hdx Hx Hat. pose proof (pos_at_valid _ _ _ Hdx Hat) as Hv.
  destruct Hat as (k & c & s & Hk & Hp & Hn & Hc & Hi & His & Hca). unfold CORD_pos_fetch. rewrite Hi.
  pose proof Hn as (En & Hw & Hs & Hl & Hsub & Hd).
  assert (Hfn : cur_end p = 0 -> IS_FUNCTION c = true -> CORD__pos_fetch p = chars x !! Z.to_nat i).
  { intros _ Hf. unfold CORD__pos_fetch. rewrite Hv, Hk, Hi, En. cbn [negb mbind option_bind pe_cord pe_start_pos].
    rewrite Hf. cbn [negb]. rewrite wrap64_small, call_fn_ok by (done || lia).
    by apply (sub_lookup_in _ s (clen c)). }
  destruct (Z.eqb_spec (cur_end p) 0) as [E|E]; cbn [negb].
  - apply Hfn; [done|]. destruct c; try done. destruct Hca as (_ & _ & Ht). cbn [chars] in *. lia.
  - unfold leaf_read. destruct c as [|t| |len fn|len ka c j]; try done; cbn [cache_ok] in Hca.
    + destruct Hca as (-> & -> & Ht). cbn [chars] in *. rewrite wrap64_small, get_c_string by lia.
      by apply (sub_lookup_in _ s (zlen t)).
    + destruct Hca as [?|(-> & ? & ? & Hb)]; [done|]. rewrite wrap64_small by lia. apply Hb. lia.
    + destruct Hca as [?|(-> & ? & ? & Hb)]; [done|]. rewrite wrap64_small by lia. apply Hb. lia.
Qed.

(** ** Moving *)

(** After the last character of a leaf: the lowest ancestor in which it is on the
    left holds the next position. *)
Lemma pop_next_ok (x : cord) (pa : gmap Z CORD_pe) (k : nat) (c : cord) (s : Z) :
  path_ok x pa k -> pnode x pa k c s ->
  exists n, pop_path false pa k = Some n /\
    (n = 0%nat /\ s + clen c = clen x \/
     exists n' c' s', n = S n' /\ (n' < k)%nat /\ pnode x pa n' c' s' /\
                      s' <= s + clen c < s' + clen c').
Proof.
  revert c s. induction k as [|k IH]; intros c s Hp Hn.
  { exists 0%nat. split; [done|]. left. split; [done|].
    destruct (pnode_inj _ _ _ _ _ _ _ Hn (pk_root _ _ _ Hp)) as [-> ->]. lia. }
  destruct (pk_child _ _ _ Hp k ltac:(lia)) as (d & ll & len & lc & rc & s0 & Hpn & Hor).
  pose proof Hpn as (Epn & (Hlw & Hrw & _) & _).
  pose proof (wfn_clen _ Hlw). pose proof (wfn_clen _ Hrw).
  pose proof Hn as (En & _). cbn [pop_path]. rewrite En, Epn. cbn [mbind option_bind pe_start_pos].
  destruct Hor as [Hor|Hor]; destruct (pnode_inj _ _ _ _ _ _ _ Hn Hor) as [-> ->].
  - rewrite Z.eqb_refl. exists (S k). split; [done|]. right.
    exists k, (Concat d ll len lc rc), s0. rewrite clen_Concat. split_and!; [done|lia|done|lia|lia].
  - destruct (Z.eqb_spec (s0 + clen lc) s0) as [?|_]; [lia|]. cbn [eqb].
    destruct (IH _ _ (path_ok_le _ _ _ k Hp ltac:(lia)) Hpn) as (n & -> & Hcase).
    rewrite clen_Concat in Hcase. exists n. split; [done|].
    destruct Hcase as [[-> ?]|(n' & c' & s' & -> & ? & ? & ?)]; [left; split; [done|lia]|].
    right. exists n', c', s'. split_and!; [done|lia|done|lia|lia].
Qed.

(** Before the first character of a leaf: the lowest ancestor in which it is on the
    right holds the previous position. *)
Lemma pop_prev_ok (x : cord) (pa : gmap Z CORD_pe) (k : nat) (c : cord) (s : Z) :
  path_ok x pa k -> pnode x pa k c s -> 0 < s ->
  exists n' c' s', pop_path true pa k = Some (S n') /\ (n' < k)%nat /\ pnode x pa n' c' s' /\
                   s' <= s - 1 < s' + clen c'.
Proof.
  revert c s. induction k as [|k IH]; intros c s Hp Hn Hs.
  { destruct (pnode_inj _ _ _ _ _ _ _ Hn (pk_root _ _ _ Hp)) as [-> ->]. lia. }
  destruct (pk_child _ _ _ Hp k ltac:(lia)) as (d & ll & len & lc & rc & s0 & Hpn & Hor).
  pose proof Hpn as (Epn & (Hlw & Hrw & _) & _).
  pose proof (wfn_clen _ Hlw). pose proof (wfn_clen _ Hrw).
  pose proof Hn as (En & _). cbn [pop_path]. rewrite En, Epn. cbn [mbind option_bind pe_start_pos].
  destruct Hor as [Hor|Hor]; destruct (pnode_inj _ _ _ _ _ _ _ Hn Hor) as [-> ->].
  - rewrite Z.eqb_refl. cbn [eqb].
    destruct (IH _ _ (path_ok_le _ _ _ k Hp ltac:(lia)) Hpn Hs) as (n' & c' & s' & -> & ? & ? & ?).
    exists n', c', s'. split_and!; [done|lia|done|lia|lia].
  - destruct (Z.eqb_spec (s0 + clen lc) s0) as [?|_]; [lia|]. cbn [eqb].
    exists k, (Concat d ll len lc rc), s0. rewrite clen_Concat. split_and!; [done|lia|done|lia|lia].
Qed.

Lemma fill_function_buf_ok (x leaf : cord) (s cp : Z) (n : nat) (i : Z) (buf : gmap Z Z) :
  wfn leaf -> IS_FUNCTION leaf = true -> 0 <= s -> s + clen leaf < W64 ->
  sub s (clen leaf) (chars x) = chars leaf -> s <= cp -> 0 <= i ->
  cp + i + Z.of_nat n <= s + clen leaf ->
  exists buf', fill_function_buf leaf cp s i n buf = Some buf' /\
    (forall j, j < i -> buf' !! j = buf !! j) /\
    (forall j, i <= j < i + Z.of_nat n -> buf' !! j = chars x !! Z.to_nat (cp + j)).
Proof.
  intros Hw Hf Hs Hsw Hsub Hcp. revert i buf. induction n as [|n IH]; intros i buf Hi Hn.
  { exists buf. split_and!; [done|done|]. intros; lia. }
  cbn [fill_function_buf]. rewrite wrap64_small, call_fn_ok by (done || lia).
  replace (i + cp - s) with ((cp + i) - s) by lia.
  rewrite (sub_lookup_in (chars x) s (clen leaf)) by (done || lia).
  assert (Hlt : (Z.to_nat (cp + i - s) < length (chars leaf))%nat) by (unfold zlen in Hn; lia).
  destruct (chars x !! Z.to_nat (cp + i)) as [c|] eqn:E.
  2:{ exfalso. rewrite <- (sub_lookup_in (chars x) s (clen leaf) _ _ Hsub) in E by lia.
      apply lookup_ge_None in E. lia. }
  cbn [mbind option_bind]. destruct (IH (i + 1) (<[i := c]> buf)) as (buf' & -> & Hlo & Hhi); [lia|lia|].
  exists buf'. split_and!; [done| |].
  - intros j Hj. rewrite Hlo, lookup_insert_ne by lia. done.
  - intros j Hj. destruct (decide (j = i)) as [->|]; [|apply Hhi; lia].
    by rewrite Hlo, lookup_insert_eq, E by lia.
Qed.

Section Moves.
Context (x : cord) (Hdx : dep x <= CORD_MAX_DEPTH) (Hx : clen x < W64).

(** Popping from the end of leaf [c] and descending again. *)
Lemma next_pop_ok (k : nat) (c : cord) (s : Z) (p : CORD_pos) :
  path_len p = Z.of_nat k -> path_ok x (path p) k -> pnode x (path p) k c s ->
  cur_pos p = s + clen c ->
  exists p', (n ← pop_path false (path p) (Z.to_nat (path_len p));
    if (n =? 0)%nat then Some (set_path_len CORD_POS_INVALID p)
    else CORD_extend_path (set_path_len (Z.of_nat n - 1) p)) = Some p' /\
    pos_or_end x (cur_pos p) p'.
Proof.
  intros Hk Hp Hn Hcp. rewrite Hk, Nat2Z.id.
  destruct (pop_next_ok x (path p) k c s Hp Hn) as (n & -> & Hcase). cbn [mbind option_bind].
  destruct Hcase as [[-> He]|(n' & c' & s' & -> & Hlt & Hn' & Hin)].
  - eexists. split; [reflexivity|]. unfold pos_or_end.
    by destruct (Z.ltb_spec (cur_pos p) (clen x)); [lia|].
  - cbn [Nat.eqb]. replace (Z.of_nat (S n') - 1) with (Z.of_nat n') by lia.
    apply (CORD_extend_path_ok x n' c' s' (set_path_len (Z.of_nat n') p)); cbn;
      [done|done|done|by eapply path_ok_le; [|apply Nat.lt_le_incl]|done|lia|left; lia].
Qed.

(** Filling the buffer of a function leaf. *)
Lemma next_fill_ok (k : nat) (c : cord) (s limit : Z) (p : CORD_pos) :
  path_len p = Z.of_nat k -> path_ok x (path p) k -> pnode x (path p) k c s ->
  IS_FUNCTION c = true -> s <= cur_pos p -> 0 < limit -> cur_pos p + limit <= s + clen c ->
  exists p', (buf ← fill_function_buf c (cur_pos p) s 0 (Z.to_nat limit) (function_buf p);
    Some (set_leaf Leaf_buf (cur_pos p) (wrap64 (cur_pos p + limit)) (set_buf buf p))) = Some p' /\
    pos_at x (cur_pos p) p'.
Proof.
  intros Hk Hp Hn Hf Hs Hl Hle. pose proof Hn as (_ & Hw & Hs0 & Hsl & Hsub & _).
  destruct (fill_function_buf_ok x c s (cur_pos p) (Z.to_nat limit) 0 (function_buf p))
    as (buf & -> & _ & Hb); [done|done|done|lia|done|done|lia|lia|]. cbn [mbind option_bind].
  eexists. split; [reflexivity|]. rewrite wrap64_small by lia.
  exists k, c, s. cbn. split_and!; try done; [by destruct c|lia|].
  assert (Hca : 0 = 1 \/ (Leaf_buf = Leaf_buf /\ s <= cur_pos p <= cur_pos p /\
    cur_pos p < cur_pos p + limit <= s + clen c /\
    forall j, cur_pos p <= j < cur_pos p + limit ->
              buf !! (j - cur_pos p) = chars x !! Z.to_nat j)).
  { right. split_and!; try done; try lia. intros j Hj. rewrite Hb by lia. f_equal. lia. }
  destruct Hca as [|Hca]; [done|]. destruct c; try done; by right.
Qed.

Lemma CORD__next_ok (k : nat) (c : cord) (s : Z) (p : CORD_pos) :
  CORD_pos_valid p = true -> path_len p = Z.of_nat k -> path_ok x (path p) k ->
  pnode x (path p) k c s -> IS_CONCATENATION c = false -> s <= cur_pos p < s + clen c ->
  (is_str c = true -> cur_pos p + 1 = s + clen c) ->
  exists p', CORD__next p = Some p' /\ pos_or_end x (cur_pos p + 1) p'.
Proof.
  intros Hv Hk Hp Hn Hc Hs Hstr. pose proof Hn as (En & Hw & Hs0 & Hsl & Hsub & _).
  unfold CORD__next. rewrite Hv, Hk, En. cbn [negb mbind option_bind pe_cord pe_start_pos].
  rewrite wrap64_small by lia. cbn zeta.
  set (p1 := set_cur_pos (cur_pos p + 1) p).
  rewrite CORD_IS_STRING_ok by done.
  cbn [mbind option_bind]. destruct (is_str c) eqn:Es.
  { apply (next_pop_ok k c s p1); cbn; auto. }
  rewrite LEN_ok by done. cbn [mbind option_bind]. rewrite wrap64_small by lia.
  destruct (Z.ltb_spec (cur_pos p + 1) (s + clen c)).
  - assert (Hf : IS_FUNCTION c = true) by (by destruct c).
    set (limit := if _ <? _ then _ else _).
    assert (Hlim : 0 < limit /\ cur_pos p1 + limit <= s + clen c).
    { subst limit. unfold CORD_FUNCTION_BUF_SZ. cbn. bcase; lia. }
    destruct (next_fill_ok k c s limit p1) as (p' & E & Hat); [done..|cbn; lia|lia|lia|].
    exists p'. split; [exact E|]. unfold pos_or_end.
    destruct (Z.ltb_spec (cur_pos p + 1) (clen x)); [exact Hat|]. lia.
  - apply (next_pop_ok k c s p1); cbn; auto; lia.
Qed.

Lemma CORD_next_ok (i : Z) (p : CORD_pos) :
  pos_at x i p -> exists p', CORD_next p = Some p' /\ pos_or_end x (i + 1) p'.
Proof.
  intros Hat. pose proof (pos_at_valid _ _ _ Hdx Hat) as Hv.
  destruct Hat as (k & c & s & Hk & Hp & Hn & Hc & <- & His & Hca).
  pose proof Hn as (_ & Hw & ? & ? & _).
  unfold CORD_next. rewrite wrap64_small by lia. destruct (Z.ltb_spec (cur_pos p + 1) (cur_end p)).
  - eexists. split; [reflexivity|].
    assert (He : cur_end p <= s + clen c).
    { destruct c; try done; cbn [cache_ok] in Hca;
        [destruct Hca as (_ & _ & ->); cbn [chars]; lia|destruct Hca as [?|(_ & _ & ? & _)]; lia..]. }
    unfold pos_or_end. destruct (Z.ltb_spec (cur_pos p + 1) (clen x)); [|lia].
    exists k, c, s. cbn. split_and!; try done; try lia.
    destruct c; try done; cbn [cache_ok] in *;
      (destruct Hca as [?|(? & ? & ? & ?)]; [by left|right]); cbn; split_and!; try done; lia.
  - apply (CORD__next_ok k c s); try done. intros Hs. destruct c; try done. cbn [cache_ok chars] in *. lia.
Qed.

Lemma CORD__prev_ok (k : nat) (c : cord) (s : Z) (p : CORD_pos) :
  path_len p = Z.of_nat k -> path_ok x (path p) k -> pnode x (path p) k c s ->
  IS_CONCATENATION c = false -> s <= cur_pos p < s + clen c -> 0 < cur_pos p ->
  (s < cur_pos p -> cache_ok x c s (cur_pos p - 1) (set_cur_pos (cur_pos p - 1) p)) ->
  exists p', CORD__prev p = Some p' /\ pos_at x (cur_pos p - 1) p'.
Proof.
  intros Hk Hp Hn Hc Hs Hpos Hca. pose proof Hn as (En & Hw & Hs0 & Hsl & _).
  unfold CORD__prev. destruct (Z.eqb_spec (cur_pos p) 0); [lia|]. cbn [path path_len set_cur_pos].
  rewrite Hk, En. cbn [mbind option_bind pe_start_pos cur_pos set_cur_pos].
  destruct (Z.leb_spec s (cur_pos p - 1)).
  - eexists. split; [reflexivity|]. exists k, c, s. cbn. split_and!; try done; try lia. apply Hca. lia.
  - rewrite Nat2Z.id. assert (Hcp : cur_pos p = s) by lia.
    destruct (pop_prev_ok x (path p) k c s) as (n' & c' & s' & -> & Hlt & Hn' & Hin); [done|done|lia|].
    cbn [mbind option_bind]. replace (Z.of_nat (S n') - 1) with (Z.of_nat n') by lia.
    destruct (CORD_extend_path_ok x n' c' s' (set_path_len (Z.of_nat n') (set_cur_pos (cur_pos p - 1) p)))
      as (p' & -> & Hor); cbn;
      [done|done|done|by eapply path_ok_le; [|apply Nat.lt_le_incl]|done|lia|left; lia|].
    exists p'. split; [done|]. unfold pos_or_end in Hor. cbn in Hor.
    destruct (Z.ltb_spec (cur_pos p - 1) (clen x)); [done|lia].
Qed.

(** Stepping back is right unless the position stands at the start of a buffer the
    last [CORD_next] filled. *)
Lemma CORD_prev_ok (i : Z) (p : CORD_pos) :
  pos_at x i p -> 0 < i ->
  cur_end p = 0 \/ cur_leaf p <> Leaf_buf \/ cur_start p < i ->
  exists p', CORD_prev p = Some p' /\ pos_at x (i - 1) p'.
Proof.
  intros (k & c & s & Hk & Hp & Hn & Hc & <- & His & Hca) Hi Hcond.
  pose proof Hn as (_ & Hw & ? & ? & _). unfold CORD_prev.
  destruct (Z.eqb_spec (cur_end p) 0) as [E|E]; cbn [negb andb].
  - apply (CORD__prev_ok k c s); try done. intros _. destruct c; try done; by left.
  - destruct (Z.ltb_spec (cur_start p) (cur_pos p)).
    + eexists. split; [reflexivity|]. exists k, c, s. pos_cbn.
      destruct c as [|t| |len fn|len ka c j]; try done; cbn [cache_ok] in *.
      * destruct Hca as (? & ? & ?). split_and!; try done; lia.
      * destruct Hca as [?|(? & ? & ? & ?)]; [done|].
        split_and!; try done; try lia. right. pos_cbn. split_and!; try done; lia.
      * destruct Hca as [?|(? & ? & ? & ?)]; [done|].
        split_and!; try done; try lia. right. pos_cbn. split_and!; try done; lia.
    + apply (CORD__prev_ok k c s); try done. intros Hs.
      destruct c; try done; cbn [cache_ok] in *.
      * destruct Hca as [?|(? & _)]; [done|]. destruct Hcond as [?|[?|?]]; [done..|lia].
      * destruct Hca as [?|(? & _)]; [done|]. destruct Hcond as [?|[?|?]]; [done..|lia].
Qed.
End Moves.

(** ** The [CORD_FOR] loop *)

(** One round of [CORD_FOR(p, x) { st = f(CORD_pos_fetch(p), st); }]. *)
Definition CORD_FOR_body {S} (f : Z -> S -> S) (s : CORD_pos * S) : (CORD_pos * S) + option S :=
  if CORD_pos_valid s.1 then
    match CORD_pos_fetch s.1, CORD_next s.1 with
    | Some c, Some p' => inl (p', f c s.2)
    | _, _ => inr None
    end
  else inr (Some s.2).

Definition CORD_FOR {S} (f : Z -> S -> S) (x : cord) (st : S) : option S :=
  p ← CORD_set_pos pos_uninit x 0;
  r ← loop (CORD_FOR_body f) (p, st);
  r.


Lemma CORD_FOR_loop {S} (f : Z -> S -> S) (x : cord) (p : CORD_pos) (st : S) :
  dep x <= CORD_MAX_DEPTH -> clen x < W64 -> pos_or_end x 0 p ->
  exists r, loop (CORD_FOR_body f) (p, st) = Some r /\
            r = Some (foldl (fun st c => f c st) st (chars x)).
Proof.
  intros Hd Hw Hp.
  apply (loop_spec_rel (fun (n : nat) (s : CORD_pos * S) =>
    exists i, 0 <= i <= clen x /\ Z.of_nat n = clen x - i /\ pos_or_end x i s.1 /\
      foldl (fun st c => f c st) s.2 (drop (Z.to_nat i) (chars x))
      = foldl (fun st c => f c st) st (chars x)) _ _ (length (chars x))).
  - intros n [q s] (i & Hi & Hn & Hq & Hf). cbn [fst snd] in *. unfold pos_or_end in Hq.
    unfold CORD_FOR_body. cbn [fst snd]. destruct (Z.ltb_spec i (clen x)).
    + rewrite (pos_at_valid x i), (CORD_pos_fetch_ok x i) by done.
      destruct (lookup_lt_is_Some_2 (chars x) (Z.to_nat i)) as [c Hc]; [unfold zlen in *; lia|].
      rewrite Hc. destruct (CORD_next_ok x Hd Hw i q Hq) as (q' & -> & Hq').
      exists (Nat.pred n). split; [lia|]. exists (i + 1). split_and!; [lia|lia|lia|done|].
      cbn [fst snd]. rewrite <- Hf, (drop_S _ _ _ Hc). cbn [foldl].
      by replace (Z.to_nat (i + 1)) with (Datatypes.S (Z.to_nat i)) by lia.
    + rewrite Hq. rewrite drop_ge in Hf by (unfold zlen in *; lia). cbn [foldl] in Hf. by rewrite Hf.
  - exists 0. pose proof (zlen_nonneg (chars x)). split_and!; try done; try lia. unfold zlen. lia.
  - unfold zlen in Hw. exact Hw.
Qed.

(** C35: The [CORD_FOR] loop visits every character of a cord exactly once, in
    order, through the cached paths, leaves and function buffers, and ends. *)
Theorem CORD_FOR_correct {S} (f : Z -> S -> S) (x : cord) (st : S) :
  wf x -> dep x <= CORD_MAX_DEPTH ->
  CORD_FOR f x st = Some (foldl (fun st c => f c st) st (chars x)).
Proof.
  intros Hx Hd. unfold CORD_FOR.
  destruct (CORD_set_pos_ok x 0 pos_uninit) as (p & E & Hp); [done|done|lia|].
  assert (Hw : clen x < W64) by (destruct Hx as [->|Hx]; [done|by apply wfn_clen]).
  destruct (CORD_FOR_loop f x p st Hd Hw Hp) as (r & Er & Hr).
  rewrite E, some_bind, Er, some_bind. exact Hr.
Qed.

Lemma CORD_FOR_correct_witness :
  CORD_FOR (fun c l => c :: l) (Concat 1 2 42 (Str [97; 98]) (Fn 40 (fun _ => 99))) []
  = Some (foldl (fun st c => c :: st) [] (chars (Concat 1 2 42 (Str [97; 98]) (Fn 40 (fun _ => 99))))).
Proof.
  apply (CORD_FOR_correct (fun c l => c :: l)); [|vm_compute; discriminate].
  right. cbn [wfn]. split_and!; try discriminate; try reflexivity; try lia;
    try (repeat constructor; unfold is_char; lia); intros; unfold is_byte; lia.
Defined.

(** [CORD_set_pos] at an index of the cord gives a valid position whose
    [CORD_pos_fetch] is that character, and at an index past the end (or on the
    empty cord) an invalid one; the path array is never overrun. *)
Theorem CORD_set_pos_correct (x : cord) (i : Z) (p : CORD_pos) :
  wf x -> dep x <= CORD_MAX_DEPTH -> 0 <= i ->
  exists p', CORD_set_pos p x i = Some p' /\ CORD_pos_valid p' = (i <? clen x) /\
             (i < clen x -> CORD_pos_fetch p' = chars x !! Z.to_nat i /\ CORD_pos_to_index p' = i).
Proof.
  intros Hx Hd Hi. destruct (CORD_set_pos_ok x i p) as (p' & E & Hp); [done..|].
  assert (Hw : clen x < W64) by (destruct Hx as [->|Hx]; [done|by apply wfn_clen]).
  exists p'. unfold pos_or_end in Hp. destruct (Z.ltb_spec i (clen x)).
  - split_and!; [done|by apply (pos_at_valid x i)|]. intros _. split; [by apply CORD_pos_fetch_ok|].
    by destruct Hp as (? & ? & ? & _ & _ & _ & _ & ? & _).
  - split_and!; [done|done|lia].
Qed.

Lemma CORD_set_pos_correct_witness :
  exists p', CORD_set_pos pos_uninit (Str [97; 98]) 1 = Some p' /\
    CORD_pos_valid p' = (1 <? clen (Str [97; 98])) /\
    (1 < clen (Str [97; 98]) ->
     CORD_pos_fetch p' = chars (Str [97; 98]) !! Z.to_nat 1 /\ CORD_pos_to_index p' = 1).
Proof.
  apply (CORD_set_pos_correct (Str [97; 98]) 1 pos_uninit); [|vm_compute; discriminate|lia].
  right. cbn [wfn]. split_and!; [discriminate| |reflexivity].
  repeat constructor; unfold is_char; lia.
Defined.

(** From a position at [i > 0], [CORD_prev] gives the position at [i - 1],
    unless the position stands on the first character of a function buffer. *)
Theorem CORD_prev_correct (x : cord) (i : Z) (p : CORD_pos) :
  dep x <= CORD_MAX_DEPTH -> clen x < W64 -> pos_at x i p -> 0 < i ->
  cur_end p = 0 \/ cur_leaf p <> Leaf_buf \/ cur_start p < i ->
  exists p', CORD_prev p = Some p' /\ pos_at x (i - 1) p' /\
             CORD_pos_fetch p' = chars x !! Z.to_nat (i - 1).
Proof.
  intros Hd Hw Hp Hi Hc. destruct (CORD_prev_ok x Hd Hw i p Hp Hi Hc) as (p' & E & Hp').
  exists p'. split_and!; [done|done|by apply CORD_pos_fetch_ok].
Qed.

Lemma CORD_prev_correct_witness :
  exists p p', CORD_set_pos pos_uninit (Str [97; 98]) 1 = Some p /\
    CORD_prev p = Some p' /\ pos_at (Str [97; 98]) (1 - 1) p' /\
    CORD_pos_fetch p' = chars (Str [97; 98]) !! Z.to_nat (1 - 1).
Proof.
  destruct (CORD_set_pos pos_uninit (Str [97; 98]) 1) as [p|] eqn:E; [|vm_compute in E; discriminate].
  assert (Hx : wf (Str [97; 98])).
  { right. cbn [wfn]. split_and!; [discriminate| |reflexivity]. repeat constructor; unfold is_char; lia. }
  assert (Hp : pos_at (Str [97; 98]) 1 p).
  { destruct (CORD_set_pos_ok (Str [97; 98]) 1 pos_uninit) as (q & Eq & Hq);
      [done|vm_compute; discriminate|lia|]. rewrite E in Eq. injection Eq as <-. exact Hq. }
  destruct (CORD_prev_correct (Str [97; 98]) 1 p) as (p' & ? & ? & ?);
    [vm_compute; discriminate|reflexivity|done|lia|right; left|by exists p, p'].
  vm_compute in E. injection E as <-. discriminate.
Defined.

(** Stepping forward and back over a function leaf loses the position:
    [CORD_next] fills the buffer from index 1, [CORD_prev] returns to index 0 but
    leaves the buffer information in place, and [CORD_pos_fetch] then reads before
    the start of [function_buf]. *)
Theorem CORD_prev_stale_buffer :
  (p ← CORD_set_pos pos_uninit (Fn 40 (fun i => 97 + i mod 26)) 0;
   p ← CORD_next p;
   p ← CORD_prev p;
   Some (CORD_pos_valid p, CORD_pos_to_index p, CORD_pos_cur_char_addr p, CORD_pos_fetch p))
  = Some (true, 0, GC_SIZE_MAX, None).
Proof. vm_compute. reflexivity. Qed.

End CordPos.
