(* ===== verification/CordXtra.v ===== *)
(** * CordXtra: the client functions of [cordxtra.c]

    Conversion to C strings, comparison, search, extensible cords and reading a
    file, written as the source writes them: over the iterators and the positions
    of [cordbscs.c], with the client data they thread.  This file holds the
    definitions; [CordXtraOk] has the theorems. *)

From Stdlib Require Import ZArith Lia.
From stdpp Require Import base gmap list.
From S2P Require Import Prelude Cord CordSem CordPos.

Module CordXtra.
Import Cord CordSem CordPos.


Definition CORD_NOT_FOUND : Z := GC_SIZE_MAX.

(** ** Single characters and lists of cords *)

Definition CORD_nul_func (client_data : Z) (i : Z) : Z := client_data mod 256.

Definition CORD_chars (c i : Z) : option cord := CORD_from_fn (CORD_nul_func (c mod 256)) i.

Definition CORD_nul (i : Z) : option cord := CORD_chars 0 i.

Definition CORD_cat_char (x : cord) (c : Z) : option cord :=
  if c =? 0 then y ← CORD_nul 1; CORD_cat x y
  else CORD_cat_char_star x [c; 0] 1.

Fixpoint catn_loop (args : list cord) (result : cord) : option cord :=
  match args with
  | [] => Some result
  | next :: args => result ← CORD_cat result next; catn_loop args result
  end.

(** The variable arguments as a list. *)
Definition CORD_catn (args : list cord) : option cord := catn_loop args CORD_EMPTY.

(** ** Filling a buffer *)

(** A byte of a freshly allocated buffer is indeterminate until it is written. *)
Notation buffer := (list (option Z)).

Record CORD_fill_data := { fd_len : Z; fd_count : Z; fd_buf : buffer }.

(** [buf[i] = c] *)
Definition buf_write (buf : buffer) (i c : Z) : option buffer :=
  if (0 <=? i) && (i <? Z.of_nat (length buf)) then Some (<[Z.to_nat i := Some c]> buf) else None.

Definition CORD_fill_proc (c : Z) (d : CORD_fill_data) : option (Z * CORD_fill_data) :=
  buf ← buf_write (fd_buf d) (fd_count d) c;
  let count := wrap64 (fd_count d + 1) in
  Some (if fd_len d <=? count then 1 else 0,
        {| fd_len := fd_len d; fd_count := count; fd_buf := buf |}).

Fixpoint batched_fill_loop (t : list Z) (max count : Z) (buf : buffer) : option (Z * Z * buffer) :=
  match t with
  | [] => None
  | c :: t =>
    buf ← buf_write buf count c;
    if c =? 0 then Some (0, count, buf)
    else
      let count := wrap64 (count + 1) in
      if max <=? count then Some (1, count, buf) else batched_fill_loop t max count buf
  end.

Definition CORD_batched_fill_proc (s : list Z) (d : CORD_fill_data) : option (Z * CORD_fill_data) :=
  '(r, count, buf) ← batched_fill_loop s (fd_len d) (fd_count d) (fd_buf d);
  Some (r, {| fd_len := fd_len d; fd_count := count; fd_buf := buf |}).

(** The result is the [int] with the buffer after the call. *)
Definition CORD_fill_buf (x : cord) (i len : Z) (buf : buffer) : option (Z * buffer) :=
  '(r, fd) ← CORD_iter5 CORD_fill_proc (Some CORD_batched_fill_proc) x i
               {| fd_len := len; fd_count := 0; fd_buf := buf |};
  Some (r, fd_buf fd).

(** The bytes of the allocated string. *)
Definition CORD_to_char_star (x : cord) : option buffer :=
  len ← CORD_len x;
  let result := replicate (Z.to_nat (wrap64 (len + 1))) None in
  result ← (if 0 <? len then
              '(r, result) ← CORD_fill_buf x 0 len result;
              if r =? 1 then Some result else None
            else Some result);
  buf_write result len 0.

Definition CORD_to_const_char_star (x : cord) : option buffer :=
  match x with
  | CORD_EMPTY => Some [Some 0]
  | Str s => Some (Some <$> c_string s)
  | _ => CORD_to_char_star x
  end.

Definition CORD_fetch (x : cord) (i : Z) : option Z :=
  xpos ← CORD_set_pos pos_uninit x i;
  if CORD_pos_valid xpos then CORD_pos_fetch xpos else None.

(** ** Comparison *)

(** [strncmp]: the difference of the first characters that differ, as unsigned
    bytes, among the first [n] and up to a terminator. *)
Fixpoint strncmp (p q : list Z) (n : Z) : option Z :=
  if n =? 0 then Some 0
  else
    match p, q with
    | c :: p, d :: q =>
      if negb (c =? d) then Some (c - d) else if c =? 0 then Some 0 else strncmp p q (n - 1)
    | _, _ => None
    end.

(** [memcmp] of [n] bytes at two leaf addresses. *)
Fixpoint memcmp_leaf (p : CORD_pos) (off : Z) (q : CORD_pos) (off' : Z) (n : nat) : option Z :=
  match n with
  | O => Some 0
  | S n =>
    c ← leaf_read p off; d ← leaf_read q off';
    if negb (c =? d) then Some (c - d) else memcmp_leaf p (off + 1) q (off' + 1) n
  end.

(** One round of the loop of [CORD_ncmp]; [inr None] is a failure. *)
Definition ncmp_body (len : Z) (s : CORD_pos * CORD_pos * Z)
    : (CORD_pos * CORD_pos * Z) + option Z :=
  let '(xpos, ypos, count) := s in
  if negb (count <? len) then inr (Some 0)
  else if negb (CORD_pos_valid xpos) then inr (Some (if CORD_pos_valid ypos then -1 else 0))
  else if negb (CORD_pos_valid ypos) then inr (Some 1)
  else
    let avail := CORD_pos_chars_left xpos in
    let avail_y := CORD_pos_chars_left ypos in
    if (avail <=? 0) || (avail_y <=? 0) then
      match CORD_pos_fetch xpos, CORD_pos_fetch ypos with
      | Some cur_x, Some cur_y =>
        if negb (schar cur_x =? schar cur_y) then inr (Some (schar cur_x - schar cur_y))
        else
          match CORD_next xpos, CORD_next ypos with
          | Some xpos, Some ypos => inl (xpos, ypos, wrap64 (count + 1))
          | _, _ => inr None
          end
      | _, _ => inr None
      end
    else
      let avail := if avail_y <? avail then avail_y else avail in
      let count := wrap64 (count + avail) in
      let avail := if len <? count then avail - (count - len) else avail in
      match memcmp_leaf xpos (CORD_pos_cur_char_addr xpos) ypos (CORD_pos_cur_char_addr ypos)
              (Z.to_nat avail) with
      | None => inr None
      | Some result =>
        if negb (result =? 0) then inr (Some result)
        else
          match CORD_pos_advance xpos avail, CORD_pos_advance ypos avail with
          | Some xpos, Some ypos => inl (xpos, ypos, count)
          | _, _ => inr None
          end
      end.

Definition CORD_ncmp (x : cord) (x_start : Z) (y : cord) (y_start len : Z) : option Z :=
  if len =? 0 then Some 0
  else
    let compare :=
      x_str ← CORD_IS_STRING x;
      y_str ← (if x_str : bool then CORD_IS_STRING y else Some false);
      match x, y, y_str with
      | Str s, Str t, true =>
        strncmp (drop (Z.to_nat x_start) (c_string s)) (drop (Z.to_nat y_start) (c_string t)) len
      | _, _, _ =>
        xpos ← CORD_set_pos pos_uninit x x_start;
        ypos ← CORD_set_pos pos_uninit y y_start;
        r ← loop (ncmp_body len) (xpos, ypos, 0);
        r
      end in
    if Z.lor x_start y_start =? 0 then
      match y, x with
      | CORD_EMPTY, CORD_EMPTY => Some 0
      | CORD_EMPTY, _ => Some 1
      | _, CORD_EMPTY => Some (-1)
      | _, _ => compare
      end
    else compare.

Definition CORD_cmp (x y : cord) : option Z := CORD_ncmp x 0 y 0 (Z.shiftr GC_SIZE_MAX 1).

(** ** Searching *)

Record chr_data := { cd_pos : Z; cd_target : Z }.

Definition CORD_chr_proc (c : Z) (d : chr_data) : option (Z * chr_data) :=
  Some (if c =? cd_target d then (1, d)
        else (0, {| cd_pos := wrap64 (cd_pos d + 1); cd_target := cd_target d |})).

Definition CORD_rchr_proc (c : Z) (d : chr_data) : option (Z * chr_data) :=
  Some (if c =? cd_target d then (1, d)
        else (0, {| cd_pos := wrap64 (cd_pos d - 1); cd_target := cd_target d |})).

(** The offset [strchr] finds; the terminator is part of the string. *)
Fixpoint strchr (s : list Z) (c : Z) : option (option Z) :=
  match s with
  | [] => None
  | d :: s =>
    if d =? c then Some (Some 0)
    else if d =? 0 then Some None
    else r ← strchr s c; Some (match r with Some k => Some (k + 1) | None => None end)
  end.

Definition CORD_batched_chr_proc (s : list Z) (d : chr_data) : option (Z * chr_data) :=
  occ ← strchr s (cd_target d);
  match occ with
  | None =>
    len ← strlen s;
    Some (0, {| cd_pos := wrap64 (cd_pos d + len); cd_target := cd_target d |})
  | Some k => Some (1, {| cd_pos := wrap64 (cd_pos d + k); cd_target := cd_target d |})
  end.

Definition CORD_chr (x : cord) (i c : Z) : option Z :=
  '(r, d) ← CORD_iter5 CORD_chr_proc (Some CORD_batched_chr_proc) x i
              {| cd_pos := i; cd_target := c mod 256 |};
  Some (if r =? 0 then CORD_NOT_FOUND else cd_pos d).

Definition CORD_rchr (x : cord) (i c : Z) : option Z :=
  '(r, d) ← CORD_riter4 CORD_rchr_proc x i {| cd_pos := i; cd_target := c mod 256 |};
  Some (if r =? 0 then CORD_NOT_FOUND else cd_pos d).

Definition STR_START_MAX_LEN : Z := 8.

(** [buf <<= 8; buf |= c] *)
Definition shift_in (buf c : Z) : Z := Z.lor (wrap64 (Z.shiftl buf 8)) c.

(** The loop that reads the first [n] characters of both cords. *)
Fixpoint str_start (s_start : buffer) (i : nat) (n : nat) (xpos : CORD_pos) (s_buf x_buf mask : Z)
    : option (CORD_pos * Z * Z * Z) :=
  match n with
  | O => Some (xpos, s_buf, x_buf, mask)
  | S n =>
    sc ← s_start !! i;
    sc ← sc;
    xc ← CORD_pos_fetch xpos;
    xpos ← CORD_next xpos;
    str_start s_start (S i) n xpos (shift_in s_buf sc) (shift_in x_buf xc) (shift_in mask 255)
  end.

(** One round of the search loop: the window [x_buf] against the first characters
    [s_buf], then the rest of [s]. *)
Definition str_body (x s : cord) (xlen slen start_len s_buf mask : Z) (st : CORD_pos * Z * Z)
    : (CORD_pos * Z * Z) + option Z :=
  let '(xpos, x_buf, match_pos) := st in
  let found :=
    if Z.land x_buf mask =? s_buf then
      if slen =? start_len then Some true
      else r ← CORD_ncmp x (wrap64 (match_pos + start_len)) s start_len (slen - start_len);
           Some (r =? 0)
    else Some false in
  match found with
  | None => inr None
  | Some true => inr (Some match_pos)
  | Some false =>
    if match_pos =? xlen - slen then inr (Some CORD_NOT_FOUND)
    else
      match CORD_pos_fetch xpos, CORD_next xpos with
      | Some c, Some xpos => inl (xpos, shift_in x_buf c, wrap64 (match_pos + 1))
      | _, _ => inr None
      end
  end.

Definition CORD_str (x : cord) (start : Z) (s : cord) : option Z :=
  xlen ← CORD_len x;
  match s with
  | CORD_EMPTY => Some start
  | _ =>
    is_string ← CORD_IS_STRING s;
    '(s_start, slen) ←
      (if is_string : bool then
         len ← GEN_LEN s;
         Some (match s with Str t => Some <$> c_string t | _ => [] end, len)
       else
         y ← CORD_substr s 0 STR_START_MAX_LEN;
         b ← CORD_to_char_star y;
         len ← CORD_len s;
         Some (b, len));
    if (xlen <? start) || (xlen - start <? slen) then Some CORD_NOT_FOUND
    else
      let start_len := if STR_START_MAX_LEN <? slen then STR_START_MAX_LEN else slen in
      xpos ← CORD_set_pos pos_uninit x start;
      '(xpos, s_buf, x_buf, mask) ← str_start s_start 0 (Z.to_nat start_len) xpos 0 0 0;
      r ← loop (str_body x s xlen slen start_len s_buf mask) (xpos, x_buf, start);
      r
  end.

(** ** Extensible cords *)

Definition CORD_BUFSZ : Z := 128.

(** [ec_buf] is the part of the array before [ec_bufptr]. *)
Record CORD_ec := { ec_cord : cord; ec_buf : list Z }.

Definition CORD_ec_init : CORD_ec := {| ec_cord := CORD_EMPTY; ec_buf := [] |}.

Definition CORD_ec_flush_buf (x : CORD_ec) : option CORD_ec :=
  let len := Z.of_nat (length (ec_buf x)) in
  if len =? 0 then Some x
  else
    c ← CORD_cat_char_star (ec_cord x) (ec_buf x ++ [0]) len;
    Some {| ec_cord := c; ec_buf := [] |}.

Definition CORD_ec_to_cord (x : CORD_ec) : option cord :=
  x ← CORD_ec_flush_buf x; Some (ec_cord x).

Definition CORD_ec_append (x : CORD_ec) (c : Z) : option CORD_ec :=
  x ← (if Z.of_nat (length (ec_buf x)) =? CORD_BUFSZ then CORD_ec_flush_buf x else Some x);
  if Z.of_nat (length (ec_buf x)) <? CORD_BUFSZ + 1
  then Some {| ec_cord := ec_cord x; ec_buf := ec_buf x ++ [c] |} else None.

Definition CORD_ec_append_cord (x : CORD_ec) (s : cord) : option CORD_ec :=
  x ← CORD_ec_flush_buf x;
  c ← CORD_cat (ec_cord x) s;
  Some {| ec_cord := c; ec_buf := ec_buf x |}.

(** ** Reading a file

    The stream is the list of the bytes that [getc] has not returned yet. *)

(** [while ((c = getc(f)) == 0) count++], from the byte after the first NUL. *)
Fixpoint count_nuls (f : list Z) (count : Z) : Z * list Z :=
  match f with
  | c :: f' => if c =? 0 then count_nuls f' (wrap64 (count + 1)) else (count, f)
  | [] => (count, f)
  end.

Fixpoint from_file_loop (fuel : nat) (f : list Z) (ec : CORD_ec) : option CORD_ec :=
  match fuel with
  | O => None
  | S fuel =>
    '(f, ec) ←
      (match f with
       | 0 :: f' =>
         ec ← CORD_ec_flush_buf ec;
         let '(count, f') := count_nuls f' 1 in
         nuls ← CORD_nul count;
         c ← CORD_cat (ec_cord ec) nuls;
         Some (f', {| ec_cord := c; ec_buf := ec_buf ec |})
       | _ => Some (f, ec)
       end);
    match f with
    | [] => Some ec
    | c :: f => ec ← CORD_ec_append ec c; from_file_loop fuel f ec
    end
  end.

Definition CORD_from_file_eager (f : list Z) : option cord :=
  ec ← from_file_loop (S (length f)) f CORD_ec_init;
  x ← CORD_ec_to_cord ec;
  CORD_balance x.

(** ** The cache of a lazily read file *)

Definition LOG_CACHE_SZ : Z := 14.
Definition LOG_LINE_SZ : Z := 9.
Definition CACHE_SZ : Z := Z.shiftl 1 LOG_CACHE_SZ.
Definition LINE_SZ : Z := Z.shiftl 1 LOG_LINE_SZ.
Definition MOD_CACHE_SZ (n : Z) : Z := Z.land n (CACHE_SZ - 1).
Definition MOD_LINE_SZ (n : Z) : Z := Z.land n (LINE_SZ - 1).
Definition DIV_LINE_SZ (n : Z) : Z := Z.shiftr n LOG_LINE_SZ.
Definition LINE_START (n : Z) : Z := Z.land n (Z.lnot (LINE_SZ - 1)).

(** [data] is the part of the line that was read. *)
Record cache_line := { tag : Z; data : list Z }.

(** A [FILE] opened for reading: its bytes and the file position. *)
Record file := { f_bytes : list Z; f_pos : Z }.

Definition fseek (f : file) (pos : Z) : file := {| f_bytes := f_bytes f; f_pos := pos |}.

Definition fread (f : file) (n : Z) : list Z * file :=
  let d := take (Z.to_nat n) (drop (Z.to_nat (f_pos f)) (f_bytes f)) in
  (d, {| f_bytes := f_bytes f; f_pos := f_pos f + Z.of_nat (length d) |}).

(** [lf_cache] has an entry for each line that is not [NULL]. *)
Record lf_state := { lf_file : file; lf_current : Z; lf_cache : gmap Z cache_line }.

Definition refill_cache (state : lf_state) (file_pos : Z) : option (Z * lf_state) :=
  let line_start := LINE_START file_pos in
  let line_no := DIV_LINE_SZ (MOD_CACHE_SZ file_pos) in
  let f := if negb (line_start =? lf_current state) then fseek (lf_file state) line_start
           else lf_file state in
  let '(d, f) := fread f LINE_SZ in
  if Z.of_nat (length d) <=? file_pos - line_start then None
  else
    let new_cache := {| tag := DIV_LINE_SZ file_pos; data := d |} in
    c ← get (data new_cache) (MOD_LINE_SZ file_pos);
    Some (c, {| lf_file := f; lf_current := wrap64 (line_start + LINE_SZ);
                lf_cache := <[line_no := new_cache]> (lf_cache state) |}).

Definition CORD_lf_func (i : Z) (state : lf_state) : option (Z * lf_state) :=
  match lf_cache state !! DIV_LINE_SZ (MOD_CACHE_SZ i) with
  | Some cl =>
    if tag cl =? DIV_LINE_SZ i then c ← get (data cl) (MOD_LINE_SZ i); Some (c, state)
    else refill_cache state i
  | None => refill_cache state i
  end.

(** The state [CORD_from_file_lazy_inner] sets up, after its dummy read. *)
Definition lf_init (f : file) (len : Z) : lf_state :=
  let f := if negb (len =? 0) then fseek (snd (fread f 1)) 0 else f in
  {| lf_file := f; lf_current := 0; lf_cache := ∅ |}.

End CordXtra.
