(* ===== verification/CordXtraOk.v ===== *)
(** * CordXtraOk: the client functions of [cordxtra.c] against the characters

    Conversion to and from C strings, comparison, searching, extensible cords and
    the file readers compute what [cord.h] says of the sequence a cord denotes. *)

From Stdlib Require Import ZArith Lia.
From stdpp Require Import base gmap list.
From S2P Require Import Prelude Cord CordSem CordCat CordBalance CordOps CordPos CordXtra.

Module CordXtraOk.
Import Cord CordSem CordCat CordBalance CordOps CordPos CordXtra.


(** ** Buffers *)

(** The first bytes of [buf], of size [n], are [l]. *)
Definition filled (n : nat) (l : list Z) (buf : buffer) : Prop :=
  length buf = n /\ take (length l) buf = Some <$> l.

Lemma filled_write (n : nat) (l : list Z) (buf : buffer) (c : Z) :
  filled n l buf -> (length l < n)%nat ->
  exists buf', buf_write buf (zlen l) c = Some buf' /\ filled n (l ++ [c]) buf' /\ filled n l buf'.
Proof.
  intros [Hn Ht] Hl. unfold buf_write, zlen.
  rewrite (proj2 (Z.leb_le _ _)), (proj2 (Z.ltb_lt _ _)) by lia. cbn [andb]. rewrite Nat2Z.id.
  eexists. split; [done|].
  assert (E : take (length l) (<[length l := Some c]> buf) = Some <$> l).
  { by rewrite take_insert_ge by lia. }
  split; (split; [by rewrite length_insert|]); [|done].
  rewrite length_app. cbn [length]. rewrite Nat.add_1_r, (take_S_r _ _ (Some c)).
  - by rewrite E, fmap_app.
  - apply list_lookup_insert_eq. lia.
Qed.

(** The data of [CORD_fill_buf] after [l] was copied. *)
Definition filling (n : nat) (l : list Z) (d : CORD_fill_data) : Prop :=
  fd_len d = Z.of_nat n /\ fd_count d = zlen l /\ filled (S n) l (fd_buf d).

Lemma CORD_fill_proc_ok (n : nat) (l : list Z) (c : Z) (d : CORD_fill_data) :
  filling n l d -> (length l < n)%nat -> Z.of_nat n < W64 ->
  exists d', CORD_fill_proc c d = Some (if Z.of_nat n <=? zlen l + 1 then 1 else 0, d') /\
             filling n (l ++ [c]) d'.
Proof.
  intros (Hn & Hc & Hb) Hl Hw. unfold CORD_fill_proc. rewrite Hn, Hc.
  destruct (filled_write _ _ _ c Hb) as (buf' & -> & Hb' & _); [lia|]. cbn [mbind option_bind].
  rewrite wrap64_small by (unfold zlen; lia). eexists. split; [done|].
  split_and!; [done|cbn|done]. by rewrite zlen_app.
Qed.

Lemma batched_fill_loop_ok (n : nat) (s l : list Z) (buf : buffer) :
  Forall is_char s -> filled (S n) l buf -> (length l < n)%nat -> Z.of_nat n < W64 ->
  (length (l ++ s) <= n)%nat ->
  exists r l' buf', batched_fill_loop (c_string s) (Z.of_nat n) (zlen l) buf = Some (r, zlen l', buf') /\
    filled (S n) l' buf' /\ l' = l ++ s /\ r = if Z.of_nat n <=? zlen l' then 1 else 0.
Proof.
  intros Hs. revert l buf. induction Hs as [|c s Hc _ IH]; intros l buf Hb Hl Hw Hls.
  - cbn. destruct (filled_write _ _ _ 0 Hb) as (buf' & -> & _ & Hb'); [lia|]. cbn.
    exists 0, l, buf'. rewrite app_nil_r. split_and!; [done|done|done|].
    destruct (Z.leb_spec (Z.of_nat n) (zlen l)); [unfold zlen in *; lia|done].
  - cbn [c_string app batched_fill_loop].
    destruct (filled_write _ _ _ c Hb) as (buf' & -> & Hb' & _); [lia|]. cbn [mbind option_bind].
    unfold is_char in Hc. destruct (Z.eqb_spec c 0); [lia|].
    rewrite wrap64_small by (unfold zlen; lia).
    replace (zlen l + 1) with (zlen (l ++ [c])) by (by rewrite zlen_app).
    rewrite length_app in Hls. cbn [length] in Hls. cbn zeta.
    destruct (Z.leb_spec (Z.of_nat n) (zlen (l ++ [c]))) as [Hge|Hlt].
    + assert (s = []) as -> by (destruct s; [done|rewrite zlen_app in Hge; unfold zlen in Hge; cbn in *; lia]).
      exists 1, (l ++ [c]), buf'. split_and!; [done|done|done|].
      by destruct (Z.leb_spec (Z.of_nat n) (zlen (l ++ [c]))); [|lia].
    + destruct (IH (l ++ [c]) buf' Hb') as (r & l' & buf'' & E & ? & -> & ->).
      { rewrite length_app. cbn. rewrite zlen_app in Hlt. unfold zlen in Hlt. cbn in Hlt. lia. }
      { done. } { rewrite !length_app. cbn. lia. }
      eexists _, (l ++ c :: s), buf''. rewrite <- app_assoc in *. by split_and!.
Qed.

(** A step that has copied [l] out of the [n] characters [T]: done or not yet. *)
Lemma fill_stepped (n : nat) (T l k : list Z) (d : CORD_fill_data) (r : Z) :
  n = length T -> r = (if Z.of_nat n <=? zlen l then 1 else 0) ->
  filling n l d -> T = l ++ k ->
  (r = 0 -> filling n l d /\ (length l < n)%nat) /\ (r <> 0 -> r = 1 /\ filling n T d).
Proof.
  intros Hn -> Hf HT. destruct (Z.leb_spec (Z.of_nat n) (zlen l)) as [Hge|Hlt].
  - split; [done|]. intros _. split; [done|].
    assert (k = []) as -> by (destruct k; [done|]; rewrite HT, length_app in Hn; cbn in Hn; unfold zlen in Hge; lia).
    by rewrite HT, app_nil_r.
  - split; [|done]. intros _. split; [done|]. unfold zlen in Hlt. lia.
Qed.

(** [CORD_fill_buf] over the whole cord fills the buffer and reports it. *)
Lemma CORD_fill_buf_ok (x : cord) (buf : buffer) :
  wfn x -> length buf = S (length (chars x)) ->
  exists buf', CORD_fill_buf x 0 (clen x) buf = Some (1, buf') /\
               filled (S (length (chars x))) (chars x) buf'.
Proof.
  intros Hx Hb. pose proof (wfn_clen _ Hx) as Hl. unfold CORD_fill_buf.
  set (n := length (chars x)). assert (Hn : clen x = Z.of_nat n) by done. rewrite Hn.
  set (P := fun l d => filling n l d /\ (length l < n)%nat).
  set (Q := fun r d => r = 1 /\ filling n (chars x) d).
  destruct (CORD_iter5_rule CORD_fill_proc CORD_batched_fill_proc (chars x) P Q)
    with (x := x) (i := 0) (st := {| fd_len := Z.of_nat n; fd_count := 0; fd_buf := buf |})
    as (r & d & -> & H0 & H1).
  - intros r d [_ ?]. by split.
  - intros l c k d HT [Hf Hlt]. destruct (CORD_fill_proc_ok n l c d) as (d' & E & Hf'); [done..|lia|].
    eexists _, d'. split; [exact E|]. eapply fill_stepped; [done|by rewrite zlen_app|done|].
    by rewrite HT, <- app_assoc.
  - intros l s k d HT Hs Hsc [(En & Ec & Hf) Hlt].
    assert (Hls : (length (l ++ s) <= n)%nat).
    { subst n. rewrite HT, !length_app. lia. }
    destruct (batched_fill_loop_ok n s l (fd_buf d)) as (r & l' & buf' & E & Hf' & -> & ->); [done..|lia|done|].
    eexists _, {| fd_len := fd_len d; fd_count := _; fd_buf := buf' |}.
    split; [unfold CORD_batched_fill_proc; by rewrite En, Ec, E|].
    eapply fill_stepped; [done|done|by split_and!|]. by rewrite HT, app_assoc.
  - done.
  - lia.
  - done.
  - split; [|cbn; lia]. by split_and!.
  - cbn [mbind option_bind]. destruct (decide (r = 0)) as [->|Hr].
    + destruct (H0 eq_refl) as [_ Hlt]. subst n. lia.
    + destruct (H1 Hr) as [-> (_ & _ & Hf)]. by exists (fd_buf d).
Qed.

Lemma CORD_to_char_star_ok (x : cord) :
  wf x -> clen x + 1 < W64 -> CORD_to_char_star x = Some (Some <$> (chars x ++ [0])).
Proof.
  intros Hx Hw. unfold CORD_to_char_star. rewrite CORD_len_ok by done. cbn [mbind option_bind].
  pose proof (zlen_nonneg (chars x)). rewrite wrap64_small by lia.
  destruct Hx as [->|Hx]; [done|]. pose proof (wfn_clen _ Hx).
  destruct (Z.ltb_spec 0 (clen x)); [|lia].
  destruct (CORD_fill_buf_ok x (replicate (Z.to_nat (clen x + 1)) None)) as (buf & -> & Hb).
  { done. } { rewrite length_replicate. unfold zlen. lia. }
  cbn [mbind option_bind]. rewrite Z.eqb_refl. cbn [mbind option_bind].
  destruct (filled_write _ _ _ 0 Hb) as (buf' & -> & [Hn Ht] & _); [lia|].
  f_equal. rewrite <- Ht. rewrite take_ge; [done|]. rewrite length_app. cbn. lia.
Qed.

Lemma CORD_fetch_ok (x : cord) (i : Z) :
  wf x -> dep x <= CORD_MAX_DEPTH -> 0 <= i -> CORD_fetch x i = chars x !! Z.to_nat i.
Proof.
  intros Hx Hd Hi. unfold CORD_fetch.
  destruct (CORD_set_pos_ok x i pos_uninit) as (p & -> & Hp); [done..|]. cbn [mbind option_bind].
  unfold pos_or_end in Hp. destruct (Z.ltb_spec i (clen x)).
  - rewrite (pos_at_valid x i) by done. apply CORD_pos_fetch_ok; [done| |done].
    destruct Hx as [->|Hx]; [done|by apply wfn_clen].
  - rewrite Hp. symmetry. apply lookup_ge_None. unfold zlen in *. lia.
Qed.

(** ** Concatenation of characters and lists *)

Lemma CORD_chars_ok (c n : Z) :
  0 <= n < W64 -> exists x, CORD_chars c n = Some x /\ cord_ok x /\
                            chars x = replicate (Z.to_nat n) (c mod 256).
Proof.
  intros Hn. destruct (CORD_from_fn_ok (CORD_nul_func (c mod 256)) n) as (x & ? & ? & Hc); [done| |].
  { intros i. unfold CORD_nul_func, is_byte. rewrite Z.mod_mod by lia. by apply Z.mod_pos_bound. }
  exists x. split_and!; [done|done|]. rewrite Hc. unfold CORD_nul_func. apply list_eq. intros k.
  rewrite list_lookup_fmap. destruct (decide (k < Z.to_nat n)%nat).
  - rewrite lookup_seqZ_lt, lookup_replicate_2 by lia. cbn. f_equal. by rewrite Z.mod_mod.
  - rewrite lookup_seqZ_ge by lia. cbn. symmetry. apply lookup_ge_None. rewrite length_replicate. lia.
Qed.

Lemma CORD_cat_char_ok (x : cord) (c : Z) :
  cord_ok x -> is_byte c -> clen x + 1 < CORD_LIMIT ->
  exists y, CORD_cat_char x c = Some y /\ cord_ok y /\ chars y = chars x ++ [c].
Proof.
  intros Hx Hc Hl. unfold CORD_cat_char. destruct (Z.eqb_spec c 0) as [->|].
  - destruct (CORD_chars_ok 0 1) as (y & Ey & Hy & Hyc); [done|]. unfold CORD_nul. rewrite Ey.
    cbn [mbind option_bind]. rewrite Zmod_0_l in Hyc. change (Z.to_nat 1) with 1%nat in Hyc. cbn in Hyc.
    rewrite <- Hyc. apply CORD_cat_ok; [done|done|]. rewrite Hyc. done.
  - apply (CORD_cat_char_star_ok x [c; 0] 1); [done| |done].
    unfold buf_ok, is_byte in *. split; [done|]. split; [|done].
    repeat constructor; lia.
Qed.

Lemma CORD_catn_ok (args : list cord) :
  Forall cord_ok args -> zlen (concat (chars <$> args)) < CORD_LIMIT ->
  exists y, CORD_catn args = Some y /\ cord_ok y /\ chars y = concat (chars <$> args).
Proof.
  intros Ha Hl. unfold CORD_catn.
  assert (H : forall result, cord_ok result -> clen result + zlen (concat (chars <$> args)) < CORD_LIMIT ->
    exists y, catn_loop args result = Some y /\ cord_ok y /\ chars y = chars result ++ concat (chars <$> args)).
  { clear Hl. induction Ha as [|a args Hal _ IH]; intros result Hr Hl.
    - exists result. by rewrite app_nil_r.
    - cbn [catn_loop fmap list_fmap concat] in *. rewrite zlen_app in Hl.
      pose proof (zlen_nonneg (concat (chars <$> args))).
      destruct (CORD_cat_ok result a) as (z & -> & Hz & Hzc); [done|done|lia|]. cbn [mbind option_bind].
      destruct (IH z) as (y & ? & ? & Hy); [done|rewrite Hzc, zlen_app; lia|].
      exists y. split_and!; [done|done|]. by rewrite Hy, Hzc, app_assoc. }
  apply H; [|exact Hl]. split; [by left|done].
Qed.

(** ** Characters *)

(** [k] is the first index of [t] in [l]. *)
Definition first_at (t : Z) (l : list Z) (k : nat) : Prop :=
  l !! k = Some t /\ forall j, (j < k)%nat -> l !! j <> Some t.

Lemma strchr_ok (t : Z) (s : list Z) :
  t <> 0 -> Forall is_char s ->
  exists r, strchr (c_string s) t = Some r /\
    match r with
    | Some k => exists j, k = Z.of_nat j /\ first_at t s j
    | None => t ∉ s
    end.
Proof.
  intros Ht. induction 1 as [|c s Hc _ IH]; cbn [c_string app strchr].
  { destruct (Z.eqb_spec 0 t); [done|]. exists None. split; [done|]. apply not_elem_of_nil. }
  destruct (Z.eqb_spec c t) as [->|Hct].
  { exists (Some 0). split; [done|]. exists 0%nat. split; [done|]. split; [done|]. lia. }
  unfold is_char in Hc. destruct (Z.eqb_spec c 0); [lia|].
  destruct IH as (r & E & Hr). change (strchr (s ++ [0]) t) with (strchr (c_string s) t). rewrite E. cbn.
  eexists. split; [done|]. destruct r as [k|].
  - destruct Hr as (j & -> & Hj & Hlt). exists (S j). split; [lia|]. split; [done|].
    intros [|i] Hi; cbn; [congruence|]. apply Hlt. lia.
  - apply not_elem_of_cons. by split.
Qed.

Lemma first_at_app (t : Z) (l s k : list Z) (j : nat) :
  t ∉ l -> first_at t s j -> first_at t (l ++ s ++ k) (length l + j).
Proof.
  intros Hl [Hj Hlt]. split.
  - rewrite lookup_app_r by lia. rewrite lookup_app_l.
    + by replace (length l + j - length l)%nat with j by lia.
    + apply lookup_lt_Some in Hj. lia.
  - intros i Hi E. destruct (decide (i < length l)%nat).
    + rewrite lookup_app_l in E by done. apply Hl. by eapply list_elem_of_lookup_2.
    + apply lookup_lt_Some in Hj. rewrite lookup_app_r, lookup_app_l in E by lia.
      eapply Hlt; [|done]. lia.
Qed.

Lemma CORD_chr_ok (x : cord) (i c : Z) :
  wfn x -> 0 <= i < clen x -> c mod 256 <> 0 ->
  exists r, CORD_chr x i c = Some r /\
    (r = CORD_NOT_FOUND /\ c mod 256 ∉ drop (Z.to_nat i) (chars x) \/
     exists k, r = i + Z.of_nat k /\ first_at (c mod 256) (drop (Z.to_nat i) (chars x)) k).
Proof.
  intros Hx Hi Ht. pose proof (wfn_clen _ Hx). unfold CORD_chr. set (t := c mod 256) in *.
  set (T := drop (Z.to_nat i) (chars x)).
  assert (HTl : i + zlen T = clen x) by (unfold zlen, T in *; rewrite length_drop; lia).
  set (P := fun l d => cd_pos d = i + zlen l /\ cd_target d = t /\ t ∉ l).
  set (Q := fun (r : Z) d => exists k, cd_pos d = i + Z.of_nat k /\ first_at t T k).
  destruct (CORD_iter5_rule CORD_chr_proc CORD_batched_chr_proc T P Q)
    with (x := x) (i := i) (st := {| cd_pos := i; cd_target := t |}) as (r & d & -> & H0 & H1);
    [done| | |done|done|done| |].
  - intros l a k d HT (Hp & Htg & Hl). unfold stepped, CORD_chr_proc. rewrite Htg.
    assert (Hlt : zlen l < zlen T).
    { rewrite HT, zlen_app, zlen_cons. pose proof (zlen_nonneg k). lia. }
    destruct (Z.eqb_spec a t) as [->|Hat].
    + eexists _, _. split; [done|]. split; [done|]. intros _. exists (length l + 0)%nat.
      split; [rewrite Hp; unfold zlen; lia|]. rewrite HT. change (t :: k) with ([t] ++ k).
      apply first_at_app; [done|]. split; [done|lia].
    + eexists _, _. split; [done|]. split; [|done]. intros _. split_and!; [|done|].
      * cbn. pose proof (zlen_nonneg l). rewrite Hp, zlen_app, wrap64_small by lia. change (zlen [a]) with 1. lia.
      * rewrite not_elem_of_app, list_elem_of_singleton. by split.
  - intros l s k d HT Hs Hsc (Hp & Htg & Hl). unfold stepped, CORD_batched_chr_proc. rewrite Htg.
    assert (Hlt : zlen l + zlen s <= zlen T).
    { rewrite HT, !zlen_app. pose proof (zlen_nonneg k). lia. }
    pose proof (zlen_nonneg l). pose proof (zlen_nonneg s).
    destruct (strchr_ok t s Ht Hsc) as (r & -> & Hr). cbn [mbind option_bind]. destruct r as [k'|].
    + destruct Hr as (j & -> & Hj). eexists _, _. split; [done|]. split; [done|]. intros _.
      exists (length l + j)%nat. cbn. pose proof (lookup_lt_Some _ _ _ (proj1 Hj)).
      rewrite Hp, wrap64_small by (unfold zlen in *; lia). split; [unfold zlen; lia|].
      rewrite HT. by apply first_at_app.
    + rewrite strlen_c_string by done. cbn [mbind option_bind]. eexists _, _. split; [done|].
      split; [|done]. intros _. split_and!; [|done|by rewrite not_elem_of_app].
      cbn. rewrite Hp, zlen_app, wrap64_small by lia. lia.
  - unfold P. cbn [cd_pos cd_target]. change (zlen []) with 0. split_and!; [lia|done|apply not_elem_of_nil].
  - cbn [mbind option_bind]. eexists. split; [done|]. destruct (Z.eqb_spec r 0) as [->|Hr].
    + left. split; [done|]. by destruct (H0 eq_refl) as (_ & _ & ?).
    + right. apply H1, Hr.
Qed.

(** The last occurrence, found by counting down. *)
Lemma rchr_fold (t p : Z) (l : list Z) :
  exists r d, fold_chars CORD_rchr_proc l {| cd_pos := wrap64 p; cd_target := t |} = Some (r, d) /\
    (r = 0 /\ t ∉ l \/ r = 1 /\ exists k, cd_pos d = wrap64 (p - Z.of_nat k) /\ first_at t l k).
Proof.
  revert p. induction l as [|c l IH]; intros p; cbn.
  { eexists _, _. split; [done|]. left. split; [done|]. apply not_elem_of_nil. }
  destruct (Z.eqb_spec c t) as [->|Hc]; cbn.
  { eexists _, _. split; [done|]. right. split; [done|]. exists 0%nat. split; [cbn; f_equal; lia|].
    split; [done|lia]. }
  replace (wrap64 (wrap64 p - 1)) with (wrap64 (p - 1)) by (unfold wrap64; by rewrite Zminus_mod_idemp_l).
  destruct (IH (p - 1)) as (r & d & -> & Hcase). eexists _, _. split; [done|].
  destruct Hcase as [[-> Hn]|[-> (k & Hp & Hk & Hlt)]].
  - left. split; [done|]. apply not_elem_of_cons. by split.
  - right. split; [done|]. exists (S k). split; [rewrite Hp; f_equal; lia|]. split; [done|].
    intros [|j] Hj; cbn; [congruence|]. apply Hlt. lia.
Qed.

Lemma CORD_rchr_ok (x : cord) (i c : Z) :
  wfn x -> 0 <= i < clen x ->
  exists r, CORD_rchr x i c = Some r /\
    (r = CORD_NOT_FOUND /\ c mod 256 ∉ take (S (Z.to_nat i)) (chars x) \/
     0 <= r <= i /\ chars x !! Z.to_nat r = Some (c mod 256) /\
     forall j, r < j <= i -> chars x !! Z.to_nat j <> Some (c mod 256)).
Proof.
  intros Hx Hi. pose proof (wfn_clen _ Hx). unfold CORD_rchr. rewrite CORD_riter4_ok by done.
  set (t := c mod 256). set (l := take (S (Z.to_nat i)) (chars x)).
  destruct (rchr_fold t i (reverse l)) as (r & d & E & Hcase). rewrite wrap64_small in E by lia.
  rewrite E. cbn [mbind option_bind]. eexists. split; [done|].
  assert (Hll : length l = S (Z.to_nat i)) by (unfold l; rewrite length_take; unfold zlen in Hi; lia).
  destruct Hcase as [[-> Hn]|[-> (k & Hp & Hk & Hlt)]]; cbn [Z.eqb].
  - left. split; [done|]. by rewrite elem_of_reverse in Hn.
  - right. assert (Hkl := lookup_lt_Some _ _ _ Hk). rewrite length_reverse in Hkl.
    rewrite Hp, wrap64_small by lia.
    assert (Hrev : forall j, (j <= Z.to_nat i)%nat -> reverse l !! j = chars x !! (Z.to_nat i - j)%nat).
    { intros j Hj. rewrite reverse_lookup, Hll by lia. unfold l. rewrite lookup_take_lt by lia. done. }
    rewrite Hrev in Hk by lia. split; [lia|]. split; [rewrite <- Hk; f_equal; lia|].
    intros j Hj Ej. apply (Hlt (Z.to_nat (i - j))); [lia|]. rewrite Hrev by lia. rewrite <- Ej. f_equal. lia.
Qed.

(** ** Comparison *)

(** Two lists agree on [n] characters. *)
Definition agree (n : Z) (X Y : list Z) : Prop := sub 0 n X = sub 0 n Y.

Lemma sub_split {A} (m n : Z) (l : list A) :
  0 <= m -> 0 <= n -> sub 0 (m + n) l = sub 0 m l ++ sub m n l.
Proof.
  intros. unfold sub. rewrite Z2Nat.inj_add by lia. cbn [Z.to_nat]. rewrite !drop_0.
  symmetry. apply take_take_drop.
Qed.

Lemma agree_step (m n : Z) (X Y : list Z) :
  0 <= m -> 0 <= n -> agree m X Y -> agree (m + n) X Y <-> sub m n X = sub m n Y.
Proof.
  unfold agree. intros ?? H. rewrite !sub_split, H by lia. split; [|by intros ->].
  by intros ?%app_inv_head.
Qed.

Lemma agree_le (m n : Z) (X Y : list Z) : m <= n -> agree n X Y -> agree m X Y.
Proof.
  unfold agree, sub. intros ? E. apply (f_equal (take (Z.to_nat m))) in E.
  rewrite !take_take in E. by replace (Z.to_nat m `min` Z.to_nat n)%nat with (Z.to_nat m) in E by lia.
Qed.

(** The bytes in the leaf of a position, up to [cur_end], are those of the cord. *)
Lemma leaf_run (x : cord) (i : Z) (p : CORD_pos) :
  clen x < W64 -> pos_at x i p ->
  cur_end p <= clen x /\
  forall j, 0 <= j -> i + j < cur_end p ->
    leaf_read p (CORD_pos_cur_char_addr p + j) = chars x !! Z.to_nat (i + j).
Proof.
  intros Hw (k & c & s & Hk & Hp & Hn & Hc & Hi & His & Hca).
  pose proof Hn as (_ & Hcw & Hs & Hl & Hsub & _). unfold leaf_read, CORD_pos_cur_char_addr. rewrite Hi.
  assert (Hbuf : (cur_end p = 0 \/ (cur_leaf p = Leaf_buf /\ s <= cur_start p <= i /\
     i < cur_end p <= s + clen c /\ forall j, cur_start p <= j < cur_end p ->
     function_buf p !! (j - cur_start p) = chars x !! Z.to_nat j)) ->
    cur_end p <= clen x /\ forall j, 0 <= j -> i + j < cur_end p ->
      match cur_leaf p with Leaf_unset => None | Leaf_string s => get (c_string s) (wrap64 (i - cur_start p) + j)
      | Leaf_buf => function_buf p !! (wrap64 (i - cur_start p) + j) end = chars x !! Z.to_nat (i + j)).
  { intros [E|(-> & ? & ? & Hb)]; [split; [lia|intros; lia]|]. split; [lia|]. intros j Hj Hji.
    rewrite wrap64_small by lia. rewrite <- Hb by lia. f_equal. lia. }
  destruct c as [|t| |len fn|len ka c j]; try done; cbn [cache_ok] in Hca; [|by apply Hbuf..].
  destruct Hca as (-> & -> & ->). cbn [chars] in *. split; [lia|]. intros j Hj Hji.
  rewrite wrap64_small, get_c_string by lia. rewrite <- (sub_lookup_in (chars x) s (zlen t) t (i + j)) by (done || lia).
  f_equal. lia.
Qed.

(** Advancing inside the leaf and by one more. *)
Lemma CORD_pos_advance_ok (x : cord) (i n : Z) (p : CORD_pos) :
  dep x <= CORD_MAX_DEPTH -> clen x < W64 -> pos_at x i p -> 0 < n -> i + n <= cur_end p ->
  exists p', CORD_pos_advance p n = Some p' /\ pos_or_end x (i + n) p'.
Proof.
  intros Hd Hw Hat Hn Hle. pose proof (leaf_run _ _ _ Hw Hat) as [He _]. unfold CORD_pos_advance.
  destruct Hat as (k & c & s & Hk & Hp & Hno & Hc & Hi & His & Hca). rewrite Hi.
  pose proof Hno as (_ & Hcw & Hs & Hl & Hsub & _). rewrite wrap64_small by lia.
  assert (Hce : cur_end p <= s + clen c).
  { destruct c; try done; cbn [cache_ok] in Hca;
      [destruct Hca as (_ & _ & ->); cbn [chars]; lia|destruct Hca as [?|(_ & _ & ? & _)]; lia..]. }
  replace (i + n) with (i + (n - 1) + 1) by lia. apply CORD_next_ok; [done|done|].
  exists k, c, s. pos_cbn. split_and!; try done; try lia.
  destruct c; try done; cbn [cache_ok] in *;
    (destruct Hca as [?|(? & ? & ? & ?)]; [by left|right]); pos_cbn; split_and!; try done; lia.
Qed.

Lemma memcmp_leaf_ok (x y : cord) (i k : Z) (p q : CORD_pos) (n : nat) :
  forall a b, 0 <= i -> 0 <= k -> i + Z.of_nat n <= clen x -> k + Z.of_nat n <= clen y ->
  (forall j, 0 <= j < Z.of_nat n -> leaf_read p (a + j) = chars x !! Z.to_nat (i + j)) ->
  (forall j, 0 <= j < Z.of_nat n -> leaf_read q (b + j) = chars y !! Z.to_nat (k + j)) ->
  exists r, memcmp_leaf p a q b n = Some r /\
            (r = 0 <-> sub i (Z.of_nat n) (chars x) = sub k (Z.of_nat n) (chars y)).
Proof.
  revert i k. induction n as [|n IH]; intros i k a b Hi Hk Hix Hky Hp Hq; cbn [memcmp_leaf].
  { exists 0. by split. }
  destruct (lookup_lt_is_Some_2 (chars x) (Z.to_nat i)) as [c Hc]; [unfold zlen in Hix; lia|].
  destruct (lookup_lt_is_Some_2 (chars y) (Z.to_nat k)) as [d Hd]; [unfold zlen in Hky; lia|].
  pose proof (Hp 0 ltac:(lia)) as Hp0. pose proof (Hq 0 ltac:(lia)) as Hq0.
  rewrite !Z.add_0_r in Hp0, Hq0. rewrite Hp0, Hq0, Hc, Hd. cbn [mbind option_bind].
  rewrite (sub_cons i _ _ c), (sub_cons k _ _ d) by (done || lia).
  replace (Z.of_nat (S n) - 1) with (Z.of_nat n) by lia.
  destruct (Z.eqb_spec c d) as [->|Hcd]; cbn [negb].
  - destruct (IH (i + 1) (k + 1) (a + 1) (b + 1)) as (r & -> & Hr); [lia..| | |].
    + intros j Hj. rewrite <- !Z.add_assoc, !(Z.add_comm 1 j), Z.add_assoc. rewrite <- Z.add_assoc.
      by apply Hp; lia.
    + intros j Hj. rewrite <- !Z.add_assoc, !(Z.add_comm 1 j), Z.add_assoc. rewrite <- Z.add_assoc.
      by apply Hq; lia.
    + exists r. split; [done|]. rewrite Hr. split; [by intros ->|]. by intros [= ->].
  - exists (c - d). split; [done|]. split; [lia|]. by intros [= ?].
Qed.

Lemma schar_inj (c d : Z) : is_byte c -> is_byte d -> schar c = schar d -> c = d.
Proof.
  unfold is_byte, schar. intros Hc Hd E.
  assert (H : forall e, 0 <= e < 256 -> (e + 128) mod 256 = if e <? 128 then e + 128 else e - 128).
  { intros e He. destruct (Z.ltb_spec e 128); [apply Z.mod_small; lia|].
    symmetry. apply (Z.mod_unique_pos _ _ 1); lia. }
  rewrite !H in E by done. destruct (Z.ltb_spec c 128), (Z.ltb_spec d 128); lia.
Qed.

Section Ncmp.
Context (x y : cord) (xs ys len : Z).
Context (Hx : wfn x) (Hy : wfn y).
Context (Hdx : dep x <= CORD_MAX_DEPTH) (Hdy : dep y <= CORD_MAX_DEPTH).
Context (Hlx : clen x < 2 ^ 63) (Hly : clen y < 2 ^ 63).
Context (Hxs : 0 <= xs < 2 ^ 63) (Hys : 0 <= ys < 2 ^ 63) (Hlen : 0 <= len < 2 ^ 63).

(** The two sequences that are compared. *)
Definition X : list Z := drop (Z.to_nat xs) (chars x).
Definition Y : list Z := drop (Z.to_nat ys) (chars y).

(** The cursors stand at [m] characters from the starts, which agree so far. *)
Definition ncmp_inv (s : CORD_pos * CORD_pos * Z) : Prop :=
  let '(xpos, ypos, count) := s in
  let m := Z.min count len in
  0 <= count < W64 /\ pos_or_end x (xs + m) xpos /\ pos_or_end y (ys + m) ypos /\ agree m X Y.

Definition ncmp_post (r : option Z) : Prop := exists v, r = Some v /\ (v = 0 <-> agree len X Y).

Lemma sub_X (m n : Z) : 0 <= m -> 0 <= n -> sub m n X = sub (xs + m) n (chars x).
Proof. intros. unfold sub, X. rewrite drop_drop. do 2 f_equal. lia. Qed.

Lemma sub_Y (m n : Z) : 0 <= m -> 0 <= n -> sub m n Y = sub (ys + m) n (chars y).
Proof. intros. unfold sub, Y. rewrite drop_drop. do 2 f_equal. lia. Qed.

Lemma zlen_drop {A} (n : Z) (l : list A) : 0 <= n -> zlen (drop (Z.to_nat n) l) = Z.max 0 (zlen l - n).
Proof. intros. unfold zlen. rewrite length_drop. lia. Qed.

(** A difference at [m], within the first [len], is one of the sequences. *)
Lemma not_agree (m n : Z) :
  0 <= m -> 0 <= n -> m + n <= len -> agree m X Y -> sub m n X <> sub m n Y -> ~ agree len X Y.
Proof.
  intros ??? Hm Hne Hl. apply Hne. apply agree_step; [done..|]. by eapply agree_le.
Qed.

Lemma ncmp_end_x (m : Z) (ypos : CORD_pos) :
  0 <= m < len -> clen x <= xs + m -> agree m X Y -> pos_or_end y (ys + m) ypos ->
  ncmp_post (Some (if CORD_pos_valid ypos then -1 else 0)).
Proof.
  intros Hm Hxe Ha Hpy. eexists. split; [done|].
  assert (HX : forall k, m <= k -> sub 0 k X = X).
  { intros k Hk. apply sub_all. unfold X. rewrite zlen_drop by lia. lia. }
  unfold pos_or_end in Hpy. destruct (Z.ltb_spec (ys + m) (clen y)).
  - rewrite (pos_at_valid y (ys + m)) by done. split; [done|]. intros Hal. exfalso.
    apply (f_equal zlen) in Hal. rewrite HX in Hal by lia. unfold agree in Ha. rewrite HX in Ha by lia.
    rewrite Ha, zlen_sub in Hal by (try lia; unfold Y; rewrite zlen_drop by lia; lia).
    rewrite sub_Y, Z.add_0_r in Hal by lia.
    assert (m + 1 <= zlen (sub ys len (chars y))); [|lia].
    unfold zlen, sub in *. rewrite length_take, length_drop. lia.
  - rewrite Hpy. split; [|done]. intros _. unfold agree in *. rewrite !HX in * by lia.
    rewrite Ha. rewrite !sub_all; [done|..]; unfold Y; rewrite zlen_drop by lia; lia.
Qed.

Lemma ncmp_end_y (m : Z) (xpos : CORD_pos) :
  0 <= m < len -> xs + m < clen x -> clen y <= ys + m -> agree m X Y ->
  ncmp_post (Some 1).
Proof.
  intros Hm Hxe Hye Ha. eexists. split; [done|]. split; [done|]. intros Hal. exfalso.
  assert (HY : forall k, m <= k -> sub 0 k Y = Y).
  { intros k Hk. apply sub_all. unfold Y. rewrite zlen_drop by lia. lia. }
  unfold agree in *. rewrite HY in * by lia. rewrite <- Ha in Hal.
  apply (f_equal zlen) in Hal. rewrite (zlen_sub 0 m) in Hal by (try lia; unfold X; rewrite zlen_drop by lia; lia).
  rewrite sub_X, Z.add_0_r in Hal by lia.
  assert (m + 1 <= zlen (sub xs len (chars x))); [|lia].
  unfold zlen, sub in *. rewrite length_take, length_drop. lia.
Qed.

(** One character at a time. *)
Lemma ncmp_slow (m : Z) (xpos ypos : CORD_pos) :
  0 <= m < len -> pos_at x (xs + m) xpos -> pos_at y (ys + m) ypos ->
  xs + m < clen x -> ys + m < clen y -> agree m X Y ->
  match
    (match CORD_pos_fetch xpos, CORD_pos_fetch ypos with
      | Some cur_x, Some cur_y =>
        if negb (schar cur_x =? schar cur_y) then inr (Some (schar cur_x - schar cur_y))
        else
          match CORD_next xpos, CORD_next ypos with
          | Some xpos, Some ypos => inl (xpos, ypos, wrap64 (m + 1))
          | _, _ => inr None
          end
      | _, _ => inr None
      end)
  with
  | inl s => ncmp_inv s /\ s.2 = m + 1
  | inr r => ncmp_post r
  end.
Proof.
  intros Hm Hpx Hpy Hxe Hye Ha. assert (H63 : 2 ^ 63 < W64) by done.
  rewrite (CORD_pos_fetch_ok x (xs + m)), (CORD_pos_fetch_ok y (ys + m)) by (done || lia).
  destruct (lookup_lt_is_Some_2 (chars x) (Z.to_nat (xs + m))) as [c Hc]; [unfold zlen in *; lia|].
  destruct (lookup_lt_is_Some_2 (chars y) (Z.to_nat (ys + m))) as [d Hd]; [unfold zlen in *; lia|].
  rewrite Hc, Hd.
  assert (Hcb : is_byte c) by (eapply (Forall_lookup_1 _ _ _ _ (chars_bytes x Hx)); done).
  assert (Hdb : is_byte d) by (eapply (Forall_lookup_1 _ _ _ _ (chars_bytes y Hy)); done).
  assert (EX : sub m 1 X = [c]) by (rewrite sub_X, (sub_cons _ _ _ c) by (done || lia); done).
  assert (EY : sub m 1 Y = [d]) by (rewrite sub_Y, (sub_cons _ _ _ d) by (done || lia); done).
  destruct (Z.eqb_spec (schar c) (schar d)) as [E|E]; cbn [negb].
  - apply schar_inj in E as ->; [|done..].
    destruct (CORD_next_ok x Hdx ltac:(lia) _ _ Hpx) as (px & -> & Hpx').
    destruct (CORD_next_ok y Hdy ltac:(lia) _ _ Hpy) as (py & -> & Hpy').
    rewrite wrap64_small by lia. split; [|done]. unfold ncmp_inv.
    replace (Z.min (m + 1) len) with (m + 1) by lia. rewrite !Z.add_assoc.
    split_and!; [lia|lia|done|done|]. apply agree_step; [lia|lia|done|]. by rewrite EX, EY.
  - eexists. split; [done|]. split; [lia|]. intros Hal. exfalso.
    apply (not_agree m 1); try lia; try done. rewrite EX, EY. intros [= ->]. done.
Qed.

(** As many characters as both leaves hold. *)
Lemma ncmp_fast (m n : Z) (xpos ypos : CORD_pos) :
  0 <= m < len -> pos_at x (xs + m) xpos -> pos_at y (ys + m) ypos -> agree m X Y ->
  0 < n -> m + n <= len -> xs + m + n <= cur_end xpos -> ys + m + n <= cur_end ypos ->
  exists r, memcmp_leaf xpos (CORD_pos_cur_char_addr xpos) ypos (CORD_pos_cur_char_addr ypos) (Z.to_nat n) = Some r /\
    (r <> 0 -> ncmp_post (Some r)) /\
    (r = 0 -> exists px py, CORD_pos_advance xpos n = Some px /\ CORD_pos_advance ypos n = Some py /\
       pos_or_end x (xs + (m + n)) px /\ pos_or_end y (ys + (m + n)) py /\ agree (m + n) X Y).
Proof.
  intros Hm Hpx Hpy Ha Hn Hmn Hnx Hny. assert (H63 : 2 ^ 63 < W64) by done.
  destruct (leaf_run x _ _ ltac:(lia) Hpx) as [Hex Hrx]. destruct (leaf_run y _ _ ltac:(lia) Hpy) as [Hey Hry].
  destruct (memcmp_leaf_ok x y (xs + m) (ys + m) xpos ypos (Z.to_nat n)
    (CORD_pos_cur_char_addr xpos) (CORD_pos_cur_char_addr ypos)) as (r & E & Hr); [lia..| | |].
  { intros j Hj. apply Hrx; lia. } { intros j Hj. apply Hry; lia. }
  rewrite Z2Nat.id in Hr by lia. rewrite <- sub_X, <- sub_Y in Hr by lia.
  exists r. split; [done|]. split.
  - intros Hr0. eexists. split; [done|]. split; [done|]. intros Hal. exfalso.
    apply (not_agree m n); try lia; try done. intros Es. by apply Hr0, Hr.
  - intros Hr0. destruct (CORD_pos_advance_ok x (xs + m) n xpos) as (px & Ex & Hpx'); [done|lia|done..|].
    destruct (CORD_pos_advance_ok y (ys + m) n ypos) as (py & Ey & Hpy'); [done|lia|done..|].
    exists px, py. rewrite !Z.add_assoc. split_and!; [done..|]. apply agree_step; [lia|lia|done|].
    by apply Hr.
Qed.
Lemma signed64_small (z : Z) : z < 2 ^ 63 -> signed64 z = z.
Proof. intros. unfold signed64. by destruct (Z.ltb_spec z (2 ^ 63)); [|lia]. Qed.

Lemma chars_left_ok (z : cord) (i : Z) (p : CORD_pos) :
  clen z < 2 ^ 63 -> pos_at z i p -> 0 <= i < clen z -> CORD_pos_chars_left p = cur_end p - i.
Proof.
  intros Hz Hat Hi. assert (H63 : 2 ^ 63 < W64) by done.
  destruct (leaf_run z i p) as [He _]; [lia|done|].
  unfold CORD_pos_chars_left. destruct Hat as (? & ? & ? & _ & _ & _ & _ & -> & _).
  by rewrite !signed64_small by lia.
Qed.

Lemma ncmp_body_ok (s : CORD_pos * CORD_pos * Z) :
  ncmp_inv s ->
  match ncmp_body len s with
  | inl s' => ncmp_inv s' /\ 0 <= Z.max 0 (len - s'.2) < Z.max 0 (len - s.2)
  | inr r => ncmp_post r
  end.
Proof.
  destruct s as [[xpos ypos] m]. intros (Hm & Hpx & Hpy & Ha). unfold ncmp_body. cbn [fst snd].
  assert (H63 : 2 ^ 63 + 2 ^ 63 = W64) by done.
  destruct (Z.ltb_spec m len) as [Hml|Hml]; cbn [negb].
  2:{ exists 0. split; [done|]. rewrite Z.min_r in Ha by lia. by split. }
  rewrite Z.min_l in * by lia. unfold pos_or_end in Hpx. destruct (Z.ltb_spec (xs + m) (clen x)).
  2:{ rewrite Hpx. cbn [negb]. apply (ncmp_end_x m); [lia|lia|done|done]. }
  rewrite (pos_at_valid x (xs + m)) by done. cbn [negb].
  unfold pos_or_end in Hpy. destruct (Z.ltb_spec (ys + m) (clen y)).
  2:{ rewrite Hpy. cbn [negb]. apply (ncmp_end_y m xpos); [lia|lia|lia|done]. }
  rewrite (pos_at_valid y (ys + m)) by done. cbn [negb].
  rewrite (chars_left_ok x (xs + m)), (chars_left_ok y (ys + m)) by (done || lia).
  destruct (leaf_run x _ _ ltac:(lia) Hpx) as [Hex _]. destruct (leaf_run y _ _ ltac:(lia) Hpy) as [Hey _].
  destruct (orb _ _) eqn:Eor.
  { pose proof (ncmp_slow m xpos ypos ltac:(lia) Hpx Hpy ltac:(lia) ltac:(lia) Ha) as Hs.
    destruct (match CORD_pos_fetch xpos with Some _ => _ | None => _ end) as [s'|r]; [|done].
    destruct Hs as [Hs ->]. split; [done|]. lia. }
  apply orb_false_iff in Eor as [E1%Z.leb_gt E2%Z.leb_gt]. cbn zeta.
  set (avail := if cur_end ypos - (ys + m) <? cur_end xpos - (xs + m)
                then cur_end ypos - (ys + m) else cur_end xpos - (xs + m)).
  assert (Hav : 0 < avail <= Z.min (cur_end xpos - (xs + m)) (cur_end ypos - (ys + m))).
  { subst avail. destruct (Z.ltb_spec (cur_end ypos - (ys + m)) (cur_end xpos - (xs + m))); lia. }
  rewrite (wrap64_small (m + avail)) by lia.
  set (n := if len <? m + avail then avail - (m + avail - len) else avail).
  assert (Hn : 0 < n /\ n <= avail /\ m + n = Z.min (m + avail) len).
  { subst n. destruct (Z.ltb_spec len (m + avail)); lia. }
  destruct (ncmp_fast m n xpos ypos) as (r & -> & Hr1 & Hr0); [lia|done|done|done|lia|lia|lia|lia|].
  destruct (Z.eqb_spec r 0) as [->|Hr]; cbn [negb]; [|by apply Hr1].
  destruct (Hr0 eq_refl) as (px & py & -> & -> & Hpx' & Hpy' & Ha').
  destruct Hn as (? & ? & Hn). rewrite Hn in *. split; [|cbn [snd]; lia].
  split_and!; try done; lia.
Qed.

Lemma ncmp_loop_ok (xpos ypos : CORD_pos) :
  pos_or_end x xs xpos -> pos_or_end y ys ypos ->
  exists r, loop (ncmp_body len) (xpos, ypos, 0) = Some r /\ ncmp_post r.
Proof.
  intros Hpx Hpy. apply (loop_spec ncmp_inv _ (fun s => Z.max 0 (len - s.2))).
  - intros s Hs. by apply ncmp_body_ok.
  - unfold ncmp_inv. rewrite Z.min_l, !Z.add_0_r by lia. by split_and!.
  - cbn [snd]. assert (2 ^ 63 < W64) by done. lia.
Qed.
End Ncmp.

(** ** [CORD_ncmp] *)

Lemma agree_nil_cons (n d : Z) (t : list Z) : 0 < n -> ~ agree n [] (d :: t).
Proof.
  intros Hn E. apply (f_equal length) in E. unfold sub in E. rewrite !length_take, !length_drop in E.
  cbn [length] in E. lia.
Qed.

(** [strncmp] on two C strings decides whether they agree on [n] characters. *)
Lemma strncmp_ok (s t : list Z) (n : Z) :
  Forall is_char s -> Forall is_char t -> 0 <= n ->
  exists v, strncmp (c_string s) (c_string t) n = Some v /\ (v = 0 <-> agree n s t).
Proof.
  intros Hs. revert t n. induction Hs as [|c s Hc _ IH]; intros t n Ht Hn.
  - cbn [c_string app strncmp]. destruct (Z.eqb_spec n 0) as [->|]; [by exists 0|].
    destruct t as [|d t]; cbn [c_string app]; [exists 0; split; [done|]; by split|].
    apply Forall_cons in Ht as [Hd _]. unfold is_char in Hd. destruct (Z.eqb_spec 0 d); [lia|]. cbn [negb].
    eexists. split; [done|]. split; [lia|]. by intros ?%agree_nil_cons; [|lia].
  - cbn [c_string app strncmp]. destruct (Z.eqb_spec n 0) as [->|]; [by exists 0|].
    unfold is_char in Hc. destruct t as [|d t]; cbn [c_string app].
    + destruct (Z.eqb_spec c 0); [lia|]. cbn [negb]. eexists. split; [done|]. split; [lia|].
      intros E. symmetry in E. apply agree_nil_cons in E; [done|lia].
    + apply Forall_cons in Ht as [Hd Ht].
      assert (Es : agree n (c :: s) (d :: t) <-> c = d /\ agree (n - 1) s t).
      { unfold agree, sub. cbn [Z.to_nat drop]. destruct (Z.to_nat n) as [|m] eqn:E; [lia|].
        replace (Z.to_nat (n - 1)) with m by lia. cbn [take].
        split; [intros [= -> E']; split; [done|exact E']|]. intros [-> E']. exact (f_equal (cons d) E'). }
      setoid_rewrite Es. destruct (Z.eqb_spec c d) as [->|Hne]; cbn [negb].
      * destruct (Z.eqb_spec d 0); [lia|]. destruct (IH t (n - 1) Ht ltac:(lia)) as (v & E & Hv).
        exists v. split; [done|]. rewrite Hv. tauto.
      * eexists. split; [done|]. split; [lia|]. tauto.
Qed.

Lemma drop_c_string_le (s : list Z) (i : Z) :
  0 <= i <= zlen s -> drop (Z.to_nat i) (c_string s) = c_string (drop (Z.to_nat i) s).
Proof. intros Hi. unfold c_string. rewrite drop_app_le; [done|]. unfold zlen in Hi. lia. Qed.

Lemma CORD_ncmp_ok (x y : cord) (xs ys len : Z) :
  wfn x -> wfn y -> dep x <= CORD_MAX_DEPTH -> dep y <= CORD_MAX_DEPTH ->
  clen x < 2 ^ 63 -> clen y < 2 ^ 63 -> 0 <= xs <= clen x -> 0 <= ys <= clen y -> 0 <= len < 2 ^ 63 ->
  exists v, CORD_ncmp x xs y ys len = Some v /\
    (v = 0 <-> agree len (drop (Z.to_nat xs) (chars x)) (drop (Z.to_nat ys) (chars y))).
Proof.
  intros Hx Hy Hdx Hdy Hlx Hly Hxs Hys Hlen. unfold CORD_ncmp.
  destruct (Z.eqb_spec len 0) as [->|Hl0]; [by exists 0|].
  set (cmp := x_str ← _; _).
  assert (Hcmp : exists v, cmp = Some v /\
    (v = 0 <-> agree len (drop (Z.to_nat xs) (chars x)) (drop (Z.to_nat ys) (chars y)))).
  { subst cmp. rewrite !CORD_IS_STRING_ok, some_bind by done.
    destruct (CORD_set_pos_ok x xs pos_uninit) as (px & Ex & Hpx); [by right|done|lia|].
    destruct (CORD_set_pos_ok y ys pos_uninit) as (py & Ey & Hpy); [by right|done|lia|].
    destruct (ncmp_loop_ok x y xs ys len Hx Hy Hdx Hdy Hlx Hly ltac:(lia) ltac:(lia) Hlen px py Hpx Hpy)
      as (r & El & v & -> & Hv).
    assert (Hpos : (xpos ← CORD_set_pos pos_uninit x xs; ypos ← CORD_set_pos pos_uninit y ys;
      r ← loop (ncmp_body len) (xpos, ypos, 0); r) = Some v).
    { by rewrite Ex, some_bind, Ey, some_bind, El, some_bind. }
    destruct x as [|s| | |]; try done; cbn [is_str]; rewrite some_bind; try by exists v.
    destruct y as [|t| | |]; try done; cbn [is_str]; try by exists v.
    cbn [chars] in *. destruct Hx as (_ & Hs & _). destruct Hy as (_ & Ht & _).
    rewrite !drop_c_string_le by lia. apply strncmp_ok; [by apply Forall_drop..|lia]. }
  destruct (Z.lor xs ys =? 0); [|done]. by destruct x, y.
Qed.

(** ** Results *)

(** Turning a C string into a cord and back gives the string with its
    terminator; [CORD_to_char_star] of any cord writes exactly its characters, NUL
    characters included, and stays within the [len + 1] bytes it allocated. *)
Theorem CORD_char_star_roundtrip (s : list Z) (x : cord) :
  Forall is_char s -> zlen s + 1 < W64 -> wf x -> clen x + 1 < W64 ->
  (exists y, CORD_from_char_star (c_string s) = Some y /\ CORD_to_char_star y = Some (Some <$> c_string s)) /\
  CORD_to_char_star x = Some (Some <$> (chars x ++ [0])).
Proof.
  intros Hs Hl Hx Hxl. split; [|by apply CORD_to_char_star_ok].
  destruct (CORD_from_char_star_ok s) as (y & E & [Hy _] & Hc); [done|lia|].
  exists y. split; [done|]. rewrite CORD_to_char_star_ok by (done || by rewrite Hc). by rewrite Hc.
Qed.

Lemma CORD_char_star_roundtrip_witness :
  (exists y, CORD_from_char_star (c_string [104; 105]) = Some y /\
             CORD_to_char_star y = Some (Some <$> c_string [104; 105])) /\
  CORD_to_char_star sample_cord = Some (Some <$> (chars sample_cord ++ [0])).
Proof.
  apply (CORD_char_star_roundtrip [104; 105] sample_cord);
    [cord_wf|vm_compute; reflexivity|apply sample_cord_ok|vm_compute; reflexivity].
Defined.

(** [CORD_chr] for a character other than NUL returns the position of its first
    occurrence at [i] or later, or [CORD_NOT_FOUND] when there is none, whether the
    leaves are scanned by character or in batches. *)
Theorem CORD_chr_correct (x : cord) (i c : Z) :
  wfn x -> 0 <= i < clen x -> c mod 256 <> 0 ->
  exists r, CORD_chr x i c = Some r /\
    (r = CORD_NOT_FOUND /\ c mod 256 ∉ drop (Z.to_nat i) (chars x) \/
     exists k, r = i + Z.of_nat k /\ first_at (c mod 256) (drop (Z.to_nat i) (chars x)) k).
Proof. apply CORD_chr_ok. Qed.

Lemma CORD_chr_correct_witness :
  exists r, CORD_chr sample_cord 1 100 = Some r /\
    (r = CORD_NOT_FOUND /\ 100 mod 256 ∉ drop (Z.to_nat 1) (chars sample_cord) \/
     exists k, r = 1 + Z.of_nat k /\ first_at (100 mod 256) (drop (Z.to_nat 1) (chars sample_cord)) k).
Proof.
  apply (CORD_chr_correct sample_cord 1 100);
    [apply sample_cord_wfn|vm_compute; split; [discriminate|reflexivity]|vm_compute; discriminate].
Defined.

(** Searching for the NUL character goes wrong on a string leaf: the batched
    function takes the terminator of the leaf for a character of the cord, so the
    search in a cord whose only NUL is at index 8 answers 3, the length of its
    first leaf, where the character is not NUL. *)
Theorem CORD_chr_nul_wrong :
  CORD_chr sample_cord 0 0 = Some 3 /\ chars sample_cord !! 3%nat = Some 100 /\
  first_at 0 (chars sample_cord) 8.
Proof.
  split_and!; [by vm_compute..|]. split; [by vm_compute|].
  intros j Hj. do 8 (destruct j as [|j]; [vm_compute; discriminate|]). lia.
Qed.

(** [CORD_ncmp] returns 0 exactly when the two sequences agree on the first
    [len] characters from the given starts, for cords of every representation; it
    never reads outside a leaf or a function buffer. *)
Theorem CORD_ncmp_correct (x y : cord) (xs ys len : Z) :
  wfn x -> wfn y -> dep x <= CORD_MAX_DEPTH -> dep y <= CORD_MAX_DEPTH ->
  clen x < 2 ^ 63 -> clen y < 2 ^ 63 -> 0 <= xs <= clen x -> 0 <= ys <= clen y -> 0 <= len < 2 ^ 63 ->
  exists v, CORD_ncmp x xs y ys len = Some v /\
    (v = 0 <-> sub xs len (chars x) = sub ys len (chars y)).
Proof. intros. by apply CORD_ncmp_ok. Qed.

Lemma CORD_ncmp_correct_witness :
  exists v, CORD_ncmp sample_cord 1 (Str [98; 99; 100]) 0 3 = Some v /\
    (v = 0 <-> sub 1 3 (chars sample_cord) = sub 0 3 (chars (Str [98; 99; 100]))).
Proof.
  apply (CORD_ncmp_correct sample_cord (Str [98; 99; 100]) 1 0 3);
    first [apply sample_cord_wfn | cord_wf | vm_compute; split; congruence
          | vm_compute; first [reflexivity|discriminate]].
Defined.

(** The order [CORD_cmp] gives depends on the representation: strings are
    compared as unsigned bytes, but characters fetched one by one as signed [char],
    so a cord of bytes 200 is greater than a cord of bytes 97 when both are strings
    and less when both are function nodes. *)
Theorem CORD_cmp_sign_differs :
  CORD_cmp (Str (replicate 40 200)) (Str (replicate 40 97)) = Some 103 /\
  CORD_cmp (Fn 40 (fun _ => 200)) (Fn 40 (fun _ => 97)) = Some (-153) /\
  chars (Fn 40 (fun _ => 200)) = replicate 40 200 /\ chars (Fn 40 (fun _ => 97)) = replicate 40 97.
Proof. split_and!; vm_compute; reflexivity. Qed.

End CordXtraOk.
