(* ===== verification/CordStr.v ===== *)
(** * CordStr: the substring search of [cordxtra.c]

    [CORD_str] slides a window of up to eight characters, packed in a word, over
    the cord and compares the rest only when the window matches.  It finds the
    first occurrence. *)

From Stdlib Require Import ZArith Lia.
From stdpp Require Import base gmap list.
From S2P Require Import Prelude Cord CordSem CordCat CordBalance CordOps CordPos CordXtra CordXtraOk.

Module CordStr.
Import Cord CordSem CordCat CordBalance CordOps CordPos CordXtra CordXtraOk.


(** ** Packed characters *)

(** The bytes of [l] packed in a word, the first one highest. *)
Definition pack (l : list Z) : Z := foldl (fun a c => a * 256 + c) 0 l.

Lemma pack_snoc (l : list Z) (c : Z) : pack (l ++ [c]) = pack l * 256 + c.
Proof. unfold pack. by rewrite foldl_app. Qed.

Lemma pack_cons (c : Z) (l : list Z) : pack (c :: l) = c * 256 ^ zlen l + pack l.
Proof.
  induction l as [|d l IH] using rev_ind; [unfold pack, zlen; cbn [foldl length Z.of_nat]; lia|].
  rewrite app_comm_cons, !pack_snoc, IH, zlen_app. change (zlen [d]) with 1.
  rewrite Z.pow_add_r by (pose proof (zlen_nonneg l); lia). lia.
Qed.

Lemma pack_bound (l : list Z) : Forall is_byte l -> 0 <= pack l < 256 ^ zlen l.
Proof.
  induction 1 as [|c l Hc _ IH]; [unfold pack, zlen; cbn [foldl length Z.of_nat]; lia|]. rewrite pack_cons, zlen_cons.
  pose proof (zlen_nonneg l). rewrite Z.pow_add_r by lia. unfold is_byte in Hc. nia.
Qed.

Lemma pack_inj (l k : list Z) :
  Forall is_byte l -> Forall is_byte k -> length l = length k -> pack l = pack k -> l = k.
Proof.
  intros Hl. revert k. induction Hl as [|c l Hc Hl IH]; intros [|d k] Hk Hlen E; try done.
  injection Hlen as Hlen. apply Forall_cons in Hk as [Hd Hk]. rewrite !pack_cons in E.
  pose proof (pack_bound l Hl). pose proof (pack_bound k Hk).
  assert (zlen l = zlen k) as El by (unfold zlen; by rewrite Hlen). rewrite El in *.
  destruct (Z.div_mod_unique (256 ^ zlen k) c d (pack l) (pack k)) as [-> Ep]; [lia..|].
  f_equal. by apply IH.
Qed.

Lemma shift_in_eq (buf c : Z) : is_byte c -> shift_in buf c = (buf * 256) mod W64 + c.
Proof.
  intros Hc. unfold shift_in, wrap64. rewrite Z.shiftl_mul_pow2 by lia. change (2 ^ 8) with 256.
  symmetry. apply Z.add_nocarry_lor.
  assert (E : (buf * 256) mod W64 = Z.shiftl (buf mod 2 ^ 56) 8).
  { rewrite Z.shiftl_mul_pow2 by lia. change W64 with (2 ^ 56 * 256). change (2 ^ 8) with 256.
    by rewrite Z.mul_mod_distr_r by lia. }
  rewrite E. apply Z.bits_inj'. intros n Hn. rewrite Z.land_spec, Z.bits_0.
  destruct (decide (n < 8)).
  - by rewrite Z.shiftl_spec_low.
  - assert (Z.testbit c n = false) as ->; [|by rewrite andb_false_r].
    apply Z.bits_above_log2; [unfold is_byte in Hc; lia|]. unfold is_byte in Hc.
    destruct (decide (c = 0)) as [->|]; [cbn; lia|].
    assert (Z.log2 c < 8) by (apply Z.log2_lt_pow2; lia). lia.
Qed.

(** Shifting a character in moves the window of [n <= 8] characters. *)
Lemma shift_in_window (buf c d : Z) (l : list Z) :
  is_byte c -> zlen (d :: l) <= 8 -> buf mod 256 ^ zlen (d :: l) = pack (d :: l) ->
  Forall is_byte (d :: l) ->
  shift_in buf c mod 256 ^ zlen (d :: l) = pack (l ++ [c]).
Proof.
  intros Hc Hn Hb Hl. rewrite shift_in_eq by done. set (N := 256 ^ zlen (d :: l)) in *.
  pose proof (zlen_nonneg l). rewrite zlen_cons in Hn.
  assert (HN : 0 < N) by (subst N; rewrite zlen_cons; lia).
  assert (HW : W64 = N * 256 ^ (8 - zlen (d :: l))).
  { subst N. rewrite <- Z.pow_add_r by (rewrite zlen_cons; lia).
    replace (zlen (d :: l) + (8 - zlen (d :: l))) with 8 by lia. done. }
  assert (E1 : ((buf * 256) mod W64 + c) mod N = ((buf mod N) * 256 + c) mod N).
  { rewrite <- Zplus_mod_idemp_l. rewrite HW, Z.rem_mul_r by (try lia; rewrite zlen_cons; lia).
    rewrite (Z.mul_comm N ((buf * 256 / N) mod _)), Z_mod_plus_full, Zmod_mod, Zplus_mod_idemp_l.
    rewrite <- (Zplus_mod_idemp_l ((buf mod N) * 256)), Zmult_mod_idemp_l, Zplus_mod_idemp_l. done. }
  rewrite E1, Hb, pack_cons, pack_snoc.
  replace ((d * 256 ^ zlen l + pack l) * 256 + c) with (pack (l ++ [c]) + d * N).
  - rewrite Z_mod_plus_full, Z.mod_small, pack_snoc; [done|].
    pose proof (pack_bound (l ++ [c])) as Hp. rewrite zlen_app in Hp. change (zlen [c]) with 1 in Hp.
    subst N. rewrite zlen_cons, Z.add_comm. apply Hp. apply Forall_app. split; [|by constructor].
    by apply Forall_cons in Hl as [_ ?].
  - rewrite pack_snoc. subst N. rewrite zlen_cons, Z.pow_add_r by lia. lia.
Qed.

Lemma shift_in_small (l : list Z) (c : Z) :
  is_byte c -> Forall is_byte l -> zlen l < 8 -> shift_in (pack l) c = pack (l ++ [c]).
Proof.
  intros Hc Hl Hn. rewrite shift_in_eq, pack_snoc by done. pose proof (pack_bound l Hl).
  pose proof (zlen_nonneg l). rewrite Z.mod_small; [done|].
  assert (256 ^ zlen l <= 256 ^ 7) by (apply Z.pow_le_mono_r; lia).
  change W64 with (256 ^ 7 * 256). lia.
Qed.

(** The mask after [n] rounds. *)
Lemma shift_in_mask (n : Z) : 0 <= n < 8 -> shift_in (256 ^ n - 1) 255 = 256 ^ (n + 1) - 1.
Proof.
  intros Hn. rewrite shift_in_eq by (unfold is_byte; lia). rewrite Z.pow_add_r by lia.
  assert (256 ^ n <= 256 ^ 7) by (apply Z.pow_le_mono_r; lia).
  assert (0 < 256 ^ n) by lia. rewrite Z.mod_small; [lia|]. change W64 with (256 ^ 7 * 256). lia.
Qed.

Lemma land_mask (w n : Z) : 0 <= n -> Z.land w (256 ^ n - 1) = w mod 256 ^ n.
Proof.
  intros. change 256 with (2 ^ 8). rewrite <- Z.pow_mul_r by lia. apply land_low_mask. lia.
Qed.

(** ** The first characters *)

Lemma sub_snoc {A} (i n : Z) (l : list A) (c : A) :
  0 <= i -> 0 <= n -> l !! Z.to_nat (i + n) = Some c -> sub i (n + 1) l = sub i n l ++ [c].
Proof.
  intros Hi Hn Hc. unfold sub. replace (Z.to_nat (n + 1)) with (S (Z.to_nat n)) by lia.
  rewrite (take_S_r _ _ c); [done|]. rewrite lookup_drop, <- Hc. f_equal. lia.
Qed.

Section Search.
Context (x s : cord) (start : Z).
Context (Hx : cord_ok x) (Hs : cord_ok s) (Hxl : clen x < CORD_LIMIT) (Hsl : clen s < CORD_LIMIT).
Context (Hsn : s <> CORD_EMPTY) (Hstart : 0 <= start) (Hfit : start + clen s <= clen x).

Definition start_len : Z := if STR_START_MAX_LEN <? clen s then STR_START_MAX_LEN else clen s.

Lemma swf : wfn s.
Proof. by destruct Hs as [[?|?] _]. Qed.

Lemma xwf : wfn x.
Proof.
  destruct Hx as [[Ex|?] _]; [|done]. exfalso. pose proof (wfn_clen _ swf). rewrite Ex in Hfit.
  change (clen CORD_EMPTY) with 0 in Hfit. lia.
Qed.

Lemma start_len_bounds : 0 < start_len <= 8 /\ start_len <= clen s.
Proof.
  pose proof (wfn_clen _ swf). unfold start_len, STR_START_MAX_LEN. bcase; lia.
Qed.

Lemma limits : clen x < 2 ^ 63 /\ clen x < W64 /\ clen s < 2 ^ 63 /\ dep x <= CORD_MAX_DEPTH /\ dep s <= CORD_MAX_DEPTH.
Proof.
  assert (CORD_LIMIT < 2 ^ 63) by done. assert (CORD_LIMIT < W64) by done.
  destruct Hx, Hs. split_and!; lia.
Qed.

Lemma xbytes i n : Forall is_byte (sub i n (chars x)).
Proof. apply Forall_sub, chars_bytes, xwf. Qed.

Lemma sbytes i n : Forall is_byte (sub i n (chars s)).
Proof. apply Forall_sub, chars_bytes, swf. Qed.

(** The buffer with the first characters of [s]. *)
Definition first_chars (b : buffer) : Prop :=
  forall i, (i < Z.to_nat start_len)%nat -> b !! i = Some <$> (chars s !! i).

(** The start loop, from its [i]-th round. *)
Lemma str_start_ok (b : buffer) (n i : nat) (xpos : CORD_pos) :
  first_chars b -> Z.of_nat i + Z.of_nat n = start_len -> pos_or_end x (start + Z.of_nat i) xpos ->
  exists xpos',
    str_start b i n xpos (pack (sub 0 (Z.of_nat i) (chars s))) (pack (sub start (Z.of_nat i) (chars x)))
      (256 ^ Z.of_nat i - 1)
    = Some (xpos', pack (sub 0 start_len (chars s)), pack (sub start start_len (chars x)), 256 ^ start_len - 1) /\
    pos_or_end x (start + start_len) xpos'.
Proof.
  intros Hb. destruct start_len_bounds as [Hsb Hss]. destruct limits as (_ & Hxw & _ & Hdx & _).
  revert i xpos. induction n as [|n IH]; intros i xpos Hin Hp; cbn [str_start].
  { exists xpos. replace start_len with (Z.of_nat i) by lia. done. }
  assert (Hil : Z.of_nat i < start_len) by lia.
  destruct (lookup_lt_is_Some_2 (chars s) i) as [sc Hsc]; [unfold zlen in *; lia|].
  destruct (lookup_lt_is_Some_2 (chars x) (Z.to_nat (start + Z.of_nat i))) as [xc Hxc]; [unfold zlen in *; lia|].
  rewrite Hb, Hsc by lia. cbn [fmap option_fmap option_map mbind option_bind].
  unfold pos_or_end in Hp. destruct (Z.ltb_spec (start + Z.of_nat i) (clen x)); [|lia].
  rewrite (CORD_pos_fetch_ok x _ _ Hdx Hxw Hp), Hxc. cbn [mbind option_bind].
  destruct (CORD_next_ok x Hdx Hxw _ _ Hp) as (p' & -> & Hp'). cbn [mbind option_bind].
  assert (Hscb : is_byte sc) by (eapply (Forall_lookup_1 _ _ _ _ (chars_bytes s swf)); done).
  assert (Hxcb : is_byte xc) by (eapply (Forall_lookup_1 _ _ _ _ (chars_bytes x xwf)); done).
  rewrite (shift_in_small _ sc), (shift_in_small _ xc), shift_in_mask
    by (done || apply sbytes || apply xbytes || (rewrite zlen_sub; lia) || lia).
  rewrite <- (sub_snoc 0 _ (chars s) sc) by (lia || (rewrite Z.add_0_l, Nat2Z.id; done)).
  rewrite <- (sub_snoc start _ (chars x) xc) by (lia || done).
  replace (Z.of_nat i + 1) with (Z.of_nat (S i)) in * by lia.
  apply IH; [lia|]. by rewrite <- Z.add_assoc, <- Nat2Z.inj_succ in Hp' || (replace (start + Z.of_nat (S i)) with (start + Z.of_nat i + 1) by lia; done).
Qed.

(** ** The search loop *)

Definition occurs (m : Z) : Prop := sub m (clen s) (chars x) = chars s.

Definition str_inv (st : CORD_pos * Z * Z) : Prop :=
  let '(xpos, x_buf, m) := st in
  start <= m /\ m + clen s <= clen x /\ pos_or_end x (m + start_len) xpos /\
  x_buf mod 256 ^ start_len = pack (sub m start_len (chars x)) /\
  (forall k, start <= k < m -> ~ occurs k).

(** The result: the first occurrence, or none. *)
Definition str_post (r : option Z) : Prop :=
  exists v, r = Some v /\
    (v = CORD_NOT_FOUND /\ (forall k, start <= k -> k + clen s <= clen x -> ~ occurs k) \/
     start <= v /\ v + clen s <= clen x /\ occurs v /\ forall k, start <= k < v -> ~ occurs k).

(** Window and rest match exactly when [s] occurs. *)
Lemma str_match (x_buf m : Z) :
  0 <= m -> m + clen s <= clen x -> x_buf mod 256 ^ start_len = pack (sub m start_len (chars x)) ->
  exists b : bool,
    (if Z.land x_buf (256 ^ start_len - 1) =? pack (sub 0 start_len (chars s)) then
       if clen s =? start_len then Some true
       else r ← CORD_ncmp x (wrap64 (m + start_len)) s start_len (clen s - start_len); Some (r =? 0)
     else Some false) = Some b /\ (b = true <-> occurs m).
Proof.
  intros Hm Hfm Hb. destruct start_len_bounds as [Hsb Hss].
  destruct limits as (Hx63 & Hxw & Hs63 & Hdx & Hds). rewrite land_mask, Hb by lia.
  assert (Eo : occurs m <-> sub m start_len (chars x) = sub 0 start_len (chars s) /\
    sub (m + start_len) (clen s - start_len) (chars x) = sub start_len (clen s - start_len) (chars s)).
  { unfold occurs. rewrite <- (sub_all (chars s) (clen s)) at 2 by lia.
    replace (clen s) with (start_len + (clen s - start_len)) at 1 2 by lia. rewrite sub_split by lia.
    assert (Em : sub m (start_len + (clen s - start_len)) (chars x)
      = sub m start_len (chars x) ++ sub (m + start_len) (clen s - start_len) (chars x)).
    { pose proof (sub_split start_len (clen s - start_len) (drop (Z.to_nat m) (chars x))) as E.
      unfold sub in *. cbn [Z.to_nat] in E. rewrite !drop_0, drop_drop in E by lia.
      rewrite E by lia. do 3 f_equal. lia. }
    rewrite Em. split; [|by intros [-> ->]]. apply app_inj_1.
    pose proof (zlen_sub m start_len (chars x)). pose proof (zlen_sub 0 start_len (chars s)).
    unfold zlen in *. lia. }
  destruct (Z.eqb_spec (pack (sub m start_len (chars x))) (pack (sub 0 start_len (chars s)))) as [Ep|Ep].
  2:{ exists false. split; [done|]. split; [done|]. rewrite Eo. intros [E _]. by rewrite E in Ep. }
  apply pack_inj in Ep; [|apply xbytes|apply sbytes|].
  2:{ pose proof (zlen_sub m start_len (chars x)). pose proof (zlen_sub 0 start_len (chars s)).
      unfold zlen in *. lia. }
  destruct (Z.eqb_spec (clen s) start_len) as [El|El].
  - exists true. split; [done|]. split; [|done]. intros _. apply Eo. split; [done|].
    rewrite El, Z.sub_diag. done.
  - rewrite wrap64_small by lia.
    destruct (CORD_ncmp_ok x s (m + start_len) start_len (clen s - start_len)) as (v & E & Hv);
      [apply xwf|apply swf|done|done|done|done|lia|lia|lia|].
    rewrite E. cbn [mbind option_bind]. eexists. split; [done|]. rewrite Z.eqb_eq, Hv, Eo.
    unfold agree, sub. cbn [Z.to_nat]. rewrite !drop_0. tauto.
Qed.

Lemma str_body_ok (st : CORD_pos * Z * Z) :
  str_inv st ->
  match str_body x s (clen x) (clen s) start_len (pack (sub 0 start_len (chars s))) (256 ^ start_len - 1) st with
  | inl st' => str_inv st' /\ 0 <= clen x - st'.2 < clen x - st.2
  | inr r => str_post r
  end.
Proof.
  destruct st as [[xpos x_buf] m]. intros (Hm & Hfm & Hp & Hb & Hno). unfold str_body.
  destruct start_len_bounds as [Hsb Hss]. destruct limits as (Hx63 & Hxw & Hs63 & Hdx & Hds).
  pose proof (wfn_clen _ swf).
  destruct (str_match x_buf m) as (b & -> & Hocc); [lia|done|done|]. destruct b.
  { exists m. split; [done|]. right. split_and!; [done|done|by apply Hocc|done]. }
  assert (Hnm : ~ occurs m) by (intros Ho; apply Hocc in Ho; done).
  destruct (Z.eqb_spec m (clen x - clen s)) as [Em|Em].
  { exists CORD_NOT_FOUND. split; [done|]. left. split; [done|]. intros k Hk Hkf.
    destruct (decide (k = m)) as [->|]; [done|]. apply Hno. lia. }
  unfold pos_or_end in Hp. destruct (Z.ltb_spec (m + start_len) (clen x)); [|lia].
  rewrite (CORD_pos_fetch_ok x _ _ Hdx Hxw Hp).
  destruct (lookup_lt_is_Some_2 (chars x) (Z.to_nat (m + start_len))) as [c Hc]; [unfold zlen in *; lia|].
  rewrite Hc. destruct (CORD_next_ok x Hdx Hxw _ _ Hp) as (p' & -> & Hp').
  rewrite wrap64_small by lia. cbn [snd]. split; [|lia].
  assert (Hcb : is_byte c) by (eapply (Forall_lookup_1 _ _ _ _ (chars_bytes x xwf)); done).
  destruct (lookup_lt_is_Some_2 (chars x) (Z.to_nat m)) as [d Hd]; [unfold zlen in *; lia|].
  assert (Ew : sub m start_len (chars x) = d :: sub (m + 1) (start_len - 1) (chars x))
    by (apply sub_cons; [lia|lia|done]).
  split_and!; [lia|lia| | |].
  - by replace (m + 1 + start_len) with (m + start_len + 1) by lia.
  - assert (Hlw : zlen (d :: sub (m + 1) (start_len - 1) (chars x)) = start_len)
      by (rewrite <- Ew; apply zlen_sub; lia).
    rewrite Ew in Hb. rewrite <- Hlw in Hb at 1. rewrite <- Hlw at 1.
    rewrite (shift_in_window _ _ _ _ Hcb); [|lia|done|rewrite <- Ew; apply xbytes].
    f_equal. rewrite <- sub_snoc; [f_equal; lia|lia|lia|]. rewrite <- Hc. f_equal. lia.
  - intros k Hk. destruct (decide (k = m)) as [->|]; [done|]. apply Hno. lia.
Qed.

Lemma str_loop_ok (xpos : CORD_pos) (x_buf : Z) :
  str_inv (xpos, x_buf, start) ->
  exists r, loop (str_body x s (clen x) (clen s) start_len (pack (sub 0 start_len (chars s)))
                    (256 ^ start_len - 1)) (xpos, x_buf, start) = Some r /\ str_post r.
Proof.
  intros Hi. apply (loop_spec str_inv _ (fun st => clen x - st.2)).
  - intros st Hst. by apply str_body_ok.
  - done.
  - cbn [snd]. destruct limits as (_ & ? & _). pose proof (wfn_clen _ swf). lia.
Qed.
End Search.

(** ** [CORD_str] *)

(** The buffer and the length [CORD_str] takes from [s]. *)
Lemma str_prepare (s : cord) :
  cord_ok s -> clen s < CORD_LIMIT -> s <> CORD_EMPTY ->
  exists b, first_chars s b /\
    (is_string ← CORD_IS_STRING s;
     if is_string : bool then
       len ← GEN_LEN s; Some (match s with Str t => Some <$> c_string t | _ => [] end, len)
     else
       y ← CORD_substr s 0 STR_START_MAX_LEN; b ← CORD_to_char_star y; len ← CORD_len s;
       Some (b, len)) = Some (b, clen s).
Proof.
  intros Hs Hl Hn. assert (Hw : wfn s) by (by destruct Hs as [[?|?] _]).
  pose proof (start_len_bounds s Hs Hn) as [Hb Hbl]. rewrite CORD_IS_STRING_ok, some_bind by done.
  destruct (is_str s) eqn:Es.
  - rewrite GEN_LEN_ok, some_bind by done. destruct s as [|t| | |]; try done. eexists. split; [|done].
    intros i Hi. cbn [chars] in *. unfold c_string. rewrite list_lookup_fmap, lookup_app_l; [done|].
    unfold zlen in Hbl. lia.
  - destruct (CORD_substr_ok s 0 STR_START_MAX_LEN) as (y & -> & Hy & Hyc); [done|done|done|done|done|].
    rewrite some_bind, CORD_to_char_star_ok, some_bind, CORD_len_ok, some_bind.
    + eexists. split; [|done]. intros i Hi. rewrite list_lookup_fmap, Hyc. f_equal.
      unfold start_len, STR_START_MAX_LEN in *.
      rewrite lookup_app_l, sub_lookup; [done|lia|bcase; lia|].
      unfold sub. rewrite length_take, length_drop. unfold zlen in *. bcase; lia.
    + by destruct Hs.
    + by destruct Hy.
    + rewrite Hyc. unfold sub, STR_START_MAX_LEN, zlen. rewrite length_take, length_drop.
      change W64 with 18446744073709551616. lia.
Qed.

Lemma CORD_str_ok (x s : cord) (start : Z) :
  cord_ok x -> cord_ok s -> clen x < CORD_LIMIT -> clen s < CORD_LIMIT -> s <> CORD_EMPTY -> 0 <= start ->
  str_post x s start (CORD_str x start s).
Proof.
  intros Hx Hs Hxl Hsl Hn Hst. unfold CORD_str. rewrite (CORD_len_ok x), some_bind by (by destruct Hx).
  destruct (str_prepare s Hs Hsl Hn) as (b & Hb & Eb).
  assert (E : forall (k : option Z), match s with CORD_EMPTY => Some start | _ => k end = k) by (by destruct s).
  rewrite E. clear E.
  assert (Ek : forall (k : buffer * Z -> option Z),
    (is_string ← CORD_IS_STRING s;
     p ← (if is_string : bool then
       len ← GEN_LEN s; Some (match s with Str t => Some <$> c_string t | _ => [] end, len)
     else
       y ← CORD_substr s 0 STR_START_MAX_LEN; b ← CORD_to_char_star y; len ← CORD_len s;
       Some (b, len)); k p) = k (b, clen s)).
  { intros k. destruct (CORD_IS_STRING s) as [is_s|]; [|done]. cbn [mbind option_bind] in *. by rewrite Eb. }
  rewrite Ek. clear Ek Eb.
  destruct (Z.ltb_spec (clen x) start) as [?|Hxs]; cbn [orb].
  { exists CORD_NOT_FOUND. split; [done|]. left. split; [done|]. intros k ??. pose proof (zlen_nonneg (chars s)). lia. }
  destruct (Z.ltb_spec (clen x - start) (clen s)) as [?|Hfit].
  { exists CORD_NOT_FOUND. split; [done|]. left. split; [done|]. intros k ??. lia. }
  change (if STR_START_MAX_LEN <? clen s then STR_START_MAX_LEN else clen s) with (start_len s).
  cbn zeta. assert (Hfit' : start + clen s <= clen x) by lia.
  pose proof (start_len_bounds s Hs Hn) as [Hsb Hss].
  destruct (CORD_set_pos_ok x start pos_uninit) as (p & -> & Hp); [by destruct Hx|destruct Hx; lia|done|].
  rewrite some_bind.
  destruct (str_start_ok x s start Hx Hs Hxl Hsl Hn Hst Hfit' b (Z.to_nat (start_len s)) 0 p)
    as (p' & Es & Hp'); [done|lia|by rewrite Z.add_0_r|].
  change (pack (sub 0 (Z.of_nat 0) (chars s))) with 0 in Es.
  change (pack (sub start (Z.of_nat 0) (chars x))) with 0 in Es.
  change (256 ^ Z.of_nat 0 - 1) with 0 in Es. rewrite Es, some_bind.
  destruct (str_loop_ok x s start Hx Hs Hxl Hsl Hn Hst Hfit' p' (pack (sub start (start_len s) (chars x))))
    as (r & El & Hr).
  { split_and!; [lia|lia|done| |intros; lia]. apply Z.mod_small.
    pose proof (pack_bound (sub start (start_len s) (chars x))) as Hpb.
    rewrite zlen_sub in Hpb by lia. apply Hpb. by eapply xbytes. }
  rewrite El, some_bind. exact Hr.
Qed.

(** C34: [CORD_str x start s] finds the first occurrence of a nonempty [s] in [x] at
    [start] or later, and returns [CORD_NOT_FOUND] exactly when there is none: the
    sliding eight-byte window, its mask and the comparison of the rest agree with
    the comparison of the characters. *)
Theorem CORD_str_correct (x s : cord) (start : Z) :
  cord_ok x -> cord_ok s -> clen x < CORD_LIMIT -> clen s < CORD_LIMIT -> s <> CORD_EMPTY -> 0 <= start ->
  exists v, CORD_str x start s = Some v /\
    (v = CORD_NOT_FOUND /\
     (forall k, start <= k -> k + clen s <= clen x -> sub k (clen s) (chars x) <> chars s) \/
     start <= v /\ v + clen s <= clen x /\ sub v (clen s) (chars x) = chars s /\
     forall k, start <= k < v -> sub k (clen s) (chars x) <> chars s).
Proof. exact (CORD_str_ok x s start). Qed.

Lemma CORD_str_correct_witness :
  exists v, CORD_str sample_cord 0 (Str [99; 100]) = Some v /\
    (v = CORD_NOT_FOUND /\
     (forall k, 0 <= k -> k + clen (Str [99; 100]) <= clen sample_cord ->
                sub k (clen (Str [99; 100])) (chars sample_cord) <> chars (Str [99; 100])) \/
     0 <= v /\ v + clen (Str [99; 100]) <= clen sample_cord /\
     sub v (clen (Str [99; 100])) (chars sample_cord) = chars (Str [99; 100]) /\
     forall k, 0 <= k < v -> sub k (clen (Str [99; 100])) (chars sample_cord) <> chars (Str [99; 100])).
Proof.
  apply (CORD_str_correct sample_cord (Str [99; 100]) 0);
    [apply sample_cord_ok|cord_wf|vm_compute; reflexivity|vm_compute; reflexivity|discriminate|lia].
Defined.

End CordStr.
