(* ===== verification/CordFile.v ===== *)
(** * CordFile: extensible cords and files

    An extensible cord is a cord and a buffer of pending characters; reading a file
    eagerly appends to one, with the runs of NUL characters as function nodes.  A
    file read lazily is a function node over a direct-mapped cache of lines. *)

From Stdlib Require Import ZArith Lia.
From stdpp Require Import base gmap list.
From S2P Require Import Prelude Cord CordSem CordCat CordBalance CordOps CordPos CordXtra CordXtraOk.

Module CordFile.
Import Cord CordSem CordCat CordBalance CordOps CordPos CordXtra CordXtraOk.


(** ** Extensible cords *)

(** The extensible cord [e] stands for [l]. *)
Record ec_ok (l : list Z) (e : CORD_ec) : Prop := {
  eo_cord : cord_ok (ec_cord e);
  eo_buf : Forall is_char (ec_buf e);
  eo_len : zlen (ec_buf e) <= CORD_BUFSZ;
  eo_chars : chars (ec_cord e) ++ ec_buf e = l }.

Lemma ec_init_ok : ec_ok [] CORD_ec_init.
Proof. split; [split; [by left|done]|constructor|done|done]. Qed.

Lemma CORD_ec_flush_buf_ok (l : list Z) (e : CORD_ec) :
  ec_ok l e -> zlen l < CORD_LIMIT ->
  exists e', CORD_ec_flush_buf e = Some e' /\ ec_ok l e' /\ ec_buf e' = [] /\ chars (ec_cord e') = l.
Proof.
  intros [Hc Hb Hl Hch] Hlim. unfold CORD_ec_flush_buf. change (Z.of_nat (length (ec_buf e))) with (zlen (ec_buf e)).
  destruct (Z.eqb_spec (zlen (ec_buf e)) 0) as [E|E].
  - exists e. assert (En : ec_buf e = []) by (destruct (ec_buf e); [done|rewrite zlen_cons in E; pose proof (zlen_nonneg l0); lia]).
    split_and!; [done|done|done|]. by rewrite <- Hch, En, app_nil_r.
  - assert (HL : clen (ec_cord e) + zlen (ec_buf e) = zlen l) by (by rewrite <- Hch, zlen_app).
    pose proof CORD_LIMIT_W64. pose proof (zlen_nonneg (chars (ec_cord e))).
    destruct (CORD_cat_char_star_ok (ec_cord e) (c_string (ec_buf e)) (zlen (ec_buf e)))
      as (z & Ez & Hz & Hzc); [done|apply buf_ok_c_string; [done|lia]|lia|].
    change (ec_buf e ++ [0]) with (c_string (ec_buf e)). rewrite Ez. cbn [mbind option_bind].
    rewrite sub_c_string, sub_all, Hch in Hzc by lia.
    eexists. split; [done|]. split_and!; [|done|done].
    split; [done|constructor|done|]. cbn. by rewrite app_nil_r.
Qed.

Lemma CORD_ec_append_ok (l : list Z) (e : CORD_ec) (c : Z) :
  ec_ok l e -> is_char c -> zlen l < CORD_LIMIT ->
  exists e', CORD_ec_append e c = Some e' /\ ec_ok (l ++ [c]) e'.
Proof.
  intros He Hc Hlim. unfold CORD_ec_append.
  assert (H : exists e1, (if Z.of_nat (length (ec_buf e)) =? CORD_BUFSZ then CORD_ec_flush_buf e else Some e) = Some e1
    /\ ec_ok l e1 /\ zlen (ec_buf e1) < CORD_BUFSZ).
  { destruct (Z.eqb_spec (Z.of_nat (length (ec_buf e))) CORD_BUFSZ) as [E|E].
    - destruct (CORD_ec_flush_buf_ok l e) as (e1 & ? & ? & Eb & _); [done..|].
      exists e1. split_and!; [done|done|]. by rewrite Eb.
    - exists e. split_and!; [done|done|]. pose proof (eo_len _ _ He). unfold zlen in *. lia. }
  destruct H as (e1 & -> & [Hcc Hb Hl Hch] & Hlt). cbn [mbind option_bind].
  destruct (Z.ltb_spec (Z.of_nat (length (ec_buf e1))) (CORD_BUFSZ + 1)); [|unfold zlen in *; lia].
  eexists. split; [done|]. split; cbn.
  - done.
  - apply Forall_app. split; [done|]. by constructor.
  - rewrite zlen_app. change (zlen [c]) with 1. lia.
  - by rewrite app_assoc, Hch.
Qed.

Lemma CORD_ec_append_cord_ok (l : list Z) (e : CORD_ec) (s : cord) :
  ec_ok l e -> cord_ok s -> zlen l + clen s < CORD_LIMIT ->
  exists e', CORD_ec_append_cord e s = Some e' /\ ec_ok (l ++ chars s) e'.
Proof.
  intros He Hs Hlim. unfold CORD_ec_append_cord. pose proof (zlen_nonneg (chars s)).
  destruct (CORD_ec_flush_buf_ok l e) as (e1 & -> & [Hc _ _ _] & Eb & Hch); [done|lia|]. cbn [mbind option_bind].
  destruct (CORD_cat_ok (ec_cord e1) s) as (z & -> & Hz & Hzc); [done|done|by rewrite Hch|]. cbn [mbind option_bind].
  eexists. split; [done|]. split; cbn; rewrite ?Eb; [done|constructor|done|].
  by rewrite app_nil_r, Hzc, Hch.
Qed.

(** ** Eager reading *)

Lemma count_nuls_ok (f : list Z) (count : Z) :
  0 <= count -> count + zlen f < W64 ->
  exists k rest, count_nuls f count = (count + Z.of_nat k, rest) /\ f = replicate k 0 ++ rest /\
                 forall c g, rest = c :: g -> c <> 0.
Proof.
  revert count. induction f as [|c f IH]; intros count Hc Hl; cbn [count_nuls].
  { exists 0%nat, []. split_and!; [by rewrite Z.add_0_r|done|done]. }
  rewrite zlen_cons in Hl. pose proof (zlen_nonneg f). destruct (Z.eqb_spec c 0) as [->|Hne].
  - rewrite wrap64_small by lia. destruct (IH (count + 1)) as (k & rest & -> & Ef & Hr); [lia|lia|].
    exists (S k), rest. split_and!; [f_equal; lia|cbn; by rewrite <- Ef|done].
  - exists 0%nat, (c :: f). split_and!; [by rewrite Z.add_0_r|done|]. by intros ?? [= -> ->].
Qed.

(** A run of NUL characters becomes one function node. *)
Lemma nuls_ok (l : list Z) (e : CORD_ec) (n : nat) :
  ec_ok l e -> zlen l + Z.of_nat n < CORD_LIMIT ->
  exists e', (ec ← CORD_ec_flush_buf e; nuls ← CORD_nul (Z.of_nat n); c ← CORD_cat (ec_cord ec) nuls;
              Some {| ec_cord := c; ec_buf := ec_buf ec |}) = Some e' /\ ec_ok (l ++ replicate n 0) e'.
Proof.
  intros He Hlim. destruct (CORD_ec_flush_buf_ok l e) as (e1 & -> & [Hc _ _ _] & Eb & Hch); [done|lia|].
  cbn [mbind option_bind]. pose proof CORD_LIMIT_W64. pose proof (zlen_nonneg l).
  destruct (CORD_chars_ok 0 (Z.of_nat n)) as (y & Ey & Hy & Hyc); [lia|]. unfold CORD_nul. rewrite Ey.
  cbn [mbind option_bind]. rewrite Zmod_0_l, Nat2Z.id in Hyc.
  destruct (CORD_cat_ok (ec_cord e1) y) as (z & -> & Hz & Hzc); [done|done| |].
  { rewrite Hch, Hyc. unfold zlen. rewrite length_replicate. unfold zlen in *. lia. }
  cbn [mbind option_bind]. eexists. split; [done|]. split; cbn; rewrite ?Eb; [done|constructor|done|].
  by rewrite app_nil_r, Hzc, Hch, Hyc.
Qed.

Lemma from_file_loop_ok (fuel : nat) (f l : list Z) (e : CORD_ec) :
  (length f < fuel)%nat -> Forall is_byte f -> ec_ok l e -> zlen l + zlen f < CORD_LIMIT ->
  exists e', from_file_loop fuel f e = Some e' /\ ec_ok (l ++ f) e'.
Proof.
  revert f l e. induction fuel as [|fuel IH]; intros f l e Hf Hb He Hlim; [lia|]. cbn [from_file_loop].
  pose proof CORD_LIMIT_W64. pose proof (zlen_nonneg l).
  assert (Hhead : exists g l' e',
    (match f with
     | 0 :: f' =>
       ec ← CORD_ec_flush_buf e;
       let '(count, f') := count_nuls f' 1 in
       nuls ← CORD_nul count; c ← CORD_cat (ec_cord ec) nuls;
       Some (f', {| ec_cord := c; ec_buf := ec_buf ec |})
     | _ => Some (f, e)
     end) = Some (g, e') /\ ec_ok l' e' /\ l ++ f = l' ++ g /\
      (length g <= length f)%nat /\ Forall is_byte g /\ (forall c h, g = c :: h -> c <> 0)).
  { destruct f as [|[|p|p] f].
    - exists [], l, e. by split_and!.
    - rewrite zlen_cons in Hlim. pose proof (zlen_nonneg f).
      destruct (count_nuls_ok f 1) as (k & rest & -> & Ef & Hr); [lia|lia|].
      destruct (nuls_ok l e (S k)) as (e' & E & He'); [done| |].
      { assert (zlen f = Z.of_nat k + zlen rest) as Hz by (rewrite Ef, zlen_app; unfold zlen; rewrite length_replicate; lia).
        pose proof (zlen_nonneg rest). lia. }
      exists rest, (l ++ replicate (S k) 0), e'. split_and!; [|done| | | |done].
      + replace (1 + Z.of_nat k) with (Z.of_nat (S k)) by lia.
        destruct (CORD_ec_flush_buf e) as [e1|]; [|done]. cbn [mbind option_bind] in *.
        destruct (CORD_nul (Z.of_nat (S k))) as [nu|]; [|done]. cbn [mbind option_bind] in *.
        destruct (CORD_cat (ec_cord e1) nu) as [z|]; [|done]. cbn [mbind option_bind] in *. by injection E as ->.
      + rewrite Ef, <- app_assoc. done.
      + rewrite Ef. cbn [length]. rewrite length_app. lia.
      + apply Forall_cons in Hb as [_ Hb]. rewrite Ef in Hb. by apply Forall_app in Hb as [_ ?].
    - exists (Z.pos p :: f), l, e. split_and!; try done. by intros ?? [= <- _].
    - exists (Z.neg p :: f), l, e. split_and!; try done. by intros ?? [= <- _]. }
  destruct Hhead as (g & l' & e' & -> & He' & Ec & Hgl & Hgb & Hg). cbn [mbind option_bind].
  rewrite Ec. destruct g as [|c g]; [exists e'; by rewrite app_nil_r|].
  apply (f_equal zlen) in Ec. rewrite !zlen_app, zlen_cons in Ec. pose proof (zlen_nonneg g).
  apply Forall_cons in Hgb as [Hc Hgb]. specialize (Hg c g eq_refl).
  destruct (CORD_ec_append_ok l' e' c) as (e2 & -> & He2); [done|unfold is_char, is_byte in *; lia|lia|].
  cbn [mbind option_bind length] in *.
  destruct (IH g (l' ++ [c]) e2) as (e3 & ? & He3); [lia|done|done| |].
  { rewrite zlen_app. change (zlen [c]) with 1. lia. }
  exists e3. split; [done|]. by rewrite <- app_assoc in He3.
Qed.

(** Reading a file eagerly gives a well-formed cord of exactly the bytes of the
    file, NUL characters included. *)
Theorem CORD_from_file_eager_correct (f : list Z) :
  Forall is_byte f -> zlen f < CORD_LIMIT ->
  exists x, CORD_from_file_eager f = Some x /\ cord_ok x /\ chars x = f.
Proof.
  intros Hb Hl. unfold CORD_from_file_eager.
  destruct (from_file_loop_ok (S (length f)) f [] CORD_ec_init) as (e & -> & He);
    [lia|done|apply ec_init_ok|done|]. cbn [mbind option_bind]. unfold CORD_ec_to_cord.
  destruct (CORD_ec_flush_buf_ok _ e He) as (e' & -> & [Hc _ _ _] & _ & Hch); [done|].
  cbn [mbind option_bind]. destruct (CORD_balance_ok (ec_cord e')) as (x & ? & ? & Hx & ?);
    [by destruct Hc|by rewrite Hch|].
  exists x. split_and!; [done|by split|by rewrite Hx, Hch].
Qed.

Lemma CORD_from_file_eager_correct_witness :
  exists x, CORD_from_file_eager [104; 105; 0; 0; 255] = Some x /\ cord_ok x /\
            chars x = [104; 105; 0; 0; 255].
Proof.
  apply CORD_from_file_eager_correct; [|vm_compute; reflexivity].
  repeat constructor; unfold is_byte; lia.
Defined.

(** ** Lazy reading *)

Lemma lf_arith (i : Z) :
  LINE_SZ = 512 /\ MOD_LINE_SZ i = i mod 512 /\ DIV_LINE_SZ i = i / 512 /\ LINE_START i = 512 * (i / 512).
Proof.
  split_and!; [done| | |].
  - unfold MOD_LINE_SZ. change (LINE_SZ - 1) with (2 ^ 9 - 1). apply land_low_mask. lia.
  - unfold DIV_LINE_SZ, LOG_LINE_SZ. rewrite Z.shiftr_div_pow2 by lia. done.
  - unfold LINE_START. change (LINE_SZ - 1) with (2 ^ 9 - 1). rewrite land_high_mask by lia.
    change (2 ^ 9) with 512. pose proof (Z.div_mod i 512). lia.
Qed.

(** The cache holds lines of the file, and the file position is known while it
    matters. *)
Record lf_ok (content : list Z) (st : lf_state) : Prop := {
  lo_bytes : f_bytes (lf_file st) = content;
  lo_lines : forall k cl, lf_cache st !! k = Some cl ->
               0 <= tag cl /\ data cl = sub (512 * tag cl) 512 content;
  lo_pos : lf_current st < zlen content -> f_pos (lf_file st) = lf_current st }.

(** A byte of a line. *)
Lemma line_get (content : list Z) (i : Z) :
  0 <= i < zlen content ->
  get (sub (512 * (i / 512)) 512 content) (i mod 512) = content !! Z.to_nat i.
Proof.
  intros Hi. pose proof (Z.mod_pos_bound i 512). pose proof (Z.div_mod i 512).
  rewrite get_spec, sub_lookup by dlia. f_equal. dlia.
Qed.

Lemma refill_cache_ok (content : list Z) (st : lf_state) (i : Z) :
  lf_ok content st -> 0 <= i < zlen content -> zlen content < 2 ^ 63 ->
  exists c st', refill_cache st i = Some (c, st') /\ content !! Z.to_nat i = Some c /\ lf_ok content st'.
Proof.
  intros [Hb Hlines Hpos] Hi Hl. unfold refill_cache.
  destruct (lf_arith i) as (Esz & Em & Ed & Els). rewrite Esz, Em, Ed, Els. set (ls := 512 * (i / 512)).
  assert (Hls : 0 <= ls <= i /\ i < ls + 512) by (subst ls; dlia).
  set (f := if negb (ls =? lf_current st) then fseek (lf_file st) ls else lf_file st).
  assert (Hf : f_bytes f = content /\ f_pos f = ls).
  { subst f. destruct (Z.eqb_spec ls (lf_current st)) as [E|E]; cbn [negb]; [|by split].
    split; [done|]. rewrite Hpos; lia. }
  destruct Hf as [Hfb Hfp]. unfold fread. rewrite Hfb, Hfp.
  change (take (Z.to_nat 512) (drop (Z.to_nat ls) content)) with (sub ls 512 content).
  assert (Hd : zlen (sub ls 512 content) = Z.min 512 (zlen content - ls)).
  { unfold sub, zlen. rewrite length_take, length_drop. unfold zlen in *. lia. }
  change (Z.of_nat (length (sub ls 512 content))) with (zlen (sub ls 512 content)). rewrite Hd.
  destruct (Z.leb_spec (Z.min 512 (zlen content - ls)) (i - ls)); [lia|]. cbn [data].
  destruct (lookup_lt_is_Some_2 content (Z.to_nat i)) as [c Hc]; [unfold zlen in *; lia|].
  pose proof (line_get content i Hi) as Hg. fold ls in Hg. rewrite Hg, Hc. cbn [mbind option_bind].
  eexists c, _. split; [done|]. split; [done|]. split; cbn.
  - done.
  - intros k cl [[_ <-]|[_ Hk]]%lookup_insert_Some; [|by eapply Hlines]. cbn. split; [dlia|done].
  - assert (2 ^ 63 + 512 < W64) by done. rewrite wrap64_small by lia. lia.
Qed.

Lemma CORD_lf_func_ok (content : list Z) (st : lf_state) (i : Z) :
  lf_ok content st -> 0 <= i < zlen content -> zlen content < 2 ^ 63 ->
  exists c st', CORD_lf_func i st = Some (c, st') /\ content !! Z.to_nat i = Some c /\ lf_ok content st'.
Proof.
  intros Hst Hi Hl. unfold CORD_lf_func. destruct (lf_arith i) as (_ & Em & Ed & _).
  destruct (lf_cache st !! _) as [cl|] eqn:Ecl; [|by apply refill_cache_ok].
  rewrite Ed, Em. destruct (Z.eqb_spec (tag cl) (i / 512)) as [Et|Et]; [|by apply refill_cache_ok].
  destruct (lo_lines _ _ Hst _ _ Ecl) as [_ ->]. rewrite Et, line_get by done.
  destruct (lookup_lt_is_Some_2 content (Z.to_nat i)) as [c Hc]; [unfold zlen in *; lia|].
  rewrite Hc. cbn [mbind option_bind]. by exists c, st.
Qed.

(** A sequence of accesses to the cord of a lazily read file. *)
Fixpoint lf_reads (idxs : list Z) (st : lf_state) : option (list Z) :=
  match idxs with
  | [] => Some []
  | i :: idxs => '(c, st) ← CORD_lf_func i st; cs ← lf_reads idxs st; Some (c :: cs)
  end.

(** C40: Whatever accesses are made in whatever order, from the state
    [CORD_from_file_lazy] sets up, the cached access function returns the byte of
    the file at each index: cache hits, conflict misses, short last lines and
    skipped seeks are not observable. *)
Theorem lf_reads_correct (f : file) (idxs : list Z) :
  zlen (f_bytes f) < 2 ^ 63 -> f_pos f = 0 -> Forall (fun i => 0 <= i < zlen (f_bytes f)) idxs ->
  exists cs, lf_reads idxs (lf_init f (zlen (f_bytes f))) = Some cs /\
             Forall2 (fun i c => f_bytes f !! Z.to_nat i = Some c) idxs cs.
Proof.
  intros Hl Hp Hi. set (content := f_bytes f).
  assert (H0 : lf_ok content (lf_init f (zlen content))).
  { unfold lf_init. destruct (Z.eqb_spec (zlen content) 0); cbn [negb]; by split. }
  revert H0. generalize (lf_init f (zlen content)). induction Hi as [|i idxs Hi _ IH]; intros st Hst.
  { exists []. by split. }
  cbn [lf_reads]. destruct (CORD_lf_func_ok content st i) as (c & st' & -> & Hc & Hst'); [done..|].
  cbn [mbind option_bind]. destruct (IH st' Hst') as (cs & -> & Hcs). cbn [mbind option_bind].
  exists (c :: cs). split; [done|]. by constructor.
Qed.

Lemma lf_reads_correct_witness :
  exists cs, lf_reads [600; 0; 700; 1] (lf_init {| f_bytes := replicate 701 7; f_pos := 0 |} 701) = Some cs /\
             Forall2 (fun i c => (replicate 701 7 : list Z) !! Z.to_nat i = Some c) [600; 0; 700; 1] cs.
Proof.
  apply (lf_reads_correct {| f_bytes := replicate 701 7; f_pos := 0 |} [600; 0; 700; 1]);
    [vm_compute; reflexivity|reflexivity|].
  repeat constructor; vm_compute; congruence.
Defined.

End CordFile.
